(* ===== verification/_CoqProject ===== *)
-Q . S2P
Prelude.v
Panic.v
Bytes.v
RuntimeTypes.v
Capability.v
CapabilityProofs.v
Journal.v
JournalProofs.v
Runtime.v
RuntimeOps.v
Journaled.v
RuntimeFrame.v
RuntimeInv.v
RuntimeProgress.v
SupervisedProgress.v
RuntimeTeardown.v
RuntimeConstruct.v
RuntimeTheorems.v
Ipc.v
Approval.v
JournaledInv.v
JournaledTraps.v
JournaledTeardown.v
JournaledTheorems.v
BootContract.v
FrameAllocator.v
Extents.v
FrameInit.v
FrameOps.v
FrameTheorems.v
BootNormalize.v
BootNormalizeProofs.v
BootValidate.v
BootTheorems.v
AddressSpace.v
AddressSpaceProofs.v
AddressSpaceTheorems.v
KernelImage.v
KernelImageProofs.v
KernelImageTheorems.v
Loader.v
LoaderProofs.v
LoaderTheorems.v
KernelBoot.v
KernelBootProofs.v
BootChain.v
Text.v
AdmissionRecords.v
AdmissionRecordsProofs.v
AdmissionManifest.v
AdmissionManifestProofs.v
AdmissionDocuments.v
AdmissionSource.v
AdmissionComponent.v
AdmissionComponentProofs.v
AdmissionBundle.v
AdmissionBundleProofs.v
AdmissionSpec.v
AdmissionTheorems.v
AdmissionCli.v
AdmissionCliProofs.v
PageTables.v
PageTablesProofs.v
PageTablesTheorems.v
FrameReturns.v
KernelBackend.v
KernelBackendProofs.v
KernelSpaces.v
KernelSpacesTheorems.v
KernelDescriptors.v
KernelDescriptorsProofs.v
KernelScheduler.v
KernelRuntimeProofs.v
KernelInvariant.v
KernelRun.v
KernelTheorems.v
UserProbes.v
UserRun.v
Serial.v
BootRun.v
