(* ===== verification/Prelude.v ===== *)
(** * MakopaOS verification library

    MakopaOS is a small x86-64 operating system in Rust.  A UEFI loader places a
    kernel image and hands over a description of memory; the kernel validates it,
    manages physical frames, builds two task address spaces and runs two tasks
    that communicate, launch and ask for approvals only through capabilities; a
    host-side tool admits component bundles.  This library models those parts
    from the sources under [src/] and proves what each promises and how they fit
    together, up to the run of the whole system from power-on to its exit code.

    ** Parts, sources and files

    - Shared vocabulary.  [Prelude] (results, the state-and-error monad, [u64]
      arithmetic, the [repr(C)] layout algorithm, automation), [Panic]
      (operations that may panic), [Bytes] (byte strings, structures in memory)
      and [Text] (UTF-8, splitting, decimals).
    - Task runtime, [crates/task-runtime/src/lib.rs].  [RuntimeTypes] holds the
      ABI records and constants, [Capability] the sixteen-slot capability
      tables, [Journal] the effect journal, [Runtime] the task slots, broker,
      endpoint, run queue, constructors, dispatch and run-time validator,
      [RuntimeOps] the thirteen trap operations and teardown, [Journaled] the
      runtime together with its journal.  Proofs: [CapabilityProofs],
      [JournalProofs] (with the layouts of the ABI records), [RuntimeFrame],
      [RuntimeInv], [RuntimeProgress], [SupervisedProgress], [RuntimeTeardown],
      [RuntimeConstruct], [RuntimeTheorems], [Ipc], [Approval], [JournaledInv]
      (with the replay of the log), [JournaledTraps], [JournaledTeardown],
      [JournaledTheorems].
    - Boot contract, [crates/boot-contract/src].  [BootContract] ([lib.rs]),
      [BootNormalize] ([normalize.rs]), [BootValidate] ([validate.rs]); abstract
      memory maps and proofs in [BootNormalizeProofs], [BootTheorems].
    - Frame allocator, [crates/frame-allocator/src/lib.rs].  [FrameAllocator];
      proofs in [Extents], [FrameInit], [FrameOps], [FrameTheorems], and
      [FrameReturns] for its clients.
    - Address spaces, [crates/address-space/src/lib.rs].  [AddressSpace], over a
      type class for the backend trait; the ownership protocol and the proofs in
      [AddressSpaceProofs], [AddressSpaceTheorems].
    - Kernel image, [crates/kernel-image/src/lib.rs].  [KernelImage],
      [KernelImageProofs], [KernelImageTheorems].
    - Loader, [loader/src/main.rs].  [Loader], over a type class of the firmware
      calls; [LoaderProofs] (with the laws it relies on), [LoaderTheorems].
    - Kernel entry and console, [kernel/src/main.rs].  [KernelBoot] is
      [kernel_entry] up to the recovery context, with [KernelBootProofs];
      [BootRun.boot_kernel] is the entry to its end; [Serial] is [SerialPort],
      [exit_qemu] and the panic handler over port accesses.
    - x86-64 layer, [kernel/src/arch_x86_64.rs].
      [PageTables] ([BootstrapBuilder], [prepare_recovery_context]), over memory
      words; [PageTablesProofs] (the tree of tables as a map from pages to
      entries), [PageTablesTheorems] (that it translates exactly the image).
      [KernelBackend] ([KernelBackend], [with_temporary_frame], [probe_bytes]),
      an instance of the address-space backend over the same memory words, the
      frame allocator and the recovery state; [KernelBackendProofs],
      [KernelSpaces], [KernelSpacesTheorems].
      [KernelDescriptors] ([install_descriptor_tables] and what the processor
      reads back), [KernelDescriptorsProofs].
      [KernelScheduler]: the recovery entry, the isolation probe, the three
      schedulers, the dispatch of traps and exceptions, teardown and the final
      checks, over the kernel's statics; [KernelRuntimeProofs] (the runtimes as
      the kernel uses them), [KernelInvariant] (which frames are out and what
      their memory holds), [KernelRun] (one trap, one teardown, one phase),
      [KernelTheorems] (whole runs against arbitrary user code).
      [UserProbes]: the seven user programs of the assembly, an interpreter for
      the instructions they use, written over a [Domain] of values, and their
      symbolic runs; [UserRun]: those runs on the kernel.
    - Component admission, [tools/component-admission/admission/src].
      [AdmissionRecords], [AdmissionManifest], [AdmissionDocuments],
      [AdmissionSource], [AdmissionComponent], [AdmissionBundle] ([lib.rs]) and
      [AdmissionCli] ([main.rs]); proofs in [AdmissionRecordsProofs],
      [AdmissionManifestProofs], [AdmissionComponentProofs],
      [AdmissionBundleProofs], [AdmissionSpec], [AdmissionTheorems],
      [AdmissionCliProofs].
    - Composition.  [BootChain] joins firmware, loader, image, memory map,
      allocator and kernel entry; [BootRun] goes from power-on to the exit code.

    ** How the code is modelled

    A structure is a [Record], an enum an [Inductive], a [&mut self] method a
    computation [M S E A] that returns the state on the error path too, because
    an [Err] keeps the writes made before it; a public entry point that restores
    the saved state on failure is [transactional].  Machine integers are [Z] with
    checked, saturating and wrapping operations written out.  In the boot crates
    an array index, a slice or a plain addition may panic: those computations
    return an [option] ([None] is a panic) and the theorems show [Some].
    Functions and loops are executable; witnesses evaluate them on concrete
    inputs.

    The kernel's functions never return, so in [KernelScheduler] they end in a
    [Control]: the exit with its code, user mode with the registers it starts
    from, or [Stopped] for a panic or a fault of the kernel.  User mode is
    arbitrary in [KernelTheorems]: its registers and the words its page tables
    let it write change in any way, and then a trap or an exception enters the
    kernel.  In [UserRun] it is the interpreter of the probes.

    Code that is not in the repository is a parameter.  The page-table backend
    ([AddressSpaceBackend]), the firmware ([Uefi]) and the ports ([Ports]) are
    type classes over an abstract state; [UefiLaws] states what the loader needs
    of the firmware (aligned, disjoint page allocations, which the final map does
    not call conventional), [UartLaws] that the transmitter becomes free in
    bounded time, and both have concrete instances.  The crates the admission
    tool calls (hash, signature, WebAssembly validator and parser, WIT parser)
    are the class [Crates]; its two laws are the length of a digest and that
    counts are unsigned.  The file system is a tree of nodes each of which may
    answer with an error.  What the linker and the assembler choose (section
    addresses, where an instruction lies) are parameters with the conditions the
    linker script and the assembly state.

    ** What the theorems show

    - Task runtime: the invariant of the runtime holds in every reachable state
      and implies the run-time validator; every trap of a running task and every
      teardown is handled (no internal error is reachable, apart from the case
      [teardown_total] states); authority is never amplified and closed handles
      stay stale; messages arrive once and in order, apart from the one a receiver
      leaves unread when it exits; the broker and effect refine an abstract
      approval protocol, so in every run, teardowns included, no effect happens
      without a matching approval; the journal replays to that protocol's state; the ABI records
      have the layouts the assembly relies on.
    - Memory: normalisation produces the overlay of the firmware map with the
      overrides, the validator accepts exactly the handoff contract, the
      allocator initialises and releases exactly and never hands out a frame
      twice; address-space construction and teardown follow the ownership
      protocol for every backend and lose no frame.
    - Boot: the image parser accepts exactly the images of a declarative
      description and its iterator terminates; against a lawful firmware the
      loader never panics and enters the kernel only with every segment placed
      and a handoff the kernel accepts; no frame the kernel hands out touches the
      image, the handoff or the framebuffer; the recovery address space maps
      exactly the kernel's sections and two stacks, none writable and executable.
    - Task spaces on real memory: through the temporary window the kernel builds
      two spaces whose page walks reach exactly each task's text and stack and
      the kernel's own mappings, sharing no frame; a failed construction restores
      the free list; teardown returns all seven frames whenever the extent array
      has room for them (the decision record names fragmentation as the one
      reason a frame cannot be returned).
    - The kernel against arbitrary user code: it never panics and never faults;
      user mode is confined to its text and stack; the trap path implements the
      runtime; the success code is reached only with the reference journal; the
      descriptor tables admit user code at one gate only.
    - The reference run: the user programs, instruction by instruction, take the
      kernel to the success code; and so does the whole system from power-on,
      with exactly the lines of [BootRun.transcript], which the console delivers
      byte by byte.
    - Admission: the records and the manifest are canonical encodings; the
      component inspection and the staged tree are checked exactly; the tool
      admits exactly the bundles of [AdmissionSpec.admitted]; one admission
      record determines the whole bundle, staged contents included, up to a hash
      collision.

    ** Bounds and fuel

    Loops over arrays and slices are structural recursions over lists.  Where the
    code loops on a counter, the recursion is over the array's capacity or the
    length of the remaining input, and the theorems that the function returns are
    stated without a fuel hypothesis.  A turn of a user program is at most
    [TURN_FUEL] instructions between two traps and a phase at most [PHASE_TURNS]
    turns; the symbolic runs evaluate within them, and the run theorems say that
    some number of steps reaches the end.  A wait for the transmitter polls at
    most once more than [busy_bound].  Decimals are printed with twenty digits,
    which hold every [u64].  [usize] is 64 bits.

    ** Not modelled

    - Of the processor: the accessed and dirty bits of page-table entries,
      address-translation caches, the encoding of instructions, and the kernel's
      own stacks as memory (the entry stubs are modelled by what they save, load
      and jump to; the trap stub loads the first field of [RecoveryState] as the
      root, a layout the compiler does not promise for a structure that is not
      [repr(C)]).
    - Accessors that copy fields verbatim are the projections of the records.
    - The Python scripts around the build, and the tests. *)

From stdpp Require Export base decidable list numbers option relations.
From Stdlib Require Export ZArith Lia Bool.

#[global] Open Scope Z_scope.

(** ** Results: Rust's [Result<A, E>] *)

Inductive result (A E : Type) : Type :=
| Ok (a : A)
| Err (e : E).

Arguments Ok {A E} a.
Arguments Err {A E} e.

#[global] Instance result_eq_dec `{EqDecision A, EqDecision E} : EqDecision (result A E).
Proof. solve_decision. Defined.

Definition is_ok {A E} (r : result A E) : bool :=
  match r with Ok _ => true | Err _ => false end.

Definition is_err {A E} (r : result A E) : bool := negb (is_ok r).

(** [Result::ok] *)
Definition ok {A E} (r : result A E) : option A :=
  match r with Ok a => Some a | Err _ => None end.

(** [Result::err] *)
Definition err {A E} (r : result A E) : option E :=
  match r with Ok _ => None | Err e => Some e end.

(** [Option::ok_or] *)
Definition ok_or {A E} (o : option A) (e : E) : result A E :=
  match o with Some a => Ok a | None => Err e end.

(** [Result::map_err] *)
Definition map_err {A E F} (f : E -> F) (r : result A E) : result A F :=
  match r with Ok a => Ok a | Err e => Err (f e) end.

Declare Scope makopa_scope.
Delimit Scope makopa_scope with makopa.
#[global] Open Scope makopa_scope.

(** The [?] operator on a pure [Result]. *)
Notation "'let?' x ':=' r 'in' k" :=
  (match r with Ok x => k | Err e => Err e end)
  (at level 10, x pattern, r at level 100, k at level 200,
   format "'[v' 'let?'  x  ':='  r  'in' '/' k ']'") : makopa_scope.

(** ** State passing with errors: a [&mut self] method returning a [Result].

    The state is returned on the error path too, because a Rust method that
    returns [Err] keeps the writes it made before. *)

Definition M (S E A : Type) : Type := S -> result A E * S.

Definition retM {S E A} (a : A) : M S E A := fun s => (Ok a, s).
Definition throwM {S E A} (e : E) : M S E A := fun s => (Err e, s).
Definition getM {S E} : M S E S := fun s => (Ok s, s).
Definition putM {S E} (s : S) : M S E unit := fun _ => (Ok tt, s).
Definition modifyM {S E} (f : S -> S) : M S E unit := fun s => (Ok tt, f s).
Definition liftM {S E A} (r : result A E) : M S E A := fun s => (r, s).

(** A read-only method of the current state, followed by [?]. *)
Definition readM {S E A} (f : S -> result A E) : M S E A := fun s => (f s, s).

Definition bindM {S E A B} (m : M S E A) (k : A -> M S E B) : M S E B :=
  fun s =>
    match m s with
    | (Ok a, s') => k a s'
    | (Err e, s') => (Err e, s')
    end.

Notation "'let!' x ':=' m 'in' k" := (bindM m (fun x => k))
  (at level 10, x pattern, m at level 100, k at level 200,
   format "'[v' 'let!'  x  ':='  m  'in' '/' k ']'") : makopa_scope.

Notation "'do!' m 'in' k" := (bindM m (fun _ => k))
  (at level 10, m at level 100, k at level 200,
   format "'[v' 'do!'  m  'in' '/' k ']'") : makopa_scope.

(** [let before = *self; let result = inner; if result.is_err() { *self = before }] *)
Definition transactional {S E A} (m : M S E A) : M S E A :=
  fun s =>
    match m s with
    | (Ok a, s') => (Ok a, s')
    | (Err e, _) => (Err e, s)
    end.

(** ** Machine integers: [u64] and [usize] values as [Z] in [0, 2^64) *)

Definition two64 : Z := 18446744073709551616.
Definition U64_MAX : Z := 18446744073709551615.

(** The range a [u64] (or a 64-bit [usize]) inhabits. *)
Definition u64 (x : Z) : Prop := 0 <= x < 18446744073709551616.

Definition checked_add (a b : Z) : option Z :=
  if a + b <? two64 then Some (a + b) else None.

Definition checked_sub (a b : Z) : option Z :=
  if b <=? a then Some (a - b) else None.

Definition checked_mul (a b : Z) : option Z :=
  if a * b <? two64 then Some (a * b) else None.

Definition saturating_add (a b : Z) : Z := Z.min (a + b) U64_MAX.
Definition saturating_sub (a b : Z) : Z := Z.max (a - b) 0.

(** Bitwise complement and left shift at 64 bits. *)
Definition not64 (x : Z) : Z := Z.lxor x U64_MAX.
Definition shl64 (x n : Z) : Z := Z.shiftl x n mod two64.

Definition is_multiple_of (a b : Z) : bool := a mod b =? 0.

(** ** Iterator adaptors over arrays and slices *)

(** [iter().position(p)] *)
Fixpoint position {A} (p : A -> bool) (l : list A) : option nat :=
  match l with
  | [] => None
  | x :: l' => if p x then Some 0%nat else option_map S (position p l')
  end.

(** [iter().filter(p).count()] *)
Fixpoint countb {A} (p : A -> bool) (l : list A) : Z :=
  match l with
  | [] => 0
  | x :: l' => (if p x then 1 else 0) + countb p l'
  end.

(** ** Automation *)

Create HintDb makopa.
Create Rewrite HintDb b2p.

#[export] Hint Rewrite orb_true_iff orb_false_iff andb_true_iff andb_false_iff
  negb_true_iff negb_false_iff Z.eqb_eq Z.eqb_neq Z.leb_le Z.leb_gt Z.ltb_lt
  Z.ltb_ge Nat.eqb_eq Nat.eqb_neq Nat.ltb_lt Nat.ltb_ge Nat.leb_le Nat.leb_gt
  @bool_decide_eq_true @bool_decide_eq_false : b2p.

(** Turn boolean tests in the hypotheses (or the goal) into propositions. *)
Ltac b2p := autorewrite with b2p in *.

(** Split conjunctions and existentials of the context. *)
Ltac split_hyps :=
  repeat match goal with
    | H : _ /\ _ |- _ => destruct H
    | H : exists _, _ |- _ => destruct H
    | H : Ok _ = Ok _ |- _ => injection H as H
    | H : Some _ = Some _ |- _ => injection H as H
    | H : (_, _) = (_, _) |- _ => injection H as H
    end; subst.

(** Case split on the next [match]/[if] scrutinee of a hypothesis or the goal. *)
Ltac destruct_match_in H :=
  match type of H with
  | context [match ?x with _ => _ end] =>
      lazymatch x with
      | context [match _ with _ => _ end] => fail
      | _ => destruct x eqn:?
      end
  end.

Ltac destruct_match_goal :=
  match goal with
  | |- context [match ?x with _ => _ end] =>
      lazymatch x with
      | context [match _ with _ => _ end] => fail
      | _ => destruct x eqn:?
      end
  end.

(** Case split on the outermost conditional of the left-hand side of [H] (or of
    the goal); [E] names the test. *)
Ltac head_if_in H E :=
  match type of H with
  | (if ?b then _ else _) = _ => destruct b eqn:E
  | (if ?b then _ else _) _ = _ => destruct b eqn:E
  end.

Ltac head_if E :=
  match goal with
  | |- (if ?b then _ else _) = _ => destruct b eqn:E
  | |- (if ?b then _ else _) _ = _ => destruct b eqn:E
  end.

(** Walk a hypothesis [f x = Ok y] through every branch of [f]. *)
Ltac walk H :=
  repeat (destruct_match_in H; simplify_eq/=).

(** ** Lemmas about results and the state monad *)

Lemma ok_or_Ok {A E} (o : option A) (e : E) a : ok_or o e = Ok a <-> o = Some a.
Proof. destruct o; naive_solver. Qed.

Lemma ok_or_Err {A E} (o : option A) (e e' : E) : ok_or o e = Err e' <-> o = None /\ e' = e.
Proof. destruct o; naive_solver. Qed.

Lemma map_err_Ok {A E F} (f : E -> F) (r : result A E) a : map_err f r = Ok a <-> r = Ok a.
Proof. destruct r; naive_solver. Qed.

#[export] Hint Rewrite @ok_or_Ok @ok_or_Err @map_err_Ok : b2p.

Section MonadLemmas.
Context {S E A B : Type}.
Implicit Types (m : M S E A) (k : A -> M S E B) (s : S).

Lemma bindM_ok m k s b s' :
  bindM m k s = (Ok b, s') <-> exists a s1, m s = (Ok a, s1) /\ k a s1 = (Ok b, s').
Proof.
  unfold bindM. split.
  - destruct (m s) as [[a|e] s1]; intros H; [eauto|discriminate].
  - intros (a & s1 & -> & H). exact H.
Qed.

Lemma transactional_ok m s a s' :
  transactional m s = (Ok a, s') <-> m s = (Ok a, s').
Proof. unfold transactional. destruct (m s) as [[?|?] ?]; naive_solver. Qed.

Lemma transactional_err m s e s' :
  transactional m s = (Err e, s') -> s' = s.
Proof. unfold transactional. destruct (m s) as [[?|?] ?]; naive_solver. Qed.

Lemma transactional_fst m s : fst (transactional m s) = fst (m s).
Proof. unfold transactional. by destruct (m s) as [[?|?] ?]. Qed.
End MonadLemmas.

(** ** Lemmas about checked arithmetic *)

Lemma checked_add_Some a b c :
  checked_add a b = Some c <-> c = a + b /\ a + b < 18446744073709551616.
Proof. unfold checked_add, two64. case_match; b2p; naive_solver lia. Qed.

Lemma checked_add_None a b :
  checked_add a b = None <-> 18446744073709551616 <= a + b.
Proof. unfold checked_add, two64. case_match; b2p; naive_solver lia. Qed.

Lemma checked_mul_Some a b c :
  checked_mul a b = Some c <-> c = a * b /\ a * b < 18446744073709551616.
Proof. unfold checked_mul, two64. case_match; b2p; naive_solver lia. Qed.

Lemma checked_mul_None a b :
  checked_mul a b = None <-> 18446744073709551616 <= a * b.
Proof. unfold checked_mul, two64. case_match; b2p; naive_solver lia. Qed.

Lemma checked_sub_Some a b c :
  checked_sub a b = Some c <-> c = a - b /\ b <= a.
Proof. unfold checked_sub. case_match; b2p; naive_solver lia. Qed.

#[export] Hint Rewrite checked_add_Some checked_add_None checked_mul_Some
  checked_mul_None checked_sub_Some : b2p.

(** ** Lemmas about the iterator adaptors *)

Section Iterators.
Context {A : Type}.
Implicit Types (p : A -> bool) (l : list A).

Lemma position_Some p l i :
  position p l = Some i ->
  exists x, l !! i = Some x /\ p x = true /\
            forall j y, (j < i)%nat -> l !! j = Some y -> p y = false.
Proof.
  revert i. induction l as [|x l IH]; intros i; simpl; [discriminate|].
  destruct (p x) eqn:Hp.
  - intros [= <-]. exists x. repeat split; [done..|]. intros. lia.
  - destruct (position p l) as [i'|] eqn:Hi; simpl; [|discriminate].
    intros [= <-]. destruct (IH i' eq_refl) as (y & Hy & Hpy & Hlt).
    exists y. repeat split; [done..|].
    intros [|j] z Hj Hz; simpl in *; [congruence|]. eapply (Hlt j); [lia|done].
Qed.

Lemma position_None p l :
  position p l = None <-> forall x, x ∈ l -> p x = false.
Proof.
  induction l as [|x l IH]; simpl.
  - split; [intros _ y Hy; by apply elem_of_nil in Hy|done].
  - destruct (p x) eqn:Hp; simpl.
    + split; [discriminate|]. intros H. specialize (H x). rewrite Hp in H.
      discriminate H. left.
    + destruct (position p l); simpl.
      * split; [discriminate|]. intros H. assert (Hn : Some n = None); [|discriminate Hn].
        apply IH. intros y Hy. apply H. by right.
      * split; [|done]. intros _ y Hy. apply elem_of_cons in Hy as [->|Hy]; [done|].
        by apply IH.
Qed.

Lemma existsb_false p l : existsb p l = false <-> forall x, x ∈ l -> p x = false.
Proof.
  induction l as [|x l IH]; simpl.
  - split; [intros _ y Hy; by apply elem_of_nil in Hy|done].
  - rewrite orb_false_iff, IH. split.
    + intros [Hx Hl] y [->|Hy]%elem_of_cons; auto.
    + intros H. split; [apply H; left|]. intros y Hy. apply H. by right.
Qed.

Lemma existsb_true p l : existsb p l = true <-> exists x, x ∈ l /\ p x = true.
Proof.
  induction l as [|x l IH]; simpl.
  - split; [done|]. intros (y & Hy & _). by apply elem_of_nil in Hy.
  - rewrite orb_true_iff, IH. split.
    + intros [Hx|(y & Hy & Hp)]; [exists x; split; [left|done]|].
      exists y. split; [by right|done].
    + intros (y & [->|Hy]%elem_of_cons & Hp); [by left|]. right. eauto.
Qed.

Lemma forallb_true p l : forallb p l = true <-> forall x, x ∈ l -> p x = true.
Proof.
  induction l as [|x l IH]; simpl.
  - split; [intros _ y Hy; by apply elem_of_nil in Hy|done].
  - rewrite andb_true_iff, IH. split.
    + intros [Hx Hl] y [->|Hy]%elem_of_cons; auto.
    + intros H. split; [apply H; left|]. intros y Hy. apply H. by right.
Qed.

Lemma countb_nonneg p l : 0 <= countb p l.
Proof. induction l; simpl; [lia|]. destruct (p _); lia. Qed.

Lemma countb_zero p l : countb p l = 0 <-> forall x, x ∈ l -> p x = false.
Proof.
  rewrite <-existsb_false. induction l as [|x l IH]; simpl; [done|].
  pose proof (countb_nonneg p l). destruct (p x); simpl; [split; [lia|done]|].
  rewrite <-IH. lia.
Qed.

Lemma countb_insert p l i x y :
  l !! i = Some x ->
  countb p (<[i := y]> l) = countb p l - (if p x then 1 else 0) + (if p y then 1 else 0).
Proof.
  revert i. induction l as [|z l IH]; intros [|i]; simpl; try discriminate.
  - intros [= ->]. lia.
  - intros H. rewrite (IH i H). lia.
Qed.

Lemma elem_of_insert_list l i x y :
  y ∈ <[i := x]> l -> y = x \/ y ∈ l.
Proof.
  intros [j Hj]%list_elem_of_lookup.
  destruct (decide (i = j)) as [->|Hne].
  - destruct (decide (j < length l)%nat) as [Hlt|Hge].
    + rewrite list_lookup_insert_eq in Hj by done. left. congruence.
    + rewrite list_insert_ge in Hj by lia. right. apply list_elem_of_lookup. eauto.
  - rewrite list_lookup_insert_ne in Hj by done. right. apply list_elem_of_lookup. eauto.
Qed.
End Iterators.

(** An element of a list with one more element at its end. *)
Lemma lookup_snoc_cases {A} (l : list A) x u y :
  (l ++ [x]) !! u = Some y -> l !! u = Some y \/ (u = length l /\ y = x).
Proof.
  intros H. apply lookup_app_Some in H as [H|[Hge H]]; [by left|]. right.
  apply list_lookup_singleton_Some in H as [H ->]. split; [lia|done].
Qed.

(** ** The [repr(C)] layout algorithm

    A field is its size and alignment.  Each field is placed at the next
    multiple of its alignment; the size is rounded up to the largest one. *)

Record Layout := mkLayout { layout_size : Z; layout_align : Z }.

Definition align_up (x a : Z) : Z := (x + a - 1) / a * a.

Definition repr_c (fields : list Layout) : Layout :=
  let end_ := fold_left (fun off f => align_up off (layout_align f) + layout_size f) fields 0 in
  let align := fold_left (fun a f => Z.max a (layout_align f)) fields 1 in
  mkLayout (align_up end_ align) align.

Definition layout_u8 : Layout := mkLayout 1 1.
Definition layout_u16 : Layout := mkLayout 2 2.
Definition layout_u32 : Layout := mkLayout 4 4.
Definition layout_u64 : Layout := mkLayout 8 8.
Definition layout_array (n : Z) (l : Layout) : Layout :=
  mkLayout (n * layout_size l) (layout_align l).

(** [offset_of!]: where the fields of a structure start. *)
Fixpoint field_offsets (from : Z) (fields : list Layout) : list Z :=
  match fields with
  | [] => []
  | f :: rest =>
      let start := align_up from (layout_align f) in
      start :: field_offsets (start + layout_size f) rest
  end.

Definition offset_of (fields : list Layout) (i : nat) : Z := nth i (field_offsets 0 fields) 0.

Lemma align_up_ge x a : 0 < a -> x <= align_up x a.
Proof. intros Ha. unfold align_up. pose proof (Z.div_mod (x + a - 1) a ltac:(lia)). pose proof (Z.mod_pos_bound (x + a - 1) a Ha). lia. Qed.
