(* ===== verification/Panic.v ===== *)
(** * Operations that may panic

    The boot-time crates index arrays and use plain arithmetic.  Such an
    operation is an [option]: [None] is a panic (an index out of bounds, an
    arithmetic overflow in a build with overflow checks, a failed
    [debug_assert]).  A method is then [state -> option (result * state)], and
    a theorem that it returns [Some] shows the absence of panics, so that
    builds with and without overflow checks behave alike. *)

From S2P Require Import Prelude.

(** [array[index]] *)
Definition array_get {A} (l : list A) (i : nat) : option A := l !! i.

(** [array[index] = value] *)
Definition array_set {A} (l : list A) (i : nat) (x : A) : option (list A) :=
  if (i <? length l)%nat then Some (<[i := x]> l) else None.

(** [array[index].field op= ...]: read, change, write back *)
Definition array_update {A} (l : list A) (i : nat) (f : A -> option A) : option (list A) :=
  x ← array_get l i; y ← f x; array_set l i y.

(** [&array[..len]] *)
Definition slice_to {A} (l : list A) (n : nat) : option (list A) :=
  if (n <=? length l)%nat then Some (take n l) else None.

(** [index - 1] on a [usize] *)
Definition index_pred (i : nat) : option nat :=
  match i with O => None | S j => Some j end.

Definition debug_assert (b : bool) : option unit := if b then Some tt else None.

(** ** Arithmetic that does not overflow *)

Lemma checked_add_lt a b : a + b < two64 -> checked_add a b = Some (a + b).
Proof. intros H. unfold checked_add. by rewrite (proj2 (Z.ltb_lt _ _) H). Qed.

Lemma checked_mul_lt a b : a * b < two64 -> checked_mul a b = Some (a * b).
Proof. intros H. unfold checked_mul. by rewrite (proj2 (Z.ltb_lt _ _) H). Qed.

Lemma checked_sub_le a b : b <= a -> checked_sub a b = Some (a - b).
Proof. intros H. unfold checked_sub. by rewrite (proj2 (Z.leb_le _ _) H). Qed.

(** ** A growing array as the list of its live prefix *)

Section Live.
Context {A : Type}.
Implicit Types (l arr : list A) (x : A) (i n : nat).

Lemma array_set_lt l i x : (i < length l)%nat -> array_set l i x = Some (<[i := x]> l).
Proof. intros H. unfold array_set. by rewrite (proj2 (Nat.ltb_lt _ _) H). Qed.

Lemma slice_to_le l n : (n <= length l)%nat -> slice_to l n = Some (take n l).
Proof. intros H. unfold slice_to. by rewrite (proj2 (Nat.leb_le _ _) H). Qed.

Lemma take_insert_live arr n i x :
  (i < n)%nat -> take n (<[i := x]> arr) = <[i := x]> (take n arr).
Proof. intros Hi. apply take_insert_lt. done. Qed.

Lemma take_push arr n x :
  (n < length arr)%nat -> take (S n) (<[n := x]> arr) = take n arr ++ [x].
Proof.
  intros Hn. rewrite (take_S_r _ _ x) by (by rewrite list_lookup_insert_eq).
  rewrite take_insert_ge by lia. done.
Qed.

Lemma lookup_live arr n i : (i < n)%nat -> take n arr !! i = arr !! i.
Proof. intros. by apply lookup_take_lt. Qed.

Lemma array_get_live arr n i x :
  take n arr !! i = Some x -> array_get arr i = Some x /\ (i < n)%nat.
Proof. unfold array_get. intros H%lookup_take_Some. tauto. Qed.

Lemma array_update_lt l i x y f :
  l !! i = Some x -> f x = Some y -> array_update l i f = Some (<[i := y]> l).
Proof.
  intros Hi Hf. unfold array_update, array_get. rewrite Hi. simpl. rewrite Hf. simpl.
  apply array_set_lt. by eapply lookup_lt_Some.
Qed.

Lemma last_lookup_live arr n :
  (n <= length arr)%nat -> last (take n arr) = if (n =? 0)%nat then None else arr !! (n - 1)%nat.
Proof.
  intros Hn. rewrite last_lookup, length_take_le by done.
  destruct n as [|n]; [done|]. simpl. rewrite lookup_take_lt by lia. f_equal. lia.
Qed.
End Live.
