(* ===== verification/Bytes.v ===== *)
(** * Byte strings and fallible readers

    Bytes are integers in [0, 256).  A reader may fail with an error value or
    panic: [option (result A E)], with [None] a panic, and its own notation for
    [?].  Shared by the ELF reader and the component-admission parsers; also the
    bytes of a [repr(C)] structure. *)

From S2P Require Import Prelude.
From S2P Require Import Panic.

Definition byte_ok (b : Z) : Prop := 0 <= b < 256.

(** A byte slice the language can hold: [u8] elements, at most [isize::MAX]
    of them. *)
Definition slice_ok (bytes : list Z) : Prop :=
  Forall byte_ok bytes /\ Z.of_nat (length bytes) < 2 ^ 63.

(** [uN::from_le_bytes] *)
Fixpoint from_le_bytes (l : list Z) : Z :=
  match l with
  | [] => 0
  | b :: l' => b + 256 * from_le_bytes l'
  end.

(** [n.to_le_bytes()], [k] bytes *)
Fixpoint to_le_bytes (k : nat) (x : Z) : list Z :=
  match k with
  | O => []
  | S k' => x mod 256 :: to_le_bytes k' (x / 256)
  end.

(** [bytes.get(lo..hi)] *)
Definition get_range (bytes : list Z) (lo hi : Z) : option (list Z) :=
  if (0 <=? lo) && (lo <=? hi) && (hi <=? Z.of_nat (length bytes))
  then Some (take (Z.to_nat (hi - lo)) (drop (Z.to_nat lo) bytes)) else None.

(** The bytes of [lo, lo + n), when they exist. *)
Definition window (bytes : list Z) (lo n : Z) : list Z :=
  take (Z.to_nat n) (drop (Z.to_nat lo) bytes).

(** [u64::is_power_of_two] *)
Definition is_power_of_two (x : Z) : bool := (0 <? x) && (Z.land x (x - 1) =? 0).

(** ** The reader monad *)

Definition bindR {A B E} (m : option (result A E)) (k : A -> option (result B E))
    : option (result B E) :=
  match m with
  | None => None
  | Some (Err e) => Some (Err e)
  | Some (Ok a) => k a
  end.

Definition okR {A E} (a : A) : option (result A E) := Some (Ok a).
Definition failR {A E} (e : E) : option (result A E) := Some (Err e).
Definition pureR {A E} (r : result A E) : option (result A E) := Some r.

(** An operation that panics on [None]. *)
Definition panicR {A E} (o : option A) : option (result A E) :=
  match o with Some a => Some (Ok a) | None => None end.

Notation "'let~' x ':=' m 'in' k" := (bindR m (fun x => k))
  (at level 10, x pattern, m at level 100, k at level 200,
   format "'[v' 'let~'  x  ':='  m  'in' '/' k ']'") : makopa_scope.

(** ** Lemmas *)

Lemma from_le_bytes_bound l :
  Forall byte_ok l -> 0 <= from_le_bytes l < 256 ^ Z.of_nat (length l).
Proof.
  induction l as [|b l IH]; [simpl; lia|]. intros [Hb Hl]%Forall_cons. specialize (IH Hl).
  cbn [from_le_bytes length]. rewrite Nat2Z.inj_succ, Z.pow_succ_r by lia. unfold byte_ok in Hb. lia.
Qed.

Lemma to_from_le_bytes l :
  Forall byte_ok l -> to_le_bytes (length l) (from_le_bytes l) = l.
Proof.
  induction l as [|b l IH]; [done|]. intros [Hb Hl]%Forall_cons. unfold byte_ok in Hb.
  cbn [from_le_bytes length to_le_bytes].
  replace ((b + 256 * from_le_bytes l) mod 256) with b
    by (rewrite (Z.mul_comm 256), Z.mod_add, Z.mod_small; lia).
  replace ((b + 256 * from_le_bytes l) / 256) with (from_le_bytes l)
    by (rewrite (Z.mul_comm 256), Z.div_add, Z.div_small; lia).
  by rewrite (IH Hl).
Qed.

Lemma from_to_le_bytes k x :
  0 <= x < 256 ^ Z.of_nat k -> from_le_bytes (to_le_bytes k x) = x.
Proof.
  revert x. induction k as [|k IH]; intros x Hx; cbn [to_le_bytes from_le_bytes]; [simpl in Hx; lia|].
  rewrite Nat2Z.inj_succ, Z.pow_succ_r in Hx by lia.
  rewrite IH by (split; [apply Z.div_pos; lia|apply Z.div_lt_upper_bound; lia]).
  pose proof (Z.div_mod x 256). lia.
Qed.

Lemma length_to_le_bytes k x : length (to_le_bytes k x) = k.
Proof. revert x. induction k; intros; simpl; auto. Qed.

Lemma to_le_bytes_ok k x : Forall byte_ok (to_le_bytes k x).
Proof.
  revert x. induction k as [|k IH]; intros x; simpl; constructor; [|done].
  unfold byte_ok. apply Z.mod_pos_bound. lia.
Qed.

Lemma get_range_window bytes lo n :
  0 <= lo -> 0 <= n -> lo + n <= Z.of_nat (length bytes) ->
  get_range bytes lo (lo + n) = Some (window bytes lo n).
Proof.
  intros Hlo Hn Hlen. unfold get_range, window.
  rewrite (proj2 (Z.leb_le 0 lo)), (proj2 (Z.leb_le lo (lo + n))),
    (proj2 (Z.leb_le (lo + n) _)) by lia. simpl. by replace (lo + n - lo) with n by lia.
Qed.

Lemma get_range_Some bytes lo hi w :
  get_range bytes lo hi = Some w ->
  0 <= lo <= hi /\ hi <= Z.of_nat (length bytes) /\ w = window bytes lo (hi - lo).
Proof. unfold get_range, window. case_match; [|done]. b2p. intros [= <-]. split_and!; (done || lia). Qed.

Lemma length_window bytes lo n :
  0 <= lo -> 0 <= n -> lo + n <= Z.of_nat (length bytes) ->
  length (window bytes lo n) = Z.to_nat n.
Proof. intros. unfold window. rewrite length_take, length_drop. lia. Qed.

Lemma window_ok bytes lo n : Forall byte_ok bytes -> Forall byte_ok (window bytes lo n).
Proof. intros H. unfold window. by apply Forall_take, Forall_drop. Qed.

(** The value of [n] bytes at [lo], little endian. *)
Definition le_at (bytes : list Z) (lo n : Z) : Z := from_le_bytes (window bytes lo n).

Lemma le_at_bound bytes lo n :
  Forall byte_ok bytes -> 0 <= n -> 0 <= le_at bytes lo n < 256 ^ n.
Proof.
  intros Hb Hn. unfold le_at. pose proof (from_le_bytes_bound _ (window_ok bytes lo n Hb)) as Hle.
  split; [lia|]. eapply Z.lt_le_trans; [apply Hle|]. apply Z.pow_le_mono_r; [lia|].
  unfold window. rewrite length_take. lia.
Qed.

Lemma le_at_here k v rest :
  0 <= v < 256 ^ Z.of_nat k -> le_at (to_le_bytes k v ++ rest) 0 (Z.of_nat k) = v.
Proof.
  intros Hv. unfold le_at, window. change (Z.to_nat 0) with 0%nat. rewrite drop_0, Nat2Z.id.
  rewrite take_app_length' by (by rewrite length_to_le_bytes). by apply from_to_le_bytes.
Qed.

Lemma le_at_skip pre rest off n :
  Z.of_nat (length pre) <= off -> le_at (pre ++ rest) off n = le_at rest (off - Z.of_nat (length pre)) n.
Proof.
  intros Ho. unfold le_at, window. rewrite drop_app_ge by lia. do 3 f_equal. lia.
Qed.

(** ** Structures in memory *)

(** The bytes of a [repr(C)] structure from its offset [from] on, padding zero. *)
Fixpoint struct_bytes (from : Z) (fields : list Layout) (values : list Z) : list Z :=
  match fields, values with
  | f :: fields, v :: values =>
      let start := align_up from (layout_align f) in
      replicate (Z.to_nat (start - from)) 0 ++ to_le_bytes (Z.to_nat (layout_size f)) v
      ++ struct_bytes (start + layout_size f) fields values
  | _, _ => []
  end.

Definition fields_ok (fields : list Layout) : Prop := Forall (fun f => 0 < layout_align f /\ 0 <= layout_size f) fields.

(** A load at the offset of a field gives its value. *)
Lemma struct_field fields : forall from values i f o v,
  fields_ok fields -> fields !! i = Some f -> values !! i = Some v -> field_offsets from fields !! i = Some o ->
  0 <= v < 256 ^ layout_size f ->
  from <= o /\ le_at (struct_bytes from fields values) (o - from) (layout_size f) = v.
Proof.
  induction fields as [|f fields IH]; intros from values i g o v Hok Hf Hv Ho Hr; [done|].
  apply Forall_cons in Hok as [[Ha Hs] Hok]. pose proof (align_up_ge from (layout_align f) Ha) as Hge.
  destruct values as [|x values]; [done|]. cbn [struct_bytes field_offsets] in *.
  set (start := align_up from (layout_align f)) in *.
  assert (Hpad : Z.of_nat (length (replicate (Z.to_nat (start - from)) 0)) = start - from) by (rewrite length_replicate; lia).
  destruct i as [|i].
  - injection Hf as <-. injection Hv as <-. injection Ho as <-. split; [done|].
    rewrite le_at_skip, Hpad by (rewrite Hpad; lia). replace (start - from - (start - from)) with 0 by lia.
    pose proof (le_at_here (Z.to_nat (layout_size f)) x (struct_bytes (start + layout_size f) fields values)) as H.
    rewrite Z2Nat.id in H by done. by apply H.
  - destruct (IH (start + layout_size f) values i g o v Hok Hf Hv Ho Hr) as [Hle Hat]. split; [lia|].
    rewrite le_at_skip, Hpad by (rewrite Hpad; lia). rewrite le_at_skip by (rewrite length_to_le_bytes; lia).
    rewrite <-Hat, length_to_le_bytes. f_equal. lia.
Qed.

(** Eight bytes are two halves. *)
Lemma le_at_halves bytes o :
  0 <= o -> o + 8 <= Z.of_nat (length bytes) -> le_at bytes o 8 = le_at bytes o 4 + le_at bytes (o + 4) 4 * 4294967296.
Proof.
  intros Ho Hl. unfold le_at, window. replace (Z.to_nat (o + 4)) with (Z.to_nat o + 4)%nat by lia. rewrite <-drop_drop.
  assert (Hd : (8 <= length (drop (Z.to_nat o) bytes))%nat) by (rewrite length_drop; lia).
  destruct (drop (Z.to_nat o) bytes) as [|b0 [|b1 [|b2 [|b3 [|b4 [|b5 [|b6 [|b7 l]]]]]]]]; cbn [length] in Hd; try lia.
  change (Z.to_nat 8) with 8%nat. change (Z.to_nat 4) with 4%nat. cbn [take drop from_le_bytes]. lia.
Qed.
