(* ===== verification/RuntimeTypes.v ===== *)
(** * Types and constants of the task runtime

    The first part of [src/crates/task-runtime/src/lib.rs]: identifiers,
    rights, trap operations and statuses, launch manifests, approval requests
    and saved task contexts, with their layouts. *)

From S2P Require Import Prelude.

(** ** Constants (lines 13-62) *)

Definition TASK_COUNT : Z := 2.
Definition SENDER_TASK_ID : Z := 1.
Definition RECEIVER_TASK_ID : Z := 2.
Definition ENDPOINT_ID : Z := 1.
Definition ENDPOINT_GENERATION : Z := 1.
Definition CAPABILITY_SLOT_COUNT : nat := 16.
Definition CAPABILITY_SLOT_BITS : Z := 4.
Definition CAPABILITY_GENERATION_MAX : Z := 1152921504606846975.
Definition CAPABILITY_RIGHT_SEND : Z := Z.shiftl 1 0.
Definition CAPABILITY_RIGHT_RECEIVE : Z := Z.shiftl 1 1.
Definition CAPABILITY_RIGHT_DUPLICATE : Z := Z.shiftl 1 2.
Definition CAPABILITY_RIGHT_START : Z := Z.shiftl 1 3.
Definition CAPABILITY_RIGHT_SUBMIT_APPROVAL : Z := Z.shiftl 1 4.
Definition CAPABILITY_RIGHT_DECIDE_APPROVAL : Z := Z.shiftl 1 5.
Definition CAPABILITY_RIGHT_COMMIT_EFFECT : Z := Z.shiftl 1 6.
Definition CAPABILITY_RIGHT_READ_EFFECT_JOURNAL : Z := Z.shiftl 1 7.
Definition CAPABILITY_RIGHTS_V1 : Z :=
  Z.lor (Z.lor (Z.lor (Z.lor (Z.lor (Z.lor (Z.lor
    CAPABILITY_RIGHT_SEND CAPABILITY_RIGHT_RECEIVE) CAPABILITY_RIGHT_DUPLICATE)
    CAPABILITY_RIGHT_START) CAPABILITY_RIGHT_SUBMIT_APPROVAL)
    CAPABILITY_RIGHT_DECIDE_APPROVAL) CAPABILITY_RIGHT_COMMIT_EFFECT)
    CAPABILITY_RIGHT_READ_EFFECT_JOURNAL.
Definition INITIAL_CAPABILITY_HANDLE : Z := Z.shiftl 1 CAPABILITY_SLOT_BITS.
Definition SUPERVISOR_TASK_CONTROL_HANDLE : Z := INITIAL_CAPABILITY_HANDLE.
Definition SUPERVISOR_DECISION_HANDLE : Z := INITIAL_CAPABILITY_HANDLE + 1.
Definition SUPERVISOR_EFFECT_HANDLE : Z := INITIAL_CAPABILITY_HANDLE + 2.
Definition SUPERVISOR_JOURNAL_HANDLE : Z := INITIAL_CAPABILITY_HANDLE + 3.
Definition WORKLOAD_APPROVAL_HANDLE : Z := INITIAL_CAPABILITY_HANDLE.
Definition SUPERVISOR_GENERATION : Z := 4.
Definition WORKLOAD_GENERATION : Z := 5.
Definition MANIFEST_SCHEMA_VERSION : Z := 1.
Definition MANIFEST_BYTE_SIZE : Z := 184.
Definition MANIFEST_ROUTE_COUNT_MAX : Z := 4.
Definition MANIFEST_ID : Z := 1.
Definition PRINCIPAL_ID : Z := 1.
Definition WORKLOAD_IMAGE_ID : Z := 1.
Definition TASK_CONTROL_OBJECT_ID : Z := 1.
Definition APPROVAL_BROKER_OBJECT_ID : Z := 1.
Definition TEST_EFFECT_OBJECT_ID : Z := 1.
Definition EFFECT_JOURNAL_OBJECT_ID : Z := 1.
Definition FIXED_OBJECT_GENERATION : Z := 1.
Definition APPROVAL_REQUEST_KIND_COMMIT_SYNTHETIC_VALUE : Z := 1.
Definition APPROVAL_ACTION_ID_COMMIT_SYNTHETIC_VALUE : Z := 1.
Definition DECISION_DENY : Z := 0.
Definition DECISION_APPROVE : Z := 1.
Definition DECISION_EXPIRE : Z := 2.
Definition CR4_FSGSBASE : Z := Z.shiftl 1 16.

Definition version_one_cr4_allowed (cr4 : Z) : bool :=
  Z.land cr4 CR4_FSGSBASE =? 0.

Definition OBJECT_TYPE_ENDPOINT : Z := 1.
Definition OBJECT_TYPE_TASK_CONTROL : Z := 2.
Definition OBJECT_TYPE_APPROVAL_BROKER : Z := 3.
Definition OBJECT_TYPE_TEST_EFFECT : Z := 4.
Definition OBJECT_TYPE_EFFECT_JOURNAL : Z := 5.

(** ** Task states *)

Inductive TaskState : Type :=
| Staged
| Ready
| Running
| BlockedReceive
| BlockedApproval
| Exited
| TaskDead.

#[global] Instance TaskState_eq_dec : EqDecision TaskState.
Proof. solve_decision. Defined.

Inductive OwnerPhase : Type :=
| PhaseInactive
| PhaseActive
| PhaseTeardown
| PhaseAbsent.

Definition owner_phase (s : TaskState) : OwnerPhase :=
  match s with
  | Staged | Ready | BlockedReceive | BlockedApproval => PhaseInactive
  | Running => PhaseActive
  | Exited => PhaseTeardown
  | TaskDead => PhaseAbsent
  end.

(** ** Trap operations and statuses *)

Inductive TrapOperation : Type :=
| OpYield
| OpSend
| OpReceive
| OpExit
| OpDuplicate
| OpClose
| OpStartWorkload
| OpSubmitApproval
| OpInspectApproval
| OpDecideApproval
| OpCommitEffect
| OpInspectEffectJournal
| OpReadEffectRecord.

#[global] Instance TrapOperation_eq_dec : EqDecision TrapOperation.
Proof. solve_decision. Defined.

Definition TrapOperation_parse (value : Z) : option TrapOperation :=
  match value with
  | 0 => Some OpYield
  | 1 => Some OpSend
  | 2 => Some OpReceive
  | 3 => Some OpExit
  | 4 => Some OpDuplicate
  | 5 => Some OpClose
  | 6 => Some OpStartWorkload
  | 7 => Some OpSubmitApproval
  | 8 => Some OpInspectApproval
  | 9 => Some OpDecideApproval
  | 10 => Some OpCommitEffect
  | 11 => Some OpInspectEffectJournal
  | 12 => Some OpReadEffectRecord
  | _ => None
  end.

Inductive TrapStatus : Type :=
| StOk
| InvalidOperation
| InvalidEndpoint
| WrongRole
| SlotFull
| PeerExited
| InvalidHandle
| WrongObject
| RightsDenied
| InvalidRights
| HandleTableFull
| GenerationExhausted
| InvalidManifest
| InvalidRequest
| BrokerFull
| ApprovalMismatch
| ApprovalDenied
| ApprovalExpired
| EffectUnavailable
| BrokerUnavailable
| AlreadyLaunched
| JournalFull
| JournalUnavailable
| InvalidRecord.

#[global] Instance TrapStatus_eq_dec : EqDecision TrapStatus.
Proof. solve_decision. Defined.

(** [status as u64], the [repr(u64)] discriminant. *)
Definition status_code (s : TrapStatus) : Z :=
  match s with
  | StOk => 0
  | InvalidOperation => 1
  | InvalidEndpoint => 2
  | WrongRole => 3
  | SlotFull => 4
  | PeerExited => 5
  | InvalidHandle => 6
  | WrongObject => 7
  | RightsDenied => 8
  | InvalidRights => 9
  | HandleTableFull => 10
  | GenerationExhausted => 11
  | InvalidManifest => 12
  | InvalidRequest => 13
  | BrokerFull => 14
  | ApprovalMismatch => 15
  | ApprovalDenied => 16
  | ApprovalExpired => 17
  | EffectUnavailable => 18
  | BrokerUnavailable => 19
  | AlreadyLaunched => 20
  | JournalFull => 21
  | JournalUnavailable => 22
  | InvalidRecord => 23
  end.

(** ** Launch manifests *)

Record LaunchRouteV1 : Type := mkLaunchRouteV1 {
  lr_object_type : Z;
  lr_reserved : Z;
  lr_object_id : Z;
  lr_object_generation : Z;
  lr_rights : Z
}.

#[global] Instance LaunchRouteV1_eq_dec : EqDecision LaunchRouteV1.
Proof. solve_decision. Defined.

Definition LaunchRouteV1_default : LaunchRouteV1 := mkLaunchRouteV1 0 0 0 0 0.

Record LaunchManifestV1 : Type := mkLaunchManifestV1 {
  lm_schema_version : Z;
  lm_byte_size : Z;
  lm_manifest_id : Z;
  lm_principal_id : Z;
  lm_target_task_id : Z;
  lm_target_generation : Z;
  lm_image_id : Z;
  lm_route_count : Z;
  lm_reserved : Z;
  lm_routes : list LaunchRouteV1
}.

Definition REGISTERED_LAUNCH_MANIFEST : LaunchManifestV1 :=
  {| lm_schema_version := MANIFEST_SCHEMA_VERSION;
     lm_byte_size := MANIFEST_BYTE_SIZE;
     lm_manifest_id := MANIFEST_ID;
     lm_principal_id := PRINCIPAL_ID;
     lm_target_task_id := RECEIVER_TASK_ID;
     lm_target_generation := WORKLOAD_GENERATION;
     lm_image_id := WORKLOAD_IMAGE_ID;
     lm_route_count := 1;
     lm_reserved := 0;
     lm_routes :=
       [ {| lr_object_type := OBJECT_TYPE_APPROVAL_BROKER;
            lr_reserved := 0;
            lr_object_id := APPROVAL_BROKER_OBJECT_ID;
            lr_object_generation := FIXED_OBJECT_GENERATION;
            lr_rights := CAPABILITY_RIGHT_SUBMIT_APPROVAL |};
         LaunchRouteV1_default; LaunchRouteV1_default; LaunchRouteV1_default ] |}.

Inductive ManifestError : Type :=
| InvalidHeader
| InvalidIdentity
| InvalidTarget
| ExcessRoutes
| MissingRoute
| InvalidRoute
| DuplicateRoute
| InsufficientCapacity
| NonzeroUnusedRoute.

(** The [for index in 0..route_count] loop of [LaunchManifestV1::validate]:
    [earlier] is [self.routes[..index]]. *)
Fixpoint manifest_validate_routes (broker_generation : Z)
    (earlier rest : list LaunchRouteV1) : result unit ManifestError :=
  match rest with
  | [] => Ok tt
  | route :: rest' =>
      if negb (lr_reserved route =? 0)
         || negb (lr_object_type route =? OBJECT_TYPE_APPROVAL_BROKER)
         || negb (lr_object_id route =? APPROVAL_BROKER_OBJECT_ID)
         || negb (lr_object_generation route =? broker_generation)
         || negb (broker_generation =? FIXED_OBJECT_GENERATION)
         || negb (lr_rights route =? CAPABILITY_RIGHT_SUBMIT_APPROVAL)
      then Err InvalidRoute
      else if existsb (fun e =>
                (lr_object_type e =? lr_object_type route)
                && (lr_object_id e =? lr_object_id route)
                && (lr_object_generation e =? lr_object_generation route)) earlier
      then Err DuplicateRoute
      else manifest_validate_routes broker_generation (earlier ++ [route]) rest'
  end.

Definition manifest_validate (m : LaunchManifestV1)
    (workload_generation broker_generation available_slots : Z) : result unit ManifestError :=
  if negb (lm_schema_version m =? MANIFEST_SCHEMA_VERSION)
     || negb (lm_byte_size m =? MANIFEST_BYTE_SIZE)
     || negb (lm_reserved m =? 0)
  then Err InvalidHeader
  else if negb (lm_manifest_id m =? MANIFEST_ID)
     || negb (lm_principal_id m =? PRINCIPAL_ID)
     || negb (lm_image_id m =? WORKLOAD_IMAGE_ID)
     || (lm_manifest_id m =? 0)
     || (lm_principal_id m =? 0)
     || (lm_image_id m =? 0)
  then Err InvalidIdentity
  else if negb (lm_target_task_id m =? RECEIVER_TASK_ID)
     || negb (lm_target_generation m =? workload_generation)
     || negb (workload_generation =? WORKLOAD_GENERATION)
  then Err InvalidTarget
  else
    let route_count := lm_route_count m in
    if MANIFEST_ROUTE_COUNT_MAX <? route_count then Err ExcessRoutes
    else if route_count =? 0 then Err MissingRoute
    else if available_slots <? route_count then Err InsufficientCapacity
    else
      let? _ := manifest_validate_routes broker_generation []
                  (take (Z.to_nat route_count) (lm_routes m)) in
      if existsb (fun route => negb (bool_decide (route = LaunchRouteV1_default)))
           (drop (Z.to_nat route_count) (lm_routes m))
      then Err NonzeroUnusedRoute
      else Ok tt.

(** ** Approval requests *)

Record ApprovalRequestV1 : Type := mkApprovalRequestV1 {
  ar_principal_id : Z;
  ar_workload_task_id : Z;
  ar_workload_generation : Z;
  ar_sequence : Z;
  ar_action_id : Z;
  ar_effect_object_id : Z;
  ar_effect_object_generation : Z;
  ar_argument : Z;
  ar_requested_rights : Z;
  ar_resulting_rights : Z
}.

#[global] Instance ApprovalRequestV1_eq_dec : EqDecision ApprovalRequestV1.
Proof. solve_decision. Defined.

Definition ApprovalRequestV1_default : ApprovalRequestV1 :=
  mkApprovalRequestV1 0 0 0 0 0 0 0 0 0 0.

(** ** Trap frames and saved contexts *)

Record TrapFrameV1 : Type := mkTrapFrameV1 {
  tf_rax : Z; tf_rbx : Z; tf_rcx : Z; tf_rdx : Z; tf_rbp : Z;
  tf_rsi : Z; tf_rdi : Z; tf_r8 : Z; tf_r9 : Z; tf_r10 : Z;
  tf_r11 : Z; tf_r12 : Z; tf_r13 : Z; tf_r14 : Z; tf_r15 : Z;
  tf_rip : Z; tf_cs : Z; tf_rflags : Z; tf_rsp : Z; tf_ss : Z
}.

Record TaskContextV1 : Type := mkTaskContextV1 {
  tc_rax : Z; tc_rbx : Z; tc_rcx : Z; tc_rdx : Z; tc_rbp : Z;
  tc_rsi : Z; tc_rdi : Z; tc_r8 : Z; tc_r9 : Z; tc_r10 : Z;
  tc_r11 : Z; tc_r12 : Z; tc_r13 : Z; tc_r14 : Z; tc_r15 : Z;
  tc_rip : Z; tc_rsp : Z; tc_rflags : Z; tc_cs : Z; tc_ss : Z;
  tc_root : Z; tc_task_id : Z; tc_generation : Z
}.

#[global] Instance TaskContextV1_eq_dec : EqDecision TaskContextV1.
Proof. solve_decision. Defined.

Definition context_initial (task_id generation root rip rsp cs ss : Z) : TaskContextV1 :=
  {| tc_rax := 0; tc_rbx := 0; tc_rcx := 0; tc_rdx := 0; tc_rbp := 0;
     tc_rsi := 0; tc_rdi := 0; tc_r8 := 0; tc_r9 := 0; tc_r10 := 0;
     tc_r11 := 0; tc_r12 := 0; tc_r13 := 0; tc_r14 := 0; tc_r15 := 0;
     tc_rip := rip; tc_rsp := rsp; tc_rflags := 2; tc_cs := cs; tc_ss := ss;
     tc_root := root; tc_task_id := task_id; tc_generation := generation |}.

Definition context_from_trap (f : TrapFrameV1) (task_id generation root : Z) : TaskContextV1 :=
  {| tc_rax := tf_rax f; tc_rbx := tf_rbx f; tc_rcx := tf_rcx f; tc_rdx := tf_rdx f;
     tc_rbp := tf_rbp f; tc_rsi := tf_rsi f; tc_rdi := tf_rdi f; tc_r8 := tf_r8 f;
     tc_r9 := tf_r9 f; tc_r10 := tf_r10 f; tc_r11 := tf_r11 f; tc_r12 := tf_r12 f;
     tc_r13 := tf_r13 f; tc_r14 := tf_r14 f; tc_r15 := tf_r15 f;
     tc_rip := tf_rip f; tc_rsp := tf_rsp f; tc_rflags := tf_rflags f;
     tc_cs := tf_cs f; tc_ss := tf_ss f;
     tc_root := root; tc_task_id := task_id; tc_generation := generation |}.

Definition context_gprs (c : TaskContextV1) : list Z :=
  [ tc_rax c; tc_rbx c; tc_rcx c; tc_rdx c; tc_rbp c; tc_rsi c; tc_rdi c; tc_r8 c;
    tc_r9 c; tc_r10 c; tc_r11 c; tc_r12 c; tc_r13 c; tc_r14 c; tc_r15 c ].

(** *** Layouts of the [repr(C)] structures

    The trap frame and the context, which the assembly fills and loads, have [u64]
    fields only. *)

Definition launch_route_fields : list Layout := [layout_u32; layout_u32; layout_u64; layout_u64; layout_u64].

Definition launch_manifest_fields : list Layout :=
  [layout_u32; layout_u32; layout_u64; layout_u64; layout_u64; layout_u64; layout_u64; layout_u32; layout_u32;
   layout_array MANIFEST_ROUTE_COUNT_MAX (repr_c launch_route_fields)].

Definition approval_request_fields : list Layout := replicate 10 layout_u64.

Definition MANIFEST_ROUTES_OFFSET : Z := offset_of launch_manifest_fields 9.
Definition APPROVAL_SEQUENCE_OFFSET : Z := offset_of approval_request_fields 3.
Definition APPROVAL_ARGUMENT_OFFSET : Z := offset_of approval_request_fields 7.

Definition trap_frame_fields : list Layout := replicate 20 layout_u64.

Definition task_context_fields : list Layout := replicate 23 layout_u64.

Definition CONTEXT_RAX_OFFSET : Z := offset_of task_context_fields 0.
Definition CONTEXT_RBX_OFFSET : Z := offset_of task_context_fields 1.
Definition CONTEXT_RCX_OFFSET : Z := offset_of task_context_fields 2.
Definition CONTEXT_RDX_OFFSET : Z := offset_of task_context_fields 3.
Definition CONTEXT_RBP_OFFSET : Z := offset_of task_context_fields 4.
Definition CONTEXT_RSI_OFFSET : Z := offset_of task_context_fields 5.
Definition CONTEXT_RDI_OFFSET : Z := offset_of task_context_fields 6.
Definition CONTEXT_R8_OFFSET : Z := offset_of task_context_fields 7.
Definition CONTEXT_R9_OFFSET : Z := offset_of task_context_fields 8.
Definition CONTEXT_R10_OFFSET : Z := offset_of task_context_fields 9.
Definition CONTEXT_R11_OFFSET : Z := offset_of task_context_fields 10.
Definition CONTEXT_R12_OFFSET : Z := offset_of task_context_fields 11.
Definition CONTEXT_R13_OFFSET : Z := offset_of task_context_fields 12.
Definition CONTEXT_R14_OFFSET : Z := offset_of task_context_fields 13.
Definition CONTEXT_R15_OFFSET : Z := offset_of task_context_fields 14.
Definition CONTEXT_RIP_OFFSET : Z := offset_of task_context_fields 15.
Definition CONTEXT_RSP_OFFSET : Z := offset_of task_context_fields 16.
Definition CONTEXT_RFLAGS_OFFSET : Z := offset_of task_context_fields 17.
Definition CONTEXT_CS_OFFSET : Z := offset_of task_context_fields 18.
Definition CONTEXT_SS_OFFSET : Z := offset_of task_context_fields 19.
Definition CONTEXT_ROOT_OFFSET : Z := offset_of task_context_fields 20.

(** The fields in declaration order, as they lie in memory. *)
Definition context_values (c : TaskContextV1) : list Z :=
  context_gprs c ++ [tc_rip c; tc_rsp c; tc_rflags c; tc_cs c; tc_ss c; tc_root c; tc_task_id c; tc_generation c].

(** Register writes: [rax], [rdi], [rsi] and [rdx] are the only registers the
    runtime writes back. *)
Definition context_set_regs (c : TaskContextV1) (rax rdi rsi rdx : Z) : TaskContextV1 :=
  {| tc_rax := rax; tc_rbx := tc_rbx c; tc_rcx := tc_rcx c; tc_rdx := rdx;
     tc_rbp := tc_rbp c; tc_rsi := rsi; tc_rdi := rdi; tc_r8 := tc_r8 c;
     tc_r9 := tc_r9 c; tc_r10 := tc_r10 c; tc_r11 := tc_r11 c; tc_r12 := tc_r12 c;
     tc_r13 := tc_r13 c; tc_r14 := tc_r14 c; tc_r15 := tc_r15 c;
     tc_rip := tc_rip c; tc_rsp := tc_rsp c; tc_rflags := tc_rflags c;
     tc_cs := tc_cs c; tc_ss := tc_ss c;
     tc_root := tc_root c; tc_task_id := tc_task_id c; tc_generation := tc_generation c |}.

Definition context_set_result (status : TrapStatus) (value : Z) (c : TaskContextV1)
    : TaskContextV1 :=
  context_set_regs c (status_code status) (tc_rdi c) (tc_rsi c) value.

Definition context_dead : TaskContextV1 := context_initial 0 0 0 0 0 0 0.

Record ContextPolicy : Type := mkContextPolicy {
  cp_text_start : Z;
  cp_text_end : Z;
  cp_stack_start : Z;
  cp_stack_end : Z;
  cp_user_code : Z;
  cp_user_data : Z
}.

Inductive ContextError : Type :=
| CtxWrongTask
| CtxWrongGeneration
| CtxWrongRoot
| CtxInvalidInstructionPointer
| CtxInvalidStackPointer
| CtxInvalidSelectors
| CtxInvalidFlags.

Definition is_canonical_48 (address : Z) : bool :=
  let upper := Z.shiftr address 48 in
  let sign := Z.land (Z.shiftr address 47) 1 in
  ((sign =? 0) && (upper =? 0)) || ((sign =? 1) && (upper =? 65535)).

Definition FORBIDDEN_RFLAGS : Z :=
  Z.lor (Z.lor (Z.shiftl 1 9) (Z.shiftl 1 10)) (Z.shiftl 3 12).

Definition context_validate (c : TaskContextV1)
    (expected_task expected_generation expected_root : Z) (policy : ContextPolicy)
    : result unit ContextError :=
  if negb (tc_task_id c =? expected_task) then Err CtxWrongTask
  else if (tc_generation c =? 0) || negb (tc_generation c =? expected_generation)
  then Err CtxWrongGeneration
  else if (tc_root c =? 0) || negb (tc_root c =? expected_root)
          || negb (is_multiple_of (tc_root c) 4096)
  then Err CtxWrongRoot
  else if negb (is_canonical_48 (tc_rip c)) || (tc_rip c <? cp_text_start policy)
          || (cp_text_end policy <=? tc_rip c)
  then Err CtxInvalidInstructionPointer
  else if negb (is_canonical_48 (tc_rsp c)) || (tc_rsp c <? cp_stack_start policy)
          || (cp_stack_end policy <? tc_rsp c)
  then Err CtxInvalidStackPointer
  else if negb (tc_cs c =? cp_user_code policy) || negb (tc_ss c =? cp_user_data policy)
  then Err CtxInvalidSelectors
  else if (Z.land (tc_rflags c) 2 =? 0) || negb (Z.land (tc_rflags c) FORBIDDEN_RFLAGS =? 0)
  then Err CtxInvalidFlags
  else Ok tt.

(** ** Runtime errors (lines 1632-1652) *)

Inductive RuntimeError : Type :=
| InvalidTask
| InvalidGeneration
| DuplicateGeneration
| WrongState
| NoRunningTask
| MultipleRunningTasks
| QueueFull
| DuplicateQueueMember
| InvalidQueueMember
| MissingQueueMember
| EndpointInvariant
| NoRunnableTask
| CapabilityInvariant
| ManifestInvariant
| BrokerInvariant
| EffectInvariant
| JournalInvariant
| PublicationFailure.

#[global] Instance RuntimeError_eq_dec : EqDecision RuntimeError.
Proof. solve_decision. Defined.

(** Rewriting with the concrete values of the constants. *)
Create HintDb consts.
#[export] Hint Unfold TASK_COUNT SENDER_TASK_ID RECEIVER_TASK_ID ENDPOINT_ID
  ENDPOINT_GENERATION CAPABILITY_GENERATION_MAX SUPERVISOR_GENERATION
  WORKLOAD_GENERATION MANIFEST_ID PRINCIPAL_ID WORKLOAD_IMAGE_ID
  TASK_CONTROL_OBJECT_ID APPROVAL_BROKER_OBJECT_ID TEST_EFFECT_OBJECT_ID
  EFFECT_JOURNAL_OBJECT_ID FIXED_OBJECT_GENERATION
  APPROVAL_REQUEST_KIND_COMMIT_SYNTHETIC_VALUE
  APPROVAL_ACTION_ID_COMMIT_SYNTHETIC_VALUE DECISION_DENY DECISION_APPROVE
  DECISION_EXPIRE OBJECT_TYPE_ENDPOINT OBJECT_TYPE_TASK_CONTROL
  OBJECT_TYPE_APPROVAL_BROKER OBJECT_TYPE_TEST_EFFECT
  OBJECT_TYPE_EFFECT_JOURNAL U64_MAX two64 : consts.

Ltac unfold_consts := autounfold with consts in *.
