(* ===== verification/Capability.v ===== *)
(** * Task-local capability tables

    [CapabilityHandleV1], [CapabilitySlot], [CapabilityTable] and
    [valid_rights] of [src/crates/task-runtime/src/lib.rs] (lines 971-1368).
    A table is a Record whose [slots] is the 16-entry array; methods that take
    [&mut self] are state-passing computations [M CapabilityTable E A]. *)

From S2P Require Import Prelude RuntimeTypes.

(** ** Data *)

Inductive CapabilityTableState : Type :=
| TableBuilding
| TableLive
| TableClosing
| TableDead.

#[global] Instance CapabilityTableState_eq_dec : EqDecision CapabilityTableState.
Proof. solve_decision. Defined.

Record ObjectReference : Type := mkObjectReference {
  or_id : Z;
  or_generation : Z
}.

#[global] Instance ObjectReference_eq_dec : EqDecision ObjectReference.
Proof. solve_decision. Defined.

Record CapabilityEntry : Type := mkCapabilityEntry {
  ce_task_id : Z;
  ce_task_generation : Z;
  ce_object_type : Z;
  ce_rights : Z;
  ce_object : ObjectReference
}.

#[global] Instance CapabilityEntry_eq_dec : EqDecision CapabilityEntry.
Proof. solve_decision. Defined.

Record CapabilitySlot : Type := mkCapabilitySlot {
  cs_generation : Z;
  cs_retired : bool;
  cs_entry : option CapabilityEntry
}.

#[global] Instance CapabilitySlot_eq_dec : EqDecision CapabilitySlot.
Proof. solve_decision. Defined.

Definition CapabilitySlot_EMPTY : CapabilitySlot := mkCapabilitySlot 1 false None.

Record CapabilityTable : Type := mkCapabilityTable {
  ct_task_id : Z;
  ct_task_generation : Z;
  ct_state : CapabilityTableState;
  ct_slots : list CapabilitySlot
}.

#[global] Instance CapabilityTable_eq_dec : EqDecision CapabilityTable.
Proof. solve_decision. Defined.

Record CapabilityTableSnapshot : Type := mkCapabilityTableSnapshot {
  cts_task_id : Z;
  cts_task_generation : Z;
  cts_state : CapabilityTableState;
  cts_live_slots : Z;
  cts_retired_slots : Z
}.

(** Field writes. *)
Definition ct_set_state (st : CapabilityTableState) (t : CapabilityTable) : CapabilityTable :=
  mkCapabilityTable (ct_task_id t) (ct_task_generation t) st (ct_slots t).
Definition ct_set_slots (slots : list CapabilitySlot) (t : CapabilityTable) : CapabilityTable :=
  mkCapabilityTable (ct_task_id t) (ct_task_generation t) (ct_state t) slots.
Definition cs_set_entry (e : option CapabilityEntry) (s : CapabilitySlot) : CapabilitySlot :=
  mkCapabilitySlot (cs_generation s) (cs_retired s) e.
Definition ce_set_rights (r : Z) (e : CapabilityEntry) : CapabilityEntry :=
  mkCapabilityEntry (ce_task_id e) (ce_task_generation e) (ce_object_type e) r (ce_object e).

(** ** Handles *)

Definition handle_from_parts (slot generation : Z) : option Z :=
  if (Z.of_nat CAPABILITY_SLOT_COUNT <=? slot) || (generation =? 0)
     || (CAPABILITY_GENERATION_MAX <? generation)
  then None
  else Some (Z.lor (shl64 generation CAPABILITY_SLOT_BITS) slot).

Definition handle_decode (raw : Z) : option (Z * Z) :=
  let generation := Z.shiftr raw CAPABILITY_SLOT_BITS in
  if generation =? 0 then None else Some (Z.land raw 15, generation).

(** ** Rights *)

Definition valid_rights (object_type rights : Z) : bool :=
  if (rights =? 0) || negb (Z.land rights (not64 CAPABILITY_RIGHTS_V1) =? 0) then false
  else if object_type =? OBJECT_TYPE_ENDPOINT then
    Z.land rights (not64 (Z.lor (Z.lor CAPABILITY_RIGHT_SEND CAPABILITY_RIGHT_RECEIVE)
                                CAPABILITY_RIGHT_DUPLICATE)) =? 0
  else if object_type =? OBJECT_TYPE_TASK_CONTROL then rights =? CAPABILITY_RIGHT_START
  else if object_type =? OBJECT_TYPE_APPROVAL_BROKER then
    (rights =? CAPABILITY_RIGHT_SUBMIT_APPROVAL) || (rights =? CAPABILITY_RIGHT_DECIDE_APPROVAL)
  else if object_type =? OBJECT_TYPE_TEST_EFFECT then rights =? CAPABILITY_RIGHT_COMMIT_EFFECT
  else if object_type =? OBJECT_TYPE_EFFECT_JOURNAL then
    rights =? CAPABILITY_RIGHT_READ_EFFECT_JOURNAL
  else false.

(** ** Table methods *)

Definition table_building (task_id task_generation : Z) : CapabilityTable :=
  mkCapabilityTable task_id task_generation TableBuilding
    (replicate CAPABILITY_SLOT_COUNT CapabilitySlot_EMPTY).

Definition table_dead : CapabilityTable :=
  mkCapabilityTable 0 0 TableDead (replicate CAPABILITY_SLOT_COUNT CapabilitySlot_EMPTY).

Definition entry_is_some (s : CapabilitySlot) : bool :=
  match cs_entry s with Some _ => true | None => false end.

Definition slot_is_available (s : CapabilitySlot) : bool :=
  negb (entry_is_some s) && negb (cs_retired s).

Definition table_snapshot (t : CapabilityTable) : CapabilityTableSnapshot :=
  {| cts_task_id := ct_task_id t;
     cts_task_generation := ct_task_generation t;
     cts_state := ct_state t;
     cts_live_slots := countb entry_is_some (ct_slots t);
     cts_retired_slots := countb cs_retired (ct_slots t) |}.

Definition table_available_slots (t : CapabilityTable) : Z :=
  countb slot_is_available (ct_slots t).

(** [self.slots[index]]; [decode] yields an index below 16, so the default is
    never used (see [handle_decode_bounds]). *)
Definition slot_at (t : CapabilityTable) (index : Z) : CapabilitySlot :=
  default CapabilitySlot_EMPTY (ct_slots t !! Z.to_nat index).

Definition table_allocate (entry : CapabilityEntry) : M CapabilityTable TrapStatus Z :=
  fun t =>
    match position slot_is_available (ct_slots t) with
    | None =>
        (Err (if forallb entry_is_some (ct_slots t) then HandleTableFull
              else GenerationExhausted), t)
    | Some index =>
        let slot := slot_at t (Z.of_nat index) in
        match handle_from_parts (Z.of_nat index) (cs_generation slot) with
        | None => (Err GenerationExhausted, t)
        | Some handle =>
            (Ok handle,
             ct_set_slots (<[index := cs_set_entry (Some entry) slot]> (ct_slots t)) t)
        end
    end.

Definition table_install_object_building (object_type : Z) (object : ObjectReference)
    (rights : Z) : M CapabilityTable RuntimeError Z :=
  fun t =>
    if negb (bool_decide (ct_state t = TableBuilding))
       || negb (valid_rights object_type rights)
       || (ct_task_id t =? 0)
       || (ct_task_generation t =? 0)
       || (or_id object =? 0)
       || (or_generation object =? 0)
    then (Err CapabilityInvariant, t)
    else
      let '(r, t') :=
        table_allocate
          {| ce_task_id := ct_task_id t;
             ce_task_generation := ct_task_generation t;
             ce_object_type := object_type;
             ce_rights := rights;
             ce_object := object |} t in
      (map_err (fun _ => CapabilityInvariant) r, t').

Definition table_install_building (rights : Z) : M CapabilityTable RuntimeError Z :=
  table_install_object_building OBJECT_TYPE_ENDPOINT
    (mkObjectReference ENDPOINT_ID ENDPOINT_GENERATION) rights.

Definition table_publish : M CapabilityTable RuntimeError unit :=
  fun t =>
    if negb (bool_decide (ct_state t = TableBuilding)) then (Err CapabilityInvariant, t)
    else (Ok tt, ct_set_state TableLive t).

Definition table_rollback_install (raw : Z) (t : CapabilityTable) : CapabilityTable :=
  match handle_decode raw with
  | Some (index, generation) =>
      let slot := slot_at t index in
      if cs_generation slot =? generation
      then ct_set_slots (<[Z.to_nat index := cs_set_entry None slot]> (ct_slots t)) t
      else t
  | None => t
  end.

Definition table_resolve_typed (t : CapabilityTable)
    (task_id task_generation raw object_type required_right : Z)
    : result CapabilityEntry TrapStatus :=
  if negb (bool_decide (ct_state t = TableLive))
     || negb (ct_task_id t =? task_id)
     || negb (ct_task_generation t =? task_generation)
  then Err InvalidHandle
  else
    let? (index, generation) := ok_or (handle_decode raw) InvalidHandle in
    let slot := slot_at t index in
    if cs_retired slot || negb (cs_generation slot =? generation) then Err InvalidHandle
    else
      let? entry := ok_or (cs_entry slot) InvalidHandle in
      if negb (ce_task_id entry =? task_id)
         || negb (ce_task_generation entry =? task_generation)
      then Err InvalidHandle
      else if negb (ce_object_type entry =? object_type) then Err WrongObject
      else if Z.land (ce_rights entry) required_right =? 0 then Err RightsDenied
      else Ok entry.

Definition table_resolve (t : CapabilityTable)
    (task_id task_generation raw required_right : Z) : result CapabilityEntry TrapStatus :=
  table_resolve_typed t task_id task_generation raw OBJECT_TYPE_ENDPOINT required_right.

Definition table_duplicate (task_id task_generation source requested_rights : Z)
    : M CapabilityTable TrapStatus Z :=
  let! entry := readM (fun t => table_resolve_typed t task_id task_generation source
                                  OBJECT_TYPE_ENDPOINT CAPABILITY_RIGHT_DUPLICATE) in
  if negb (valid_rights OBJECT_TYPE_ENDPOINT requested_rights)
     || negb (Z.land requested_rights (not64 (ce_rights entry)) =? 0)
  then throwM InvalidRights
  else table_allocate (ce_set_rights requested_rights entry).

Definition slot_remove_entry (s : CapabilitySlot) : CapabilitySlot :=
  if cs_generation s =? CAPABILITY_GENERATION_MAX
  then mkCapabilitySlot (cs_generation s) true None
  else mkCapabilitySlot (cs_generation s + 1) (cs_retired s) None.

Definition table_close (task_id task_generation raw : Z) : M CapabilityTable TrapStatus unit :=
  fun t =>
    if negb (bool_decide (ct_state t = TableLive))
       || negb (ct_task_id t =? task_id)
       || negb (ct_task_generation t =? task_generation)
    then (Err InvalidHandle, t)
    else
      match handle_decode raw with
      | None => (Err InvalidHandle, t)
      | Some (index, generation) =>
          let slot := slot_at t index in
          if cs_retired slot || negb (cs_generation slot =? generation)
             || negb (entry_is_some slot)
          then (Err InvalidHandle, t)
          else
            (Ok tt, ct_set_slots (<[Z.to_nat index := slot_remove_entry slot]> (ct_slots t)) t)
      end.

Definition table_mark_closing : M CapabilityTable RuntimeError unit :=
  fun t =>
    if negb (bool_decide (ct_state t = TableLive)) then (Err WrongState, t)
    else (Ok tt, ct_set_state TableClosing t).

Definition slot_close (s : CapabilitySlot) : CapabilitySlot :=
  if entry_is_some s then slot_remove_entry s else s.

Definition table_close_all : M CapabilityTable RuntimeError unit :=
  fun t =>
    if negb (bool_decide (ct_state t = TableClosing)) then (Err WrongState, t)
    else
      let t' := ct_set_slots (map slot_close (ct_slots t)) t in
      if existsb entry_is_some (ct_slots t') then (Err CapabilityInvariant, t')
      else (Ok tt, t').

Definition table_begin_closing : M CapabilityTable RuntimeError unit :=
  do! table_mark_closing in table_close_all.

Definition table_finish_dead : M CapabilityTable RuntimeError unit :=
  fun t =>
    if negb (bool_decide (ct_state t = TableClosing)) || existsb entry_is_some (ct_slots t)
    then (Err WrongState, t)
    else (Ok tt, table_dead).

Definition entry_invalid (t : CapabilityTable) (e : CapabilityEntry) : bool :=
  negb (ce_task_id e =? ct_task_id t)
  || negb (ce_task_generation e =? ct_task_generation t)
  || (ce_object_type e =? 0)
  || negb (valid_rights (ce_object_type e) (ce_rights e))
  || (or_id (ce_object e) =? 0)
  || (or_generation (ce_object e) =? 0).

(** The body of the [for slot in &self.slots] loop of [validate]. *)
Definition slot_invalid (t : CapabilityTable) (s : CapabilitySlot) : bool :=
  (cs_generation s =? 0) || (CAPABILITY_GENERATION_MAX <? cs_generation s)
  || (cs_retired s && entry_is_some s)
  || match cs_entry s with Some e => entry_invalid t e | None => false end.

Definition table_validate (t : CapabilityTable) : result unit RuntimeError :=
  if bool_decide (ct_state t = TableDead) then
    if negb (ct_task_id t =? 0) || negb (ct_task_generation t =? 0)
       || negb (bool_decide (ct_slots t = replicate CAPABILITY_SLOT_COUNT CapabilitySlot_EMPTY))
    then Err CapabilityInvariant else Ok tt
  else if (ct_task_id t =? 0) || (ct_task_generation t =? 0) then Err CapabilityInvariant
  else if bool_decide (ct_state t = TableClosing) && existsb entry_is_some (ct_slots t)
  then Err CapabilityInvariant
  else if existsb (slot_invalid t) (ct_slots t) then Err CapabilityInvariant
  else Ok tt.
