(* ===== verification/CapabilityProofs.v ===== *)
(** * Capability tables: well-formedness, attenuation and stale handles

    Theorems about [Capability]: the table invariant that [table_validate]
    checks at run time is established and preserved by every operation; a
    handle resolves exactly when its slot holds a live entry of that
    generation; no sequence of duplications and closes amplifies rights or
    revives a closed handle. *)

From S2P Require Import Prelude RuntimeTypes Capability.

(** ** Well-formed tables *)

Definition entry_wf (t : CapabilityTable) (e : CapabilityEntry) : Prop :=
  ce_task_id e = ct_task_id t /\ ce_task_generation e = ct_task_generation t /\
  ce_object_type e <> 0 /\ valid_rights (ce_object_type e) (ce_rights e) = true /\
  or_id (ce_object e) <> 0 /\ or_generation (ce_object e) <> 0.

Definition slot_wf (t : CapabilityTable) (s : CapabilitySlot) : Prop :=
  1 <= cs_generation s <= CAPABILITY_GENERATION_MAX /\
  (cs_retired s = true -> cs_entry s = None) /\
  (forall e, cs_entry s = Some e -> entry_wf t e).

Record table_wf (t : CapabilityTable) : Prop := mk_table_wf {
  tw_length : length (ct_slots t) = CAPABILITY_SLOT_COUNT;
  tw_slots : forall s, s ∈ ct_slots t -> slot_wf t s;
  tw_ids : ct_state t <> TableDead -> ct_task_id t <> 0 /\ ct_task_generation t <> 0;
  tw_dead : ct_state t = TableDead -> t = table_dead;
  tw_closing : ct_state t = TableClosing -> forall s, s ∈ ct_slots t -> cs_entry s = None
}.

(** The abstract authority of a table: which slots hold which entries at which
    generation.  A handle denotes at most one such entry. *)
Definition authority (t : CapabilityTable) (raw : Z) : option CapabilityEntry :=
  match handle_decode raw with
  | Some (index, generation) =>
      let slot := slot_at t index in
      if cs_retired slot || negb (cs_generation slot =? generation) then None
      else cs_entry slot
  | None => None
  end.

(** [sub] is contained in [super] as a set of right bits. *)
Definition rights_subset (sub super : Z) : Prop :=
  forall i, 0 <= i < 64 -> Z.testbit sub i = true -> Z.testbit super i = true.

(** The operations a task can perform on its own live table. *)
Inductive table_step (t t' : CapabilityTable) : Prop :=
| step_duplicate task generation source requested handle :
    u64 requested ->
    table_duplicate task generation source requested t = (Ok handle, t') ->
    table_step t t'
| step_close task generation raw :
    table_close task generation raw t = (Ok tt, t') ->
    table_step t t'.

(** ** Lemmas on handles *)

Lemma shl64_small g : 0 <= g <= CAPABILITY_GENERATION_MAX -> shl64 g 4 = g * 16.
Proof.
  unfold CAPABILITY_GENERATION_MAX, shl64, two64. intros Hg.
  rewrite Z.shiftl_mul_pow2 by lia. change (2 ^ 4) with 16.
  apply Z.mod_small. lia.
Qed.

Lemma lor_low_bits g s : 0 <= s < 16 -> Z.lor (g * 16) s = g * 16 + s.
Proof.
  intros Hs. symmetry. apply Z.add_nocarry_lor.
  apply Z.bits_inj'. intros n Hn. rewrite Z.land_spec, Z.bits_0.
  destruct (decide (n < 4)).
  - change 16 with (2 ^ 4). by rewrite Z.mul_pow2_bits_low.
  - rewrite andb_false_iff. right.
    destruct (decide (s = 0)) as [->|Hs0]; [apply Z.bits_0|].
    apply Z.bits_above_log2; [lia|].
    enough (Z.log2 s < 4) by lia. apply Z.log2_lt_pow2; lia.
Qed.

Lemma handle_from_parts_Some slot generation raw :
  0 <= slot -> 0 <= generation ->
  handle_from_parts slot generation = Some raw <->
  slot < 16 /\ 1 <= generation <= CAPABILITY_GENERATION_MAX /\ raw = generation * 16 + slot.
Proof.
  intros Hs Hg. unfold handle_from_parts, CAPABILITY_SLOT_BITS.
  change (Z.of_nat CAPABILITY_SLOT_COUNT) with 16.
  case_match eqn:E; b2p.
  - split; [discriminate|]. lia.
  - rewrite shl64_small, lor_low_bits by lia. split.
    + intros [= <-]. lia.
    + intros (_ & _ & ->). done.
Qed.

Lemma handle_decode_Some raw slot generation :
  0 <= raw ->
  handle_decode raw = Some (slot, generation) <->
  slot = raw mod 16 /\ generation = raw / 16 /\ 1 <= generation.
Proof.
  intros Hr. unfold handle_decode, CAPABILITY_SLOT_BITS.
  rewrite Z.shiftr_div_pow2 by lia. change (2 ^ 4) with 16.
  change 15 with (Z.ones 4). rewrite Z.land_ones by lia. change (2 ^ 4) with 16.
  pose proof (Z.div_pos raw 16). case_match eqn:E; b2p.
  - split; [discriminate|]. lia.
  - split; [intros [= <- <-]; lia|]. intros (-> & -> & _). done.
Qed.

Lemma handle_decode_bounds raw slot generation :
  handle_decode raw = Some (slot, generation) -> 0 <= slot < 16.
Proof.
  unfold handle_decode. case_match; [discriminate|]. intros [= <- _].
  change 15 with (Z.ones 4). rewrite Z.land_ones by lia. apply Z.mod_pos_bound. lia.
Qed.

Lemma handle_decode_nonneg raw slot generation :
  handle_decode raw = Some (slot, generation) -> 0 <= generation -> 0 <= raw.
Proof.
  unfold handle_decode. case_match; [discriminate|]. intros [= _ <-].
  apply Z.shiftr_nonneg.
Qed.

Lemma handle_decode_of_parts slot generation raw :
  0 <= slot -> 0 <= generation ->
  handle_from_parts slot generation = Some raw ->
  handle_decode raw = Some (slot, generation).
Proof.
  intros Hs Hg (Hs16 & Hgen & ->)%handle_from_parts_Some; [|done..].
  apply handle_decode_Some; [lia|].
  rewrite Z.add_comm, Z.mod_add, Z.mod_small, Z.div_add, Z.div_small by lia. lia.
Qed.

(** ** Lemmas on rights *)

Lemma land_not64_subset sub super :
  u64 sub -> Z.land sub (not64 super) = 0 <-> rights_subset sub super.
Proof.
  intros Hu. unfold rights_subset, not64. split.
  - intros H i Hi Hb. apply (f_equal (fun z => Z.testbit z i)) in H.
    rewrite Z.land_spec, Z.lxor_spec, Z.bits_0, Hb in H.
    change U64_MAX with (Z.ones 64) in H. rewrite Z.ones_spec_low in H by lia.
    by destruct (Z.testbit super i).
  - intros H. apply Z.bits_inj'. intros i Hi. rewrite Z.land_spec, Z.lxor_spec, Z.bits_0.
    destruct (Z.testbit sub i) eqn:Hb; [|done].
    destruct (decide (i < 64)).
    + rewrite (H i) by (lia || done). change U64_MAX with (Z.ones 64).
      by rewrite Z.ones_spec_low by lia.
    + exfalso. destruct (decide (sub = 0)) as [->|]; [by rewrite Z.bits_0 in Hb|].
      rewrite Z.bits_above_log2 in Hb; [done|unfold u64 in Hu; lia|].
      enough (Z.log2 sub < 64) by lia. apply Z.log2_lt_pow2; unfold u64 in Hu; lia.
Qed.

#[export] Instance rights_subset_preorder : PreOrder rights_subset.
Proof. split; unfold rights_subset; repeat intro; auto. Qed.

Lemma rights_subset_land sub super right :
  u64 sub -> rights_subset sub super -> Z.land sub right <> 0 -> Z.land super right <> 0.
Proof.
  intros Hu Hs Hn H0. apply Hn. apply Z.bits_inj'. intros i Hi.
  rewrite Z.land_spec, Z.bits_0. destruct (Z.testbit sub i) eqn:Hb; [|done]. simpl.
  apply (f_equal (fun z => Z.testbit z i)) in H0. rewrite Z.land_spec, Z.bits_0 in H0.
  destruct (decide (i < 64)) as [Hlt|Hge].
  - by rewrite (Hs i) in H0 by (lia || done).
  - exfalso. unfold u64 in Hu. rewrite Z.bits_above_log2 in Hb; [done|lia|].
    destruct (decide (sub = 0)) as [->|]; [by rewrite Z.bits_0 in Hb|].
    enough (Z.log2 sub < 64) by lia. apply Z.log2_lt_pow2; lia.
Qed.

(** ** The invariant and the run-time check agree *)

Lemma entry_invalid_false t e : entry_invalid t e = false <-> entry_wf t e.
Proof. unfold entry_invalid, entry_wf. b2p. naive_solver. Qed.

Lemma slot_invalid_false t s :
  0 <= cs_generation s -> slot_invalid t s = false <-> slot_wf t s.
Proof.
  intros Hg. unfold slot_invalid, slot_wf, entry_is_some, CAPABILITY_GENERATION_MAX.
  destruct (cs_entry s) as [e|]; b2p.
  - rewrite entry_invalid_false. split.
    + intros [[[H1 H2] H3] H4]. split; [lia|]. split; [naive_solver congruence|].
      intros ? [= <-]. done.
    + intros (H1 & H2 & H3). split; [|auto]. split; [lia|].
      destruct (cs_retired s); [by specialize (H2 eq_refl)|by left].
  - split; [intros [[[H1 H2] H3] _]; split; [lia|done]|].
    intros (H1 & _). repeat split; [lia|lia|by right].
Qed.

Lemma empty_slot_wf t : slot_wf t CapabilitySlot_EMPTY.
Proof. unfold slot_wf, CAPABILITY_GENERATION_MAX. simpl. split; [lia|done]. Qed.

Lemma elem_of_empty_slots s :
  s ∈ replicate CAPABILITY_SLOT_COUNT CapabilitySlot_EMPTY -> s = CapabilitySlot_EMPTY.
Proof. intros (i & [-> _]%lookup_replicate)%list_elem_of_lookup. done. Qed.

Lemma table_wf_validate t : table_wf t -> table_validate t = Ok tt.
Proof.
  intros [Hlen Hslots Hids Hdead Hclosing]. unfold table_validate.
  case_bool_decide as Hd.
  - rewrite (Hdead Hd). done.
  - destruct (Hids Hd) as [Hi Hg].
    apply Z.eqb_neq in Hi, Hg. rewrite Hi, Hg. simpl.
    destruct (bool_decide _ && _) eqn:Hc.
    { b2p. destruct Hc as [Hc (s & Hs & He)%existsb_true].
      unfold entry_is_some in He. by rewrite (Hclosing Hc s Hs) in He. }
    destruct (existsb (slot_invalid t) _) eqn:He; [|done].
    apply existsb_true in He as (s & Hs & Hinv).
    assert (slot_invalid t s = false); [|congruence].
    apply slot_invalid_false; [|by apply Hslots]. destruct (Hslots s Hs). lia.
Qed.

Lemma table_validate_wf t :
  length (ct_slots t) = CAPABILITY_SLOT_COUNT ->
  (forall s, s ∈ ct_slots t -> 0 <= cs_generation s) ->
  table_validate t = Ok tt -> table_wf t.
Proof.
  intros Hlen Hpos. unfold table_validate. case_bool_decide as Hd.
  - case_match eqn:E; [done|]. intros _. b2p. destruct E as [[Hi Hg] Hs].
    destruct t as [i g st sl]; simpl in *; subst.
    split; simpl; try done. intros s ->%elem_of_empty_slots. apply empty_slot_wf.
  - destruct (_ || _) eqn:E1; [done|]. destruct (_ && _) eqn:E2; [done|].
    destruct (existsb (slot_invalid t) _) eqn:E3; [done|]. intros _. b2p.
    rewrite existsb_false in E3. split; try done.
    + intros s Hs. apply slot_invalid_false; auto.
    + intros Hc s Hs. destruct E2 as [E2|E2]; [done|].
      rewrite existsb_false in E2. specialize (E2 s Hs). unfold entry_is_some in E2.
      by destruct (cs_entry s).
Qed.

(** ** Slots of a well-formed table *)

Section Slots.
Context (t : CapabilityTable) (Hwf : table_wf t).

Lemma slot_at_lookup index :
  0 <= index < 16 -> ct_slots t !! Z.to_nat index = Some (slot_at t index).
Proof.
  intros Hi. unfold slot_at.
  destruct (lookup_lt_is_Some_2 (ct_slots t) (Z.to_nat index)) as [s Hs].
  - rewrite (tw_length t Hwf). change CAPABILITY_SLOT_COUNT with 16%nat. lia.
  - by rewrite Hs.
Qed.

Lemma slot_at_elem index : 0 <= index < 16 -> slot_at t index ∈ ct_slots t.
Proof. intros Hi. eapply list_elem_of_lookup_2. by apply slot_at_lookup. Qed.

Lemma slot_at_wf index : 0 <= index < 16 -> slot_wf t (slot_at t index).
Proof. intros Hi. by apply (tw_slots t Hwf), slot_at_elem. Qed.

Lemma position_bounds p i :
  position p (ct_slots t) = Some i -> 0 <= Z.of_nat i < 16.
Proof.
  intros (s & Hs%lookup_lt_Some & _)%position_Some.
  rewrite (tw_length t Hwf) in Hs. unfold CAPABILITY_SLOT_COUNT in Hs. lia.
Qed.

(** Replacing one slot by a well-formed one keeps the invariant, outside the
    closing and dead states. *)
Lemma table_wf_insert index s :
  ct_state t <> TableDead ->
  (ct_state t = TableClosing -> cs_entry s = None) ->
  slot_wf t s -> table_wf (ct_set_slots (<[index := s]> (ct_slots t)) t).
Proof.
  intros Hnd Hncl Hs. split; simpl.
  - rewrite length_insert. apply Hwf.
  - intros s' [->|H]%elem_of_insert_list; [done|]. by apply (tw_slots t Hwf).
  - apply Hwf.
  - done.
  - intros Hc s' [->|H]%elem_of_insert_list; [auto|]. by apply (tw_closing t Hwf).
Qed.
End Slots.

Lemma slot_remove_entry_wf t s : slot_wf t s -> slot_wf t (slot_remove_entry s).
Proof.
  intros (Hg & Hr & He). unfold slot_remove_entry, slot_wf.
  case_match eqn:E; b2p; simpl; (split; [lia|]); split; done.
Qed.

Lemma slot_remove_entry_none s : cs_entry (slot_remove_entry s) = None.
Proof. unfold slot_remove_entry. by case_match. Qed.

Lemma slot_at_insert t i s :
  table_wf t -> 0 <= i < 16 -> forall j, 0 <= j < 16 ->
  slot_at (ct_set_slots (<[Z.to_nat i := s]> (ct_slots t)) t) j =
  if decide (i = j) then s else slot_at t j.
Proof.
  intros Hwf Hi j Hj. unfold slot_at. simpl. case_decide as E.
  - subst. rewrite list_lookup_insert_eq; [done|]. rewrite (tw_length t Hwf).
    unfold CAPABILITY_SLOT_COUNT. lia.
  - rewrite list_lookup_insert_ne; [done|]. lia.
Qed.

(** ** Allocation *)

(** What a successful allocation does: a free, unretired slot receives the
    entry, its handle is returned and every other slot is untouched. *)
Lemma table_allocate_ok t entry handle t' :
  table_wf t -> table_allocate entry t = (Ok handle, t') ->
  exists index,
    0 <= index < 16 /\ cs_entry (slot_at t index) = None /\
    cs_retired (slot_at t index) = false /\
    handle_decode handle = Some (index, cs_generation (slot_at t index)) /\
    t' = ct_set_slots (<[Z.to_nat index := cs_set_entry (Some entry) (slot_at t index)]>
                         (ct_slots t)) t.
Proof.
  intros Hwf. unfold table_allocate.
  destruct (position _ _) as [i|] eqn:Hp; [|done].
  destruct (handle_from_parts _ _) as [h|] eqn:Hh; [|done]. intros [= <- <-].
  pose proof (position_bounds t Hwf _ _ Hp) as Hb.
  apply position_Some in Hp as (s & Hs & Hav & _).
  assert (slot_at t (Z.of_nat i) = s) as Hsi.
  { unfold slot_at. by rewrite Nat2Z.id, Hs. }
  unfold slot_is_available, entry_is_some in Hav. rewrite <-Hsi in Hav. b2p.
  exists (Z.of_nat i). rewrite Nat2Z.id.
  destruct (cs_entry (slot_at t (Z.of_nat i))); [naive_solver|].
  repeat split; [lia|lia|naive_solver|].
  pose proof (slot_at_wf t Hwf _ Hb) as [? _].
  apply handle_decode_of_parts; [lia|lia|done].
Qed.

Lemma table_allocate_wf t entry r t' :
  table_wf t -> ct_state t = TableLive \/ ct_state t = TableBuilding -> entry_wf t entry ->
  table_allocate entry t = (r, t') -> table_wf t'.
Proof.
  intros Hwf Hst He Heq. destruct r as [h|e].
  - apply table_allocate_ok in Heq as (i & Hi & Hn & Hr & _ & ->); [|done].
    apply table_wf_insert; [done|naive_solver congruence|naive_solver congruence|].
    pose proof (slot_at_wf t Hwf i Hi) as (Hg & _). split; [done|]. simpl.
    rewrite Hr. split; [done|]. by intros ? [= <-].
  - unfold table_allocate in Heq. by repeat case_match; simplify_eq.
Qed.

Lemma table_allocate_err t entry s t' :
  table_wf t -> table_allocate entry t = (Err s, t') ->
  t' = t /\ (forall x, x ∈ ct_slots t -> cs_entry x <> None \/ cs_retired x = true) /\
  (s = HandleTableFull /\ (forall x, x ∈ ct_slots t -> cs_entry x <> None) \/
   s = GenerationExhausted /\
     exists x, x ∈ ct_slots t /\ cs_retired x = true /\ cs_entry x = None).
Proof.
  intros Hwf. unfold table_allocate.
  destruct (position _ _) as [i|] eqn:Hp.
  - pose proof (position_bounds t Hwf _ _ Hp) as Hb.
    pose proof (slot_at_wf t Hwf _ Hb) as [Hg _].
    destruct (handle_from_parts _ _) as [h|] eqn:Hh; [done|].
    exfalso. assert (Hc : handle_from_parts (Z.of_nat i) (cs_generation (slot_at t (Z.of_nat i)))
      = Some (cs_generation (slot_at t (Z.of_nat i)) * 16 + Z.of_nat i)); [|congruence].
    apply handle_from_parts_Some; lia.
  - rewrite position_None in Hp. intros [= <- <-]. split; [done|].
    assert (Hall : forall x, x ∈ ct_slots t -> cs_entry x <> None \/ cs_retired x = true).
    { intros x Hx. specialize (Hp x Hx). unfold slot_is_available, entry_is_some in Hp.
      destruct (cs_entry x), (cs_retired x); naive_solver. }
    split; [done|]. destruct (forallb _ _) eqn:Hf.
    + left. split; [done|]. rewrite forallb_true in Hf. intros x Hx. specialize (Hf x Hx).
      unfold entry_is_some in Hf. by destruct (cs_entry x).
    + right. split; [done|]. apply not_true_iff_false in Hf.
      assert (Hex : existsb (fun x => negb (entry_is_some x)) (ct_slots t) = true).
      { apply not_false_iff_true. intros Hnf. apply Hf, forallb_true. intros x Hx.
        rewrite existsb_false in Hnf. specialize (Hnf x Hx). by b2p. }
      apply existsb_true in Hex as (x & Hx & Hne). exists x.
      unfold entry_is_some in Hne. specialize (Hall x Hx).
      destruct (cs_entry x); naive_solver.
Qed.

(** ** Resolution *)

Lemma resolve_typed_iff t task generation raw ty right e :
  table_resolve_typed t task generation raw ty right = Ok e <->
  ct_state t = TableLive /\ ct_task_id t = task /\ ct_task_generation t = generation /\
  authority t raw = Some e /\ ce_task_id e = task /\ ce_task_generation e = generation /\
  ce_object_type e = ty /\ Z.land (ce_rights e) right <> 0.
Proof.
  unfold table_resolve_typed, authority. split.
  - intros H. walk H. b2p. destruct Heqb0 as [Hr Hg].
    rewrite Heqr, Hr, Hg, Z.eqb_refl. naive_solver.
  - intros (-> & -> & -> & Ha & <- & <- & <- & Hr). rewrite !Z.eqb_refl. simpl.
    walk Ha. rewrite Ha. simpl. rewrite !Z.eqb_refl. simpl. apply Z.eqb_neq in Hr. by rewrite Hr.
Qed.

Lemma authority_none_resolve t task generation raw ty right :
  authority t raw = None ->
  table_resolve_typed t task generation raw ty right = Err InvalidHandle.
Proof.
  unfold table_resolve_typed, authority. intros H.
  destruct (_ || _); [done|]. destruct (handle_decode raw) as [[i g]|]; [|done]. simpl.
  destruct (_ || _); [done|]. by rewrite H.
Qed.

Lemma authority_wf t raw e :
  table_wf t -> authority t raw = Some e -> entry_wf t e.
Proof.
  intros Hwf. unfold authority. destruct (handle_decode raw) as [[i g]|] eqn:Hd; [|done].
  apply handle_decode_bounds in Hd. destruct (_ || _); [done|].
  apply (slot_at_wf t Hwf i Hd).
Qed.

Lemma authority_nonneg t raw e : table_wf t -> authority t raw = Some e -> 0 <= raw.
Proof.
  intros Hwf. unfold authority. destruct (handle_decode raw) as [[i g]|] eqn:Hd; [|done].
  destruct (_ || _) eqn:E; [done|]. intros _. b2p. destruct E as [_ <-].
  eapply handle_decode_nonneg; [done|].
  destruct (slot_at_wf t Hwf i (handle_decode_bounds _ _ _ Hd)) as [Hg _]. lia.
Qed.

Lemma handle_decode_inj raw raw' p :
  0 <= raw -> 0 <= raw' -> handle_decode raw = Some p -> handle_decode raw' = Some p ->
  raw = raw'.
Proof.
  destruct p as [i g].
  intros H1 H2 (-> & -> & _)%handle_decode_Some (Hi & Hg & _)%handle_decode_Some; [|done..].
  pose proof (Z.div_mod raw 16). pose proof (Z.div_mod raw' 16). lia.
Qed.

(** [authority] after replacing one slot. *)
Lemma authority_insert t i s raw :
  table_wf t -> 0 <= i < 16 ->
  authority (ct_set_slots (<[Z.to_nat i := s]> (ct_slots t)) t) raw =
  match handle_decode raw with
  | Some (index, generation) =>
      if decide (i = index) then
        if cs_retired s || negb (cs_generation s =? generation) then None else cs_entry s
      else authority t raw
  | None => None
  end.
Proof.
  intros Hwf Hi. unfold authority at 1 2.
  destruct (handle_decode raw) as [[j g]|] eqn:Hd; [|done].
  apply handle_decode_bounds in Hd. rewrite (slot_at_insert t i s Hwf Hi j Hd).
  by case_decide.
Qed.

Lemma allocate_authority t entry handle t' :
  table_wf t -> table_allocate entry t = (Ok handle, t') -> 0 <= handle ->
  authority t handle = None /\
  forall raw, 0 <= raw ->
    authority t' raw = if decide (raw = handle) then Some entry else authority t raw.
Proof.
  intros Hwf (i & Hi & Hn & Hr & Hd & ->)%table_allocate_ok Hh; [|done]. split.
  { unfold authority. by rewrite Hd, Hr, Hn, Z.eqb_refl. }
  intros raw Hraw. rewrite authority_insert by done. case_decide as E.
  - subst. rewrite Hd. rewrite decide_True by done. simpl. by rewrite Hr, Z.eqb_refl.
  - unfold authority at 1 2. destruct (handle_decode raw) as [[j g]|] eqn:Hdr; [|done].
    case_decide as Hij; [|done]. subst. rewrite Hn. simpl. rewrite Hr. simpl.
    destruct (Z.eqb_spec (cs_generation (slot_at t j)) g) as [<-|]; [|done].
    exfalso. apply E. by eapply handle_decode_inj.
Qed.

Lemma close_authority t task generation raw t' :
  table_wf t -> table_close task generation raw t = (Ok tt, t') -> 0 <= raw ->
  is_Some (authority t raw) /\
  forall raw', 0 <= raw' ->
    authority t' raw' = if decide (raw' = raw) then None else authority t raw'.
Proof.
  intros Hwf. unfold table_close. destruct (_ || _); [done|].
  destruct (handle_decode raw) as [[i g]|] eqn:Hd; [|done].
  destruct (_ || _) eqn:E; [done|]. intros [= <-] Hraw. b2p.
  destruct E as [[Hr Hg] He]. unfold entry_is_some in He.
  pose proof (handle_decode_bounds _ _ _ Hd) as Hi. split.
  { unfold authority. rewrite Hd, Hr, Hg, Z.eqb_refl. simpl.
    destruct (cs_entry (slot_at t i)); [eauto|done]. }
  assert (Hrm : cs_entry (slot_remove_entry (slot_at t i)) = None).
  { apply slot_remove_entry_none. }
  intros raw' Hraw'. rewrite authority_insert by done. unfold authority at 1 2.
  destruct (handle_decode raw') as [[j h]|] eqn:Hd'; [|by case_decide].
  case_decide as Hij; [subst j|].
  - rewrite Hrm. case_decide as E; [by destruct (_ || _)|].
    rewrite Hr, Hg. simpl. destruct (Z.eqb_spec g h) as [<-|].
    + exfalso. apply E. by eapply handle_decode_inj.
    + by destruct (_ || _).
  - case_decide as E; [|done]. subst. congruence.
Qed.

(** ** Preservation of the invariant *)

Lemma table_building_wf task generation :
  task <> 0 -> generation <> 0 -> table_wf (table_building task generation).
Proof.
  intros Ht Hg. split; simpl; try done.
  intros s ->%elem_of_empty_slots. apply empty_slot_wf.
Qed.

Lemma table_dead_wf : table_wf table_dead.
Proof. split; simpl; try done. intros s ->%elem_of_empty_slots. apply empty_slot_wf. Qed.

Lemma table_set_live_wf t :
  table_wf t -> ct_state t = TableBuilding -> table_wf (ct_set_state TableLive t).
Proof.
  intros Hwf Hb. split; simpl; try done; [apply Hwf|apply Hwf|].
  intros _. apply Hwf. congruence.
Qed.

Lemma table_install_wf t ty object rights r t' :
  table_wf t -> table_install_object_building ty object rights t = (r, t') -> table_wf t'.
Proof.
  intros Hwf. unfold table_install_object_building. destruct (_ || _) eqn:E; [naive_solver|].
  destruct (table_allocate _ t) as [r0 t0] eqn:Ha. intros [= <- <-]. b2p.
  eapply table_allocate_wf; [done| |  |done]; [naive_solver|].
  unfold entry_wf; simpl. split_hyps. repeat split; try done.
  intros ->. unfold valid_rights in *. simpl in *. by destruct (_ || _).
Qed.

Lemma table_publish_wf t r t' :
  table_wf t -> table_publish t = (r, t') -> table_wf t'.
Proof.
  intros Hwf. unfold table_publish. case_bool_decide as E; simpl; [|naive_solver].
  intros [= <- <-]. by apply table_set_live_wf.
Qed.

Lemma table_rollback_wf t raw :
  table_wf t -> ct_state t <> TableDead -> table_wf (table_rollback_install raw t).
Proof.
  intros Hwf Hnd. unfold table_rollback_install.
  destruct (handle_decode raw) as [[i g]|] eqn:Hd; [|done].
  case_match; [|done]. apply handle_decode_bounds in Hd.
  apply table_wf_insert; [done..|]. destruct (slot_at_wf t Hwf i Hd) as (Hg & _).
  by split.
Qed.

Lemma valid_rights_type ty r : valid_rights ty r = true -> ty <> 0.
Proof. intros H ->. unfold valid_rights in H. simpl in H. by destruct (_ || _). Qed.

Lemma table_duplicate_wf t task generation source requested r t' :
  table_wf t -> table_duplicate task generation source requested t = (r, t') -> table_wf t'.
Proof.
  intros Hwf. unfold table_duplicate, bindM, readM.
  destruct (table_resolve_typed _ _ _ _ _ _) as [e|] eqn:Hr; [|naive_solver].
  destruct (_ || _) eqn:E; [unfold throwM; naive_solver|]. intros Ha. b2p.
  apply resolve_typed_iff in Hr as (Hl & _ & _ & Hau & _ & _ & Hty & _).
  apply (authority_wf _ _ _ Hwf) in Hau.
  eapply table_allocate_wf; [done|naive_solver| |done].
  unfold entry_wf in *; simpl. rewrite Hty in *. naive_solver.
Qed.

Lemma table_duplicate_state t task generation source requested r t' :
  table_duplicate task generation source requested t = (r, t') ->
  ct_state t' = ct_state t /\ ct_task_id t' = ct_task_id t /\
  ct_task_generation t' = ct_task_generation t.
Proof.
  unfold table_duplicate, bindM, readM, throwM, table_allocate.
  intros H. repeat case_match; simplify_eq; done.
Qed.

Lemma table_close_wf t task generation raw r t' :
  table_wf t -> table_close task generation raw t = (r, t') -> table_wf t'.
Proof.
  intros Hwf. unfold table_close. destruct (_ || _) eqn:E0; [naive_solver|].
  destruct (handle_decode raw) as [[i g]|] eqn:Hd; [|naive_solver].
  destruct (cs_retired _ || _ || _); [naive_solver|]. intros [= <- <-]. b2p.
  apply handle_decode_bounds in Hd.
  apply table_wf_insert; [done|naive_solver congruence|naive_solver congruence|].
  by apply slot_remove_entry_wf, slot_at_wf.
Qed.

Lemma table_close_state t task generation raw r t' :
  table_close task generation raw t = (r, t') ->
  ct_state t' = ct_state t /\ ct_task_id t' = ct_task_id t /\
  ct_task_generation t' = ct_task_generation t.
Proof. unfold table_close. intros H. repeat case_match; simplify_eq; done. Qed.

Lemma slot_close_entry s : cs_entry (slot_close s) = None.
Proof.
  unfold slot_close, entry_is_some.
  destruct (cs_entry s) eqn:E; [apply slot_remove_entry_none|done].
Qed.

Lemma slot_close_wf t s : slot_wf t s -> slot_wf t (slot_close s).
Proof. intros H. unfold slot_close. case_match; [by apply slot_remove_entry_wf|done]. Qed.

(** Closing a live table always succeeds and leaves no entry behind. *)
Lemma table_begin_closing_ok t :
  table_wf t -> ct_state t = TableLive ->
  exists t', table_begin_closing t = (Ok tt, t') /\ table_wf t' /\
    t' = ct_set_slots (map slot_close (ct_slots t)) (ct_set_state TableClosing t).
Proof.
  intros Hwf Hl. unfold table_begin_closing, bindM, table_mark_closing, table_close_all.
  rewrite bool_decide_true by done. simpl.
  assert (Hnone : forall s, s ∈ map slot_close (ct_slots t) -> cs_entry s = None).
  { intros s (s0 & -> & _)%list_elem_of_fmap. apply slot_close_entry. }
  assert (existsb entry_is_some (map slot_close (ct_slots t)) = false) as ->.
  { apply existsb_false. intros s Hs. unfold entry_is_some. by rewrite Hnone. }
  eexists. split; [done|]. split; [|done]. split; simpl; try done.
  - rewrite length_map. apply Hwf.
  - intros s (s0 & -> & Hs)%list_elem_of_fmap. apply slot_close_wf.
    destruct (tw_slots t Hwf s0 Hs) as (? & ? & He). by split.
  - intros _. apply Hwf. congruence.
Qed.

Lemma table_finish_dead_ok t :
  table_wf t -> ct_state t = TableClosing -> table_finish_dead t = (Ok tt, table_dead).
Proof.
  intros Hwf Hc. unfold table_finish_dead. rewrite bool_decide_true by done. simpl.
  assert (existsb entry_is_some (ct_slots t) = false) as ->; [|done].
  apply existsb_false. intros s Hs. unfold entry_is_some.
  by rewrite (tw_closing t Hwf Hc s Hs).
Qed.

(** A decision procedure for the invariant, for concrete tables. *)
Definition table_wfb (t : CapabilityTable) : bool :=
  (length (ct_slots t) =? CAPABILITY_SLOT_COUNT)%nat
  && forallb (fun s => 0 <=? cs_generation s) (ct_slots t)
  && is_ok (table_validate t).

Lemma table_wfb_wf t : table_wfb t = true -> table_wf t.
Proof.
  unfold table_wfb. intros H. b2p. destruct H as [[Hl Hp] Hv].
  apply table_validate_wf; [done| |by destruct (table_validate t) as [[]|]].
  rewrite forallb_true in Hp. intros s Hs. specialize (Hp s Hs). by b2p.
Qed.

(** ** Steps of a task on its own table *)

Lemma table_step_wf t t' : table_wf t -> table_step t t' -> table_wf t'.
Proof.
  intros Hwf [task g src req h _ H|task g raw H].
  - by eapply table_duplicate_wf.
  - by eapply table_close_wf.
Qed.

Lemma rtc_table_step_wf t t' : table_wf t -> rtc table_step t t' -> table_wf t'.
Proof. intros Hwf H. induction H; [done|]. eauto using table_step_wf. Qed.

Lemma table_duplicate_ok t task generation source requested handle t' :
  table_wf t -> u64 requested ->
  table_duplicate task generation source requested t = (Ok handle, t') ->
  exists e,
    authority t source = Some e /\ rights_subset requested (ce_rights e) /\
    table_allocate (ce_set_rights requested e) t = (Ok handle, t').
Proof.
  intros Hwf Hu. unfold table_duplicate, bindM, readM.
  destruct (table_resolve_typed _ _ _ _ _ _) as [e|] eqn:Hr; [|done].
  destruct (_ || _) eqn:E; [done|]. intros Ha. b2p. exists e.
  apply resolve_typed_iff in Hr as (_ & _ & _ & Hau & _).
  repeat split; [done| |done]. apply land_not64_subset; [done|]. apply E.
Qed.

(** The slot a handle names has moved past the handle's generation. *)
Definition handle_spent (t : CapabilityTable) (raw : Z) : Prop :=
  exists index generation, handle_decode raw = Some (index, generation) /\
    (generation < cs_generation (slot_at t index) \/ cs_retired (slot_at t index) = true).

Lemma handle_spent_authority t raw : handle_spent t raw -> authority t raw = None.
Proof.
  intros (i & g & Hd & Hs). unfold authority. rewrite Hd.
  destruct Hs as [Hlt| ->]; [|done].
  destruct (Z.eqb_spec (cs_generation (slot_at t i)) g); [lia|]. by rewrite orb_true_r.
Qed.

(** Replacing a slot by one that is at least as old keeps handles spent. *)
Lemma handle_spent_insert t i s raw :
  table_wf t -> 0 <= i < 16 -> cs_generation (slot_at t i) <= cs_generation s ->
  (cs_retired (slot_at t i) = true -> cs_retired s = true) ->
  handle_spent t raw ->
  handle_spent (ct_set_slots (<[Z.to_nat i := s]> (ct_slots t)) t) raw.
Proof.
  intros Hwf Hi Hle Hr (j & g & Hd & Hs). exists j, g. split; [done|].
  rewrite slot_at_insert by (done || by eapply handle_decode_bounds).
  case_decide as E; [|done]. subst. naive_solver lia.
Qed.

Lemma table_step_spent t t' raw :
  table_wf t -> table_step t t' -> handle_spent t raw -> handle_spent t' raw.
Proof.
  intros Hwf [task g src req h Hu H|task g raw' H] Hs.
  - apply table_duplicate_ok in H as (e & _ & _ & Ha); [|done..].
    apply table_allocate_ok in Ha as (i & Hi & _ & _ & _ & ->); [|done].
    apply handle_spent_insert; simpl; (done || lia).
  - revert H. unfold table_close. destruct (_ || _); [done|].
    destruct (handle_decode raw') as [[i g']|] eqn:Hd; [|done].
    destruct (cs_retired _ || _ || _); [done|]. intros [= <-].
    apply handle_decode_bounds in Hd. apply handle_spent_insert; try done;
      unfold slot_remove_entry; destruct (_ =? _); simpl; (lia || done).
Qed.

Lemma table_close_spent t task generation raw t' :
  table_wf t -> table_close task generation raw t = (Ok tt, t') -> handle_spent t' raw.
Proof.
  intros Hwf. unfold table_close. destruct (_ || _); [done|].
  destruct (handle_decode raw) as [[i g]|] eqn:Hd; [|done].
  destruct (cs_retired _ || _ || _) eqn:E; [done|]. intros [= <-]. b2p.
  exists i, g. split; [done|]. apply handle_decode_bounds in Hd.
  rewrite slot_at_insert, decide_True by done.
  unfold slot_remove_entry. destruct (_ =? _); simpl; [by right|left]. lia.
Qed.

Lemma table_step_authority t t' raw e :
  table_wf t -> table_step t t' -> 0 <= raw -> authority t' raw = Some e ->
  exists raw0 e0, authority t raw0 = Some e0 /\ ce_object e = ce_object e0 /\
    ce_object_type e = ce_object_type e0 /\ rights_subset (ce_rights e) (ce_rights e0).
Proof.
  intros Hwf [task g src req h Hu H|task g raw' H] Hraw.
  - apply table_duplicate_ok in H as (e0 & Hau & Hsub & Ha); [|done..].
    pose proof (table_allocate_ok _ _ _ _ Hwf Ha) as (i & Hi & Hn & Hr & Hd & ->).
    rewrite authority_insert by done. unfold authority at 1.
    destruct (handle_decode raw) as [[j g']|] eqn:Hdr; [|done].
    case_decide as Hij.
    + simpl. destruct (_ || _); [done|]. intros [= <-]. exists src, e0. done.
    + intros He. exists raw, e. unfold authority. rewrite Hdr. done.
  - revert H. unfold table_close. destruct (_ || _); [done|].
    destruct (handle_decode raw') as [[i g']|] eqn:Hd; [|done].
    destruct (cs_retired _ || _ || _); [done|]. intros [= <-].
    pose proof (handle_decode_bounds _ _ _ Hd) as Hi.
    rewrite authority_insert, slot_remove_entry_none by done.
    destruct (handle_decode raw) as [[j g'']|] eqn:Hdr; [|done].
    case_decide; [by destruct (_ || _)|]. intros He. by exists raw, e.
Qed.

(** ** Main theorems *)

(** Packing a slot and a generation into a handle and unpacking a handle
    are inverse on the whole 64-bit handle space, so a handle names exactly one
    (slot, generation) pair. *)
Theorem handle_pack_unpack (raw slot generation : Z) (Hraw : u64 raw)
    (Hs : 0 <= slot) (Hg : 0 <= generation) :
  handle_from_parts slot generation = Some raw <-> handle_decode raw = Some (slot, generation).
Proof.
  split; [by apply handle_decode_of_parts|].
  unfold u64 in Hraw. rewrite handle_decode_Some by lia. intros (-> & -> & H1).
  apply handle_from_parts_Some; [done..|]. unfold CAPABILITY_GENERATION_MAX.
  pose proof (Z.div_mod raw 16). pose proof (Z.mod_pos_bound raw 16).
  repeat split; [lia|lia| |lia]. apply Z.lt_succ_r, Z.div_lt_upper_bound; lia.
Qed.

Lemma handle_pack_unpack_witness : handle_decode 35 = Some (3, 2).
Proof.
  apply (handle_pack_unpack 35 3 2); [unfold u64; lia|lia|lia|vm_compute; reflexivity].
Defined.

(** a handle resolves exactly when the table is live for that task and the
    slot it names holds, at that very generation, an unretired entry of the
    requested object type with the requested right: guessing selectors grants
    nothing else. *)
Theorem resolve_exact (t : CapabilityTable) (task generation raw ty right : Z)
    (e : CapabilityEntry) :
  table_resolve_typed t task generation raw ty right = Ok e <->
  ct_state t = TableLive /\ ct_task_id t = task /\ ct_task_generation t = generation /\
  authority t raw = Some e /\ ce_task_id e = task /\ ce_task_generation e = generation /\
  ce_object_type e = ty /\ Z.land (ce_rights e) right <> 0.
Proof. apply resolve_typed_iff. Qed.

(** A successful duplication adds exactly one handle to the authority map,
    a fresh one, for the same object, whose rights are the requested ones and
    are contained in the source's rights; all other handles keep their
    meaning. *)
Theorem duplicate_attenuates (t t' : CapabilityTable)
    (task generation source requested handle : Z) (Hwf : table_wf t) (Hu : u64 requested)
    (H : table_duplicate task generation source requested t = (Ok handle, t')) :
  exists e,
    authority t source = Some e /\ rights_subset requested (ce_rights e) /\
    authority t handle = None /\
    forall raw, 0 <= raw ->
      authority t' raw =
      if decide (raw = handle) then Some (ce_set_rights requested e) else authority t raw.
Proof.
  apply table_duplicate_ok in H as (e & Hau & Hsub & Ha); [|done..].
  exists e. split; [done|]. split; [done|].
  apply (allocate_authority t _ _ _ Hwf Ha).
  apply table_allocate_ok in Ha as (i & Hi & _ & _ & Hd & _); [|done].
  eapply handle_decode_nonneg; [done|]. destruct (slot_at_wf t Hwf _ Hi) as [Hg _]. lia.
Qed.

(** Closing a handle removes exactly that handle from the authority map. *)
Theorem close_revokes (t t' : CapabilityTable) (task generation raw : Z)
    (Hwf : table_wf t) (Hraw : 0 <= raw)
    (H : table_close task generation raw t = (Ok tt, t')) :
  is_Some (authority t raw) /\
  forall raw', 0 <= raw' ->
    authority t' raw' = if decide (raw' = raw) then None else authority t raw'.
Proof. by eapply close_authority. Qed.

(** C14: once a handle has been closed, no later sequence of duplications and
    closes makes the same 64-bit value resolve again, for any object type or
    right: generations only move forward and exhausted slots are retired. *)
Theorem closed_handle_stays_stale (t t1 t2 : CapabilityTable) (task generation raw : Z)
    (Hwf : table_wf t) (Hclose : table_close task generation raw t = (Ok tt, t1))
    (Hsteps : rtc table_step t1 t2) (ty right : Z) :
  table_resolve_typed t2 task generation raw ty right = Err InvalidHandle.
Proof.
  apply authority_none_resolve, handle_spent_authority.
  pose proof (table_close_wf _ _ _ _ _ _ Hwf Hclose) as Hwf1.
  apply table_close_spent in Hclose; [|done].
  induction Hsteps as [|t1 t1' t2 Hstep _ IH]; [done|].
  apply IH; [by eapply table_step_spent|by eapply table_step_wf].
Qed.

(** C13: no sequence of duplications and closes amplifies authority: every entry
    of a later table stems from an entry of the original one with the same
    object and at least the same rights. *)
Theorem authority_never_amplified (t t' : CapabilityTable) (Hwf : table_wf t)
    (Hsteps : rtc table_step t t') (raw : Z) (Hraw : 0 <= raw) (e : CapabilityEntry)
    (He : authority t' raw = Some e) :
  exists raw0 e0, authority t raw0 = Some e0 /\ ce_object e = ce_object e0 /\
    ce_object_type e = ce_object_type e0 /\ rights_subset (ce_rights e) (ce_rights e0).
Proof.
  assert (Hgen : forall raw e, authority t' raw = Some e ->
    exists raw0 e0, authority t raw0 = Some e0 /\ ce_object e = ce_object e0 /\
    ce_object_type e = ce_object_type e0 /\ rights_subset (ce_rights e) (ce_rights e0));
    [|by eapply Hgen].
  clear raw Hraw e He. induction Hsteps as [|t t1 t' Hstep _ IH]; intros raw e He; [naive_solver|].
  destruct (IH (table_step_wf _ _ Hwf Hstep) raw e He) as (raw1 & e1 & H1 & Ho & Hty & Hr).
  pose proof (authority_nonneg _ _ _ (table_step_wf _ _ Hwf Hstep) H1) as Hp.
  destruct (table_step_authority _ _ _ _ Hwf Hstep Hp H1) as (raw0 & e0 & H0 & ? & ? & ?).
  exists raw0, e0. repeat split; [done|congruence|congruence|]. by etrans.
Qed.

(** Allocation fails only when no slot is usable, and the status tells the
    two causes apart: [HandleTableFull] means every slot holds an entry,
    [GenerationExhausted] that some empty slot is retired; the table is
    unchanged either way. *)
Theorem allocate_failure_exact (t t' : CapabilityTable) (entry : CapabilityEntry)
    (s : TrapStatus) (Hwf : table_wf t) (H : table_allocate entry t = (Err s, t')) :
  t' = t /\ (forall x, x ∈ ct_slots t -> cs_entry x <> None \/ cs_retired x = true) /\
  (s = HandleTableFull /\ (forall x, x ∈ ct_slots t -> cs_entry x <> None) \/
   s = GenerationExhausted /\
     exists x, x ∈ ct_slots t /\ cs_retired x = true /\ cs_entry x = None).
Proof. by apply table_allocate_err in H. Qed.

(** The run-time check [table_validate] accepts the result of every table
    operation on a well-formed table, whatever status it returns: the check
    never fires. *)
Theorem table_operations_validate (t t' : CapabilityTable) (Hwf : table_wf t)
    (H : (exists task g src req r, table_duplicate task g src req t = (r, t')) \/
         (exists task g raw r, table_close task g raw t = (r, t')) \/
         (exists ty o rights r, table_install_object_building ty o rights t = (r, t')) \/
         (exists r, table_publish t = (r, t')) \/
         (ct_state t = TableLive /\ exists r, table_begin_closing t = (r, t')) \/
         (exists r, table_finish_dead t = (r, t'))) :
  table_validate t' = Ok tt.
Proof.
  apply table_wf_validate.
  destruct H as [(?&?&?&?&?&H)|[(?&?&?&?&H)|[(?&?&?&?&H)|[(?&H)|[(Hl&?&H)|(?&H)]]]]].
  - by eapply table_duplicate_wf.
  - by eapply table_close_wf.
  - by eapply table_install_wf.
  - by eapply table_publish_wf.
  - destruct (table_begin_closing_ok t Hwf Hl) as (t1 & Hb & Hw & _). congruence.
  - revert H. unfold table_finish_dead. destruct (_ || _); [naive_solver|].
    intros [= <- <-]. apply table_dead_wf.
Qed.

(** A concrete live table: one endpoint capability with the send and duplicate
    rights at slot 0, as the cooperative profile gives the sender. *)
Definition sample_table : CapabilityTable :=
  snd (table_publish (snd (table_install_building 5 (table_building 1 2)))).

Lemma sample_table_wf : table_wf sample_table.
Proof. apply table_wfb_wf. vm_compute. reflexivity. Qed.

Lemma duplicate_attenuates_witness :
  exists e, authority sample_table 16 = Some e /\ rights_subset 1 (ce_rights e).
Proof.
  destruct (duplicate_attenuates sample_table
    (snd (table_duplicate 1 2 16 1 sample_table)) 1 2 16 1 17
    sample_table_wf) as (e & He & Hs & _); [unfold u64; lia|vm_compute; reflexivity|].
  exists e. split; assumption.
Defined.

Lemma close_revokes_witness : is_Some (authority sample_table 16).
Proof.
  apply (close_revokes sample_table (snd (table_close 1 2 16 sample_table)) 1 2 16
           sample_table_wf); [lia|vm_compute; reflexivity].
Defined.

Lemma closed_handle_stays_stale_witness :
  table_resolve_typed (snd (table_close 1 2 16 sample_table)) 1 2 16 1 1 = Err InvalidHandle.
Proof.
  apply (closed_handle_stays_stale sample_table (snd (table_close 1 2 16 sample_table))
           (snd (table_close 1 2 16 sample_table)) 1 2 16 sample_table_wf);
    [vm_compute; reflexivity|apply rtc_refl].
Defined.

Lemma authority_never_amplified_witness :
  exists raw0 e0, authority sample_table raw0 = Some e0.
Proof.
  destruct (authority_never_amplified sample_table
    (snd (table_duplicate 1 2 16 1 sample_table)) sample_table_wf) with
    (raw := 17) (e := mkCapabilityEntry 1 2 1 1 (mkObjectReference 1 1))
    as (raw0 & e0 & H & _); [|lia|vm_compute; reflexivity|].
  - eapply rtc_once, (step_duplicate _ _ 1 2 16 1 17); [unfold u64; lia|vm_compute; reflexivity].
  - exists raw0, e0. assumption.
Defined.

Lemma allocate_failure_exact_witness :
  let full := ct_set_slots (replicate 16 (mkCapabilitySlot 1 false
                (Some (mkCapabilityEntry 1 2 1 1 (mkObjectReference 1 1))))) sample_table in
  snd (table_allocate (mkCapabilityEntry 1 2 1 1 (mkObjectReference 1 1)) full) = full.
Proof.
  intros full.
  apply (allocate_failure_exact full _ (mkCapabilityEntry 1 2 1 1 (mkObjectReference 1 1))
           HandleTableFull); [apply table_wfb_wf|]; vm_compute; reflexivity.
Defined.

Lemma table_operations_validate_witness :
  table_validate (snd (table_close 1 2 16 sample_table)) = Ok tt.
Proof.
  apply (table_operations_validate sample_table _ sample_table_wf).
  right. left. exists 1, 2, 16, (Ok tt). vm_compute. reflexivity.
Defined.
