(* ===== verification/Journal.v ===== *)
(** * The effect journal

    [EffectEventKind], [EffectRecordV1] and [EffectJournalV1] of
    [src/crates/task-runtime/src/lib.rs] (lines 209-603): a bounded
    append-only array of sixteen 128-byte records with a reservation counter
    that keeps room for the records of the approval lifecycle in progress. *)

From S2P Require Import Prelude RuntimeTypes.

(** ** Records *)

Definition EFFECT_RECORD_SCHEMA_VERSION : Z := 1.
Definition EFFECT_RECORD_BYTE_SIZE : Z := 128.
Definition EFFECT_JOURNAL_RECORD_COUNT : nat := 16.
Definition EFFECT_JOURNAL_OBJECT_GENERATION : Z := 1.

Inductive EffectEventKind : Type :=
| EvRequested
| EvApproved
| EvDenied
| EvExpired
| EvCompleted
| EvFailed.

(** [event_kind as u32], the [repr(u32)] discriminant. *)
Definition event_code (k : EffectEventKind) : Z :=
  match k with
  | EvRequested => 1
  | EvApproved => 2
  | EvDenied => 3
  | EvExpired => 4
  | EvCompleted => 5
  | EvFailed => 6
  end.

Record EffectRecordV1 : Type := mkEffectRecordV1 {
  er_schema_version : Z;
  er_byte_size : Z;
  er_event_kind : Z;
  er_status : Z;
  er_record_sequence : Z;
  er_decision_epoch : Z;
  er_principal_id : Z;
  er_actor_task_id : Z;
  er_actor_task_generation : Z;
  er_subject_task_id : Z;
  er_subject_task_generation : Z;
  er_request_sequence : Z;
  er_action_id : Z;
  er_capability_object_type : Z;
  er_reserved_zero : Z;
  er_capability_object_id : Z;
  er_capability_object_generation : Z;
  er_capability_rights : Z;
  er_trailing_reserved_zero : Z
}.

#[global] Instance EffectRecordV1_eq_dec : EqDecision EffectRecordV1.
Proof. solve_decision. Defined.

(** [#[derive(Default)]]: every field zero. *)
Definition EffectRecordV1_default : EffectRecordV1 :=
  mkEffectRecordV1 0 0 0 0 0 0 0 0 0 0 0 0 0 0 0 0 0 0 0.

Definition record_event (event_kind : EffectEventKind) (status : TrapStatus)
    (decision_epoch actor_task_id actor_task_generation : Z)
    (request : ApprovalRequestV1) (capability_object_type capability_rights : Z)
    : EffectRecordV1 :=
  {| er_schema_version := EFFECT_RECORD_SCHEMA_VERSION;
     er_byte_size := EFFECT_RECORD_BYTE_SIZE;
     er_event_kind := event_code event_kind;
     er_status := status_code status;
     er_record_sequence := 0;
     er_decision_epoch := decision_epoch;
     er_principal_id := ar_principal_id request;
     er_actor_task_id := actor_task_id;
     er_actor_task_generation := actor_task_generation;
     er_subject_task_id := ar_workload_task_id request;
     er_subject_task_generation := ar_workload_generation request;
     er_request_sequence := ar_sequence request;
     er_action_id := ar_action_id request;
     er_capability_object_type := capability_object_type;
     er_reserved_zero := 0;
     er_capability_object_id :=
       if capability_object_type =? OBJECT_TYPE_TEST_EFFECT
       then ar_effect_object_id request else APPROVAL_BROKER_OBJECT_ID;
     er_capability_object_generation :=
       if capability_object_type =? OBJECT_TYPE_TEST_EFFECT
       then ar_effect_object_generation request else FIXED_OBJECT_GENERATION;
     er_capability_rights := capability_rights;
     er_trailing_reserved_zero := 0 |}.

(** Two [u32] fields packed as [u64::from(low) | (u64::from(high) << 32)]. *)
Definition pack32 (low high : Z) : Z := Z.lor low (shl64 high 32).

Definition record_word (r : EffectRecordV1) (index : Z) : option Z :=
  match index with
  | 0 => Some (pack32 (er_schema_version r) (er_byte_size r))
  | 1 => Some (pack32 (er_event_kind r) (er_status r))
  | 2 => Some (er_record_sequence r)
  | 3 => Some (er_decision_epoch r)
  | 4 => Some (er_principal_id r)
  | 5 => Some (er_actor_task_id r)
  | 6 => Some (er_actor_task_generation r)
  | 7 => Some (er_subject_task_id r)
  | 8 => Some (er_subject_task_generation r)
  | 9 => Some (er_request_sequence r)
  | 10 => Some (er_action_id r)
  | 11 => Some (pack32 (er_capability_object_type r) (er_reserved_zero r))
  | 12 => Some (er_capability_object_id r)
  | 13 => Some (er_capability_object_generation r)
  | 14 => Some (er_capability_rights r)
  | 15 => Some (er_trailing_reserved_zero r)
  | _ => None
  end.

(** [repr(C)]: the types of the fields, in order. *)
Definition effect_record_fields : list Layout :=
  replicate 4 layout_u32 ++ replicate 9 layout_u64 ++ replicate 2 layout_u32 ++ replicate 4 layout_u64.

Definition EFFECT_RECORD_SCHEMA_VERSION_OFFSET : Z := offset_of effect_record_fields 0.
Definition EFFECT_RECORD_BYTE_SIZE_OFFSET : Z := offset_of effect_record_fields 1.
Definition EFFECT_RECORD_EVENT_KIND_OFFSET : Z := offset_of effect_record_fields 2.
Definition EFFECT_RECORD_STATUS_OFFSET : Z := offset_of effect_record_fields 3.
Definition EFFECT_RECORD_SEQUENCE_OFFSET : Z := offset_of effect_record_fields 4.
Definition EFFECT_RECORD_DECISION_EPOCH_OFFSET : Z := offset_of effect_record_fields 5.
Definition EFFECT_RECORD_PRINCIPAL_ID_OFFSET : Z := offset_of effect_record_fields 6.
Definition EFFECT_RECORD_ACTOR_TASK_ID_OFFSET : Z := offset_of effect_record_fields 7.
Definition EFFECT_RECORD_ACTOR_GENERATION_OFFSET : Z := offset_of effect_record_fields 8.
Definition EFFECT_RECORD_SUBJECT_TASK_ID_OFFSET : Z := offset_of effect_record_fields 9.
Definition EFFECT_RECORD_SUBJECT_GENERATION_OFFSET : Z := offset_of effect_record_fields 10.
Definition EFFECT_RECORD_REQUEST_SEQUENCE_OFFSET : Z := offset_of effect_record_fields 11.
Definition EFFECT_RECORD_ACTION_ID_OFFSET : Z := offset_of effect_record_fields 12.
Definition EFFECT_RECORD_OBJECT_TYPE_OFFSET : Z := offset_of effect_record_fields 13.
Definition EFFECT_RECORD_RESERVED_ZERO_OFFSET : Z := offset_of effect_record_fields 14.
Definition EFFECT_RECORD_OBJECT_ID_OFFSET : Z := offset_of effect_record_fields 15.
Definition EFFECT_RECORD_OBJECT_GENERATION_OFFSET : Z := offset_of effect_record_fields 16.
Definition EFFECT_RECORD_RIGHTS_OFFSET : Z := offset_of effect_record_fields 17.
Definition EFFECT_RECORD_TRAILING_RESERVED_OFFSET : Z := offset_of effect_record_fields 18.

(** The fields in declaration order, as they lie in memory. *)
Definition record_values (r : EffectRecordV1) : list Z :=
  [ er_schema_version r; er_byte_size r; er_event_kind r; er_status r;
    er_record_sequence r; er_decision_epoch r; er_principal_id r; er_actor_task_id r;
    er_actor_task_generation r; er_subject_task_id r; er_subject_task_generation r; er_request_sequence r;
    er_action_id r; er_capability_object_type r; er_reserved_zero r; er_capability_object_id r;
    er_capability_object_generation r; er_capability_rights r; er_trailing_reserved_zero r ].

(** ** The journal *)

Inductive EffectJournalState : Type :=
| JournalBuilding
| JournalLive
| JournalSealed
| JournalDead.

#[global] Instance EffectJournalState_eq_dec : EqDecision EffectJournalState.
Proof. solve_decision. Defined.

Record EffectJournalV1 : Type := mkEffectJournalV1 {
  ej_state : EffectJournalState;
  ej_committed_record_count : Z;
  ej_reserved_record_count : Z;
  ej_reserved_zero : list Z;
  ej_object_generation : Z;
  ej_next_record_sequence : Z;
  ej_records : list EffectRecordV1
}.

#[global] Instance EffectJournalV1_eq_dec : EqDecision EffectJournalV1.
Proof. solve_decision. Defined.

Record EffectJournalSnapshot : Type := mkEffectJournalSnapshot {
  ejs_state : EffectJournalState;
  ejs_committed_record_count : Z;
  ejs_reserved_record_count : Z;
  ejs_object_generation : Z;
  ejs_next_record_sequence : Z
}.

Inductive EffectJournalError : Type :=
| JeFull
| JeUnavailable
| JeInvalidRecord
| JeInvariant.

#[global] Instance EffectJournalError_eq_dec : EqDecision EffectJournalError.
Proof. solve_decision. Defined.

(** Field writes. *)
Definition ej_set_state (st : EffectJournalState) (j : EffectJournalV1) : EffectJournalV1 :=
  mkEffectJournalV1 st (ej_committed_record_count j) (ej_reserved_record_count j)
    (ej_reserved_zero j) (ej_object_generation j) (ej_next_record_sequence j) (ej_records j).
Definition ej_set_reserved (n : Z) (j : EffectJournalV1) : EffectJournalV1 :=
  mkEffectJournalV1 (ej_state j) (ej_committed_record_count j) n
    (ej_reserved_zero j) (ej_object_generation j) (ej_next_record_sequence j) (ej_records j).
Definition er_set_record_sequence (n : Z) (r : EffectRecordV1) : EffectRecordV1 :=
  mkEffectRecordV1 (er_schema_version r) (er_byte_size r) (er_event_kind r) (er_status r) n
    (er_decision_epoch r) (er_principal_id r) (er_actor_task_id r) (er_actor_task_generation r)
    (er_subject_task_id r) (er_subject_task_generation r) (er_request_sequence r)
    (er_action_id r) (er_capability_object_type r) (er_reserved_zero r)
    (er_capability_object_id r) (er_capability_object_generation r)
    (er_capability_rights r) (er_trailing_reserved_zero r).

Definition journal_DEAD : EffectJournalV1 :=
  {| ej_state := JournalDead;
     ej_committed_record_count := 0;
     ej_reserved_record_count := 0;
     ej_reserved_zero := replicate 5 0;
     ej_object_generation := 0;
     ej_next_record_sequence := 0;
     ej_records := replicate EFFECT_JOURNAL_RECORD_COUNT EffectRecordV1_default |}.

Definition journal_building : EffectJournalV1 :=
  {| ej_state := JournalBuilding;
     ej_committed_record_count := 0;
     ej_reserved_record_count := 0;
     ej_reserved_zero := replicate 5 0;
     ej_object_generation := EFFECT_JOURNAL_OBJECT_GENERATION;
     ej_next_record_sequence := 1;
     ej_records := ej_records journal_DEAD |}.

Definition journal_snapshot (j : EffectJournalV1) : EffectJournalSnapshot :=
  {| ejs_state := ej_state j;
     ejs_committed_record_count := ej_committed_record_count j;
     ejs_reserved_record_count := ej_reserved_record_count j;
     ejs_object_generation := ej_object_generation j;
     ejs_next_record_sequence := ej_next_record_sequence j |}.

Definition journal_publish : M EffectJournalV1 EffectJournalError unit :=
  fun j =>
    if negb (bool_decide (ej_state j = JournalBuilding)) then (Err JeInvariant, j)
    else (Ok tt, ej_set_state JournalLive j).

Definition journal_seal : M EffectJournalV1 EffectJournalError unit :=
  fun j =>
    if negb (bool_decide (ej_state j = JournalLive)) || negb (ej_reserved_record_count j =? 0)
    then (Err JeUnavailable, j)
    else (Ok tt, ej_set_state JournalSealed j).

Definition journal_clear_dead (j : EffectJournalV1) : EffectJournalV1 := journal_DEAD.

Definition journal_append_unreserved (record : EffectRecordV1)
    : M EffectJournalV1 EffectJournalError unit :=
  fun j =>
    let index := ej_committed_record_count j in
    if (Z.of_nat EFFECT_JOURNAL_RECORD_COUNT <=? index) || (ej_next_record_sequence j =? 0)
    then (Err JeFull, j)
    else if negb (er_schema_version record =? EFFECT_RECORD_SCHEMA_VERSION)
         || negb (er_byte_size record =? EFFECT_RECORD_BYTE_SIZE)
         || negb (er_record_sequence record =? 0)
         || negb (er_reserved_zero record =? 0)
         || negb (er_trailing_reserved_zero record =? 0)
    then (Err JeInvariant, j)
    else
      let record := er_set_record_sequence (ej_next_record_sequence j) record in
      (Ok tt,
       {| ej_state := ej_state j;
          ej_committed_record_count := ej_committed_record_count j + 1;
          ej_reserved_record_count := ej_reserved_record_count j;
          ej_reserved_zero := ej_reserved_zero j;
          ej_object_generation := ej_object_generation j;
          ej_next_record_sequence := default 0 (checked_add (ej_next_record_sequence j) 1);
          ej_records := <[Z.to_nat index := record]> (ej_records j) |}).

Definition journal_begin_lifecycle (record : EffectRecordV1)
    : M EffectJournalV1 EffectJournalError unit :=
  let! j := getM in
  if negb (bool_decide (ej_state j = JournalLive)) then throwM JeUnavailable
  else
    let! used := liftM (ok_or (checked_add (ej_committed_record_count j)
                                           (ej_reserved_record_count j)) JeInvariant) in
    if (saturating_sub (Z.of_nat EFFECT_JOURNAL_RECORD_COUNT) used <? 3)
       || (ej_next_record_sequence j =? 0)
       || negb (bool_decide (is_Some (checked_add (ej_next_record_sequence j) 2)))
    then throwM JeFull
    else
      do! journal_append_unreserved record in
      modifyM (ej_set_reserved 2).

(** The decrement is a [u8] subtraction guarded by the non-zero test. *)
Definition journal_append_reserved (record : EffectRecordV1) (release_unused : bool)
    : M EffectJournalV1 EffectJournalError unit :=
  let! j := getM in
  if negb (bool_decide (ej_state j = JournalLive)) || (ej_reserved_record_count j =? 0)
  then throwM JeUnavailable
  else
    do! modifyM (ej_set_reserved (ej_reserved_record_count j - 1)) in
    do! journal_append_unreserved record in
    if release_unused then modifyM (ej_set_reserved 0) else retM tt.

Definition journal_record (j : EffectJournalV1) (sequence : Z)
    : result EffectRecordV1 EffectJournalError :=
  if negb (bool_decide (ej_state j = JournalLive) || bool_decide (ej_state j = JournalSealed))
  then Err JeUnavailable
  else
    match checked_sub sequence 1 with
    | None => Err JeInvalidRecord
    | Some index =>
        if negb (index <? ej_committed_record_count j) then Err JeInvalidRecord
        else
          let record := default EffectRecordV1_default (ej_records j !! Z.to_nat index) in
          if negb (er_record_sequence record =? sequence) then Err JeInvariant
          else Ok record
    end.

Definition journal_read_triplet (j : EffectJournalV1) (sequence triplet : Z)
    : result (list Z) EffectJournalError :=
  if negb (triplet <=? 5) then Err JeInvalidRecord
  else
    let? record := journal_record j sequence in
    let first := triplet * 3 in
    Ok [ default 0 (record_word record first);
         default 0 (record_word record (first + 1));
         default 0 (record_word record (first + 2)) ].

(** The two arms of the [for (index, record) in self.records.iter().enumerate()]
    loop of [validate]. *)
Definition journal_record_bad (committed : Z) (index : nat) (record : EffectRecordV1) : bool :=
  if Z.of_nat index <? committed then
    negb (er_schema_version record =? EFFECT_RECORD_SCHEMA_VERSION)
    || negb (er_byte_size record =? EFFECT_RECORD_BYTE_SIZE)
    || negb (er_record_sequence record =? Z.of_nat index + 1)
    || negb (er_reserved_zero record =? 0)
    || negb (er_trailing_reserved_zero record =? 0)
  else negb (bool_decide (record = EffectRecordV1_default)).

Fixpoint journal_records_bad (committed : Z) (index : nat) (records : list EffectRecordV1) : bool :=
  match records with
  | [] => false
  | record :: rest =>
      journal_record_bad committed index record || journal_records_bad committed (S index) rest
  end.

Definition journal_validate (j : EffectJournalV1) : result unit EffectJournalError :=
  if bool_decide (ej_state j = JournalDead) then
    if bool_decide (j = journal_DEAD) then Ok tt else Err JeInvariant
  else if bool_decide (ej_state j = JournalBuilding)
       || negb (bool_decide (ej_reserved_zero j = replicate 5 0))
       || negb (ej_object_generation j =? EFFECT_JOURNAL_OBJECT_GENERATION)
       || (Z.of_nat EFFECT_JOURNAL_RECORD_COUNT <? ej_committed_record_count j)
       || (Z.of_nat EFFECT_JOURNAL_RECORD_COUNT
           <? ej_committed_record_count j + ej_reserved_record_count j)
       || (2 <? ej_reserved_record_count j)
       || (bool_decide (ej_state j = JournalSealed) && negb (ej_reserved_record_count j =? 0))
  then Err JeInvariant
  else if journal_records_bad (ej_committed_record_count j) 0 (ej_records j) then Err JeInvariant
  else if negb (ej_next_record_sequence j =? ej_committed_record_count j + 1)
  then Err JeInvariant
  else Ok tt.
