(* ===== verification/JournalProofs.v ===== *)
(** * Effect journal: append-only log, reservations and word reads

    The run-time check [journal_validate] is characterised exactly by the
    invariant [journal_wf]; every operation preserves it and refines an
    append-only log; a reservation taken by [journal_begin_lifecycle] is always
    honoured; the six word triplets a reader fetches determine the record. *)

From S2P Require Import Prelude Bytes RuntimeTypes Journal.

(** ** Specification *)

(** A record as the callers build it, before the journal numbers it. *)
Definition record_fresh (r : EffectRecordV1) : Prop :=
  er_schema_version r = EFFECT_RECORD_SCHEMA_VERSION /\
  er_byte_size r = EFFECT_RECORD_BYTE_SIZE /\
  er_record_sequence r = 0 /\ er_reserved_zero r = 0 /\ er_trailing_reserved_zero r = 0.

(** The committed record at position [i] of the array. *)
Definition record_committed (i : nat) (r : EffectRecordV1) : Prop :=
  er_schema_version r = EFFECT_RECORD_SCHEMA_VERSION /\
  er_byte_size r = EFFECT_RECORD_BYTE_SIZE /\
  er_record_sequence r = Z.of_nat i + 1 /\
  er_reserved_zero r = 0 /\ er_trailing_reserved_zero r = 0.

(** The Rust types: two [u8] counters and a sixteen-element array. *)
Record journal_shape (j : EffectJournalV1) : Prop := mk_journal_shape {
  js_length : length (ej_records j) = EFFECT_JOURNAL_RECORD_COUNT;
  js_committed : 0 <= ej_committed_record_count j < 256;
  js_reserved : 0 <= ej_reserved_record_count j < 256
}.

Record journal_open_wf (j : EffectJournalV1) : Prop := mk_journal_open_wf {
  jw_state : ej_state j = JournalLive \/ ej_state j = JournalSealed;
  jw_zero : ej_reserved_zero j = replicate 5 0;
  jw_generation : ej_object_generation j = EFFECT_JOURNAL_OBJECT_GENERATION;
  jw_capacity : ej_committed_record_count j + ej_reserved_record_count j <= 16;
  jw_reserved : ej_reserved_record_count j <= 2;
  jw_sealed : ej_state j = JournalSealed -> ej_reserved_record_count j = 0;
  jw_records : forall i r, ej_records j !! i = Some r ->
    if decide (Z.of_nat i < ej_committed_record_count j) then record_committed i r
    else r = EffectRecordV1_default;
  jw_next : ej_next_record_sequence j = ej_committed_record_count j + 1
}.

Definition journal_wf (j : EffectJournalV1) : Prop :=
  journal_shape j /\ (j = journal_DEAD \/ journal_open_wf j).

(** The abstract journal: a log, the room kept for the open lifecycle, and
    whether appends are still possible. *)
Definition committed (j : EffectJournalV1) : list EffectRecordV1 :=
  take (Z.to_nat (ej_committed_record_count j)) (ej_records j).

Definition number (log : list EffectRecordV1) (r : EffectRecordV1) : EffectRecordV1 :=
  er_set_record_sequence (Z.of_nat (length log) + 1) r.

Inductive journal_step (j j' : EffectJournalV1) : Prop :=
| jstep_begin r :
    journal_begin_lifecycle r j = (Ok tt, j') -> journal_step j j'
| jstep_append r release :
    journal_append_reserved r release j = (Ok tt, j') -> journal_step j j'
| jstep_seal :
    journal_seal j = (Ok tt, j') -> journal_step j j'.

(** Decoding the sixteen words of a record. *)
Definition record_of_words (w : list Z) : option EffectRecordV1 :=
  match w with
  | [w0; w1; w2; w3; w4; w5; w6; w7; w8; w9; w10; w11; w12; w13; w14; w15] =>
      Some (mkEffectRecordV1 (w0 mod 4294967296) (w0 / 4294967296)
              (w1 mod 4294967296) (w1 / 4294967296) w2 w3 w4 w5 w6 w7 w8 w9 w10
              (w11 mod 4294967296) (w11 / 4294967296) w12 w13 w14 w15)
  | _ => None
  end.

Definition u32 (x : Z) : Prop := 0 <= x < 4294967296.

(** The [u32] fields of a record hold 32-bit values. *)
Definition record_typed (r : EffectRecordV1) : Prop :=
  u32 (er_schema_version r) /\ u32 (er_byte_size r) /\ u32 (er_event_kind r) /\
  u32 (er_status r) /\ u32 (er_capability_object_type r) /\ u32 (er_reserved_zero r).

(** The reader's loop over the six triplets. *)
Definition read_all_triplets (j : EffectJournalV1) (sequence : Z) : option (list Z) :=
  match journal_read_triplet j sequence 0, journal_read_triplet j sequence 1,
        journal_read_triplet j sequence 2, journal_read_triplet j sequence 3,
        journal_read_triplet j sequence 4, journal_read_triplet j sequence 5 with
  | Ok a, Ok b, Ok c, Ok d, Ok e, Ok f => Some (a ++ b ++ c ++ d ++ e ++ f)
  | _, _, _, _, _, _ => None
  end.

(** ** The validator decides the invariant *)

Lemma record_bad_spec n i r :
  journal_record_bad n i r = false <->
  if decide (Z.of_nat i < n) then record_committed i r else r = EffectRecordV1_default.
Proof.
  unfold journal_record_bad, record_committed.
  destruct (decide (Z.of_nat i < n)) as [Hlt|Hge].
  - rewrite (proj2 (Z.ltb_lt _ _) Hlt). b2p. tauto.
  - rewrite (proj2 (Z.ltb_ge _ _)) by lia. b2p. done.
Qed.

Lemma records_bad_spec n k l :
  journal_records_bad n k l = false <->
  forall i r, l !! i = Some r -> journal_record_bad n (k + i) r = false.
Proof.
  revert k. induction l as [|x l IH]; intros k; simpl.
  - split; [|done]. intros _ i r. by rewrite lookup_nil.
  - rewrite orb_false_iff, IH. split.
    + intros [Hx Hl] [|i] r; simpl.
      * intros [= <-]. by rewrite Nat.add_0_r.
      * intros Hi. replace (k + S i)%nat with (S k + i)%nat by lia. by apply Hl.
    + intros H. split; [specialize (H 0%nat x eq_refl); by rewrite Nat.add_0_r in H|].
      intros i r Hi. replace (S k + i)%nat with (k + S i)%nat by lia. by apply H.
Qed.

Lemma journal_DEAD_shape : journal_shape journal_DEAD.
Proof. split; [done|simpl; lia..]. Qed.

Lemma journal_DEAD_wf : journal_wf journal_DEAD.
Proof. split; [apply journal_DEAD_shape|by left]. Qed.

Lemma open_wf_not_dead j : journal_open_wf j -> ej_state j <> JournalDead.
Proof. intros H. destruct (jw_state j H); congruence. Qed.

Lemma journal_wf_validate j : journal_wf j -> journal_validate j = Ok tt.
Proof.
  intros [[_ Hsc Hsr] [->|H]]; [done|]. unfold journal_validate.
  rewrite (bool_decide_eq_false_2 _ (open_wf_not_dead _ H)).
  destruct H as [Hs Hz Hg Hc Hr Hse Hrec Hn].
  rewrite (proj2 (records_bad_spec _ _ _)) by (intros i r Hi; by apply record_bad_spec, Hrec).
  rewrite Hz, Hg, Hn, !Z.eqb_refl, !(bool_decide_eq_true_2 (replicate 5 0 = _)) by done.
  assert (Hb : bool_decide (ej_state j = JournalBuilding) = false).
  { apply bool_decide_eq_false_2. destruct Hs; congruence. }
  assert (Hse' : bool_decide (ej_state j = JournalSealed)
                 && negb (ej_reserved_record_count j =? 0) = false).
  { b2p. destruct Hs as [Hs|Hs]; [left; congruence|right; auto]. }
  rewrite Hb, Hse'. simpl.
  rewrite !(proj2 (Z.ltb_ge _ _)) by (unfold EFFECT_JOURNAL_RECORD_COUNT; lia). done.
Qed.

Lemma journal_validate_wf j :
  journal_shape j -> journal_validate j = Ok tt -> journal_wf j.
Proof.
  intros Hsh H. split; [done|]. unfold journal_validate in H.
  destruct (bool_decide (ej_state j = JournalDead)) eqn:Hd.
  { left. destruct (bool_decide (j = journal_DEAD)) eqn:Hj; [by b2p|done]. }
  right.
  match type of H with (if ?b then _ else _) = _ => destruct b eqn:Hb; [done|] end.
  destruct (journal_records_bad _ _ _) eqn:Hbad; [done|].
  destruct (negb (ej_next_record_sequence j =? _)) eqn:Hn; [done|].
  pose proof (proj1 (records_bad_spec _ _ _) Hbad) as Hrec.
  unfold EFFECT_JOURNAL_RECORD_COUNT in Hb. b2p. split_hyps.
  split; try done; try lia.
  - destruct (ej_state j); naive_solver.
  - intros Hs. destruct_or!; [congruence|lia].
  - intros i r Hi. by apply record_bad_spec, (Hrec i r Hi).
Qed.

(** ** One append *)

Section Append.
Variables (r : EffectRecordV1) (j : EffectJournalV1).
Hypothesis Hfresh : record_fresh r.
Hypothesis Hshape : journal_shape j.
Hypothesis Hwf : journal_open_wf j.

(** The journal after [r] was appended. *)
Definition appended : EffectJournalV1 :=
  {| ej_state := ej_state j;
     ej_committed_record_count := ej_committed_record_count j + 1;
     ej_reserved_record_count := ej_reserved_record_count j;
     ej_reserved_zero := ej_reserved_zero j;
     ej_object_generation := ej_object_generation j;
     ej_next_record_sequence := ej_next_record_sequence j + 1;
     ej_records := <[Z.to_nat (ej_committed_record_count j) :=
                     number (committed j) r]> (ej_records j) |}.

Lemma committed_length : length (committed j) = Z.to_nat (ej_committed_record_count j).
Proof.
  unfold committed. rewrite length_take.
  pose proof (js_length j Hshape). pose proof (jw_capacity j Hwf).
  pose proof (js_reserved j Hshape). unfold EFFECT_JOURNAL_RECORD_COUNT in *. lia.
Qed.

Lemma append_appended :
  ej_committed_record_count j < 16 ->
  journal_append_unreserved r j = (Ok tt, appended).
Proof.
  intros Hlt. unfold journal_append_unreserved, appended, number.
  destruct Hfresh as (-> & -> & -> & -> & ->). rewrite !Z.eqb_refl.
  rewrite committed_length, (jw_next j Hwf).
  pose proof (js_committed j Hshape).
  rewrite (proj2 (Z.leb_gt _ _)) by (unfold EFFECT_JOURNAL_RECORD_COUNT; lia).
  rewrite (proj2 (Z.eqb_neq _ _)) by lia. simpl.
  rewrite (proj2 (checked_add_Some _ _ (ej_committed_record_count j + 1 + 1))) by lia.
  simpl. by rewrite Z2Nat.id by lia.
Qed.

Lemma appended_committed :
  ej_committed_record_count j < 16 ->
  committed appended = committed j ++ [number (committed j) r].
Proof.
  intros Hlt. unfold committed at 1. simpl.
  pose proof (js_committed j Hshape). pose proof (js_length j Hshape) as Hlen.
  unfold EFFECT_JOURNAL_RECORD_COUNT in *.
  replace (Z.to_nat (ej_committed_record_count j + 1))
    with (S (Z.to_nat (ej_committed_record_count j))) by lia.
  erewrite take_S_r by (apply list_lookup_insert_eq; lia).
  by rewrite take_insert_ge by lia.
Qed.

Lemma appended_shape : ej_committed_record_count j < 16 -> journal_shape appended.
Proof.
  intros Hlt. destruct Hshape. split; simpl; [by rewrite length_insert|lia..].
Qed.

Lemma number_committed :
  record_committed (Z.to_nat (ej_committed_record_count j)) (number (committed j) r).
Proof.
  destruct Hfresh as (? & ? & ? & ? & ?).
  unfold record_committed, number. simpl. rewrite committed_length. done.
Qed.

Lemma appended_records i x :
  ej_committed_record_count j < 16 ->
  ej_records appended !! i = Some x ->
  if decide (Z.of_nat i < ej_committed_record_count j + 1) then record_committed i x
  else x = EffectRecordV1_default.
Proof.
  intros Hlt. simpl. pose proof (js_committed j Hshape).
  pose proof (js_length j Hshape) as Hlen. unfold EFFECT_JOURNAL_RECORD_COUNT in *.
  destruct (decide (i = Z.to_nat (ej_committed_record_count j))) as [->|Hne].
  - rewrite list_lookup_insert_eq by lia. intros [= <-].
    rewrite decide_True by lia. apply number_committed.
  - rewrite list_lookup_insert_ne by done. intros Hi.
    pose proof (jw_records j Hwf i x Hi) as Hx.
    destruct (decide (Z.of_nat i < ej_committed_record_count j)).
    + by rewrite decide_True by lia.
    + by rewrite decide_False by lia.
Qed.

Lemma appended_open_wf (k : Z) :
  ej_state j = JournalLive ->
  0 <= k <= 2 -> ej_committed_record_count j + 1 + k <= 16 ->
  journal_open_wf (ej_set_reserved k appended).
Proof.
  intros Hs Hk Hcap. split; simpl; try (by apply Hwf); try lia.
  - congruence.
  - intros i x. apply appended_records. lia.
  - by rewrite (jw_next j Hwf).
Qed.
End Append.

Lemma record_event_fresh k s d a g q ty ri : record_fresh (record_event k s d a g q ty ri).
Proof. done. Qed.

(** A record the journal refuses as malformed never reaches the array. *)
Lemma append_unreserved_Ok r j j' :
  journal_append_unreserved r j = (Ok tt, j') -> record_fresh r /\ ej_committed_record_count j < 16.
Proof.
  unfold journal_append_unreserved, record_fresh, EFFECT_JOURNAL_RECORD_COUNT.
  match goal with |- context [if ?b then _ else _] => destruct b eqn:H1 end; [done|].
  match goal with |- context [if ?b then _ else _] => destruct b eqn:H2 end; [done|].
  intros _. b2p. split_hyps. split; [tauto|lia].
Qed.

Lemma set_reserved_shape k j :
  0 <= k <= 2 -> journal_shape j -> journal_shape (ej_set_reserved k j).
Proof. intros Hk []. split; simpl; [done|done|lia]. Qed.

Lemma set_reserved_open_wf k j :
  ej_state j = JournalLive ->
  0 <= k <= ej_reserved_record_count j -> journal_open_wf j ->
  journal_open_wf (ej_set_reserved k j).
Proof.
  intros Hs Hk []. split; simpl; auto; try lia. congruence.
Qed.

(** ** The operations *)

Lemma begin_guard j :
  journal_shape j -> journal_open_wf j ->
  (saturating_sub (Z.of_nat EFFECT_JOURNAL_RECORD_COUNT)
     (ej_committed_record_count j + ej_reserved_record_count j) <? 3)
  || (ej_next_record_sequence j =? 0)
  || negb (bool_decide (is_Some (checked_add (ej_next_record_sequence j) 2)))
  = (13 <? ej_committed_record_count j + ej_reserved_record_count j).
Proof.
  intros [_ Hc Hr] Hwf. rewrite (jw_next j Hwf). pose proof (jw_capacity j Hwf).
  rewrite (proj2 (checked_add_Some _ 2 (ej_committed_record_count j + 1 + 2))) by lia.
  rewrite (bool_decide_eq_true_2 (is_Some _)) by eauto.
  rewrite (proj2 (Z.eqb_neq _ 0)) by lia. simpl. rewrite !orb_false_r.
  unfold saturating_sub, EFFECT_JOURNAL_RECORD_COUNT.
  apply eq_true_iff_eq. rewrite !Z.ltb_lt. lia.
Qed.

Lemma begin_lifecycle_eq r j :
  journal_shape j -> journal_open_wf j -> record_fresh r ->
  journal_begin_lifecycle r j =
    if decide (ej_state j = JournalLive) then
      if 13 <? ej_committed_record_count j + ej_reserved_record_count j then (Err JeFull, j)
      else (Ok tt, ej_set_reserved 2 (appended r j))
    else (Err JeUnavailable, j).
Proof.
  intros Hsh Hwf Hf. unfold journal_begin_lifecycle, bindM, getM.
  pose proof (jw_capacity j Hwf). pose proof (js_reserved j Hsh).
  destruct (decide (ej_state j = JournalLive)) as [Hs|Hs].
  - rewrite bool_decide_eq_true_2 by done. simpl.
    rewrite (proj2 (checked_add_Some _ _ _)) by (split; [reflexivity|lia]).
    unfold liftM. simpl. rewrite begin_guard by done.
    destruct (13 <? _) eqn:E; [done|]. b2p.
    rewrite append_appended by (done || lia). done.
  - by rewrite bool_decide_eq_false_2.
Qed.

Lemma append_reserved_eq r release j :
  journal_shape j -> journal_open_wf j -> record_fresh r ->
  journal_append_reserved r release j =
    if decide (ej_state j = JournalLive /\ ej_reserved_record_count j <> 0) then
      (Ok tt, ej_set_reserved (if release then 0 else ej_reserved_record_count j - 1)
                (appended r j))
    else (Err JeUnavailable, j).
Proof.
  intros Hsh Hwf Hf. unfold journal_append_reserved, bindM, getM.
  pose proof (jw_capacity j Hwf). pose proof (js_reserved j Hsh).
  pose proof (jw_reserved j Hwf).
  destruct (decide (ej_state j = JournalLive /\ _)) as [[Hs Hn]|Hs].
  - rewrite bool_decide_eq_true_2 by done. simpl. rewrite (proj2 (Z.eqb_neq _ _)) by done.
    unfold modifyM. rewrite append_appended; simpl.
    + by destruct release.
    + done.
    + apply set_reserved_shape; [lia|done].
    + apply set_reserved_open_wf; [done|lia|done].
    + lia.
  - destruct (decide (ej_state j = JournalLive)).
    + rewrite bool_decide_eq_true_2 by done. simpl.
      destruct (Z.eqb_spec (ej_reserved_record_count j) 0); [done|tauto].
    + by rewrite bool_decide_eq_false_2.
Qed.

(** A successful append had a well-formed record, whichever operation made it. *)
Lemma step_fresh j r release j' :
  (journal_begin_lifecycle r j = (Ok tt, j') \/ journal_append_reserved r release j = (Ok tt, j')) ->
  record_fresh r.
Proof.
  unfold journal_begin_lifecycle, journal_append_reserved, bindM, getM, modifyM, liftM.
  intros [H|H]; cbv beta iota in H.
  - destruct (negb _); [done|]. destruct (ok_or _ _); [|done].
    destruct (_ || _)%bool; [done|].
    destruct (journal_append_unreserved r j) as [[[]|] ?] eqn:E; [|done].
    by apply append_unreserved_Ok in E as [? _].
  - destruct (_ || _)%bool; [done|].
    destruct (journal_append_unreserved r _) as [[[]|] ?] eqn:E; [|done].
    by apply append_unreserved_Ok in E as [? _].
Qed.

Lemma committed_DEAD : committed journal_DEAD = [].
Proof. done. Qed.

Lemma journal_DEAD_step j' : ~ journal_step journal_DEAD j'.
Proof. by inversion 1. Qed.

Lemma set_reserved_committed k j : committed (ej_set_reserved k j) = committed j.
Proof. done. Qed.

(** One step of an open journal. *)
Lemma journal_step_open j j' :
  journal_shape j -> journal_open_wf j -> journal_step j j' ->
  journal_shape j' /\ journal_open_wf j' /\
  (committed j' = committed j \/
   exists r, record_fresh r /\ committed j' = committed j ++ [number (committed j) r]).
Proof.
  intros Hsh Hwf Hstep.
  pose proof (jw_capacity j Hwf). pose proof (js_reserved j Hsh).
  pose proof (jw_reserved j Hwf).
  destruct Hstep as [r Hop|r release Hop|Hop].
  - pose proof (step_fresh j r false j' (or_introl Hop)) as Hf.
    rewrite begin_lifecycle_eq in Hop by done.
    destruct (decide _) as [Hs|]; [|done]. destruct (13 <? _) eqn:E; [done|].
    injection Hop as <-. b2p. split; [|split].
    + apply set_reserved_shape; [lia|]. apply appended_shape; [done|lia].
    + apply appended_open_wf; (done || lia).
    + right. exists r. split; [done|]. rewrite set_reserved_committed.
      apply appended_committed; (done || lia).
  - pose proof (step_fresh j r release j' (or_intror Hop)) as Hf.
    rewrite append_reserved_eq in Hop by done.
    destruct (decide _) as [[Hs Hn]|]; [|done]. injection Hop as <-. split; [|split].
    + apply set_reserved_shape; [by destruct release; lia|]. apply appended_shape; [done|lia].
    + apply appended_open_wf; destruct release; (done || lia).
    + right. exists r. split; [done|]. rewrite set_reserved_committed.
      apply appended_committed; (done || lia).
  - unfold journal_seal in Hop. destruct (_ || _)%bool eqn:E; [done|].
    injection Hop as <-. b2p. destruct E as [Hs Hn]. split; [|split; [|by left]].
    + destruct Hsh. by split.
    + destruct Hwf. split; simpl; auto.
Qed.

Lemma journal_step_wf j j' : journal_wf j -> journal_step j j' -> journal_wf j'.
Proof.
  intros [Hsh [->|Hwf]] Hstep; [by apply journal_DEAD_step in Hstep|].
  destruct (journal_step_open j j' Hsh Hwf Hstep) as (? & ? & _). split; [done|by right].
Qed.

Lemma journal_step_prefix j j' :
  journal_wf j -> journal_step j j' -> committed j `prefix_of` committed j'.
Proof.
  intros [Hsh [->|Hwf]] Hstep; [by apply journal_DEAD_step in Hstep|].
  destruct (journal_step_open j j' Hsh Hwf Hstep) as (_ & _ & [->|(r & _ & ->)]);
    [done|apply prefix_app_r; done].
Qed.

Lemma journal_publish_building_wf j' :
  journal_publish journal_building = (Ok tt, j') -> journal_wf j'.
Proof.
  intros [= <-]. split; [split; [done|simpl; lia..]|]. right.
  split; simpl; try done; try lia; [by left|].
  intros i r Hi. rewrite decide_False by lia.
  change (replicate 16 EffectRecordV1_default !! i = Some r) in Hi.
  by apply lookup_replicate in Hi as [-> _].
Qed.

(** ** Reads *)

Lemma committed_lookup j i r :
  journal_shape j -> journal_open_wf j ->
  committed j !! i = Some r <->
  Z.of_nat i < ej_committed_record_count j /\ ej_records j !! i = Some r.
Proof.
  intros Hsh Hwf. unfold committed. rewrite lookup_take_Some.
  pose proof (js_committed j Hsh). split; intros [? ?]; split; (done || lia).
Qed.

Lemma journal_record_open j sequence :
  0 <= sequence -> journal_shape j -> journal_open_wf j ->
  journal_record j sequence =
    match (if sequence =? 0 then None else committed j !! Z.to_nat (sequence - 1)) with
    | Some r => Ok r
    | None => Err JeInvalidRecord
    end.
Proof.
  intros Hseq Hsh Hwf. unfold journal_record.
  assert (Hs : bool_decide (ej_state j = JournalLive)
               || bool_decide (ej_state j = JournalSealed) = true).
  { b2p. apply (jw_state j Hwf). }
  rewrite Hs. simpl. pose proof (js_committed j Hsh). pose proof (js_length j Hsh) as Hlen.
  pose proof (jw_capacity j Hwf). pose proof (js_reserved j Hsh).
  unfold EFFECT_JOURNAL_RECORD_COUNT, checked_sub in *.
  destruct (Z.eqb_spec sequence 0) as [->|Hne]; [done|].
  rewrite (proj2 (Z.leb_le _ _)) by lia.
  destruct (committed j !! _) as [r|] eqn:Hr.
  - apply committed_lookup in Hr as [Hlt Hr]; [|done..].
    rewrite (proj2 (Z.ltb_lt _ _)) by lia. simpl. rewrite Hr. simpl.
    pose proof (jw_records j Hwf _ _ Hr) as Hc. rewrite decide_True in Hc by done.
    destruct Hc as (_ & _ & -> & _). by rewrite (proj2 (Z.eqb_eq _ _)) by lia.
  - destruct (sequence - 1 <? _) eqn:Hlt; [|done]. b2p.
    destruct (lookup_lt_is_Some_2 (ej_records j) (Z.to_nat (sequence - 1))) as [r Hr']; [lia|].
    assert (committed j !! Z.to_nat (sequence - 1) = Some r) by (apply committed_lookup; [done..|]; split; [lia|done]).
    congruence.
Qed.

Lemma journal_record_prefix j j' sequence r :
  0 <= sequence ->
  journal_wf j -> journal_open_wf j' -> journal_shape j' ->
  committed j `prefix_of` committed j' ->
  journal_record j sequence = Ok r -> journal_record j' sequence = Ok r.
Proof.
  intros Hseq [Hsh [->|Hwf]] Hwf' Hsh' Hp Hr; [done|].
  rewrite journal_record_open in * by done.
  destruct (sequence =? 0); [done|]. destruct (committed j !! _) eqn:E; [|done].
  by rewrite (prefix_lookup_Some _ _ _ _ E Hp).
Qed.

Lemma pack32_arith low high : u32 low -> u32 high -> pack32 low high = low + high * 4294967296.
Proof.
  unfold u32, pack32, shl64, two64. intros Hl Hh.
  rewrite Z.shiftl_mul_pow2, Z.mod_small by lia. change (2 ^ 32) with 4294967296.
  symmetry. apply Z.add_nocarry_lor. apply Z.bits_inj'. intros n Hn.
  rewrite Z.land_spec, Z.bits_0. change 4294967296 with (2 ^ 32).
  destruct (decide (n < 32)).
  - rewrite Z.mul_pow2_bits_low by lia. apply andb_false_r.
  - assert (Hlog : Z.log2 low < 32).
    { destruct (decide (low = 0)) as [->|]; [done|]. apply Z.log2_lt_pow2; lia. }
    by rewrite (Z.bits_above_log2 low) by lia.
Qed.

Lemma pack32_mod low high : u32 low -> u32 high -> pack32 low high mod 4294967296 = low.
Proof.
  intros Hl Hh. rewrite pack32_arith, Z.mod_add, Z.mod_small by (done || lia). done.
Qed.

Lemma pack32_div low high : u32 low -> u32 high -> pack32 low high / 4294967296 = high.
Proof.
  intros Hl Hh. rewrite pack32_arith, Z.div_add, Z.div_small by (done || lia). lia.
Qed.

Lemma read_all_triplets_record j sequence r :
  journal_record j sequence = Ok r ->
  read_all_triplets j sequence =
    Some ((fun i => default 0 (record_word r i)) <$>
          [0; 1; 2; 3; 4; 5; 6; 7; 8; 9; 10; 11; 12; 13; 14; 15; 16; 17]).
Proof. intros Hr. unfold read_all_triplets, journal_read_triplet. simpl. by rewrite Hr. Qed.

Lemma record_words_decode r :
  record_typed r ->
  record_of_words ((fun i => default 0 (record_word r i)) <$>
          [0; 1; 2; 3; 4; 5; 6; 7; 8; 9; 10; 11; 12; 13; 14; 15]) = Some r.
Proof.
  intros (?&?&?&?&?&?). simpl. rewrite !pack32_mod, !pack32_div by done. by destruct r.
Qed.

(** ** Structures in memory *)

(** The bytes a [repr(C)] structure occupies. *)
Definition record_bytes (r : EffectRecordV1) : list Z := struct_bytes 0 effect_record_fields (record_values r).

Definition context_bytes (c : TaskContextV1) : list Z := struct_bytes 0 task_context_fields (context_values c).

Definition fits (fields : list Layout) (values : list Z) : Prop :=
  Forall2 (fun f v => 0 <= v < 256 ^ layout_size f) fields values.

Lemma load_field fields values i f o v :
  fields_ok fields -> fits fields values ->
  fields !! i = Some f -> values !! i = Some v -> field_offsets 0 fields !! i = Some o ->
  le_at (struct_bytes 0 fields values) o (layout_size f) = v.
Proof.
  intros Hok Hfit Hf Hv Ho. rewrite <-(Z.sub_0_r o).
  apply (struct_field fields 0 values i f o v Hok Hf Hv Ho), (Forall2_lookup_lr _ _ _ _ _ _ Hfit Hf Hv).
Qed.

Lemma effect_fields_ok : fields_ok effect_record_fields.
Proof. repeat constructor; done. Qed.

Lemma context_fields_ok : fields_ok task_context_fields.
Proof. repeat constructor; done. Qed.

Lemma length_record_bytes r : length (record_bytes r) = 128%nat.
Proof. reflexivity. Qed.

(** A word of the record holds the [u64] field at its place, or the two [u32] fields there. *)
Lemma record_word_wide r i v o :
  fits effect_record_fields (record_values r) ->
  effect_record_fields !! i = Some layout_u64 -> record_values r !! i = Some v ->
  field_offsets 0 effect_record_fields !! i = Some o -> le_at (record_bytes r) o 8 = v.
Proof. intros Hfit Hf. apply (load_field _ _ i layout_u64 o v effect_fields_ok Hfit Hf). Qed.

Lemma record_word_halves r i low high o :
  fits effect_record_fields (record_values r) -> 0 <= o -> o + 8 <= 128 ->
  effect_record_fields !! i = Some layout_u32 -> effect_record_fields !! S i = Some layout_u32 ->
  record_values r !! i = Some low -> record_values r !! S i = Some high ->
  field_offsets 0 effect_record_fields !! i = Some o -> field_offsets 0 effect_record_fields !! S i = Some (o + 4) ->
  le_at (record_bytes r) o 8 = pack32 low high.
Proof.
  intros Hfit Hlo Hhi Hf Hg Hv Hw Ho Hp. rewrite le_at_halves by (rewrite ?length_record_bytes; lia).
  pose proof (Forall2_lookup_lr _ _ _ _ _ _ Hfit Hf Hv) as Hl. pose proof (Forall2_lookup_lr _ _ _ _ _ _ Hfit Hg Hw) as Hh.
  rewrite pack32_arith by (unfold u32; cbn in Hl, Hh; lia). unfold record_bytes.
  pose proof (load_field _ _ i layout_u32 o low effect_fields_ok Hfit Hf Hv Ho) as El.
  pose proof (load_field _ _ (S i) layout_u32 (o + 4) high effect_fields_ok Hfit Hg Hw Hp) as Eh.
  cbn [layout_size layout_u32] in El, Eh. by rewrite El, Eh.
Qed.

Lemma record_words_in_memory r i :
  fits effect_record_fields (record_values r) ->
  record_word r i = if (0 <=? i) && (i <? 16) then Some (le_at (record_bytes r) (8 * i) 8) else None.
Proof.
  intros Hfit. destruct ((0 <=? i) && (i <? 16)) eqn:Hi; b2p.
  - assert (Hn : exists n, (n < 16)%nat /\ i = Z.of_nat n) by (exists (Z.to_nat i); lia). destruct Hn as (n & Hn & ->).
    destruct n as [|[|[|[|[|[|[|[|[|[|[|[|[|[|[|[|n]]]]]]]]]]]]]]]]; [..|lia]; (cbv [record_word Z.of_nat Pos.of_succ_nat Pos.succ]; f_equal; symmetry).
    + by apply (record_word_halves r 0).
    + by apply (record_word_halves r 2).
    + by apply (record_word_wide r 4).
    + by apply (record_word_wide r 5).
    + by apply (record_word_wide r 6).
    + by apply (record_word_wide r 7).
    + by apply (record_word_wide r 8).
    + by apply (record_word_wide r 9).
    + by apply (record_word_wide r 10).
    + by apply (record_word_wide r 11).
    + by apply (record_word_wide r 12).
    + by apply (record_word_halves r 13).
    + by apply (record_word_wide r 15).
    + by apply (record_word_wide r 16).
    + by apply (record_word_wide r 17).
    + by apply (record_word_wide r 18).
  - unfold record_word. destruct i as [|p|p]; [lia| |done]. by do 4 (destruct p as [p|p|]; try lia).
Qed.

Lemma context_load c i v o :
  fits task_context_fields (context_values c) -> task_context_fields !! i = Some layout_u64 ->
  context_values c !! i = Some v -> field_offsets 0 task_context_fields !! i = Some o -> le_at (context_bytes c) o 8 = v.
Proof. intros Hfit Hf. apply (load_field _ _ i layout_u64 o v context_fields_ok Hfit Hf). Qed.

(** Eight-byte loads of consecutive fields give the values of the fields. *)
Lemma context_loads c from count :
  fits task_context_fields (context_values c) -> (from + count <= 23)%nat ->
  (fun i => le_at (context_bytes c) (offset_of task_context_fields i) 8) <$> seq from count
  = take count (drop from (context_values c)).
Proof.
  intros Hfit Hc. apply list_eq. intros i. rewrite list_lookup_fmap.
  assert (Hl : length (context_values c) = 23%nat) by reflexivity.
  destruct (decide (i < count)%nat) as [Hi|Hi]; [|by rewrite lookup_seq_ge, lookup_take_ge by lia].
  rewrite lookup_seq_lt, lookup_take_lt, lookup_drop by lia. cbn [fmap option_fmap option_map].
  destruct (lookup_lt_is_Some_2 (context_values c) (from + i)) as [v Hv]; [lia|]. rewrite Hv. f_equal.
  assert (Ho : field_offsets 0 task_context_fields !! (from + i)%nat = Some (offset_of task_context_fields (from + i))).
  { unfold offset_of. destruct (nth_lookup_or_length (field_offsets 0 task_context_fields) (from + i) 0) as [H|H]; [done|].
    change (length (field_offsets 0 task_context_fields)) with 23%nat in H. lia. }
  apply (context_load c (from + i)); [done| |done|done].
  unfold task_context_fields. apply lookup_replicate_2. lia.
Qed.

(** ** Theorems *)

(** the run-time check of the journal accepts exactly the well-formed
    journals: the dead one, or an open one whose first [committed] records are
    numbered 1, 2, ... and whose remaining records are zero, with at most two
    reserved records that still fit. *)
Theorem journal_validate_exact j :
  journal_shape j -> journal_validate j = Ok tt <-> journal_wf j.
Proof.
  intros Hsh. split; [by apply journal_validate_wf|apply journal_wf_validate].
Qed.

(** The journal is append-only.  After any sequence of successful
    operations of a well-formed journal it is well-formed and passes its own
    validation, the old log is a prefix of the new one, every record of the log
    carries its position as sequence number, and every record that could be read
    before is read unchanged. *)
Theorem journal_append_only j j' :
  journal_wf j -> rtc journal_step j j' ->
  journal_wf j' /\ journal_validate j' = Ok tt /\
  committed j `prefix_of` committed j' /\
  (forall i r, committed j' !! i = Some r -> er_record_sequence r = Z.of_nat i + 1) /\
  (forall sequence r, 0 <= sequence ->
     journal_record j sequence = Ok r -> journal_record j' sequence = Ok r).
Proof.
  intros Hwf Hrtc.
  assert (Hmain : journal_wf j' /\ committed j `prefix_of` committed j').
  { induction Hrtc as [x|x y z Hxy Hyz IH]; [done|].
    destruct (IH (journal_step_wf _ _ Hwf Hxy)) as [Hz Hp]. split; [done|].
    etrans; [by eapply journal_step_prefix|done]. }
  destruct Hmain as [Hwf' Hp]. split; [done|].
  split; [by apply journal_wf_validate|]. split; [done|].
  destruct Hwf' as [Hsh' [->|Ho']].
  - split.
    + intros i r. by rewrite committed_DEAD, lookup_nil.
    + intros s r Hs Hr. destruct Hwf as [Hsh [->|Ho]]; [done|].
      rewrite journal_record_open in Hr by done.
      destruct Hp as [k Hk]. destruct (committed j); [|done].
      rewrite lookup_nil in Hr. by destruct (s =? 0).
  - split; [|intros s r Hs; by apply journal_record_prefix].
    intros i r [Hlt Hi]%committed_lookup; [|done..].
    pose proof (jw_records _ Ho' _ _ Hi) as Hc. rewrite decide_True in Hc by done. apply Hc.
Qed.

(** Reservations are honoured.  [begin_lifecycle] on a live well-formed
    journal is refused with [Full], changing nothing, exactly when fewer than
    three records are free; otherwise it succeeds and the two further records of
    the lifecycle are then always accepted, leaving the log extended by exactly
    the three records, numbered consecutively, and no reservation. *)
Theorem journal_reservation_honoured j r1 r2 r3 :
  journal_wf j -> ej_state j = JournalLive ->
  record_fresh r1 -> record_fresh r2 -> record_fresh r3 ->
  if decide (16 - (ej_committed_record_count j + ej_reserved_record_count j) < 3)
  then journal_begin_lifecycle r1 j = (Err JeFull, j)
  else exists j1 j2 j3,
    journal_begin_lifecycle r1 j = (Ok tt, j1) /\
    journal_append_reserved r2 false j1 = (Ok tt, j2) /\
    journal_append_reserved r3 true j2 = (Ok tt, j3) /\
    ej_reserved_record_count j3 = 0 /\
    let l1 := committed j ++ [number (committed j) r1] in
    let l2 := l1 ++ [number l1 r2] in
    committed j3 = l2 ++ [number l2 r3].
Proof.
  intros [Hsh [->|Hwf]] Hs Hf1 Hf2 Hf3; [done|].
  pose proof (begin_lifecycle_eq r1 j Hsh Hwf Hf1) as Hb.
  rewrite decide_True in Hb by done. rewrite Hb. clear Hb.
  pose proof (js_reserved j Hsh).
  destruct (decide (16 - _ < 3)) as [Hlt|Hge].
  { by rewrite (proj2 (Z.ltb_lt _ _)) by lia. }
  rewrite (proj2 (Z.ltb_ge _ _)) by lia.
  set (j1 := ej_set_reserved 2 (appended r1 j)).
  assert (Hsh1 : journal_shape j1).
  { apply set_reserved_shape; [lia|]. apply appended_shape; [done|lia]. }
  assert (Hwf1 : journal_open_wf j1) by (apply appended_open_wf; (done || lia)).
  set (j2 := ej_set_reserved 1 (appended r2 j1)).
  assert (Hsh2 : journal_shape j2).
  { apply set_reserved_shape; [lia|]. apply appended_shape; [done|simpl; lia]. }
  assert (Hwf2 : journal_open_wf j2) by (apply appended_open_wf; simpl; (done || lia)).
  exists j1, j2, (ej_set_reserved 0 (appended r3 j2)).
  split; [done|]. split; [|split; [|split; [done|]]].
  - rewrite append_reserved_eq by done.
    rewrite decide_True by (split; [exact Hs|simpl; lia]). done.
  - rewrite append_reserved_eq by done.
    rewrite decide_True by (split; [exact Hs|simpl; lia]). done.
  - cbv zeta. rewrite set_reserved_committed.
    rewrite (appended_committed r3 j2) by (simpl; done || lia).
    unfold j2. rewrite set_reserved_committed.
    rewrite (appended_committed r2 j1) by (simpl; done || lia).
    unfold j1. rewrite set_reserved_committed.
    by rewrite (appended_committed r1 j) by (simpl; done || lia).
Qed.

(** A reader recovers whole records.  For each record of the log of an
    open well-formed journal, the six triplets read one after the other are
    sixteen words followed by two zeros, and the words decode to the record;
    sequence numbers outside the log and triplet numbers above five are refused
    as invalid. *)
Theorem journal_read_roundtrip j sequence r :
  journal_wf j -> 1 <= sequence -> record_typed r ->
  committed j !! Z.to_nat (sequence - 1) = Some r ->
  (exists words, read_all_triplets j sequence = Some (words ++ [0; 0]) /\
                 record_of_words words = Some r) /\
  (forall s t, 0 <= s -> ej_committed_record_count j < s \/ s = 0 \/ 5 < t ->
     journal_read_triplet j s t = Err JeInvalidRecord).
Proof.
  intros [Hsh [->|Hwf]] Hseq Hty Hr; [by rewrite committed_DEAD, lookup_nil in Hr|].
  split.
  - eexists. split; [|by apply record_words_decode].
    apply read_all_triplets_record. rewrite journal_record_open by (done || lia).
    rewrite (proj2 (Z.eqb_neq _ _)) by lia. by rewrite Hr.
  - intros s t Hs Hor. unfold journal_read_triplet.
    destruct (t <=? 5) eqn:Ht; [|done]. simpl. b2p.
    rewrite journal_record_open by done.
    destruct (Z.eqb_spec s 0); [done|].
    destruct (committed j !! Z.to_nat (s - 1)) eqn:E2; [|done].
    apply committed_lookup in E2 as [? _]; (done || lia).
Qed.

(** ** Witnesses *)

Definition sample_record : EffectRecordV1 :=
  record_event EvRequested StOk 0 2 5
    (mkApprovalRequestV1 1 2 5 1 1 1 1 42 64 16) OBJECT_TYPE_APPROVAL_BROKER
    CAPABILITY_RIGHT_SUBMIT_APPROVAL.

Definition sample_journal : EffectJournalV1 := ej_set_state JournalLive journal_building.

Definition sample_journal_one : EffectJournalV1 :=
  snd (journal_begin_lifecycle sample_record sample_journal).

Lemma sample_journal_wf : journal_wf sample_journal.
Proof. by apply journal_publish_building_wf. Qed.

Lemma sample_journal_one_step : journal_step sample_journal sample_journal_one.
Proof. by apply jstep_begin with sample_record. Qed.

Lemma sample_journal_one_wf : journal_wf sample_journal_one.
Proof. eapply journal_step_wf; [apply sample_journal_wf|apply sample_journal_one_step]. Qed.

Lemma journal_validate_exact_witness :
  journal_validate sample_journal_one = Ok tt /\ journal_wf sample_journal_one.
Proof.
  split; [reflexivity|]. apply journal_validate_exact; [|reflexivity].
  split; vm_compute; (reflexivity || (split; congruence)).
Defined.

Lemma journal_append_only_witness :
  committed sample_journal `prefix_of` committed sample_journal_one.
Proof.
  refine (proj1 (proj2 (proj2 (journal_append_only sample_journal sample_journal_one _ _)))).
  - apply sample_journal_wf.
  - apply rtc_once, sample_journal_one_step.
Defined.

Lemma journal_reservation_honoured_witness :
  exists j1 j2 j3,
    journal_begin_lifecycle sample_record sample_journal = (Ok tt, j1) /\
    journal_append_reserved sample_record false j1 = (Ok tt, j2) /\
    journal_append_reserved sample_record true j2 = (Ok tt, j3).
Proof.
  destruct (journal_reservation_honoured sample_journal sample_record sample_record
              sample_record sample_journal_wf eq_refl) as (j1 & j2 & j3 & ? & ? & ? & _);
    [repeat split..|]. exists j1, j2, j3. auto.
Defined.

Lemma journal_read_roundtrip_witness :
  exists words, read_all_triplets sample_journal_one 1 = Some (words ++ [0; 0]) /\
                record_of_words words = Some (er_set_record_sequence 1 sample_record).
Proof.
  refine (proj1 (journal_read_roundtrip sample_journal_one 1 _ sample_journal_one_wf _ _ _)).
  - lia.
  - repeat split; vm_compute; congruence.
  - reflexivity.
Defined.

(** C17: The layouts that the assembly and the component's reads rely on are
    the ones the [repr(C)] structures have.  A record is 128 bytes, 8-aligned,
    with every field at its asserted offset, and [EffectRecordV1::word(i)] is
    exactly the little-endian word at byte [8 * i] of it (so the two [u32] halves
    of words 0, 1 and 11 are in memory order) and nothing past word 15; the
    launch manifest is 184 bytes with its routes of 32 bytes at 56, the approval
    request 80 with its sequence at 24 and its argument at 56; a trap frame is
    160 bytes, a context 184; and an eight-byte load at each [CONTEXT_*_OFFSET] of
    a context in memory gives the register of that name. *)
Theorem abi_layouts r c :
  fits effect_record_fields (record_values r) -> fits task_context_fields (context_values c) ->
  repr_c effect_record_fields = mkLayout EFFECT_RECORD_BYTE_SIZE 8 /\
  field_offsets 0 effect_record_fields = [0; 4; 8; 12; 16; 24; 32; 40; 48; 56; 64; 72; 80; 88; 92; 96; 104; 112; 120] /\
  Z.of_nat (length (record_bytes r)) = EFFECT_RECORD_BYTE_SIZE /\
  (forall i, record_word r i = if (0 <=? i) && (i <? 16) then Some (le_at (record_bytes r) (8 * i) 8) else None) /\
  repr_c launch_route_fields = mkLayout 32 8 /\ repr_c launch_manifest_fields = mkLayout MANIFEST_BYTE_SIZE 8 /\
  MANIFEST_ROUTES_OFFSET = 56 /\ repr_c approval_request_fields = mkLayout 80 8 /\
  APPROVAL_SEQUENCE_OFFSET = 24 /\ APPROVAL_ARGUMENT_OFFSET = 56 /\
  repr_c trap_frame_fields = mkLayout (20 * 8) 8 /\ repr_c task_context_fields = mkLayout (23 * 8) 8 /\
  ((fun o => le_at (context_bytes c) o 8) <$>
     [ CONTEXT_RAX_OFFSET; CONTEXT_RBX_OFFSET; CONTEXT_RCX_OFFSET; CONTEXT_RDX_OFFSET; CONTEXT_RBP_OFFSET;
       CONTEXT_RSI_OFFSET; CONTEXT_RDI_OFFSET; CONTEXT_R8_OFFSET; CONTEXT_R9_OFFSET; CONTEXT_R10_OFFSET;
       CONTEXT_R11_OFFSET; CONTEXT_R12_OFFSET; CONTEXT_R13_OFFSET; CONTEXT_R14_OFFSET; CONTEXT_R15_OFFSET ]) = context_gprs c /\
  ((fun o => le_at (context_bytes c) o 8) <$>
     [ CONTEXT_RIP_OFFSET; CONTEXT_RSP_OFFSET; CONTEXT_RFLAGS_OFFSET; CONTEXT_CS_OFFSET; CONTEXT_SS_OFFSET;
       CONTEXT_ROOT_OFFSET ]) = [ tc_rip c; tc_rsp c; tc_rflags c; tc_cs c; tc_ss c; tc_root c ].
Proof.
  intros Hr Hc. split_and!; try reflexivity.
  - intros i. by apply record_words_in_memory.
  - exact (context_loads c 0 15 Hc ltac:(lia)).
  - exact (context_loads c 15 6 Hc ltac:(lia)).
Qed.

Lemma abi_layouts_witness :
  let r := record_event EvRequested StOk 3 2 1 (mkApprovalRequestV1 1 2 1 4 5 6 7 8 9 10) OBJECT_TYPE_TEST_EFFECT 1 in
  let c := context_initial 2 1 4096 65536 131072 27 35 in
  record_word r 11 = Some (le_at (record_bytes r) 88 8) /\ le_at (context_bytes c) CONTEXT_RSP_OFFSET 8 = 131072.
Proof.
  intros r c.
  assert (Hr : fits effect_record_fields (record_values r)) by (cbv; repeat (apply List.Forall2_cons; [split; done|]); apply List.Forall2_nil).
  assert (Hc : fits task_context_fields (context_values c)) by (cbv; repeat (apply List.Forall2_cons; [split; done|]); apply List.Forall2_nil).
  destruct (abi_layouts r c Hr Hc) as (_ & _ & _ & Hw & _ & _ & _ & _ & _ & _ & _ & _ & _ & Hs).
  split; [exact (Hw 11)|exact (f_equal (fun l => nth 1 l 0) Hs)].
Defined.
