(* ===== verification/Runtime.v ===== *)
(** * The task runtime: data, construction, scheduling and validation

    [TaskSlot], [ApprovalBroker], [SyntheticEffect], [EndpointSnapshot],
    [RunQueue] and [Runtime] of [src/crates/task-runtime/src/lib.rs]
    (lines 1370-2390): records, the constructors with their publication and
    rollback, the accessors, dispatch, trap capture and the run-time validator.
    The trap operations are in [RuntimeOps].

    [TASK_COUNT] is 2 and the task array is only indexed by the constants 0
    and 1, so the array is two fields of the record. *)

From S2P Require Import Prelude RuntimeTypes Capability.

(** ** Data *)

Record TaskSlot : Type := mkTaskSlot {
  ts_id : Z;
  ts_generation : Z;
  ts_state : TaskState;
  ts_context : TaskContextV1;
  ts_capabilities : CapabilityTable
}.

#[global] Instance TaskSlot_eq_dec : EqDecision TaskSlot.
Proof. solve_decision. Defined.

Inductive RuntimeProfile : Type :=
| Cooperative
| Supervised.

#[global] Instance RuntimeProfile_eq_dec : EqDecision RuntimeProfile.
Proof. solve_decision. Defined.

Inductive ApprovalBrokerState : Type :=
| BrokerBuilding
| BrokerEmpty
| BrokerPending
| BrokerApproved
| BrokerClosing
| BrokerDead.

#[global] Instance ApprovalBrokerState_eq_dec : EqDecision ApprovalBrokerState.
Proof. solve_decision. Defined.

Record ManifestPublication : Type := mkManifestPublication {
  mp_manifest_id : Z;
  mp_principal_id : Z;
  mp_target_task_id : Z;
  mp_target_generation : Z;
  mp_image_id : Z;
  mp_published : bool
}.

#[global] Instance ManifestPublication_eq_dec : EqDecision ManifestPublication.
Proof. solve_decision. Defined.

Definition ManifestPublication_EMPTY : ManifestPublication :=
  mkManifestPublication 0 0 0 0 0 false.

(** The publication record of the registered manifest, as [start_workload]
    writes it and [submit_approval] compares against it. *)
Definition ManifestPublication_registered : ManifestPublication :=
  {| mp_manifest_id := MANIFEST_ID;
     mp_principal_id := PRINCIPAL_ID;
     mp_target_task_id := RECEIVER_TASK_ID;
     mp_target_generation := WORKLOAD_GENERATION;
     mp_image_id := WORKLOAD_IMAGE_ID;
     mp_published := true |}.

Record ApprovalBroker : Type := mkApprovalBroker {
  ab_state : ApprovalBrokerState;
  ab_object_generation : Z;
  ab_supervisor_task_id : Z;
  ab_supervisor_generation : Z;
  ab_workload_task_id : Z;
  ab_workload_generation : Z;
  ab_request_kind : Z;
  ab_request : ApprovalRequestV1;
  ab_request_present : bool;
  ab_next_sequence : Z;
  ab_sequence_exhausted : bool;
  ab_decision_epoch : Z;
  ab_approval_epoch : Z;
  ab_expiry_epoch : Z
}.

#[global] Instance ApprovalBroker_eq_dec : EqDecision ApprovalBroker.
Proof. solve_decision. Defined.

Definition ApprovalBroker_DEAD : ApprovalBroker :=
  {| ab_state := BrokerDead;
     ab_object_generation := 0;
     ab_supervisor_task_id := 0;
     ab_supervisor_generation := 0;
     ab_workload_task_id := 0;
     ab_workload_generation := 0;
     ab_request_kind := 0;
     ab_request := ApprovalRequestV1_default;
     ab_request_present := false;
     ab_next_sequence := 0;
     ab_sequence_exhausted := false;
     ab_decision_epoch := 0;
     ab_approval_epoch := 0;
     ab_expiry_epoch := 0 |}.

Definition broker_building (supervisor_generation workload_generation : Z) : ApprovalBroker :=
  {| ab_state := BrokerBuilding;
     ab_object_generation := FIXED_OBJECT_GENERATION;
     ab_supervisor_task_id := SENDER_TASK_ID;
     ab_supervisor_generation := supervisor_generation;
     ab_workload_task_id := RECEIVER_TASK_ID;
     ab_workload_generation := workload_generation;
     ab_request_kind := 0;
     ab_request := ab_request ApprovalBroker_DEAD;
     ab_request_present := false;
     ab_next_sequence := 1;
     ab_sequence_exhausted := false;
     ab_decision_epoch := 1;
     ab_approval_epoch := 0;
     ab_expiry_epoch := 0 |}.

Definition broker_clear_request (b : ApprovalBroker) : ApprovalBroker :=
  {| ab_state := ab_state b;
     ab_object_generation := ab_object_generation b;
     ab_supervisor_task_id := ab_supervisor_task_id b;
     ab_supervisor_generation := ab_supervisor_generation b;
     ab_workload_task_id := ab_workload_task_id b;
     ab_workload_generation := ab_workload_generation b;
     ab_request_kind := 0;
     ab_request := ab_request ApprovalBroker_DEAD;
     ab_request_present := false;
     ab_next_sequence := ab_next_sequence b;
     ab_sequence_exhausted := ab_sequence_exhausted b;
     ab_decision_epoch := ab_decision_epoch b;
     ab_approval_epoch := 0;
     ab_expiry_epoch := 0 |}.

Record SyntheticEffect : Type := mkSyntheticEffect {
  se_object_generation : Z;
  se_supervisor_task_id : Z;
  se_supervisor_generation : Z;
  se_occupied : bool;
  se_value : Z
}.

#[global] Instance SyntheticEffect_eq_dec : EqDecision SyntheticEffect.
Proof. solve_decision. Defined.

Definition SyntheticEffect_EMPTY : SyntheticEffect := mkSyntheticEffect 0 0 0 false 0.

Record EndpointSnapshot : Type := mkEndpointSnapshot {
  ep_object_generation : Z;
  ep_sender_task : Z;
  ep_sender_generation : Z;
  ep_receiver_task : Z;
  ep_receiver_generation : Z;
  ep_occupied : bool;
  ep_payload : Z
}.

#[global] Instance EndpointSnapshot_eq_dec : EqDecision EndpointSnapshot.
Proof. solve_decision. Defined.

(** The all-zero endpoint the source writes out at each use. *)
Definition EMPTY_ENDPOINT : EndpointSnapshot := mkEndpointSnapshot 0 0 0 0 0 false 0.

(** ** The run queue *)

Record RunQueue : Type := mkRunQueue {
  rq_entries : list Z;
  rq_len : nat
}.

#[global] Instance RunQueue_eq_dec : EqDecision RunQueue.
Proof. solve_decision. Defined.

Definition queue_new : RunQueue := mkRunQueue (replicate (Z.to_nat TASK_COUNT) 0) 0.

(** [self.entries[..self.len].contains(&task)] *)
Definition queue_contains (q : RunQueue) (task : Z) : bool :=
  existsb (fun e => e =? task) (take (rq_len q) (rq_entries q)).

Definition queue_push (task : Z) : M RunQueue RuntimeError unit :=
  fun q =>
    if queue_contains q task then (Err DuplicateQueueMember, q)
    else if (rq_len q =? Z.to_nat TASK_COUNT)%nat then (Err QueueFull, q)
    else (Ok tt, mkRunQueue (<[rq_len q := task]> (rq_entries q)) (rq_len q + 1)).

(** [for index in 1..self.len { self.entries[index - 1] = self.entries[index]; }] *)
Fixpoint queue_shift (entries : list Z) (index count : nat) : list Z :=
  match count with
  | O => entries
  | S count' =>
      queue_shift (<[(index - 1)%nat := default 0 (entries !! index)]> entries)
                  (index + 1) count'
  end.

Definition queue_pop (q : RunQueue) : option Z * RunQueue :=
  if (rq_len q =? 0)%nat then (None, q)
  else
    let task := default 0 (rq_entries q !! 0%nat) in
    let entries := queue_shift (rq_entries q) 1 (rq_len q - 1) in
    let len := (rq_len q - 1)%nat in
    (Some task, mkRunQueue (<[len := 0]> entries) len).

(** ** The runtime *)

Record Runtime : Type := mkRuntime {
  rt_profile : RuntimeProfile;
  rt_task0 : TaskSlot;
  rt_task1 : TaskSlot;
  rt_queue : RunQueue;
  rt_endpoint : EndpointSnapshot;
  rt_manifest : ManifestPublication;
  rt_broker : ApprovalBroker;
  rt_effect : SyntheticEffect
}.

#[global] Instance Runtime_eq_dec : EqDecision Runtime.
Proof. solve_decision. Defined.

(** [self.tasks] *)
Definition rt_tasks (r : Runtime) : list TaskSlot := [rt_task0 r; rt_task1 r].

Inductive TrapOutcome : Type :=
| OutResume (task : Z)
| OutSwitch (task : Z)
| OutExit (task : Z).

#[global] Instance TrapOutcome_eq_dec : EqDecision TrapOutcome.
Proof. solve_decision. Defined.

(** Field writes. *)
Definition ts_set_state (st : TaskState) (s : TaskSlot) : TaskSlot :=
  mkTaskSlot (ts_id s) (ts_generation s) st (ts_context s) (ts_capabilities s).
Definition ts_set_context (c : TaskContextV1) (s : TaskSlot) : TaskSlot :=
  mkTaskSlot (ts_id s) (ts_generation s) (ts_state s) c (ts_capabilities s).
Definition ts_set_capabilities (t : CapabilityTable) (s : TaskSlot) : TaskSlot :=
  mkTaskSlot (ts_id s) (ts_generation s) (ts_state s) (ts_context s) t.

Definition rt_set_task0 (s : TaskSlot) (r : Runtime) : Runtime :=
  mkRuntime (rt_profile r) s (rt_task1 r) (rt_queue r) (rt_endpoint r) (rt_manifest r)
    (rt_broker r) (rt_effect r).
Definition rt_set_task1 (s : TaskSlot) (r : Runtime) : Runtime :=
  mkRuntime (rt_profile r) (rt_task0 r) s (rt_queue r) (rt_endpoint r) (rt_manifest r)
    (rt_broker r) (rt_effect r).
Definition rt_set_queue (q : RunQueue) (r : Runtime) : Runtime :=
  mkRuntime (rt_profile r) (rt_task0 r) (rt_task1 r) q (rt_endpoint r) (rt_manifest r)
    (rt_broker r) (rt_effect r).
Definition rt_set_endpoint (e : EndpointSnapshot) (r : Runtime) : Runtime :=
  mkRuntime (rt_profile r) (rt_task0 r) (rt_task1 r) (rt_queue r) e (rt_manifest r)
    (rt_broker r) (rt_effect r).
Definition rt_set_manifest (m : ManifestPublication) (r : Runtime) : Runtime :=
  mkRuntime (rt_profile r) (rt_task0 r) (rt_task1 r) (rt_queue r) (rt_endpoint r) m
    (rt_broker r) (rt_effect r).
Definition rt_set_broker (b : ApprovalBroker) (r : Runtime) : Runtime :=
  mkRuntime (rt_profile r) (rt_task0 r) (rt_task1 r) (rt_queue r) (rt_endpoint r)
    (rt_manifest r) b (rt_effect r).
Definition rt_set_effect (e : SyntheticEffect) (r : Runtime) : Runtime :=
  mkRuntime (rt_profile r) (rt_task0 r) (rt_task1 r) (rt_queue r) (rt_endpoint r)
    (rt_manifest r) (rt_broker r) e.

(** ** Slots *)

(** [slot] and the read side of [slot_mut] *)
Definition slot (r : Runtime) (task : Z) : result TaskSlot RuntimeError :=
  if task =? SENDER_TASK_ID then Ok (rt_task0 r)
  else if task =? RECEIVER_TASK_ID then Ok (rt_task1 r)
  else Err InvalidTask.

(** A write through the reference [slot_mut] returns. *)
Definition slot_mut (task : Z) (f : TaskSlot -> TaskSlot) : M Runtime RuntimeError unit :=
  fun r =>
    if task =? SENDER_TASK_ID then (Ok tt, rt_set_task0 (f (rt_task0 r)) r)
    else if task =? RECEIVER_TASK_ID then (Ok tt, rt_set_task1 (f (rt_task1 r)) r)
    else (Err InvalidTask, r).

(** [self.slot_mut(task)?.capabilities.m(...)]: the method's own result is
    returned as a value, since callers match on it. *)
Definition on_capabilities {E A} (task : Z) (m : M CapabilityTable E A)
    : M Runtime RuntimeError (result A E) :=
  let! s := readM (fun r => slot r task) in
  let '(res, t') := m (ts_capabilities s) in
  do! slot_mut task (ts_set_capabilities t') in
  retM res.

(** [self.queue.push(task)] *)
Definition rt_queue_push (task : Z) : M Runtime RuntimeError unit :=
  fun r => let '(res, q') := queue_push task (rt_queue r) in (res, rt_set_queue q' r).

Definition set_result (task : Z) (status : TrapStatus) (value : Z)
    : M Runtime RuntimeError unit :=
  slot_mut task (fun s => ts_set_context (context_set_result status value (ts_context s)) s).

Definition set_state (task : Z) (st : TaskState) : M Runtime RuntimeError unit :=
  slot_mut task (ts_set_state st).

(** ** Accessors *)

Definition rt_state (r : Runtime) (task : Z) : result TaskState RuntimeError :=
  let? s := slot r task in Ok (ts_state s).

Definition rt_generation (r : Runtime) (task : Z) : result Z RuntimeError :=
  let? s := slot r task in Ok (ts_generation s).

Definition rt_context (r : Runtime) (task : Z) : result TaskContextV1 RuntimeError :=
  let? s := slot r task in Ok (ts_context s).

Definition rt_capability_table (r : Runtime) (task : Z)
    : result CapabilityTableSnapshot RuntimeError :=
  let? s := slot r task in Ok (table_snapshot (ts_capabilities s)).

(** The loop of [running_task]; [running] is the identifier found so far. *)
Fixpoint running_loop (running : Z) (tasks : list TaskSlot) : result Z RuntimeError :=
  match tasks with
  | [] => Ok running
  | s :: rest =>
      if bool_decide (ts_state s = Running) then
        if negb (running =? 0) then Err MultipleRunningTasks
        else running_loop (ts_id s) rest
      else running_loop running rest
  end.

Definition running_task (r : Runtime) : result Z RuntimeError :=
  let? running := running_loop 0 (rt_tasks r) in
  if running =? 0 then Err NoRunningTask else Ok running.

(** ** Validation *)

Definition is_state (st : TaskState) (s : TaskSlot) : bool := bool_decide (ts_state s = st).

(** The [for (index, task) in entries[..len]] loop: a member that is not a task
    identifier, or that occurs again later. *)
Fixpoint queue_members_bad (members : list Z) : bool :=
  match members with
  | [] => false
  | task :: rest =>
      negb ((task =? SENDER_TASK_ID) || (task =? RECEIVER_TASK_ID))
      || existsb (fun e => e =? task) rest
      || queue_members_bad rest
  end.

(** The body of the [for slot in &self.tasks] loop of [validate]. *)
Definition validate_slot (q : RunQueue) (s : TaskSlot) : result unit RuntimeError :=
  let? _ := table_validate (ts_capabilities s) in
  let queued := queue_contains q (ts_id s) in
  if negb (Bool.eqb (is_state Ready s) queued)
  then Err (if queued then InvalidQueueMember else MissingQueueMember)
  else if
    if is_state TaskDead s then
      negb (ts_generation s =? 0)
      || negb (tc_task_id (ts_context s) =? 0)
      || negb (tc_generation (ts_context s) =? 0)
      || negb (tc_root (ts_context s) =? 0)
      || negb (bool_decide (ct_state (ts_capabilities s) = TableDead))
    else
      (ts_generation s =? 0)
      || negb (tc_task_id (ts_context s) =? ts_id s)
      || negb (tc_generation (ts_context s) =? ts_generation s)
      || (tc_root (ts_context s) =? 0)
      || negb (ct_task_id (ts_capabilities s) =? ts_id s)
      || negb (ct_task_generation (ts_capabilities s) =? ts_generation s)
  then Err InvalidGeneration
  else
    let? expected_table_state :=
      match ts_state s with
      | Staged => Ok TableBuilding
      | Ready | Running | BlockedReceive | BlockedApproval => Ok TableLive
      | Exited =>
          if negb (bool_decide (ct_state (ts_capabilities s) = TableLive)
                   || bool_decide (ct_state (ts_capabilities s) = TableClosing))
          then Err CapabilityInvariant
          else Ok (ct_state (ts_capabilities s))
      | TaskDead => Ok TableDead
      end in
    if negb (bool_decide (ct_state (ts_capabilities s) = expected_table_state))
    then Err CapabilityInvariant
    else Ok tt.

Definition table_is (st : CapabilityTableState) (s : TaskSlot) : bool :=
  bool_decide (ct_state (ts_capabilities s) = st).

Definition validate_cooperative (r : Runtime) : result unit RuntimeError :=
  let endpoint := rt_endpoint r in
  let sender := rt_task0 r in
  let receiver := rt_task1 r in
  if existsb (fun s => is_state Staged s || is_state BlockedApproval s) (rt_tasks r)
     || negb (bool_decide (rt_manifest r = ManifestPublication_EMPTY))
     || negb (bool_decide (rt_broker r = ApprovalBroker_DEAD))
     || negb (bool_decide (rt_effect r = SyntheticEffect_EMPTY))
  then Err CapabilityInvariant
  else if table_is TableLive sender
       && (negb (ep_sender_task endpoint =? ts_id sender)
           || negb (ep_sender_generation endpoint =? ts_generation sender))
  then Err EndpointInvariant
  else if (table_is TableClosing sender || table_is TableDead sender)
       && (negb (ep_sender_task endpoint =? 0) || negb (ep_sender_generation endpoint =? 0))
  then Err EndpointInvariant
  else if table_is TableLive receiver
       && (negb (ep_receiver_task endpoint =? ts_id receiver)
           || negb (ep_receiver_generation endpoint =? ts_generation receiver))
  then Err EndpointInvariant
  else if (table_is TableClosing receiver || table_is TableDead receiver)
       && (negb (ep_receiver_task endpoint =? 0) || negb (ep_receiver_generation endpoint =? 0))
  then Err EndpointInvariant
  else if is_state BlockedReceive receiver
       && (ep_occupied endpoint || (ep_sender_generation endpoint =? 0))
  then Err EndpointInvariant
  else if (ep_receiver_generation endpoint =? 0) && ep_occupied endpoint
  then Err EndpointInvariant
  else if (negb (ep_occupied endpoint) && negb (ep_payload endpoint =? 0))
       || negb ((ep_object_generation endpoint =? 0)
                || (ep_object_generation endpoint =? ENDPOINT_GENERATION))
       || (existsb (fun s => negb (is_state TaskDead s)) (rt_tasks r)
           && negb (ep_object_generation endpoint =? ENDPOINT_GENERATION))
       || negb (Bool.eqb (ep_sender_task endpoint =? 0) (ep_sender_generation endpoint =? 0))
       || negb (Bool.eqb (ep_receiver_task endpoint =? 0) (ep_receiver_generation endpoint =? 0))
       || negb ((ep_sender_task endpoint =? 0) || (ep_sender_task endpoint =? SENDER_TASK_ID))
       || negb ((ep_receiver_task endpoint =? 0)
                || (ep_receiver_task endpoint =? RECEIVER_TASK_ID))
  then Err EndpointInvariant
  else if forallb (is_state TaskDead) (rt_tasks r)
       && negb (bool_decide (endpoint = EMPTY_ENDPOINT))
  then Err EndpointInvariant
  else Ok tt.

(** The two [else if] arms on [workload.state] of [validate_supervised]. *)
Definition supervised_manifest_bad (r : Runtime) : bool :=
  let workload := rt_task1 r in
  let manifest := rt_manifest r in
  if is_state Staged workload then
    negb (bool_decide (manifest = ManifestPublication_EMPTY))
    || negb (table_is TableBuilding workload)
    || negb (cts_live_slots (table_snapshot (ts_capabilities workload)) =? 0)
  else
    negb (is_state TaskDead workload)
    && negb (table_is TableClosing workload)
    && (negb (mp_published manifest)
        || negb (mp_manifest_id manifest =? MANIFEST_ID)
        || negb (mp_principal_id manifest =? PRINCIPAL_ID)
        || negb (mp_target_task_id manifest =? RECEIVER_TASK_ID)
        || negb (mp_target_generation manifest =? WORKLOAD_GENERATION)
        || negb (mp_image_id manifest =? WORKLOAD_IMAGE_ID)).

(** A broker without a request. *)
Definition broker_has_residue (b : ApprovalBroker) : bool :=
  ab_request_present b
  || negb (ab_request_kind b =? 0)
  || negb (bool_decide (ab_request b = ApprovalRequestV1_default))
  || negb (ab_approval_epoch b =? 0)
  || negb (ab_expiry_epoch b =? 0).

(** The [match self.broker.state] of [validate_supervised]. *)
Definition broker_state_bad (b : ApprovalBroker) (workload : TaskSlot) : bool :=
  match ab_state b with
  | BrokerBuilding => true
  | BrokerEmpty => broker_has_residue b
  | BrokerPending =>
      negb (ab_request_present b)
      || negb (ab_request_kind b =? APPROVAL_REQUEST_KIND_COMMIT_SYNTHETIC_VALUE)
      || negb (ab_approval_epoch b =? 0)
      || negb (ab_expiry_epoch b =? 0)
      || negb (is_state BlockedApproval workload)
  | BrokerApproved =>
      negb (ab_request_present b)
      || negb (ab_request_kind b =? APPROVAL_REQUEST_KIND_COMMIT_SYNTHETIC_VALUE)
      || (ab_approval_epoch b =? 0)
      || negb (ab_expiry_epoch b =? saturating_add (ab_approval_epoch b) 1)
      || negb (is_state BlockedApproval workload)
  | BrokerClosing | BrokerDead => broker_has_residue b
  end.

Definition broker_identity_bad (b : ApprovalBroker) : bool :=
  if negb (bool_decide (ab_state b = BrokerDead)) then
    negb (ab_object_generation b =? FIXED_OBJECT_GENERATION)
    || (ab_next_sequence b =? 0)
    || (ab_decision_epoch b =? 0)
  else negb (bool_decide (b = ApprovalBroker_DEAD)).

Definition request_bad (request : ApprovalRequestV1) : bool :=
  negb (ar_principal_id request =? PRINCIPAL_ID)
  || negb (ar_workload_task_id request =? RECEIVER_TASK_ID)
  || negb (ar_workload_generation request =? WORKLOAD_GENERATION)
  || (ar_sequence request =? 0)
  || negb (ar_action_id request =? APPROVAL_ACTION_ID_COMMIT_SYNTHETIC_VALUE)
  || negb (ar_effect_object_id request =? TEST_EFFECT_OBJECT_ID)
  || negb (ar_effect_object_generation request =? FIXED_OBJECT_GENERATION)
  || negb (ar_requested_rights request =? CAPABILITY_RIGHT_COMMIT_EFFECT)
  || negb (ar_resulting_rights request =? 0).

Definition effect_bad (e : SyntheticEffect) : bool :=
  if se_object_generation e =? 0 then negb (bool_decide (e = SyntheticEffect_EMPTY))
  else
    negb (se_object_generation e =? FIXED_OBJECT_GENERATION)
    || negb (se_supervisor_task_id e =? SENDER_TASK_ID)
    || negb (se_supervisor_generation e =? SUPERVISOR_GENERATION)
    || (negb (se_occupied e) && negb (se_value e =? 0)).

Definition validate_supervised (r : Runtime) : result unit RuntimeError :=
  let supervisor := rt_task0 r in
  let workload := rt_task1 r in
  let broker := rt_broker r in
  if negb (bool_decide (rt_endpoint r = EMPTY_ENDPOINT))
     || existsb (is_state BlockedReceive) (rt_tasks r)
  then Err EndpointInvariant
  else if negb (is_state TaskDead supervisor)
       && negb (ts_generation supervisor =? SUPERVISOR_GENERATION)
  then Err InvalidGeneration
  else if negb (is_state TaskDead workload)
       && negb (ts_generation workload =? WORKLOAD_GENERATION)
  then Err InvalidGeneration
  else if supervised_manifest_bad r then Err ManifestInvariant
  else if is_state TaskDead workload
       && negb (bool_decide (rt_manifest r = ManifestPublication_EMPTY))
  then Err ManifestInvariant
  else if broker_state_bad broker workload then Err BrokerInvariant
  else if broker_identity_bad broker then Err BrokerInvariant
  else if ab_request_present broker && request_bad (ab_request broker)
  then Err BrokerInvariant
  else if effect_bad (rt_effect r) then Err EffectInvariant
  else if forallb (is_state TaskDead) (rt_tasks r)
       && (negb (bool_decide (rt_manifest r = ManifestPublication_EMPTY))
           || negb (bool_decide (broker = ApprovalBroker_DEAD))
           || negb (bool_decide (rt_effect r = SyntheticEffect_EMPTY)))
  then Err BrokerInvariant
  else Ok tt.

Definition validate (r : Runtime) : result unit RuntimeError :=
  let q := rt_queue r in
  if (Z.to_nat TASK_COUNT <? rq_len q)%nat
     || existsb (fun e => negb (e =? 0)) (drop (rq_len q) (rq_entries q))
  then Err InvalidQueueMember
  else if queue_members_bad (take (rq_len q) (rq_entries q)) then Err DuplicateQueueMember
  else if 1 <? countb (is_state Running) (rt_tasks r) then Err MultipleRunningTasks
  else
    let? _ := validate_slot q (rt_task0 r) in
    let? _ := validate_slot q (rt_task1 r) in
    match rt_profile r with
    | Cooperative => validate_cooperative r
    | Supervised => validate_supervised r
    end.

(** ** Dispatch and trap capture *)

(** [self.queue.pop()] *)
Definition rt_queue_pop : M Runtime RuntimeError (option Z) :=
  fun r => let '(task, q') := queue_pop (rt_queue r) in (Ok task, rt_set_queue q' r).

Definition dispatch_next : M Runtime RuntimeError (option Z) :=
  let! r := getM in
  if existsb (is_state Running) (rt_tasks r) then throwM WrongState
  else
    let! popped := rt_queue_pop in
    match popped with
    | None =>
        if forallb (is_state TaskDead) (rt_tasks r) then retM None
        else throwM NoRunnableTask
    | Some task =>
        let! s := readM (fun r => slot r task) in
        if negb (is_state Ready s) then throwM InvalidQueueMember
        else
          do! set_state task Running in
          do! readM validate in
          retM (Some task)
    end.

Definition capture_trap (task : Z) (frame : TrapFrameV1) (root generation : Z)
    : M Runtime RuntimeError unit :=
  let! s := readM (fun r => slot r task) in
  if negb (is_state Running s) || negb (ts_generation s =? generation) then throwM WrongState
  else slot_mut task (ts_set_context (context_from_trap frame task generation root)).

(** ** Construction and publication *)

Definition unpublished (sender receiver : TaskContextV1) : Runtime :=
  {| rt_profile := Cooperative;
     rt_task0 :=
       {| ts_id := SENDER_TASK_ID;
          ts_generation := tc_generation sender;
          ts_state := Ready;
          ts_context := sender;
          ts_capabilities := table_building SENDER_TASK_ID (tc_generation sender) |};
     rt_task1 :=
       {| ts_id := RECEIVER_TASK_ID;
          ts_generation := tc_generation receiver;
          ts_state := Ready;
          ts_context := receiver;
          ts_capabilities := table_building RECEIVER_TASK_ID (tc_generation receiver) |};
     rt_queue := queue_new;
     rt_endpoint := EMPTY_ENDPOINT;
     rt_manifest := ManifestPublication_EMPTY;
     rt_broker := ApprovalBroker_DEAD;
     rt_effect := SyntheticEffect_EMPTY |}.

Definition unpublished_supervised (supervisor workload : TaskContextV1) : Runtime :=
  {| rt_profile := Supervised;
     rt_task0 :=
       {| ts_id := SENDER_TASK_ID;
          ts_generation := tc_generation supervisor;
          ts_state := Ready;
          ts_context := supervisor;
          ts_capabilities := table_building SENDER_TASK_ID (tc_generation supervisor) |};
     rt_task1 :=
       {| ts_id := RECEIVER_TASK_ID;
          ts_generation := tc_generation workload;
          ts_state := Staged;
          ts_context := workload;
          ts_capabilities := table_building RECEIVER_TASK_ID (tc_generation workload) |};
     rt_queue := queue_new;
     rt_endpoint := EMPTY_ENDPOINT;
     rt_manifest := ManifestPublication_EMPTY;
     rt_broker := broker_building (tc_generation supervisor) (tc_generation workload);
     rt_effect :=
       {| se_object_generation := FIXED_OBJECT_GENERATION;
          se_supervisor_task_id := SENDER_TASK_ID;
          se_supervisor_generation := tc_generation supervisor;
          se_occupied := false;
          se_value := 0 |} |}.

(** [slot.state = Dead; slot.generation = 0; slot.context.clear_dead();
    slot.capabilities = CapabilityTable::dead();] *)
Definition slot_kill (s : TaskSlot) : TaskSlot :=
  mkTaskSlot (ts_id s) 0 TaskDead context_dead table_dead.

Definition rollback_install_of (installed : Z * Z) (r : Runtime) : Runtime :=
  let '(task, handle) := installed in
  snd (slot_mut task
         (fun s => ts_set_capabilities (table_rollback_install handle (ts_capabilities s)) s) r).

Definition rollback_publication (installed : list (Z * Z)) (r : Runtime) : Runtime :=
  let r := fold_left (fun r i => rollback_install_of i r) (rev installed) r in
  {| rt_profile := rt_profile r;
     rt_task0 := slot_kill (rt_task0 r);
     rt_task1 := slot_kill (rt_task1 r);
     rt_queue := queue_new;
     rt_endpoint := EMPTY_ENDPOINT;
     rt_manifest := ManifestPublication_EMPTY;
     rt_broker := ApprovalBroker_DEAD;
     rt_effect := SyntheticEffect_EMPTY |}.

(** The supervised rollback does not touch the endpoint. *)
Definition rollback_supervisor_publication (installed : list Z) (r : Runtime) : Runtime :=
  let r := fold_left (fun r handle => rollback_install_of (SENDER_TASK_ID, handle) r)
             (rev installed) r in
  {| rt_profile := rt_profile r;
     rt_task0 := slot_kill (rt_task0 r);
     rt_task1 := slot_kill (rt_task1 r);
     rt_queue := queue_new;
     rt_endpoint := rt_endpoint r;
     rt_manifest := ManifestPublication_EMPTY;
     rt_broker := ApprovalBroker_DEAD;
     rt_effect := SyntheticEffect_EMPTY |}.

(** [if fail_before_step == Some(step)]: the injected publication failure. *)
Definition fails_before (fail_before_step : option nat) (step : nat) : bool :=
  bool_decide (fail_before_step = Some step).

(** [if let Err(error) = m { self.rollback_publication(..); return Err(error); }] *)
Definition or_rollback {A} (undo : Runtime -> Runtime) (m : M Runtime RuntimeError A)
    : M Runtime RuntimeError A :=
  fun r => match m r with
           | (Ok a, r') => (Ok a, r')
           | (Err e, r') => (Err e, undo r')
           end.

(** [self.slot_mut(task).and_then(|slot| slot.capabilities.m())] *)
Definition capabilities_step {A} (task : Z) (m : M CapabilityTable RuntimeError A)
    : M Runtime RuntimeError A :=
  let! res := on_capabilities task m in liftM res.

(** The step loop of [publish_initial]: [installed] holds the (task, handle)
    pairs of the steps done so far. *)
Fixpoint publish_initial_steps (fail_before_step : option nat)
    (steps : list (nat * Z * Z)) (installed : list (Z * Z))
    : M Runtime RuntimeError (list (Z * Z)) :=
  match steps with
  | [] => retM installed
  | (step, task, rights) :: rest =>
      if fails_before fail_before_step step then
        do! modifyM (rollback_publication installed) in throwM PublicationFailure
      else
        let! handle := or_rollback (rollback_publication installed)
                         (capabilities_step task (table_install_building rights)) in
        publish_initial_steps fail_before_step rest (installed ++ [(task, handle)])
  end.

Definition publish_initial (fail_before_step : option nat) : M Runtime RuntimeError unit :=
  let! installed := publish_initial_steps fail_before_step
    [ (0%nat, SENDER_TASK_ID, Z.lor CAPABILITY_RIGHT_SEND CAPABILITY_RIGHT_DUPLICATE);
      (1%nat, RECEIVER_TASK_ID, CAPABILITY_RIGHT_RECEIVE) ] [] in
  let undo := rollback_publication installed in
  if fails_before fail_before_step 2 then
    do! modifyM undo in throwM PublicationFailure
  else
    do! or_rollback undo (capabilities_step SENDER_TASK_ID table_publish) in
    do! or_rollback undo (capabilities_step RECEIVER_TASK_ID table_publish) in
    do! modifyM (fun r => rt_set_endpoint
          {| ep_object_generation := ENDPOINT_GENERATION;
             ep_sender_task := SENDER_TASK_ID;
             ep_sender_generation := ts_generation (rt_task0 r);
             ep_receiver_task := RECEIVER_TASK_ID;
             ep_receiver_generation := ts_generation (rt_task1 r);
             ep_occupied := false;
             ep_payload := 0 |} r) in
    or_rollback undo
      (do! rt_queue_push RECEIVER_TASK_ID in
       do! rt_queue_push SENDER_TASK_ID in
       readM validate).

(** The step loop of [publish_supervisor]. *)
Fixpoint publish_supervisor_steps (fail_before_step : option nat)
    (steps : list (nat * Z * Z * Z)) (installed : list Z)
    : M Runtime RuntimeError (list Z) :=
  match steps with
  | [] => retM installed
  | (step, object_type, object_id, rights) :: rest =>
      if fails_before fail_before_step step then
        do! modifyM (rollback_supervisor_publication installed) in throwM PublicationFailure
      else
        let! handle := or_rollback (rollback_supervisor_publication installed)
          (capabilities_step SENDER_TASK_ID
             (table_install_object_building object_type
                (mkObjectReference object_id FIXED_OBJECT_GENERATION) rights)) in
        publish_supervisor_steps fail_before_step rest (installed ++ [handle])
  end.

Definition ab_set_state (st : ApprovalBrokerState) (b : ApprovalBroker) : ApprovalBroker :=
  mkApprovalBroker st (ab_object_generation b) (ab_supervisor_task_id b)
    (ab_supervisor_generation b) (ab_workload_task_id b) (ab_workload_generation b)
    (ab_request_kind b) (ab_request b) (ab_request_present b) (ab_next_sequence b)
    (ab_sequence_exhausted b) (ab_decision_epoch b) (ab_approval_epoch b) (ab_expiry_epoch b).

(** A write to a field of [self.broker]. *)
Definition broker_mut (f : ApprovalBroker -> ApprovalBroker) : M Runtime RuntimeError unit :=
  modifyM (fun r => rt_set_broker (f (rt_broker r)) r).

Definition publish_supervisor (fail_before_step : option nat) : M Runtime RuntimeError unit :=
  let! installed := publish_supervisor_steps fail_before_step
    [ (0%nat, OBJECT_TYPE_TASK_CONTROL, TASK_CONTROL_OBJECT_ID, CAPABILITY_RIGHT_START);
      (1%nat, OBJECT_TYPE_APPROVAL_BROKER, APPROVAL_BROKER_OBJECT_ID,
        CAPABILITY_RIGHT_DECIDE_APPROVAL);
      (2%nat, OBJECT_TYPE_TEST_EFFECT, TEST_EFFECT_OBJECT_ID,
        CAPABILITY_RIGHT_COMMIT_EFFECT) ] [] in
  let undo := rollback_supervisor_publication installed in
  if fails_before fail_before_step 3 then
    do! modifyM undo in throwM PublicationFailure
  else
    do! or_rollback undo (capabilities_step SENDER_TASK_ID table_publish) in
    do! broker_mut (ab_set_state BrokerEmpty) in
    if fails_before fail_before_step 4 then
      do! modifyM undo in throwM PublicationFailure
    else
      or_rollback undo
        (do! rt_queue_push SENDER_TASK_ID in
         readM validate).

Definition construct (sender receiver : TaskContextV1) (fail_before_step : option nat)
    : result Runtime RuntimeError :=
  let '(res, runtime) := publish_initial fail_before_step (unpublished sender receiver) in
  let? _ := res in Ok runtime.

Definition construct_supervised (supervisor workload : TaskContextV1)
    (fail_before_step : option nat) : result Runtime RuntimeError :=
  let '(res, runtime) :=
    publish_supervisor fail_before_step (unpublished_supervised supervisor workload) in
  let? _ := res in Ok runtime.

Definition Runtime_new (sender receiver : TaskContextV1) : result Runtime RuntimeError :=
  if negb (tc_task_id sender =? SENDER_TASK_ID) || negb (tc_task_id receiver =? RECEIVER_TASK_ID)
  then Err InvalidTask
  else if (tc_generation sender =? 0) || (tc_generation receiver =? 0)
  then Err InvalidGeneration
  else if tc_generation sender =? tc_generation receiver then Err DuplicateGeneration
  else construct sender receiver None.

Definition Runtime_new_supervised (supervisor workload : TaskContextV1)
    : result Runtime RuntimeError :=
  if negb (tc_task_id supervisor =? SENDER_TASK_ID)
     || negb (tc_task_id workload =? RECEIVER_TASK_ID)
  then Err InvalidTask
  else if negb (tc_generation supervisor =? SUPERVISOR_GENERATION)
       || negb (tc_generation workload =? WORKLOAD_GENERATION)
  then Err InvalidGeneration
  else construct_supervised supervisor workload None.
