(* ===== verification/RuntimeOps.v ===== *)
(** * The trap operations of the task runtime

    [handle_trap] with every operation it dispatches to, [begin_teardown] and
    [complete_teardown] of [src/crates/task-runtime/src/lib.rs]
    (lines 2075-2104 and 2392-3163).  Each method is a computation
    [M Runtime RuntimeError A]: the state is threaded through the error path as
    well, and the three public entry points restore the state saved on entry
    when the inner method fails ([transactional]). *)

From S2P Require Import Prelude RuntimeTypes Capability Runtime.

(** ** Capability resolution *)

Definition resolve_endpoint (r : Runtime) (task handle required_right : Z)
    : result unit TrapStatus :=
  let? s := map_err (fun _ => InvalidHandle) (slot r task) in
  let? entry := table_resolve (ts_capabilities s) task (ts_generation s) handle required_right in
  if negb (or_id (ce_object entry) =? ENDPOINT_ID)
     || negb (or_generation (ce_object entry) =? ENDPOINT_GENERATION)
     || negb (ep_object_generation (rt_endpoint r) =? ENDPOINT_GENERATION)
  then Err InvalidHandle
  else Ok tt.

Definition resolve_object (r : Runtime)
    (task handle object_type required_right object_id object_generation : Z)
    : result unit TrapStatus :=
  let? s := map_err (fun _ => InvalidHandle) (slot r task) in
  let? entry := table_resolve_typed (ts_capabilities s) task (ts_generation s) handle
                  object_type required_right in
  if negb (or_id (ce_object entry) =? object_id)
     || negb (or_generation (ce_object entry) =? object_generation)
     || (object_generation =? 0)
  then Err InvalidHandle
  else Ok tt.

(** ** Shared endings *)

(** [self.set_result(task, status, 0)?; return Ok(TrapOutcome::Resume(task));] *)
Definition resume_with (task : Z) (status : TrapStatus) : M Runtime RuntimeError TrapOutcome :=
  do! set_result task status 0 in
  retM (OutResume task).

(** [self.set_result(task, status, 0)?; self.validate()?; Ok(Resume(task))] *)
Definition resume_validated (task : Z) (status : TrapStatus)
    : M Runtime RuntimeError TrapOutcome :=
  do! set_result task status 0 in
  do! readM validate in
  retM (OutResume task).

(** [self.dispatch_next()?.ok_or(RuntimeError::NoRunnableTask)?] *)
Definition dispatch_some : M Runtime RuntimeError Z :=
  let! next := dispatch_next in
  liftM (ok_or next NoRunnableTask).

(** ** Cooperative operations *)

Definition yield_op (task rdi rsi rdx : Z) : M Runtime RuntimeError TrapOutcome :=
  if negb (rdi =? 0) || negb (rsi =? 0) || negb (rdx =? 0)
  then resume_with task InvalidOperation
  else
    do! set_result task StOk 0 in
    do! set_state task Ready in
    do! rt_queue_push task in
    let! next := dispatch_some in
    retM (OutSwitch next).

Definition endpoint_set_message (occupied : bool) (payload : Z) (e : EndpointSnapshot)
    : EndpointSnapshot :=
  mkEndpointSnapshot (ep_object_generation e) (ep_sender_task e) (ep_sender_generation e)
    (ep_receiver_task e) (ep_receiver_generation e) occupied payload.

Definition endpoint_mut (f : EndpointSnapshot -> EndpointSnapshot) : M Runtime RuntimeError unit :=
  modifyM (fun r => rt_set_endpoint (f (rt_endpoint r)) r).

Definition send (task handle message reserved : Z) : M Runtime RuntimeError TrapOutcome :=
  let! r := getM in
  let! status :=
    if negb (reserved =? 0) then retM InvalidOperation
    else
      match resolve_endpoint r task handle CAPABILITY_RIGHT_SEND with
      | Err status => retM status
      | Ok _ =>
          if ep_receiver_generation (rt_endpoint r) =? 0 then retM PeerExited
          else if ep_occupied (rt_endpoint r) then retM SlotFull
          else
            do! endpoint_mut (endpoint_set_message true message) in
            let! receiver := readM (fun r => slot r RECEIVER_TASK_ID) in
            do! (if is_state BlockedReceive receiver then
                   let! r := getM in
                   let value := ep_payload (rt_endpoint r) in
                   do! endpoint_mut (endpoint_set_message false 0) in
                   do! set_result RECEIVER_TASK_ID StOk value in
                   do! set_state RECEIVER_TASK_ID Ready in
                   rt_queue_push RECEIVER_TASK_ID
                 else retM tt) in
            retM StOk
      end in
  resume_validated task status.

Definition receive (task handle reserved_message reserved : Z)
    : M Runtime RuntimeError TrapOutcome :=
  let! r := getM in
  let status :=
    if negb (reserved_message =? 0) || negb (reserved =? 0) then Some InvalidOperation
    else err (resolve_endpoint r task handle CAPABILITY_RIGHT_RECEIVE) in
  match status with
  | Some status => resume_with task status
  | None =>
      if ep_occupied (rt_endpoint r) then
        let value := ep_payload (rt_endpoint r) in
        do! endpoint_mut (endpoint_set_message false 0) in
        do! set_result task StOk value in
        do! readM validate in
        retM (OutResume task)
      else if ep_sender_generation (rt_endpoint r) =? 0 then resume_with task PeerExited
      else
        do! set_state task BlockedReceive in
        let! next := dispatch_some in
        do! readM validate in
        retM (OutSwitch next)
  end.

Definition exit (task first second third : Z) : M Runtime RuntimeError TrapOutcome :=
  if negb (first =? 0) || negb (second =? 0) || negb (third =? 0)
  then resume_with task InvalidOperation
  else
    do! set_state task Exited in
    do! readM validate in
    retM (OutExit task).

Definition duplicate (task source requested_rights reserved : Z)
    : M Runtime RuntimeError TrapOutcome :=
  if negb (reserved =? 0) then resume_with task InvalidOperation
  else
    let! s := readM (fun r => slot r task) in
    let! result := on_capabilities task
      (table_duplicate task (ts_generation s) source requested_rights) in
    do! match result with
        | Ok handle => set_result task StOk handle
        | Err status => set_result task status 0
        end in
    do! readM validate in
    retM (OutResume task).

Definition close (task handle reserved_rights reserved : Z)
    : M Runtime RuntimeError TrapOutcome :=
  if negb (reserved_rights =? 0) || negb (reserved =? 0)
  then resume_with task InvalidOperation
  else
    let! s := readM (fun r => slot r task) in
    let! result := on_capabilities task (table_close task (ts_generation s) handle) in
    let status := match result with Ok _ => StOk | Err status => status end in
    resume_validated task status.

(** ** Launching the workload *)

(** The [status] computed on entry of [start_workload_with_failure]. *)
Definition start_status (r : Runtime) (task handle manifest_id reserved : Z)
    : option TrapStatus :=
  if negb (reserved =? 0) then Some InvalidOperation
  else if negb (bool_decide (rt_profile r = Supervised)) then Some WrongObject
  else
    match resolve_object r task handle OBJECT_TYPE_TASK_CONTROL CAPABILITY_RIGHT_START
            TASK_CONTROL_OBJECT_ID FIXED_OBJECT_GENERATION with
    | Err status => Some status
    | Ok _ =>
        if negb (manifest_id =? MANIFEST_ID) then Some InvalidManifest
        else if negb (is_state Staged (rt_task1 r)) then Some AlreadyLaunched
        else if is_err (manifest_validate REGISTERED_LAUNCH_MANIFEST
                          (ts_generation (rt_task1 r)) (ab_object_generation (rt_broker r))
                          (table_available_slots (ts_capabilities (rt_task1 r))))
        then Some InvalidManifest
        else None
    end.

(** The [for route in &routes[..route_count]] loop; [false] when an
    installation failed. *)
Fixpoint install_routes (routes : list LaunchRouteV1) : M Runtime RuntimeError bool :=
  match routes with
  | [] => retM true
  | route :: rest =>
      let! res := on_capabilities RECEIVER_TASK_ID
        (table_install_object_building (lr_object_type route)
           (mkObjectReference (lr_object_id route) (lr_object_generation route))
           (lr_rights route)) in
      if is_err res then retM false else install_routes rest
  end.

Definition start_workload_with_failure (task handle manifest_id reserved : Z)
    (fail_before_step : option nat) : M Runtime RuntimeError TrapOutcome :=
  let! before := getM in
  let abort_with status := do! putM before in resume_with task status in
  match start_status before task handle manifest_id reserved with
  | Some status => abort_with status
  | None =>
      if fails_before fail_before_step 0 then abort_with InvalidManifest
      else
        let! installed := install_routes
          (take (Z.to_nat (lm_route_count REGISTERED_LAUNCH_MANIFEST))
                (lm_routes REGISTERED_LAUNCH_MANIFEST)) in
        if negb installed then abort_with InvalidManifest
        else if fails_before fail_before_step 1 then abort_with InvalidManifest
        else
          let! published := on_capabilities RECEIVER_TASK_ID table_publish in
          if is_err published then abort_with InvalidManifest
          else if fails_before fail_before_step 2 then abort_with InvalidManifest
          else
            do! modifyM (rt_set_manifest ManifestPublication_registered) in
            do! set_state RECEIVER_TASK_ID Ready in
            if fails_before fail_before_step 3 then abort_with InvalidManifest
            else
              do! rt_queue_push RECEIVER_TASK_ID in
              do! set_result task StOk 0 in
              do! readM validate in
              retM (OutResume task)
  end.

Definition start_workload (task handle manifest_id reserved : Z)
    : M Runtime RuntimeError TrapOutcome :=
  start_workload_with_failure task handle manifest_id reserved None.

(** ** Approvals *)

Definition broker_is (st : ApprovalBrokerState) (r : Runtime) : bool :=
  bool_decide (ab_state (rt_broker r) = st).

Definition submit_status (r : Runtime) (task handle request_kind : Z) : option TrapStatus :=
  let broker := rt_broker r in
  if negb (bool_decide (rt_profile r = Supervised)) then Some WrongObject
  else
    match resolve_object r task handle OBJECT_TYPE_APPROVAL_BROKER
            CAPABILITY_RIGHT_SUBMIT_APPROVAL APPROVAL_BROKER_OBJECT_ID
            (ab_object_generation broker) with
    | Err status => Some status
    | Ok _ =>
        if (broker_is BrokerBuilding r || broker_is BrokerClosing r || broker_is BrokerDead r)
           || ab_sequence_exhausted broker
           || (ab_decision_epoch broker =? U64_MAX)
        then Some BrokerUnavailable
        else if broker_is BrokerPending r || broker_is BrokerApproved r then Some BrokerFull
        else if negb (request_kind =? APPROVAL_REQUEST_KIND_COMMIT_SYNTHETIC_VALUE)
             || negb (task =? RECEIVER_TASK_ID)
             || negb (bool_decide (rt_manifest r = ManifestPublication_registered))
        then Some InvalidRequest
        else None
    end.

Definition submitted_request (sequence argument : Z) : ApprovalRequestV1 :=
  {| ar_principal_id := PRINCIPAL_ID;
     ar_workload_task_id := RECEIVER_TASK_ID;
     ar_workload_generation := WORKLOAD_GENERATION;
     ar_sequence := sequence;
     ar_action_id := APPROVAL_ACTION_ID_COMMIT_SYNTHETIC_VALUE;
     ar_effect_object_id := TEST_EFFECT_OBJECT_ID;
     ar_effect_object_generation := FIXED_OBJECT_GENERATION;
     ar_argument := argument;
     ar_requested_rights := CAPABILITY_RIGHT_COMMIT_EFFECT;
     ar_resulting_rights := 0 |}.

(** The broker writes of [submit_approval], from [request_kind] to
    [next_sequence]. *)
Definition broker_submit (request_kind argument next_epoch : Z) (b : ApprovalBroker)
    : ApprovalBroker :=
  let sequence := ab_next_sequence b in
  {| ab_state := BrokerPending;
     ab_object_generation := ab_object_generation b;
     ab_supervisor_task_id := ab_supervisor_task_id b;
     ab_supervisor_generation := ab_supervisor_generation b;
     ab_workload_task_id := ab_workload_task_id b;
     ab_workload_generation := ab_workload_generation b;
     ab_request_kind := request_kind;
     ab_request := submitted_request sequence argument;
     ab_request_present := true;
     ab_next_sequence := if sequence =? U64_MAX then ab_next_sequence b else sequence + 1;
     ab_sequence_exhausted := if sequence =? U64_MAX then true else ab_sequence_exhausted b;
     ab_decision_epoch := next_epoch;
     ab_approval_epoch := ab_approval_epoch b;
     ab_expiry_epoch := ab_expiry_epoch b |}.

Definition submit_approval (task handle request_kind argument : Z)
    : M Runtime RuntimeError TrapOutcome :=
  let! r := getM in
  match submit_status r task handle request_kind with
  | Some status => resume_validated task status
  | None =>
      let! next_epoch :=
        liftM (ok_or (checked_add (ab_decision_epoch (rt_broker r)) 1) BrokerInvariant) in
      do! broker_mut (broker_submit request_kind argument next_epoch) in
      do! set_state task BlockedApproval in
      let! next := dispatch_some in
      do! readM validate in
      retM (OutSwitch next)
  end.

Definition inspect_status (r : Runtime) (task handle reserved_kind reserved_argument : Z)
    : option TrapStatus :=
  if negb (reserved_kind =? 0) || negb (reserved_argument =? 0) then Some InvalidOperation
  else if negb (bool_decide (rt_profile r = Supervised)) then Some WrongObject
  else
    match resolve_object r task handle OBJECT_TYPE_APPROVAL_BROKER
            CAPABILITY_RIGHT_DECIDE_APPROVAL APPROVAL_BROKER_OBJECT_ID
            (ab_object_generation (rt_broker r)) with
    | Err status => Some status
    | Ok _ =>
        if negb (broker_is BrokerPending r) || negb (ab_request_present (rt_broker r))
        then Some (if broker_is BrokerClosing r || broker_is BrokerDead r
                   then BrokerUnavailable else InvalidRequest)
        else None
    end.

Definition inspect_approval (task handle reserved_kind reserved_argument : Z)
    : M Runtime RuntimeError TrapOutcome :=
  let! r := getM in
  match inspect_status r task handle reserved_kind reserved_argument with
  | Some status => resume_validated task status
  | None =>
      let request := ab_request (rt_broker r) in
      let request_kind := ab_request_kind (rt_broker r) in
      do! slot_mut task (fun s =>
            ts_set_context
              (context_set_regs (ts_context s) (status_code StOk) (ar_sequence request)
                 request_kind (ar_argument request)) s) in
      do! readM validate in
      retM (OutResume task)
  end.

Definition decide_status (r : Runtime) (task handle sequence decision : Z)
    : option TrapStatus :=
  let broker := rt_broker r in
  if negb (bool_decide (rt_profile r = Supervised)) then Some WrongObject
  else
    match resolve_object r task handle OBJECT_TYPE_APPROVAL_BROKER
            CAPABILITY_RIGHT_DECIDE_APPROVAL APPROVAL_BROKER_OBJECT_ID
            (ab_object_generation broker) with
    | Err status => Some status
    | Ok _ =>
        if broker_is BrokerClosing r || broker_is BrokerDead r then Some BrokerUnavailable
        else if negb (ab_request_present broker)
             || negb (ar_sequence (ab_request broker) =? sequence)
        then Some ApprovalMismatch
        else if negb ((decision =? DECISION_DENY) || (decision =? DECISION_APPROVE)
                      || (decision =? DECISION_EXPIRE))
             || ((decision =? DECISION_APPROVE) && negb (broker_is BrokerPending r))
             || ((decision =? DECISION_DENY) && negb (broker_is BrokerPending r))
             || ((decision =? DECISION_EXPIRE)
                 && negb (broker_is BrokerPending r || broker_is BrokerApproved r))
        then Some InvalidRequest
        else None
    end.

Definition wake_workload (status : TrapStatus) (value : Z) : M Runtime RuntimeError unit :=
  let! workload := readM (fun r => slot r RECEIVER_TASK_ID) in
  if negb (is_state BlockedApproval workload) then throwM BrokerInvariant
  else
    do! set_result RECEIVER_TASK_ID status value in
    do! set_state RECEIVER_TASK_ID Ready in
    rt_queue_push RECEIVER_TASK_ID.

Definition fail_broker_epoch_exhaustion : M Runtime RuntimeError unit :=
  let! workload := readM (fun r => slot r RECEIVER_TASK_ID) in
  do! (if is_state BlockedApproval workload then wake_workload BrokerUnavailable 0
       else retM tt) in
  broker_mut (fun b => ab_set_state BrokerClosing (broker_clear_request b)).

Definition ab_set_decision_epoch (n : Z) (b : ApprovalBroker) : ApprovalBroker :=
  mkApprovalBroker (ab_state b) (ab_object_generation b) (ab_supervisor_task_id b)
    (ab_supervisor_generation b) (ab_workload_task_id b) (ab_workload_generation b)
    (ab_request_kind b) (ab_request b) (ab_request_present b) (ab_next_sequence b)
    (ab_sequence_exhausted b) n (ab_approval_epoch b) (ab_expiry_epoch b).

(** [state = Approved; approval_epoch = next; expiry_epoch = next + 1]; the
    caller has excluded [next == u64::MAX]. *)
Definition broker_approve (next_epoch : Z) (b : ApprovalBroker) : ApprovalBroker :=
  mkApprovalBroker BrokerApproved (ab_object_generation b) (ab_supervisor_task_id b)
    (ab_supervisor_generation b) (ab_workload_task_id b) (ab_workload_generation b)
    (ab_request_kind b) (ab_request b) (ab_request_present b) (ab_next_sequence b)
    (ab_sequence_exhausted b) (ab_decision_epoch b) next_epoch (next_epoch + 1).

Definition broker_release (b : ApprovalBroker) : ApprovalBroker :=
  ab_set_state BrokerEmpty (broker_clear_request b).

Definition decide_approval (task handle sequence decision : Z)
    : M Runtime RuntimeError TrapOutcome :=
  let! r := getM in
  match decide_status r task handle sequence decision with
  | Some status => resume_validated task status
  | None =>
      let reserve_expiry := decision =? DECISION_APPROVE in
      let exhausted :=
        do! fail_broker_epoch_exhaustion in resume_validated task BrokerUnavailable in
      match checked_add (ab_decision_epoch (rt_broker r)) 1 with
      | None => exhausted
      | Some next_epoch =>
          if reserve_expiry && (next_epoch =? U64_MAX) then exhausted
          else
            do! broker_mut (ab_set_decision_epoch next_epoch) in
            do! (if decision =? DECISION_APPROVE then broker_mut (broker_approve next_epoch)
                 else if decision =? DECISION_DENY then
                   do! broker_mut broker_release in wake_workload ApprovalDenied 0
                 else if decision =? DECISION_EXPIRE then
                   do! broker_mut broker_release in wake_workload ApprovalExpired 0
                 else throwM BrokerInvariant) in
            resume_validated task StOk
      end
  end.

(** The request bound to an approval is not the one the supervisor commits. *)
Definition approval_mismatch (r : Runtime) (sequence argument : Z) : bool :=
  let broker := rt_broker r in
  let request := ab_request broker in
  negb (broker_is BrokerApproved r)
  || negb (ab_request_present broker)
  || negb (ar_sequence request =? sequence)
  || negb (ar_argument request =? argument)
  || negb (ar_principal_id request =? PRINCIPAL_ID)
  || negb (ar_workload_task_id request =? RECEIVER_TASK_ID)
  || negb (ar_workload_generation request =? WORKLOAD_GENERATION)
  || negb (ar_action_id request =? APPROVAL_ACTION_ID_COMMIT_SYNTHETIC_VALUE)
  || negb (ar_effect_object_id request =? TEST_EFFECT_OBJECT_ID)
  || negb (ar_effect_object_generation request =? FIXED_OBJECT_GENERATION)
  || negb (ar_requested_rights request =? CAPABILITY_RIGHT_COMMIT_EFFECT)
  || negb (ar_resulting_rights request =? 0).

Definition commit_status (r : Runtime) (task handle sequence argument : Z)
    : option TrapStatus :=
  if negb (bool_decide (rt_profile r = Supervised)) then Some WrongObject
  else
    match resolve_object r task handle OBJECT_TYPE_TEST_EFFECT CAPABILITY_RIGHT_COMMIT_EFFECT
            TEST_EFFECT_OBJECT_ID (se_object_generation (rt_effect r)) with
    | Err status => Some status
    | Ok _ =>
        if approval_mismatch r sequence argument then Some ApprovalMismatch
        else if se_occupied (rt_effect r) then Some EffectUnavailable
        else if ab_expiry_epoch (rt_broker r) <=? ab_decision_epoch (rt_broker r)
        then Some ApprovalExpired
        else None
    end.

Definition effect_store (value : Z) (e : SyntheticEffect) : SyntheticEffect :=
  mkSyntheticEffect (se_object_generation e) (se_supervisor_task_id e)
    (se_supervisor_generation e) true value.

Definition commit_effect (task handle sequence argument : Z)
    : M Runtime RuntimeError TrapOutcome :=
  let! r := getM in
  match commit_status r task handle sequence argument with
  | Some status => resume_validated task status
  | None =>
      let! next_epoch :=
        liftM (ok_or (checked_add (ab_decision_epoch (rt_broker r)) 1) BrokerInvariant) in
      if negb (next_epoch =? ab_expiry_epoch (rt_broker r))
      then resume_with task ApprovalExpired
      else
        do! modifyM (fun r => rt_set_effect (effect_store argument (rt_effect r)) r) in
        do! broker_mut (fun b => broker_release (ab_set_decision_epoch next_epoch b)) in
        do! wake_workload StOk argument in
        resume_validated task StOk
  end.

(** ** Trap dispatch *)

Definition handle_trap_inner (task : Z) : M Runtime RuntimeError TrapOutcome :=
  let! running := readM running_task in
  if negb (running =? task) then throwM WrongState
  else
    let! input := readM (fun r => rt_context r task) in
    let rdi := tc_rdi input in
    let rsi := tc_rsi input in
    let rdx := tc_rdx input in
    match TrapOperation_parse (tc_rax input) with
    | None => resume_with task InvalidOperation
    | Some OpYield => yield_op task rdi rsi rdx
    | Some OpSend => send task rdi rsi rdx
    | Some OpReceive => receive task rdi rsi rdx
    | Some OpExit => exit task rdi rsi rdx
    | Some OpDuplicate => duplicate task rdi rsi rdx
    | Some OpClose => close task rdi rsi rdx
    | Some OpStartWorkload => start_workload task rdi rsi rdx
    | Some OpSubmitApproval => submit_approval task rdi rsi rdx
    | Some OpInspectApproval => inspect_approval task rdi rsi rdx
    | Some OpDecideApproval => decide_approval task rdi rsi rdx
    | Some OpCommitEffect => commit_effect task rdi rsi rdx
    | Some OpInspectEffectJournal | Some OpReadEffectRecord =>
        resume_validated task InvalidOperation
    end.

Definition handle_trap (task : Z) : M Runtime RuntimeError TrapOutcome :=
  transactional (handle_trap_inner task).

(** ** Teardown *)

(** The broker and effect writes of a supervisor's teardown. *)
Definition broker_supervisor_gone (b : ApprovalBroker) : ApprovalBroker :=
  let b := broker_clear_request b in
  mkApprovalBroker BrokerClosing (ab_object_generation b) 0 0
    (ab_workload_task_id b) (ab_workload_generation b)
    (ab_request_kind b) (ab_request b) (ab_request_present b) (ab_next_sequence b)
    (ab_sequence_exhausted b) (ab_decision_epoch b) (ab_approval_epoch b) (ab_expiry_epoch b).

(** The broker writes of a workload's teardown. *)
Definition broker_workload_gone (supervisor_dead : bool) (b : ApprovalBroker)
    : ApprovalBroker :=
  let b := broker_clear_request b in
  let st :=
    match ab_state b with
    | BrokerClosing | BrokerDead => ab_state b
    | _ => if supervisor_dead then BrokerClosing else BrokerEmpty
    end in
  mkApprovalBroker st (ab_object_generation b) (ab_supervisor_task_id b)
    (ab_supervisor_generation b) 0 0
    (ab_request_kind b) (ab_request b) (ab_request_present b) (ab_next_sequence b)
    (ab_sequence_exhausted b) (ab_decision_epoch b) (ab_approval_epoch b) (ab_expiry_epoch b).

Definition begin_teardown_supervised (task : Z) : M Runtime RuntimeError unit :=
  do! capabilities_step task table_mark_closing in
  do! (if task =? SENDER_TASK_ID then
         let! workload := readM (fun r => slot r RECEIVER_TASK_ID) in
         do! (if is_state BlockedApproval workload then
                let! r := getM in
                let terminal :=
                  match ab_state (rt_broker r) with
                  | BrokerPending => ApprovalDenied
                  | BrokerApproved => ApprovalExpired
                  | _ => BrokerUnavailable
                  end in
                wake_workload terminal 0
              else retM tt) in
         do! broker_mut broker_supervisor_gone in
         modifyM (rt_set_effect SyntheticEffect_EMPTY)
       else if task =? RECEIVER_TASK_ID then
         do! modifyM (rt_set_manifest ManifestPublication_EMPTY) in
         let! r := getM in
         broker_mut (broker_workload_gone (is_state TaskDead (rt_task0 r)))
       else throwM InvalidTask) in
  do! capabilities_step task table_close_all in
  readM validate.

Definition endpoint_sender_gone (e : EndpointSnapshot) : EndpointSnapshot :=
  mkEndpointSnapshot (ep_object_generation e) 0 0 (ep_receiver_task e)
    (ep_receiver_generation e) (ep_occupied e) (ep_payload e).

Definition endpoint_receiver_gone (e : EndpointSnapshot) : EndpointSnapshot :=
  mkEndpointSnapshot (ep_object_generation e) (ep_sender_task e) (ep_sender_generation e)
    0 0 false 0.

Definition begin_teardown_cooperative (task : Z) : M Runtime RuntimeError unit :=
  do! capabilities_step task table_begin_closing in
  do! (if task =? SENDER_TASK_ID then
         do! endpoint_mut endpoint_sender_gone in
         let! r := getM in
         if negb (ep_occupied (rt_endpoint r)) then
           let! receiver := readM (fun r => slot r RECEIVER_TASK_ID) in
           if is_state BlockedReceive receiver then
             do! set_result RECEIVER_TASK_ID PeerExited 0 in
             do! set_state RECEIVER_TASK_ID Ready in
             rt_queue_push RECEIVER_TASK_ID
           else retM tt
         else retM tt
       else if task =? RECEIVER_TASK_ID then endpoint_mut endpoint_receiver_gone
       else throwM InvalidTask) in
  readM validate.

Definition begin_teardown_inner (task : Z) : M Runtime RuntimeError unit :=
  let! s := readM (fun r => slot r task) in
  if negb (is_state Exited s) then throwM WrongState
  else
    let! r := getM in
    match rt_profile r with
    | Supervised => begin_teardown_supervised task
    | Cooperative => begin_teardown_cooperative task
    end.

Definition begin_teardown (task : Z) : M Runtime RuntimeError unit :=
  transactional (begin_teardown_inner task).

Definition complete_teardown_inner (task : Z) : M Runtime RuntimeError (option Z) :=
  let! s := readM (fun r => slot r task) in
  if negb (is_state Exited s) || negb (table_is TableClosing s) then throwM WrongState
  else
    do! capabilities_step task table_finish_dead in
    do! slot_mut task (fun s =>
          mkTaskSlot (ts_id s) 0 TaskDead context_dead (ts_capabilities s)) in
    let! r := getM in
    do! (if bool_decide (rt_profile r = Supervised) && (task =? SENDER_TASK_ID) then
           do! broker_mut (fun _ => ApprovalBroker_DEAD) in
           modifyM (rt_set_effect SyntheticEffect_EMPTY)
         else retM tt) in
    do! (if forallb (is_state TaskDead) (rt_tasks r) then
           do! endpoint_mut (fun _ => EMPTY_ENDPOINT) in
           do! modifyM (rt_set_manifest ManifestPublication_EMPTY) in
           do! broker_mut (fun _ => ApprovalBroker_DEAD) in
           modifyM (rt_set_effect SyntheticEffect_EMPTY)
         else retM tt) in
    do! readM validate in
    dispatch_next.

Definition complete_teardown (task : Z) : M Runtime RuntimeError (option Z) :=
  transactional (complete_teardown_inner task).
