(* ===== verification/Journaled.v ===== *)
(** * The journaled runtime

    [JournaledRuntime] of [src/crates/task-runtime/src/lib.rs]
    (lines 3165-3822): the supervised runtime together with the effect journal,
    kept consistent by every trap, teardown and reclamation. *)

From S2P Require Import Prelude RuntimeTypes Capability Journal Runtime RuntimeOps.

Record JournaledRuntime : Type := mkJournaledRuntime {
  jr_runtime : Runtime;
  jr_journal : EffectJournalV1
}.

#[global] Instance JournaledRuntime_eq_dec : EqDecision JournaledRuntime.
Proof. solve_decision. Defined.

Definition jr_set_runtime (r : Runtime) (s : JournaledRuntime) : JournaledRuntime :=
  mkJournaledRuntime r (jr_journal s).
Definition jr_set_journal (j : EffectJournalV1) (s : JournaledRuntime) : JournaledRuntime :=
  mkJournaledRuntime (jr_runtime s) j.

(** [self.runtime.m(..)?]: the runtime keeps the writes of a failed call. *)
Definition on_runtime {A} (m : M Runtime RuntimeError A) : M JournaledRuntime RuntimeError A :=
  fun s => let '(res, r') := m (jr_runtime s) in (res, jr_set_runtime r' s).

(** [self.journal.m(..)], its own result returned as a value. *)
Definition on_journal {A} (m : M EffectJournalV1 EffectJournalError A)
    : M JournaledRuntime RuntimeError (result A EffectJournalError) :=
  fun s => let '(res, j') := m (jr_journal s) in (Ok res, jr_set_journal j' s).

Definition jr_broker (s : JournaledRuntime) : ApprovalBroker := rt_broker (jr_runtime s).

(** ** Validation *)

Definition is_journal_entry (s : CapabilitySlot) : bool :=
  match cs_entry s with
  | Some e => ce_object_type e =? OBJECT_TYPE_EFFECT_JOURNAL
  | None => false
  end.

(** The number of journal capabilities in a table. *)
Definition journal_entries (t : CapabilityTable) : Z := countb is_journal_entry (ct_slots t).

(** The body of the [for entry in ...] loop of [validate]. *)
Definition journal_entry_bad (s : CapabilitySlot) : bool :=
  match cs_entry s with
  | Some e =>
      (ce_object_type e =? OBJECT_TYPE_EFFECT_JOURNAL)
      && (negb (ce_rights e =? CAPABILITY_RIGHT_READ_EFFECT_JOURNAL)
          || negb (or_id (ce_object e) =? EFFECT_JOURNAL_OBJECT_ID)
          || negb (or_generation (ce_object e) =? EFFECT_JOURNAL_OBJECT_GENERATION))
  | None => false
  end.

(** Records still to come in the open lifecycle. *)
Definition expected_reservations (b : ApprovalBroker) : Z :=
  match ab_state b with
  | BrokerPending => 2
  | BrokerApproved => 1
  | _ => 0
  end.

(** The [match self.journal.state] of [validate]. *)
Definition journal_state_bad (s : JournaledRuntime) : bool :=
  let r := jr_runtime s in
  let j := jr_journal s in
  match ej_state j with
  | JournalBuilding => true
  | JournalLive =>
      forallb (is_state TaskDead) (rt_tasks r)
      || negb (ej_reserved_record_count j =? expected_reservations (rt_broker r))
  | JournalSealed =>
      negb (ej_reserved_record_count j =? 0)
      || ab_request_present (rt_broker r)
      || (broker_is BrokerPending r || broker_is BrokerApproved r)
  | JournalDead =>
      existsb (fun t => negb (is_state TaskDead t)) (rt_tasks r)
      || negb (journal_entries (ts_capabilities (rt_task0 r)) =? 0)
  end.

Definition jr_validate (s : JournaledRuntime) : result unit RuntimeError :=
  let r := jr_runtime s in
  let j := jr_journal s in
  let? _ := validate r in
  let? _ := map_err (fun _ => JournalInvariant) (journal_validate j) in
  let supervisor_journal_entries := journal_entries (ts_capabilities (rt_task0 r)) in
  let workload_journal_entries := journal_entries (ts_capabilities (rt_task1 r)) in
  if (1 <? supervisor_journal_entries) || negb (workload_journal_entries =? 0)
  then Err JournalInvariant
  else if existsb journal_entry_bad (ct_slots (ts_capabilities (rt_task0 r)))
  then Err JournalInvariant
  else if journal_state_bad s then Err JournalInvariant
  else if is_state TaskDead (rt_task1 r)
       && negb (bool_decide (ej_state j = JournalSealed) || bool_decide (ej_state j = JournalDead))
  then Err JournalInvariant
  else Ok tt.

(** ** Publication *)

Definition jr_rollback_publication (base_handles : list Z) (journal_handle : Z)
    (s : JournaledRuntime) : JournaledRuntime :=
  let r := jr_runtime s in
  let r := if negb (journal_handle =? 0)
           then rollback_install_of (SENDER_TASK_ID, journal_handle) r else r in
  mkJournaledRuntime (rollback_supervisor_publication base_handles r)
    (journal_clear_dead (jr_journal s)).

(** [self.rollback_publication(..); return Err(error);] *)
Definition jr_abort {A} (base_handles : list Z) (journal_handle : Z) (error : RuntimeError)
    : M JournaledRuntime RuntimeError A :=
  do! modifyM (jr_rollback_publication base_handles journal_handle) in throwM error.

(** [self.runtime.tasks[0].capabilities.m(..)], its own result returned. *)
Definition jr_supervisor_table {E A} (m : M CapabilityTable E A)
    : M JournaledRuntime RuntimeError (result A E) :=
  on_runtime (on_capabilities SENDER_TASK_ID m).

(** The step loop over the three base capabilities. *)
Fixpoint jr_publish_steps (fail_before_step : option nat)
    (steps : list (nat * Z * Z * Z)) (base_handles : list Z)
    : M JournaledRuntime RuntimeError (list Z) :=
  match steps with
  | [] => retM base_handles
  | (step, object_type, object_id, rights) :: rest =>
      if fails_before fail_before_step step then jr_abort base_handles 0 PublicationFailure
      else
        let! res := jr_supervisor_table
          (table_install_object_building object_type
             (mkObjectReference object_id FIXED_OBJECT_GENERATION) rights) in
        match res with
        | Ok handle => jr_publish_steps fail_before_step rest (base_handles ++ [handle])
        | Err error => jr_abort base_handles 0 error
        end
  end.

(** From the journal's publication to the final validation. *)
Definition jr_publish_tail (fail_before_step : option nat) (base_handles : list Z)
    (journal_handle : Z) : M JournaledRuntime RuntimeError unit :=
  let abort error := jr_abort base_handles journal_handle error in
  if fails_before fail_before_step 4 then abort PublicationFailure
  else
    let! published := on_journal journal_publish in
    if is_err published then abort JournalInvariant
    else if fails_before fail_before_step 5 then abort PublicationFailure
    else
      let! live := jr_supervisor_table table_publish in
      if is_err live then abort CapabilityInvariant
      else
        do! on_runtime (broker_mut (ab_set_state BrokerEmpty)) in
        if fails_before fail_before_step 6 then abort PublicationFailure
        else
          fun s =>
            match (do! on_runtime (rt_queue_push SENDER_TASK_ID) in readM jr_validate) s with
            | (Ok _, s') => (Ok tt, s')
            | (Err _, s') => abort PublicationFailure s'
            end.

Definition jr_publish_supervisor (fail_before_step : option nat)
    : M JournaledRuntime RuntimeError unit :=
  let! base_handles := jr_publish_steps fail_before_step
    [ (0%nat, OBJECT_TYPE_TASK_CONTROL, TASK_CONTROL_OBJECT_ID, CAPABILITY_RIGHT_START);
      (1%nat, OBJECT_TYPE_APPROVAL_BROKER, APPROVAL_BROKER_OBJECT_ID,
        CAPABILITY_RIGHT_DECIDE_APPROVAL);
      (2%nat, OBJECT_TYPE_TEST_EFFECT, TEST_EFFECT_OBJECT_ID,
        CAPABILITY_RIGHT_COMMIT_EFFECT) ] [] in
  if fails_before fail_before_step 3 then jr_abort base_handles 0 PublicationFailure
  else
    let! res := jr_supervisor_table
      (table_install_object_building OBJECT_TYPE_EFFECT_JOURNAL
         (mkObjectReference EFFECT_JOURNAL_OBJECT_ID EFFECT_JOURNAL_OBJECT_GENERATION)
         CAPABILITY_RIGHT_READ_EFFECT_JOURNAL) in
    match res with
    | Ok handle =>
        if handle =? SUPERVISOR_JOURNAL_HANDLE
        then jr_publish_tail fail_before_step base_handles handle
        else
          do! on_runtime (modifyM (rollback_install_of (SENDER_TASK_ID, handle))) in
          jr_abort base_handles 0 CapabilityInvariant
    | Err error => jr_abort base_handles 0 error
    end.

Definition JournaledRuntime_new_supervised (supervisor workload : TaskContextV1)
    : result JournaledRuntime RuntimeError :=
  if negb (tc_task_id supervisor =? SENDER_TASK_ID)
     || negb (tc_task_id workload =? RECEIVER_TASK_ID)
  then Err InvalidTask
  else if negb (tc_generation supervisor =? SUPERVISOR_GENERATION)
       || negb (tc_generation workload =? WORKLOAD_GENERATION)
  then Err InvalidGeneration
  else
    let '(res, runtime) := jr_publish_supervisor None
      (mkJournaledRuntime (unpublished_supervised supervisor workload) journal_building) in
    let? _ := res in Ok runtime.

(** ** Journal reads *)

Definition journal_status (e : EffectJournalError) : TrapStatus :=
  match e with
  | JeFull => JournalFull
  | JeUnavailable | JeInvariant => JournalUnavailable
  | JeInvalidRecord => InvalidRecord
  end.

Definition effect_record (s : JournaledRuntime) (sequence : Z)
    : result EffectRecordV1 TrapStatus :=
  map_err journal_status (journal_record (jr_journal s) sequence).

(** The three output words go to [rdi], [rsi] and [rdx]. *)
Definition set_journal_output (task : Z) (status : TrapStatus) (v0 v1 v2 : Z)
    : M JournaledRuntime RuntimeError unit :=
  on_runtime (slot_mut task (fun t =>
    ts_set_context (context_set_regs (ts_context t) (status_code status) v0 v1 v2) t)).

Definition journal_read_status (s : JournaledRuntime) (task : Z) (operation : TrapOperation)
    (input : TaskContextV1) : option TrapStatus :=
  let j := jr_journal s in
  if bool_decide (operation = OpInspectEffectJournal)
     && (negb (tc_rsi input =? 0) || negb (tc_rdx input =? 0))
  then Some InvalidOperation
  else
    match resolve_object (jr_runtime s) task (tc_rdi input) OBJECT_TYPE_EFFECT_JOURNAL
            CAPABILITY_RIGHT_READ_EFFECT_JOURNAL EFFECT_JOURNAL_OBJECT_ID
            (ej_object_generation j) with
    | Err status => Some status
    | Ok _ =>
        if negb (bool_decide (ej_state j = JournalLive) || bool_decide (ej_state j = JournalSealed))
        then Some JournalUnavailable
        else None
    end.

Definition handle_journal_read (task : Z) (operation : TrapOperation) (input : TaskContextV1)
    : M JournaledRuntime RuntimeError TrapOutcome :=
  let! s := getM in
  match journal_read_status s task operation input with
  | Some status =>
      do! set_journal_output task status 0 0 0 in
      retM (OutResume task)
  | None =>
      do! match operation with
          | OpInspectEffectJournal =>
              let j := jr_journal s in
              let first := if ej_committed_record_count j =? 0 then 0 else 1 in
              set_journal_output task StOk first (ej_next_record_sequence j)
                (ej_committed_record_count j)
          | OpReadEffectRecord =>
              match journal_read_triplet (jr_journal s) (tc_rsi input) (tc_rdx input) with
              | Ok words =>
                  set_journal_output task StOk (nth 0 words 0) (nth 1 words 0) (nth 2 words 0)
              | Err error => set_journal_output task (journal_status error) 0 0 0
              end
          | _ => throwM JournalInvariant
          end in
      do! readM jr_validate in
      retM (OutResume task)
  end.

(** ** Traps *)

Definition rollback_submit (before : JournaledRuntime) (task : Z) (error : EffectJournalError)
    : M JournaledRuntime RuntimeError TrapOutcome :=
  let finish status :=
    do! putM before in
    do! on_runtime (set_result task status 0) in
    do! readM jr_validate in
    retM (OutResume task) in
  match error with
  | JeFull => finish JournalFull
  | JeUnavailable => finish JournalUnavailable
  | JeInvalidRecord | JeInvariant => do! putM before in throwM JournalInvariant
  end.

(** [if self.journal.append_reserved(..).is_err() { *self = before; return Err(..); }] *)
Definition append_or_restore (before : JournaledRuntime) (record : EffectRecordV1)
    (release_unused : bool) : M JournaledRuntime RuntimeError unit :=
  let! res := on_journal (journal_append_reserved record release_unused) in
  if is_err res then do! putM before in throwM JournalInvariant else retM tt.

(** The arm for an accepted submission; [Some outcome] is an early return. *)
Definition follow_submit (before : JournaledRuntime) (task : Z)
    : M JournaledRuntime RuntimeError (option TrapOutcome) :=
  let! s := getM in
  if bool_decide (ab_state (jr_broker before) = BrokerEmpty)
     && bool_decide (ab_state (jr_broker s) = BrokerPending)
     && ab_request_present (jr_broker s)
  then
    if U64_MAX - 3 <? ab_decision_epoch (jr_broker before) then
      do! putM before in
      do! on_runtime (set_result task BrokerUnavailable 0) in
      do! readM jr_validate in
      retM (Some (OutResume task))
    else
      let record := record_event EvRequested StOk (ab_decision_epoch (jr_broker s))
        RECEIVER_TASK_ID WORKLOAD_GENERATION (ab_request (jr_broker s))
        OBJECT_TYPE_APPROVAL_BROKER CAPABILITY_RIGHT_SUBMIT_APPROVAL in
      let! res := on_journal (journal_begin_lifecycle record) in
      match res with
      | Ok _ => retM None
      | Err error => let! o := rollback_submit before task error in retM (Some o)
      end
  else retM None.

(** The arm for an accepted decision. *)
Definition follow_decide (before : JournaledRuntime) (task decision : Z)
    : M JournaledRuntime RuntimeError (option TrapOutcome) :=
  if ab_request_present (jr_broker before) then
    let! c := readM (fun s => rt_context (jr_runtime s) task) in
    if tc_rax c =? status_code StOk then
      let! s := getM in
      let! (kind, status, release_unused) :=
        if (decision =? DECISION_APPROVE) && bool_decide (ab_state (jr_broker s) = BrokerApproved)
        then retM (EvApproved, StOk, false)
        else if (decision =? DECISION_DENY) && bool_decide (ab_state (jr_broker s) = BrokerEmpty)
        then retM (EvDenied, ApprovalDenied, true)
        else if (decision =? DECISION_EXPIRE) && bool_decide (ab_state (jr_broker s) = BrokerEmpty)
        then retM (EvExpired, ApprovalExpired,
                   bool_decide (ab_state (jr_broker before) = BrokerPending))
        else throwM JournalInvariant in
      let record := record_event kind status (ab_decision_epoch (jr_broker s))
        SENDER_TASK_ID SUPERVISOR_GENERATION (ab_request (jr_broker before))
        OBJECT_TYPE_APPROVAL_BROKER CAPABILITY_RIGHT_DECIDE_APPROVAL in
      do! append_or_restore before record release_unused in
      retM None
    else retM None
  else retM None.

(** The broker writes when a commit finds the effect occupied. *)
Definition follow_commit_failed (before : JournaledRuntime) (task : Z)
    : M JournaledRuntime RuntimeError (option TrapOutcome) :=
  let! s := getM in
  let! next_epoch :=
    liftM (ok_or (checked_add (ab_decision_epoch (jr_broker s)) 1) BrokerInvariant) in
  do! on_runtime (broker_mut (fun b => broker_release (ab_set_decision_epoch next_epoch b))) in
  do! on_runtime (wake_workload EffectUnavailable 0) in
  do! on_runtime (set_result task EffectUnavailable 0) in
  let record := record_event EvFailed EffectUnavailable next_epoch
    SENDER_TASK_ID SUPERVISOR_GENERATION (ab_request (jr_broker before))
    OBJECT_TYPE_TEST_EFFECT CAPABILITY_RIGHT_COMMIT_EFFECT in
  do! append_or_restore before record false in
  retM None.

(** The two arms for a commit. *)
Definition follow_commit (before : JournaledRuntime) (task : Z)
    : M JournaledRuntime RuntimeError (option TrapOutcome) :=
  let! s := getM in
  if bool_decide (ab_state (jr_broker before) = BrokerApproved) then
    if bool_decide (ab_state (jr_broker s) = BrokerEmpty) then
      let! c := readM (fun s => rt_context (jr_runtime s) task) in
      if tc_rax c =? status_code StOk then
        let record := record_event EvCompleted StOk (ab_decision_epoch (jr_broker s))
          SENDER_TASK_ID SUPERVISOR_GENERATION (ab_request (jr_broker before))
          OBJECT_TYPE_TEST_EFFECT CAPABILITY_RIGHT_COMMIT_EFFECT in
        do! append_or_restore before record false in
        retM None
      else retM None
    else if bool_decide (ab_state (jr_broker s) = BrokerApproved) then
      let! c := readM (fun s => rt_context (jr_runtime s) task) in
      if tc_rax c =? status_code EffectUnavailable then follow_commit_failed before task
      else retM None
    else retM None
  else retM None.

Definition follow_trap (before : JournaledRuntime) (task : Z) (input : TaskContextV1)
    : M JournaledRuntime RuntimeError (option TrapOutcome) :=
  match TrapOperation_parse (tc_rax input) with
  | Some OpSubmitApproval => follow_submit before task
  | Some OpDecideApproval => follow_decide before task (tc_rdx input)
  | Some OpCommitEffect => follow_commit before task
  | _ => retM None
  end.

(** [if self.validate().is_err() { *self = before; return Err(JournalInvariant); }] *)
Definition validate_or_restore (before : JournaledRuntime) : M JournaledRuntime RuntimeError unit :=
  let! s := getM in
  if is_err (jr_validate s) then do! putM before in throwM JournalInvariant else retM tt.

Definition jr_handle_trap (task : Z) : M JournaledRuntime RuntimeError TrapOutcome :=
  let! running := readM (fun s => running_task (jr_runtime s)) in
  if negb (running =? task) then throwM WrongState
  else
    let! input := readM (fun s => rt_context (jr_runtime s) task) in
    match TrapOperation_parse (tc_rax input) with
    | Some OpInspectEffectJournal => handle_journal_read task OpInspectEffectJournal input
    | Some OpReadEffectRecord => handle_journal_read task OpReadEffectRecord input
    | _ =>
        let! before := getM in
        match handle_trap task (jr_runtime before) with
        | (Err error, _) => do! putM before in throwM error
        | (Ok outcome, r') =>
            do! modifyM (jr_set_runtime r') in
            let! early := follow_trap before task input in
            match early with
            | Some o => retM o
            | None => do! validate_or_restore before in retM outcome
            end
        end
    end.

(** ** Teardown and reclamation *)

(** The terminal record of a lifecycle cut short by a teardown.  The early
    returns do not restore [decision_epoch]. *)
Definition close_lifecycle (before : JournaledRuntime) : M JournaledRuntime RuntimeError unit :=
  let! s := getM in
  let request := ab_request (jr_broker s) in
  let! terminal_epoch :=
    liftM (ok_or (checked_add (ab_decision_epoch (jr_broker s)) 1) JournalInvariant) in
  do! on_runtime (broker_mut (ab_set_decision_epoch terminal_epoch)) in
  let! (kind, status, release_unused) :=
    match ab_state (jr_broker s) with
    | BrokerPending => retM (EvDenied, ApprovalDenied, true)
    | BrokerApproved => retM (EvExpired, ApprovalExpired, false)
    | _ => throwM JournalInvariant
    end in
  append_or_restore before
    (record_event kind status terminal_epoch 0 0 request OBJECT_TYPE_APPROVAL_BROKER 0)
    release_unused.

Definition jr_begin_teardown (task : Z) : M JournaledRuntime RuntimeError unit :=
  let! before := getM in
  let! t := readM (fun s => slot (jr_runtime s) task) in
  if negb (is_state Exited t) then throwM WrongState
  else
    do! (if bool_decide (ej_state (jr_journal before) = JournalLive) then
           do! (if ab_request_present (jr_broker before) then close_lifecycle before
                else retM tt) in
           let! sealed := on_journal journal_seal in
           if is_err sealed then do! putM before in throwM JournalInvariant else retM tt
         else retM tt) in
    let! s := getM in
    match begin_teardown task (jr_runtime s) with
    | (Err error, _) => do! putM before in throwM error
    | (Ok _, r') =>
        do! modifyM (jr_set_runtime r') in
        validate_or_restore before
    end.

Definition jr_complete_teardown (task : Z) : M JournaledRuntime RuntimeError (option Z) :=
  let! before := getM in
  match complete_teardown task (jr_runtime before) with
  | (Ok next, r') =>
      do! modifyM (jr_set_runtime r') in
      do! validate_or_restore before in
      retM next
  | (Err error, _) => do! putM before in throwM error
  end.

Definition finish_reclamation : M JournaledRuntime RuntimeError unit :=
  let! before := getM in
  let j := jr_journal before in
  if existsb (fun t => negb (is_state TaskDead t)) (rt_tasks (jr_runtime before))
     || negb (bool_decide (ej_state j = JournalSealed))
     || negb (ej_reserved_record_count j =? 0)
     || is_err (journal_validate j)
  then throwM JournalInvariant
  else
    do! modifyM (fun s => jr_set_journal (journal_clear_dead (jr_journal s)) s) in
    validate_or_restore before.

(** The remaining public methods delegate to the runtime. *)
Definition jr_dispatch_next : M JournaledRuntime RuntimeError (option Z) := on_runtime dispatch_next.

Definition jr_capture_trap (task : Z) (frame : TrapFrameV1) (root generation : Z)
    : M JournaledRuntime RuntimeError unit :=
  on_runtime (capture_trap task frame root generation).
