(* ===== verification/RuntimeFrame.v ===== *)
(** * What an operation leaves alone

    [keeps f x m]: if the projection [f] of the state is [x] before [m], it is
    [x] afterwards, whether [m] succeeds or fails.  A small Hoare logic for the
    frame conditions of the runtime's operations. *)

From S2P Require Import Prelude RuntimeTypes Capability Runtime RuntimeOps.

Definition keeps {S E A X} (f : S -> X) (x : X) (m : M S E A) : Prop :=
  forall s res s', f s = x -> m s = (res, s') -> f s' = x.

Section Rules.
Context {S E X : Type} (f : S -> X) (x : X).

Lemma keeps_ret {A} (a : A) : keeps f x (retM (E:=E) a).
Proof. intros s res s' Hs [= _ <-]. done. Qed.

Lemma keeps_throw {A} (e : E) : keeps f x (throwM (A:=A) e).
Proof. intros s res s' Hs [= _ <-]. done. Qed.

Lemma keeps_read {A} (g : S -> result A E) : keeps f x (readM g).
Proof. intros s res s' Hs [= _ <-]. done. Qed.

Lemma keeps_lift {A} (r : result A E) : keeps f x (liftM r).
Proof. intros s res s' Hs [= _ <-]. done. Qed.

Lemma keeps_modify (g : S -> S) : (forall s, f (g s) = f s) -> keeps f x (modifyM (E:=E) g).
Proof. intros Hg s res s' Hs [= _ <-]. by rewrite Hg. Qed.

Lemma keeps_put s : f s = x -> keeps f x (putM (E:=E) s).
Proof. intros Hf s0 res s' _ [= _ <-]. done. Qed.

Lemma keeps_bind {A B} (m : M S E A) (k : A -> M S E B) :
  keeps f x m -> (forall a, keeps f x (k a)) -> keeps f x (bindM m k).
Proof.
  intros Hm Hk s res s' Hs. unfold bindM. destruct (m s) as [[a|e] s1] eqn:E1.
  - apply Hk. by eapply Hm.
  - intros [= _ <-]. by eapply Hm.
Qed.

Lemma keeps_get {B} (k : S -> M S E B) :
  (forall s, f s = x -> keeps f x (k s)) -> keeps f x (bindM getM k).
Proof. intros Hk s res s' Hs. unfold bindM, getM. by apply Hk. Qed.

Lemma keeps_transactional {A} (m : M S E A) : keeps f x m -> keeps f x (transactional m).
Proof.
  intros Hm s res s' Hs. unfold transactional. destruct (m s) as [[a|e] s1] eqn:E1.
  - intros [= _ <-]. by eapply Hm.
  - by intros [= _ <-].
Qed.
End Rules.

(** A projection no register, state, table or queue update can change. *)
Class GlobalProjection {X} (f : Runtime -> X) : Prop := {
  gp_task0 : forall s r, f (rt_set_task0 s r) = f r;
  gp_task1 : forall s r, f (rt_set_task1 s r) = f r;
  gp_queue : forall q r, f (rt_set_queue q r) = f r
}.

#[export] Instance endpoint_global : GlobalProjection rt_endpoint.
Proof. by split. Qed.
#[export] Instance broker_global : GlobalProjection rt_broker.
Proof. by split. Qed.
#[export] Instance effect_global : GlobalProjection rt_effect.
Proof. by split. Qed.
#[export] Instance manifest_global : GlobalProjection rt_manifest.
Proof. by split. Qed.
#[export] Instance profile_global : GlobalProjection rt_profile.
Proof. by split. Qed.

Section Global.
Context {X : Type} (f : Runtime -> X) `{!GlobalProjection f} (x : X).

Lemma keeps_slot_mut task g : keeps f x (slot_mut task g).
Proof.
  intros r res r' Hr. unfold slot_mut.
  destruct (task =? SENDER_TASK_ID); [intros [= _ <-]; by rewrite gp_task0|].
  destruct (task =? RECEIVER_TASK_ID); [intros [= _ <-]; by rewrite gp_task1|].
  by intros [= _ <-].
Qed.

Lemma keeps_set_result task status value : keeps f x (set_result task status value).
Proof. apply keeps_slot_mut. Qed.

Lemma keeps_set_state task st : keeps f x (set_state task st).
Proof. apply keeps_slot_mut. Qed.

Lemma keeps_push task : keeps f x (rt_queue_push task).
Proof.
  intros r res r' Hr. unfold rt_queue_push. destruct (queue_push _ _).
  intros [= _ <-]. by rewrite gp_queue.
Qed.

Lemma keeps_pop : keeps f x rt_queue_pop.
Proof.
  intros r res r' Hr. unfold rt_queue_pop. destruct (queue_pop _).
  intros [= _ <-]. by rewrite gp_queue.
Qed.

Lemma keeps_on_capabilities {E A} task (m : M CapabilityTable E A) :
  keeps f x (on_capabilities task m).
Proof.
  apply keeps_bind; [apply keeps_read|]. intros s. destruct (m _).
  apply keeps_bind; [apply keeps_slot_mut|]. intros. apply keeps_ret.
Qed.
End Global.

(** Walk through an operation. *)
Create HintDb keeps.
#[export] Hint Resolve keeps_ret keeps_throw keeps_read keeps_lift keeps_slot_mut
  keeps_set_result keeps_set_state keeps_push keeps_pop keeps_on_capabilities : keeps.

Ltac keeps_step :=
  match goal with
  | |- keeps _ _ (bindM getM _) => apply keeps_get; intros ? ?
  | |- keeps _ _ (bindM _ _) => apply keeps_bind; [|intros ?]
  | |- keeps _ _ (match ?b with _ => _ end) => destruct b
  | |- keeps _ _ (let '_ := ?b in _) => destruct b
  | |- keeps _ _ (modifyM _) => apply keeps_modify; intros; reflexivity
  | |- keeps _ _ (putM _) => apply keeps_put; assumption
  | |- keeps _ _ _ => solve [auto with keeps typeclass_instances]
  end.
Ltac keeps_solve := repeat keeps_step.

Section Operations.
Context {X : Type} (f : Runtime -> X) `{!GlobalProjection f} (x : X).

Lemma keeps_dispatch_next : keeps f x dispatch_next.
Proof. unfold dispatch_next. keeps_solve. Qed.

Lemma keeps_dispatch_some : keeps f x dispatch_some.
Proof. unfold dispatch_some. apply keeps_bind; [apply keeps_dispatch_next|]. intros; keeps_solve. Qed.

Lemma keeps_resume_with task status : keeps f x (resume_with task status).
Proof. unfold resume_with. keeps_solve. Qed.

Lemma keeps_resume_validated task status : keeps f x (resume_validated task status).
Proof. unfold resume_validated. keeps_solve. Qed.
End Operations.

#[export] Hint Resolve keeps_dispatch_next keeps_dispatch_some keeps_resume_with
  keeps_resume_validated : keeps.

Section Traps.
Context {X : Type} (f : Runtime -> X) `{!GlobalProjection f} (x : X).

Lemma keeps_yield task a b c : keeps f x (yield_op task a b c).
Proof. unfold yield_op. keeps_solve. Qed.

Lemma keeps_exit task a b c : keeps f x (exit task a b c).
Proof. unfold exit. keeps_solve. Qed.

Lemma keeps_duplicate task a b c : keeps f x (duplicate task a b c).
Proof. unfold duplicate. keeps_solve. Qed.

Lemma keeps_close task a b c : keeps f x (close task a b c).
Proof. unfold close. keeps_solve. Qed.

Lemma keeps_inspect task a b c : keeps f x (inspect_approval task a b c).
Proof. unfold inspect_approval. keeps_solve. Qed.

Lemma keeps_wake status value : keeps f x (wake_workload status value).
Proof. unfold wake_workload. keeps_solve. Qed.

Lemma keeps_install_routes routes : keeps f x (install_routes routes).
Proof. induction routes as [|route rest IH]; simpl; keeps_solve. Qed.
End Traps.

#[export] Hint Resolve keeps_wake keeps_install_routes : keeps.

(** Launching changes the manifest only. *)
Section Launch.
Context {X : Type} (f : Runtime -> X) `{!GlobalProjection f} (x : X).
Hypothesis f_manifest : forall m r, f (rt_set_manifest m r) = f r.

Lemma keeps_start task a b c : keeps f x (start_workload task a b c).
Proof.
  unfold start_workload, start_workload_with_failure. cbv zeta. keeps_solve.
  apply keeps_modify. intros. apply f_manifest.
Qed.
End Launch.
