(* ===== verification/RuntimeInv.v ===== *)
(** * The runtime invariant

    The run queue refines a FIFO list; [rt_inv] is the inductive invariant of
    the runtime, stronger than what [validate] checks; it implies that
    [validate] accepts, is established by both constructors and is preserved
    by the state changes every operation is made of. *)

From S2P Require Import Prelude RuntimeTypes Capability CapabilityProofs Runtime RuntimeOps.

(** ** The run queue as a FIFO list *)

(** The array representation of the list [l]. *)
Definition queue_of (l : list Z) : RunQueue :=
  mkRunQueue (l ++ replicate (2 - length l) 0) (length l).

Lemma queue_of_members l : take (rq_len (queue_of l)) (rq_entries (queue_of l)) = l.
Proof. simpl. by rewrite take_app_length. Qed.

Lemma queue_contains_of l x : queue_contains (queue_of l) x = bool_decide (x ∈ l).
Proof.
  unfold queue_contains. rewrite queue_of_members. apply eq_true_iff_eq.
  rewrite existsb_true, bool_decide_eq_true. split.
  - intros (y & Hy & ->%Z.eqb_eq). done.
  - intros Hx. exists x. split; [done|apply Z.eqb_refl].
Qed.

Lemma queue_push_of l x :
  (length l < 2)%nat -> x ∉ l -> queue_push x (queue_of l) = (Ok tt, queue_of (l ++ [x])).
Proof.
  intros Hlen Hx. unfold queue_push. rewrite queue_contains_of, bool_decide_eq_false_2 by done.
  destruct l as [|a [|b [|]]]; simpl in *; (done || lia).
Qed.

Lemma queue_pop_of x l :
  (length l < 2)%nat -> queue_pop (queue_of (x :: l)) = (Some x, queue_of l).
Proof. intros Hlen. destruct l as [|a [|]]; simpl in *; (done || lia). Qed.

Lemma queue_pop_nil : queue_pop (queue_of []) = (None, queue_of []).
Proof. done. Qed.

(** ** Slots *)

Definition table_state_ok (st : TaskState) (ts : CapabilityTableState) : Prop :=
  match st with
  | Staged => ts = TableBuilding
  | Ready | Running | BlockedReceive | BlockedApproval => ts = TableLive
  | Exited => ts = TableLive \/ ts = TableClosing
  | TaskDead => ts = TableDead
  end.

Record slot_inv (id : Z) (s : TaskSlot) : Prop := mk_slot_inv {
  si_id : ts_id s = id;
  si_table : table_wf (ts_capabilities s);
  si_table_state : table_state_ok (ts_state s) (ct_state (ts_capabilities s));
  si_live : ts_state s <> TaskDead ->
    ts_generation s <> 0 /\
    tc_task_id (ts_context s) = id /\ tc_generation (ts_context s) = ts_generation s /\
    tc_root (ts_context s) <> 0 /\
    ct_task_id (ts_capabilities s) = id /\
    ct_task_generation (ts_capabilities s) = ts_generation s;
  si_dead : ts_state s = TaskDead ->
    ts_generation s = 0 /\ tc_task_id (ts_context s) = 0 /\
    tc_generation (ts_context s) = 0 /\ tc_root (ts_context s) = 0
}.

(** ** Scheduling *)

(** A task that holds the processor, or whose teardown is in progress. *)
Definition active (s : TaskSlot) : Prop := ts_state s = Running \/ ts_state s = Exited.

Record sched_inv (s0 s1 : TaskSlot) (l : list Z) : Prop := mk_sched_inv {
  sc_nodup : NoDup l;
  sc_ids : forall x, x ∈ l -> x = 1 \/ x = 2;
  sc_ready0 : 1 ∈ l <-> ts_state s0 = Ready;
  sc_ready1 : 2 ∈ l <-> ts_state s1 = Ready;
  sc_active : active s0 -> active s1 -> False
}.

(** ** Profiles *)

(** Every entry of the table satisfies [P]. *)
Definition table_all (P : CapabilityEntry -> Prop) (t : CapabilityTable) : Prop :=
  forall s e, s ∈ ct_slots t -> cs_entry s = Some e -> P e.

(** The sender never holds the receive right. *)
Definition no_receive (e : CapabilityEntry) : Prop :=
  Z.land (ce_rights e) CAPABILITY_RIGHT_RECEIVE = 0.

Record endpoint_inv (s0 s1 : TaskSlot) (ep : EndpointSnapshot) : Prop := mk_endpoint_inv {
  en_dead : ts_state s0 = TaskDead -> ts_state s1 = TaskDead -> ep = EMPTY_ENDPOINT;
  en_generation : ts_state s0 <> TaskDead \/ ts_state s1 <> TaskDead ->
    ep_object_generation ep = ENDPOINT_GENERATION;
  en_sender : ct_state (ts_capabilities s0) = TableLive ->
    ep_sender_task ep = SENDER_TASK_ID /\ ep_sender_generation ep = ts_generation s0;
  en_sender_gone : ct_state (ts_capabilities s0) <> TableLive ->
    ep_sender_task ep = 0 /\ ep_sender_generation ep = 0;
  en_receiver : ct_state (ts_capabilities s1) = TableLive ->
    ep_receiver_task ep = RECEIVER_TASK_ID /\ ep_receiver_generation ep = ts_generation s1;
  en_receiver_gone : ct_state (ts_capabilities s1) <> TableLive ->
    ep_receiver_task ep = 0 /\ ep_receiver_generation ep = 0 /\ ep_occupied ep = false;
  en_empty : ep_occupied ep = false -> ep_payload ep = 0;
  en_blocked : ts_state s1 = BlockedReceive ->
    ep_occupied ep = false /\ ct_state (ts_capabilities s0) = TableLive
}.

Definition coop_state0 (st : TaskState) : bool :=
  match st with Ready | Running | Exited | TaskDead => true | _ => false end.
Definition coop_state1 (st : TaskState) : bool :=
  match st with Staged | BlockedApproval => false | _ => true end.

Record coop_inv (r : Runtime) : Prop := mk_coop_inv {
  co_manifest : rt_manifest r = ManifestPublication_EMPTY;
  co_broker : rt_broker r = ApprovalBroker_DEAD;
  co_effect : rt_effect r = SyntheticEffect_EMPTY;
  co_state0 : coop_state0 (ts_state (rt_task0 r)) = true;
  co_state1 : coop_state1 (ts_state (rt_task1 r)) = true;
  co_sender : table_all no_receive (ts_capabilities (rt_task0 r));
  co_endpoint : endpoint_inv (rt_task0 r) (rt_task1 r) (rt_endpoint r)
}.

(** The broker while the supervisor lives.  [waiting] says whether the workload
    is blocked on an approval. *)
Record broker_inv (waiting : bool) (b : ApprovalBroker) : Prop := mk_broker_inv {
  br_generation : ab_object_generation b = FIXED_OBJECT_GENERATION;
  br_sequence : 1 <= ab_next_sequence b <= U64_MAX;
  br_epoch : 1 <= ab_decision_epoch b <= U64_MAX;
  br_state : match ab_state b with
    | BrokerEmpty | BrokerClosing =>
        waiting = false /\ ab_request_present b = false /\ ab_request_kind b = 0 /\
        ab_request b = ApprovalRequestV1_default /\
        ab_approval_epoch b = 0 /\ ab_expiry_epoch b = 0
    | BrokerPending =>
        waiting = true /\ ab_request_present b = true /\
        ab_request_kind b = APPROVAL_REQUEST_KIND_COMMIT_SYNTHETIC_VALUE /\
        ab_request b = submitted_request (ar_sequence (ab_request b)) (ar_argument (ab_request b)) /\
        ar_sequence (ab_request b) <> 0 /\
        ab_approval_epoch b = 0 /\ ab_expiry_epoch b = 0
    | BrokerApproved =>
        waiting = true /\ ab_request_present b = true /\
        ab_request_kind b = APPROVAL_REQUEST_KIND_COMMIT_SYNTHETIC_VALUE /\
        ab_request b = submitted_request (ar_sequence (ab_request b)) (ar_argument (ab_request b)) /\
        ar_sequence (ab_request b) <> 0 /\
        ab_approval_epoch b = ab_decision_epoch b /\
        ab_decision_epoch b < U64_MAX /\
        ab_expiry_epoch b = ab_decision_epoch b + 1
    | BrokerBuilding | BrokerDead => False
    end
}.

Definition sup_state0 (st : TaskState) : bool :=
  match st with Ready | Running | Exited | TaskDead => true | _ => false end.
Definition sup_state1 (st : TaskState) : bool :=
  match st with BlockedReceive => false | _ => true end.

Record sup_inv (r : Runtime) : Prop := mk_sup_inv {
  su_endpoint : rt_endpoint r = EMPTY_ENDPOINT;
  su_state0 : sup_state0 (ts_state (rt_task0 r)) = true;
  su_state1 : sup_state1 (ts_state (rt_task1 r)) = true;
  su_gen0 : ts_state (rt_task0 r) <> TaskDead -> ts_generation (rt_task0 r) = SUPERVISOR_GENERATION;
  su_gen1 : ts_state (rt_task1 r) <> TaskDead -> ts_generation (rt_task1 r) = WORKLOAD_GENERATION;
  su_staged : ts_state (rt_task1 r) = Staged ->
    ts_capabilities (rt_task1 r) = table_building RECEIVER_TASK_ID WORKLOAD_GENERATION;
  su_manifest : rt_manifest r =
    (if decide (ct_state (ts_capabilities (rt_task1 r)) = TableLive)
     then ManifestPublication_registered else ManifestPublication_EMPTY);
  su_broker : match ct_state (ts_capabilities (rt_task0 r)) with
    | TableLive => broker_inv (is_state BlockedApproval (rt_task1 r)) (rt_broker r)
    | TableClosing => broker_inv false (rt_broker r) /\ ab_state (rt_broker r) = BrokerClosing /\
                      ts_state (rt_task1 r) <> BlockedApproval
    | TableDead => rt_broker r = ApprovalBroker_DEAD /\ ts_state (rt_task1 r) <> BlockedApproval
    | TableBuilding => False
    end;
  su_effect : match ct_state (ts_capabilities (rt_task0 r)) with
    | TableLive =>
        se_object_generation (rt_effect r) = FIXED_OBJECT_GENERATION /\
        se_supervisor_task_id (rt_effect r) = SENDER_TASK_ID /\
        se_supervisor_generation (rt_effect r) = SUPERVISOR_GENERATION /\
        (se_occupied (rt_effect r) = false -> se_value (rt_effect r) = 0)
    | _ => rt_effect r = SyntheticEffect_EMPTY
    end
}.

Definition profile_inv (r : Runtime) : Prop :=
  match rt_profile r with
  | Cooperative => coop_inv r
  | Supervised => sup_inv r
  end.

(** The invariant. *)
Record rt_inv (r : Runtime) : Prop := mk_rt_inv {
  ri_slot0 : slot_inv 1 (rt_task0 r);
  ri_slot1 : slot_inv 2 (rt_task1 r);
  ri_sched : exists l, rt_queue r = queue_of l /\ sched_inv (rt_task0 r) (rt_task1 r) l;
  ri_profile : profile_inv r
}.

(** ** [validate] accepts every state of the invariant *)

Lemma is_state_true st s : is_state st s = true <-> ts_state s = st.
Proof. unfold is_state. apply bool_decide_eq_true. Qed.

Lemma is_state_false st s : is_state st s = false <-> ts_state s <> st.
Proof. unfold is_state. apply bool_decide_eq_false. Qed.

Lemma is_state_set st st' s : is_state st (ts_set_state st' s) = bool_decide (st' = st).
Proof. done. Qed.

Lemma table_is_true st s : table_is st s = true <-> ct_state (ts_capabilities s) = st.
Proof. unfold table_is. apply bool_decide_eq_true. Qed.

Lemma table_is_false st s : table_is st s = false <-> ct_state (ts_capabilities s) <> st.
Proof. unfold table_is. apply bool_decide_eq_false. Qed.

#[export] Hint Rewrite is_state_true is_state_false table_is_true table_is_false : b2p.

(** At most two members, all of them task identifiers, none twice. *)
Lemma sched_shape s0 s1 l :
  sched_inv s0 s1 l -> l = [] \/ l = [1] \/ l = [2] \/ l = [1; 2] \/ l = [2; 1].
Proof.
  intros [Hnd Hids _ _ _]. destruct l as [|a [|b [|c l]]].
  - auto.
  - destruct (Hids a) as [->| ->]; [left|auto..].
  - apply NoDup_cons in Hnd as [Hab _].
    destruct (Hids a) as [->| ->], (Hids b) as [->| ->]; (set_solver || auto 10).
  - exfalso. rewrite !NoDup_cons, !not_elem_of_cons in Hnd. destruct Hnd as ([? [? _]] & [? _] & _).
    destruct (Hids a), (Hids b), (Hids c); set_solver.
Qed.

Lemma sched_queue_ok s0 s1 l :
  sched_inv s0 s1 l ->
  (Z.to_nat TASK_COUNT <? rq_len (queue_of l))%nat
    || existsb (fun e => negb (e =? 0)) (drop (rq_len (queue_of l)) (rq_entries (queue_of l)))
    = false /\
  queue_members_bad (take (rq_len (queue_of l)) (rq_entries (queue_of l))) = false.
Proof. by intros [->|[->|[->|[->| ->]]]]%sched_shape. Qed.

Lemma sched_running s0 s1 l :
  sched_inv s0 s1 l -> 1 <? countb (is_state Running) [s0; s1] = false.
Proof.
  intros Hs. simpl. destruct (is_state Running s0) eqn:E0, (is_state Running s1) eqn:E1; try done.
  b2p. exfalso. apply (sc_active _ _ _ Hs); by left.
Qed.

Lemma slot_inv_validate id s l :
  slot_inv id s -> (id ∈ l <-> ts_state s = Ready) -> validate_slot (queue_of l) s = Ok tt.
Proof.
  intros [Hid Hwf Hst Hlive Hdead] Hq. unfold validate_slot.
  rewrite (table_wf_validate _ Hwf), queue_contains_of, Hid.
  assert (bool_decide (id ∈ l) = is_state Ready s) as ->.
  { unfold is_state. by apply bool_decide_ext. }
  rewrite eqb_reflx. simpl. unfold is_state, table_state_ok in *.
  destruct (ts_state s) eqn:E;
    try (destruct Hlive as (Hg & -> & -> & Hr & -> & ->); [done|];
         rewrite !Z.eqb_refl, (proj2 (Z.eqb_neq _ _) Hg), (proj2 (Z.eqb_neq _ _) Hr)).
  7: { destruct (Hdead eq_refl) as (-> & -> & -> & ->). by rewrite Hst. }
  all: simpl; try (by rewrite Hst). by destruct Hst as [-> | ->].
Qed.

(** A live slot's table is live exactly when its state is not terminal. *)
Lemma slot_table_cases id s :
  slot_inv id s ->
  (ts_state s = Staged <-> ct_state (ts_capabilities s) = TableBuilding) /\
  (ts_state s = TaskDead <-> ct_state (ts_capabilities s) = TableDead).
Proof.
  intros [_ _ Hst _ _]. unfold table_state_ok in Hst.
  destruct (ts_state s); naive_solver congruence.
Qed.

Lemma if_false {A} (b : bool) (x y : A) : b = false -> (if b then x else y) = y.
Proof. by intros ->. Qed.

Lemma all_dead_true r :
  forallb (is_state TaskDead) (rt_tasks r) = true <->
  ts_state (rt_task0 r) = TaskDead /\ ts_state (rt_task1 r) = TaskDead.
Proof. simpl. rewrite andb_true_r. b2p. done. Qed.

Lemma endpoint_inv_zero s0 s1 ep :
  slot_inv 1 s0 -> slot_inv 2 s1 -> endpoint_inv s0 s1 ep ->
  (ep_sender_task ep =? 0) = (ep_sender_generation ep =? 0) /\
  (ep_receiver_task ep =? 0) = (ep_receiver_generation ep =? 0) /\
  (ep_sender_task ep = 0 \/ ep_sender_task ep = SENDER_TASK_ID) /\
  (ep_receiver_task ep = 0 \/ ep_receiver_task ep = RECEIVER_TASK_ID) /\
  (ep_receiver_generation ep = 0 -> ep_occupied ep = false) /\
  (ts_state s1 = BlockedReceive -> ep_sender_generation ep <> 0).
Proof.
  intros H0 H1 [_ _ Hs Hsg Hr Hrg _ Hb].
  destruct (slot_table_cases 1 s0 H0) as [_ Hd0], (slot_table_cases 2 s1 H1) as [_ Hd1].
  assert (Hg0 : ct_state (ts_capabilities s0) = TableLive -> ts_generation s0 <> 0).
  { intros HL. apply (si_live _ _ H0). rewrite Hd0. congruence. }
  assert (Hg1 : ct_state (ts_capabilities s1) = TableLive -> ts_generation s1 <> 0).
  { intros HL. apply (si_live _ _ H1). rewrite Hd1. congruence. }
  split_and!.
  - destruct (decide (ct_state (ts_capabilities s0) = TableLive)) as [HL|HL].
    + destruct (Hs HL) as [-> ->]. symmetry. by apply Z.eqb_neq, Hg0.
    + by destruct (Hsg HL) as [-> ->].
  - destruct (decide (ct_state (ts_capabilities s1) = TableLive)) as [HL|HL].
    + destruct (Hr HL) as [-> ->]. symmetry. by apply Z.eqb_neq, Hg1.
    + by destruct (Hrg HL) as (-> & -> & _).
  - destruct (decide (ct_state (ts_capabilities s0) = TableLive)) as [HL|HL]; naive_solver.
  - destruct (decide (ct_state (ts_capabilities s1) = TableLive)) as [HL|HL]; naive_solver.
  - destruct (decide (ct_state (ts_capabilities s1) = TableLive)) as [HL|HL]; [|naive_solver].
    destruct (Hr HL) as [_ ->]. intros. by destruct Hg1.
  - intros HB. destruct (Hb HB) as [_ HL]. destruct (Hs HL) as [_ ->]. auto.
Qed.

Lemma coop_inv_validate r :
  slot_inv 1 (rt_task0 r) -> slot_inv 2 (rt_task1 r) -> coop_inv r ->
  validate_cooperative r = Ok tt.
Proof.
  intros H0 H1 [Hm Hb He Hs0 Hs1 _ Hep].
  destruct (endpoint_inv_zero _ _ _ H0 H1 Hep) as (Hz0 & Hz1 & Hst & Hrt & Hrg & Hbs).
  pose proof (si_id _ _ H0) as Hid0. pose proof (si_id _ _ H1) as Hid1.
  destruct Hep as [Hdead Hgen Hse Hsg Hre Hrgone Hem Hbl].
  unfold validate_cooperative. cbv zeta. rewrite Hm, Hb, He, Hz0, Hz1, !eqb_reflx, Hid0, Hid1.
  repeat rewrite if_false; [done|..]; apply not_true_iff_false; intros Hbad;
    rewrite ?andb_true_iff, ?all_dead_true in Hbad.
  - destruct Hbad as [[Hd0 Hd1] Hbad]. rewrite (Hdead Hd0 Hd1) in Hbad. done.
  - assert (Hog : ep_object_generation (rt_endpoint r) = 0 \/
                  ep_object_generation (rt_endpoint r) = ENDPOINT_GENERATION).
    { destruct (decide (ts_state (rt_task0 r) = TaskDead)) as [E0|]; [|auto].
      destruct (decide (ts_state (rt_task1 r) = TaskDead)) as [E1|]; [|auto].
      rewrite (Hdead E0 E1). by left. }
    assert (Hst' : ep_sender_generation (rt_endpoint r) <> 0 ->
                   ep_sender_task (rt_endpoint r) = SENDER_TASK_ID).
    { intros Hn%Z.eqb_neq. rewrite Hn in Hz0. apply Z.eqb_neq in Hz0. tauto. }
    assert (Hrt' : ep_receiver_generation (rt_endpoint r) <> 0 ->
                   ep_receiver_task (rt_endpoint r) = RECEIVER_TASK_ID).
    { intros Hn%Z.eqb_neq. rewrite Hn in Hz1. apply Z.eqb_neq in Hz1. tauto. }
    simpl in Hbad. b2p. clear -Hbad Hog Hst' Hrt' Hem Hgen. intuition congruence.
  - b2p. naive_solver congruence.
  - b2p. destruct Hbad as [HB [Ho|Hg]]; [|by apply Hbs].
    destruct (Hbl HB). congruence.
  - b2p. destruct Hrgone as (_ & Hg & _); [|naive_solver]. naive_solver congruence.
  - b2p. destruct Hbad as [HL Hbad]. destruct (Hre HL). naive_solver.
  - b2p. destruct Hsg as (_ & Hg); [|naive_solver]. naive_solver congruence.
  - b2p. destruct Hbad as [HL Hbad]. destruct (Hse HL). naive_solver.
  - simpl in Hbad. unfold is_state in Hbad.
    destruct (ts_state (rt_task0 r)), (ts_state (rt_task1 r)); done.
Qed.

Lemma broker_inv_ok waiting b workload :
  broker_inv waiting b -> (waiting = true -> ts_state workload = BlockedApproval) ->
  broker_state_bad b workload = false /\ broker_identity_bad b = false /\
  ab_request_present b && request_bad (ab_request b) = false.
Proof.
  intros [Hg Hs He Hst] Hw. unfold broker_state_bad, broker_identity_bad, broker_has_residue.
  assert (Hs0 : (ab_next_sequence b =? 0) = false) by (apply Z.eqb_neq; lia).
  assert (He0 : (ab_decision_epoch b =? 0) = false) by (apply Z.eqb_neq; lia).
  rewrite Hg, Hs0, He0.
  destruct (ab_state b) eqn:E; try done; simpl.
  - destruct Hst as (-> & -> & -> & -> & -> & ->). done.
  - destruct Hst as (-> & -> & -> & Hr & Hn & -> & ->).
    unfold is_state. rewrite Hw by done. apply Z.eqb_neq in Hn.
    rewrite Hr. unfold request_bad. simpl. by rewrite Hn.
  - destruct Hst as (-> & -> & -> & Hr & Hn & -> & Hlt & ->).
    unfold is_state. rewrite Hw by done. apply Z.eqb_neq in Hn.
    rewrite Hr. unfold request_bad, saturating_add, U64_MAX in *. simpl. rewrite Hn, He0. simpl.
    rewrite Z.min_l by lia. by rewrite Z.eqb_refl.
  - destruct Hst as (-> & -> & -> & -> & -> & ->). done.
Qed.

Lemma sup_broker_ok r :
  slot_inv 1 (rt_task0 r) -> sup_inv r ->
  broker_state_bad (rt_broker r) (rt_task1 r) = false /\
  broker_identity_bad (rt_broker r) = false /\
  ab_request_present (rt_broker r) && request_bad (ab_request (rt_broker r)) = false.
Proof.
  intros H0 Hsup. pose proof (su_broker _ Hsup) as Hb.
  destruct (ct_state (ts_capabilities (rt_task0 r))); [done|..].
  - eapply broker_inv_ok; [exact Hb|]. apply is_state_true.
  - eapply broker_inv_ok; [apply Hb|done].
  - destruct Hb as [-> _]. done.
Qed.

Lemma sup_effect_ok r : sup_inv r -> effect_bad (rt_effect r) = false.
Proof.
  intros Hsup. pose proof (su_effect _ Hsup) as He. unfold effect_bad.
  destruct (ct_state (ts_capabilities (rt_task0 r))); try (by rewrite He).
  destruct He as (-> & -> & -> & Hv). simpl.
  destruct (se_occupied (rt_effect r)); [done|]. by rewrite (Hv eq_refl).
Qed.

Lemma sup_manifest_ok r :
  slot_inv 2 (rt_task1 r) -> sup_inv r ->
  supervised_manifest_bad r = false /\
  is_state TaskDead (rt_task1 r)
    && negb (bool_decide (rt_manifest r = ManifestPublication_EMPTY)) = false.
Proof.
  intros H1 Hsup. unfold supervised_manifest_bad. cbv zeta.
  rewrite (su_manifest _ Hsup). pose proof (su_staged _ Hsup) as Hstg.
  pose proof (si_table_state _ _ H1) as Hts. unfold is_state, table_is in *.
  unfold table_state_ok in Hts.
  destruct (ts_state (rt_task1 r));
    try (rewrite Hts; done).
  - rewrite (Hstg eq_refl). done.
  - by destruct Hts as [-> | ->].
Qed.

Lemma sup_inv_validate r :
  slot_inv 1 (rt_task0 r) -> slot_inv 2 (rt_task1 r) -> sup_inv r ->
  validate_supervised r = Ok tt.
Proof.
  intros H0 H1 Hsup. unfold validate_supervised. cbv zeta.
  destruct (sup_broker_ok r H0 Hsup) as (-> & -> & ->).
  destruct (sup_manifest_ok r H1 Hsup) as (-> & ->).
  rewrite (sup_effect_ok r Hsup), (su_endpoint _ Hsup).
  repeat rewrite if_false; [done|..]; apply not_true_iff_false; intros Hbad;
    rewrite ?andb_true_iff, ?all_dead_true in Hbad.
  - destruct Hbad as [[Hd0 Hd1] Hbad].
    pose proof (su_broker _ Hsup) as Hb. pose proof (su_effect _ Hsup) as He.
    rewrite (proj1 (proj2 (slot_table_cases _ _ H0)) Hd0) in Hb, He.
    rewrite (su_manifest _ Hsup), (proj1 (proj2 (slot_table_cases _ _ H1)) Hd1) in Hbad.
    destruct Hb as [Hb _]. rewrite Hb, He in Hbad. done.
  - b2p. destruct Hbad as [Hd Hg]. by apply Hg, (su_gen1 _ Hsup).
  - b2p. destruct Hbad as [Hd Hg]. by apply Hg, (su_gen0 _ Hsup).
  - simpl in Hbad. unfold is_state in Hbad.
    pose proof (su_state0 _ Hsup) as Hs0. pose proof (su_state1 _ Hsup) as Hs1.
    destruct (ts_state (rt_task0 r)), (ts_state (rt_task1 r)); done.
Qed.

Lemma rt_inv_validate r : rt_inv r -> validate r = Ok tt.
Proof.
  intros [H0 H1 (l & Hq & Hs) Hp]. unfold validate. cbv zeta. rewrite Hq.
  destruct (sched_queue_ok _ _ _ Hs) as [-> ->].
  change (rt_tasks r) with [rt_task0 r; rt_task1 r]. rewrite (sched_running _ _ _ Hs).
  rewrite (slot_inv_validate 1 _ l H0 (sc_ready0 _ _ _ Hs)).
  rewrite (slot_inv_validate 2 _ l H1 (sc_ready1 _ _ _ Hs)).
  unfold profile_inv in Hp. destruct (rt_profile r).
  - by apply coop_inv_validate.
  - by apply sup_inv_validate.
Qed.

(** ** Updating one slot *)

Definition valid_task (task : Z) : Prop := task = 1 \/ task = 2.

Definition task_slot (r : Runtime) (task : Z) : TaskSlot :=
  if task =? SENDER_TASK_ID then rt_task0 r else rt_task1 r.

Definition upd (task : Z) (f : TaskSlot -> TaskSlot) (r : Runtime) : Runtime :=
  if task =? SENDER_TASK_ID then rt_set_task0 (f (rt_task0 r)) r
  else rt_set_task1 (f (rt_task1 r)) r.

Lemma slot_valid r task : valid_task task -> slot r task = Ok (task_slot r task).
Proof. by intros [-> | ->]. Qed.

Lemma slot_mut_valid task f r : valid_task task -> slot_mut task f r = (Ok tt, upd task f r).
Proof. by intros [-> | ->]. Qed.

Lemma task_slot_upd task f r : task_slot (upd task f r) task = f (task_slot r task).
Proof. unfold task_slot, upd. by destruct (task =? SENDER_TASK_ID). Qed.

Lemma upd_upd task f g r : upd task f (upd task g r) = upd task (fun s => f (g s)) r.
Proof. unfold upd. by destruct (task =? SENDER_TASK_ID). Qed.

(** The registers [set_result] writes. *)
Definition slot_result (status : TrapStatus) (value : Z) (s : TaskSlot) : TaskSlot :=
  ts_set_context (context_set_result status value (ts_context s)) s.

Lemma set_result_valid task status value r :
  valid_task task -> set_result task status value r = (Ok tt, upd task (slot_result status value) r).
Proof. apply slot_mut_valid. Qed.

Lemma set_state_valid task st r :
  valid_task task -> set_state task st r = (Ok tt, upd task (ts_set_state st) r).
Proof. apply slot_mut_valid. Qed.

Lemma bindM_step {S E A B} (m : M S E A) (k : A -> M S E B) s a s1 :
  m s = (Ok a, s1) -> bindM m k s = k a s1.
Proof. unfold bindM. by intros ->. Qed.

Lemma getM_step {S E B} (k : S -> M S E B) s : bindM getM k s = k s s.
Proof. done. Qed.

Lemma readM_step {S E A B} (f : S -> result A E) (k : A -> M S E B) s a :
  f s = Ok a -> bindM (readM f) k s = k a s.
Proof. unfold bindM, readM. by intros ->. Qed.

Lemma read_slot_step {A} r task (k : TaskSlot -> M Runtime RuntimeError A) :
  valid_task task -> bindM (readM (fun r => slot r task)) k r = k (task_slot r task) r.
Proof. intros Ht. apply readM_step. by apply slot_valid. Qed.

(** Equality up to the saved registers. *)
Record slot_sim (s s' : TaskSlot) : Prop := mk_slot_sim {
  ss_id : ts_id s' = ts_id s;
  ss_generation : ts_generation s' = ts_generation s;
  ss_state : ts_state s' = ts_state s;
  ss_capabilities : ts_capabilities s' = ts_capabilities s;
  ss_task : tc_task_id (ts_context s') = tc_task_id (ts_context s);
  ss_gen : tc_generation (ts_context s') = tc_generation (ts_context s);
  ss_root : tc_root (ts_context s') = tc_root (ts_context s)
}.

Lemma slot_sim_refl s : slot_sim s s.
Proof. done. Qed.

Lemma slot_sim_result status value s : slot_sim s (slot_result status value s).
Proof. done. Qed.

Record rt_sim (r r' : Runtime) : Prop := mk_rt_sim {
  rs_profile : rt_profile r' = rt_profile r;
  rs_task0 : slot_sim (rt_task0 r) (rt_task0 r');
  rs_task1 : slot_sim (rt_task1 r) (rt_task1 r');
  rs_queue : rt_queue r' = rt_queue r;
  rs_endpoint : rt_endpoint r' = rt_endpoint r;
  rs_manifest : rt_manifest r' = rt_manifest r;
  rs_broker : rt_broker r' = rt_broker r;
  rs_effect : rt_effect r' = rt_effect r
}.

Lemma rt_sim_upd task f r :
  (forall s, slot_sim s (f s)) -> rt_sim r (upd task f r).
Proof. intros Hf. unfold upd. destruct (task =? SENDER_TASK_ID); split; simpl; try done; apply Hf. Qed.

Lemma slot_inv_sim id s s' : slot_sim s s' -> slot_inv id s -> slot_inv id s'.
Proof.
  intros [Hi Hg Hs Hc Ht Hg' Hr] [? ? ? ? ?].
  split; rewrite ?Hi, ?Hg, ?Hs, ?Hc, ?Ht, ?Hg', ?Hr; done.
Qed.

Lemma sched_inv_state s0 s1 s0' s1' l :
  ts_state s0' = ts_state s0 -> ts_state s1' = ts_state s1 ->
  sched_inv s0 s1 l -> sched_inv s0' s1' l.
Proof.
  intros H0 H1 [? ? ? ? ?]. split; unfold active in *; rewrite ?H0, ?H1; done.
Qed.

Lemma endpoint_inv_sim s0 s1 s0' s1' ep :
  slot_sim s0 s0' -> slot_sim s1 s1' -> endpoint_inv s0 s1 ep -> endpoint_inv s0' s1' ep.
Proof.
  intros [_ Hg0 Hs0 Hc0 _ _ _] [_ Hg1 Hs1 Hc1 _ _ _] [? ? ? ? ? ? ? ?].
  split; rewrite ?Hg0, ?Hs0, ?Hc0, ?Hg1, ?Hs1, ?Hc1; done.
Qed.

(** The invariant does not depend on the saved registers. *)
Lemma rt_inv_sim r r' : rt_sim r r' -> rt_inv r -> rt_inv r'.
Proof.
  intros [Hp H0 H1 Hq He Hm Hb Hf] [I0 I1 (l & Hl & Is) Ip]. split.
  - by eapply slot_inv_sim.
  - by eapply slot_inv_sim.
  - exists l. split; [congruence|]. eapply sched_inv_state; [apply H0|apply H1|done].
  - unfold profile_inv in *. rewrite Hp. destruct (rt_profile r).
    + destruct Ip as [? ? ? ? ? ? ?].
      split; rewrite ?Hm, ?Hb, ?Hf, ?He, ?(ss_state _ _ H0), ?(ss_state _ _ H1),
        ?(ss_capabilities _ _ H0); try done. by eapply endpoint_inv_sim.
    + destruct Ip as [? ? ? ? ? ? ? ? ?]. unfold is_state in *.
      split; unfold is_state; rewrite ?He, ?Hm, ?Hb, ?Hf, ?(ss_state _ _ H0),
        ?(ss_state _ _ H1), ?(ss_capabilities _ _ H0), ?(ss_capabilities _ _ H1),
        ?(ss_generation _ _ H0), ?(ss_generation _ _ H1); done.
Qed.

Lemma rt_inv_result task status value r :
  rt_inv r -> rt_inv (upd task (slot_result status value) r).
Proof. apply rt_inv_sim, rt_sim_upd. intros s. apply slot_sim_result. Qed.

(** ** The running task *)

Lemma running_task_spec r task :
  rt_inv r ->
  running_task r = Ok task <-> valid_task task /\ ts_state (task_slot r task) = Running.
Proof.
  intros [I0 I1 (l & _ & Is) _]. unfold running_task, valid_task, task_slot. simpl.
  rewrite (si_id _ _ I0), (si_id _ _ I1).
  destruct (bool_decide (ts_state (rt_task0 r) = Running)) eqn:E0,
    (bool_decide (ts_state (rt_task1 r) = Running)) eqn:E1; b2p; simpl.
  - exfalso. apply (sc_active _ _ _ Is); by left.
  - split; [intros [= <-]; auto|]. intros [[-> | ->] H]; [done|]. by destruct E1.
  - split; [intros [= <-]; auto|]. intros [[-> | ->] H]; [|done]. by destruct E0.
  - split; [done|]. intros [[-> | ->] H]; [by destruct E0|by destruct E1].
Qed.

(** ** Endings *)

Lemma resume_validated_ok task status r :
  valid_task task -> rt_inv r ->
  resume_validated task status r = (Ok (OutResume task), upd task (slot_result status 0) r).
Proof.
  intros Ht Hi. unfold resume_validated.
  rewrite (bindM_step _ _ _ _ _ (set_result_valid task status 0 r Ht)).
  by rewrite (readM_step _ _ _ tt) by (by apply rt_inv_validate, rt_inv_result).
Qed.

Lemma resume_with_ok task status r :
  valid_task task ->
  resume_with task status r = (Ok (OutResume task), upd task (slot_result status 0) r).
Proof.
  intros Ht. unfold resume_with.
  by rewrite (bindM_step _ _ _ _ _ (set_result_valid task status 0 r Ht)).
Qed.

(** ** Scheduling transitions *)

Definition sched_rt (r : Runtime) (l : list Z) : Prop := sched_inv (rt_task0 r) (rt_task1 r) l.

Definition none_active (r : Runtime) : Prop :=
  ~ active (rt_task0 r) /\ ~ active (rt_task1 r).

Lemma sched_rt_ready r l task :
  valid_task task -> sched_rt r l -> task ∈ l <-> ts_state (task_slot r task) = Ready.
Proof. intros [-> | ->] Hs; apply Hs. Qed.

Lemma sched_rt_room r l task :
  valid_task task -> sched_rt r l -> task ∉ l -> (length l < 2)%nat.
Proof.
  intros Ht Hs Hn. destruct (sched_shape _ _ _ Hs) as [->|[->|[->|[->| ->]]]]; simpl; try lia;
    exfalso; apply Hn; destruct Ht as [-> | ->]; set_solver.
Qed.

(** A task that becomes ready joins the back of the queue. *)
Lemma sched_rt_push r l task :
  valid_task task -> sched_rt r l -> ts_state (task_slot r task) <> Ready ->
  sched_rt (upd task (ts_set_state Ready) r) (l ++ [task]).
Proof.
  intros Ht Hs Hn. pose proof (proj1 (sched_rt_ready r l task Ht Hs)) as Hr.
  assert (Hnl : task ∉ l) by tauto. destruct Hs as [Hnd Hids H0 H1 Ha]. split.
  - apply NoDup_app. split; [done|]. split; [set_solver|apply NoDup_singleton].
  - intros x [Hx|Hx]%elem_of_app; [auto|]. set_solver.
  - destruct Ht as [-> | ->]; simpl; rewrite elem_of_app, list_elem_of_singleton; naive_solver.
  - destruct Ht as [-> | ->]; simpl; rewrite elem_of_app, list_elem_of_singleton; naive_solver.
  - unfold active in *. destruct Ht as [-> | ->]; simpl in *; naive_solver.
Qed.

(** The head of the queue is dispatched. *)
Lemma sched_rt_pop r l task :
  sched_rt r (task :: l) -> none_active r ->
  valid_task task /\ ts_state (task_slot r task) = Ready /\ (length l < 2)%nat /\
  sched_rt (upd task (ts_set_state Running) r) l.
Proof.
  intros Hs [Hn0 Hn1]. assert (Ht : valid_task task) by (apply (sc_ids _ _ _ Hs); left).
  split; [done|]. split; [apply (sched_rt_ready r (task :: l) task Ht Hs); left|].
  split; [destruct (sched_shape _ _ _ Hs) as [?|[?|[?|[?|?]]]]; simplify_eq/=; lia|].
  destruct Hs as [[Hnd1 Hnd]%NoDup_cons Hids H0 H1 Ha].
  split; [done|intros x Hx; apply Hids; by right|..].
  - destruct Ht as [-> | ->]; simpl; [naive_solver|].
    rewrite <-H0. set_solver.
  - destruct Ht as [-> | ->]; simpl; [|naive_solver].
    rewrite <-H1. set_solver.
  - destruct Ht as [-> | ->]; simpl; unfold active in *; naive_solver.
Qed.

(** A change of state that neither enters nor leaves [Ready]. *)
Lemma sched_rt_other r l task st :
  valid_task task -> sched_rt r l -> ts_state (task_slot r task) <> Ready -> st <> Ready ->
  (st = Running \/ st = Exited -> active (task_slot r task)) ->
  sched_rt (upd task (ts_set_state st) r) l.
Proof.
  intros Ht [Hnd Hids H0 H1 Ha] Hn Hst Hact. split; [done|done|..].
  - destruct Ht as [-> | ->]; simpl in *; [|done]. naive_solver.
  - destruct Ht as [-> | ->]; simpl in *; [done|]. naive_solver.
  - destruct Ht as [-> | ->]; unfold active, task_slot in *; simpl in *; naive_solver.
Qed.

Lemma slot_inv_set_state id s st :
  slot_inv id s -> ts_state s <> TaskDead -> st <> TaskDead ->
  table_state_ok st (ct_state (ts_capabilities s)) -> slot_inv id (ts_set_state st s).
Proof. intros [? ? ? Hl Hd] Hs Hst Hok. split; simpl; auto. done. Qed.

(** States between which the profiles do not distinguish. *)
Definition plain (st : TaskState) : Prop := st = Ready \/ st = Running \/ st = Exited.

Lemma endpoint_inv_set_state0 s0 s1 st ep :
  ts_state s0 <> TaskDead -> st <> TaskDead ->
  endpoint_inv s0 s1 ep -> endpoint_inv (ts_set_state st s0) s1 ep.
Proof. intros H0 Hst [? ? ? ? ? ? ? ?]. split; simpl; auto. done. Qed.

Lemma endpoint_inv_set_state1 s0 s1 st ep :
  ts_state s1 <> TaskDead -> st <> TaskDead -> st <> BlockedReceive ->
  endpoint_inv s0 s1 ep -> endpoint_inv s0 (ts_set_state st s1) ep.
Proof. intros H0 Hst Hb [? ? ? ? ? ? ? ?]. split; simpl; auto; done. Qed.

Lemma profile_set_state r task st :
  valid_task task -> plain (ts_state (task_slot r task)) -> plain st ->
  profile_inv r -> profile_inv (upd task (ts_set_state st) r).
Proof.
  unfold profile_inv. intros Ht Hold Hnew.
  assert (Hp : rt_profile (upd task (ts_set_state st) r) = rt_profile r).
  { unfold upd. by destruct (task =? SENDER_TASK_ID). }
  rewrite Hp. destruct (rt_profile r).
  - intros [? ? ? ? ? ? ?]. destruct Ht as [-> | ->]; unfold task_slot in *; simpl in *.
    + split; simpl; try done; [destruct Hnew as [->|[->| ->]]; done|].
      apply endpoint_inv_set_state0; [..|done]; unfold plain in *; naive_solver congruence.
    + split; simpl; try done; [destruct Hnew as [->|[->| ->]]; done|].
      apply endpoint_inv_set_state1; [..|done]; unfold plain in *; naive_solver congruence.
  - intros [? ? ? ? ? ? ? ? ?]. destruct Ht as [-> | ->]; unfold task_slot in *; simpl in *.
    + split; simpl; try done.
      * destruct Hnew as [->|[->| ->]]; done.
      * intros _. unfold plain in *. naive_solver congruence.
    + assert (Hb : is_state BlockedApproval (ts_set_state st (rt_task1 r))
                   = is_state BlockedApproval (rt_task1 r)).
      { unfold is_state. simpl. apply bool_decide_ext. unfold plain in *. naive_solver congruence. }
      split; simpl; rewrite ?Hb; try done.
      * destruct Hnew as [->|[->| ->]]; done.
      * intros _. unfold plain in *. naive_solver congruence.
      * intros ->. unfold plain in *. naive_solver congruence.
      * destruct (ct_state (ts_capabilities (rt_task0 r))); unfold plain in *;
          naive_solver congruence.
Qed.

Lemma rt_inv_slot r task : valid_task task -> rt_inv r -> slot_inv task (task_slot r task).
Proof. intros [-> | ->] Hi; apply Hi. Qed.

(** The workhorse of dispatch, yield and exit. *)
Lemma rt_inv_set_plain r task st l :
  valid_task task -> rt_inv r -> plain (ts_state (task_slot r task)) -> plain st ->
  table_state_ok st (ct_state (ts_capabilities (task_slot r task))) ->
  sched_rt (upd task (ts_set_state st) r) l ->
  rt_inv (rt_set_queue (queue_of l) (upd task (ts_set_state st) r)).
Proof.
  intros Ht Hi Hold Hnew Hok Hs.
  assert (Hnd : ts_state (task_slot r task) <> TaskDead) by (unfold plain in *; naive_solver congruence).
  assert (Hnd' : st <> TaskDead) by (unfold plain in *; naive_solver congruence).
  pose proof (slot_inv_set_state task _ st (rt_inv_slot r task Ht Hi) Hnd Hnd' Hok) as Hsl.
  pose proof (profile_set_state r task st Ht Hold Hnew (ri_profile _ Hi)) as Hpr.
  destruct Hi as [I0 I1 _ _]. split.
  - destruct Ht as [-> | ->]; done.
  - destruct Ht as [-> | ->]; done.
  - by exists l.
  - unfold profile_inv in *. simpl. destruct (rt_profile (upd task (ts_set_state st) r)).
    + by destruct Hpr.
    + by destruct Hpr.
Qed.

(** ** Dispatch *)

Lemma queue_of_inj l l' : queue_of l = queue_of l' -> l = l'.
Proof.
  intros H. rewrite <-(queue_of_members l), <-(queue_of_members l'). by rewrite H.
Qed.

Lemma rt_inv_sched r l : rt_inv r -> rt_queue r = queue_of l -> sched_rt r l.
Proof. intros [_ _ (l' & Hq & Hs) _] Hl. rewrite Hl in Hq. by apply queue_of_inj in Hq as ->. Qed.

Lemma upd_set_queue task f q r :
  upd task f (rt_set_queue q r) = rt_set_queue q (upd task f r).
Proof. unfold upd. by destruct (task =? SENDER_TASK_ID). Qed.

(** The state after the head [task] of the queue was dispatched. *)
Definition dispatched (task : Z) (l : list Z) (r : Runtime) : Runtime :=
  rt_set_queue (queue_of l) (upd task (ts_set_state Running) r).

Lemma not_running r :
  none_active r -> existsb (is_state Running) (rt_tasks r) = false.
Proof. unfold none_active, active. intros [H0 H1]. simpl. b2p. naive_solver. Qed.

Lemma dispatched_inv r task l :
  rt_inv r -> none_active r -> sched_rt r (task :: l) -> rt_inv (dispatched task l r).
Proof.
  intros Hi Hna Hs. destruct (sched_rt_pop r l task Hs Hna) as (Ht & Hr & _ & Hs').
  apply rt_inv_set_plain; [done|done| |by right; left| |done].
  - left. done.
  - pose proof (si_table_state _ _ (rt_inv_slot r task Ht Hi)) as Hok. by rewrite Hr in Hok.
Qed.

Lemma dispatch_next_ok r task l :
  rt_inv r -> none_active r -> rt_queue r = queue_of (task :: l) ->
  dispatch_next r = (Ok (Some task), dispatched task l r) /\ rt_inv (dispatched task l r).
Proof.
  intros Hi Hna Hq. pose proof (rt_inv_sched r _ Hi Hq) as Hs.
  destruct (sched_rt_pop r l task Hs Hna) as (Ht & Hr & Hlen & _).
  pose proof (dispatched_inv r task l Hi Hna Hs) as Hi'. split; [|done].
  unfold dispatch_next. unfold bindM at 1, getM. rewrite (not_running r Hna).
  rewrite (bindM_step _ _ _ (Some task) (rt_set_queue (queue_of l) r)).
  2: { unfold rt_queue_pop. by rewrite Hq, queue_pop_of. }
  rewrite (readM_step _ _ _ (task_slot r task)) by (clear -Ht; by destruct Ht as [-> | ->]).
  rewrite (proj2 (is_state_true _ _) Hr). cbn [negb].
  rewrite (bindM_step _ _ _ tt (dispatched task l r)).
  2: { rewrite set_state_valid by done. by rewrite upd_set_queue. }
  by rewrite (readM_step _ _ _ tt) by (by apply rt_inv_validate).
Qed.

Lemma dispatch_next_none r :
  none_active r -> rt_queue r = queue_of [] ->
  ts_state (rt_task0 r) = TaskDead -> ts_state (rt_task1 r) = TaskDead ->
  dispatch_next r = (Ok None, r).
Proof.
  intros Hna Hq Hd0 Hd1. unfold dispatch_next. unfold bindM at 1, getM.
  rewrite (not_running r Hna).
  rewrite (bindM_step _ _ _ None r).
  2: { unfold rt_queue_pop. rewrite Hq, queue_pop_nil. rewrite <-Hq. by destruct r. }
  by rewrite (proj2 (all_dead_true r)).
Qed.

Lemma dispatch_next_stuck r :
  none_active r -> rt_queue r = queue_of [] ->
  ts_state (rt_task0 r) <> TaskDead \/ ts_state (rt_task1 r) <> TaskDead ->
  dispatch_next r = (Err NoRunnableTask, r).
Proof.
  intros Hna Hq Hd. unfold dispatch_next. unfold bindM at 1, getM.
  rewrite (not_running r Hna).
  rewrite (bindM_step _ _ _ None r).
  2: { unfold rt_queue_pop. rewrite Hq, queue_pop_nil. rewrite <-Hq. by destruct r. }
  destruct (forallb _ _) eqn:E; [|done]. apply all_dead_true in E. naive_solver.
Qed.

Lemma dispatch_some_ok r task l :
  rt_inv r -> none_active r -> rt_queue r = queue_of (task :: l) ->
  dispatch_some r = (Ok task, dispatched task l r).
Proof.
  intros Hi Hna Hq. unfold dispatch_some.
  by rewrite (bindM_step _ _ _ _ _ (proj1 (dispatch_next_ok r task l Hi Hna Hq))).
Qed.

(** [task] runs after it was dispatched. *)
Lemma dispatched_running task l r :
  valid_task task -> ts_state (task_slot (dispatched task l r) task) = Running.
Proof. by intros [-> | ->]. Qed.

Lemma rt_queue_push_ok task l r :
  valid_task task -> rt_queue r = queue_of l -> task ∉ l -> (length l < 2)%nat ->
  rt_queue_push task r = (Ok tt, rt_set_queue (queue_of (l ++ [task])) r).
Proof. intros Ht Hq Hn Hl. unfold rt_queue_push. by rewrite Hq, queue_push_of. Qed.
