(* ===== verification/RuntimeProgress.v ===== *)
(** * Every trap of the running task is handled

    For each operation of [RuntimeOps]: started from a state of the invariant
    by the running task, with arbitrary register contents, it returns [Ok], the
    invariant holds afterwards, and the outcome names the task that runs next
    (or exits).  So the validator inside the operations never fires and a
    blocking operation always finds a task to run. *)

From S2P Require Import Prelude RuntimeTypes Capability CapabilityProofs Runtime RuntimeOps.
From S2P Require Import RuntimeInv.

(** The outcome of a trap names the running task, or the one to tear down. *)
Definition outcome_ok (task : Z) (o : TrapOutcome) (r : Runtime) : Prop :=
  match o with
  | OutResume t => t = task /\ valid_task t /\ ts_state (task_slot r t) = Running
  | OutSwitch t => valid_task t /\ ts_state (task_slot r t) = Running
  | OutExit t =>
      t = task /\ valid_task t /\ ts_state (task_slot r t) = Exited /\
      ct_state (ts_capabilities (task_slot r t)) = TableLive
  end.

Definition progresses (task : Z) (m : M Runtime RuntimeError TrapOutcome) (r : Runtime) : Prop :=
  exists o r', m r = (Ok o, r') /\ rt_inv r' /\ outcome_ok task o r'.

(** ** Shared endings *)

Section Running.
Variables (r : Runtime) (task : Z).
Hypothesis Hi : rt_inv r.
Hypothesis Ht : valid_task task.
Hypothesis Hrun : ts_state (task_slot r task) = Running.

Lemma result_progress status value :
  rt_inv (upd task (slot_result status value) r) /\
  outcome_ok task (OutResume task) (upd task (slot_result status value) r).
Proof.
  split; [by apply rt_inv_result|]. split; [done|]. by rewrite task_slot_upd.
Qed.

Lemma resume_with_progress status : progresses task (resume_with task status) r.
Proof.
  eexists _, _. split; [by apply resume_with_ok|]. apply result_progress.
Qed.

Lemma resume_validated_progress status : progresses task (resume_validated task status) r.
Proof.
  eexists _, _. split; [by apply resume_validated_ok|]. apply result_progress.
Qed.

Lemma running_table_live : ct_state (ts_capabilities (task_slot r task)) = TableLive.
Proof. pose proof (si_table_state _ _ (rt_inv_slot r task Ht Hi)) as H. by rewrite Hrun in H. Qed.

(** When the running task leaves the processor nobody else holds it. *)
Lemma leave_none_active st :
  st <> Running -> st <> Exited -> none_active (upd task (ts_set_state st) r).
Proof.
  intros Hr He. destruct Hi as [_ _ (l & _ & [_ _ _ _ Ha]) _].
  unfold none_active, active in *. clear -Ha Ht Hrun Hr He.
  destruct Ht as [-> | ->]; unfold task_slot in *; simpl in *; naive_solver.
Qed.

Lemma running_queue : exists l, rt_queue r = queue_of l /\ sched_rt r l /\ task ∉ l /\ (length l < 2)%nat.
Proof.
  destruct (ri_sched _ Hi) as (l & Hq & Hs). exists l. split_and!; [done|done|..].
  - rewrite (sched_rt_ready r l task Ht Hs). congruence.
  - eapply sched_rt_room; [done|done|]. rewrite (sched_rt_ready r l task Ht Hs). congruence.
Qed.
End Running.

Lemma dispatched_outcome by_task r task l :
  rt_inv r -> none_active r -> rt_queue r = queue_of (task :: l) ->
  rt_inv (dispatched task l r) /\ outcome_ok by_task (OutSwitch task) (dispatched task l r).
Proof.
  intros Hi Hna Hq. destruct (dispatch_next_ok r task l Hi Hna Hq) as [_ Hd].
  split; [done|].
  destruct (sched_rt_pop r l task (rt_inv_sched r _ Hi Hq) Hna) as (Ht & _).
  split; [done|]. by apply dispatched_running.
Qed.

Lemma snoc_head {A} (l : list A) x : exists y l', l ++ [x] = y :: l'.
Proof. destruct l; simpl; eauto. Qed.

(** ** Yield and exit *)

Section Cooperative.
Variables (r : Runtime) (task : Z).
Hypothesis Hi : rt_inv r.
Hypothesis Ht : valid_task task.
Hypothesis Hrun : ts_state (task_slot r task) = Running.

(** The running task is put at the back of the queue. *)
Definition requeued (l : list Z) : Runtime :=
  rt_set_queue (queue_of (l ++ [task])) (upd task (ts_set_state Ready) r).

Lemma requeued_inv l :
  rt_queue r = queue_of l -> rt_inv (requeued l) /\ none_active (requeued l).
Proof.
  intros Hq. pose proof (rt_inv_sched r l Hi Hq) as Hs. split.
  - apply rt_inv_set_plain; [done|done|by right; left|by left| |].
    + by apply running_table_live.
    + apply sched_rt_push; [done|done|congruence].
  - by apply leave_none_active.
Qed.

Lemma exit_inv :
  rt_inv (upd task (ts_set_state Exited) r) /\
  outcome_ok task (OutExit task) (upd task (ts_set_state Exited) r).
Proof.
  destruct (running_queue r task Hi Ht Hrun) as (l & Hq & Hs & _).
  pose proof (running_table_live r task Hi Ht Hrun) as HL. split.
  - replace (upd task (ts_set_state Exited) r)
      with (rt_set_queue (queue_of l) (upd task (ts_set_state Exited) r)).
    2: { rewrite <-Hq. unfold upd. destruct r. by destruct (task =? SENDER_TASK_ID). }
    apply rt_inv_set_plain; [done|done|by right; left|by right; right| |].
    + rewrite HL. by left.
    + apply sched_rt_other; [done|done|congruence|done|]. by left.
  - split; [done|]. rewrite task_slot_upd. simpl. done.
Qed.
End Cooperative.

Lemma yield_progress r task rdi rsi rdx :
  rt_inv r -> valid_task task -> ts_state (task_slot r task) = Running ->
  progresses task (yield_op task rdi rsi rdx) r.
Proof.
  intros Hi Ht Hrun. unfold yield_op.
  destruct (_ || _ || _); [by apply resume_with_progress|].
  set (r1 := upd task (slot_result StOk 0) r).
  assert (Hi1 : rt_inv r1) by (by apply rt_inv_result).
  assert (Hrun1 : ts_state (task_slot r1 task) = Running) by (unfold r1; by rewrite task_slot_upd).
  destruct (running_queue r1 task Hi1 Ht Hrun1) as (l & Hq & _ & Hnl & Hlen).
  destruct (requeued_inv r1 task Hi1 Ht Hrun1 l Hq) as [Hi2 Hna].
  destruct (snoc_head l task) as (next & l' & Hl).
  assert (Hq2 : rt_queue (requeued r1 task l) = queue_of (next :: l')) by (simpl; by rewrite Hl).
  exists (OutSwitch next), (dispatched next l' (requeued r1 task l)).
  split; [|by apply dispatched_outcome].
  rewrite (bindM_step _ _ _ _ _ (set_result_valid task StOk 0 r Ht)).
  rewrite (bindM_step _ _ _ _ _ (set_state_valid task Ready r1 Ht)).
  rewrite (bindM_step _ _ _ tt (requeued r1 task l)).
  2: { apply rt_queue_push_ok; [done| |done|done].
       rewrite <-Hq. unfold upd. by destruct (task =? SENDER_TASK_ID). }
  by rewrite (bindM_step _ _ _ _ _ (dispatch_some_ok _ next l' Hi2 Hna Hq2)).
Qed.

Lemma exit_progress r task a b c :
  rt_inv r -> valid_task task -> ts_state (task_slot r task) = Running ->
  progresses task (exit task a b c) r.
Proof.
  intros Hi Ht Hrun. unfold exit.
  destruct (_ || _ || _); [by apply resume_with_progress|].
  destruct (exit_inv r task Hi Ht Hrun) as [Hi' Ho].
  eexists _, _. split; [|done].
  rewrite (bindM_step _ _ _ _ _ (set_state_valid task Exited r Ht)).
  by rewrite (readM_step _ _ _ tt) by (by apply rt_inv_validate).
Qed.

(** ** Capability operations *)

Lemma on_capabilities_valid {E A} task (m : M CapabilityTable E A) r res t' :
  valid_task task -> m (ts_capabilities (task_slot r task)) = (res, t') ->
  on_capabilities task m r = (Ok res, upd task (ts_set_capabilities t') r).
Proof.
  intros Ht Hm. unfold on_capabilities.
  rewrite (read_slot_step r task _ Ht). rewrite Hm.
  by rewrite (bindM_step _ _ _ _ _ (slot_mut_valid task _ r Ht)).
Qed.

Lemma table_all_insert P t i s :
  table_all P t -> (forall e, cs_entry s = Some e -> P e) ->
  table_all P (ct_set_slots (<[i := s]> (ct_slots t)) t).
Proof. intros Ht Hs x e [-> | Hx]%elem_of_insert_list; [apply Hs|by apply Ht]. Qed.

Lemma table_all_close P t task generation raw res t' :
  table_all P t -> table_close task generation raw t = (res, t') -> table_all P t'.
Proof.
  intros Ht. unfold table_close. destruct (_ || _ || _); [by intros [= _ <-]|].
  destruct (handle_decode raw) as [[i g]|]; [|by intros [= _ <-]].
  destruct (cs_retired _ || _ || _); [by intros [= _ <-]|]. intros [= _ <-].
  apply table_all_insert; [done|]. by rewrite slot_remove_entry_none.
Qed.

Lemma table_all_duplicate P t task generation source requested res t' :
  table_wf t -> table_all P t ->
  (forall e, P e -> Z.land requested (not64 (ce_rights e)) = 0 -> P (ce_set_rights requested e)) ->
  table_duplicate task generation source requested t = (res, t') -> table_all P t'.
Proof.
  intros Hwf Ht HP. unfold table_duplicate, bindM, readM.
  destruct (table_resolve_typed _ _ _ _ _ _) as [e|] eqn:Hr; [|by intros [= _ <-]].
  destruct (_ || _) eqn:E; [by intros [= _ <-]|]. b2p. destruct E as [_ Hsub].
  destruct (table_allocate _ t) as [[h|]t0] eqn:Ha; intros [= _ <-].
  - apply table_allocate_ok in Ha as (i & Hi & _ & _ & _ & ->); [|done].
    apply table_all_insert; [done|]. simpl. intros e' [= <-]. apply HP; [|done].
    apply resolve_typed_iff in Hr as (_ & _ & _ & Hau & _). unfold authority in Hau.
    destruct (handle_decode source) as [[j g]|] eqn:Hd; [|done].
    destruct (_ || _); [done|]. eapply Ht; [|exact Hau].
    by apply slot_at_elem; [|eapply handle_decode_bounds].
  - by apply table_allocate_err in Ha as [-> _].
Qed.

Lemma no_receive_sub requested e :
  no_receive e -> Z.land requested (not64 (ce_rights e)) = 0 ->
  no_receive (ce_set_rights requested e).
Proof.
  unfold no_receive. simpl. change CAPABILITY_RIGHT_RECEIVE with (2 ^ 1).
  intros Hn Hs. apply Z.bits_inj'. intros i Hi. rewrite Z.land_spec, Z.bits_0.
  destruct (decide (i = 1)) as [->|Hne]; [|by rewrite (Z.pow2_bits_false 1 i), andb_false_r by lia].
  apply (f_equal (fun z => Z.testbit z 1)) in Hn, Hs. unfold not64 in Hs.
  rewrite Z.land_spec, Z.bits_0 in Hn, Hs. rewrite Z.lxor_spec in Hs.
  change (Z.testbit U64_MAX 1) with true in Hs. change (Z.testbit (2 ^ 1) 1) with true in *.
  destruct (Z.testbit requested 1), (Z.testbit (ce_rights e) 1); done.
Qed.

(** Replacing the live table of a task by one with the same owner. *)
Lemma rt_inv_caps r task t' :
  rt_inv r -> valid_task task ->
  ct_state (ts_capabilities (task_slot r task)) = TableLive ->
  table_wf t' -> ct_state t' = TableLive ->
  ct_task_id t' = ct_task_id (ts_capabilities (task_slot r task)) ->
  ct_task_generation t' = ct_task_generation (ts_capabilities (task_slot r task)) ->
  (rt_profile r = Cooperative -> task = 1 -> table_all no_receive t') ->
  rt_inv (upd task (ts_set_capabilities t') r).
Proof.
  intros Hi Ht HL Hwf HL' Hid Hgen Hnr.
  pose proof (rt_inv_slot r task Ht Hi) as [Sid Swf Sst Sl Sd].
  assert (Hsl : slot_inv task (ts_set_capabilities t' (task_slot r task))).
  { split; simpl; try done; [congruence|]. rewrite Hid, Hgen. done. }
  destruct Hi as [I0 I1 (l & Hq & Hs) Hp]. split.
  - destruct Ht as [-> | ->]; done.
  - destruct Ht as [-> | ->]; done.
  - exists l. split; destruct Ht as [-> | ->]; try done.
    all: by eapply sched_inv_state; [| |done].
  - unfold profile_inv in *. unfold upd, task_slot in *.
    destruct (rt_profile r) eqn:Hprof; destruct Ht as [-> | ->]; simpl in *; rewrite Hprof.
    + destruct Hp as [? ? ? ? ? ? [? ? ? ? ? ? ? ?]]. split; simpl; auto.
      rewrite HL in *. split; simpl; rewrite ?HL'; done.
    + destruct Hp as [? ? ? ? ? ? [? ? ? ? ? ? ? ?]]. split; simpl; auto.
      rewrite HL in *. split; simpl; rewrite ?HL'; done.
    + destruct Hp as [? ? ? ? ? ? ? ? ?]. rewrite HL in *.
      split; simpl; rewrite ?HL'; done.
    + destruct Hp as [? ? ? ? ? ? ? ? ?]. rewrite HL in *.
      split; simpl; rewrite ?HL'; try done.
      intros Hst. rewrite Hst in Sst. simpl in Sst. congruence.
Qed.

(** After a capability operation the registers are written. *)
Lemma caps_result_progress r task t' status value :
  rt_inv (upd task (ts_set_capabilities t') r) -> valid_task task ->
  ts_state (task_slot r task) = Running ->
  rt_inv (upd task (slot_result status value) (upd task (ts_set_capabilities t') r)) /\
  outcome_ok task (OutResume task)
    (upd task (slot_result status value) (upd task (ts_set_capabilities t') r)).
Proof.
  intros Hi Ht Hrun. apply result_progress; [done|done|]. by rewrite task_slot_upd.
Qed.

Lemma duplicate_progress r task source requested reserved :
  rt_inv r -> valid_task task -> ts_state (task_slot r task) = Running ->
  progresses task (duplicate task source requested reserved) r.
Proof.
  intros Hi Ht Hrun. unfold duplicate.
  destruct (negb (reserved =? 0)); [by apply resume_with_progress|].
  pose proof (running_table_live r task Hi Ht Hrun) as HL.
  pose proof (si_table _ _ (rt_inv_slot r task Ht Hi)) as Hwf.
  destruct (table_duplicate task (ts_generation (task_slot r task)) source requested
              (ts_capabilities (task_slot r task))) as [res t'] eqn:Hd.
  destruct (table_duplicate_state _ _ _ _ _ _ _ Hd) as (Hs & Hid & Hg).
  assert (Hi' : rt_inv (upd task (ts_set_capabilities t') r)).
  { apply rt_inv_caps; try done; [by eapply table_duplicate_wf|congruence|].
    intros Hp ->. eapply table_all_duplicate; [exact Hwf| |apply no_receive_sub|exact Hd].
    pose proof (ri_profile _ Hi) as Hpr. unfold profile_inv in Hpr. rewrite Hp in Hpr. apply Hpr. }
  set (fin := match res with Ok handle => slot_result StOk handle | Err st => slot_result st 0 end).
  exists (OutResume task), (upd task fin (upd task (ts_set_capabilities t') r)).
  split; [|destruct res; by apply caps_result_progress].
  rewrite (read_slot_step r task _ Ht).
  rewrite (bindM_step _ _ _ _ _ (on_capabilities_valid _ _ _ _ _ Ht Hd)).
  rewrite (bindM_step _ _ _ tt (upd task fin (upd task (ts_set_capabilities t') r))).
  2: { destruct res; by apply set_result_valid. }
  rewrite (readM_step _ _ _ tt); [done|]. apply rt_inv_validate. destruct res; by apply rt_inv_result.
Qed.

Lemma close_progress r task handle a b :
  rt_inv r -> valid_task task -> ts_state (task_slot r task) = Running ->
  progresses task (close task handle a b) r.
Proof.
  intros Hi Ht Hrun. unfold close.
  destruct (_ || _); [by apply resume_with_progress|].
  pose proof (running_table_live r task Hi Ht Hrun) as HL.
  pose proof (si_table _ _ (rt_inv_slot r task Ht Hi)) as Hwf.
  destruct (table_close task (ts_generation (task_slot r task)) handle
              (ts_capabilities (task_slot r task))) as [res t'] eqn:Hc.
  destruct (table_close_state _ _ _ _ _ _ Hc) as (Hs & Hid & Hg).
  assert (Hi' : rt_inv (upd task (ts_set_capabilities t') r)).
  { apply rt_inv_caps; try done; [by eapply table_close_wf|congruence|].
    intros Hp ->. eapply table_all_close; [|exact Hc].
    pose proof (ri_profile _ Hi) as Hpr. unfold profile_inv in Hpr. rewrite Hp in Hpr. apply Hpr. }
  unfold progresses. rewrite (read_slot_step r task _ Ht).
  rewrite (bindM_step _ _ _ _ _ (on_capabilities_valid _ _ _ _ _ Ht Hc)).
  apply resume_validated_progress; [done|done|]. by rewrite task_slot_upd.
Qed.

(** ** Messages *)

Lemma rt_inv_profile_coop r : rt_inv r -> rt_profile r = Cooperative -> coop_inv r.
Proof. intros Hi Hp. pose proof (ri_profile _ Hi) as H. unfold profile_inv in H. by rewrite Hp in H. Qed.

Lemma rt_inv_profile_sup r : rt_inv r -> rt_profile r = Supervised -> sup_inv r.
Proof. intros Hi Hp. pose proof (ri_profile _ Hi) as H. unfold profile_inv in H. by rewrite Hp in H. Qed.

(** Endpoint operations only ever succeed in the cooperative profile. *)
Lemma resolve_endpoint_coop r task handle right :
  rt_inv r -> resolve_endpoint r task handle right = Ok tt -> rt_profile r = Cooperative.
Proof.
  intros Hi H. destruct (rt_profile r) eqn:Hp; [done|exfalso].
  pose proof (su_endpoint _ (rt_inv_profile_sup r Hi Hp)) as He.
  unfold resolve_endpoint in H. rewrite He in H.
  destruct (map_err _ _); [|done]. destruct (table_resolve _ _ _ _ _); [|done].
  by rewrite orb_true_r in H.
Qed.

Lemma authority_table_all P t raw e :
  table_wf t -> table_all P t -> authority t raw = Some e -> P e.
Proof.
  intros Hwf Hall. unfold authority.
  destruct (handle_decode raw) as [[i g]|] eqn:Hd; [|done].
  destruct (_ || _); [done|]. intros He. eapply Hall; [|exact He].
  by apply slot_at_elem; [|eapply handle_decode_bounds].
Qed.

(** The sender cannot receive. *)
Lemma sender_cannot_receive r handle :
  rt_inv r -> resolve_endpoint r 1 handle CAPABILITY_RIGHT_RECEIVE <> Ok tt.
Proof.
  intros Hi H. pose proof (resolve_endpoint_coop _ _ _ _ Hi H) as Hp.
  unfold resolve_endpoint in H. rewrite slot_valid in H by (by left). simpl in H.
  destruct (table_resolve _ _ _ _ _) as [e|] eqn:Hr; [|done].
  apply resolve_typed_iff in Hr as (_ & _ & _ & Hau & _ & _ & _ & Hright).
  apply Hright. eapply (authority_table_all no_receive); [|apply (co_sender _ (rt_inv_profile_coop r Hi Hp))|exact Hau].
  apply (si_table _ _ (ri_slot0 _ Hi)).
Qed.

Lemma rt_inv_message r occupied payload :
  rt_inv r -> rt_profile r = Cooperative ->
  ts_state (rt_task0 r) <> TaskDead \/ ts_state (rt_task1 r) <> TaskDead ->
  (occupied = false -> payload = 0) ->
  (occupied = true ->
     ct_state (ts_capabilities (rt_task1 r)) = TableLive /\ ts_state (rt_task1 r) <> BlockedReceive) ->
  rt_inv (rt_set_endpoint (endpoint_set_message occupied payload (rt_endpoint r)) r).
Proof.
  intros Hi Hp Halive Hem Hocc. pose proof (rt_inv_profile_coop r Hi Hp) as [? ? ? ? ? ? He].
  destruct Hi as [I0 I1 Is _]. split; [done|done|done|].
  unfold profile_inv. simpl. rewrite Hp. split; simpl; try done.
  destruct He as [Hd ? ? ? ? Hrg ? Hbl]. split; simpl; try done.
  - intros Hd0 Hd1. naive_solver.
  - intros Hn. destruct (Hrg Hn) as (? & ? & ?). split_and!; try done.
    destruct occupied; [|done]. by destruct (Hocc eq_refl).
  - intros Hb. split; [|by apply Hbl]. destruct occupied; [|done]. by destruct (Hocc eq_refl).
Qed.

(** A receiver blocked on an empty endpoint becomes ready. *)
Lemma rt_inv_wake_receiver r l :
  rt_inv r -> rt_profile r = Cooperative -> rt_queue r = queue_of l ->
  ts_state (rt_task1 r) = BlockedReceive ->
  rt_inv (rt_set_queue (queue_of (l ++ [2])) (upd 2 (ts_set_state Ready) r)) /\
  rt_queue_push 2 (upd 2 (ts_set_state Ready) r) =
    (Ok tt, rt_set_queue (queue_of (l ++ [2])) (upd 2 (ts_set_state Ready) r)).
Proof.
  intros Hi Hp Hq Hb. pose proof (rt_inv_profile_coop r Hi Hp) as [? ? ? ? ? ? He].
  pose proof (rt_inv_sched r l Hi Hq) as Hs.
  assert (Hn : 2 ∉ l) by (rewrite (sc_ready1 _ _ _ Hs); congruence).
  split.
  2: { apply rt_queue_push_ok; [by right|done|done|]. by eapply (sched_rt_room r l 2); [right|..]. }
  destruct Hi as [I0 I1 _ _]. split; simpl; [done|..].
  - apply slot_inv_set_state; [done|congruence|done|].
    pose proof (si_table_state _ _ I1) as Hts. by rewrite Hb in Hts.
  - exists (l ++ [2]). split; [done|]. apply (sched_rt_push r l 2); [by right|done|].
    change (task_slot r 2) with (rt_task1 r). congruence.
  - unfold profile_inv. simpl. rewrite Hp. split; simpl; try done.
    apply endpoint_inv_set_state1; [congruence|done|done|done].
Qed.

Lemma coop_alive r task :
  valid_task task -> ts_state (task_slot r task) = Running ->
  ts_state (rt_task0 r) <> TaskDead \/ ts_state (rt_task1 r) <> TaskDead.
Proof. intros [-> | ->] Hr; unfold task_slot in Hr; simpl in Hr; [left|right]; congruence. Qed.

(** Delivery to a blocked receiver. *)
Definition delivered (message : Z) (l : list Z) (r : Runtime) : Runtime :=
  rt_set_queue (queue_of (l ++ [2]))
    (upd 2 (ts_set_state Ready)
       (upd 2 (slot_result StOk message)
          (rt_set_endpoint (endpoint_set_message false 0 (rt_endpoint r)) r))).

Lemma delivered_inv message l r :
  rt_inv r -> rt_profile r = Cooperative -> rt_queue r = queue_of l ->
  ts_state (rt_task1 r) = BlockedReceive ->
  rt_inv (delivered message l r) /\
  rt_queue_push 2
    (upd 2 (ts_set_state Ready)
       (upd 2 (slot_result StOk message)
          (rt_set_endpoint (endpoint_set_message false 0 (rt_endpoint r)) r)))
  = (Ok tt, delivered message l r).
Proof.
  intros Hi Hp Hq Hb. apply rt_inv_wake_receiver; [|done|done|done].
  apply rt_inv_result, rt_inv_message; try done. right. congruence.
Qed.

(** Why a send is refused. *)
Definition send_refusal (r : Runtime) (task handle reserved : Z) : option TrapStatus :=
  if negb (reserved =? 0) then Some InvalidOperation
  else
    match resolve_endpoint r task handle CAPABILITY_RIGHT_SEND with
    | Err status => Some status
    | Ok _ =>
        if ep_receiver_generation (rt_endpoint r) =? 0 then Some PeerExited
        else if ep_occupied (rt_endpoint r) then Some SlotFull else None
    end.

(** The state after an accepted send, before the sender's registers are
    written: the message is handed to a blocked receiver or parked. *)
Definition sent_state (message : Z) (l : list Z) (r : Runtime) : Runtime :=
  if is_state BlockedReceive (rt_task1 r) then delivered message l r
  else rt_set_endpoint (endpoint_set_message true message (rt_endpoint r)) r.

Lemma send_refusal_None r task handle reserved :
  send_refusal r task handle reserved = None ->
  resolve_endpoint r task handle CAPABILITY_RIGHT_SEND = Ok tt /\
  ep_receiver_generation (rt_endpoint r) <> 0 /\ ep_occupied (rt_endpoint r) = false.
Proof.
  unfold send_refusal. intros H. head_if_in H E; [done|].
  destruct (resolve_endpoint _ _ _ _) as [[]|]; [|done].
  head_if_in H E1; [done|]. head_if_in H E2; [done|]. by b2p.
Qed.

Lemma sent_state_inv r task handle reserved message l :
  rt_inv r -> valid_task task -> ts_state (task_slot r task) = Running ->
  rt_queue r = queue_of l -> send_refusal r task handle reserved = None ->
  rt_inv (sent_state message l r) /\
  ts_state (task_slot (sent_state message l r) task) = Running.
Proof.
  intros Hi Ht Hrun Hq Hs. apply send_refusal_None in Hs as (Hres & Hrg & Hocc).
  pose proof (resolve_endpoint_coop _ _ _ _ Hi Hres) as Hp.
  pose proof (rt_inv_profile_coop r Hi Hp) as Hco. unfold sent_state.
  destruct (is_state BlockedReceive (rt_task1 r)) eqn:Hbl.
  - apply is_state_true in Hbl. split; [by apply delivered_inv|].
    destruct Ht as [-> | ->]; [done|].
    change (task_slot r 2) with (rt_task1 r) in Hrun. congruence.
  - split; [|by destruct Ht as [-> | ->]].
    apply rt_inv_message; [done|done|by eapply coop_alive|done|]. intros _.
    split; [|by apply is_state_false].
    destruct (decide (ct_state (ts_capabilities (rt_task1 r)) = TableLive)) as [|Hn]; [done|].
    by destruct (en_receiver_gone _ _ _ (co_endpoint _ Hco) Hn) as (_ & Hz & _).
Qed.

Lemma send_eq r task handle message reserved l :
  rt_inv r -> valid_task task -> ts_state (task_slot r task) = Running ->
  rt_queue r = queue_of l ->
  send task handle message reserved r =
  (Ok (OutResume task),
   match send_refusal r task handle reserved with
   | Some status => upd task (slot_result status 0) r
   | None => upd task (slot_result StOk 0) (sent_state message l r)
   end).
Proof.
  intros Hi Ht Hrun Hq. destruct (send_refusal r task handle reserved) eqn:Hs.
  - unfold send. unfold bindM at 1, getM. unfold send_refusal in Hs.
    destruct (negb (reserved =? 0)); [|destruct (resolve_endpoint _ _ _ _);
      [destruct (_ =? 0); [|destruct (ep_occupied _)]|]]; try done;
      injection Hs as <-; by apply resume_validated_ok.
  - pose proof (sent_state_inv r task handle reserved message l Hi Ht Hrun Hq Hs) as [Hi' _].
    pose proof (send_refusal_None _ _ _ _ Hs) as (Hres & Hrg & Hocc).
    unfold send. unfold bindM at 1, getM. unfold send_refusal in Hs.
    destruct (negb (reserved =? 0)); [done|]. rewrite Hres, Hocc, (proj2 (Z.eqb_neq _ _) Hrg).
    rewrite (bindM_step _ _ _ StOk (sent_state message l r)); [by apply resume_validated_ok|].
    set (r1 := rt_set_endpoint (endpoint_set_message true message (rt_endpoint r)) r).
    rewrite (bindM_step _ _ _ tt r1) by done.
    rewrite (read_slot_step r1 RECEIVER_TASK_ID) by (by right).
    change (task_slot r1 RECEIVER_TASK_ID) with (rt_task1 r). unfold sent_state.
    destruct (is_state BlockedReceive (rt_task1 r)) eqn:Hbl; [|done].
    apply is_state_true in Hbl. pose proof (resolve_endpoint_coop _ _ _ _ Hi Hres) as Hp.
    rewrite (bindM_step _ _ _ tt (delivered message l r)); [done|].
    exact (proj2 (delivered_inv message l r Hi Hp Hq Hbl)).
Qed.

Lemma send_progress r task handle message reserved :
  rt_inv r -> valid_task task -> ts_state (task_slot r task) = Running ->
  progresses task (send task handle message reserved) r.
Proof.
  intros Hi Ht Hrun. destruct (ri_sched _ Hi) as (l & Hq & _).
  eexists _, _. split; [by apply send_eq|].
  destruct (send_refusal r task handle reserved) eqn:Hs; [by apply result_progress|].
  destruct (sent_state_inv r task handle reserved message l Hi Ht Hrun Hq Hs).
  by apply result_progress.
Qed.

Lemma sched_only_first r l :
  sched_rt r l -> ts_state (rt_task0 r) = Ready -> ts_state (rt_task1 r) <> Ready -> l = [1].
Proof.
  intros Hs H0 H1. pose proof (proj2 (sc_ready0 _ _ _ Hs) H0) as Hin.
  assert (Hn : 2 ∉ l) by (rewrite (sc_ready1 _ _ _ Hs); done).
  destruct (sched_shape _ _ _ Hs) as [->|[->|[->|[->| ->]]]]; set_solver.
Qed.

(** The running second task blocks and the first one is dispatched. *)
Lemma block_and_dispatch by_task r st :
  rt_inv (upd 2 (ts_set_state st) r) -> none_active (upd 2 (ts_set_state st) r) ->
  ts_state (rt_task0 r) = Ready -> st <> Ready ->
  dispatch_some (upd 2 (ts_set_state st) r) =
    (Ok 1, dispatched 1 [] (upd 2 (ts_set_state st) r)) /\
  rt_inv (dispatched 1 [] (upd 2 (ts_set_state st) r)) /\
  outcome_ok by_task (OutSwitch 1) (dispatched 1 [] (upd 2 (ts_set_state st) r)).
Proof.
  intros Hi Hna H0 Hst. destruct (ri_sched _ Hi) as (l & Hq & Hs).
  apply sched_only_first in Hs as ->; [|done..].
  split; [by apply dispatch_some_ok|by apply dispatched_outcome].
Qed.

Lemma rt_inv_block_receiver r :
  rt_inv r -> rt_profile r = Cooperative -> ts_state (rt_task1 r) = Running ->
  ep_occupied (rt_endpoint r) = false -> ep_sender_generation (rt_endpoint r) <> 0 ->
  rt_inv (upd 2 (ts_set_state BlockedReceive) r) /\ ts_state (rt_task0 r) = Ready.
Proof.
  intros Hi Hp Hrun Hocc Hsg.
  pose proof (rt_inv_profile_coop r Hi Hp) as [? ? ? Hs0 ? ? He].
  assert (HL : ct_state (ts_capabilities (rt_task0 r)) = TableLive).
  { destruct (decide (ct_state (ts_capabilities (rt_task0 r)) = TableLive)) as [|Hn]; [done|].
    by destruct (en_sender_gone _ _ _ He Hn) as (_ & ?). }
  destruct (ri_sched _ Hi) as (l & Hq & Hs).
  destruct Hi as [I0 I1 _ _]. split.
  - split; simpl; [done|..].
    + apply slot_inv_set_state; [done|congruence|done|].
      pose proof (si_table_state _ _ I1) as Hts. by rewrite Hrun in Hts.
    + exists l. split; [done|]. apply (sched_rt_other r l 2); [by right|done|..].
      * change (task_slot r 2) with (rt_task1 r). congruence.
      * done.
      * by intros [?|?].
    + unfold profile_inv. simpl. rewrite Hp. split; simpl; try done.
      destruct He as [? Hg ? ? ? ? ? ?]. split; simpl; try done.
      intros _. apply Hg. right. congruence.
  - pose proof (si_table_state _ _ I0) as Hts. pose proof (sc_active _ _ _ Hs) as Ha.
    unfold active in Ha. rewrite HL in Hts.
    destruct (ts_state (rt_task0 r)); simpl in *; try done; naive_solver.
Qed.

(** Why a receive is refused. *)
Definition receive_refusal (r : Runtime) (task handle reserved_message reserved : Z)
    : option TrapStatus :=
  if negb (reserved_message =? 0) || negb (reserved =? 0) then Some InvalidOperation
  else
    match resolve_endpoint r task handle CAPABILITY_RIGHT_RECEIVE with
    | Err status => Some status
    | Ok _ =>
        if ep_occupied (rt_endpoint r) then None
        else if ep_sender_generation (rt_endpoint r) =? 0 then Some PeerExited else None
    end.

(** The state after the parked message was taken. *)
Definition taken_state (r : Runtime) : Runtime :=
  upd 2 (slot_result StOk (ep_payload (rt_endpoint r)))
    (rt_set_endpoint (endpoint_set_message false 0 (rt_endpoint r)) r).

(** The state after the receiver blocked and the sender was dispatched. *)
Definition blocked_state (r : Runtime) : Runtime :=
  dispatched 1 [] (upd 2 (ts_set_state BlockedReceive) r).

Lemma receive_eq r task handle a b :
  rt_inv r -> valid_task task -> ts_state (task_slot r task) = Running ->
  match receive_refusal r task handle a b with
  | Some status =>
      receive task handle a b r =
        (Ok (OutResume task), upd task (slot_result status 0) r)
  | None =>
      task = 2 /\ rt_profile r = Cooperative /\
      if ep_occupied (rt_endpoint r)
      then receive task handle a b r = (Ok (OutResume 2), taken_state r) /\ rt_inv (taken_state r)
      else receive task handle a b r = (Ok (OutSwitch 1), blocked_state r) /\
           rt_inv (blocked_state r) /\ outcome_ok 2 (OutSwitch 1) (blocked_state r)
  end.
Proof.
  intros Hi Ht Hrun. unfold receive, receive_refusal. rewrite !getM_step.
  destruct (_ || _); [by apply resume_with_ok|].
  destruct (resolve_endpoint r task handle CAPABILITY_RIGHT_RECEIVE) as [[]|] eqn:Hres;
    [|by apply resume_with_ok].
  cbn [err].
  assert (task = 2) as ->.
  { destruct Ht as [-> | ->]; [|done]. by apply sender_cannot_receive in Hres. }
  pose proof (resolve_endpoint_coop _ _ _ _ Hi Hres) as Hp.
  pose proof (rt_inv_profile_coop r Hi Hp) as Hco.
  destruct (ep_occupied (rt_endpoint r)) eqn:Hocc.
  - assert (Hi' : rt_inv (taken_state r)).
    { apply rt_inv_result, rt_inv_message; try done. by eapply coop_alive. }
    split; [done|]. split; [done|]. split; [|done].
    rewrite (bindM_step _ _ _ tt (rt_set_endpoint (endpoint_set_message false 0 (rt_endpoint r)) r)) by done.
    rewrite (bindM_step _ _ _ _ _ (set_result_valid 2 StOk _ _ (or_intror eq_refl))).
    by rewrite (readM_step _ _ _ tt) by (by apply rt_inv_validate).
  - destruct (ep_sender_generation (rt_endpoint r) =? 0) eqn:Hsg; [by apply resume_with_ok|].
    b2p. destruct (rt_inv_block_receiver r Hi Hp Hrun Hocc Hsg) as [Hi' H0].
    destruct (block_and_dispatch 2 r BlockedReceive Hi') as (Hd & Hi2 & Ho);
      [by apply leave_none_active|done|done|].
    split; [done|]. split; [done|]. split; [|done].
    rewrite (bindM_step _ _ _ _ _ (set_state_valid 2 BlockedReceive r Ht)).
    rewrite (bindM_step _ _ _ _ _ Hd).
    by rewrite (readM_step _ _ _ tt) by (by apply rt_inv_validate).
Qed.

Lemma receive_progress r task handle a b :
  rt_inv r -> valid_task task -> ts_state (task_slot r task) = Running ->
  progresses task (receive task handle a b) r.
Proof.
  intros Hi Ht Hrun. pose proof (receive_eq r task handle a b Hi Ht Hrun) as H.
  destruct (receive_refusal r task handle a b).
  - eexists _, _. split; [exact H|]. by apply result_progress.
  - destruct H as (-> & _ & H). destruct (ep_occupied (rt_endpoint r)).
    + destruct H as [H Hi']. eexists _, _. split; [exact H|]. split; [done|].
      split; [done|]. split; [by right|done].
    + destruct H as (H & Hi' & Ho). eexists _, _. split; [exact H|done].
Qed.
