(* ===== verification/SupervisedProgress.v ===== *)
(** * Supervised operations always complete

    Launching the workload, submitting, inspecting and deciding an approval and
    committing the effect: from every state of the invariant each returns [Ok]
    to the running task and keeps the invariant. *)

From S2P Require Import Prelude RuntimeTypes Capability CapabilityProofs Runtime RuntimeOps.
From S2P Require Import RuntimeInv RuntimeProgress.

Lemma resolve_object_generation r task handle ty right id g :
  resolve_object r task handle ty right id g = Ok tt -> g <> 0.
Proof.
  unfold resolve_object. intros H. destruct (map_err _ _); [|done].
  destruct (table_resolve_typed _ _ _ _ _ _); [|done].
  destruct (_ || _ || _) eqn:E; [done|]. b2p; tauto.
Qed.

(** ** Launch *)

Definition route_installed : CapabilityTable :=
  snd (table_install_object_building OBJECT_TYPE_APPROVAL_BROKER
         (mkObjectReference APPROVAL_BROKER_OBJECT_ID FIXED_OBJECT_GENERATION)
         CAPABILITY_RIGHT_SUBMIT_APPROVAL
         (table_building RECEIVER_TASK_ID WORKLOAD_GENERATION)).

Definition launched_table : CapabilityTable := ct_set_state TableLive route_installed.

Lemma launched_table_wf : table_wf launched_table.
Proof. apply table_wfb_wf. by vm_compute. Qed.

Lemma install_routes_staged r :
  ts_capabilities (rt_task1 r) = table_building RECEIVER_TASK_ID WORKLOAD_GENERATION ->
  install_routes (take (Z.to_nat (lm_route_count REGISTERED_LAUNCH_MANIFEST))
                       (lm_routes REGISTERED_LAUNCH_MANIFEST)) r
  = (Ok true, upd 2 (ts_set_capabilities route_installed) r).
Proof.
  intros Hc. simpl take. unfold install_routes.
  rewrite (bindM_step _ _ _ (Ok 16) (upd 2 (ts_set_capabilities route_installed) r)); [done|].
  apply on_capabilities_valid; [by right|].
  change (task_slot r 2) with (rt_task1 r).
  change (ts_capabilities (task_slot r RECEIVER_TASK_ID)) with (ts_capabilities (rt_task1 r)).
  rewrite Hc. by vm_compute.
Qed.

Lemma publish_staged r :
  on_capabilities RECEIVER_TASK_ID table_publish (upd 2 (ts_set_capabilities route_installed) r)
  = (Ok (Ok tt), upd 2 (ts_set_capabilities launched_table) r).
Proof. done. Qed.

(** The state after a launch, before the supervisor's registers are written. *)
Definition launched (l : list Z) (r : Runtime) : Runtime :=
  rt_set_queue (queue_of (l ++ [2]))
    (upd 2 (ts_set_state Ready)
       (rt_set_manifest ManifestPublication_registered
          (upd 2 (ts_set_capabilities launched_table) r))).

Lemma launched_inv l r :
  rt_inv r -> rt_profile r = Supervised -> rt_queue r = queue_of l ->
  ts_state (rt_task1 r) = Staged ->
  rt_inv (launched l r) /\ 2 ∉ l /\ (length l < 2)%nat.
Proof.
  intros Hi Hp Hq Hst. pose proof (rt_inv_profile_sup r Hi Hp) as Hsu.
  pose proof (rt_inv_sched r l Hi Hq) as Hs.
  assert (Hn : 2 ∉ l) by (rewrite (sc_ready1 _ _ _ Hs); congruence).
  split; [|split; [done|by eapply (sched_rt_room r l 2); [right|..]]].
  destruct Hi as [I0 I1 _ _].
  destruct (si_live _ _ I1) as (Hg & Ht & Hcg & Hr & _ & _); [congruence|].
  pose proof (su_gen1 _ Hsu) as Hg1. rewrite Hst in Hg1. specialize (Hg1 ltac:(done)).
  split; [done|..].
  - split; simpl; try done; [apply I1|apply launched_table_wf].
  - exists (l ++ [2]). split; [done|]. change (sched_rt (launched l r) (l ++ [2])).
    eapply (sched_inv_state (rt_task0 (upd 2 (ts_set_state Ready) r))
                            (rt_task1 (upd 2 (ts_set_state Ready) r))); [done|done|].
    apply sched_rt_push; [by right|done|].
    change (task_slot r 2) with (rt_task1 r). congruence.
  - unfold profile_inv. simpl. rewrite Hp.
    destruct Hsu as [? ? ? ? ? ? ? Hb ?]. split; simpl; try done.
    assert (Hw : is_state BlockedApproval (rt_task1 r) = false) by (apply is_state_false; congruence).
    rewrite Hw in Hb. unfold is_state. simpl.
    destruct (ct_state (ts_capabilities (rt_task0 r))); naive_solver.
Qed.

Lemma start_status_None r task handle id reserved :
  start_status r task handle id reserved = None ->
  rt_profile r = Supervised /\ ts_state (rt_task1 r) = Staged.
Proof.
  unfold start_status. intros H. destruct (negb (reserved =? 0)); [done|].
  destruct (bool_decide (rt_profile r = Supervised)) eqn:Hp; [|done]. simpl in H.
  destruct (resolve_object _ _ _ _ _ _ _); [|done].
  destruct (negb (id =? _)); [done|].
  destruct (is_state Staged (rt_task1 r)) eqn:Hst; [|done]. by b2p.
Qed.

Lemma start_workload_ok r handle id reserved l :
  rt_inv r -> rt_queue r = queue_of l -> start_status r 1 handle id reserved = None ->
  start_workload 1 handle id reserved r =
    (Ok (OutResume 1), upd 1 (slot_result StOk 0) (launched l r)).
Proof.
  intros Hi Hq Hs. unfold start_workload, start_workload_with_failure.
  unfold bindM at 1, getM. cbv zeta. rewrite Hs.
  apply start_status_None in Hs as [Hp Hst].
  destruct (launched_inv l r Hi Hp Hq Hst) as (Hi' & Hn & Hlen).
  pose proof (su_staged _ (rt_inv_profile_sup r Hi Hp) Hst) as Hcaps.
  change (fails_before None 0) with false. cbv iota.
  rewrite (bindM_step _ _ _ _ _ (install_routes_staged r Hcaps)).
  change (fails_before None 1) with false. cbn [negb].
  rewrite (bindM_step _ _ _ _ _ (publish_staged r)).
  change (is_err (Ok tt)) with false. change (fails_before None 2) with false. cbv iota.
  rewrite (bindM_step _ _ _ tt (rt_set_manifest ManifestPublication_registered
             (upd 2 (ts_set_capabilities launched_table) r))) by done.
  rewrite (bindM_step _ _ _ _ _ (set_state_valid 2 Ready _ (or_intror eq_refl))).
  change (fails_before None 3) with false. cbv iota.
  rewrite (bindM_step _ _ _ tt (launched l r)).
  2: { apply rt_queue_push_ok; [by right|exact Hq|done|done]. }
  rewrite (bindM_step _ _ _ _ _ (set_result_valid 1 StOk 0 _ (or_introl eq_refl))).
  by rewrite (readM_step _ _ _ tt) by (by apply rt_inv_validate, rt_inv_result).
Qed.

Lemma start_progress r task handle id reserved :
  rt_inv r -> valid_task task -> ts_state (task_slot r task) = Running ->
  progresses task (start_workload task handle id reserved) r.
Proof.
  intros Hi Ht Hrun.
  destruct (start_status r task handle id reserved) as [status|] eqn:Hs.
  { unfold start_workload, start_workload_with_failure, progresses.
    unfold bindM at 1, getM. cbv zeta. rewrite Hs.
    rewrite (bindM_step _ _ _ tt r) by done. by apply resume_with_progress. }
  pose proof (start_status_None _ _ _ _ _ Hs) as [Hp Hst].
  assert (task = 1) as ->.
  { destruct Ht as [-> | ->]; [done|].
    change (task_slot r 2) with (rt_task1 r) in Hrun. congruence. }
  destruct (ri_sched _ Hi) as (l & Hq & _).
  eexists _, _. split; [by eapply start_workload_ok|].
  destruct (launched_inv l r Hi Hp Hq Hst) as (Hi' & _). by apply result_progress.
Qed.

(** ** The supervisor is ready or running while the broker serves *)

Lemma supervisor_live_cases r :
  rt_inv r -> rt_profile r = Supervised ->
  ct_state (ts_capabilities (rt_task0 r)) = TableLive ->
  ts_state (rt_task0 r) = Ready \/ ts_state (rt_task0 r) = Running \/ ts_state (rt_task0 r) = Exited.
Proof.
  intros Hi Hp HL. pose proof (su_state0 _ (rt_inv_profile_sup r Hi Hp)) as Hs.
  pose proof (si_table_state _ _ (ri_slot0 _ Hi)) as Hts. rewrite HL in Hts.
  destruct (ts_state (rt_task0 r)); simpl in *; auto; done.
Qed.

(** ** Submission *)

Lemma submit_status_None r task handle kind :
  rt_inv r -> submit_status r task handle kind = None ->
  rt_profile r = Supervised /\ ab_state (rt_broker r) = BrokerEmpty /\
  ab_decision_epoch (rt_broker r) <> U64_MAX /\ ab_sequence_exhausted (rt_broker r) = false /\
  kind = APPROVAL_REQUEST_KIND_COMMIT_SYNTHETIC_VALUE /\ task = 2 /\
  ct_state (ts_capabilities (rt_task0 r)) = TableLive.
Proof.
  intros Hi. unfold submit_status. intros H.
  destruct (bool_decide (rt_profile r = Supervised)) eqn:Hp; [|done]. simpl in H.
  destruct (resolve_object _ _ _ _ _ _ _) eqn:Hres; [|done].
  head_if_in H E1; [done|]. head_if_in H E2; [done|]. head_if_in H E3; [done|].
  unfold broker_is in *. b2p.
  pose proof (su_broker _ (rt_inv_profile_sup r Hi Hp)) as Hb.
  split_hyps.
  assert (Hbs : ab_state (rt_broker r) = BrokerEmpty) by (destruct (ab_state (rt_broker r)); naive_solver).
  split_and!; try done.
  destruct (ct_state (ts_capabilities (rt_task0 r))); [done|done|..].
  - destruct Hb as (_ & ? & _). congruence.
  - destruct Hb as (Hb & _). by rewrite Hb in Hbs.
Qed.

Lemma broker_submit_inv kind argument b :
  broker_inv false b -> ab_state b = BrokerEmpty -> ab_decision_epoch b <> U64_MAX ->
  kind = APPROVAL_REQUEST_KIND_COMMIT_SYNTHETIC_VALUE ->
  broker_inv true (broker_submit kind argument (ab_decision_epoch b + 1) b).
Proof.
  intros [Hg Hs He Hst] Hb Hmax ->. rewrite Hb in Hst.
  destruct Hst as (_ & _ & _ & _ & Hap & Hex).
  split; simpl; try done; try lia.
  - destruct (ab_next_sequence b =? U64_MAX) eqn:E; b2p; lia.
  - repeat split; try done. lia.
Qed.

(** The running workload blocks on its pending request. *)
Lemma submitted_inv r b :
  rt_inv r -> rt_profile r = Supervised -> ts_state (rt_task1 r) = Running ->
  ct_state (ts_capabilities (rt_task0 r)) = TableLive -> broker_inv true b ->
  rt_inv (upd 2 (ts_set_state BlockedApproval) (rt_set_broker b r)).
Proof.
  intros Hi Hp Hrun HL Hb. pose proof (rt_inv_profile_sup r Hi Hp) as Hsu.
  destruct (ri_sched _ Hi) as (l & Hq & Hs). destruct Hi as [I0 I1 _ _].
  pose proof (si_table_state _ _ I1) as Hts. rewrite Hrun in Hts. simpl in Hts.
  split; [done|..].
  - apply slot_inv_set_state; simpl; [done|congruence|done|done].
  - exists l. split; [done|]. apply (sched_rt_other r l 2); [by right|done|..].
    + change (task_slot r 2) with (rt_task1 r). congruence.
    + done.
    + by intros [?|?].
  - unfold profile_inv. simpl. rewrite Hp. destruct Hsu as [? ? ? ? Hg1 ? ? ? ?].
    split; simpl; try done; [|by rewrite HL]. intros _. apply Hg1. congruence.
Qed.

(** The state after an accepted submission. *)
Definition submitted_broker (kind argument : Z) (r : Runtime) : ApprovalBroker :=
  broker_submit kind argument (ab_decision_epoch (rt_broker r) + 1) (rt_broker r).

Definition submitted_state (kind argument : Z) (r : Runtime) : Runtime :=
  dispatched 1 []
    (upd 2 (ts_set_state BlockedApproval) (rt_set_broker (submitted_broker kind argument r) r)).

Lemma submit_eq r task handle kind argument :
  rt_inv r -> valid_task task -> ts_state (task_slot r task) = Running ->
  submit_status r task handle kind = None ->
  task = 2 /\ rt_inv (submitted_state kind argument r) /\
  outcome_ok 2 (OutSwitch 1) (submitted_state kind argument r) /\
  submit_approval task handle kind argument r =
    (Ok (OutSwitch 1), submitted_state kind argument r).
Proof.
  intros Hi Ht Hrun Hs. unfold submit_approval. rewrite getM_step, Hs.
  apply submit_status_None in Hs as (Hp & Hb & Hmax & Hex & Hk & -> & HL); [|done].
  pose proof (su_broker _ (rt_inv_profile_sup r Hi Hp)) as Hbi. rewrite HL in Hbi.
  change (task_slot r 2) with (rt_task1 r) in Hrun.
  assert (Hw : is_state BlockedApproval (rt_task1 r) = false) by (apply is_state_false; congruence).
  rewrite Hw in Hbi. pose proof (br_epoch _ _ Hbi) as He.
  rewrite (bindM_step _ _ _ (ab_decision_epoch (rt_broker r) + 1) r).
  2: { unfold liftM. rewrite (proj2 (checked_add_Some _ _ (ab_decision_epoch (rt_broker r) + 1))); [done|].
       unfold U64_MAX in *. lia. }
  set (b' := submitted_broker kind argument r).
  rewrite (bindM_step _ _ _ tt (rt_set_broker b' r)) by done.
  assert (Hi' : rt_inv (upd 2 (ts_set_state BlockedApproval) (rt_set_broker b' r))).
  { apply submitted_inv; try done. by apply broker_submit_inv. }
  assert (H0 : ts_state (rt_task0 r) = Ready).
  { destruct (ri_sched _ Hi) as (l & _ & [_ _ _ _ Ha]). unfold active in Ha.
    destruct (supervisor_live_cases r Hi Hp HL) as [|[|]]; naive_solver. }
  destruct (block_and_dispatch 2 (rt_set_broker b' r) BlockedApproval Hi') as (Hd & Hi2 & Ho); [|done|done|].
  { apply (leave_none_active r 2); done. }
  split; [done|]. split; [exact Hi2|]. split; [exact Ho|].
  rewrite (bindM_step _ _ _ _ _ (set_state_valid 2 BlockedApproval _ Ht)).
  rewrite (bindM_step _ _ _ _ _ Hd).
  by rewrite (readM_step _ _ _ tt) by (by apply rt_inv_validate).
Qed.

Lemma submit_refused r task handle kind argument status :
  rt_inv r -> valid_task task -> submit_status r task handle kind = Some status ->
  submit_approval task handle kind argument r =
    (Ok (OutResume task), upd task (slot_result status 0) r).
Proof. intros Hi Ht Hs. unfold submit_approval. rewrite getM_step, Hs. by apply resume_validated_ok. Qed.

Lemma submit_progress r task handle kind argument :
  rt_inv r -> valid_task task -> ts_state (task_slot r task) = Running ->
  progresses task (submit_approval task handle kind argument) r.
Proof.
  intros Hi Ht Hrun. destruct (submit_status r task handle kind) eqn:Hs.
  - eexists _, _. split; [by eapply submit_refused|]. by apply result_progress.
  - destruct (submit_eq r task handle kind argument Hi Ht Hrun Hs) as (-> & Hi' & Ho & Heq).
    eexists _, _. split; [exact Heq|done].
Qed.

(** ** Inspection *)

Lemma inspect_progress r task handle a b :
  rt_inv r -> valid_task task -> ts_state (task_slot r task) = Running ->
  progresses task (inspect_approval task handle a b) r.
Proof.
  intros Hi Ht Hrun. unfold inspect_approval, progresses. unfold bindM at 1, getM.
  destruct (inspect_status r task handle a b) eqn:Hs; [by apply resume_validated_progress|].
  cbv zeta.
  match goal with |- context [slot_mut task ?f] =>
    assert (Hi' : rt_inv (upd task f r)) by (by eapply rt_inv_sim; [apply rt_sim_upd|]);
    rewrite (bindM_step _ _ _ _ _ (slot_mut_valid task f r Ht))
  end.
  rewrite (readM_step _ _ _ tt) by (by apply rt_inv_validate).
  eexists _, _. split; [done|]. split; [done|]. split; [done|]. by rewrite task_slot_upd.
Qed.

(** ** Waking the workload *)

Definition woken (status : TrapStatus) (value : Z) (l : list Z) (r : Runtime) : Runtime :=
  rt_set_queue (queue_of (l ++ [2]))
    (upd 2 (ts_set_state Ready) (upd 2 (slot_result status value) r)).

Definition effect_ok (e : SyntheticEffect) : Prop :=
  se_object_generation e = FIXED_OBJECT_GENERATION /\
  se_supervisor_task_id e = SENDER_TASK_ID /\
  se_supervisor_generation e = SUPERVISOR_GENERATION /\
  (se_occupied e = false -> se_value e = 0).

Lemma wake_workload_ok status value l r :
  rt_queue r = queue_of l -> 2 ∉ l -> (length l < 2)%nat ->
  ts_state (rt_task1 r) = BlockedApproval ->
  wake_workload status value r = (Ok tt, woken status value l r).
Proof.
  intros Hq Hn Hl Hb.
  unfold wake_workload. rewrite (read_slot_step r RECEIVER_TASK_ID) by (by right).
  rewrite (proj2 (is_state_true _ (task_slot r RECEIVER_TASK_ID)) Hb). cbn [negb].
  rewrite (bindM_step _ _ _ _ _ (set_result_valid 2 status value r (or_intror eq_refl))).
  rewrite (bindM_step _ _ _ _ _ (set_state_valid 2 Ready _ (or_intror eq_refl))).
  by apply rt_queue_push_ok; [right|..].
Qed.

Lemma workload_not_queued r l :
  rt_inv r -> rt_queue r = queue_of l -> ts_state (rt_task1 r) <> Ready ->
  2 ∉ l /\ (length l < 2)%nat.
Proof.
  intros Hi Hq Hb. pose proof (rt_inv_sched r l Hi Hq) as Hs.
  assert (Hn : 2 ∉ l) by (rewrite (sc_ready1 _ _ _ Hs); congruence).
  split; [done|]. by eapply (sched_rt_room r l 2); [right|..].
Qed.

Lemma woken_push status value l r :
  rt_inv r -> rt_queue r = queue_of l -> ts_state (rt_task1 r) = BlockedApproval ->
  wake_workload status value r = (Ok tt, woken status value l r).
Proof.
  intros Hi Hq Hb. destruct (workload_not_queued r l Hi Hq) as [Hn Hl]; [congruence|].
  by apply wake_workload_ok.
Qed.

(** The push succeeds whatever the broker and the effect are at that point. *)
Lemma woken_push_with status value l r b e :
  rt_inv r -> rt_queue r = queue_of l -> ts_state (rt_task1 r) = BlockedApproval ->
  wake_workload status value (rt_set_effect e (rt_set_broker b r)) =
  (Ok tt, woken status value l (rt_set_effect e (rt_set_broker b r))).
Proof.
  intros Hi Hq Hb. destruct (workload_not_queued r l Hi Hq) as [Hn Hl]; [congruence|].
  by apply wake_workload_ok.
Qed.

Lemma woken_inv status value l r b e :
  rt_inv r -> rt_profile r = Supervised -> rt_queue r = queue_of l ->
  ts_state (rt_task1 r) = BlockedApproval ->
  ct_state (ts_capabilities (rt_task0 r)) = TableLive ->
  broker_inv false b -> effect_ok e ->
  rt_inv (woken status value l (rt_set_effect e (rt_set_broker b r))).
Proof.
  intros Hi Hp Hq Hb HL Hbr He. pose proof (rt_inv_profile_sup r Hi Hp) as Hsu.
  pose proof (rt_inv_sched r l Hi Hq) as Hs. destruct Hi as [I0 I1 _ _].
  pose proof (si_table_state _ _ I1) as Hts. rewrite Hb in Hts. simpl in Hts.
  split; [done|..].
  - apply slot_inv_set_state; simpl; [by eapply slot_inv_sim; [apply slot_sim_result|]|congruence|done|done].
  - exists (l ++ [2]). split; [done|].
    eapply (sched_inv_state (rt_task0 (upd 2 (ts_set_state Ready) r))
                            (rt_task1 (upd 2 (ts_set_state Ready) r))); [done|done|].
    apply sched_rt_push; [by right|done|].
    change (task_slot r 2) with (rt_task1 r). congruence.
  - unfold profile_inv. simpl. rewrite Hp. destruct Hsu as [? ? ? ? Hg1 ? ? ? ?].
    split; simpl; try done; rewrite ?HL; try done.
    intros _. apply Hg1. congruence.
Qed.

(** ** Decisions *)

(** A present request means the workload waits and the supervisor is running. *)
Lemma request_present_waiting r task :
  rt_inv r -> rt_profile r = Supervised -> valid_task task ->
  ts_state (task_slot r task) = Running -> ab_request_present (rt_broker r) = true ->
  task = 1 /\ ct_state (ts_capabilities (rt_task0 r)) = TableLive /\
  ts_state (rt_task1 r) = BlockedApproval /\ broker_inv true (rt_broker r) /\
  effect_ok (rt_effect r) /\
  (ab_state (rt_broker r) = BrokerPending \/ ab_state (rt_broker r) = BrokerApproved).
Proof.
  intros Hi Hp Ht Hrun Hpr. pose proof (rt_inv_profile_sup r Hi Hp) as Hsu.
  pose proof (su_broker _ Hsu) as Hb. pose proof (su_effect _ Hsu) as He.
  destruct (ct_state (ts_capabilities (rt_task0 r))) eqn:HL.
  - done.
  - pose proof (br_state _ _ Hb) as Hst.
    destruct (is_state BlockedApproval (rt_task1 r)) eqn:Hw.
    + apply is_state_true in Hw. assert (task = 1) as ->.
      { destruct Ht as [-> | ->]; [done|].
        change (task_slot r 2) with (rt_task1 r) in Hrun. congruence. }
      split_and!; try done; try apply He.
      destruct (ab_state (rt_broker r)); naive_solver.
    + destruct (ab_state (rt_broker r)); naive_solver congruence.
  - destruct Hb as (Hb & Hc & _). pose proof (br_state _ _ Hb) as Hst. rewrite Hc in Hst.
    naive_solver congruence.
  - destruct Hb as (Hb & _). by rewrite Hb in Hpr.
Qed.

Lemma decide_status_None r task handle sequence decision :
  decide_status r task handle sequence decision = None ->
  rt_profile r = Supervised /\ ab_request_present (rt_broker r) = true /\
  ar_sequence (ab_request (rt_broker r)) = sequence /\
  (decision = DECISION_APPROVE /\ ab_state (rt_broker r) = BrokerPending \/
   decision = DECISION_DENY /\ ab_state (rt_broker r) = BrokerPending \/
   decision = DECISION_EXPIRE /\
     (ab_state (rt_broker r) = BrokerPending \/ ab_state (rt_broker r) = BrokerApproved)).
Proof.
  unfold decide_status. intros H.
  destruct (bool_decide (rt_profile r = Supervised)) eqn:Hp; [|done]. simpl in H.
  destruct (resolve_object _ _ _ _ _ _ _) eqn:Hres; [|done].
  head_if_in H E1; [done|]. head_if_in H E2; [done|]. head_if_in H E3; [done|].
  unfold broker_is in *. b2p. unfold_consts. destruct E2 as [? ?].
  split_and!; try done. clear -E3. destruct (ab_state (rt_broker r)); intuition (congruence || auto).
Qed.

Lemma broker_release_inv n b :
  broker_inv true b -> 1 <= n <= U64_MAX ->
  broker_inv false (broker_release (ab_set_decision_epoch n b)).
Proof. intros [? ? ? ?] Hn. split; simpl; try done. Qed.

Lemma broker_exhausted_inv b :
  broker_inv true b -> broker_inv false (ab_set_state BrokerClosing (broker_clear_request b)).
Proof. intros [? ? ? ?]. split; simpl; try done. Qed.

Lemma broker_approve_inv n b :
  broker_inv true b -> ab_state b = BrokerPending -> 1 <= n < U64_MAX ->
  broker_inv true (broker_approve n (ab_set_decision_epoch n b)).
Proof.
  intros [? ? ? Hst] Hb Hn. rewrite Hb in Hst. destruct Hst as (_ & ? & ? & ? & ? & _ & _).
  split; simpl; try done; [lia|]. split_and!; try done; lia.
Qed.

Lemma approved_inv r b :
  rt_inv r -> rt_profile r = Supervised ->
  ct_state (ts_capabilities (rt_task0 r)) = TableLive ->
  ts_state (rt_task1 r) = BlockedApproval -> broker_inv true b ->
  rt_inv (rt_set_broker b r).
Proof.
  intros [I0 I1 Is Hpr] Hp HL Hw Hb. split; [done|done|done|].
  unfold profile_inv in *. simpl. rewrite Hp in *. destruct Hpr as [? ? ? ? ? ? ? ? ?].
  split; simpl; try done. rewrite HL. unfold is_state. rewrite Hw. done.
Qed.

(** No epoch is left for the decision (an approval also reserves the epoch of
    its expiry). *)
Definition epoch_exhausted (r : Runtime) (decision : Z) : bool :=
  match checked_add (ab_decision_epoch (rt_broker r)) 1 with
  | None => true
  | Some n => (decision =? DECISION_APPROVE) && (n =? U64_MAX)
  end.

(** The broker an accepted decision leaves. *)
Definition decided_broker (decision : Z) (r : Runtime) : ApprovalBroker :=
  let n := ab_decision_epoch (rt_broker r) + 1 in
  let b := ab_set_decision_epoch n (rt_broker r) in
  if epoch_exhausted r decision then
    ab_set_state BrokerClosing (broker_clear_request (rt_broker r))
  else if decision =? DECISION_APPROVE then broker_approve n b
  else broker_release b.

(** The status the waiting workload is woken with, if it is woken. *)
Definition decided_wake (decision : Z) (r : Runtime) : option TrapStatus :=
  if epoch_exhausted r decision then Some BrokerUnavailable
  else if decision =? DECISION_APPROVE then None
  else if decision =? DECISION_DENY then Some ApprovalDenied
  else Some ApprovalExpired.

Definition decided_state (decision : Z) (l : list Z) (r : Runtime) : Runtime :=
  let r1 := rt_set_effect (rt_effect r) (rt_set_broker (decided_broker decision r) r) in
  match decided_wake decision r with
  | None => r1
  | Some status => woken status 0 l r1
  end.

Lemma exhaustion_eq l r :
  rt_inv r -> rt_queue r = queue_of l -> ts_state (rt_task1 r) = BlockedApproval ->
  fail_broker_epoch_exhaustion r =
    (Ok tt, woken BrokerUnavailable 0 l (rt_set_effect (rt_effect r)
       (rt_set_broker (ab_set_state BrokerClosing (broker_clear_request (rt_broker r))) r))).
Proof.
  intros Hi Hq Hw. unfold fail_broker_epoch_exhaustion.
  rewrite (read_slot_step r RECEIVER_TASK_ID) by (by right).
  rewrite (proj2 (is_state_true _ (task_slot r RECEIVER_TASK_ID)) Hw).
  by rewrite (bindM_step _ _ _ _ _ (woken_push BrokerUnavailable 0 l r Hi Hq Hw)).
Qed.

Lemma epoch_next r decision :
  broker_inv true (rt_broker r) -> epoch_exhausted r decision = false ->
  checked_add (ab_decision_epoch (rt_broker r)) 1 = Some (ab_decision_epoch (rt_broker r) + 1) /\
  1 <= ab_decision_epoch (rt_broker r) + 1 <= U64_MAX /\
  (decision = DECISION_APPROVE -> ab_decision_epoch (rt_broker r) + 1 < U64_MAX).
Proof.
  intros Hb. pose proof (br_epoch _ _ Hb) as Hep. unfold epoch_exhausted.
  destruct (checked_add _ _) as [n|] eqn:Hn; [|done].
  apply checked_add_Some in Hn as [-> Hlt]. intros Hex. unfold U64_MAX in *.
  split; [done|]. split; [lia|]. intros ->. simpl in Hex. b2p. lia.
Qed.

Lemma decided_inv r decision l :
  rt_inv r -> rt_profile r = Supervised -> rt_queue r = queue_of l ->
  ct_state (ts_capabilities (rt_task0 r)) = TableLive ->
  ts_state (rt_task1 r) = BlockedApproval ->
  broker_inv true (rt_broker r) -> effect_ok (rt_effect r) ->
  (decision = DECISION_APPROVE -> ab_state (rt_broker r) = BrokerPending) ->
  rt_inv (decided_state decision l r).
Proof.
  intros Hi Hp Hq HL Hw Hb He Hap. unfold decided_state, decided_wake, decided_broker. cbv zeta.
  destruct (epoch_exhausted r decision) eqn:Hex.
  { apply woken_inv; try done. by apply broker_exhausted_inv. }
  destruct (epoch_next r decision Hb Hex) as (_ & Hn & Hna).
  destruct (Z.eqb_spec decision DECISION_APPROVE) as [Hd|Hd].
  - match goal with |- rt_inv (rt_set_effect _ (rt_set_broker ?b _)) =>
      change (rt_inv (rt_set_broker b r)) end.
    apply approved_inv; try done.
    apply broker_approve_inv; [done|auto|]. specialize (Hna Hd). lia.
  - assert (Hr := broker_release_inv _ _ Hb Hn).
    destruct (decision =? DECISION_DENY); by apply woken_inv.
Qed.

Lemma decide_eq r task handle sequence decision l :
  rt_inv r -> valid_task task -> ts_state (task_slot r task) = Running ->
  rt_queue r = queue_of l -> decide_status r task handle sequence decision = None ->
  task = 1 /\ rt_inv (decided_state decision l r) /\
  decide_approval task handle sequence decision r =
    (Ok (OutResume 1),
     upd 1 (slot_result (if epoch_exhausted r decision then BrokerUnavailable else StOk) 0)
       (decided_state decision l r)).
Proof.
  intros Hi Ht Hrun Hq Hs. unfold decide_approval. rewrite getM_step, Hs.
  apply decide_status_None in Hs as (Hp & Hpr & _ & Hcase).
  destruct (request_present_waiting r task Hi Hp Ht Hrun Hpr) as (-> & HL & Hw & Hb & He & _).
  assert (Hap : decision = DECISION_APPROVE -> ab_state (rt_broker r) = BrokerPending).
  { intros ->. destruct Hcase as [[_ ?]|[[? _]|[? _]]]; done. }
  pose proof (decided_inv r decision l Hi Hp Hq HL Hw Hb He Hap) as Hi'.
  split; [done|]. split; [done|]. cbv zeta.
  destruct (epoch_exhausted r decision) eqn:Hex.
  - assert (Hex2 : decided_state decision l r = woken BrokerUnavailable 0 l (rt_set_effect (rt_effect r)
       (rt_set_broker (ab_set_state BrokerClosing (broker_clear_request (rt_broker r))) r))).
    { unfold decided_state, decided_wake, decided_broker. by rewrite Hex. }
    rewrite Hex2 in *. unfold epoch_exhausted in Hex.
    destruct (checked_add _ _) as [n|]; [rewrite Hex|];
      rewrite (bindM_step _ _ _ _ _ (exhaustion_eq l r Hi Hq Hw)); by apply resume_validated_ok.
  - destruct (epoch_next r decision Hb Hex) as (Hn & _). pose proof Hex as Hex2.
    unfold epoch_exhausted in Hex2. rewrite Hn in Hex2. rewrite Hn, Hex2.
    set (n := ab_decision_epoch (rt_broker r) + 1) in *.
    rewrite (bindM_step _ _ _ tt (rt_set_broker (ab_set_decision_epoch n (rt_broker r)) r)) by done.
    pose proof (fun st => woken_push_with st 0 l r
                (broker_release (ab_set_decision_epoch n (rt_broker r))) (rt_effect r) Hi Hq Hw) as Hpush.
    unfold decided_state, decided_wake, decided_broker in *. rewrite Hex in *. cbv zeta in *. fold n in Hi' |- *.
    destruct Hcase as [[-> Hst]|[[-> Hst]|[-> Hst]]]; simpl (_ =? _) in *; cbv iota in *.
    + erewrite bindM_step by reflexivity. by apply resume_validated_ok.
    + erewrite bindM_step by exact (Hpush ApprovalDenied). by apply resume_validated_ok.
    + erewrite bindM_step by exact (Hpush ApprovalExpired). by apply resume_validated_ok.
Qed.

Lemma decide_refused r task handle sequence decision status :
  rt_inv r -> valid_task task -> decide_status r task handle sequence decision = Some status ->
  decide_approval task handle sequence decision r =
    (Ok (OutResume task), upd task (slot_result status 0) r).
Proof. intros Hi Ht Hs. unfold decide_approval. rewrite getM_step, Hs. by apply resume_validated_ok. Qed.

Lemma decided_running decision l r :
  ts_state (task_slot r 1) = Running -> ts_state (task_slot (decided_state decision l r) 1) = Running.
Proof. unfold decided_state. cbv zeta. by destruct (decided_wake decision r). Qed.

Lemma decide_progress r task handle sequence decision :
  rt_inv r -> valid_task task -> ts_state (task_slot r task) = Running ->
  progresses task (decide_approval task handle sequence decision) r.
Proof.
  intros Hi Ht Hrun. destruct (decide_status r task handle sequence decision) eqn:Hs.
  - eexists _, _. split; [by eapply decide_refused|]. by apply result_progress.
  - destruct (ri_sched _ Hi) as (l & Hq & _).
    destruct (decide_eq r task handle sequence decision l Hi Ht Hrun Hq Hs) as (-> & Hi' & Heq).
    eexists _, _. split; [exact Heq|]. apply result_progress; [done|by left|by apply decided_running].
Qed.

(** ** Commit *)

Lemma commit_status_None r task handle sequence argument :
  commit_status r task handle sequence argument = None ->
  rt_profile r = Supervised /\ ab_request_present (rt_broker r) = true /\
  ab_state (rt_broker r) = BrokerApproved /\
  ar_sequence (ab_request (rt_broker r)) = sequence /\
  ar_argument (ab_request (rt_broker r)) = argument /\
  se_occupied (rt_effect r) = false /\
  ab_decision_epoch (rt_broker r) < ab_expiry_epoch (rt_broker r).
Proof.
  unfold commit_status. intros H.
  destruct (bool_decide (rt_profile r = Supervised)) eqn:Hp; [|done]. simpl in H.
  destruct (resolve_object _ _ _ _ _ _ _) eqn:Hres; [|done].
  head_if_in H E1; [done|]. head_if_in H E2; [done|]. head_if_in H E3; [done|].
  unfold approval_mismatch, broker_is in *. b2p. split_hyps. by split_and!.
Qed.

(** The state after a commit, before the supervisor's registers are written. *)
Definition committed_state (argument : Z) (l : list Z) (r : Runtime) : Runtime :=
  woken StOk argument l
    (rt_set_effect (effect_store argument (rt_effect r))
       (rt_set_broker
          (broker_release (ab_set_decision_epoch (ab_decision_epoch (rt_broker r) + 1) (rt_broker r))) r)).

(** A commit that passes its checks stores the approved argument. *)
Lemma commit_effect_ok r task handle sequence argument l :
  rt_inv r -> valid_task task -> ts_state (task_slot r task) = Running ->
  rt_queue r = queue_of l ->
  commit_status r task handle sequence argument = None ->
  task = 1 /\ rt_inv (committed_state argument l r) /\
  commit_effect task handle sequence argument r =
    (Ok (OutResume 1), upd 1 (slot_result StOk 0) (committed_state argument l r)).
Proof.
  intros Hi Ht Hrun Hq Hs.
  pose proof (commit_status_None _ _ _ _ _ Hs) as (Hp & Hpr & Hst & Hseq & Harg & Hocc & Hlt).
  destruct (request_present_waiting r task Hi Hp Ht Hrun Hpr) as (-> & HL & Hw & Hb & He & _).
  pose proof (br_state _ _ Hb) as Hbs. rewrite Hst in Hbs.
  destruct Hbs as (_ & _ & _ & _ & _ & _ & Hmax & Hexp).
  pose proof (br_epoch _ _ Hb) as Hep. split; [done|].
  assert (Hi' : rt_inv (committed_state argument l r)).
  { apply woken_inv; try done; [apply broker_release_inv; [done|lia]|].
    destruct He as (? & ? & ? & ?). by split_and!. }
  split; [done|]. unfold commit_effect. unfold bindM at 1, getM. rewrite Hs.
  rewrite (bindM_step _ _ _ (ab_decision_epoch (rt_broker r) + 1) r).
  2: { unfold liftM. rewrite (proj2 (checked_add_Some _ _ (ab_decision_epoch (rt_broker r) + 1))); [done|].
       unfold U64_MAX in *. lia. }
  rewrite Hexp, Z.eqb_refl. cbn [negb].
  set (b' := broker_release (ab_set_decision_epoch (ab_decision_epoch (rt_broker r) + 1) (rt_broker r))).
  rewrite (bindM_step _ _ _ tt (rt_set_effect (effect_store argument (rt_effect r)) r)) by done.
  rewrite (bindM_step _ _ _ tt (rt_set_effect (effect_store argument (rt_effect r)) (rt_set_broker b' r))) by done.
  erewrite bindM_step by exact (woken_push_with StOk argument l r b' _ Hi Hq Hw).
  by apply resume_validated_ok.
Qed.

Lemma commit_refused r task handle sequence argument status :
  rt_inv r -> valid_task task -> commit_status r task handle sequence argument = Some status ->
  commit_effect task handle sequence argument r =
    (Ok (OutResume task), upd task (slot_result status 0) r).
Proof. intros Hi Ht Hs. unfold commit_effect. rewrite getM_step, Hs. by apply resume_validated_ok. Qed.

Lemma commit_progress r task handle sequence argument :
  rt_inv r -> valid_task task -> ts_state (task_slot r task) = Running ->
  progresses task (commit_effect task handle sequence argument) r.
Proof.
  intros Hi Ht Hrun. destruct (commit_status r task handle sequence argument) eqn:Hs.
  - eexists _, _. split; [by eapply commit_refused|]. by apply result_progress.
  - destruct (ri_sched _ Hi) as (l & Hq & _).
    destruct (commit_effect_ok r task handle sequence argument l Hi Ht Hrun Hq Hs) as (-> & Hi' & Heq).
    eexists _, _. split; [exact Heq|]. by apply result_progress.
Qed.

(** ** All operations *)

Lemma handle_trap_inner_progress r task :
  rt_inv r -> running_task r = Ok task -> progresses task (handle_trap_inner task) r.
Proof.
  intros Hi Hrt. pose proof (proj1 (running_task_spec r task Hi) Hrt) as [Ht Hrun].
  unfold handle_trap_inner, progresses.
  rewrite (readM_step _ _ _ task Hrt), Z.eqb_refl. cbn [negb].
  rewrite (readM_step _ _ _ (ts_context (task_slot r task))).
  2: { unfold rt_context. by rewrite slot_valid. }
  cbv zeta.
  destruct (TrapOperation_parse (tc_rax (ts_context (task_slot r task)))) as [[]|].
  - by apply yield_progress.
  - by apply send_progress.
  - by apply receive_progress.
  - by apply exit_progress.
  - by apply duplicate_progress.
  - by apply close_progress.
  - by apply start_progress.
  - by apply submit_progress.
  - by apply inspect_progress.
  - by apply decide_progress.
  - by apply commit_progress.
  - by apply resume_validated_progress.
  - by apply resume_validated_progress.
  - by apply resume_with_progress.
Qed.

Lemma handle_trap_ok r task :
  rt_inv r -> running_task r = Ok task -> progresses task (handle_trap task) r.
Proof.
  intros Hi Hrt. destruct (handle_trap_inner_progress r task Hi Hrt) as (o & r' & Heq & Hi' & Ho).
  exists o, r'. split; [|done]. by apply transactional_ok.
Qed.
