(* ===== verification/RuntimeTeardown.v ===== *)
(** * Teardown of an exited task

    [begin_teardown] and [complete_teardown]: revocation of the task's
    capabilities, of its side of the endpoint or of its broker state, waking of
    the peer, and the dispatch that follows. *)

From S2P Require Import Prelude RuntimeTypes Capability CapabilityProofs Runtime RuntimeOps.
From S2P Require Import RuntimeInv RuntimeProgress SupervisedProgress.

(** ** The closed table *)

Definition closed_table (t : CapabilityTable) : CapabilityTable :=
  ct_set_slots (map slot_close (ct_slots t)) (ct_set_state TableClosing t).

Lemma begin_closing_closed t :
  table_wf t -> ct_state t = TableLive ->
  table_begin_closing t = (Ok tt, closed_table t) /\ table_wf (closed_table t) /\
  table_mark_closing t = (Ok tt, ct_set_state TableClosing t) /\
  table_close_all (ct_set_state TableClosing t) = (Ok tt, closed_table t).
Proof.
  intros Hwf HL. destruct (table_begin_closing_ok t Hwf HL) as (t' & Heq & Hwf' & ->).
  assert (Hm : table_mark_closing t = (Ok tt, ct_set_state TableClosing t)).
  { unfold table_mark_closing. by rewrite bool_decide_eq_true_2. }
  split_and!; try done. unfold table_begin_closing in Heq.
  by rewrite (bindM_step _ _ _ _ _ Hm) in Heq.
Qed.

Lemma capabilities_step_ok {A} task (m : M CapabilityTable RuntimeError A) r a t' :
  valid_task task -> m (ts_capabilities (task_slot r task)) = (Ok a, t') ->
  capabilities_step task m r = (Ok a, upd task (ts_set_capabilities t') r).
Proof.
  intros Ht Hm. unfold capabilities_step.
  by rewrite (bindM_step _ _ _ _ _ (on_capabilities_valid task m r _ _ Ht Hm)).
Qed.

Lemma slot_inv_closed id s :
  slot_inv id s -> ts_state s = Exited -> ct_state (ts_capabilities s) = TableLive ->
  slot_inv id (ts_set_capabilities (closed_table (ts_capabilities s)) s).
Proof.
  intros [? Hwf ? Hl Hd] Hex HL.
  split; simpl; try done; [by apply begin_closing_closed|]. rewrite Hex. by right.
Qed.

(** ** Cooperative teardown *)

Lemma endpoint_inv_closed0 s0 s1 ep :
  endpoint_inv s0 s1 ep -> ts_state s0 = Exited -> ts_state s1 <> BlockedReceive ->
  endpoint_inv (ts_set_capabilities (closed_table (ts_capabilities s0)) s0) s1
    (endpoint_sender_gone ep).
Proof. intros [? ? ? ? ? ? ? ?] Hex Hnb. split; simpl; try done. congruence. Qed.

Lemma endpoint_inv_closed1 s0 s1 ep :
  endpoint_inv s0 s1 ep -> ts_state s1 = Exited ->
  endpoint_inv s0 (ts_set_capabilities (closed_table (ts_capabilities s1)) s1)
    (endpoint_receiver_gone ep).
Proof. intros [? ? ? ? ? ? ? ?] Hex. split; simpl; try done; congruence. Qed.

Lemma coop_closed0_inv r :
  rt_inv r -> rt_profile r = Cooperative -> ts_state (rt_task0 r) = Exited ->
  ct_state (ts_capabilities (rt_task0 r)) = TableLive -> ts_state (rt_task1 r) <> BlockedReceive ->
  rt_inv (rt_set_endpoint (endpoint_sender_gone (rt_endpoint r))
            (upd 1 (ts_set_capabilities (closed_table (ts_capabilities (rt_task0 r)))) r)).
Proof.
  intros Hi Hp Hex HL Hnb. pose proof (rt_inv_profile_coop r Hi Hp) as [? ? ? ? ? Hnr He].
  destruct Hi as [I0 I1 (l & Hq & Hs) _]. split; simpl.
  - by apply slot_inv_closed.
  - done.
  - exists l. split; [done|]. by eapply sched_inv_state; [| |exact Hs].
  - unfold profile_inv. simpl. rewrite Hp. split; simpl; try done.
    + intros s e (s' & -> & Hs')%list_elem_of_fmap. by rewrite slot_close_entry.
    + by apply endpoint_inv_closed0.
Qed.

Lemma coop_closed1_inv r :
  rt_inv r -> rt_profile r = Cooperative -> ts_state (rt_task1 r) = Exited ->
  ct_state (ts_capabilities (rt_task1 r)) = TableLive ->
  rt_inv (rt_set_endpoint (endpoint_receiver_gone (rt_endpoint r))
            (upd 2 (ts_set_capabilities (closed_table (ts_capabilities (rt_task1 r)))) r)).
Proof.
  intros Hi Hp Hex HL. pose proof (rt_inv_profile_coop r Hi Hp) as [? ? ? ? ? Hnr He].
  destruct Hi as [I0 I1 (l & Hq & Hs) _]. split; simpl.
  - done.
  - by apply slot_inv_closed.
  - exists l. split; [done|]. by eapply sched_inv_state; [| |exact Hs].
  - unfold profile_inv. simpl. rewrite Hp. split; simpl; try done.
    by apply endpoint_inv_closed1.
Qed.

(** The state [begin_teardown] promises: the same task is still the exited one,
    its table has no entry left and the other task keeps its own. *)
Definition torn_begin (task : Z) (r r' : Runtime) : Prop :=
  rt_inv r' /\ ts_state (task_slot r' task) = Exited /\
  ct_state (ts_capabilities (task_slot r' task)) = TableClosing /\
  ts_capabilities (task_slot r' (3 - task)) = ts_capabilities (task_slot r (3 - task)) /\
  rt_profile r' = rt_profile r.

Lemma begin_teardown_coop_sender r :
  rt_inv r -> rt_profile r = Cooperative -> ts_state (rt_task0 r) = Exited ->
  ct_state (ts_capabilities (rt_task0 r)) = TableLive ->
  exists r', begin_teardown_cooperative 1 r = (Ok tt, r') /\ torn_begin 1 r r'.
Proof.
  intros Hi Hp Hex HL. pose proof (si_table _ _ (ri_slot0 _ Hi)) as Hwf.
  destruct (begin_closing_closed _ Hwf HL) as (Hbc & Hwf' & _ & _).
  set (t' := closed_table (ts_capabilities (rt_task0 r))) in *.
  unfold begin_teardown_cooperative.
  rewrite (bindM_step _ _ _ _ _ (capabilities_step_ok 1 _ r _ _ (or_introl eq_refl) Hbc)).
  set (r1 := rt_set_endpoint (endpoint_sender_gone (rt_endpoint r)) (upd 1 (ts_set_capabilities t') r)).
  destruct (is_state BlockedReceive (rt_task1 r)) eqn:Hb.
  - apply is_state_true in Hb. destruct (ri_sched _ Hi) as (l & Hq & _).
    pose proof (rt_inv_profile_coop r Hi Hp) as Hco.
    destruct (en_blocked _ _ _ (co_endpoint _ Hco) Hb) as [Hocc _].
    set (r0 := upd 2 (slot_result PeerExited 0) r).
    assert (Hi0 : rt_inv r0) by (by apply rt_inv_result).
    destruct (rt_inv_wake_receiver r0 l Hi0 Hp Hq Hb) as [Hi1 _].
    pose proof (coop_closed0_inv _ Hi1 Hp Hex HL ltac:(done)) as Hi2.
    exists (rt_set_endpoint (endpoint_sender_gone (rt_endpoint r0))
              (upd 1 (ts_set_capabilities (closed_table (ts_capabilities (rt_task0 r0))))
                 (rt_set_queue (queue_of (l ++ [2])) (upd 2 (ts_set_state Ready) r0)))).
    split; [|done].
    destruct (workload_not_queued r l Hi Hq) as [Hn Hl]; [congruence|].
    assert (Hpush : rt_queue_push 2 (upd 2 (ts_set_state Ready) (upd 2 (slot_result PeerExited 0) r1))
              = (Ok tt, rt_set_queue (queue_of (l ++ [2]))
                   (upd 2 (ts_set_state Ready) (upd 2 (slot_result PeerExited 0) r1)))).
    { by apply rt_queue_push_ok; [right|..]. }
    erewrite bindM_step.
    2: { change (1 =? SENDER_TASK_ID) with true. cbv iota.
         rewrite (bindM_step _ _ _ tt r1) by done. unfold bindM at 1, getM.
         change (ep_occupied (rt_endpoint r1)) with (ep_occupied (rt_endpoint r)).
         rewrite Hocc. cbn [negb]. rewrite (read_slot_step r1 RECEIVER_TASK_ID) by (by right).
         rewrite (proj2 (is_state_true _ (task_slot r1 RECEIVER_TASK_ID)) Hb).
         rewrite (bindM_step _ _ _ _ _ (set_result_valid 2 PeerExited 0 r1 (or_intror eq_refl))).
         rewrite (bindM_step _ _ _ _ _ (set_state_valid 2 Ready _ (or_intror eq_refl))).
         exact Hpush. }
    unfold readM. f_equal. apply rt_inv_validate. exact Hi2.
  - pose proof (coop_closed0_inv r Hi Hp Hex HL ltac:(by apply is_state_false)) as Hi1.
    exists r1. split; [|done].
    rewrite (bindM_step _ _ _ tt r1).
    + unfold readM. f_equal. by apply rt_inv_validate.
    + change (1 =? SENDER_TASK_ID) with true. cbv iota.
      rewrite (bindM_step _ _ _ tt r1) by done. unfold bindM at 1, getM.
      destruct (ep_occupied (rt_endpoint r1)); [done|]. cbn [negb].
      rewrite (read_slot_step r1 RECEIVER_TASK_ID) by (by right).
      change (is_state BlockedReceive (task_slot r1 RECEIVER_TASK_ID))
        with (is_state BlockedReceive (rt_task1 r)). by rewrite Hb.
Qed.

Lemma begin_teardown_coop_receiver r :
  rt_inv r -> rt_profile r = Cooperative -> ts_state (rt_task1 r) = Exited ->
  ct_state (ts_capabilities (rt_task1 r)) = TableLive ->
  exists r', begin_teardown_cooperative 2 r = (Ok tt, r') /\ torn_begin 2 r r'.
Proof.
  intros Hi Hp Hex HL. pose proof (si_table _ _ (ri_slot1 _ Hi)) as Hwf.
  destruct (begin_closing_closed _ Hwf HL) as (Hbc & Hwf' & _ & _).
  pose proof (coop_closed1_inv r Hi Hp Hex HL) as Hi1.
  unfold begin_teardown_cooperative.
  rewrite (bindM_step _ _ _ _ _ (capabilities_step_ok 2 _ r _ _ (or_intror eq_refl) Hbc)).
  eexists. split; [|split; [exact Hi1|done]].
  erewrite bindM_step by reflexivity. unfold readM. f_equal. by apply rt_inv_validate.
Qed.

(** ** Supervised teardown *)

Lemma broker_supervisor_gone_inv waiting b :
  broker_inv waiting b ->
  broker_inv false (broker_supervisor_gone b) /\ ab_state (broker_supervisor_gone b) = BrokerClosing.
Proof. intros [? ? ? ?]. by split. Qed.

(** The supervisor is gone: [b] is the broker it leaves behind. *)
Lemma sup_closed0_inv r b :
  rt_inv r -> rt_profile r = Supervised -> ts_state (rt_task0 r) = Exited ->
  ct_state (ts_capabilities (rt_task0 r)) = TableLive ->
  ts_state (rt_task1 r) <> BlockedApproval ->
  broker_inv false b -> ab_state b = BrokerClosing ->
  rt_inv (rt_set_effect SyntheticEffect_EMPTY (rt_set_broker b
            (upd 1 (ts_set_capabilities (closed_table (ts_capabilities (rt_task0 r)))) r))).
Proof.
  intros Hi Hp Hex HL Hnb Hb Hbc. pose proof (rt_inv_profile_sup r Hi Hp) as [? ? ? ? ? ? ? ? ?].
  destruct Hi as [I0 I1 (l & Hq & Hs) _]. split; simpl.
  - by apply slot_inv_closed.
  - done.
  - exists l. split; [done|]. by eapply sched_inv_state; [| |exact Hs].
  - unfold profile_inv. simpl. rewrite Hp. split; simpl; try done.
Qed.

Lemma broker_workload_gone_inv b :
  broker_inv false b -> broker_inv false (broker_workload_gone false b).
Proof.
  intros [? ? ? Hst]. split; simpl; try done.
  destruct (ab_state b); naive_solver.
Qed.

Lemma sup_closed1_inv r :
  rt_inv r -> rt_profile r = Supervised -> ts_state (rt_task1 r) = Exited ->
  ct_state (ts_capabilities (rt_task1 r)) = TableLive ->
  rt_inv (upd 2 (ts_set_capabilities (closed_table (ts_capabilities (rt_task1 r))))
            (rt_set_broker (broker_workload_gone (is_state TaskDead (rt_task0 r)) (rt_broker r))
               (rt_set_manifest ManifestPublication_EMPTY r))).
Proof.
  intros Hi Hp Hex HL. pose proof (rt_inv_profile_sup r Hi Hp) as [? ? ? ? ? ? ? Hb ?].
  destruct (slot_table_cases _ _ (ri_slot0 _ Hi)) as [_ Hd].
  destruct Hi as [I0 I1 (l & Hq & Hs) _].
  assert (Hw : is_state BlockedApproval (rt_task1 r) = false) by (apply is_state_false; congruence).
  split; simpl; [done|by apply slot_inv_closed|exists l; split; [done|];
    by eapply sched_inv_state; [| |exact Hs]|].
  unfold profile_inv. simpl. rewrite Hp. split; simpl; try done; [congruence|].
  rewrite Hw in Hb. unfold is_state in *. simpl in *. rewrite Hw.
  destruct (ct_state (ts_capabilities (rt_task0 r))) eqn:HL0; [done|..].
  - rewrite bool_decide_eq_false_2 by (rewrite Hd; congruence). by apply broker_workload_gone_inv.
  - exfalso. pose proof (si_table_state _ _ I0) as Hts. rewrite HL0 in Hts.
    apply (sc_active _ _ _ Hs); [|by right].
    destruct (ts_state (rt_task0 r)) eqn:E; simpl in Hts; try done; right; done.
  - destruct Hb as (-> & ?). split; [|done]. by destruct (bool_decide _).
Qed.

(** The broker [b] may already differ from the one of the invariant: the
    journaled runtime advances its epoch before it tears the supervisor down. *)
Lemma begin_teardown_sup_sender r b :
  rt_inv r -> rt_profile r = Supervised -> ts_state (rt_task0 r) = Exited ->
  ct_state (ts_capabilities (rt_task0 r)) = TableLive ->
  broker_inv false (broker_supervisor_gone b) ->
  exists r', begin_teardown_supervised 1 (rt_set_broker b r) = (Ok tt, r') /\ torn_begin 1 r r'.
Proof.
  intros Hi Hp Hex HL Hb'. pose proof (si_table _ _ (ri_slot0 _ Hi)) as Hwf.
  destruct (begin_closing_closed _ Hwf HL) as (_ & Hwf' & Hm & Hc).
  pose proof (rt_inv_profile_sup r Hi Hp) as Hsu.
  assert (Hbc : ab_state (broker_supervisor_gone b) = BrokerClosing) by done.
  unfold begin_teardown_supervised.
  rewrite (bindM_step _ _ _ _ _ (capabilities_step_ok 1 _ (rt_set_broker b r) _ _ (or_introl eq_refl) Hm)).
  set (tm := ct_set_state TableClosing (ts_capabilities (rt_task0 r))) in *.
  change (1 =? SENDER_TASK_ID) with true. cbv iota.
  set (r1 := upd 1 (ts_set_capabilities tm) (rt_set_broker b r)).
  destruct (is_state BlockedApproval (rt_task1 r)) eqn:Hw.
  - apply is_state_true in Hw. destruct (ri_sched _ Hi) as (l & Hq & _).
    destruct (workload_not_queued r l Hi Hq) as [Hn Hl]; [congruence|].
    set (terminal := match ab_state b with BrokerPending => ApprovalDenied
                     | BrokerApproved => ApprovalExpired | _ => BrokerUnavailable end).
    pose proof (su_effect _ Hsu) as He. rewrite HL in He.
    assert (Hi1 : rt_inv (woken terminal 0 l (rt_set_effect (rt_effect r)
                    (rt_set_broker (broker_supervisor_gone b) r)))).
    { by apply woken_inv. }
    pose proof (sup_closed0_inv _ (broker_supervisor_gone b) Hi1 Hp Hex HL ltac:(done) Hb' Hbc) as Hi2.
    eexists. split; [|split; [exact Hi2|done]].
    erewrite bindM_step.
    2: { rewrite (read_slot_step r1 RECEIVER_TASK_ID) by (by right).
         rewrite (proj2 (is_state_true _ (task_slot r1 RECEIVER_TASK_ID)) Hw).
         erewrite bindM_step.
         2: { unfold bindM, getM. exact (wake_workload_ok terminal 0 l r1 Hq Hn Hl Hw). }
         reflexivity. }
    erewrite bindM_step.
    2: { apply capabilities_step_ok; [by left|]. exact Hc. }
    unfold readM. f_equal. by apply rt_inv_validate.
  - pose proof (sup_closed0_inv r (broker_supervisor_gone b) Hi Hp Hex HL
                  ltac:(by apply is_state_false) Hb' Hbc) as Hi1.
    eexists. split; [|split; [exact Hi1|done]].
    erewrite bindM_step.
    2: { rewrite (read_slot_step r1 RECEIVER_TASK_ID) by (by right).
         change (is_state BlockedApproval (task_slot r1 RECEIVER_TASK_ID))
           with (is_state BlockedApproval (rt_task1 r)). rewrite Hw. reflexivity. }
    erewrite bindM_step.
    2: { apply capabilities_step_ok; [by left|]. exact Hc. }
    unfold readM. f_equal. by apply rt_inv_validate.
Qed.

(** The workload is gone: its table is closed, the manifest withdrawn and the
    broker without a workload. *)
Definition workload_torn (r : Runtime) : Runtime :=
  upd 2 (ts_set_capabilities (closed_table (ts_capabilities (rt_task1 r))))
    (rt_set_broker (broker_workload_gone (is_state TaskDead (rt_task0 r)) (rt_broker r))
       (rt_set_manifest ManifestPublication_EMPTY r)).

Lemma begin_teardown_sup_receiver r :
  rt_inv r -> rt_profile r = Supervised -> ts_state (rt_task1 r) = Exited ->
  ct_state (ts_capabilities (rt_task1 r)) = TableLive ->
  begin_teardown_supervised 2 r = (Ok tt, workload_torn r) /\ torn_begin 2 r (workload_torn r).
Proof.
  intros Hi Hp Hex HL. pose proof (si_table _ _ (ri_slot1 _ Hi)) as Hwf.
  destruct (begin_closing_closed _ Hwf HL) as (_ & Hwf' & Hm & Hc).
  pose proof (sup_closed1_inv r Hi Hp Hex HL) as Hi1. fold (workload_torn r) in Hi1.
  split; [|by split]. unfold begin_teardown_supervised.
  rewrite (bindM_step _ _ _ _ _ (capabilities_step_ok 2 _ r _ _ (or_intror eq_refl) Hm)).
  erewrite bindM_step by reflexivity.
  erewrite bindM_step.
  2: { apply capabilities_step_ok; [by right|]. exact Hc. }
  unfold readM. f_equal. by apply rt_inv_validate.
Qed.

Lemma rt_set_broker_same r : rt_set_broker (rt_broker r) r = r.
Proof. by destruct r. Qed.

Lemma begin_teardown_ok r task :
  rt_inv r -> valid_task task -> ts_state (task_slot r task) = Exited ->
  ct_state (ts_capabilities (task_slot r task)) = TableLive ->
  exists r', begin_teardown task r = (Ok tt, r') /\ torn_begin task r r'.
Proof.
  intros Hi Ht Hex HL.
  assert (Hin : exists r', begin_teardown_inner task r = (Ok tt, r') /\ torn_begin task r r').
  { unfold begin_teardown_inner. rewrite (read_slot_step r task _ Ht).
    rewrite (proj2 (is_state_true _ _) Hex). cbn [negb]. unfold bindM at 1, getM.
    destruct (rt_profile r) eqn:Hp; destruct Ht as [-> | ->].
    - by apply begin_teardown_coop_sender.
    - by apply begin_teardown_coop_receiver.
    - pose proof (begin_teardown_sup_sender r (rt_broker r) Hi Hp Hex HL) as Hs.
      rewrite rt_set_broker_same in Hs. apply Hs.
      pose proof (su_broker _ (rt_inv_profile_sup r Hi Hp)) as Hb.
      change (task_slot r 1) with (rt_task0 r) in HL. rewrite HL in Hb.
      by eapply broker_supervisor_gone_inv.
    - eexists. by apply begin_teardown_sup_receiver. }
  destruct Hin as (r' & Heq & Hr'). exists r'. split; [|done]. by apply transactional_ok.
Qed.

(** ** Completion *)

Definition reset_broker (r : Runtime) : Runtime :=
  rt_set_effect SyntheticEffect_EMPTY (rt_set_broker ApprovalBroker_DEAD r).

Definition reset_all (r : Runtime) : Runtime :=
  rt_set_effect SyntheticEffect_EMPTY (rt_set_broker ApprovalBroker_DEAD
    (rt_set_manifest ManifestPublication_EMPTY (rt_set_endpoint EMPTY_ENDPOINT r))).

(** The state [complete_teardown] dispatches from. *)
Definition torn (task : Z) (r : Runtime) : Runtime :=
  let r1 := upd task slot_kill r in
  let r2 := if bool_decide (rt_profile r = Supervised) && (task =? SENDER_TASK_ID)
            then reset_broker r1 else r1 in
  if forallb (is_state TaskDead) (rt_tasks r1) then reset_all r2 else r2.

Lemma kill_upd task r :
  upd task (fun s => mkTaskSlot (ts_id s) 0 TaskDead context_dead (ts_capabilities s))
    (upd task (ts_set_capabilities table_dead) r) = upd task slot_kill r.
Proof. unfold upd. by destruct (task =? SENDER_TASK_ID). Qed.

Lemma complete_teardown_torn r task :
  rt_inv r -> valid_task task -> ts_state (task_slot r task) = Exited ->
  ct_state (ts_capabilities (task_slot r task)) = TableClosing ->
  complete_teardown_inner task r =
  (do! readM validate in dispatch_next) (torn task r).
Proof.
  intros Hi Ht Hex HC. pose proof (si_table _ _ (rt_inv_slot r task Ht Hi)) as Hwf.
  unfold complete_teardown_inner. rewrite (read_slot_step r task _ Ht).
  rewrite (proj2 (is_state_true _ _) Hex), (proj2 (table_is_true _ _) HC). cbn [negb orb].
  rewrite (bindM_step _ _ _ _ _
    (capabilities_step_ok task _ r _ _ Ht (table_finish_dead_ok _ Hwf HC))).
  rewrite (bindM_step _ _ _ _ _ (slot_mut_valid task _ _ Ht)).
  rewrite kill_upd. unfold bindM at 1, getM.
  assert (rt_profile (upd task slot_kill r) = rt_profile r) as ->
    by (unfold upd; by destruct (task =? SENDER_TASK_ID)).
  unfold torn. cbv zeta.
  destruct (bool_decide (rt_profile r = Supervised) && (task =? SENDER_TASK_ID)),
    (forallb (is_state TaskDead) (rt_tasks (upd task slot_kill r))); reflexivity.
Qed.

Lemma slot_inv_kill id s : ts_id s = id -> slot_inv id (slot_kill s).
Proof. intros Hid. split; simpl; try done. apply table_dead_wf. Qed.

Lemma sched_kill r task l :
  valid_task task -> sched_rt r l -> ts_state (task_slot r task) = Exited ->
  sched_rt (upd task slot_kill r) l /\ none_active (upd task slot_kill r).
Proof.
  intros Ht Hs Hex. split.
  - assert (Hsd : sched_rt (upd task (ts_set_state TaskDead) r) l).
    { apply sched_rt_other; [done|done|congruence|done|by intros [?|?]]. }
    eapply sched_inv_state; [..|exact Hsd]; by destruct Ht as [-> | ->].
  - destruct Hs as [_ _ _ _ Ha]. unfold none_active, active in *.
    destruct Ht as [-> | ->]; unfold task_slot in Hex; simpl in *; naive_solver.
Qed.

(** The scheduling half is the same in every case: only the profile's part of
    the state changes. *)
Lemma torn_parts r task :
  valid_task task ->
  rt_task0 (torn task r) = rt_task0 (upd task slot_kill r) /\
  rt_task1 (torn task r) = rt_task1 (upd task slot_kill r) /\
  rt_queue (torn task r) = rt_queue r /\ rt_profile (torn task r) = rt_profile r.
Proof.
  intros Ht. unfold torn. cbv zeta.
  destruct (forallb _ _), (_ && _); destruct Ht as [-> | ->]; done.
Qed.

Lemma torn_coop r task :
  valid_task task -> rt_profile r = Cooperative ->
  torn task r = if forallb (is_state TaskDead) (rt_tasks (upd task slot_kill r))
                then reset_all (upd task slot_kill r) else upd task slot_kill r.
Proof. intros Ht Hp. unfold torn. cbv zeta. by rewrite Hp. Qed.

Lemma not_all_dead r :
  forallb (is_state TaskDead) (rt_tasks r) = false ->
  ts_state (rt_task0 r) = TaskDead -> ts_state (rt_task1 r) = TaskDead -> False.
Proof. intros H H0 H1. by rewrite (proj2 (all_dead_true r)) in H. Qed.

Lemma coop_torn_inv r task :
  rt_inv r -> rt_profile r = Cooperative -> valid_task task ->
  ts_state (task_slot r task) = Exited ->
  ct_state (ts_capabilities (task_slot r task)) = TableClosing ->
  coop_inv (torn task r).
Proof.
  intros Hi Hp Ht Hex HC. pose proof (rt_inv_profile_coop r Hi Hp) as [? ? ? ? ? ? He].
  destruct (slot_table_cases _ _ (ri_slot0 _ Hi)) as [_ Hd0].
  destruct (slot_table_cases _ _ (ri_slot1 _ Hi)) as [_ Hd1].
  rewrite torn_coop by done. destruct (forallb _ _) eqn:Hall.
  - apply all_dead_true in Hall as [HA HB].
    split; simpl; try done.
    + by rewrite HA.
    + by rewrite HB.
    + destruct Ht as [-> | ->]; simpl in *; [|done].
      intros s e ->%elem_of_empty_slots. done.
    + split; simpl; try done.
      * intros [?|?]; done.
      * destruct Ht as [-> | ->]; simpl in *; [done|]. rewrite (proj1 Hd0 HA). done.
      * destruct Ht as [-> | ->]; simpl in *; [|done]. rewrite (proj1 Hd1 HB). done.
      * by rewrite HB.
  - destruct He as [Hdead Hgen Hse Hsg Hre Hrg Hem Hbl].
    pose proof (not_all_dead _ Hall) as Hnd. clear Hall.
    destruct Ht as [-> | ->]; unfold task_slot in Hex, HC; simpl in *.
    + split; simpl; try done; [intros s e ->%elem_of_empty_slots; done|].
      split; simpl; try done.
      * intros _ H1. by destruct Hnd.
      * intros _. apply Hgen. left. congruence.
      * intros _. apply Hsg. congruence.
      * intros Hb. destruct (Hbl Hb). congruence.
    + split; simpl; try done.
      split; simpl; try done.
      * intros H0 _. by destruct Hnd.
      * intros _. apply Hgen. right. congruence.
      * intros _. apply Hrg. congruence.
Qed.

Lemma sup_torn_inv r task :
  rt_inv r -> rt_profile r = Supervised -> valid_task task ->
  ts_state (task_slot r task) = Exited ->
  ct_state (ts_capabilities (task_slot r task)) = TableClosing ->
  sup_inv (torn task r).
Proof.
  intros Hi Hp Ht Hex HC. pose proof (rt_inv_profile_sup r Hi Hp) as [? ? ? ? ? ? Hm Hb Hf].
  destruct (slot_table_cases _ _ (ri_slot0 _ Hi)) as [_ Hd0].
  destruct (slot_table_cases _ _ (ri_slot1 _ Hi)) as [_ Hd1].
  unfold torn. cbv zeta. rewrite Hp, bool_decide_eq_true_2 by done. cbn [andb].
  destruct Ht as [-> | ->]; unfold task_slot in Hex, HC; simpl in HC, Hex.
  - change (1 =? SENDER_TASK_ID) with true. cbv iota.
    rewrite HC in Hb. destruct Hb as (_ & _ & Hnb).
    destruct (forallb _ _) eqn:Hall.
    + apply all_dead_true in Hall as [HA HB]. simpl in HA, HB.
      split; simpl; try done. by rewrite (proj1 Hd1 HB).
    + split; simpl; try done.
  - change (2 =? SENDER_TASK_ID) with false. cbv iota. rewrite HC in Hm.
    destruct (forallb _ _) eqn:Hall.
    + apply all_dead_true in Hall as [HA HB]. simpl in HA, HB.
      split; simpl; try done; by rewrite (proj1 Hd0 HA).
    + split; simpl; try done.
      assert (Hw : is_state BlockedApproval (rt_task1 r) = false) by (apply is_state_false; congruence).
      rewrite Hw in Hb. unfold is_state. simpl.
      destruct (ct_state (ts_capabilities (rt_task0 r))); naive_solver.
Qed.

Lemma torn_inv r task :
  rt_inv r -> valid_task task -> ts_state (task_slot r task) = Exited ->
  ct_state (ts_capabilities (task_slot r task)) = TableClosing ->
  rt_inv (torn task r) /\ none_active (torn task r).
Proof.
  intros Hi Ht Hex HC. destruct (ri_sched _ Hi) as (l & Hq & Hs).
  destruct (sched_kill r task l Ht Hs Hex) as [Hs' Hna].
  destruct (torn_parts r task Ht) as (E0 & E1 & Eq & Ep). split.
  - split.
    + rewrite E0. destruct Hi as [I0 I1 _ _].
      destruct Ht as [-> | ->]; simpl; [apply slot_inv_kill, I0|done].
    + rewrite E1. destruct Hi as [I0 I1 _ _].
      destruct Ht as [-> | ->]; simpl; [done|apply slot_inv_kill, I1].
    + exists l. rewrite Eq, E0, E1. done.
    + unfold profile_inv. rewrite Ep. destruct (rt_profile r) eqn:Hp.
      * by apply coop_torn_inv.
      * by apply sup_torn_inv.
  - unfold none_active in *. by rewrite E0, E1.
Qed.
