(* ===== verification/RuntimeConstruct.v ===== *)
(** * Construction of the runtime

    [Runtime::new] and [Runtime::new_supervised] succeed exactly on contexts
    with the expected identities and generations and a non-zero root, and then
    establish the invariant; every failed publication leaves a runtime without
    any authority. *)

From S2P Require Import Prelude RuntimeTypes Capability CapabilityProofs Runtime RuntimeOps.
From S2P Require Import RuntimeInv RuntimeProgress SupervisedProgress RuntimeTeardown.

(** ** Tables built during publication *)

(** [entries] installed in the first slots of a fresh table. *)
Fixpoint install_entries (entries : list CapabilityEntry) (slots : list CapabilitySlot)
    : list CapabilitySlot :=
  match entries, slots with
  | e :: es, s :: ss => cs_set_entry (Some e) s :: install_entries es ss
  | _, _ => slots
  end.

Definition table_with (st : CapabilityTableState) (task generation : Z)
    (entries : list CapabilityEntry) : CapabilityTable :=
  mkCapabilityTable task generation st
    (install_entries entries (replicate CAPABILITY_SLOT_COUNT CapabilitySlot_EMPTY)).

Definition coop_entry0 (g : Z) : CapabilityEntry :=
  mkCapabilityEntry 1 g OBJECT_TYPE_ENDPOINT (Z.lor CAPABILITY_RIGHT_SEND CAPABILITY_RIGHT_DUPLICATE)
    (mkObjectReference ENDPOINT_ID ENDPOINT_GENERATION).
Definition coop_entry1 (g : Z) : CapabilityEntry :=
  mkCapabilityEntry 2 g OBJECT_TYPE_ENDPOINT CAPABILITY_RIGHT_RECEIVE
    (mkObjectReference ENDPOINT_ID ENDPOINT_GENERATION).

Definition sup_entry (ty rights : Z) : CapabilityEntry :=
  mkCapabilityEntry 1 SUPERVISOR_GENERATION ty rights (mkObjectReference 1 FIXED_OBJECT_GENERATION).
Definition sup_entries : list CapabilityEntry :=
  [ sup_entry OBJECT_TYPE_TASK_CONTROL CAPABILITY_RIGHT_START;
    sup_entry OBJECT_TYPE_APPROVAL_BROKER CAPABILITY_RIGHT_DECIDE_APPROVAL;
    sup_entry OBJECT_TYPE_TEST_EFFECT CAPABILITY_RIGHT_COMMIT_EFFECT ].

(** The published runtimes. *)
Definition coop_initial (s0 s1 : TaskContextV1) : Runtime :=
  {| rt_profile := Cooperative;
     rt_task0 := mkTaskSlot 1 (tc_generation s0) Ready s0
                   (table_with TableLive 1 (tc_generation s0) [coop_entry0 (tc_generation s0)]);
     rt_task1 := mkTaskSlot 2 (tc_generation s1) Ready s1
                   (table_with TableLive 2 (tc_generation s1) [coop_entry1 (tc_generation s1)]);
     rt_queue := queue_of [2; 1];
     rt_endpoint := mkEndpointSnapshot 1 1 (tc_generation s0) 2 (tc_generation s1) false 0;
     rt_manifest := ManifestPublication_EMPTY;
     rt_broker := ApprovalBroker_DEAD;
     rt_effect := SyntheticEffect_EMPTY |}.

Definition sup_initial (s0 s1 : TaskContextV1) : Runtime :=
  {| rt_profile := Supervised;
     rt_task0 := mkTaskSlot 1 SUPERVISOR_GENERATION Ready s0
                   (table_with TableLive 1 SUPERVISOR_GENERATION sup_entries);
     rt_task1 := mkTaskSlot 2 WORKLOAD_GENERATION Staged s1
                   (table_building RECEIVER_TASK_ID WORKLOAD_GENERATION);
     rt_queue := queue_of [1];
     rt_endpoint := EMPTY_ENDPOINT;
     rt_manifest := ManifestPublication_EMPTY;
     rt_broker := ab_set_state BrokerEmpty (broker_building SUPERVISOR_GENERATION WORKLOAD_GENERATION);
     rt_effect := mkSyntheticEffect FIXED_OBJECT_GENERATION SENDER_TASK_ID SUPERVISOR_GENERATION false 0 |}.

(** ** Well-formedness of the published tables *)

Lemma table_with_one_wf task g e :
  task <> 0 -> g <> 0 -> entry_wf (table_with TableLive task g [e]) e ->
  table_wf (table_with TableLive task g [e]).
Proof.
  intros Ht Hg He. split; simpl; try done.
  intros s [->|Hs]%elem_of_cons.
  - unfold slot_wf. simpl. unfold CAPABILITY_GENERATION_MAX. split; [lia|]. split; [done|].
    by intros e' [= <-].
  - assert (s = CapabilitySlot_EMPTY) as ->; [|apply empty_slot_wf].
    change (s ∈ replicate 15 CapabilitySlot_EMPTY) in Hs. by apply elem_of_replicate in Hs as [? _].
Qed.

Lemma sup_table_wf : table_wf (table_with TableLive 1 SUPERVISOR_GENERATION sup_entries).
Proof. apply table_wfb_wf. by vm_compute. Qed.

Lemma coop_initial_inv s0 s1 :
  tc_task_id s0 = 1 -> tc_task_id s1 = 2 -> tc_generation s0 <> 0 -> tc_generation s1 <> 0 ->
  tc_root s0 <> 0 -> tc_root s1 <> 0 -> rt_inv (coop_initial s0 s1).
Proof.
  intros Hi0 Hi1 Hg0 Hg1 Hr0 Hr1. split.
  - split; simpl; try done. by apply table_with_one_wf.
  - split; simpl; try done. by apply table_with_one_wf.
  - exists [2; 1]. split; [done|]. split; simpl.
    + repeat constructor; set_solver.
    + intros x Hx. set_solver.
    + split; [done|]. set_solver.
    + split; [done|]. set_solver.
    + unfold active. simpl. naive_solver.
  - split; simpl; try done.
    intros s e [->|Hs]%elem_of_cons; simpl; [by intros [= <-]|].
    change (s ∈ replicate 15 CapabilitySlot_EMPTY) in Hs. by apply elem_of_replicate in Hs as [-> _].
Qed.

Lemma sup_initial_inv s0 s1 :
  tc_task_id s0 = 1 -> tc_task_id s1 = 2 ->
  tc_generation s0 = SUPERVISOR_GENERATION -> tc_generation s1 = WORKLOAD_GENERATION ->
  tc_root s0 <> 0 -> tc_root s1 <> 0 -> rt_inv (sup_initial s0 s1).
Proof.
  intros Hi0 Hi1 Hg0 Hg1 Hr0 Hr1. split.
  - split; simpl; try done. apply sup_table_wf.
  - split; simpl; try done. by apply table_building_wf.
  - exists [1]. split; [done|]. split; simpl.
    + repeat constructor; set_solver.
    + intros x Hx. set_solver.
    + split; [done|]. set_solver.
    + split; [set_solver|done].
    + unfold active. simpl. naive_solver.
  - split; simpl; try done.
Qed.

(** ** Publication *)

Lemma install_building_fresh task g rights :
  task <> 0 -> g <> 0 -> valid_rights OBJECT_TYPE_ENDPOINT rights = true ->
  table_install_building rights (table_building task g) =
  (Ok 16, table_with TableBuilding task g
            [mkCapabilityEntry task g OBJECT_TYPE_ENDPOINT rights
               (mkObjectReference ENDPOINT_ID ENDPOINT_GENERATION)]).
Proof.
  intros Ht%Z.eqb_neq Hg%Z.eqb_neq Hr.
  unfold table_install_building, table_install_object_building. simpl.
  by rewrite Hr, Ht, Hg.
Qed.

Lemma or_rollback_ok {A} undo (m : M Runtime RuntimeError A) r a r' :
  m r = (Ok a, r') -> or_rollback undo m r = (Ok a, r').
Proof. unfold or_rollback. by intros ->. Qed.

Lemma publish_initial_eq s0 s1 :
  tc_generation s0 <> 0 -> tc_generation s1 <> 0 ->
  publish_initial None (unpublished s0 s1) =
  match validate (coop_initial s0 s1) with
  | Ok u => (Ok u, coop_initial s0 s1)
  | Err e => (Err e, rollback_publication [(1, 16); (2, 16)] (coop_initial s0 s1))
  end.
Proof.
  intros Hg0 Hg1. unfold publish_initial.
  erewrite bindM_step.
  2: { unfold publish_initial_steps. change (fails_before None 0) with false. cbv iota.
       erewrite bindM_step.
       2: { apply or_rollback_ok, capabilities_step_ok; [by left|].
            by apply install_building_fresh. }
       change (fails_before None 1) with false. cbv iota.
       erewrite bindM_step.
       2: { apply or_rollback_ok, capabilities_step_ok; [by right|].
            by apply install_building_fresh. }
       reflexivity. }
  change (fails_before None 2) with false. cbv iota zeta.
  erewrite bindM_step by (apply or_rollback_ok, capabilities_step_ok; [by left|reflexivity]).
  erewrite bindM_step by (apply or_rollback_ok, capabilities_step_ok; [by right|reflexivity]).
  erewrite bindM_step by reflexivity.
  transitivity (or_rollback (rollback_publication [(1, 16); (2, 16)]) (readM validate)
                  (coop_initial s0 s1)); [reflexivity|].
  unfold or_rollback, readM. by destruct (validate (coop_initial s0 s1)).
Qed.

Lemma publish_supervisor_eq s0 s1 :
  tc_generation s0 = SUPERVISOR_GENERATION -> tc_generation s1 = WORKLOAD_GENERATION ->
  publish_supervisor None (unpublished_supervised s0 s1) =
  match validate (sup_initial s0 s1) with
  | Ok u => (Ok u, sup_initial s0 s1)
  | Err e => (Err e, rollback_supervisor_publication [16; 17; 18] (sup_initial s0 s1))
  end.
Proof.
  intros Hg0 Hg1. unfold publish_supervisor, unpublished_supervised. rewrite Hg0, Hg1.
  transitivity (or_rollback (rollback_supervisor_publication [16; 17; 18]) (readM validate)
                  (sup_initial s0 s1)); [reflexivity|].
  unfold or_rollback, readM. by destruct (validate (sup_initial s0 s1)).
Qed.

(** A zero root is refused by the validator. *)
Lemma validate_root r task :
  ts_state (task_slot r task) <> TaskDead -> valid_task task ->
  validate r = Ok tt -> tc_root (ts_context (task_slot r task)) <> 0.
Proof.
  intros Hnd%is_state_false Ht Hv Hroot. unfold validate in Hv. cbv zeta in Hv.
  head_if_in Hv E1; [done|]. head_if_in Hv E2; [done|]. head_if_in Hv E3; [done|].
  assert (Hslot : validate_slot (rt_queue r) (task_slot r task) = Ok tt).
  { destruct (validate_slot (rt_queue r) (rt_task0 r)) as [[]|] eqn:V0; [|done].
    destruct (validate_slot (rt_queue r) (rt_task1 r)) as [[]|] eqn:V1; [|done].
    by destruct Ht as [-> | ->]. }
  unfold validate_slot in Hslot. cbv zeta in Hslot.
  destruct (table_validate _); [|done]. head_if_in Hslot E4; [done|].
  rewrite Hnd, Hroot in Hslot. rewrite Z.eqb_refl, orb_true_r in Hslot. done.
Qed.

(** ** Rollback *)

(** A runtime that grants nothing: both tasks dead with dead tables, nothing
    queued, no manifest, no broker, no effect object. *)
Definition powerless (r : Runtime) : Prop :=
  rt_task0 r = slot_kill (rt_task0 r) /\ rt_task1 r = slot_kill (rt_task1 r) /\
  rt_queue r = queue_new /\ rt_manifest r = ManifestPublication_EMPTY /\
  rt_broker r = ApprovalBroker_DEAD /\ rt_effect r = SyntheticEffect_EMPTY.

Lemma rollback_publication_powerless installed r :
  powerless (rollback_publication installed r) /\
  rt_endpoint (rollback_publication installed r) = EMPTY_ENDPOINT.
Proof. done. Qed.

Lemma rollback_supervisor_powerless installed r :
  powerless (rollback_supervisor_publication installed r).
Proof. done. Qed.

Lemma or_rollback_Err {A} undo (m : M Runtime RuntimeError A) r e r' :
  or_rollback undo m r = (Err e, r') -> exists r1, r' = undo r1.
Proof. unfold or_rollback. destruct (m r) as [[|] ?]; naive_solver. Qed.

Lemma bindM_Err {A B} (m : M Runtime RuntimeError A) (k : A -> M Runtime RuntimeError B) r e r' :
  bindM m k r = (Err e, r') ->
  m r = (Err e, r') \/ exists a r1, m r = (Ok a, r1) /\ k a r1 = (Err e, r').
Proof. unfold bindM. destruct (m r) as [[|] ?] eqn:E; naive_solver. Qed.

Lemma publish_initial_steps_Err fail steps installed r e r' :
  publish_initial_steps fail steps installed r = (Err e, r') ->
  exists done r1, r' = rollback_publication done r1.
Proof.
  revert installed r. induction steps as [|[[step task] rights] steps IH]; intros installed r; [done|].
  simpl. destruct (fails_before fail step).
  - intros [= _ <-]. eauto.
  - intros [H|(h & r1 & _ & H)]%bindM_Err; [|eauto].
    apply or_rollback_Err in H as [r1 ->]. eauto.
Qed.

Lemma publish_supervisor_steps_Err fail steps installed r e r' :
  publish_supervisor_steps fail steps installed r = (Err e, r') ->
  exists done r1, r' = rollback_supervisor_publication done r1.
Proof.
  revert installed r.
  induction steps as [|[[[step ty] id] rights] steps IH]; intros installed r; [done|].
  simpl. destruct (fails_before fail step).
  - intros [= _ <-]. eauto.
  - intros [H|(h & r1 & _ & H)]%bindM_Err; [|eauto].
    apply or_rollback_Err in H as [r1 ->]. eauto.
Qed.

Lemma publish_initial_Err fail r e r' :
  publish_initial fail r = (Err e, r') -> exists done r1, r' = rollback_publication done r1.
Proof.
  unfold publish_initial.
  intros [H|(installed & r1 & _ & H)]%bindM_Err; [by eapply publish_initial_steps_Err|].
  cbv zeta in H. destruct (fails_before fail 2).
  - injection H as _ <-. eauto.
  - apply bindM_Err in H as [[r2 ->]%or_rollback_Err|(? & r2 & _ & H)]; [eauto|].
    apply bindM_Err in H as [[r3 ->]%or_rollback_Err|(? & r3 & _ & H)]; [eauto|].
    apply bindM_Err in H as [H|(? & r4 & _ & H)]; [done|].
    apply or_rollback_Err in H as [r5 ->]. eauto.
Qed.

Lemma publish_supervisor_Err fail r e r' :
  publish_supervisor fail r = (Err e, r') ->
  exists done r1, r' = rollback_supervisor_publication done r1.
Proof.
  unfold publish_supervisor.
  intros [H|(installed & r1 & _ & H)]%bindM_Err; [by eapply publish_supervisor_steps_Err|].
  cbv zeta in H. destruct (fails_before fail 3).
  - injection H as _ <-. eauto.
  - apply bindM_Err in H as [[r2 ->]%or_rollback_Err|(? & r2 & _ & H)]; [eauto|].
    apply bindM_Err in H as [H|(? & r3 & _ & H)]; [done|].
    destruct (fails_before fail 4).
    + injection H as _ <-. eauto.
    + apply or_rollback_Err in H as [r4 ->]. eauto.
Qed.

Lemma construct_injected s0 s1 k :
  (k <= 2)%nat -> tc_generation s0 <> 0 -> tc_generation s1 <> 0 ->
  construct s0 s1 (Some k) = Err PublicationFailure.
Proof.
  intros Hk Hg0 Hg1.
  assert (H : exists r', publish_initial (Some k) (unpublished s0 s1) = (Err PublicationFailure, r')).
  2: { destruct H as [r' Hr]. unfold construct. by rewrite Hr. }
  destruct k as [|[|[|k]]]; [| | |lia].
  - eexists. reflexivity.
  - eexists. unfold publish_initial, publish_initial_steps.
    change (fails_before (Some 1%nat) 0) with false. change (fails_before (Some 1%nat) 1) with true.
    cbv iota. unfold bindM at 1. erewrite bindM_step.
    2: { apply or_rollback_ok, capabilities_step_ok; [by left|]. by apply install_building_fresh. }
    reflexivity.
  - eexists. unfold publish_initial, publish_initial_steps.
    change (fails_before (Some 2%nat) 0) with false. change (fails_before (Some 2%nat) 1) with false.
    change (fails_before (Some 2%nat) 2) with true. cbv iota.
    erewrite bindM_step.
    2: { erewrite bindM_step.
         2: { apply or_rollback_ok, capabilities_step_ok; [by left|]. by apply install_building_fresh. }
         erewrite bindM_step.
         2: { apply or_rollback_ok, capabilities_step_ok; [by right|]. by apply install_building_fresh. }
         reflexivity. }
    reflexivity.
Qed.

(** ** Theorems *)

(** The contexts [Runtime::new] accepts. *)
Definition coop_contexts (s0 s1 : TaskContextV1) : Prop :=
  tc_task_id s0 = SENDER_TASK_ID /\ tc_task_id s1 = RECEIVER_TASK_ID /\
  tc_generation s0 <> 0 /\ tc_generation s1 <> 0 /\ tc_generation s0 <> tc_generation s1 /\
  tc_root s0 <> 0 /\ tc_root s1 <> 0.

(** The contexts [Runtime::new_supervised] accepts. *)
Definition sup_contexts (s0 s1 : TaskContextV1) : Prop :=
  tc_task_id s0 = SENDER_TASK_ID /\ tc_task_id s1 = RECEIVER_TASK_ID /\
  tc_generation s0 = SUPERVISOR_GENERATION /\ tc_generation s1 = WORKLOAD_GENERATION /\
  tc_root s0 <> 0 /\ tc_root s1 <> 0.

Lemma runtime_new_eq s0 s1 :
  coop_contexts s0 s1 -> Runtime_new s0 s1 = Ok (coop_initial s0 s1).
Proof.
  intros (Hi0 & Hi1 & Hg0 & Hg1 & Hne & Hr0 & Hr1). unfold Runtime_new, construct.
  rewrite Hi0, Hi1, !Z.eqb_refl, (proj2 (Z.eqb_neq _ _) Hg0), (proj2 (Z.eqb_neq _ _) Hg1),
    (proj2 (Z.eqb_neq _ _) Hne). cbn [negb orb].
  rewrite publish_initial_eq by done.
  by rewrite rt_inv_validate by (by apply coop_initial_inv).
Qed.

Lemma runtime_new_supervised_eq s0 s1 :
  sup_contexts s0 s1 -> Runtime_new_supervised s0 s1 = Ok (sup_initial s0 s1).
Proof.
  intros (Hi0 & Hi1 & Hg0 & Hg1 & Hr0 & Hr1). unfold Runtime_new_supervised, construct_supervised.
  rewrite Hi0, Hi1, Hg0, Hg1, !Z.eqb_refl. cbn [negb orb].
  rewrite publish_supervisor_eq by done.
  by rewrite rt_inv_validate by (by apply sup_initial_inv).
Qed.

Lemma runtime_new_accepts s0 s1 r : Runtime_new s0 s1 = Ok r -> coop_contexts s0 s1.
Proof.
  unfold Runtime_new, coop_contexts. intros H.
  head_if_in H E1; [done|]. head_if_in H E2; [done|]. head_if_in H E3; [done|].
  b2p. destruct E1 as [? ?], E2 as [Hg0 Hg1].
  unfold construct in H. rewrite publish_initial_eq in H by done.
  destruct (validate (coop_initial s0 s1)) as [[]|] eqn:Hv; [|done].
  pose proof (validate_root (coop_initial s0 s1) 1 ltac:(done) (or_introl eq_refl) Hv).
  pose proof (validate_root (coop_initial s0 s1) 2 ltac:(done) (or_intror eq_refl) Hv).
  by split_and!.
Qed.

Lemma runtime_new_supervised_accepts s0 s1 r :
  Runtime_new_supervised s0 s1 = Ok r -> sup_contexts s0 s1.
Proof.
  unfold Runtime_new_supervised, sup_contexts. intros H.
  head_if_in H E1; [done|]. head_if_in H E2; [done|].
  b2p. destruct E1 as [? ?], E2 as [Hg0 Hg1].
  unfold construct_supervised in H. rewrite publish_supervisor_eq in H by done.
  destruct (validate (sup_initial s0 s1)) as [[]|] eqn:Hv; [|done].
  pose proof (validate_root (sup_initial s0 s1) 1 ltac:(done) (or_introl eq_refl) Hv).
  pose proof (validate_root (sup_initial s0 s1) 2 ltac:(done) (or_intror eq_refl) Hv).
  by split_and!.
Qed.

(** construction is exact and safe.  [Runtime::new] and
    [Runtime::new_supervised] succeed exactly on contexts with the expected task
    identities and generations and non-zero roots, and the runtime they return
    satisfies the invariant and its own validator. *)
Theorem construction_exact s0 s1 :
  ((exists r, Runtime_new s0 s1 = Ok r) <-> coop_contexts s0 s1) /\
  ((exists r, Runtime_new_supervised s0 s1 = Ok r) <-> sup_contexts s0 s1) /\
  (forall r, Runtime_new s0 s1 = Ok r \/ Runtime_new_supervised s0 s1 = Ok r ->
     rt_inv r /\ validate r = Ok tt).
Proof.
  split_and!.
  - split; [intros [r Hr]; by eapply runtime_new_accepts|].
    intros H. eexists. by apply runtime_new_eq.
  - split; [intros [r Hr]; by eapply runtime_new_supervised_accepts|].
    intros H. eexists. by apply runtime_new_supervised_eq.
  - intros r Hr. assert (Hi : rt_inv r); [|split; [done|by apply rt_inv_validate]].
    destruct Hr as [Hr|Hr].
    + pose proof (runtime_new_accepts _ _ _ Hr) as Hc. rewrite runtime_new_eq in Hr by done.
      injection Hr as <-. destruct Hc as (?&?&?&?&?&?&?). by apply coop_initial_inv.
    + pose proof (runtime_new_supervised_accepts _ _ _ Hr) as Hc.
      rewrite runtime_new_supervised_eq in Hr by done.
      injection Hr as <-. destruct Hc as (?&?&?&?&?&?). by apply sup_initial_inv.
Qed.

(** A failed publication leaves no authority behind.  Whatever the step at
    which [publish_initial] or [publish_supervisor] fails, injected or not, both
    tasks are dead with empty dead tables and queue, manifest, broker and effect
    are cleared; an injected failure is always reported. *)
Theorem publication_rollback_total fail r :
  (forall e r', publish_initial fail r = (Err e, r') ->
     powerless r' /\ rt_endpoint r' = EMPTY_ENDPOINT) /\
  (forall e r', publish_supervisor fail r = (Err e, r') -> powerless r') /\
  (forall s0 s1 k, (k <= 2)%nat -> coop_contexts s0 s1 ->
     construct s0 s1 (Some k) = Err PublicationFailure) /\
  (forall s0 s1 k, (k <= 4)%nat -> sup_contexts s0 s1 ->
     construct_supervised s0 s1 (Some k) = Err PublicationFailure).
Proof.
  split_and!.
  - intros e r' (d & r1 & ->)%publish_initial_Err. apply rollback_publication_powerless.
  - intros e r' (d & r1 & ->)%publish_supervisor_Err. apply rollback_supervisor_powerless.
  - intros s0 s1 k Hk (_ & _ & Hg0 & Hg1 & _). by apply construct_injected.
  - intros s0 s1 k Hk (_ & _ & Hg0 & Hg1 & _).
    unfold construct_supervised, unpublished_supervised. rewrite Hg0, Hg1.
    destruct k as [|[|[|[|[|k]]]]]; [| | | | |lia]; reflexivity.
Qed.
