(* ===== verification/RuntimeTheorems.v ===== *)
(** * Theorems about the task runtime

    Progress of traps and teardowns, reachability, atomicity of failed calls
    and transactional launch. *)

From S2P Require Import Prelude RuntimeTypes Capability CapabilityProofs Runtime RuntimeOps.
From S2P Require Import RuntimeInv RuntimeProgress SupervisedProgress RuntimeTeardown.
From S2P Require Import RuntimeConstruct.

(** ** Completion of a teardown *)

(** After [complete_teardown]: a task runs, or everything is gone. *)
Definition teardown_outcome (next : option Z) (r : Runtime) : Prop :=
  match next with
  | Some task => valid_task task /\ ts_state (task_slot r task) = Running
  | None =>
      ts_state (rt_task0 r) = TaskDead /\ ts_state (rt_task1 r) = TaskDead /\
      rt_endpoint r = EMPTY_ENDPOINT /\ rt_manifest r = ManifestPublication_EMPTY /\
      rt_broker r = ApprovalBroker_DEAD /\ rt_effect r = SyntheticEffect_EMPTY
  end.

(** The other task, when [task] is torn down, is ready or dead, except for a
    workload that was never launched. *)
Lemma torn_other r task :
  rt_inv r -> valid_task task -> ts_state (task_slot r task) = Exited ->
  ct_state (ts_capabilities (task_slot r task)) = TableClosing ->
  ts_state (task_slot r (3 - task)) = Ready \/ ts_state (task_slot r (3 - task)) = TaskDead \/
  (task = 1 /\ ts_state (rt_task1 r) = Staged).
Proof.
  intros Hi Ht Hex HC. destruct (ri_sched _ Hi) as (l & _ & [_ _ _ _ Ha]).
  pose proof (ri_profile _ Hi) as Hp. unfold profile_inv, active in *.
  destruct Ht as [-> | ->]; unfold task_slot in *; simpl in *.
  - destruct (rt_profile r).
    + destruct Hp as [_ _ _ _ Hs1 _ He]. pose proof (en_blocked _ _ _ He) as Hb.
      destruct (ts_state (rt_task1 r)); try done; auto; try naive_solver congruence.
    + destruct Hp as [_ _ Hs1 _ _ _ _ Hb _]. rewrite HC in Hb.
      destruct (ts_state (rt_task1 r)); try done; auto; try naive_solver congruence.
  - destruct (rt_profile r).
    + destruct Hp as [_ _ _ Hs0 _ _ _].
      destruct (ts_state (rt_task0 r)); try done; auto; naive_solver congruence.
    + destruct Hp as [_ Hs0 _ _ _ _ _ _ _].
      destruct (ts_state (rt_task0 r)); try done; auto; naive_solver congruence.
Qed.

Lemma torn_other_slot r task :
  valid_task task ->
  task_slot (torn task r) (3 - task) = task_slot r (3 - task) /\
  ts_state (task_slot (torn task r) task) = TaskDead.
Proof.
  intros Ht. destruct (torn_parts r task Ht) as (E0 & E1 & _).
  destruct Ht as [-> | ->]; unfold task_slot; simpl; rewrite E0, E1; done.
Qed.

Lemma both_dead_outcome r :
  rt_inv r -> ts_state (rt_task0 r) = TaskDead -> ts_state (rt_task1 r) = TaskDead ->
  teardown_outcome None r.
Proof.
  intros Hi H0 H1. pose proof (ri_profile _ Hi) as Hp. unfold profile_inv in Hp.
  destruct (slot_table_cases _ _ (ri_slot0 _ Hi)) as [_ Hd0].
  destruct (slot_table_cases _ _ (ri_slot1 _ Hi)) as [_ Hd1].
  destruct (rt_profile r).
  - destruct Hp as [? ? ? ? ? ? He]. pose proof (en_dead _ _ _ He H0 H1). by split_and!.
  - destruct Hp as [? ? ? ? ? ? Hm Hb He].
    rewrite (proj1 Hd0 H0) in Hb, He. rewrite (proj1 Hd1 H1) in Hm.
    destruct Hb. by split_and!.
Qed.

Lemma complete_teardown_ok r task :
  rt_inv r -> valid_task task -> ts_state (task_slot r task) = Exited ->
  ct_state (ts_capabilities (task_slot r task)) = TableClosing ->
  ~ (task = 1 /\ ts_state (rt_task1 r) = Staged) ->
  exists next r', complete_teardown task r = (Ok next, r') /\ rt_inv r' /\ teardown_outcome next r'.
Proof.
  intros Hi Ht Hex HC Hns. destruct (torn_inv r task Hi Ht Hex HC) as [Hi' Hna].
  destruct (torn_other_slot r task Ht) as [Eo Ed].
  assert (Hin : exists next r', complete_teardown_inner task r = (Ok next, r') /\
                                rt_inv r' /\ teardown_outcome next r').
  2: { destruct Hin as (n & r' & Heq & ?). exists n, r'. split; [|done].
       by apply transactional_ok. }
  rewrite complete_teardown_torn by done.
  rewrite (readM_step _ _ _ tt) by (by apply rt_inv_validate).
  destruct (ri_sched _ Hi') as (l & Hq & Hs).
  destruct (torn_other r task Hi Ht Hex HC) as [Hr|[Hd|?]]; [| |done].
  - assert (Ht' : valid_task (3 - task)) by (destruct Ht as [-> | ->]; [by right|by left]).
    assert (Hin : 3 - task ∈ l) by (apply (sched_rt_ready _ l _ Ht' Hs); congruence).
    destruct l as [|next l]; [by apply elem_of_nil in Hin|].
    destruct (dispatch_next_ok _ next l Hi' Hna Hq) as [Hd Hi2].
    eexists _, _. split; [exact Hd|]. split; [done|].
    destruct (sched_rt_pop _ l next Hs Hna) as (Hn & _). split; [done|].
    by apply dispatched_running.
  - assert (Hdd : ts_state (rt_task0 (torn task r)) = TaskDead /\ ts_state (rt_task1 (torn task r)) = TaskDead).
    { rewrite <-Eo in Hd. destruct Ht as [-> | ->]; done. }
    destruct Hdd as [Hd0 Hd1].
    assert (l = []) as ->.
    { destruct (sched_shape _ _ _ Hs) as [->|[->|[->|[->| ->]]]]; [done|exfalso..].
      - assert (1 ∈ [1]) as Hx by set_solver. apply (sc_ready0 _ _ _ Hs) in Hx. congruence.
      - assert (2 ∈ [2]) as Hx by set_solver. apply (sc_ready1 _ _ _ Hs) in Hx. congruence.
      - assert (1 ∈ [1; 2]) as Hx by set_solver. apply (sc_ready0 _ _ _ Hs) in Hx. congruence.
      - assert (1 ∈ [2; 1]) as Hx by set_solver. apply (sc_ready0 _ _ _ Hs) in Hx. congruence. }
    eexists _, _. split; [by apply dispatch_next_none|]. split; [done|]. by apply both_dead_outcome.
Qed.

(** The one teardown that cannot be completed: a supervisor that exits before
    it launched its workload. *)
Lemma complete_teardown_staged r :
  rt_inv r -> ts_state (rt_task0 r) = Exited ->
  ct_state (ts_capabilities (rt_task0 r)) = TableClosing -> ts_state (rt_task1 r) = Staged ->
  complete_teardown 1 r = (Err NoRunnableTask, r).
Proof.
  intros Hi Hex HC Hst. assert (Ht : valid_task 1) by (by left).
  destruct (torn_inv r 1 Hi Ht Hex HC) as [Hi' Hna].
  destruct (torn_parts r 1 Ht) as (E0 & E1 & _).
  unfold complete_teardown, transactional. rewrite complete_teardown_torn by done.
  rewrite (readM_step _ _ _ tt) by (by apply rt_inv_validate).
  destruct (ri_sched _ Hi') as (l & Hq & Hs).
  assert (l = []) as ->.
  { assert (H1 : 1 ∉ l) by (rewrite (sc_ready0 _ _ _ Hs), E0; done).
    assert (H2 : 2 ∉ l) by (rewrite (sc_ready1 _ _ _ Hs), E1; simpl; congruence).
    destruct (sched_shape _ _ _ Hs) as [->|[->|[->|[->| ->]]]]; set_solver. }
  rewrite dispatch_next_stuck; [done|done|done|]. right. rewrite E1. simpl. congruence.
Qed.

(** ** Runs of the kernel *)

(** What the kernel does with the runtime: the first dispatch, saving the
    registers of the running task on a trap, handling the trap, and the two
    halves of a teardown.  The kernel passes the root it runs the task with,
    which is not zero, and dispatches only when no teardown is pending. *)
Inductive kernel_step (r r' : Runtime) : Prop :=
| ks_dispatch task :
    none_active r -> dispatch_next r = (Ok (Some task), r') -> kernel_step r r'
| ks_capture task frame root generation :
    root <> 0 -> capture_trap task frame root generation r = (Ok tt, r') -> kernel_step r r'
| ks_trap task outcome :
    handle_trap task r = (Ok outcome, r') -> kernel_step r r'
| ks_begin task :
    begin_teardown task r = (Ok tt, r') -> kernel_step r r'
| ks_complete task next :
    complete_teardown task r = (Ok next, r') -> kernel_step r r'.

Lemma slot_Ok_valid r task s : slot r task = Ok s -> valid_task task /\ s = task_slot r task.
Proof.
  unfold slot, task_slot, valid_task. destruct (Z.eqb_spec task SENDER_TASK_ID) as [->|]; [naive_solver|].
  destruct (Z.eqb_spec task RECEIVER_TASK_ID) as [->|]; naive_solver.
Qed.

Lemma read_slot_Ok {A} r task (k : TaskSlot -> M Runtime RuntimeError A) a r' :
  bindM (readM (fun r => slot r task)) k r = (Ok a, r') ->
  valid_task task /\ k (task_slot r task) r = (Ok a, r').
Proof.
  unfold bindM, readM. destruct (slot r task) eqn:Hs; [|done].
  apply slot_Ok_valid in Hs as [? ->]. done.
Qed.

(** With an empty queue there is nothing to dispatch. *)
Lemma dispatch_empty r res r' :
  none_active r -> rt_queue r = queue_of [] -> dispatch_next r = (Ok res, r') -> res = None /\ r' = r.
Proof.
  intros Hna Hq Hd. unfold dispatch_next in Hd. unfold bindM at 1, getM in Hd.
  rewrite not_running in Hd by done. rewrite (bindM_step _ _ _ None r) in Hd.
  - destruct (forallb _ _); [|done]. by injection Hd as <- <-.
  - unfold rt_queue_pop. rewrite Hq, queue_pop_nil, <-Hq. by destruct r.
Qed.

Lemma dispatch_step_inv r task r' :
  rt_inv r -> none_active r -> dispatch_next r = (Ok (Some task), r') -> rt_inv r'.
Proof.
  intros Hi Hna Hd. destruct (ri_sched _ Hi) as ([|x l] & Hq & Hs).
  - by destruct (dispatch_empty _ _ _ Hna Hq Hd).
  - destruct (dispatch_next_ok r x l Hi Hna Hq) as [Heq Hi']. rewrite Heq in Hd.
    by injection Hd as _ <-.
Qed.

Lemma capture_step_inv r task frame root generation r' :
  rt_inv r -> root <> 0 -> capture_trap task frame root generation r = (Ok tt, r') ->
  rt_inv r' /\ running_task r' = running_task r.
Proof.
  intros Hi Hroot Hc. unfold capture_trap in Hc. apply read_slot_Ok in Hc as [Ht Hc].
  head_if_in Hc E; [done|]. b2p. destruct E as [Hrun Hg].
  rewrite slot_mut_valid in Hc by done. injection Hc as <-.
  set (c := context_from_trap frame task generation root).
  split.
  - pose proof (rt_inv_slot r task Ht Hi) as [Hid Hwf Hst Hl Hd].
    assert (Hsl : slot_inv task (ts_set_context c (task_slot r task))).
    { split; simpl; try done.
      - intros _. destruct Hl as (? & ? & ? & ? & ? & ?); [congruence|]. by split_and!.
      - rewrite Hrun. done. }
    destruct Hi as [I0 I1 (l & Hq & Hs) Hp].
    destruct Ht as [-> | ->]; (split; [done|done|exists l; split; [done|];
      by eapply sched_inv_state; [| |exact Hs]|]).
    all: unfold profile_inv in *; simpl; destruct (rt_profile r);
      destruct Hp; split; try done; by destruct co_endpoint.
  - unfold running_task. by destruct Ht as [-> | ->].
Qed.

Lemma trap_step_inv r task o r' : rt_inv r -> handle_trap task r = (Ok o, r') -> rt_inv r'.
Proof.
  intros Hi Htrap. destruct (running_task r) as [t|] eqn:Hrun.
  - destruct (decide (t = task)) as [->|Hne].
    + destruct (handle_trap_ok r task Hi Hrun) as (o' & r1 & Heq & Hi' & _).
      rewrite Heq in Htrap. by injection Htrap as _ <-.
    + unfold handle_trap in Htrap. rewrite transactional_ok in Htrap.
      unfold handle_trap_inner in Htrap. rewrite (readM_step _ _ _ t Hrun) in Htrap.
      by rewrite (proj2 (Z.eqb_neq _ _) Hne) in Htrap.
  - unfold handle_trap in Htrap. rewrite transactional_ok in Htrap.
    unfold handle_trap_inner, bindM, readM in Htrap. by rewrite Hrun in Htrap.
Qed.

(** A teardown can only begin for an exited task whose table is still live. *)
Lemma begin_teardown_live r task r' :
  begin_teardown task r = (Ok tt, r') ->
  valid_task task /\ ts_state (task_slot r task) = Exited /\
  ct_state (ts_capabilities (task_slot r task)) = TableLive.
Proof.
  intros Hb. unfold begin_teardown in Hb. rewrite transactional_ok in Hb.
  unfold begin_teardown_inner in Hb. apply read_slot_Ok in Hb as [Ht Hb].
  destruct (is_state Exited (task_slot r task)) eqn:Hex; [|done].
  apply is_state_true in Hex. cbn [negb] in Hb. unfold bindM at 1, getM in Hb.
  split; [done|]. split; [done|].
  destruct (decide (ct_state (ts_capabilities (task_slot r task)) = TableLive)) as [HL|HL]; [done|exfalso].
  assert (Hf : forall (A : Type) (m : M CapabilityTable RuntimeError A) (e : RuntimeError),
    m (ts_capabilities (task_slot r task)) = (Err e, ts_capabilities (task_slot r task)) ->
    exists r1, capabilities_step task m r = (Err e, r1)).
  { intros A m e Hm. unfold capabilities_step.
    rewrite (bindM_step _ _ _ _ _ (on_capabilities_valid task m r _ _ Ht Hm)). eexists. done. }
  assert (Hm : table_mark_closing (ts_capabilities (task_slot r task)) =
               (Err WrongState, ts_capabilities (task_slot r task))).
  { unfold table_mark_closing. by rewrite bool_decide_eq_false_2. }
  assert (Hm' : table_begin_closing (ts_capabilities (task_slot r task)) =
               (Err WrongState, ts_capabilities (task_slot r task))).
  { unfold table_begin_closing, bindM. by rewrite Hm. }
  destruct (rt_profile r).
  - destruct (Hf _ _ _ Hm') as [r1 Hr1]. unfold begin_teardown_cooperative in Hb.
    unfold bindM at 1 in Hb. by rewrite Hr1 in Hb.
  - destruct (Hf _ _ _ Hm) as [r1 Hr1]. unfold begin_teardown_supervised in Hb.
    unfold bindM at 1 in Hb. by rewrite Hr1 in Hb.
Qed.

Lemma begin_step_inv r task r' : rt_inv r -> begin_teardown task r = (Ok tt, r') -> rt_inv r'.
Proof.
  intros Hi Hb. destruct (begin_teardown_live r task r' Hb) as (Ht & Hex & HL).
  destruct (begin_teardown_ok r task Hi Ht Hex HL) as (r1 & Heq & Hi' & _).
  rewrite Heq in Hb. by injection Hb as <-.
Qed.

(** A completion needs an exited task with a closed table, and does not happen
    for a supervisor whose workload was never launched. *)
Lemma complete_teardown_enabled r task next r' :
  rt_inv r -> complete_teardown task r = (Ok next, r') ->
  valid_task task /\ ts_state (task_slot r task) = Exited /\
  ct_state (ts_capabilities (task_slot r task)) = TableClosing /\
  ~ (task = 1 /\ ts_state (rt_task1 r) = Staged).
Proof.
  intros Hi Hc. pose proof Hc as Hc0. unfold complete_teardown in Hc. rewrite transactional_ok in Hc.
  unfold complete_teardown_inner in Hc. apply read_slot_Ok in Hc as [Ht Hc].
  head_if_in Hc E; [done|]. b2p. destruct E as [Hex HC]. split_and!; try done.
  intros [-> Hst]. by rewrite complete_teardown_staged in Hc0.
Qed.

Lemma complete_step_inv r task next r' :
  rt_inv r -> complete_teardown task r = (Ok next, r') -> rt_inv r'.
Proof.
  intros Hi Hc. destruct (complete_teardown_enabled r task next r' Hi Hc) as (Ht & Hex & HC & Hns).
  destruct (complete_teardown_ok r task Hi Ht Hex HC Hns) as (n & r1 & Heq & Hi' & _).
  rewrite Heq in Hc. by injection Hc as _ <-.
Qed.

Lemma kernel_step_inv r r' : rt_inv r -> kernel_step r r' -> rt_inv r'.
Proof.
  intros Hi [task Hna Hd|task f root g Hroot Hc|task o Htr|task Hb|task n Hc].
  - by eapply dispatch_step_inv.
  - by eapply capture_step_inv.
  - by eapply trap_step_inv.
  - by eapply begin_step_inv.
  - by eapply complete_step_inv.
Qed.

Lemma kernel_run_inv r r' : rt_inv r -> rtc kernel_step r r' -> rt_inv r'.
Proof. intros Hi Hrun. induction Hrun as [|x y z Hxy _ IH]; [done|]. by apply IH, (kernel_step_inv x). Qed.

(** *** Traces *)

(** A step of the kernel, named; a trap and the halves of a teardown are of a
    task. *)
Inductive kernel_action : Type :=
| ActDispatch
| ActCapture
| ActTrap (task : Z)
| ActBegin (task : Z)
| ActComplete (task : Z).

#[global] Instance kernel_action_eq_dec : EqDecision kernel_action.
Proof. solve_decision. Defined.

Inductive kernel_act (r : Runtime) : kernel_action -> Runtime -> Prop :=
| ka_dispatch task r' :
    none_active r -> dispatch_next r = (Ok (Some task), r') -> kernel_act r ActDispatch r'
| ka_capture task frame root generation r' :
    root <> 0 -> capture_trap task frame root generation r = (Ok tt, r') -> kernel_act r ActCapture r'
| ka_trap task outcome r' :
    handle_trap task r = (Ok outcome, r') -> kernel_act r (ActTrap task) r'
| ka_begin task r' :
    begin_teardown task r = (Ok tt, r') -> kernel_act r (ActBegin task) r'
| ka_complete task next r' :
    complete_teardown task r = (Ok next, r') -> kernel_act r (ActComplete task) r'.

(** A run with the states before and after every step, oldest first. *)
Record kernel_event : Type := mkEvent { ke_before : Runtime; ke_action : kernel_action; ke_after : Runtime }.

Inductive kernel_trace (r0 : Runtime) : list kernel_event -> Runtime -> Prop :=
| kt_start : kernel_trace r0 [] r0
| kt_step t r a r' : kernel_trace r0 t r -> kernel_act r a r' -> kernel_trace r0 (t ++ [mkEvent r a r']) r'.

Lemma kernel_act_step r a r' : kernel_act r a r' -> kernel_step r r'.
Proof. intros []; eauto using kernel_step. Qed.

Lemma kernel_act_inv r a r' : rt_inv r -> kernel_act r a r' -> rt_inv r'.
Proof. intros Hi Ha%kernel_act_step. by eapply kernel_step_inv. Qed.

Lemma kernel_trace_inv r0 t r : rt_inv r0 -> kernel_trace r0 t r -> rt_inv r.
Proof. intros Hi. induction 1; [done|]. by eapply kernel_act_inv. Qed.

(** A trap that is handled is one of the running task. *)
Lemma trap_running r task o r' : handle_trap task r = (Ok o, r') -> running_task r = Ok task.
Proof.
  intros H. unfold handle_trap in H. rewrite transactional_ok in H. unfold handle_trap_inner, bindM, readM in H.
  destruct (running_task r) as [t|]; [|done]. destruct (Z.eqb_spec t task) as [E|]; [by rewrite E|done].
Qed.

(** ** Concrete runtimes for the witnesses *)

Definition sample_context (task generation root : Z) : TaskContextV1 :=
  context_initial task generation root 4194304 8388608 27 35.

Definition coop_runtime : Runtime := coop_initial (sample_context 1 2 4096) (sample_context 2 3 8192).
Definition sup_runtime : Runtime :=
  sup_initial (sample_context 1 SUPERVISOR_GENERATION 4096) (sample_context 2 WORKLOAD_GENERATION 8192).

Lemma coop_runtime_inv : rt_inv coop_runtime.
Proof. by apply coop_initial_inv. Qed.

Lemma sup_runtime_inv : rt_inv sup_runtime.
Proof. by apply sup_initial_inv. Qed.

(** The first task to run in each profile. *)
Definition coop_running : Runtime := dispatched 2 [1] coop_runtime.
Definition sup_running : Runtime := dispatched 1 [] sup_runtime.

Lemma none_active_ready r :
  ts_state (rt_task0 r) = Ready \/ ts_state (rt_task0 r) = Staged ->
  ts_state (rt_task1 r) = Ready \/ ts_state (rt_task1 r) = Staged -> none_active r.
Proof. unfold none_active, active. naive_solver congruence. Qed.

Lemma coop_running_inv : rt_inv coop_running.
Proof.
  apply (dispatch_next_ok coop_runtime 2 [1]); [apply coop_runtime_inv| |done].
  apply none_active_ready; by left.
Qed.

Lemma sup_running_inv : rt_inv sup_running.
Proof.
  apply (dispatch_next_ok sup_runtime 1 []); [apply sup_runtime_inv| |done].
  apply none_active_ready; [by left|by right].
Qed.

Lemma exited_not_running r task :
  rt_inv r -> valid_task task -> ts_state (task_slot r task) = Exited ->
  running_task r = Err NoRunningTask.
Proof.
  intros Hi Ht Hex. destruct (ri_sched _ Hi) as (l & _ & [_ _ _ _ Ha]).
  unfold running_task, active in *. simpl.
  assert (H : ts_state (rt_task0 r) <> Running /\ ts_state (rt_task1 r) <> Running).
  { destruct Ht as [-> | ->]; unfold task_slot in Hex; simpl in Hex; naive_solver congruence. }
  destruct H as [H0 H1]. by rewrite !bool_decide_eq_false_2.
Qed.

Lemma complete_teardown_dead r task n r' :
  rt_inv r -> valid_task task -> complete_teardown task r = (Ok n, r') ->
  ts_state (task_slot r' task) = TaskDead.
Proof.
  intros Hi Ht Hc. unfold complete_teardown in Hc. rewrite transactional_ok in Hc.
  pose proof Hc as Hc0. unfold complete_teardown_inner in Hc. apply read_slot_Ok in Hc as [_ Hc].
  head_if_in Hc E; [done|]. b2p. destruct E as [Hex HC].
  rewrite complete_teardown_torn in Hc0 by done.
  destruct (torn_inv r task Hi Ht Hex HC) as [Hi' Hna].
  rewrite (readM_step _ _ _ tt) in Hc0 by (by apply rt_inv_validate).
  destruct (torn_other_slot r task Ht) as [_ Hd].
  destruct (ri_sched _ Hi') as ([|x l] & Hq & Hs).
  - by destruct (dispatch_empty _ _ _ Hna Hq Hc0) as [_ ->].
  - destruct (dispatch_next_ok _ x l Hi' Hna Hq) as [Heq _]. rewrite Heq in Hc0.
    injection Hc0 as _ <-. destruct (sched_rt_pop _ l x Hs Hna) as (Hx & Hr & _).
    assert (x <> task) by congruence.
    destruct Hx as [-> | ->], Ht as [-> | ->]; try done.
Qed.

(** ** Launch *)

Lemma launched_table_entries s e :
  s ∈ ct_slots launched_table -> cs_entry s = Some e ->
  ce_object_type e = OBJECT_TYPE_APPROVAL_BROKER /\ ce_rights e = CAPABILITY_RIGHT_SUBMIT_APPROVAL.
Proof.
  intros Hs He.
  assert (Hall : forallb (fun s => match cs_entry s with
      | Some e => (ce_object_type e =? OBJECT_TYPE_APPROVAL_BROKER)
                  && (ce_rights e =? CAPABILITY_RIGHT_SUBMIT_APPROVAL)
      | None => true end) (ct_slots launched_table) = true) by (by vm_compute).
  rewrite forallb_true in Hall. specialize (Hall s Hs). rewrite He in Hall. by b2p.
Qed.

Lemma start_injected r handle id k :
  rt_inv r -> rt_profile r = Supervised -> ts_state (rt_task1 r) = Staged ->
  start_status r 1 handle id 0 = None -> (k <= 3)%nat ->
  start_workload_with_failure 1 handle id 0 (Some k) r =
    (Ok (OutResume 1), upd 1 (slot_result InvalidManifest 0) r).
Proof.
  intros Hi Hp Hst Hs Hk. unfold start_workload_with_failure. unfold bindM at 1, getM. cbv zeta.
  rewrite Hs. pose proof (su_staged _ (rt_inv_profile_sup r Hi Hp) Hst) as Hcaps.
  assert (Habort : forall r0, (do! putM r in resume_with 1 InvalidManifest) r0 =
            (Ok (OutResume 1), upd 1 (slot_result InvalidManifest 0) r)) by done.
  destruct (fails_before (Some k) 0) eqn:F0; [apply Habort|].
  rewrite (bindM_step _ _ _ _ _ (install_routes_staged r Hcaps)). cbn [negb].
  destruct (fails_before (Some k) 1) eqn:F1; [apply Habort|].
  rewrite (bindM_step _ _ _ _ _ (publish_staged r)). change (is_err (Ok tt)) with false. cbv iota.
  destruct (fails_before (Some k) 2) eqn:F2; [apply Habort|].
  rewrite (bindM_step _ _ _ tt (rt_set_manifest ManifestPublication_registered
             (upd 2 (ts_set_capabilities launched_table) r))) by done.
  rewrite (bindM_step _ _ _ _ _ (set_state_valid 2 Ready _ (or_intror eq_refl))).
  destruct (fails_before (Some k) 3) eqn:F3; [apply Habort|].
  exfalso. unfold fails_before in *. b2p. destruct k as [|[|[|[|]]]]; naive_solver lia.
Qed.

(** ** Theorems *)

(** C12: every trap is handled.  From a state of the invariant, whatever the
    registers of the running task hold, [handle_trap] returns [Ok]: none of the
    internal validations fails, no queue operation overflows, and a task that
    blocks always leaves another one to run.  The invariant holds afterwards,
    and the outcome names exactly the task that is running (or, after an exit,
    the exited task whose table is still live). *)
Theorem handle_trap_total r task :
  rt_inv r -> running_task r = Ok task ->
  exists outcome r',
    handle_trap task r = (Ok outcome, r') /\ rt_inv r' /\ validate r' = Ok tt /\
    match outcome with
    | OutResume t => t = task /\ running_task r' = Ok t
    | OutSwitch t => running_task r' = Ok t
    | OutExit t => t = task /\ running_task r' = Err NoRunningTask
    end.
Proof.
  intros Hi Hrun. destruct (handle_trap_ok r task Hi Hrun) as (o & r' & Heq & Hi' & Ho).
  exists o, r'. split_and!; try done; [by apply rt_inv_validate|].
  destruct o as [t|t|t]; simpl in Ho.
  - destruct Ho as (-> & Ht & Hr). split; [done|]. by apply running_task_spec.
  - by apply running_task_spec.
  - destruct Ho as (-> & Ht & Hex & _). split; [done|]. by apply (exited_not_running r' task).
Qed.

Lemma handle_trap_total_witness :
  exists outcome r', handle_trap 2 coop_running = (Ok outcome, r') /\ rt_inv r'.
Proof.
  destruct (handle_trap_total coop_running 2 coop_running_inv eq_refl) as (o & r' & Heq & Hi & _).
  exists o, r'. split; assumption.
Defined.

(** C16: every exit is followed by a complete teardown.  When a task has exited,
    [begin_teardown] and then [complete_teardown] succeed and keep the
    invariant: the task's table is emptied before it is declared dead, and
    afterwards either the other task runs or both are dead and endpoint,
    manifest, broker and effect are reset.  The only exception is a supervisor
    that exits before it launched its workload: then [complete_teardown] reports
    [NoRunnableTask] and changes nothing. *)
Theorem teardown_total r task :
  rt_inv r -> valid_task task -> ts_state (task_slot r task) = Exited ->
  ct_state (ts_capabilities (task_slot r task)) = TableLive ->
  exists r1,
    begin_teardown task r = (Ok tt, r1) /\ rt_inv r1 /\
    (forall s, s ∈ ct_slots (ts_capabilities (task_slot r1 task)) -> cs_entry s = None) /\
    (if decide (task = 1 /\ ts_state (rt_task1 r1) = Staged)
     then complete_teardown task r1 = (Err NoRunnableTask, r1)
     else exists next r2,
       complete_teardown task r1 = (Ok next, r2) /\ rt_inv r2 /\ teardown_outcome next r2 /\
       ts_capabilities (task_slot r2 task) = table_dead).
Proof.
  intros Hi Ht Hex HL. destruct (begin_teardown_ok r task Hi Ht Hex HL) as (r1 & Hb & Hi1 & Hex1 & HC & _).
  pose proof (rt_inv_slot r1 task Ht Hi1) as Hs1.
  exists r1. split_and!; [done|done|by apply (tw_closing _ (si_table _ _ Hs1))|].
  destruct (decide (task = 1 /\ _)) as [[-> Hst]|Hns]; [by apply complete_teardown_staged|].
  destruct (complete_teardown_ok r1 task Hi1 Ht Hex1 HC Hns) as (n & r2 & Hc & Hi2 & Ho).
  exists n, r2. split_and!; try done.
  apply (tw_dead _ (si_table _ _ (rt_inv_slot r2 task Ht Hi2))).
  apply (proj2 (slot_table_cases _ _ (rt_inv_slot r2 task Ht Hi2))).
  by eapply (complete_teardown_dead r1 task n r2).
Qed.

(** The receiver of the cooperative runtime after its exit trap. *)
Definition coop_exited : Runtime := upd 2 (ts_set_state Exited) coop_running.

Lemma coop_exited_inv : rt_inv coop_exited.
Proof. apply (exit_inv coop_running 2 coop_running_inv (or_intror eq_refl) eq_refl). Qed.

Lemma teardown_total_witness :
  exists r1, begin_teardown 2 coop_exited = (Ok tt, r1) /\
    exists next r2, complete_teardown 2 r1 = (Ok next, r2).
Proof.
  destruct (teardown_total coop_exited 2 coop_exited_inv (or_intror eq_refl) eq_refl eq_refl)
    as (r1 & Hb & _ & _ & Hc).
  exists r1. split; [assumption|].
  destruct (decide (2 = 1 /\ ts_state (rt_task1 r1) = Staged)) as [[? _]|_]; [discriminate|].
  destruct Hc as (n & r2 & Hc & _). exists n, r2. assumption.
Defined.

(** C11: reachable states are valid.  Starting from a freshly constructed
    runtime, every sequence of dispatches, trap captures, traps and teardowns
    keeps the invariant; in particular the run-time validator accepts every
    reachable state and at most one task is ever running. *)
Theorem reachable_states_valid s0 s1 r0 r :
  Runtime_new s0 s1 = Ok r0 \/ Runtime_new_supervised s0 s1 = Ok r0 ->
  rtc kernel_step r0 r ->
  rt_inv r /\ validate r = Ok tt /\
  (ts_state (rt_task0 r) = Running -> ts_state (rt_task1 r) <> Running).
Proof.
  intros Hnew Hrun.
  assert (Hi0 : rt_inv r0).
  { destruct Hnew as [H|H].
    - pose proof (runtime_new_accepts _ _ _ H) as Hc. rewrite runtime_new_eq in H by done.
      injection H as <-. destruct Hc as (?&?&?&?&?&?&?). by apply coop_initial_inv.
    - pose proof (runtime_new_supervised_accepts _ _ _ H) as Hc.
      rewrite runtime_new_supervised_eq in H by done.
      injection H as <-. destruct Hc as (?&?&?&?&?&?). by apply sup_initial_inv. }
  pose proof (kernel_run_inv r0 r Hi0 Hrun) as Hi. split; [done|].
  split; [by apply rt_inv_validate|]. intros H0 H1.
  destruct (ri_sched _ Hi) as (l & _ & [_ _ _ _ Ha]). apply Ha; by left.
Qed.

Lemma reachable_states_valid_witness : validate coop_running = Ok tt.
Proof.
  refine (proj1 (proj2 (reachable_states_valid (sample_context 1 2 4096) (sample_context 2 3 8192)
                          coop_runtime coop_running _ _))).
  - left. reflexivity.
  - apply rtc_once. apply (ks_dispatch _ _ 2); [|reflexivity].
    apply none_active_ready; left; reflexivity.
Defined.

(** Launching is transactional.  If any step of [start_workload] fails,
    injected before installation, before publication of the table, before the
    manifest is recorded or before the workload is queued, the only trace is the
    status in the supervisor's registers; without a failure the workload is
    ready, queued last, and holds exactly one capability, the approval broker
    with the submit right. *)
Theorem launch_is_transactional r handle id :
  rt_inv r -> running_task r = Ok 1 ->
  start_status r 1 handle id 0 = None ->
  (forall k, (k <= 3)%nat ->
     start_workload_with_failure 1 handle id 0 (Some k) r =
       (Ok (OutResume 1), upd 1 (slot_result InvalidManifest 0) r)) /\
  exists l r', rt_queue r = queue_of l /\
    start_workload 1 handle id 0 r = (Ok (OutResume 1), r') /\ rt_inv r' /\
    rt_queue r' = queue_of (l ++ [2]) /\ ts_state (rt_task1 r') = Ready /\
    rt_manifest r' = ManifestPublication_registered /\
    (forall raw e, authority (ts_capabilities (rt_task1 r')) raw = Some e ->
       ce_object_type e = OBJECT_TYPE_APPROVAL_BROKER /\
       ce_rights e = CAPABILITY_RIGHT_SUBMIT_APPROVAL).
Proof.
  intros Hi Hrun Hs. pose proof (proj1 (running_task_spec r 1 Hi) Hrun) as [Ht Hr].
  pose proof (start_status_None _ _ _ _ _ Hs) as [Hp Hst].
  destruct (ri_sched _ Hi) as (l & Hq & _). split.
  - intros k Hk. by apply start_injected.
  - exists l, (upd 1 (slot_result StOk 0) (launched l r)).
    destruct (launched_inv l r Hi Hp Hq Hst) as [Hi' _].
    split_and!; try done; [by apply start_workload_ok|by apply rt_inv_result|].
    intros raw e He.
    apply (authority_table_all (fun e => ce_object_type e = OBJECT_TYPE_APPROVAL_BROKER /\
             ce_rights e = CAPABILITY_RIGHT_SUBMIT_APPROVAL) launched_table raw);
      [apply launched_table_wf|exact launched_table_entries|exact He].
Qed.

(** The supervised runtime whose supervisor is about to launch the workload. *)
Lemma launch_is_transactional_witness :
  start_workload_with_failure 1 16 1 0 (Some 2%nat) sup_running =
    (Ok (OutResume 1), upd 1 (slot_result InvalidManifest 0) sup_running).
Proof.
  refine (proj1 (launch_is_transactional sup_running 16 1 _ _ _) 2%nat _).
  - apply sup_running_inv.
  - reflexivity.
  - vm_compute. reflexivity.
  - lia.
Defined.

(** ** Executable traces *)

(** What the kernel is asked to do, with the arguments it chooses. *)
Inductive kernel_request : Type :=
| ReqDispatch
| ReqCapture (task : Z) (frame : TrapFrameV1) (root generation : Z)
| ReqTrap (task : Z)
| ReqBegin (task : Z)
| ReqComplete (task : Z).

#[global] Instance none_active_dec r : Decision (none_active r).
Proof. unfold none_active, active. apply _. Defined.

Definition perform (q : kernel_request) (r : Runtime) : option (kernel_action * Runtime) :=
  match q with
  | ReqDispatch =>
      match dispatch_next r with
      | (Ok (Some _), r') => if decide (none_active r) then Some (ActDispatch, r') else None
      | _ => None
      end
  | ReqCapture task frame root generation =>
      match capture_trap task frame root generation r with
      | (Ok _, r') => if decide (root = 0) then None else Some (ActCapture, r')
      | _ => None
      end
  | ReqTrap task => match handle_trap task r with (Ok _, r') => Some (ActTrap task, r') | _ => None end
  | ReqBegin task => match begin_teardown task r with (Ok _, r') => Some (ActBegin task, r') | _ => None end
  | ReqComplete task => match complete_teardown task r with (Ok _, r') => Some (ActComplete task, r') | _ => None end
  end.

Fixpoint perform_all (qs : list kernel_request) (t : list kernel_event) (r : Runtime)
    : option (list kernel_event * Runtime) :=
  match qs with
  | [] => Some (t, r)
  | q :: qs => '(a, r') ← perform q r; perform_all qs (t ++ [mkEvent r a r']) r'
  end.

Lemma perform_sound q r a r' : perform q r = Some (a, r') -> kernel_act r a r'.
Proof.
  destruct q as [|task frame root generation|task|task|task]; cbn [perform].
  - destruct (dispatch_next r) as [[[task|]|] r1] eqn:E; try done.
    destruct (decide (none_active r)); [|done]. intros [= <- <-]. by eapply ka_dispatch.
  - destruct (capture_trap task frame root generation r) as [[[]|] r1] eqn:E; [|done].
    destruct (decide (root = 0)); [done|]. intros [= <- <-]. by eapply ka_capture.
  - destruct (handle_trap task r) as [[o|] r1] eqn:E; [|done]. intros [= <- <-]. by eapply ka_trap.
  - destruct (begin_teardown task r) as [[[]|] r1] eqn:E; [|done]. intros [= <- <-]. by eapply ka_begin.
  - destruct (complete_teardown task r) as [[n|] r1] eqn:E; [|done]. intros [= <- <-]. by eapply ka_complete.
Qed.

Lemma perform_all_sound qs r0 t r t' r' :
  kernel_trace r0 t r -> perform_all qs t r = Some (t', r') -> kernel_trace r0 t' r'.
Proof.
  revert t r. induction qs as [|q qs IH]; intros t r Ht; cbn [perform_all]; [by intros [= <- <-]|].
  destruct (perform q r) as [[a r1]|] eqn:E; [|done]. cbn [mbind option_bind].
  apply IH. apply kt_step; [done|]. by eapply perform_sound.
Qed.

(** A call of a task as the kernel sees it: its registers are saved, then the
    trap is handled. *)
Definition call_frame (rax rdi rsi rdx : Z) : TrapFrameV1 :=
  {| tf_rax := rax; tf_rbx := 0; tf_rcx := 0; tf_rdx := rdx; tf_rbp := 0;
     tf_rsi := rsi; tf_rdi := rdi; tf_r8 := 0; tf_r9 := 0; tf_r10 := 0;
     tf_r11 := 0; tf_r12 := 0; tf_r13 := 0; tf_r14 := 0; tf_r15 := 0;
     tf_rip := 4194304; tf_cs := 27; tf_rflags := 2; tf_rsp := 8388608; tf_ss := 35 |}.

Definition call (generation task rax rdi rsi rdx : Z) : list kernel_request :=
  [ReqCapture task (call_frame rax rdi rsi rdx) (4096 * task) generation; ReqTrap task].

(** The trace and the last state of some requests that all succeed. *)
Definition traced (qs : list kernel_request) (r : Runtime) : list kernel_event * Runtime :=
  default ([], r) (perform_all qs [] r).

Lemma traced_trace qs r :
  is_Some (perform_all qs [] r) -> kernel_trace r (traced qs r).1 (traced qs r).2.
Proof.
  intros [[t r'] E]. unfold traced. rewrite E. cbn [default fst snd].
  eapply perform_all_sound; [apply kt_start|exact E].
Qed.
