(* ===== verification/Ipc.v ===== *)
(** * Endpoint messages are delivered exactly once and in order

    The one-message endpoint is a channel: over any run of traps and teardowns
    the messages accepted from senders are, in order, the messages handed to the
    receiver followed by the one still parked in the endpoint, or the one that
    was discarded with the receiver. *)

From S2P Require Import Prelude RuntimeTypes Capability CapabilityProofs Runtime RuntimeOps.
From S2P Require Import RuntimeFrame RuntimeInv RuntimeProgress SupervisedProgress RuntimeTeardown.
From S2P Require Import RuntimeConstruct RuntimeTheorems.

(** ** Observations of one trap *)

Definition context_of (r : Runtime) (task : Z) : TaskContextV1 := ts_context (task_slot r task).

(** The operation the running task asks for. *)
Definition requested (r : Runtime) (task : Z) : option TrapOperation :=
  TrapOperation_parse (tc_rax (context_of r task)).

(** The status register a task sees. *)
Definition status_of (r : Runtime) (task : Z) : Z := tc_rax (context_of r task).

(** The message parked in the endpoint. *)
Definition pending (r : Runtime) : list Z :=
  if ep_occupied (rt_endpoint r) then [ep_payload (rt_endpoint r)] else [].

(** The message a trap of [task] from [r] to [r'] got accepted. *)
Definition sent (r : Runtime) (task : Z) (r' : Runtime) : list Z :=
  if bool_decide (requested r task = Some OpSend) && (status_of r' task =? status_code StOk)
  then [tc_rsi (context_of r task)] else [].

(** The message the receiver finds in its register after the trap: its own
    successful receive, or a send that found it blocked. *)
Definition received (r : Runtime) (task : Z) (r' : Runtime) : list Z :=
  match requested r task with
  | Some OpSend =>
      if bool_decide (ts_state (rt_task1 r) = BlockedReceive)
         && (status_of r' task =? status_code StOk)
      then [tc_rdx (context_of r' RECEIVER_TASK_ID)] else []
  | Some OpReceive =>
      if bool_decide (ts_state (task_slot r' task) = Running)
         && (status_of r' task =? status_code StOk)
      then [tc_rdx (context_of r' task)] else []
  | _ => []
  end.

(** ** Refusals are never reported as success *)

Lemma resolve_typed_status t task g raw ty right s :
  table_resolve_typed t task g raw ty right = Err s -> s <> StOk.
Proof.
  unfold table_resolve_typed. intros H Hs. subst s. walk H; b2p; naive_solver.
Qed.

Lemma resolve_endpoint_status r task handle right s :
  resolve_endpoint r task handle right = Err s -> s <> StOk.
Proof.
  unfold resolve_endpoint. intros H.
  destruct (map_err _ _) eqn:E; [|destruct (slot r task); naive_solver].
  destruct (table_resolve _ _ _ _ _) eqn:E2; [|injection H as <-; by eapply resolve_typed_status].
  head_if_in H E3; naive_solver.
Qed.

Lemma send_refusal_status r task handle reserved s :
  send_refusal r task handle reserved = Some s -> s <> StOk.
Proof.
  unfold send_refusal. intros H. head_if_in H E; [naive_solver|].
  destruct (resolve_endpoint _ _ _ _) eqn:E1; [|injection H as <-; by eapply resolve_endpoint_status].
  head_if_in H E2; [naive_solver|]. head_if_in H E3; naive_solver.
Qed.

Lemma receive_refusal_status r task handle a b s :
  receive_refusal r task handle a b = Some s -> s <> StOk.
Proof.
  unfold receive_refusal. intros H. head_if_in H E; [naive_solver|].
  destruct (resolve_endpoint _ _ _ _) eqn:E1; [|injection H as <-; by eapply resolve_endpoint_status].
  head_if_in H E2; [naive_solver|]. head_if_in H E3; naive_solver.
Qed.

Lemma status_code_zero s : status_code s = status_code StOk -> s = StOk.
Proof. by destruct s. Qed.

Lemma context_of_upd task status value r :
  context_of (upd task (slot_result status value) r) task =
  context_set_result status value (context_of r task).
Proof. unfold context_of. by rewrite task_slot_upd. Qed.

Lemma refused_status task status r :
  status <> StOk -> (status_of (upd task (slot_result status 0) r) task =? status_code StOk) = false.
Proof.
  intros Hs. unfold status_of. rewrite context_of_upd. apply Z.eqb_neq. simpl.
  intros H. by apply Hs, status_code_zero.
Qed.

Lemma endpoint_upd task f r : rt_endpoint (upd task f r) = rt_endpoint r.
Proof. unfold upd. by destruct (task =? SENDER_TASK_ID). Qed.

(** ** Conservation *)

Lemma send_conserves r task handle message reserved o r' :
  rt_inv r -> valid_task task -> ts_state (task_slot r task) = Running ->
  requested r task = Some OpSend -> tc_rsi (context_of r task) = message ->
  send task handle message reserved r = (Ok o, r') ->
  pending r ++ sent r task r' = received r task r' ++ pending r'.
Proof.
  intros Hi Ht Hrun Hop Hm Hsend. destruct (ri_sched _ Hi) as (l & Hq & _).
  rewrite (send_eq r task handle message reserved l) in Hsend by done.
  injection Hsend as _ <-. unfold sent, received. rewrite Hop, bool_decide_eq_true_2, Hm by done.
  destruct (send_refusal r task handle reserved) as [s|] eqn:Hs.
  - rewrite (refused_status task s r) by (by eapply send_refusal_status).
    rewrite !andb_false_r. unfold pending. rewrite endpoint_upd. by rewrite app_nil_r.
  - apply send_refusal_None in Hs as (_ & _ & Hocc).
    assert (Hst : forall r0, status_of (upd task (slot_result StOk 0) r0) task =? status_code StOk = true).
    { intros r0. unfold status_of. by rewrite context_of_upd. }
    rewrite Hst. cbn [andb]. unfold pending at 1. rewrite Hocc. unfold sent_state, is_state.
    destruct (bool_decide (ts_state (rt_task1 r) = BlockedReceive)) eqn:Hb; cbn [andb app].
    + b2p. destruct Ht as [-> | ->].
      * done.
      * change (task_slot r 2) with (rt_task1 r) in Hrun. congruence.
    + unfold pending. rewrite endpoint_upd. done.
Qed.

Lemma receive_conserves r task handle a b o r' :
  rt_inv r -> valid_task task -> ts_state (task_slot r task) = Running ->
  requested r task = Some OpReceive ->
  receive task handle a b r = (Ok o, r') ->
  pending r ++ sent r task r' = received r task r' ++ pending r'.
Proof.
  intros Hi Ht Hrun Hop Hrec.
  unfold sent, received. rewrite Hop, bool_decide_eq_false_2 by done. cbn [andb].
  pose proof (receive_eq r task handle a b Hi Ht Hrun) as H.
  destruct (receive_refusal r task handle a b) as [s|] eqn:Hs.
  - rewrite H in Hrec. injection Hrec as _ <-.
    rewrite (refused_status task s r) by (by eapply receive_refusal_status).
    rewrite !andb_false_r. unfold pending. rewrite endpoint_upd. by rewrite app_nil_r.
  - destruct H as (-> & _ & H). destruct (ep_occupied (rt_endpoint r)) eqn:Hocc.
    + destruct H as [H _]. rewrite H in Hrec. injection Hrec as _ <-.
      change (ts_state (task_slot (taken_state r) 2)) with (ts_state (task_slot r 2)).
      rewrite Hrun. unfold pending. rewrite Hocc. done.
    + destruct H as (H & _). rewrite H in Hrec. injection Hrec as _ <-.
      unfold pending. change (rt_endpoint (blocked_state r)) with (rt_endpoint r). by rewrite Hocc.
Qed.

(** The other operations do not touch the endpoint. *)
Lemma other_keeps_endpoint task r o r' :
  requested r task <> Some OpSend -> requested r task <> Some OpReceive ->
  running_task r = Ok task -> rt_context r task = Ok (context_of r task) ->
  handle_trap_inner task r = (Ok o, r') -> rt_endpoint r' = rt_endpoint r.
Proof.
  intros Hns Hnr Hrun Hctx H. unfold handle_trap_inner in H.
  rewrite (readM_step _ _ _ task Hrun), Z.eqb_refl in H. cbn [negb] in H.
  rewrite (readM_step (fun r => rt_context r task) _ _ _ Hctx) in H. cbv zeta in H. unfold requested in *.
  destruct (TrapOperation_parse _) as [[]|]; try done;
    (match type of H with ?m r = _ => assert (Hk : keeps rt_endpoint (rt_endpoint r) m) end;
     [|by eapply Hk]).
  - apply keeps_yield, _.
  - apply keeps_exit, _.
  - apply keeps_duplicate, _.
  - apply keeps_close, _.
  - by apply keeps_start.
  - unfold submit_approval, broker_mut. keeps_solve.
  - apply keeps_inspect, _.
  - unfold decide_approval, fail_broker_epoch_exhaustion, broker_mut. cbv zeta. keeps_solve.
  - unfold commit_effect, broker_mut. keeps_solve.
  - apply keeps_resume_validated, _.
  - apply keeps_resume_validated, _.
  - apply keeps_resume_with, _.
Qed.

Lemma trap_conserves r task o r' :
  rt_inv r -> running_task r = Ok task -> handle_trap task r = (Ok o, r') ->
  pending r ++ sent r task r' = received r task r' ++ pending r'.
Proof.
  intros Hi Hrun Htrap. pose proof (proj1 (running_task_spec r task Hi) Hrun) as [Ht Hst].
  unfold handle_trap in Htrap. rewrite transactional_ok in Htrap.
  assert (Hctx : rt_context r task = Ok (context_of r task)).
  { unfold rt_context. by rewrite slot_valid. }
  destruct (decide (requested r task = Some OpSend)) as [Hs|Hns].
  - unfold handle_trap_inner in Htrap.
    rewrite (readM_step _ _ _ task Hrun), Z.eqb_refl in Htrap. cbn [negb] in Htrap.
    rewrite (readM_step (fun r => rt_context r task) _ _ _ Hctx) in Htrap. cbv zeta in Htrap.
    pose proof Hs as Hs'. unfold requested in Hs'. rewrite Hs' in Htrap.
    by eapply send_conserves.
  - destruct (decide (requested r task = Some OpReceive)) as [Hr|Hnr].
    + unfold handle_trap_inner in Htrap.
      rewrite (readM_step _ _ _ task Hrun), Z.eqb_refl in Htrap. cbn [negb] in Htrap.
      rewrite (readM_step (fun r => rt_context r task) _ _ _ Hctx) in Htrap. cbv zeta in Htrap.
      pose proof Hr as Hr'. unfold requested in Hr'. rewrite Hr' in Htrap.
      by eapply receive_conserves.
    + assert (He : rt_endpoint r' = rt_endpoint r) by (by eapply other_keeps_endpoint).
      unfold sent, received, pending. rewrite He, bool_decide_eq_false_2 by done.
      cbn [andb]. rewrite app_nil_r. by destruct (requested r task) as [[]|].
Qed.

(** ** The endpoint along a run *)

(** Zero once the receiver's teardown has begun. *)
Definition receiver_generation (r : Runtime) : Z := ep_receiver_generation (rt_endpoint r).

#[export] Instance receiver_generation_global : GlobalProjection receiver_generation.
Proof. by split. Qed.
#[export] Instance pending_global : GlobalProjection pending.
Proof. by split. Qed.

Lemma trap_keeps_receiver task g : keeps receiver_generation g (handle_trap task).
Proof.
  apply keeps_transactional. unfold handle_trap_inner. apply keeps_bind; [apply keeps_read|intros running].
  destruct (negb (running =? task)); [apply keeps_throw|]. apply keeps_bind; [apply keeps_read|intros input]. cbv zeta.
  destruct (TrapOperation_parse _) as [[]|]; try (by apply keeps_start);
    try (unfold send, receive, endpoint_mut; keeps_solve);
    try (unfold submit_approval, decide_approval, commit_effect, fail_broker_epoch_exhaustion, broker_mut; cbv zeta; keeps_solve);
    auto using keeps_yield, keeps_exit, keeps_duplicate, keeps_close, keeps_inspect,
      keeps_resume_validated, keeps_resume_with with typeclass_instances.
Qed.

(** Without a receiver no message is accepted, and none is handed over. *)
Lemma trap_no_receiver r task o r' :
  rt_inv r -> handle_trap task r = (Ok o, r') -> receiver_generation r = 0 -> pending r = [] ->
  sent r task r' = [] /\ received r task r' = [] /\ pending r' = [].
Proof.
  intros Hi Htrap Hg Hp. pose proof (trap_running _ _ _ _ Htrap) as Hrun.
  pose proof (trap_conserves r task o r' Hi Hrun Htrap) as Hc. rewrite Hp in Hc. cbn [app] in Hc.
  assert (Hs : sent r task r' = []); [|rewrite Hs in Hc; symmetry in Hc; by apply app_eq_nil in Hc as [-> ->]].
  unfold sent. destruct (bool_decide (requested r task = Some OpSend)) eqn:Hop; [|done]. apply bool_decide_eq_true in Hop.
  pose proof (proj1 (running_task_spec r task Hi) Hrun) as [Ht Hst]. destruct (ri_sched _ Hi) as (l & Hq & _).
  assert (Hctx : rt_context r task = Ok (context_of r task)) by (unfold rt_context; by rewrite slot_valid).
  unfold handle_trap in Htrap. rewrite transactional_ok in Htrap. unfold handle_trap_inner in Htrap.
  rewrite (readM_step _ _ _ task Hrun), Z.eqb_refl in Htrap. cbn [negb] in Htrap.
  rewrite (readM_step (fun r => rt_context r task) _ _ _ Hctx) in Htrap. cbv zeta in Htrap.
  change (TrapOperation_parse (tc_rax (context_of r task))) with (requested r task) in Htrap. rewrite Hop in Htrap.
  rewrite (send_eq r task _ _ _ l) in Htrap by done. injection Htrap as _ <-.
  destruct (send_refusal r task _ _) as [s|] eqn:Hs.
  - by rewrite (refused_status task s r) by (by eapply send_refusal_status).
  - by apply send_refusal_None in Hs as (_ & Hne & _).
Qed.

(** The supervised profile has no endpoint. *)
Lemma supervised_endpoint r : rt_inv r -> rt_profile r = Supervised -> pending r = [] /\ receiver_generation r = 0.
Proof.
  intros Hi Hp. unfold pending, receiver_generation. by rewrite (su_endpoint _ (rt_inv_profile_sup r Hi Hp)).
Qed.

Lemma receiver_closed r :
  rt_inv r -> ct_state (ts_capabilities (rt_task1 r)) <> TableLive -> pending r = [] /\ receiver_generation r = 0.
Proof.
  intros Hi Hn. destruct (rt_profile r) eqn:Hp; [|by apply supervised_endpoint].
  destruct (en_receiver_gone _ _ _ (co_endpoint _ (rt_inv_profile_coop r Hi Hp)) Hn) as (_ & Hg & Ho).
  unfold pending, receiver_generation. by rewrite Ho, Hg.
Qed.

Lemma sender_teardown_keeps {X} (f : Runtime -> X) `{!GlobalProjection f} x :
  (forall r, f (rt_set_endpoint (endpoint_sender_gone (rt_endpoint r)) r) = f r) ->
  keeps f x (begin_teardown_cooperative 1).
Proof.
  intros Hf. unfold begin_teardown_cooperative, endpoint_mut, capabilities_step. change (1 =? SENDER_TASK_ID) with true. keeps_solve.
  by apply keeps_modify.
Qed.

(** The teardown of the receiver empties the endpoint and closes its side. *)
Lemma begin_receiver r r' :
  rt_inv r -> begin_teardown 2 r = (Ok tt, r') -> pending r' = [] /\ receiver_generation r' = 0.
Proof.
  intros Hi Hb. destruct (begin_teardown_live r 2 r' Hb) as (Ht & Hex & HL).
  destruct (begin_teardown_ok r 2 Hi Ht Hex HL) as (r1 & Heq & Hi1 & _ & HC & _). rewrite Heq in Hb. injection Hb as <-.
  apply receiver_closed; [done|]. change (task_slot r1 2) with (rt_task1 r1) in HC. congruence.
Qed.

Lemma begin_sender r r' :
  rt_inv r -> begin_teardown 1 r = (Ok tt, r') ->
  pending r' = pending r /\ receiver_generation r' = receiver_generation r.
Proof.
  intros Hi Hb. destruct (begin_teardown_live r 1 r' Hb) as (Ht & Hex & HL).
  destruct (begin_teardown_ok r 1 Hi Ht Hex HL) as (r1 & Heq & Hi1 & _ & _ & _ & Hpr). rewrite Heq in Hb. injection Hb as ->.
  destruct (rt_profile r) eqn:Hp.
  - unfold begin_teardown in Heq. rewrite transactional_ok in Heq. unfold begin_teardown_inner in Heq.
    rewrite (read_slot_step r 1 _ Ht), (proj2 (is_state_true _ _) Hex) in Heq. cbn [negb] in Heq.
    unfold bindM at 1, getM in Heq. rewrite Hp in Heq.
    split; [by eapply (sender_teardown_keeps pending)|by eapply (sender_teardown_keeps receiver_generation)].
  - destruct (supervised_endpoint r Hi Hp) as [-> ->]. by apply supervised_endpoint.
Qed.

(** The end of a teardown finds the endpoint as it leaves it. *)
Lemma complete_endpoint r task next r' :
  rt_inv r -> complete_teardown task r = (Ok next, r') ->
  pending r' = pending r /\ (receiver_generation r = 0 -> receiver_generation r' = 0).
Proof.
  intros Hi Hc. destruct (complete_teardown_enabled r task next r' Hi Hc) as (Ht & Hex & HC & _).
  unfold complete_teardown in Hc. rewrite transactional_ok, complete_teardown_torn in Hc by done.
  assert (Hk : forall X (f : Runtime -> X) `{!GlobalProjection f}, f r' = f (torn task r)).
  { intros X f Hf. eapply (keeps_bind f (f (torn task r)) (readM validate)); [apply keeps_read| |reflexivity|exact Hc].
    intros a. by apply keeps_dispatch_next. }
  rewrite !Hk by apply _. unfold torn. cbv zeta. destruct (forallb _ _) eqn:Hall.
  - apply all_dead_true in Hall as [_ Hd].
    assert (Hp : pending r = []).
    { apply receiver_closed; [done|]. destruct Ht as [-> | ->]; [|change (task_slot r 2) with (rt_task1 r) in HC; congruence].
      cbn in Hd. destruct (slot_table_cases _ _ (ri_slot1 _ Hi)) as [_ Hdd]. apply Hdd in Hd. congruence. }
    rewrite Hp. by destruct (_ && _).
  - by destruct (_ && _), Ht as [-> | ->].
Qed.

(** ** Logs of a trace *)

(** Messages senders were told are accepted. *)
Definition accepted_by (e : kernel_event) : list Z :=
  match ke_action e with ActTrap task => sent (ke_before e) task (ke_after e) | _ => [] end.

(** Messages handed to the receiver. *)
Definition delivered_by (e : kernel_event) : list Z :=
  match ke_action e with ActTrap task => received (ke_before e) task (ke_after e) | _ => [] end.

(** The message a receiver leaves unread when its teardown begins. *)
Definition discarded_by (e : kernel_event) : list Z :=
  match ke_action e with
  | ActBegin task => if task =? RECEIVER_TASK_ID then pending (ke_before e) else []
  | _ => []
  end.

Definition accepted_log (t : list kernel_event) : list Z := flat_map accepted_by t.
Definition delivered_log (t : list kernel_event) : list Z := flat_map delivered_by t.
Definition discarded_log (t : list kernel_event) : list Z := flat_map discarded_by t.

Lemma flat_map_snoc {A B} (f : A -> list B) t x : flat_map f (t ++ [x]) = flat_map f t ++ f x.
Proof. rewrite flat_map_app. cbn. by rewrite app_nil_r. Qed.

(** The account of one step: what was pending and is accepted is handed over,
    discarded, or pending. *)
Lemma step_account r a r' :
  rt_inv r -> kernel_act r a r' ->
  let e := mkEvent r a r' in
  pending r ++ accepted_by e = delivered_by e ++ discarded_by e ++ pending r' /\
  (discarded_by e <> [] -> pending r' = [] /\ receiver_generation r' = 0) /\
  (pending r = [] -> receiver_generation r = 0 ->
   accepted_by e = [] /\ delivered_by e = [] /\ discarded_by e = [] /\ pending r' = [] /\ receiver_generation r' = 0).
Proof.
  intros Hi [task r1 Hna Hd|task f root g r1 Hroot Hc|task o r1 Ht|task r1 Hb|task n r1 Hc];
    cbn [accepted_by delivered_by discarded_by ke_action ke_before ke_after app]; rewrite ?app_nil_r.
  - rewrite (keeps_dispatch_next pending _ r _ r1 eq_refl Hd), (keeps_dispatch_next receiver_generation _ r _ r1 eq_refl Hd). done.
  - assert (Hk : forall X (p : Runtime -> X) `{!GlobalProjection p}, p r1 = p r).
    { intros X p Hp. assert (K : keeps p (p r) (capture_trap task f root g)) by (unfold capture_trap; keeps_solve). by eapply K. }
    rewrite !Hk by apply _. done.
  - split_and!; [by apply (trap_conserves r task o r1 Hi (trap_running _ _ _ _ Ht))|done|]. intros Hp Hg.
    destruct (trap_no_receiver r task o r1 Hi Ht Hg Hp) as (-> & -> & ->).
    split_and!; try done. by rewrite (trap_keeps_receiver task _ r _ r1 eq_refl Ht).
  - destruct (begin_teardown_live r task r1 Hb) as ([-> | ->] & _ & _).
    + destruct (begin_sender r r1 Hi Hb) as [-> ->]. done.
    + destruct (begin_receiver r r1 Hi Hb) as [-> ->]. change (2 =? RECEIVER_TASK_ID) with true. cbv iota.
      rewrite app_nil_r. naive_solver.
  - destruct (complete_endpoint r task n r1 Hi Hc) as [-> Hg]. naive_solver.
Qed.

Lemma trace_account r0 t r :
  rt_inv r0 -> pending r0 = [] -> kernel_trace r0 t r ->
  accepted_log t = delivered_log t ++ discarded_log t ++ pending r /\
  (length (discarded_log t ++ pending r) <= 1)%nat /\
  (discarded_log t <> [] -> ActBegin RECEIVER_TASK_ID ∈ (ke_action <$> t) /\ pending r = [] /\ receiver_generation r = 0).
Proof.
  intros Hi0 Hp0 Ht. induction Ht as [|t r a r' Ht IH Ha].
  { rewrite Hp0. split_and!; [done|cbn; lia|done]. }
  destruct IH as (Hacc & Hlen & Hdis). pose proof (kernel_trace_inv r0 t r Hi0 Ht) as Hi.
  destruct (step_account r a r' Hi Ha) as (H1 & H2 & H3). unfold accepted_log, delivered_log, discarded_log in *.
  rewrite !flat_map_snoc, fmap_app. set (e := mkEvent r a r') in *.
  destruct (decide (flat_map discarded_by t = [])) as [E|E].
  - rewrite E in *. cbn [app] in *. rewrite Hacc, <-!app_assoc, H1. split_and!; [done| |].
    + destruct (decide (discarded_by e = [])) as [E'|E'].
      * rewrite E'. cbn [app]. unfold pending. destruct (ep_occupied _); cbn; lia.
      * destruct (H2 E') as [-> _]. rewrite app_nil_r. unfold discarded_by. destruct (ke_action e); cbn; try lia.
        destruct (_ =? _); cbn; [|lia]. unfold pending. destruct (ep_occupied _); cbn; lia.
    + intros Hne. destruct (H2 Hne). split_and!; [|done|done]. apply elem_of_app. right.
      unfold discarded_by in Hne. cbn in Hne |- *. destruct a as [| | |task|]; try done.
      destruct (Z.eqb_spec task RECEIVER_TASK_ID) as [->|]; [|done]. by apply list_elem_of_singleton.
  - destruct (Hdis E) as (Hin & Hp & Hg). destruct (H3 Hp Hg) as (-> & -> & -> & -> & ->).
    rewrite !app_nil_r in *. rewrite Hp, app_nil_r in Hacc, Hlen. split_and!; [done|done|]. intros _. split_and!; [|done|done].
    apply elem_of_app. by left.
Qed.

(** C15: messages are delivered exactly once and in order, up to the one a receiver
    leaves behind.  Over any run of dispatches, traps and teardowns that starts
    with an empty endpoint, the messages senders were told are accepted are
    exactly the messages the receiver was handed, in the same order, followed by
    at most one more: the message that was unread when the receiver's teardown
    began, which is discarded, or the message still parked in the endpoint.
    Nothing else is lost, and nothing is duplicated, reordered or invented; after
    a discard the endpoint stays empty and no message is accepted any more. *)
Theorem messages_exactly_once_in_order r0 t r :
  rt_inv r0 -> pending r0 = [] -> kernel_trace r0 t r ->
  rt_inv r /\ accepted_log t = delivered_log t ++ discarded_log t ++ pending r /\
  (length (discarded_log t ++ pending r) <= 1)%nat /\
  (discarded_log t <> [] -> ActBegin RECEIVER_TASK_ID ∈ (ke_action <$> t) /\ pending r = [] /\
     forall a r', kernel_act r a r' -> accepted_log (t ++ [mkEvent r a r']) = accepted_log t).
Proof.
  intros Hi0 Hp0 Ht. pose proof (kernel_trace_inv r0 t r Hi0 Ht) as Hi. split; [done|].
  destruct (trace_account r0 t r Hi0 Hp0 Ht) as (Hacc & Hlen & Hdis).
  split_and!; [done|done|]. intros Hne. destruct (Hdis Hne) as (Hin & Hp & Hg). split_and!; [done|done|].
  intros a r' Ha. unfold accepted_log. rewrite flat_map_snoc.
  destruct (step_account r a r' Hi Ha) as (_ & _ & Hz). destruct (Hz Hp Hg) as (-> & _). by rewrite app_nil_r.
Qed.

(** *** A run with a message received and one left behind

    The receiver blocks; the sender's message 41 is handed over directly, 42 is
    parked and never read. *)
Definition ipc_calls : list kernel_request :=
  [ReqDispatch] ++ call 3 2 2 16 0 0 ++ call 2 1 1 16 41 0 ++ call 2 1 1 16 42 0 ++ call 2 1 0 0 0 0
  ++ call 3 2 3 0 0 0 ++ [ReqBegin 2; ReqComplete 2].

Definition ipc_trace : list kernel_event := (traced ipc_calls coop_runtime).1.
Definition ipc_end : Runtime := (traced ipc_calls coop_runtime).2.

Lemma messages_exactly_once_in_order_witness :
  delivered_log ipc_trace = [41] /\ discarded_log ipc_trace = [42] /\ pending ipc_end = [] /\
  accepted_log ipc_trace = delivered_log ipc_trace ++ discarded_log ipc_trace ++ pending ipc_end /\
  ActBegin RECEIVER_TASK_ID ∈ (ke_action <$> ipc_trace).
Proof.
  assert (Hd : discarded_log ipc_trace = [42]) by (vm_compute; reflexivity).
  destruct (messages_exactly_once_in_order coop_runtime ipc_trace ipc_end) as (_ & Hacc & _ & Hdis).
  - exact coop_runtime_inv.
  - vm_compute. reflexivity.
  - apply traced_trace. apply (bool_decide_unpack _). vm_compute. exact I.
  - destruct Hdis as (Hin & _ & _); [rewrite Hd; discriminate|].
    split; [vm_compute; reflexivity|]. split; [exact Hd|]. split; [vm_compute; reflexivity|]. split; [exact Hacc|exact Hin].
Defined.
