(* ===== verification/Approval.v ===== *)
(** * The approval protocol

    An abstract state machine for the approval broker and the synthetic effect,
    and the refinement theorem that every trap of the supervised runtime is one
    of its transitions.  From it: no effect without a submitted, approved and
    matching request; approvals are single-use; sequence numbers never repeat. *)

From S2P Require Import Prelude RuntimeTypes Capability CapabilityProofs Runtime RuntimeOps.
From S2P Require Import RuntimeFrame RuntimeInv RuntimeProgress SupervisedProgress RuntimeTeardown.
From S2P Require Import RuntimeConstruct RuntimeTheorems Ipc.

(** ** The abstract protocol *)

Inductive approval_phase : Type :=
| PhIdle
| PhPending (sequence argument : Z)
| PhApproved (sequence argument : Z)
| PhClosed.

Record approval_state : Type := mkApprovalState {
  ap_phase : approval_phase;
  ap_next : Z;
  ap_exhausted : bool;
  ap_effect : option Z
}.

Inductive approval_label : Type :=
| LQuiet
| LSubmit (sequence argument : Z)
| LDecide (sequence decision : Z)
| LCommit (sequence argument : Z)
| LClose.

#[global] Instance approval_label_eq_dec : EqDecision approval_label.
Proof. solve_decision. Defined.

(** The next sequence number; the last one marks the broker exhausted. *)
Definition next_sequence (n : Z) : Z * bool :=
  if n =? U64_MAX then (n, true) else (n + 1, false).

Inductive approval_step (task : Z) (a : approval_state) : approval_label -> approval_state -> Prop :=
| ap_quiet :
    approval_step task a LQuiet a
| ap_submit argument :
    task = 2 -> ap_phase a = PhIdle -> ap_exhausted a = false ->
    approval_step task a (LSubmit (ap_next a) argument)
      (mkApprovalState (PhPending (ap_next a) argument) (fst (next_sequence (ap_next a)))
         (snd (next_sequence (ap_next a))) (ap_effect a))
| ap_approve sequence argument :
    task = 1 -> ap_phase a = PhPending sequence argument ->
    approval_step task a (LDecide sequence DECISION_APPROVE)
      (mkApprovalState (PhApproved sequence argument) (ap_next a) (ap_exhausted a) (ap_effect a))
| ap_deny sequence argument :
    task = 1 -> ap_phase a = PhPending sequence argument ->
    approval_step task a (LDecide sequence DECISION_DENY)
      (mkApprovalState PhIdle (ap_next a) (ap_exhausted a) (ap_effect a))
| ap_expire sequence argument :
    task = 1 -> ap_phase a = PhPending sequence argument \/ ap_phase a = PhApproved sequence argument ->
    approval_step task a (LDecide sequence DECISION_EXPIRE)
      (mkApprovalState PhIdle (ap_next a) (ap_exhausted a) (ap_effect a))
| ap_commit sequence argument :
    task = 1 -> ap_phase a = PhApproved sequence argument -> ap_effect a = None ->
    approval_step task a (LCommit sequence argument)
      (mkApprovalState PhIdle (ap_next a) (ap_exhausted a) (Some argument))
| ap_close :
    task = 1 -> ap_phase a <> PhIdle ->
    approval_step task a LClose
      (mkApprovalState PhClosed (ap_next a) (ap_exhausted a) (ap_effect a)).

(** ** Abstraction *)

Definition broker_phase (b : ApprovalBroker) : approval_phase :=
  match ab_state b with
  | BrokerEmpty => PhIdle
  | BrokerPending => PhPending (ar_sequence (ab_request b)) (ar_argument (ab_request b))
  | BrokerApproved => PhApproved (ar_sequence (ab_request b)) (ar_argument (ab_request b))
  | BrokerBuilding | BrokerClosing | BrokerDead => PhClosed
  end.

Definition approval_abs (r : Runtime) : approval_state :=
  {| ap_phase := broker_phase (rt_broker r);
     ap_next := ab_next_sequence (rt_broker r);
     ap_exhausted := ab_sequence_exhausted (rt_broker r);
     ap_effect := if se_occupied (rt_effect r) then Some (se_value (rt_effect r)) else None |}.

(** The label of a trap is the request in the registers of the running task. *)
Definition label_matches (r : Runtime) (task : Z) (l : approval_label) : Prop :=
  let c := context_of r task in
  match l with
  | LQuiet => True
  | LSubmit sequence argument => requested r task = Some OpSubmitApproval /\ tc_rdx c = argument
  | LDecide sequence decision =>
      requested r task = Some OpDecideApproval /\ tc_rsi c = sequence /\ tc_rdx c = decision
  | LCommit sequence argument =>
      requested r task = Some OpCommitEffect /\ tc_rsi c = sequence /\ tc_rdx c = argument
  | LClose => requested r task = Some OpDecideApproval
  end.

(** What a trap did as seen from outside the broker's rules: a submission is
    accepted when its task waits for the decision, and its sequence number is the
    one of the request that is then registered; a decision or a commit is accepted
    when its task is told so. *)
Definition observed (r : Runtime) (task : Z) (r' : Runtime) : list approval_label :=
  let c := context_of r task in
  let told_ok := status_of r' task =? status_code StOk in
  match requested r task with
  | Some OpSubmitApproval =>
      if bool_decide (ts_state (task_slot r' task) = BlockedApproval)
      then [LSubmit (ar_sequence (ab_request (rt_broker r'))) (tc_rdx c)] else []
  | Some OpDecideApproval => if told_ok then [LDecide (tc_rsi c) (tc_rdx c)] else []
  | Some OpCommitEffect => if told_ok then [LCommit (tc_rsi c) (tc_rdx c)] else []
  | _ => []
  end.

(** The part of a transition that is observed. *)
Definition visible (l : approval_label) : list approval_label :=
  match l with LQuiet | LClose => [] | _ => [l] end.

(** *** Refusals *)

Lemma resolve_object_status r task handle ty right id g s :
  resolve_object r task handle ty right id g = Err s -> s <> StOk.
Proof.
  unfold resolve_object. intros H. destruct (slot r task); cbn [map_err] in H; [|naive_solver].
  destruct (table_resolve_typed _ _ _ _ _ _) eqn:E; [|injection H as <-; by eapply resolve_typed_status].
  head_if_in H E1; naive_solver.
Qed.

Lemma decide_status_refusal r task handle sequence decision s :
  decide_status r task handle sequence decision = Some s -> s <> StOk.
Proof.
  unfold decide_status. intros H. head_if_in H E; [naive_solver|].
  destruct (resolve_object _ _ _ _ _ _ _) eqn:E1; [|injection H as <-; by eapply resolve_object_status].
  head_if_in H E2; [naive_solver|]. head_if_in H E3; [naive_solver|]. head_if_in H E4; naive_solver.
Qed.

Lemma commit_status_refusal r task handle sequence argument s :
  commit_status r task handle sequence argument = Some s -> s <> StOk.
Proof.
  unfold commit_status. intros H. head_if_in H E; [naive_solver|].
  destruct (resolve_object _ _ _ _ _ _ _) eqn:E1; [|injection H as <-; by eapply resolve_object_status].
  head_if_in H E2; [naive_solver|]. head_if_in H E3; [naive_solver|]. head_if_in H E4; naive_solver.
Qed.

Lemma told_status task status r :
  status_of (upd task (slot_result status 0) r) task = status_code status.
Proof. unfold status_of. by rewrite context_of_upd. Qed.

(** ** Refinement, operation by operation *)

Lemma approval_abs_global r r' :
  rt_broker r' = rt_broker r -> rt_effect r' = rt_effect r -> approval_abs r' = approval_abs r.
Proof. intros Hb He. unfold approval_abs. by rewrite Hb, He. Qed.

Lemma approval_abs_upd task f r : approval_abs (upd task f r) = approval_abs r.
Proof. unfold upd. by destruct (task =? SENDER_TASK_ID). Qed.

Lemma submit_refines r handle kind argument :
  rt_inv r -> submit_status r 2 handle kind = None ->
  approval_step 2 (approval_abs r) (LSubmit (ab_next_sequence (rt_broker r)) argument)
    (approval_abs (submitted_state kind argument r)).
Proof.
  intros Hi Hs. apply submit_status_None in Hs as (Hp & Hb & Hmax & Hex & Hk & _ & HL); [|done].
  assert (Ha : approval_abs (submitted_state kind argument r) =
    mkApprovalState (PhPending (ap_next (approval_abs r)) argument)
      (fst (next_sequence (ap_next (approval_abs r))))
      (snd (next_sequence (ap_next (approval_abs r)))) (ap_effect (approval_abs r))).
  { unfold approval_abs, next_sequence. simpl. rewrite Hex.
    by destruct (ab_next_sequence (rt_broker r) =? U64_MAX). }
  rewrite Ha. apply (ap_submit 2 (approval_abs r)); [done| |done]. simpl. unfold broker_phase. by rewrite Hb.
Qed.

Lemma decide_refines r handle sequence decision l :
  rt_inv r -> decide_status r 1 handle sequence decision = None ->
  approval_step 1 (approval_abs r)
    (if epoch_exhausted r decision then LClose else LDecide sequence decision)
    (approval_abs (decided_state decision l r)).
Proof.
  intros Hi Hs. apply decide_status_None in Hs as (Hp & Hpr & <- & Hcase).
  assert (Ha : approval_abs (decided_state decision l r) =
    mkApprovalState (broker_phase (decided_broker decision r)) (ap_next (approval_abs r))
      (ap_exhausted (approval_abs r)) (ap_effect (approval_abs r))).
  { unfold decided_state. cbv zeta. unfold approval_abs. simpl.
    destruct (decided_wake decision r); simpl; f_equal; unfold decided_broker; cbv zeta;
      destruct (epoch_exhausted r decision); try done; by destruct (decision =? DECISION_APPROVE). }
  rewrite Ha. unfold decided_broker. cbv zeta.
  destruct (epoch_exhausted r decision).
  - apply (ap_close 1 (approval_abs r)); [done|]. simpl. unfold broker_phase.
    destruct Hcase as [[_ ->]|[[_ ->]|[_ [-> | ->]]]]; done.
  - destruct Hcase as [[-> Hst]|[[-> Hst]|[-> Hst]]]; simpl (_ =? _); cbv iota.
    + eapply (ap_approve 1 (approval_abs r)); [done|]. simpl. unfold broker_phase. by rewrite Hst.
    + eapply (ap_deny 1 (approval_abs r)); [done|]. simpl. unfold broker_phase. by rewrite Hst.
    + eapply (ap_expire 1 (approval_abs r)); [done|]. simpl. unfold broker_phase.
      destruct Hst as [-> | ->]; [by left|by right].
Qed.

Lemma commit_refines r task handle sequence argument l :
  commit_status r task handle sequence argument = None ->
  approval_step 1 (approval_abs r) (LCommit sequence argument)
    (approval_abs (committed_state argument l r)).
Proof.
  intros (Hp & Hpr & Hst & Hseq & Harg & Hocc & Hlt)%commit_status_None.
  assert (Ha : approval_abs (committed_state argument l r) =
    mkApprovalState PhIdle (ap_next (approval_abs r)) (ap_exhausted (approval_abs r)) (Some argument)) by done.
  rewrite Ha. apply (ap_commit 1 (approval_abs r)); [done| |].
  - simpl. unfold broker_phase. by rewrite Hst, Hseq, Harg.
  - simpl. by rewrite Hocc.
Qed.

(** Operations other than submit, decide and commit. *)
Lemma other_keeps_approval task r o r' :
  requested r task <> Some OpSubmitApproval -> requested r task <> Some OpDecideApproval ->
  requested r task <> Some OpCommitEffect ->
  running_task r = Ok task -> rt_context r task = Ok (context_of r task) ->
  handle_trap_inner task r = (Ok o, r') ->
  rt_broker r' = rt_broker r /\ rt_effect r' = rt_effect r.
Proof.
  intros Hn1 Hn2 Hn3 Hrun Hctx H. unfold handle_trap_inner in H.
  rewrite (readM_step _ _ _ task Hrun), Z.eqb_refl in H. cbn [negb] in H.
  rewrite (readM_step (fun r => rt_context r task) _ _ _ Hctx) in H. cbv zeta in H. unfold requested in *.
  assert (Hk : forall (m : M Runtime RuntimeError TrapOutcome),
    m r = (Ok o, r') -> keeps rt_broker (rt_broker r) m -> keeps rt_effect (rt_effect r) m ->
    rt_broker r' = rt_broker r /\ rt_effect r' = rt_effect r).
  { intros m Hm K1 K2. split; [by eapply K1|by eapply K2]. }
  destruct (TrapOperation_parse _) as [[]|]; try done; (eapply Hk; [exact H|..]);
    try (by apply keeps_start); try (unfold send, receive, endpoint_mut; keeps_solve);
    auto using keeps_yield, keeps_exit, keeps_duplicate, keeps_close, keeps_inspect,
      keeps_resume_validated, keeps_resume_with with typeclass_instances.
Qed.

(** A trap is the transition its registers spell out, and is observed as that. *)
Definition refined_trap (r : Runtime) (task : Z) (r' : Runtime) : Prop :=
  exists l, label_matches r task l /\ approval_step task (approval_abs r) l (approval_abs r') /\
    observed r task r' = visible l.

Lemma refused_trap r task s :
  ts_state (task_slot r task) = Running -> s <> StOk -> refined_trap r task (upd task (slot_result s 0) r).
Proof.
  intros Hst Hs. exists LQuiet. split_and!; [done|rewrite approval_abs_upd; apply ap_quiet|].
  unfold observed. rewrite (refused_status task s r Hs), task_slot_upd.
  change (ts_state (slot_result s 0 (task_slot r task))) with (ts_state (task_slot r task)). rewrite Hst.
  by destruct (requested r task) as [[]|].
Qed.

Lemma submit_trap r task o r' :
  rt_inv r -> valid_task task -> ts_state (task_slot r task) = Running -> requested r task = Some OpSubmitApproval ->
  submit_approval task (tc_rdi (context_of r task)) (tc_rsi (context_of r task)) (tc_rdx (context_of r task)) r = (Ok o, r') ->
  refined_trap r task r'.
Proof.
  intros Hi Ht Hst Hop H. destruct (submit_status r task (tc_rdi (context_of r task)) (tc_rsi (context_of r task))) eqn:Hs.
  - rewrite (submit_refused _ _ _ _ _ _ Hi Ht Hs) in H. injection H as _ <-.
    exists LQuiet. split_and!; [done|rewrite approval_abs_upd; apply ap_quiet|].
    unfold observed. rewrite Hop, task_slot_upd.
    change (ts_state (slot_result t 0 (task_slot r task))) with (ts_state (task_slot r task)). by rewrite Hst.
  - destruct (submit_eq _ _ _ _ (tc_rdx (context_of r task)) Hi Ht Hst Hs) as (-> & _ & _ & Heq).
    rewrite Heq in H. injection H as _ <-. eexists. split; [|split; [by eapply submit_refines|]]; [done|].
    unfold observed. by rewrite Hop.
Qed.

Lemma decide_trap r task l o r' :
  rt_inv r -> valid_task task -> ts_state (task_slot r task) = Running -> rt_queue r = queue_of l ->
  requested r task = Some OpDecideApproval ->
  decide_approval task (tc_rdi (context_of r task)) (tc_rsi (context_of r task)) (tc_rdx (context_of r task)) r = (Ok o, r') ->
  refined_trap r task r'.
Proof.
  intros Hi Ht Hst Hq Hop H.
  destruct (decide_status r task (tc_rdi (context_of r task)) (tc_rsi (context_of r task)) (tc_rdx (context_of r task))) eqn:Hs.
  - rewrite (decide_refused _ _ _ _ _ _ Hi Ht Hs) in H. injection H as _ <-.
    apply refused_trap; [done|by eapply decide_status_refusal].
  - destruct (decide_eq _ _ _ _ _ l Hi Ht Hst Hq Hs) as (-> & _ & Heq).
    rewrite Heq in H. injection H as _ <-. eexists. split; [|split; [rewrite approval_abs_upd; by eapply decide_refines|]].
    + by destruct (epoch_exhausted _ _).
    + unfold observed. rewrite Hop, told_status. by destruct (epoch_exhausted _ _).
Qed.

Lemma commit_trap r task l o r' :
  rt_inv r -> valid_task task -> ts_state (task_slot r task) = Running -> rt_queue r = queue_of l ->
  requested r task = Some OpCommitEffect ->
  commit_effect task (tc_rdi (context_of r task)) (tc_rsi (context_of r task)) (tc_rdx (context_of r task)) r = (Ok o, r') ->
  refined_trap r task r'.
Proof.
  intros Hi Ht Hst Hq Hop H.
  destruct (commit_status r task (tc_rdi (context_of r task)) (tc_rsi (context_of r task)) (tc_rdx (context_of r task))) eqn:Hs.
  - rewrite (commit_refused _ _ _ _ _ _ Hi Ht Hs) in H. injection H as _ <-.
    apply refused_trap; [done|by eapply commit_status_refusal].
  - destruct (commit_effect_ok _ _ _ _ _ l Hi Ht Hst Hq Hs) as (-> & _ & Heq).
    rewrite Heq in H. injection H as _ <-. eexists. split; [|split; [rewrite approval_abs_upd; by eapply commit_refines|]]; [done|].
    unfold observed. by rewrite Hop, told_status.
Qed.

Lemma trap_refines_approval r task o r' :
  rt_inv r -> running_task r = Ok task -> handle_trap task r = (Ok o, r') -> refined_trap r task r'.
Proof.
  intros Hi Hrun Htrap. pose proof (proj1 (running_task_spec r task Hi) Hrun) as [Ht Hst].
  unfold handle_trap in Htrap. rewrite transactional_ok in Htrap.
  assert (Hctx : rt_context r task = Ok (context_of r task)).
  { unfold rt_context. by rewrite slot_valid. }
  destruct (ri_sched _ Hi) as (l & Hq & _). pose proof Htrap as Htrap0. unfold handle_trap_inner in Htrap.
  rewrite (readM_step _ _ _ task Hrun), Z.eqb_refl in Htrap. cbn [negb] in Htrap.
  rewrite (readM_step (fun r => rt_context r task) _ _ _ Hctx) in Htrap. cbv zeta in Htrap.
  change (TrapOperation_parse (tc_rax (context_of r task))) with (requested r task) in Htrap.
  destruct (decide (requested r task = Some OpSubmitApproval)) as [Hop|Hn1]; [rewrite Hop in Htrap; by eapply submit_trap|].
  destruct (decide (requested r task = Some OpDecideApproval)) as [Hop|Hn2]; [rewrite Hop in Htrap; by eapply decide_trap|].
  destruct (decide (requested r task = Some OpCommitEffect)) as [Hop|Hn3]; [rewrite Hop in Htrap; by eapply commit_trap|].
  destruct (other_keeps_approval task r o r') as [Hb He]; try done.
  exists LQuiet. split_and!; [done|rewrite (approval_abs_global r r') by done; apply ap_quiet|].
  unfold observed. by destruct (requested r task) as [[]|].
Qed.

(** ** Teardown *)

(** A teardown leaves the protocol alone, or closes it and drops the effect. *)
Definition closed_state (a : approval_state) : Prop := ap_phase a = PhClosed /\ ap_effect a = None.

Lemma cooperative_closed r : rt_inv r -> rt_profile r = Cooperative -> closed_state (approval_abs r).
Proof.
  intros Hi Hp. pose proof (rt_inv_profile_coop r Hi Hp) as Hc. unfold closed_state, approval_abs, broker_phase. cbn.
  by rewrite (co_broker _ Hc), (co_effect _ Hc).
Qed.

Lemma workload_torn_abs r :
  rt_inv r -> rt_profile r = Supervised -> ts_state (rt_task1 r) = Exited -> approval_abs (workload_torn r) = approval_abs r.
Proof.
  intros Hi Hp Hex. pose proof (rt_inv_profile_sup r Hi Hp) as Hsu. pose proof (su_broker _ Hsu) as Hb.
  destruct (slot_table_cases _ _ (ri_slot0 _ Hi)) as [_ Hd].
  assert (Hw : is_state BlockedApproval (rt_task1 r) = false) by (apply is_state_false; congruence).
  unfold approval_abs. cbn. f_equal. unfold broker_phase. cbn [broker_workload_gone ab_state].
  change (ab_state (broker_clear_request (rt_broker r))) with (ab_state (rt_broker r)).
  destruct (ct_state (ts_capabilities (rt_task0 r))) eqn:HT; [done|..].
  - rewrite Hw in Hb. assert (Hnd : is_state TaskDead (rt_task0 r) = false) by (apply is_state_false; rewrite Hd; congruence).
    rewrite Hnd. pose proof (br_state _ _ Hb) as Hbs. destruct (ab_state (rt_broker r)); try done; by destruct Hbs.
  - destruct Hb as (_ & -> & _). done.
  - destruct Hb as [-> _]. done.
Qed.

Lemma begin_abs r task r' :
  rt_inv r -> begin_teardown task r = (Ok tt, r') ->
  approval_abs r' = approval_abs r \/ closed_state (approval_abs r').
Proof.
  intros Hi Hb. destruct (begin_teardown_live r task r' Hb) as (Ht & Hex & HL).
  destruct (begin_teardown_ok r task Hi Ht Hex HL) as (r1 & Heq & Hi1 & _ & HC & _ & Hpr).
  assert (r' = r1) as -> by congruence. destruct (rt_profile r) eqn:Hp; [right; by apply cooperative_closed|].
  destruct Ht as [-> | ->].
  - right. pose proof (rt_inv_profile_sup r1 Hi1 Hpr) as Hsu. change (task_slot r1 1) with (rt_task0 r1) in HC.
    pose proof (su_broker _ Hsu) as Hbr. pose proof (su_effect _ Hsu) as Hef. rewrite HC in Hbr, Hef.
    destruct Hbr as (_ & Hst & _). unfold closed_state, approval_abs, broker_phase. cbn. by rewrite Hst, Hef.
  - left. unfold begin_teardown in Heq. rewrite transactional_ok in Heq. unfold begin_teardown_inner in Heq.
    rewrite (read_slot_step r 2 _ (or_intror eq_refl)), (proj2 (is_state_true _ _) Hex) in Heq. cbn [negb] in Heq.
    unfold bindM at 1, getM in Heq. rewrite Hp in Heq.
    rewrite (proj1 (begin_teardown_sup_receiver r Hi Hp Hex HL)) in Heq. injection Heq as <-. by apply workload_torn_abs.
Qed.

Lemma complete_abs r task next r' :
  rt_inv r -> complete_teardown task r = (Ok next, r') ->
  approval_abs r' = approval_abs r \/ closed_state (approval_abs r').
Proof.
  intros Hi Hc. destruct (complete_teardown_enabled r task next r' Hi Hc) as (Ht & Hex & HC & _).
  unfold complete_teardown in Hc. rewrite transactional_ok, complete_teardown_torn in Hc by done.
  assert (Hk : forall X (f : Runtime -> X) `{!GlobalProjection f}, f r' = f (torn task r)).
  { intros X f Hf. eapply (keeps_bind f (f (torn task r)) (readM validate)); [apply keeps_read| |reflexivity|exact Hc].
    intros ?. by apply keeps_dispatch_next. }
  rewrite (approval_abs_global (torn task r) r') by apply Hk, _. unfold torn. cbv zeta.
  destruct (forallb _ _); [right; by destruct (_ && _)|]. destruct (_ && _); [by right|]. left. apply approval_abs_upd.
Qed.

(** ** Histories *)

(** What was observed of the protocol in a run, oldest first. *)
Definition observed_by (e : kernel_event) : list approval_label :=
  match ke_action e with ActTrap task => observed (ke_before e) task (ke_after e) | _ => [] end.

Definition history (t : list kernel_event) : list approval_label := flat_map observed_by t.

Definition is_submit (l : approval_label) : bool :=
  match l with LSubmit _ _ => true | _ => false end.
Definition is_commit (l : approval_label) : bool :=
  match l with LCommit _ _ => true | _ => false end.

(** What the history says about the protocol state.  Once the protocol is closed
    its counters no longer matter. *)
Record history_inv (h : list approval_label) (a : approval_state) : Prop := mk_history_inv {
  hi_pending : forall s v, ap_phase a = PhPending s v -> [LSubmit s v] `sublist_of` h;
  hi_approved : forall s v, ap_phase a = PhApproved s v ->
    [LSubmit s v; LDecide s DECISION_APPROVE] `sublist_of` h;
  hi_effect : forall v, ap_effect a = Some v -> (exists s, LCommit s v ∈ h) /\ countb is_commit h = 1;
  hi_none : ap_effect a = None -> ap_phase a <> PhClosed -> countb is_commit h = 0;
  hi_once : countb is_commit h <= 1;
  hi_order : forall i s v, h !! i = Some (LCommit s v) ->
    [LSubmit s v; LDecide s DECISION_APPROVE] `sublist_of` take i h;
  hi_fresh : ap_phase a <> PhClosed -> forall i s v, h !! i = Some (LSubmit s v) ->
    s < ap_next a \/ (s = ap_next a /\ ap_exhausted a = true);
  hi_unique : forall i j s v v', h !! i = Some (LSubmit s v) -> h !! j = Some (LSubmit s v') -> i = j
}.

Lemma countb_app {A} (p : A -> bool) l l' : countb p (l ++ l') = countb p l + countb p l'.
Proof. induction l as [|x l IH]; simpl; [lia|]. rewrite IH. lia. Qed.

Lemma sublist_snoc_snoc {A} (k h : list A) x : k `sublist_of` h -> k ++ [x] `sublist_of` h ++ [x].
Proof. intros H. by apply sublist_app. Qed.

Lemma history_closed h a a' : history_inv h a -> closed_state a' -> history_inv h a'.
Proof.
  intros [_ _ _ _ Ho Hor _ Hu] [Hp He]. split; try done; rewrite ?Hp, ?He; done.
Qed.

(** The commits stay in order when a label is added that is none, or one with its
    submission and approval before it. *)
Lemma order_snoc h l :
  (forall i s v, h !! i = Some (LCommit s v) -> [LSubmit s v; LDecide s DECISION_APPROVE] `sublist_of` take i h) ->
  (forall s v, l = LCommit s v -> [LSubmit s v; LDecide s DECISION_APPROVE] `sublist_of` h) ->
  forall i s v, (h ++ [l]) !! i = Some (LCommit s v) ->
    [LSubmit s v; LDecide s DECISION_APPROVE] `sublist_of` take i (h ++ [l]).
Proof.
  intros Ho Hl i s v [H|[-> H]]%lookup_snoc_cases.
  - rewrite take_app_le by (apply lookup_lt_Some in H; lia). by apply Ho.
  - rewrite take_app_length. by apply Hl.
Qed.

(** A label that is no submission extends a history without new sequence
    numbers. *)
Lemma unique_snoc h l :
  (forall i j s v v', h !! i = Some (LSubmit s v) -> h !! j = Some (LSubmit s v') -> i = j) ->
  is_submit l = false ->
  forall i j s v v', (h ++ [l]) !! i = Some (LSubmit s v) -> (h ++ [l]) !! j = Some (LSubmit s v') -> i = j.
Proof.
  intros Hu Hl i j s v v' [H|[_ H]]%lookup_snoc_cases; [|by rewrite <-H in Hl].
  intros [H'|[_ H']]%lookup_snoc_cases; [by eapply Hu|by rewrite <-H' in Hl].
Qed.

Lemma history_decide h a s d ph :
  history_inv h a -> ap_phase a <> PhClosed -> ph <> PhClosed ->
  (forall s' v', ph = PhPending s' v' -> False) ->
  (forall s' v', ph = PhApproved s' v' -> [LSubmit s' v'; LDecide s' DECISION_APPROVE] `sublist_of` h ++ [LDecide s d]) ->
  history_inv (h ++ [LDecide s d]) (mkApprovalState ph (ap_next a) (ap_exhausted a) (ap_effect a)).
Proof.
  intros [Hp Ha He Hn Ho Hor Hf Hu] Hc Hph Hpe Hap. split; cbn [ap_phase ap_next ap_exhausted ap_effect].
  - intros s' v' E. by destruct (Hpe s' v').
  - done.
  - intros v E. destruct (He v E) as [[s' Hs] Hco]. rewrite countb_app. cbn. split; [|lia]. exists s'. apply elem_of_app. by left.
  - intros E _. rewrite countb_app, (Hn E Hc). done.
  - rewrite countb_app. cbn. lia.
  - by apply order_snoc.
  - intros _ i s' v [H|[_ H]]%lookup_snoc_cases; [by eapply Hf|done].
  - by apply unique_snoc.
Qed.

Lemma history_submit h a v :
  history_inv h a -> ap_phase a = PhIdle -> ap_exhausted a = false ->
  history_inv (h ++ [LSubmit (ap_next a) v])
    (mkApprovalState (PhPending (ap_next a) v) (fst (next_sequence (ap_next a))) (snd (next_sequence (ap_next a))) (ap_effect a)).
Proof.
  intros [Hp Ha He Hn Ho Hor Hf Hu] Hph Hex. assert (Hc : ap_phase a <> PhClosed) by congruence.
  assert (Hlt : forall i s w, h !! i = Some (LSubmit s w) -> s < ap_next a).
  { intros i s w H. destruct (Hf Hc i s w H) as [|[_ H']]; [done|congruence]. }
  split; cbn [ap_phase ap_next ap_exhausted ap_effect].
  - intros s w [= <- <-]. apply (sublist_snoc_snoc []). apply sublist_nil_l.
  - done.
  - intros w E. destruct (He w E) as [[s' Hs] Hco]. rewrite countb_app. cbn. split; [|lia]. exists s'. apply elem_of_app. by left.
  - intros E _. rewrite countb_app, (Hn E Hc). done.
  - rewrite countb_app. cbn. lia.
  - by apply order_snoc.
  - intros _ i s w [H|[_ [= -> ->]]]%lookup_snoc_cases.
    + apply Hlt in H. unfold next_sequence. destruct (ap_next a =? U64_MAX); cbn; lia.
    + unfold next_sequence. destruct (ap_next a =? U64_MAX); cbn; [by right|left; lia].
  - intros i j s w w' [H|[? H]]%lookup_snoc_cases [H'|[? H']]%lookup_snoc_cases; simplify_eq.
    + by eapply Hu.
    + apply Hlt in H. lia.
    + apply Hlt in H'. lia.
    + done.
Qed.

Lemma history_commit h a s v :
  history_inv h a -> ap_phase a = PhApproved s v -> ap_effect a = None ->
  history_inv (h ++ [LCommit s v]) (mkApprovalState PhIdle (ap_next a) (ap_exhausted a) (Some v)).
Proof.
  intros [Hp Ha He Hn Ho Hor Hf Hu] Hph Hef. assert (Hc : ap_phase a <> PhClosed) by congruence.
  pose proof (Hn Hef Hc) as Hz. split; cbn [ap_phase ap_next ap_exhausted ap_effect]; try done.
  - intros w [= <-]. rewrite countb_app, Hz. split; [|done]. exists s. apply elem_of_app. right. by apply list_elem_of_singleton.
  - rewrite countb_app, Hz. done.
  - apply order_snoc; [done|]. intros s' v' [= <- <-]. by apply Ha.
  - intros _ i s' w [H|[_ H]]%lookup_snoc_cases; [by eapply Hf|done].
  - by apply unique_snoc.
Qed.

Lemma history_step h task a l a' :
  history_inv h a -> approval_step task a l a' -> history_inv (h ++ visible l) a'.
Proof.
  intros Hh Hstep. destruct Hstep as [|arg Ht Hph Hex|s v Ht Hph|s v Ht Hph|s v Ht Hph|s v Ht Hph Hef|Ht Hph]; cbn [visible].
  - by rewrite app_nil_r.
  - by apply history_submit.
  - apply history_decide; try done; [congruence|]. intros s' v' [= <- <-].
    apply (sublist_snoc_snoc [LSubmit s v]). by apply (hi_pending _ _ Hh).
  - apply history_decide; try done. congruence.
  - apply history_decide; try done. destruct Hph; congruence.
  - by apply history_commit.
  - rewrite app_nil_r. destruct Hh as [_ _ He _ Ho Hor _ Hu]. by split.
Qed.

Lemma event_history h r a r' :
  rt_inv r -> history_inv h (approval_abs r) -> kernel_act r a r' ->
  history_inv (h ++ observed_by (mkEvent r a r')) (approval_abs r').
Proof.
  intros Hi Hh Ha. destruct Ha as [task r1 Hna Hd|task f root g r1 Hroot Hc|task o r1 Ht|task r1 Hb|task n r1 Hc];
    cbn [observed_by ke_action ke_before ke_after]; rewrite ?app_nil_r.
  - rewrite (approval_abs_global r r1); [done|..]; by eapply keeps_dispatch_next.
  - assert (Hk : forall X (p : Runtime -> X) `{!GlobalProjection p}, keeps p (p r) (capture_trap task f root g)).
    { intros X p Hp. unfold capture_trap. keeps_solve. }
    rewrite (approval_abs_global r r1); [done|by eapply Hk|by eapply Hk].
  - destruct (trap_refines_approval r task o r1 Hi (trap_running _ _ _ _ Ht) Ht) as (l & _ & Hs & ->). by eapply history_step.
  - destruct (begin_abs r task r1 Hi Hb) as [->|Hcl]; [done|by eapply history_closed].
  - destruct (complete_abs r task n r1 Hi Hc) as [->|Hcl]; [done|by eapply history_closed].
Qed.

Lemma trace_history r0 t r :
  rt_inv r0 -> history_inv [] (approval_abs r0) -> kernel_trace r0 t r -> history_inv (history t) (approval_abs r).
Proof.
  intros Hi0 Hh0 Ht. induction Ht as [|t r a r' Ht IH Ha]; [done|].
  unfold history in *. rewrite flat_map_snoc. apply event_history; [by eapply kernel_trace_inv|done|done].
Qed.

(** ** Theorems *)

(** C10: the supervised runtime refines the approval protocol.  Every trap of
    the running task, whatever its registers hold, is a transition of the
    abstract state machine (idle, pending, approved, closed, with the stored
    effect) with the label its registers spell out; in particular only the
    workload submits, only the supervisor decides and commits, a decision must
    name the pending sequence number, and a commit must name the sequence number
    and the argument that were approved. *)
Theorem traps_refine_approval_protocol r task :
  rt_inv r -> running_task r = Ok task ->
  exists outcome r' l,
    handle_trap task r = (Ok outcome, r') /\ label_matches r task l /\
    approval_step task (approval_abs r) l (approval_abs r').
Proof.
  intros Hi Hrun. destruct (handle_trap_ok r task Hi Hrun) as (o & r' & Heq & _).
  destruct (trap_refines_approval r task o r' Hi Hrun Heq) as (l & Hl & Hs & _).
  exists o, r', l. done.
Qed.

(** C9: no effect without approval.  In every run of dispatches, captures, traps
    and teardowns from a freshly constructed supervised runtime, with any register
    contents, consider the submissions, decisions and commits that were accepted,
    in order.  Every commit comes after a submission of exactly its value and an
    approval of that very request; there is at most one commit; if the effect
    holds a value, that value was committed; and no two submissions ever got the
    same sequence number. *)
Theorem effects_are_approved s0 s1 r0 t r :
  Runtime_new_supervised s0 s1 = Ok r0 -> kernel_trace r0 t r ->
  (forall i s v, history t !! i = Some (LCommit s v) ->
     [LSubmit s v; LDecide s DECISION_APPROVE] `sublist_of` take i (history t)) /\
  countb is_commit (history t) <= 1 /\
  (se_occupied (rt_effect r) = true -> exists s, LCommit s (se_value (rt_effect r)) ∈ history t) /\
  (forall i j s v v', history t !! i = Some (LSubmit s v) -> history t !! j = Some (LSubmit s v') -> i = j).
Proof.
  intros Hnew Hrun. pose proof (runtime_new_supervised_accepts _ _ _ Hnew) as Hc.
  rewrite runtime_new_supervised_eq in Hnew by done. injection Hnew as <-. destruct Hc as (?&?&?&?&?&?).
  destruct (trace_history (sup_initial s0 s1) t r) as [_ _ He _ Ho Hor _ Hu]; [by apply sup_initial_inv|by split|done|].
  split_and!; [done|done| |done]. intros Hocc. apply He. cbn. by rewrite Hocc.
Qed.

(** ** A concrete run: launch, submit, approve, commit *)

Definition sup_root (task : Z) : Z := if task =? 1 then 4096 else 8192.
Definition sup_generation (task : Z) : Z :=
  if task =? 1 then SUPERVISOR_GENERATION else WORKLOAD_GENERATION.

(** The workload submits 42; a commit of 43 is refused, the one of 42 goes
    through. *)
Definition approval_calls : list kernel_request :=
  let supervisor := call SUPERVISOR_GENERATION 1 in
  let workload := call WORKLOAD_GENERATION 2 in
  [ReqDispatch] ++ supervisor 6 16 1 0 ++ supervisor 0 0 0 0 ++ workload 7 16 1 42 ++ supervisor 9 17 1 1
  ++ supervisor 10 18 1 43 ++ supervisor 10 18 1 42.

Definition approval_trace : list kernel_event := (traced approval_calls sup_runtime).1.
Definition approval_end : Runtime := (traced approval_calls sup_runtime).2.

Lemma traps_refine_approval_protocol_witness :
  exists outcome r' l, handle_trap 1 sup_running = (Ok outcome, r') /\
    approval_step 1 (approval_abs sup_running) l (approval_abs r').
Proof.
  destruct (traps_refine_approval_protocol sup_running 1 sup_running_inv eq_refl)
    as (o & r' & l & Heq & _ & Hs).
  exists o, r', l. split; assumption.
Defined.

Lemma effects_are_approved_witness :
  history approval_trace = [LSubmit 1 42; LDecide 1 DECISION_APPROVE; LCommit 1 42] /\
  se_occupied (rt_effect approval_end) = true /\
  exists s, LCommit s (se_value (rt_effect approval_end)) ∈ history approval_trace.
Proof.
  assert (Hocc : se_occupied (rt_effect approval_end) = true) by (vm_compute; reflexivity).
  split; [vm_compute; reflexivity|]. split; [exact Hocc|].
  refine (proj1 (proj2 (proj2 (effects_are_approved (sample_context 1 SUPERVISOR_GENERATION 4096)
    (sample_context 2 WORKLOAD_GENERATION 8192) sup_runtime approval_trace approval_end _ _))) Hocc).
  - vm_compute. reflexivity.
  - apply traced_trace. apply (bool_decide_unpack _). vm_compute. exact I.
Defined.
