(* ===== verification/JournaledInv.v ===== *)
(** * The journal as an audit log

    An executable replay of the committed records: it rebuilds the state of the
    approval protocol from the journal alone and refuses any log whose records
    are out of protocol, out of order, unauthorised or carry a status other than
    that of their kind.  [audited] says that replaying the journal of a
    journaled runtime gives the state the broker and the effect are in. *)

From S2P Require Import Prelude RuntimeTypes Capability Journal JournalProofs Runtime RuntimeOps.
From S2P Require Import Journaled RuntimeInv.

(** ** Replay *)

Inductive replay_phase : Type :=
| RpIdle
| RpPending (sequence : Z)
| RpApproved (sequence : Z).

Record replay_state : Type := mkReplayState {
  rp_phase : replay_phase;
  rp_next : Z;
  rp_epoch : Z;
  rp_executed : bool
}.

Definition replay_start : replay_state := mkReplayState RpIdle 1 1 false.

(** The actor and the capability that a record of each kind must name: the
    workload for a request, the supervisor for everything else; a denial or an
    expiry may also come from a teardown, which names no actor and no right. *)
Definition authorised (r : EffectRecordV1) : bool :=
  let who actor generation object_type rights :=
    (er_actor_task_id r =? actor) && (er_actor_task_generation r =? generation)
    && (er_capability_object_type r =? object_type) && (er_capability_rights r =? rights) in
  let k := er_event_kind r in
  if k =? event_code EvRequested then
    who RECEIVER_TASK_ID WORKLOAD_GENERATION OBJECT_TYPE_APPROVAL_BROKER
      CAPABILITY_RIGHT_SUBMIT_APPROVAL
  else if (k =? event_code EvCompleted) || (k =? event_code EvFailed) then
    who SENDER_TASK_ID SUPERVISOR_GENERATION OBJECT_TYPE_TEST_EFFECT CAPABILITY_RIGHT_COMMIT_EFFECT
  else
    who SENDER_TASK_ID SUPERVISOR_GENERATION OBJECT_TYPE_APPROVAL_BROKER
      CAPABILITY_RIGHT_DECIDE_APPROVAL
    || (negb (k =? event_code EvApproved) && who 0 0 OBJECT_TYPE_APPROVAL_BROKER 0).

Definition event_status (k : Z) : TrapStatus :=
  if k =? event_code EvDenied then ApprovalDenied
  else if k =? event_code EvExpired then ApprovalExpired
  else if k =? event_code EvFailed then EffectUnavailable
  else StOk.

(** The next phase, and whether the effect is now executed. *)
Definition replay_event (st : replay_state) (k q : Z) : option (replay_phase * bool) :=
  match rp_phase st with
  | RpIdle =>
      if (k =? event_code EvRequested) && (q =? rp_next st)
      then Some (RpPending q, rp_executed st) else None
  | RpPending p =>
      if negb (q =? p) then None
      else if k =? event_code EvApproved then Some (RpApproved p, rp_executed st)
      else if (k =? event_code EvDenied) || (k =? event_code EvExpired)
      then Some (RpIdle, rp_executed st)
      else None
  | RpApproved p =>
      if negb (q =? p) then None
      else if k =? event_code EvExpired then Some (RpIdle, rp_executed st)
      else if (k =? event_code EvCompleted) && negb (rp_executed st) then Some (RpIdle, true)
      else if (k =? event_code EvFailed) && rp_executed st then Some (RpIdle, true)
      else None
  end.

Definition replay_record (st : replay_state) (r : EffectRecordV1) : option replay_state :=
  let k := er_event_kind r in
  if (er_decision_epoch r =? rp_epoch st + 1) && authorised r
     && (er_status r =? status_code (event_status k))
  then
    match replay_event st k (er_request_sequence r) with
    | Some (phase, executed) =>
        Some (mkReplayState phase
                (if k =? event_code EvRequested then rp_next st + 1 else rp_next st)
                (rp_epoch st + 1) executed)
    | None => None
    end
  else None.

Fixpoint replay_from (st : replay_state) (log : list EffectRecordV1) : option replay_state :=
  match log with
  | [] => Some st
  | r :: log' =>
      match replay_record st r with
      | Some st' => replay_from st' log'
      | None => None
      end
  end.

Definition replay (log : list EffectRecordV1) : option replay_state := replay_from replay_start log.

Lemma replay_from_snoc st log r :
  replay_from st (log ++ [r]) =
  match replay_from st log with Some st' => replay_record st' r | None => None end.
Proof.
  revert st. induction log as [|x log IH]; intros st; simpl.
  - by destruct (replay_record st r).
  - destruct (replay_record st x); [apply IH|done].
Qed.

Lemma replay_number st log r : replay_record st (number log r) = replay_record st r.
Proof. done. Qed.

(** ** The runtime the log describes *)

Definition broker_replay_phase (b : ApprovalBroker) : replay_phase :=
  match ab_state b with
  | BrokerPending => RpPending (ar_sequence (ab_request b))
  | BrokerApproved => RpApproved (ar_sequence (ab_request b))
  | _ => RpIdle
  end.

(** The replayed state is the broker's and the effect's. *)
Record mirrors (st : replay_state) (r : Runtime) : Prop := mk_mirrors {
  mi_phase : rp_phase st = broker_replay_phase (rt_broker r);
  mi_next : ab_sequence_exhausted (rt_broker r) = false -> rp_next st = ab_next_sequence (rt_broker r);
  mi_epoch : rp_epoch st = ab_decision_epoch (rt_broker r);
  mi_executed : rp_executed st = se_occupied (rt_effect r)
}.

(** While the journal is live its replay mirrors the runtime; once sealed, every
    lifecycle in it is closed. *)
Definition audited (s : JournaledRuntime) : Prop :=
  exists st, replay (committed (jr_journal s)) = Some st /\
    match ej_state (jr_journal s) with
    | JournalLive => mirrors st (jr_runtime s)
    | JournalSealed => rp_phase st = RpIdle
    | _ => True
    end.

(** The state of a lifecycle record's log after it, in the four shapes the
    runtime writes. *)
Section Transitions.
Variables (st : replay_state) (r r' : Runtime).
Hypothesis Hm : mirrors st r.
Hypothesis Hepoch : ab_decision_epoch (rt_broker r') = ab_decision_epoch (rt_broker r) + 1.

Lemma replay_requested q :
  ab_state (rt_broker r) = BrokerEmpty -> ab_sequence_exhausted (rt_broker r) = false ->
  ab_state (rt_broker r') = BrokerPending -> ab_request (rt_broker r') = q ->
  ar_sequence q = ab_next_sequence (rt_broker r) ->
  (ab_sequence_exhausted (rt_broker r') = false ->
     ab_next_sequence (rt_broker r') = ab_next_sequence (rt_broker r) + 1) ->
  rt_effect r' = rt_effect r ->
  exists st', replay_record st (record_event EvRequested StOk (ab_decision_epoch (rt_broker r'))
      RECEIVER_TASK_ID WORKLOAD_GENERATION q OBJECT_TYPE_APPROVAL_BROKER
      CAPABILITY_RIGHT_SUBMIT_APPROVAL) = Some st' /\ mirrors st' r'.
Proof.
  destruct Hm as [Hp Hn He Hx]. intros Hs Hex Hs' <- Hq Hnext Heff.
  unfold replay_record. simpl. rewrite Hepoch, He, Z.eqb_refl. simpl.
  unfold replay_event. rewrite Hp. unfold broker_replay_phase. rewrite Hs, Hn, Hq by done. simpl. rewrite Z.eqb_refl.
  eexists. split; [done|]. split; simpl; try lia.
  - unfold broker_replay_phase. by rewrite Hs', Hq.
  - intros H. by rewrite Hnext.
  - by rewrite Heff.
Qed.

(** Every later record of a lifecycle: [k] is its kind, [phase] the phase the
    broker is left in. *)
Lemma replay_continued k status actor generation ty rights q executed :
  let rec := record_event k status (ab_decision_epoch (rt_broker r')) actor generation q ty rights in
  authorised rec = true -> status = event_status (event_code k) -> k <> EvRequested ->
  replay_event st (event_code k) (ar_sequence q) = Some (broker_replay_phase (rt_broker r'), executed) ->
  executed = se_occupied (rt_effect r') ->
  ab_sequence_exhausted (rt_broker r') = ab_sequence_exhausted (rt_broker r) ->
  ab_next_sequence (rt_broker r') = ab_next_sequence (rt_broker r) ->
  exists st', replay_record st rec = Some st' /\ mirrors st' r'.
Proof.
  destruct Hm as [Hp Hn He Hx]. intros rec Hauth -> Hk Hev -> Hex Hnext.
  unfold replay_record. rewrite Hauth. unfold rec. simpl. rewrite Hepoch, He, Z.eqb_refl, Z.eqb_refl. simpl.
  rewrite Hev. eexists. split; [done|]. split; simpl; try done.
  rewrite Hex, Hnext. intros H. rewrite <-(Hn H). by destruct k.
Qed.
End Transitions.

(** * Invariant of the journaled runtime

    [j_inv] relates the runtime, the journal and the journal capabilities; it
    implies that [jr_validate] accepts.  The tables and the journal entries in
    them are framed through every trap of the runtime. *)

From S2P Require Import Prelude RuntimeTypes Capability CapabilityProofs Journal JournalProofs.
From S2P Require Import Runtime RuntimeOps Journaled RuntimeFrame RuntimeInv RuntimeProgress.
From S2P Require Import SupervisedProgress RuntimeTeardown RuntimeConstruct RuntimeTheorems Ipc.
From S2P Require Import Approval.

(** ** The invariant *)

Definition caps0 (r : Runtime) : CapabilityTable := ts_capabilities (rt_task0 r).
Definition caps1 (r : Runtime) : CapabilityTable := ts_capabilities (rt_task1 r).

(** The supervisor holds at most one journal capability, with exactly the read
    right on the journal; the workload holds none. *)
Record entries_inv (r : Runtime) : Prop := mk_entries_inv {
  ei_one : journal_entries (caps0 r) <= 1;
  ei_exact : existsb journal_entry_bad (ct_slots (caps0 r)) = false;
  ei_none : journal_entries (caps1 r) = 0
}.

(** Neither task is being torn down yet. *)
Definition both_in_service (r : Runtime) : Prop :=
  ct_state (caps0 r) = TableLive /\ (ct_state (caps1 r) = TableBuilding \/ ct_state (caps1 r) = TableLive).

Definition epoch_room (b : ApprovalBroker) : Prop :=
  match ab_state b with
  | BrokerPending => ab_decision_epoch b <= U64_MAX - 2
  | BrokerApproved => ab_decision_epoch b <= U64_MAX - 1
  | _ => True
  end.

Record j_inv (s : JournaledRuntime) : Prop := mk_j_inv {
  ji_runtime : rt_inv (jr_runtime s);
  ji_profile : rt_profile (jr_runtime s) = Supervised;
  ji_journal : journal_wf (jr_journal s);
  ji_entries : entries_inv (jr_runtime s);
  ji_phase : match ej_state (jr_journal s) with
    | JournalBuilding => False
    | JournalLive =>
        both_in_service (jr_runtime s) /\
        ej_reserved_record_count (jr_journal s) = expected_reservations (jr_broker s) /\
        epoch_room (jr_broker s)
    | JournalSealed => ~ both_in_service (jr_runtime s)
    | JournalDead =>
        ts_state (rt_task0 (jr_runtime s)) = TaskDead /\ ts_state (rt_task1 (jr_runtime s)) = TaskDead
    end
}.

(** ** The validator accepts *)

(** Without both tasks in service no request can be present. *)
Lemma out_of_service_no_request r :
  rt_inv r -> rt_profile r = Supervised -> ~ both_in_service r ->
  ab_request_present (rt_broker r) = false /\
  ab_state (rt_broker r) <> BrokerPending /\ ab_state (rt_broker r) <> BrokerApproved.
Proof.
  intros Hi Hp Hn. pose proof (rt_inv_profile_sup r Hi Hp) as Hsu.
  pose proof (su_broker _ Hsu) as Hb. unfold both_in_service, caps0, caps1 in Hn.
  assert (Hdone : forall b, broker_inv false b ->
    ab_request_present b = false /\ ab_state b <> BrokerPending /\ ab_state b <> BrokerApproved).
  { intros b [_ _ _ Hst]. destruct (ab_state b); naive_solver. }
  destruct (ct_state (ts_capabilities (rt_task0 r))) eqn:HL.
  - done.
  - destruct (is_state BlockedApproval (rt_task1 r)) eqn:Hw; [|by apply Hdone].
    exfalso. apply Hn. split; [done|]. apply is_state_true in Hw.
    pose proof (si_table_state _ _ (ri_slot1 _ Hi)) as Hts. rewrite Hw in Hts. by right.
  - apply Hdone, Hb.
  - destruct Hb as [-> _]. done.
Qed.

Lemma entries_inv_dead r :
  rt_inv r -> ts_state (rt_task0 r) = TaskDead -> journal_entries (caps0 r) = 0.
Proof.
  intros Hi Hd. unfold caps0.
  rewrite (tw_dead _ (si_table _ _ (ri_slot0 _ Hi))); [done|].
  by apply (slot_table_cases _ _ (ri_slot0 _ Hi)).
Qed.

Lemma j_state_ok s : j_inv s -> journal_state_bad s = false.
Proof.
  intros [Hi Hp Hj He Hph]. unfold journal_state_bad.
  destruct (ej_state (jr_journal s)) eqn:Hst; [done|..].
  - destruct Hph as ([HL0 HL1] & Hres & _). rewrite Hres. unfold jr_broker.
    rewrite Z.eqb_refl, orb_false_r. apply not_true_iff_false. intros [Hd _]%all_dead_true.
    apply (slot_table_cases _ _ (ri_slot0 _ Hi)) in Hd. unfold caps0 in HL0. congruence.
  - destruct (out_of_service_no_request _ Hi Hp Hph) as (-> & Hp1 & Hp2).
    destruct Hj as [Hsh [Hd|Hw]]; [by rewrite Hd in Hst|].
    rewrite (jw_sealed _ Hw Hst). unfold broker_is. simpl.
    by rewrite !bool_decide_eq_false_2.
  - destruct Hph as [Hd0 Hd1]. change (ts_capabilities (rt_task0 (jr_runtime s))) with (caps0 (jr_runtime s)).
    rewrite entries_inv_dead by done. simpl.
    rewrite (proj2 (is_state_true _ _) Hd0), (proj2 (is_state_true _ _) Hd1). done.
Qed.

Lemma j_inv_validate s : j_inv s -> jr_validate s = Ok tt.
Proof.
  intros Hji. pose proof (j_state_ok s Hji) as Hst. destruct Hji as [Hi Hp Hj [He1 He2 He3] Hph].
  unfold jr_validate. cbv zeta. rewrite (rt_inv_validate _ Hi), (journal_wf_validate _ Hj). cbn [map_err].
  change (ts_capabilities (rt_task0 (jr_runtime s))) with (caps0 (jr_runtime s)).
  change (ts_capabilities (rt_task1 (jr_runtime s))) with (caps1 (jr_runtime s)).
  rewrite He3, He2, Hst. rewrite (proj2 (Z.ltb_ge _ _) He1). simpl.
  apply if_false. apply not_true_iff_false. intros Hbad. b2p. destruct Hbad as [Hd [Hn1 Hn2]].
  destruct (ej_state (jr_journal s)) eqn:E; try done.
  destruct Hph as ([_ HL1] & _). apply (slot_table_cases _ _ (ri_slot1 _ Hi)) in Hd.
  unfold caps1 in HL1. naive_solver congruence.
Qed.

(** ** Tables through a trap *)

Definition tables (r : Runtime) : CapabilityTable * CapabilityTable := (caps0 r, caps1 r).

(** How a trap may change a table, as far as journal entries are concerned. *)
Record table_tame (t t' : CapabilityTable) : Prop := mk_table_tame {
  tt_state : ct_state t' = ct_state t \/ (ct_state t = TableBuilding /\ ct_state t' = TableLive);
  tt_entries : journal_entries t' <= journal_entries t;
  tt_exact : existsb journal_entry_bad (ct_slots t) = false ->
             existsb journal_entry_bad (ct_slots t') = false
}.

Lemma table_tame_refl t : table_tame t t.
Proof. split; [by left|lia|done]. Qed.

Lemma journal_entries_insert t i s s' :
  ct_slots t !! i = Some s ->
  (is_journal_entry s' = true -> is_journal_entry s = true) ->
  (journal_entry_bad s' = false) ->
  table_tame t (ct_set_slots (<[i := s']> (ct_slots t)) t).
Proof.
  intros Hs Hj Hb. split; simpl; [by left|..].
  - unfold journal_entries. simpl. rewrite (countb_insert _ _ _ _ _ Hs).
    destruct (is_journal_entry s'), (is_journal_entry s); lia || (specialize (Hj eq_refl); done).
  - rewrite !existsb_false. intros H x [-> | Hx]%elem_of_insert_list; [done|by apply H].
Qed.

Lemma remove_entry_not_journal s :
  is_journal_entry (slot_remove_entry s) = false /\ journal_entry_bad (slot_remove_entry s) = false.
Proof. unfold is_journal_entry, journal_entry_bad. by rewrite slot_remove_entry_none. Qed.

Lemma table_close_tame t task g raw res t' :
  table_wf t -> table_close task g raw t = (res, t') -> table_tame t t'.
Proof.
  intros Hwf. unfold table_close. destruct (_ || _ || _); [intros [= _ <-]; apply table_tame_refl|].
  destruct (handle_decode raw) as [[i g']|] eqn:Hd; [|intros [= _ <-]; apply table_tame_refl].
  destruct (cs_retired _ || _ || _); [intros [= _ <-]; apply table_tame_refl|]. intros [= _ <-].
  destruct (remove_entry_not_journal (slot_at t i)) as [Hj Hb].
  eapply journal_entries_insert; [|by rewrite Hj|done].
  apply slot_at_lookup; [done|by eapply handle_decode_bounds].
Qed.

Lemma table_duplicate_tame t task g source requested res t' :
  table_wf t -> table_duplicate task g source requested t = (res, t') -> table_tame t t'.
Proof.
  intros Hwf. unfold table_duplicate, bindM, readM.
  destruct (table_resolve_typed _ _ _ _ _ _) as [e|] eqn:Hr; [|intros [= _ <-]; apply table_tame_refl].
  destruct (_ || _) eqn:E; [intros [= _ <-]; apply table_tame_refl|].
  destruct (table_allocate _ t) as [[h|st]t0] eqn:Ha; intros [= _ <-].
  - apply table_allocate_ok in Ha as (i & Hi & _ & _ & _ & ->); [|done].
    apply resolve_typed_iff in Hr as (_ & _ & _ & _ & _ & _ & Hty & _).
    eapply journal_entries_insert; [by apply slot_at_lookup|..];
      unfold is_journal_entry, journal_entry_bad; simpl; by rewrite Hty.
  - apply table_allocate_err in Ha as [-> _]; [apply table_tame_refl|done].
Qed.

Lemma keeps_tables_slot_mut x task g :
  (forall s, ts_capabilities (g s) = ts_capabilities s) -> keeps tables x (slot_mut task g).
Proof.
  intros Hg r res r' Hr. unfold slot_mut.
  destruct (task =? SENDER_TASK_ID); [intros [= _ <-]|destruct (task =? RECEIVER_TASK_ID); intros [= _ <-]];
    try done; unfold tables, caps0, caps1 in *; simpl; by rewrite Hg.
Qed.

Lemma keeps_tables_result x task st v : keeps tables x (set_result task st v).
Proof. by apply keeps_tables_slot_mut. Qed.
Lemma keeps_tables_state x task st : keeps tables x (set_state task st).
Proof. by apply keeps_tables_slot_mut. Qed.
Lemma keeps_tables_push x task : keeps tables x (rt_queue_push task).
Proof. intros r res r' Hr. unfold rt_queue_push. destruct (queue_push _ _). by intros [= _ <-]. Qed.
Lemma keeps_tables_pop x : keeps tables x rt_queue_pop.
Proof. intros r res r' Hr. unfold rt_queue_pop. destruct (queue_pop _). by intros [= _ <-]. Qed.

#[export] Hint Resolve keeps_tables_result keeps_tables_state keeps_tables_push keeps_tables_pop : keeps.

Lemma keeps_tables_dispatch x : keeps tables x dispatch_some.
Proof. unfold dispatch_some, dispatch_next. keeps_solve. Qed.
Lemma keeps_tables_resume x task st : keeps tables x (resume_with task st).
Proof. unfold resume_with. keeps_solve. Qed.
Lemma keeps_tables_validated x task st : keeps tables x (resume_validated task st).
Proof. unfold resume_validated. keeps_solve. Qed.
Lemma keeps_tables_wake x st v : keeps tables x (wake_workload st v).
Proof. unfold wake_workload. keeps_solve. Qed.

#[export] Hint Resolve keeps_tables_dispatch keeps_tables_resume keeps_tables_validated
  keeps_tables_wake : keeps.

Lemma upd_tables task f r :
  valid_task task ->
  tables (upd task f r) =
    if task =? 1 then (ts_capabilities (f (rt_task0 r)), caps1 r)
    else (caps0 r, ts_capabilities (f (rt_task1 r))).
Proof. by intros [-> | ->]. Qed.

Definition tables_tame (r r' : Runtime) : Prop :=
  table_tame (caps0 r) (caps0 r') /\ table_tame (caps1 r) (caps1 r').

Lemma tables_tame_eq r r' : tables r' = tables r -> tables_tame r r'.
Proof. intros [= H0 H1]. unfold tables_tame. rewrite H0, H1. split; apply table_tame_refl. Qed.

(** Replacing one table by a tame successor. *)
Lemma tables_tame_upd r task t' f :
  valid_task task -> table_tame (ts_capabilities (task_slot r task)) t' ->
  (forall s, ts_capabilities (f s) = ts_capabilities s) ->
  tables_tame r (upd task f (upd task (ts_set_capabilities t') r)).
Proof.
  intros Ht Htame Hf. destruct Ht as [-> | ->]; unfold tables_tame, caps0, caps1; simpl; rewrite Hf; simpl;
    split; (done || apply table_tame_refl).
Qed.

Lemma launched_tame r :
  ct_state (caps1 r) = TableBuilding -> table_tame (caps1 r) launched_table.
Proof.
  intros Hb. split.
  - right. split; [done|]. done.
  - change (journal_entries launched_table) with 0. apply countb_nonneg.
  - done.
Qed.

Lemma duplicate_tables r task source requested reserved o r' :
  rt_inv r -> valid_task task -> duplicate task source requested reserved r = (Ok o, r') ->
  tables_tame r r'.
Proof.
  intros Hi Ht H. unfold duplicate in H. head_if_in H E.
  { apply tables_tame_eq. by eapply (keeps_tables_resume (tables r)). }
  rewrite (read_slot_step r task _ Ht) in H.
  destruct (table_duplicate task (ts_generation (task_slot r task)) source requested
              (ts_capabilities (task_slot r task))) as [res t'] eqn:Hd.
  rewrite (bindM_step _ _ _ _ _ (on_capabilities_valid _ _ _ _ _ Ht Hd)) in H.
  assert (Hr' : exists st v, r' = upd task (slot_result st v) (upd task (ts_set_capabilities t') r)).
  { destruct res as [h|st]; rewrite (bindM_step _ _ _ _ _ (set_result_valid task _ _ _ Ht)) in H;
      unfold bindM, readM in H; destruct (validate _); try done; injection H as _ <-; eauto. }
  destruct Hr' as (st & v & ->). apply tables_tame_upd; [done| |done].
  eapply table_duplicate_tame; [|exact Hd]. apply (si_table _ _ (rt_inv_slot r task Ht Hi)).
Qed.

Lemma close_tables r task handle a b o r' :
  rt_inv r -> valid_task task -> close task handle a b r = (Ok o, r') -> tables_tame r r'.
Proof.
  intros Hi Ht H. unfold close in H. head_if_in H E.
  { apply tables_tame_eq. by eapply (keeps_tables_resume (tables r)). }
  rewrite (read_slot_step r task _ Ht) in H.
  destruct (table_close task (ts_generation (task_slot r task)) handle
              (ts_capabilities (task_slot r task))) as [res t'] eqn:Hc.
  rewrite (bindM_step _ _ _ _ _ (on_capabilities_valid _ _ _ _ _ Ht Hc)) in H.
  assert (Hr' : exists st v, r' = upd task (slot_result st v) (upd task (ts_set_capabilities t') r)).
  { cbv zeta in H. unfold resume_validated in H.
    rewrite (bindM_step _ _ _ _ _ (set_result_valid task _ _ _ Ht)) in H.
    unfold bindM, readM in H. destruct (validate _); try done. injection H as _ <-. eauto. }
  destruct Hr' as (st & v & ->). apply tables_tame_upd; [done| |done].
  eapply table_close_tame; [|exact Hc]. apply (si_table _ _ (rt_inv_slot r task Ht Hi)).
Qed.

Lemma start_tables r task handle id reserved o r' :
  rt_inv r -> valid_task task -> ts_state (task_slot r task) = Running ->
  start_workload task handle id reserved r = (Ok o, r') -> tables_tame r r'.
Proof.
  intros Hi Ht Hrun H. destruct (start_status r task handle id reserved) as [status|] eqn:Hs.
  - unfold start_workload, start_workload_with_failure in H. rewrite getM_step in H. cbv zeta in H.
    rewrite Hs, (bindM_step _ _ _ tt r) in H by done.
    apply tables_tame_eq. by eapply (keeps_tables_resume (tables r)).
  - pose proof (start_status_None _ _ _ _ _ Hs) as [Hp Hst].
    assert (task = 1) as ->.
    { destruct Ht as [-> | ->]; [done|].
      change (task_slot r 2) with (rt_task1 r) in Hrun. congruence. }
    destruct (ri_sched _ Hi) as (l & Hq & _).
    rewrite (start_workload_ok _ _ _ _ l Hi Hq Hs) in H. injection H as _ <-.
    split; [apply table_tame_refl|]. apply launched_tame. unfold caps1.
    by rewrite (su_staged _ (rt_inv_profile_sup r Hi Hp) Hst).
Qed.

Lemma trap_tables r task o r' :
  rt_inv r -> running_task r = Ok task -> handle_trap task r = (Ok o, r') -> tables_tame r r'.
Proof.
  intros Hi Hrun H. pose proof (proj1 (running_task_spec r task Hi) Hrun) as [Ht Hst].
  unfold handle_trap in H. rewrite transactional_ok in H. unfold handle_trap_inner in H.
  rewrite (readM_step _ _ _ task Hrun), Z.eqb_refl in H. cbn [negb] in H.
  rewrite (readM_step (fun r => rt_context r task) _ _ (context_of r task)) in H
    by (unfold rt_context; by rewrite slot_valid).
  cbv zeta in H.
  assert (Hk : forall (m : M Runtime RuntimeError TrapOutcome),
    m r = (Ok o, r') -> keeps tables (tables r) m -> tables_tame r r').
  { intros m Hm K. apply tables_tame_eq. by eapply K. }
  destruct (TrapOperation_parse _) as [[]|].
  - eapply Hk; [exact H|]. unfold yield_op. keeps_solve.
  - eapply Hk; [exact H|]. unfold send, endpoint_mut. keeps_solve.
  - eapply Hk; [exact H|]. unfold receive, endpoint_mut. keeps_solve.
  - eapply Hk; [exact H|]. unfold exit. keeps_solve.
  - by eapply duplicate_tables.
  - by eapply close_tables.
  - by eapply start_tables.
  - eapply Hk; [exact H|]. unfold submit_approval, broker_mut. keeps_solve.
  - eapply Hk; [exact H|]. unfold inspect_approval. keeps_solve. by apply keeps_tables_slot_mut.
  - eapply Hk; [exact H|]. unfold decide_approval, fail_broker_epoch_exhaustion, broker_mut. cbv zeta.
    keeps_solve.
  - eapply Hk; [exact H|]. unfold commit_effect, broker_mut. keeps_solve.
  - eapply Hk; [exact H|]. auto with keeps.
  - eapply Hk; [exact H|]. auto with keeps.
  - eapply Hk; [exact H|]. auto with keeps.
Qed.

(** The profile is fixed for the life of a runtime. *)
Lemma trap_profile r task o r' :
  handle_trap task r = (Ok o, r') -> rt_profile r' = rt_profile r.
Proof.
  intros H. unfold handle_trap in H. rewrite transactional_ok in H.
  assert (K : keeps rt_profile (rt_profile r) (handle_trap_inner task)); [|by eapply K].
  unfold handle_trap_inner, send, receive, submit_approval, decide_approval, commit_effect,
    fail_broker_epoch_exhaustion, endpoint_mut, broker_mut. cbv zeta.
  keeps_solve; auto using keeps_yield, keeps_exit, keeps_duplicate, keeps_close, keeps_inspect,
    keeps_start, keeps_resume_validated, keeps_resume_with with typeclass_instances.
Qed.

Lemma tables_tame_entries r r' : tables_tame r r' -> entries_inv r -> entries_inv r'.
Proof.
  intros [[_ Hc0 Hx0] [_ Hc1 _]] [H1 H2 H3]. split; [lia|by apply Hx0|].
  pose proof (countb_nonneg is_journal_entry (ct_slots (caps1 r'))). unfold journal_entries in *. lia.
Qed.

Lemma tables_tame_service r r' :
  ct_state (caps0 r) <> TableBuilding -> tables_tame r r' -> both_in_service r <-> both_in_service r'.
Proof.
  intros Hn [[Hs0 _ _] [Hs1 _ _]]. unfold both_in_service.
  destruct Hs0 as [E0|[E0 E0']], Hs1 as [E1|[E1 E1']];
    rewrite ?E0, ?E0', ?E1, ?E1'; split; intros [? ?]; try done; split; auto.
Qed.
