(* ===== verification/JournaledTraps.v ===== *)
(** * Traps of the journaled runtime

    Every trap of the running task succeeds, keeps the invariant [jr_inv]
    (consistency of runtime and journal, and the journal mirroring the approval
    protocol) and appends at most one record. *)

From S2P Require Import Prelude RuntimeTypes Capability CapabilityProofs Journal JournalProofs.
From S2P Require Import Runtime RuntimeOps Journaled RuntimeFrame RuntimeInv RuntimeProgress.
From S2P Require Import SupervisedProgress RuntimeTeardown RuntimeConstruct RuntimeTheorems Ipc.
From S2P Require Import Approval JournaledInv.

Definition jr_inv (s : JournaledRuntime) : Prop := j_inv s /\ audited s.

(** The log grows by at most one record. *)
Definition log_grows (s s' : JournaledRuntime) : Prop :=
  committed (jr_journal s') = committed (jr_journal s) \/
  exists r, committed (jr_journal s') = committed (jr_journal s) ++ [r].

Definition jr_progresses (task : Z) (m : M JournaledRuntime RuntimeError TrapOutcome)
    (s : JournaledRuntime) : Prop :=
  exists o s', m s = (Ok o, s') /\ jr_inv s' /\ outcome_ok task o (jr_runtime s') /\ log_grows s s'.

(** ** The quiet case *)

Lemma supervisor_not_building r :
  rt_inv r -> rt_profile r = Supervised -> ct_state (caps0 r) <> TableBuilding.
Proof.
  intros Hi Hp HB. pose proof (su_broker _ (rt_inv_profile_sup r Hi Hp)) as Hb.
  unfold caps0 in HB. by rewrite HB in Hb.
Qed.

(** The runtime changes, the journal, the broker and the effect do not. *)
Lemma jr_inv_quiet s r' :
  jr_inv s -> ej_state (jr_journal s) <> JournalDead -> rt_inv r' ->
  rt_profile r' = Supervised -> tables_tame (jr_runtime s) r' ->
  rt_broker r' = rt_broker (jr_runtime s) -> rt_effect r' = rt_effect (jr_runtime s) ->
  jr_inv (jr_set_runtime r' s).
Proof.
  intros [[Hi Hp Hj He Hph] (st & Hst & Hau)] Hnd Hi' Hp' Ht Hb Hf.
  pose proof (tables_tame_service _ _ (supervisor_not_building _ Hi Hp) Ht) as Hs.
  split.
  - split; simpl; try done; [by eapply tables_tame_entries|].
    unfold jr_broker in *. simpl. rewrite Hb.
    destruct (ej_state (jr_journal s)); try done; [|by rewrite <-Hs].
    by rewrite <-Hs.
  - exists st. split; [done|]. simpl. destruct (ej_state (jr_journal s)); try done.
    destruct Hau as [H1 H2 H3 H4]. split; rewrite ?Hb, ?Hf; done.
Qed.

Lemma running_not_dead s task :
  j_inv s -> running_task (jr_runtime s) = Ok task -> ej_state (jr_journal s) <> JournalDead.
Proof.
  intros [Hi _ _ _ Hph] Hrun Hd. rewrite Hd in Hph. destruct Hph as [H0 H1].
  apply (running_task_spec _ _ Hi) in Hrun as [[-> | ->] Hr]; unfold task_slot in Hr; simpl in Hr; congruence.
Qed.

Lemma log_same s r' : log_grows s (jr_set_runtime r' s).
Proof. by left. Qed.

(** ** Refusals *)

Lemma resolve_typed_err t task g raw ty right st :
  table_resolve_typed t task g raw ty right = Err st ->
  st = InvalidHandle \/ st = WrongObject \/ st = RightsDenied.
Proof. unfold table_resolve_typed. intros H. walk H; b2p; naive_solver. Qed.

Lemma resolve_object_err r task handle ty right id g st :
  resolve_object r task handle ty right id g = Err st ->
  st = InvalidHandle \/ st = WrongObject \/ st = RightsDenied.
Proof.
  unfold resolve_object. intros H. destruct (slot r task); simpl in H; [|naive_solver].
  destruct (table_resolve_typed _ _ _ _ _ _) eqn:E.
  - head_if_in H E'; naive_solver.
  - injection H as <-. by eapply resolve_typed_err.
Qed.

Lemma decide_refusal r task handle sequence decision :
  decide_status r task handle sequence decision <> Some StOk.
Proof.
  unfold decide_status. cbv zeta. destruct (negb _); [done|].
  destruct (resolve_object _ _ _ _ _ _ _) eqn:E; [|apply resolve_object_err in E; naive_solver].
  destruct (broker_is BrokerClosing r || _); [done|].
  destruct (negb (ab_request_present _) || _); [done|]. by destruct (_ || _).
Qed.

Lemma commit_refusal r task handle sequence argument status :
  commit_status r task handle sequence argument = Some status ->
  status <> StOk /\ (status = EffectUnavailable -> se_occupied (rt_effect r) = true).
Proof.
  unfold commit_status. destruct (negb _); [naive_solver|].
  destruct (resolve_object _ _ _ _ _ _ _) eqn:E; [|apply resolve_object_err in E; naive_solver].
  destruct (approval_mismatch _ _ _); [naive_solver|].
  destruct (se_occupied _); [naive_solver|]. destruct (_ <=? _); naive_solver.
Qed.

Lemma status_code_ok status : status_code status = status_code StOk -> status = StOk.
Proof. by destruct status. Qed.
Lemma status_code_unavailable status :
  status_code status = status_code EffectUnavailable -> status = EffectUnavailable.
Proof. by destruct status. Qed.

Section Trap.
Variables (s : JournaledRuntime) (task : Z).
Hypothesis Hinv : jr_inv s.
Hypothesis Hrun : running_task (jr_runtime s) = Ok task.

Let r := jr_runtime s.
Let Hi : rt_inv r := ji_runtime _ (proj1 Hinv).
Let Hp : rt_profile r = Supervised := ji_profile _ (proj1 Hinv).

Lemma trap_task : valid_task task /\ ts_state (task_slot r task) = Running.
Proof. by apply running_task_spec. Qed.

(** Only the registers of the running task change. *)
Lemma jr_inv_registers f :
  (forall t, slot_sim t (f t)) -> jr_inv (jr_set_runtime (upd task f r) s).
Proof.
  intros Hf. destruct trap_task as [Ht _]. apply jr_inv_quiet; try done.
  - by eapply running_not_dead; [apply Hinv|].
  - eapply rt_inv_sim; [by apply rt_sim_upd|done].
  - unfold upd. destruct (task =? SENDER_TASK_ID); exact Hp.
  - apply tables_tame_eq. rewrite upd_tables by done. unfold tables, caps0, caps1.
    destruct (task =? 1); by rewrite (ss_capabilities _ _ (Hf _)).
  - unfold upd. by destruct (task =? SENDER_TASK_ID).
  - unfold upd. by destruct (task =? SENDER_TASK_ID).
Qed.

Lemma registers_running f :
  (forall t, slot_sim t (f t)) -> outcome_ok task (OutResume task) (upd task f r).
Proof.
  intros Hf. destruct trap_task as [Ht Hst]. split; [done|]. split; [done|].
  by rewrite task_slot_upd, (ss_state _ _ (Hf _)).
Qed.

Lemma registers_progress f m :
  (forall t, slot_sim t (f t)) -> m s = (Ok (OutResume task), jr_set_runtime (upd task f r) s) ->
  jr_progresses task m s.
Proof.
  intros Hf Hm. eexists _, _. split; [exact Hm|]. split; [by apply jr_inv_registers|].
  split; [by apply registers_running|apply log_same].
Qed.

(** ** Journal reads *)

Lemma set_journal_output_eq status v0 v1 v2 :
  let f := fun t => ts_set_context (context_set_regs (ts_context t) (status_code status) v0 v1 v2) t in
  set_journal_output task status v0 v1 v2 s = (Ok tt, jr_set_runtime (upd task f r) s) /\
  (forall t, slot_sim t (f t)).
Proof.
  split; [|done]. unfold set_journal_output, on_runtime.
  by rewrite slot_mut_valid by apply trap_task.
Qed.

(** Every read is answered in the registers and changes nothing else. *)
Lemma journal_read_progress operation input :
  operation = OpInspectEffectJournal \/ operation = OpReadEffectRecord ->
  jr_progresses task (handle_journal_read task operation input) s.
Proof.
  intros Hop.
  assert (Hend : forall status v0 v1 v2,
    (do! set_journal_output task status v0 v1 v2 in do! readM jr_validate in retM (OutResume task)) s =
      (Ok (OutResume task), jr_set_runtime (upd task (fun t =>
         ts_set_context (context_set_regs (ts_context t) (status_code status) v0 v1 v2) t) r) s) /\
    jr_inv (jr_set_runtime (upd task (fun t =>
         ts_set_context (context_set_regs (ts_context t) (status_code status) v0 v1 v2) t) r) s)).
  { intros status v0 v1 v2. destruct (set_journal_output_eq status v0 v1 v2) as [Heq Hf].
    pose proof (jr_inv_registers _ Hf) as Hk. split; [|done].
    rewrite (bindM_step _ _ _ _ _ Heq).
    by rewrite (readM_step _ _ _ tt) by (by apply j_inv_validate, Hk). }
  unfold jr_progresses, handle_journal_read. rewrite getM_step.
  destruct (journal_read_status s task operation input) as [status|].
  - destruct (set_journal_output_eq status 0 0 0) as [Heq Hf].
    eapply registers_progress; [exact Hf|]. by rewrite (bindM_step _ _ _ _ _ Heq).
  - destruct Hop as [-> | ->]; cbv zeta.
    + eapply registers_progress; [|apply Hend]. done.
    + destruct (journal_read_triplet _ _ _) as [w|e]; (eapply registers_progress; [|apply Hend]); done.
Qed.

(** ** Reaching the follow-up *)

Lemma jr_trap_read :
  requested r task = Some OpInspectEffectJournal \/ requested r task = Some OpReadEffectRecord ->
  jr_progresses task (jr_handle_trap task) s.
Proof.
  intros Hop. destruct trap_task as [Ht _].
  assert (Heq : exists op, (op = OpInspectEffectJournal \/ op = OpReadEffectRecord) /\
    jr_handle_trap task s = handle_journal_read task op (context_of r task) s).
  { unfold jr_handle_trap. rewrite (readM_step (fun s => running_task (jr_runtime s)) _ _ task Hrun), Z.eqb_refl. cbn [negb].
    rewrite (readM_step (fun s => rt_context (jr_runtime s) task) _ _ (context_of r task))
      by (unfold rt_context; by rewrite slot_valid).
    change (TrapOperation_parse (tc_rax (context_of r task))) with (requested r task).
    destruct Hop as [-> | ->]; eauto. }
  destruct Heq as (op & Hc & Heq). destruct (journal_read_progress op (context_of r task) Hc)
    as (o & s' & Hm & H). exists o, s'. by rewrite Heq.
Qed.

(** The state after the runtime handled the trap, and what remains to do. *)
Definition follow (o : TrapOutcome) : M JournaledRuntime RuntimeError TrapOutcome :=
  let! early := follow_trap s task (context_of r task) in
  match early with
  | Some o' => retM o'
  | None => do! validate_or_restore s in retM o
  end.

Lemma jr_trap_follow o r' :
  requested r task <> Some OpInspectEffectJournal -> requested r task <> Some OpReadEffectRecord ->
  handle_trap task r = (Ok o, r') ->
  jr_handle_trap task s = follow o (jr_set_runtime r' s).
Proof.
  intros Hn1 Hn2 Htr. destruct trap_task as [Ht _].
  unfold jr_handle_trap. rewrite (readM_step (fun s => running_task (jr_runtime s)) _ _ task Hrun), Z.eqb_refl. cbn [negb].
  rewrite (readM_step (fun s => rt_context (jr_runtime s) task) _ _ (context_of r task))
    by (unfold rt_context; by rewrite slot_valid).
  unfold requested in *.
  assert (Hgen : (let! before := getM in
      match handle_trap task (jr_runtime before) with
      | (Err error, _) => do! putM before in throwM error
      | (Ok outcome, r') =>
          do! modifyM (jr_set_runtime r') in
          let! early := follow_trap before task (context_of r task) in
          match early with
          | Some o => retM o
          | None => do! validate_or_restore before in retM outcome
          end
      end) s = follow o (jr_set_runtime r' s)).
  { rewrite getM_step. fold r. by rewrite Htr. }
  destruct (TrapOperation_parse (tc_rax (context_of r task))) as [[]|]; done.
Qed.

Lemma validated (o : TrapOutcome) s' :
  jr_inv s' -> (do! validate_or_restore s in retM o) s' = (Ok o, s').
Proof.
  intros [Hj _]. unfold validate_or_restore, bindM, getM. by rewrite j_inv_validate.
Qed.

(** No record is due. *)
Lemma follow_quiet o r' :
  follow_trap s task (context_of r task) (jr_set_runtime r' s) = (Ok None, jr_set_runtime r' s) ->
  rt_inv r' -> outcome_ok task o r' -> rt_profile r' = Supervised -> tables_tame r r' ->
  rt_broker r' = rt_broker r -> rt_effect r' = rt_effect r ->
  exists s', follow o (jr_set_runtime r' s) = (Ok o, s') /\ jr_inv s' /\
             outcome_ok task o (jr_runtime s') /\ log_grows s s'.
Proof.
  intros Hf Hi' Ho Hp' Ht Hb He. unfold follow. rewrite (bindM_step _ _ _ _ _ Hf).
  assert (Hj : jr_inv (jr_set_runtime r' s)).
  { apply jr_inv_quiet; try done. by eapply running_not_dead; [apply Hinv|]. }
  exists (jr_set_runtime r' s). rewrite validated by done. split; [done|]. split; [done|]. split; [done|].
  apply log_same.
Qed.

(** ** One record *)

(** A record is due: the journal is live and has room for it, and the record
    describes the step from [r] to [r']. *)
Lemma jr_inv_logged r' rec k :
  ej_state (jr_journal s) = JournalLive -> rt_inv r' -> rt_profile r' = Supervised ->
  tables_tame r r' -> record_fresh rec ->
  0 <= k <= 2 -> ej_committed_record_count (jr_journal s) + 1 + k <= 16 ->
  k = expected_reservations (rt_broker r') -> epoch_room (rt_broker r') ->
  (forall st, mirrors st r -> exists st', replay_record st rec = Some st' /\ mirrors st' r') ->
  let s' := mkJournaledRuntime r' (ej_set_reserved k (appended rec (jr_journal s))) in
  jr_inv s' /\ log_grows s s'.
Proof.
  intros HL Hi' Hp' Ht Hf Hk Hcap Hres Her Hrep s'.
  pose proof Hinv as [[_ _ [Hsh Hwf] He Hph] (st & Hst & Hau)].
  rewrite HL in Hph, Hau. destruct Hph as (Hsv & _ & _).
  destruct Hwf as [Hd|Hwf]; [by rewrite Hd in HL|].
  assert (Hcom : committed (jr_journal s') =
    committed (jr_journal s) ++ [number (committed (jr_journal s)) rec]).
  { apply (appended_committed rec (jr_journal s)); [done|lia]. }
  split; [split|].
  - split; simpl; try done.
    + split; [apply set_reserved_shape; [lia|]; apply appended_shape; [done|lia]|].
      right. by apply appended_open_wf.
    + by eapply tables_tame_entries.
    + rewrite HL. split; [|done].
      by apply (tables_tame_service _ _ (supervisor_not_building _ Hi Hp) Ht).
  - destruct (Hrep st Hau) as (st' & Hst' & Hm'). exists st'. split.
    + unfold replay in *. rewrite Hcom, replay_from_snoc, Hst. by rewrite replay_number.
    + simpl. by rewrite HL.
  - right. eexists. exact Hcom.
Qed.

Lemma journal_live : both_in_service r -> ej_state (jr_journal s) = JournalLive.
Proof.
  intros Hsv. pose proof (ji_phase _ (proj1 Hinv)) as Hph.
  pose proof (running_not_dead s task (proj1 Hinv) Hrun) as Hnd.
  by destruct (ej_state (jr_journal s)).
Qed.

Lemma journal_open :
  ej_state (jr_journal s) = JournalLive ->
  journal_shape (jr_journal s) /\ journal_open_wf (jr_journal s) /\
  ej_reserved_record_count (jr_journal s) = expected_reservations (rt_broker r) /\
  epoch_room (rt_broker r).
Proof.
  intros HL. pose proof Hinv as [[_ _ [Hsh Hwf] _ Hph] _]. rewrite HL in Hph.
  destruct Hwf as [Hd|Hwf]; [by rewrite Hd in HL|]. by destruct Hph as (_ & ? & ?).
Qed.

(** The runtime's own context after the trap. *)
Lemma context_result status value r1 :
  rt_context (upd task (slot_result status value) r1) task =
    Ok (context_set_result status value (context_of r1 task)).
Proof.
  unfold rt_context. rewrite slot_valid by apply trap_task. by rewrite task_slot_upd.
Qed.

Lemma append_due rec release r' :
  ej_state (jr_journal s) = JournalLive -> record_fresh rec ->
  ej_reserved_record_count (jr_journal s) <> 0 ->
  append_or_restore s rec release (jr_set_runtime r' s) =
    (Ok tt, mkJournaledRuntime r'
       (ej_set_reserved (if release then 0 else ej_reserved_record_count (jr_journal s) - 1)
          (appended rec (jr_journal s)))).
Proof.
  intros HL Hf Hn. destruct (journal_open HL) as (Hsh & Hwf & _).
  unfold append_or_restore, on_journal, bindM. simpl.
  rewrite append_reserved_eq by done. by rewrite decide_True.
Qed.

(** ** Submission *)

(** A submission the journal cannot take is undone: only the registers tell. *)
Lemma undo_eq {A} status (k : M JournaledRuntime RuntimeError A) s1 :
  (do! putM s in do! on_runtime (set_result task status 0) in do! readM jr_validate in k) s1 =
  k (jr_set_runtime (upd task (slot_result status 0) r) s).
Proof.
  rewrite (bindM_step _ _ _ tt s) by done.
  rewrite (bindM_step _ _ _ tt (jr_set_runtime (upd task (slot_result status 0) r) s)).
  - rewrite (readM_step _ _ _ tt); [done|].
    apply j_inv_validate, jr_inv_registers. intros t. apply slot_sim_result.
  - unfold on_runtime. fold r. by rewrite set_result_valid by apply trap_task.
Qed.

(** What the runtime did with the trap. *)
Lemma trap_arm o r' :
  handle_trap task r = (Ok o, r') ->
  let c := context_of r task in
  match requested r task with
  | Some OpSubmitApproval => submit_approval task (tc_rdi c) (tc_rsi c) (tc_rdx c) r = (Ok o, r')
  | Some OpDecideApproval => decide_approval task (tc_rdi c) (tc_rsi c) (tc_rdx c) r = (Ok o, r')
  | Some OpCommitEffect => commit_effect task (tc_rdi c) (tc_rsi c) (tc_rdx c) r = (Ok o, r')
  | _ => rt_broker r' = rt_broker r /\ rt_effect r' = rt_effect r
  end.
Proof.
  intros Htr c. destruct trap_task as [Ht _].
  unfold handle_trap in Htr. rewrite transactional_ok in Htr.
  assert (Hctx : rt_context r task = Ok c) by (unfold rt_context; by rewrite slot_valid).
  pose proof (fun H1 H2 H3 => other_keeps_approval task r o r' H1 H2 H3 Hrun Hctx Htr) as Hother.
  unfold handle_trap_inner in Htr.
  rewrite (readM_step _ _ _ task Hrun), Z.eqb_refl in Htr. cbn [negb] in Htr.
  rewrite (readM_step (fun r => rt_context r task) _ _ c Hctx) in Htr. cbv zeta in Htr.
  change (TrapOperation_parse (tc_rax c)) with (requested r task) in Htr.
  destruct (requested r task) as [[]|]; try (by apply Hother); exact Htr.
Qed.

(** The shape of a follow-up that ends the trap. *)
Lemma follow_ends o o' s1 s' :
  follow_trap s task (context_of r task) s1 = (Ok (Some o'), s') -> follow o s1 = (Ok o', s').
Proof. intros H. unfold follow. by rewrite (bindM_step _ _ _ _ _ H). Qed.

(** The shape of a follow-up that wrote a record. *)
Lemma follow_logs o s1 s' :
  follow_trap s task (context_of r task) s1 = (Ok None, s') -> jr_inv s' -> follow o s1 = (Ok o, s').
Proof. intros H Hj. unfold follow. by rewrite (bindM_step _ _ _ _ _ H), validated. Qed.

(** The record of an accepted submission. *)
Definition requested_record (b : ApprovalBroker) : EffectRecordV1 :=
  record_event EvRequested StOk (ab_decision_epoch b) RECEIVER_TASK_ID WORKLOAD_GENERATION
    (ab_request b) OBJECT_TYPE_APPROVAL_BROKER CAPABILITY_RIGHT_SUBMIT_APPROVAL.

Lemma submit_live handle kind :
  submit_status r task handle kind = None -> ej_state (jr_journal s) = JournalLive.
Proof.
  intros Hs. destruct trap_task as [_ Hst].
  pose proof (submit_status_None _ _ _ _ Hi Hs) as (_ & _ & _ & _ & _ & Ht & HL0).
  rewrite Ht in Hst. apply journal_live. split; [done|]. right.
  pose proof (si_table_state _ _ (ri_slot1 _ Hi)) as Hts.
  change (task_slot r 2) with (rt_task1 r) in Hst. by rewrite Hst in Hts.
Qed.

Lemma follow_submit_eq handle kind argument :
  submit_status r task handle kind = None ->
  let r' := submitted_state kind argument r in
  let undone status := jr_set_runtime (upd task (slot_result status 0) r) s in
  follow_submit s task (jr_set_runtime r' s) =
    if U64_MAX - 3 <? ab_decision_epoch (rt_broker r) then
      (Ok (Some (OutResume task)), undone BrokerUnavailable)
    else if 13 <? ej_committed_record_count (jr_journal s) + ej_reserved_record_count (jr_journal s) then
      (Ok (Some (OutResume task)), undone JournalFull)
    else (Ok None, mkJournaledRuntime r'
            (ej_set_reserved 2 (appended (requested_record (rt_broker r')) (jr_journal s)))).
Proof.
  intros Hs r' undone. pose proof (submit_live _ _ Hs) as HL.
  pose proof (submit_status_None _ _ _ _ Hi Hs) as (_ & Hb & _).
  destruct (journal_open HL) as (Hsh & Hwf & _).
  unfold follow_submit. rewrite getM_step. unfold jr_broker. fold r.
  rewrite (bool_decide_eq_true_2 (ab_state (rt_broker r) = BrokerEmpty)) by done.
  change (ab_state (rt_broker (jr_runtime (jr_set_runtime r' s)))) with BrokerPending.
  change (ab_request_present (rt_broker (jr_runtime (jr_set_runtime r' s)))) with true.
  change (true && bool_decide (BrokerPending = BrokerPending) && true) with true. cbv iota.
  destruct (U64_MAX - 3 <? ab_decision_epoch (rt_broker r)); [by rewrite undo_eq|].
  cbv zeta. change (jr_runtime (jr_set_runtime r' s)) with r'. fold (requested_record (rt_broker r')).
  unfold bindM at 1, on_journal. change (jr_journal (jr_set_runtime r' s)) with (jr_journal s).
  rewrite begin_lifecycle_eq by done. rewrite decide_True by done.
  destruct (13 <? _); [|done]. unfold bindM at 1, rollback_submit. by rewrite undo_eq.
Qed.

Lemma submit_mirrors handle kind argument st :
  submit_status r task handle kind = None -> mirrors st r ->
  exists st', replay_record st (requested_record (rt_broker (submitted_state kind argument r))) = Some st' /\
              mirrors st' (submitted_state kind argument r).
Proof.
  intros Hs Hm. pose proof (submit_status_None _ _ _ _ Hi Hs) as (_ & Hb & _ & Hex & _).
  apply (replay_requested st r); try done. simpl. rewrite Hex.
  by destruct (ab_next_sequence (rt_broker r) =? U64_MAX).
Qed.

Lemma submit_logged handle kind argument :
  let r' := submitted_state kind argument r in
  submit_status r task handle kind = None -> rt_inv r' -> rt_profile r' = Supervised -> tables_tame r r' ->
  (U64_MAX - 3 <? ab_decision_epoch (rt_broker r)) = false ->
  (13 <? ej_committed_record_count (jr_journal s) + ej_reserved_record_count (jr_journal s)) = false ->
  let s' := mkJournaledRuntime r'
    (ej_set_reserved 2 (appended (requested_record (rt_broker r')) (jr_journal s))) in
  jr_inv s' /\ log_grows s s'.
Proof.
  intros r' Hs Hi' Hp' Htame E1 E2 s'. b2p.
  pose proof (submit_live _ _ Hs) as HL. destruct (journal_open HL) as (Hsh & Hwf & Hres & Her).
  apply (jr_inv_logged r' (requested_record (rt_broker r')) 2); try done.
  - pose proof (js_reserved _ Hsh). lia.
  - change (ab_decision_epoch (rt_broker r) + 1 <= U64_MAX - 2). lia.
  - intros st. by apply (submit_mirrors handle).
Qed.

Lemma submit_followed handle kind argument :
  let r' := submitted_state kind argument r in
  requested r task = Some OpSubmitApproval ->
  submit_status r task handle kind = None -> rt_inv r' -> rt_profile r' = Supervised ->
  outcome_ok task (OutSwitch 1) r' -> tables_tame r r' ->
  exists o s', follow (OutSwitch 1) (jr_set_runtime r' s) = (Ok o, s') /\ jr_inv s' /\
               outcome_ok task o (jr_runtime s') /\ log_grows s s'.
Proof.
  intros r' Hop Hs Hi' Hp' Ho Htame.
  pose proof (follow_submit_eq handle kind argument Hs) as Hf. cbv zeta in Hf. fold r' in Hf.
  assert (Hf' : follow_trap s task (context_of r task) (jr_set_runtime r' s) =
                follow_submit s task (jr_set_runtime r' s)).
  { unfold follow_trap. fold (requested r task). by rewrite Hop. }
  rewrite <-Hf' in Hf.
  assert (Hundo : forall status,
    jr_inv (jr_set_runtime (upd task (slot_result status 0) r) s) /\
    outcome_ok task (OutResume task) (upd task (slot_result status 0) r) /\
    log_grows s (jr_set_runtime (upd task (slot_result status 0) r) s)).
  { intros status. split; [apply jr_inv_registers; intros t; apply slot_sim_result|].
    split; [apply registers_running; intros t; apply slot_sim_result|apply log_same]. }
  destruct (U64_MAX - 3 <? _) eqn:E1; [eexists _, _; split; [by apply follow_ends|apply Hundo]|].
  destruct (13 <? _) eqn:E2; [eexists _, _; split; [by apply follow_ends|apply Hundo]|].
  destruct (submit_logged handle kind argument) as [Hj Hg]; try done.
  eexists _, _. split; [by apply follow_logs|]. done.
Qed.

Lemma trap_submit_progress :
  requested r task = Some OpSubmitApproval -> jr_progresses task (jr_handle_trap task) s.
Proof.
  intros Hop. destruct trap_task as [Ht Hst].
  destruct (handle_trap_ok r task Hi Hrun) as (o & r' & Htr & Hi' & Ho).
  pose proof (trap_arm o r' Htr) as Harm. cbv zeta in Harm. rewrite Hop in Harm.
  pose proof (trap_profile _ _ _ _ Htr) as Hp'. rewrite Hp in Hp'.
  pose proof (trap_tables r task o r' Hi Hrun Htr) as Htame.
  set (c := context_of r task) in *.
  unfold jr_progresses. rewrite (jr_trap_follow o r') by congruence.
  destruct (submit_status r task (tc_rdi c) (tc_rsi c)) as [status|] eqn:Hs.
  - rewrite (submit_refused _ _ _ _ _ _ Hi Ht Hs) in Harm. injection Harm as <- <-.
    assert (Hbr : forall f, rt_broker (upd task f r) = rt_broker r /\ rt_effect (upd task f r) = rt_effect r).
    { intros f. unfold upd. by destruct (task =? SENDER_TASK_ID). }
    destruct (Hbr (slot_result status 0)) as [Hb He].
    eexists. apply (follow_quiet (OutResume task)); try done.
    unfold follow_trap. fold (requested r task). rewrite Hop. unfold follow_submit. rewrite getM_step.
    unfold jr_broker. simpl. rewrite Hb. fold r.
    rewrite (if_false _ _ _); [done|]. apply not_true_iff_false. intros H. b2p. naive_solver congruence.
  - destruct (submit_eq _ _ _ _ (tc_rdx c) Hi Ht Hst Hs) as (Ht2 & _ & _ & Heq).
    rewrite Heq in Harm. injection Harm as <- <-. by eapply submit_followed.
Qed.

(** A request is open: the supervisor is running, the workload waits, and the
    journal is live with the records of the lifecycle still reserved. *)
Lemma lifecycle_open :
  ab_request_present (rt_broker r) = true ->
  ej_state (jr_journal s) = JournalLive /\ task = 1 /\
  ts_state (rt_task1 r) = BlockedApproval /\ broker_inv true (rt_broker r) /\
  ct_state (ts_capabilities (rt_task0 r)) = TableLive /\ effect_ok (rt_effect r) /\
  (ab_state (rt_broker r) = BrokerPending \/ ab_state (rt_broker r) = BrokerApproved) /\
  ej_reserved_record_count (jr_journal s) <> 0.
Proof.
  intros Hpr. destruct trap_task as [Ht Hst].
  destruct (request_present_waiting r task Hi Hp Ht Hst Hpr) as (Ht1 & HL & Hw & Hb & He & Hcase).
  assert (HJ : ej_state (jr_journal s) = JournalLive).
  { apply journal_live. split; [done|]. right.
    pose proof (si_table_state _ _ (ri_slot1 _ Hi)) as Hts. by rewrite Hw in Hts. }
  destruct (journal_open HJ) as (_ & _ & Hres & _). split_and!; try done.
  rewrite Hres. unfold expected_reservations. destruct Hcase as [-> | ->]; done.
Qed.

(** The reservation always leaves an epoch for the decision. *)
Lemma epoch_available handle sequence decision :
  decide_status r task handle sequence decision = None -> epoch_exhausted r decision = false.
Proof.
  intros (_ & Hpr & _ & Hcase)%decide_status_None.
  destruct (lifecycle_open Hpr) as (HJ & _ & _ & Hb & _).
  destruct (journal_open HJ) as (_ & _ & _ & Her). pose proof (br_epoch _ _ Hb) as Hep.
  unfold epoch_exhausted, epoch_room in *.
  rewrite (proj2 (checked_add_Some _ 1 (ab_decision_epoch (rt_broker r) + 1))).
  - destruct (Z.eqb_spec decision DECISION_APPROVE) as [->|]; [|done]. simpl. b2p.
    destruct Hcase as [[_ E]|[[? _]|[? _]]]; [rewrite E in Her; lia|done|done].
  - unfold U64_MAX in *. split; [done|].
    destruct Hcase as [[_ E]|[[_ E]|[_ [E|E]]]]; rewrite E in Her; lia.
Qed.

(** The event of an accepted decision. *)
Definition decided_event (decision : Z) : EffectEventKind * TrapStatus * bool :=
  if decision =? DECISION_APPROVE then (EvApproved, StOk, false)
  else if decision =? DECISION_DENY then (EvDenied, ApprovalDenied, true)
  else (EvExpired, ApprovalExpired, bool_decide (ab_state (rt_broker r) = BrokerPending)).

Definition decided_record (decision : Z) : EffectRecordV1 :=
  let '(kind, status, _) := decided_event decision in
  record_event kind status (ab_decision_epoch (rt_broker r) + 1) SENDER_TASK_ID
    SUPERVISOR_GENERATION (ab_request (rt_broker r)) OBJECT_TYPE_APPROVAL_BROKER
    CAPABILITY_RIGHT_DECIDE_APPROVAL.

Lemma decided_shape decision l :
  epoch_exhausted r decision = false ->
  rt_broker (decided_state decision l r) =
    (let b := ab_set_decision_epoch (ab_decision_epoch (rt_broker r) + 1) (rt_broker r) in
     if decision =? DECISION_APPROVE then broker_approve (ab_decision_epoch (rt_broker r) + 1) b
     else broker_release b) /\
  rt_effect (decided_state decision l r) = rt_effect r.
Proof.
  intros Hex. unfold decided_state, decided_wake, decided_broker. cbv zeta. rewrite Hex.
  destruct (decision =? DECISION_APPROVE); [done|]. by destruct (decision =? DECISION_DENY).
Qed.

Lemma follow_decide_eq handle sequence decision l :
  decide_status r task handle sequence decision = None ->
  let r' := upd task (slot_result StOk 0) (decided_state decision l r) in
  follow_decide s task decision (jr_set_runtime r' s) =
    (Ok None, mkJournaledRuntime r'
       (ej_set_reserved (expected_reservations (rt_broker r')) (appended (decided_record decision) (jr_journal s)))).
Proof.
  intros Hs r'. pose proof (epoch_available _ _ _ Hs) as Hex.
  pose proof (decide_status_None _ _ _ _ _ Hs) as (_ & Hpr & _ & Hcase).
  destruct (lifecycle_open Hpr) as (HJ & Ht1 & _ & Hb & _ & _ & _ & Hn).
  destruct (journal_open HJ) as (_ & _ & Hres & _).
  destruct (decided_shape decision l Hex) as [Hbr _].
  assert (Hbr' : rt_broker r' = rt_broker (decided_state decision l r)).
  { unfold r', upd. by destruct (task =? SENDER_TASK_ID). }
  rewrite <-Hbr' in Hbr. clear Hbr'.
  unfold follow_decide. unfold jr_broker at 1. fold r. rewrite Hpr.
  rewrite (readM_step (fun s => rt_context (jr_runtime s) task) _ _
    (context_set_result StOk 0 (context_of (decided_state decision l r) task)))
    by (by apply context_result).
  change (tc_rax (context_set_result StOk 0 (context_of (decided_state decision l r) task)))
    with (status_code StOk).
  rewrite Z.eqb_refl, getM_step. unfold jr_broker. simpl (jr_runtime (jr_set_runtime r' s)). fold r.
  unfold decided_record, decided_event. rewrite Hbr. cbv zeta.
  destruct Hcase as [[-> Hst]|[[-> Hst]|[-> Hst]]]; simpl (_ =? _) in *; cbv iota in *.
  - erewrite bindM_step by reflexivity. cbv iota.
    erewrite bindM_step by (by apply append_due). cbv iota. rewrite Hres. unfold expected_reservations at 1.
    by rewrite Hst.
  - erewrite bindM_step by reflexivity. cbv iota. by erewrite bindM_step by (by apply append_due).
  - erewrite bindM_step by reflexivity. cbv iota.
    erewrite bindM_step by (by apply append_due). rewrite Hres. unfold expected_reservations at 1.
    destruct Hst as [-> | ->]; done.
Qed.

Lemma decide_mirrors handle sequence decision l st r' :
  decide_status r task handle sequence decision = None -> mirrors st r ->
  rt_broker r' = rt_broker (decided_state decision l r) ->
  rt_effect r' = rt_effect (decided_state decision l r) ->
  exists st', replay_record st (decided_record decision) = Some st' /\ mirrors st' r'.
Proof.
  intros Hs Hm Hbr Hef. destruct (decided_shape decision l (epoch_available _ _ _ Hs)) as [Hsb Hse].
  rewrite Hsb in Hbr. rewrite Hse in Hef. clear Hsb Hse.
  pose proof (decide_status_None _ _ _ _ _ Hs) as (_ & _ & _ & Hcase).
  pose proof Hm as [Hph _ _ Hx]. unfold broker_replay_phase in Hph.
  assert (He : ab_decision_epoch (rt_broker r') = ab_decision_epoch (rt_broker r) + 1).
  { rewrite Hbr. by destruct (decision =? DECISION_APPROVE). }
  unfold decided_record, decided_event.
  destruct Hcase as [[-> Hst]|[[-> Hst]|[-> Hst]]]; simpl (_ =? _) in *; cbv iota zeta in *; rewrite <-He;
    (eapply (replay_continued st r r' Hm He); [done|done|done| |by rewrite Hef|by rewrite Hbr|by rewrite Hbr]);
    unfold replay_event, broker_replay_phase; rewrite Hbr; simpl.
  - rewrite Hph, Hst, Z.eqb_refl. by rewrite Hx.
  - rewrite Hph, Hst, Z.eqb_refl. by rewrite Hx.
  - destruct Hst as [E|E]; rewrite Hph, E, Z.eqb_refl; by rewrite Hx.
Qed.

(** An accepted decision and its record. *)
Lemma decide_followed handle sequence decision l :
  let r' := upd task (slot_result StOk 0) (decided_state decision l r) in
  requested r task = Some OpDecideApproval -> tc_rdx (context_of r task) = decision ->
  decide_status r task handle sequence decision = None -> rt_inv r' -> rt_profile r' = Supervised ->
  outcome_ok task (OutResume task) r' -> tables_tame r r' ->
  exists o s', follow (OutResume task) (jr_set_runtime r' s) = (Ok o, s') /\ jr_inv s' /\
               outcome_ok task o (jr_runtime s') /\ log_grows s s'.
Proof.
  intros r' Hop Hd Hs Hi' Hp' Ho Htame.
  pose proof (follow_decide_eq handle sequence decision l Hs) as Hf. cbv zeta in Hf. fold r' in Hf.
  pose proof (decide_status_None _ _ _ _ _ Hs) as (_ & Hpr & _ & Hcase).
  destruct (lifecycle_open Hpr) as (HJ & Ht1 & _ & Hb & _ & _ & _ & Hn).
  destruct (journal_open HJ) as (Hsh & Hwf & Hres & Her).
  pose proof (epoch_available _ _ _ Hs) as Hex.
  destruct (decided_shape decision l Hex) as [Hbr _].
  destruct (epoch_next r decision Hb Hex) as (_ & Hn1 & Hn2).
  assert (Hglob : rt_broker r' = rt_broker (decided_state decision l r) /\
                  rt_effect r' = rt_effect (decided_state decision l r)).
  { unfold r', upd. by destruct (task =? SENDER_TASK_ID). }
  destruct Hglob as [Hgb Hge].
  destruct (jr_inv_logged r' (decided_record decision) (expected_reservations (rt_broker r'))) as [Hj Hg]; try done.
  - unfold decided_record. by destruct (decided_event decision) as [[? ?] ?].
  - unfold expected_reservations. by destruct (ab_state (rt_broker r')).
  - pose proof (jw_capacity _ Hwf) as Hcap. rewrite Hres in Hcap, Hn. rewrite Hgb, Hbr. cbv zeta.
    unfold expected_reservations in *.
    destruct Hcase as [[-> Hst]|[[-> Hst]|[-> [Hst|Hst]]]]; rewrite Hst in *; simpl in *; lia.
  - unfold epoch_room in *. rewrite Hgb, Hbr. cbv zeta.
    destruct Hcase as [[-> Hst]|[[-> Hst]|[-> Hst]]]; simpl (_ =? _); cbv iota; simpl; try done.
    rewrite Hst in Her. lia.
  - intros st Hm. by eapply decide_mirrors.
  - eexists _, _. split; [|done]. apply follow_logs; [|done].
    unfold follow_trap. fold (requested r task). by rewrite Hop, Hd.
Qed.

Lemma upd_global f r1 :
  rt_broker (upd task f r1) = rt_broker r1 /\ rt_effect (upd task f r1) = rt_effect r1.
Proof. unfold upd. by destruct (task =? SENDER_TASK_ID). Qed.

Lemma trap_decide_progress :
  requested r task = Some OpDecideApproval -> jr_progresses task (jr_handle_trap task) s.
Proof.
  intros Hop. destruct trap_task as [Ht Hst].
  destruct (handle_trap_ok r task Hi Hrun) as (o & r' & Htr & Hi' & Ho).
  pose proof (trap_arm o r' Htr) as Harm. cbv zeta in Harm. rewrite Hop in Harm.
  pose proof (trap_profile _ _ _ _ Htr) as Hp'. rewrite Hp in Hp'.
  pose proof (trap_tables r task o r' Hi Hrun Htr) as Htame.
  set (c := context_of r task) in *.
  unfold jr_progresses. rewrite (jr_trap_follow o r') by congruence.
  destruct (decide_status r task (tc_rdi c) (tc_rsi c) (tc_rdx c)) as [status|] eqn:Hs.
  - rewrite (decide_refused _ _ _ _ _ _ Hi Ht Hs) in Harm. injection Harm as <- <-.
    destruct (upd_global (slot_result status 0) r) as [Hb He].
    eexists. apply (follow_quiet (OutResume task)); try done.
    unfold follow_trap. fold (requested r task). rewrite Hop. unfold follow_decide.
    destruct (ab_request_present _); [|done].
    rewrite (readM_step (fun s => rt_context (jr_runtime s) task) _ _
      (context_set_result status 0 (context_of r task))) by (by apply context_result).
    rewrite (if_false _ _ _); [done|]. apply Z.eqb_neq. intros E%status_code_ok.
    subst status. by apply decide_refusal in Hs.
  - destruct (ri_sched _ Hi) as (l & Hq & _).
    destruct (decide_eq _ _ _ _ _ l Hi Ht Hst Hq Hs) as (Ht1 & _ & Heq).
    rewrite Heq in Harm. rewrite (epoch_available _ _ _ Hs), <-Ht1 in Harm. injection Harm as <- <-.
    by eapply decide_followed.
Qed.

(** ** Commit *)

Definition commit_record (k : EffectEventKind) (status : TrapStatus) : EffectRecordV1 :=
  record_event k status (ab_decision_epoch (rt_broker r) + 1) SENDER_TASK_ID SUPERVISOR_GENERATION
    (ab_request (rt_broker r)) OBJECT_TYPE_TEST_EFFECT CAPABILITY_RIGHT_COMMIT_EFFECT.

Lemma approved_present :
  ab_state (rt_broker r) = BrokerApproved -> ab_request_present (rt_broker r) = true.
Proof.
  intros Hst. pose proof (su_broker _ (rt_inv_profile_sup r Hi Hp)) as Hb.
  destruct (ct_state _); [done|..].
  - pose proof (br_state _ _ Hb) as H. rewrite Hst in H. naive_solver.
  - destruct Hb as (_ & ? & _). congruence.
  - destruct Hb as (Hb & _). by rewrite Hb in Hst.
Qed.

(** The common end of both commit outcomes: the lifecycle closes with one
    record, the broker is released and the epoch advances. *)
Lemma commit_logged r' k status occupied :
  ab_state (rt_broker r) = BrokerApproved ->
  (k = EvCompleted /\ status = StOk /\ se_occupied (rt_effect r) = false \/
   k = EvFailed /\ status = EffectUnavailable /\ se_occupied (rt_effect r) = true) ->
  occupied = true -> se_occupied (rt_effect r') = occupied ->
  rt_broker r' = broker_release (ab_set_decision_epoch (ab_decision_epoch (rt_broker r) + 1) (rt_broker r)) ->
  rt_inv r' -> rt_profile r' = Supervised -> tables_tame r r' ->
  append_or_restore s (commit_record k status) false (jr_set_runtime r' s) =
    (Ok tt, mkJournaledRuntime r' (ej_set_reserved 0 (appended (commit_record k status) (jr_journal s)))) /\
  let s' := mkJournaledRuntime r' (ej_set_reserved 0 (appended (commit_record k status) (jr_journal s))) in
  jr_inv s' /\ log_grows s s'.
Proof.
  intros Hst Hk -> Hocc Hbr Hi' Hp' Htame.
  destruct (lifecycle_open (approved_present Hst)) as (HJ & _ & _ & Hb & _ & _ & _ & Hn).
  destruct (journal_open HJ) as (Hsh & Hwf & Hres & Her).
  assert (Hres1 : ej_reserved_record_count (jr_journal s) = 1).
  { rewrite Hres. unfold expected_reservations. by rewrite Hst. }
  split.
  - rewrite append_due by done. by rewrite Hres1.
  - apply jr_inv_logged; try done; try (by rewrite Hbr).
    + pose proof (jw_capacity _ Hwf). lia.
    + intros st Hm. pose proof Hm as [Hph _ _ Hx].
      assert (He : ab_decision_epoch (rt_broker r') = ab_decision_epoch (rt_broker r) + 1) by (by rewrite Hbr).
      unfold commit_record. rewrite <-He.
      eapply (replay_continued st r r' Hm He); [| | | |symmetry; exact Hocc|by rewrite Hbr|by rewrite Hbr].
      * destruct Hk as [(-> & _)|(-> & _)]; done.
      * destruct Hk as [(-> & -> & _)|(-> & -> & _)]; done.
      * destruct Hk as [(-> & _)|(-> & _)]; done.
      * unfold replay_event, broker_replay_phase in *. rewrite Hph, Hst, Hbr, Hx. simpl. rewrite Z.eqb_refl.
        destruct Hk as [(-> & _ & ->)|(-> & _ & ->)]; done.
Qed.

Lemma commit_committed handle sequence argument l :
  let r' := upd task (slot_result StOk 0) (committed_state argument l r) in
  requested r task = Some OpCommitEffect ->
  commit_status r task handle sequence argument = None -> rt_inv r' -> rt_profile r' = Supervised ->
  outcome_ok task (OutResume task) r' -> tables_tame r r' ->
  exists o s', follow (OutResume task) (jr_set_runtime r' s) = (Ok o, s') /\ jr_inv s' /\
               outcome_ok task o (jr_runtime s') /\ log_grows s s'.
Proof.
  intros r' Hop Hs Hi' Hp' Ho Htame.
  pose proof (commit_status_None _ _ _ _ _ Hs) as (_ & _ & Hst & _ & _ & Hocc & _).
  destruct (upd_global (slot_result StOk 0) (committed_state argument l r)) as [Hb He].
  destruct (commit_logged r' EvCompleted StOk true) as (Happ & Hj & Hg); try done; [by left|unfold r'; by rewrite ?Hb, ?He..|].
  eexists _, _. split; [|done]. apply follow_logs; [|done].
  unfold follow_trap. fold (requested r task). rewrite Hop. unfold follow_commit. rewrite getM_step.
  unfold jr_broker. fold r. rewrite bool_decide_eq_true_2 by done.
  simpl (jr_runtime (jr_set_runtime r' s)). unfold r'. rewrite Hb.
  rewrite bool_decide_eq_true_2 by done. fold r'.
  rewrite (readM_step (fun s => rt_context (jr_runtime s) task) _ _
    (context_set_result StOk 0 (context_of (committed_state argument l r) task)))
    by (by apply context_result).
  change (tc_rax (context_set_result StOk 0 _)) with (status_code StOk). rewrite Z.eqb_refl.
  cbv zeta. by erewrite bindM_step by exact Happ.
Qed.

(** A commit that finds the effect already executed closes the lifecycle with
    a failure record. *)
Definition failed_state (l : list Z) : Runtime :=
  upd task (slot_result EffectUnavailable 0)
    (woken EffectUnavailable 0 l
       (rt_set_effect (rt_effect r)
          (rt_set_broker
             (broker_release (ab_set_decision_epoch (ab_decision_epoch (rt_broker r) + 1) (rt_broker r)))
             (upd task (slot_result EffectUnavailable 0) r)))).

Lemma follow_commit_failed_eq l :
  rt_queue r = queue_of l -> ab_state (rt_broker r) = BrokerApproved ->
  follow_commit_failed s task (jr_set_runtime (upd task (slot_result EffectUnavailable 0) r) s) =
  (do! append_or_restore s (commit_record EvFailed EffectUnavailable) false in retM None)
    (jr_set_runtime (failed_state l) s).
Proof.
  intros Hq Hst. destruct trap_task as [Ht _].
  destruct (lifecycle_open (approved_present Hst)) as (HJ & Ht1 & Hw & Hb & _ & _ & _ & _).
  destruct (journal_open HJ) as (_ & _ & _ & Her). unfold epoch_room in Her. rewrite Hst in Her.
  set (r1 := upd task (slot_result EffectUnavailable 0) r).
  assert (Hi1 : rt_inv r1) by (by apply rt_inv_result).
  assert (H1 : rt_queue r1 = queue_of l /\ ts_state (rt_task1 r1) = BlockedApproval /\ rt_broker r1 = rt_broker r)
    by (unfold r1, upd; by destruct (task =? SENDER_TASK_ID)).
  destruct H1 as (Hq1 & Hw1 & Hb1).
  unfold follow_commit_failed. rewrite getM_step.
  change (jr_broker (jr_set_runtime r1 s)) with (rt_broker r1). rewrite Hb1.
  set (n := ab_decision_epoch (rt_broker r) + 1).
  rewrite (bindM_step _ _ _ n (jr_set_runtime r1 s)).
  2: { unfold liftM. rewrite (proj2 (checked_add_Some _ _ n)); [done|]. unfold n, U64_MAX in *. lia. }
  set (b' := broker_release (ab_set_decision_epoch n (rt_broker r1))).
  rewrite (bindM_step _ _ _ tt (jr_set_runtime (rt_set_effect (rt_effect r1) (rt_set_broker b' r1)) s))
    by (by destruct r1).
  pose proof (woken_push_with EffectUnavailable 0 l r1 b' (rt_effect r1) Hi1 Hq1 Hw1) as Hwake.
  set (r2 := woken EffectUnavailable 0 l (rt_set_effect (rt_effect r1) (rt_set_broker b' r1))) in *.
  rewrite (bindM_step _ _ _ tt (jr_set_runtime r2 s)).
  2: { unfold on_runtime. simpl. by rewrite Hwake. }
  rewrite (bindM_step _ _ _ tt (jr_set_runtime (failed_state l) s)); [done|].
  unfold on_runtime. simpl. rewrite set_result_valid by done.
  unfold failed_state, r2, b', n. rewrite Hb1. unfold r1, upd. by destruct (task =? SENDER_TASK_ID).
Qed.

Lemma failed_inv l :
  rt_queue r = queue_of l -> ab_state (rt_broker r) = BrokerApproved ->
  rt_inv (failed_state l) /\ rt_profile (failed_state l) = Supervised /\ tables_tame r (failed_state l) /\
  rt_broker (failed_state l) =
    broker_release (ab_set_decision_epoch (ab_decision_epoch (rt_broker r) + 1) (rt_broker r)) /\
  rt_effect (failed_state l) = rt_effect r /\ outcome_ok task (OutResume task) (failed_state l).
Proof.
  intros Hq Hst. destruct trap_task as [Ht Hrn].
  destruct (lifecycle_open (approved_present Hst)) as (HJ & Ht1 & Hw & Hb & HL & He & _ & _).
  destruct (journal_open HJ) as (_ & _ & _ & Her). unfold epoch_room in Her. rewrite Hst in Her.
  pose proof (br_epoch _ _ Hb) as Hep.
  set (b' := broker_release (ab_set_decision_epoch (ab_decision_epoch (rt_broker r) + 1) (rt_broker r))).
  assert (Hi1 : rt_inv (upd task (slot_result EffectUnavailable 0) r)) by (by apply rt_inv_result).
  assert (Hi2 : rt_inv (woken EffectUnavailable 0 l (rt_set_effect (rt_effect r)
                  (rt_set_broker b' (upd task (slot_result EffectUnavailable 0) r))))).
  { refine (woken_inv EffectUnavailable 0 l _ b' (rt_effect r) Hi1 _ _ _ _ _ He).
    1-4: rewrite Ht1; assumption.
    apply broker_release_inv; [exact Hb|lia]. }
  split; [by apply rt_inv_result|].
  unfold failed_state. rewrite Ht1 in *. split; [exact Hp|].
  split; [by apply tables_tame_eq|]. split; [reflexivity|]. split; [reflexivity|].
  split; [done|]. split; [done|]. exact Hrn.
Qed.

Lemma commit_unavailable l :
  let r1 := upd task (slot_result EffectUnavailable 0) r in
  requested r task = Some OpCommitEffect -> rt_queue r = queue_of l ->
  ab_state (rt_broker r) = BrokerApproved -> se_occupied (rt_effect r) = true ->
  exists o s', follow (OutResume task) (jr_set_runtime r1 s) = (Ok o, s') /\ jr_inv s' /\
               outcome_ok task o (jr_runtime s') /\ log_grows s s'.
Proof.
  intros r1 Hop Hq Hst Hocc. destruct (failed_inv l Hq Hst) as (Hi' & Hp' & Ht' & Hb' & He' & Ho).
  destruct (commit_logged (failed_state l) EvFailed EffectUnavailable true) as (Happ & Hj & Hg);
    try done; [by right|by rewrite He'|].
  exists (OutResume task). eexists. split; [|done]. apply follow_logs; [|done].
  unfold follow_trap. fold (requested r task). rewrite Hop. unfold follow_commit. rewrite getM_step.
  assert (Hb1 : rt_broker r1 = rt_broker r) by (unfold r1, upd; by destruct (task =? SENDER_TASK_ID)).
  unfold jr_broker. fold r. rewrite bool_decide_eq_true_2 by done.
  simpl (jr_runtime (jr_set_runtime r1 s)).
  rewrite (bool_decide_eq_false_2 (ab_state (rt_broker r1) = BrokerEmpty)) by (rewrite Hb1; congruence).
  rewrite (bool_decide_eq_true_2 (ab_state (rt_broker r1) = BrokerApproved)) by (by rewrite Hb1).
  rewrite (readM_step (fun s => rt_context (jr_runtime s) task) _ _
    (context_set_result EffectUnavailable 0 (context_of r task))) by (by apply context_result).
  change (tc_rax (context_set_result EffectUnavailable 0 _)) with (status_code EffectUnavailable).
  rewrite Z.eqb_refl. unfold r1. rewrite (follow_commit_failed_eq l Hq Hst).
  by erewrite bindM_step by exact Happ.
Qed.

Lemma trap_commit_progress :
  requested r task = Some OpCommitEffect -> jr_progresses task (jr_handle_trap task) s.
Proof.
  intros Hop. destruct trap_task as [Ht Hst].
  destruct (handle_trap_ok r task Hi Hrun) as (o & r' & Htr & Hi' & Ho).
  pose proof (trap_arm o r' Htr) as Harm. cbv zeta in Harm. rewrite Hop in Harm.
  pose proof (trap_profile _ _ _ _ Htr) as Hp'. rewrite Hp in Hp'.
  pose proof (trap_tables r task o r' Hi Hrun Htr) as Htame.
  set (c := context_of r task) in *.
  unfold jr_progresses. rewrite (jr_trap_follow o r') by congruence.
  destruct (ri_sched _ Hi) as (l & Hq & _).
  destruct (commit_status r task (tc_rdi c) (tc_rsi c) (tc_rdx c)) as [status|] eqn:Hs.
  - rewrite (commit_refused _ _ _ _ _ _ Hi Ht Hs) in Harm. injection Harm as <- <-.
    destruct (commit_refusal _ _ _ _ _ _ Hs) as [Hne Hocc].
    destruct (upd_global (slot_result status 0) r) as [Hb He].
    destruct (decide (ab_state (rt_broker r) = BrokerApproved /\ status = EffectUnavailable)) as [[Ha ->]|Hna].
    { by apply (commit_unavailable l); auto. }
    eexists. apply (follow_quiet (OutResume task)); try done.
    unfold follow_trap. fold (requested r task). rewrite Hop. unfold follow_commit. rewrite getM_step.
    unfold jr_broker. fold r.
    destruct (bool_decide (ab_state (rt_broker r) = BrokerApproved)) eqn:Ha; [|done]. b2p.
    change (jr_runtime (jr_set_runtime ?x s)) with x.
    rewrite (bool_decide_eq_false_2 (ab_state (rt_broker (upd task _ r)) = BrokerEmpty)) by (rewrite Hb; congruence).
    rewrite (bool_decide_eq_true_2 (ab_state (rt_broker (upd task _ r)) = BrokerApproved)) by (by rewrite Hb).
    rewrite (readM_step (fun s => rt_context (jr_runtime s) task) _ _
      (context_set_result status 0 (context_of r task))) by (by apply context_result).
    rewrite (if_false _ _ _); [done|]. apply Z.eqb_neq. intros E%status_code_unavailable. by apply Hna.
  - destruct (commit_effect_ok _ _ _ _ _ l Hi Ht Hst Hq Hs) as (Ht1 & _ & Heq).
    rewrite Heq, <-Ht1 in Harm. injection Harm as <- <-. by eapply commit_committed.
Qed.

(** ** Every trap *)

Lemma jr_trap_progress : jr_progresses task (jr_handle_trap task) s.
Proof.
  destruct (decide (requested r task = Some OpInspectEffectJournal)) as [?|Hn1]; [apply jr_trap_read; by left|].
  destruct (decide (requested r task = Some OpReadEffectRecord)) as [?|Hn2]; [apply jr_trap_read; by right|].
  destruct (decide (requested r task = Some OpSubmitApproval)) as [?|Hn3]; [by apply trap_submit_progress|].
  destruct (decide (requested r task = Some OpDecideApproval)) as [?|Hn4]; [by apply trap_decide_progress|].
  destruct (decide (requested r task = Some OpCommitEffect)) as [?|Hn5]; [by apply trap_commit_progress|].
  destruct (handle_trap_ok r task Hi Hrun) as (o & r' & Htr & Hi' & Ho).
  pose proof (trap_arm o r' Htr) as Harm. cbv zeta in Harm.
  assert (Hbe : rt_broker r' = rt_broker r /\ rt_effect r' = rt_effect r)
    by (destruct (requested r task) as [[]|]; done).
  destruct Hbe as [Hb He].
  unfold jr_progresses. rewrite (jr_trap_follow o r') by done.
  eexists. apply follow_quiet; try done.
  - unfold follow_trap. fold (requested r task). by destruct (requested r task) as [[]|].
  - rewrite (trap_profile _ _ _ _ Htr). exact Hp.
  - by eapply trap_tables.
Qed.
End Trap.
