(* ===== verification/JournaledTeardown.v ===== *)
(** * Teardown and reclamation of the journaled runtime

    The first teardown closes an open lifecycle with a terminal record and seals
    the journal; completion and reclamation follow.  None of the early returns
    of [begin_teardown] that would leave a partial write behind is reachable. *)

From S2P Require Import Prelude RuntimeTypes Capability CapabilityProofs Journal JournalProofs.
From S2P Require Import Runtime RuntimeOps Journaled RuntimeFrame RuntimeInv RuntimeProgress.
From S2P Require Import SupervisedProgress RuntimeTeardown RuntimeConstruct RuntimeTheorems Ipc.
From S2P Require Import Approval JournaledInv JournaledTraps.

(** ** Sealing *)

Definition sealed (j : EffectJournalV1) : EffectJournalV1 := ej_set_state JournalSealed j.

Lemma seal_ok j :
  journal_wf j -> ej_state j = JournalLive -> ej_reserved_record_count j = 0 ->
  journal_seal j = (Ok tt, sealed j) /\ journal_wf (sealed j).
Proof.
  intros Hwf HL Hr.
  assert (Hs : journal_seal j = (Ok tt, sealed j)).
  { unfold journal_seal. by rewrite bool_decide_eq_true_2, Hr. }
  split; [done|]. eapply journal_step_wf; [done|]. by apply jstep_seal.
Qed.

Lemma validated_unit before s :
  jr_inv s -> validate_or_restore before s = (Ok tt, s).
Proof. intros [Hj _]. unfold validate_or_restore, bindM, getM. by rewrite j_inv_validate. Qed.

(** A table that lost its entries has no journal capability. *)
Lemma closing_entries t :
  table_wf t -> ct_state t = TableClosing ->
  journal_entries t = 0 /\ existsb journal_entry_bad (ct_slots t) = false.
Proof.
  intros Hwf HC. pose proof (tw_closing _ Hwf HC) as Hn. split.
  - apply countb_zero. intros x Hx. unfold is_journal_entry. by rewrite (Hn x Hx).
  - apply existsb_false. intros x Hx. unfold journal_entry_bad. by rewrite (Hn x Hx).
Qed.

(** The invariant after a teardown has begun. *)
Lemma torn_begin_inv r r' task :
  valid_task task -> torn_begin task r r' -> entries_inv r ->
  entries_inv r' /\ ~ both_in_service r'.
Proof.
  intros Ht (Hi & Hex & HC & Hot & Hp) [H1 H2 H3]. unfold both_in_service, caps0, caps1.
  destruct (closing_entries _ (si_table _ _ (rt_inv_slot r' task Ht Hi)) HC) as [Hz Hx].
  destruct Ht as [-> | ->]; unfold task_slot in *; simpl in *; (split; [split|]).
  - unfold caps0. lia.
  - done.
  - unfold caps1 in *. by rewrite Hot.
  - intros [? _]. congruence.
  - unfold caps0 in *. by rewrite Hot.
  - unfold caps0 in *. by rewrite Hot.
  - done.
  - intros [_ [?|?]]; congruence.
Qed.

(** ** Closing a lifecycle *)

(** The terminal record of a lifecycle that a teardown cuts short. *)
Definition terminal_record (b : ApprovalBroker) : EffectRecordV1 :=
  let '(kind, status) := match ab_state b with
                         | BrokerPending => (EvDenied, ApprovalDenied)
                         | _ => (EvExpired, ApprovalExpired)
                         end in
  record_event kind status (ab_decision_epoch b + 1) 0 0 (ab_request b) OBJECT_TYPE_APPROVAL_BROKER 0.

Section Begin.
Variables (s : JournaledRuntime) (task : Z).
Hypothesis Hinv : jr_inv s.
Hypothesis Ht : valid_task task.

Let r := jr_runtime s.
Let Hi : rt_inv r := ji_runtime _ (proj1 Hinv).
Let Hp : rt_profile r = Supervised := ji_profile _ (proj1 Hinv).

Hypothesis Hex : ts_state (task_slot r task) = Exited.
Hypothesis HT : ct_state (ts_capabilities (task_slot r task)) = TableLive.

(** An open request at a teardown means the supervisor is the one leaving. *)
Lemma open_at_teardown :
  ab_request_present (rt_broker r) = true ->
  task = 1 /\ broker_inv true (rt_broker r) /\
  (ab_state (rt_broker r) = BrokerPending \/ ab_state (rt_broker r) = BrokerApproved).
Proof.
  intros Hpr. pose proof (su_broker _ (rt_inv_profile_sup r Hi Hp)) as Hb.
  destruct (ct_state (ts_capabilities (rt_task0 r))) eqn:HL; [done|..].
  - pose proof (br_state _ _ Hb) as Hst.
    destruct (is_state BlockedApproval (rt_task1 r)) eqn:Hw.
    + apply is_state_true in Hw. split; [|split; [done|]].
      * destruct Ht as [Ht1|Ht2]; [done|]. rewrite Ht2 in Hex.
        change (task_slot r 2) with (rt_task1 r) in Hex. congruence.
      * destruct (ab_state (rt_broker r)); naive_solver.
    + destruct (ab_state (rt_broker r)); naive_solver congruence.
  - destruct Hb as (Hb & Hc & _). pose proof (br_state _ _ Hb) as Hst. rewrite Hc in Hst.
    naive_solver congruence.
  - destruct Hb as (Hb & _). by rewrite Hb in Hpr.
Qed.

Lemma not_dead : ej_state (jr_journal s) <> JournalDead.
Proof.
  intros Hd. pose proof (ji_phase _ (proj1 Hinv)) as Hph. rewrite Hd in Hph. destruct Hph as [H0 H1].
  unfold task_slot in Hex. destruct (task =? SENDER_TASK_ID); fold r in H0, H1; congruence.
Qed.

(** The broker the terminal record leaves. *)
Definition closed_broker : ApprovalBroker :=
  if ab_request_present (rt_broker r)
  then ab_set_decision_epoch (ab_decision_epoch (rt_broker r) + 1) (rt_broker r)
  else rt_broker r.

(** The journal after the first teardown has begun. *)
Definition closed_journal : EffectJournalV1 :=
  if ab_request_present (rt_broker r)
  then sealed (ej_set_reserved 0 (appended (terminal_record (rt_broker r)) (jr_journal s)))
  else sealed (jr_journal s).

Lemma close_lifecycle_eq :
  ej_state (jr_journal s) = JournalLive -> ab_request_present (rt_broker r) = true ->
  close_lifecycle s s =
    (Ok tt, mkJournaledRuntime (rt_set_broker closed_broker r)
              (ej_set_reserved 0 (appended (terminal_record (rt_broker r)) (jr_journal s)))).
Proof.
  intros HL Hpr. destruct (open_at_teardown Hpr) as (_ & Hb & Hcase).
  destruct (journal_open s Hinv HL) as (_ & _ & Hres & Her). fold r in Hres, Her.
  unfold close_lifecycle. rewrite getM_step. unfold jr_broker. fold r.
  set (n := ab_decision_epoch (rt_broker r) + 1).
  rewrite (bindM_step _ _ _ n s).
  2: { unfold liftM. rewrite (proj2 (checked_add_Some _ _ n)); [done|].
       unfold epoch_room, n, U64_MAX in *. split; [done|].
       destruct Hcase as [E|E]; rewrite E in Her; lia. }
  rewrite (bindM_step _ _ _ tt (jr_set_runtime (rt_set_broker closed_broker r) s)).
  2: { unfold closed_broker. by rewrite Hpr. }
  unfold terminal_record. unfold expected_reservations in Hres.
  destruct Hcase as [E|E]; rewrite E in Hres |- *; (erewrite bindM_step by reflexivity); cbv iota;
    (rewrite (append_due s Hinv); [|done|done|rewrite Hres; done]); [done|].
  by rewrite Hres.
Qed.

Lemma terminal_replay st :
  ab_request_present (rt_broker r) = true -> mirrors st r ->
  exists st', replay_record st (terminal_record (rt_broker r)) = Some st' /\ rp_phase st' = RpIdle.
Proof.
  intros Hpr Hm. destruct (open_at_teardown Hpr) as (_ & Hb & Hcase).
  set (b' := broker_release (ab_set_decision_epoch (ab_decision_epoch (rt_broker r) + 1) (rt_broker r))).
  pose proof Hm as [Hph _ _ Hx]. unfold broker_replay_phase in Hph.
  assert (H : exists st', replay_record st (terminal_record (rt_broker r)) = Some st' /\
                          mirrors st' (rt_set_broker b' r)).
  2: { destruct H as (st' & Hr & [Hp' _ _ _]). exists st'. split; [done|]. by rewrite Hp'. }
  unfold terminal_record.
  change (ab_decision_epoch (rt_broker r) + 1) with (ab_decision_epoch (rt_broker (rt_set_broker b' r))).
  destruct Hcase as [E|E]; rewrite E in Hph |- *;
    (eapply (replay_continued st r (rt_set_broker b' r) Hm eq_refl); try done);
    unfold replay_event; rewrite Hph, Z.eqb_refl; simpl; by rewrite Hx.
Qed.

(** The sealing half of [begin_teardown]. *)
Lemma seal_step :
  ej_state (jr_journal s) = JournalLive ->
  (do! (if ab_request_present (jr_broker s) then close_lifecycle s else retM tt) in
   let! sealed := on_journal journal_seal in
   if is_err sealed then do! putM s in throwM JournalInvariant else retM tt) s =
    (Ok tt, mkJournaledRuntime (rt_set_broker closed_broker r) closed_journal) /\
  journal_wf closed_journal /\ ej_state closed_journal = JournalSealed /\
  (exists st, replay (committed closed_journal) = Some st /\ rp_phase st = RpIdle) /\
  log_grows s (mkJournaledRuntime (rt_set_broker closed_broker r) closed_journal).
Proof.
  intros HL. destruct (journal_open s Hinv HL) as (Hsh & Hwf & Hres & Her). fold r in Hres, Her.
  destruct (proj2 Hinv) as (st & Hst & Hau). rewrite HL in Hau.
  unfold closed_journal, jr_broker. fold r. destruct (ab_request_present (rt_broker r)) eqn:Hpr.
  - destruct (open_at_teardown Hpr) as (_ & Hb & Hcase).
    rewrite (bindM_step _ _ _ _ _ (close_lifecycle_eq HL Hpr)).
    set (j1 := ej_set_reserved 0 (appended (terminal_record (rt_broker r)) (jr_journal s))).
    assert (Hf : record_fresh (terminal_record (rt_broker r))).
    { unfold terminal_record. by destruct (ab_state (rt_broker r)). }
    assert (Hcap : ej_committed_record_count (jr_journal s) < 16).
    { pose proof (jw_capacity _ Hwf). rewrite Hres in *. unfold expected_reservations in *.
      destruct Hcase as [E|E]; rewrite E in *; lia. }
    assert (Hwf1 : journal_wf j1).
    { split; [apply set_reserved_shape; [lia|]; by apply appended_shape|].
      right. apply appended_open_wf; (done || lia). }
    destruct (seal_ok j1 Hwf1 HL eq_refl) as [Hs Hws].
    assert (Hcom : committed (sealed j1) =
      committed (jr_journal s) ++ [number (committed (jr_journal s)) (terminal_record (rt_broker r))]).
    { by apply (appended_committed (terminal_record (rt_broker r)) (jr_journal s)). }
    split; [|split; [done|split; [done|split]]].
    + unfold bindM, on_journal. simpl. by rewrite Hs.
    + destruct (terminal_replay st Hpr Hau) as (st' & Hr & Hid). exists st'. split; [|done].
      unfold replay in *. rewrite Hcom, replay_from_snoc, Hst. by rewrite replay_number.
    + right. eexists. exact Hcom.
  - assert (Hidle : ab_state (rt_broker r) <> BrokerPending /\ ab_state (rt_broker r) <> BrokerApproved).
    { pose proof (su_broker _ (rt_inv_profile_sup r Hi Hp)) as Hb.
      destruct (ct_state (ts_capabilities (rt_task0 r))); [done|..].
      - pose proof (br_state _ _ Hb) as H. destruct (ab_state (rt_broker r)); naive_solver congruence.
      - destruct Hb as (_ & -> & _). done.
      - destruct Hb as (-> & _). done. }
    assert (Hres0 : ej_reserved_record_count (jr_journal s) = 0).
    { rewrite Hres. unfold expected_reservations. destruct Hidle. by destruct (ab_state (rt_broker r)). }
    destruct (seal_ok (jr_journal s) (ji_journal _ (proj1 Hinv)) HL Hres0) as [Hs Hws].
    rewrite (bindM_step _ _ _ tt s) by done.
    split; [|split; [done|split; [done|split]]].
    + unfold bindM, on_journal. rewrite Hs. simpl. unfold closed_broker. rewrite Hpr.
      by rewrite rt_set_broker_same.
    + exists st. split; [done|]. destruct Hau as [-> _ _ _]. unfold broker_replay_phase.
      fold r. destruct Hidle. by destruct (ab_state (rt_broker r)).
    + by left.
Qed.

(** The runtime's teardown succeeds on the broker the terminal record left. *)
Lemma begin_closed :
  ej_state (jr_journal s) = JournalLive ->
  exists r', begin_teardown task (rt_set_broker closed_broker r) = (Ok tt, r') /\ torn_begin task r r'.
Proof.
  intros HL. unfold closed_broker. destruct (ab_request_present (rt_broker r)) eqn:Hpr.
  - destruct (open_at_teardown Hpr) as (Ht1 & Hb & Hcase).
    destruct (journal_open s Hinv HL) as (_ & _ & _ & Her). fold r in Her. unfold epoch_room in Her.
    rewrite Ht1 in Hex, HT |- *.
    set (b := ab_set_decision_epoch _ _).
    destruct (begin_teardown_sup_sender r b Hi Hp Hex HT) as (r' & Heq & Htb).
    { destruct Hb as [Hg Hs He Hst]. split; simpl; try done.
      destruct Hcase as [E|E]; rewrite E in Her; lia. }
    exists r'. split; [|done]. apply transactional_ok. unfold begin_teardown_inner.
    rewrite (read_slot_step (rt_set_broker b r) 1 _ (or_introl eq_refl)).
    change (task_slot (rt_set_broker b r) 1) with (task_slot r 1).
    rewrite (proj2 (is_state_true _ _) Hex). cbn [negb]. rewrite getM_step.
    change (rt_profile (rt_set_broker b r)) with (rt_profile r). rewrite Hp. done.
  - rewrite rt_set_broker_same. by apply begin_teardown_ok.
Qed.

(** The journal the teardown leaves behind. *)
Definition teardown_journal : EffectJournalV1 :=
  if decide (ej_state (jr_journal s) = JournalLive) then closed_journal else jr_journal s.

Lemma jr_begin_ok :
  exists r', let s' := mkJournaledRuntime r' teardown_journal in
    jr_begin_teardown task s = (Ok tt, s') /\ jr_inv s' /\ torn_begin task r r' /\
    ej_state (jr_journal s') = JournalSealed /\ log_grows s s'.
Proof.
  unfold teardown_journal, jr_begin_teardown. rewrite getM_step.
  rewrite (readM_step (fun s => slot (jr_runtime s) task) _ _ (task_slot r task)) by (by apply slot_valid).
  rewrite (proj2 (is_state_true _ _) Hex). cbn [negb].
  pose proof (proj1 Hinv) as [_ _ Hj He Hph].
  destruct (decide (ej_state (jr_journal s) = JournalLive)) as [HL|HL].
  - rewrite bool_decide_eq_true_2 by done.
    destruct (seal_step HL) as (Hseal & Hws & Hst & (st & Hrep & Hidle) & Hgrow).
    destruct (begin_closed HL) as (r' & Hbeg & Htb).
    destruct (torn_begin_inv r r' task Ht Htb He) as [He' Hns].
    exists r'. cbv zeta. rewrite (bindM_step _ _ _ _ _ Hseal), getM_step.
    change (jr_runtime (mkJournaledRuntime (rt_set_broker closed_broker r) closed_journal))
      with (rt_set_broker closed_broker r). rewrite Hbeg.
    assert (Hji : jr_inv (mkJournaledRuntime r' closed_journal)).
    { split; [split; simpl; try done|]; [apply Htb|rewrite <-Hp; apply Htb|by rewrite Hst|].
      exists st. simpl. rewrite Hst. done. }
    split_and!; try done. rewrite (bindM_step _ _ _ tt (mkJournaledRuntime r' closed_journal)) by done.
    by apply validated_unit.
  - rewrite bool_decide_eq_false_2 by done.
    assert (Hst : ej_state (jr_journal s) = JournalSealed).
    { pose proof not_dead. by destruct (ej_state (jr_journal s)). }
    destruct (begin_teardown_ok r task Hi Ht Hex HT) as (r' & Hbeg & Htb).
    destruct (torn_begin_inv r r' task Ht Htb He) as [He' Hns].
    destruct (proj2 Hinv) as (st & Hrep & Hau). rewrite Hst in Hau.
    exists r'. cbv zeta. rewrite (bindM_step _ _ _ tt s), getM_step by done.
    change (begin_teardown task (jr_runtime s)) with (begin_teardown task r). rewrite Hbeg.
    assert (Hji : jr_inv (mkJournaledRuntime r' (jr_journal s))).
    { split; [split; simpl; try done|]; [apply Htb|rewrite <-Hp; apply Htb|by rewrite Hst|].
      exists st. simpl. by rewrite Hst. }
    split_and!; try done; [|by left].
    rewrite (bindM_step _ _ _ tt (mkJournaledRuntime r' (jr_journal s))) by done.
    by apply validated_unit.
Qed.
End Begin.

(** ** Completion *)

Section Complete.
Variables (s : JournaledRuntime) (task : Z).
Hypothesis Hinv : jr_inv s.
Hypothesis Ht : valid_task task.

Let r := jr_runtime s.
Let Hi : rt_inv r := ji_runtime _ (proj1 Hinv).
Let Hp : rt_profile r = Supervised := ji_profile _ (proj1 Hinv).

Hypothesis Hex : ts_state (task_slot r task) = Exited.
Hypothesis HC : ct_state (ts_capabilities (task_slot r task)) = TableClosing.

(** The tables after the completion: the task's is dead, the other's unchanged. *)
Lemma complete_tables n r' :
  complete_teardown task r = (Ok n, r') ->
  ts_capabilities (task_slot r' task) = table_dead /\
  ts_capabilities (task_slot r' (3 - task)) = ts_capabilities (task_slot r (3 - task)) /\
  rt_profile r' = Supervised.
Proof.
  intros Hc. unfold complete_teardown in Hc. rewrite transactional_ok in Hc.
  rewrite complete_teardown_torn in Hc by done.
  destruct (torn_inv r task Hi Ht Hex HC) as [Hi' _].
  rewrite (readM_step _ _ _ tt) in Hc by (by apply rt_inv_validate).
  assert (K : keeps tables (tables (torn task r)) dispatch_next) by (unfold dispatch_next; keeps_solve).
  assert (K' : keeps rt_profile (rt_profile (torn task r)) dispatch_next) by (unfold dispatch_next; keeps_solve).
  pose proof (K _ _ _ eq_refl Hc) as Htab. pose proof (K' _ _ _ eq_refl Hc) as Hprof.
  destruct (torn_parts r task Ht) as (E0 & E1 & _ & Ep).
  unfold tables, caps0, caps1 in Htab. rewrite E0, E1 in Htab. injection Htab as H0 H1.
  destruct Ht as [Ht1|Ht2]; [rewrite Ht1 in *|rewrite Ht2 in *]; unfold task_slot; simpl in *;
    rewrite H0, H1; split_and!; try done; by rewrite Hprof, Ep.
Qed.

Lemma closing_not_live : ej_state (jr_journal s) = JournalSealed.
Proof.
  pose proof (ji_phase _ (proj1 Hinv)) as Hph. pose proof (not_dead s task Hinv Hex) as Hnd.
  destruct (ej_state (jr_journal s)); try done.
  destruct Hph as ([H0 H1] & _). unfold caps0, caps1 in *.
  destruct Ht as [Ht1|Ht2]; [rewrite Ht1 in HC|rewrite Ht2 in HC]; unfold task_slot, r in HC; simpl in HC;
    [congruence|]. destruct H1; congruence.
Qed.

Lemma jr_complete_ok :
  ~ (task = 1 /\ ts_state (rt_task1 r) = Staged) ->
  exists next r', jr_complete_teardown task s = (Ok next, jr_set_runtime r' s) /\
    jr_inv (jr_set_runtime r' s) /\ teardown_outcome next r' /\
    ts_capabilities (task_slot r' task) = table_dead.
Proof.
  intros Hns. destruct (complete_teardown_ok r task Hi Ht Hex HC Hns) as (n & r' & Hc & Hi' & Ho).
  destruct (complete_tables n r' Hc) as (Hd & Hot & Hp'). pose proof closing_not_live as Hs.
  pose proof (proj1 Hinv) as [_ _ Hj He Hph]. rewrite Hs in Hph.
  destruct (proj2 Hinv) as (st & Hrep & Hau). rewrite Hs in Hau.
  assert (Hji : jr_inv (jr_set_runtime r' s)).
  { destruct He as [H1 H2 H3]. unfold caps0, caps1 in *. fold r in H1, H2, H3. split; [split; simpl; try done|].
    - unfold task_slot in Hd, Hot.
      destruct Ht as [Ht1|Ht2]; [rewrite Ht1 in Hd, Hot|rewrite Ht2 in Hd, Hot]; simpl in *;
        split; unfold caps0, caps1; rewrite ?Hd, ?Hot; done.
    - rewrite Hs. unfold both_in_service, caps0, caps1. unfold task_slot in Hd.
      destruct Ht as [Ht1|Ht2]; [rewrite Ht1 in Hd|rewrite Ht2 in Hd]; simpl in Hd; rewrite Hd; simpl;
        naive_solver congruence.
    - exists st. simpl. by rewrite Hs. }
  exists n, r'. split; [|done]. unfold jr_complete_teardown. rewrite getM_step. fold r. rewrite Hc.
  rewrite (bindM_step _ _ _ tt (jr_set_runtime r' s)) by done.
  by rewrite (bindM_step _ _ _ _ _ (validated_unit _ _ Hji)).
Qed.

Lemma jr_complete_staged :
  task = 1 -> ts_state (rt_task1 r) = Staged ->
  jr_complete_teardown task s = (Err NoRunnableTask, s).
Proof.
  intros Ht1 Hst. rewrite Ht1 in Hex, HC |- *. unfold jr_complete_teardown. rewrite getM_step. fold r.
  by rewrite complete_teardown_staged.
Qed.
End Complete.

(** ** Reclamation *)

Lemma reclaim_eq s :
  jr_inv s ->
  finish_reclamation s =
    if decide (ej_state (jr_journal s) = JournalSealed /\
               ts_state (rt_task0 (jr_runtime s)) = TaskDead /\ ts_state (rt_task1 (jr_runtime s)) = TaskDead)
    then (Ok tt, jr_set_journal journal_DEAD s) else (Err JournalInvariant, s).
Proof.
  intros Hinv. pose proof (proj1 Hinv) as [Hi Hp Hj He Hph].
  unfold finish_reclamation. rewrite getM_step. cbv zeta. rewrite (journal_wf_validate _ Hj).
  change (is_err (Ok tt)) with false. rewrite orb_false_r.
  destruct (decide _) as [(Hs & H0 & H1)|Hn].
  - assert (Hr : ej_reserved_record_count (jr_journal s) = 0).
    { destruct Hj as [_ [Hd|Hw]]; [by rewrite Hd|by apply (jw_sealed _ Hw)]. }
    rewrite Hr, bool_decide_eq_true_2 by done. simpl.
    rewrite (proj2 (is_state_true _ _) H0), (proj2 (is_state_true _ _) H1). simpl.
    rewrite (bindM_step _ _ _ tt (jr_set_journal journal_DEAD s)) by done.
    apply validated_unit. split; [split; simpl; try done; apply journal_DEAD_wf|].
    exists replay_start. done.
  - match goal with |- (if ?b then _ else _) _ = _ => assert (b = true) as ->; [|done] end.
    b2p. simpl. b2p.
    destruct (decide (ej_state (jr_journal s) = JournalSealed)); [|by left; right].
    destruct (decide (ts_state (rt_task0 (jr_runtime s)) = TaskDead)); [|by left; left; left].
    left; left; right; left. intros H1. by apply Hn.
Qed.

Lemma reclaimed_inv s :
  jr_inv s -> ts_state (rt_task0 (jr_runtime s)) = TaskDead -> ts_state (rt_task1 (jr_runtime s)) = TaskDead ->
  jr_inv (jr_set_journal journal_DEAD s).
Proof.
  intros [[Hi Hp Hj He Hph] _] H0 H1. split; [split; simpl; try done; apply journal_DEAD_wf|].
  by exists replay_start.
Qed.

(** * Construction of the journaled runtime

    [JournaledRuntime::new_supervised] publishes the supervisor's four
    capabilities and the live journal, or nothing at all. *)

From S2P Require Import Runtime RuntimeOps Journaled RuntimeInv RuntimeProgress SupervisedProgress.
From S2P Require Import RuntimeTeardown RuntimeConstruct RuntimeTheorems JournaledInv.
From S2P Require Import JournaledTraps.

(** ** The published state *)

Definition journal_entry : CapabilityEntry :=
  mkCapabilityEntry 1 SUPERVISOR_GENERATION OBJECT_TYPE_EFFECT_JOURNAL CAPABILITY_RIGHT_READ_EFFECT_JOURNAL
    (mkObjectReference EFFECT_JOURNAL_OBJECT_ID EFFECT_JOURNAL_OBJECT_GENERATION).

Definition jr_table : CapabilityTable :=
  table_with TableLive 1 SUPERVISOR_GENERATION (sup_entries ++ [journal_entry]).

Definition jr_initial (s0 s1 : TaskContextV1) : JournaledRuntime :=
  mkJournaledRuntime
    (rt_set_task0 (mkTaskSlot 1 SUPERVISOR_GENERATION Ready s0 jr_table) (sup_initial s0 s1))
    (ej_set_state JournalLive journal_building).

Lemma jr_table_wf : table_wf jr_table.
Proof. apply table_wfb_wf. by vm_compute. Qed.

Lemma jr_initial_runtime_inv s0 s1 :
  sup_contexts s0 s1 -> rt_inv (jr_runtime (jr_initial s0 s1)).
Proof.
  intros (Hi0 & Hi1 & Hg0 & Hg1 & Hr0 & Hr1).
  destruct (sup_initial_inv s0 s1 Hi0 Hi1 Hg0 Hg1 Hr0 Hr1) as [_ I1 (l & Hq & Hs) Hp]. split.
  - split; simpl; try done. apply jr_table_wf.
  - done.
  - exists l. split; [done|]. by eapply sched_inv_state; [| |exact Hs].
  - destruct Hp as [? ? ? ? ? ? ? ? ?]. by split.
Qed.

Lemma jr_initial_inv s0 s1 : sup_contexts s0 s1 -> jr_inv (jr_initial s0 s1).
Proof.
  intros Hc. pose proof (jr_initial_runtime_inv s0 s1 Hc) as Hi. split.
  - split; try done.
    + by apply journal_publish_building_wf.
    + split; [|done]. split; [done|by left].
  - exists replay_start. split; [done|]. by split.
Qed.

(** ** Publication *)

Lemma publish_journaled_eq s0 s1 :
  tc_generation s0 = SUPERVISOR_GENERATION -> tc_generation s1 = WORKLOAD_GENERATION ->
  jr_publish_supervisor None (mkJournaledRuntime (unpublished_supervised s0 s1) journal_building) =
  match jr_validate (jr_initial s0 s1) with
  | Ok _ => (Ok tt, jr_initial s0 s1)
  | Err _ => jr_abort [16; 17; 18] SUPERVISOR_JOURNAL_HANDLE PublicationFailure (jr_initial s0 s1)
  end.
Proof.
  intros Hg0 Hg1. unfold unpublished_supervised. rewrite Hg0, Hg1.
  transitivity (match readM jr_validate (jr_initial s0 s1) with
    | (Ok _, s') => (Ok tt, s')
    | (Err _, s') => jr_abort [16; 17; 18] SUPERVISOR_JOURNAL_HANDLE PublicationFailure s'
    end); [reflexivity|].
  unfold readM. by destruct (jr_validate (jr_initial s0 s1)).
Qed.

Lemma jr_new_eq s0 s1 :
  sup_contexts s0 s1 -> JournaledRuntime_new_supervised s0 s1 = Ok (jr_initial s0 s1).
Proof.
  intros Hc. pose proof (jr_initial_inv s0 s1 Hc) as [Hj _].
  destruct Hc as (Hi0 & Hi1 & Hg0 & Hg1 & Hr0 & Hr1). unfold JournaledRuntime_new_supervised.
  rewrite Hi0, Hi1, Hg0, Hg1, !Z.eqb_refl. cbn [negb orb].
  rewrite publish_journaled_eq by done. by rewrite j_inv_validate.
Qed.

Lemma jr_new_accepts s0 s1 s :
  JournaledRuntime_new_supervised s0 s1 = Ok s -> sup_contexts s0 s1.
Proof.
  unfold JournaledRuntime_new_supervised, sup_contexts. intros H.
  head_if_in H E1; [done|]. head_if_in H E2; [done|]. b2p. destruct E1 as [? ?], E2 as [Hg0 Hg1].
  rewrite publish_journaled_eq in H by done.
  destruct (jr_validate (jr_initial s0 s1)) as [u|] eqn:Hv; [|done].
  unfold jr_validate in Hv. cbv zeta in Hv.
  destruct (validate (jr_runtime (jr_initial s0 s1))) as [[]|] eqn:Hv'; [|done].
  pose proof (validate_root (jr_runtime (jr_initial s0 s1)) 1 ltac:(done) (or_introl eq_refl) Hv').
  pose proof (validate_root (jr_runtime (jr_initial s0 s1)) 2 ltac:(done) (or_intror eq_refl) Hv').
  by split_and!.
Qed.

(** ** Rollback *)

(** Nothing was published: no authority in the runtime, a cleared journal. *)
Definition jr_powerless (s : JournaledRuntime) : Prop :=
  powerless (jr_runtime s) /\ jr_journal s = journal_DEAD.

Lemma rollback_powerless base journal_handle s : jr_powerless (jr_rollback_publication base journal_handle s).
Proof. by split. Qed.

Lemma jr_abort_powerless {A} base journal_handle error s (e : RuntimeError) (s' : JournaledRuntime) :
  jr_abort (A:=A) base journal_handle error s = (Err e, s') -> jr_powerless s'.
Proof. intros [= _ <-]. apply rollback_powerless. Qed.

Lemma jr_bindM_Err {A B} (m : M JournaledRuntime RuntimeError A) (k : A -> M JournaledRuntime RuntimeError B) s e s' :
  bindM m k s = (Err e, s') ->
  m s = (Err e, s') \/ exists a s1, m s = (Ok a, s1) /\ k a s1 = (Err e, s').
Proof. unfold bindM. destruct (m s) as [[|] ?] eqn:E; naive_solver. Qed.

(** Reading and writing steps of the publication that cannot fail. *)
Lemma supervisor_table_Ok {E A} (m : M CapabilityTable E A) s e s' :
  jr_supervisor_table m s = (Err e, s') -> False.
Proof.
  unfold jr_supervisor_table, on_runtime, on_capabilities.
  rewrite (read_slot_step _ SENDER_TASK_ID _ (or_introl eq_refl)). by destruct (m _).
Qed.

Lemma jr_publish_steps_Err fail steps base s e s' :
  jr_publish_steps fail steps base s = (Err e, s') -> jr_powerless s'.
Proof.
  revert base s. induction steps as [|[[[step ty] id] rights] steps IH]; intros base s; [done|].
  simpl. destruct (fails_before fail step); [by apply jr_abort_powerless|].
  intros [H|([h|err] & s1 & _ & H)]%jr_bindM_Err.
  - by apply supervisor_table_Ok in H.
  - by eapply IH.
  - by apply jr_abort_powerless in H.
Qed.

Lemma jr_publish_tail_Err fail base handle s e s' :
  jr_publish_tail fail base handle s = (Err e, s') -> jr_powerless s'.
Proof.
  unfold jr_publish_tail. cbv zeta. intros H.
  head_if_in H E1; [by apply jr_abort_powerless in H|].
  apply jr_bindM_Err in H as [H|(p & s1 & _ & H)].
  { unfold on_journal in H. by destruct (journal_publish _). }
  head_if_in H E2; [by apply jr_abort_powerless in H|].
  head_if_in H E3; [by apply jr_abort_powerless in H|].
  apply jr_bindM_Err in H as [H|(live & s2 & _ & H)]; [by apply supervisor_table_Ok in H|].
  head_if_in H E4; [by apply jr_abort_powerless in H|].
  apply jr_bindM_Err in H as [H|(u & s3 & _ & H)]; [done|].
  head_if_in H E5; [by apply jr_abort_powerless in H|].
  destruct (bindM _ _ s3) as [[]s4]; [done|]. by apply jr_abort_powerless in H.
Qed.

Lemma jr_publish_Err fail s e s' :
  jr_publish_supervisor fail s = (Err e, s') -> jr_powerless s'.
Proof.
  unfold jr_publish_supervisor. intros [H|(base & s1 & _ & H)]%jr_bindM_Err;
    [by eapply jr_publish_steps_Err|].
  head_if_in H E1; [by apply jr_abort_powerless in H|].
  apply jr_bindM_Err in H as [H|([h|err] & s2 & _ & H)]; [by apply supervisor_table_Ok in H|..].
  - head_if_in H E2; [by eapply jr_publish_tail_Err|].
    apply jr_bindM_Err in H as [H|(u & s3 & _ & H)]; [done|]. by apply jr_abort_powerless in H.
  - by apply jr_abort_powerless in H.
Qed.

(** ** Theorems *)

(** Construction of the journaled runtime is exact and all-or-nothing.
    [JournaledRuntime::new_supervised] succeeds exactly on contexts with the two
    expected identities and generations and non-zero roots; what it returns
    satisfies the invariant and the validator, its journal is live and empty,
    and the supervisor holds exactly one journal capability while the workload
    holds none.  A publication that fails, at whatever step, leaves both tasks
    dead without capabilities and the journal cleared; each of the seven
    injected failures is reported. *)
Theorem journaled_construction_exact s0 s1 :
  ((exists s, JournaledRuntime_new_supervised s0 s1 = Ok s) <-> sup_contexts s0 s1) /\
  (forall s, JournaledRuntime_new_supervised s0 s1 = Ok s ->
     jr_inv s /\ jr_validate s = Ok tt /\
     ej_state (jr_journal s) = JournalLive /\ committed (jr_journal s) = [] /\
     journal_entries (caps0 (jr_runtime s)) = 1 /\ journal_entries (caps1 (jr_runtime s)) = 0) /\
  (forall fail s e s', jr_publish_supervisor fail s = (Err e, s') -> jr_powerless s') /\
  (forall k, (k <= 6)%nat -> sup_contexts s0 s1 ->
     fst (jr_publish_supervisor (Some k)
            (mkJournaledRuntime (unpublished_supervised s0 s1) journal_building)) = Err PublicationFailure).
Proof.
  split_and!.
  - split; [intros [s Hs]; by eapply jr_new_accepts|]. intros H. eexists. by apply jr_new_eq.
  - intros s Hs. pose proof (jr_new_accepts _ _ _ Hs) as Hc. rewrite jr_new_eq in Hs by done.
    injection Hs as <-. pose proof (jr_initial_inv s0 s1 Hc) as Hi.
    split; [done|]. split; [by apply j_inv_validate, Hi|]. done.
  - intros fail s e s'. apply jr_publish_Err.
  - intros k Hk (_ & _ & Hg0 & Hg1 & _). unfold unpublished_supervised. rewrite Hg0, Hg1.
    destruct k as [|[|[|[|[|[|[|k]]]]]]]; [..|lia]; reflexivity.
Qed.
