(* ===== verification/JournaledTheorems.v ===== *)
(** * Theorems about the journaled runtime *)

From S2P Require Import Prelude RuntimeTypes Capability CapabilityProofs Journal JournalProofs.
From S2P Require Import Runtime RuntimeOps Journaled RuntimeFrame RuntimeInv RuntimeProgress.
From S2P Require Import SupervisedProgress RuntimeTeardown RuntimeConstruct RuntimeTheorems Ipc.
From S2P Require Import Approval JournaledInv JournaledTraps JournaledTeardown.
From S2P Require Import JournaledTeardown.

(** ** Runs of the kernel *)

Inductive jr_step (s s' : JournaledRuntime) : Prop :=
| js_dispatch task :
    none_active (jr_runtime s) -> jr_dispatch_next s = (Ok (Some task), s') -> jr_step s s'
| js_capture task frame root generation :
    root <> 0 -> jr_capture_trap task frame root generation s = (Ok tt, s') -> jr_step s s'
| js_trap task outcome :
    jr_handle_trap task s = (Ok outcome, s') -> jr_step s s'
| js_begin task :
    jr_begin_teardown task s = (Ok tt, s') -> jr_step s s'
| js_complete task next :
    jr_complete_teardown task s = (Ok next, s') -> jr_step s s'
| js_reclaim :
    finish_reclamation s = (Ok tt, s') -> jr_step s s'.

Lemma on_runtime_Ok {A} (m : M Runtime RuntimeError A) s a s' :
  on_runtime m s = (Ok a, s') ->
  exists r', m (jr_runtime s) = (Ok a, r') /\ s' = jr_set_runtime r' s.
Proof. unfold on_runtime. destruct (m (jr_runtime s)) as [res r']. intros [= -> <-]. eauto. Qed.

Lemma keeps_capture {X} (f : Runtime -> X) `{!GlobalProjection f} x task frame root generation :
  keeps f x (capture_trap task frame root generation).
Proof. unfold capture_trap. keeps_solve. Qed.

(** Somebody is running or ready, so the journal has not been reclaimed. *)
Lemma alive_not_dead s task :
  j_inv s -> valid_task task -> ts_state (task_slot (jr_runtime s) task) <> TaskDead ->
  ej_state (jr_journal s) <> JournalDead.
Proof.
  intros [_ _ _ _ Hph] Ht Hn Hd. rewrite Hd in Hph. destruct Hph as [H0 H1].
  by destruct Ht as [-> | ->].
Qed.

Section Steps.
Variables (s : JournaledRuntime).
Hypothesis Hinv : jr_inv s.

Let r := jr_runtime s.
Let Hi : rt_inv r := ji_runtime _ (proj1 Hinv).
Let Hp : rt_profile r = Supervised := ji_profile _ (proj1 Hinv).

Lemma dispatch_step s' task :
  none_active r -> jr_dispatch_next s = (Ok (Some task), s') ->
  jr_inv s' /\ committed (jr_journal s') = committed (jr_journal s).
Proof.
  intros Hna (r' & Hd & ->)%on_runtime_Ok. split; [|done].
  pose proof (dispatch_step_inv r task r' Hi Hna Hd) as Hi'.
  apply jr_inv_quiet; try done.
  - destruct (ri_sched _ Hi) as ([|x l] & Hq & Hs).
    + by destruct (dispatch_empty _ _ _ Hna Hq Hd).
    + apply (alive_not_dead s x); [apply Hinv|apply (sc_ids _ _ _ Hs); set_solver|].
      assert (Hx : x ∈ x :: l) by set_solver. fold r.
      apply (sched_rt_ready r (x :: l) x) in Hx; [congruence|apply (sc_ids _ _ _ Hs); set_solver|done].
  - rewrite <-Hp. by eapply (keeps_dispatch_next rt_profile).
  - apply tables_tame_eq.
    assert (K : keeps tables (tables r) dispatch_next) by (unfold dispatch_next; keeps_solve).
    by eapply K.
  - by eapply (keeps_dispatch_next rt_broker).
  - by eapply (keeps_dispatch_next rt_effect).
Qed.

Lemma capture_step s' task frame root generation :
  root <> 0 -> jr_capture_trap task frame root generation s = (Ok tt, s') ->
  jr_inv s' /\ committed (jr_journal s') = committed (jr_journal s).
Proof.
  intros Hroot (r' & Hc & ->)%on_runtime_Ok. split; [|done].
  destruct (capture_step_inv r task frame root generation r' Hi Hroot Hc) as [Hi' _].
  apply jr_inv_quiet; try done.
  - pose proof Hc as Hc'. unfold capture_trap in Hc'. apply read_slot_Ok in Hc' as [Ht Hc'].
    head_if_in Hc' E; [done|]. b2p. destruct E as [Hrun _].
    apply (alive_not_dead s task); [apply Hinv|done|congruence].
  - rewrite <-Hp. by eapply (keeps_capture rt_profile).
  - apply tables_tame_eq.
    assert (K : keeps tables (tables r) (capture_trap task frame root generation)).
    { unfold capture_trap. keeps_solve. by apply keeps_tables_slot_mut. }
    by eapply K.
  - by eapply (keeps_capture rt_broker).
  - by eapply (keeps_capture rt_effect).
Qed.

Lemma trap_step s' task o :
  jr_handle_trap task s = (Ok o, s') -> jr_inv s' /\ log_grows s s'.
Proof.
  intros Htr. assert (Hrun : running_task r = Ok task).
  { unfold jr_handle_trap, bindM, readM in Htr. fold r in Htr.
    destruct (running_task r) as [t|]; [|done]. destruct (t =? task) eqn:E; [apply Z.eqb_eq in E; congruence|done]. }
  destruct (jr_trap_progress s task Hinv Hrun) as (o' & s1 & Heq & Hj & _ & Hg).
  rewrite Heq in Htr. by injection Htr as _ <-.
Qed.

Lemma begin_step s' task :
  jr_begin_teardown task s = (Ok tt, s') -> jr_inv s' /\ log_grows s s'.
Proof.
  intros Hb. assert (Hen : valid_task task /\ ts_state (task_slot r task) = Exited /\
    ct_state (ts_capabilities (task_slot r task)) = TableLive).
  { pose proof Hb as Hb'. unfold jr_begin_teardown in Hb'. rewrite getM_step in Hb'.
    unfold bindM at 1, readM in Hb'. fold r in Hb'.
    destruct (slot r task) as [t|] eqn:Hsl; [|done]. apply slot_Ok_valid in Hsl as [Ht ->].
    destruct (is_state Exited (task_slot r task)) eqn:Hex; [|done]. apply is_state_true in Hex.
    split; [done|]. split; [done|].
    destruct (decide (ej_state (jr_journal s) = JournalLive)) as [HL|HL].
    - pose proof (ji_phase _ (proj1 Hinv)) as Hph. rewrite HL in Hph. destruct Hph as ([H0 H1] & _).
      pose proof (si_table_state _ _ (rt_inv_slot r task Ht Hi)) as Hts. rewrite Hex in Hts. simpl in Hts.
      destruct Ht as [-> | ->]; [done|]. unfold caps1 in H1. fold r in H1.
      change (task_slot r 2) with (rt_task1 r) in *. destruct H1, Hts; congruence.
    - rewrite bool_decide_eq_false_2 in Hb' by done. cbn [negb] in Hb'.
      rewrite (bindM_step _ _ _ tt s), getM_step in Hb' by done. fold r in Hb'.
      destruct (begin_teardown task r) as [[[]|] r1] eqn:Hbt; [|done].
      by eapply begin_teardown_live. }
  destruct Hen as (Ht & Hex & HL).
  destruct (jr_begin_ok s task Hinv Ht Hex HL) as (r' & Heq & Hj & _ & _ & Hg).
  rewrite Heq in Hb. by injection Hb as <-.
Qed.

Lemma complete_step s' task next :
  jr_complete_teardown task s = (Ok next, s') ->
  jr_inv s' /\ committed (jr_journal s') = committed (jr_journal s).
Proof.
  intros Hc. pose proof Hc as Hc'. unfold jr_complete_teardown in Hc'. rewrite getM_step in Hc'.
  fold r in Hc'. destruct (complete_teardown task r) as [[n|] r1] eqn:Hct; [|done].
  destruct (complete_teardown_enabled r task n r1 Hi Hct) as (Ht & Hex & HC & Hns).
  destruct (jr_complete_ok s task Hinv Ht Hex HC Hns) as (n' & r' & Heq & Hj & _).
  rewrite Heq in Hc. injection Hc as _ <-. done.
Qed.

Lemma reclaim_step s' :
  finish_reclamation s = (Ok tt, s') -> jr_inv s' /\ ej_state (jr_journal s') = JournalDead.
Proof.
  rewrite reclaim_eq by done. destruct (decide _) as [(_ & H0 & H1)|]; [|done].
  intros [= <-]. split; [by apply reclaimed_inv|done].
Qed.
End Steps.

Lemma jr_step_inv s s' : jr_inv s -> jr_step s s' -> jr_inv s'.
Proof.
  intros Hinv [task Hna Hd|task f root g Hroot Hc|task o Htr|task Hb|task n Hc|Hr].
  - by eapply dispatch_step.
  - by eapply capture_step.
  - by eapply trap_step.
  - by eapply begin_step.
  - by eapply complete_step.
  - by eapply reclaim_step.
Qed.

(** A step never rewrites the log: it keeps it, appends one record, or clears
    it at reclamation. *)
Lemma jr_step_log s s' :
  jr_inv s -> jr_step s s' -> log_grows s s' \/ ej_state (jr_journal s') = JournalDead.
Proof.
  intros Hinv [task Hna Hd|task f root g Hroot Hc|task o Htr|task Hb|task n Hc|Hr].
  - left. left. by eapply dispatch_step.
  - left. left. by eapply capture_step.
  - left. by eapply trap_step.
  - left. by eapply begin_step.
  - left. left. by eapply complete_step.
  - right. by eapply reclaim_step.
Qed.

Lemma jr_run_inv s s' : jr_inv s -> rtc jr_step s s' -> jr_inv s'.
Proof. intros Hi Hrun. induction Hrun as [|x y z Hxy _ IH]; [done|]. by apply IH, (jr_step_inv x). Qed.

(** ** Concrete runtimes for the witnesses *)

Definition jr_sample : JournaledRuntime :=
  jr_initial (sample_context 1 SUPERVISOR_GENERATION 4096) (sample_context 2 WORKLOAD_GENERATION 8192).

Lemma jr_sample_inv : jr_inv jr_sample.
Proof. by apply jr_initial_inv. Qed.

(** One trap as the kernel performs it: save the registers, handle the trap. *)
Definition jr_captured (task rax rdi rsi rdx : Z) (s : JournaledRuntime) : JournaledRuntime :=
  snd (jr_capture_trap task (call_frame rax rdi rsi rdx) (sup_root task) (sup_generation task) s).

Definition jr_call (task rax rdi rsi rdx : Z) (s : JournaledRuntime) : JournaledRuntime :=
  snd (jr_handle_trap task (jr_captured task rax rdi rsi rdx s)).

Lemma jr_capture_run s0 task rax rdi rsi rdx s :
  rtc jr_step s0 s -> valid_task task ->
  fst (jr_capture_trap task (call_frame rax rdi rsi rdx) (sup_root task) (sup_generation task) s) = Ok tt ->
  rtc jr_step s0 (jr_captured task rax rdi rsi rdx s).
Proof.
  intros Hrun Ht Hc. eapply rtc_r; [done|].
  apply (js_capture _ _ task (call_frame rax rdi rsi rdx) (sup_root task) (sup_generation task)).
  - by destruct Ht as [-> | ->].
  - unfold jr_captured. destruct (jr_capture_trap _ _ _ _ _) as [[[]|] ?]; done.
Qed.

Lemma jr_call_run s0 task rax rdi rsi rdx s :
  rtc jr_step s0 s -> valid_task task ->
  fst (jr_capture_trap task (call_frame rax rdi rsi rdx) (sup_root task) (sup_generation task) s) = Ok tt ->
  is_ok (fst (jr_handle_trap task (jr_captured task rax rdi rsi rdx s))) = true ->
  rtc jr_step s0 (jr_call task rax rdi rsi rdx s).
Proof.
  intros Hrun Ht Hc Ho. eapply rtc_r; [by apply jr_capture_run|]. unfold jr_call.
  destruct (jr_handle_trap task (jr_captured task rax rdi rsi rdx s)) as [[o|] s'] eqn:E; [|done].
  by apply (js_trap _ _ task o).
Qed.

(** The supervisor launches the workload and yields; the workload submits; the
    supervisor approves and commits. *)
Definition jr_dispatched : JournaledRuntime := snd (jr_dispatch_next jr_sample).
Definition jr_launched : JournaledRuntime := jr_call 1 6 16 1 0 jr_dispatched.
Definition jr_yielded : JournaledRuntime := jr_call 1 0 0 0 0 jr_launched.
Definition jr_submitted : JournaledRuntime := jr_call 2 7 16 1 42 jr_yielded.
Definition jr_approved : JournaledRuntime := jr_call 1 9 17 1 1 jr_submitted.
Definition jr_completed : JournaledRuntime := jr_call 1 10 18 1 42 jr_approved.

(** The supervisor exits while a request is pending. *)
Definition jr_abandoned : JournaledRuntime := jr_call 1 3 0 0 0 jr_submitted.

Lemma jr_dispatched_run : rtc jr_step jr_sample jr_dispatched.
Proof.
  eapply rtc_r; [done|]. apply (js_dispatch _ _ 1); [|by vm_compute].
  apply none_active_ready; [by left|by right].
Qed.

Lemma jr_yielded_run : rtc jr_step jr_sample jr_yielded.
Proof.
  apply jr_call_run; [|by left|by vm_compute|by vm_compute].
  apply jr_call_run; [|by left|by vm_compute|by vm_compute]. apply jr_dispatched_run.
Qed.

Lemma jr_submitted_run : rtc jr_step jr_sample jr_submitted.
Proof. apply jr_call_run; [apply jr_yielded_run|by right|by vm_compute|by vm_compute]. Qed.

Lemma jr_completed_run : rtc jr_step jr_sample jr_completed.
Proof.
  apply jr_call_run; [|by left|by vm_compute|by vm_compute].
  apply jr_call_run; [apply jr_submitted_run|by left|by vm_compute|by vm_compute].
Qed.

Lemma jr_abandoned_run : rtc jr_step jr_sample jr_abandoned.
Proof. apply jr_call_run; [apply jr_submitted_run|by left|by vm_compute|by vm_compute]. Qed.

Lemma jr_abandoned_inv : jr_inv jr_abandoned.
Proof. exact (jr_run_inv _ _ jr_sample_inv jr_abandoned_run). Qed.

(** The workload about to submit a request, and about to read the journal. *)
Definition jr_submitting : JournaledRuntime := jr_captured 2 7 16 1 42 jr_yielded.
Definition jr_reading : JournaledRuntime := jr_captured 2 12 16 1 0 jr_yielded.

Lemma jr_submitting_inv : jr_inv jr_submitting.
Proof.
  eapply jr_run_inv; [apply jr_sample_inv|].
  apply jr_capture_run; [apply jr_yielded_run|by right|by vm_compute].
Qed.

Lemma jr_reading_inv : jr_inv jr_reading.
Proof.
  eapply jr_run_inv; [apply jr_sample_inv|].
  apply jr_capture_run; [apply jr_yielded_run|by right|by vm_compute].
Qed.

(** ** Theorems *)

(** C7: every trap of the journaled runtime succeeds.  In a consistent state,
    whatever the registers of the running task hold, [handle_trap] returns [Ok]
    and leaves a consistent state which the validator accepts; the task it names
    is running (or has exited and is to be torn down); and the log of the
    journal is unchanged or extended by exactly one record.  In particular the
    early returns with [JournalInvariant] are unreachable. *)
Theorem journaled_trap_total s task :
  jr_inv s -> running_task (jr_runtime s) = Ok task ->
  exists outcome s',
    jr_handle_trap task s = (Ok outcome, s') /\ jr_inv s' /\ jr_validate s' = Ok tt /\
    outcome_ok task outcome (jr_runtime s') /\ log_grows s s'.
Proof.
  intros Hinv Hrun. destruct (jr_trap_progress s task Hinv Hrun) as (o & s' & Heq & Hj & Ho & Hg).
  exists o, s'. split_and!; try done. by apply j_inv_validate, Hj.
Qed.

(** C8: the journal is a faithful audit log.  In every state reached from a
    freshly constructed journaled runtime by dispatches, trap captures, traps,
    teardowns and reclamation, the run-time validator accepts, and replaying the
    committed records alone succeeds (each record authorised, with the status of
    its kind, the next decision epoch and, for requests, the next sequence
    number); while the journal is live the replay ends in the phase, epoch,
    sequence number and effect occupancy the broker really has, and once it is
    sealed every lifecycle in it is closed.  No step ever rewrites the log. *)
Theorem journal_is_audit_log s0 s1 s :
  JournaledRuntime_new_supervised s0 s1 = Ok s ->
  forall s', rtc jr_step s s' ->
    jr_validate s' = Ok tt /\ audited s' /\
    (forall s'', jr_step s' s'' -> log_grows s' s'' \/ ej_state (jr_journal s'') = JournalDead).
Proof.
  intros Hnew s' Hrun. pose proof (jr_new_accepts _ _ _ Hnew) as Hc. rewrite jr_new_eq in Hnew by done.
  injection Hnew as <-. pose proof (jr_run_inv _ _ (jr_initial_inv s0 s1 Hc) Hrun) as Hinv.
  split; [by apply j_inv_validate, Hinv|]. split; [apply Hinv|]. intros s''. by apply jr_step_log.
Qed.

(** Backpressure is transparent.  A submission the broker would accept is
    refused, with everything but the status register unchanged, when fewer than
    three decision epochs remain ([BrokerUnavailable]) or when the journal has
    no room for a whole lifecycle ([JournalFull]); otherwise it is recorded, two
    more records are reserved for its decision and its outcome, and the
    supervisor runs next. *)
Theorem submission_backpressure s task :
  jr_inv s -> running_task (jr_runtime s) = Ok task ->
  requested (jr_runtime s) task = Some OpSubmitApproval ->
  let r := jr_runtime s in
  let c := context_of r task in
  let j := jr_journal s in
  submit_status r task (tc_rdi c) (tc_rsi c) = None ->
  let refused status :=
    (Ok (OutResume task), jr_set_runtime (upd task (slot_result status 0) r) s) in
  jr_handle_trap task s =
    if U64_MAX - 3 <? ab_decision_epoch (rt_broker r) then refused BrokerUnavailable
    else if 13 <? ej_committed_record_count j + ej_reserved_record_count j then refused JournalFull
    else
      let r' := submitted_state (tc_rsi c) (tc_rdx c) r in
      (Ok (OutSwitch SENDER_TASK_ID),
       mkJournaledRuntime r' (ej_set_reserved 2 (appended (requested_record (rt_broker r')) j))).
Proof.
  intros Hinv Hrun Hop r c j Hs refused. fold r in Hop. pose proof (ji_runtime _ (proj1 Hinv)) as Hi. fold r in Hi.
  pose proof (proj1 (running_task_spec r task Hi) Hrun) as [Ht Hst].
  destruct (handle_trap_ok r task Hi Hrun) as (o & r' & Htr & Hi' & Ho).
  pose proof (trap_arm s task Hinv Hrun o r' Htr) as Harm. cbv zeta in Harm. fold r in Harm. rewrite Hop in Harm.
  destruct (submit_eq _ _ _ _ (tc_rdx c) Hi Ht Hst Hs) as (Ht2 & Hi2 & Ho2 & Heq).
  fold c in Harm. rewrite Heq in Harm. injection Harm as <- <-.
  rewrite (jr_trap_follow s task Hinv Hrun _ _ ltac:(fold r; congruence) ltac:(fold r; congruence) Htr).
  pose proof (follow_submit_eq s task Hinv Hrun _ _ (tc_rdx c) Hs) as Hf. cbv zeta in Hf. fold r j in Hf.
  assert (Hf' : follow_trap s task (context_of r task)
                  (jr_set_runtime (submitted_state (tc_rsi c) (tc_rdx c) r) s) =
                follow_submit s task (jr_set_runtime (submitted_state (tc_rsi c) (tc_rdx c) r) s)).
  { unfold follow_trap. fold (requested r task). by rewrite Hop. }
  rewrite <-Hf' in Hf. clear Hf'.
  destruct (U64_MAX - 3 <? _) eqn:E1; [by apply follow_ends|].
  destruct (13 <? _) eqn:E2; [by apply follow_ends|].
  apply follow_logs; [done|]. eapply (submit_logged s task Hinv Hrun (tc_rdi c)); [done|done| | |done|done].
  - fold r. rewrite (trap_profile _ _ _ _ Htr). apply Hinv.
  - by eapply trap_tables.
Qed.

(** Teardown of the journaled runtime succeeds and closes the log.  For a
    task that exited, [begin_teardown] succeeds; if it is the first teardown, an
    open request is closed by one terminal record (a denial if it was pending,
    an expiry if it was approved) and the journal is sealed with no reservation
    left; the task's capabilities are revoked.  [complete_teardown] then
    succeeds and the other task runs or everything is reset, except that a
    supervisor which never launched its workload is refused with
    [NoRunnableTask] and nothing changes. *)
Theorem journaled_teardown_total s task :
  jr_inv s -> valid_task task ->
  let r := jr_runtime s in
  ts_state (task_slot r task) = Exited -> ct_state (ts_capabilities (task_slot r task)) = TableLive ->
  exists s1,
    jr_begin_teardown task s = (Ok tt, s1) /\ jr_inv s1 /\ ej_state (jr_journal s1) = JournalSealed /\
    committed (jr_journal s1) =
      committed (jr_journal s) ++
        (if bool_decide (ej_state (jr_journal s) = JournalLive) && ab_request_present (rt_broker r)
         then [number (committed (jr_journal s)) (terminal_record (rt_broker r))] else []) /\
    (forall c, c ∈ ct_slots (ts_capabilities (task_slot (jr_runtime s1) task)) -> cs_entry c = None) /\
    (if decide (task = 1 /\ ts_state (rt_task1 (jr_runtime s1)) = Staged)
     then jr_complete_teardown task s1 = (Err NoRunnableTask, s1)
     else exists next s2,
       jr_complete_teardown task s1 = (Ok next, s2) /\ jr_inv s2 /\
       teardown_outcome next (jr_runtime s2) /\ jr_journal s2 = jr_journal s1).
Proof.
  intros Hinv Ht r Hex HL.
  destruct (jr_begin_ok s task Hinv Ht Hex HL) as (r1 & Hb & Hj1 & Htb & Hs1 & _).
  set (s1 := mkJournaledRuntime r1 (teardown_journal s)) in *.
  destruct Htb as (Hi1 & Hex1 & HC & _).
  exists s1. split_and!; try done.
  - unfold s1, teardown_journal, closed_journal. simpl. fold r.
    destruct (decide (ej_state (jr_journal s) = JournalLive)) as [HLv|HLv].
    + rewrite bool_decide_eq_true_2 by done. simpl.
      destruct (ab_request_present (rt_broker r)) eqn:Hpr; [|by rewrite app_nil_r].
      destruct (journal_open s Hinv HLv) as (Hsh & Hwf & Hres & _).
      apply (appended_committed (terminal_record (rt_broker r)) (jr_journal s)); [done|].
      destruct (open_at_teardown s task Hinv Ht Hex Hpr) as (_ & _ & Hcase).
      pose proof (jw_capacity _ Hwf) as Hcap. rewrite Hres in Hcap. unfold expected_reservations in Hcap.
      destruct Hcase as [E|E]; rewrite E in Hcap; lia.
    + rewrite bool_decide_eq_false_2 by done. simpl. by rewrite app_nil_r.
  - by apply (tw_closing _ (si_table _ _ (rt_inv_slot r1 task Ht Hi1))).
  - destruct (decide (task = 1 /\ _)) as [[H1 Hst]|Hns]; [by apply jr_complete_staged|].
    destruct (jr_complete_ok s1 task Hj1 Ht Hex1 HC Hns) as (n & r2 & Hc & Hj2 & Ho & _).
    by exists n, (jr_set_runtime r2 s1).
Qed.

(** reclamation is exact.  [finish_reclamation] clears the journal exactly
    when it is sealed and both tasks are dead; in every other consistent state
    it reports [JournalInvariant] and changes nothing; afterwards the state is
    still consistent. *)
Theorem reclamation_exact s :
  jr_inv s ->
  finish_reclamation s =
    (if decide (ej_state (jr_journal s) = JournalSealed /\
                ts_state (rt_task0 (jr_runtime s)) = TaskDead /\ ts_state (rt_task1 (jr_runtime s)) = TaskDead)
     then (Ok tt, jr_set_journal journal_DEAD s) else (Err JournalInvariant, s)) /\
  jr_inv (snd (finish_reclamation s)).
Proof.
  intros Hinv. rewrite reclaim_eq by done. split; [done|].
  destruct (decide _) as [(_ & H0 & H1)|]; [by apply reclaimed_inv|done].
Qed.

(** Without a journal entry no handle resolves to the journal. *)
Lemma no_journal_handle r task handle g :
  valid_task task -> rt_inv r -> journal_entries (ts_capabilities (task_slot r task)) = 0 ->
  exists st, resolve_object r task handle OBJECT_TYPE_EFFECT_JOURNAL CAPABILITY_RIGHT_READ_EFFECT_JOURNAL
    EFFECT_JOURNAL_OBJECT_ID g = Err st /\ (st = InvalidHandle \/ st = WrongObject \/ st = RightsDenied).
Proof.
  intros Ht Hi Hz. destruct (resolve_object r task handle _ _ _ _) as [[]|st] eqn:Hr.
  - exfalso. unfold resolve_object in Hr. rewrite slot_valid in Hr by done. simpl in Hr.
    destruct (table_resolve_typed _ _ _ _ _ _) as [e|] eqn:He; [|done].
    apply resolve_typed_iff in He as (_ & _ & _ & Hau & _ & _ & Hty & _).
    unfold authority in Hau. destruct (handle_decode handle) as [[i g']|] eqn:Hd; [|done].
    destruct (_ || _); [done|].
    pose proof (si_table _ _ (rt_inv_slot r task Ht Hi)) as Hwf.
    assert (Hin : slot_at (ts_capabilities (task_slot r task)) i ∈ ct_slots (ts_capabilities (task_slot r task)))
      by (by apply slot_at_elem; [|eapply handle_decode_bounds]).
    pose proof (proj1 (countb_zero _ _) Hz _ Hin) as Hb. unfold is_journal_entry in Hb.
    rewrite Hau, Hty in Hb. by rewrite Z.eqb_refl in Hb.
  - eexists. split; [done|]. by eapply resolve_object_err.
Qed.

(** the journal is closed to the workload.  Whatever handle, record number
    and word index the workload passes, a journal read returns a refusal status
    and zeros in its registers, and nothing else changes: no journal content can
    reach the workload. *)
Theorem journal_closed_to_workload s :
  jr_inv s -> running_task (jr_runtime s) = Ok RECEIVER_TASK_ID ->
  requested (jr_runtime s) RECEIVER_TASK_ID = Some OpInspectEffectJournal \/
  requested (jr_runtime s) RECEIVER_TASK_ID = Some OpReadEffectRecord ->
  exists status, status <> StOk /\
    jr_handle_trap RECEIVER_TASK_ID s =
      (Ok (OutResume RECEIVER_TASK_ID),
       jr_set_runtime (upd RECEIVER_TASK_ID (fun t =>
         ts_set_context (context_set_regs (ts_context t) (status_code status) 0 0 0) t) (jr_runtime s)) s).
Proof.
  intros Hinv Hrun Hop. pose proof (proj1 Hinv) as [Hi Hp _ [_ _ He] _].
  set (c := context_of (jr_runtime s) RECEIVER_TASK_ID).
  assert (Heq : exists op, (op = OpInspectEffectJournal \/ op = OpReadEffectRecord) /\
    jr_handle_trap RECEIVER_TASK_ID s = handle_journal_read RECEIVER_TASK_ID op c s).
  { unfold jr_handle_trap. rewrite (readM_step (fun s => running_task (jr_runtime s)) _ _ _ Hrun), Z.eqb_refl.
    cbn [negb]. rewrite (readM_step (fun s => rt_context (jr_runtime s) RECEIVER_TASK_ID) _ _ c) by done.
    change (TrapOperation_parse (tc_rax c)) with (requested (jr_runtime s) RECEIVER_TASK_ID).
    destruct Hop as [-> | ->]; eauto. }
  destruct Heq as (op & Hcase & ->).
  destruct (no_journal_handle (jr_runtime s) 2 (tc_rdi c) (ej_object_generation (jr_journal s))
              (or_intror eq_refl) Hi He) as (st & Hres & Hst).
  assert (Hstat : exists status, status <> StOk /\
    journal_read_status s RECEIVER_TASK_ID op c = Some status).
  { unfold journal_read_status. cbv zeta.
    change RECEIVER_TASK_ID with 2 at 1. rewrite Hres.
    destruct (bool_decide (op = OpInspectEffectJournal) && _); eexists; (split; [|done]); [done|].
    by destruct Hst as [-> | [-> | ->]]. }
  destruct Hstat as (status & Hne & Hstat). exists status. split; [done|].
  unfold handle_journal_read. rewrite getM_step, Hstat.
  destruct (set_journal_output_eq s RECEIVER_TASK_ID Hinv Hrun status 0 0 0) as [Hout _].
  by rewrite (bindM_step _ _ _ _ _ Hout).
Qed.

(** ** Witnesses *)

Lemma journaled_trap_total_witness :
  exists outcome s', jr_handle_trap 2 jr_submitting = (Ok outcome, s') /\ jr_validate s' = Ok tt.
Proof.
  destruct (journaled_trap_total jr_submitting 2 jr_submitting_inv ltac:(vm_compute; reflexivity))
    as (o & s' & Heq & _ & Hv & _).
  exists o, s'. split; assumption.
Defined.

Lemma journal_is_audit_log_witness :
  audited jr_completed /\
  replay (committed (jr_journal jr_completed)) = Some (mkReplayState RpIdle 2 4 true).
Proof.
  split; [|vm_compute; reflexivity].
  refine (proj1 (proj2 (journal_is_audit_log (sample_context 1 SUPERVISOR_GENERATION 4096)
    (sample_context 2 WORKLOAD_GENERATION 8192) jr_sample _ jr_completed jr_completed_run))).
  vm_compute. reflexivity.
Defined.

Lemma submission_backpressure_witness :
  fst (jr_handle_trap 2 jr_submitting) = Ok (OutSwitch SENDER_TASK_ID).
Proof.
  rewrite (submission_backpressure jr_submitting 2 jr_submitting_inv ltac:(vm_compute; reflexivity)
    ltac:(vm_compute; reflexivity) ltac:(vm_compute; reflexivity)).
  vm_compute. reflexivity.
Defined.

Lemma journaled_teardown_total_witness :
  exists s1, jr_begin_teardown 1 jr_abandoned = (Ok tt, s1) /\
    map er_event_kind (committed (jr_journal s1)) = [1; 3].
Proof.
  destruct (journaled_teardown_total jr_abandoned 1 jr_abandoned_inv (or_introl eq_refl)
    ltac:(vm_compute; reflexivity) ltac:(vm_compute; reflexivity)) as (s1 & Hb & _ & _ & Hc & _).
  exists s1. split; [assumption|]. rewrite Hc. vm_compute. reflexivity.
Defined.

Lemma reclamation_exact_witness :
  finish_reclamation jr_abandoned = (Err JournalInvariant, jr_abandoned).
Proof.
  rewrite (proj1 (reclamation_exact jr_abandoned jr_abandoned_inv)).
  destruct (decide _) as [[H _]|_]; [|reflexivity].
  exfalso. revert H. vm_compute. discriminate.
Defined.

Lemma journal_closed_to_workload_witness :
  exists status s', status <> StOk /\ jr_handle_trap 2 jr_reading = (Ok (OutResume 2), s').
Proof.
  assert (Hop : requested (jr_runtime jr_reading) RECEIVER_TASK_ID = Some OpReadEffectRecord)
    by (vm_compute; reflexivity).
  assert (Hrun : running_task (jr_runtime jr_reading) = Ok RECEIVER_TASK_ID) by (vm_compute; reflexivity).
  destruct (journal_closed_to_workload jr_reading jr_reading_inv Hrun (or_intror Hop)) as (st & Hne & Heq).
  eexists st, _. split; [assumption|exact Heq].
Defined.
