(* ===== verification/BootContract.v ===== *)
(** * The boot contract: constants and wire structures

    Models [crates/boot-contract/src/lib.rs]: the constants of the version-1
    handoff, its [repr(C)] structures and their constructors and predicates.
    The sizes and alignments the code takes from [size_of] and [align_of] are
    computed from the field lists by the [repr(C)] layout algorithm. *)

From S2P Require Import Prelude.

(** ** Constants *)

(** [*b"MAKOPA\0\0"] *)
Definition HANDOFF_MAGIC : list Z := [77; 65; 75; 79; 80; 65; 0; 0].
Definition ABI_MAJOR : Z := 1.
Definition ABI_MINOR : Z := 0.
Definition FRAMEBUFFER_PRESENT : Z := 1.
Definition PAGE_SIZE : Z := 4096.
Definition MAX_MEMORY_REGIONS : nat := 1024.

Definition MEMORY_RESERVED : Z := 0.
Definition MEMORY_USABLE : Z := 1.
Definition MEMORY_LOADER_RECLAIMABLE : Z := 2.
Definition MEMORY_ACPI_RECLAIMABLE : Z := 3.
Definition MEMORY_ACPI_NVS : Z := 4.
Definition MEMORY_MMIO : Z := 5.

Definition PIXEL_FORMAT_UNAVAILABLE : Z := 0.
Definition PIXEL_FORMAT_RGB : Z := 1.
Definition PIXEL_FORMAT_BGR : Z := 2.

Definition is_known_memory_kind (kind : Z) : bool := kind <=? MEMORY_MMIO.

(** [!x] on a [u32] *)
Definition not32 (x : Z) : Z := Z.lxor x 4294967295.

(** The range a [u32] inhabits. *)
Definition u32 (x : Z) : Prop := 0 <= x < 4294967296.

(** ** Structures *)

Record BootHandoffHeaderV1 := mkHeader {
  hd_magic : list Z;
  hd_abi_major : Z;
  hd_abi_minor : Z;
  hd_header_size : Z;
  hd_handoff_size : Z;
  hd_flags : Z;
  hd_reserved : Z
}.

Definition header_layout : Layout :=
  repr_c [layout_array 8 layout_u8; layout_u16; layout_u16; layout_u32; layout_u32;
          layout_u32; layout_u64].

Record MemoryRegionV1 := mkRegion {
  mr_physical_start : Z;
  mr_page_count : Z;
  mr_kind : Z;
  mr_attributes : Z
}.

#[global] Instance MemoryRegionV1_eq_dec : EqDecision MemoryRegionV1.
Proof. solve_decision. Defined.

(** [MemoryRegionV1::default()] *)
#[global] Instance MemoryRegionV1_inhabited : Inhabited MemoryRegionV1 :=
  populate (mkRegion 0 0 0 0).

Definition region_layout : Layout :=
  repr_c [layout_u64; layout_u64; layout_u32; layout_u32].

Record FramebufferV1 := mkFramebuffer {
  fb_physical_start : Z;
  fb_byte_length : Z;
  fb_width : Z;
  fb_height : Z;
  fb_stride_pixels : Z;
  fb_pixel_format : Z;
  fb_reserved : Z
}.

Definition framebuffer_layout : Layout :=
  repr_c [layout_u64; layout_u64; layout_u32; layout_u32; layout_u32; layout_u32; layout_u64].

Record BootHandoffV1 := mkHandoff {
  ho_header : BootHandoffHeaderV1;
  ho_memory_regions_address : Z;
  ho_memory_region_count : Z;
  ho_memory_region_entry_size : Z;
  ho_framebuffer : FramebufferV1
}.

Definition handoff_layout : Layout :=
  repr_c [header_layout; layout_u64; layout_u32; layout_u32; framebuffer_layout].

(** ** Constructors and predicates *)

(** [BootHandoffHeaderV1::new] *)
Definition header_new : BootHandoffHeaderV1 :=
  mkHeader HANDOFF_MAGIC ABI_MAJOR ABI_MINOR (layout_size header_layout)
    (layout_size handoff_layout) 0 0.

Definition is_v1 (h : BootHandoffHeaderV1) : bool :=
  bool_decide (hd_magic h = HANDOFF_MAGIC)
  && (hd_abi_major h =? ABI_MAJOR)
  && (hd_abi_minor h =? ABI_MINOR)
  && (hd_header_size h =? layout_size header_layout)
  && (hd_handoff_size h =? layout_size handoff_layout)
  && (Z.land (hd_flags h) (not32 FRAMEBUFFER_PRESENT) =? 0)
  && (hd_reserved h =? 0).

(** [FramebufferV1::is_zero] *)
Definition is_zero (f : FramebufferV1) : bool :=
  (fb_physical_start f =? 0)
  && (fb_byte_length f =? 0)
  && (fb_width f =? 0)
  && (fb_height f =? 0)
  && (fb_stride_pixels f =? 0)
  && (fb_pixel_format f =? 0)
  && (fb_reserved f =? 0).

(** [BootHandoffV1::empty] *)
Definition handoff_empty : BootHandoffV1 :=
  mkHandoff header_new 0 0 (layout_size region_layout)
    (mkFramebuffer 0 0 0 0 0 PIXEL_FORMAT_UNAVAILABLE 0).

Definition is_empty_v1 (h : BootHandoffV1) : bool :=
  is_v1 (ho_header h)
  && (hd_flags (ho_header h) =? 0)
  && (ho_memory_regions_address h =? 0)
  && (ho_memory_region_count h =? 0)
  && (ho_memory_region_entry_size h =? layout_size region_layout)
  && is_zero (ho_framebuffer h).

(** ** Vocabulary shared by the clients of a memory map *)

(** The end of a range of pages, as a mathematical integer. *)
Definition pages_end (start pages : Z) : Z := start + pages * PAGE_SIZE.

(** A region the kernel may rely on: page aligned, not empty, and its end
    representable in a [u64]. *)
Definition range_ok (start pages : Z) : Prop :=
  0 <= start /\ start mod PAGE_SIZE = 0 /\ 0 < pages /\ pages_end start pages < two64.

(** The address [a] lies in the range. *)
Definition in_range (a start pages : Z) : Prop := start <= a < pages_end start pages.

(** Regions in order and disjoint: each ends at or before the next starts. *)
Fixpoint ordered_from (low : Z) (l : list MemoryRegionV1) : Prop :=
  match l with
  | [] => True
  | m :: l' => low <= mr_physical_start m /\
               ordered_from (pages_end (mr_physical_start m) (mr_page_count m)) l'
  end.

(** The well-formedness of one entry. *)
Definition region_ok (m : MemoryRegionV1) : Prop :=
  range_ok (mr_physical_start m) (mr_page_count m) /\
  is_known_memory_kind (mr_kind m) = true /\ mr_attributes m = 0.

Definition region_map_ok (l : list MemoryRegionV1) : Prop :=
  Forall region_ok l /\ ordered_from 0 l.

(** The fields of a region are machine integers. *)
Definition region_typed (m : MemoryRegionV1) : Prop :=
  u64 (mr_physical_start m) /\ u64 (mr_page_count m) /\ u32 (mr_kind m) /\ u32 (mr_attributes m).

(** The byte [x] belongs to a usable region. *)
Definition usable (regions : list MemoryRegionV1) (x : Z) : Prop :=
  exists m, m ∈ regions /\ mr_kind m = MEMORY_USABLE /\
            in_range x (mr_physical_start m) (mr_page_count m).

Lemma usable_cons m regions x :
  usable (m :: regions) x <->
  (mr_kind m = MEMORY_USABLE /\ in_range x (mr_physical_start m) (mr_page_count m)) \/
  usable regions x.
Proof.
  unfold usable. split.
  - intros (m' & [->|Hm]%elem_of_cons & H); [by left|right; eauto].
  - intros [H|(m' & Hm & H)]; [exists m; split; [left|done]|]. exists m'. split; [by right|done].
Qed.

(** The lower bound [low] that the [previous_start] and [previous_end] locals of
    the checking loops enforce on the next region. *)
Definition prior_bound (previous_start previous_end : option Z) (low : Z) : Prop :=
  match previous_start, previous_end with
  | Some s, Some e => s <= low /\ e = low
  | None, None => low = 0
  | _, _ => False
  end.

Lemma prior_bound_next s e : s <= e -> prior_bound (Some s) (Some e) e.
Proof. done. Qed.

(** The sizes the ABI fixes, as the layout algorithm computes them. *)
Lemma layouts_abi :
  header_layout = mkLayout 32 8 /\ region_layout = mkLayout 24 8 /\
  framebuffer_layout = mkLayout 40 8 /\ handoff_layout = mkLayout 88 8.
Proof. repeat split; vm_compute; reflexivity. Qed.
