(* ===== verification/FrameAllocator.v ===== *)
(** * The physical frame allocator

    Models [crates/frame-allocator/src/lib.rs] in full: the extent arrays with
    their lengths, the two-pass initialisation, lowest-address allocation and
    the coalescing free.  Indexing and plain arithmetic panic as in
    [Panic]. *)

From S2P Require Import Prelude.
From S2P Require Import BootContract.
From S2P Require Import Panic.

Definition MAX_FRAME_EXTENTS : nat := MAX_MEMORY_REGIONS.

Record Extent := mkExtent { physical_start : Z; page_count : Z }.

#[global] Instance Extent_eq_dec : EqDecision Extent.
Proof. solve_decision. Defined.

Definition Extent_EMPTY : Extent := mkExtent 0 0.

Definition extent_end (e : Extent) : option Z :=
  bytes ← checked_mul (page_count e) PAGE_SIZE; checked_add (physical_start e) bytes.

Definition contains_frame (e : Extent) (start frame_end : Z) : bool :=
  match extent_end e with
  | Some extent_end => (physical_start e <=? start) && (frame_end <=? extent_end)
  | None => false
  end.

Inductive InitError :=
| ZeroPages | Unaligned | RangeOverflow | OutOfOrder | Overlap | UnknownKind | Attributes
| CapacityExceeded.

Inductive AllocateError := Exhausted | InvariantOverflow.

Inductive FreeError :=
| FreeUnaligned | AddressOverflow | Unmanaged | Duplicate | FreeCapacityExceeded.

#[global] Instance InitError_eq_dec : EqDecision InitError.
Proof. solve_decision. Defined.
#[global] Instance AllocateError_eq_dec : EqDecision AllocateError.
Proof. solve_decision. Defined.
#[global] Instance FreeError_eq_dec : EqDecision FreeError.
Proof. solve_decision. Defined.

Record FrameAllocator := mkAllocator {
  fa_managed : list Extent;
  fa_managed_len : nat;
  fa_free : list Extent;
  fa_free_len : nat
}.

(** [FrameAllocator::new] *)
Definition allocator_new : FrameAllocator :=
  mkAllocator (replicate MAX_FRAME_EXTENTS Extent_EMPTY) 0
              (replicate MAX_FRAME_EXTENTS Extent_EMPTY) 0.

(** ** Initialisation *)

(** The loop of [validate_and_count_extents], over its four mutable locals. *)
Fixpoint validate_loop (regions : list MemoryRegionV1)
    (previous_start previous_end previous_usable_end : option Z) (extent_count : Z)
    : result Z InitError :=
  match regions with
  | [] => Ok extent_count
  | region :: rest =>
      if mr_page_count region =? 0 then Err ZeroPages else
      if negb (is_multiple_of (mr_physical_start region) PAGE_SIZE) then Err Unaligned else
      if negb (is_known_memory_kind (mr_kind region)) then Err UnknownKind else
      if negb (mr_attributes region =? 0) then Err Attributes else
      let? end_ := ok_or (bytes ← checked_mul (mr_page_count region) PAGE_SIZE;
                          checked_add (mr_physical_start region) bytes) RangeOverflow in
      if match previous_start with
         | Some start => mr_physical_start region <? start | None => false end
      then Err OutOfOrder else
      if match previous_end with
         | Some prior_end => mr_physical_start region <? prior_end | None => false end
      then Err Overlap else
      if mr_kind region =? MEMORY_USABLE then
        if negb (bool_decide (previous_usable_end = Some (mr_physical_start region))) then
          let? extent_count := ok_or (checked_add extent_count 1) CapacityExceeded in
          if Z.of_nat MAX_FRAME_EXTENTS <? extent_count then Err CapacityExceeded else
          validate_loop rest (Some (mr_physical_start region)) (Some end_) (Some end_)
            extent_count
        else
          validate_loop rest (Some (mr_physical_start region)) (Some end_) (Some end_)
            extent_count
      else
        validate_loop rest (Some (mr_physical_start region)) (Some end_) None extent_count
  end.

Definition validate_and_count_extents (regions : list MemoryRegionV1) : result Z InitError :=
  validate_loop regions None None None 0.

(** [extent.page_count += pages] *)
Definition add_pages (pages : Z) (e : Extent) : option Extent :=
  n ← checked_add (page_count e) pages; Some (mkExtent (physical_start e) n).

(** The body of the fill loop of [initialize]. *)
Definition fill_region (fa : FrameAllocator) (region : MemoryRegionV1) : option FrameAllocator :=
  if negb (mr_kind region =? MEMORY_USABLE) then Some fa else
  can_merge ←
    (if (fa_managed_len fa =? 0)%nat then Some false else
     index ← index_pred (fa_managed_len fa);
     last ← array_get (fa_managed fa) index;
     Some (bool_decide (extent_end last = Some (mr_physical_start region))));
  if (can_merge : bool) then
    index ← index_pred (fa_managed_len fa);
    managed ← array_update (fa_managed fa) index (add_pages (mr_page_count region));
    free ← array_update (fa_free fa) index (add_pages (mr_page_count region));
    Some (mkAllocator managed (fa_managed_len fa) free (fa_free_len fa))
  else
    let extent := mkExtent (mr_physical_start region) (mr_page_count region) in
    managed ← array_set (fa_managed fa) (fa_managed_len fa) extent;
    free ← array_set (fa_free fa) (fa_free_len fa) extent;
    Some (mkAllocator managed (S (fa_managed_len fa)) free (S (fa_free_len fa))).

Fixpoint fill (regions : list MemoryRegionV1) (fa : FrameAllocator) : option FrameAllocator :=
  match regions with
  | [] => Some fa
  | region :: rest => fa' ← fill_region fa region; fill rest fa'
  end.

Definition initialize (regions : list MemoryRegionV1) (fa : FrameAllocator)
    : option (result unit InitError * FrameAllocator) :=
  match validate_and_count_extents regions with
  | Err e => Some (Err e, fa)
  | Ok extent_count =>
      fa' ← fill regions (mkAllocator (fa_managed fa) 0 (fa_free fa) 0);
      _ ← debug_assert (Z.of_nat (fa_managed_len fa') =? extent_count);
      _ ← debug_assert (Z.of_nat (fa_free_len fa') =? extent_count);
      Some (Ok tt, fa')
  end.

(** ** Allocation *)

(** [for next in index + 1..free_len { free[next - 1] = free[next] }], with
    [steps] the iterations left. *)
Fixpoint shift_down (steps next : nat) (free : list Extent) : option (list Extent) :=
  match steps with
  | O => Some free
  | S steps' =>
      x ← array_get free next;
      prior ← index_pred next;
      free' ← array_set free prior x;
      shift_down steps' (S next) free'
  end.

Definition remove_free_extent (index : nat) (fa : FrameAllocator) : option FrameAllocator :=
  free ← shift_down (fa_free_len fa - (index + 1)) (index + 1) (fa_free fa);
  len ← index_pred (fa_free_len fa);
  Some (mkAllocator (fa_managed fa) (fa_managed_len fa) free len).

Definition set_free (fa : FrameAllocator) (free : list Extent) : FrameAllocator :=
  mkAllocator (fa_managed fa) (fa_managed_len fa) free (fa_free_len fa).

Definition allocate_frame (fa : FrameAllocator)
    : option (result Z AllocateError * FrameAllocator) :=
  if (fa_free_len fa =? 0)%nat then Some (Err Exhausted, fa) else
  first ← array_get (fa_free fa) 0;
  let frame := physical_start first in
  if page_count first =? 1 then
    fa' ← remove_free_extent 0 fa; Some (Ok frame, fa')
  else
    match checked_add frame PAGE_SIZE with
    | None => Some (Err InvariantOverflow, fa)
    | Some next =>
        pages ← checked_sub (page_count first) 1;
        free ← array_set (fa_free fa) 0 (mkExtent next pages);
        Some (Ok frame, set_free fa free)
    end.

(** ** Release *)

(** The [while] loop that looks for the insertion point, and the test after it. *)
Fixpoint find_insertion (fuel insertion : nat) (fa : FrameAllocator) (start frame_end : Z)
    : option (result nat FreeError) :=
  match fuel with
  | O => None
  | S fuel' =>
      if (insertion <? fa_free_len fa)%nat then
        e ← array_get (fa_free fa) insertion;
        if physical_start e <? start then
          if contains_frame e start frame_end then Some (Err Duplicate)
          else find_insertion fuel' (S insertion) fa start frame_end
        else if contains_frame e start frame_end then Some (Err Duplicate)
        else Some (Ok insertion)
      else Some (Ok insertion)
  end.

(** [for index in (insertion..free_len).rev() { free[index + 1] = free[index] }] *)
Fixpoint shift_up (steps insertion : nat) (free : list Extent) : option (list Extent) :=
  match steps with
  | O => Some free
  | S steps' =>
      x ← array_get free (insertion + steps');
      free' ← array_set free (S (insertion + steps')) x;
      shift_up steps' insertion free'
  end.

(** The [match (joins_left, joins_right)] of [free_frame]. *)
Definition free_insert (fa : FrameAllocator) (insertion : nat) (joins_left joins_right : bool)
    (start : Z) : option (result unit FreeError * FrameAllocator) :=
  match joins_left, joins_right with
  | true, true =>
      left ← index_pred insertion;
      l ← array_get (fa_free fa) left;
      r ← array_get (fa_free fa) insertion;
      match (pages ← checked_add (page_count l) 1; checked_add pages (page_count r)) with
      | None => Some (Err AddressOverflow, fa)
      | Some merged_pages =>
          free ← array_set (fa_free fa) left (mkExtent (physical_start l) merged_pages);
          fa' ← remove_free_extent insertion (set_free fa free);
          Some (Ok tt, fa')
      end
  | true, false =>
      left ← index_pred insertion;
      l ← array_get (fa_free fa) left;
      match checked_add (page_count l) 1 with
      | None => Some (Err AddressOverflow, fa)
      | Some merged_pages =>
          free ← array_set (fa_free fa) left (mkExtent (physical_start l) merged_pages);
          Some (Ok tt, set_free fa free)
      end
  | false, true =>
      r ← array_get (fa_free fa) insertion;
      match checked_add (page_count r) 1 with
      | None => Some (Err AddressOverflow, fa)
      | Some merged_pages =>
          free ← array_set (fa_free fa) insertion (mkExtent start merged_pages);
          Some (Ok tt, set_free fa free)
      end
  | false, false =>
      if (fa_free_len fa =? MAX_FRAME_EXTENTS)%nat then Some (Err FreeCapacityExceeded, fa) else
      shifted ← shift_up (fa_free_len fa - insertion) insertion (fa_free fa);
      free ← array_set shifted insertion (mkExtent start 1);
      Some (Ok tt, mkAllocator (fa_managed fa) (fa_managed_len fa) free (S (fa_free_len fa)))
  end.

(** Whether the free extent at [insertion] begins where the frame ends. *)
Definition joins_right_at (fa : FrameAllocator) (insertion : nat) (frame_end : Z) : option bool :=
  if (insertion <? fa_free_len fa)%nat then
    e ← array_get (fa_free fa) insertion; Some (physical_start e =? frame_end)
  else Some false.

Definition free_frame (start : Z) (fa : FrameAllocator)
    : option (result unit FreeError * FrameAllocator) :=
  if negb (is_multiple_of start PAGE_SIZE) then Some (Err FreeUnaligned, fa) else
  match checked_add start PAGE_SIZE with
  | None => Some (Err AddressOverflow, fa)
  | Some frame_end =>
      managed ← slice_to (fa_managed fa) (fa_managed_len fa);
      if negb (existsb (fun e => contains_frame e start frame_end) managed) then Some (Err Unmanaged, fa) else
      found ← find_insertion (S (fa_free_len fa)) 0 fa start frame_end;
      match found with
      | Err e => Some (Err e, fa)
      | Ok insertion =>
          if (insertion =? 0)%nat then
            joins_right ← joins_right_at fa insertion frame_end;
            free_insert fa insertion false joins_right start
          else
            left ← index_pred insertion;
            l ← array_get (fa_free fa) left;
            match extent_end l with
            | None => Some (Err AddressOverflow, fa)
            | Some left_end =>
                joins_right ← joins_right_at fa insertion frame_end;
                free_insert fa insertion (left_end =? start) joins_right start
            end
      end
  end.

Definition managed_extent_count (fa : FrameAllocator) : nat := fa_managed_len fa.
Definition free_extent_count (fa : FrameAllocator) : nat := fa_free_len fa.
