(* ===== verification/Extents.v ===== *)
(** * Lists of extents: coverage, canonical form and the shifting loops

    The proof vocabulary of the frame allocator.  [covers] is the set of byte
    addresses a list of extents stands for; [chain] is the canonical form the
    allocator keeps (well-formed extents in increasing order, separated by
    gaps), in which a set of addresses has at most one representation. *)

From S2P Require Import Prelude.
From S2P Require Import BootContract.
From S2P Require Import Panic.
From S2P Require Import FrameAllocator.

Implicit Types (e l r : Extent) (L A B : list Extent) (x a low : Z).

(** The end of an extent, as a mathematical integer. *)
Definition eend e : Z := pages_end (physical_start e) (page_count e).

Definition extent_ok e : Prop := range_ok (physical_start e) (page_count e).

Definition covers L x : Prop := exists e, e ∈ L /\ physical_start e <= x < eend e.

Fixpoint chain low L : Prop :=
  match L with
  | [] => True
  | e :: L' => low < physical_start e /\ extent_ok e /\ chain (eend e) L'
  end.

(** Where a chain starting after [low] ends. *)
Definition tail_end low L : Z := fold_left (fun _ e => eend e) L low.

Ltac extent_unfold :=
  unfold eend, extent_ok, range_ok, pages_end, PAGE_SIZE, two64 in *; simpl in *.

(** ** Machine arithmetic on a well-formed extent *)

Lemma extent_end_ok e : extent_ok e -> extent_end e = Some (eend e).
Proof.
  intros (H0 & Ha & Hp & He). unfold extent_end.
  assert (page_count e * PAGE_SIZE < two64) by (extent_unfold; lia).
  unfold checked_mul. rewrite (proj2 (Z.ltb_lt _ _)) by done. simpl.
  unfold checked_add. rewrite (proj2 (Z.ltb_lt _ _)) by done. done.
Qed.

Lemma contains_frame_ok e a :
  extent_ok e -> a mod PAGE_SIZE = 0 ->
  contains_frame e a (a + PAGE_SIZE) = true <-> physical_start e <= a < eend e.
Proof.
  intros He Ha. unfold contains_frame. rewrite (extent_end_ok e He). b2p.
  destruct He as (H0 & Hm & Hp & He). extent_unfold.
  pose proof (Z.div_mod a 4096) as Hd. pose proof (Z.div_mod (physical_start e) 4096) as Hd'.
  lia.
Qed.

(** ** Coverage *)

Lemma covers_nil x : covers [] x <-> False.
Proof. unfold covers. split; [|done]. intros (e & He & _). by apply elem_of_nil in He. Qed.

Lemma covers_cons e L x : covers (e :: L) x <-> physical_start e <= x < eend e \/ covers L x.
Proof.
  unfold covers. split.
  - intros (e' & [->|He]%elem_of_cons & H); [by left|right; eauto].
  - intros [H|(e' & He & H)]; [exists e; split; [left|done]|]. exists e'. split; [by right|done].
Qed.

Lemma covers_app A B x : covers (A ++ B) x <-> covers A x \/ covers B x.
Proof.
  induction A as [|e A IH]; simpl; [rewrite covers_nil; tauto|].
  rewrite !covers_cons, IH. tauto.
Qed.

(** ** Chains *)

Lemma chain_app low A B : chain low (A ++ B) <-> chain low A /\ chain (tail_end low A) B.
Proof. revert low. induction A as [|e A IH]; intros low; simpl; [tauto|]. rewrite IH. tauto. Qed.

Lemma tail_end_snoc low A e : tail_end low (A ++ [e]) = eend e.
Proof. unfold tail_end. by rewrite fold_left_app. Qed.

Lemma extent_ok_lt e : extent_ok e -> physical_start e + PAGE_SIZE <= eend e.
Proof. extent_unfold. lia. Qed.

Lemma chain_tail low L : chain low L -> low <= tail_end low L.
Proof.
  revert low. induction L as [|e L IH]; intros low; [simpl; lia|].
  intros (Hlow & He & HL). specialize (IH _ HL). apply extent_ok_lt in He.
  unfold tail_end in *. simpl. unfold PAGE_SIZE in *. lia.
Qed.

Lemma chain_weaken low low' L : low' <= low -> chain low L -> chain low' L.
Proof. destruct L; simpl; [done|]. intros H (? & ? & ?). split; [lia|done]. Qed.

Lemma chain_covers_above low L x : chain low L -> covers L x -> low < x.
Proof.
  revert low. induction L as [|e L IH]; intros low; [by rewrite covers_nil|].
  intros (Hlow & He & HL) [H|H]%covers_cons; [lia|].
  specialize (IH _ HL H). apply extent_ok_lt in He. unfold PAGE_SIZE in *. lia.
Qed.

Lemma chain_covers_below low L x : chain low L -> covers L x -> x < tail_end low L.
Proof.
  revert low. induction L as [|e L IH]; intros low; [by rewrite covers_nil|].
  intros (Hlow & He & HL) [H|H]%covers_cons.
  - pose proof (chain_tail _ _ HL). unfold tail_end in *. simpl. lia.
  - apply (IH _ HL H).
Qed.

Lemma chain_elem low L e : chain low L -> e ∈ L -> extent_ok e /\ low < physical_start e.
Proof.
  revert low. induction L as [|e' L IH]; intros low; [intros _ H; by apply elem_of_nil in H|].
  intros (Hlow & He & HL) [->|H]%elem_of_cons; [done|].
  destruct (IH _ HL H) as [? ?]. apply extent_ok_lt in He. unfold PAGE_SIZE in *. split; [done|lia].
Qed.

(** The byte at an aligned address belongs to [L] with its whole frame. *)
Lemma covers_frame low L a x :
  chain low L -> a mod PAGE_SIZE = 0 -> covers L a -> a <= x < a + PAGE_SIZE -> covers L x.
Proof.
  intros HL Ha (e & He & Hc) Hx. exists e. split; [done|].
  destruct (chain_elem _ _ _ HL He) as [Hok _].
  apply (contains_frame_ok e a Hok Ha) in Hc. unfold contains_frame in Hc.
  rewrite (extent_end_ok e Hok) in Hc. b2p. lia.
Qed.

(** ** Uniqueness of the canonical form *)

Lemma chain_head_end low e L : chain low (e :: L) -> ~ covers (e :: L) (eend e).
Proof.
  intros (_ & He & HL) [H|H]%covers_cons; [lia|].
  pose proof (chain_covers_above _ _ _ HL H). lia.
Qed.

Lemma chain_head_eq low e L low' e' L' :
  chain low (e :: L) -> chain low' (e' :: L') ->
  (forall x, covers (e :: L) x <-> covers (e' :: L') x) -> e = e'.
Proof.
  revert low e L low' e' L'.
  assert (Hmin : forall low e L low' e' L', chain low (e :: L) -> chain low' (e' :: L') ->
    (forall x, covers (e :: L) x <-> covers (e' :: L') x) ->
    physical_start e' <= physical_start e).
  { intros low e L low' e' L' (_ & He & HL) (_ & He' & HL') Heq.
    apply extent_ok_lt in He. unfold PAGE_SIZE in He.
    assert (Hc : covers (e' :: L') (physical_start e)).
    { apply Heq, covers_cons. left. lia. }
    apply covers_cons in Hc as [?|Hc]; [lia|]. apply (chain_covers_above _ _ _ HL') in Hc.
    apply extent_ok_lt in He'. unfold PAGE_SIZE in He'. lia. }
  assert (Hend : forall low e L low' e' L', chain low (e :: L) -> chain low' (e' :: L') ->
    (forall x, covers (e :: L) x <-> covers (e' :: L') x) -> physical_start e = physical_start e' ->
    eend e' <= eend e).
  { intros low e L low' e' L' H H' Heq Hs. pose proof (chain_head_end _ _ _ H) as Hn.
    destruct H as (_ & He & _). apply extent_ok_lt in He. unfold PAGE_SIZE in He.
    destruct (Z_le_gt_dec (eend e') (eend e)); [done|]. exfalso. apply Hn, Heq, covers_cons.
    left. lia. }
  intros low e L low' e' L' H H' Heq.
  assert (Hs : physical_start e = physical_start e').
  { apply Z.le_antisymm; eapply Hmin; eauto; intros x; by rewrite Heq. }
  assert (He : eend e = eend e').
  { apply Z.le_antisymm; eapply Hend; eauto; intros x; by rewrite Heq. }
  destruct e, e'. extent_unfold. f_equal; lia.
Qed.

Lemma chain_unique low low' L L' :
  chain low L -> chain low' L' -> (forall x, covers L x <-> covers L' x) -> L = L'.
Proof.
  revert low low' L'. induction L as [|e L IH]; intros low low' [|e' L'] H H' Heq; [done|..].
  - exfalso. destruct H' as (_ & He & _). apply extent_ok_lt in He. unfold PAGE_SIZE in He.
    apply (covers_nil (physical_start e')), Heq, covers_cons. left. lia.
  - exfalso. destruct H as (_ & He & _). apply extent_ok_lt in He. unfold PAGE_SIZE in He.
    apply (covers_nil (physical_start e)), Heq, covers_cons. left. lia.
  - assert (Hhd : e = e') by (eapply chain_head_eq; eauto). subst e'. f_equal.
    destruct H as (_ & _ & H), H' as (_ & _ & H'). apply (IH (eend e) (eend e)); [done..|].
    intros x. specialize (Heq x). rewrite !covers_cons in Heq.
    split; intros Hc.
    + pose proof (chain_covers_above _ _ x H Hc). destruct (proj1 Heq (or_intror Hc)); [lia|done].
    + pose proof (chain_covers_above _ _ x H' Hc). destruct (proj2 Heq (or_intror Hc)); [lia|done].
Qed.

(** ** The shifting loops *)

Lemma shift_down_lookup steps next L :
  (0 < next)%nat -> (next + steps <= length L)%nat ->
  exists L', shift_down steps next L = Some L' /\ length L' = length L /\
    forall j, L' !! j = if ((next - 1 <=? j) && (j <? next - 1 + steps))%nat
                        then L !! (S j) else L !! j.
Proof.
  revert next L. induction steps as [|steps IH]; intros next L Hn Hlen.
  { exists L. split_and!; [done..|]. intros j. case_match eqn:H; b2p; [lia|done]. }
  destruct (lookup_lt_is_Some_2 L next) as [y Hy]; [lia|]. destruct next as [|next]; [lia|].
  simpl. unfold array_get. rewrite Hy. simpl. rewrite array_set_lt by lia. simpl.
  destruct (IH (S (S next)) (<[next := y]> L)) as (L' & HL' & Hlen' & Hlk);
    [lia|rewrite length_insert; lia|].
  exists L'. split_and!; [done|by rewrite Hlen', length_insert|].
  intros j. rewrite Hlk.
  destruct (decide (j = next)) as [->|Hj].
  - rewrite list_lookup_insert_eq by lia.
    case_match eqn:H1; [b2p; lia|]. case_match eqn:H2; b2p; [congruence|lia].
  - rewrite (list_lookup_insert_ne L next j) by done.
    case_match eqn:H1; case_match eqn:H2; b2p; try lia; [|done].
    by rewrite list_lookup_insert_ne by lia.
Qed.

(** Removing an extent deletes it from the live prefix. *)
Lemma remove_free_extent_live fa index :
  (index < fa_free_len fa)%nat -> (fa_free_len fa <= length (fa_free fa))%nat ->
  exists free', remove_free_extent index fa =
      Some (mkAllocator (fa_managed fa) (fa_managed_len fa) free' (fa_free_len fa - 1)) /\
    length free' = length (fa_free fa) /\
    take (fa_free_len fa - 1) free' = delete index (take (fa_free_len fa) (fa_free fa)).
Proof.
  intros Hi Hlen. unfold remove_free_extent.
  destruct (shift_down_lookup (fa_free_len fa - (index + 1)) (index + 1) (fa_free fa))
    as (L' & -> & Hl & Hlk); [lia..|].
  exists L'. simpl. split_and!; [|done|].
  { destruct (fa_free_len fa) as [|n]; [lia|]. simpl. by rewrite Nat.sub_0_r. }
  apply list_eq. intros j. rewrite list_lookup_delete.
  destruct (decide (j < fa_free_len fa - 1)%nat) as [Hj|Hj].
  - rewrite lookup_take_lt by done. rewrite Hlk.
    case_match eqn:Hc; case_match; b2p; rewrite lookup_take_lt by lia; (lia || done).
  - rewrite lookup_take_ge by lia. case_match; rewrite lookup_take_ge by lia; done.
Qed.

Lemma shift_up_lookup steps insertion L :
  (insertion + steps < length L)%nat ->
  exists L', shift_up steps insertion L = Some L' /\ length L' = length L /\
    forall j, L' !! j = if ((insertion <? j) && (j <=? insertion + steps))%nat
                        then L !! (j - 1)%nat else L !! j.
Proof.
  revert L. induction steps as [|steps IH]; intros L Hlen.
  { exists L. split_and!; [done..|]. intros j. case_match eqn:H; b2p; [lia|done]. }
  destruct (lookup_lt_is_Some_2 L (insertion + steps)%nat) as [y Hy]; [lia|].
  simpl. unfold array_get. rewrite Hy. simpl. rewrite array_set_lt by lia. simpl.
  destruct (IH (<[S (insertion + steps) := y]> L)) as (L' & HL' & Hlen' & Hlk);
    [rewrite length_insert; lia|].
  exists L'. split_and!; [done|by rewrite Hlen', length_insert|].
  intros j. rewrite Hlk.
  destruct (decide (j = S (insertion + steps))) as [->|Hj].
  - rewrite list_lookup_insert_eq by lia.
    case_match eqn:H1; [b2p; lia|]. case_match eqn:H2; b2p; [|lia].
    replace (S (insertion + steps) - 1)%nat with (insertion + steps)%nat by lia. done.
  - rewrite (list_lookup_insert_ne L _ j) by done.
    case_match eqn:H1; case_match eqn:H2; b2p; try lia; try done.
    rewrite list_lookup_insert_ne by lia. done.
Qed.

(** Shifting up and writing inserts into the live prefix. *)
Lemma shift_up_live fa insertion e :
  (insertion <= fa_free_len fa)%nat -> (fa_free_len fa < length (fa_free fa))%nat ->
  exists free', (shifted ← shift_up (fa_free_len fa - insertion) insertion (fa_free fa);
                 array_set shifted insertion e) = Some free' /\
    length free' = length (fa_free fa) /\
    take (S (fa_free_len fa)) free' =
      take insertion (take (fa_free_len fa) (fa_free fa)) ++ e ::
      drop insertion (take (fa_free_len fa) (fa_free fa)).
Proof.
  intros Hi Hlen.
  destruct (shift_up_lookup (fa_free_len fa - insertion) insertion (fa_free fa))
    as (L' & -> & Hl & Hlk); [lia|].
  simpl. rewrite array_set_lt by lia. eexists. split_and!; [done|by rewrite length_insert|].
  apply list_eq. intros j. rewrite take_take, Nat.min_l by lia.
  destruct (decide (j < S (fa_free_len fa))%nat) as [Hj|Hj].
  - rewrite lookup_take_lt by done.
    destruct (decide (j = insertion)) as [->|Hne].
    { rewrite list_lookup_insert_eq by lia. rewrite lookup_app_r by (rewrite length_take; lia).
      rewrite length_take. replace (insertion - _)%nat with 0%nat by lia. done. }
    rewrite list_lookup_insert_ne by done. rewrite Hlk. case_match eqn:Hc; b2p.
    + rewrite lookup_app_r by (rewrite length_take; lia). rewrite length_take.
      rewrite Nat.min_l by lia. replace (j - insertion)%nat with (S (j - insertion - 1)) by lia.
      simpl. rewrite lookup_drop, lookup_take_lt by lia. f_equal. lia.
    + rewrite lookup_app_l by (rewrite length_take; lia). rewrite lookup_take_lt by lia. done.
  - rewrite lookup_take_ge by lia. symmetry. apply lookup_ge_None_2.
    rewrite length_app. simpl. rewrite length_drop, !length_take. lia.
Qed.
