(* ===== verification/FrameInit.v ===== *)
(** * The frame allocator: invariant and initialisation

    The invariant of the allocator, and the two passes of [initialize]: the
    validating pass accepts exactly the well-formed memory maps that fit, and
    the fill that follows it cannot panic and covers exactly the usable
    frames. *)

From S2P Require Import Prelude.
From S2P Require Import BootContract.
From S2P Require Import Panic.
From S2P Require Import FrameAllocator.
From S2P Require Import Extents.

Implicit Types (m : MemoryRegionV1) (regions : list MemoryRegionV1) (L : list Extent).

(** ** State *)

Definition live_managed (fa : FrameAllocator) : list Extent :=
  take (fa_managed_len fa) (fa_managed fa).
Definition live_free (fa : FrameAllocator) : list Extent :=
  take (fa_free_len fa) (fa_free fa).

(** The arrays have their declared size and the lengths stay within it. *)
Definition arrays_ok (fa : FrameAllocator) : Prop :=
  length (fa_managed fa) = MAX_FRAME_EXTENTS /\ length (fa_free fa) = MAX_FRAME_EXTENTS /\
  (fa_managed_len fa <= MAX_FRAME_EXTENTS)%nat /\ (fa_free_len fa <= MAX_FRAME_EXTENTS)%nat.

Definition fa_inv (fa : FrameAllocator) : Prop :=
  arrays_ok fa /\ chain (-1) (live_managed fa) /\ chain (-1) (live_free fa) /\
  forall x, covers (live_free fa) x -> covers (live_managed fa) x.

(** ** The number of extents that usable memory needs *)

(** The number of maximal runs of adjacent usable regions, after a usable
    region that ended at [prev]. *)
Fixpoint usable_runs (prev : option Z) (regions : list MemoryRegionV1) : Z :=
  match regions with
  | [] => 0
  | m :: rest =>
      let end_ := pages_end (mr_physical_start m) (mr_page_count m) in
      if mr_kind m =? MEMORY_USABLE then
        (if bool_decide (prev = Some (mr_physical_start m)) then 0 else 1)
        + usable_runs (Some end_) rest
      else usable_runs None rest
  end.

Lemma usable_runs_nonneg prev regions : 0 <= usable_runs prev regions.
Proof.
  revert prev. induction regions as [|m rest IH]; intros prev; simpl; [lia|].
  pose proof (IH (Some (pages_end (mr_physical_start m) (mr_page_count m)))).
  pose proof (IH None). repeat case_match; lia.
Qed.

Lemma usable_runs_le prev regions : usable_runs prev regions <= Z.of_nat (length regions).
Proof.
  revert prev. induction regions as [|m rest IH]; intros prev; simpl; [lia|].
  pose proof (IH (Some (pages_end (mr_physical_start m) (mr_page_count m)))).
  pose proof (IH None). repeat case_match; lia.
Qed.

(** A region that is not usable leaves one extent fewer to fill. *)
Lemma usable_runs_lt prev regions m :
  m ∈ regions -> mr_kind m <> MEMORY_USABLE -> usable_runs prev regions < Z.of_nat (length regions).
Proof.
  intros Hm Hk. revert prev. induction Hm as [m rest|m m' rest Hm IH]; intros prev; cbn [usable_runs length].
  - rewrite (proj2 (Z.eqb_neq _ _) Hk). pose proof (usable_runs_le None rest). lia.
  - specialize (IH Hk). pose proof (IH None).
    pose proof (IH (Some (pages_end (mr_physical_start m') (mr_page_count m')))).
    repeat case_match; lia.
Qed.

(** ** The validating pass *)

(** The end the loop computes is the mathematical one, or the range overflows. *)
Lemma page_range_end start pages :
  0 <= start -> 0 <= pages ->
  (bytes ← checked_mul pages PAGE_SIZE; checked_add start bytes) =
  if pages_end start pages <? two64 then Some (pages_end start pages) else None.
Proof.
  intros Hs Hp. unfold pages_end, checked_mul, PAGE_SIZE.
  destruct (pages * 4096 <? two64) eqn:E; simpl; [done|]. b2p.
  rewrite (proj2 (Z.ltb_ge _ _)) by lia. done.
Qed.

(** One entry: the guards of the loop before it looks at the kind. *)
Lemma validate_loop_cons m rest ps pe pu n low :
  region_typed m -> prior_bound ps pe low ->
  let start := mr_physical_start m in
  let end_ := pages_end start (mr_page_count m) in
  (region_ok m /\ low <= start /\
   validate_loop (m :: rest) ps pe pu n =
     if mr_kind m =? MEMORY_USABLE then
       if bool_decide (pu = Some start) then
         validate_loop rest (Some start) (Some end_) (Some end_) n
       else
         let? n' := ok_or (checked_add n 1) CapacityExceeded in
         if Z.of_nat MAX_FRAME_EXTENTS <? n' then Err CapacityExceeded else
         validate_loop rest (Some start) (Some end_) (Some end_) n'
     else validate_loop rest (Some start) (Some end_) None n)
  \/ (~ (region_ok m /\ low <= start) /\
      exists e, validate_loop (m :: rest) ps pe pu n = Err e).
Proof.
  intros (Hs & Hp & _ & _) Hb start end_. unfold u64 in *. simpl.
  unfold region_ok, range_ok, is_multiple_of. fold start end_.
  destruct (Z.eqb_spec (mr_page_count m) 0); [right; split; [lia|eauto]|].
  destruct (Z.eqb_spec (start mod PAGE_SIZE) 0); [simpl|right; split; [tauto|eauto]].
  destruct (is_known_memory_kind (mr_kind m)) eqn:Hk; simpl; [|right; split; [naive_solver|eauto]].
  destruct (Z.eqb_spec (mr_attributes m) 0); simpl; [|right; split; [tauto|eauto]].
  rewrite page_range_end by (unfold start in *; lia). fold end_.
  destruct (Z.ltb_spec end_ two64); simpl; [|right; split; [lia|eauto]].
  destruct ps as [s|], pe as [pe|]; simpl in Hb; try done.
  - destruct (Z.ltb_spec start s); [right; split; [lia|eauto]|].
    destruct (Z.ltb_spec start pe); [right; split; [lia|eauto]|].
    left. split_and!; try done; try lia. case_match; [|done]. by case_bool_decide.
  - left. split_and!; try done; try lia. case_match; [|done]. by case_bool_decide.
Qed.

Lemma validate_loop_spec regions ps pe pu n low :
  Forall region_typed regions -> prior_bound ps pe low -> 0 <= n <= Z.of_nat MAX_FRAME_EXTENTS ->
  (Forall region_ok regions /\ ordered_from low regions /\
   n + usable_runs pu regions <= Z.of_nat MAX_FRAME_EXTENTS /\
   validate_loop regions ps pe pu n = Ok (n + usable_runs pu regions))
  \/ (~ (Forall region_ok regions /\ ordered_from low regions /\
         n + usable_runs pu regions <= Z.of_nat MAX_FRAME_EXTENTS) /\
      exists e, validate_loop regions ps pe pu n = Err e).
Proof.
  revert ps pe pu n low. induction regions as [|m rest IH]; intros ps pe pu n low Ht Hb Hn.
  { left. simpl. rewrite Z.add_0_r. split_and!; (done || lia). }
  apply Forall_cons in Ht as [Hm Ht].
  destruct (validate_loop_cons m rest ps pe pu n low Hm Hb)
    as [(Hok & Hlow & Heq)|[Hno He]].
  2: { right. split; [|done]. intros ([? _]%Forall_cons & [? _] & _). tauto. }
  rewrite Heq. simpl ordered_from. simpl usable_runs. rewrite Forall_cons.
  set (start := mr_physical_start m) in *. set (end_ := pages_end start (mr_page_count m)) in *.
  assert (Hse : start <= end_).
  { unfold region_ok, range_ok in Hok. unfold end_, pages_end, PAGE_SIZE. fold start in Hok. lia. }
  assert (Hgo : forall pu' k, 0 <= n + k <= Z.of_nat MAX_FRAME_EXTENTS ->
    (Forall region_ok rest /\ ordered_from end_ rest /\
     n + (k + usable_runs pu' rest) <= Z.of_nat MAX_FRAME_EXTENTS /\
     validate_loop rest (Some start) (Some end_) pu' (n + k) = Ok (n + (k + usable_runs pu' rest)))
    \/ (~ (Forall region_ok rest /\ ordered_from end_ rest /\
         n + (k + usable_runs pu' rest) <= Z.of_nat MAX_FRAME_EXTENTS) /\
        exists e, validate_loop rest (Some start) (Some end_) pu' (n + k) = Err e)).
  { intros pu' k Hk. rewrite Z.add_assoc. apply IH; [done|by apply prior_bound_next|done]. }
  destruct (mr_kind m =? MEMORY_USABLE); [case_bool_decide|].
  - destruct (Hgo (Some end_) 0) as [H'|H']; [lia|rewrite Z.add_0_r in H'; tauto..].
  - assert (Hca : checked_add n 1 = Some (n + 1)).
    { apply checked_add_Some. unfold MAX_FRAME_EXTENTS, MAX_MEMORY_REGIONS in Hn. lia. }
    rewrite Hca. cbn beta iota delta [ok_or].
    destruct (Z.ltb_spec (Z.of_nat MAX_FRAME_EXTENTS) (n + 1)) as [Hc|Hc].
    + right. split; [|eauto]. intros (_ & _ & Hr). pose proof (usable_runs_nonneg (Some end_) rest).
      lia.
    + destruct (Hgo (Some end_) 1) as [H'|H']; [lia|tauto..].
  - destruct (Hgo None 0) as [H'|H']; [lia|rewrite Z.add_0_r in H'; tauto..].
Qed.

(** ** The fill pass *)

(** Both arrays hold the list [L]. *)
Definition filled (fa : FrameAllocator) L : Prop :=
  arrays_ok fa /\ fa_managed_len fa = length L /\ fa_free_len fa = length L /\
  live_managed fa = L /\ live_free fa = L.

Definition region_extent m : Extent := mkExtent (mr_physical_start m) (mr_page_count m).

(** Reading the last element through the array. *)
Lemma filled_last fa A l :
  filled fa (A ++ [l]) ->
  fa_managed fa !! length A = Some l /\ fa_free fa !! length A = Some l /\
  fa_managed_len fa = S (length A) /\ fa_free_len fa = S (length A) /\
  (S (length A) <= MAX_FRAME_EXTENTS)%nat.
Proof.
  intros ((_ & _ & Hm & _) & Hml & Hfl & HM & HF). unfold live_managed, live_free in *.
  rewrite length_app in *. simpl in *.
  assert (Hl : (A ++ [l]) !! length A = Some l) by by rewrite lookup_app_r, Nat.sub_diag by done.
  pose proof Hl as Hl'. rewrite <-HM in Hl. rewrite <-HF in Hl'.
  apply lookup_take_Some in Hl as [Hl _], Hl' as [Hl' _]. split_and!; [done..|lia|lia|lia].
Qed.

Lemma take_snoc_update {T} (arr : list T) (A : list T) l y :
  take (S (length A)) arr = A ++ [l] ->
  take (S (length A)) (<[length A := y]> arr) = A ++ [y].
Proof.
  intros H. rewrite take_insert_lt by lia. rewrite H. by rewrite insert_app_r_alt, Nat.sub_diag.
Qed.

Lemma fill_region_merge fa A l m :
  filled fa (A ++ [l]) -> extent_ok l -> mr_kind m = MEMORY_USABLE -> region_ok m ->
  eend l = mr_physical_start m ->
  exists fa', fill_region fa m = Some fa' /\
    filled fa' (A ++ [mkExtent (physical_start l) (page_count l + mr_page_count m)]).
Proof.
  intros HF Hl Hk Hm Hend. pose proof (filled_last _ _ _ HF) as (Hgm & Hgf & Hml & Hfl & Hle).
  unfold fill_region. rewrite Hk, Hml. simpl. unfold array_get. rewrite Hgm. simpl.
  rewrite (extent_end_ok l Hl), Hend, bool_decide_eq_true_2 by done.
  assert (Hadd : add_pages (mr_page_count m) l =
    Some (mkExtent (physical_start l) (page_count l + mr_page_count m))).
  { unfold add_pages. destruct Hm as ((? & ? & ? & ?) & _). extent_unfold.
    unfold checked_add, two64. rewrite (proj2 (Z.ltb_lt _ _)) by lia. done. }
  rewrite (array_update_lt _ _ _ _ _ Hgm Hadd), (array_update_lt _ _ _ _ _ Hgf Hadd). simpl.
  eexists. split; [done|]. destruct HF as ((? & ? & ? & ?) & _ & _ & HM & HL).
  unfold filled, arrays_ok, live_managed, live_free in *. simpl. rewrite Hml, Hfl in *.
  rewrite !length_insert, length_app. simpl. split_and!; try done; try lia;
    eapply take_snoc_update; done.
Qed.

Lemma fill_region_push fa L m :
  filled fa L -> chain (-1) L -> mr_kind m = MEMORY_USABLE -> region_ok m ->
  tail_end (-1) L <> mr_physical_start m -> (length L < MAX_FRAME_EXTENTS)%nat ->
  exists fa', fill_region fa m = Some fa' /\ filled fa' (L ++ [region_extent m]).
Proof.
  intros HF Hc Hk Hm Hend Hlen.
  assert (Hmerge : (if (fa_managed_len fa =? 0)%nat then Some false else
     index ← index_pred (fa_managed_len fa);
     last ← array_get (fa_managed fa) index;
     Some (bool_decide (extent_end last = Some (mr_physical_start m)))) = Some false).
  { destruct L as [|l A _] using rev_ind; [by destruct HF as (_ & -> & _)|].
    pose proof (filled_last _ _ _ HF) as (Hgm & _ & -> & _). simpl. unfold array_get.
    rewrite Hgm. simpl. apply chain_app in Hc as [_ (_ & Hl & _)].
    rewrite tail_end_snoc in Hend. rewrite (extent_end_ok l Hl).
    rewrite bool_decide_eq_false_2; congruence. }
  unfold fill_region. rewrite Hmerge, Hk. simpl. destruct HF as (Ha & Hml & Hfl & HM & HL).
  pose proof Ha as (Hlm & Hlf & Hml' & Hfl'). rewrite Hml, Hfl in *.
  rewrite !array_set_lt by lia. simpl. eexists. split; [done|].
  unfold filled, arrays_ok, live_managed, live_free in *. simpl. rewrite Hml, Hfl in *.
  rewrite !length_insert, !length_app. simpl.
  rewrite !take_push by lia. rewrite HM, HL. split_and!; (done || lia).
Qed.

(** Where the fill loop stands relative to the validating loop. *)
Definition usable_edge L (low : Z) : option Z :=
  if decide (tail_end (-1) L = low) then Some low else None.

Lemma usable_edge_start L low m :
  tail_end (-1) L <= low -> low <= mr_physical_start m ->
  usable_edge L low = Some (mr_physical_start m) <-> tail_end (-1) L = mr_physical_start m.
Proof.
  intros. unfold usable_edge. case_decide.
  - split; [intros [= ?]; lia|]. intros. f_equal. lia.
  - split; [done|]. intros. lia.
Qed.

Lemma usable_edge_at L low : tail_end (-1) L = low -> usable_edge L low = Some low.
Proof. intros. unfold usable_edge. by rewrite decide_True. Qed.

(** Growing the canonical list by one usable region. *)
Lemma grow_merge A l m :
  chain (-1) (A ++ [l]) -> region_ok m -> eend l = mr_physical_start m ->
  let l' := mkExtent (physical_start l) (page_count l + mr_page_count m) in
  chain (-1) (A ++ [l']) /\ eend l' = eend (region_extent m) /\
  forall x, covers (A ++ [l']) x <->
            covers (A ++ [l]) x \/ in_range x (mr_physical_start m) (mr_page_count m).
Proof.
  intros Hc Hm Hend l'. apply chain_app in Hc as [HA (Hlow & Hl & _)].
  assert (He : eend l' = eend (region_extent m)) by (extent_unfold; lia).
  destruct Hm as ((? & ? & ? & ?) & _).
  split_and!; [|done|].
  - apply chain_app. split; [done|]. simpl. split_and!; [done| |done].
    unfold extent_ok, range_ok. fold (eend l'). rewrite He. extent_unfold. lia.
  - intros x. rewrite !covers_app, !covers_cons, !covers_nil, He.
    unfold in_range. extent_unfold. intuition lia.
Qed.

Lemma grow_push L m :
  chain (-1) L -> region_ok m -> tail_end (-1) L < mr_physical_start m ->
  chain (-1) (L ++ [region_extent m]) /\
  forall x, covers (L ++ [region_extent m]) x <->
            covers L x \/ in_range x (mr_physical_start m) (mr_page_count m).
Proof.
  intros Hc (Hm & _) Hend. split.
  - apply chain_app. split; [done|]. simpl. done.
  - intros x. rewrite covers_app, covers_cons, covers_nil.
    unfold in_range, eend, region_extent. simpl. tauto.
Qed.

(** One usable region: the fill appends to or extends the last extent exactly
    when the validating loop counted, respectively did not count, a new one. *)
Lemma fill_region_usable fa L low m :
  filled fa L -> chain (-1) L -> tail_end (-1) L <= low -> low <= mr_physical_start m ->
  mr_kind m = MEMORY_USABLE -> region_ok m ->
  (bool_decide (usable_edge L low = Some (mr_physical_start m)) = false ->
   (length L < MAX_FRAME_EXTENTS)%nat) ->
  exists fa' L', fill_region fa m = Some fa' /\ filled fa' L' /\ chain (-1) L' /\
    tail_end (-1) L' = eend (region_extent m) /\
    length L' = (length L + if bool_decide (usable_edge L low = Some (mr_physical_start m))
                            then 0 else 1)%nat /\
    forall x, covers L' x <-> covers L x \/ in_range x (mr_physical_start m) (mr_page_count m).
Proof.
  intros HF Hc Hle Hlow Hk Hm Hcap. case_bool_decide as Hedge.
  - apply usable_edge_start in Hedge; [|done..].
    destruct L as [|l A _] using rev_ind.
    { destruct Hm as ((? & _) & _). unfold tail_end in *. simpl in *. lia. }
    rewrite tail_end_snoc in *. pose proof Hc as [_ (_ & Hl & _)]%chain_app.
    destruct (fill_region_merge fa A l m) as (fa' & Hf & HF'); [done..|].
    destruct (grow_merge A l m) as (Hc' & He & Hcov); [done..|].
    eexists fa', _. split_and!; [done|done|done| | |done].
    + by rewrite tail_end_snoc.
    + rewrite !length_app. simpl. lia.
  - rewrite usable_edge_start in Hedge by done.
    destruct (fill_region_push fa L m) as (fa' & Hf & HF'); try done; [by apply Hcap|].
    destruct (grow_push L m) as [Hc' Hcov]; [done|done|lia|].
    eexists fa', _. split_and!; [done|done|done|by rewrite tail_end_snoc| |done].
    rewrite length_app. done.
Qed.

Lemma fill_spec regions fa L low :
  filled fa L -> chain (-1) L -> tail_end (-1) L <= low ->
  Forall region_ok regions -> ordered_from low regions ->
  Z.of_nat (length L) + usable_runs (usable_edge L low) regions <= Z.of_nat MAX_FRAME_EXTENTS ->
  exists fa' L', fill regions fa = Some fa' /\ filled fa' L' /\ chain (-1) L' /\
    Z.of_nat (length L') = Z.of_nat (length L) + usable_runs (usable_edge L low) regions /\
    forall x, covers L' x <-> covers L x \/ usable regions x.
Proof.
  revert fa L low. induction regions as [|m rest IH]; intros fa L low HF Hc Hle Hok Hord Hcap.
  { exists fa, L. simpl. split_and!; [done..|lia|]. intros x.
    split; [by left|]. intros [H|(m & Hm & _)]; [done|by apply elem_of_nil in Hm]. }
  apply Forall_cons in Hok as [Hm Hok]. destruct Hord as [Hlow Hord]. simpl in Hcap |- *.
  set (end_ := pages_end _ _) in *.
  assert (Hend : mr_physical_start m < end_).
  { destruct Hm as ((? & ? & ? & ?) & _). unfold end_, pages_end, PAGE_SIZE. lia. }
  destruct (Z.eqb_spec (mr_kind m) MEMORY_USABLE) as [Hk|Hk].
  - pose proof (usable_runs_nonneg (Some end_) rest).
    destruct (fill_region_usable fa L low m) as (fa1 & L1 & -> & HF1 & Hc1 & Ht1 & Hlen1 & Hcov1);
      try done. { intros Hb. rewrite Hb in Hcap. lia. }
    assert (He1 : usable_edge L1 end_ = Some end_) by by apply usable_edge_at.
    destruct (IH fa1 L1 end_) as (fa' & L' & Hf & HF' & Hc' & Hlen' & Hcov'); try done.
    { by rewrite Ht1. }
    { rewrite He1, Hlen1. case_bool_decide; lia. }
    exists fa', L'. split_and!; [done..| |].
    + rewrite Hlen', He1, Hlen1. case_bool_decide; lia.
    + intros x. rewrite Hcov', Hcov1, usable_cons. tauto.
  - assert (He1 : usable_edge L end_ = None) by (unfold usable_edge; rewrite decide_False; lia || done).
    destruct (IH fa L end_) as (fa' & L' & Hf & HF' & Hc' & Hlen' & Hcov'); try done; try lia.
    { by rewrite He1. }
    exists fa', L'. unfold fill_region. rewrite (proj2 (Z.eqb_neq _ _) Hk). simpl.
    split_and!; [done..|by rewrite Hlen', He1|].
    intros x. rewrite Hcov', usable_cons. tauto.
Qed.

(** ** [initialize] as a whole *)

Lemma initialize_full regions fa :
  Forall region_typed regions -> arrays_ok fa ->
  (region_map_ok regions /\ usable_runs None regions <= Z.of_nat MAX_FRAME_EXTENTS /\
   exists fa', initialize regions fa = Some (Ok tt, fa') /\ fa_inv fa' /\
     live_free fa' = live_managed fa' /\
     Z.of_nat (fa_free_len fa') = usable_runs None regions /\
     forall x, covers (live_managed fa') x <-> usable regions x)
  \/ (~ (region_map_ok regions /\ usable_runs None regions <= Z.of_nat MAX_FRAME_EXTENTS) /\
      exists e, initialize regions fa = Some (Err e, fa)).
Proof.
  intros Ht (Hm & Hf & _ & _). unfold initialize, validate_and_count_extents, region_map_ok.
  destruct (validate_loop_spec regions None None None 0 0)
    as [(Hok & Hord & Hcap & ->)|[Hno (e & ->)]]; [done|done|lia| |].
  - left. split_and!; [done..|]. set (fa0 := mkAllocator _ _ _ _).
    assert (HF0 : filled fa0 []) by (unfold filled, arrays_ok; simpl; split_and!; (done || lia)).
    assert (He0 : usable_edge [] 0 = None) by done.
    destruct (fill_spec regions fa0 [] 0) as (fa' & L' & -> & HF' & Hc' & Hlen & Hcov);
      [done|done|done|done|done|rewrite He0; simpl; lia|].
    rewrite He0 in Hlen. simpl in *. destruct HF' as (Ha & Hml & Hfl & HM & HL).
    exists fa'. rewrite Hml, Hfl, Hlen, Z.eqb_refl. simpl.
    unfold fa_inv. rewrite HM, HL. split_and!; try done; try lia.
    intros x. rewrite Hcov, covers_nil. tauto.
  - right. split; [tauto|eauto].
Qed.

Lemma initialize_spec regions fa :
  Forall region_typed regions -> arrays_ok fa ->
  (region_map_ok regions /\ usable_runs None regions <= Z.of_nat MAX_FRAME_EXTENTS /\
   exists fa', initialize regions fa = Some (Ok tt, fa') /\ fa_inv fa' /\
     live_free fa' = live_managed fa' /\
     forall x, covers (live_managed fa') x <-> usable regions x)
  \/ (~ (region_map_ok regions /\ usable_runs None regions <= Z.of_nat MAX_FRAME_EXTENTS) /\
      exists e, initialize regions fa = Some (Err e, fa)).
Proof.
  intros Ht Ha. destruct (initialize_full regions fa Ht Ha)
    as [(? & ? & fa' & ? & ? & ? & _ & ?)|?]; [left|by right]. split_and!; [done..|]. eauto.
Qed.
