(* ===== verification/FrameOps.v ===== *)
(** * The frame allocator: allocation and release

    Under the invariant neither operation panics.  [allocate_frame] removes the
    lowest free frame; [free_frame] rejects exactly the frames that cannot be
    returned and otherwise adds the frame, whichever neighbours it joins. *)

From S2P Require Import Prelude.
From S2P Require Import BootContract.
From S2P Require Import Panic.
From S2P Require Import FrameAllocator.
From S2P Require Import Extents.
From S2P Require Import FrameInit.

Implicit Types (e l r : Extent) (A B : list Extent) (x a : Z) (fa : FrameAllocator).

Lemma page_mod_add x : (x + PAGE_SIZE) mod PAGE_SIZE = x mod PAGE_SIZE.
Proof. unfold PAGE_SIZE. pose proof (Z.mod_add x 1 4096) as H. simpl in H. apply H. lia. Qed.

(** Distinct aligned addresses are a page apart. *)
Lemma aligned_lt a b :
  a mod PAGE_SIZE = 0 -> b mod PAGE_SIZE = 0 -> a < b -> a + PAGE_SIZE <= b.
Proof.
  unfold PAGE_SIZE. intros Ha Hb Hlt. pose proof (Z.div_mod a 4096). pose proof (Z.div_mod b 4096).
  lia.
Qed.

Lemma eend_aligned e : extent_ok e -> eend e mod PAGE_SIZE = 0.
Proof. intros (_ & Ha & _). unfold eend, pages_end. rewrite Z.mod_add; [done|unfold PAGE_SIZE; lia]. Qed.

(** ** Changing only the free list *)

(** [fa'] has the managed extents of [fa] and the free list [L]. *)
Definition refreed fa (L : list Extent) (fa' : FrameAllocator) : Prop :=
  fa_managed fa' = fa_managed fa /\ fa_managed_len fa' = fa_managed_len fa /\
  arrays_ok fa' /\ live_free fa' = L.

Lemma refreed_inv fa L fa' :
  fa_inv fa -> refreed fa L fa' -> chain (-1) L ->
  (forall x, covers L x -> covers (live_managed fa) x) ->
  fa_inv fa' /\ live_managed fa' = live_managed fa.
Proof.
  intros (Ha & Hm & Hf & Hsub) (Hma & Hml & Ha' & HL) Hc Hcov.
  assert (HM : live_managed fa' = live_managed fa) by (unfold live_managed; by rewrite Hma, Hml).
  split; [|done]. unfold fa_inv. by rewrite HM, HL.
Qed.

Lemma live_free_length fa : arrays_ok fa -> length (live_free fa) = fa_free_len fa.
Proof. intros (_ & Hf & _ & Hl). unfold live_free. rewrite length_take. lia. Qed.

Lemma live_free_get fa A e B :
  arrays_ok fa -> live_free fa = A ++ e :: B ->
  array_get (fa_free fa) (length A) = Some e /\ (length A < fa_free_len fa)%nat.
Proof.
  intros Ha HL. assert (Hl : live_free fa !! length A = Some e).
  { rewrite HL, lookup_app_r, Nat.sub_diag by done. done. }
  by apply array_get_live.
Qed.

(** Overwriting the extent at [length A]. *)
Lemma set_free_live fa A e e' B :
  arrays_ok fa -> live_free fa = A ++ e :: B ->
  array_set (fa_free fa) (length A) e' = Some (<[length A := e']> (fa_free fa)) /\
  refreed fa (A ++ e' :: B) (set_free fa (<[length A := e']> (fa_free fa))).
Proof.
  intros Ha HL. destruct (live_free_get _ _ _ _ Ha HL) as [_ Hlt].
  pose proof Ha as (Hm & Hf & Hml & Hfl). split; [apply array_set_lt; lia|].
  unfold refreed, arrays_ok, live_free in *. simpl. rewrite length_insert.
  split_and!; [done..|]. rewrite take_insert_lt by done. rewrite HL.
  rewrite insert_app_r_alt, Nat.sub_diag by done. done.
Qed.

Lemma remove_live fa A e B :
  arrays_ok fa -> live_free fa = A ++ e :: B ->
  exists fa', remove_free_extent (length A) fa = Some fa' /\ refreed fa (A ++ B) fa'.
Proof.
  intros Ha HL. destruct (live_free_get _ _ _ _ Ha HL) as [_ Hlt].
  pose proof Ha as (Hm & Hf & Hml & Hfl).
  destruct (remove_free_extent_live fa (length A)) as (free' & -> & Hlen & Htake); [done|lia|].
  eexists. split; [done|]. unfold refreed, arrays_ok, live_free in *. simpl.
  split_and!; try done; try lia. rewrite Htake, HL. by rewrite delete_middle.
Qed.

(** ** Allocation *)

(** The free list after its lowest frame is taken. *)
Definition pop_frame e B : list Extent :=
  if page_count e =? 1 then B
  else mkExtent (physical_start e + PAGE_SIZE) (page_count e - 1) :: B.

Lemma pop_frame_chain low e B : chain low (e :: B) -> chain low (pop_frame e B).
Proof.
  intros (Hlow & He & HB). pose proof (extent_ok_lt e He) as Hlt. unfold pop_frame.
  case_match eqn:H1; b2p.
  { apply (chain_weaken (eend e)); [unfold PAGE_SIZE in *; lia|done]. }
  destruct He as (Hs0 & Hal & Hp & Hend).
  assert (Hee : forall s p, eend (mkExtent (s + PAGE_SIZE) (p - 1)) = eend (mkExtent s p)).
  { intros. unfold eend, pages_end. simpl. lia. }
  simpl. unfold extent_ok, range_ok. fold (eend (mkExtent (physical_start e + PAGE_SIZE) (page_count e - 1))).
  rewrite !Hee. simpl. rewrite page_mod_add. destruct e. simpl in *.
  split_and!; try done; unfold PAGE_SIZE in *; lia.
Qed.

Lemma pop_frame_covers low e B x :
  chain low (e :: B) ->
  covers (pop_frame e B) x <->
  covers (e :: B) x /\ ~ physical_start e <= x < physical_start e + PAGE_SIZE.
Proof.
  intros (Hlow & He & HB). pose proof (extent_ok_lt e He) as Hlt.
  pose proof (chain_covers_above _ _ x HB) as Habove. unfold pop_frame. rewrite covers_cons.
  case_match eqn:H1; b2p.
  - assert (Hee : eend e = physical_start e + PAGE_SIZE) by (unfold eend, pages_end; lia).
    rewrite <-Hee in *. split; [intros Hx; specialize (Habove Hx); split; [by right|lia]|].
    intros [[?|?] ?]; [lia|done].
  - rewrite covers_cons. unfold eend, pages_end in *. simpl.
    split; [intros [?|Hx]|intros [[?|?] ?]].
    + unfold PAGE_SIZE in *. split; [left|]; lia.
    + specialize (Habove Hx). split; [by right|lia].
    + left. lia.
    + by right.
Qed.

Lemma allocate_pop fa e B :
  fa_inv fa -> live_free fa = e :: B ->
  exists fa', allocate_frame fa = Some (Ok (physical_start e), fa') /\
              refreed fa (pop_frame e B) fa'.
Proof.
  intros (Ha & _ & Hf & _) HL. pose proof (live_free_length fa Ha) as Hlen.
  rewrite HL in Hf, Hlen. simpl in Hlen. destruct Hf as (_ & He & _).
  unfold allocate_frame, pop_frame. rewrite <-Hlen. cbn [Nat.eqb].
  destruct (live_free_get fa [] e B Ha HL) as [Hget _]. simpl in Hget. rewrite Hget. simpl.
  destruct (Z.eqb_spec (page_count e) 1) as [Hone|Hone].
  - destruct (remove_live fa [] e B Ha HL) as (fa' & Hrm & HR). simpl in Hrm, HR.
    rewrite Hrm. simpl. eauto.
  - pose proof (extent_ok_lt e He) as Hlt. destruct He as (_ & _ & Hp & Hend).
    rewrite checked_add_lt by (unfold eend in *; lia).
    rewrite checked_sub_le by lia. simpl.
    destruct (set_free_live fa [] e (mkExtent (physical_start e + PAGE_SIZE) (page_count e - 1)) B
      Ha HL) as [Hset HR]. simpl in Hset, HR. rewrite Hset. simpl. eauto.
Qed.

Lemma allocate_frame_spec fa :
  fa_inv fa ->
  (live_free fa = [] /\ allocate_frame fa = Some (Err Exhausted, fa)) \/
  (exists f fa', allocate_frame fa = Some (Ok f, fa') /\ fa_inv fa' /\
     live_managed fa' = live_managed fa /\ f mod PAGE_SIZE = 0 /\ covers (live_free fa) f /\
     (forall x, covers (live_free fa) x -> f <= x) /\
     forall x, covers (live_free fa') x <-> covers (live_free fa) x /\ ~ f <= x < f + PAGE_SIZE).
Proof.
  intros Hinv. pose proof Hinv as (Ha & _ & Hf & Hsub).
  destruct (live_free fa) as [|e B] eqn:HL.
  { left. split; [done|]. pose proof (live_free_length fa Ha) as Hlen. rewrite HL in Hlen.
    unfold allocate_frame. by rewrite <-Hlen. }
  right. destruct (allocate_pop fa e B Hinv HL) as (fa' & Hall & HR).
  pose proof (fun x => pop_frame_covers (-1) e B x Hf) as Hcov.
  destruct (refreed_inv fa _ fa' Hinv HR) as [Hinv' HM].
  { by apply pop_frame_chain. }
  { intros x Hx. rewrite Hcov in Hx. apply Hsub. tauto. }
  destruct HR as (_ & _ & _ & HL'). destruct Hf as (Hlow & He & HB).
  pose proof (extent_ok_lt e He) as Hlt.
  exists (physical_start e), fa'. rewrite HL'. split_and!; [done..|by destruct He as (_ & ? & _)| | |done].
  - apply covers_cons. unfold PAGE_SIZE in *. lia.
  - intros x [?|Hx]%covers_cons; [lia|]. apply (chain_covers_above _ _ _ HB) in Hx.
    unfold PAGE_SIZE in *. lia.
Qed.

(** ** Release: finding the insertion point *)

(** The frame at [a] fits between [A] and [B]. *)
Definition fits A a B : Prop :=
  tail_end (-1) A <= a /\ match B with [] => True | r :: _ => a + PAGE_SIZE <= physical_start r end.

Lemma find_insertion_spec fuel fa A B a :
  arrays_ok fa -> live_free fa = A ++ B -> chain (-1) (A ++ B) -> a mod PAGE_SIZE = 0 -> 0 <= a ->
  tail_end (-1) A <= a -> (length B < fuel)%nat ->
  (covers B a /\ find_insertion fuel (length A) fa a (a + PAGE_SIZE) = Some (Err Duplicate)) \/
  (~ covers B a /\ exists A' B', find_insertion fuel (length A) fa a (a + PAGE_SIZE)
      = Some (Ok (length A')) /\ A ++ B = A' ++ B' /\ fits A' a B').
Proof.
  intros Harr. revert A B. induction fuel as [|fuel IH]; intros A B HL Hc Hal H0 Hle Hfuel; [lia|].
  pose proof (live_free_length fa Harr) as Hlen. rewrite HL, length_app in Hlen.
  simpl. destruct B as [|e B].
  { simpl in Hlen. rewrite (proj2 (Nat.ltb_ge _ _)) by lia. right.
    rewrite covers_nil. split; [tauto|]. exists A, []. done. }
  destruct (live_free_get fa A e B Harr HL) as [-> Hlt]. rewrite (proj2 (Nat.ltb_lt _ _) Hlt). simpl.
  pose proof Hc as [HA (Hlow & He & HB)]%chain_app.
  pose proof (contains_frame_ok e a He Hal) as Hcf.
  pose proof (chain_covers_above _ _ a HB) as Habove. rewrite covers_cons.
  destruct (contains_frame e a (a + PAGE_SIZE)).
  { left. split; [left; by apply Hcf|]. by case_match. }
  assert (Hn : ~ physical_start e <= a < eend e) by (rewrite <-Hcf; done).
  destruct (Z.ltb_spec (physical_start e) a) as [Hs|Hs].
  - destruct (IH (A ++ [e]) B) as [[? Hf]|(Hn' & A' & B' & Hf & HAB & Hfit)];
      rewrite <-?app_assoc; simpl in *; try done; try lia.
    { rewrite tail_end_snoc. lia. }
    all: rewrite length_app in Hf; simpl in Hf; rewrite Nat.add_1_r in Hf.
    + left. split; [by right|done].
    + right. split; [tauto|]. exists A', B'. rewrite <-app_assoc in HAB. done.
  - right. split; [intros [?|?%Habove]; [done|apply extent_ok_lt in He; unfold PAGE_SIZE in *; lia]|].
    exists A, (e :: B). split_and!; [done..|]. split; [done|].
    apply aligned_lt; [done|by destruct He as (_ & ? & _)|].
    apply extent_ok_lt in He. unfold PAGE_SIZE in *. lia.
Qed.

(** ** Release: the four ways to insert a frame *)

(** What the frame at [a] joins before it: the extents kept, and the start and
    page count of the extent it extends. *)
Definition put_left A a : list Extent * (Z * Z) :=
  match last A with
  | Some l => if eend l =? a then (removelast A, (physical_start l, page_count l)) else (A, (a, 0))
  | None => (A, (a, 0))
  end.

(** What it joins after it. *)
Definition put_right a B : Z * list Extent :=
  match B with
  | r :: B0 => if physical_start r =? a + PAGE_SIZE then (page_count r, B0) else (0, B)
  | [] => (0, B)
  end.

(** The free list with the frame at [a] inserted between [A] and [B]. *)
Definition put_frame A a B : list Extent :=
  let '(A', (start, left_pages)) := put_left A a in
  let '(right_pages, B') := put_right a B in
  A' ++ mkExtent start (left_pages + 1 + right_pages) :: B'.

Lemma put_right_spec low a B right_pages B' :
  chain low B -> match B with [] => True | r :: _ => a + PAGE_SIZE <= physical_start r end ->
  a + PAGE_SIZE < two64 -> put_right a B = (right_pages, B') ->
  let end_ := a + PAGE_SIZE + right_pages * PAGE_SIZE in
  0 <= right_pages /\ end_ < two64 /\ chain end_ B' /\
  forall x, covers B x <-> a + PAGE_SIZE <= x < end_ \/ covers B' x.
Proof.
  intros HB Hr Hmax Heq end_. unfold put_right in Heq. destruct B as [|r B].
  { injection Heq as <- <-. unfold end_. split_and!; try done; try lia.
    intros x. rewrite covers_nil. intuition lia. }
  destruct HB as (_ & Hrok & HB). pose proof Hrok as (_ & _ & Hp & He).
  destruct (Z.eqb_spec (physical_start r) (a + PAGE_SIZE)) as [Hj|Hj]; injection Heq as <- <-.
  - assert (Hend : end_ = eend r) by (unfold end_, eend, pages_end; lia).
    rewrite Hend, <-Hj. split_and!; try done; try lia. intros x. rewrite covers_cons. done.
  - unfold end_. rewrite Z.mul_0_l, Z.add_0_r. split_and!; try done.
    + simpl. split_and!; [lia|done..].
    + intros x. intuition lia.
Qed.

Lemma put_left_spec a A A' start left_pages :
  chain (-1) A -> tail_end (-1) A <= a -> a mod PAGE_SIZE = 0 -> 0 <= a ->
  put_left A a = (A', (start, left_pages)) ->
  0 <= start /\ start mod PAGE_SIZE = 0 /\ 0 <= left_pages /\ start + left_pages * PAGE_SIZE = a /\
  chain (-1) A' /\ tail_end (-1) A' < start /\
  forall x, covers A x <-> covers A' x \/ start <= x < a.
Proof.
  intros HA Hle Hal H0 Heq. unfold put_left in Heq.
  destruct A as [|l A _] using rev_ind; simpl last in Heq.
  { injection Heq as <- <- <-. unfold tail_end in *. simpl in *. split_and!; try done; try lia.
    intros x. rewrite covers_nil. intuition lia. }
  rewrite last_snoc, removelast_last in Heq. rewrite tail_end_snoc in Hle.
  pose proof HA as [HA' (Hlow & (Hl0 & Hlal & Hlp & Hend) & _)]%chain_app.
  destruct (Z.eqb_spec (eend l) a) as [Hj|Hj]; injection Heq as <- <- <-.
  - split_and!; try done; try lia.
    intros x. rewrite covers_app, covers_cons, covers_nil, Hj. tauto.
  - rewrite tail_end_snoc. split_and!; try done; try lia. intros x. intuition lia.
Qed.

Lemma put_frame_spec A a B :
  chain (-1) (A ++ B) -> fits A a B -> a mod PAGE_SIZE = 0 -> 0 <= a -> a + PAGE_SIZE < two64 ->
  chain (-1) (put_frame A a B) /\
  forall x, covers (put_frame A a B) x <-> covers (A ++ B) x \/ a <= x < a + PAGE_SIZE.
Proof.
  intros [HA HB]%chain_app [Hle Hr] Hal H0 Hmax. unfold put_frame.
  destruct (put_left A a) as [A' [start lp]] eqn:EL, (put_right a B) as [rp B'] eqn:ER.
  destruct (put_left_spec a A A' start lp) as (Hs0 & Hsal & Hlp & Hsum & HA' & Htail & HcA); [done..|].
  destruct (put_right_spec _ a B rp B' HB Hr Hmax ER) as (Hrp & Hend & HB' & HcB).
  set (e := mkExtent _ _).
  assert (Hee : eend e = a + PAGE_SIZE + rp * PAGE_SIZE) by (unfold eend, pages_end; simpl; lia).
  split.
  - apply chain_app. split; [done|]. simpl. rewrite Hee. split_and!; [done| |done].
    unfold extent_ok, range_ok. fold (eend e). rewrite Hee. simpl. split_and!; (done || lia).
  - intros x. rewrite !covers_app, covers_cons, HcA, HcB, Hee. simpl. unfold PAGE_SIZE in *.
    intuition lia.
Qed.

(** The array operations of [free_insert] compute [put_frame]. *)

Definition joins_before A a : bool :=
  match last A with Some l => eend l =? a | None => false end.
Definition joins_after a B : bool :=
  match B with r :: _ => physical_start r =? a + PAGE_SIZE | [] => false end.

Lemma pages_bound e : extent_ok e -> page_count e < 4503599627370496.
Proof. extent_unfold. lia. Qed.

Lemma refreed_set fa L L' fa' free :
  refreed (set_free fa free) L fa' -> L = L' -> refreed fa L' fa'.
Proof. intros (Hm & Hml & Ha & HL) <-. done. Qed.

Section FreeInsert.
Context (fa : FrameAllocator) (A B : list Extent) (a : Z).
Hypothesis Ha : arrays_ok fa.
Hypothesis HL : live_free fa = A ++ B.
Hypothesis Hc : chain (-1) (A ++ B).

Lemma free_insert_both A' l r B' :
  A = A' ++ [l] -> B = r :: B' -> eend l = a -> physical_start r = a + PAGE_SIZE ->
  exists fa', free_insert fa (length A) true true a = Some (Ok tt, fa') /\
              refreed fa (put_frame A a B) fa'.
Proof.
  intros HA HB Hl Hr. rewrite HA, HB in *. clear HA HB A B.
  destruct (live_free_get fa _ _ _ Ha HL) as [Hgr _].
  rewrite <-app_assoc in HL. simpl in HL. destruct (live_free_get fa _ _ _ Ha HL) as [Hgl _].
  rewrite <-app_assoc in Hc. apply chain_app in Hc as (_ & _ & Hlok & _ & Hrok & _).
  unfold free_insert. rewrite length_app in *. simpl in *. rewrite Nat.add_1_r in *. simpl.
  rewrite Hgl, Hgr. simpl. pose proof (pages_bound l Hlok). pose proof (pages_bound r Hrok).
  rewrite checked_add_lt by (unfold two64; lia). simpl. rewrite checked_add_lt by (unfold two64; lia).
  simpl. set (e := mkExtent _ _).
  destruct (set_free_live fa A' l e (r :: B') Ha HL) as [-> (Hm1 & Hml1 & Ha1 & HL1)]. simpl.
  replace (A' ++ e :: r :: B') with ((A' ++ [e]) ++ r :: B') in HL1 by by rewrite <-app_assoc.
  destruct (remove_live _ _ _ _ Ha1 HL1) as (fa' & Hrm & HR).
  rewrite length_app in Hrm. simpl in Hrm. rewrite Nat.add_1_r in Hrm. rewrite Hrm. simpl.
  exists fa'. split; [done|]. apply (refreed_set _ _ _ _ _ HR).
  unfold put_frame, put_left, put_right. rewrite last_snoc, removelast_last.
  rewrite (proj2 (Z.eqb_eq _ _) Hl), (proj2 (Z.eqb_eq _ _) Hr). by rewrite <-app_assoc.
Qed.

Lemma free_insert_left A' l :
  A = A' ++ [l] -> eend l = a -> joins_after a B = false ->
  exists fa', free_insert fa (length A) true false a = Some (Ok tt, fa') /\
              refreed fa (put_frame A a B) fa'.
Proof.
  intros HA Hl Hr. rewrite HA in *. clear HA A. rewrite <-app_assoc in *. simpl in *.
  destruct (live_free_get fa _ _ _ Ha HL) as [Hgl _].
  apply chain_app in Hc as (_ & _ & Hlok & _).
  unfold free_insert. rewrite length_app. simpl. rewrite Nat.add_1_r. simpl. rewrite Hgl. simpl.
  pose proof (pages_bound l Hlok). rewrite checked_add_lt by (unfold two64; lia).
  destruct (set_free_live fa A' l (mkExtent (physical_start l) (page_count l + 1)) B Ha HL)
    as [-> HR]. simpl. eexists. split; [done|].
  unfold put_frame, put_left. rewrite last_snoc, removelast_last, (proj2 (Z.eqb_eq _ _) Hl).
  unfold joins_after, put_right in *. destruct B as [|r B']; [|rewrite Hr];
    by rewrite Z.add_0_r.
Qed.

Lemma free_insert_right r B' :
  B = r :: B' -> joins_before A a = false -> physical_start r = a + PAGE_SIZE ->
  exists fa', free_insert fa (length A) false true a = Some (Ok tt, fa') /\
              refreed fa (put_frame A a B) fa'.
Proof.
  intros HB Hl Hr. rewrite HB in *. clear HB B.
  destruct (live_free_get fa _ _ _ Ha HL) as [Hgr _].
  apply chain_app in Hc as (_ & _ & Hrok & _).
  unfold free_insert. rewrite Hgr. simpl.
  pose proof (pages_bound r Hrok). rewrite checked_add_lt by (unfold two64; lia).
  destruct (set_free_live fa A r (mkExtent a (page_count r + 1)) B' Ha HL) as [-> HR]. simpl.
  eexists. split; [done|]. unfold put_frame, put_left, put_right, joins_before in *.
  rewrite (proj2 (Z.eqb_eq _ _) Hr).
  destruct (last A); [rewrite Hl|];
    by replace (0 + 1 + page_count r) with (page_count r + 1) by lia.
Qed.

Lemma free_insert_alone :
  joins_before A a = false -> joins_after a B = false -> fa_free_len fa <> MAX_FRAME_EXTENTS ->
  exists fa', free_insert fa (length A) false false a = Some (Ok tt, fa') /\
              refreed fa (put_frame A a B) fa'.
Proof.
  intros Hl Hr Hcap. pose proof Ha as (Hm & Hf & Hml & Hfl).
  pose proof (live_free_length fa Ha) as Hlen. rewrite HL, length_app in Hlen.
  destruct (shift_up_live fa (length A) (mkExtent a 1)) as (free' & Hsh & Hlen' & Htake); [lia..|].
  unfold free_insert. rewrite (proj2 (Nat.eqb_neq _ _) Hcap).
  destruct (shift_up _ _ _) as [shifted|]; simpl in *; [|done]. rewrite Hsh. simpl.
  eexists. split; [done|]. unfold refreed, arrays_ok, live_free. cbn [fa_managed fa_managed_len fa_free fa_free_len].
  split_and!; try done; try lia. rewrite Htake. fold (live_free fa). rewrite HL.
  rewrite take_app_length, drop_app_length.
  unfold put_frame, put_left, put_right, joins_before, joins_after in *.
  destruct (last A), B; rewrite ?Hl, ?Hr; done.
Qed.

Lemma free_insert_spec :
  let jl := joins_before A a in
  let jr := joins_after a B in
  if negb jl && negb jr && (fa_free_len fa =? MAX_FRAME_EXTENTS)%nat
  then free_insert fa (length A) jl jr a = Some (Err FreeCapacityExceeded, fa)
  else exists fa', free_insert fa (length A) jl jr a = Some (Ok tt, fa') /\
                   refreed fa (put_frame A a B) fa'.
Proof.
  intros jl jr.
  assert (HA : jl = true -> exists A' l, A = A' ++ [l] /\ eend l = a).
  { unfold jl, joins_before. destruct A as [|l A' _] using rev_ind; [done|].
    rewrite last_snoc. intros H. b2p. eauto. }
  assert (HB : jr = true -> exists r B', B = r :: B' /\ physical_start r = a + PAGE_SIZE).
  { unfold jr, joins_after. destruct B; [done|]. intros H. b2p. eauto. }
  destruct jl eqn:Ejl, jr eqn:Ejr; simpl.
  - destruct HA as (A' & l & HA & ?), HB as (r & B' & HB & ?); [done..|]. by eapply free_insert_both.
  - destruct HA as (A' & l & HA & ?); [done|]. by eapply free_insert_left.
  - destruct HB as (r & B' & HB & ?); [done|]. by eapply free_insert_right.
  - destruct (Nat.eqb_spec (fa_free_len fa) MAX_FRAME_EXTENTS) as [Hcap|Hcap].
    + done.
    + by destruct free_insert_alone as (fa' & Hfi & HR);
        [..|unfold free_insert in Hfi; rewrite (proj2 (Nat.eqb_neq _ _) Hcap) in Hfi; eauto].
Qed.
End FreeInsert.

(** ** [free_frame] as a whole *)

(** The joins, told by the coverage of the neighbouring bytes. *)
Lemma joins_before_covers A a B :
  chain (-1) (A ++ B) -> fits A a B -> 0 <= a ->
  joins_before A a = true <-> covers (A ++ B) (a - 1).
Proof.
  intros [HA HB]%chain_app [Hle Hr] H0. unfold joins_before. rewrite covers_app.
  assert (HnB : ~ covers B (a - 1)).
  { intros Hx. destruct B as [|r B]; [by apply covers_nil in Hx|].
    destruct HB as (_ & Hrok & HB). pose proof (extent_ok_lt r Hrok). unfold PAGE_SIZE in *.
    apply covers_cons in Hx as [?|Hx%(chain_covers_above _ _ _ HB)]; lia. }
  destruct A as [|l A _] using rev_ind; [rewrite covers_nil; simpl; naive_solver|].
  rewrite last_snoc, tail_end_snoc in *. rewrite covers_app, covers_cons, covers_nil. b2p.
  pose proof HA as [HA' (Hlow & Hlok & _)]%chain_app. pose proof (extent_ok_lt l Hlok).
  unfold PAGE_SIZE in *. split; [left; right; left; lia|].
  intros [[Hx|[?|[]]]|?]; [|lia|done].
  apply (chain_covers_below _ _ _ HA') in Hx. lia.
Qed.

Lemma joins_after_covers A a B :
  chain (-1) (A ++ B) -> fits A a B ->
  joins_after a B = true <-> covers (A ++ B) (a + PAGE_SIZE).
Proof.
  intros [HA HB]%chain_app [Hle Hr]. unfold joins_after. rewrite covers_app.
  assert (HnA : ~ covers A (a + PAGE_SIZE)).
  { intros Hx%(chain_covers_below _ _ _ HA). unfold PAGE_SIZE in *. lia. }
  destruct B as [|r B]; [rewrite covers_nil; naive_solver|].
  destruct HB as (_ & Hrok & HB). pose proof (extent_ok_lt r Hrok). rewrite covers_cons. b2p.
  unfold PAGE_SIZE in *. split; [intros; right; left; lia|].
  intros [?|[?|Hx%(chain_covers_above _ _ _ HB)]]; [done|lia|lia].
Qed.

(** Why a frame is not returned, in the order of the tests of the code. *)
Definition free_verdict fa a (v : result unit FreeError) : Prop :=
  match v with
  | Err FreeUnaligned => a mod PAGE_SIZE <> 0
  | Err AddressOverflow => a mod PAGE_SIZE = 0 /\ two64 <= a + PAGE_SIZE
  | Err Unmanaged => a mod PAGE_SIZE = 0 /\ a + PAGE_SIZE < two64 /\ ~ covers (live_managed fa) a
  | Err Duplicate => a mod PAGE_SIZE = 0 /\ covers (live_managed fa) a /\ covers (live_free fa) a
  | Err FreeCapacityExceeded =>
      a mod PAGE_SIZE = 0 /\ covers (live_managed fa) a /\ ~ covers (live_free fa) a /\
      fa_free_len fa = MAX_FRAME_EXTENTS /\
      ~ covers (live_free fa) (a - 1) /\ ~ covers (live_free fa) (a + PAGE_SIZE)
  | Ok _ =>
      a mod PAGE_SIZE = 0 /\ covers (live_managed fa) a /\ ~ covers (live_free fa) a /\
      (fa_free_len fa <> MAX_FRAME_EXTENTS \/
       covers (live_free fa) (a - 1) \/ covers (live_free fa) (a + PAGE_SIZE))
  end.

Lemma managed_test L a :
  chain (-1) L -> a mod PAGE_SIZE = 0 ->
  existsb (fun e => contains_frame e a (a + PAGE_SIZE)) L = true <-> covers L a.
Proof.
  intros HL Hal. rewrite existsb_true. unfold covers. split; intros (e & He & H); exists e;
    (split; [done|]); apply (contains_frame_ok e a); try done; by eapply chain_elem.
Qed.

(** The tests of the code from the insertion point on. *)
Lemma free_tail fa A B a :
  arrays_ok fa -> live_free fa = A ++ B -> chain (-1) (A ++ B) ->
  (if (length A =? 0)%nat then
     joins_right ← joins_right_at fa (length A) (a + PAGE_SIZE);
     free_insert fa (length A) false joins_right a
   else
     left ← index_pred (length A);
     l ← array_get (fa_free fa) left;
     match extent_end l with
     | None => Some (Err AddressOverflow, fa)
     | Some left_end =>
         joins_right ← joins_right_at fa (length A) (a + PAGE_SIZE);
         free_insert fa (length A) (left_end =? a) joins_right a
     end) = free_insert fa (length A) (joins_before A a) (joins_after a B) a.
Proof.
  intros Ha HL Hc.
  assert (HR : joins_right_at fa (length A) (a + PAGE_SIZE) = Some (joins_after a B)).
  { unfold joins_right_at. pose proof (live_free_length fa Ha) as Hlen.
    rewrite HL, length_app in Hlen. destruct B as [|r B]; simpl in Hlen.
    - by rewrite (proj2 (Nat.ltb_ge _ _)) by lia.
    - destruct (live_free_get fa _ _ _ Ha HL) as [-> Hlt].
      rewrite (proj2 (Nat.ltb_lt _ _) Hlt). done. }
  rewrite HR. simpl. destruct A as [|l A _] using rev_ind; [done|].
  rewrite <-app_assoc in HL, Hc. destruct (live_free_get fa _ _ _ Ha HL) as [Hget _].
  apply chain_app in Hc as (_ & _ & Hlok & _).
  rewrite length_app. simpl. rewrite Nat.add_1_r. simpl. rewrite Hget. simpl.
  rewrite (extent_end_ok l Hlok). unfold joins_before. by rewrite last_snoc.
Qed.

Lemma free_frame_spec fa a :
  fa_inv fa -> u64 a ->
  exists v fa', free_frame a fa = Some (v, fa') /\ free_verdict fa a v /\ fa_inv fa' /\
    live_managed fa' = live_managed fa /\ (is_err v = true -> fa' = fa) /\
    (v = Ok tt -> forall x, covers (live_free fa') x <->
                            covers (live_free fa) x \/ a <= x < a + PAGE_SIZE).
Proof.
  intros Hinv Hu. pose proof Hinv as (Ha & Hm & Hf & Hsub). unfold u64 in Hu.
  unfold free_frame, is_multiple_of.
  assert (Herr : forall er, free_verdict fa a (Err er) ->
    exists v fa', Some (Err er, fa) = Some (v, fa') /\ free_verdict fa a v /\ fa_inv fa' /\
      live_managed fa' = live_managed fa /\ (is_err v = true -> fa' = fa) /\
      (v = Ok tt -> forall x, covers (live_free fa') x <->
                            covers (live_free fa) x \/ a <= x < a + PAGE_SIZE)).
  { intros er He. exists (Err er), fa. split_and!; done. }
  destruct (Z.eqb_spec (a mod PAGE_SIZE) 0) as [Hal|Hal]; cbn [negb]; [|by apply Herr].
  destruct (checked_add a PAGE_SIZE) as [fe|] eqn:Hca; [|apply Herr; simpl; b2p; done].
  apply checked_add_Some in Hca as [-> Hmax].
  rewrite slice_to_le by (destruct Ha as (-> & _ & ? & _); done).
  cbn [mbind option_bind]. fold (live_managed fa).
  pose proof (managed_test _ a Hm Hal) as Htest.
  destruct (existsb _ _); cbn [negb]; [|apply Herr; simpl; split_and!; [done|done|]; rewrite <-Htest; done].
  assert (Hman : covers (live_managed fa) a) by by apply Htest.
  destruct (find_insertion_spec (S (fa_free_len fa)) fa [] (live_free fa) a)
    as [[Hcov Hfi]|(Hcov & A & B & Hfi & HL & Hfit)]; try done; try lia.
  { unfold tail_end. simpl. lia. }
  { rewrite live_free_length by done. lia. }
  all: cbn [length] in Hfi; rewrite Hfi; cbn [mbind option_bind].
  { by apply Herr. }
  simpl in HL. pose proof Hf as Hf'. rewrite HL in Hf'. rewrite (free_tail fa A B a Ha HL Hf').
  pose proof (free_insert_spec fa A B a Ha HL Hf') as Hins. cbn zeta in Hins.
  pose proof (joins_before_covers A a B Hf' Hfit (proj1 Hu)) as Hjb.
  pose proof (joins_after_covers A a B Hf' Hfit) as Hja. rewrite <-HL in Hjb, Hja.
  destruct (negb (joins_before A a) && negb (joins_after a B) &&
            (fa_free_len fa =? MAX_FRAME_EXTENTS)%nat) eqn:Ecap; b2p.
  { rewrite Hins. apply Herr. simpl. destruct Ecap as [[Hb1 Hb2] Hcap].
    rewrite <-Hjb, <-Hja, Hb1, Hb2. split_and!; done. }
  destruct Hins as (fa' & -> & HR).
  destruct (put_frame_spec A a B Hf' Hfit Hal) as [Hch Hcov']; [lia|done|]. rewrite <-HL in Hcov'.
  destruct (refreed_inv fa _ fa' Hinv HR Hch) as [Hinv' HM].
  { intros x [Hx|Hx]%Hcov'; [by apply Hsub|]. by apply (covers_frame _ _ _ _ Hm Hal Hman). }
  destruct HR as (_ & _ & _ & HL').
  exists (Ok tt), fa'. rewrite HL'. split_and!; try done. simpl. split_and!; try done.
  rewrite <-Hjb, <-Hja.
  destruct (joins_before A a), (joins_after a B); simpl in Ecap; naive_solver.
Qed.
