(* ===== verification/FrameTheorems.v ===== *)
(** * The frame allocator: theorems

    What the allocator promises to the kernel, stated over the set of byte
    addresses its lists cover: exact initialisation, lowest-address allocation,
    exact release with its error cases, exact undo of an allocation, and
    exclusive ownership along every run. *)

From S2P Require Import Prelude.
From S2P Require Import BootContract.
From S2P Require Import Panic.
From S2P Require Import FrameAllocator.
From S2P Require Import Extents.
From S2P Require Import FrameInit.
From S2P Require Import FrameOps.

(** ** Runs

    A run starts with an accepted memory map and interleaves allocations and
    releases of arbitrary addresses.  [owned] records the frames handed out
    and not yet returned. *)

Inductive run_step : FrameAllocator * list Z -> FrameAllocator * list Z -> Prop :=
| run_allocate fa owned f fa' :
    allocate_frame fa = Some (Ok f, fa') ->
    run_step (fa, owned) (fa', f :: owned)
| run_allocate_failed fa owned e fa' :
    allocate_frame fa = Some (Err e, fa') ->
    run_step (fa, owned) (fa', owned)
| run_free fa owned a fa' :
    u64 a -> free_frame a fa = Some (Ok tt, fa') ->
    run_step (fa, owned) (fa', filter (fun f => f <> a) owned)
| run_free_failed fa owned a e fa' :
    u64 a -> free_frame a fa = Some (Err e, fa') ->
    run_step (fa, owned) (fa', owned).

Inductive run (regions : list MemoryRegionV1) : FrameAllocator * list Z -> Prop :=
| run_start fa :
    initialize regions allocator_new = Some (Ok tt, fa) -> run regions (fa, [])
| run_next s s' : run regions s -> run_step s s' -> run regions s'.

(** Every frame of usable memory is either free or owned, never both. *)
Definition partition_inv (regions : list MemoryRegionV1) (s : FrameAllocator * list Z) : Prop :=
  let '(fa, owned) := s in
  fa_inv fa /\ (forall x, covers (live_managed fa) x <-> usable regions x) /\ NoDup owned /\
  (forall f, f ∈ owned -> f mod PAGE_SIZE = 0) /\
  forall f, f mod PAGE_SIZE = 0 ->
    (usable regions f <-> f ∈ owned \/ covers (live_free fa) f) /\
    ~ (f ∈ owned /\ covers (live_free fa) f).

Lemma arrays_ok_new : arrays_ok allocator_new.
Proof. unfold arrays_ok. vm_compute. split_and!; (done || lia). Qed.

Lemma partition_start regions fa :
  Forall region_typed regions -> initialize regions allocator_new = Some (Ok tt, fa) ->
  partition_inv regions (fa, []).
Proof.
  intros Ht Hi. destruct (initialize_spec regions allocator_new Ht arrays_ok_new)
    as [(_ & _ & fa' & Hi' & Hinv & HL & Hcov)|[_ (e & Hi')]]; [|congruence].
  assert (fa' = fa) as -> by congruence. simpl. split_and!; [done|done|constructor| |].
  - intros f Hf. by apply elem_of_nil in Hf.
  - intros f _. rewrite HL, Hcov. split; [split; [by right|]|].
    + intros [Hf|?]; [by apply elem_of_nil in Hf|done].
    + intros [Hf _]. by apply elem_of_nil in Hf.
Qed.

(** Distinct aligned addresses name disjoint frames. *)
Lemma aligned_frame a f :
  a mod PAGE_SIZE = 0 -> f mod PAGE_SIZE = 0 -> a <= f < a + PAGE_SIZE -> f = a.
Proof.
  intros Ha Hf H. destruct (Z_lt_le_dec a f) as [Hlt|]; [|lia].
  apply aligned_lt in Hlt; [lia|done..].
Qed.

Lemma partition_allocate regions fa owned f fa' :
  partition_inv regions (fa, owned) -> allocate_frame fa = Some (Ok f, fa') ->
  partition_inv regions (fa', f :: owned) /\ f ∉ owned.
Proof.
  intros (Hinv & Hman & Hnd & Hal & Hpart) Hall.
  destruct (allocate_frame_spec fa Hinv)
    as [[_ Hx]|(f' & fa'' & Hx & Hinv' & HM & Hfal & Hcf & _ & Hcov)]; [congruence|].
  assert (f' = f /\ fa'' = fa') as [-> ->] by (split; congruence).
  assert (Hfree : f ∉ owned) by (intros Hf; by destruct (Hpart f Hfal) as [_ []]).
  split; [|done]. simpl. rewrite HM. split_and!; [done|done|by constructor| |].
  - intros g [->|Hg]%elem_of_cons; auto.
  - intros g Hg. destruct (Hpart g Hg) as [Hu Hd]. rewrite Hcov, elem_of_cons.
    destruct (decide (g = f)) as [->|Hne].
    + assert (f <= f < f + PAGE_SIZE) by (unfold PAGE_SIZE; lia). tauto.
    + assert (~ f <= g < f + PAGE_SIZE) by (intros Hr; by apply aligned_frame in Hr).
      tauto.
Qed.

Lemma partition_free regions fa owned a fa' :
  partition_inv regions (fa, owned) -> u64 a -> free_frame a fa = Some (Ok tt, fa') ->
  partition_inv regions (fa', filter (fun f => f <> a) owned) /\ a ∈ owned.
Proof.
  intros (Hinv & Hman & Hnd & Hal & Hpart) Hu Hfree.
  destruct (free_frame_spec fa a Hinv Hu)
    as (v & fa'' & Hx & Hv & Hinv' & HM & _ & Hcov).
  assert (v = Ok tt /\ fa'' = fa') as [-> ->] by (split; congruence).
  specialize (Hcov eq_refl). simpl in Hv. destruct Hv as (Haal & Hca & Hnf & _).
  assert (Hown : a ∈ owned).
  { destruct (Hpart a Haal) as [Hu' _]. rewrite Hman in Hca. tauto. }
  split; [|done]. simpl. rewrite HM. split_and!; [done|done|by apply NoDup_filter| |].
  - intros g [_ Hg]%list_elem_of_filter. auto.
  - intros g Hg. destruct (Hpart g Hg) as [Hug Hd]. rewrite Hcov, list_elem_of_filter.
    destruct (decide (g = a)) as [->|Hne].
    + assert (a <= a < a + PAGE_SIZE) by (unfold PAGE_SIZE; lia). tauto.
    + assert (~ a <= g < a + PAGE_SIZE) by (intros Hr; by apply aligned_frame in Hr).
      tauto.
Qed.

Lemma partition_step regions s s' :
  partition_inv regions s -> run_step s s' -> partition_inv regions s'.
Proof.
  intros HP Hs. destruct Hs as [fa owned f fa' Hall|fa owned e fa' Hall|fa owned a fa' Hu Hfr|
    fa owned a e fa' Hu Hfr].
  - by eapply partition_allocate.
  - pose proof HP as (Hinv & _). destruct (allocate_frame_spec fa Hinv)
      as [[_ Hx]|(f' & fa'' & Hx & _)]; [|congruence].
    by assert (fa' = fa) as -> by congruence.
  - by eapply partition_free.
  - pose proof HP as (Hinv & _). destruct (free_frame_spec fa a Hinv Hu)
      as (v & fa'' & Hx & _ & _ & _ & Herr & _).
    assert (v = Err e /\ fa'' = fa') as [-> ->] by (split; congruence).
    by rewrite Herr.
Qed.

Lemma partition_run regions s :
  Forall region_typed regions -> run regions s -> partition_inv regions s.
Proof.
  intros Ht. induction 1 as [fa Hi|s s' _ IH Hs]; [by apply partition_start|].
  by eapply partition_step.
Qed.

(** After an allocation the extent array has room, or the next frame is free. *)
Lemma pop_leaves_room fa fa1 e B :
  arrays_ok fa -> arrays_ok fa1 -> chain (-1) (e :: B) ->
  live_free fa = e :: B -> live_free fa1 = pop_frame e B ->
  fa_free_len fa1 = MAX_FRAME_EXTENTS -> covers (live_free fa1) (physical_start e + PAGE_SIZE).
Proof.
  intros Ha Ha1 Hc HL HL1 Hcap. pose proof (live_free_length _ Ha) as Hlen.
  pose proof (live_free_length _ Ha1) as Hlen1. destruct Ha as (_ & _ & _ & Hmax).
  rewrite HL in Hlen. rewrite HL1 in *. apply (pop_frame_covers _ _ _ _ Hc).
  unfold pop_frame in *. destruct (page_count e =? 1) eqn:Hone; b2p; simpl in *; [lia|].
  destruct Hc as (_ & (? & _ & ? & _) & _). rewrite covers_cons.
  unfold eend, pages_end, PAGE_SIZE in *. lia.
Qed.

(** ** Theorems *)

(** C39: initialising from any array of regions never panics.  It succeeds
    exactly when the map is well formed (aligned, non-empty, representable,
    known kinds, zero attributes, in order and disjoint) and its usable runs
    fit the extent arrays; then the allocator satisfies its invariant, manages
    exactly the bytes of the usable regions and has all of them free.
    Otherwise the previous allocator is left untouched. *)
Theorem frame_initialize_exact regions fa :
  Forall region_typed regions -> arrays_ok fa ->
  (region_map_ok regions /\ usable_runs None regions <= Z.of_nat MAX_FRAME_EXTENTS /\
   exists fa', initialize regions fa = Some (Ok tt, fa') /\ fa_inv fa' /\
     live_free fa' = live_managed fa' /\
     forall x, covers (live_managed fa') x <-> usable regions x)
  \/ (~ (region_map_ok regions /\ usable_runs None regions <= Z.of_nat MAX_FRAME_EXTENTS) /\
      exists e, initialize regions fa = Some (Err e, fa)).
Proof. apply initialize_spec. Qed.

(** under the invariant, allocation never panics and never reports a broken
    invariant.  It reports exhaustion, changing nothing, exactly when no byte
    is free; otherwise it returns the lowest free address, page aligned, and
    removes exactly that frame from the free set, keeping the managed set and
    the invariant. *)
Theorem frame_allocate_lowest fa :
  fa_inv fa ->
  ((forall x, ~ covers (live_free fa) x) /\ allocate_frame fa = Some (Err Exhausted, fa)) \/
  (exists f fa', allocate_frame fa = Some (Ok f, fa') /\ fa_inv fa' /\
     live_managed fa' = live_managed fa /\ f mod PAGE_SIZE = 0 /\ covers (live_free fa) f /\
     (forall x, covers (live_free fa) x -> f <= x) /\
     forall x, covers (live_free fa') x <-> covers (live_free fa) x /\ ~ f <= x < f + PAGE_SIZE).
Proof.
  intros Hinv. destruct (allocate_frame_spec fa Hinv) as [[HL Hall]|Hr]; [left|by right].
  split; [|done]. intros x. rewrite HL, covers_nil. tauto.
Qed.

(** Under the invariant, releasing any 64-bit address never panics.  Each
    outcome occurs exactly under its condition ([free_verdict]: unaligned, end
    not representable, not managed, already free, no room for another extent,
    accepted); a rejected release changes nothing, and an accepted one adds
    exactly the frame to the free set, whichever neighbours it merges with. *)
Theorem frame_free_exact fa a :
  fa_inv fa -> u64 a ->
  exists v fa', free_frame a fa = Some (v, fa') /\ free_verdict fa a v /\ fa_inv fa' /\
    live_managed fa' = live_managed fa /\ (is_err v = true -> fa' = fa) /\
    (v = Ok tt -> forall x, covers (live_free fa') x <->
                            covers (live_free fa) x \/ a <= x < a + PAGE_SIZE).
Proof. apply free_frame_spec. Qed.

(** A frame that was just allocated can always be returned, even with full
    extent arrays, and returning it restores the very lists of extents the
    allocator held before: the representation of a free set is unique. *)
Theorem frame_allocate_free_roundtrip fa f fa1 :
  fa_inv fa -> allocate_frame fa = Some (Ok f, fa1) ->
  exists fa2, free_frame f fa1 = Some (Ok tt, fa2) /\
    live_free fa2 = live_free fa /\ live_managed fa2 = live_managed fa /\
    fa_free_len fa2 = fa_free_len fa.
Proof.
  intros Hinv Hall. pose proof Hinv as (Ha & Hm & Hf & Hsub).
  destruct (allocate_frame_spec fa Hinv)
    as [[_ Hx]|(f' & fa1' & Hx & Hinv1 & HM1 & Hal & Hcf & Hmin & Hcov1)]; [congruence|].
  assert (f' = f /\ fa1' = fa1) as [-> ->] by (split; congruence). clear Hx.
  destruct (live_free fa) as [|e B] eqn:HL; [by apply covers_nil in Hcf|].
  destruct (allocate_pop fa e B Hinv HL) as (fa1' & Hx & _ & _ & Ha1 & HL1).
  assert (physical_start e = f /\ fa1' = fa1) as [Hef ->] by (split; congruence).
  pose proof Hf as (Hlow & He & HB). pose proof (extent_ok_lt e He) as Hlt.
  assert (Hu : u64 f).
  { destruct He as (? & _ & _ & ?). unfold u64, PAGE_SIZE in *. unfold eend, two64 in *. lia. }
  destruct (free_frame_spec fa1 f Hinv1 Hu) as (v & fa2 & Hfree & Hv & Hinv2 & HM2 & _ & Hcov2).
  assert (Hnf : ~ covers (live_free fa1) f) by (rewrite Hcov1; unfold PAGE_SIZE; lia).
  assert (Hman : covers (live_managed fa1) f) by (rewrite HM1; auto).
  assert (Hv' : v = Ok tt).
  { destruct v as [[]|[]]; simpl in Hv; [done|..]; try tauto.
    - destruct Hv as [_ Hv]. destruct He as (_ & _ & _ & ?). unfold eend in Hlt. lia.
    - destruct Hv as (_ & _ & _ & Hcap & _ & Hright). exfalso. apply Hright. rewrite <-Hef.
      apply (pop_leaves_room fa fa1 e B); try done. }
  subst v. exists fa2. specialize (Hcov2 eq_refl).
  assert (HL2 : live_free fa2 = e :: B).
  { destruct Hinv2 as (_ & _ & Hf2 & _). apply (chain_unique (-1) (-1)); [done|done|].
    intros x. rewrite Hcov2, Hcov1. pose proof (covers_frame (-1) _ f x Hf Hal Hcf).
    destruct (decide (f <= x < f + PAGE_SIZE)); tauto. }
  split_and!; [done|done|congruence|].
  destruct Hinv2 as (Ha2 & _). apply live_free_length in Ha, Ha2. congruence.
Qed.

(** C37: exclusive ownership.  Along every interleaving of allocations and
    releases after an accepted memory map, no operation panics, the frames
    handed out are distinct, every page-aligned usable address is either owned
    or free and never both, a frame an allocation returns was not owned, and a
    release that is accepted returns a frame that was. *)
Theorem frame_exclusive_ownership regions fa owned :
  Forall region_typed regions -> run regions (fa, owned) ->
  NoDup owned /\
  (forall f, f mod PAGE_SIZE = 0 ->
     (usable regions f <-> f ∈ owned \/ covers (live_free fa) f) /\
     ~ (f ∈ owned /\ covers (live_free fa) f)) /\
  (exists r fa', allocate_frame fa = Some (r, fa') /\
     forall f, r = Ok f -> f ∉ owned /\ usable regions f) /\
  (forall a, u64 a -> exists r fa', free_frame a fa = Some (r, fa') /\
     (r = Ok tt -> a ∈ owned)).
Proof.
  intros Ht Hr. pose proof (partition_run regions _ Ht Hr) as HP.
  pose proof HP as (Hinv & Hman & Hnd & Hal & Hpart). split_and!; [done|done| |].
  - destruct (allocate_frame_spec fa Hinv)
      as [[_ Hx]|(f & fa' & Hx & _ & _ & _ & Hcf & _)]; eexists _, _; (split; [done|]).
    + done.
    + intros g [= <-]. split; [by eapply partition_allocate|]. apply Hman.
      by destruct Hinv as (_ & _ & _ & Hsub); apply Hsub.
  - intros a Hu. destruct (free_frame_spec fa a Hinv Hu) as (v & fa' & Hx & _).
    exists v, fa'. split; [done|]. intros ->. by eapply partition_free.
Qed.

(** ** Witnesses *)

(** Two usable runs around a reserved page. *)
Definition sample_regions : list MemoryRegionV1 :=
  [mkRegion 4096 2 1 0; mkRegion 12288 1 1 0; mkRegion 16384 1 0 0; mkRegion 20480 1 1 0].

Definition sample_allocator : FrameAllocator :=
  match initialize sample_regions allocator_new with Some (_, fa) => fa | None => allocator_new end.

Definition sample_allocated : FrameAllocator :=
  match allocate_frame sample_allocator with Some (_, fa) => fa | None => allocator_new end.

Lemma sample_typed : Forall region_typed sample_regions.
Proof. repeat constructor; vm_compute; (done || lia). Qed.

Lemma sample_started : initialize sample_regions allocator_new = Some (Ok tt, sample_allocator).
Proof. vm_compute. reflexivity. Qed.

Lemma sample_inv : fa_inv sample_allocator.
Proof. apply (partition_start sample_regions _ sample_typed sample_started). Qed.

Lemma frame_initialize_exact_witness :
  exists fa', initialize sample_regions allocator_new = Some (Ok tt, fa') /\ fa_inv fa' /\
              live_free fa' = [mkExtent 4096 3; mkExtent 20480 1].
Proof.
  destruct (frame_initialize_exact sample_regions allocator_new sample_typed arrays_ok_new)
    as [(_ & _ & fa' & Hi & Hinv & _ & _)|[_ (e & Hi)]].
  - exists fa'. split_and!; [exact Hi|exact Hinv|].
    assert (fa' = sample_allocator) as -> by (pose proof sample_started; congruence).
    vm_compute. reflexivity.
  - exfalso. pose proof sample_started. congruence.
Defined.

Lemma sample_first : allocate_frame sample_allocator = Some (Ok 4096, sample_allocated).
Proof. vm_compute. reflexivity. Qed.

Lemma frame_allocate_lowest_witness :
  fa_inv sample_allocator /\ allocate_frame sample_allocator = Some (Ok 4096, sample_allocated) /\
  fa_inv sample_allocated.
Proof.
  destruct (frame_allocate_lowest sample_allocator sample_inv)
    as [[_ H]|(f & fa' & H & Hinv & _)]; pose proof sample_first as Hs.
  - exfalso. congruence.
  - split_and!; [exact sample_inv|exact Hs|]. by assert (sample_allocated = fa') as -> by congruence.
Defined.

Lemma frame_free_exact_witness :
  exists fa', free_frame 4096 sample_allocator = Some (Err Duplicate, fa') /\ fa' = sample_allocator.
Proof.
  destruct (frame_free_exact sample_allocator 4096 sample_inv) as (v & fa' & H & _ & _ & _ & He & _).
  - unfold u64. lia.
  - assert (Hs : free_frame 4096 sample_allocator = Some (Err Duplicate, sample_allocator))
      by (vm_compute; reflexivity).
    assert (v = Err Duplicate) as -> by congruence. exists fa'. split; [exact H|by apply He].
Defined.

Lemma frame_allocate_free_roundtrip_witness :
  exists fa2, free_frame 4096 sample_allocated = Some (Ok tt, fa2) /\
              live_free fa2 = live_free sample_allocator.
Proof.
  destruct (frame_allocate_free_roundtrip sample_allocator 4096 sample_allocated sample_inv
    sample_first) as (fa2 & H & HL & _).
  exists fa2. split; [exact H|exact HL].
Defined.

Lemma frame_exclusive_ownership_witness :
  run sample_regions (sample_allocated, [4096]) /\ usable sample_regions 4096.
Proof.
  assert (Hr : run sample_regions (sample_allocated, [4096])).
  { eapply run_next; [apply run_start, sample_started|]. apply run_allocate, sample_first. }
  split; [exact Hr|].
  apply (frame_exclusive_ownership sample_regions sample_allocated [4096] sample_typed Hr).
  - reflexivity.
  - left. apply list_elem_of_here.
Defined.
