(* ===== verification/BootNormalize.v ===== *)
(** * Normalising the firmware memory map

    Models [crates/boot-contract/src/normalize.rs] in full: the merge of an
    ordered stream of firmware regions with an ordered list of overrides into
    the caller's output slice.  The iterator of source regions is the list of
    the items it yields; the output slice keeps what was written to it on every
    error path. *)

From S2P Require Import Prelude.
From S2P Require Import BootContract.
From S2P Require Import Panic.

Record SourceMemoryRegion := mkSource {
  sr_physical_start : Z;
  sr_page_count : Z;
  sr_kind : Z
}.

Record MemoryRegionOverride := mkOverride {
  ov_physical_start : Z;
  ov_page_count : Z;
  ov_kind : Z;
  ov_require_full_coverage : bool
}.

Definition Override_EMPTY : MemoryRegionOverride := mkOverride 0 0 0 false.

Inductive NormalizeError :=
| EmptySource | ZeroPages | UnalignedStart | RangeOverflow | UnknownKind | SourceOutOfOrder
| SourceOverlap | OverrideOutOfOrder | OverrideOverlap | OverrideOutsideSource
| CapacityExceeded.

#[global] Instance NormalizeError_eq_dec : EqDecision NormalizeError.
Proof. solve_decision. Defined.

Definition region_end (start pages : Z) : result Z NormalizeError :=
  if pages =? 0 then Err ZeroPages else
  if negb (is_multiple_of start PAGE_SIZE) then Err UnalignedStart else
  let? bytes := ok_or (checked_mul pages PAGE_SIZE) RangeOverflow in
  ok_or (checked_add start bytes) RangeOverflow.

Definition checked_region_end (start pages kind : Z) : result Z NormalizeError :=
  if negb (is_known_memory_kind kind) then Err UnknownKind else region_end start pages.

(** The loop of [validate_overrides], over its two mutable locals. *)
Fixpoint validate_overrides_loop (overrides : list MemoryRegionOverride)
    (previous_start previous_end : option Z) : result unit NormalizeError :=
  match overrides with
  | [] => Ok tt
  | replacement :: rest =>
      let? end_ := checked_region_end (ov_physical_start replacement) (ov_page_count replacement)
                     (ov_kind replacement) in
      if match previous_start with
         | Some start => ov_physical_start replacement <? start | None => false end
      then Err OverrideOutOfOrder else
      if match previous_end with
         | Some previous_end => ov_physical_start replacement <? previous_end | None => false end
      then Err OverrideOverlap else
      validate_overrides_loop rest (Some (ov_physical_start replacement)) (Some end_)
  end.

Definition validate_overrides (overrides : list MemoryRegionOverride) : result unit NormalizeError :=
  validate_overrides_loop overrides None None.

(** The inner [for] of [validate_required_overrides]: the cursor it ends with. *)
Fixpoint coverage_cursor (output : list MemoryRegionV1) (kind replacement_end cursor : Z)
    : result Z NormalizeError :=
  match output with
  | [] => Ok cursor
  | region :: rest =>
      let? output_end := region_end (mr_physical_start region) (mr_page_count region) in
      if output_end <=? cursor then coverage_cursor rest kind replacement_end cursor else
      if (cursor <? mr_physical_start region) || negb (mr_kind region =? kind) then Ok cursor else
      let cursor := Z.min output_end replacement_end in
      if cursor =? replacement_end then Ok cursor
      else coverage_cursor rest kind replacement_end cursor
  end.

Fixpoint validate_required_overrides (overrides : list MemoryRegionOverride)
    (output : list MemoryRegionV1) : result unit NormalizeError :=
  match overrides with
  | [] => Ok tt
  | replacement :: rest =>
      if negb (ov_require_full_coverage replacement) then validate_required_overrides rest output else
      let? replacement_end :=
        region_end (ov_physical_start replacement) (ov_page_count replacement) in
      let? cursor := coverage_cursor output (ov_kind replacement) replacement_end
                       (ov_physical_start replacement) in
      if negb (cursor =? replacement_end) then Err OverrideOutsideSource else
      validate_required_overrides rest output
  end.

(** ** The region writer *)

Record RegionWriter := mkWriter { rw_output : list MemoryRegionV1; rw_len : nat }.

Definition writer_new (output : list MemoryRegionV1) : RegionWriter := mkWriter output 0.

(** The last part of [emit]: a new entry, if the slice has room. *)
Definition emit_new (w : RegionWriter) (start page_count kind : Z)
    : option (result unit NormalizeError * RegionWriter) :=
  if (rw_len w =? length (rw_output w))%nat then Some (Err CapacityExceeded, w) else
  output ← array_set (rw_output w) (rw_len w) (mkRegion start page_count kind 0);
  Some (Ok tt, mkWriter output (S (rw_len w))).

Definition emit (w : RegionWriter) (start end_ kind : Z)
    : option (result unit NormalizeError * RegionWriter) :=
  if start =? end_ then Some (Ok tt, w) else
  bytes ← checked_sub end_ start;
  let page_count := bytes / PAGE_SIZE in
  if (0 <? rw_len w)%nat then
    index ← index_pred (rw_len w);
    previous ← array_get (rw_output w) index;
    match region_end (mr_physical_start previous) (mr_page_count previous) with
    | Err e => Some (Err e, w)
    | Ok previous_end =>
        if (mr_kind previous =? kind) && (previous_end =? start) then
          match checked_add (mr_page_count previous) page_count with
          | None => Some (Err RangeOverflow, w)
          | Some pages =>
              output ← array_set (rw_output w) index
                (mkRegion (mr_physical_start previous) pages (mr_kind previous)
                   (mr_attributes previous));
              Some (Ok tt, mkWriter output (rw_len w))
          end
        else emit_new w start page_count kind
    end
  else emit_new w start page_count kind.

(** A call that may panic or fail, then the rest; on an error the writer is kept. *)
Definition then_emit {A} (m : option (result unit NormalizeError * RegionWriter))
    (k : RegionWriter -> option (result A NormalizeError * RegionWriter))
    : option (result A NormalizeError * RegionWriter) :=
  match m with
  | None => None
  | Some (Err e, w) => Some (Err e, w)
  | Some (Ok _, w) => k w
  end.

(** ** The merge *)

(** The [while] loop over the overrides for one source region; it yields the
    cursor and the override index.  [fuel] bounds the iterations, of which each
    but the last increments the index. *)
Fixpoint override_loop (fuel : nat) (overrides : list MemoryRegionOverride)
    (override_index : nat) (source_kind source_end cursor : Z) (w : RegionWriter)
    : option (result (Z * nat) NormalizeError * RegionWriter) :=
  match fuel with
  | O => None
  | S fuel' =>
      if (override_index <? length overrides)%nat then
        replacement ← array_get overrides override_index;
        match region_end (ov_physical_start replacement) (ov_page_count replacement) with
        | Err e => Some (Err e, w)
        | Ok replacement_end =>
            if replacement_end <=? cursor then
              override_loop fuel' overrides (S override_index) source_kind source_end cursor w
            else if source_end <=? ov_physical_start replacement then
              Some (Ok (cursor, override_index), w)
            else
              let replacement_start := Z.max (ov_physical_start replacement) cursor in
              then_emit (emit w cursor replacement_start source_kind) (fun w1 =>
              let overlap_end := Z.min replacement_end source_end in
              then_emit (emit w1 replacement_start overlap_end (ov_kind replacement)) (fun w2 =>
              if overlap_end =? replacement_end then
                override_loop fuel' overrides (S override_index) source_kind source_end
                  overlap_end w2
              else Some (Ok (overlap_end, override_index), w2)))
        end
      else Some (Ok (cursor, override_index), w)
  end.

(** The body of the outer [for]: one source region. *)
Definition source_step (source : SourceMemoryRegion) (overrides : list MemoryRegionOverride)
    (previous_start previous_end : option Z) (override_index : nat) (w : RegionWriter)
    : option (result (Z * nat) NormalizeError * RegionWriter) :=
  match checked_region_end (sr_physical_start source) (sr_page_count source) (sr_kind source) with
  | Err e => Some (Err e, w)
  | Ok source_end =>
      if match previous_start with
         | Some previous_start => sr_physical_start source <? previous_start | None => false end
      then Some (Err SourceOutOfOrder, w) else
      if match previous_end with
         | Some previous_end => sr_physical_start source <? previous_end | None => false end
      then Some (Err SourceOverlap, w) else
      match override_loop (S (length overrides)) overrides override_index (sr_kind source)
              source_end (sr_physical_start source) w with
      | None => None
      | Some (Err e, w1) => Some (Err e, w1)
      | Some (Ok (cursor, override_index), w1) =>
          then_emit (emit w1 cursor source_end (sr_kind source)) (fun w2 =>
          Some (Ok (source_end, override_index), w2))
      end
  end.

Fixpoint source_loop (sources : list SourceMemoryRegion) (overrides : list MemoryRegionOverride)
    (previous_start previous_end : option Z) (override_index : nat) (w : RegionWriter)
    : option (result unit NormalizeError * RegionWriter) :=
  match sources with
  | [] => Some (Ok tt, w)
  | source :: rest =>
      match source_step source overrides previous_start previous_end override_index w with
      | None => None
      | Some (Err e, w1) => Some (Err e, w1)
      | Some (Ok (source_end, override_index), w1) =>
          source_loop rest overrides (Some (sr_physical_start source)) (Some source_end)
            override_index w1
      end
  end.

(** [normalize_memory_regions]; the result comes with the output slice. *)
Definition normalize_memory_regions (sources : list SourceMemoryRegion)
    (overrides : list MemoryRegionOverride) (output : list MemoryRegionV1)
    : option (result nat NormalizeError * list MemoryRegionV1) :=
  if (MAX_MEMORY_REGIONS <? length output)%nat then Some (Err CapacityExceeded, output) else
  match validate_overrides overrides with
  | Err e => Some (Err e, output)
  | Ok _ =>
      match source_loop sources overrides None None 0 (writer_new output) with
      | None => None
      | Some (Err e, w) => Some (Err e, rw_output w)
      | Some (Ok _, w) =>
          (* [saw_source]: the loop ran at least once *)
          if negb (0 <? length sources)%nat then Some (Err EmptySource, rw_output w) else
          if (rw_len w =? 0)%nat then Some (Err EmptySource, rw_output w) else
          live ← slice_to (rw_output w) (rw_len w);
          match validate_required_overrides overrides live with
          | Err e => Some (Err e, rw_output w)
          | Ok _ => Some (Ok (rw_len w), rw_output w)
          end
      end
  end.
