(* ===== verification/BootNormalizeProofs.v ===== *)
(** * Abstract memory maps

    The specification vocabulary of the memory-map code.  A map is a list of
    pieces (a half-open range of addresses with a kind); [kind_at] is the
    function from addresses to kinds it stands for.  [overlay] is the map the
    normalisation is meant to produce: the kind of the source wherever there is
    one, replaced by the kind of an override where one covers the address. *)

From S2P Require Import Prelude.
From S2P Require Import BootContract.
From S2P Require Import BootNormalize.

Record Piece := mkPiece { pc_start : Z; pc_end : Z; pc_kind : Z }.

Definition piece (start pages kind : Z) : Piece := mkPiece start (pages_end start pages) kind.
Definition of_source (s : SourceMemoryRegion) : Piece :=
  piece (sr_physical_start s) (sr_page_count s) (sr_kind s).
Definition of_override (o : MemoryRegionOverride) : Piece :=
  piece (ov_physical_start o) (ov_page_count o) (ov_kind o).
Definition of_region (m : MemoryRegionV1) : Piece :=
  piece (mr_physical_start m) (mr_page_count m) (mr_kind m).

Implicit Types (p : Piece) (P Q : list Piece) (a low : Z).

Definition aligned a : Prop := a mod PAGE_SIZE = 0.

Definition piece_ok p : Prop :=
  0 <= pc_start p /\ pc_start p < pc_end p /\ pc_end p < two64 /\
  aligned (pc_start p) /\ aligned (pc_end p) /\ is_known_memory_kind (pc_kind p) = true.

Definition in_piece a p : bool := (pc_start p <=? a) && (a <? pc_end p).

(** The kind of the first piece that holds the address. *)
Fixpoint kind_at P a : option Z :=
  match P with
  | [] => None
  | p :: P' => if in_piece a p then Some (pc_kind p) else kind_at P' a
  end.

Fixpoint pieces_from low P : Prop :=
  match P with
  | [] => True
  | p :: P' => low <= pc_start p /\ piece_ok p /\ pieces_from (pc_end p) P'
  end.

(** A well-formed map: pieces in order, disjoint. *)
Definition pieces_ok P : Prop := pieces_from 0 P.

Definition pieces_tail low P : Z := fold_left (fun _ p => pc_end p) P low.

(** What the merge of [S] with the overrides [O] must say of [a]. *)
Definition overlay S O a : option Z :=
  match kind_at S a with
  | None => None
  | Some k => Some (default k (kind_at O a))
  end.

(** No two adjacent pieces could be one. *)
Definition merged P : Prop :=
  forall i p q, P !! i = Some p -> P !! S i = Some q ->
                pc_end p = pc_start q -> pc_kind p <> pc_kind q.

(** ** Pieces of machine ranges *)

Lemma pages_end_aligned start pages : aligned start -> aligned (pages_end start pages).
Proof. unfold aligned, pages_end. intros H. rewrite Z.mod_add; [done|unfold PAGE_SIZE; lia]. Qed.

Lemma piece_ok_iff start pages kind :
  piece_ok (piece start pages kind) <->
  range_ok start pages /\ is_known_memory_kind kind = true.
Proof.
  unfold piece_ok, range_ok. simpl. split.
  - intros (? & ? & ? & ? & ? & ?). unfold pages_end, PAGE_SIZE in *. split_and!; try done; lia.
  - intros ((? & ? & ? & ?) & ?).
    split_and!; try done; [|by apply pages_end_aligned]. unfold pages_end, PAGE_SIZE in *. lia.
Qed.

Lemma in_piece_iff a p : in_piece a p = true <-> pc_start p <= a < pc_end p.
Proof. unfold in_piece. b2p. done. Qed.

Lemma in_piece_false a p : in_piece a p = false <-> ~ pc_start p <= a < pc_end p.
Proof. rewrite <-in_piece_iff. by destruct (in_piece a p). Qed.

(** ** Lookup *)

Lemma kind_at_app P Q a :
  kind_at (P ++ Q) a = match kind_at P a with Some k => Some k | None => kind_at Q a end.
Proof. induction P as [|p P IH]; simpl; [done|]. by destruct (in_piece a p). Qed.

Lemma pieces_from_app low P Q :
  pieces_from low (P ++ Q) <-> pieces_from low P /\ pieces_from (pieces_tail low P) Q.
Proof. revert low. induction P as [|p P IH]; intros low; simpl; [tauto|]. rewrite IH. tauto. Qed.

Lemma pieces_tail_snoc low P p : pieces_tail low (P ++ [p]) = pc_end p.
Proof. unfold pieces_tail. by rewrite fold_left_app. Qed.

Lemma pieces_tail_app low P Q : pieces_tail low (P ++ Q) = pieces_tail (pieces_tail low P) Q.
Proof. unfold pieces_tail. by rewrite fold_left_app. Qed.

Lemma pieces_tail_ge low P : pieces_from low P -> low <= pieces_tail low P.
Proof.
  revert low. induction P as [|p P IH]; intros low; [simpl; lia|]. intros (? & Hp & HP).
  specialize (IH _ HP). destruct Hp as (? & ? & _). unfold pieces_tail in *. simpl. lia.
Qed.

Lemma pieces_from_weaken low low' P : low' <= low -> pieces_from low P -> pieces_from low' P.
Proof. destruct P; simpl; [done|]. intros ? (? & ? & ?). split; [lia|done]. Qed.

Lemma kind_at_below low P a : pieces_from low P -> a < low -> kind_at P a = None.
Proof.
  revert low. induction P as [|p P IH]; intros low; [done|]. intros (? & Hp & HP) Ha. simpl.
  rewrite (proj2 (in_piece_false a p)) by lia. apply (IH _ HP). destruct Hp as (? & ? & _). lia.
Qed.

Lemma kind_at_above low P a : pieces_from low P -> pieces_tail low P <= a -> kind_at P a = None.
Proof.
  revert low. induction P as [|p P IH]; intros low; [done|]. intros (? & Hp & HP) Ha. simpl.
  assert (pieces_tail (pc_end p) P <= a) as Ha' by done.
  pose proof (pieces_tail_ge _ _ HP). rewrite (proj2 (in_piece_false a p)) by lia. by apply (IH _ HP).
Qed.

Lemma kind_at_elem low P p a :
  pieces_from low P -> p ∈ P -> pc_start p <= a < pc_end p -> kind_at P a = Some (pc_kind p).
Proof.
  revert low. induction P as [|q P IH]; intros low; [intros _ H; by apply elem_of_nil in H|].
  intros (Hlow & Hq & HP) [->|Hp]%elem_of_cons Ha; simpl.
  - by rewrite (proj2 (in_piece_iff a q)).
  - rewrite (IH _ HP Hp Ha).
    assert (Hge : pc_end q <= a).
    { destruct (Z_lt_le_dec a (pc_end q)); [|done].
      pose proof (kind_at_below _ _ a HP ltac:(done)) as Hn. by rewrite (IH _ HP Hp Ha) in Hn. }
    by rewrite (proj2 (in_piece_false a q)) by lia.
Qed.

Lemma kind_at_Some P a k : kind_at P a = Some k -> exists p, p ∈ P /\ pc_start p <= a < pc_end p /\ pc_kind p = k.
Proof.
  induction P as [|p P IH]; simpl; [done|]. destruct (in_piece a p) eqn:E.
  - intros [= <-]. exists p. rewrite in_piece_iff in E. split; [left|done].
  - intros (q & Hq & H)%IH. exists q. split; [by right|done].
Qed.

(** Overrides that end at or before [a] do not matter there. *)
Lemma kind_at_drop low P Q a :
  pieces_from low P -> pieces_tail low P <= a -> kind_at (P ++ Q) a = kind_at Q a.
Proof. intros HP Ha. by rewrite kind_at_app, (kind_at_above _ _ _ HP Ha). Qed.

(** * The normalised memory map is the overlay

    The writer keeps a canonical map, one source region extends it by the
    overlay of that region, and the whole normalisation produces exactly the
    overlay of the source map with the overrides. *)

From S2P Require Import Panic.

Implicit Types (w : RegionWriter) (m r : MemoryRegionV1).

(** ** Machine arithmetic *)

Lemma region_end_cases start pages :
  u64 start -> u64 pages ->
  (range_ok start pages /\ region_end start pages = Ok (pages_end start pages)) \/
  (~ range_ok start pages /\ exists e, region_end start pages = Err e).
Proof.
  unfold u64, region_end, range_ok, is_multiple_of. intros Hs Hp.
  destruct (Z.eqb_spec pages 0); [right; split; [lia|eauto]|].
  destruct (Z.eqb_spec (start mod PAGE_SIZE) 0); simpl; [|right; split; [tauto|eauto]].
  assert (Hpe : pages_end start pages = start + pages * PAGE_SIZE) by done.
  destruct (checked_mul pages PAGE_SIZE) as [bytes|] eqn:Hm; simpl; b2p.
  - destruct Hm as [-> Hm]. destruct (checked_add start (pages * PAGE_SIZE)) as [en|] eqn:Ha; simpl; b2p.
    + destruct Ha as [-> Ha]. left. unfold two64. split_and!; (done || lia).
    + right. unfold two64. split; [lia|eauto].
  - right. unfold two64. split; [lia|eauto].
Qed.

Lemma region_end_ok start pages :
  range_ok start pages -> region_end start pages = Ok (pages_end start pages).
Proof.
  intros Hok. destruct (region_end_cases start pages) as [[_ H]|[H _]]; [..|done|done];
    destruct Hok as (? & ? & ? & He); unfold u64, pages_end, PAGE_SIZE, two64 in *; lia.
Qed.

Lemma checked_region_end_cases start pages kind :
  u64 start -> u64 pages ->
  (piece_ok (piece start pages kind) /\
   checked_region_end start pages kind = Ok (pages_end start pages)) \/
  (~ piece_ok (piece start pages kind) /\ exists e, checked_region_end start pages kind = Err e).
Proof.
  intros Hs Hp. rewrite piece_ok_iff. unfold checked_region_end.
  destruct (is_known_memory_kind kind); simpl; [|right; split; [naive_solver|eauto]].
  destruct (region_end_cases start pages Hs Hp) as [[? ?]|[? ?]]; [left|right]; tauto.
Qed.

(** ** The writer *)

Definition wlive w : list MemoryRegionV1 := take (rw_len w) (rw_output w).
Definition wpieces w : list Piece := map of_region (wlive w).
Definition wtail w : Z := pieces_tail 0 (wpieces w).

Definition wgood (cap : nat) w : Prop :=
  length (rw_output w) = cap /\ (rw_len w <= cap)%nat /\
  pieces_ok (wpieces w) /\ merged (wpieces w) /\ Forall (fun r => mr_attributes r = 0) (wlive w).

(** The pieces a page-aligned range adds. *)
Lemma pages_between start end_ :
  aligned start -> aligned end_ -> start <= end_ ->
  pages_end start ((end_ - start) / PAGE_SIZE) = end_.
Proof.
  unfold aligned, pages_end, PAGE_SIZE. intros Hs He Hle.
  pose proof (Z.div_mod start 4096). pose proof (Z.div_mod end_ 4096).
  replace (end_ - start) with ((end_ / 4096 - start / 4096) * 4096) by lia.
  rewrite Z.div_mul by lia. lia.
Qed.

Lemma merged_snoc P p :
  merged P ->
  (forall q, last P = Some q -> pc_end q = pc_start p -> pc_kind q <> pc_kind p) ->
  merged (P ++ [p]).
Proof.
  intros HP Hlast i q1 q2 H1 H2 He.
  destruct (decide (S i < length P)%nat) as [Hlt|Hge].
  - rewrite lookup_app_l in H1, H2 by lia. by eapply HP.
  - assert (S i = length P) as Hi.
    { apply lookup_lt_Some in H2. rewrite length_app in H2. simpl in H2. lia. }
    rewrite lookup_app_l in H1 by lia. rewrite lookup_app_r, Hi, Nat.sub_diag in H2 by lia.
    simpl in H2. injection H2 as <-. apply Hlast; [|done]. rewrite last_lookup, <-Hi. done.
Qed.

(** Changing the end of the last piece keeps the map canonical. *)
Lemma merged_extend P p p' :
  merged (P ++ [p]) -> pc_start p' = pc_start p -> pc_kind p' = pc_kind p -> merged (P ++ [p']).
Proof.
  intros H Hs Hk. apply merged_snoc.
  - intros i q1 q2 H1 H2. apply (H i); by apply lookup_app_l_Some.
  - intros q Hq He. rewrite Hs in He. rewrite Hk.
    destruct P as [|q' P _] using rev_ind; [done|]. rewrite last_snoc in Hq. injection Hq as ->.
    apply (H (length P)); [| |done].
    + rewrite <-app_assoc. rewrite lookup_app_r, Nat.sub_diag by done. done.
    + rewrite lookup_app_r by (rewrite length_app; simpl; lia). rewrite length_app. simpl.
      replace (S (length P) - _)%nat with 0%nat by lia. done.
Qed.

Section Emit.
Context (cap : nat) (start end_ kind : Z).
Hypothesis Hstart : 0 <= start.
Hypothesis Hlt : start < end_.
Hypothesis Hend : end_ < two64.
Hypothesis Has : aligned start.
Hypothesis Hae : aligned end_.
Hypothesis Hkind : is_known_memory_kind kind = true.

Let pages := (end_ - start) / PAGE_SIZE.
Let new := mkPiece start end_ kind.

(** The writer [w'] adds the piece to [w]. *)
Definition extends w w' : Prop :=
  wgood cap w' /\ wtail w' = end_ /\ (rw_len w' <= S (rw_len w))%nat /\
  forall a, kind_at (wpieces w') a = if in_piece a new then Some kind else kind_at (wpieces w) a.

Lemma emit_new_spec w :
  wgood cap w -> wtail w <= start ->
  (forall q, last (wpieces w) = Some q -> pc_end q = start -> pc_kind q <> kind) ->
  (exists w', emit_new w start pages kind = Some (Ok tt, w') /\ extends w w') \/
  (emit_new w start pages kind = Some (Err CapacityExceeded, w) /\ rw_len w = cap).
Proof.
  intros (Hcap & Hlen & Hok & Hm & Hattr) Htail Hlast. unfold emit_new. rewrite Hcap.
  destruct (Nat.eqb_spec (rw_len w) cap) as [?|Hne]; [by right|left].
  rewrite array_set_lt by lia. simpl. set (r := mkRegion _ _ _ _). eexists. split; [done|].
  set (w' := mkWriter _ _).
  assert (HL : wlive w' = wlive w ++ [r]) by (apply take_push; lia).
  assert (HP : wpieces w' = wpieces w ++ [new]).
  { unfold wpieces. rewrite HL, map_app. simpl. unfold of_region, piece. simpl.
    unfold pages. by rewrite pages_between by (done || lia). }
  assert (Hnew : pieces_from (pieces_tail 0 (wpieces w)) [new]).
  { simpl. split_and!; [done| |done]. unfold piece_ok. simpl. split_and!; done. }
  unfold extends, wgood, wtail. rewrite HP, HL, pieces_tail_snoc. simpl.
  rewrite length_insert. split_and!; try done; try lia.
  - by apply pieces_from_app.
  - by apply merged_snoc.
  - apply Forall_app. by split; [|repeat constructor].
  - intros a. rewrite kind_at_app. simpl. destruct (in_piece a new) eqn:E; [|by case_match].
    apply in_piece_iff in E. simpl in E. rewrite (kind_at_above 0 (wpieces w) a); [done|done|].
    unfold wtail in Htail. lia.
Qed.

Lemma emit_merge_spec w A r :
  wgood cap w -> wlive w = A ++ [r] -> pc_end (of_region r) = start -> mr_kind r = kind ->
  exists output', array_set (rw_output w) (length A)
      (mkRegion (mr_physical_start r) (mr_page_count r + pages) (mr_kind r) (mr_attributes r))
      = Some output' /\ mr_page_count r + pages < two64 /\
    extends w (mkWriter output' (rw_len w)).
Proof.
  intros (Hcap & Hlen & Hok & Hm & Hattr) HL Hre Hrk. set (r' := mkRegion _ _ _ _).
  assert (Hlen' : rw_len w = S (length A)).
  { assert (Hl : length (wlive w) = rw_len w) by (unfold wlive; rewrite length_take; lia).
    rewrite HL, length_app in Hl. simpl in Hl. lia. }
  rewrite array_set_lt by lia. eexists. split; [done|]. set (w' := mkWriter _ _).
  assert (HL' : wlive w' = A ++ [r']).
  { unfold wlive, w'. simpl. rewrite take_insert_lt by lia. fold (wlive w). rewrite HL.
    by rewrite insert_app_r_alt, Nat.sub_diag by done. }
  assert (Hpc : of_region r' = mkPiece (mr_physical_start r) end_ kind).
  { unfold of_region, piece, r'. simpl. f_equal; [|done].
    unfold of_region, piece in Hre. simpl in Hre. unfold pages_end in *.
    pose proof (pages_between start end_ Has Hae) as Hpb. fold pages in Hpb.
    unfold pages_end in Hpb. lia. }
  unfold wpieces in Hok, Hm. rewrite HL, map_app in Hok, Hm. simpl in Hok, Hm.
  pose proof Hok as [HA (Hlow & Hrok & _)]%pieces_from_app.
  pose proof Hrok as (Hr0 & Hr1 & _ & Hral & _ & _).
  assert (Hrok' : piece_ok (of_region r')).
  { rewrite Hpc. unfold piece_ok. simpl. simpl in Hr0, Hr1, Hral. simpl in Hre.
    split_and!; (done || lia). }
  split.
  { destruct Hrok' as (_ & _ & He & _). unfold of_region, piece, r', pages_end in He. simpl in *.
    unfold PAGE_SIZE in *. lia. }
  unfold extends, wgood, wtail, wpieces. rewrite HL', map_app, HL, map_app. simpl.
  rewrite pieces_tail_snoc, length_insert. split_and!; try done; try lia.
  - apply pieces_from_app. split; [done|]. split_and!; [by rewrite Hpc|done|done].
  - by eapply merged_extend.
  - rewrite HL in Hattr. apply Forall_app in Hattr as [? [? _]%Forall_cons].
    apply Forall_app. by split; [|repeat constructor].
  - by rewrite Hpc.
  - intros a. rewrite !kind_at_app. cbn [kind_at]. rewrite Hpc.
    assert (Hlow' : pieces_tail 0 (map of_region A) <= mr_physical_start r) by exact Hlow.
    assert (Hlts : mr_physical_start r < start) by (rewrite <-Hre; exact Hr1).
    assert (Hpr : of_region r = mkPiece (mr_physical_start r) start kind).
    { rewrite <-Hre, <-Hrk. done. }
    rewrite Hpr. unfold in_piece, new. cbn [pc_start pc_end pc_kind].
    destruct (kind_at (map of_region A) a) eqn:E.
    + assert (a < start) as Ha.
      { destruct (Z_lt_le_dec a start); [done|].
        rewrite (kind_at_above _ _ a HA) in E by lia. done. }
      by rewrite (proj2 (Z.leb_gt start a) Ha).
    + destruct (Z.leb_spec (mr_physical_start r) a), (Z.leb_spec start a),
        (Z.ltb_spec a end_), (Z.ltb_spec a start); simpl; (done || lia).
Qed.
End Emit.

Lemma wpieces_last w A r : wlive w = A ++ [r] -> last (wpieces w) = Some (of_region r).
Proof. intros HL. unfold wpieces. rewrite HL, map_app. apply last_snoc. Qed.

(** Emitting a range, empty or not. *)
Lemma emit_spec cap w start end_ kind :
  wgood cap w -> wtail w <= start -> 0 <= start -> start <= end_ -> end_ < two64 ->
  aligned start -> aligned end_ -> is_known_memory_kind kind = true ->
  (exists w', emit w start end_ kind = Some (Ok tt, w') /\ wgood cap w' /\ wtail w' <= end_ /\
     (rw_len w' <= S (rw_len w))%nat /\
     forall a, kind_at (wpieces w') a =
       if in_piece a (mkPiece start end_ kind) then Some kind else kind_at (wpieces w) a) \/
  (emit w start end_ kind = Some (Err CapacityExceeded, w) /\ rw_len w = cap).
Proof.
  intros Hg Htail H0 Hle Hend Has Hae Hk. unfold emit.
  destruct (Z.eqb_spec start end_) as [->|Hne].
  { left. exists w. split_and!; try done; try lia. intros a.
    rewrite (proj2 (in_piece_false _ _)); [done|simpl; lia]. }
  assert (Hlt : start < end_) by lia. rewrite checked_sub_le by lia. cbn [mbind option_bind].
  assert (Hres : forall R, 
    ((exists w', R = Some (Ok tt, w') /\ extends cap start end_ kind w w') \/
     (R = Some (Err CapacityExceeded, w) /\ rw_len w = cap)) ->
    (exists w', R = Some (Ok tt, w') /\ wgood cap w' /\ wtail w' <= end_ /\
     (rw_len w' <= S (rw_len w))%nat /\
     forall a, kind_at (wpieces w') a =
       if in_piece a (mkPiece start end_ kind) then Some kind else kind_at (wpieces w) a) \/
    (R = Some (Err CapacityExceeded, w) /\ rw_len w = cap)).
  { intros R [(w' & -> & ? & Ht & ? & ?)|?]; [left|by right]. exists w'.
    rewrite Ht. split_and!; (done || lia). }
  apply Hres. pose proof Hg as (Hcap & Hlen & Hok & _).
  assert (Hll : length (wlive w) = rw_len w) by (unfold wlive; rewrite length_take; lia).
  destruct (wlive w) as [|r A _] eqn:HL using rev_ind.
  { assert ((0 <? rw_len w)%nat = false) as -> by by rewrite <-Hll.
    apply emit_new_spec; try done. intros q. unfold wpieces. rewrite HL. done. }
  rewrite length_app in Hll. simpl in Hll. rewrite Nat.add_1_r in Hll.
  assert ((0 <? rw_len w)%nat = true) as -> by by rewrite <-Hll.
  assert (index_pred (rw_len w) = Some (length A)) as -> by by rewrite <-Hll.
  destruct (array_get_live (rw_output w) (rw_len w) (length A) r) as [Hget _].
  { fold (wlive w). rewrite HL, lookup_app_r, Nat.sub_diag by done. done. }
  cbn [mbind option_bind]. rewrite Hget. cbn [mbind option_bind].
  unfold wpieces in Hok. rewrite HL, map_app in Hok.
  pose proof Hok as [_ (_ & Hrok & _)]%pieces_from_app. apply piece_ok_iff in Hrok as [Hrr _].
  rewrite (region_end_ok _ _ Hrr).
  destruct (Z.eqb_spec (mr_kind r) kind) as [Hrk|Hrk]; simpl; [|].
  2: { apply emit_new_spec; try done. rewrite (wpieces_last w A r HL). intros q [= <-] _. done. }
  destruct (Z.eqb_spec (pages_end (mr_physical_start r) (mr_page_count r)) start) as [Hre|Hre].
  - destruct (emit_merge_spec cap start end_ kind Hlt Hend Has Hae Hk w A r Hg HL Hre Hrk)
      as (out' & Hset & Hsum & Hext).
    rewrite checked_add_lt by done. rewrite Hset. left. simpl. eauto.
  - apply emit_new_spec; try done. rewrite (wpieces_last w A r HL). intros q [= <-] He. done.
Qed.

(** ** Painting: what a sequence of emits does to the map *)

(** [w'] says [f] on the addresses of [lo, hi) and what [w] says elsewhere. *)
Definition painted (lo hi : Z) (f : Z -> option Z) w w' : Prop :=
  forall a, kind_at (wpieces w') a =
    if (lo <=? a) && (a <? hi) then f a else kind_at (wpieces w) a.

Lemma painted_refl lo f w : painted lo lo f w w.
Proof. intros a. destruct (Z.leb_spec lo a), (Z.ltb_spec a lo); (done || lia). Qed.

Lemma painted_trans lo mid hi f w w1 w2 :
  lo <= mid -> mid <= hi -> painted lo mid f w w1 -> painted mid hi f w1 w2 -> painted lo hi f w w2.
Proof.
  intros H1 H2 P1 P2 a. rewrite P2, P1.
  destruct (Z.leb_spec mid a), (Z.ltb_spec a hi), (Z.leb_spec lo a), (Z.ltb_spec a mid);
    simpl; (done || lia).
Qed.

Lemma painted_ext lo hi f g w w' :
  (forall a, lo <= a < hi -> f a = g a) -> painted lo hi f w w' -> painted lo hi g w w'.
Proof.
  intros Hfg P a. rewrite P. destruct (Z.leb_spec lo a), (Z.ltb_spec a hi); simpl; auto.
Qed.

(** [emit_spec] in these terms. *)
Lemma emit_paints cap w start end_ kind f :
  wgood cap w -> wtail w <= start -> 0 <= start -> start <= end_ -> end_ < two64 ->
  aligned start -> aligned end_ -> is_known_memory_kind kind = true ->
  (forall a, start <= a < end_ -> f a = Some kind) ->
  (exists w', emit w start end_ kind = Some (Ok tt, w') /\ wgood cap w' /\ wtail w' <= end_ /\
     (rw_len w' <= S (rw_len w))%nat /\ painted start end_ f w w') \/
  (emit w start end_ kind = Some (Err CapacityExceeded, w) /\ rw_len w = cap).
Proof.
  intros Hg Ht H0 Hle Hend Has Hae Hk Hf.
  destruct (emit_spec cap w start end_ kind) as [(w' & ? & ? & ? & ? & HP)|?];
    [done..| |by right]. left. exists w'. split_and!; try done.
  apply (painted_ext _ _ (fun _ => Some kind)); [intros; by rewrite Hf|].
  intros a. rewrite HP. done.
Qed.

(** ** One source region *)

Section Source.
Context (cap : nat) (OV : list MemoryRegionOverride).
Let OP := map of_override OV.
Hypothesis HO : pieces_ok OP.

Section Loop.
Context (kind source_end : Z).
Hypothesis Hend : source_end < two64.
Hypothesis Hae : aligned source_end.
Hypothesis Hkind : is_known_memory_kind kind = true.

(** The kind the merge must give to an address of the source region. *)
Definition replaced (a : Z) : option Z := Some (default kind (kind_at OP a)).

(** The overrides done and left, when the cursor stands at [c]. *)
Definition split_at (c : Z) (index : nat) (dn rest : list MemoryRegionOverride) : Prop :=
  OV = dn ++ rest /\ index = length dn /\ pieces_tail 0 (map of_override dn) <= c.

Lemma split_kind c index dn rest a :
  split_at c index dn rest -> c <= a -> kind_at OP a = kind_at (map of_override rest) a.
Proof.
  intros (HOd & _ & Hc) Ha. unfold OP. rewrite HOd, map_app. apply (kind_at_drop 0); [|lia].
  unfold OP, pieces_ok in HO. rewrite HOd, map_app in HO. by apply pieces_from_app in HO as [? _].
Qed.

Lemma split_next c index dn o rest :
  split_at c index dn (o :: rest) -> pc_end (of_override o) <= c ->
  split_at c (S index) (dn ++ [o]) rest.
Proof.
  intros (HOd & Hi & _) Hc. unfold split_at.
  rewrite map_app, (pieces_tail_snoc 0 _ (of_override o)), length_app, <-app_assoc.
  simpl in *. split_and!; [done|lia|done].
Qed.

Lemma split_head c index dn o rest :
  split_at c index dn (o :: rest) ->
  piece_ok (of_override o) /\
  pieces_from (pc_start (of_override o)) (map of_override (o :: rest)) /\
  array_get OV index = Some o /\ (index < length OV)%nat.
Proof.
  intros (HOd & Hi & _). unfold OP, pieces_ok in HO. rewrite HOd, map_app in HO.
  apply pieces_from_app in HO as [_ Hr]. simpl in Hr. destruct Hr as (? & Hok & Hr).
  split_and!; [done| | |].
  - simpl. split_and!; (done || lia).
  - unfold array_get. rewrite HOd, Hi, lookup_app_r, Nat.sub_diag by done. done.
  - rewrite HOd, Hi, length_app. simpl. lia.
Qed.

(** The outcomes of the loop from the cursor [c] with [n] overrides left. *)
Definition loop_done (c : Z) (n : nat) w
    (R : option (result (Z * nat) NormalizeError * RegionWriter)) : Prop :=
  (exists c' index' dn' rest' w', R = Some (Ok (c', index'), w') /\ wgood cap w' /\
     wtail w' <= c' /\ c <= c' /\ c' <= source_end /\ aligned c' /\
     split_at source_end index' dn' rest' /\
     (forall a, c' <= a < source_end -> kind_at OP a = None) /\
     painted c c' replaced w w' /\
     (rw_len w' + 2 * length rest' <= rw_len w + 2 * n + 2)%nat) \/
  (exists w', R = Some (Err CapacityExceeded, w') /\ length (rw_output w') = cap /\
     (cap < rw_len w + 2 * n + 2)%nat).

Lemma loop_exit c index dn rest w :
  wgood cap w -> wtail w <= c -> c <= source_end -> aligned c -> split_at c index dn rest ->
  (forall a, c <= a < source_end -> kind_at OP a = None) ->
  loop_done c (length rest) w (Some (Ok (c, index), w)).
Proof.
  intros Hg Ht Hle Hac Hs Hnone. left. exists c, index, dn, rest, w.
  split_and!; try done; try lia; [|apply painted_refl].
  destruct Hs as (? & ? & ?). split_and!; (done || lia).
Qed.

Lemma loop_done_skip c n n' w R : (n <= n')%nat -> loop_done c n w R -> loop_done c n' w R.
Proof.
  intros Hn [(c' & i' & dn' & r' & w' & H)|(w' & H)]; [left|right].
  - exists c', i', dn', r', w'. destruct H as (? & ? & ? & ? & ? & ? & ? & ? & ? & ?).
    split_and!; (done || lia).
  - exists w'. destruct H as (? & ? & ?). split_and!; (done || lia).
Qed.

(** Both emits of an iteration: the part before the override, and the override. *)
Lemma loop_paint c index dn o rest w :
  let rs := Z.max (ov_physical_start o) c in
  let oe := Z.min (pc_end (of_override o)) source_end in
  let both K := then_emit (emit w c rs kind) (fun w1 => then_emit (emit w1 rs oe (ov_kind o)) K) in
  wgood cap w -> wtail w <= c -> 0 <= c -> c <= source_end -> aligned c ->
  split_at c index dn (o :: rest) -> c < pc_end (of_override o) ->
  ov_physical_start o < source_end ->
  (exists w2, (forall K : RegionWriter -> option (result (Z * nat) NormalizeError * RegionWriter),
                 both K = K w2) /\
     wgood cap w2 /\ wtail w2 <= oe /\ (rw_len w2 <= rw_len w + 2)%nat /\
     painted c oe replaced w w2 /\ c <= oe /\ aligned oe) \/
  (exists w1, (forall K : RegionWriter -> option (result (Z * nat) NormalizeError * RegionWriter),
                 both K = Some (Err CapacityExceeded, w1)) /\
     length (rw_output w1) = cap /\ (cap <= rw_len w + 1)%nat).
Proof.
  intros rs oe both Hg Ht H0 Hlt Hac Hs Hce Hos.
  destruct (split_head _ _ _ _ _ Hs) as (Hok & Hfrom & _).
  pose proof (fun a => split_kind _ _ _ _ a Hs) as Hkind_at. pose proof Hok as (? & ? & ? & Has & Haoe & Hk).
  cbn [pc_start pc_kind of_override piece] in *.
  assert (Hrs : aligned rs) by (unfold rs; destruct (Z.max_spec (ov_physical_start o) c) as [[_ ->]|[_ ->]]; done).
  assert (Hoe : aligned oe) by (unfold oe; destruct (Z.min_spec (pc_end (of_override o)) source_end) as [[_ ->]|[_ ->]]; done).
  assert (Hbefore : forall a, c <= a < rs -> replaced a = Some kind).
  { intros a Ha. unfold replaced. rewrite Hkind_at by lia. rewrite (kind_at_below _ _ a Hfrom); [done|].
    simpl. unfold rs in Ha. lia. }
  assert (Hover : forall a, rs <= a < oe -> replaced a = Some (ov_kind o)).
  { intros a Ha. unfold replaced. rewrite Hkind_at by (unfold rs in *; lia).
    rewrite (kind_at_elem _ _ (of_override o) a Hfrom); [done|left|]. simpl.
    unfold rs, oe in *. simpl in *. lia. }
  destruct (emit_paints cap w c rs kind replaced) as [(w1 & E1 & Hg1 & Ht1 & Hl1 & P1)|[E1 Hcap]];
    try done; try (unfold rs, oe in *; simpl in *; lia).
  2: { right. exists w. split_and!; [|by destruct Hg|lia]. intros K. unfold both. by rewrite E1. }
  destruct (emit_paints cap w1 rs oe (ov_kind o) replaced) as [(w2 & E2 & Hg2 & Ht2 & Hl2 & P2)|[E2 Hcap]];
    try done; try (unfold rs, oe in *; simpl in *; lia).
  2: { right. exists w1. split_and!; [|by destruct Hg1|lia]. intros K. unfold both. rewrite E1. simpl. by rewrite E2. }
  left. exists w2. split_and!; try done; try lia.
  - intros K. unfold both. rewrite E1. simpl. by rewrite E2.
  - apply (painted_trans c rs oe _ w w1 w2); try done; unfold rs, oe in *; simpl in *; lia.
Qed.

Lemma override_loop_spec rest : forall fuel c index dn w,
  wgood cap w -> wtail w <= c -> 0 <= c -> c <= source_end -> aligned c ->
  split_at c index dn rest -> (length rest < fuel)%nat ->
  loop_done c (length rest) w (override_loop fuel OV index kind source_end c w).
Proof.
  induction rest as [|o rest IH]; intros [|fuel] c index dn w Hg Ht H0 Hle Hac Hs Hf; try (simpl in Hf; lia).
  { simpl. pose proof Hs as (HOd & Hi & _). rewrite app_nil_r in HOd.
    rewrite (proj2 (Nat.ltb_ge _ _)) by (rewrite HOd; lia). apply (loop_exit c index dn []); try done.
    intros a Ha. rewrite (split_kind _ _ _ _ a Hs) by lia. done. }
  destruct (split_head _ _ _ _ _ Hs) as (Hok & Hfrom & Hget & Hlt).
  cbn [override_loop]. rewrite (proj2 (Nat.ltb_lt _ _) Hlt), Hget. cbn [mbind option_bind].
  pose proof Hok as [Hr _]%piece_ok_iff. rewrite (region_end_ok _ _ Hr).
  change (pages_end (ov_physical_start o) (ov_page_count o)) with (pc_end (of_override o)).
  destruct (Z.leb_spec (pc_end (of_override o)) c) as [Hskip|Hce].
  { apply (loop_done_skip c (length rest) (length (o :: rest))); [simpl; lia|].
    apply (IH fuel c (S index) (dn ++ [o]) w); try done; [by apply split_next|simpl in Hf; lia]. }
  destruct (Z.leb_spec source_end (ov_physical_start o)) as [Hafter|Hos].
  { apply (loop_exit c index dn (o :: rest)); try done. intros a Ha.
    rewrite (split_kind _ _ _ _ a Hs) by lia. apply (kind_at_below _ _ a Hfrom). simpl. lia. }
  destruct (loop_paint c index dn o rest w)
    as [(w2 & HK & Hg2 & Ht2 & Hl2 & P2 & Hc2 & Ha2)|(w1 & HK & Hc1 & Hcap)]; try done.
  2: { rewrite HK. right. exists w1. split_and!; [done..|simpl; lia]. }
  rewrite HK. clear HK. set (oe := Z.min _ _) in *.
  destruct (Z.eqb_spec oe (pc_end (of_override o))) as [Heq|Hneq].
  - destruct (IH fuel oe (S index) (dn ++ [o]) w2)
      as [(c' & i' & dn' & r' & w' & HR & Hg' & Ht' & Hcc & Hle' & Ha' & Hs' & Hn' & P' & Hl')|
          (w' & HR & Hc' & Hcap)]; try done; try lia.
    + apply split_next; [|lia]. destruct Hs as (? & ? & ?). split_and!; (done || lia).
    + simpl in Hf. lia.
    + left. exists c', i', dn', r', w'. split_and!; try done; try lia.
      * by apply (painted_trans c oe c' _ w w2 w').
      * simpl. lia.
    + right. exists w'. split_and!; [done..|simpl; lia].
  - assert (oe = source_end) as Hoe by (unfold oe in *; lia).
    left. exists oe, index, dn, (o :: rest), w2. destruct Hs as (? & ? & ?).
    split_and!; try done; try lia. split_and!; (done || lia).
Qed.
End Loop.

Definition source_typed (s : SourceMemoryRegion) : Prop :=
  u64 (sr_physical_start s) /\ u64 (sr_page_count s) /\ u32 (sr_kind s).

(** One source region: rejected if malformed or out of order, else its overlay
    is painted, unless the slice is full. *)
Lemma source_step_spec s ps pe low index dn rest w :
  source_typed s -> prior_bound ps pe low -> 0 <= low -> wgood cap w -> wtail w <= low ->
  split_at low index dn rest ->
  let p := of_source s in
  (low <= pc_start p /\ piece_ok p /\
   ((exists index' dn' rest' w', source_step s OV ps pe index w = Some (Ok (pc_end p, index'), w') /\
       wgood cap w' /\ wtail w' <= pc_end p /\ split_at (pc_end p) index' dn' rest' /\
       painted (pc_start p) (pc_end p) (replaced (sr_kind s)) w w' /\
       (rw_len w' + 2 * length rest' <= rw_len w + 2 * length rest + 3)%nat) \/
    (exists w', source_step s OV ps pe index w = Some (Err CapacityExceeded, w') /\
       length (rw_output w') = cap /\ (cap < rw_len w + 2 * length rest + 3)%nat)))
  \/ (~ (low <= pc_start p /\ piece_ok p) /\
      exists e, source_step s OV ps pe index w = Some (Err e, w)).
Proof.
  intros (Hs & Hp & _) Hb H0 Hg Ht Hsp p. unfold source_step.
  destruct (checked_region_end_cases (sr_physical_start s) (sr_page_count s) (sr_kind s) Hs Hp)
    as [[Hok ->]|[Hno (e & ->)]].
  2: { right. split; [intros [_ ?]; done|eauto]. }
  fold (of_source s) in Hok. fold p in Hok.
  change (pages_end (sr_physical_start s) (sr_page_count s)) with (pc_end p).
  change (sr_physical_start s) with (pc_start p).
  assert (Horder : low <= pc_start p ->
    match ps with Some v => pc_start p <? v | None => false end = false /\
    match pe with Some v => pc_start p <? v | None => false end = false).
  { intros Hlow. destruct ps, pe; simpl in Hb; try done.
    rewrite !(proj2 (Z.ltb_ge _ _)) by lia. done. }
  destruct (Z_lt_le_dec (pc_start p) low) as [Hlow|Hlow].
  { right. split; [lia|]. destruct ps as [v|], pe as [v'|]; simpl in Hb; try done; [|destruct Hok; lia].
    destruct (pc_start p <? v); [eauto|]. rewrite (proj2 (Z.ltb_lt _ _)) by lia. eauto. }
  destruct (Horder Hlow) as [-> ->]. left. split_and!; try done.
  pose proof Hok as (Hp0 & Hp1 & Hp2 & Hpa & Hpe & Hpk). pose proof Hsp as (HOd & Hi & Htl).
  destruct (override_loop_spec (sr_kind s) (pc_end p) Hp2 Hpe Hpk rest (S (length OV)) (pc_start p)
    index dn w) as [(c' & i' & dn' & r' & w1 & -> & Hg1 & Ht1 & Hcc & Hle & Ha1 & Hs1 & Hn1 & P1 & Hl1)|
      (w1 & -> & Hc1 & Hcap)]; try done; try lia.
  { split_and!; (done || lia). }
  { rewrite HOd, length_app. lia. }
  2: { right. exists w1. split_and!; [done..|lia]. }
  destruct (emit_paints cap w1 c' (pc_end p) (sr_kind s) (replaced (sr_kind s)))
    as [(w2 & -> & Hg2 & Ht2 & Hl2 & P2)|[-> Hcap]]; try done; try lia.
  - intros a Ha. unfold replaced. by rewrite Hn1.
  - left. exists i', dn', r', w2. split_and!; try done; [|lia].
    by apply (painted_trans (pc_start p) c' (pc_end p) _ w w1 w2).
  - right. exists w1. split_and!; [done|by destruct Hg1|lia].
Qed.

(** All source regions: the overlay is painted, or the first problem reported;
    well-formed sources only fail for want of room. *)
Lemma source_loop_spec sources : forall ps pe low index dn rest w,
  Forall source_typed sources -> prior_bound ps pe low -> 0 <= low -> wgood cap w ->
  wtail w <= low -> split_at low index dn rest ->
  let P := map of_source sources in
  (exists w', source_loop sources OV ps pe index w = Some (Ok tt, w') /\
     pieces_from low P /\ wgood cap w' /\
     forall a, kind_at (wpieces w') a =
       match overlay P OP a with Some k => Some k | None => kind_at (wpieces w) a end) \/
  (exists e w', source_loop sources OV ps pe index w = Some (Err e, w') /\
     length (rw_output w') = cap /\
     (pieces_from low P -> e = CapacityExceeded /\
        (cap < rw_len w + 2 * length rest + 3 * length sources)%nat)).
Proof.
  induction sources as [|s sources IH]; intros ps pe low index dn rest w Hty Hb H0 Hg Ht Hsp P.
  { left. exists w. split_and!; done. }
  apply Forall_cons in Hty as [Hts Hty].
  destruct (source_step_spec s ps pe low index dn rest w)
    as [(Hlow & Hok & [(i' & dn' & r' & w1 & Hst & Hg1 & Ht1 & Hsp1 & P1 & Hl1)|
                       (w1 & Hst & Hc1 & Hcap)])|[Hno (e & Hst)]]; try done;
    cbn [source_loop]; rewrite Hst.
  - pose proof Hok as (Hp0 & Hp1 & _).
    destruct (IH (Some (sr_physical_start s)) (Some (pc_end (of_source s))) (pc_end (of_source s))
      i' dn' r' w1) as [(w' & HR & HP & Hg' & Hk)|(e & w' & HR & Hc' & Hcap)]; try done; try lia.
    { apply prior_bound_next. simpl in *. lia. }
    + left. exists w'. split_and!; try done. intros a.
      rewrite Hk, P1. unfold overlay, P, replaced. cbn [map kind_at].
      change ((pc_start (of_source s) <=? a) && (a <? pc_end (of_source s)))
        with (in_piece a (of_source s)).
      destruct (in_piece a (of_source s)) eqn:E; [|done].
      apply (in_piece_iff a (of_source s)) in E.
      by rewrite (kind_at_below _ _ a HP) by lia.
    + right. exists e, w'. split_and!; [done..|]. intros (_ & _ & HP).
      destruct (Hcap HP) as [-> ?]. split; [done|simpl; lia].
  - right. exists CapacityExceeded, w1. split_and!; [done..|]. intros _. split; [done|simpl; lia].
  - right. exists e, w. split_and!; [done|by destruct Hg|]. intros (? & ? & _). tauto.
Qed.
End Source.

(** ** The overrides *)

Definition override_typed (o : MemoryRegionOverride) : Prop :=
  u64 (ov_physical_start o) /\ u64 (ov_page_count o) /\ u32 (ov_kind o).

Lemma validate_overrides_loop_spec OV : forall ps pe low,
  Forall override_typed OV -> prior_bound ps pe low -> 0 <= low ->
  (pieces_from low (map of_override OV) /\ validate_overrides_loop OV ps pe = Ok tt) \/
  (~ pieces_from low (map of_override OV) /\ exists e, validate_overrides_loop OV ps pe = Err e).
Proof.
  induction OV as [|o OV IH]; intros ps pe low Hty Hb H0; [by left|].
  apply Forall_cons in Hty as [(Hs & Hp & _) Hty]. cbn [validate_overrides_loop].
  destruct (checked_region_end_cases (ov_physical_start o) (ov_page_count o) (ov_kind o) Hs Hp)
    as [[Hok ->]|[Hno (e & ->)]]; [|right; split; [intros (_ & ? & _); done|eauto]].
  fold (of_override o) in Hok.
  change (pages_end (ov_physical_start o) (ov_page_count o)) with (pc_end (of_override o)).
  change (ov_physical_start o) with (pc_start (of_override o)).
  pose proof Hok as (Hp0 & Hp1 & _).
  destruct (Z_lt_le_dec (pc_start (of_override o)) low) as [Hlow|Hlow].
  { right. split; [intros (? & _); lia|].
    destruct ps as [v|], pe as [v'|]; simpl in Hb; try done; [|lia].
    destruct (pc_start (of_override o) <? v); [eauto|]. rewrite (proj2 (Z.ltb_lt _ _)) by lia. eauto. }
  assert (match ps with Some v => pc_start (of_override o) <? v | None => false end = false /\
    match pe with Some v => pc_start (of_override o) <? v | None => false end = false) as [-> ->].
  { destruct ps, pe; simpl in Hb; try done. rewrite !(proj2 (Z.ltb_ge _ _)) by lia. done. }
  destruct (IH (Some (pc_start (of_override o))) (Some (pc_end (of_override o)))
    (pc_end (of_override o))) as [[HP ->]|[HP (e & ->)]]; try done; try lia.
  - apply prior_bound_next. lia.
  - left. split_and!; try done.
  - right. split; [intros (_ & _ & ?); done|eauto].
Qed.

(** ** Required coverage *)

(** The override is covered by the map with its own kind. *)
Definition covered_by (P : list Piece) (o : MemoryRegionOverride) : Prop :=
  forall a, pc_start (of_override o) <= a < pc_end (of_override o) ->
            kind_at P a = Some (ov_kind o).

Lemma coverage_cursor_spec kind replacement_end L : forall low cursor,
  pieces_from low (map of_region L) -> cursor < replacement_end ->
  exists c, coverage_cursor L kind replacement_end cursor = Ok c /\
    (c = replacement_end <->
     forall a, cursor <= a < replacement_end -> kind_at (map of_region L) a = Some kind).
Proof.
  induction L as [|r L IH]; intros low cursor HP Hlt; cbn [coverage_cursor].
  { exists cursor. split; [done|]. split; [lia|]. intros H. specialize (H cursor).
    simpl in H. discriminate H. lia. }
  destruct HP as (Hlow & Hok & HP). pose proof Hok as [Hr _]%piece_ok_iff.
  rewrite (region_end_ok _ _ Hr).
  change (pages_end (mr_physical_start r) (mr_page_count r)) with (pc_end (of_region r)).
  change (mr_physical_start r) with (pc_start (of_region r)).
  cbn [map kind_at]. set (p := of_region r) in *.
  assert (Hsame : forall lo, pc_end p <= lo -> forall a, lo <= a -> in_piece a p = false).
  { intros lo Hlo a Ha. apply in_piece_false. lia. }
  destruct (Z.leb_spec (pc_end p) cursor) as [Hskip|Hin].
  { destruct (IH _ cursor HP Hlt) as (c & Hc & Hiff). exists c. split; [done|]. rewrite Hiff.
    split; intros H a Ha; specialize (H a Ha); rewrite (Hsame cursor) in * by lia; done. }
  destruct (Z.ltb_spec cursor (pc_start p)) as [Hgap|Hstart]; cbn [orb].
  { exists cursor. split; [done|]. split; [lia|]. intros H. specialize (H cursor).
    rewrite (proj2 (in_piece_false cursor p)) in H by lia.
    rewrite (kind_at_below _ _ cursor HP) in H by (destruct Hok; lia). discriminate H. lia. }
  assert (Hhere : forall a, cursor <= a < pc_end p -> in_piece a p = true).
  { intros a Ha. apply in_piece_iff. lia. }
  change (pc_kind p) with (mr_kind r).
  destruct (Z.eqb_spec (mr_kind r) kind) as [Hk|Hk]; cbn [negb].
  2: { exists cursor. split; [done|]. split; [lia|]. intros H. specialize (H cursor).
       rewrite Hhere in H by lia. injection H; [done|lia]. }
  destruct (Z.eqb_spec (Z.min (pc_end p) replacement_end) replacement_end) as [Hend|Hend].
  { eexists. split; [done|]. split; [|lia]. intros _ a Ha. rewrite Hhere by lia. by rewrite Hk. }
  assert (Hmin : Z.min (pc_end p) replacement_end = pc_end p) by lia. rewrite Hmin in *.
  destruct (IH _ (pc_end p) HP) as (c & Hc & Hiff); [lia|]. exists c. split; [done|]. rewrite Hiff.
  split; intros H a Ha.
  - destruct (in_piece a p) eqn:E; [by rewrite Hk|]. apply H. apply in_piece_false in E. lia.
  - specialize (H a). rewrite (Hsame (pc_end p)) in H by lia. apply H. lia.
Qed.

Lemma validate_required_spec OV L :
  pieces_ok (map of_region L) -> Forall (fun o => piece_ok (of_override o)) OV ->
  (Forall (fun o => ov_require_full_coverage o = true -> covered_by (map of_region L) o) OV /\
   validate_required_overrides OV L = Ok tt) \/
  (~ Forall (fun o => ov_require_full_coverage o = true -> covered_by (map of_region L) o) OV /\
   validate_required_overrides OV L = Err OverrideOutsideSource).
Proof.
  intros HL. induction OV as [|o OV IH]; intros Hok; [left; by split|].
  apply Forall_cons in Hok as [Ho Hok]. specialize (IH Hok). rewrite Forall_cons.
  cbn [validate_required_overrides].
  destruct (ov_require_full_coverage o) eqn:Hreq; simpl.
  2: { destruct IH as [[? ?]|[? ?]]; [left|right]; (split; [|done]); naive_solver. }
  pose proof Ho as [Hr _]%piece_ok_iff. rewrite (region_end_ok _ _ Hr).
  destruct (coverage_cursor_spec (ov_kind o) (pc_end (of_override o)) L 0
    (pc_start (of_override o))) as (c & Hc & Hiff); [done|destruct Ho; lia|].
  cbn [of_override piece pc_start pc_end] in Hc. rewrite Hc.
  change (forall a, pc_start (of_override o) <= a < pc_end (of_override o) ->
    kind_at (map of_region L) a = Some (ov_kind o)) with (covered_by (map of_region L) o) in Hiff.
  destruct (Z.eqb_spec c (pages_end (ov_physical_start o) (ov_page_count o))) as [Heq|Hne]; simpl.
  - apply Hiff in Heq. destruct IH as [[? ?]|[? ?]]; [left|right]; (split; [|done]); naive_solver.
  - right. split; [|done]. intros [Hcov _]. apply Hne, Hiff. by apply Hcov.
Qed.

(** ** The whole normalisation *)

Lemma region_map_pieces L low :
  pieces_from low (map of_region L) -> Forall (fun r => mr_attributes r = 0) L ->
  Forall region_ok L /\ ordered_from low L.
Proof.
  revert low. induction L as [|r L IH]; intros low; [done|].
  intros (Hlow & Hok & HP) [Ha HF]%Forall_cons. destruct (IH _ HP HF) as [HF' Ho].
  apply piece_ok_iff in Hok as [Hr Hk]. split; [by constructor|]. by split.
Qed.

(** The bytes of the override all lie in the source map. *)
Definition source_covers (SP : list Piece) (o : MemoryRegionOverride) : Prop :=
  forall a, pc_start (of_override o) <= a < pc_end (of_override o) -> kind_at SP a <> None.

Definition required_covered (SP : list Piece) (OV : list MemoryRegionOverride) : Prop :=
  Forall (fun o => ov_require_full_coverage o = true -> source_covers SP o) OV.

Lemma pieces_from_Forall low P : pieces_from low P -> Forall piece_ok P.
Proof. revert low. induction P as [|p P IH]; intros low; [done|]. intros (_ & ? & ?). constructor; eauto. Qed.

Lemma overlay_covered P SP OV o :
  pieces_ok (map of_override OV) -> o ∈ OV ->
  (forall a, kind_at P a = overlay SP (map of_override OV) a) ->
  covered_by P o <-> source_covers SP o.
Proof.
  intros HO Ho HP. unfold covered_by, source_covers.
  assert (Hk : forall a, pc_start (of_override o) <= a < pc_end (of_override o) ->
    kind_at (map of_override OV) a = Some (ov_kind o)).
  { intros a Ha. apply (kind_at_elem 0 _ (of_override o)); [done| |done].
    by apply list_elem_of_fmap_2. }
  split; intros H a Ha; specialize (H a Ha); rewrite ?HP in *; unfold overlay in *.
  - by destruct (kind_at SP a).
  - rewrite Hk by done. by destruct (kind_at SP a).
Qed.

Section Normalize.
Context (SRC : list SourceMemoryRegion) (OV : list MemoryRegionOverride) (output : list MemoryRegionV1).
Hypothesis HS : Forall source_typed SRC.
Hypothesis HOV : Forall override_typed OV.
Let SP := map of_source SRC.
Let OP := map of_override OV.

(** The inputs the normalisation is specified on. *)
Definition inputs_ok : Prop :=
  (length output <= MAX_MEMORY_REGIONS)%nat /\ SRC <> [] /\ pieces_ok SP /\ pieces_ok OP.

(** What a successful call leaves in the slice. *)
Definition normalized (n : nat) (output' : list MemoryRegionV1) : Prop :=
  (0 < n <= length output')%nat /\ region_map_ok (take n output') /\
  merged (map of_region (take n output')) /\
  forall a, kind_at (map of_region (take n output')) a = overlay SP OP a.

Lemma source_nonempty w :
  SRC <> [] -> pieces_ok SP -> (forall a, kind_at (wpieces w) a = overlay SP OP a) -> rw_len w <> 0%nat.
Proof.
  intros Hne HSP Hk Hz. unfold wpieces, wlive in Hk. rewrite Hz in Hk.
  unfold SP in *. destruct SRC as [|s SRC']; [done|]. simpl in HSP. destruct HSP as (_ & Hok & _).
  destruct Hok as (_ & Hlt & _). specialize (Hk (pc_start (of_source s))).
  unfold overlay in Hk. cbn [take map kind_at] in Hk.
  rewrite (proj2 (in_piece_iff _ _)) in Hk; [done|lia].
Qed.

Lemma normalize_spec :
  (exists n output', normalize_memory_regions SRC OV output = Some (Ok n, output') /\
     length output' = length output /\ inputs_ok /\ required_covered SP OV /\
     normalized n output') \/
  (exists e output', normalize_memory_regions SRC OV output = Some (Err e, output') /\
     length output' = length output /\
     (inputs_ok ->
        (e = CapacityExceeded /\ (length output < 2 * length OV + 3 * length SRC)%nat) \/
        (e = OverrideOutsideSource /\ ~ required_covered SP OV))).
Proof.
  unfold normalize_memory_regions, inputs_ok.
  destruct (Nat.ltb_spec MAX_MEMORY_REGIONS (length output)) as [Hcap|Hcap].
  { right. eexists _, output. split_and!; [done..|]. intros (? & _). lia. }
  destruct (validate_overrides_loop_spec OV None None 0 HOV) as [[HO HV]|[HO (e & HV)]]; [done|lia|..];
    unfold validate_overrides; rewrite HV.
  2: { right. exists e, output. split_and!; [done..|]. intros (_ & _ & _ & ?). done. }
  assert (Hg0 : wgood (length output) (writer_new output)).
  { unfold wgood, wpieces, wlive. simpl. split_and!; try done; try lia. }
  destruct (source_loop_spec (length output) OV HO SRC None None 0 0 [] OV (writer_new output))
    as [(w & -> & HP & Hg & Hk)|(e & w & -> & Hlen & Hc)]; try done; try lia.
  2: { right. exists e, (rw_output w). split_and!; [done..|]. intros (_ & _ & HP & _).
       destruct (Hc HP) as [-> Hlt]. left. split; [done|]. simpl in Hlt. lia. }
  pose proof Hg as (Hlen & Hle & Hok & Hm & Hattr).
  assert (Hk' : forall a, kind_at (wpieces w) a = overlay SP OP a).
  { intros a. rewrite Hk. change (wpieces (writer_new output)) with (@nil Piece). simpl.
    fold SP OP. by destruct (overlay SP OP a). }
  destruct (Nat.ltb_spec 0 (length SRC)) as [Hne|Hne]; simpl.
  2: { right. eexists _, (rw_output w). split_and!; [done..|]. intros (_ & Hne' & _).
       destruct SRC; [done|simpl in Hne; lia]. }
  assert (HSne : SRC <> []) by (intros HS0; rewrite HS0 in Hne; simpl in Hne; lia).
  pose proof (source_nonempty w HSne HP Hk') as Hnz. rewrite (proj2 (Nat.eqb_neq _ _) Hnz).
  rewrite slice_to_le by lia. cbn [mbind option_bind]. fold (wlive w).
  assert (Hreq : required_covered SP OV <-> Forall (fun o => ov_require_full_coverage o = true ->
    covered_by (map of_region (wlive w)) o) OV).
  { unfold required_covered. rewrite !Forall_forall. split; intros H o Ho Hr; specialize (H o Ho Hr);
      apply (overlay_covered (wpieces w) SP OV o HO Ho Hk'); done. }
  destruct (validate_required_spec OV (wlive w)) as [[Hcov ->]|[Hcov ->]]; [done|..].
  { exact (proj1 (Forall_fmap _ _ _) (pieces_from_Forall 0 _ HO)). }
  - left. exists (rw_len w), (rw_output w). split_and!; try done; [by apply Hreq|].
    unfold normalized. fold (wlive w). split_and!; try done; try lia.
    exact (region_map_pieces _ _ Hok Hattr).
  - right. eexists _, (rw_output w). split_and!; [done..|]. intros _. right.
    split; [done|]. by rewrite Hreq.
Qed.
End Normalize.
