(* ===== verification/BootValidate.v ===== *)
(** * Validating the boot handoff

    Models [crates/boot-contract/src/validate.rs] in full, in the order of its
    tests.  A slice is its base address and its contents; [size_of] and
    [align_of] are the computed layouts of [BootContract]. *)

From S2P Require Import Prelude.
From S2P Require Import BootContract.

Inductive ValidationError :=
| Magic | AbiMajor | AbiMinor | HeaderSize | HandoffSize | Flags | Reserved
| HandoffAddress | RegionAddress | RegionCount | RegionEntrySize | RegionSlice
| RegionZeroPages | RegionAlignment | RegionOverflow | RegionOrder | RegionOverlap
| RegionKind | RegionAttributes | HandoffInUsableMemory | RegionArrayInUsableMemory
| FramebufferFlag | FramebufferFields | FramebufferPixelFormat | FramebufferStride
| FramebufferLength | FramebufferOverflow | FramebufferInUsableMemory.

#[global] Instance ValidationError_eq_dec : EqDecision ValidationError.
Proof. solve_decision. Defined.

Definition validate_header (header : BootHandoffHeaderV1) : result unit ValidationError :=
  if negb (bool_decide (hd_magic header = HANDOFF_MAGIC)) then Err Magic else
  if negb (hd_abi_major header =? ABI_MAJOR) then Err AbiMajor else
  if negb (hd_abi_minor header =? ABI_MINOR) then Err AbiMinor else
  if negb (hd_header_size header =? layout_size header_layout) then Err HeaderSize else
  if negb (hd_handoff_size header =? layout_size handoff_layout) then Err HandoffSize else
  if negb (Z.land (hd_flags header) (not32 FRAMEBUFFER_PRESENT) =? 0) then Err Flags else
  if negb (hd_reserved header =? 0) then Err Reserved else
  Ok tt.

Definition framebuffer_present (handoff : BootHandoffV1) : bool :=
  negb (Z.land (hd_flags (ho_header handoff)) FRAMEBUFFER_PRESENT =? 0).

Definition validate_framebuffer_shape (handoff : BootHandoffV1) : result unit ValidationError :=
  if negb (framebuffer_present handoff) then
    if is_zero (ho_framebuffer handoff) then Ok tt else Err FramebufferFlag
  else
  let framebuffer := ho_framebuffer handoff in
  if (fb_physical_start framebuffer =? 0)
     || (fb_byte_length framebuffer =? 0)
     || (fb_width framebuffer =? 0)
     || (fb_height framebuffer =? 0)
     || (fb_stride_pixels framebuffer =? 0)
     || negb (fb_reserved framebuffer =? 0)
  then Err FramebufferFields else
  if negb (fb_pixel_format framebuffer =? PIXEL_FORMAT_RGB)
     && negb (fb_pixel_format framebuffer =? PIXEL_FORMAT_BGR)
  then Err FramebufferPixelFormat else
  if fb_stride_pixels framebuffer <? fb_width framebuffer then Err FramebufferStride else
  let? minimum_length :=
    ok_or (pixels ← checked_mul (fb_stride_pixels framebuffer) (fb_height framebuffer);
           checked_mul pixels 4) FramebufferOverflow in
  if fb_byte_length framebuffer <? minimum_length then Err FramebufferLength else
  let? _ := ok_or (checked_add (fb_physical_start framebuffer) (fb_byte_length framebuffer))
              FramebufferOverflow in
  Ok tt.

Definition validate_handoff_header (handoff : BootHandoffV1) : result Z ValidationError :=
  let? _ := validate_header (ho_header handoff) in
  if (ho_memory_region_count handoff =? 0)
     || (Z.of_nat MAX_MEMORY_REGIONS <? ho_memory_region_count handoff)
  then Err RegionCount else
  if (ho_memory_regions_address handoff =? 0)
     || negb (is_multiple_of (ho_memory_regions_address handoff) (layout_align region_layout))
  then Err RegionAddress else
  if negb (ho_memory_region_entry_size handoff =? layout_size region_layout)
  then Err RegionEntrySize else
  let region_count := ho_memory_region_count handoff in
  let? region_bytes := ok_or (checked_mul region_count (layout_size region_layout))
                         RegionOverflow in
  let? _ := ok_or (checked_add (ho_memory_regions_address handoff) region_bytes)
              RegionOverflow in
  let? _ := validate_framebuffer_shape handoff in
  Ok region_count.

Definition region_end (region : MemoryRegionV1) : result Z ValidationError :=
  let? bytes := ok_or (checked_mul (mr_page_count region) PAGE_SIZE) RegionOverflow in
  ok_or (checked_add (mr_physical_start region) bytes) RegionOverflow.

Fixpoint overlaps_usable (start end_ : Z) (regions : list MemoryRegionV1)
    : result bool ValidationError :=
  match regions with
  | [] => Ok false
  | region :: rest =>
      if negb (mr_kind region =? MEMORY_USABLE) then overlaps_usable start end_ rest else
      let? region_end := region_end region in
      if (start <? region_end) && (mr_physical_start region <? end_) then Ok true
      else overlaps_usable start end_ rest
  end.

(** The loop of [validate_handoff] over the regions. *)
Fixpoint validate_regions (regions : list MemoryRegionV1) (previous_start previous_end : option Z)
    : result unit ValidationError :=
  match regions with
  | [] => Ok tt
  | region :: rest =>
      if mr_page_count region =? 0 then Err RegionZeroPages else
      if negb (is_multiple_of (mr_physical_start region) PAGE_SIZE) then Err RegionAlignment else
      if negb (is_known_memory_kind (mr_kind region)) then Err RegionKind else
      if negb (mr_attributes region =? 0) then Err RegionAttributes else
      let? end_ := region_end region in
      if match previous_start with
         | Some start => mr_physical_start region <? start | None => false end
      then Err RegionOrder else
      if match previous_end with
         | Some previous_end => mr_physical_start region <? previous_end | None => false end
      then Err RegionOverlap else
      validate_regions rest (Some (mr_physical_start region)) (Some end_)
  end.

(** [validate_handoff]; [regions_ptr] is [regions.as_ptr()].  The product
    [region_count * size_of::<MemoryRegionV1>()] repeats one that
    [validate_handoff_header] checked; its wrap-around is written out. *)
Definition validate_handoff (handoff : BootHandoffV1) (handoff_address : Z)
    (regions_ptr : Z) (regions : list MemoryRegionV1) : result unit ValidationError :=
  let? region_count := validate_handoff_header handoff in
  if (handoff_address =? 0)
     || negb (is_multiple_of handoff_address (layout_align handoff_layout))
  then Err HandoffAddress else
  let? handoff_end := ok_or (checked_add handoff_address (layout_size handoff_layout))
                        HandoffAddress in
  if negb (Z.of_nat (length regions) =? region_count)
     || negb (ho_memory_regions_address handoff =? regions_ptr)
  then Err RegionSlice else
  let? _ := validate_regions regions None None in
  let? handoff_overlaps := overlaps_usable handoff_address handoff_end regions in
  if (handoff_overlaps : bool) then Err HandoffInUsableMemory else
  let? region_array_end :=
    ok_or (checked_add (ho_memory_regions_address handoff)
             ((region_count * layout_size region_layout) mod two64)) RegionOverflow in
  let? array_overlaps :=
    overlaps_usable (ho_memory_regions_address handoff) region_array_end regions in
  if (array_overlaps : bool) then Err RegionArrayInUsableMemory else
  if framebuffer_present handoff then
    let? framebuffer_end :=
      ok_or (checked_add (fb_physical_start (ho_framebuffer handoff))
               (fb_byte_length (ho_framebuffer handoff))) FramebufferOverflow in
    let? framebuffer_overlaps :=
      overlaps_usable (fb_physical_start (ho_framebuffer handoff)) framebuffer_end regions in
    if (framebuffer_overlaps : bool) then Err FramebufferInUsableMemory else Ok tt
  else Ok tt.
