(* ===== verification/BootTheorems.v ===== *)
(** * The boot contract: theorems

    The validation of the handoff accepts exactly the handoffs of a declarative
    contract ([handoff_ok]), and the normalisation of the firmware map produces
    exactly the [overlay], as a map the validation accepts. *)

From S2P Require Import Prelude.
From S2P Require Import BootContract.
From S2P Require Import Panic.
From S2P Require Import BootNormalize.
From S2P Require Import BootNormalizeProofs.
From S2P Require Import BootValidate.

(** ** The contract of a handoff *)

(** The range [s, e) holds no usable byte. *)
Definition clear_of_usable (regions : list MemoryRegionV1) (s e : Z) : Prop :=
  forall x, s <= x < e -> ~ usable regions x.

Definition framebuffer_ok (h : BootHandoffV1) : Prop :=
  let f := ho_framebuffer h in
  if framebuffer_present h then
    0 < fb_physical_start f /\ 0 < fb_byte_length f /\ 0 < fb_width f /\ 0 < fb_height f /\
    fb_width f <= fb_stride_pixels f /\ fb_reserved f = 0 /\
    (fb_pixel_format f = PIXEL_FORMAT_RGB \/ fb_pixel_format f = PIXEL_FORMAT_BGR) /\
    fb_stride_pixels f * fb_height f * 4 <= fb_byte_length f /\
    fb_physical_start f + fb_byte_length f < two64
  else is_zero f = true.

Definition handoff_ok (h : BootHandoffV1) (address ptr : Z) (regions : list MemoryRegionV1) : Prop :=
  let count := Z.of_nat (length regions) in
  is_v1 (ho_header h) = true /\
  ho_memory_region_count h = count /\ 1 <= count <= 1024 /\
  ho_memory_regions_address h = ptr /\ ptr <> 0 /\ ptr mod 8 = 0 /\ ptr + 24 * count < two64 /\
  ho_memory_region_entry_size h = 24 /\
  address <> 0 /\ address mod 8 = 0 /\ address + 88 < two64 /\
  framebuffer_ok h /\ region_map_ok regions /\
  clear_of_usable regions address (address + 88) /\
  clear_of_usable regions ptr (ptr + 24 * count) /\
  (framebuffer_present h = true ->
   clear_of_usable regions (fb_physical_start (ho_framebuffer h))
     (fb_physical_start (ho_framebuffer h) + fb_byte_length (ho_framebuffer h))).

Definition framebuffer_typed (f : FramebufferV1) : Prop :=
  u64 (fb_physical_start f) /\ u64 (fb_byte_length f) /\ u32 (fb_width f) /\ u32 (fb_height f) /\
  u32 (fb_stride_pixels f) /\ u32 (fb_pixel_format f) /\ u64 (fb_reserved f).

Definition handoff_typed (h : BootHandoffV1) : Prop :=
  u64 (ho_memory_regions_address h) /\ u32 (ho_memory_region_count h) /\
  u32 (ho_memory_region_entry_size h) /\ framebuffer_typed (ho_framebuffer h).

(** ** The parts of the validation *)

Lemma two64_eq : two64 = 18446744073709551616.
Proof. done. Qed.

Lemma validate_header_ok h : validate_header h = Ok tt <-> is_v1 h = true.
Proof.
  unfold validate_header, is_v1. rewrite !andb_true_iff.
  destruct (bool_decide _), (hd_abi_major h =? _), (hd_abi_minor h =? _), (hd_header_size h =? _),
    (hd_handoff_size h =? _), (Z.land _ _ =? 0), (hd_reserved h =? 0); simpl; intuition congruence.
Qed.

Lemma validate_framebuffer_shape_ok h :
  framebuffer_typed (ho_framebuffer h) ->
  validate_framebuffer_shape h = Ok tt <-> framebuffer_ok h.
Proof.
  intros (Hs & Hl & Hw & Hh & Hst & _ & Hr). unfold validate_framebuffer_shape, framebuffer_ok, u64, u32 in *.
  destruct (framebuffer_present h); simpl; [|by destruct (is_zero _)].
  set (f := ho_framebuffer h) in *.
  destruct (_ || negb (fb_reserved f =? 0)) eqn:Hf; b2p; [split; [done|lia]|].
  destruct (negb _ && _) eqn:Hp; b2p; [split; [done|lia]|].
  destruct (Z.ltb_spec (fb_stride_pixels f) (fb_width f)); [split; [done|lia]|].
  assert (Hprod : fb_stride_pixels f * fb_height f <= 18446744065119617025).
  { transitivity (4294967295 * 4294967295); [|lia]. apply Z.mul_le_mono_nonneg; lia. }
  rewrite checked_mul_lt by (unfold two64; lia). cbn [mbind option_bind].
  destruct (checked_mul _ 4) as [ml|] eqn:Hm; simpl; b2p; [|unfold two64; split; [done|lia]].
  destruct Hm as [-> Hm].
  destruct (Z.ltb_spec (fb_byte_length f) (fb_stride_pixels f * fb_height f * 4)); [split; [done|lia]|].
  destruct (checked_add (fb_physical_start f) _) eqn:Ha; simpl; b2p; unfold two64; split; (done || lia).
Qed.

Lemma validate_regions_ok regions : forall ps pe low,
  Forall region_typed regions -> prior_bound ps pe low -> 0 <= low ->
  validate_regions regions ps pe = Ok tt <->
  Forall region_ok regions /\ ordered_from low regions.
Proof.
  induction regions as [|m rest IH]; intros ps pe low Hty Hb H0; [simpl; split; [by split|done]|].
  apply Forall_cons in Hty as [(Hs & Hp & _ & _) Hty]. simpl. rewrite Forall_cons.
  unfold u64, region_ok, range_ok, is_multiple_of in *. set (start := mr_physical_start m) in *.
  destruct (Z.eqb_spec (mr_page_count m) 0); [split; [done|lia]|].
  destruct (Z.eqb_spec (start mod PAGE_SIZE) 0); simpl; [|split; [done|tauto]].
  destruct (is_known_memory_kind (mr_kind m)); simpl; [|split; [done|naive_solver]].
  destruct (Z.eqb_spec (mr_attributes m) 0); simpl; [|split; [done|tauto]].
  unfold region_end. fold start.
  destruct (checked_mul (mr_page_count m) PAGE_SIZE) as [bytes|] eqn:Hm; simpl; b2p.
  2: { unfold pages_end, two64. split; [done|lia]. }
  destruct Hm as [-> Hm].
  destruct (checked_add start (mr_page_count m * PAGE_SIZE)) as [en|] eqn:Ha; simpl; b2p.
  2: { unfold pages_end, two64. split; [done|lia]. }
  destruct Ha as [-> Ha]. fold (pages_end start (mr_page_count m)) in *.
  assert (Hend : start <= pages_end start (mr_page_count m)) by (unfold pages_end, PAGE_SIZE; lia).
  specialize (IH (Some start) (Some (pages_end start (mr_page_count m)))
    (pages_end start (mr_page_count m)) Hty (prior_bound_next _ _ Hend)).
  rewrite <-two64_eq in *.
  destruct ps as [v|], pe as [v'|]; simpl in Hb; try done.
  - destruct (Z.ltb_spec start v); [split; [done|lia]|].
    destruct (Z.ltb_spec start v'); [split; [done|lia]|]. rewrite IH by lia.
    split; [intros [? ?]|intros ([_ ?] & _ & ?)]; split_and!; (done || lia).
  - rewrite IH by lia. split; [intros [? ?]|intros ([_ ?] & _ & ?)]; split_and!; (done || lia).
Qed.

Lemma overlaps_usable_spec regions s e :
  Forall region_ok regions -> s < e ->
  exists b, overlaps_usable s e regions = Ok b /\ (b = false <-> clear_of_usable regions s e).
Proof.
  intros Hok Hlt. induction regions as [|m rest IH].
  { exists false. split; [done|]. split; [|done]. intros _ x _ (m & Hm & _). by apply elem_of_nil in Hm. }
  apply Forall_cons in Hok as [((H0 & Hal & Hp & Hend) & _) Hok].
  destruct (IH Hok) as (b & Hb & Hiff). unfold clear_of_usable in *.
  setoid_rewrite usable_cons. simpl.
  destruct (Z.eqb_spec (mr_kind m) MEMORY_USABLE) as [Hk|Hk]; simpl.
  2: { exists b. split; [done|]. rewrite Hiff. split; intros H x Hx; specialize (H x Hx); tauto. }
  unfold region_end. rewrite checked_mul_lt by (unfold pages_end in Hend; lia). simpl.
  rewrite checked_add_lt by done. simpl. fold (pages_end (mr_physical_start m) (mr_page_count m)).
  set (start := mr_physical_start m) in *. set (en := pages_end start (mr_page_count m)) in *.
  assert (Hne : start < en) by (unfold en, pages_end, PAGE_SIZE; lia).
  destruct ((s <? en) && (start <? e)) eqn:Ht; b2p.
  - exists true. split; [done|]. split; [done|]. intros H. exfalso.
    apply (H (Z.max s start)); [lia|]. left. split; [done|]. unfold in_range. fold en. lia.
  - exists b. split; [done|]. rewrite Hiff. unfold in_range. fold en.
    split; intros H x Hx; specialize (H x Hx); [|tauto]. intros [[_ ?]|?]; [lia|done].
Qed.

(** ** The whole validation *)

Lemma validate_handoff_header_ok h n :
  handoff_typed h ->
  validate_handoff_header h = Ok n <->
  is_v1 (ho_header h) = true /\ n = ho_memory_region_count h /\ 1 <= n <= 1024 /\
  ho_memory_regions_address h <> 0 /\ ho_memory_regions_address h mod 8 = 0 /\
  ho_memory_region_entry_size h = 24 /\ ho_memory_regions_address h + 24 * n < two64 /\
  framebuffer_ok h.
Proof.
  intros (Ha & Hc & He & Hf). unfold validate_handoff_header, u64, u32 in *.
  destruct layouts_abi as (_ & -> & _ & _). simpl. unfold is_multiple_of.
  change (Z.of_nat MAX_MEMORY_REGIONS) with 1024.
  pose proof (validate_header_ok (ho_header h)) as Hh.
  destruct (validate_header (ho_header h)) as [[]|]; [|split; [done|]; intros [H _]; by apply Hh in H].
  destruct (_ || _) eqn:Hcnt; b2p; [split; [done|lia]|].
  destruct (_ || _) eqn:Hadr; b2p; [split; [done|lia]|].
  destruct (Z.eqb_spec (ho_memory_region_entry_size h) 24); simpl; [|split; [done|tauto]].
  rewrite checked_mul_lt by (unfold two64; lia). simpl.
  destruct (checked_add _ _) as [en|] eqn:Hadd; simpl; b2p; [|unfold two64; split; [done|lia]].
  pose proof (validate_framebuffer_shape_ok h Hf) as Hfb.
  destruct (validate_framebuffer_shape h) as [[]|].
  - assert (framebuffer_ok h) by by apply Hfb. assert (is_v1 (ho_header h) = true) by by apply Hh.
    unfold two64. split; [intros [= <-]|intros (_ & -> & _)]; [|done]. split_and!; (done || lia).
  - split; [done|]. intros (_ & _ & _ & _ & _ & _ & _ & H). by apply Hfb in H.
Qed.

Lemma validate_handoff_ok h address ptr regions :
  handoff_typed h -> u64 address -> Forall region_typed regions ->
  validate_handoff h address ptr regions = Ok tt <-> handoff_ok h address ptr regions.
Proof.
  intros Hh Ha Hr. unfold validate_handoff, handoff_ok, u64 in *.
  pose proof (validate_handoff_header_ok h) as Hhd.
  destruct (validate_handoff_header h) as [n|er].
  2: { split; [done|]. intros (Hv & Hn & Hc & Hp & Hp0 & Hp8 & Hpe & Hes & _ & _ & _ & Hfb & _).
       assert (Err er = Ok (ho_memory_region_count h)) as Hx; [|done].
       apply Hhd; [done|]. rewrite Hp, Hn in *. split_and!; (done || lia). }
  destruct (proj1 (Hhd n Hh) eq_refl) as (Hv & -> & Hn & Hp0 & Hp8 & Hes & Hpe & Hfb). clear Hhd.
  destruct layouts_abi as (_ & -> & _ & ->). simpl. unfold is_multiple_of.
  destruct (_ || _) eqn:Hadr; b2p; [split; [done|lia]|].
  destruct (checked_add address 88) as [he|] eqn:Hadd; simpl; b2p; [|unfold two64; split; [done|lia]].
  destruct Hadd as [-> Hadd].
  destruct (_ || _) eqn:Hsl; b2p; [split; [done|lia]|]. destruct Hsl as [Hlen Hptr].
  pose proof (validate_regions_ok regions None None 0 Hr eq_refl ltac:(lia)) as Hreg.
  destruct (validate_regions regions None None) as [[]|];
    [|split; [done|]; intros H; assert (region_map_ok regions) as Hx by tauto; by apply Hreg in Hx].
  destruct (proj1 Hreg eq_refl) as [Hok Hord].
  destruct (overlaps_usable_spec regions address (address + 88) Hok) as (b1 & -> & Hb1); [lia|].
  rewrite Z.mod_small by (unfold two64; lia). rewrite checked_add_lt by lia. simpl.
  destruct (overlaps_usable_spec regions (ho_memory_regions_address h)
    (ho_memory_regions_address h + ho_memory_region_count h * 24) Hok) as (b2 & -> & Hb2); [lia|].
  rewrite Hlen, <-Hptr. rewrite (Z.mul_comm _ 24) in *.
  set (count := ho_memory_region_count h) in *. set (arr := ho_memory_regions_address h) in *.
  assert (Hrest : is_v1 (ho_header h) = true /\ count = count /\ 1 <= count <= 1024 /\ arr = arr /\
    arr <> 0 /\ arr mod 8 = 0 /\ arr + 24 * count < two64 /\ ho_memory_region_entry_size h = 24 /\
    address <> 0 /\ address mod 8 = 0 /\ address + 88 < two64 /\ framebuffer_ok h /\
    region_map_ok regions).
  { split_and!; try done; try tauto; try (unfold two64 in *; lia). }
  assert (Hfinal : forall (P1 P2 P3 : Prop) (R : Prop),
    (R <-> P1 /\ P2 /\ P3) -> (R <-> (is_v1 (ho_header h) = true /\ count = count /\
      1 <= count <= 1024 /\ arr = arr /\
      arr <> 0 /\ arr mod 8 = 0 /\ arr + 24 * count < two64 /\ ho_memory_region_entry_size h = 24 /\
      address <> 0 /\ address mod 8 = 0 /\ address + 88 < two64 /\ framebuffer_ok h /\
      region_map_ok regions /\ P1 /\ P2 /\ P3))) by tauto.
  apply Hfinal. rewrite <-Hb1, <-Hb2. clear Hrest Hfinal Hb1 Hb2.
  unfold framebuffer_ok in Hfb. destruct b1; [split; [done|intros (? & _); done]|].
  destruct b2; [split; [done|intros (_ & ? & _); done]|].
  destruct (framebuffer_present h); [|split; [by intros; split_and!|done]].
  destruct Hfb as (? & ? & _ & _ & _ & _ & _ & _ & Hfe). rewrite checked_add_lt by done. simpl.
  destruct (overlaps_usable_spec regions (fb_physical_start (ho_framebuffer h))
    (fb_physical_start (ho_framebuffer h) + fb_byte_length (ho_framebuffer h)) Hok)
    as (b3 & -> & Hb3); [lia|]. rewrite <-Hb3.
  destruct b3; split; [done|intros (_ & _ & Hx); by specialize (Hx eq_refl)|by intros; split_and!|done].
Qed.

(** ** Theorems *)

(** C40: validating a handoff accepts exactly the handoffs of the contract
    [handoff_ok]: a version-1 header, one to 1024 regions of 24 bytes at the
    announced aligned address, the structures representable, a framebuffer that
    is absent and zero or complete and large enough, a well-formed ordered
    memory map, and the handoff, the region array and the framebuffer all clear
    of usable memory. *)
Theorem validate_handoff_exact h address ptr regions :
  handoff_typed h -> u64 address -> Forall region_typed regions ->
  validate_handoff h address ptr regions = Ok tt <-> handoff_ok h address ptr regions.
Proof. apply validate_handoff_ok. Qed.

(** C38: normalising never panics, and when it succeeds with [n] regions, the
    sources and the overrides were well formed and every required override was
    covered by the sources; the first [n] entries are then a well-formed map
    without mergeable neighbours that gives each address the kind of the
    override covering it if any, else the kind of its source region, and
    nothing outside the sources. *)
Theorem normalize_exact sources overrides output :
  Forall source_typed sources -> Forall override_typed overrides ->
  exists r output', normalize_memory_regions sources overrides output = Some (r, output') /\
    length output' = length output /\
    forall n, r = Ok n ->
      inputs_ok sources overrides output /\ required_covered (map of_source sources) overrides /\
      normalized sources overrides n output'.
Proof.
  intros HS HO. destruct (normalize_spec sources overrides output HS HO)
    as [(n & out & Hn & Hlen & H)|(e & out & Hn & Hlen & _)]; eexists _, out; (split_and!; [done..|]).
  - intros n' [= <-]. exact H.
  - done.
Qed.

(** On well-formed inputs with enough room (two entries per override and
    three per source always are), the normalisation succeeds exactly when the
    sources cover every required override, and otherwise reports
    [OverrideOutsideSource]. *)
Theorem normalize_complete sources overrides output :
  Forall source_typed sources -> Forall override_typed overrides ->
  inputs_ok sources overrides output ->
  (2 * length overrides + 3 * length sources <= length output)%nat ->
  (required_covered (map of_source sources) overrides /\
   exists n output', normalize_memory_regions sources overrides output = Some (Ok n, output')) \/
  (~ required_covered (map of_source sources) overrides /\
   exists output', normalize_memory_regions sources overrides output
                   = Some (Err OverrideOutsideSource, output')).
Proof.
  intros HS HO Hok Hroom. destruct (normalize_spec sources overrides output HS HO)
    as [(n & out & Hn & _ & _ & Hreq & _)|(e & out & Hn & _ & He)].
  - left. eauto.
  - destruct (He Hok) as [[_ ?]|[-> ?]]; [lia|]. right. eauto.
Qed.

(** ** Witnesses *)

Definition sample_sources : list SourceMemoryRegion :=
  [mkSource 4096 8 1; mkSource 36864 4 0; mkSource 65536 2 1].

(** The loader's image inside the first source, across into the second. *)
Definition sample_overrides : list MemoryRegionOverride :=
  [mkOverride 8192 2 2 true; mkOverride 32768 3 2 true].

Definition sample_output : list MemoryRegionV1 := replicate 16 (mkRegion 0 0 0 0).

Lemma sample_sources_typed : Forall source_typed sample_sources.
Proof. repeat constructor; vm_compute; (done || lia). Qed.

Lemma sample_overrides_typed : Forall override_typed sample_overrides.
Proof. repeat constructor; vm_compute; (done || lia). Qed.

Lemma sample_inputs_ok : inputs_ok sample_sources sample_overrides sample_output.
Proof. unfold inputs_ok. vm_compute. repeat split; lia || done. Qed.

Lemma normalize_exact_witness :
  exists output', normalize_memory_regions sample_sources sample_overrides sample_output
                  = Some (Ok 6%nat, output') /\
    region_map_ok (take 6 output') /\
    take 6 output' = [mkRegion 4096 1 1 0; mkRegion 8192 2 2 0; mkRegion 16384 4 1 0;
                      mkRegion 32768 3 2 0; mkRegion 45056 2 0 0; mkRegion 65536 2 1 0].
Proof.
  destruct (normalize_exact sample_sources sample_overrides sample_output sample_sources_typed
    sample_overrides_typed) as (r & out & Hr & _ & Hok).
  assert (r = Ok 6%nat) as -> by (vm_compute in Hr; congruence).
  exists out. split; [exact Hr|]. split; [apply (Hok 6%nat eq_refl)|].
  vm_compute in Hr. injection Hr as <-. reflexivity.
Defined.

Lemma normalize_complete_witness :
  exists n output', normalize_memory_regions sample_sources sample_overrides sample_output
                    = Some (Ok n, output').
Proof.
  destruct (normalize_complete sample_sources sample_overrides sample_output sample_sources_typed
    sample_overrides_typed sample_inputs_ok) as [[_ H]|[_ (out & H)]].
  - vm_compute. lia.
  - exact H.
  - exfalso. vm_compute in H. congruence.
Defined.

Definition sample_map : list MemoryRegionV1 := [mkRegion 4096 4 1 0; mkRegion 20480 2 2 0].

Definition sample_handoff : BootHandoffV1 :=
  mkHandoff header_new 24576 2 24 (mkFramebuffer 0 0 0 0 0 0 0).

Lemma validate_handoff_exact_witness :
  validate_handoff sample_handoff 20480 24576 sample_map = Ok tt /\
  handoff_ok sample_handoff 20480 24576 sample_map.
Proof.
  assert (H : validate_handoff sample_handoff 20480 24576 sample_map = Ok tt)
    by (vm_compute; reflexivity).
  split; [exact H|].
  apply (validate_handoff_exact sample_handoff 20480 24576 sample_map); [| | |exact H].
  - unfold handoff_typed, framebuffer_typed, u64, u32. simpl. lia.
  - unfold u64. lia.
  - repeat constructor; vm_compute; (done || lia).
Defined.

(** * From the firmware map to frames

    Puts the boot contract and the frame allocator together: a validated
    handoff always initialises the allocator and no frame it ever hands out
    touches the handoff structures, and a normalised firmware map yields an
    allocator that manages exactly the addresses the overlay calls usable. *)

From S2P Require Import FrameAllocator.
From S2P Require Import Extents.
From S2P Require Import FrameInit.
From S2P Require Import FrameOps.
From S2P Require Import FrameTheorems.

(** A well-formed map of at most 1024 regions always initialises. *)
Lemma initialize_accepts regions fa :
  Forall region_typed regions -> arrays_ok fa -> region_map_ok regions ->
  (length regions <= MAX_MEMORY_REGIONS)%nat ->
  exists fa', initialize regions fa = Some (Ok tt, fa') /\ fa_inv fa' /\
    live_free fa' = live_managed fa' /\
    forall x, covers (live_managed fa') x <-> usable regions x.
Proof.
  intros Ht Ha Hok Hlen. destruct (initialize_spec regions fa Ht Ha) as [(_ & _ & H)|[Hno _]]; [done|].
  exfalso. apply Hno. split; [done|]. pose proof (usable_runs_le None regions).
  unfold MAX_FRAME_EXTENTS. lia.
Qed.

(** A frame in usable memory is usable in every byte. *)
Lemma usable_frame regions f x :
  region_map_ok regions -> f mod PAGE_SIZE = 0 -> usable regions f -> f <= x < f + PAGE_SIZE ->
  usable regions x.
Proof.
  intros [Hok _] Hf (m & Hm & Hk & Hr) Hx. exists m. split_and!; [done..|].
  rewrite Forall_forall in Hok. destruct (Hok m Hm) as ((_ & Hal & _) & _).
  unfold in_range in *. pose proof (aligned_lt f _ Hf (pages_end_aligned _ (mr_page_count m) Hal)).
  lia.
Qed.

Lemma region_map_to_pieces regions low :
  0 <= low -> Forall region_ok regions -> ordered_from low regions ->
  pieces_from low (map of_region regions).
Proof.
  revert low. induction regions as [|m rest IH]; intros low H0 Hok Hord; [done|].
  apply Forall_cons in Hok as [(Hr & Hk & _) Hok]. destruct Hord as [Hlow Hord].
  cbn [map pieces_from]. split_and!; [done|by apply piece_ok_iff|]. apply IH; [|done..].
  destruct Hr as (? & _ & ? & _). simpl. unfold pages_end, PAGE_SIZE. lia.
Qed.

(** The usable bytes of a map, told by its kinds. *)
Lemma usable_kind_at regions x :
  region_map_ok regions ->
  usable regions x <-> kind_at (map of_region regions) x = Some MEMORY_USABLE.
Proof.
  intros [Hok Hord]. pose proof (region_map_to_pieces regions 0 ltac:(lia) Hok Hord) as HP. split.
  - intros (m & Hm & Hk & Hr). rewrite (kind_at_elem 0 _ (of_region m) x HP); [by rewrite <-Hk| |done].
    by apply list_elem_of_fmap_2.
  - intros (p & Hp & Hr & Hk)%kind_at_Some. apply list_elem_of_fmap in Hp as (m & -> & Hm).
    by exists m.
Qed.

(** Every kind of an overlay is the kind of a source or of an override. *)
Lemma overlay_typed sources overrides a k :
  Forall source_typed sources -> Forall override_typed overrides ->
  overlay (map of_source sources) (map of_override overrides) a = Some k -> u32 k.
Proof.
  intros HS HO. pose proof (proj1 (Forall_forall _ _) HS) as HS'.
  pose proof (proj1 (Forall_forall _ _) HO) as HO'. unfold overlay.
  destruct (kind_at (map of_source sources) a) as [ks|] eqn:Es; [|done].
  apply kind_at_Some in Es as (p & Hp & _ & Hk). apply list_elem_of_fmap in Hp as (s & -> & Hs).
  destruct (kind_at (map of_override overrides) a) as [ko|] eqn:Eo; simpl; intros [= <-].
  - apply kind_at_Some in Eo as (q & Hq & _ & Hk'). apply list_elem_of_fmap in Hq as (o & -> & Ho).
    rewrite <-Hk'. by destruct (HO' o Ho) as (_ & _ & ?).
  - rewrite <-Hk. by destruct (HS' s Hs) as (_ & _ & ?).
Qed.

(** The entries of a normalised map are machine integers. *)
Lemma normalized_typed sources overrides n output' :
  Forall source_typed sources -> Forall override_typed overrides ->
  normalized sources overrides n output' -> Forall region_typed (take n output').
Proof.
  intros HS HO (_ & [Hok Hord] & _ & Hk). pose proof (region_map_to_pieces _ 0 ltac:(lia) Hok Hord) as HP.
  apply Forall_forall. intros m Hm. rewrite Forall_forall in Hok.
  destruct (Hok m Hm) as ((H0 & _ & Hp & He) & _ & Hat).
  assert (Hkind : kind_at (map of_region (take n output')) (mr_physical_start m) = Some (mr_kind m)).
  { apply (kind_at_elem 0 _ (of_region m)); [done|by apply list_elem_of_fmap_2|].
    simpl. unfold pages_end, PAGE_SIZE. lia. }
  rewrite Hk in Hkind. apply overlay_typed in Hkind; [|done..].
  unfold region_typed, u64, pages_end, PAGE_SIZE, two64, u32 in *. split_and!; (done || lia).
Qed.

(** ** Theorems *)

(** A validated handoff initialises the frame allocator, whatever state it
    was in, and along every run that starts from it each frame handed out lies
    in usable memory and touches neither the handoff, nor the region array, nor
    the framebuffer. *)
Theorem boot_memory_isolated h address ptr regions :
  handoff_typed h -> u64 address -> Forall region_typed regions ->
  validate_handoff h address ptr regions = Ok tt ->
  (forall fa, arrays_ok fa -> exists fa', initialize regions fa = Some (Ok tt, fa')) /\
  (forall fa owned f x, run regions (fa, owned) -> f ∈ owned -> f <= x < f + PAGE_SIZE ->
     usable regions x /\ ~ address <= x < address + 88 /\
     ~ ptr <= x < ptr + 24 * Z.of_nat (length regions) /\
     (framebuffer_present h = true ->
      ~ fb_physical_start (ho_framebuffer h) <= x <
          fb_physical_start (ho_framebuffer h) + fb_byte_length (ho_framebuffer h))).
Proof.
  intros Hh Ha Hr Hv. apply validate_handoff_ok in Hv; [|done..].
  destruct Hv as (_ & _ & Hcnt & _ & _ & _ & _ & _ & _ & _ & _ & _ & Hmap & Hc1 & Hc2 & Hc3). split.
  - intros fa Hfa. destruct (initialize_accepts regions fa) as (fa' & Hi & _); [done..| |by eauto].
    unfold MAX_MEMORY_REGIONS. lia.
  - intros fa owned f x Hrun Hf Hx.
    pose proof (partition_run regions _ Hr Hrun) as (_ & _ & _ & Hal & Hpart).
    assert (Hux : usable regions x).
    { apply (usable_frame regions f); [done|by apply Hal| |done].
      apply Hpart; [by apply Hal|by left]. }
    split; [done|]. split; [intros H; exact (Hc1 x H Hux)|].
    split; [intros H; exact (Hc2 x H Hux)|]. intros Hp H. exact (Hc3 Hp x H Hux).
Qed.

(** a successfully normalised firmware map passes the region checks of the
    handoff and initialises the allocator, which then manages, all free,
    exactly the addresses whose overlay kind is usable. *)
Theorem normalized_map_boots sources overrides output n output' fa :
  Forall source_typed sources -> Forall override_typed overrides -> arrays_ok fa ->
  normalize_memory_regions sources overrides output = Some (Ok n, output') ->
  validate_regions (take n output') None None = Ok tt /\
  exists fa', initialize (take n output') fa = Some (Ok tt, fa') /\ fa_inv fa' /\
    live_free fa' = live_managed fa' /\
    forall x, covers (live_managed fa') x <->
      overlay (map of_source sources) (map of_override overrides) x = Some MEMORY_USABLE.
Proof.
  intros HS HO Hfa Hn. destruct (normalize_spec sources overrides output HS HO)
    as [(n' & out & Hn' & Hlen & (Hcap & _) & _ & Hnorm)|(e & out & Hn' & _)]; [|congruence].
  assert (n' = n /\ out = output') as [-> ->] by (split; congruence).
  pose proof (normalized_typed _ _ _ _ HS HO Hnorm) as Hty.
  destruct Hnorm as ((_ & Hle) & Hmap & _ & Hk). split.
  - apply (validate_regions_ok _ None None 0); [done|done|lia|exact Hmap].
  - destruct (initialize_accepts (take n output') fa) as (fa' & Hi & Hinv & HL & Hcov); [done..| |].
    { rewrite length_take. lia. }
    exists fa'. split_and!; [done..|]. intros x. rewrite Hcov, (usable_kind_at _ _ Hmap), Hk. done.
Qed.

(** ** Witnesses *)

Lemma sample_map_typed : Forall region_typed sample_map.
Proof. repeat constructor; vm_compute; (done || lia). Qed.

Definition booted : FrameAllocator :=
  match initialize sample_map allocator_new with Some (_, fa) => fa | None => allocator_new end.
Definition booted_once : FrameAllocator :=
  match allocate_frame booted with Some (_, fa) => fa | None => allocator_new end.

Lemma boot_memory_isolated_witness :
  validate_handoff sample_handoff 20480 24576 sample_map = Ok tt /\
  run sample_map (booted_once, [4096]) /\ ~ 20480 <= 4096 < 20480 + 88.
Proof.
  assert (Hv : validate_handoff sample_handoff 20480 24576 sample_map = Ok tt)
    by (vm_compute; reflexivity).
  assert (Hr : run sample_map (booted_once, [4096])).
  { eapply run_next; [apply (run_start _ booted); vm_compute; reflexivity|].
    apply run_allocate. vm_compute. reflexivity. }
  split_and!; [exact Hv|exact Hr|].
  apply (boot_memory_isolated sample_handoff 20480 24576 sample_map) with (fa := booted_once)
    (owned := [4096]) (f := 4096); [| |exact sample_map_typed|exact Hv|exact Hr| |].
  - unfold handoff_typed, framebuffer_typed, u64, u32. simpl. lia.
  - unfold u64. lia.
  - apply list_elem_of_here.
  - unfold PAGE_SIZE. lia.
Defined.

Lemma normalized_map_boots_witness :
  exists n output' fa',
    normalize_memory_regions sample_sources sample_overrides sample_output = Some (Ok n, output') /\
    initialize (take n output') allocator_new = Some (Ok tt, fa') /\ fa_inv fa'.
Proof.
  destruct (normalize_memory_regions sample_sources sample_overrides sample_output)
    as [[[n|e] out]|] eqn:Hn; [|exfalso; vm_compute in Hn; congruence..].
  destruct (normalized_map_boots sample_sources sample_overrides sample_output n out allocator_new
    sample_sources_typed sample_overrides_typed arrays_ok_new Hn) as (_ & fa' & Hi & Hinv & _).
  exists n, out, fa'. split_and!; [reflexivity|exact Hi|exact Hinv].
Defined.
