(* ===== verification/AddressSpace.v ===== *)
(** * Task address spaces

    Models [crates/address-space/src/lib.rs] in full: the fixed layout and its
    check, the frame ledger, the owner with its lifecycle and tokens, the
    construction with its rollback, the pair construction, the checked teardown
    and the fault classifier.  The page-table backend is the trait
    [AddressSpaceBackend], here a type class over the backend's state. *)

From S2P Require Import Prelude.
From S2P Require Import Panic.

(** ** Constants and flags *)

Definition PAGE_SIZE : Z := 4096.
Definition BOOTSTRAP_PAGE_TABLE_FRAMES : nat := 32.
Definition TASK_LEDGER_CAPACITY : nat := 16.
Definition TASK_FRAME_COUNT : nat := 7.

Definition USER_TEXT : Z := 0x0000008000400000.
Definition INVALID_WRITE_TARGET : Z := 0x0000008000600000.
Definition USER_STACK_GUARD_LOWER : Z := 0x00000080007ff000.
Definition USER_STACK : Z := 0x0000008000800000.
Definition USER_STACK_GUARD_UPPER : Z := 0x0000008000801000.
Definition USER_STACK_TOP : Z := USER_STACK + PAGE_SIZE.

Definition RECOVERY_STACK_BASE : Z := 0xffffff0000001000.
Definition RECOVERY_STACK_SIZE : Z := 64 * 1024.
Definition RECOVERY_STACK_TOP : Z := RECOVERY_STACK_BASE + RECOVERY_STACK_SIZE.
Definition RECOVERY_STACK_GUARD_LOWER : Z := RECOVERY_STACK_BASE - PAGE_SIZE.
Definition RECOVERY_STACK_GUARD_UPPER : Z := RECOVERY_STACK_TOP.

Definition DOUBLE_FAULT_STACK_BASE : Z := 0xffffff0000021000.
Definition DOUBLE_FAULT_STACK_SIZE : Z := 16 * 1024.
Definition DOUBLE_FAULT_STACK_TOP : Z := DOUBLE_FAULT_STACK_BASE + DOUBLE_FAULT_STACK_SIZE.
Definition DOUBLE_FAULT_STACK_GUARD_LOWER : Z := DOUBLE_FAULT_STACK_BASE - PAGE_SIZE.
Definition DOUBLE_FAULT_STACK_GUARD_UPPER : Z := DOUBLE_FAULT_STACK_TOP.

Definition TEMPORARY_WINDOW : Z := 0xffffff8000000000.
Definition USER_PML4_INDEX : Z := 1.
Definition SHARED_PML4_INDICES : list Z := [0; 510; 511].

(** *** The bootstrap page-table budget *)

Record BootstrapBudget := mkBudget { bb_used : nat }.
Inductive BootstrapBudgetError := BudgetExhausted.

Definition budget_new : BootstrapBudget := mkBudget 0.

Definition budget_claim (b : BootstrapBudget)
    : result nat BootstrapBudgetError * BootstrapBudget :=
  if (bb_used b =? BOOTSTRAP_PAGE_TABLE_FRAMES)%nat then (Err BudgetExhausted, b)
  else (Ok (bb_used b), mkBudget (S (bb_used b))).

(** *** Mapping flags: a transparent [u64] *)

Definition MappingFlags : Type := Z.

Definition PRESENT : MappingFlags := Z.shiftl 1 0.
Definition WRITABLE : MappingFlags := Z.shiftl 1 1.
Definition USER_ACCESSIBLE : MappingFlags := Z.shiftl 1 2.
Definition WRITE_THROUGH : MappingFlags := Z.shiftl 1 3.
Definition CACHE_DISABLE : MappingFlags := Z.shiftl 1 4.
Definition NO_EXECUTE : MappingFlags := Z.shiftl 1 63.

Definition flags_contains (self other : MappingFlags) : bool := Z.land self other =? other.
Definition flags_union (self other : MappingFlags) : MappingFlags := Z.lor self other.

Definition TABLE_FLAGS : MappingFlags := flags_union (flags_union PRESENT WRITABLE) USER_ACCESSIBLE.
Definition USER_TEXT_FLAGS : MappingFlags := flags_union PRESENT USER_ACCESSIBLE.
Definition USER_STACK_FLAGS : MappingFlags :=
  flags_union (flags_union (flags_union PRESENT WRITABLE) USER_ACCESSIBLE) NO_EXECUTE.
Definition SUPERVISOR_RX_FLAGS : MappingFlags := PRESENT.
Definition SUPERVISOR_R_FLAGS : MappingFlags := flags_union PRESENT NO_EXECUTE.
Definition SUPERVISOR_RW_FLAGS : MappingFlags := flags_union (flags_union PRESENT WRITABLE) NO_EXECUTE.

Record MappingSpec := mkMapping { ms_virtual_address : Z; ms_flags : MappingFlags }.

Definition USER_MAPPINGS : list MappingSpec :=
  [mkMapping USER_TEXT USER_TEXT_FLAGS; mkMapping USER_STACK USER_STACK_FLAGS].

(** *** Table indices *)

Definition is_canonical_48 (address : Z) : bool :=
  let upper := Z.shiftr address 48 in
  let sign := Z.land (Z.shiftr address 47) 1 in
  ((sign =? 0) && (upper =? 0)) || ((sign =? 1) && (upper =? 0xffff)).

Definition pml4_index (address : Z) : Z := Z.land (Z.shiftr address 39) 0x1ff.
Definition pml3_index (address : Z) : Z := Z.land (Z.shiftr address 30) 0x1ff.
Definition pml2_index (address : Z) : Z := Z.land (Z.shiftr address 21) 0x1ff.
Definition pml1_index (address : Z) : Z := Z.land (Z.shiftr address 12) 0x1ff.

(** ** Frames and links *)

Inductive FrameRole := Root | UserPml3 | UserPml2 | TextPml1 | StackPml1 | Text | Stack.

#[global] Instance FrameRole_eq_dec : EqDecision FrameRole.
Proof. solve_decision. Defined.

Definition FrameRole_ALL : list FrameRole :=
  [Root; UserPml3; UserPml2; TextPml1; StackPml1; Text; Stack].

Definition role_index (r : FrameRole) : nat :=
  match r with
  | Root => 0 | UserPml3 => 1 | UserPml2 => 2 | TextPml1 => 3 | StackPml1 => 4 | Text => 5
  | Stack => 6
  end%nat.

Record LinkSpec := mkLink {
  ln_parent : FrameRole;
  ln_child : FrameRole;
  ln_entry_index : Z;
  ln_flags : MappingFlags
}.

#[global] Instance LinkSpec_eq_dec : EqDecision LinkSpec.
Proof. solve_decision. Defined.

Definition BUILD_LINKS : list LinkSpec :=
  [mkLink Root UserPml3 (pml4_index USER_TEXT) TABLE_FLAGS;
   mkLink UserPml3 UserPml2 (pml3_index USER_TEXT) TABLE_FLAGS;
   mkLink UserPml2 TextPml1 (pml2_index USER_TEXT) TABLE_FLAGS;
   mkLink UserPml2 StackPml1 (pml2_index USER_STACK) TABLE_FLAGS;
   mkLink TextPml1 Text (pml1_index USER_TEXT) USER_TEXT_FLAGS;
   mkLink StackPml1 Stack (pml1_index USER_STACK) USER_STACK_FLAGS].

(** ** The fixed layout *)

Inductive LayoutError :=
| NonCanonical | LayoutUnaligned | LayoutOverlap | WrongOrder | WrongPml4Slot
| WritableExecutable | MissingUserAccess | GuardMapped.

Definition layout_addresses : list Z :=
  [USER_TEXT; INVALID_WRITE_TARGET; USER_STACK_GUARD_LOWER; USER_STACK; USER_STACK_GUARD_UPPER;
   RECOVERY_STACK_BASE; RECOVERY_STACK_GUARD_LOWER; RECOVERY_STACK_GUARD_UPPER;
   DOUBLE_FAULT_STACK_BASE; DOUBLE_FAULT_STACK_GUARD_LOWER; DOUBLE_FAULT_STACK_GUARD_UPPER;
   TEMPORARY_WINDOW].

Fixpoint check_addresses (addresses : list Z) : result unit LayoutError :=
  match addresses with
  | [] => Ok tt
  | address :: rest =>
      if negb (is_canonical_48 address) then Err NonCanonical else
      if negb (address mod PAGE_SIZE =? 0) then Err LayoutUnaligned else
      check_addresses rest
  end.

Definition layout_pages : list Z :=
  [USER_TEXT; INVALID_WRITE_TARGET; USER_STACK_GUARD_LOWER; USER_STACK; USER_STACK_GUARD_UPPER;
   RECOVERY_STACK_GUARD_LOWER; RECOVERY_STACK_BASE; RECOVERY_STACK_GUARD_UPPER;
   DOUBLE_FAULT_STACK_GUARD_LOWER; DOUBLE_FAULT_STACK_BASE; DOUBLE_FAULT_STACK_GUARD_UPPER;
   TEMPORARY_WINDOW].

(** The nested loops over pairs of pages. *)
Fixpoint check_distinct (pages : list Z) : result unit LayoutError :=
  match pages with
  | [] => Ok tt
  | left_page :: rest =>
      if existsb (fun right_page => left_page =? right_page) rest then Err LayoutOverlap else check_distinct rest
  end.

Fixpoint check_mappings (mappings : list MappingSpec) : result unit LayoutError :=
  match mappings with
  | [] => Ok tt
  | mapping :: rest =>
      if negb (flags_contains (ms_flags mapping) USER_ACCESSIBLE) then Err MissingUserAccess else
      if flags_contains (ms_flags mapping) WRITABLE
         && negb (flags_contains (ms_flags mapping) NO_EXECUTE)
      then Err WritableExecutable else
      check_mappings rest
  end.

Definition guard_pages : list Z :=
  [INVALID_WRITE_TARGET; USER_STACK_GUARD_LOWER; USER_STACK_GUARD_UPPER;
   RECOVERY_STACK_GUARD_LOWER; RECOVERY_STACK_GUARD_UPPER; DOUBLE_FAULT_STACK_GUARD_LOWER;
   DOUBLE_FAULT_STACK_GUARD_UPPER].

Definition validate_fixed_layout : result unit LayoutError :=
  let? _ := check_addresses layout_addresses in
  if negb (pml4_index USER_TEXT =? USER_PML4_INDEX)
     || negb (pml4_index USER_STACK =? USER_PML4_INDEX)
  then Err WrongPml4Slot else
  if negb (pml4_index RECOVERY_STACK_BASE =? 510)
     || negb (pml4_index DOUBLE_FAULT_STACK_BASE =? 510)
     || negb (pml4_index TEMPORARY_WINDOW =? 511)
  then Err WrongPml4Slot else
  if negb ((USER_TEXT <? INVALID_WRITE_TARGET)
           && (INVALID_WRITE_TARGET <? USER_STACK_GUARD_LOWER)
           && (USER_STACK_GUARD_LOWER <? USER_STACK)
           && (USER_STACK <? USER_STACK_GUARD_UPPER))
  then Err WrongOrder else
  let? _ := check_distinct layout_pages in
  let? _ := check_mappings USER_MAPPINGS in
  if existsb (fun mapping => existsb (Z.eqb (ms_virtual_address mapping)) guard_pages) USER_MAPPINGS
  then Err GuardMapped else
  Ok tt.

(** ** The ledger and the owner *)

Inductive LifecycleState := Building | Inactive | Active | Dead.

#[global] Instance LifecycleState_eq_dec : EqDecision LifecycleState.
Proof. solve_decision. Defined.

Record OwnedFrame := mkFrame { of_role : FrameRole; of_physical_start : Z }.

#[global] Instance OwnedFrame_eq_dec : EqDecision OwnedFrame.
Proof. solve_decision. Defined.

Definition EMPTY_FRAME : OwnedFrame := mkFrame Root 0.

Record FrameLedger := mkLedger { fl_frames : list OwnedFrame; fl_len : nat }.

Inductive OwnerError :=
| InvalidGeneration | InvalidFrame | DuplicateFrame | LedgerFull | WrongState | RootNotOwned
| StaleOwner | StaleToken | InvalidTokenAddress.

#[global] Instance OwnerError_eq_dec : EqDecision OwnerError.
Proof. solve_decision. Defined.

Definition ledger_new : FrameLedger := mkLedger (replicate TASK_LEDGER_CAPACITY EMPTY_FRAME) 0.

Definition as_slice (l : FrameLedger) : option (list OwnedFrame) := slice_to (fl_frames l) (fl_len l).

Definition push_owned (l : FrameLedger) (frame : OwnedFrame)
    : option (result unit OwnerError * FrameLedger) :=
  if (fl_len l =? TASK_LEDGER_CAPACITY)%nat then Some (Err LedgerFull, l) else
  frames ← array_set (fl_frames l) (fl_len l) frame;
  Some (Ok tt, mkLedger frames (S (fl_len l))).

Definition validate_latest (l : FrameLedger) : option (result unit OwnerError) :=
  slice ← as_slice l;
  match last slice with
  | None => Some (Ok tt)
  | Some frame =>
      let previous := removelast slice in
      if negb (is_multiple_of (of_physical_start frame) PAGE_SIZE) then Some (Err InvalidFrame) else
      if existsb (fun owned => (of_physical_start owned =? of_physical_start frame)
                               || bool_decide (of_role owned = of_role frame)) previous
      then Some (Err DuplicateFrame) else
      Some (Ok tt)
  end.

Definition ledger_pop (l : FrameLedger) : option (option OwnedFrame * FrameLedger) :=
  if (fl_len l =? 0)%nat then Some (None, l) else
  len ← index_pred (fl_len l);
  frame ← array_get (fl_frames l) len;
  frames ← array_set (fl_frames l) len EMPTY_FRAME;
  Some (Some frame, mkLedger frames len).

Definition frame_for (l : FrameLedger) (role : FrameRole) : option (option Z) :=
  slice ← as_slice l;
  Some (option_map of_physical_start
          (List.find (fun frame => bool_decide (of_role frame = role)) slice)).

Record AddressSpaceOwner := mkOwner {
  ow_generation : Z;
  ow_generation_live : bool;
  ow_state : LifecycleState;
  ow_root : option Z;
  ow_ledger : FrameLedger
}.

(** [AddressSpaceOwner::begin] *)
Definition owner_begin (generation : Z) : result AddressSpaceOwner OwnerError :=
  if generation =? 0 then Err InvalidGeneration
  else Ok (mkOwner generation true Building None ledger_new).

Definition set_ledger (o : AddressSpaceOwner) (l : FrameLedger) : AddressSpaceOwner :=
  mkOwner (ow_generation o) (ow_generation_live o) (ow_state o) (ow_root o) l.

Definition record_frame (o : AddressSpaceOwner) (frame : OwnedFrame)
    : option (result unit OwnerError * AddressSpaceOwner) :=
  if negb (bool_decide (ow_state o = Building)) || negb (ow_generation_live o)
  then Some (Err WrongState, o) else
  pushed ← push_owned (ow_ledger o) frame;
  match pushed with
  | (Err e, l) => Some (Err e, set_ledger o l)
  | (Ok _, l) => r ← validate_latest l; Some (r, set_ledger o l)
  end.

Definition publish (o : AddressSpaceOwner) (root : Z)
    : option (result unit OwnerError * AddressSpaceOwner) :=
  if negb (bool_decide (ow_state o = Building)) || negb (ow_generation_live o)
  then Some (Err WrongState, o) else
  owned ← frame_for (ow_ledger o) Root;
  if negb (bool_decide (owned = Some root))
     || negb (fl_len (ow_ledger o) =? TASK_FRAME_COUNT)%nat
  then Some (Err RootNotOwned, o) else
  Some (Ok tt, mkOwner (ow_generation o) (ow_generation_live o) Inactive (Some root) (ow_ledger o)).

Definition set_state (o : AddressSpaceOwner) (s : LifecycleState) : AddressSpaceOwner :=
  mkOwner (ow_generation o) (ow_generation_live o) s (ow_root o) (ow_ledger o).

Definition activate (o : AddressSpaceOwner) : result unit OwnerError * AddressSpaceOwner :=
  if negb (bool_decide (ow_state o = Inactive)) || negb (ow_generation_live o)
  then (Err WrongState, o) else (Ok tt, set_state o Active).

Definition recover (o : AddressSpaceOwner) : result unit OwnerError * AddressSpaceOwner :=
  if negb (bool_decide (ow_state o = Active)) || negb (ow_generation_live o)
  then (Err WrongState, o) else (Ok tt, set_state o Inactive).

Record MappingToken := mkToken { mt_generation : Z; mt_virtual_address : Z }.

Definition user_mapped (virtual_address : Z) : bool :=
  existsb (fun mapping => ms_virtual_address mapping =? virtual_address) USER_MAPPINGS.

Definition mapping_token (o : AddressSpaceOwner) (virtual_address : Z)
    : result MappingToken OwnerError :=
  if negb (ow_generation_live o) || bool_decide (ow_state o = Dead) then Err StaleOwner else
  if negb (is_multiple_of virtual_address PAGE_SIZE) || negb (user_mapped virtual_address)
  then Err InvalidTokenAddress else
  Ok (mkToken (ow_generation o) virtual_address).

Definition validate_token (o : AddressSpaceOwner) (token : MappingToken) : result unit OwnerError :=
  if negb (ow_generation_live o) || bool_decide (ow_state o = Dead) then Err StaleOwner else
  if negb (mt_generation token =? ow_generation o) then Err StaleToken else
  if negb (is_multiple_of (mt_virtual_address token) PAGE_SIZE)
     || negb (user_mapped (mt_virtual_address token))
  then Err InvalidTokenAddress else
  Ok tt.

(** ** The backend *)

(** A computation on the backend's state; [None] is a panic ([expect]). *)
Definition P (B A : Type) : Type := B -> option (A * B).

Definition retP {B A} (a : A) : P B A := fun b => Some (a, b).
Definition bindP {B A C} (m : P B A) (k : A -> P B C) : P B C :=
  fun b => match m b with Some (a, b') => k a b' | None => None end.

(** A computation of the owner alone, which may panic. *)
Definition pureP {B A} (o : option A) : P B A :=
  fun b => match o with Some a => Some (a, b) | None => None end.

Declare Scope backend_scope.
Delimit Scope backend_scope with backend.
Notation "'let*' x ':=' m 'in' k" := (bindP m (fun x => k))
  (at level 10, x pattern, m at level 100, k at level 200,
   format "'[v' 'let*'  x  ':='  m  'in' '/' k ']'") : backend_scope.
#[local] Open Scope backend_scope.

(** A call of the backend. *)
Definition callP {B A} (m : B -> A * B) : P B A := fun b => Some (m b).

(** The trait [AddressSpaceBackend]: methods on [&mut self] returning a
    [Result]. *)
Class AddressSpaceBackend (B E : Type) := {
  be_allocate_frame : FrameRole -> B -> result Z E * B;
  be_prepare_frame : Z -> FrameRole -> Z -> B -> result unit E * B;
  be_install_link : LinkSpec -> Z -> Z -> B -> result unit E * B;
  be_remove_link : LinkSpec -> Z -> Z -> B -> result unit E * B;
  be_clear_shared_entries : Z -> B -> result unit E * B;
  be_clear_temporary_window : B -> result unit E * B;
  be_verify_unreachable : list OwnedFrame -> B -> result unit E * B;
  be_return_frame : OwnedFrame -> B -> result unit E * B
}.

Inductive BuildCause (E : Type) :=
| CauseBackend (e : E)
| CauseOwner (e : OwnerError).
Arguments CauseBackend {E}.
Arguments CauseOwner {E}.

Record BuildFailure (E : Type) := mkBuildFailure {
  bf_cause : BuildCause E;
  bf_rollback_error : option E;
  bf_retained : FrameLedger
}.
Arguments mkBuildFailure {E}.
Arguments bf_cause {E}.
Arguments bf_rollback_error {E}.
Arguments bf_retained {E}.

Record TeardownFailure (E : Type) := mkTeardownFailure {
  tf_error : E;
  tf_owner : AddressSpaceOwner
}.
Arguments mkTeardownFailure {E}.
Arguments tf_error {E}.
Arguments tf_owner {E}.

Inductive CheckedTeardownFailure (E : Type) :=
| FailureOwner (error : OwnerError) (owner : AddressSpaceOwner)
| FailureBackend (failure : TeardownFailure E).
Arguments FailureOwner {E}.
Arguments FailureBackend {E}.

Record AddressSpacePair := mkPair { ap_first : AddressSpaceOwner; ap_second : AddressSpaceOwner }.

Inductive PairBuildFailure (E : Type) :=
| PairFirst (failure : BuildFailure E)
| PairSecond (second : BuildFailure E) (first_teardown : option (CheckedTeardownFailure E)).
Arguments PairFirst {E}.
Arguments PairSecond {E}.

(** ** Construction, rollback and teardown *)

Section Backend.
Context {B E : Type} `{AddressSpaceBackend B E}.

(** [owner.ledger.frame_for(role).expect(..)] *)
Definition expect_frame (l : FrameLedger) (role : FrameRole) : P B Z :=
  let* f := pureP (frame_for l role) in pureP f.

(** [for link in links { ..; backend.remove_link(link, parent, child)?; }] *)
Fixpoint remove_links (l : FrameLedger) (links : list LinkSpec) : P B (result unit E) :=
  match links with
  | [] => retP (Ok tt)
  | link :: rest =>
      let* parent := expect_frame l (ln_parent link) in
      let* child := expect_frame l (ln_child link) in
      let* r := callP (be_remove_link link parent child) in
      match r with
      | Err e => retP (Err e)
      | Ok _ => remove_links l rest
      end
  end.

(** [while let Some(frame) = ledger.last() { return_frame(frame)?; ledger.pop(); }] *)
Fixpoint return_frames (fuel : nat) (o : AddressSpaceOwner)
    : P B (result unit E * AddressSpaceOwner) :=
  match fuel with
  | O => pureP None
  | S fuel' =>
      let* slice := pureP (as_slice (ow_ledger o)) in
      match last slice with
      | None => retP (Ok tt, o)
      | Some frame =>
          let* r := callP (be_return_frame frame) in
          match r with
          | Err e => retP (Err e, o)
          | Ok _ =>
              let* popped := pureP (ledger_pop (ow_ledger o)) in
              return_frames fuel' (set_ledger o (snd popped))
          end
      end
  end.

(** The common end of the rollback and of the teardown: the window, the check
    that nothing reaches the frames, and their return, latest first. *)
Definition release_frames (o : AddressSpaceOwner) : P B (result unit E * AddressSpaceOwner) :=
  let* r := callP be_clear_temporary_window in
  match r with
  | Err e => retP (Err e, o)
  | Ok _ =>
      let* slice := pureP (as_slice (ow_ledger o)) in
      let* r := callP (be_verify_unreachable slice) in
      match r with
      | Err e => retP (Err e, o)
      | Ok _ => return_frames (S TASK_LEDGER_CAPACITY) o
      end
  end.

Definition rollback_owned_frames (o : AddressSpaceOwner) (installed_links : nat)
    : P B (result unit E * AddressSpaceOwner) :=
  let* links := pureP (slice_to BUILD_LINKS installed_links) in
  let* r := remove_links (ow_ledger o) (rev links) in
  match r with
  | Err e => retP (Err e, o)
  | Ok _ =>
      let* root := pureP (frame_for (ow_ledger o) Root) in
      let* r := match root with
                | Some root => callP (be_clear_shared_entries root)
                | None => retP (Ok tt)
                end in
      match r with
      | Err e => retP (Err e, o)
      | Ok _ =>
          let* released := release_frames o in
          match released with
          | (Err e, o') => retP (Err e, o')
          | (Ok _, o') => retP (Ok tt, mkOwner (ow_generation o') false Dead None (ow_ledger o'))
          end
      end
  end.

Definition rollback_build (cause : BuildCause E) (o : AddressSpaceOwner) (installed_links : nat)
    : P B (BuildFailure E) :=
  let* r := rollback_owned_frames o installed_links in
  retP (mkBuildFailure cause (err (fst r)) (ow_ledger (snd r))).

(** [for role in FrameRole::ALL { allocate, record, prepare }] *)
Fixpoint build_frames (generation : Z) (roles : list FrameRole) (o : AddressSpaceOwner)
    : P B (result AddressSpaceOwner (BuildFailure E)) :=
  match roles with
  | [] => retP (Ok o)
  | role :: rest =>
      let* r := callP (be_allocate_frame role) in
      match r with
      | Err e => let* f := rollback_build (CauseBackend e) o 0 in retP (Err f)
      | Ok frame =>
          let* recorded := pureP (record_frame o (mkFrame role frame)) in
          let '(r, o) := recorded in
          match r with
          | Err e => let* f := rollback_build (CauseOwner e) o 0 in retP (Err f)
          | Ok _ =>
              let* r := callP (be_prepare_frame generation role frame) in
              match r with
              | Err e => let* f := rollback_build (CauseBackend e) o 0 in retP (Err f)
              | Ok _ => build_frames generation rest o
              end
          end
      end
  end.

(** [for link in BUILD_LINKS { install }], from [installed_links] on *)
Fixpoint build_links (links : list LinkSpec) (installed_links : nat) (o : AddressSpaceOwner)
    : P B (result nat (BuildFailure E)) :=
  match links with
  | [] => retP (Ok installed_links)
  | link :: rest =>
      let* parent := expect_frame (ow_ledger o) (ln_parent link) in
      let* child := expect_frame (ow_ledger o) (ln_child link) in
      let* r := callP (be_install_link link parent child) in
      match r with
      | Err e => let* f := rollback_build (CauseBackend e) o installed_links in retP (Err f)
      | Ok _ => build_links rest (S installed_links) o
      end
  end.

Definition construct_address_space (generation : Z)
    : P B (result AddressSpaceOwner (BuildFailure E)) :=
  match owner_begin generation with
  | Err e => retP (Err (mkBuildFailure (CauseOwner e) None ledger_new))
  | Ok o =>
      let* r := build_frames generation FrameRole_ALL o in
      match r with
      | Err f => retP (Err f)
      | Ok o =>
          let* r := build_links BUILD_LINKS 0 o in
          match r with
          | Err f => retP (Err f)
          | Ok installed_links =>
              let* root := expect_frame (ow_ledger o) Root in
              let* published := pureP (publish o root) in
              match published with
              | (Err e, o) =>
                  let* f := rollback_build (CauseOwner e) o installed_links in retP (Err f)
              | (Ok _, o) => retP (Ok o)
              end
          end
      end
  end.

Definition teardown_inactive (o : AddressSpaceOwner) : P B (result unit E * AddressSpaceOwner) :=
  let* r := remove_links (ow_ledger o) (rev BUILD_LINKS) in
  match r with
  | Err e => retP (Err e, o)
  | Ok _ =>
      let* root := expect_frame (ow_ledger o) Root in
      let* r := callP (be_clear_shared_entries root) in
      match r with
      | Err e => retP (Err e, o)
      | Ok _ => release_frames o
      end
  end.

Definition teardown_address_space (o : AddressSpaceOwner)
    : P B (result AddressSpaceOwner (TeardownFailure E)) :=
  let o := mkOwner (ow_generation o) false (ow_state o) (ow_root o) (ow_ledger o) in
  let* r := teardown_inactive o in
  match r with
  | (Err e, o) => retP (Err (mkTeardownFailure e o))
  | (Ok _, o) =>
      retP (Ok (mkOwner (ow_generation o) (ow_generation_live o) Dead None (ow_ledger o)))
  end.

Definition teardown_checked (o : AddressSpaceOwner)
    : P B (result AddressSpaceOwner (CheckedTeardownFailure E)) :=
  if negb (bool_decide (ow_state o = Inactive)) || negb (ow_generation_live o)
  then retP (Err (FailureOwner WrongState o)) else
  let* r := teardown_address_space o in
  retP (map_err FailureBackend r).

Definition construct_address_space_pair (first_generation second_generation : Z)
    : P B (result AddressSpacePair (PairBuildFailure E)) :=
  let* r := construct_address_space first_generation in
  match r with
  | Err f => retP (Err (PairFirst f))
  | Ok first =>
      let* r := construct_address_space second_generation in
      match r with
      | Ok second => retP (Ok (mkPair first second))
      | Err second =>
          let* t := teardown_checked first in
          retP (Err (PairSecond second (err t)))
      end
  end.
End Backend.

(** ** The fault classifier *)

Record FaultObservation := mkObservation {
  fo_expected_task : Z;
  fo_observed_task : Z;
  fo_owner_state : LifecycleState;
  fo_expected_root : Z;
  fo_current_root : Z;
  fo_code_selector : Z;
  fo_fault_address : Z;
  fo_error_code : Z
}.

Inductive FaultRejection :=
| NoActiveOwner | WrongTask | WrongRoot | WrongPrivilege | WrongAddress | ProtectionViolation
| NotWrite | NotUser | ReservedBit | InstructionFetch | UnexpectedCause.

Definition classify_expected_user_fault (o : FaultObservation) : result unit FaultRejection :=
  if negb (bool_decide (fo_owner_state o = Active)) then Err NoActiveOwner else
  if negb (fo_observed_task o =? fo_expected_task o) then Err WrongTask else
  if negb (fo_current_root o =? fo_expected_root o) then Err WrongRoot else
  if negb (Z.land (fo_code_selector o) 3 =? 3) then Err WrongPrivilege else
  if negb (fo_fault_address o =? INVALID_WRITE_TARGET) then Err WrongAddress else
  if negb (Z.land (fo_error_code o) 1 =? 0) then Err ProtectionViolation else
  if Z.land (fo_error_code o) (Z.shiftl 1 1) =? 0 then Err NotWrite else
  if Z.land (fo_error_code o) (Z.shiftl 1 2) =? 0 then Err NotUser else
  if negb (Z.land (fo_error_code o) (Z.shiftl 1 3) =? 0) then Err ReservedBit else
  if negb (Z.land (fo_error_code o) (Z.shiftl 1 4) =? 0) then Err InstructionFetch else
  if negb (fo_error_code o =? 0x06) then Err UnexpectedCause else
  Ok tt.
