(* ===== verification/AddressSpaceProofs.v ===== *)
(** * The ownership protocol of an address space

    An abstract specification of what the address-space code may ask of its
    backend: a monitor over the sequence of backend calls.  Frames and links
    are stacks; a frame may only be returned when it is the latest one still
    owned, no link is installed, the shared entries and the temporary window
    are cleared and the backend has confirmed that nothing reaches the frames.
    The monitor also remembers whether any call failed.

    [both] relates a run of the code on an arbitrary backend with a run on the
    same backend that also logs its calls, and states that the logged calls
    follow the monitor.  Its rules are a small program logic for the code of
    [AddressSpace]. *)

From S2P Require Import Prelude.
From S2P Require Import Panic.
From S2P Require Import AddressSpace.

(** ** Calls *)

(** A call with its arguments and whether it succeeded. *)
Inductive Event :=
| EvAllocate (role : FrameRole) (frame : option Z)
| EvPrepare (role : FrameRole) (frame : Z) (success : bool)
| EvInstall (link : LinkSpec) (parent child : Z) (success : bool)
| EvRemove (link : LinkSpec) (parent child : Z) (success : bool)
| EvClearShared (root : Z) (success : bool)
| EvClearWindow (success : bool)
| EvVerify (frames : list OwnedFrame) (success : bool)
| EvReturn (frame : OwnedFrame) (success : bool).

(** The first frame with the role. *)
Definition find_role (frames : list OwnedFrame) (role : FrameRole) : option Z :=
  option_map of_physical_start
    (List.find (fun frame => bool_decide (of_role frame = role)) frames).

(** ** The monitor *)

(** How far the release of the frames has come. *)
Inductive Phase := Held | SharedCleared | WindowCleared | Unreachable.

#[global] Instance Phase_eq_dec : EqDecision Phase.
Proof. solve_decision. Defined.

Record Monitor := mkMonitor {
  mo_frames : list OwnedFrame;   (* owned, oldest first *)
  mo_links : list LinkSpec;      (* installed, oldest first *)
  mo_phase : Phase;
  mo_trouble : bool              (* a call failed or a frame was unusable *)
}.

Definition monitor_empty : Monitor := mkMonitor [] [] Held false.

(** The call names the two owned frames the link is between. *)
Definition link_owned (m : Monitor) (link : LinkSpec) (parent child : Z) : bool :=
  bool_decide (find_role (mo_frames m) (ln_parent link) = Some parent)
  && bool_decide (find_role (mo_frames m) (ln_child link) = Some child).

Definition no_links (m : Monitor) : bool := bool_decide (mo_links m = []).

Definition phase_after (success : bool) (p q : Phase) : Phase := if success then q else p.

(** A frame that is not page aligned, or is owned already. *)
Definition unusable (frames : list OwnedFrame) (start : Z) : bool :=
  negb (start mod PAGE_SIZE =? 0) || existsb (fun g => of_physical_start g =? start) frames.

Definition monitor_step (m : Monitor) (e : Event) : option Monitor :=
  let trouble success := mo_trouble m || negb success in
  match e with
  | EvAllocate role frame =>
      if bool_decide (mo_phase m = Held) && no_links m then
        Some (match frame with
              | Some f => mkMonitor (mo_frames m ++ [mkFrame role f]) [] Held
                            (trouble (negb (unusable (mo_frames m) f)))
              | None => mkMonitor (mo_frames m) [] Held (trouble false)
              end)
      else None
  | EvPrepare role frame success =>
      if bool_decide (mo_phase m = Held)
         && bool_decide (last (mo_frames m) = Some (mkFrame role frame))
      then Some (mkMonitor (mo_frames m) (mo_links m) Held (trouble success)) else None
  | EvInstall link parent child success =>
      if bool_decide (mo_phase m = Held) && link_owned m link parent child then
        Some (mkMonitor (mo_frames m) (if success then mo_links m ++ [link] else mo_links m) Held
                (trouble success))
      else None
  | EvRemove link parent child success =>
      if bool_decide (last (mo_links m) = Some link) && link_owned m link parent child then
        Some (mkMonitor (mo_frames m) (if success then removelast (mo_links m) else mo_links m)
                (mo_phase m) (trouble success))
      else None
  | EvClearShared root success =>
      if bool_decide (mo_phase m = Held) && no_links m
         && bool_decide (find_role (mo_frames m) Root = Some root)
      then Some (mkMonitor (mo_frames m) [] (phase_after success Held SharedCleared)
                   (trouble success))
      else None
  | EvClearWindow success =>
      if no_links m
         && (bool_decide (mo_phase m = SharedCleared)
             || (bool_decide (mo_phase m = Held) && bool_decide (find_role (mo_frames m) Root = None)))
      then Some (mkMonitor (mo_frames m) [] (phase_after success (mo_phase m) WindowCleared)
                   (trouble success))
      else None
  | EvVerify frames success =>
      if bool_decide (mo_phase m = WindowCleared) && no_links m
         && bool_decide (frames = mo_frames m)
      then Some (mkMonitor (mo_frames m) [] (phase_after success WindowCleared Unreachable)
                   (trouble success))
      else None
  | EvReturn frame success =>
      if bool_decide (mo_phase m = Unreachable) && no_links m
         && bool_decide (last (mo_frames m) = Some frame)
      then Some (mkMonitor (if success then removelast (mo_frames m) else mo_frames m) []
                   Unreachable (trouble success))
      else None
  end.

Fixpoint monitor_run (m : Monitor) (trace : list Event) : option Monitor :=
  match trace with
  | [] => Some m
  | e :: rest => m' ← monitor_step m e; monitor_run m' rest
  end.

Lemma monitor_run_app m t1 t2 m1 :
  monitor_run m t1 = Some m1 -> monitor_run m (t1 ++ t2) = monitor_run m1 t2.
Proof.
  revert m. induction t1 as [|e t1 IH]; simpl; intros m H; [congruence|].
  destruct (monitor_step m e) as [m'|]; simpl in *; [by apply IH|done].
Qed.

(** ** The logging backend *)

Section Logged.
Context {B E : Type} `{AddressSpaceBackend B E}.

(** Run a call and append the event that its outcome makes. *)
Definition log {A} (m : B -> result A E * B) (event : result A E -> Event)
    (s : B * list Event) : result A E * (B * list Event) :=
  let '(r, b') := m (fst s) in (r, (b', snd s ++ [event r])).

#[export] Instance Logged : AddressSpaceBackend (B * list Event) E := {
  be_allocate_frame role := log (be_allocate_frame role) (fun r => EvAllocate role (ok r));
  be_prepare_frame gen role f := log (be_prepare_frame gen role f) (fun r => EvPrepare role f (is_ok r));
  be_install_link l p c := log (be_install_link l p c) (fun r => EvInstall l p c (is_ok r));
  be_remove_link l p c := log (be_remove_link l p c) (fun r => EvRemove l p c (is_ok r));
  be_clear_shared_entries root :=
    log (be_clear_shared_entries root) (fun r => EvClearShared root (is_ok r));
  be_clear_temporary_window := log be_clear_temporary_window (fun r => EvClearWindow (is_ok r));
  be_verify_unreachable fs := log (be_verify_unreachable fs) (fun r => EvVerify fs (is_ok r));
  be_return_frame f := log (be_return_frame f) (fun r => EvReturn f (is_ok r))
}.

(** ** The program logic *)

(** From every backend state, the plain and the logged run return the same
    value without panic, the logged calls are accepted by the monitor from [m],
    and the value and the final monitor satisfy [Q]. *)
Definition both {A} (plain : P B A) (logged : P (B * list Event) A) (m : Monitor)
    (Q : A -> Monitor -> Prop) : Prop :=
  forall b t, exists a b' t' m', plain b = Some (a, b') /\ logged (b, t) = Some (a, (b', t ++ t')) /\
    monitor_run m t' = Some m' /\ Q a m'.

Lemma both_ret {A} (a : A) m (Q : A -> Monitor -> Prop) : Q a m -> both (retP a) (retP a) m Q.
Proof. intros HQ b t. exists a, b, [], m. rewrite app_nil_r. done. Qed.

Lemma both_pure {A} (o : option A) a m (Q : A -> Monitor -> Prop) :
  o = Some a -> Q a m -> both (pureP o) (pureP o) m Q.
Proof. intros -> HQ. by apply both_ret. Qed.

Lemma both_bind {A C} (p : P B A) (l : P (B * list Event) A) kp kl m
    (R : A -> Monitor -> Prop) (Q : C -> Monitor -> Prop) :
  both p l m R -> (forall a m', R a m' -> both (kp a) (kl a) m' Q) ->
  both (bindP p kp) (bindP l kl) m Q.
Proof.
  intros Hp Hk b t. destruct (Hp b t) as (a & b1 & t1 & m1 & Ep & El & Hm & HR).
  destruct (Hk a m1 HR b1 (t ++ t1)) as (c & b2 & t2 & m2 & Ep2 & El2 & Hm2 & HQ).
  exists c, b2, (t1 ++ t2), m2. unfold bindP. rewrite Ep, El, Ep2, El2, app_assoc.
  split_and!; [done..| |done]. by rewrite (monitor_run_app _ _ _ _ Hm).
Qed.

Lemma both_weaken {A} (p : P B A) (l : P (B * list Event) A) m (R Q : A -> Monitor -> Prop) :
  both p l m R -> (forall a m', R a m' -> Q a m') -> both p l m Q.
Proof.
  intros Hpl HRQ b t. destruct (Hpl b t) as (a & b' & t' & m' & ? & ? & ? & HR).
  exists a, b', t', m'. split_and!; auto.
Qed.

(** One call: the monitor must accept both outcomes. *)
Lemma both_call {A} (c : B -> result A E * B) (event : result A E -> Event) m
    (Q : result A E -> Monitor -> Prop) :
  (forall r, exists m', monitor_step m (event r) = Some m' /\ Q r m') ->
  both (callP c) (callP (log c event)) m Q.
Proof.
  intros HQ b t. destruct (c b) as [r b'] eqn:Ec. destruct (HQ r) as (m' & Hm & HR).
  exists r, b', [event r], m'. unfold callP, log. simpl. rewrite Ec. simpl. rewrite Hm. done.
Qed.
End Logged.

(** * The address-space code follows the ownership protocol

    Ledger lemmas, then one lemma per function of [AddressSpace], in the
    program logic above. *)

Implicit Types (l : FrameLedger) (fs : list OwnedFrame) (o : AddressSpaceOwner) (m : Monitor).

(** ** The ledger as a list of frames *)

Definition ledger_is l fs : Prop :=
  length (fl_frames l) = TASK_LEDGER_CAPACITY /\ fl_len l = length fs /\
  take (fl_len l) (fl_frames l) = fs.

Lemma ledger_is_new : ledger_is ledger_new [].
Proof. done. Qed.

Lemma ledger_is_bound l fs : ledger_is l fs -> (length fs <= TASK_LEDGER_CAPACITY)%nat.
Proof. intros (Hl & Hn & <-). rewrite length_take. lia. Qed.

Lemma as_slice_is l fs : ledger_is l fs -> as_slice l = Some fs.
Proof.
  intros HL. pose proof (ledger_is_bound _ _ HL). destruct HL as (Hl & Hn & Ht).
  unfold as_slice. rewrite slice_to_le by lia. by rewrite Ht.
Qed.

Lemma frame_for_is l fs role : ledger_is l fs -> frame_for l role = Some (find_role fs role).
Proof. intros HL. unfold frame_for. by rewrite (as_slice_is _ _ HL). Qed.

Lemma push_owned_is l fs f :
  ledger_is l fs -> (length fs < TASK_LEDGER_CAPACITY)%nat ->
  exists l', push_owned l f = Some (Ok tt, l') /\ ledger_is l' (fs ++ [f]).
Proof.
  intros (Hl & Hn & Ht) Hlt. unfold push_owned. rewrite (proj2 (Nat.eqb_neq _ _)) by lia.
  rewrite array_set_lt by lia. simpl. eexists. split; [done|]. unfold ledger_is. simpl.
  rewrite length_insert, length_app. simpl. split_and!; [done|lia|].
  rewrite take_push by lia. by rewrite Ht.
Qed.

Lemma ledger_pop_is l fs f :
  ledger_is l (fs ++ [f]) ->
  exists l', ledger_pop l = Some (Some f, l') /\ ledger_is l' fs.
Proof.
  intros HL. pose proof (ledger_is_bound _ _ HL) as Hb. destruct HL as (Hl & Hn & Ht).
  rewrite length_app in *. simpl in *. unfold ledger_pop. rewrite Hn, Nat.add_1_r in *. simpl.
  assert (Hget : fl_frames l !! length fs = Some f).
  { rewrite <-(lookup_take_lt _ (S (length fs))) by lia. rewrite Ht, lookup_app_r, Nat.sub_diag by done.
    done. }
  unfold array_get. rewrite Hget. simpl. rewrite array_set_lt by lia. simpl.
  eexists. split; [done|]. unfold ledger_is. simpl. rewrite length_insert. split_and!; [done|done|].
  rewrite take_insert_ge by done. rewrite <-(take_take _ (length fs) (S (length fs))) || idtac.
  replace (take (length fs) (fl_frames l)) with (take (length fs) (take (S (length fs)) (fl_frames l)))
    by (rewrite take_take; f_equal; lia).
  rewrite Ht, take_app_length. done.
Qed.

(** The frames are aligned, pairwise distinct and in distinct roles. *)
Definition frames_good fs : Prop :=
  Forall (fun f => of_physical_start f mod PAGE_SIZE = 0) fs /\
  NoDup (map of_physical_start fs) /\ NoDup (map of_role fs).

(** The check of the latest frame refuses exactly the unusable ones, as long as
    its role is new. *)
Lemma validate_latest_is l fs f :
  ledger_is l (fs ++ [f]) -> frames_good fs -> of_role f ∉ map of_role fs ->
  if unusable fs (of_physical_start f) then exists e, validate_latest l = Some (Err e)
  else validate_latest l = Some (Ok tt) /\ frames_good (fs ++ [f]).
Proof.
  intros HL (Ha & Hs & Hr) Hnew. unfold validate_latest. rewrite (as_slice_is _ _ HL). simpl.
  rewrite last_snoc, removelast_last. unfold is_multiple_of, unusable.
  destruct (Z.eqb_spec (of_physical_start f mod PAGE_SIZE) 0) as [Hal|]; simpl; [|eauto].
  assert (Heq : existsb (fun owned => (of_physical_start owned =? of_physical_start f)
      || bool_decide (of_role owned = of_role f)) fs =
    existsb (fun g => of_physical_start g =? of_physical_start f) fs).
  { clear -Hnew. induction fs as [|g fs IH]; simpl; [done|]. simpl in Hnew.
    apply not_elem_of_cons in Hnew as [Hne Hnew]. rewrite (IH Hnew).
    rewrite (bool_decide_eq_false_2 (of_role g = of_role f)) by congruence. by rewrite orb_false_r. }
  rewrite Heq. clear Heq. destruct (existsb _ fs) eqn:He; [eauto|]. split; [done|].
  rewrite existsb_false in He. unfold frames_good. rewrite !map_app. split_and!.
  - apply Forall_app. by split; [|repeat constructor].
  - apply NoDup_app. split_and!; [done| |apply NoDup_singleton].
    intros x (g & -> & Hg)%list_elem_of_fmap Hx%list_elem_of_singleton.
    specialize (He g Hg). b2p. tauto.
  - apply NoDup_app. split_and!; [done| |apply NoDup_singleton].
    intros x Hx Hy%list_elem_of_singleton. rewrite Hy in Hx. done.
Qed.

Lemma find_role_Some fs role : role ∈ map of_role fs -> exists f, find_role fs role = Some f.
Proof.
  intros (g & -> & Hg)%list_elem_of_fmap. unfold find_role.
  destruct (List.find _ fs) as [h|] eqn:Hf; [simpl; eauto|].
  apply (List.find_none _ _ ) with (x := g) in Hf; [|by apply list_elem_of_In].
  by rewrite bool_decide_eq_true_2 in Hf.
Qed.

(** ** Release of the frames *)

#[local] Arguments return_frames : simpl never.
#[local] Arguments remove_links : simpl never.
#[local] Arguments build_frames : simpl never.
#[local] Arguments build_links : simpl never.

Section Proofs.
Context {B E : Type} `{AddressSpaceBackend B E}.

Lemma both_expect l fs role v m :
  ledger_is l fs -> find_role fs role = Some v ->
  both (B := B) (expect_frame l role) (expect_frame l role) m (fun a m' => a = v /\ m' = m).
Proof.
  intros HL Hv. unfold expect_frame. eapply both_bind.
  - eapply both_pure; [by apply frame_for_is|]. instantiate (1 := fun a m' => a = Some v /\ m' = m).
    by rewrite Hv.
  - intros a m' [-> ->]. by eapply both_pure.
Qed.

(** The links of the list are between owned frames. *)
Definition links_owned fs (links : list LinkSpec) : Prop :=
  Forall (fun link => exists p c, find_role fs (ln_parent link) = Some p /\
                                  find_role fs (ln_child link) = Some c) links.

(** The links come off in the reverse order of their installation. *)
Lemma both_remove_links l fs links t :
  ledger_is l fs -> links_owned fs links ->
  both (B := B) (remove_links l links) (remove_links l links) (mkMonitor fs (rev links) Held t)
    (fun (r : result unit E) m' => exists lk, m' = mkMonitor fs lk Held (t || negb (is_ok r)) /\
       (is_ok r = true -> lk = [])).
Proof.
  intros HL. induction links as [|link links IH]; intros Hown; cbn [remove_links rev].
  { apply both_ret. exists []. by rewrite orb_false_r. }
  apply Forall_cons in Hown as [(p & c & Hp & Hc) Hown].
  eapply both_bind; [by apply (both_expect l fs _ p)|]. intros ? ? [-> ->].
  eapply both_bind; [by apply (both_expect l fs _ c)|]. intros ? ? [-> ->].
  eapply both_bind.
  { apply both_call with (Q := fun r m' =>
      m' = mkMonitor fs (if is_ok r then rev links else rev links ++ [link]) Held (t || negb (is_ok r))).
    intros r. eexists. split; [|done]. simpl. unfold link_owned. simpl.
    rewrite last_snoc, !bool_decide_eq_true_2 by done. simpl.
    destruct r; simpl; [by rewrite removelast_last|done]. }
  intros [[]|e] ? ->; simpl.
  - rewrite orb_false_r. by apply IH.
  - apply both_ret. eexists. by split.
Qed.

(** A pure step, with its value known. *)
Lemma both_pure_eq {A} (v : option A) a m :
  v = Some a -> both (B := B) (pureP v) (pureP v) m (fun a' m' => a' = a /\ m' = m).
Proof. intros Hv. by eapply both_pure. Qed.

Lemma both_ret_eq {A} (a : A) m :
  both (B := B) (retP a) (retP a) m (fun a' m' => a' = a /\ m' = m).
Proof. by apply both_ret. Qed.

(** The owner keeps everything but its ledger. *)
Definition same_owner o o' : Prop := o' = set_ledger o (ow_ledger o').

Lemma same_owner_refl o : same_owner o o.
Proof. by destruct o. Qed.

(** Frames are returned latest first; what is not returned stays owned. *)
Lemma both_return_frames t fs : forall fuel o,
  ledger_is (ow_ledger o) fs -> (length fs < fuel)%nat ->
  both (B := B) (return_frames fuel o) (return_frames fuel o) (mkMonitor fs [] Unreachable t)
    (fun (ro : result unit E * _) m' => exists fs',
       m' = mkMonitor fs' [] Unreachable (t || negb (is_ok (fst ro))) /\ same_owner o (snd ro) /\ ledger_is (ow_ledger (snd ro)) fs' /\
       (is_ok (fst ro) = true -> fs' = [])).
Proof.
  induction fs as [|f fs IH] using rev_ind; intros [|fuel] o HL Hf;
    try (rewrite ?length_app in Hf; simpl in Hf; lia); cbn [return_frames];
    (eapply both_bind; [by apply both_pure_eq, as_slice_is|]); intros ? ? [-> ->].
  { apply both_ret. exists []. rewrite orb_false_r.
    split_and!; [done|apply same_owner_refl|done|done]. }
  rewrite last_snoc. eapply both_bind.
  { apply both_call with (Q := fun r m' =>
      m' = mkMonitor (if is_ok r then fs else fs ++ [f]) [] Unreachable (t || negb (is_ok r))).
    intros r. eexists. split; [|done]. simpl. rewrite last_snoc, removelast_last.
    rewrite !bool_decide_eq_true_2 by done. done. }
  intros [[]|e] ? ->; simpl.
  - rewrite orb_false_r. destruct (ledger_pop_is _ _ _ HL) as (l' & Hpop & HL').
    eapply both_bind; [by apply both_pure_eq|]. intros ? ? [-> ->].
    eapply both_weaken; [apply IH; [done|rewrite length_app in Hf; simpl in Hf; lia]|].
    intros [r o'] m' (fs' & ? & Hsame & ? & ?). exists fs'. split_and!; try done.
  - apply both_ret. exists (fs ++ [f]). split_and!; [done|apply same_owner_refl|done|done].
Qed.

(** What a release leaves: the monitor owns exactly the frames of the ledger. *)
Definition released t o (ro : result unit E * AddressSpaceOwner) m' : Prop :=
  exists fs' lk ph, m' = mkMonitor fs' lk ph (t || negb (is_ok (fst ro))) /\ same_owner o (snd ro) /\
    ledger_is (ow_ledger (snd ro)) fs' /\ (is_ok (fst ro) = true -> fs' = [] /\ lk = []).

Lemma released_err t o e fs lk ph :
  ledger_is (ow_ledger o) fs -> released t o (Err e, o) (mkMonitor fs lk ph (t || true)).
Proof. intros HL. exists fs, lk, ph. split_and!; [done|apply same_owner_refl|done|done]. Qed.

Lemma both_release_frames t o fs ph :
  ledger_is (ow_ledger o) fs ->
  ph = SharedCleared \/ (ph = Held /\ find_role fs Root = None) ->
  both (B := B) (release_frames o) (release_frames o) (mkMonitor fs [] ph t) (released t o).
Proof.
  intros HL Hph. unfold release_frames. eapply both_bind.
  { apply both_call with (Q := fun r m' =>
      m' = mkMonitor fs [] (phase_after (is_ok r) ph WindowCleared) (t || negb (is_ok r))).
    intros r. eexists. split; [|done]. simpl.
    destruct Hph as [->|[-> Hr]]; [done|]. by rewrite Hr. }
  intros [[]|e] ? ->; simpl; [|by apply both_ret, released_err]. rewrite orb_false_r.
  eapply both_bind; [by apply both_pure_eq, as_slice_is|]. intros ? ? [-> ->].
  eapply both_bind.
  { apply both_call with (Q := fun r m' =>
      m' = mkMonitor fs [] (phase_after (is_ok r) WindowCleared Unreachable) (t || negb (is_ok r))).
    intros r. eexists. split; [|done]. simpl. by rewrite bool_decide_eq_true_2 by done. }
  intros [[]|e] ? ->; simpl; [|by apply both_ret, released_err]. rewrite orb_false_r.
  eapply both_weaken; [apply (both_return_frames t fs); [done|]|].
  - pose proof (ledger_is_bound _ _ HL). lia.
  - intros [r o'] m' (fs' & -> & ? & ? & Hok). exists fs', [], Unreachable.
    split_and!; try done. intros Hr. split; [by apply Hok|done].
Qed.

(** Clearing the shared entries of the root. *)
Lemma both_clear_shared t fs root :
  find_role fs Root = Some root ->
  both (B := B) (callP (be_clear_shared_entries root)) (callP (be_clear_shared_entries root))
    (mkMonitor fs [] Held t)
    (fun (r : result unit E) m' =>
       m' = mkMonitor fs [] (phase_after (is_ok r) Held SharedCleared) (t || negb (is_ok r))).
Proof.
  intros Hr. apply both_call. intros r. eexists. split; [|done]. simpl. rewrite Hr.
  by rewrite !bool_decide_eq_true_2 by done.
Qed.

(** ** Rollback *)

(** What a failed construction reports: the monitor owns exactly the retained
    frames, and without a rollback error nothing is left. *)
Definition rolled_back (cause : BuildCause E) (f : BuildFailure E) m' : Prop :=
  bf_cause f = cause /\
  exists fs' lk ph, m' = mkMonitor fs' lk ph true /\ ledger_is (bf_retained f) fs' /\
    (bf_rollback_error f = None -> fs' = [] /\ lk = []).

Definition rollback_post (ro : result unit E * AddressSpaceOwner) m' : Prop :=
  exists fs' lk ph, m' = mkMonitor fs' lk ph true /\ ledger_is (ow_ledger (snd ro)) fs' /\
    (is_ok (fst ro) = true -> fs' = [] /\ lk = []).

Lemma both_rollback_owned o fs n :
  ledger_is (ow_ledger o) fs -> (n <= length BUILD_LINKS)%nat ->
  links_owned fs (take n BUILD_LINKS) ->
  both (B := B) (rollback_owned_frames o n) (rollback_owned_frames o n)
    (mkMonitor fs (take n BUILD_LINKS) Held true) rollback_post.
Proof.
  intros HL Hn Hown. unfold rollback_owned_frames.
  eapply both_bind; [by apply both_pure_eq, slice_to_le|]. intros ? ? [-> ->].
  eapply both_bind.
  { rewrite <-(rev_involutive (take n BUILD_LINKS)) at 3.
    apply both_remove_links; [done|]. by apply Forall_rev. }
  intros [[]|e] ? (lk & -> & Hlk); [|by apply both_ret; exists fs, lk, Held].
  rewrite (Hlk eq_refl). clear Hlk.
  eapply both_bind; [by apply both_pure_eq, frame_for_is|]. intros ? ? [-> ->].
  eapply both_bind with (R := fun r m' => exists ph, m' = mkMonitor fs [] ph true /\
    (is_ok r = true -> ph = SharedCleared \/ (ph = Held /\ find_role fs Root = None))).
  { destruct (find_role fs Root) as [root|] eqn:Hroot; [|apply both_ret; eauto].
    eapply both_weaken; [by apply both_clear_shared|].
    intros [[]|e] ? ->; eexists; (split; [done|]); [by left|done]. }
  intros [[]|e] ? (ph & -> & Hph); [|by apply both_ret; exists fs, [], ph].
  eapply both_bind; [by apply (both_release_frames true o fs), Hph|].
  intros [[[]|e] o'] m' (fs' & lk' & ph' & -> & _ & HL' & Hok); apply both_ret;
    by exists fs', lk', ph'.
Qed.

Lemma both_rollback_build cause o fs n :
  ledger_is (ow_ledger o) fs -> (n <= length BUILD_LINKS)%nat ->
  links_owned fs (take n BUILD_LINKS) ->
  both (B := B) (rollback_build cause o n) (rollback_build cause o n)
    (mkMonitor fs (take n BUILD_LINKS) Held true) (rolled_back cause).
Proof.
  intros HL Hn Hown. unfold rollback_build.
  eapply both_bind; [by apply (both_rollback_owned o fs)|].
  intros [r o'] m' (fs' & lk & ph & -> & HL' & Hok). apply both_ret. split; [done|].
  exists fs', lk, ph. split_and!; [done..|]. simpl in *.
  destruct r; [intros _; by apply Hok|done].
Qed.

(** ** Construction *)

(** A failed construction, as the caller sees it. *)
Definition build_failed (f : BuildFailure E) m' : Prop :=
  rolled_back (bf_cause f) f m'.

Lemma both_fail cause o fs n :
  ledger_is (ow_ledger o) fs -> (n <= length BUILD_LINKS)%nat ->
  links_owned fs (take n BUILD_LINKS) ->
  forall (T : Type) (Q : result T (BuildFailure E) -> Monitor -> Prop),
  (forall f m', build_failed f m' -> Q (Err f) m') ->
  both (B := B) (let* f := rollback_build cause o n in retP (Err f))%backend
    (let* f := rollback_build cause o n in retP (Err f))%backend
    (mkMonitor fs (take n BUILD_LINKS) Held true) Q.
Proof.
  intros HL Hn Hown T Q HQ. eapply both_bind; [by apply (both_rollback_build cause o fs)|].
  intros f m' (Hc & Hf). apply both_ret, HQ. by split.
Qed.

(** The owner while it is built. *)
Definition building generation o fs : Prop :=
  ow_generation o = generation /\ ow_generation_live o = true /\ ow_state o = Building /\
  ow_root o = None /\ ledger_is (ow_ledger o) fs /\ frames_good fs.

Lemma record_frame_building generation o fs f :
  building generation o fs -> (length fs < TASK_LEDGER_CAPACITY)%nat ->
  of_role f ∉ map of_role fs ->
  exists r o', record_frame o f = Some (r, o') /\ ledger_is (ow_ledger o') (fs ++ [f]) /\
    is_ok r = negb (unusable fs (of_physical_start f)) /\
    (r = Ok tt -> building generation o' (fs ++ [f])).
Proof.
  intros (Hg & Hl & Hs & Hr & HL & Hgood) Hlen Hnew. unfold record_frame.
  rewrite Hs, Hl. simpl. destruct (push_owned_is _ _ f HL Hlen) as (l' & -> & HL'). simpl.
  pose proof (validate_latest_is l' fs f HL' Hgood Hnew) as Hv.
  destruct (unusable _ _); [destruct Hv as (e & ->)|destruct Hv as [-> Hgood']]; simpl;
    eexists _, _; (split_and!; [done..|]); [done|].
  intros _. unfold building. simpl. by split_and!.
Qed.

Lemma both_build_frames generation roles : forall o fs,
  building generation o fs -> map of_role fs ++ roles = FrameRole_ALL ->
  both (B := B) (build_frames generation roles o) (build_frames generation roles o)
    (mkMonitor fs [] Held false)
    (fun (r : result AddressSpaceOwner (BuildFailure E)) m' =>
       match r with
       | Ok o' => exists fs', m' = mkMonitor fs' [] Held false /\ building generation o' fs' /\
                              map of_role fs' = FrameRole_ALL
       | Err f => build_failed f m'
       end).
Proof.
  induction roles as [|role roles IH]; intros o fs Hb Hroles; unfold build_frames; fold build_frames.
  { apply both_ret. exists fs. rewrite app_nil_r in Hroles. done. }
  pose proof Hb as (_ & _ & _ & _ & HL & _).
  assert (Hlen : (length fs < TASK_LEDGER_CAPACITY)%nat).
  { apply (f_equal length) in Hroles. rewrite length_app, length_map in Hroles. simpl in Hroles.
    unfold TASK_LEDGER_CAPACITY. lia. }
  assert (Hnew : role ∉ map of_role fs).
  { assert (Hnd : NoDup (map of_role fs ++ role :: roles)).
    { rewrite Hroles. unfold FrameRole_ALL. repeat constructor; set_solver. }
    apply NoDup_app in Hnd as (_ & Hd & _). intros Hin. apply (Hd role Hin). left. }
  eapply both_bind.
  { apply both_call with (Q := fun r m' =>
      m' = match r with
           | Ok f => mkMonitor (fs ++ [mkFrame role f]) [] Held (unusable fs f)
           | Err _ => mkMonitor fs [] Held true
           end).
    intros r. eexists. split; [|done]. destruct r; simpl; [by rewrite negb_involutive|done]. }
  intros [frame|e] ? ->; [|by apply (both_fail _ o fs 0); [|lia|constructor|]].
  destruct (record_frame_building _ o fs (mkFrame role frame) Hb Hlen Hnew)
    as (r & o' & Hrec & HL' & Hun & Hok). simpl in Hun.
  eapply both_bind; [by apply both_pure_eq|]. intros ? ? [-> ->].
  destruct (unusable fs frame); (destruct r as [[]|e]; [|]); try done.
  { by apply (both_fail _ o' (fs ++ [mkFrame role frame]) 0); [|lia|constructor|]. }
  eapply both_bind.
  { apply both_call with (Q := fun r m' => m' = mkMonitor (fs ++ [mkFrame role frame]) [] Held (negb (is_ok r))).
    intros r. eexists. split; [|done]. simpl. by rewrite last_snoc, bool_decide_eq_true_2. }
  intros [[]|e] ? ->; [|by apply (both_fail _ o' (fs ++ [mkFrame role frame]) 0); [|lia|constructor|]].
  apply IH; [by apply Hok|]. by rewrite map_app, <-app_assoc.
Qed.

(** With one frame per role every link has both ends. *)
Lemma all_roles_linked fs links : map of_role fs = FrameRole_ALL -> links_owned fs links.
Proof.
  intros Hall. apply Forall_forall. intros link _.
  assert (Hrole : forall role, exists f, find_role fs role = Some f).
  { intros role. apply find_role_Some. rewrite Hall. destruct role; unfold FrameRole_ALL; set_solver. }
  destruct (Hrole (ln_parent link)) as [p Hp], (Hrole (ln_child link)) as [c Hc]. eauto.
Qed.

Lemma both_build_links links : forall n o fs,
  ledger_is (ow_ledger o) fs -> map of_role fs = FrameRole_ALL ->
  take n BUILD_LINKS ++ links = BUILD_LINKS -> (n <= length BUILD_LINKS)%nat ->
  both (B := B) (build_links links n o) (build_links links n o)
    (mkMonitor fs (take n BUILD_LINKS) Held false)
    (fun (r : result nat (BuildFailure E)) m' =>
       match r with
       | Ok n' => n' = length BUILD_LINKS /\ m' = mkMonitor fs BUILD_LINKS Held false
       | Err f => build_failed f m'
       end).
Proof.
  induction links as [|link links IH]; intros n o fs HL Hall Hn Hle; unfold build_links; fold build_links.
  { apply both_ret. rewrite app_nil_r in Hn. rewrite Hn. split; [|done].
    apply (f_equal length) in Hn. rewrite length_take in Hn. lia. }
  pose proof (all_roles_linked fs [link] Hall) as [(p & c & Hp & Hc) _]%Forall_cons.
  assert (Hlen : (length (take n BUILD_LINKS) = n)%nat) by (rewrite length_take; lia).
  assert (Hlook : BUILD_LINKS !! n = Some link).
  { rewrite <-Hn, lookup_app_r, Hlen, Nat.sub_diag by lia. done. }
  assert (Htake : take (S n) BUILD_LINKS = take n BUILD_LINKS ++ [link]) by by apply take_S_r.
  eapply both_bind; [by apply (both_expect (ow_ledger o) fs _ p)|]. intros ? ? [-> ->].
  eapply both_bind; [by apply (both_expect (ow_ledger o) fs _ c)|]. intros ? ? [-> ->].
  eapply both_bind.
  { apply both_call with (Q := fun r m' =>
      m' = mkMonitor fs (if is_ok r then take (S n) BUILD_LINKS else take n BUILD_LINKS) Held
             (negb (is_ok r))).
    intros r. eexists. split; [|done]. unfold monitor_step, link_owned. simpl mo_frames.
    rewrite !bool_decide_eq_true_2 by done. rewrite Htake. by destruct r. }
  intros [[]|e] ? ->.
  - apply IH; [done|done| |apply lookup_lt_Some in Hlook; lia].
    rewrite Htake, <-app_assoc. done.
  - apply (both_fail _ o fs n); [done|done|by apply all_roles_linked|done].
Qed.

(** An owner that owns its seven frames and is ready to run. *)
Definition published generation o fs : Prop :=
  ow_generation o = generation /\ ow_generation_live o = true /\ ow_state o = Inactive /\
  ow_root o = find_role fs Root /\ ledger_is (ow_ledger o) fs /\ frames_good fs /\
  map of_role fs = FrameRole_ALL.

Lemma publish_building generation o fs root :
  building generation o fs -> map of_role fs = FrameRole_ALL -> find_role fs Root = Some root ->
  exists o', publish o root = Some (Ok tt, o') /\ published generation o' fs.
Proof.
  intros (Hg & Hl & Hs & Hr & HL & Hgood) Hall Hroot. unfold publish. rewrite Hs, Hl. simpl.
  rewrite (frame_for_is _ _ _ HL), Hroot. simpl. rewrite bool_decide_eq_true_2 by done.
  pose proof HL as (_ & Hlen & _). apply (f_equal length) in Hall as Hlen'.
  rewrite length_map in Hlen'. rewrite Hlen, Hlen'. simpl.
  eexists. split; [done|]. unfold published. simpl. split_and!; done.
Qed.

(** The generation zero is refused before any call. *)
Definition construct_refused generation (f : BuildFailure E) m' : Prop :=
  generation = 0 /\ f = mkBuildFailure (CauseOwner InvalidGeneration) None ledger_new /\
  m' = monitor_empty.

Lemma both_construct generation :
  both (B := B) (construct_address_space generation) (construct_address_space generation)
    monitor_empty
    (fun (r : result AddressSpaceOwner (BuildFailure E)) m' =>
       match r with
       | Ok o => exists fs, m' = mkMonitor fs BUILD_LINKS Held false /\ published generation o fs
       | Err f => construct_refused generation f m' \/ build_failed f m'
       end).
Proof.
  unfold construct_address_space, owner_begin. destruct (Z.eqb_spec generation 0) as [Hz|Hz].
  { apply both_ret. left. done. }
  eapply both_bind; [apply (both_build_frames generation FrameRole_ALL _ [])|].
  { unfold building. simpl. split_and!; try done.
    unfold frames_good. simpl. split_and!; constructor. }
  { done. }
  intros [o|f] m' Hr; [|apply both_ret; by right]. destruct Hr as (fs & -> & Hb & Hall).
  pose proof Hb as (_ & _ & _ & _ & HL & _).
  eapply both_bind; [by apply (both_build_links BUILD_LINKS 0 o fs); [|done|done|lia]|].
  intros [n|f] m' Hr; [|apply both_ret; by right]. destruct Hr as (-> & ->).
  destruct (find_role_Some fs Root) as [root Hroot].
  { rewrite Hall. unfold FrameRole_ALL. set_solver. }
  eapply both_bind; [by apply (both_expect (ow_ledger o) fs _ root)|]. intros ? ? [-> ->].
  destruct (publish_building generation o fs root Hb Hall Hroot) as (o' & Hp & Hpub).
  eapply both_bind; [by apply both_pure_eq|]. intros ? ? [-> ->]. simpl.
  apply both_ret. exists fs. done.
Qed.

(** ** Teardown *)

Lemma both_teardown_inactive o fs :
  ledger_is (ow_ledger o) fs -> map of_role fs = FrameRole_ALL ->
  both (B := B) (teardown_inactive o) (teardown_inactive o) (mkMonitor fs BUILD_LINKS Held false)
    (released false o).
Proof.
  intros HL Hall. unfold teardown_inactive. eapply both_bind.
  { rewrite <-(rev_involutive BUILD_LINKS) at 3.
    apply both_remove_links; [done|by apply all_roles_linked]. }
  intros [[]|e] ? (lk & -> & Hlk); [|by apply both_ret, released_err].
  rewrite (Hlk eq_refl). destruct (find_role_Some fs Root) as [root Hroot].
  { rewrite Hall. unfold FrameRole_ALL. set_solver. }
  eapply both_bind; [by apply (both_expect (ow_ledger o) fs _ root)|]. intros ? ? [-> ->].
  eapply both_bind; [by apply both_clear_shared|].
  intros [[]|e] ? ->; [|by apply both_ret, released_err].
  apply (both_release_frames false o fs); [done|by left].
Qed.

(** The outcome of a checked teardown of a published owner. *)
Definition torn_down o (r : result AddressSpaceOwner (CheckedTeardownFailure E)) m' : Prop :=
  match r with
  | Ok o' => m' = mkMonitor [] [] (mo_phase m') false /\ ow_state o' = Dead /\ ow_root o' = None /\
             ow_generation_live o' = false /\ ow_generation o' = ow_generation o /\
             ledger_is (ow_ledger o') []
  | Err (FailureBackend f) =>
      mo_trouble m' = true /\ ow_generation_live (tf_owner f) = false /\ ow_generation (tf_owner f) = ow_generation o /\
      ledger_is (ow_ledger (tf_owner f)) (mo_frames m')
  | Err (FailureOwner _ _) => False
  end.

Lemma both_teardown_checked generation o fs :
  published generation o fs ->
  both (B := B) (teardown_checked o) (teardown_checked o) (mkMonitor fs BUILD_LINKS Held false)
    (torn_down o).
Proof.
  intros (Hg & Hl & Hs & _ & HL & _ & Hall). unfold teardown_checked. rewrite Hs, Hl. simpl.
  unfold teardown_address_space. eapply both_bind with (R := fun r => torn_down o (map_err FailureBackend r)).
  - eapply both_bind; [by apply (both_teardown_inactive _ fs)|].
    intros [[[]|e] o'] m' (fs' & lk & ph & -> & Hsame & HL' & Hok); apply both_ret; simpl in *.
    + destruct (Hok eq_refl) as [-> ->]. rewrite Hsame. simpl. by split_and!.
    + rewrite Hsame. simpl. by split_and!.
  - intros r m' Hr. by apply both_ret.
Qed.
End Proofs.
