(* ===== verification/AddressSpaceTheorems.v ===== *)
(** * Task address spaces: theorems

    For every backend, construction, teardown and the pair construction follow
    the ownership protocol and never lose a frame; the fixed links translate
    exactly two user pages with the intended permissions; mapping tokens live
    as long as their owner; the fault classifier accepts one situation. *)

From S2P Require Import Prelude.
From S2P Require Import Panic.
From S2P Require Import AddressSpace.
From S2P Require Import AddressSpaceProofs.

(** ** The page walk

    What the hardware finds in the tables the links describe: one entry per
    level, selected by the nine-bit indices of the address. *)

Definition entry (parent : FrameRole) (index : Z) : option LinkSpec :=
  List.find (fun link => bool_decide (ln_parent link = parent) && (ln_entry_index link =? index))
    BUILD_LINKS.

(** The frame reached and the flags met on the way. *)
Definition walk (a : Z) : option (FrameRole * list MappingFlags) :=
  l4 ← entry Root (pml4_index a);
  l3 ← entry (ln_child l4) (pml3_index a);
  l2 ← entry (ln_child l3) (pml2_index a);
  l1 ← entry (ln_child l2) (pml1_index a);
  Some (ln_child l1, [ln_flags l4; ln_flags l3; ln_flags l2; ln_flags l1]).

(** An access right holds when every level grants it; execution when no level
    forbids it. *)
Definition may_use (flags : list MappingFlags) : bool :=
  forallb (fun f => flags_contains f PRESENT && flags_contains f USER_ACCESSIBLE) flags.
Definition may_write (flags : list MappingFlags) : bool :=
  forallb (fun f => flags_contains f WRITABLE) flags.
Definition may_execute (flags : list MappingFlags) : bool :=
  forallb (fun f => negb (flags_contains f NO_EXECUTE)) flags.

Definition in_page (page a : Z) : bool := (page <=? a) && (a <? page + PAGE_SIZE).

Definition text_flags : list MappingFlags := [TABLE_FLAGS; TABLE_FLAGS; TABLE_FLAGS; USER_TEXT_FLAGS].
Definition stack_flags : list MappingFlags := [TABLE_FLAGS; TABLE_FLAGS; TABLE_FLAGS; USER_STACK_FLAGS].

Lemma index_div a n : Z.land (Z.shiftr a n) 0x1ff = (a / 2 ^ n) mod 512 \/ n < 0.
Proof.
  destruct (Z_lt_le_dec n 0) as [|Hn]; [by right|left].
  rewrite Z.shiftr_div_pow2 by done. change 0x1ff with (Z.ones 9). by rewrite Z.land_ones.
Qed.

Lemma indices_div a :
  pml4_index a = (a / 549755813888) mod 512 /\ pml3_index a = (a / 1073741824) mod 512 /\
  pml2_index a = (a / 2097152) mod 512 /\ pml1_index a = (a / 4096) mod 512.
Proof.
  unfold pml4_index, pml3_index, pml2_index, pml1_index.
  destruct (index_div a 39), (index_div a 30), (index_div a 21), (index_div a 12); try lia.
  split_and!; done.
Qed.

Lemma canonical_cases a :
  u64 a -> is_canonical_48 a = true -> a < 140737488355328 \/ 18446603336221196288 <= a.
Proof.
  unfold u64, is_canonical_48. intros Ha. rewrite !Z.shiftr_div_pow2 by lia.
  change (Z.land (a / 2 ^ 47) 1) with (Z.land (a / 2 ^ 47) (Z.ones 1)).
  rewrite Z.land_ones by lia. change (2 ^ 47) with 140737488355328. change (2 ^ 48) with 281474976710656.
  intros Hc. b2p. Z.to_euclidean_division_equations. lia.
Qed.

(** The entries of each table. *)
Lemma entry_cases parent index :
  entry parent index =
    match parent with
    | Root => if index =? 1 then Some (mkLink Root UserPml3 1 TABLE_FLAGS) else None
    | UserPml3 => if index =? 0 then Some (mkLink UserPml3 UserPml2 0 TABLE_FLAGS) else None
    | UserPml2 => if index =? 2 then Some (mkLink UserPml2 TextPml1 2 TABLE_FLAGS)
                  else if index =? 4 then Some (mkLink UserPml2 StackPml1 4 TABLE_FLAGS) else None
    | TextPml1 => if index =? 0 then Some (mkLink TextPml1 Text 0 USER_TEXT_FLAGS) else None
    | StackPml1 => if index =? 0 then Some (mkLink StackPml1 Stack 0 USER_STACK_FLAGS) else None
    | _ => None
    end.
Proof.
  unfold entry, BUILD_LINKS.
  change (pml4_index USER_TEXT) with 1. change (pml3_index USER_TEXT) with 0.
  change (pml2_index USER_TEXT) with 2. change (pml2_index USER_STACK) with 4.
  change (pml1_index USER_TEXT) with 0. change (pml1_index USER_STACK) with 0.
  cbn [List.find ln_parent ln_entry_index]. rewrite !(Z.eqb_sym _ index).
  destruct parent; cbn [bool_decide decide]; cbn; done.
Qed.

Lemma walk_cases a :
  u64 a -> is_canonical_48 a = true ->
  walk a = if in_page USER_TEXT a then Some (Text, text_flags)
           else if in_page USER_STACK a then Some (Stack, stack_flags) else None.
Proof.
  intros Hu Hc. apply canonical_cases in Hc; [|done]. unfold u64 in Hu.
  destruct (indices_div a) as (H4 & H3 & H2 & H1). unfold walk. rewrite H4, H3, H2, H1.
  unfold in_page, USER_TEXT, USER_STACK, PAGE_SIZE. clear H4 H3 H2 H1.
  assert (Hpage : forall p2 p1 lo, lo = 549755813888 + p2 * 2097152 + p1 * 4096 -> 0 <= p2 < 512 -> 0 <= p1 < 512 ->
    ((lo <=? a) && (a <? lo + 4096)) = (((a / 549755813888) mod 512 =? 1) && ((a / 1073741824) mod 512 =? 0)
      && ((a / 2097152) mod 512 =? p2) && ((a / 4096) mod 512 =? p1))).
  { intros p2 p1 lo -> Hp2 Hp1. apply eq_true_iff_eq. b2p. Z.to_euclidean_division_equations. lia. }
  rewrite (Hpage 2 0 0x0000008000400000), (Hpage 4 0 0x0000008000800000) by (done || lia). clear.
  rewrite entry_cases. destruct (_ mod 512 =? 1); simpl; [|done].
  rewrite entry_cases. destruct (_ mod 512 =? 0); simpl; [|done].
  rewrite entry_cases. destruct (Z.eqb_spec ((a / 2097152) mod 512) 2) as [->|]; simpl.
  - rewrite entry_cases. destruct (_ mod 512 =? 0); simpl; done.
  - destruct (_ mod 512 =? 4); simpl; [|done]. rewrite entry_cases. by destruct (_ mod 512 =? 0).
Qed.

(** ** The owner's tokens and lifecycle *)

Lemma user_mapped_iff va : user_mapped va = true <-> va = USER_TEXT \/ va = USER_STACK.
Proof.
  unfold user_mapped, USER_MAPPINGS. cbn [existsb ms_virtual_address].
  rewrite orb_false_r, orb_true_iff, !Z.eqb_eq. intuition.
Qed.

Lemma validate_token_iff o t :
  validate_token o t = Ok tt <->
  ow_generation_live o = true /\ ow_state o <> Dead /\ mt_generation t = ow_generation o /\
  (mt_virtual_address t = USER_TEXT \/ mt_virtual_address t = USER_STACK).
Proof.
  unfold validate_token. rewrite <-user_mapped_iff.
  destruct (ow_generation_live o); simpl; [|split; [done|by intros (? & _)]].
  case_bool_decide; [split; [done|tauto]|].
  destruct (Z.eqb_spec (mt_generation t) (ow_generation o)); simpl; [|split; [done|tauto]].
  destruct (user_mapped (mt_virtual_address t)) eqn:Hm; rewrite ?orb_true_r; [|split; [done|naive_solver]].
  apply user_mapped_iff in Hm as [-> | ->]; simpl; tauto.
Qed.

(** ** Theorems *)

Section Protocol.
Context {B E : Type} `{AddressSpaceBackend B E}.

(** C18: constructing an address space never panics and, on every backend,
    follows the ownership protocol: logging the calls does not change the
    result, and the monitor accepts them.  It succeeds exactly when no call
    failed and every frame was usable; the owner is then inactive, publishes
    its root and owns seven aligned, distinct frames with all six links
    installed.  On failure the frames still owned are exactly the retained
    ledger, and without a rollback error nothing is owned or linked. *)
Theorem construct_follows_protocol generation (b : B) :
  exists (r : result AddressSpaceOwner (BuildFailure E)) b' trace m,
    construct_address_space generation b = Some (r, b') /\
    construct_address_space generation (b, []) = Some (r, (b', trace)) /\
    monitor_run monitor_empty trace = Some m /\
    match r with
    | Ok o => exists fs, m = mkMonitor fs BUILD_LINKS Held false /\ published generation o fs
    | Err f => construct_refused generation f m \/ build_failed f m
    end.
Proof.
  destruct (both_construct (B := B) (E := E) generation b []) as (r & b' & t & m & Hp & Hl & Hm & HQ).
  exists r, b', t, m. done.
Qed.

(** C19: tearing down a published owner never panics and follows the protocol
    from where its construction left it: the links are removed in reverse
    order, the shared entries and the window cleared and the frames confirmed
    unreachable before any frame is returned, latest first.  It succeeds
    exactly when no call failed, leaving a dead owner without frames; otherwise
    the returned owner is stale and still holds exactly the frames not
    returned. *)
Theorem teardown_follows_protocol generation o fs (b : B) :
  published generation o fs ->
  exists (r : result AddressSpaceOwner (CheckedTeardownFailure E)) b' trace m,
    teardown_checked o b = Some (r, b') /\
    teardown_checked o (b, []) = Some (r, (b', trace)) /\
    monitor_run (mkMonitor fs BUILD_LINKS Held false) trace = Some m /\ torn_down o r m.
Proof.
  intros Hpub. destruct (both_teardown_checked (B := B) (E := E) generation o fs Hpub b [])
    as (r & b' & t & m & Hp & Hl & Hm & HQ). exists r, b', t, m. done.
Qed.

(** C20: constructing a pair publishes both owners or neither, on every backend
    and without panic: the calls split into those of the first construction,
    those of the second, and the teardown of the first after the second
    failed; each part follows the protocol, and every frame not returned is in
    a ledger of the error. *)
Theorem pair_all_or_nothing g1 g2 (b : B) :
  exists (r : result AddressSpacePair (PairBuildFailure E)) b' t1 t2 t3 m1,
    construct_address_space_pair g1 g2 b = Some (r, b') /\
    construct_address_space_pair g1 g2 (b, []) = Some (r, (b', t1 ++ t2 ++ t3)) /\
    monitor_run monitor_empty t1 = Some m1 /\
    match r with
    | Ok owners =>
        exists fs1 fs2, m1 = mkMonitor fs1 BUILD_LINKS Held false /\
          published g1 (ap_first owners) fs1 /\
          monitor_run monitor_empty t2 = Some (mkMonitor fs2 BUILD_LINKS Held false) /\
          published g2 (ap_second owners) fs2 /\ t3 = []
    | Err (PairFirst f) =>
        (construct_refused g1 f m1 \/ build_failed f m1) /\ t2 = [] /\ t3 = []
    | Err (PairSecond f teardown) =>
        exists o fs m2 m3 rt, m1 = mkMonitor fs BUILD_LINKS Held false /\ published g1 o fs /\
          monitor_run monitor_empty t2 = Some m2 /\
          (construct_refused g2 f m2 \/ build_failed f m2) /\
          monitor_run m1 t3 = Some m3 /\ torn_down o rt m3 /\ teardown = err rt
    end.
Proof.
  unfold construct_address_space_pair, bindP.
  destruct (both_construct (B := B) (E := E) g1 b []) as (r1 & b1 & t1 & m1 & -> & -> & Hm1 & HQ1).
  destruct r1 as [o1|f1].
  2: { eexists _, b1, t1, [], [], m1. unfold retP. rewrite app_nil_r. split_and!; done. }
  destruct HQ1 as (fs1 & -> & Hpub1).
  destruct (both_construct (B := B) (E := E) g2 b1 t1) as (r2 & b2 & t2 & m2 & -> & Hl2 & Hm2 & HQ2).
  simpl app. rewrite Hl2. destruct r2 as [o2|f2].
  { destruct HQ2 as (fs2 & -> & Hpub2). eexists _, b2, t1, t2, [], _. unfold retP.
    rewrite app_nil_r. split_and!; [done..|]. exists fs1, fs2. done. }
  destruct (both_teardown_checked (B := B) (E := E) g1 o1 fs1 Hpub1 b2 (t1 ++ t2))
    as (rt & b3 & t3 & m3 & -> & -> & Hm3 & HQ3).
  eexists _, b3, t1, t2, t3, _. unfold retP. rewrite app_assoc. split_and!; [done..|].
  exists o1, fs1, m2, m3, rt. done.
Qed.
End Protocol.

(** For every canonical address, walking the tables that the fixed links
    describe reaches the text frame exactly on the text page, the stack frame
    exactly on the stack page and nothing elsewhere, so every guard page is
    unmapped; the text is user-readable and executable but not writable, the
    stack user-writable but not executable. *)
Theorem user_translation_exact a :
  u64 a -> is_canonical_48 a = true ->
  walk a = (if in_page USER_TEXT a then Some (Text, text_flags)
            else if in_page USER_STACK a then Some (Stack, stack_flags) else None) /\
  (forall role flags, walk a = Some (role, flags) ->
     may_use flags = true /\ (may_write flags = true -> may_execute flags = false) /\
     (may_write flags = true <-> role = Stack) /\ (may_execute flags = true <-> role = Text)) /\
  (a ∈ guard_pages -> walk a = None) /\ validate_fixed_layout = Ok tt.
Proof.
  intros Hu Hc. pose proof (walk_cases a Hu Hc) as Hw. rewrite Hw. split_and!; [done| | |by vm_compute].
  - intros role flags. destruct (in_page USER_TEXT a); [|destruct (in_page USER_STACK a); [|done]];
      intros [= <- <-]; vm_compute; split_and!; done.
  - intros Hg. unfold guard_pages in Hg.
    repeat (apply elem_of_cons in Hg as [->|Hg]; [by vm_compute|]). by apply elem_of_nil in Hg.
Qed.

(** A token issued by an owner names one of the two user pages and is
    accepted by exactly the owners of its generation that are still live, so a
    torn-down owner, and an owner of any other generation, refuses it whatever
    happened in between. *)
Theorem tokens_follow_owner o va t :
  mapping_token o va = Ok t ->
  (va = USER_TEXT \/ va = USER_STACK) /\
  forall o', validate_token o' t = Ok tt <->
    ow_generation_live o' = true /\ ow_state o' <> Dead /\ ow_generation o' = ow_generation o.
Proof.
  unfold mapping_token. destruct (_ || _) eqn:Hl; [done|]. destruct (_ || _) eqn:Hv in |- *; [done|].
  intros [= <-]. b2p. destruct Hv as [_ Hv]. apply user_mapped_iff in Hv. split; [done|].
  intros o'. rewrite validate_token_iff. simpl. intuition.
Qed.

(** The classifier accepts exactly a user-mode write to the unmapped probe page
    by the active task under its own root. *)
Lemma classify_exact o :
  classify_expected_user_fault o = Ok tt <->
  fo_owner_state o = Active /\ fo_observed_task o = fo_expected_task o /\
  fo_current_root o = fo_expected_root o /\ Z.land (fo_code_selector o) 3 = 3 /\
  fo_fault_address o = INVALID_WRITE_TARGET /\ fo_error_code o = 6.
Proof.
  unfold classify_expected_user_fault. case_bool_decide; simpl; [|split; [done|tauto]].
  destruct (Z.eqb_spec (fo_observed_task o) (fo_expected_task o)); simpl; [|split; [done|tauto]].
  destruct (Z.eqb_spec (fo_current_root o) (fo_expected_root o)); simpl; [|split; [done|tauto]].
  destruct (Z.eqb_spec (Z.land (fo_code_selector o) 3) 3); simpl; [|split; [done|tauto]].
  destruct (Z.eqb_spec (fo_fault_address o) INVALID_WRITE_TARGET); simpl; [|split; [done|tauto]].
  destruct (Z.eqb_spec (fo_error_code o) 6) as [->|Hne]; [by vm_compute|].
  repeat (destruct_match_goal; [split; [done|tauto]|]). split; [done|tauto].
Qed.

(** ** Witnesses *)

(** A backend that hands out consecutive frames and accepts every call. *)
#[local] Instance counting : AddressSpaceBackend Z unit := {
  be_allocate_frame _ next := (Ok next, next + PAGE_SIZE);
  be_prepare_frame _ _ _ b := (Ok tt, b);
  be_install_link _ _ _ b := (Ok tt, b);
  be_remove_link _ _ _ b := (Ok tt, b);
  be_clear_shared_entries _ b := (Ok tt, b);
  be_clear_temporary_window b := (Ok tt, b);
  be_verify_unreachable _ b := (Ok tt, b);
  be_return_frame _ b := (Ok tt, b)
}.

Definition sample_owner : AddressSpaceOwner :=
  match construct_address_space (B := Z) (E := unit) 1 4096 with
  | Some (Ok o, _) => o
  | _ => mkOwner 0 false Dead None ledger_new
  end.

Lemma sample_published : exists fs, published 1 sample_owner fs.
Proof.
  destruct (both_construct (B := Z) (E := unit) 1 4096 []) as (r & b' & t & m & Hp & _ & _ & HQ).
  assert (r = Ok sample_owner) as -> by (vm_compute in Hp; vm_compute; congruence).
  destruct HQ as (fs & _ & Hpub). eauto.
Qed.

Lemma teardown_follows_protocol_witness :
  exists fs, published 1 sample_owner fs /\
  exists r b', teardown_checked (B := Z) (E := unit) sample_owner 0 = Some (r, b') /\
    is_ok r = true.
Proof.
  destruct sample_published as [fs Hpub]. exists fs. split; [exact Hpub|].
  destruct (teardown_follows_protocol (B := Z) (E := unit) 1 sample_owner fs 0 Hpub)
    as (r & b' & t & m & Hp & _). exists r, b'. split; [exact Hp|].
  vm_compute in Hp. injection Hp as <- _. reflexivity.
Defined.

Lemma user_translation_exact_witness :
  walk (USER_TEXT + 17) = Some (Text, text_flags) /\ walk USER_STACK_GUARD_LOWER = None.
Proof.
  split.
  - apply (user_translation_exact (USER_TEXT + 17)); [|vm_compute; reflexivity].
    unfold u64. vm_compute. split; congruence.
  - apply (user_translation_exact USER_STACK_GUARD_LOWER); [|vm_compute; reflexivity|].
    + unfold u64. vm_compute. split; congruence.
    + unfold guard_pages. set_solver.
Defined.

Lemma tokens_follow_owner_witness :
  exists t, mapping_token sample_owner USER_TEXT = Ok t /\ validate_token sample_owner t = Ok tt.
Proof.
  exists (mkToken 1 USER_TEXT). assert (Ht : mapping_token sample_owner USER_TEXT = Ok (mkToken 1 USER_TEXT))
    by (vm_compute; reflexivity).
  split; [exact Ht|]. apply (tokens_follow_owner sample_owner USER_TEXT _ Ht).
  split_and!; vm_compute; congruence.
Defined.
