(* ===== verification/KernelImage.v ===== *)
(** * The kernel image reader

    Models [crates/kernel-image/src/lib.rs] in full: the bounded ELF64 parser,
    the segment checks and the segment iterator.  Indexing, slicing and plain
    additions panic as in [Panic]; [usize] is 64 bits, so [usize::try_from] of
    a [u64] always succeeds. *)

From S2P Require Import Prelude.
From S2P Require Import Panic.
From S2P Require Import Bytes.

Definition ELF_HEADER_SIZE : Z := 64.
Definition PROGRAM_HEADER_SIZE : Z := 56.
Definition PROGRAM_HEADER_LOAD : Z := 1.
Definition PROGRAM_FLAG_EXECUTE : Z := 1.
Definition ELF_MACHINE_X86_64 : Z := 62.
Definition ELF_TYPE_EXECUTABLE : Z := 2.
Definition PAGE_SIZE : Z := 4096.
Definition MINIMUM_LOAD_ADDRESS : Z := 0x100000.
Definition MAXIMUM_LOAD_SEGMENTS : Z := 16.

Inductive Error :=
| ImageTooSmall | InvalidMagic | UnsupportedClass | UnsupportedEndianness | UnsupportedVersion
| UnsupportedType | UnsupportedMachine | InvalidHeaderSize | InvalidProgramHeaderSize
| MissingProgramHeaders | TooManyLoadSegments | ProgramHeaderTableOutOfBounds
| SegmentOutOfBounds | SegmentFilesLargerThanMemory | SegmentAddressMismatch
| SegmentAddressTooLow | SegmentAlignment | SegmentOverlap | EntryNotExecutable
| ArithmeticOverflow.

#[global] Instance Error_eq_dec : EqDecision Error.
Proof. solve_decision. Defined.

Record Segment := mkSegment {
  sg_file_offset : Z;
  sg_file_size : Z;
  sg_physical_start : Z;
  sg_memory_size : Z;
  sg_flags : Z
}.

Definition is_executable (s : Segment) : bool :=
  negb (Z.land (sg_flags s) PROGRAM_FLAG_EXECUTE =? 0).

Definition memory_end (s : Segment) : result Z Error :=
  ok_or (checked_add (sg_physical_start s) (sg_memory_size s)) ArithmeticOverflow.

(** [memory_size.div_ceil(PAGE_SIZE)] *)
Definition page_count (s : Segment) : Z := (sg_memory_size s + PAGE_SIZE - 1) / PAGE_SIZE.

Record ValidatedImage := mkImage {
  im_bytes : list Z;
  im_entry : Z;
  im_program_headers_offset : Z;
  im_program_header_count : nat
}.

(** ** Readers *)

Definition read_u16 (bytes : list Z) (offset : Z) : option (result Z Error) :=
  let~ end_ := panicR (checked_add offset 2) in
  let~ value := pureR (ok_or (get_range bytes offset end_) ImageTooSmall) in
  okR (from_le_bytes value).

Definition read_u32 (bytes : list Z) (offset : Z) : option (result Z Error) :=
  let~ end_ := panicR (checked_add offset 4) in
  let~ value := pureR (ok_or (get_range bytes offset end_) ImageTooSmall) in
  okR (from_le_bytes value).

Definition read_u64 (bytes : list Z) (offset : Z) : option (result Z Error) :=
  let~ end_ := panicR (checked_add offset 8) in
  let~ value := pureR (ok_or (get_range bytes offset end_) ImageTooSmall) in
  okR (from_le_bytes value).

Definition ranges_overlap (left_start left_end right_start right_end : Z) : bool :=
  (left_start <? right_end) && (right_start <? left_end).

(** ** Segments *)

(** The checks of [segment_at] once the fields are read. *)
Definition check_segment (bytes : list Z)
    (flags file_offset virtual_start physical_start file_size memory_size alignment : Z)
    : result Segment Error :=
  if (memory_size <? file_size) || (memory_size =? 0) then Err SegmentFilesLargerThanMemory else
  if negb (virtual_start =? physical_start) then Err SegmentAddressMismatch else
  if physical_start <? MINIMUM_LOAD_ADDRESS then Err SegmentAddressTooLow else
  if negb (physical_start mod PAGE_SIZE =? 0)
     || (alignment <? PAGE_SIZE)
     || negb (is_power_of_two alignment)
     || negb (file_offset mod alignment =? virtual_start mod alignment)
  then Err SegmentAlignment else
  let? file_end := ok_or (checked_add file_offset file_size) ArithmeticOverflow in
  if Z.of_nat (length bytes) <? file_end then Err SegmentOutOfBounds else
  let? _ := ok_or (checked_add physical_start memory_size) ArithmeticOverflow in
  Ok (mkSegment file_offset file_size physical_start memory_size flags).

Definition segment_at (image : ValidatedImage) (index : nat)
    : option (result (option Segment) Error) :=
  let bytes := im_bytes image in
  let~ table_offset := pureR (ok_or (checked_mul PROGRAM_HEADER_SIZE (Z.of_nat index))
                                ArithmeticOverflow) in
  let~ offset := pureR (ok_or (checked_add (im_program_headers_offset image) table_offset)
                          ArithmeticOverflow) in
  let~ kind := read_u32 bytes offset in
  if negb (kind =? PROGRAM_HEADER_LOAD) then okR None else
  let~ offset_4 := panicR (checked_add offset 4) in
  let~ flags := read_u32 bytes offset_4 in
  let~ offset_8 := panicR (checked_add offset 8) in
  let~ file_offset := read_u64 bytes offset_8 in
  let~ offset_16 := panicR (checked_add offset 16) in
  let~ virtual_start := read_u64 bytes offset_16 in
  let~ offset_24 := panicR (checked_add offset 24) in
  let~ physical_start := read_u64 bytes offset_24 in
  let~ offset_32 := panicR (checked_add offset 32) in
  let~ file_size := read_u64 bytes offset_32 in
  let~ offset_40 := panicR (checked_add offset 40) in
  let~ memory_size := read_u64 bytes offset_40 in
  let~ offset_48 := panicR (checked_add offset 48) in
  let~ alignment := read_u64 bytes offset_48 in
  let~ segment := pureR (check_segment bytes flags file_offset virtual_start physical_start
                           file_size memory_size alignment) in
  okR (Some segment).

(** [for prior_index in 0..index], with [steps] iterations left. *)
Fixpoint check_priors (image : ValidatedImage) (segment : Segment) (segment_end : Z)
    (steps prior_index : nat) : option (result unit Error) :=
  match steps with
  | O => okR tt
  | S steps' =>
      let~ prior := segment_at image prior_index in
      match prior with
      | None => check_priors image segment segment_end steps' (S prior_index)
      | Some prior =>
          let~ prior_end := pureR (memory_end prior) in
          if ranges_overlap (sg_physical_start segment) segment_end (sg_physical_start prior)
               prior_end
          then failR SegmentOverlap
          else check_priors image segment segment_end steps' (S prior_index)
      end
  end.

(** [for index in 0..program_header_count], with [steps] iterations left; it
    yields [load_segments] and [entry_is_executable]. *)
Fixpoint check_segments (image : ValidatedImage) (steps index : nat) (load_segments : Z)
    (entry_is_executable : bool) : option (result (Z * bool) Error) :=
  match steps with
  | O => okR (load_segments, entry_is_executable)
  | S steps' =>
      let~ found := segment_at image index in
      match found with
      | None => check_segments image steps' (S index) load_segments entry_is_executable
      | Some segment =>
          let load_segments := load_segments + 1 in
          if MAXIMUM_LOAD_SEGMENTS <? load_segments then failR TooManyLoadSegments else
          let~ segment_end := pureR (memory_end segment) in
          let entry_is_executable :=
            if is_executable segment && (sg_physical_start segment <=? im_entry image)
               && (im_entry image <? segment_end)
            then true else entry_is_executable in
          let~ _ := check_priors image segment segment_end index 0 in
          check_segments image steps' (S index) load_segments entry_is_executable
      end
  end.

Definition validate_segments (image : ValidatedImage) : option (result unit Error) :=
  let~ (load_segments, entry_is_executable) :=
    check_segments image (im_program_header_count image) 0 0 false in
  if load_segments =? 0 then failR MissingProgramHeaders else
  if negb entry_is_executable then failR EntryNotExecutable else
  okR tt.

(** ** The image *)

(** [bytes[index]] *)
Definition byte_at (bytes : list Z) (index : nat) : option (result Z Error) :=
  panicR (array_get bytes index).

(** [ValidatedImage::parse] *)
Definition image_parse (bytes : list Z) : option (result ValidatedImage Error) :=
  if Z.of_nat (length bytes) <? ELF_HEADER_SIZE then failR ImageTooSmall else
  if negb (bool_decide (get_range bytes 0 4 = Some [0x7f; 69; 76; 70])) then failR InvalidMagic else
  let~ class := byte_at bytes 4 in
  if negb (class =? 2) then failR UnsupportedClass else
  let~ endianness := byte_at bytes 5 in
  if negb (endianness =? 1) then failR UnsupportedEndianness else
  let~ ident_version := byte_at bytes 6 in
  if negb (ident_version =? 1) then failR UnsupportedVersion else
  let~ version := read_u32 bytes 20 in
  if negb (version =? 1) then failR UnsupportedVersion else
  let~ type_ := read_u16 bytes 16 in
  if negb (type_ =? ELF_TYPE_EXECUTABLE) then failR UnsupportedType else
  let~ machine := read_u16 bytes 18 in
  if negb (machine =? ELF_MACHINE_X86_64) then failR UnsupportedMachine else
  let~ header_size := read_u16 bytes 52 in
  if negb (header_size =? ELF_HEADER_SIZE) then failR InvalidHeaderSize else
  let~ entry_size := read_u16 bytes 54 in
  if negb (entry_size =? PROGRAM_HEADER_SIZE) then failR InvalidProgramHeaderSize else
  let~ program_header_count := read_u16 bytes 56 in
  if program_header_count =? 0 then failR MissingProgramHeaders else
  let~ program_headers_offset := read_u64 bytes 32 in
  let~ table_size := pureR (ok_or (checked_mul PROGRAM_HEADER_SIZE program_header_count)
                              ArithmeticOverflow) in
  let~ table_end := pureR (ok_or (checked_add program_headers_offset table_size)
                             ArithmeticOverflow) in
  if Z.of_nat (length bytes) <? table_end then failR ProgramHeaderTableOutOfBounds else
  let~ entry := read_u64 bytes 24 in
  let image := mkImage bytes entry program_headers_offset (Z.to_nat program_header_count) in
  let~ _ := validate_segments image in
  okR image.

(** [&self.bytes[file_offset..file_offset + file_size]] *)
Definition file_bytes (image : ValidatedImage) (segment : Segment) : option (list Z) :=
  end_ ← checked_add (sg_file_offset segment) (sg_file_size segment);
  get_range (im_bytes image) (sg_file_offset segment) end_.

(** ** The segment iterator *)

Record Segments := mkSegments { it_image : ValidatedImage; it_next_index : nat }.

Definition segments (image : ValidatedImage) : Segments := mkSegments image 0.

(** [Iterator::next]; the [unreachable!] arm is a panic.  [fuel] bounds the
    [while], whose iterations each increment the index. *)
Fixpoint segments_next_loop (fuel : nat) (image : ValidatedImage) (next_index : nat)
    : option (option Segment * nat) :=
  match fuel with
  | O => None
  | S fuel' =>
      if (next_index <? im_program_header_count image)%nat then
        match segment_at image next_index with
        | Some (Ok (Some segment)) => Some (Some segment, S next_index)
        | Some (Ok None) => segments_next_loop fuel' image (S next_index)
        | Some (Err _) => None
        | None => None
        end
      else Some (None, next_index)
  end.

Definition segments_next (it : Segments) : option (option Segment * Segments) :=
  '(item, next_index) ← segments_next_loop (S (im_program_header_count (it_image it)))
                          (it_image it) (it_next_index it);
  Some (item, mkSegments (it_image it) next_index).
