(* ===== verification/KernelImageProofs.v ===== *)
(** * The kernel image reader: what the parser decides

    A declarative reading of the program-header table ([load_headers],
    [header_ok]) and the lemmas that the loops of [KernelImage] compute it. *)

From S2P Require Import Prelude.
From S2P Require Import Panic.
From S2P Require Import Bytes.
From S2P Require Import KernelImage.

(** ** Powers of two *)

Lemma is_power_of_two_spec x :
  is_power_of_two x = true <-> exists k, 0 <= k /\ x = 2 ^ k.
Proof.
  unfold is_power_of_two. b2p. split.
  - intros [Hx Hland]. exists (Z.log2 x). split; [apply Z.log2_nonneg|].
    pose proof (Z.log2_spec x Hx) as [Hlo Hhi].
    destruct (decide (x = 2 ^ Z.log2 x)) as [|Hne]; [done|exfalso].
    assert (Z.testbit (Z.land x (x - 1)) (Z.log2 x) = true) as Hbit.
    { rewrite Z.land_spec, Z.bit_log2 by lia. simpl.
      replace (Z.log2 x) with (Z.log2 (x - 1))
        by (apply Z.log2_unique; [apply Z.log2_nonneg|lia]).
      apply Z.bit_log2. pose proof (Z.pow_pos_nonneg 2 (Z.log2 x)).
      pose proof (Z.log2_nonneg x). lia. }
    rewrite Hland, Z.bits_0 in Hbit. done.
  - intros (k & Hk & ->). pose proof (Z.pow_pos_nonneg 2 k). split; [lia|].
    replace (2 ^ k - 1) with (Z.ones k) by (rewrite Z.ones_equiv; lia).
    rewrite Z.land_ones by lia. apply Z.mod_same. lia.
Qed.

(** ** The program header table *)

(** One entry of the table as written in the file. *)
Record Header := mkHeader {
  ph_kind : Z;
  ph_flags : Z;
  ph_offset : Z;
  ph_vaddr : Z;
  ph_paddr : Z;
  ph_filesz : Z;
  ph_memsz : Z;
  ph_align : Z
}.

Definition header_at (bytes : list Z) (at_ : Z) : Header :=
  mkHeader (le_at bytes at_ 4) (le_at bytes (at_ + 4) 4) (le_at bytes (at_ + 8) 8)
    (le_at bytes (at_ + 16) 8) (le_at bytes (at_ + 24) 8) (le_at bytes (at_ + 32) 8)
    (le_at bytes (at_ + 40) 8) (le_at bytes (at_ + 48) 8).

Definition headers (image : ValidatedImage) (first n : nat) : list Header :=
  (fun i => header_at (im_bytes image)
              (im_program_headers_offset image + PROGRAM_HEADER_SIZE * Z.of_nat i)) <$> seq first n.

Definition is_load (h : Header) : Prop := ph_kind h = PROGRAM_HEADER_LOAD.

Definition segment_of (h : Header) : Segment :=
  mkSegment (ph_offset h) (ph_filesz h) (ph_paddr h) (ph_memsz h) (ph_flags h).

(** A load header the kernel can be placed by. *)
Record header_ok (len : Z) (h : Header) : Prop := {
  ho_memory : ph_filesz h <= ph_memsz h /\ ph_memsz h <> 0;
  ho_identity : ph_vaddr h = ph_paddr h;
  ho_low : MINIMUM_LOAD_ADDRESS <= ph_paddr h;
  ho_page : ph_paddr h mod PAGE_SIZE = 0;
  ho_align : exists k, 0 <= k /\ ph_align h = 2 ^ k /\ PAGE_SIZE <= ph_align h;
  ho_congruent : ph_offset h mod ph_align h = ph_vaddr h mod ph_align h;
  ho_file : ph_offset h + ph_filesz h <= len;
  ho_end : ph_paddr h + ph_memsz h < two64
}.

(** The load segments of entries [first .. first + n). *)
Definition loads (image : ValidatedImage) (first n : nat) : list Segment :=
  segment_of <$> filter is_load (headers image first n).

Definition segment_end (s : Segment) : Z := sg_physical_start s + sg_memory_size s.

Definition overlaps (s t : Segment) : bool :=
  ranges_overlap (sg_physical_start s) (segment_end s) (sg_physical_start t) (segment_end t).

Definition disjoint (s t : Segment) : Prop :=
  segment_end s <= sg_physical_start t \/ segment_end t <= sg_physical_start s.

Definition covers_entry (entry : Z) (s : Segment) : bool :=
  is_executable s && (sg_physical_start s <=? entry) && (entry <? segment_end s).

#[global] Instance is_load_dec h : Decision (is_load h).
Proof. unfold is_load. apply _. Defined.

Lemma overlaps_false s t : overlaps s t = false <-> disjoint s t.
Proof. unfold overlaps, ranges_overlap, disjoint. rewrite andb_false_iff, !Z.ltb_ge. lia. Qed.

Lemma headers_S image first n :
  headers image first (S n) =
  header_at (im_bytes image) (im_program_headers_offset image + PROGRAM_HEADER_SIZE * Z.of_nat first)
  :: headers image (S first) n.
Proof. done. Qed.

Lemma headers_app image first n m :
  headers image first (n + m) = headers image first n ++ headers image (first + n) m.
Proof. unfold headers. by rewrite seq_app, fmap_app. Qed.

Lemma loads_app image first n m :
  loads image first (n + m) = loads image first n ++ loads image (first + n) m.
Proof. unfold loads. by rewrite headers_app, filter_app, fmap_app. Qed.

(** ** One segment *)

Ltac refute_ifs :=
  repeat match goal with
    | |- (if ?b then _ else _) = _ =>
        let E := fresh in
        destruct b eqn:E; [exfalso; revert E; b2p; naive_solver lia|clear E]
    end.

Lemma check_segment_Ok bytes h s :
  Z.of_nat (length bytes) < 2 ^ 63 ->
  check_segment bytes (ph_flags h) (ph_offset h) (ph_vaddr h) (ph_paddr h) (ph_filesz h)
    (ph_memsz h) (ph_align h) = Ok s <->
  header_ok (Z.of_nat (length bytes)) h /\ s = segment_of h.
Proof.
  intros Hlen. unfold check_segment. split.
  - intros Hc. head_if_in Hc E1; [done|]. head_if_in Hc E2; [done|]. head_if_in Hc E3; [done|].
    head_if_in Hc E4; [done|]. destruct (ok_or _ _) as [fe|] eqn:E5 in Hc; [|done].
    head_if_in Hc E6; [done|]. destruct (ok_or _ _) as [me|] eqn:E7 in Hc; [|done].
    injection Hc as <-. b2p. split_hyps. split; [|done].
    match goal with Hp : is_power_of_two _ = true |- _ =>
      apply is_power_of_two_spec in Hp as (k & Hk & Hal) end.
    constructor; unfold two64; (done || lia || eauto).
  - intros [[[H1 H2] H3 H4 H5 (k & Hk & Hal & Hpg) H6 H7 H8] ->].
    assert (Hp : is_power_of_two (ph_align h) = true) by (apply is_power_of_two_spec; eauto).
    rewrite Hp. refute_ifs. rewrite checked_add_lt by (unfold two64; lia). cbn [ok_or].
    refute_ifs. by rewrite checked_add_lt.
Qed.

(** ** Readers inside the file *)

Section Reads.
Context (bytes : list Z) (Hs : slice_ok bytes).

Lemma read_u16_in offset :
  0 <= offset -> offset + 2 <= Z.of_nat (length bytes) ->
  read_u16 bytes offset = okR (le_at bytes offset 2).
Proof.
  destruct Hs as [_ Hl]. intros. unfold read_u16.
  rewrite checked_add_lt by (unfold two64; lia). cbn [panicR bindR].
  by rewrite get_range_window by lia.
Qed.

Lemma read_u32_in offset :
  0 <= offset -> offset + 4 <= Z.of_nat (length bytes) ->
  read_u32 bytes offset = okR (le_at bytes offset 4).
Proof.
  destruct Hs as [_ Hl]. intros. unfold read_u32.
  rewrite checked_add_lt by (unfold two64; lia). cbn [panicR bindR].
  by rewrite get_range_window by lia.
Qed.

Lemma read_u64_in offset :
  0 <= offset -> offset + 8 <= Z.of_nat (length bytes) ->
  read_u64 bytes offset = okR (le_at bytes offset 8).
Proof.
  destruct Hs as [_ Hl]. intros. unfold read_u64.
  rewrite checked_add_lt by (unfold two64; lia). cbn [panicR bindR].
  by rewrite get_range_window by lia.
Qed.
End Reads.

(** ** The table of an image *)

(** The table lies in the file. *)
Record table_ok (image : ValidatedImage) : Prop := {
  to_slice : slice_ok (im_bytes image);
  to_offset : 0 <= im_program_headers_offset image;
  to_end : im_program_headers_offset image
             + PROGRAM_HEADER_SIZE * Z.of_nat (im_program_header_count image)
           <= Z.of_nat (length (im_bytes image))
}.

Section Table.
Context (image : ValidatedImage) (Ht : table_ok image).

Notation bytes := (im_bytes image).
Notation len := (Z.of_nat (length (im_bytes image))).
Notation header i := (header_at (im_bytes image)
  (im_program_headers_offset image + PROGRAM_HEADER_SIZE * Z.of_nat i)).

Lemma segment_at_spec i :
  (i < im_program_header_count image)%nat ->
  exists r, segment_at image i = Some r
    /\ forall o, r = Ok o <->
         (is_load (header i) /\ header_ok len (header i) /\ o = Some (segment_of (header i)))
         \/ (~ is_load (header i) /\ o = None).
Proof.
  destruct Ht as [Hs H0 Hend]. pose proof (proj2 Hs) as Hlen. intros Hi. unfold segment_at.
  unfold PROGRAM_HEADER_SIZE in *.
  rewrite checked_mul_lt by (unfold two64; lia). cbn [ok_or pureR bindR].
  rewrite checked_add_lt by (unfold two64; lia). cbn [ok_or pureR bindR].
  rewrite read_u32_in by (done || lia). cbn [okR bindR].
  destruct (negb _) eqn:Ek.
  { eexists. split; [done|]. intros o. b2p. unfold is_load, PROGRAM_HEADER_LOAD in *.
    cbn [header_at ph_kind]. naive_solver. }
  rewrite !checked_add_lt by (unfold two64; lia). cbn [panicR bindR].
  repeat (first [rewrite read_u32_in by (done || lia)|rewrite read_u64_in by (done || lia)];
          cbn [okR bindR]).
  set (at_ := im_program_headers_offset image + 56 * Z.of_nat i) in *.
  change (check_segment _ _ _ _ _ _ _ _) with
    (check_segment bytes (ph_flags (header_at bytes at_)) (ph_offset (header_at bytes at_))
       (ph_vaddr (header_at bytes at_)) (ph_paddr (header_at bytes at_))
       (ph_filesz (header_at bytes at_)) (ph_memsz (header_at bytes at_))
       (ph_align (header_at bytes at_))).
  set (h := header_at bytes at_) in *.
  pose proof (fun s => check_segment_Ok bytes h s Hlen) as Hc.
  assert (Hload : is_load h) by (b2p; done).
  destruct (check_segment _ _ _ _ _ _ _ _) as [s|e]; (eexists; split; [done|]); intros o.
  - destruct (proj1 (Hc s) eq_refl) as [Hok ->]. naive_solver.
  - split; [done|]. intros [(_ & Hok & _)|[]]; [|done].
    discriminate (proj2 (Hc _) (conj Hok eq_refl)).
Qed.

(** Every load header of the first [n] entries is acceptable. *)
Definition prefix_ok (n : nat) : Prop :=
  Forall (fun h => is_load h -> header_ok len h) (headers image 0 n).

(** The conditions [validate_segments] decides about the first [n] entries. *)
Record table_valid (n : nat) : Prop := {
  tv_headers : prefix_ok n;
  tv_count : (length (loads image 0 n) <= 16)%nat;
  tv_disjoint : forall i j s t,
    loads image 0 n !! i = Some s -> loads image 0 n !! j = Some t -> i <> j -> disjoint s t
}.

Lemma loads_S first n :
  loads image first (S n) =
  (if decide (is_load (header first)) then [segment_of (header first)] else [])
  ++ loads image (S first) n.
Proof. unfold loads. rewrite headers_S, filter_cons. destruct (decide _); reflexivity. Qed.

Lemma loads_snoc n :
  loads image 0 (S n) =
  loads image 0 n ++ (if decide (is_load (header n)) then [segment_of (header n)] else []).
Proof.
  replace (S n) with (n + 1)%nat by lia. rewrite loads_app, loads_S. cbn [loads].
  unfold loads at 2. simpl. by rewrite app_nil_r.
Qed.

Lemma prefix_ok_S n :
  prefix_ok (S n) <-> prefix_ok n /\ (is_load (header n) -> header_ok len (header n)).
Proof.
  unfold prefix_ok. replace (S n) with (n + 1)%nat by lia.
  rewrite headers_app, Forall_app. unfold headers at 2. simpl. rewrite Forall_singleton. done.
Qed.

Lemma prefix_ok_le n m : (n <= m)%nat -> prefix_ok m -> prefix_ok n.
Proof.
  intros Hle. unfold prefix_ok. replace m with (n + (m - n))%nat by lia.
  rewrite headers_app, Forall_app. tauto.
Qed.

Lemma prefix_ok_lookup n i : prefix_ok n -> (i < n)%nat -> is_load (header i) -> header_ok len (header i).
Proof.
  intros Hp Hi. pose proof (prefix_ok_le (S i) n Hi Hp) as H'. apply prefix_ok_S in H'. tauto.
Qed.

Lemma loads_ok n : prefix_ok n -> Forall (fun s => exists h, is_load h /\ header_ok len h /\ s = segment_of h)
                                   (loads image 0 n).
Proof.
  unfold prefix_ok, loads. intros Hp. apply Forall_fmap, Forall_forall. intros h.
  rewrite list_elem_of_filter. intros [Hl Hin]. exists h. split_and!; [done| |done].
  by apply (proj1 (Forall_forall _ _) Hp).
Qed.

Lemma memory_end_ok h : header_ok len h -> memory_end (segment_of h) = Ok (segment_end (segment_of h)).
Proof. intros Hh. unfold memory_end. by rewrite checked_add_lt by apply (ho_end _ _ Hh). Qed.

(** The inner loop compares with the load segments before [index]. *)
Lemma check_priors_spec s steps prior :
  (prior + steps <= im_program_header_count image)%nat -> prefix_ok (prior + steps) ->
  check_priors image s (segment_end s) steps prior =
  if existsb (overlaps s) (loads image prior steps) then failR SegmentOverlap else okR tt.
Proof.
  revert prior. induction steps as [|steps IH]; intros prior Hle Hp; [done|].
  cbn [check_priors]. destruct (segment_at_spec prior) as (r & -> & Hr); [lia|].
  rewrite loads_S. pose proof (prefix_ok_lookup _ prior Hp ltac:(lia)) as Hh.
  destruct (decide (is_load (header prior))) as [Hl|Hl].
  - rewrite (proj2 (Hr (Some (segment_of (header prior))))) by auto. cbn [bindR].
    rewrite memory_end_ok by auto. cbn [pureR bindR existsb app]. fold (overlaps s (segment_of (header prior))).
    destruct (overlaps s _); [done|]. cbn [orb]. apply IH; [lia|]. by rewrite <-Nat.add_succ_comm in Hp.
  - rewrite (proj2 (Hr None)) by auto. cbn [bindR app]. apply IH; [lia|].
    by rewrite <-Nat.add_succ_comm in Hp.
Qed.

Lemma table_valid_0 : table_valid 0.
Proof. constructor; [by constructor|simpl; lia|]. intros i j s t Hi. destruct i; discriminate Hi. Qed.

Lemma pairwise_snoc (l : list Segment) x :
  (forall i j s t, (l ++ [x]) !! i = Some s -> (l ++ [x]) !! j = Some t -> i <> j -> disjoint s t) <->
  (forall i j s t, l !! i = Some s -> l !! j = Some t -> i <> j -> disjoint s t)
  /\ existsb (overlaps x) l = false.
Proof.
  rewrite <-not_true_iff_false, existsb_exists. split.
  - intros H. split; [intros; eapply (H i j); eauto using lookup_app_l_Some|].
    intros (y & [i Hi]%list_elem_of_In%list_elem_of_lookup & Ho).
    assert (disjoint x y) as Hd%overlaps_false; [|congruence].
    eapply (H (length l) i); [by apply list_lookup_middle|by apply lookup_app_l_Some|].
    apply lookup_lt_Some in Hi. lia.
  - intros [H Hx] i j s t. rewrite !lookup_snoc_Some.
    assert (forall k y, l !! k = Some y -> disjoint x y) as Hxy.
    { intros k y Hk. apply overlaps_false, not_true_is_false. intros Ho. apply Hx. exists y.
      split; [|done]. apply list_elem_of_In. by eapply list_elem_of_lookup_2. }
    intros [[Hi Hi']|[-> ->]] [[Hj Hj']|[-> ->]] Hne; [eauto| |eauto|lia].
    specialize (Hxy _ _ Hi'). unfold disjoint in *. lia.
Qed.

Lemma table_valid_S n :
  table_valid (S n) <->
  table_valid n /\
  (is_load (header n) ->
   header_ok len (header n) /\ (length (loads image 0 n) < 16)%nat
   /\ existsb (overlaps (segment_of (header n))) (loads image 0 n) = false).
Proof.
  split.
  - intros [Hp Hc Hd]. apply prefix_ok_S in Hp as [Hp Hn]. rewrite loads_snoc in Hc, Hd.
    destruct (decide (is_load (header n))) as [Hl|Hl].
    + rewrite length_app in Hc. simpl in Hc. apply pairwise_snoc in Hd as [Hd Hx].
      split; [constructor; (done || lia)|]. intros _. split_and!; (auto || lia).
    + rewrite app_nil_r in Hc, Hd. by split; [constructor|].
  - intros [[Hp Hc Hd] Hn]. constructor; [apply prefix_ok_S; tauto| |]; rewrite loads_snoc;
      destruct (decide (is_load (header n))) as [Hl|Hl]; rewrite ?app_nil_r; try done.
    + rewrite length_app. simpl. destruct (Hn Hl) as (_ & ? & _). lia.
    + apply pairwise_snoc. tauto.
Qed.

(** The outer loop decides [table_valid] and finds the entry. *)
Lemma check_segments_spec steps index :
  (index + steps <= im_program_header_count image)%nat -> table_valid index ->
  exists r,
    check_segments image steps index (Z.of_nat (length (loads image 0 index)))
      (existsb (covers_entry (im_entry image)) (loads image 0 index)) = Some r
    /\ forall v, r = Ok v <->
         table_valid (index + steps)
         /\ v = (Z.of_nat (length (loads image 0 (index + steps))),
                 existsb (covers_entry (im_entry image)) (loads image 0 (index + steps))).
Proof.
  revert index. induction steps as [|steps IH]; intros index Hle Hv.
  { eexists. split; [done|]. rewrite Nat.add_0_r. naive_solver. }
  assert (Hshrink : table_valid (index + S steps) -> table_valid (S index)).
  { clear -Ht. replace (index + S steps)%nat with (S index + steps)%nat by lia.
    induction steps as [|k IHk]; [by rewrite Nat.add_0_r|].
    replace (S index + S k)%nat with (S (S index + k)) by lia. intros [? _]%table_valid_S. auto. }
  cbn [check_segments]. destruct (segment_at_spec index) as (r & -> & Hr); [lia|].
  rewrite <-(Nat.add_succ_comm index steps) in *.
  specialize (IH (S index)). rewrite loads_snoc in IH. rewrite table_valid_S in IH, Hshrink.
  destruct (decide (is_load (header index))) as [Hl|Hl].
  - destruct r as [o|e]; cbn [bindR].
    2:{ eexists; split; [done|]. intros v. split; [done|]. intros [(_ & Hn)%Hshrink _].
        destruct (Hn Hl) as [Hok _]. discriminate (proj2 (Hr _) (or_introl (conj Hl (conj Hok eq_refl)))). }
    destruct (proj1 (Hr o) eq_refl) as [(_ & Hok & ->)|[]]; [|done]. clear Hr.
    set (s := segment_of (header index)) in *.
    destruct (_ <? _) eqn:Ecount; b2p; unfold MAXIMUM_LOAD_SEGMENTS in Ecount.
    { eexists; split; [done|]. intros v. split; [done|]. intros [(_ & Hn)%Hshrink _].
      destruct (Hn Hl) as (_ & ? & _). lia. }
    pose proof (memory_end_ok _ Hok) as Hme. fold s in Hme. rewrite Hme. cbn [pureR bindR].
    rewrite check_priors_spec by (lia || apply (tv_headers _ Hv)).
    destruct (existsb (overlaps s) _) eqn:Eo.
    { eexists; split; [done|]. intros v. split; [done|]. intros [(_ & Hn)%Hshrink _].
      destruct (Hn Hl) as (_ & _ & ?). fold s in H. congruence. }
    cbn [okR bindR]. destruct IH as (r & Hcs & Hspec); [lia|split; [done|]|].
    { intros _. split_and!; (done || lia). }
    exists r. split; [|done]. rewrite <-Hcs. rewrite length_app, existsb_app. cbn [length existsb].
    f_equal; [lia|]. rewrite orb_false_r. unfold covers_entry.
    destruct (is_executable s && _ && _); [by rewrite orb_true_r|by rewrite orb_false_r].
  - rewrite (proj2 (Hr None)) by auto. cbn [bindR].
    rewrite app_nil_r in IH. apply IH; [lia|]. split; [done|]. intros ?; contradiction.
Qed.

(** What [validate_segments] decides. *)
Definition image_valid : Prop :=
  table_valid (im_program_header_count image)
  /\ loads image 0 (im_program_header_count image) <> []
  /\ existsb (covers_entry (im_entry image)) (loads image 0 (im_program_header_count image)) = true.

Lemma validate_segments_spec :
  exists r, validate_segments image = Some r /\ (r = Ok tt <-> image_valid).
Proof.
  unfold validate_segments, image_valid.
  destruct (check_segments_spec (im_program_header_count image) 0) as (r & Hc & Hr);
    [done|apply table_valid_0|]. cbn [Nat.add] in Hr.
  change (Z.of_nat (length (loads image 0 0))) with 0 in Hc.
  change (existsb _ (loads image 0 0)) with false in Hc. rewrite Hc.
  set (l := loads image 0 _) in *.
  destruct r as [[n e]|e]; cbn [bindR].
  - destruct (proj1 (Hr (n, e)) eq_refl) as [Hv [= -> ->]].
    destruct l as [|x l'] eqn:El; [eexists; split; [done|]; naive_solver|].
    rewrite (proj2 (Z.eqb_neq _ _)) by (simpl; lia).
    destruct (existsb _ _); eexists; (split; [done|]); naive_solver.
  - eexists; split; [done|]. split; [done|]. intros (Hv & _).
    discriminate (proj2 (Hr _) (conj Hv eq_refl)).
Qed.
End Table.
