(* ===== verification/KernelImageTheorems.v ===== *)
(** * The kernel image reader: theorems

    [image_parse] never panics and accepts exactly the images of the
    declarative description; the iterator of an accepted image terminates,
    never reaches its [unreachable!] arm and yields exactly the load segments;
    those segments can be placed: inside the file, page-disjoint, without
    address overflow, with the entry in an executable one. *)

From S2P Require Import Prelude.
From S2P Require Import Panic.
From S2P Require Import Bytes.
From S2P Require Import KernelImage.
From S2P Require Import KernelImageProofs.

(** The ELF file header the kernel image must have. *)
Record elf_header_ok (bytes : list Z) : Prop := {
  eh_size : ELF_HEADER_SIZE <= Z.of_nat (length bytes);
  eh_magic : window bytes 0 4 = [0x7f; 69; 76; 70];
  eh_class : bytes !! 4%nat = Some 2;
  eh_endianness : bytes !! 5%nat = Some 1;
  eh_ident_version : bytes !! 6%nat = Some 1;
  eh_version : le_at bytes 20 4 = 1;
  eh_type : le_at bytes 16 2 = ELF_TYPE_EXECUTABLE;
  eh_machine : le_at bytes 18 2 = ELF_MACHINE_X86_64;
  eh_header_size : le_at bytes 52 2 = ELF_HEADER_SIZE;
  eh_entry_size : le_at bytes 54 2 = PROGRAM_HEADER_SIZE;
  eh_count : le_at bytes 56 2 <> 0;
  eh_table : le_at bytes 32 8 + PROGRAM_HEADER_SIZE * le_at bytes 56 2 <= Z.of_nat (length bytes)
}.

Definition image_of (bytes : list Z) : ValidatedImage :=
  mkImage bytes (le_at bytes 24 8) (le_at bytes 32 8) (Z.to_nat (le_at bytes 56 2)).

(** The declarative description of the accepted images. *)
Definition admissible (bytes : list Z) (image : ValidatedImage) : Prop :=
  elf_header_ok bytes /\ image = image_of bytes /\ image_valid image.

(** The iteration of [for segment in image.segments()]. *)
Fixpoint collect (fuel : nat) (it : Segments) : option (list Segment) :=
  match fuel with
  | O => None
  | S fuel' =>
      '(item, it') ← segments_next it;
      match item with
      | None => Some []
      | Some segment => l ← collect fuel' it'; Some (segment :: l)
      end
  end.

(** One check of [image_parse]: failing it contradicts the description, and
    passing it leaves its field. *)
Ltac reject := eexists; split; [reflexivity|]; intros image; split; [done|]; intros [[] _].

Ltac check :=
  match goal with
  | |- exists _, bindR (okR _) _ = _ /\ _ => cbn [bindR okR]
  | |- exists _, (if negb ?b then _ else _) = _ /\ _ =>
      let E := fresh "E" in
      destruct b eqn:E; cbn [negb]; b2p; [|reject; (congruence || lia)]
  end.

Lemma byte_at_in bytes i :
  (i < length bytes)%nat -> exists b, bytes !! i = Some b /\ byte_at bytes i = okR b.
Proof.
  intros [b Hb]%lookup_lt_is_Some. exists b. split; [done|].
  unfold byte_at, array_get. by rewrite Hb.
Qed.

Lemma image_parse_spec bytes :
  slice_ok bytes ->
  exists r, image_parse bytes = Some r /\ forall image, r = Ok image <-> admissible bytes image.
Proof.
  intros Hs. pose proof Hs as [Hb Hlen]. unfold image_parse, admissible.
  destruct (_ <? _) eqn:Esize; b2p; [reject; lia|].
  unfold ELF_HEADER_SIZE in Esize.
  change (get_range bytes 0 4) with (get_range bytes 0 (0 + 4)). rewrite get_range_window by lia.
  destruct (bool_decide _) eqn:Emagic; cbn [negb]; b2p; [|reject; congruence].
  injection Emagic as Emagic.
  destruct (byte_at_in bytes 4) as (b4 & Hb4 & ->); [lia|].
  destruct (byte_at_in bytes 5) as (b5 & Hb5 & ->); [lia|].
  destruct (byte_at_in bytes 6) as (b6 & Hb6 & ->); [lia|].
  rewrite !read_u16_in, !read_u32_in, !read_u64_in by (done || lia).
  repeat check.
  destruct (_ =? 0) eqn:Ecount; b2p; [reject; congruence|].
  pose proof (le_at_bound bytes 56 2 Hb ltac:(lia)) as Hcount.
  pose proof (le_at_bound bytes 32 8 Hb ltac:(lia)) as Hoff.
  rewrite checked_mul_lt by (unfold two64, PROGRAM_HEADER_SIZE; lia). cbn [ok_or pureR bindR].
  destruct (checked_add _ _) as [table_end|] eqn:Eend; cbn [ok_or pureR bindR]; b2p;
    [|reject; lia].
  destruct Eend as [-> Eend]. destruct (_ <? _) eqn:Etable; b2p; [reject; lia|].
  assert (Heh : elf_header_ok bytes) by (constructor; (done || congruence || lia)).
  fold (image_of bytes).
  destruct (validate_segments_spec (image_of bytes)) as (r & -> & Hr).
  { constructor; cbn; (done || lia). }
  destruct r as [[]|e]; cbn [bindR okR]; (eexists; split; [reflexivity|]); intros image;
    [naive_solver|]. split; [done|]. intros (_ & -> & Hv). discriminate (proj2 Hr Hv).
Qed.

Lemma admissible_table bytes image :
  slice_ok bytes -> admissible bytes image -> table_ok image.
Proof.
  intros Hs ([] & -> & _). pose proof (le_at_bound bytes 56 2 (proj1 Hs) ltac:(lia)).
  pose proof (le_at_bound bytes 32 8 (proj1 Hs) ltac:(lia)).
  constructor; cbn; (done || lia).
Qed.

Lemma image_parse_admissible bytes image :
  slice_ok bytes -> image_parse bytes = Some (Ok image) ->
  im_bytes image = bytes /\ admissible bytes image /\ table_ok image.
Proof.
  intros Hs Hp. destruct (image_parse_spec bytes Hs) as (r & Hr & Hspec).
  rewrite Hp in Hr. injection Hr as <-. destruct (proj1 (Hspec image) eq_refl) as (Hh & -> & Hv).
  split; [done|]. split; [done|]. eapply admissible_table; [done|]. by split.
Qed.

(** ** The iterator *)

Section Iterate.
Context (image : ValidatedImage) (Ht : table_ok image) (Hv : image_valid image).

Notation count := (im_program_header_count image).

(** The loop stops at the next load segment or at the end of the table. *)
Lemma segments_next_loop_spec fuel i :
  (i <= count)%nat -> (count - i < fuel)%nat ->
  (loads image i (count - i) = [] /\ segments_next_loop fuel image i = Some (None, count))
  \/ exists s j, (i < j <= count)%nat
       /\ loads image i (count - i) = s :: loads image j (count - j)
       /\ segments_next_loop fuel image i = Some (Some s, j).
Proof.
  revert i. induction fuel as [|fuel IH]; intros i Hi Hf; [lia|].
  cbn [segments_next_loop]. destruct (i <? count)%nat eqn:Elt; b2p.
  2:{ left. replace (count - i)%nat with 0%nat by lia. split; [done|]. by replace i with count by lia. }
  destruct (segment_at_spec image Ht i Elt) as (r & -> & Hr).
  pose proof (prefix_ok_lookup image count i (tv_headers _ _ (proj1 Hv)) Elt) as Hok.
  replace (count - i)%nat with (S (count - S i)) by lia. rewrite loads_S.
  destruct (decide (is_load _)) as [Hl|Hl].
  - rewrite (proj2 (Hr (Some _))) by (left; eauto). right. eexists _, (S i). split; [lia|]. done.
  - rewrite (proj2 (Hr None)) by auto. cbn [app].
    destruct (IH (S i)) as [?|(s & j & Hj & ?)]; [lia|lia|by left|].
    right. exists s, j. split; [lia|done].
Qed.

Lemma collect_spec fuel i :
  (i <= count)%nat -> (count - i < fuel)%nat ->
  collect fuel (mkSegments image i) = Some (loads image i (count - i)).
Proof.
  revert i. induction fuel as [|fuel IH]; intros i Hi Hf; [lia|].
  cbn [collect]. unfold segments_next. cbn [it_image it_next_index].
  destruct (segments_next_loop_spec (S count) i) as [[Hl ->]|(s & j & Hj & Hl & ->)]; [lia|lia| |];
    simpl; [by rewrite Hl|]. rewrite IH by lia. simpl. by rewrite Hl.
Qed.
End Iterate.

(** ** Placement *)

(** The physical pages a segment is loaded to end at [page_end]. *)
Definition page_end (s : Segment) : Z := sg_physical_start s + PAGE_SIZE * page_count s.

(** A segment that can be copied from the file and placed in memory. *)
Record placeable (image : ValidatedImage) (s : Segment) : Prop := {
  pl_file : exists data, file_bytes image s = Some data
              /\ data = window (im_bytes image) (sg_file_offset s) (sg_file_size s)
              /\ Z.of_nat (length data) = sg_file_size s;
  pl_fits : 0 <= sg_file_size s <= sg_memory_size s /\ 0 < sg_memory_size s;
  pl_low : MINIMUM_LOAD_ADDRESS <= sg_physical_start s;
  pl_aligned : sg_physical_start s mod PAGE_SIZE = 0;
  pl_pages : 1 <= page_count s /\ segment_end s <= page_end s < segment_end s + PAGE_SIZE;
  pl_end : page_end s <= two64
}.

Lemma page_count_bounds s :
  sg_memory_size s <= PAGE_SIZE * page_count s < sg_memory_size s + PAGE_SIZE.
Proof.
  unfold page_count, PAGE_SIZE.
  pose proof (Z.div_mod (sg_memory_size s + 4096 - 1) 4096).
  pose proof (Z.mod_pos_bound (sg_memory_size s + 4096 - 1) 4096). lia.
Qed.

(** Page-aligned ranges that end below an aligned bound still do when rounded
    up to whole pages. *)
Lemma page_end_le s bound :
  sg_physical_start s mod PAGE_SIZE = 0 -> bound mod PAGE_SIZE = 0 ->
  segment_end s <= bound -> page_end s <= bound.
Proof.
  unfold page_end, segment_end. intros Hs Hb Hle. pose proof (page_count_bounds s) as Hc.
  unfold PAGE_SIZE in *. pose proof (Z.div_mod (sg_physical_start s) 4096).
  pose proof (Z.div_mod bound 4096). lia.
Qed.

Lemma load_placeable image h :
  table_ok image -> 0 <= ph_offset h -> 0 <= ph_filesz h ->
  header_ok (Z.of_nat (length (im_bytes image))) h -> placeable image (segment_of h).
Proof.
  intros Ht H0 H1 [[Hm Hm'] Hi Hlow Hpage _ _ Hfile Hend].
  pose proof (proj2 (to_slice _ Ht)) as Hlen. pose proof (page_count_bounds (segment_of h)) as Hc.
  constructor; try (done || (cbn; lia)).
  - unfold file_bytes. cbn [segment_of sg_file_offset sg_file_size].
    rewrite checked_add_lt by (unfold two64; lia). cbn. rewrite get_range_window by lia.
    eexists. split; [done|]. split; [done|]. rewrite length_window; lia.
  - unfold page_end, segment_end. cbn [segment_of sg_memory_size] in Hc. unfold PAGE_SIZE in *.
    cbn [segment_of sg_memory_size sg_physical_start]. lia.
  - apply page_end_le; [done|done|]. unfold segment_end. cbn. lia.
Qed.

Lemma loads_placeable image :
  table_ok image -> image_valid image ->
  Forall (placeable image) (loads image 0 (im_program_header_count image)).
Proof.
  intros Ht [[Hp _ _] _]. unfold loads, prefix_ok in *. apply Forall_fmap, Forall_forall.
  intros h [Hl Hin]%list_elem_of_filter. pose proof (proj1 (Forall_forall _ _) Hp h Hin Hl) as Hok.
  apply list_elem_of_fmap in Hin as (i & -> & _).
  pose proof (proj1 (to_slice _ Ht)) as Hb.
  apply load_placeable; [done| | |done]; apply le_at_bound; (done || lia).
Qed.

Lemma loads_page_disjoint image i j s t :
  table_ok image -> image_valid image ->
  loads image 0 (im_program_header_count image) !! i = Some s ->
  loads image 0 (im_program_header_count image) !! j = Some t -> i <> j ->
  page_end s <= sg_physical_start t \/ page_end t <= sg_physical_start s.
Proof.
  intros Ht Hv Hi Hj Hne. pose proof (proj1 (Forall_forall _ _) (loads_placeable _ Ht Hv)) as Hpl.
  pose proof (pl_aligned _ _ (Hpl s (list_elem_of_lookup_2 _ _ _ Hi))).
  pose proof (pl_aligned _ _ (Hpl t (list_elem_of_lookup_2 _ _ _ Hj))).
  destruct (tv_disjoint _ _ (proj1 Hv) _ _ _ _ Hi Hj Hne); [left|right]; by apply page_end_le.
Qed.

(** ** Theorems *)

(** C22: for every byte slice the parser returns without panicking (no index,
    slice or addition goes out of range), and it accepts exactly the images
    that meet the declarative description: a 64-bit little-endian x86-64
    executable header, a program-header table inside the file, every load
    header in the file, page aligned, identity mapped at or above 1 MiB, at
    least one and at most sixteen load segments with disjoint memory, and an
    entry point inside an executable one. *)
Theorem parse_exact bytes :
  slice_ok bytes ->
  exists r, image_parse bytes = Some r
    /\ forall image, r = Ok image <->
         elf_header_ok bytes /\ image = image_of bytes /\ image_valid image.
Proof. apply image_parse_spec. Qed.

(** The iterator over an accepted image terminates within one call per
    program header, never reaches its [unreachable!] arm, and yields exactly
    the load segments in table order: at least one, at most sixteen; a
    further call yields nothing again. *)
Theorem iterator_terminates bytes image :
  slice_ok bytes -> image_parse bytes = Some (Ok image) ->
  collect (S (im_program_header_count image)) (segments image)
    = Some (loads image 0 (im_program_header_count image))
  /\ (1 <= length (loads image 0 (im_program_header_count image)) <= 16)%nat
  /\ segments_next (mkSegments image (im_program_header_count image))
     = Some (None, mkSegments image (im_program_header_count image)).
Proof.
  intros Hs Hp. destruct (image_parse_admissible _ _ Hs Hp) as (_ & (_ & _ & Hv) & Ht).
  split_and!.
  - unfold segments. rewrite collect_spec by (done || lia). by rewrite Nat.sub_0_r.
  - destruct Hv as (_ & Hne & _). destruct (loads _ _ _); [done|simpl; lia].
  - apply (tv_count _ _ (proj1 Hv)).
  - unfold segments_next. cbn [it_image it_next_index segments_next_loop].
    by rewrite Nat.ltb_irrefl.
Qed.

(** C23: every segment the iterator of an accepted image yields can be placed:
    its file bytes exist and have its file size, they fit its memory, its
    memory is page aligned at or above 1 MiB and does not run past the address
    space; different segments occupy different pages; and the entry point is
    inside an executable one. *)
Theorem parsed_segments_placeable bytes image l :
  slice_ok bytes -> image_parse bytes = Some (Ok image) ->
  collect (S (im_program_header_count image)) (segments image) = Some l ->
  Forall (placeable image) l
  /\ (forall i j s t, l !! i = Some s -> l !! j = Some t -> i <> j ->
        page_end s <= sg_physical_start t \/ page_end t <= sg_physical_start s)
  /\ Exists (fun s => is_executable s = true
                      /\ sg_physical_start s <= im_entry image < segment_end s) l.
Proof.
  intros Hs Hp Hl. destruct (image_parse_admissible _ _ Hs Hp) as (_ & (_ & _ & Hv) & Ht).
  unfold segments in Hl. rewrite collect_spec, Nat.sub_0_r in Hl by (done || lia).
  injection Hl as <-. split_and!.
  - by apply loads_placeable.
  - intros. by eapply (loads_page_disjoint image i j).
  - destruct Hv as (_ & _ & He). apply existsb_exists in He as (s & Hin & Hc).
    apply Exists_exists. exists s. split; [by apply list_elem_of_In|].
    unfold covers_entry in Hc. b2p. naive_solver lia.
Qed.

(** ** Witnesses: the image of the crate's own test *)

Definition test_image : list Z :=
  [0x7f; 69; 76; 70; 2; 1; 1] ++ replicate 9 0
  ++ to_le_bytes 2 ELF_TYPE_EXECUTABLE ++ to_le_bytes 2 ELF_MACHINE_X86_64 ++ to_le_bytes 4 1
  ++ to_le_bytes 8 MINIMUM_LOAD_ADDRESS ++ to_le_bytes 8 ELF_HEADER_SIZE ++ replicate 12 0
  ++ to_le_bytes 2 ELF_HEADER_SIZE ++ to_le_bytes 2 PROGRAM_HEADER_SIZE ++ to_le_bytes 2 1
  ++ replicate 6 0
  ++ to_le_bytes 4 PROGRAM_HEADER_LOAD ++ to_le_bytes 4 5 ++ to_le_bytes 8 0x1000
  ++ to_le_bytes 8 MINIMUM_LOAD_ADDRESS ++ to_le_bytes 8 MINIMUM_LOAD_ADDRESS
  ++ to_le_bytes 8 4 ++ to_le_bytes 8 8 ++ to_le_bytes 8 PAGE_SIZE
  ++ replicate 3976 0 ++ [1; 2; 3; 4].

Definition byte_okb (b : Z) : bool := (0 <=? b) && (b <? 256).

Lemma bytes_ok_compute bytes : forallb byte_okb bytes = true -> Forall byte_ok bytes.
Proof.
  intros H. apply Forall_forall. intros b Hb%list_elem_of_In.
  pose proof (proj1 (forallb_forall _ _) H b Hb) as Hc. unfold byte_okb in Hc. b2p. done.
Qed.

Lemma test_image_ok : slice_ok test_image.
Proof. split; [apply bytes_ok_compute; by vm_compute|vm_compute; reflexivity]. Qed.

(** The two failures the crate's tests expect. *)
Example test_image_bad_magic :
  image_parse (<[1%nat := 88]> test_image) = Some (Err InvalidMagic).
Proof. vm_compute. reflexivity. Qed.

Example test_image_bad_entry :
  image_parse (<[25%nat := 0x10]> test_image) = Some (Err EntryNotExecutable).
Proof. vm_compute. reflexivity. Qed.

Lemma parse_exact_witness :
  slice_ok test_image /\
  exists r, image_parse test_image = Some r
    /\ forall image, r = Ok image <->
         elf_header_ok test_image /\ image = image_of test_image /\ image_valid image.
Proof. split; [exact test_image_ok|]. exact (parse_exact test_image test_image_ok). Defined.

Lemma iterator_terminates_witness :
  collect 2 (segments (image_of test_image)) = Some (loads (image_of test_image) 0 1).
Proof.
  exact (proj1 (iterator_terminates test_image (image_of test_image) test_image_ok
                  ltac:(vm_compute; reflexivity))).
Defined.

Lemma parsed_segments_placeable_witness :
  Forall (placeable (image_of test_image)) [mkSegment 0x1000 4 MINIMUM_LOAD_ADDRESS 8 5].
Proof.
  exact (proj1 (parsed_segments_placeable test_image (image_of test_image)
                  [mkSegment 0x1000 4 MINIMUM_LOAD_ADDRESS 8 5] test_image_ok
                  ltac:(vm_compute; reflexivity) ltac:(vm_compute; reflexivity))).
Defined.
