(* ===== verification/Loader.v ===== *)
(** * The UEFI loader

    Models [loader/src/main.rs]: reading and placing the kernel image, the
    override list, the framebuffer capture, the final memory map, the handoff
    and the transfer.  The [uefi] crate is the type class [Uefi]: one operation
    per call the loader makes, over an abstract firmware state.  Physical
    memory is a function from addresses to bytes and holds what the loader
    itself writes through raw pointers.  [None] is a panic. *)

From stdpp Require Import sorting.
From S2P Require Import Prelude.
From S2P Require Import BootContract.
From S2P Require Import Panic.
From S2P Require Import BootNormalize.
From S2P Require Import Bytes.
From S2P Require Import KernelImage.

Notation PAGE_SIZE := BootContract.PAGE_SIZE.

(** ** What the loader uses of the [uefi] crate *)

Inductive AllocateType := AnyPages | AtAddress (address : Z).

Inductive MemoryType :=
| CONVENTIONAL | LOADER_CODE | LOADER_DATA | BOOT_SERVICES_CODE | BOOT_SERVICES_DATA
| ACPI_RECLAIM | ACPI_NON_VOLATILE | MMIO | MMIO_PORT_SPACE | OTHER_MEMORY (code : Z).

Inductive PixelFormat := Rgb | Bgr | Bitmask | BltOnly.

Record ModeInfo := mkMode {
  mi_pixel_format : PixelFormat;
  mi_resolution : Z * Z;
  mi_stride : Z
}.

Record MemoryDescriptor := mkDescriptor {
  md_phys_start : Z;
  md_page_count : Z;
  md_ty : MemoryType
}.

(** [uefi::fs::Error]: an I/O error with its status, or another kind. *)
Inductive FsError (St : Type) := FsIo (status : St) | FsOther.
Arguments FsIo {St} _.
Arguments FsOther {St}.

Class Uefi (U St : Type) := {
  LOAD_ERROR : St;
  OUT_OF_RESOURCES : St;
  SUCCESS : St;
  uefi_init : U -> result unit St * U;
  get_image_file_system : U -> result unit St * U;
  fs_metadata_size : U -> result Z (FsError St) * U;
  fs_read : U -> result (list Z) (FsError St) * U;
  (* the scoped protocol of the file system is closed when dropped *)
  close_file_system : U -> U;
  drop_bytes : list Z -> U -> U;
  (* [AllocateType], always [MemoryType::LOADER_DATA], the page count *)
  allocate_pages : AllocateType -> Z -> U -> result Z St * U;
  get_graphics_handle : U -> bool * U;
  open_graphics : U -> bool * U;
  close_graphics : U -> U;
  current_mode_info : U -> ModeInfo;
  (* the frame buffer's address and size *)
  frame_buffer : U -> Z * Z;
  exit_boot_services : U -> list MemoryDescriptor * U;
  map_sort : list MemoryDescriptor -> list MemoryDescriptor
}.

(** ** Constants *)

Definition UEFI_PAGE_SIZE : Z := PAGE_SIZE.
Definition MAX_KERNEL_IMAGE_SIZE : Z := 16 * 1024 * 1024.
Definition MAX_REGION_OVERRIDES : nat := Z.to_nat (MAXIMUM_LOAD_SEGMENTS + 1).
Definition REGION_STORAGE_BYTES : Z := Z.of_nat MAX_MEMORY_REGIONS * layout_size region_layout.
Definition REGION_STORAGE_PAGES : Z := (REGION_STORAGE_BYTES + UEFI_PAGE_SIZE - 1) / UEFI_PAGE_SIZE.

(** ** Physical memory *)

Definition Memory : Type := Z -> Z.

(** [ptr::write_bytes(destination, 0, count)] *)
Definition zero_memory (destination count : Z) (m : Memory) : Memory :=
  fun a => if (destination <=? a) && (a <? destination + count) then 0 else m a.

(** [ptr::copy_nonoverlapping(data, destination, data.len())] *)
Definition copy_memory (data : list Z) (destination : Z) (m : Memory) : Memory :=
  fun a => if (destination <=? a) && (a <? destination + Z.of_nat (length data))
           then nth (Z.to_nat (a - destination)) data 0 else m a.

(** The bytes of the [repr(C)] structures, which have no padding. *)
Definition region_bytes (r : MemoryRegionV1) : list Z :=
  to_le_bytes 8 (mr_physical_start r) ++ to_le_bytes 8 (mr_page_count r)
  ++ to_le_bytes 4 (mr_kind r) ++ to_le_bytes 4 (mr_attributes r).

Definition header_bytes (h : BootHandoffHeaderV1) : list Z :=
  hd_magic h ++ to_le_bytes 2 (hd_abi_major h) ++ to_le_bytes 2 (hd_abi_minor h)
  ++ to_le_bytes 4 (hd_header_size h) ++ to_le_bytes 4 (hd_handoff_size h)
  ++ to_le_bytes 4 (hd_flags h) ++ to_le_bytes 8 (hd_reserved h).

Definition framebuffer_bytes (f : FramebufferV1) : list Z :=
  to_le_bytes 8 (fb_physical_start f) ++ to_le_bytes 8 (fb_byte_length f)
  ++ to_le_bytes 4 (fb_width f) ++ to_le_bytes 4 (fb_height f)
  ++ to_le_bytes 4 (fb_stride_pixels f) ++ to_le_bytes 4 (fb_pixel_format f)
  ++ to_le_bytes 8 (fb_reserved f).

Definition handoff_bytes (h : BootHandoffV1) : list Z :=
  header_bytes (ho_header h) ++ to_le_bytes 8 (ho_memory_regions_address h)
  ++ to_le_bytes 4 (ho_memory_region_count h) ++ to_le_bytes 4 (ho_memory_region_entry_size h)
  ++ framebuffer_bytes (ho_framebuffer h).

(** ** The machine and its monad *)

Record Machine (U : Type) := mkMachine { mc_firmware : U; mc_memory : Memory }.
Arguments mkMachine {U} _ _.
Arguments mc_firmware {U} _.
Arguments mc_memory {U} _.

Section Loader.
Context {U St : Type} `{Uefi U St}.

(** May panic, may fail with a status. *)
Definition L (A : Type) : Type := Machine U -> option (result A St * Machine U).

Definition retL {A} (a : A) : L A := fun m => Some (Ok a, m).
Definition failL {A} (s : St) : L A := fun m => Some (Err s, m).
Definition bindL {A B} (x : L A) (k : A -> L B) : L B := fun m =>
  match x m with
  | None => None
  | Some (Err s, m') => Some (Err s, m')
  | Some (Ok a, m') => k a m'
  end.
(** A computation without effects. *)
Definition liftL {A} (r : option (result A St)) : L A := fun m =>
  match r with None => None | Some r => Some (r, m) end.
(** A firmware call. *)
Definition callL {A} (f : U -> A * U) : L A := fun m =>
  let '(a, u) := f (mc_firmware m) in Some (Ok a, mkMachine u (mc_memory m)).
(** A firmware call followed by [?]. *)
Definition tryL {A} (f : U -> result A St * U) : L A := fun m =>
  let '(r, u) := f (mc_firmware m) in Some (r, mkMachine u (mc_memory m)).
Definition askL {A} (f : U -> A) : L A := fun m => Some (Ok (f (mc_firmware m)), m).
(** A scope at whose end, on every path, a firmware object is dropped. *)
Definition scopeL {A} (x : L A) (drop : U -> U) : L A := fun m =>
  match x m with
  | None => None
  | Some (r, m') => Some (r, mkMachine (drop (mc_firmware m')) (mc_memory m'))
  end.
Definition writeL (f : Memory -> Memory) : L unit := fun m =>
  Some (Ok tt, mkMachine (mc_firmware m) (f (mc_memory m))).

Notation "'let@' x ':=' m 'in' k" := (bindL m (fun x => k))
  (at level 10, x pattern, m at level 100, k at level 200,
   format "'[v' 'let@'  x  ':='  m  'in' '/' k ']'").

(** ** The kernel file *)

Definition file_system_status (e : FsError St) : St :=
  match e with FsIo status => status | FsOther => LOAD_ERROR end.

Definition read_kernel : L (list Z) :=
  let@ _ := tryL get_image_file_system in
  scopeL
    (let@ size := tryL (fun u => let '(r, u') := fs_metadata_size u in
                                 (map_err file_system_status r, u')) in
     if (size =? 0) || (MAX_KERNEL_IMAGE_SIZE <? size) then failL LOAD_ERROR else
     tryL (fun u => let '(r, u') := fs_read u in (map_err file_system_status r, u')))
    close_file_system.

(** ** Overrides *)

(** The [for] of [collect_kernel_overrides]; [fuel] bounds the iterator. *)
Fixpoint collect_overrides_loop (fuel : nat) (it : Segments)
    (overrides : list MemoryRegionOverride) (count : nat)
    : option (result (nat * list MemoryRegionOverride) St) :=
  match fuel with
  | O => None
  | S fuel' =>
      '(item, it') ← segments_next it;
      match item with
      | None => okR (count, overrides)
      | Some segment =>
          if Z.of_nat count =? MAXIMUM_LOAD_SEGMENTS then failR LOAD_ERROR else
          let~ overrides := panicR (array_set overrides count
            (mkOverride (sg_physical_start segment) (KernelImage.page_count segment)
               MEMORY_RESERVED true)) in
          collect_overrides_loop fuel' it' overrides (S count)
      end
  end.

Definition collect_kernel_overrides (image : ValidatedImage)
    (overrides : list MemoryRegionOverride)
    : option (result (nat * list MemoryRegionOverride) St) :=
  collect_overrides_loop (S (im_program_header_count image)) (segments image) overrides 0.

(** [value & !(PAGE_SIZE - 1)] *)
Definition page_floor (value : Z) : Z := Z.land value (not64 (PAGE_SIZE - 1)).

Definition add_framebuffer_override (framebuffer : FramebufferV1)
    (overrides : list MemoryRegionOverride) (count : nat)
    : option (result (nat * list MemoryRegionOverride) St) :=
  if is_zero framebuffer then okR (count, overrides) else
  if (count =? length overrides)%nat then failR OUT_OF_RESOURCES else
  let start := page_floor (fb_physical_start framebuffer) in
  let~ end_ := pureR (ok_or
    (value ← checked_add (fb_physical_start framebuffer) (fb_byte_length framebuffer);
     value ← checked_add value (PAGE_SIZE - 1);
     Some (page_floor value)) LOAD_ERROR) in
  let~ bytes := panicR (checked_sub end_ start) in
  let~ overrides := panicR (array_set overrides count
    (mkOverride start (bytes / PAGE_SIZE) MEMORY_MMIO false)) in
  okR (S count, overrides).

Definition start_le (a b : MemoryRegionOverride) : Prop := ov_physical_start a <= ov_physical_start b.

#[global] Instance start_le_dec : RelDecision start_le.
Proof. intros a b. unfold start_le. apply _. Defined.

(** The sort is not stable in the source; entries with equal starts overlap, so
    the normalisation refuses them in either order.
    [overrides[..count].sort_unstable_by_key(|region| region.physical_start)] *)
Definition sort_overrides (overrides : list MemoryRegionOverride) (count : nat)
    : option (list MemoryRegionOverride) :=
  live ← slice_to overrides count;
  Some (merge_sort start_le live ++ drop count overrides).

(** ** Placing the image *)

(** The [for] of [load_segments]. *)
Fixpoint load_segments_loop (fuel : nat) (image : ValidatedImage) (it : Segments) : L unit :=
  match fuel with
  | O => liftL None
  | S fuel' =>
      let@ (item, it') := liftL (panicR (segments_next it)) in
      match item with
      | None => retL tt
      | Some segment =>
          let page_count := KernelImage.page_count segment in
          if (page_count =? 0) || (two64 - 1 <? sg_memory_size segment) then failL LOAD_ERROR else
          let@ _ := tryL (allocate_pages (AtAddress (sg_physical_start segment)) page_count) in
          let destination := sg_physical_start segment in
          let@ bytes := liftL (panicR (checked_mul page_count UEFI_PAGE_SIZE)) in
          let@ _ := writeL (zero_memory destination bytes) in
          let@ data := liftL (panicR (file_bytes image segment)) in
          let@ _ := writeL (copy_memory (take (Z.to_nat (sg_file_size segment)) data) destination) in
          load_segments_loop fuel' image it'
      end
  end.

Definition load_segments (image : ValidatedImage) : L unit :=
  load_segments_loop (S (im_program_header_count image)) image (segments image).

(** ** Framebuffer *)

(** [FramebufferV1::default()] *)
Definition framebuffer_default : FramebufferV1 := mkFramebuffer 0 0 0 0 0 0 0.

(** [u32::try_from(value).map_err(|_| Status::LOAD_ERROR)?] *)
Definition try_u32 (value : Z) : option (result Z St) :=
  if value <? 4294967296 then okR value else failR LOAD_ERROR.

(** The part of [capture_framebuffer] after the pixel format. *)
Definition describe_framebuffer (mode : ModeInfo) (buffer : Z * Z) (pixel_format : Z)
    : option (result FramebufferV1 St) :=
  let '(width, height) := mi_resolution mode in
  let stride := mi_stride mode in
  if (width =? 0) || (height =? 0) || (stride <? width) then failR LOAD_ERROR else
  let '(physical_start, byte_length) := buffer in
  let~ minimum_length := pureR (ok_or
    (pixels ← checked_mul stride height; checked_mul pixels 4) LOAD_ERROR) in
  if (physical_start =? 0) || (byte_length <? minimum_length)
     || match checked_add physical_start byte_length with None => true | Some _ => false end
  then failR LOAD_ERROR else
  let~ width := try_u32 width in
  let~ height := try_u32 height in
  let~ stride_pixels := try_u32 stride in
  okR (mkFramebuffer physical_start byte_length width height stride_pixels pixel_format 0).

Definition capture_framebuffer : L FramebufferV1 :=
  let@ found := callL get_graphics_handle in
  if negb found then retL framebuffer_default else
  let@ opened := callL open_graphics in
  if negb opened then retL framebuffer_default else
  scopeL
    (let@ mode := askL current_mode_info in
     match mi_pixel_format mode with
     | Bitmask | BltOnly => retL framebuffer_default
     | Rgb => let@ buffer := askL frame_buffer in
              liftL (describe_framebuffer mode buffer PIXEL_FORMAT_RGB)
     | Bgr => let@ buffer := askL frame_buffer in
              liftL (describe_framebuffer mode buffer PIXEL_FORMAT_BGR)
     end)
    close_graphics.

Definition allocate_loader_pages (page_count : Z) : L Z :=
  tryL (allocate_pages AnyPages page_count).

(** ** The final memory map *)

Definition memory_kind (memory_type : MemoryType) : Z :=
  match memory_type with
  | CONVENTIONAL => MEMORY_USABLE
  | LOADER_CODE | LOADER_DATA | BOOT_SERVICES_CODE | BOOT_SERVICES_DATA =>
      MEMORY_LOADER_RECLAIMABLE
  | ACPI_RECLAIM => MEMORY_ACPI_RECLAIMABLE
  | ACPI_NON_VOLATILE => MEMORY_ACPI_NVS
  | MMIO | MMIO_PORT_SPACE => MEMORY_MMIO
  | OTHER_MEMORY _ => MEMORY_RESERVED
  end.

Definition source_of (descriptor : MemoryDescriptor) : SourceMemoryRegion :=
  mkSource (md_phys_start descriptor) (md_page_count descriptor) (memory_kind (md_ty descriptor)).

(** ** The transfer *)

(** How the loader ends: it returns a status to the firmware, halts after
    [ExitBootServices], or jumps to the entry with the handoff's address. *)
Inductive Outcome :=
| Returned (status : result unit St)
| Halted
| Entered (entry_address handoff : Z).

(** What the first half, which can still fail, leaves for the second. *)
Record Prepared := mkPrepared {
  pr_entry_address : Z;
  pr_framebuffer : FramebufferV1;
  pr_overrides : list MemoryRegionOverride;
  pr_override_count : nat;
  pr_handoff_address : Z;
  pr_region_storage_address : Z
}.

Definition prepare_kernel : L Prepared :=
  let@ kernel_bytes := read_kernel in
  let@ image := liftL (match image_parse kernel_bytes with
                       | None => None
                       | Some r => Some (map_err (fun _ => LOAD_ERROR) r)
                       end) in
  let overrides := replicate MAX_REGION_OVERRIDES Override_EMPTY in
  let@ (override_count, overrides) := liftL (collect_kernel_overrides image overrides) in
  let@ _ := load_segments image in
  let entry_address := im_entry image in
  let@ framebuffer := capture_framebuffer in
  let@ (override_count, overrides) :=
    liftL (add_framebuffer_override framebuffer overrides override_count) in
  let@ overrides := liftL (panicR (sort_overrides overrides override_count)) in
  let@ handoff_address := allocate_loader_pages 1 in
  let@ region_storage_address := allocate_loader_pages REGION_STORAGE_PAGES in
  let@ _ := callL (fun u => (tt, drop_bytes kernel_bytes u)) in
  retL (mkPrepared entry_address framebuffer overrides override_count handoff_address
          region_storage_address).

(** The header the handoff carries. *)
Definition handoff_header (framebuffer : FramebufferV1) : BootHandoffHeaderV1 :=
  let header := header_new in
  if negb (is_zero framebuffer)
  then mkHeader (hd_magic header) (hd_abi_major header) (hd_abi_minor header)
         (hd_header_size header) (hd_handoff_size header) FRAMEBUFFER_PRESENT (hd_reserved header)
  else header.

(** After [ExitBootServices]. *)
Definition enter_kernel (p : Prepared) (m : Machine U) : option (Outcome * Machine U) :=
  let '(memory_map, u) := exit_boot_services (mc_firmware m) in
  let memory_map := map_sort memory_map in
  let storage := pr_region_storage_address p in
  bytes ← checked_mul REGION_STORAGE_PAGES UEFI_PAGE_SIZE;
  let memory := zero_memory storage bytes (mc_memory m) in
  let regions := replicate MAX_MEMORY_REGIONS (mkRegion 0 0 0 0) in
  let sources := map source_of memory_map in
  overrides ← slice_to (pr_overrides p) (pr_override_count p);
  '(normalized, regions) ← normalize_memory_regions sources overrides regions;
  let memory := copy_memory (mjoin (region_bytes <$> regions)) storage memory in
  match normalized with
  | Err _ => Some (Halted, mkMachine u memory)
  | Ok region_count =>
      let handoff := mkHandoff (handoff_header (pr_framebuffer p)) storage
                       (Z.of_nat region_count mod 4294967296) (layout_size region_layout)
                       (pr_framebuffer p) in
      let memory := copy_memory (handoff_bytes handoff) (pr_handoff_address p) memory in
      Some (Entered (pr_entry_address p) (pr_handoff_address p), mkMachine u memory)
  end.

Definition load_and_enter_kernel (m : Machine U) : option (Outcome * Machine U) :=
  match prepare_kernel m with
  | None => None
  | Some (Err status, m') => Some (Returned (Err status), m')
  | Some (Ok p, m') => enter_kernel p m'
  end.

(** [main]; the status it returns to the firmware, if it returns. *)
Definition main (m : Machine U) : option (Outcome * Machine U) :=
  let '(r, u) := uefi_init (mc_firmware m) in
  let m := mkMachine u (mc_memory m) in
  match r with
  | Err _ => Some (Returned (Err LOAD_ERROR), m)
  | Ok _ => load_and_enter_kernel m
  end.
End Loader.
