(* ===== verification/LoaderProofs.v ===== *)
(** * The loader: what each step leaves behind

    [UefiLaws] is what the loader relies on of the firmware: page allocations
    are aligned, inside the address space and disjoint, and the final memory
    map does not call an allocated page conventional.  The lemmas give, for
    each step of the loader, its result on every branch and the state it
    leaves. *)

From stdpp Require Import sorting.
From S2P Require Import Prelude.
From S2P Require Import BootContract.
From S2P Require Import Panic.
From S2P Require Import BootNormalize.
From S2P Require Import BootNormalizeProofs.
From S2P Require Import BootValidate.
From S2P Require Import BootTheorems.
From S2P Require Import Bytes.
From S2P Require Import KernelImage.
From S2P Require Import KernelImageProofs.
From S2P Require Import KernelImageTheorems.
From S2P Require Import Loader.

(** The range of a page allocation (address, pages) holds [x]. *)
Definition in_pages (x : Z) (r : Z * Z) : Prop := in_range x (fst r) (snd r).

(** A firmware operation that allocates and frees no pages. *)
Definition quiet {U A} (allocated : U -> list (Z * Z)) (f : U -> A * U) : Prop :=
  forall u a u', f u = (a, u') -> allocated u' = allocated u.

Definition descriptor_typed (d : MemoryDescriptor) : Prop :=
  u64 (md_phys_start d) /\ u64 (md_page_count d).

Definition in_descriptor (x : Z) (d : MemoryDescriptor) : Prop :=
  in_range x (md_phys_start d) (md_page_count d).

(** The laws of the firmware; [allocated] is the list of the loader's page
    allocations. *)
Class UefiLaws (U St : Type) `{Uefi U St} := {
  allocated : U -> list (Z * Z);
  init_quiet : quiet allocated uefi_init;
  file_system_quiet : quiet allocated get_image_file_system;
  metadata_quiet : quiet allocated fs_metadata_size;
  read_quiet : quiet allocated fs_read;
  read_bytes_ok : forall u bytes u', fs_read u = (Ok bytes, u') -> slice_ok bytes;
  close_file_system_quiet : forall u, allocated (close_file_system u) = allocated u;
  drop_quiet : forall bytes u, allocated (drop_bytes bytes u) = allocated u;
  handle_quiet : quiet allocated get_graphics_handle;
  open_quiet : quiet allocated open_graphics;
  close_graphics_quiet : forall u, allocated (close_graphics u) = allocated u;
  mode_typed : forall u, u64 (fst (mi_resolution (current_mode_info u)))
                         /\ u64 (snd (mi_resolution (current_mode_info u)))
                         /\ u64 (mi_stride (current_mode_info u));
  buffer_typed : forall u, u64 (fst (frame_buffer u)) /\ u64 (snd (frame_buffer u));
  allocate_ok : forall t n u a u',
    allocate_pages t n u = (Ok a, u') ->
    allocated u' = (a, n) :: allocated u /\ range_ok a n /\ 0 < a
    /\ (forall x, in_pages x (a, n) -> ~ Exists (in_pages x) (allocated u))
    /\ match t with AtAddress b => a = b | AnyPages => True end;
  exit_map : forall u descriptors u',
    exit_boot_services u = (descriptors, u') ->
    Forall descriptor_typed descriptors
    /\ forall x, Exists (in_pages x) (allocated u) ->
         Forall (fun d => md_ty d = CONVENTIONAL -> ~ in_descriptor x d) descriptors;
  sort_permutes : forall l, map_sort l ≡ₚ l
}.

(** ** Memory *)

(** The bytes of [data] are at [a], and zeros after them up to [n] bytes. *)
Definition stored (m : Memory) (a n : Z) (data : list Z) : Prop :=
  forall i, 0 <= i < n -> m (a + i) = nth (Z.to_nat i) data 0.

Lemma copy_memory_stored m a data : stored (copy_memory data a m) a (Z.of_nat (length data)) data.
Proof.
  intros i Hi. unfold copy_memory.
  rewrite (proj2 (Z.leb_le _ _)), (proj2 (Z.ltb_lt _ _)) by lia. simpl. do 2 f_equal. lia.
Qed.

Lemma copy_zero_stored m a n data :
  Z.of_nat (length data) <= n -> stored (copy_memory data a (zero_memory a n m)) a n data.
Proof.
  intros Hn i Hi. unfold copy_memory, zero_memory.
  destruct (_ && _) eqn:E; b2p.
  - do 2 f_equal. lia.
  - rewrite (proj2 (Z.leb_le _ _)), (proj2 (Z.ltb_lt _ _)) by lia. simpl.
    rewrite nth_overflow; [done|]. lia.
Qed.

(** A write elsewhere keeps what is stored. *)
Lemma copy_memory_other m a n data b bytes :
  stored m a n data -> (forall x, a <= x < a + n -> b <= x < b + Z.of_nat (length bytes) -> False) ->
  stored (copy_memory bytes b m) a n data.
Proof.
  intros Hs Hd i Hi. unfold copy_memory. destruct (_ && _) eqn:E; [|by apply Hs].
  exfalso. b2p. apply (Hd (a + i)); lia.
Qed.

Lemma zero_memory_other m a n data b k :
  stored m a n data -> (forall x, a <= x < a + n -> b <= x < b + k -> False) ->
  stored (zero_memory b k m) a n data.
Proof.
  intros Hs Hd i Hi. unfold zero_memory. destruct (_ && _) eqn:E; [|by apply Hs].
  exfalso. b2p. apply (Hd (a + i)); lia.
Qed.

(** ** Page rounding *)

Lemma page_floor_spec x : u64 x -> page_floor x = x - x mod PAGE_SIZE.
Proof.
  intros Hx. unfold page_floor. change (not64 (PAGE_SIZE - 1)) with (Z.shiftl (Z.ones 52) 12).
  change PAGE_SIZE with (2 ^ 12). rewrite <-Z.land_ones by lia.
  assert (Hdec : x = Z.lor (Z.land x (Z.shiftl (Z.ones 52) 12)) (Z.land x (Z.ones 12))).
  { rewrite <-Z.land_lor_distr_r. change (Z.lor _ _) with (Z.ones 64).
    rewrite Z.land_ones by lia. symmetry. apply Z.mod_small. unfold u64 in Hx. lia. }
  assert (Hand : Z.land (Z.land x (Z.shiftl (Z.ones 52) 12)) (Z.land x (Z.ones 12)) = 0).
  { rewrite (Z.land_comm x (Z.ones 12)), Z.land_assoc, <-(Z.land_assoc x).
    change (Z.land (Z.shiftl (Z.ones 52) 12) (Z.ones 12)) with 0. by rewrite Z.land_0_r. }
  pose proof (Z.add_lor_land (Z.land x (Z.shiftl (Z.ones 52) 12)) (Z.land x (Z.ones 12))). lia.
Qed.

Lemma page_floor_bounds x :
  u64 x -> aligned (page_floor x) /\ 0 <= page_floor x <= x /\ x < page_floor x + PAGE_SIZE.
Proof.
  intros Hx. rewrite page_floor_spec by done. unfold u64, aligned in *.
  pose proof (Z.mod_pos_bound x PAGE_SIZE ltac:(unfold PAGE_SIZE; lia)).
  pose proof (Z.mod_le x PAGE_SIZE ltac:(lia) ltac:(unfold PAGE_SIZE; lia)).
  split_and!; try lia. rewrite Zminus_mod_idemp_r, Z.sub_diag. done.
Qed.

Section Steps.
Context {U St : Type} `{HU : Uefi U St, !UefiLaws U St}.
Implicit Types (m : Machine U) (image : ValidatedImage) (s : Segment).

(** ** Overrides *)

Definition override_of (s : Segment) : MemoryRegionOverride :=
  mkOverride (sg_physical_start s) (KernelImage.page_count s) MEMORY_RESERVED true.

(** The loop writes one required override per segment the iterator yields. *)
Lemma collect_overrides_loop_spec fuel : forall it l overrides count,
  collect fuel it = Some l -> (count + length l <= 16)%nat -> length overrides = 17%nat ->
  exists overrides',
    collect_overrides_loop (St := St) fuel it overrides count
      = Some (Ok ((count + length l)%nat, overrides')) /\
    length overrides' = 17%nat /\
    take (count + length l) overrides' = take count overrides ++ (override_of <$> l).
Proof.
  induction fuel as [|fuel IH]; intros it l overrides count Hc Hle Hlen; [done|].
  cbn [collect collect_overrides_loop] in *.
  destruct (segments_next it) as [[[s|] it']|]; [..|done]; simpl in *.
  - destruct (collect fuel it') as [l'|] eqn:Hl; simpl in Hc; [|done]. injection Hc as <-.
    simpl in Hle. unfold MAXIMUM_LOAD_SEGMENTS. rewrite (proj2 (Z.eqb_neq _ _)) by lia.
    rewrite array_set_lt by lia. simpl.
    destruct (IH it' l' (<[count := override_of s]> overrides) (S count)) as (ov & Hov & Hl' & Ht);
      [done|lia|by rewrite length_insert|].
    unfold override_of in Hov at 1. rewrite Hov.
    exists ov. cbn [length]. rewrite Nat.add_succ_r. split_and!; [done..|].
    cbn [fmap list_fmap]. change (S (count + length l')) with (S count + length l')%nat.
    rewrite Ht, take_push by lia. by rewrite <-app_assoc.
  - injection Hc as <-. exists overrides. cbn [length]. rewrite Nat.add_0_r, app_nil_r. done.
Qed.

(** ** Placing the image *)

(** The segment's pages are allocated and hold its file bytes, then zeros. *)
Definition placed (image : ValidatedImage) (u : U) (mem : Memory) (s : Segment) : Prop :=
  (sg_physical_start s, KernelImage.page_count s) ∈ allocated u /\
  stored mem (sg_physical_start s) (PAGE_SIZE * KernelImage.page_count s)
    (window (im_bytes image) (sg_file_offset s) (sg_file_size s)).

(** Fresh pages touch nothing that is placed. *)
Lemma placed_other image u u' mem a n s data :
  allocated u' = (a, n) :: allocated u ->
  (forall x, in_pages x (a, n) -> ~ Exists (in_pages x) (allocated u)) ->
  placed image u mem s -> Z.of_nat (length data) <= PAGE_SIZE * n ->
  placed image u' (copy_memory data a (zero_memory a (PAGE_SIZE * n) mem)) s.
Proof.
  intros Ha Hd [Hin Hs] Hlen.
  assert (Hdis : forall x, sg_physical_start s <= x <
            sg_physical_start s + PAGE_SIZE * KernelImage.page_count s ->
            a <= x < a + PAGE_SIZE * n -> False).
  { intros x Hx Hx'. apply (Hd x).
    - unfold in_pages, in_range, pages_end. simpl. lia.
    - apply Exists_exists. eexists. split; [exact Hin|].
      unfold in_pages, in_range, pages_end. simpl. lia. }
  split; [rewrite Ha; by right|].
  apply copy_memory_other; [apply zero_memory_other; [done|done]|]. intros x Hx Hx'.
  apply (Hdis x); lia.
Qed.

Lemma load_segments_loop_spec image fuel : forall it l m before,
  collect fuel it = Some l -> Forall (placeable image) l ->
  Forall (placed image (mc_firmware m) (mc_memory m)) before ->
  exists r m', load_segments_loop fuel image it m = Some (r, m') /\
    (r = Ok tt -> Forall (placed image (mc_firmware m') (mc_memory m')) (before ++ l)).
Proof.
  induction fuel as [|fuel IH]; intros it l m before Hc Hpl Hb; [done|].
  cbn [collect load_segments_loop] in *. unfold bindL at 1, liftL at 1.
  destruct (segments_next it) as [[[s|] it']|]; [..|done]; simpl in Hc |- *.
  2:{ injection Hc as <-. eexists _, _. split; [done|]. intros _. by rewrite app_nil_r. }
  destruct (collect fuel it') as [l'|] eqn:Hl; simpl in Hc; [|done]. injection Hc as <-.
  apply Forall_cons in Hpl as [Hp Hpl]. destruct (pl_pages _ _ Hp) as [Hp1 Hpe].
  destruct (_ || _) eqn:Eguard; [by eexists _, _; split|].
  unfold bindL at 1, tryL.
  destruct (allocate_pages _ _ _) as [[a|e] u'] eqn:Ea; [|by eexists _, _; split].
  apply allocate_ok in Ea as (Hal & Hr & _ & Hdis & ->).
  set (a := sg_physical_start s) in *. set (n := KernelImage.page_count s) in *.
  destruct Hr as (_ & _ & _ & Hend). unfold pages_end in Hend.
  unfold bindL, liftL, writeL. rewrite checked_mul_lt by (unfold UEFI_PAGE_SIZE, two64 in *;
    destruct Hp as [_ _ Hlow _ _ _]; unfold MINIMUM_LOAD_ADDRESS in Hlow; lia).
  cbn [panicR mc_firmware mc_memory].
  destruct (pl_file _ _ Hp) as (data & -> & -> & Hdlen). cbn [panicR].
  set (data := window _ _ _) in *.
  rewrite take_ge by lia. rewrite (Z.mul_comm n). fold UEFI_PAGE_SIZE. unfold UEFI_PAGE_SIZE.
  assert (Hfit : Z.of_nat (length data) <= PAGE_SIZE * n).
  { rewrite Hdlen. destruct (pl_fits _ _ Hp) as [[_ ?] _].
    unfold page_end, segment_end in Hpe. fold a n in Hpe.
    change PAGE_SIZE with KernelImage.PAGE_SIZE. lia. }
  cbn [mc_firmware mc_memory].
  destruct (IH it' l' (mkMachine u' (copy_memory data a (zero_memory a (PAGE_SIZE * n)
    (mc_memory m)))) (before ++ [s])) as (r & m' & -> & Hm'); [done|done| |].
  - apply Forall_app. split.
    + eapply Forall_impl; [exact Hb|]. intros t Ht. by eapply placed_other.
    + apply Forall_singleton. split; [simpl; rewrite Hal; by left|]. by apply copy_zero_stored.
  - eexists _, _. split; [done|]. by rewrite <-app_assoc in Hm'.
Qed.

(** ** Framebuffer *)

(** What the capture returns: no framebuffer, or one the handoff may carry. *)
Definition framebuffer_captured (f : FramebufferV1) : Prop :=
  f = framebuffer_default \/
  (framebuffer_typed f /\ is_zero f = false /\
   0 < fb_physical_start f /\ 0 < fb_byte_length f /\ 0 < fb_width f /\ 0 < fb_height f /\
   fb_width f <= fb_stride_pixels f /\ fb_reserved f = 0 /\
   (fb_pixel_format f = PIXEL_FORMAT_RGB \/ fb_pixel_format f = PIXEL_FORMAT_BGR) /\
   fb_stride_pixels f * fb_height f * 4 <= fb_byte_length f /\
   fb_physical_start f + fb_byte_length f < two64).

Lemma try_u32_cases v :
  try_u32 (St := St) v = Some (Err LOAD_ERROR) \/ (try_u32 (St := St) v = Some (Ok v) /\ v < 4294967296).
Proof. unfold try_u32. destruct (_ <? _) eqn:E; b2p; [by right|by left]. Qed.

Lemma describe_framebuffer_spec u pixel_format :
  pixel_format = PIXEL_FORMAT_RGB \/ pixel_format = PIXEL_FORMAT_BGR ->
  exists r, describe_framebuffer (St := St) (current_mode_info u) (frame_buffer u) pixel_format = Some r /\
    forall f, r = Ok f -> framebuffer_captured f /\ is_zero f = false.
Proof.
  intros Hpf. unfold describe_framebuffer.
  destruct (mode_typed u) as (Hw & Hh & Hs), (buffer_typed u) as [Ha Hb].
  destruct (mi_resolution _) as [w h], (frame_buffer u) as [a b]. cbn [fst snd] in *.
  set (s := mi_stride _) in *. unfold u64 in *.
  destruct (_ || _) eqn:E1; [by eexists; split|]. b2p.
  destruct (ok_or _ _) as [ml|e] eqn:Eml; cbn [pureR bindR]; [|by eexists; split].
  apply ok_or_Ok, bind_Some in Eml as (px & Hpx & Hml). b2p.
  destruct Hpx as [-> Hpx], Hml as [-> Hml].
  destruct (_ || match _ with _ => _ end) eqn:E2; [by eexists; split|]. b2p.
  destruct E2 as [[E2a E2b] E2c]. destruct (checked_add a b) as [ab|] eqn:Eab; [|done]. b2p.
  destruct (try_u32_cases w) as [->|[-> ?]]; cbn [bindR]; [by eexists; split|].
  destruct (try_u32_cases h) as [->|[-> ?]]; cbn [bindR]; [by eexists; split|].
  destruct (try_u32_cases s) as [->|[-> ?]]; cbn [bindR]; [by eexists; split|].
  eexists. split; [done|]. intros f [= <-].
  assert (Hz : is_zero (mkFramebuffer a b w h s pixel_format 0) = false).
  { unfold is_zero. cbn. rewrite (proj2 (Z.eqb_neq a 0)) by lia. done. }
  split; [right|done]. unfold framebuffer_typed, u64, u32, two64. cbn.
  unfold PIXEL_FORMAT_RGB, PIXEL_FORMAT_BGR in *. split_and!; (done || nia).
Qed.

Lemma capture_framebuffer_spec m :
  exists r m', capture_framebuffer m = Some (r, m') /\ mc_memory m' = mc_memory m /\
    allocated (mc_firmware m') = allocated (mc_firmware m) /\
    forall f, r = Ok f -> framebuffer_captured f.
Proof.
  unfold capture_framebuffer. unfold bindL at 1, callL at 1.
  destruct (get_graphics_handle _) as [found u1] eqn:E1. apply handle_quiet in E1.
  destruct found; cbn [negb];
    [|eexists _, _; split; [done|]; split_and!; [done..|]; intros f [= <-]; by left].
  unfold bindL at 1, callL at 1. cbn [mc_firmware mc_memory].
  destruct (open_graphics u1) as [opened u2] eqn:E2. apply open_quiet in E2.
  destruct opened; cbn [negb];
    [|eexists _, _; split; [done|]; cbn; split_and!; [done|congruence|]; intros f [= <-]; by left].
  unfold scopeL, bindL, askL. cbn [mc_firmware mc_memory].
  assert (Hclose : allocated (close_graphics u2) = allocated (mc_firmware m))
    by (rewrite close_graphics_quiet; congruence).
  assert (Hd : forall pf, pf = PIXEL_FORMAT_RGB \/ pf = PIXEL_FORMAT_BGR ->
    exists r, describe_framebuffer (St := St) (current_mode_info u2) (frame_buffer u2) pf = Some r /\
      forall f, r = Ok f -> framebuffer_captured f).
  { intros pf Hpf. destruct (describe_framebuffer_spec u2 pf Hpf) as (r & -> & Hr).
    exists r. split; [done|]. intros f Hf. by apply Hr. }
  destruct (mi_pixel_format _); unfold liftL; cbn [mc_firmware mc_memory].
  - destruct (Hd PIXEL_FORMAT_RGB) as (r & -> & Hr); [by left|]. by eexists _, _.
  - destruct (Hd PIXEL_FORMAT_BGR) as (r & -> & Hr); [by right|]. by eexists _, _.
  - eexists _, _. split; [done|]. split_and!; [done|done|]. intros f [= <-]. by left.
  - eexists _, _. split; [done|]. split_and!; [done|done|]. intros f [= <-]. by left.
Qed.

(** The override that covers a framebuffer. *)
Definition covers_framebuffer (f : FramebufferV1) (o : MemoryRegionOverride) : Prop :=
  override_typed o /\ ov_kind o = MEMORY_MMIO /\ ov_require_full_coverage o = false /\
  (forall x, fb_physical_start f <= x < fb_physical_start f + fb_byte_length f ->
     in_range x (ov_physical_start o) (ov_page_count o)).

Lemma add_framebuffer_override_spec f overrides count :
  framebuffer_captured f -> length overrides = 17%nat -> (count <= 16)%nat ->
  exists r, add_framebuffer_override (St := St) f overrides count = Some r /\
    forall count' overrides', r = Ok (count', overrides') ->
      length overrides' = 17%nat /\ (count' <= 17)%nat /\
      exists extra, take count' overrides' = take count overrides ++ extra /\
        ((is_zero f = true /\ extra = []) \/
         (is_zero f = false /\ exists o, extra = [o] /\ covers_framebuffer f o)).
Proof.
  intros Hf Hlen Hc. unfold add_framebuffer_override.
  destruct (is_zero f) eqn:Hz.
  { eexists. split; [done|]. intros c o [= <- <-]. split_and!; [done|lia|]. exists [].
    rewrite app_nil_r. auto. }
  destruct Hf as [->|(Hty & _ & Hs & Hl & _ & _ & _ & _ & _ & _ & Hend)]; [done|].
  rewrite (proj2 (Nat.eqb_neq _ _)) by lia.
  rewrite checked_add_lt by done. cbn [mbind option_bind].
  destruct (checked_add _ (PAGE_SIZE - 1)) as [v|] eqn:Ev; cbn [mbind option_bind ok_or pureR bindR];
    [|by eexists; split].
  b2p. destruct Ev as [-> Ev].
  set (a := fb_physical_start f) in *. set (b := fb_byte_length f) in *.
  unfold PAGE_SIZE in Ev.
  destruct (page_floor_bounds a) as (Ha1 & Ha2 & Ha3); [unfold u64; lia|].
  destruct (page_floor_bounds (a + b + (PAGE_SIZE - 1))) as (He1 & He2 & He3);
    [unfold u64, PAGE_SIZE; lia|].
  set (e := page_floor (a + b + (PAGE_SIZE - 1))) in *. set (s := page_floor a) in *. unfold PAGE_SIZE in Ha3, He2, He3.
  rewrite checked_sub_le by lia. cbn [panicR bindR].
  rewrite array_set_lt by lia. cbn [panicR bindR]. eexists. split; [done|].
  intros c o [= <- <-]. split_and!; [by rewrite length_insert|lia|].
  eexists [_]. rewrite take_push by lia. split; [done|]. right. split; [done|].
  eexists. split; [done|]. pose proof (pages_between s e Ha1 He1 ltac:(lia)) as Hpb.
  set (pages := (e - s) / PAGE_SIZE) in *.
  assert (Hpages : 0 <= pages < two64) by (unfold pages_end, PAGE_SIZE, two64 in *; lia).
  unfold covers_framebuffer, override_typed, u64, u32.
  cbn [ov_kind ov_physical_start ov_page_count ov_require_full_coverage].
  unfold two64 in Hpages. unfold MEMORY_MMIO. split; [lia|]. do 2 (split; [reflexivity|]).
  intros x Hx. unfold in_range. rewrite Hpb. lia.
Qed.

Lemma sort_overrides_spec overrides count :
  (count <= length overrides)%nat ->
  exists overrides', sort_overrides overrides count = Some overrides' /\
    length overrides' = length overrides /\ take count overrides' ≡ₚ take count overrides.
Proof.
  intros Hc. unfold sort_overrides. rewrite slice_to_le by done. cbn.
  pose proof (merge_sort_Permutation start_le (take count overrides)) as Hp.
  pose proof (Permutation_length Hp) as Hl. rewrite length_take in Hl.
  eexists. split; [done|]. split.
  - rewrite length_app, length_drop. lia.
  - rewrite take_app_le, take_ge by lia. done.
Qed.
End Steps.
