(* ===== verification/LoaderTheorems.v ===== *)
(** * The loader: theorems

    Against every firmware that keeps [UefiLaws] the loader never panics, never
    returns success, and when it enters the kernel the image is in memory at
    its addresses and the handoff in memory is one the kernel's validation
    accepts, with the kernel's own pages reserved. *)

From S2P Require Import Prelude.
From S2P Require Import BootContract.
From S2P Require Import Panic.
From S2P Require Import BootNormalize.
From S2P Require Import BootNormalizeProofs.
From S2P Require Import BootValidate.
From S2P Require Import BootTheorems.
From S2P Require Import Bytes.
From S2P Require Import KernelImage.
From S2P Require Import KernelImageProofs.
From S2P Require Import KernelImageTheorems.
From S2P Require Import Loader.
From S2P Require Import LoaderProofs.

(** ** Sizes of the written structures *)

Lemma length_region_bytes r : length (region_bytes r) = 24%nat.
Proof. unfold region_bytes. rewrite !length_app, !length_to_le_bytes. done. Qed.

Lemma length_regions_bytes l : length (mjoin (region_bytes <$> l)) = (24 * length l)%nat.
Proof.
  induction l as [|r l IH]; [done|]. change (mjoin (region_bytes <$> r :: l)) with (region_bytes r ++ mjoin (region_bytes <$> l)).
  rewrite length_app, length_region_bytes, IH.
  cbn [length]. lia.
Qed.

Lemma regions_bytes_split n (l : list MemoryRegionV1) :
  mjoin (region_bytes <$> take n l) ++ mjoin (region_bytes <$> drop n l) = mjoin (region_bytes <$> l).
Proof.
  revert l. induction n as [|n IH]; intros [|r l]; [done..|].
  change (mjoin (region_bytes <$> take (S n) (r :: l)))
    with (region_bytes r ++ mjoin (region_bytes <$> take n l)).
  rewrite <-app_assoc. cbn [drop]. by rewrite IH.
Qed.

Lemma length_handoff_bytes h :
  hd_magic (ho_header h) = HANDOFF_MAGIC -> length (handoff_bytes h) = 88%nat.
Proof.
  intros Hm. unfold handoff_bytes, header_bytes, framebuffer_bytes. rewrite Hm.
  rewrite !length_app, !length_to_le_bytes. done.
Qed.

Lemma stored_prefix m a n data1 data2 :
  n = Z.of_nat (length data1) ->
  stored m a (Z.of_nat (length (data1 ++ data2))) (data1 ++ data2) -> stored m a n data1.
Proof.
  intros -> Hs i Hi. rewrite Hs by (rewrite length_app; lia). apply app_nth1. lia.
Qed.

Section Loader.
Context {U St : Type} `{HU : Uefi U St, !UefiLaws U St}.
Implicit Types (m : Machine U) (image : ValidatedImage) (s : Segment).

Lemma bindL_eq {A B} (x : L (U := U) (St := St) A) (k : A -> L (U := U) (St := St) B) m r m' :
  x m = Some (r, m') ->
  bindL x k m = match r with Ok a => k a m' | Err e => Some (Err e, m') end.
Proof. intros Hx. unfold bindL. rewrite Hx. by destruct r. Qed.

(** The bytes are those the firmware read from the kernel's file. *)
Definition kernel_file (bytes : list Z) : Prop :=
  exists u u' : U, fs_read u = (Ok bytes, u').

Lemma kernel_file_ok bytes : kernel_file bytes -> slice_ok bytes.
Proof. intros (u & u' & E). by eapply read_bytes_ok. Qed.

Lemma read_kernel_spec m :
  exists r m', read_kernel m = Some (r, m') /\ mc_memory m' = mc_memory m /\
    allocated (mc_firmware m') = allocated (mc_firmware m) /\
    forall bytes, r = Ok bytes -> kernel_file bytes.
Proof.
  unfold read_kernel, bindL at 1, tryL at 1.
  destruct (get_image_file_system _) as [[[]|e] u1] eqn:E1; apply file_system_quiet in E1;
    [|by eexists _, _; split].
  unfold scopeL, bindL, tryL. cbn [mc_firmware mc_memory].
  destruct (fs_metadata_size u1) as [r u2] eqn:E2. apply metadata_quiet in E2.
  destruct r as [size|e]; cbn [map_err].
  2:{ eexists _, _. split; [done|]. cbn. rewrite close_file_system_quiet. split_and!; [done|congruence|done]. }
  destruct (_ || _).
  { eexists _, _. split; [done|]. cbn. rewrite close_file_system_quiet. split_and!; [done|congruence|done]. }
  cbn [mc_firmware mc_memory]. destruct (fs_read u2) as [r u3] eqn:E3.
  eexists _, _. split; [done|]. cbn. rewrite close_file_system_quiet, (read_quiet _ _ _ E3).
  split_and!; [done|congruence|]. intros bytes Hb. destruct r; cbn in Hb; [|done].
  injection Hb as ->. by eexists _, _.
Qed.

(** ** The first half *)

(** What a successful first half establishes. *)
Record prepared_ok (image : ValidatedImage) (segs : list Segment) (p : Prepared) m : Prop := {
  po_image : exists bytes, kernel_file bytes /\ image_parse bytes = Some (Ok image) /\
               collect (S (im_program_header_count image)) (segments image) = Some segs;
  po_entry : pr_entry_address p = im_entry image;
  po_framebuffer : framebuffer_captured (pr_framebuffer p);
  po_overrides : (pr_override_count p <= length (pr_overrides p))%nat /\
    exists extra, take (pr_override_count p) (pr_overrides p) ≡ₚ (override_of <$> segs) ++ extra /\
      ((is_zero (pr_framebuffer p) = true /\ extra = []) \/
       (is_zero (pr_framebuffer p) = false /\
        exists o, extra = [o] /\ covers_framebuffer (pr_framebuffer p) o));
  po_pages : let hp := pr_handoff_address p in
             let st := pr_region_storage_address p in
             range_ok hp 1 /\ 0 < hp /\ range_ok st REGION_STORAGE_PAGES /\ 0 < st /\
    exists earlier,
      allocated (mc_firmware m) = (st, REGION_STORAGE_PAGES) :: (hp, 1) :: earlier /\
      (forall x, in_pages x (st, REGION_STORAGE_PAGES) -> ~ Exists (in_pages x) ((hp, 1) :: earlier)) /\
      (forall x, in_pages x (hp, 1) -> ~ Exists (in_pages x) earlier) /\
      Forall (fun s => (sg_physical_start s, KernelImage.page_count s) ∈ earlier /\
        stored (mc_memory m) (sg_physical_start s) (PAGE_SIZE * KernelImage.page_count s)
          (window (im_bytes image) (sg_file_offset s) (sg_file_size s))) segs
}.

(** Every parsed image has its segments collected, placeable, at most sixteen. *)
Lemma parsed_segments bytes image :
  slice_ok bytes -> image_parse bytes = Some (Ok image) ->
  exists segs, collect (S (im_program_header_count image)) (segments image) = Some segs /\
    Forall (placeable image) segs /\ (length segs <= 16)%nat.
Proof.
  intros Hs Hp. destruct (image_parse_admissible _ _ Hs Hp) as (_ & (_ & _ & Hv) & Ht).
  eexists. unfold segments. rewrite collect_spec by (done || lia). rewrite Nat.sub_0_r.
  split_and!; [done|by apply loads_placeable|apply (tv_count _ _ (proj1 Hv))].
Qed.

Lemma allocate_loader_pages_spec n m :
  exists r m', allocate_loader_pages n m = Some (r, m') /\ mc_memory m' = mc_memory m /\
    forall a, r = Ok a -> allocated (mc_firmware m') = (a, n) :: allocated (mc_firmware m) /\
      range_ok a n /\ 0 < a /\
      (forall x, in_pages x (a, n) -> ~ Exists (in_pages x) (allocated (mc_firmware m))).
Proof.
  unfold allocate_loader_pages, tryL. destruct (allocate_pages _ _ _) as [r u] eqn:E.
  eexists _, _. split; [done|]. split; [done|]. intros a ->.
  apply allocate_ok in E as (? & ? & ? & ? & _). done.
Qed.

Ltac stop := eexists _, _; split; [reflexivity|done].

Lemma prepare_kernel_spec m :
  exists r m', prepare_kernel m = Some (r, m') /\
    forall p, r = Ok p -> exists image segs, prepared_ok image segs p m'.
Proof.
  unfold prepare_kernel.
  destruct (read_kernel_spec m) as (r & m1 & E & _ & _ & Hb). rewrite (bindL_eq _ _ _ _ _ E). clear E.
  destruct r as [bytes|e]; [|stop]. specialize (Hb bytes eq_refl). pose proof Hb as Hfile.
  apply kernel_file_ok in Hb.
  destruct (image_parse_spec bytes Hb) as (r & Hp & _).
  unfold bindL at 1, liftL at 1. rewrite Hp. destruct r as [image|e]; cbn [map_err]; [|stop].
  destruct (parsed_segments bytes image Hb Hp) as (segs & Hcol & Hpl & Hle).
  destruct (collect_overrides_loop_spec (St := St) _ _ _ (replicate 17 Override_EMPTY) 0 Hcol Hle eq_refl)
    as (ov1 & Ho1 & Hl1 & Ht1).
  unfold bindL at 1, liftL at 1, collect_kernel_overrides.
  change MAX_REGION_OVERRIDES with 17%nat. rewrite Ho1. cbn [Nat.add] in *.
  destruct (load_segments_loop_spec image _ _ segs m1 [] Hcol Hpl (Forall_nil_2 _))
    as (r & m2 & E & Hload).
  rewrite (bindL_eq _ _ _ _ _ E). clear E. destruct r as [[]|e]; [|stop].
  specialize (Hload eq_refl). cbn [app] in Hload.
  destruct (capture_framebuffer_spec m2) as (r & m3 & E & Hm3 & Ha3 & Hf).
  rewrite (bindL_eq _ _ _ _ _ E). clear E. destruct r as [f|e]; [|stop]. specialize (Hf f eq_refl).
  destruct (add_framebuffer_override_spec (St := St) f ov1 (length segs) Hf Hl1 Hle) as (r & E & Hov).
  unfold bindL at 1, liftL at 1. rewrite E. destruct r as [[c2 ov2]|e]; [|stop].
  destruct (Hov c2 ov2 eq_refl) as (Hl2 & Hc2 & extra & Ht2 & Hx). clear Hov E.
  destruct (sort_overrides_spec ov2 c2) as (ov3 & Hs3 & Hl3 & Hp3); [lia|].
  unfold bindL at 1, liftL at 1. rewrite Hs3. cbn [panicR].
  destruct (allocate_loader_pages_spec 1 m3) as (r & m4 & E & Hm4 & Hhp).
  rewrite (bindL_eq _ _ _ _ _ E). clear E. destruct r as [hp|e]; [|stop].
  destruct (Hhp hp eq_refl) as (Ha4 & Hr4 & Hz4 & Hd4). clear Hhp.
  destruct (allocate_loader_pages_spec REGION_STORAGE_PAGES m4) as (r & m5 & E & Hm5 & Hst).
  rewrite (bindL_eq _ _ _ _ _ E). clear E. destruct r as [st|e]; [|stop].
  destruct (Hst st eq_refl) as (Ha5 & Hr5 & Hz5 & Hd5). clear Hst.
  eexists _, _. split; [reflexivity|]. intros p [= <-]. exists image, segs.
  constructor; cbn [pr_entry_address pr_framebuffer pr_overrides pr_override_count
    pr_handoff_address pr_region_storage_address mc_firmware mc_memory]; [eauto|done|done| |].
  - split; [lia|]. exists extra. split; [|done]. rewrite Hp3, Ht2, Ht1. done.
  - split_and!; [done..|]. exists (allocated (mc_firmware m2)).
    rewrite drop_quiet, Ha5, Ha4, Ha3, Hm5, Hm4, Hm3. rewrite Ha4, Ha3 in Hd5. rewrite Ha3 in Hd4.
    split_and!; done.
Qed.

(** ** The second half *)

(** The state in which the kernel is entered. *)
Record entered (image : ValidatedImage) (segs : list Segment) (hp : Z) (mem : Memory)
    (h : BootHandoffV1) (regions : list MemoryRegionV1) : Prop := {
  en_segments : Forall (fun s => stored mem (sg_physical_start s)
    (PAGE_SIZE * KernelImage.page_count s)
    (window (im_bytes image) (sg_file_offset s) (sg_file_size s))) segs;
  en_handoff : stored mem hp 88 (handoff_bytes h);
  en_regions : stored mem (ho_memory_regions_address h) (24 * Z.of_nat (length regions))
                 (mjoin (region_bytes <$> regions));
  en_header : ho_header h = handoff_header (ho_framebuffer h);
  en_typed : handoff_typed h /\ u64 hp /\ Forall region_typed regions;
  en_valid : handoff_ok h hp (ho_memory_regions_address h) regions;
  en_reserved : Forall (fun s => forall x, sg_physical_start s <= x < page_end s ->
    kind_at (map of_region regions) x = Some MEMORY_RESERVED) segs
}.

Lemma memory_kind_u32 t : u32 (memory_kind t).
Proof. destruct t; vm_compute; split; congruence. Qed.

Lemma sources_typed descriptors :
  Forall descriptor_typed descriptors ->
  Forall source_typed (map source_of (map_sort (U := U) (St := St) descriptors)).
Proof.
  intros Hd. apply Forall_fmap. rewrite sort_permutes. eapply Forall_impl; [exact Hd|].
  intros d [? ?]. split_and!; [done..|apply memory_kind_u32].
Qed.

(** A usable address of the final map is in a conventional descriptor. *)
Lemma overlay_usable descriptors overrides x :
  Forall (fun o => ov_kind o <> MEMORY_USABLE) overrides ->
  overlay (map of_source (map source_of (map_sort (U := U) (St := St) descriptors)))
    (map of_override overrides) x = Some MEMORY_USABLE ->
  Exists (fun d => md_ty d = CONVENTIONAL /\ in_descriptor x d) descriptors /\
  kind_at (map of_override overrides) x = None.
Proof.
  intros Hov. unfold overlay. destruct (kind_at (map of_source _) x) as [k|] eqn:Ek; [|done].
  destruct (kind_at (map of_override overrides) x) as [k'|] eqn:Eo; cbn; intros [= ->].
  - apply kind_at_Some in Eo as (p & Hp & _ & Hk). apply list_elem_of_fmap in Hp as (o & -> & Ho).
    exfalso. by apply (proj1 (Forall_forall _ _) Hov o Ho).
  - split; [|done]. apply kind_at_Some in Ek as (p & Hp & Hx & Hk).
    apply list_elem_of_fmap in Hp as (sr & -> & Hs). apply list_elem_of_fmap in Hs as (d & -> & Hd).
    rewrite sort_permutes in Hd. apply Exists_exists. exists d. split; [done|]. split; [|exact Hx].
    cbn in Hk. by destruct (md_ty d).
Qed.

(** Allocated pages and the framebuffer are clear of usable memory. *)
Lemma allocated_clear u u' descriptors overrides regions a n e :
  exit_boot_services u = (descriptors, u') ->
  Forall (fun o => ov_kind o <> MEMORY_USABLE) overrides -> region_map_ok regions ->
  (forall x, kind_at (map of_region regions) x =
     overlay (map of_source (map source_of (map_sort (U := U) (St := St) descriptors)))
       (map of_override overrides) x) ->
  (a, n) ∈ allocated u -> e <= pages_end a n -> clear_of_usable regions a e.
Proof.
  intros Hx Hov Hmap Hk Hin He x Hr Hu. apply (usable_kind_at _ _ Hmap) in Hu. rewrite Hk in Hu.
  apply overlay_usable in Hu as [Hd _]; [|done]. apply exit_map in Hx as [_ Hx].
  apply Exists_exists in Hd as (d & Hd & Ht & Hxd).
  assert (Ha : Exists (in_pages x) (allocated u)).
  { apply Exists_exists. eexists. split; [exact Hin|]. unfold in_pages, in_range. simpl. lia. }
  exact (proj1 (Forall_forall _ _) (Hx x Ha) d Hd Ht Hxd).
Qed.

(** ** The handoff *)

Lemma handoff_header_v1 f : is_v1 (handoff_header f) = true.
Proof. unfold handoff_header. destruct (is_zero f); vm_compute; reflexivity. Qed.

Lemma handoff_header_magic f : hd_magic (handoff_header f) = HANDOFF_MAGIC.
Proof. unfold handoff_header. by destruct (is_zero f). Qed.

Lemma handoff_present f st n k :
  framebuffer_present (mkHandoff (handoff_header f) st n k f) = negb (is_zero f).
Proof. unfold framebuffer_present, handoff_header. cbn [ho_header]. destruct (is_zero f); reflexivity. Qed.

Lemma captured_typed f : framebuffer_captured f -> framebuffer_typed f.
Proof. intros [->|H]; [|tauto]. vm_compute. intuition congruence. Qed.

Lemma captured_ok f st n k :
  framebuffer_captured f -> framebuffer_ok (mkHandoff (handoff_header f) st n k f).
Proof.
  intros Hf. unfold framebuffer_ok. rewrite handoff_present. cbn [ho_framebuffer].
  destruct Hf as [->|(_ & -> & H)]; [done|]. exact H.
Qed.

(** The overrides of the loader are well typed and never call memory usable. *)
Lemma loader_overrides image segs f overrides extra :
  Forall (placeable image) segs -> overrides ≡ₚ (override_of <$> segs) ++ extra ->
  ((is_zero f = true /\ extra = []) \/
   (is_zero f = false /\ exists o, extra = [o] /\ covers_framebuffer f o)) ->
  Forall override_typed overrides /\ Forall (fun o => ov_kind o <> MEMORY_USABLE) overrides.
Proof.
  intros Hpl Hp Hx. rewrite Hp, !Forall_app, !Forall_fmap.
  assert (Hex : Forall override_typed extra /\ Forall (fun o => ov_kind o <> MEMORY_USABLE) extra).
  { destruct Hx as [[_ ->]|(_ & o & -> & Ht & Hk & _)]; [done|]. rewrite !Forall_singleton, Hk. done. }
  split; (split; [|tauto]); eapply Forall_impl; [exact Hpl| |exact Hpl|]; intros s Hs; [|done].
  destruct Hs as [_ _ Hlow _ [Hp1 _] Hend]. unfold page_end, two64, KernelImage.PAGE_SIZE in *.
  unfold MINIMUM_LOAD_ADDRESS in Hlow. change (override_typed (override_of s)).
  unfold override_typed, u64, u32, override_of.
  cbn [ov_physical_start ov_page_count ov_kind]. unfold MEMORY_RESERVED. lia.
Qed.

(** The two late writes stay inside the loader's last two allocations. *)
Lemma final_memory image segs hp st earlier (mem : Memory) data_h data_r :
  (forall x, in_pages x (st, REGION_STORAGE_PAGES) -> ~ Exists (in_pages x) ((hp, 1) :: earlier)) ->
  (forall x, in_pages x (hp, 1) -> ~ Exists (in_pages x) earlier) ->
  Z.of_nat (length data_h) = 88 -> Z.of_nat (length data_r) = 24576 ->
  Forall (fun s => (sg_physical_start s, KernelImage.page_count s) ∈ earlier /\
    stored mem (sg_physical_start s) (PAGE_SIZE * KernelImage.page_count s)
      (window (im_bytes image) (sg_file_offset s) (sg_file_size s))) segs ->
  let mem' := copy_memory data_h hp (copy_memory data_r st (zero_memory st 24576 mem)) in
  Forall (fun s => stored mem' (sg_physical_start s) (PAGE_SIZE * KernelImage.page_count s)
    (window (im_bytes image) (sg_file_offset s) (sg_file_size s))) segs /\
  stored mem' hp 88 data_h /\ stored mem' st 24576 data_r.
Proof.
  intros Hd1 Hd2 Hlh Hlr Hsegs mem'.
  assert (Hst : forall x, st <= x < st + 24576 -> ~ in_pages x (hp, 1) /\ ~ Exists (in_pages x) earlier).
  { intros x Hx. assert (Hin : in_pages x (st, REGION_STORAGE_PAGES))
      by (unfold in_pages, in_range, pages_end; simpl; change REGION_STORAGE_PAGES with 6;
          unfold PAGE_SIZE; lia).
    specialize (Hd1 x Hin). rewrite Exists_cons in Hd1. tauto. }
  assert (Hhp : forall x, hp <= x < hp + 88 -> in_pages x (hp, 1))
    by (intros x Hx; unfold in_pages, in_range, pages_end, PAGE_SIZE; simpl; lia).
  split_and!.
  - eapply Forall_impl; [exact Hsegs|]. intros s [Hin Hs].
    assert (Hseg : forall x, sg_physical_start s <= x < sg_physical_start s
              + PAGE_SIZE * KernelImage.page_count s -> Exists (in_pages x) earlier).
    { intros x Hx. apply Exists_exists. eexists. split; [exact Hin|].
      unfold in_pages, in_range, pages_end. simpl. lia. }
    subst mem'. repeat apply copy_memory_other; [apply zero_memory_other; [done|]|..];
      intros x Hx Hx'; specialize (Hseg x Hx).
    + by apply (Hst x).
    + apply (Hst x); [lia|done].
    + apply (Hd2 x); [apply Hhp; lia|done].
  - subst mem'. rewrite <-Hlh. apply copy_memory_stored.
  - subst mem'. apply copy_memory_other.
    + rewrite <-Hlr. apply copy_memory_stored.
    + intros x Hx Hx'. apply (proj1 (Hst x Hx)). apply Hhp. lia.
Qed.

Lemma page_mod_8 a : a mod 4096 = 0 -> a mod 8 = 0.
Proof.
  intros [k ->]%Z.mod_divide; [|done]. replace (k * 4096) with (k * 512 * 8) by lia.
  by apply Z.mod_mul.
Qed.

(** What the loader announces is what the kernel accepts. *)
Lemma handoff_accepted u u' descriptors f overrides hp st earlier regions :
  exit_boot_services u = (descriptors, u') -> framebuffer_captured f ->
  Forall (fun o => ov_kind o <> MEMORY_USABLE) overrides -> pieces_ok (map of_override overrides) ->
  (is_zero f = false -> exists o, o ∈ overrides /\ covers_framebuffer f o) ->
  range_ok hp 1 -> 0 < hp -> range_ok st REGION_STORAGE_PAGES -> 0 < st ->
  allocated u = (st, REGION_STORAGE_PAGES) :: (hp, 1) :: earlier ->
  (0 < length regions <= 1024)%nat -> region_map_ok regions ->
  (forall x, kind_at (map of_region regions) x =
     overlay (map of_source (map source_of (map_sort (U := U) (St := St) descriptors)))
       (map of_override overrides) x) ->
  handoff_ok (mkHandoff (handoff_header f) st (Z.of_nat (length regions)) 24 f) hp st regions.
Proof.
  intros Hexit Hf HOVk HOP Hfb (_ & Hha & _ & Hhe) Hh0 (_ & Hsa & _ & Hse) Hs0 Hall Hn Hmap Hk.
  change REGION_STORAGE_PAGES with 6 in *. unfold pages_end, PAGE_SIZE, two64 in *.
  unfold handoff_ok, two64. rewrite handoff_present. cbn [ho_header ho_memory_region_count
    ho_memory_regions_address ho_memory_region_entry_size ho_framebuffer].
  assert (Hclear : forall a n e, (a, n) ∈ allocated u -> e <= pages_end a n ->
                   clear_of_usable regions a e)
    by (intros; by eapply (allocated_clear u)).
  rewrite Hall in Hclear. split_and!; try done; try lia.
  - apply handoff_header_v1.
  - by apply page_mod_8.
  - by apply page_mod_8.
  - by apply captured_ok.
  - eapply (Hclear _ 1); [by right; left|]. unfold pages_end, PAGE_SIZE. lia.
  - eapply (Hclear _ 6); [by left|]. unfold pages_end, PAGE_SIZE. lia.
  - intros Hz x Hx Hu. apply (usable_kind_at _ _ Hmap) in Hu. rewrite Hk in Hu.
    apply overlay_usable in Hu as [_ Hnone]; [|done].
    destruct Hfb as (o & Ho & _ & _ & _ & Hcov); [by destruct (is_zero f)|].
    rewrite (kind_at_elem 0 _ (of_override o) x) in Hnone; [done|done| |by apply Hcov].
    by apply list_elem_of_fmap_2.
Qed.

(** The kernel's own pages are reserved in the final map. *)
Lemma segments_reserved segs extra SRC OV regions :
  OV ≡ₚ (override_of <$> segs) ++ extra -> pieces_ok (map of_override OV) ->
  required_covered (map of_source SRC) OV ->
  (forall x, kind_at (map of_region regions) x = overlay (map of_source SRC) (map of_override OV) x) ->
  Forall (fun s => forall x, sg_physical_start s <= x < page_end s ->
    kind_at (map of_region regions) x = Some MEMORY_RESERVED) segs.
Proof.
  intros Hperm HOP Hreq Hk. apply Forall_forall. intros s Hs x Hxs.
  assert (Hin : override_of s ∈ OV)
    by (rewrite Hperm; apply elem_of_app; left; by apply list_elem_of_fmap_2).
  assert (Hcov : covered_by (map of_region regions) (override_of s)).
  { apply (overlay_covered _ (map of_source SRC) OV); [done|done|done|].
    by apply (proj1 (Forall_forall _ _) Hreq (override_of s) Hin). }
  apply (Hcov x). unfold page_end in Hxs. cbn. unfold pages_end.
  change PAGE_SIZE with KernelImage.PAGE_SIZE. lia.
Qed.

Lemma enter_kernel_spec image segs p m :
  prepared_ok image segs p m ->
  exists out m', enter_kernel p m = Some (out, m') /\
    (out = Halted \/
     (out = Entered (im_entry image) (pr_handoff_address p) /\
      exists h regions, entered image segs (pr_handoff_address p) (mc_memory m') h regions)).
Proof.
  intros [(bytes & Hb%kernel_file_ok & Hparse & Hcol) He Hf (Hcnt & extra & Hperm & Hx)
          (Hrh & Hh0 & Hrs & Hs0 & earlier & Hall & Hd1 & Hd2 & Hsegs)].
  destruct (parsed_segments bytes image Hb Hparse) as (segs' & Hcol' & Hpl & _).
  rewrite Hcol in Hcol'. injection Hcol' as <-.
  set (hp := pr_handoff_address p) in *. set (st := pr_region_storage_address p) in *.
  set (f := pr_framebuffer p) in *.
  unfold enter_kernel. destruct (exit_boot_services _) as [descriptors u'] eqn:Hexit.
  rewrite checked_mul_lt by (vm_compute; reflexivity). cbn [mbind option_bind].
  rewrite slice_to_le by done. cbn [mbind option_bind].
  set (OV := take _ _) in *. set (SRC := map source_of _).
  destruct (loader_overrides image segs f OV extra Hpl Hperm Hx) as [HOVt HOVk].
  assert (HSRC : Forall source_typed SRC) by (apply sources_typed; by eapply exit_map).
  fold st f. change (REGION_STORAGE_PAGES * UEFI_PAGE_SIZE) with 24576.
  destruct (normalize_spec SRC OV (replicate MAX_MEMORY_REGIONS (mkRegion 0 0 0 0)) HSRC HOVt)
    as [(n & out & -> & Hlen & (_ & _ & HSP & HOP) & Hreq & Hnorm)|(e & out & -> & Hlen & _)];
    cbn [mbind option_bind]; [|eexists _, _; split; [done|by left]].
  pose proof (normalized_typed _ _ _ _ HSRC HOVt Hnorm) as Hty.
  destruct Hnorm as (Hn & Hmap & _ & Hk). rewrite length_replicate in Hlen.
  unfold MAX_MEMORY_REGIONS in Hlen. rewrite (Z.mod_small (Z.of_nat n)) by lia.
  change (layout_size region_layout) with 24.
  set (h := mkHandoff _ _ _ _ _). rewrite He.
  eexists _, _. split; [done|]. right. split; [done|]. exists h, (take n out).
  cbn [mc_memory].
  destruct (final_memory image segs hp st earlier (mc_memory m) (handoff_bytes h)
    (mjoin (region_bytes <$> out))) as (Hm1 & Hm2 & Hm3); [done|done| | |done|].
  { rewrite length_handoff_bytes; [done|apply handoff_header_magic]. }
  { rewrite length_regions_bytes, Hlen. done. }
  assert (Htn : length (take n out) = n) by (rewrite length_take; lia).
  constructor; [done|done| |done| | |]; cbn [ho_memory_regions_address h].
  - rewrite Htn. apply (stored_prefix _ _ _ _ (mjoin (region_bytes <$> drop n out))).
    { rewrite length_regions_bytes, Htn. lia. }
    rewrite regions_bytes_split, length_regions_bytes, Hlen. exact Hm3.
  - unfold handoff_typed, u64, u32. cbn [h ho_memory_regions_address ho_memory_region_count
      ho_memory_region_entry_size ho_framebuffer].
    destruct Hrh as (_ & _ & _ & Hrh), Hrs as (_ & _ & _ & Hrs). change REGION_STORAGE_PAGES with 6 in Hrs.
    unfold pages_end, PAGE_SIZE, two64 in *. pose proof (captured_typed f Hf).
    split_and!; (done || lia).
  - unfold h. replace (Z.of_nat n) with (Z.of_nat (length (take n out))) by (by rewrite Htn).
    eapply (handoff_accepted (mc_firmware m) u' descriptors f OV hp st earlier); try done; [|lia].
    intros Hz. destruct Hx as [[Hz' _]|(_ & o & -> & Ho)]; [congruence|]. exists o. split; [|done].
    rewrite Hperm. apply elem_of_app. right. by left.
  - by eapply segments_reserved.
Qed.

(** ** The whole loader *)

(** How the loader can end: never with success, and in the kernel only with the
    image and an acceptable handoff in memory. *)
Definition loader_end (out : Outcome (St := St)) m : Prop :=
  match out with
  | Returned r => exists status, r = Err status
  | Halted => True
  | Entered entry hp =>
      exists bytes image segs h regions,
        kernel_file bytes /\ image_parse bytes = Some (Ok image) /\
        collect (S (im_program_header_count image)) (segments image) = Some segs /\
        entry = im_entry image /\ entered image segs hp (mc_memory m) h regions
  end.

Lemma main_spec m : exists out m', main m = Some (out, m') /\ loader_end out m'.
Proof.
  unfold main. destruct (uefi_init _) as [[[]|e] u]; [|by eexists _, _; split; [done|eexists]].
  unfold load_and_enter_kernel.
  destruct (prepare_kernel_spec (mkMachine u (mc_memory m))) as (r & m1 & -> & Hp).
  destruct r as [p|status]; [|by eexists _, _; split; [done|eexists]].
  destruct (Hp p eq_refl) as (image & segs & Hok).
  destruct (enter_kernel_spec image segs p m1 Hok) as (out & m2 & -> & Hout).
  eexists _, _. split; [done|]. destruct Hout as [->|(-> & h & regions & Hen)]; [done|].
  destruct (po_image _ _ _ _ Hok) as (bytes & ? & ? & ?).
  exists bytes, image, segs, h, regions. done.
Qed.
End Loader.
