(* ===== verification/KernelBoot.v ===== *)
(** * The kernel entry

    Models [kernel_entry] of [kernel/src/main.rs] up to the recovery context:
    reading the handoff and the region array from physical memory, validating
    them, initialising the frame allocator and the recycle probe.  The serial
    line is the list of messages written to it; [exit_qemu] ends the run. *)

From S2P Require Import Prelude.
From S2P Require Import BootContract.
From S2P Require Import BootValidate.
From S2P Require Import Panic.
From S2P Require Import FrameAllocator.
From S2P Require Import Bytes.
From S2P Require Import Loader.

(** ** Reading memory *)

(** The [n] bytes at [a]. *)
Definition read_memory (m : Memory) (a : Z) (n : nat) : list Z :=
  (fun i => m (a + Z.of_nat i)) <$> seq 0 n.

(** The [repr(C)] fields of a region at [a]. *)
Definition read_region (m : Memory) (a : Z) : MemoryRegionV1 :=
  let b := read_memory m a 24 in
  mkRegion (le_at b 0 8) (le_at b 8 8) (le_at b 16 4) (le_at b 20 4).

(** [slice::from_raw_parts(address, count)] *)
Definition read_regions (m : Memory) (address : Z) (count : nat) : list MemoryRegionV1 :=
  (fun i => read_region m (address + 24 * Z.of_nat i)) <$> seq 0 count.

(** [handoff.read()] *)
Definition read_handoff (m : Memory) (a : Z) : BootHandoffV1 :=
  let b := read_memory m a 88 in
  mkHandoff
    (mkHeader (window b 0 8) (le_at b 8 2) (le_at b 10 2) (le_at b 12 4) (le_at b 16 4)
       (le_at b 20 4) (le_at b 24 8))
    (le_at b 32 8) (le_at b 40 4) (le_at b 44 4)
    (mkFramebuffer (le_at b 48 8) (le_at b 56 8) (le_at b 64 4) (le_at b 68 4) (le_at b 72 4)
       (le_at b 76 4) (le_at b 80 8)).

(** ** The serial line *)

Inductive Message :=
| BootErrorNullHandoff        (* boot error: null handoff *)
| BootErrorInvalidHandoff     (* boot error: invalid handoff *)
| BootErrorFrameAllocatorInit (* boot error: frame allocator init *)
| BootErrorFrameAllocation    (* boot error: frame allocation *)
| BootErrorFrameRecycle       (* boot error: frame recycle *)
| BootErrorFrameReuseMismatch (* boot error: frame reuse mismatch *)
| BootErrorFrameProbeRestore  (* boot error: frame probe restore *)
| BannerVersion               (* MakopaOS 0.1.0 *)
| HandoffOkFramebuffer        (* handoff v1 ok framebuffer *)
| HandoffOkNoFramebuffer      (* handoff v1 ok no-framebuffer *)
| FramesOkReuse.              (* frames v1 ok reuse *)

(** [exit_qemu(QEMU_FAILURE)], or on to the recovery context. *)
Inductive EntryEnd := ExitFailure | ToRecoveryContext.

Definition EntryResult : Type := EntryEnd * list Message * FrameAllocator.

Definition fail_with (message : Message) (fa : FrameAllocator) : option EntryResult :=
  Some (ExitFailure, [message], fa).

(** ** The recycle probe *)

(** [allocator.free_frame(a).is_err() || allocator.free_frame(b).is_err()]: the
    second call only when the first succeeds. *)
Definition free_both (a b : Z) (fa : FrameAllocator) : option (bool * FrameAllocator) :=
  '(r, fa) ← free_frame a fa;
  if is_err r then Some (true, fa) else
  '(r, fa) ← free_frame b fa;
  Some (is_err r, fa).

Definition recycle_probe (has_framebuffer : bool) (fa : FrameAllocator) : option EntryResult :=
  '(r, fa) ← allocate_frame fa;
  match r with
  | Err _ => fail_with BootErrorFrameAllocation fa
  | Ok frame_a =>
  '(r, fa) ← allocate_frame fa;
  match r with
  | Err _ => fail_with BootErrorFrameAllocation fa
  | Ok frame_b =>
  if frame_b =? frame_a then fail_with BootErrorFrameRecycle fa else
  '(r, fa) ← free_frame frame_a fa;
  if is_err r then fail_with BootErrorFrameRecycle fa else
  '(r, fa) ← allocate_frame fa;
  match r with
  | Err _ => fail_with BootErrorFrameRecycle fa
  | Ok reused =>
  if negb (reused =? frame_a) then fail_with BootErrorFrameReuseMismatch fa else
  '(failed, fa) ← free_both frame_b reused fa;
  if (failed : bool) then fail_with BootErrorFrameProbeRestore fa else
  Some (ToRecoveryContext,
        [BannerVersion;
         if has_framebuffer then HandoffOkFramebuffer else HandoffOkNoFramebuffer;
         FramesOkReuse], fa)
  end
  end
  end.

(** ** The entry *)

Definition kernel_entry (m : Memory) (handoff : Z) (frame_allocator : FrameAllocator)
    : option EntryResult :=
  if (handoff =? 0) || negb (is_multiple_of handoff (layout_align handoff_layout))
  then fail_with BootErrorNullHandoff frame_allocator else
  let handoff_address := handoff in
  let handoff := read_handoff m handoff_address in
  match validate_handoff_header handoff with
  | Err _ => fail_with BootErrorInvalidHandoff frame_allocator
  | Ok region_count =>
      let region_address := ho_memory_regions_address handoff in
      let regions := read_regions m region_address (Z.to_nat region_count) in
      if is_err (validate_handoff handoff handoff_address region_address regions)
      then fail_with BootErrorInvalidHandoff frame_allocator else
      let has_framebuffer :=
        negb (Z.land (hd_flags (ho_header handoff)) FRAMEBUFFER_PRESENT =? 0) in
      '(r, frame_allocator) ← initialize regions frame_allocator;
      if is_err r then fail_with BootErrorFrameAllocatorInit frame_allocator else
      recycle_probe has_framebuffer frame_allocator
  end.
