(* ===== verification/KernelBootProofs.v ===== *)
(** * The kernel entry: lemmas

    Reading back the structures the loader wrote, and the recycle probe. *)

From S2P Require Import Prelude.
From S2P Require Import BootContract.
From S2P Require Import Panic.
From S2P Require Import BootValidate.
From S2P Require Import BootTheorems.
From S2P Require Import FrameAllocator.
From S2P Require Import Extents.
From S2P Require Import FrameInit.
From S2P Require Import FrameOps.
From S2P Require Import FrameTheorems.
From S2P Require Import Bytes.
From S2P Require Import Loader.
From S2P Require Import LoaderProofs.
From S2P Require Import LoaderTheorems.
From S2P Require Import KernelBoot.

(** ** The probe *)

Lemma frame_end_lt L a :
  chain (-1) L -> a mod PAGE_SIZE = 0 -> covers L a -> a + PAGE_SIZE < two64.
Proof.
  intros HL Ha Hc. destruct (covers_frame (-1) L a (a + PAGE_SIZE - 1) HL Ha Hc) as (e & He & Hr);
    [unfold PAGE_SIZE; lia|]. destruct (chain_elem _ _ _ HL He) as [(_ & _ & _ & ?) _].
  unfold eend in *. lia.
Qed.

(** Returning a managed frame that is not free succeeds while there is room. *)
Lemma free_owned fa a :
  fa_inv fa -> 0 <= a -> a mod PAGE_SIZE = 0 -> covers (live_managed fa) a ->
  ~ covers (live_free fa) a -> (fa_free_len fa < MAX_FRAME_EXTENTS)%nat ->
  exists fa', free_frame a fa = Some (Ok tt, fa') /\ fa_inv fa' /\
    live_managed fa' = live_managed fa /\
    forall x, covers (live_free fa') x <-> covers (live_free fa) x \/ a <= x < a + PAGE_SIZE.
Proof.
  intros Hinv H0 Ha Hm Hf Hroom. pose proof Hinv as (_ & Hcm & _).
  pose proof (frame_end_lt _ a Hcm Ha Hm) as Hend.
  destruct (free_frame_spec fa a Hinv) as (v & fa' & Hx & Hv & Hinv' & HM & _ & Hcov).
  { unfold u64, two64, PAGE_SIZE in *. lia. }
  assert (v = Ok tt) as ->; [|exists fa'; split_and!; (done || by apply Hcov)].
  destruct v as [[]|[]]; simpl in Hv; [done|..]; try tauto; lia.
Qed.

(** Allocation never needs more room. *)
Lemma allocate_room fa f fa' :
  fa_inv fa -> allocate_frame fa = Some (Ok f, fa') -> (fa_free_len fa' <= fa_free_len fa)%nat.
Proof.
  intros Hinv Hall. pose proof Hinv as (Ha & _). pose proof (live_free_length fa Ha) as Hlen.
  destruct (live_free fa) as [|e B] eqn:HL.
  { destruct (allocate_frame_spec fa Hinv) as [[_ ?]|(f' & fa1 & _ & _ & _ & _ & Hc & _)];
      [congruence|]. rewrite HL in Hc. by apply covers_nil in Hc. }
  destruct (allocate_pop fa e B Hinv HL) as (fa1 & Hx & _ & _ & Ha1 & HL1).
  assert (fa1 = fa') as -> by congruence. apply live_free_length in Ha1. rewrite HL1 in Ha1.
  unfold pop_frame in Ha1. destruct (_ =? _); simpl in *; lia.
Qed.

(** Equal coverage means equal extents, so equal room. *)
Lemma same_free fa fa' :
  fa_inv fa -> fa_inv fa' ->
  (forall x, covers (live_free fa') x <-> covers (live_free fa) x) ->
  live_free fa' = live_free fa /\ fa_free_len fa' = fa_free_len fa.
Proof.
  intros (Ha & _ & Hf & _) (Ha' & _ & Hf' & _) Hc.
  assert (HL : live_free fa' = live_free fa) by (by apply (chain_unique (-1) (-1))).
  split; [done|]. apply live_free_length in Ha, Ha'. congruence.
Qed.

(** Two different frames are free. *)
Definition two_free (fa : FrameAllocator) : Prop :=
  exists f g, f <> g /\ f mod PAGE_SIZE = 0 /\ g mod PAGE_SIZE = 0 /\
              covers (live_free fa) f /\ covers (live_free fa) g.

Definition ready_messages (has_framebuffer : bool) : list Message :=
  [BannerVersion; if has_framebuffer then HandoffOkFramebuffer else HandoffOkNoFramebuffer;
   FramesOkReuse].

Lemma covers_nonneg L a : chain (-1) L -> covers L a -> 0 <= a.
Proof. intros HL (e & He & Hr). destruct (chain_elem _ _ _ HL He). lia. Qed.

Lemma frames_apart a b x :
  a mod PAGE_SIZE = 0 -> b mod PAGE_SIZE = 0 -> a <> b ->
  a <= x < a + PAGE_SIZE -> b <= x < b + PAGE_SIZE -> False.
Proof.
  intros Ha Hb Hne Hx Hy. unfold PAGE_SIZE in *.
  apply Z.mod_divide in Ha as [k ->]; [|done]. apply Z.mod_divide in Hb as [j ->]; [|done]. lia.
Qed.

(** After two allocations [a] and [b], the rest of the probe succeeds and
    restores the free extents. *)
Lemma probe_rest fa fa1 fa2 a b :
  fa_inv fa -> fa_inv fa1 -> fa_inv fa2 -> live_managed fa2 = live_managed fa -> a <> b ->
  a mod PAGE_SIZE = 0 -> b mod PAGE_SIZE = 0 ->
  covers (live_free fa) a -> covers (live_free fa) b -> (forall x, covers (live_free fa) x -> a <= x) ->
  (fa_free_len fa1 < MAX_FRAME_EXTENTS)%nat -> (fa_free_len fa2 < MAX_FRAME_EXTENTS)%nat ->
  (forall x, covers (live_free fa1) x <-> covers (live_free fa) x /\ ~ a <= x < a + PAGE_SIZE) ->
  (forall x, covers (live_free fa2) x <-> covers (live_free fa1) x /\ ~ b <= x < b + PAGE_SIZE) ->
  exists fa3 fa4 fa5 fa6,
    free_frame a fa2 = Some (Ok tt, fa3) /\ allocate_frame fa3 = Some (Ok a, fa4) /\
    free_frame b fa4 = Some (Ok tt, fa5) /\ free_frame a fa5 = Some (Ok tt, fa6) /\
    fa_inv fa6 /\ live_free fa6 = live_free fa /\ live_managed fa6 = live_managed fa.
Proof.
  intros Hinv Hinv1 Hinv2 HM2 Hab Ha Hb Hca Hcb Hmin Hroom1 Hroom2 Hc1 Hc2.
  pose proof Hinv as (_ & _ & Hch & Hsub).
  pose proof (fun x => covers_frame (-1) _ a x Hch Ha Hca) as Hfa.
  pose proof (fun x => covers_frame (-1) _ b x Hch Hb Hcb) as Hfb.
  pose proof (covers_nonneg _ _ Hch Hca) as Ha0. pose proof (covers_nonneg _ _ Hch Hcb) as Hb0.
  pose proof (fun x => frames_apart a b x Ha Hb Hab) as Hdis.
  assert (Haa : a <= a < a + PAGE_SIZE) by (unfold PAGE_SIZE; lia).
  assert (Hbb : b <= b < b + PAGE_SIZE) by (unfold PAGE_SIZE; lia).
  destruct (free_owned fa2 a) as (fa3 & Hf3 & Hinv3 & HM3 & Hc3);
    [done|done|done|rewrite HM2; auto|rewrite Hc2, Hc1; tauto|done|].
  assert (H3a : covers (live_free fa3) a) by (apply Hc3; by right).
  destruct (allocate_frame_spec fa3 Hinv3)
    as [[HL3 _]|(r & fa4 & Hal4 & Hinv4 & HM4 & Hr & Hcr & Hminr & Hc4)];
    [rewrite HL3 in H3a; by apply covers_nil in H3a|].
  assert (r = a) as ->.
  { specialize (Hminr a H3a). apply Hc3 in Hcr. rewrite Hc2, Hc1 in Hcr.
    destruct Hcr as [[[Hcr _] _]|?]; [|lia]. specialize (Hmin r Hcr). lia. }
  destruct (same_free fa2 fa4) as [HL4 Hn4]; [done|done| |].
  { intros x. rewrite Hc4, Hc3, Hc2, Hc1. destruct (decide (a <= x < a + PAGE_SIZE)); tauto. }
  destruct (free_owned fa4 b) as (fa5 & Hf5 & Hinv5 & HM5 & Hc5);
    [done|done|done|rewrite HM4, HM3, HM2; auto|rewrite HL4, Hc2; tauto|congruence|].
  destruct (same_free fa1 fa5) as [HL5 Hn5]; [done|done| |].
  { intros x. rewrite Hc5, HL4, Hc2, Hc1. specialize (Hfb x). specialize (Hdis x).
    destruct (decide (b <= x < b + PAGE_SIZE)); tauto. }
  destruct (free_owned fa5 a) as (fa6 & Hf6 & Hinv6 & HM6 & Hc6);
    [done|done|done|rewrite HM5, HM4, HM3, HM2; auto|rewrite HL5, Hc1; tauto|congruence|].
  destruct (same_free fa fa6) as [HL6 _]; [done|done| |].
  { intros x. rewrite Hc6, HL5, Hc1. specialize (Hfa x).
    destruct (decide (a <= x < a + PAGE_SIZE)); tauto. }
  exists fa3, fa4, fa5, fa6. split_and!; try done. congruence.
Qed.

Lemma frame_u64 L a : chain (-1) L -> a mod PAGE_SIZE = 0 -> covers L a -> u64 a.
Proof.
  intros HL Ha Hc. pose proof (frame_end_lt L a HL Ha Hc). pose proof (covers_nonneg L a HL Hc).
  unfold u64, two64, PAGE_SIZE in *. lia.
Qed.

(** The probe is a run of the allocator that owns nothing at its end. *)
Lemma probe_run regions fa fa1 fa2 fa3 fa4 fa5 fa6 a b :
  run regions (fa, []) -> a <> b -> u64 a -> u64 b ->
  allocate_frame fa = Some (Ok a, fa1) -> allocate_frame fa1 = Some (Ok b, fa2) ->
  free_frame a fa2 = Some (Ok tt, fa3) -> allocate_frame fa3 = Some (Ok a, fa4) ->
  free_frame b fa4 = Some (Ok tt, fa5) -> free_frame a fa5 = Some (Ok tt, fa6) ->
  run regions (fa6, []).
Proof.
  intros Hrun Hne Ha Hb H1 H2 H3 H4 H5 H6.
  apply (run_allocate _ []), (run_next _ _ _ Hrun) in H1.
  apply (run_allocate _ [a]), (run_next _ _ _ H1) in H2.
  apply (run_free _ [b; a]), (run_next _ _ _ H2) in H3; [|done].
  rewrite !filter_cons, filter_nil, decide_True, decide_False in H3 by naive_solver.
  apply (run_allocate _ [b]), (run_next _ _ _ H3) in H4.
  apply (run_free _ [a; b]), (run_next _ _ _ H4) in H5; [|done].
  rewrite !filter_cons, filter_nil, decide_True, decide_False in H5 by naive_solver.
  apply (run_free _ [a]), (run_next _ _ _ H5) in H6; [|done].
  by rewrite filter_cons, filter_nil, decide_False in H6 by naive_solver.
Qed.

(** The probe passes exactly when two frames are free, and restores them. *)
Lemma recycle_probe_spec fb fa :
  fa_inv fa -> (fa_free_len fa < MAX_FRAME_EXTENTS)%nat ->
  (two_free fa /\ exists fa', recycle_probe fb fa = Some (ToRecoveryContext, ready_messages fb, fa') /\
     fa_inv fa' /\ live_free fa' = live_free fa /\ live_managed fa' = live_managed fa /\
     forall regions, run regions (fa, []) -> run regions (fa', [])) \/
  (~ two_free fa /\ exists fa', recycle_probe fb fa = Some (ExitFailure, [BootErrorFrameAllocation], fa')).
Proof.
  intros Hinv Hroom. unfold recycle_probe.
  destruct (allocate_frame_spec fa Hinv)
    as [[HL ->]|(a & fa1 & Hal1 & Hinv1 & HM1 & Ha & Hca & Hmin & Hc1)].
  { right. split; [|by eexists]. intros (f & g & _ & _ & _ & Hf & _). rewrite HL in Hf.
    by apply covers_nil in Hf. }
  pose proof (allocate_room _ _ _ Hinv Hal1) as Hr1. rewrite Hal1. cbn [mbind option_bind].
  destruct (allocate_frame_spec fa1 Hinv1)
    as [[HL ->]|(b & fa2 & Hal2 & Hinv2 & HM2 & Hb & Hcb & _ & Hc2)].
  { right. split; [|by eexists]. intros (f & g & Hne & Hf & Hg & Hcf & Hcg).
    assert (Hin : forall h, h mod PAGE_SIZE = 0 -> covers (live_free fa) h -> h = a).
    { intros h Hh Hch. destruct (decide (a <= h < a + PAGE_SIZE)) as [Hx|Hx].
      - destruct (decide (h = a)); [done|]. exfalso. apply (frames_apart h a h); (done || lia || unfold PAGE_SIZE; lia).
      - assert (covers (live_free fa1) h) as Hx' by (by apply Hc1). rewrite HL in Hx'.
        by apply covers_nil in Hx'. }
    apply Hne. rewrite (Hin f), (Hin g); done. }
  pose proof (allocate_room _ _ _ Hinv1 Hal2) as Hr2. rewrite Hal2. cbn [mbind option_bind].
  apply Hc1 in Hcb as [Hcb Hba].
  assert (Hne : a <> b) by (intros <-; unfold PAGE_SIZE in Hba; lia).
  destruct (probe_rest fa fa1 fa2 a b) as (fa3 & fa4 & fa5 & fa6 & H3 & H4 & H5 & H6 & ? & ? & ?);
    try done; [congruence|lia|lia|].
  left. split; [exists a, b; done|]. exists fa6.
  rewrite (proj2 (Z.eqb_neq b a)) by done. rewrite H3. cbn [mbind option_bind is_err is_ok negb].
  rewrite H4. cbn [mbind option_bind]. rewrite Z.eqb_refl. cbn [negb]. unfold free_both.
  rewrite H5. cbn [mbind option_bind is_err is_ok negb]. rewrite H6. split_and!; [done..|].
  intros regions Hrun. pose proof Hinv as (_ & _ & Hch & _).
  apply (probe_run regions fa fa1 fa2 fa3 fa4 fa5 fa6 a b); try done; by apply (frame_u64 _ _ Hch).
Qed.

(** ** Reading back what was written *)

Lemma read_memory_stored m a n data :
  stored m a n data -> Z.of_nat (length data) = n -> read_memory m a (length data) = data.
Proof.
  intros Hs Hn. apply list_eq. intros i. unfold read_memory. rewrite list_lookup_fmap.
  destruct (decide (i < length data)%nat) as [Hi|Hi].
  - rewrite lookup_seq_lt by done. cbn [fmap option_fmap option_map Nat.add]. rewrite Hs by lia.
    rewrite Nat2Z.id, nth_lookup. destruct (lookup_lt_is_Some_2 data i Hi) as [b Hb]. by rewrite Hb.
  - rewrite lookup_seq_ge, lookup_ge_None_2 by lia. done.
Qed.

Lemma stored_app m a data1 data2 n :
  stored m a (Z.of_nat (length data1) + n) (data1 ++ data2) -> 0 <= n ->
  stored m a (Z.of_nat (length data1)) data1 /\ stored m (a + Z.of_nat (length data1)) n data2.
Proof.
  intros Hs Hn. split; intros i Hi.
  - rewrite Hs by lia. apply app_nth1. lia.
  - replace (a + Z.of_nat (length data1) + i) with (a + (Z.of_nat (length data1) + i)) by lia.
    rewrite Hs by lia. rewrite app_nth2 by lia. f_equal. lia.
Qed.

(** Read one field of a structure: skip the fields before it. *)
Ltac skip_field :=
  rewrite le_at_skip by (rewrite ?length_to_le_bytes; simpl; lia);
  rewrite ?length_to_le_bytes;
  match goal with |- le_at _ ?o _ = _ => let v := eval vm_compute in o in change o with v end.

Ltac read_field :=
  repeat skip_field;
  first [apply (le_at_here 8)|apply (le_at_here 4)|apply (le_at_here 2)]; simpl; lia.

Lemma read_region_stored m a r :
  region_typed r -> stored m a 24 (region_bytes r) -> read_region m a = r.
Proof.
  intros (H1 & H2 & H3 & H4) Hs. unfold read_region.
  rewrite <-(length_region_bytes r), (read_memory_stored m a 24) by (done || by rewrite length_region_bytes).
  destruct r as [s p k at_]. unfold u64, u32 in *. cbn in H1, H2, H3, H4.
  rewrite <-(app_nil_r (region_bytes _)). unfold region_bytes.
  cbn [mr_physical_start mr_page_count mr_kind mr_attributes]. rewrite <-!app_assoc.
  f_equal; read_field.
Qed.

Lemma read_regions_stored regions : forall m a,
  Forall region_typed regions ->
  stored m a (24 * Z.of_nat (length regions)) (mjoin (region_bytes <$> regions)) ->
  read_regions m a (length regions) = regions.
Proof.
  induction regions as [|r regions IH]; intros m a Ht Hs; [done|].
  apply Forall_cons in Ht as [Hr Ht].
  change (mjoin (region_bytes <$> r :: regions))
    with (region_bytes r ++ mjoin (region_bytes <$> regions)) in Hs.
  replace (24 * Z.of_nat (length (r :: regions)))
    with (Z.of_nat (length (region_bytes r)) + 24 * Z.of_nat (length regions)) in Hs
    by (rewrite length_region_bytes; cbn [length]; lia).
  apply stored_app in Hs as [H1 H2]; [|lia]. rewrite length_region_bytes in H1, H2.
  unfold read_regions. cbn [length seq fmap list_fmap]. f_equal.
  - rewrite Z.mul_0_r, Z.add_0_r. by apply read_region_stored.
  - rewrite <-fmap_S_seq, <-list_fmap_compose. etrans; [|exact (IH m (a + 24) Ht H2)].
    unfold read_regions. apply list_fmap_ext. intros i k _. unfold compose. f_equal. lia.
Qed.

(** The machine types of the header. *)
Definition header_typed (hd : BootHandoffHeaderV1) : Prop :=
  hd_magic hd = HANDOFF_MAGIC /\ 0 <= hd_abi_major hd < 65536 /\ 0 <= hd_abi_minor hd < 65536 /\
  u32 (hd_header_size hd) /\ u32 (hd_handoff_size hd) /\ u32 (hd_flags hd) /\ u64 (hd_reserved hd).

Lemma handoff_header_typed f : header_typed (handoff_header f).
Proof. unfold handoff_header. destruct (is_zero f); vm_compute; intuition congruence. Qed.

Lemma read_handoff_stored m a h :
  header_typed (ho_header h) -> handoff_typed h ->
  stored m a 88 (handoff_bytes h) -> read_handoff m a = h.
Proof.
  intros (Hm & Hma & Hmi & Hhs & Hho & Hfl & Hrs) (H1 & H2 & H3 & (F1 & F2 & F3 & F4 & F5 & F6 & F7)) Hs.
  unfold read_handoff.
  assert (Hlen : length (handoff_bytes h) = 88%nat) by (by apply length_handoff_bytes).
  rewrite <-Hlen, (read_memory_stored m a 88) by (done || by rewrite Hlen).
  rewrite <-(app_nil_r (handoff_bytes h)). unfold handoff_bytes, header_bytes, framebuffer_bytes.
  rewrite Hm, <-!app_assoc. destruct h as [[magic ma mi hs hos fl rs] ra rc re [fs fl' fw fh fst fp fr]].
  cbn [ho_header hd_magic hd_abi_major hd_abi_minor hd_header_size hd_handoff_size hd_flags hd_reserved
    ho_memory_regions_address ho_memory_region_count ho_memory_region_entry_size ho_framebuffer
    fb_physical_start fb_byte_length fb_width fb_height fb_stride_pixels fb_pixel_format fb_reserved] in *.
  unfold u64, u32 in *. subst magic. f_equal; [f_equal| | | |f_equal]; try read_field.
Qed.
