(* ===== verification/BootChain.v ===== *)
(** * From the firmware to the running kernel

    Puts the loader, the image reader, the map normalisation, the handoff
    validation, the frame allocator and the kernel entry together. *)

From S2P Require Import Prelude.
From S2P Require Import BootContract.
From S2P Require Import Panic.
From S2P Require Import BootNormalize.
From S2P Require Import BootNormalizeProofs.
From S2P Require Import BootValidate.
From S2P Require Import BootTheorems.
From S2P Require Import FrameAllocator.
From S2P Require Import Extents.
From S2P Require Import FrameInit.
From S2P Require Import FrameOps.
From S2P Require Import FrameTheorems.
From S2P Require Import Bytes.
From S2P Require Import KernelImage.
From S2P Require Import KernelImageProofs.
From S2P Require Import KernelImageTheorems.
From S2P Require Import Loader.
From S2P Require Import LoaderProofs.
From S2P Require Import LoaderTheorems.
From S2P Require Import KernelBoot.
From S2P Require Import KernelBootProofs.

(** A parsed image has at least one page to place. *)
Lemma segments_nonempty bytes image segs :
  slice_ok bytes -> image_parse bytes = Some (Ok image) ->
  collect (S (im_program_header_count image)) (segments image) = Some segs ->
  exists s, s ∈ segs /\ placeable image s.
Proof.
  intros Hs Hp Hc. destruct (image_parse_admissible _ _ Hs Hp) as (_ & (_ & _ & Hv) & Ht).
  pose proof (loads_placeable _ Ht Hv) as Hpl. destruct Hv as (Hv1 & Hne & Hv3).
  unfold segments in Hc. rewrite collect_spec, Nat.sub_0_r in Hc by (done || lia). injection Hc as <-.
  destruct (loads _ _ _) as [|s l]; [done|]. exists s. apply Forall_cons in Hpl as [? _].
  split; [by left|done].
Qed.

(** The entry of the kernel in a state the loader leaves. *)
Section Entry.
Context (image : ValidatedImage) (segs : list Segment) (hp : Z) (mem : Memory)
  (h : BootHandoffV1) (regions : list MemoryRegionV1).
Hypothesis Hen : entered image segs hp mem h regions.
Hypothesis Hseg : exists s, s ∈ segs /\ placeable image s.

(** The kernel reads back the very handoff and regions of the loader. *)
Lemma entry_reads :
  read_handoff mem hp = h /\ read_regions mem (ho_memory_regions_address h) (length regions) = regions.
Proof.
  destruct Hen as [_ Hh Hr Hhd (Hht & _ & Hrt) _ _]. split.
  - apply read_handoff_stored; [rewrite Hhd; apply handoff_header_typed|done|done].
  - by apply read_regions_stored.
Qed.

(** A reserved region leaves room in the extent arrays. *)
Lemma entry_room : usable_runs None regions < Z.of_nat (length regions).
Proof.
  destruct Hseg as (s & Hs & Hpl). destruct (pl_pages _ _ Hpl) as [Hp1 _].
  pose proof (proj1 (Forall_forall _ _) (en_reserved _ _ _ _ _ _ Hen) s Hs (sg_physical_start s)) as Hk.
  destruct (kind_at_Some _ _ _ (Hk ltac:(unfold page_end, KernelImage.PAGE_SIZE; lia)))
    as (p & Hp & _ & Hkind). apply list_elem_of_fmap in Hp as (m & -> & Hm).
  eapply (usable_runs_lt _ _ m Hm). cbn in Hkind. by rewrite Hkind.
Qed.

(** The kernel accepts the handoff and manages exactly the usable memory; it
    reaches the recovery context unless fewer than two frames are usable. *)
Lemma entry_boots :
  validate_handoff h hp (ho_memory_regions_address h) regions = Ok tt /\
  exists fa0, initialize regions allocator_new = Some (Ok tt, fa0) /\
  ((two_free fa0 /\ exists fa, kernel_entry mem hp allocator_new
      = Some (ToRecoveryContext, ready_messages (framebuffer_present h), fa) /\
      run regions (fa, []) /\ live_free fa = live_free fa0) \/
   (~ two_free fa0 /\ exists fa, kernel_entry mem hp allocator_new
      = Some (ExitFailure, [BootErrorFrameAllocation], fa))).
Proof.
  destruct entry_reads as [Hrh Hrr]. pose proof entry_room as Hroom.
  destruct (en_typed _ _ _ _ _ _ Hen) as (Hht & Hhu & Hrt).
  pose proof (en_valid _ _ _ _ _ _ Hen) as Hok.
  pose proof (proj2 (validate_handoff_ok _ _ _ _ Hht Hhu Hrt) Hok) as Hval.
  destruct Hok as (Hv1 & Hcnt & Hrng & _ & Hp0 & Hp8 & Hpe & Hes & Hh0 & Hh8 & Hhe & Hfb & Hmap & _).
  assert (Hhdr : validate_handoff_header h = Ok (Z.of_nat (length regions)))
    by (apply validate_handoff_header_ok; [done|]; rewrite <-Hcnt; split_and!; (done || lia)).
  unfold kernel_entry. destruct layouts_abi as (_ & _ & _ & Hlay).
  rewrite (proj2 (Z.eqb_neq hp 0)) by done. rewrite Hlay. cbn [layout_align orb].
  unfold is_multiple_of. rewrite Hh8. cbn [Z.eqb negb].
  rewrite Hrh, Hhdr, Nat2Z.id, Hrr, Hval. cbn [is_err is_ok negb].
  destruct (initialize_full regions allocator_new Hrt arrays_ok_new)
    as [(_ & _ & fa0 & Hi & Hinv & HL & Hlen & _)|[Hno _]].
  2:{ exfalso. apply Hno. split; [done|]. unfold MAX_FRAME_EXTENTS, MAX_MEMORY_REGIONS. lia. }
  rewrite Hi. cbn [mbind option_bind is_err is_ok negb]. split; [done|]. exists fa0.
  assert (Hrun : run regions (fa0, [])) by (by apply run_start). split; [done|].
  destruct (recycle_probe_spec (framebuffer_present h) fa0 Hinv)
    as [(H2 & fa & Hx & _ & HL' & _ & Hr)|[H2 (fa & Hx)]].
  - unfold MAX_FRAME_EXTENTS, MAX_MEMORY_REGIONS. lia.
  - left. split; [done|]. exists fa. split_and!; [exact Hx|by apply Hr|done].
  - right. split; [done|]. exists fa. exact Hx.
Qed.

(** No frame of any run touches what the kernel was started with. *)
Lemma entry_isolated fa owned f x :
  run regions (fa, owned) -> f ∈ owned -> f <= x < f + PAGE_SIZE ->
  (forall s, s ∈ segs -> ~ sg_physical_start s <= x < page_end s) /\
  ~ hp <= x < hp + 88 /\
  ~ ho_memory_regions_address h <= x < ho_memory_regions_address h + 24 * Z.of_nat (length regions) /\
  (framebuffer_present h = true ->
   ~ fb_physical_start (ho_framebuffer h) <= x
       < fb_physical_start (ho_framebuffer h) + fb_byte_length (ho_framebuffer h)).
Proof.
  intros Hrun Hf Hx. destruct (en_typed _ _ _ _ _ _ Hen) as (_ & _ & Hrt).
  destruct (en_valid _ _ _ _ _ _ Hen)
    as (_ & _ & _ & _ & _ & _ & _ & _ & _ & _ & _ & _ & Hmap & Hc1 & Hc2 & Hc3).
  pose proof (partition_run regions _ Hrt Hrun) as (_ & _ & _ & Hal & Hpart).
  assert (Hux : usable regions x).
  { apply (usable_frame regions f); [done|by apply Hal| |done]. apply Hpart; [by apply Hal|by left]. }
  split_and!.
  - intros s Hs Hxs. apply (usable_kind_at _ _ Hmap) in Hux.
    rewrite (proj1 (Forall_forall _ _) (en_reserved _ _ _ _ _ _ Hen) s Hs x Hxs) in Hux. done.
  - intros H. exact (Hc1 x H Hux).
  - intros H. exact (Hc2 x H Hux).
  - intros Hp H. exact (Hc3 Hp x H Hux).
Qed.
End Entry.

(** ** Theorems *)

Section Chain.
Context {U St : Type} `{HU : Uefi U St, !UefiLaws U St}.

(** C25: against every firmware that keeps its laws the loader never panics and
    never reports success: it returns an error status, halts after boot
    services ended, or enters the kernel.  It enters only at the entry point of
    the image it read, with every segment at its address (file bytes, then
    zeros to the end of its last page), a handoff in memory that meets the boot
    contract, and every page of the kernel reserved in the region map. *)
Theorem loader_hands_over (m : Machine U) :
  exists (out : Outcome (St := St)) m', main m = Some (out, m') /\
    match out with
    | Returned r => exists status, r = Err status
    | Halted => True
    | Entered entry hp =>
        exists bytes image segs h regions,
          kernel_file (U := U) (St := St) bytes /\ image_parse bytes = Some (Ok image) /\
          collect (S (im_program_header_count image)) (segments image) = Some segs /\
          entry = im_entry image /\ entered image segs hp (mc_memory m') h regions
    end.
Proof. apply main_spec. Qed.

(** C24: whenever the loader enters the kernel, take the handoff that is in memory at
    the address it passes and the region array that handoff points to, as the
    kernel's entry reads them.  The kernel's validation accepts them and its
    allocator initialises from them; the entry reaches the recovery context with
    every frame free again, or reports a failed frame allocation exactly when
    fewer than two frames are usable.  No frame of any later run touches a page of
    a segment of the kernel file the loader read (it has at least one, and its
    bytes are in place), the handoff, the region array or the framebuffer. *)
Theorem boot_chain_isolated (m m' : Machine U) entry hp :
  main m = Some (Entered (St := St) entry hp, m') ->
  let mem := mc_memory m' in
  let h := read_handoff mem hp in
  let regions := read_regions mem (ho_memory_regions_address h) (Z.to_nat (ho_memory_region_count h)) in
  validate_handoff h hp (ho_memory_regions_address h) regions = Ok tt /\
  exists bytes image segs fa0,
    kernel_file (U := U) (St := St) bytes /\ image_parse bytes = Some (Ok image) /\
    collect (S (im_program_header_count image)) (segments image) = Some segs /\ segs <> [] /\
    entry = im_entry image /\
    Forall (fun s => stored mem (sg_physical_start s) (PAGE_SIZE * KernelImage.page_count s)
                       (window bytes (sg_file_offset s) (sg_file_size s))) segs /\
    initialize regions allocator_new = Some (Ok tt, fa0) /\
    ((two_free fa0 /\ exists fa, kernel_entry mem hp allocator_new
        = Some (ToRecoveryContext, ready_messages (framebuffer_present h), fa) /\
        run regions (fa, []) /\ live_free fa = live_free fa0) \/
     (~ two_free fa0 /\ exists fa, kernel_entry mem hp allocator_new
        = Some (ExitFailure, [BootErrorFrameAllocation], fa))) /\
    forall fa owned f x, run regions (fa, owned) -> f ∈ owned -> f <= x < f + PAGE_SIZE ->
      (forall s, s ∈ segs -> ~ sg_physical_start s <= x < page_end s) /\
      ~ hp <= x < hp + 88 /\
      ~ ho_memory_regions_address h <= x
          < ho_memory_regions_address h + 24 * Z.of_nat (length regions) /\
      (framebuffer_present h = true ->
       ~ fb_physical_start (ho_framebuffer h) <= x
           < fb_physical_start (ho_framebuffer h) + fb_byte_length (ho_framebuffer h)).
Proof.
  intros Hm. destruct (main_spec m) as (out & m2 & Hm2 & Hend). rewrite Hm in Hm2.
  injection Hm2 as <- <-. destruct Hend as (bytes & image & segs & h & regions & Hf & Hp & Hc & He & Hen).
  pose proof (segments_nonempty bytes image segs (kernel_file_ok _ Hf) Hp Hc) as Hseg.
  destruct (entry_reads image segs hp (mc_memory m') h regions Hen) as [Hrh Hrr].
  destruct (en_valid _ _ _ _ _ _ Hen) as (_ & Hcnt & _). cbv zeta. rewrite Hrh, Hcnt, Nat2Z.id, Hrr.
  destruct (entry_boots image segs hp (mc_memory m') h regions Hen Hseg) as (Hv & fa0 & Hr & Hb).
  split; [done|]. exists bytes, image, segs, fa0.
  pose proof (en_segments _ _ _ _ _ _ Hen) as Hst. destruct (image_parse_admissible _ _ (kernel_file_ok _ Hf) Hp) as [Hib _].
  rewrite Hib in Hst. split_and!; [done|done|done| |done|done|done|done|].
  - destruct Hseg as (s & Hs & _). intros ->. by apply not_elem_of_nil in Hs.
  - intros fa owned f x. by apply (entry_isolated image segs hp (mc_memory m') h regions Hen).
Qed.
End Chain.

(** ** Witness: a firmware that keeps its laws

    One megabyte of loader memory at 1 MiB, sixteen conventional pages at
    2 MiB, a frame buffer above, and the image of the reader's test as the
    kernel file. *)

Module SampleFirmware.

Definition pool_start : Z := 0x100000.
Definition pool_end : Z := 0x200000.

Definition in_pool (r : Z * Z) : bool :=
  (pool_start <=? fst r) && (0 <? snd r) && (fst r + snd r * PAGE_SIZE <=? pool_end)
  && (fst r mod PAGE_SIZE =? 0).

Definition apart (r q : Z * Z) : bool :=
  (fst r + snd r * PAGE_SIZE <=? fst q) || (fst q + snd q * PAGE_SIZE <=? fst r).

Definition next_free (u : list (Z * Z)) : Z :=
  foldr (fun r low => Z.max low (fst r + snd r * PAGE_SIZE)) 0x180000 u.

Definition allocate (t : AllocateType) (n : Z) (u : list (Z * Z)) : result Z Z * list (Z * Z) :=
  let a := match t with AtAddress a => a | AnyPages => next_free u end in
  if in_pool (a, n) && forallb (apart (a, n)) u then (Ok a, (a, n) :: u) else (Err 9, u).

Definition map_of (u : list (Z * Z)) : list MemoryDescriptor :=
  if forallb in_pool u
  then [mkDescriptor pool_start 256 LOADER_DATA; mkDescriptor pool_end 16 CONVENTIONAL]
  else [].

(** The firmware with this kernel file. *)
Definition firmware (kernel : list Z) : Uefi (list (Z * Z)) Z := {|
  LOAD_ERROR := 1;
  OUT_OF_RESOURCES := 9;
  SUCCESS := 0;
  uefi_init u := (Ok tt, u);
  get_image_file_system u := (Ok tt, u);
  fs_metadata_size u := (Ok (Z.of_nat (length kernel)), u);
  fs_read u := (Ok kernel, u);
  close_file_system u := u;
  drop_bytes _ u := u;
  allocate_pages := allocate;
  get_graphics_handle u := (true, u);
  open_graphics u := (true, u);
  close_graphics u := u;
  current_mode_info _ := mkMode Bgr (4, 2) 4;
  frame_buffer _ := (0x80000000, 64);
  exit_boot_services u := (map_of u, u);
  map_sort l := l
|}.

#[global] Instance sample_uefi : Uefi (list (Z * Z)) Z := firmware test_image.

Lemma allocate_lawful t n u a u' :
  allocate t n u = (Ok a, u') ->
  u' = (a, n) :: u /\ range_ok a n /\ 0 < a
  /\ (forall x, in_pages x (a, n) -> ~ Exists (in_pages x) u)
  /\ match t with AtAddress b => a = b | AnyPages => True end.
Proof.
  unfold allocate. destruct (_ && _) eqn:E; [|done]. intros [= <- <-].
  apply andb_true_iff in E as [Hp Ha]. unfold in_pool, pool_start, pool_end, fst, snd in Hp. b2p.
  set (a := match t with _ => _ end) in *.
  split_and!; [done| | | |by destruct t].
  - unfold range_ok, pages_end, two64 in *. split_and!; [lia|tauto|lia|lia].
  - lia.
  - intros x Hx (q & Hq & Hxq)%Exists_exists. apply list_elem_of_In in Hq.
    pose proof (proj1 (forallb_forall _ _) Ha q Hq) as Hd. unfold apart in Hd. b2p.
    unfold in_pages, in_range, pages_end in *. simpl in *. lia.
Qed.

Lemma map_lawful u :
  Forall descriptor_typed (map_of u)
  /\ forall x, Exists (in_pages x) u ->
       Forall (fun d => md_ty d = CONVENTIONAL -> ~ in_descriptor x d) (map_of u).
Proof.
  unfold map_of. destruct (forallb in_pool u) eqn:E; [|split; [done|intros; done]]. split.
  - repeat constructor; vm_compute; congruence.
  - intros x (q & Hq & Hxq)%Exists_exists. apply list_elem_of_In in Hq.
    pose proof (proj1 (forallb_forall _ _) E q Hq) as Hp.
    unfold in_pool, pool_start, pool_end in Hp. b2p.
    repeat constructor; [done|]. intros _. unfold in_descriptor, in_pages, in_range, pages_end in *.
    simpl in *. unfold pool_end. lia.
Qed.

Lemma firmware_laws kernel : slice_ok kernel -> @UefiLaws (list (Z * Z)) Z (firmware kernel).
Proof.
  intros Hk. apply (Build_UefiLaws _ _ (firmware kernel) (fun u => u)); try (intros u r u'; simpl; congruence); try done.
  - exact allocate_lawful.
  - intros u ds u' H. simpl in H. injection H as <- <-. apply map_lawful.
Qed.

#[global] Instance sample_laws : UefiLaws (list (Z * Z)) Z := firmware_laws test_image test_image_ok.

Definition power_on : Machine (list (Z * Z)) := mkMachine [] (fun _ => 0).

Lemma sample_enters :
  fst <$> main power_on = Some (Entered (St := Z) 0x100000 0x180000).
Proof. vm_compute. reflexivity. Qed.
End SampleFirmware.

Lemma loader_hands_over_witness :
  exists m', main SampleFirmware.power_on = Some (Entered (St := Z) 0x100000 0x180000, m') /\
    exists h, stored (mc_memory m') 0x180000 88 (handoff_bytes h).
Proof.
  destruct (loader_hands_over SampleFirmware.power_on) as (out & m' & Hm & Hend).
  pose proof SampleFirmware.sample_enters as Hs. rewrite Hm in Hs. injection Hs as ->.
  exists m'. split; [exact Hm|]. destruct Hend as (bytes & image & segs & h & regions & _ & _ & _ & _ & Hen).
  exists h. exact (en_handoff _ _ _ _ _ _ Hen).
Defined.

(** No frame of any run on the sample machine starts in the kernel's pages or in
    the handoff. *)
Lemma boot_chain_isolated_witness :
  exists m', main SampleFirmware.power_on = Some (Entered (St := Z) 0x100000 0x180000, m') /\
    (exists out msgs fa, kernel_entry (mc_memory m') 0x180000 allocator_new = Some (out, msgs, fa)) /\
    let h := read_handoff (mc_memory m') 0x180000 in
    exists segs, segs <> [] /\ forall fa owned f,
      run (read_regions (mc_memory m') (ho_memory_regions_address h) (Z.to_nat (ho_memory_region_count h))) (fa, owned) ->
      f ∈ owned ->
      (forall s, s ∈ segs -> ~ sg_physical_start s <= f < page_end s) /\ ~ 0x180000 <= f < 0x180000 + 88.
Proof.
  destruct (main SampleFirmware.power_on) as [[out m']|] eqn:Hm;
    [|exfalso; pose proof SampleFirmware.sample_enters as Hs; rewrite Hm in Hs; discriminate Hs].
  pose proof SampleFirmware.sample_enters as Hs. rewrite Hm in Hs. injection Hs as ->.
  exists m'. split; [reflexivity|].
  destruct (boot_chain_isolated _ _ _ _ Hm)
    as (_ & bytes & image & segs & fa0 & _ & _ & _ & Hne & _ & _ & _ & Hend & Hiso).
  split; [destruct Hend as [[_ (fa & H & _)]|[_ (fa & H)]]; do 3 eexists; exact H|].
  exists segs. split; [exact Hne|]. intros fa owned f Hr Hf.
  destruct (Hiso fa owned f f Hr Hf) as (H1 & H2 & _); [unfold PAGE_SIZE; lia|]. split; assumption.
Defined.
