(* ===== verification/Text.v ===== *)
(** * Byte strings as text

    The [str] and [&[u8]] operations of the standard library that the
    component-admission tool uses.  A [str] is its UTF-8 bytes; every pattern
    the tool searches for is ASCII, for which splitting and searching by
    characters and by bytes agree. *)

From Stdlib Require Import String Ascii.
From S2P Require Import Prelude.
From S2P Require Import Bytes.

(** The bytes of a literal. *)
Definition bytes_of (s : string) : list Z :=
  List.map (fun c => Z.of_N (N_of_ascii c)) (list_ascii_of_string s).

Definition NL : Z := 10.
Definition CR : Z := 13.
Definition SPACE : Z := 32.
Definition SLASH : Z := 47.
Definition EQUALS : Z := 61.
Definition BACKSLASH : Z := 92.

(** ** Classes of bytes *)

Definition is_ascii_digit (b : Z) : bool := (48 <=? b) && (b <=? 57).
Definition is_ascii_graphic (b : Z) : bool := (33 <=? b) && (b <=? 126).
Definition is_ascii_alphabetic (b : Z) : bool :=
  ((65 <=? b) && (b <=? 90)) || ((97 <=? b) && (b <=? 122)).
(** space, tab, line feed, form feed, carriage return *)
Definition is_ascii_whitespace (b : Z) : bool :=
  (b =? 32) || (b =? 9) || (b =? 10) || (b =? 12) || (b =? 13).
Definition to_ascii_lowercase (b : Z) : Z :=
  if (65 <=? b) && (b <=? 90) then b + 32 else b.
Definition is_ascii (l : list Z) : bool := forallb (fun b => b <? 128) l.

(** ** Searching *)

Definition bytes_eqb (l k : list Z) : bool := bool_decide (l = k).

Definition contains_byte (b : Z) (l : list Z) : bool := existsb (Z.eqb b) l.

(** [starts_with] and [strip_prefix] *)
Fixpoint strip_prefix (p l : list Z) : option (list Z) :=
  match p, l with
  | [], _ => Some l
  | x :: p', y :: l' => if x =? y then strip_prefix p' l' else None
  | _ :: _, [] => None
  end.

Definition starts_with (p l : list Z) : bool :=
  match strip_prefix p l with Some _ => true | None => false end.

Definition ends_with (p l : list Z) : bool := starts_with (rev p) (rev l).

(** [contains(needle)], and [windows(needle.len()).any(|w| w == needle)] for a
    nonempty needle *)
Fixpoint contains (needle l : list Z) : bool :=
  starts_with needle l || match l with [] => false | _ :: l' => contains needle l' end.

(** [a.as_bytes() < b.as_bytes()], lexicographic *)
Fixpoint bytes_ltb (a b : list Z) : bool :=
  match a, b with
  | _, [] => false
  | [], _ :: _ => true
  | x :: a', y :: b' => (x <? y) || ((x =? y) && bytes_ltb a' b')
  end.

(** ** Splitting *)

(** [split(c)]: the pieces between the separators, at least one. *)
Fixpoint split_on (c : Z) (l : list Z) : list (list Z) :=
  match l with
  | [] => [[]]
  | b :: l' =>
      if b =? c then [] :: split_on c l'
      else match split_on c l' with
           | [] => [[b]]
           | piece :: rest => (b :: piece) :: rest
           end
  end.

(** [join]: the pieces with the separator between. *)
Fixpoint join (c : Z) (pieces : list (list Z)) : list Z :=
  match pieces with
  | [] => []
  | [p] => p
  | p :: rest => p ++ c :: join c rest
  end.

(** [split_once(c)] *)
Fixpoint split_once (c : Z) (l : list Z) : option (list Z * list Z) :=
  match l with
  | [] => None
  | b :: l' =>
      if b =? c then Some ([], l')
      else match split_once c l' with
           | None => None
           | Some (x, y) => Some (b :: x, y)
           end
  end.

(** [splitn(n, c)]: at most [n] pieces, the last with the rest. *)
Fixpoint splitn (n : nat) (c : Z) (l : list Z) : list (list Z) :=
  match n with
  | O => []
  | 1%nat => [l]
  | S n' =>
      match split_once c l with
      | None => [l]
      | Some (x, y) => x :: splitn n' c y
      end
  end.

(** [split_ascii_whitespace()]: the nonempty pieces between whitespace. *)
Definition split_ascii_whitespace (l : list Z) : list (list Z) :=
  List.filter (fun p => negb (bytes_eqb p []))
    (split_on 32 (List.map (fun b => if is_ascii_whitespace b then 32 else b) l)).

(** [trim_matches(set)] *)
Fixpoint trim_start (set l : list Z) : list Z :=
  match l with
  | [] => []
  | b :: l' => if contains_byte b set then trim_start set l' else l
  end.

Definition trim_matches (set l : list Z) : list Z := rev (trim_start set (rev (trim_start set l))).

(** ** UTF-8 ([std::str::from_utf8]) *)

Definition cont (b : Z) : bool := (128 <=? b) && (b <=? 191).

Fixpoint utf8_valid (l : list Z) : bool :=
  match l with
  | [] => true
  | b0 :: l0 =>
      if b0 <? 128 then utf8_valid l0 else
      match l0 with
      | [] => false
      | b1 :: l1 =>
          if (194 <=? b0) && (b0 <=? 223) && cont b1 then utf8_valid l1 else
          match l1 with
          | [] => false
          | b2 :: l2 =>
              if (((b0 =? 224) && (160 <=? b1) && (b1 <=? 191))
                  || ((225 <=? b0) && (b0 <=? 236) && cont b1)
                  || ((b0 =? 237) && (128 <=? b1) && (b1 <=? 159))
                  || ((238 <=? b0) && (b0 <=? 239) && cont b1)) && cont b2
              then utf8_valid l2 else
              match l2 with
              | [] => false
              | b3 :: l3 =>
                  if (((b0 =? 240) && (144 <=? b1) && (b1 <=? 191))
                      || ((241 <=? b0) && (b0 <=? 243) && cont b1)
                      || ((b0 =? 244) && (128 <=? b1) && (b1 <=? 143))) && cont b2 && cont b3
                  then utf8_valid l3 else false
              end
          end
      end
  end.

(** ** Numbers *)

(** [str::parse::<u64>] on digits *)
Fixpoint parse_digits (acc : Z) (l : list Z) : option Z :=
  match l with
  | [] => Some acc
  | b :: l' =>
      acc10 ← checked_mul acc 10;
      acc' ← checked_add acc10 (b - 48);
      parse_digits acc' l'
  end.

(** Decimal digits, most significant first; [fuel] digits at most. *)
Fixpoint digits_rev (fuel : nat) (x : Z) : list Z :=
  match fuel with
  | O => []
  | S fuel' => if x <? 10 then [48 + x] else (48 + x mod 10) :: digits_rev fuel' (x / 10)
  end.

(** Display of an unsigned integer: twenty digits hold a [u64]. *)
Definition decimal (x : Z) : list Z := rev (digits_rev 20 x).

(** * Byte strings as text: lemmas

    Splitting and joining, searching, decimals and hexadecimals. *)

From S2P Require Import Panic.

(** ** Splitting and joining *)

Lemma split_on_nonempty c l : split_on c l <> [].
Proof. destruct l as [|b l]; cbn; [done|]. destruct (_ =? _); [done|]. by destruct (split_on c l). Qed.

Lemma join_cons c p rest : rest <> [] -> join c (p :: rest) = p ++ c :: join c rest.
Proof. by destruct rest. Qed.

Lemma join_split c l : join c (split_on c l) = l.
Proof.
  induction l as [|b l IH]; [done|]. cbn [split_on]. destruct (Z.eqb_spec b c) as [->|Hne].
  - rewrite join_cons by apply split_on_nonempty. by rewrite IH.
  - destruct (split_on c l) as [|p rest]; [cbn in IH; by subst|].
    destruct rest as [|q rest]; cbn in *; by rewrite <-IH.
Qed.

Lemma split_on_pieces c l : Forall (fun p => c ∉ p) (split_on c l).
Proof.
  induction l as [|b l IH]; cbn [split_on].
  { constructor; [|constructor]. apply not_elem_of_nil. }
  destruct (Z.eqb_spec b c) as [->|Hne]; [constructor; [apply not_elem_of_nil|done]|].
  destruct (split_on c l) as [|p rest]; [constructor; [|done]|].
  - apply not_elem_of_cons. split; [done|apply not_elem_of_nil].
  - apply Forall_cons in IH as [Hp Hr]. constructor; [|done]. by apply not_elem_of_cons.
Qed.

Lemma split_on_none c l : c ∉ l -> split_on c l = [l].
Proof.
  induction l as [|b l IH]; [done|]. intros [Hb Hl]%not_elem_of_cons. cbn [split_on].
  rewrite (proj2 (Z.eqb_neq b c)) by done. by rewrite IH.
Qed.

Lemma split_on_app c a b : split_on c (a ++ c :: b) = split_on c a ++ split_on c b.
Proof.
  induction a as [|x a IH]; cbn [app split_on]; [by rewrite Z.eqb_refl|].
  destruct (x =? c); [by rewrite IH|]. rewrite IH.
  pose proof (split_on_nonempty c a). by destruct (split_on c a).
Qed.

Lemma split_join c pieces :
  pieces <> [] -> Forall (fun p => c ∉ p) pieces -> split_on c (join c pieces) = pieces.
Proof.
  induction pieces as [|p rest IH]; [done|]. intros _ [Hp Hr]%Forall_cons.
  destruct rest as [|q rest]; [by apply split_on_none|].
  rewrite join_cons by done. rewrite split_on_app, IH by done. by rewrite split_on_none.
Qed.

Lemma split_once_Some c l x y :
  split_once c l = Some (x, y) <-> l = x ++ c :: y /\ c ∉ x.
Proof.
  revert x y. induction l as [|b l IH]; intros x y; cbn [split_once].
  { split; [done|]. intros [H _]. by destruct x. }
  destruct (Z.eqb_spec b c) as [->|Hne].
  - split.
    + intros [= <- <-]. split; [done|apply not_elem_of_nil].
    + intros [H Hx]. destruct x as [|z x]; cbn in H; [by injection H as ->|].
      injection H as -> _. exfalso. apply Hx. by left.
  - destruct (split_once c l) as [[x' y']|] eqn:E.
    + split.
      * intros [= <- <-]. destruct (proj1 (IH x' y') eq_refl) as [-> Hx]. split; [done|].
        by apply not_elem_of_cons.
      * intros [H Hx]. destruct x as [|z x]; cbn in H; [by injection H as <- _|].
        injection H as -> ->. apply not_elem_of_cons in Hx as [_ Hx].
        assert (Some (x', y') = Some (x, y)) as [= -> ->] by (apply IH; done). done.
    + split; [done|]. intros [H Hx]. destruct x as [|z x]; cbn in H; [by injection H as <- _|].
      injection H as -> ->. apply not_elem_of_cons in Hx as [_ Hx].
      assert (None = Some (x, y)) as [=] by (by apply IH).
Qed.

Lemma splitn_4 c l m n d p :
  splitn 4 c l = [m; n; d; p] <->
  l = m ++ c :: n ++ c :: d ++ c :: p /\ c ∉ m /\ c ∉ n /\ c ∉ d.
Proof.
  cbn [splitn]. split.
  - destruct (split_once c l) as [[x y]|] eqn:E1; [|done]. apply split_once_Some in E1 as [-> Hx].
    destruct (split_once c y) as [[x1 y1]|] eqn:E2; [|done]. apply split_once_Some in E2 as [-> Hx1].
    destruct (split_once c y1) as [[x2 y2]|] eqn:E3; [|done]. apply split_once_Some in E3 as [-> Hx2].
    intros [= <- <- <- <-]. done.
  - intros (-> & Hm & Hn & Hd). rewrite (proj2 (split_once_Some c _ m _)) by done.
    rewrite (proj2 (split_once_Some c _ n _)) by done.
    by rewrite (proj2 (split_once_Some c _ d p)) by done.
Qed.

(** ** Prefixes *)

Lemma strip_prefix_Some p l r : strip_prefix p l = Some r <-> l = p ++ r.
Proof.
  revert l. induction p as [|x p IH]; intros l; cbn; [naive_solver|].
  destruct l as [|y l]; [naive_solver|].
  destruct (Z.eqb_spec x y) as [->|Hne]; [rewrite IH; naive_solver|naive_solver].
Qed.

Lemma starts_with_spec p l : starts_with p l = true <-> exists r, l = p ++ r.
Proof.
  unfold starts_with. destruct (strip_prefix p l) as [r|] eqn:E.
  - apply strip_prefix_Some in E. naive_solver.
  - split; [done|]. intros [r Hr]. apply strip_prefix_Some in Hr. congruence.
Qed.

Lemma ends_with_spec p l : ends_with p l = true <-> exists r, l = r ++ p.
Proof.
  unfold ends_with. rewrite starts_with_spec. split.
  - intros [r Hr]. exists (rev r). rewrite <-(rev_involutive l), Hr, rev_app_distr, rev_involutive. done.
  - intros [r ->]. exists (rev r). by rewrite rev_app_distr.
Qed.

Lemma contains_spec n l : contains n l = true <-> exists a b, l = a ++ n ++ b.
Proof.
  induction l as [|x l IH]; cbn [contains]; rewrite orb_true_iff, starts_with_spec.
  - split; [intros [[r Hr]|]; [exists [], r; done|done]|]. intros (a & b & Hab).
    symmetry in Hab. apply app_eq_nil in Hab as [-> Hab]. left. exists b. done.
  - rewrite IH. split.
    + intros [[r Hr]|(a & b & ->)]; [exists [], r; done|]. by exists (x :: a), b.
    + intros (a & b & Hab). destruct a as [|y a]; cbn in Hab; [left; by exists b|].
      injection Hab as -> ->. right. by exists a, b.
Qed.

Lemma contains_byte_spec b l : contains_byte b l = true <-> b ∈ l.
Proof.
  unfold contains_byte. rewrite existsb_exists. split.
  - intros (x & Hx & ->%Z.eqb_eq). by apply list_elem_of_In.
  - intros Hb. exists b. split; [by apply list_elem_of_In|apply Z.eqb_refl].
Qed.

(** ** Decimals *)

Definition digit (b : Z) : Prop := 48 <= b <= 57.

Lemma is_ascii_digit_spec b : is_ascii_digit b = true <-> digit b.
Proof. unfold is_ascii_digit, digit. b2p. lia. Qed.

Lemma all_digits_spec l : forallb is_ascii_digit l = true <-> Forall digit l.
Proof.
  rewrite forallb_forall, Forall_forall. split; intros H b Hb.
  - by apply is_ascii_digit_spec, H, list_elem_of_In.
  - by apply is_ascii_digit_spec, H, list_elem_of_In.
Qed.

(** The value of digits, most significant first, and least significant first. *)
Definition value_from (acc : Z) (l : list Z) : Z := fold_left (fun a b => 10 * a + (b - 48)) l acc.
Fixpoint value_rev (l : list Z) : Z :=
  match l with [] => 0 | b :: l' => (b - 48) + 10 * value_rev l' end.

Lemma value_from_snoc acc l b : value_from acc (l ++ [b]) = 10 * value_from acc l + (b - 48).
Proof. unfold value_from. by rewrite fold_left_app. Qed.

Lemma value_rev_spec l : value_from 0 (rev l) = value_rev l.
Proof.
  induction l as [|b l IH]; [done|]. cbn [rev value_rev]. rewrite value_from_snoc, IH. lia.
Qed.

Lemma value_from_ge acc l : 0 <= acc -> Forall digit l -> acc <= value_from acc l.
Proof.
  revert acc. induction l as [|b l IH]; intros acc Ha Hl; [done|]. apply Forall_cons in Hl as [Hb Hl].
  unfold digit in Hb. change (value_from acc (b :: l)) with (value_from (10 * acc + (b - 48)) l).
  specialize (IH (10 * acc + (b - 48)) ltac:(lia) Hl). lia.
Qed.

(** Parsing fails exactly when the value does not fit. *)
Lemma parse_digits_spec l : forall acc,
  0 <= acc < two64 -> Forall digit l ->
  parse_digits acc l = if value_from acc l <? two64 then Some (value_from acc l) else None.
Proof.
  induction l as [|b l IH]; intros acc Ha Hl; cbn [parse_digits].
  { cbn. by rewrite (proj2 (Z.ltb_lt _ _)) by lia. }
  apply Forall_cons in Hl as [Hb Hl]. unfold digit in Hb.
  change (value_from acc (b :: l)) with (value_from (10 * acc + (b - 48)) l).
  pose proof (value_from_ge (10 * acc + (b - 48)) l ltac:(lia) Hl) as Hge.
  destruct (checked_mul acc 10) as [m|] eqn:Em; cbn [mbind option_bind].
  2:{ apply checked_mul_None in Em. rewrite (proj2 (Z.ltb_ge _ _)) by (unfold two64; lia). done. }
  apply checked_mul_Some in Em as [-> Em].
  destruct (checked_add (acc * 10) (b - 48)) as [a|] eqn:Ea; cbn [mbind option_bind].
  2:{ apply checked_add_None in Ea. rewrite (proj2 (Z.ltb_ge _ _)) by (unfold two64; lia). done. }
  apply checked_add_Some in Ea as [-> Ea]. rewrite IH by (done || unfold two64; lia).
  by replace (acc * 10 + (b - 48)) with (10 * acc + (b - 48)) by lia.
Qed.

(** No leading zero, or the single digit zero. *)
Definition canonical (l : list Z) : Prop :=
  l <> [] /\ Forall digit l /\ (length l = 1%nat \/ head l <> Some 48).

Lemma digits_rev_spec fuel : forall x,
  (0 < fuel)%nat -> 0 <= x < 10 ^ Z.of_nat fuel ->
  let l := digits_rev fuel x in
  l <> [] /\ Forall digit l /\ value_rev l = x /\ (length l = 1%nat \/ last l <> Some 48) /\
  (x <> 0 -> last l <> Some 48).
Proof.
  induction fuel as [|fuel IH]; intros x Hf Hx; [lia|]. cbn [digits_rev].
  destruct (Z.ltb_spec x 10) as [Hlt|Hge].
  { cbn. split_and!; [done|constructor; [unfold digit; lia|constructor]|lia|by left|].
    intros H0 [= H1]. lia. }
  rewrite Nat2Z.inj_succ, Z.pow_succ_r in Hx by lia.
  assert (Hq : 0 <= x / 10 < 10 ^ Z.of_nat fuel)
    by (split; [apply Z.div_pos; lia|apply Z.div_lt_upper_bound; lia]).
  pose proof (Z.mod_pos_bound x 10 ltac:(lia)) as Hm. pose proof (Z.div_mod x 10 ltac:(lia)) as Hd.
  destruct fuel as [|fuel]; [cbn in Hq; lia|].
  destruct (IH (x / 10) ltac:(lia) Hq) as (Hne & Hdg & Hv & _ & Hl).
  specialize (Hl ltac:(lia)). set (l := digits_rev (S fuel) (x / 10)) in *.
  assert (Hlast : last ((48 + x mod 10) :: l) = last l) by (by destruct l).
  split_and!; [done|constructor; [unfold digit; lia|done]| |right; by rewrite Hlast|by rewrite Hlast].
  cbn [value_rev]. rewrite Hv. lia.
Qed.

Lemma value_rev_lower l :
  Forall digit l -> l <> [] -> last l <> Some 48 -> 10 ^ (Z.of_nat (length l) - 1) <= value_rev l.
Proof.
  induction l as [|b l IH]; [done|]. intros [Hb Hl]%Forall_cons _ Hlast. unfold digit in Hb.
  destruct l as [|c l].
  - cbn in *. assert (b <> 48) by congruence. lia.
  - assert (Hlast' : last (c :: l) <> Some 48) by done. specialize (IH Hl ltac:(done) Hlast').
    cbn [value_rev length] in *. rewrite !Nat2Z.inj_succ in *.
    replace (Z.succ (Z.succ (Z.of_nat (length l))) - 1) with (Z.succ (Z.of_nat (length l))) by lia.
    replace (Z.succ (Z.of_nat (length l)) - 1) with (Z.of_nat (length l)) in IH by lia.
    rewrite Z.pow_succ_r by lia. lia.
Qed.

(** Canonical digits are the digits of their value. *)
Lemma digits_rev_unique l : forall fuel,
  Forall digit l -> l <> [] -> (length l = 1%nat \/ last l <> Some 48) -> (length l <= fuel)%nat ->
  digits_rev fuel (value_rev l) = l.
Proof.
  induction l as [|b l IH]; intros fuel Hd Hne Hc Hf; [done|].
  apply Forall_cons in Hd as [Hb Hd]. unfold digit in Hb.
  destruct fuel as [|fuel]; [cbn in Hf; lia|]. cbn [digits_rev value_rev].
  destruct l as [|c l].
  - cbn [value_rev]. rewrite (proj2 (Z.ltb_lt _ _)) by lia. f_equal. lia.
  - destruct Hc as [Hc|Hc]; [done|]. assert (Hc' : last (c :: l) <> Some 48) by done.
    pose proof (value_rev_lower (c :: l) Hd ltac:(done) Hc') as Hlow.
    pose proof (Z.pow_pos_nonneg 10 (Z.of_nat (length (c :: l)) - 1) ltac:(lia) ltac:(cbn [length]; lia)).
    set (v := value_rev (c :: l)) in *.
    rewrite (proj2 (Z.ltb_ge _ _)) by lia.
    replace ((b - 48 + 10 * v) mod 10) with (b - 48)
      by (rewrite (Z.mul_comm 10), Z.mod_add, Z.mod_small; lia).
    replace ((b - 48 + 10 * v) / 10) with v
      by (rewrite (Z.mul_comm 10), Z.div_add, Z.div_small; lia).
    f_equal; [lia|]. unfold v. apply IH; [done|done|by right|cbn in *; lia].
Qed.

Lemma last_rev {A} (l : list A) : last (rev l) = head l.
Proof. destruct l as [|x l]; [done|]. cbn [rev]. by rewrite last_snoc. Qed.

Lemma head_rev {A} (l : list A) : head (rev l) = last l.
Proof. rewrite <-(rev_involutive l) at 2. symmetry. apply last_rev. Qed.

Lemma canonical_rev r :
  canonical (rev r) <-> r <> [] /\ Forall digit r /\ (length r = 1%nat \/ last r <> Some 48).
Proof.
  unfold canonical. rewrite length_rev, head_rev.
  assert (rev r <> [] <-> r <> []) as ->.
  { split; intros H He; apply H; [by subst|]. by rewrite <-(rev_involutive r), He. }
  assert (Forall digit (rev r) <-> Forall digit r) as ->; [|done].
  split; intros H; [rewrite <-(rev_involutive r)|]; by apply Forall_rev.
Qed.

(** Canonical decimals and machine integers correspond one to one. *)
Lemma canonical_decimal l x :
  canonical l /\ value_from 0 l = x /\ x < two64 <-> l = decimal x /\ 0 <= x < two64.
Proof.
  unfold decimal. rewrite <-(rev_involutive l). set (r := rev l). rewrite value_rev_spec, canonical_rev.
  split.
  - intros ((Hne & Hd & Hc) & Hv & Hx).
    assert (H0 : 0 <= value_rev r).
    { rewrite <-value_rev_spec. apply value_from_ge; [lia|]. by apply Forall_rev. }
    split; [|lia]. f_equal. symmetry. rewrite <-Hv. apply digits_rev_unique; [done..|].
    destruct Hc as [->|Hc]; [lia|]. pose proof (value_rev_lower _ Hd Hne Hc) as Hlow.
    destruct (decide (length r <= 20)%nat) as [|Hbig]; [done|exfalso].
    pose proof (Z.pow_le_mono_r 10 20 (Z.of_nat (length r) - 1) ltac:(lia) ltac:(lia)) as Hp.
    assert (two64 < 10 ^ 20) by (vm_compute; reflexivity). lia.
  - intros [He Hx]. assert (Hr : r = digits_rev 20 x) by (by rewrite <-(rev_involutive r), He, rev_involutive).
    destruct (digits_rev_spec 20 x) as (Hne & Hd & Hv & Hc & _); [lia| |].
    { assert (two64 < 10 ^ Z.of_nat 20) by (vm_compute; reflexivity). lia. }
    rewrite Hr. split_and!; (done || lia).
Qed.

Lemma decimal_digits x : 0 <= x < two64 -> Forall digit (decimal x) /\ decimal x <> [].
Proof.
  intros Hx. destruct (proj2 (canonical_decimal (decimal x) x) (conj eq_refl Hx)) as [(? & ? & _) _]. done.
Qed.
