(* ===== verification/AdmissionRecords.v ===== *)
(** * Component admission: the fixed records

    Models the constants, the error type, the byte readers and the three
    fixed-size records of [tools/component-admission/admission/src/lib.rs].
    The slices of the reserved fields are inside the record because its size
    was checked first. *)

From S2P Require Import Prelude.
From S2P Require Import Bytes.
From S2P Require Import Text.

Definition ADMISSION_BYTES : Z := 288.
Definition EXECUTION_PROFILE_BYTES : Z := 224.
Definition BUILD_EVIDENCE_BYTES : Z := 256.
Definition SIGNATURE_BYTES : Z := 64.
Definition PUBLIC_KEY_BYTES : Z := 32.
Definition KEY_ID_BYTES : Z := 16.
Definition SIGNATURE_MESSAGE_BYTES : Z := 318.

Definition MAX_COMPONENT_BYTES : Z := 1048576.
Definition MAX_WIT_BYTES : Z := 65536.
Definition MAX_SOURCE_MANIFEST_BYTES : Z := 65536.
Definition MAX_SOURCE_FILE_BYTES : Z := 262144.
Definition MAX_SOURCE_BYTES : Z := 1048576.
Definition MAX_SOURCE_FILES : Z := 256.
Definition MAX_COMPONENT_DEPTH : Z := 8.
Definition MAX_COMPONENT_SECTIONS : Z := 256.
Definition MAX_COMPONENT_TYPES : Z := 4096.
Definition MAX_COMPONENT_IMPORTS : Z := 256.
Definition MAX_COMPONENT_EXPORTS : Z := 256.
Definition MAX_CUSTOM_SECTIONS : Z := 32.
Definition MAX_CUSTOM_SECTION_BYTES : Z := 65536.
Definition MAX_COMPONENT_NAME_BYTES : Z := 256.

Inductive AdmissionError :=
| EIo | EInputType | ESize | ESchema | EReserved | EField | ELength | EDigest | EKeyId | EWeakKey
| ESignature | EUtf8 | EDocument | EManifest | ESourceInventory | EComponent | EComponentSurface
| EWit.

#[global] Instance AdmissionError_eq_dec : EqDecision AdmissionError.
Proof. solve_decision. Defined.

Definition AdmissionResult (A : Type) : Type := result A AdmissionError.

Definition len (bytes : list Z) : Z := Z.of_nat (length bytes).

(** ** Readers *)

Definition require_size (bytes : list Z) (expected : Z) : AdmissionResult unit :=
  if negb (len bytes =? expected) then Err ESize else Ok tt.

Definition array_at (n : Z) (bytes : list Z) (offset : Z) : AdmissionResult (list Z) :=
  let? end_ := ok_or (checked_add offset n) ESize in
  ok_or (get_range bytes offset end_) ESize.

Definition u32_at (bytes : list Z) (offset : Z) : AdmissionResult Z :=
  let? a := array_at 4 bytes offset in Ok (from_le_bytes a).

Definition u64_at (bytes : list Z) (offset : Z) : AdmissionResult Z :=
  let? a := array_at 8 bytes offset in Ok (from_le_bytes a).

Definition is_zero (bytes : list Z) : bool := forallb (Z.eqb 0) bytes.

(** [(lo..=hi).contains(&x)] *)
Definition within (lo hi x : Z) : bool := (lo <=? x) && (x <=? hi).

(** ** Component admission *)

Record ComponentAdmissionV1 := mkAdmission {
  ca_component_id : Z;
  ca_contract_major : Z;
  ca_contract_minor : Z;
  ca_contract_patch : Z;
  ca_component_profile : Z;
  ca_portable_artifact_length : Z;
  ca_target_executable_length : Z;
  ca_portable_artifact_sha256 : list Z;
  ca_target_executable_sha256 : list Z;
  ca_wit_package_sha256 : list Z;
  ca_execution_profile_sha256 : list Z;
  ca_build_evidence_sha256 : list Z;
  ca_maximum_linear_memory_bytes : Z;
  ca_maximum_execution_stack_bytes : Z;
  ca_maximum_deterministic_fuel : Z;
  ca_maximum_component_instances : Z;
  ca_maximum_linear_memories : Z;
  ca_maximum_tables : Z;
  ca_maximum_component_resources : Z;
  ca_maximum_accepted_console_calls : Z;
  ca_maximum_console_bytes_per_call : Z;
  ca_signing_key_id : list Z
}.

Definition admission_validate (v : ComponentAdmissionV1) : AdmissionResult unit :=
  let executable_pair_valid :=
    if ca_target_executable_length v =? 0 then is_zero (ca_target_executable_sha256 v)
    else negb (is_zero (ca_target_executable_sha256 v)) in
  if (ca_component_id v =? 0)
     || negb (ca_contract_major v =? 1)
     || negb (ca_contract_minor v =? 0)
     || negb (ca_contract_patch v =? 0)
     || negb (ca_component_profile v =? 0)
     || (ca_portable_artifact_length v =? 0)
     || (MAX_COMPONENT_BYTES <? ca_portable_artifact_length v)
     || negb executable_pair_valid
     || is_zero (ca_portable_artifact_sha256 v)
     || is_zero (ca_wit_package_sha256 v)
     || is_zero (ca_execution_profile_sha256 v)
     || is_zero (ca_build_evidence_sha256 v)
     || (ca_maximum_linear_memory_bytes v =? 0)
     || (ca_maximum_execution_stack_bytes v =? 0)
     || (ca_maximum_deterministic_fuel v =? 0)
     || (ca_maximum_component_instances v =? 0)
     || (ca_maximum_linear_memories v =? 0)
     || negb (ca_maximum_accepted_console_calls v =? 1)
     || negb (ca_maximum_console_bytes_per_call v =? 64)
     || is_zero (ca_signing_key_id v)
  then Err EField else Ok tt.

Definition admission_parse (bytes : list Z) : AdmissionResult ComponentAdmissionV1 :=
  let? _ := require_size bytes ADMISSION_BYTES in
  let? schema := u32_at bytes 0 in
  if negb (schema =? 1) then Err ESchema else
  let? size := u32_at bytes 4 in
  if negb (size =? ADMISSION_BYTES) then Err ESchema else
  if negb (is_zero (window bytes 280 8)) then Err EReserved else
  let? component_id := u64_at bytes 8 in
  let? contract_major := u32_at bytes 16 in
  let? contract_minor := u32_at bytes 20 in
  let? contract_patch := u32_at bytes 24 in
  let? component_profile := u32_at bytes 28 in
  let? portable_artifact_length := u64_at bytes 32 in
  let? target_executable_length := u64_at bytes 40 in
  let? portable_artifact_sha256 := array_at 32 bytes 48 in
  let? target_executable_sha256 := array_at 32 bytes 80 in
  let? wit_package_sha256 := array_at 32 bytes 112 in
  let? execution_profile_sha256 := array_at 32 bytes 144 in
  let? build_evidence_sha256 := array_at 32 bytes 176 in
  let? maximum_linear_memory_bytes := u64_at bytes 208 in
  let? maximum_execution_stack_bytes := u64_at bytes 216 in
  let? maximum_deterministic_fuel := u64_at bytes 224 in
  let? maximum_component_instances := u32_at bytes 232 in
  let? maximum_linear_memories := u32_at bytes 236 in
  let? maximum_tables := u32_at bytes 240 in
  let? maximum_component_resources := u32_at bytes 244 in
  let? maximum_accepted_console_calls := u32_at bytes 248 in
  let? maximum_console_bytes_per_call := u32_at bytes 252 in
  let? signing_key_id := array_at 16 bytes 264 in
  let value := mkAdmission component_id contract_major contract_minor contract_patch
    component_profile portable_artifact_length target_executable_length portable_artifact_sha256
    target_executable_sha256 wit_package_sha256 execution_profile_sha256 build_evidence_sha256
    maximum_linear_memory_bytes maximum_execution_stack_bytes maximum_deterministic_fuel
    maximum_component_instances maximum_linear_memories maximum_tables
    maximum_component_resources maximum_accepted_console_calls maximum_console_bytes_per_call
    signing_key_id in
  let? scheme := u32_at bytes 256 in
  if negb (scheme =? 1) then Err EField else
  let? signature_size := u32_at bytes 260 in
  if negb (signature_size =? SIGNATURE_BYTES) then Err EField else
  let? _ := admission_validate value in
  Ok value.

(** ** Execution profile *)

Record ExecutionProfileV1 := mkExecution {
  ep_target_architecture : Z;
  ep_target_environment : Z;
  ep_runtime_family : Z;
  ep_runtime_version : Z * Z * Z;
  ep_compiler_family : Z;
  ep_compiler_version : Z * Z * Z;
  ep_component_profile : Z;
  ep_code_publication_mode : Z;
  ep_trap_mode : Z;
  ep_memory_mode : Z;
  ep_core_wasm_features : Z;
  ep_component_model_features : Z;
  ep_cpu_features : Z;
  ep_target_triple_length : Z;
  ep_runtime_configuration_length : Z;
  ep_compiler_configuration_length : Z;
  ep_target_triple_sha256 : list Z;
  ep_runtime_configuration_sha256 : list Z;
  ep_compiler_configuration_sha256 : list Z
}.

Definition version_is (v : Z * Z * Z) (a b c : Z) : bool :=
  (fst (fst v) =? a) && (snd (fst v) =? b) && (snd v =? c).

Definition execution_validate (v : ExecutionProfileV1) : AdmissionResult unit :=
  if negb (ep_target_architecture v =? 1)
     || negb (ep_target_environment v =? 2)
     || negb (ep_runtime_family v =? 1)
     || negb (version_is (ep_runtime_version v) 48 0 1)
     || negb (ep_compiler_family v =? 1)
     || negb (version_is (ep_compiler_version v) 48 0 1)
     || negb (ep_component_profile v =? 0)
     || negb (ep_code_publication_mode v =? 0)
     || negb (ep_trap_mode v =? 0)
     || negb (ep_memory_mode v =? 0)
     || negb (ep_core_wasm_features v =? 1)
     || negb (ep_component_model_features v =? 1)
     || negb (ep_cpu_features v =? 0)
     || negb (within 1 96 (ep_target_triple_length v))
     || negb (within 1 4096 (ep_runtime_configuration_length v))
     || negb (within 1 4096 (ep_compiler_configuration_length v))
     || is_zero (ep_target_triple_sha256 v)
     || is_zero (ep_runtime_configuration_sha256 v)
     || is_zero (ep_compiler_configuration_sha256 v)
  then Err EField else Ok tt.

Definition execution_parse (bytes : list Z) : AdmissionResult ExecutionProfileV1 :=
  let? _ := require_size bytes EXECUTION_PROFILE_BYTES in
  let? schema := u32_at bytes 0 in
  if negb (schema =? 1) then Err ESchema else
  let? size := u32_at bytes 4 in
  if negb (size =? EXECUTION_PROFILE_BYTES) then Err ESchema else
  let? reserved := u32_at bytes 100 in
  if negb (reserved =? 0) || negb (is_zero (window bytes 200 24)) then Err EReserved else
  let? target_architecture := u32_at bytes 8 in
  let? target_environment := u32_at bytes 12 in
  let? runtime_family := u32_at bytes 16 in
  let? runtime_major := u32_at bytes 20 in
  let? runtime_minor := u32_at bytes 24 in
  let? runtime_patch := u32_at bytes 28 in
  let? compiler_family := u32_at bytes 32 in
  let? compiler_major := u32_at bytes 36 in
  let? compiler_minor := u32_at bytes 40 in
  let? compiler_patch := u32_at bytes 44 in
  let? component_profile := u32_at bytes 48 in
  let? code_publication_mode := u32_at bytes 52 in
  let? trap_mode := u32_at bytes 56 in
  let? memory_mode := u32_at bytes 60 in
  let? core_wasm_features := u64_at bytes 64 in
  let? component_model_features := u64_at bytes 72 in
  let? cpu_features := u64_at bytes 80 in
  let? target_triple_length := u32_at bytes 88 in
  let? runtime_configuration_length := u32_at bytes 92 in
  let? compiler_configuration_length := u32_at bytes 96 in
  let? target_triple_sha256 := array_at 32 bytes 104 in
  let? runtime_configuration_sha256 := array_at 32 bytes 136 in
  let? compiler_configuration_sha256 := array_at 32 bytes 168 in
  let value := mkExecution target_architecture target_environment runtime_family
    (runtime_major, runtime_minor, runtime_patch) compiler_family
    (compiler_major, compiler_minor, compiler_patch) component_profile code_publication_mode
    trap_mode memory_mode core_wasm_features component_model_features cpu_features
    target_triple_length runtime_configuration_length compiler_configuration_length
    target_triple_sha256 runtime_configuration_sha256 compiler_configuration_sha256 in
  let? _ := execution_validate value in
  Ok value.

(** ** Build evidence *)

Record BuildEvidenceV1 := mkEvidence {
  be_build_type : Z;
  be_source_revision_kind : Z;
  be_source_revision_length : Z;
  be_builder_identity_length : Z;
  be_command_transcript_length : Z;
  be_dependency_lock_length : Z;
  be_tool_version_length : Z;
  be_command_count : Z;
  be_tool_count : Z;
  be_source_revision_sha256 : list Z;
  be_builder_identity_sha256 : list Z;
  be_command_transcript_sha256 : list Z;
  be_dependency_lock_sha256 : list Z;
  be_tool_version_sha256 : list Z
}.

Definition evidence_validate (v : BuildEvidenceV1) : AdmissionResult unit :=
  if negb (be_build_type v =? 1)
     || negb (be_source_revision_kind v =? 1)
     || negb (within 1 MAX_SOURCE_MANIFEST_BYTES (be_source_revision_length v))
     || negb (within 1 128 (be_builder_identity_length v))
     || negb (within 1 4096 (be_command_transcript_length v))
     || negb (within 1 524288 (be_dependency_lock_length v))
     || negb (within 1 4096 (be_tool_version_length v))
     || (be_command_count v =? 0)
     || (be_tool_count v =? 0)
     || is_zero (be_source_revision_sha256 v)
     || is_zero (be_builder_identity_sha256 v)
     || is_zero (be_command_transcript_sha256 v)
     || is_zero (be_dependency_lock_sha256 v)
     || is_zero (be_tool_version_sha256 v)
  then Err EField else Ok tt.

Definition evidence_parse (bytes : list Z) : AdmissionResult BuildEvidenceV1 :=
  let? _ := require_size bytes BUILD_EVIDENCE_BYTES in
  let? schema := u32_at bytes 0 in
  if negb (schema =? 1) then Err ESchema else
  let? size := u32_at bytes 4 in
  if negb (size =? BUILD_EVIDENCE_BYTES) then Err ESchema else
  let? reserved := u32_at bytes 44 in
  if negb (reserved =? 0) || negb (is_zero (window bytes 208 48)) then Err EReserved else
  let? build_type := u32_at bytes 8 in
  let? source_revision_kind := u32_at bytes 12 in
  let? source_revision_length := u32_at bytes 16 in
  let? builder_identity_length := u32_at bytes 20 in
  let? command_transcript_length := u32_at bytes 24 in
  let? dependency_lock_length := u32_at bytes 28 in
  let? tool_version_length := u32_at bytes 32 in
  let? command_count := u32_at bytes 36 in
  let? tool_count := u32_at bytes 40 in
  let? source_revision_sha256 := array_at 32 bytes 48 in
  let? builder_identity_sha256 := array_at 32 bytes 80 in
  let? command_transcript_sha256 := array_at 32 bytes 112 in
  let? dependency_lock_sha256 := array_at 32 bytes 144 in
  let? tool_version_sha256 := array_at 32 bytes 176 in
  let value := mkEvidence build_type source_revision_kind source_revision_length
    builder_identity_length command_transcript_length dependency_lock_length tool_version_length
    command_count tool_count source_revision_sha256 builder_identity_sha256
    command_transcript_sha256 dependency_lock_sha256 tool_version_sha256 in
  let? _ := evidence_validate value in
  Ok value.
