(* ===== verification/AdmissionRecordsProofs.v ===== *)
(** * Component admission: the records are canonical

    An encoder for each record, and the lemmas that its parser accepts exactly
    the encodings of the valid values: no accepted byte is ignored. *)

From S2P Require Import Prelude.
From S2P Require Import Panic.
From S2P Require Import Bytes.
From S2P Require Import Text.
From S2P Require Import AdmissionRecords.

(** ** Reading inside a record *)

Lemma array_at_in n bytes off :
  0 <= off -> 0 <= n -> off + n <= len bytes -> len bytes < 2 ^ 63 ->
  array_at n bytes off = Ok (window bytes off n).
Proof.
  intros. unfold array_at, len in *. rewrite checked_add_lt by (unfold two64; lia). cbn [ok_or].
  by rewrite get_range_window by lia.
Qed.

Lemma u32_at_in bytes off :
  0 <= off -> off + 4 <= len bytes -> len bytes < 2 ^ 63 -> u32_at bytes off = Ok (le_at bytes off 4).
Proof. intros. unfold u32_at. by rewrite array_at_in by lia. Qed.

Lemma u64_at_in bytes off :
  0 <= off -> off + 8 <= len bytes -> len bytes < 2 ^ 63 -> u64_at bytes off = Ok (le_at bytes off 8).
Proof. intros. unfold u64_at. by rewrite array_at_in by lia. Qed.

(** ** A record as its consecutive fields *)

Fixpoint fields_at (off : Z) (widths : list Z) (bytes : list Z) : list (list Z) :=
  match widths with
  | [] => []
  | w :: widths' => window bytes off w :: fields_at (off + w) widths' bytes
  end.

Definition total (widths : list Z) : Z := foldr Z.add 0 widths.

Lemma window_app bytes off n m :
  0 <= off -> 0 <= n -> 0 <= m -> window bytes off n ++ window bytes (off + n) m = window bytes off (n + m).
Proof.
  intros. unfold window. rewrite !Z2Nat.inj_add by lia. rewrite <-drop_drop.
  by rewrite take_take_drop.
Qed.

Lemma fields_at_join widths : forall off bytes,
  0 <= off -> Forall (Z.le 0) widths ->
  mjoin (fields_at off widths bytes) = window bytes off (total widths) /\ 0 <= total widths.
Proof.
  induction widths as [|w ws IH]; intros off bytes Ho Hw.
  { split; [|done]. unfold window. simpl. by rewrite take_0. }
  apply Forall_cons in Hw as [Hw Hws]. destruct (IH (off + w) bytes ltac:(lia) Hws) as [Hj Ht].
  change (mjoin (fields_at off (w :: ws) bytes))
    with (window bytes off w ++ mjoin (fields_at (off + w) ws bytes)).
  cbn [total foldr]. fold (total ws). rewrite Hj, window_app by lia. split; [done|lia].
Qed.

(** The consecutive fields put together are the record. *)
Lemma fields_join widths bytes :
  Forall (Z.le 0) widths -> total widths = len bytes -> mjoin (fields_at 0 widths bytes) = bytes.
Proof.
  intros Hw Ht. destruct (fields_at_join widths 0 bytes ltac:(lia) Hw) as [-> _].
  unfold window. rewrite Ht. unfold len. rewrite Nat2Z.id. cbn [Z.to_nat]. rewrite drop_0.
  by rewrite take_ge.
Qed.

Lemma window_skip pre rest off n :
  len pre <= off -> window (pre ++ rest) off n = window rest (off - len pre) n.
Proof. intros Ho. unfold len in *. unfold window. rewrite drop_app_ge by lia. do 2 f_equal. lia. Qed.

Lemma fields_skip widths : forall pre rest off,
  len pre <= off -> Forall (Z.le 0) widths ->
  fields_at off widths (pre ++ rest) = fields_at (off - len pre) widths rest.
Proof.
  induction widths as [|w ws IH]; intros pre rest off Ho Hw; [done|].
  apply Forall_cons in Hw as [Hw Hws]. cbn [fields_at]. f_equal; [by apply window_skip|].
  rewrite IH by (done || lia). f_equal. lia.
Qed.

(** The fields of a concatenation are its parts. *)
Lemma fields_of_join parts : fields_at 0 (len <$> parts) (mjoin parts) = parts.
Proof.
  induction parts as [|p parts IH]; [done|].
  change (mjoin (p :: parts)) with (p ++ mjoin parts). rewrite fmap_cons. cbn [fields_at].
  f_equal.
  - unfold window, len. rewrite Nat2Z.id. cbn [Z.to_nat]. rewrite drop_0. by rewrite take_app_length.
  - rewrite fields_skip; [|lia|apply Forall_fmap, Forall_forall; intros q _; unfold compose, len; lia].
    rewrite Z.add_0_l, Z.sub_diag. exact IH.
Qed.

(** ** One field *)

(** A field that holds the little-endian bytes of [x]. *)
Lemma window_le bytes off k :
  Forall byte_ok bytes -> 0 <= off -> off + Z.of_nat k <= len bytes ->
  window bytes off (Z.of_nat k) = to_le_bytes k (le_at bytes off (Z.of_nat k)).
Proof.
  intros Hb Ho Hl. unfold le_at.
  rewrite <-(to_from_le_bytes (window bytes off (Z.of_nat k))) at 1 by (by apply window_ok).
  f_equal. unfold len in Hl. rewrite length_window by lia. lia.
Qed.

Lemma le_at_field bytes off k x :
  window bytes off (Z.of_nat k) = to_le_bytes k x -> 0 <= x < 256 ^ Z.of_nat k ->
  le_at bytes off (Z.of_nat k) = x.
Proof. intros Hw Hx. unfold le_at. rewrite Hw. by apply from_to_le_bytes. Qed.

Lemma is_zero_replicate l : is_zero l = true <-> l = replicate (length l) 0.
Proof.
  unfold is_zero. induction l as [|b l IH]; [done|]. cbn [forallb length replicate].
  rewrite andb_true_iff, Z.eqb_eq, IH. split; [intros [<- <-]; done|]. intros [= -> ?]. done.
Qed.

(** Sizes of the machine types. *)
Definition u32_ok (x : Z) : Prop := 0 <= x < 4294967296.
Definition u64_ok (x : Z) : Prop := 0 <= x < 18446744073709551616.
Definition bytes_ok (n : Z) (l : list Z) : Prop := Forall byte_ok l /\ len l = n.

Lemma le_at_u32 bytes off : Forall byte_ok bytes -> u32_ok (le_at bytes off 4).
Proof. intros Hb. exact (le_at_bound bytes off 4 Hb ltac:(lia)). Qed.

Lemma le_at_u64 bytes off : Forall byte_ok bytes -> u64_ok (le_at bytes off 8).
Proof. intros Hb. exact (le_at_bound bytes off 8 Hb ltac:(lia)). Qed.

Lemma window_bytes_ok bytes off n :
  Forall byte_ok bytes -> 0 <= off -> 0 <= n -> off + n <= len bytes -> bytes_ok n (window bytes off n).
Proof.
  intros Hb Ho Hn Hl. split; [by apply window_ok|]. unfold len in *. rewrite length_window by lia. lia.
Qed.

(** ** Tactics shared by the three records *)

Ltac read_all Hlen Hl63 :=
  repeat (first [rewrite u32_at_in by (rewrite ?Hlen; (exact Hl63 || lia))
                |rewrite u64_at_in by (rewrite ?Hlen; (exact Hl63 || lia))
                |rewrite array_at_in by (rewrite ?Hlen; (exact Hl63 || lia))]).

Lemma field_eq bytes off k x :
  Forall byte_ok bytes -> 0 <= off -> off + Z.of_nat k <= len bytes ->
  le_at bytes off (Z.of_nat k) = x -> window bytes off (Z.of_nat k) = to_le_bytes k x.
Proof. intros Hb Ho Hl <-. by apply window_le. Qed.

Lemma cons_eq {A} (x y : A) l k : x = y -> l = k -> x :: l = y :: k.
Proof. intros -> ->. done. Qed.

(** Each field of the encoding is the window the parser read it from. *)
Ltac field_is_window Hb Hlen :=
  lazymatch goal with
  | |- window ?bytes ?off ?n = to_le_bytes ?k ?x =>
      apply (field_eq bytes off k x Hb); [lia|rewrite Hlen; simpl; lia|first [assumption|reflexivity]]
  | |- window _ _ _ = _ => first [assumption|reflexivity]
  end.

Ltac fields_are_windows Hb Hlen :=
  cbn [fields_at Z.add Pos.add Pos.succ Pos.add_carry];
  repeat (apply cons_eq; [field_is_window Hb Hlen|]); reflexivity.

Ltac typed_field Hb Hlen :=
  first [apply (le_at_u32 _ _ Hb)|apply (le_at_u64 _ _ Hb)
        |apply (window_bytes_ok _ _ _ Hb); [lia|lia|rewrite Hlen; lia]].

Lemma len_join parts : len (mjoin parts) = total (len <$> parts).
Proof.
  induction parts as [|p parts IH]; [done|]. change (mjoin (p :: parts)) with (p ++ mjoin parts).
  rewrite fmap_cons. cbn [total foldr]. fold (total (len <$> parts)). rewrite <-IH.
  unfold len. rewrite length_app. lia.
Qed.

(** The parts of an encoding sit at their offsets. *)
Lemma encode_fields widths parts bytes :
  len <$> parts = widths -> bytes = mjoin parts ->
  len bytes = total widths /\ fields_at 0 widths bytes = parts.
Proof. intros <- ->. split; [apply len_join|apply fields_of_join]. Qed.

Lemma cons_inj {A} (x y : A) l k : x :: l = y :: k -> x = y /\ l = k.
Proof. by intros [= -> ->]. Qed.

(** The widths of the parts of a well-typed value. *)
Ltac field_widths :=
  unfold bytes_ok in *; cbn [fmap list_fmap]; split_hyps;
  repeat match goal with H : len ?l = _ |- context [len ?l] => rewrite H end;
  unfold len; rewrite ?length_to_le_bytes; reflexivity.

Ltac split_fields Hf :=
  cbn [fields_at Z.add Pos.add Pos.succ Pos.add_carry] in Hf;
  repeat (apply cons_inj in Hf; let E := fresh "Ef" in destruct Hf as [E Hf]).

(** A field read back at its offset. *)
Ltac field_value :=
  lazymatch goal with
  | |- le_at ?b ?off ?n = ?x =>
      first [apply (le_at_field b off 4)|apply (le_at_field b off 8)]; [eassumption|first [assumption|simpl; lia]]
  | |- ?x = le_at ?b ?off ?n =>
      symmetry; first [apply (le_at_field b off 4)|apply (le_at_field b off 8)]; [eassumption|first [assumption|simpl; lia]]
  | |- _ = window _ _ _ => symmetry; assumption
  end.

(** ** Component admission *)

Record admission_typed (v : ComponentAdmissionV1) : Prop := {
  at_component_id : u64_ok (ca_component_id v);
  at_contract_major : u32_ok (ca_contract_major v);
  at_contract_minor : u32_ok (ca_contract_minor v);
  at_contract_patch : u32_ok (ca_contract_patch v);
  at_component_profile : u32_ok (ca_component_profile v);
  at_portable_length : u64_ok (ca_portable_artifact_length v);
  at_target_length : u64_ok (ca_target_executable_length v);
  at_portable : bytes_ok 32 (ca_portable_artifact_sha256 v);
  at_target : bytes_ok 32 (ca_target_executable_sha256 v);
  at_wit : bytes_ok 32 (ca_wit_package_sha256 v);
  at_execution : bytes_ok 32 (ca_execution_profile_sha256 v);
  at_evidence : bytes_ok 32 (ca_build_evidence_sha256 v);
  at_memory : u64_ok (ca_maximum_linear_memory_bytes v);
  at_stack : u64_ok (ca_maximum_execution_stack_bytes v);
  at_fuel : u64_ok (ca_maximum_deterministic_fuel v);
  at_instances : u32_ok (ca_maximum_component_instances v);
  at_memories : u32_ok (ca_maximum_linear_memories v);
  at_tables : u32_ok (ca_maximum_tables v);
  at_resources : u32_ok (ca_maximum_component_resources v);
  at_calls : u32_ok (ca_maximum_accepted_console_calls v);
  at_console_bytes : u32_ok (ca_maximum_console_bytes_per_call v);
  at_key : bytes_ok 16 (ca_signing_key_id v)
}.

Definition admission_fields (v : ComponentAdmissionV1) : list (list Z) :=
  [to_le_bytes 4 1; to_le_bytes 4 ADMISSION_BYTES; to_le_bytes 8 (ca_component_id v);
   to_le_bytes 4 (ca_contract_major v); to_le_bytes 4 (ca_contract_minor v);
   to_le_bytes 4 (ca_contract_patch v); to_le_bytes 4 (ca_component_profile v);
   to_le_bytes 8 (ca_portable_artifact_length v); to_le_bytes 8 (ca_target_executable_length v);
   ca_portable_artifact_sha256 v; ca_target_executable_sha256 v; ca_wit_package_sha256 v;
   ca_execution_profile_sha256 v; ca_build_evidence_sha256 v;
   to_le_bytes 8 (ca_maximum_linear_memory_bytes v);
   to_le_bytes 8 (ca_maximum_execution_stack_bytes v);
   to_le_bytes 8 (ca_maximum_deterministic_fuel v);
   to_le_bytes 4 (ca_maximum_component_instances v);
   to_le_bytes 4 (ca_maximum_linear_memories v); to_le_bytes 4 (ca_maximum_tables v);
   to_le_bytes 4 (ca_maximum_component_resources v);
   to_le_bytes 4 (ca_maximum_accepted_console_calls v);
   to_le_bytes 4 (ca_maximum_console_bytes_per_call v);
   to_le_bytes 4 1; to_le_bytes 4 SIGNATURE_BYTES; ca_signing_key_id v; replicate 8 0].

Definition admission_encode (v : ComponentAdmissionV1) : list Z := mjoin (admission_fields v).

Definition admission_widths : list Z :=
  [4; 4; 8; 4; 4; 4; 4; 8; 8; 32; 32; 32; 32; 32; 8; 8; 8; 4; 4; 4; 4; 4; 4; 4; 4; 16; 8].

(** The record at its documented offsets. *)
Definition admission_at (bytes : list Z) : ComponentAdmissionV1 :=
  mkAdmission (le_at bytes 8 8) (le_at bytes 16 4) (le_at bytes 20 4) (le_at bytes 24 4)
    (le_at bytes 28 4) (le_at bytes 32 8) (le_at bytes 40 8) (window bytes 48 32)
    (window bytes 80 32) (window bytes 112 32) (window bytes 144 32) (window bytes 176 32)
    (le_at bytes 208 8) (le_at bytes 216 8) (le_at bytes 224 8) (le_at bytes 232 4)
    (le_at bytes 236 4) (le_at bytes 240 4) (le_at bytes 244 4) (le_at bytes 248 4)
    (le_at bytes 252 4) (window bytes 264 16).

Ltac admission_proj :=
  cbn [ca_component_id ca_contract_major ca_contract_minor ca_contract_patch ca_component_profile
    ca_portable_artifact_length ca_target_executable_length ca_portable_artifact_sha256
    ca_target_executable_sha256 ca_wit_package_sha256 ca_execution_profile_sha256
    ca_build_evidence_sha256 ca_maximum_linear_memory_bytes ca_maximum_execution_stack_bytes
    ca_maximum_deterministic_fuel ca_maximum_component_instances ca_maximum_linear_memories
    ca_maximum_tables ca_maximum_component_resources ca_maximum_accepted_console_calls
    ca_maximum_console_bytes_per_call ca_signing_key_id] in *.

Lemma admission_parse_Ok bytes v :
  slice_ok bytes ->
  admission_parse bytes = Ok v <->
  len bytes = 288 /\ le_at bytes 0 4 = 1 /\ le_at bytes 4 4 = 288 /\
  window bytes 280 8 = replicate 8 0 /\ le_at bytes 256 4 = 1 /\ le_at bytes 260 4 = 64 /\
  v = admission_at bytes /\ admission_validate v = Ok tt.
Proof.
  intros [Hb Hl63]. unfold admission_parse, require_size, ADMISSION_BYTES, SIGNATURE_BYTES.
  destruct (Z.eqb_spec (len bytes) 288) as [Hlen|Hlen]; cbn [negb]; [|by split; [|intros (? & _)]].
  fold (len bytes) in Hl63. read_all Hlen Hl63. fold (admission_at bytes).
  assert (Hz : is_zero (window bytes 280 8) = true <-> window bytes 280 8 = replicate 8 0).
  { rewrite is_zero_replicate. unfold len in Hlen. by rewrite length_window by lia. }
  destruct (Z.eqb_spec (le_at bytes 0 4) 1); cbn [negb]; [|naive_solver].
  destruct (Z.eqb_spec (le_at bytes 4 4) 288); cbn [negb]; [|naive_solver].
  destruct (is_zero _) eqn:Ez; cbn [negb]; [|split; [done|]; intros (_ & _ & _ & H & _); by apply Hz in H].
  destruct (Z.eqb_spec (le_at bytes 256 4) 1); cbn [negb]; [|naive_solver].
  destruct (Z.eqb_spec (le_at bytes 260 4) 64); cbn [negb]; [|naive_solver].
  assert (window bytes 280 8 = replicate 8 0) by by apply Hz.
  destruct (admission_validate (admission_at bytes)) as [[]|] eqn:Ev.
  - split; [intros [= <-]; done|intros (_ & _ & _ & _ & _ & _ & -> & _); done].
  - split; [done|]. intros (_ & _ & _ & _ & _ & _ & -> & H'). congruence.
Qed.

Lemma admission_exact bytes v :
  slice_ok bytes ->
  admission_parse bytes = Ok v <->
  admission_typed v /\ admission_validate v = Ok tt /\ bytes = admission_encode v.
Proof.
  intros Hs. rewrite admission_parse_Ok by done. pose proof (proj1 Hs) as Hb. split.
  - intros (Hlen & H0 & H4 & Hz & H256 & H260 & -> & Hv). split_and!; [|done|].
    + constructor; cbn; typed_field Hb Hlen.
    + rewrite <-(fields_join admission_widths bytes) at 1; [|repeat constructor; lia|by rewrite Hlen].
      unfold admission_encode. f_equal. unfold admission_widths, admission_fields, admission_at.
      unfold ADMISSION_BYTES, SIGNATURE_BYTES.
      admission_proj.
      fields_are_windows Hb Hlen.
  - intros (Ht & Hv & Hbytes).
    destruct (encode_fields admission_widths (admission_fields v) bytes) as [Hlen Hf];
      [unfold admission_fields, admission_widths; destruct Ht; field_widths|done|]. change (total admission_widths) with 288 in Hlen.
    destruct v, Ht. unfold admission_widths, admission_fields, ADMISSION_BYTES, SIGNATURE_BYTES in Hf.
    split_fields Hf. admission_proj. unfold admission_at.
    split_and!; try field_value; try assumption. f_equal; field_value.
Qed.

(** ** Execution profile *)

Definition version_ok (v : Z * Z * Z) : Prop :=
  u32_ok (fst (fst v)) /\ u32_ok (snd (fst v)) /\ u32_ok (snd v).

Record execution_typed (v : ExecutionProfileV1) : Prop := {
  et_architecture : u32_ok (ep_target_architecture v);
  et_environment : u32_ok (ep_target_environment v);
  et_runtime_family : u32_ok (ep_runtime_family v);
  et_runtime_version : version_ok (ep_runtime_version v);
  et_compiler_family : u32_ok (ep_compiler_family v);
  et_compiler_version : version_ok (ep_compiler_version v);
  et_component_profile : u32_ok (ep_component_profile v);
  et_code_publication_mode : u32_ok (ep_code_publication_mode v);
  et_trap_mode : u32_ok (ep_trap_mode v);
  et_memory_mode : u32_ok (ep_memory_mode v);
  et_core_wasm_features : u64_ok (ep_core_wasm_features v);
  et_component_model_features : u64_ok (ep_component_model_features v);
  et_cpu_features : u64_ok (ep_cpu_features v);
  et_triple_length : u32_ok (ep_target_triple_length v);
  et_runtime_length : u32_ok (ep_runtime_configuration_length v);
  et_compiler_length : u32_ok (ep_compiler_configuration_length v);
  et_triple : bytes_ok 32 (ep_target_triple_sha256 v);
  et_runtime : bytes_ok 32 (ep_runtime_configuration_sha256 v);
  et_compiler : bytes_ok 32 (ep_compiler_configuration_sha256 v)
}.

Definition execution_fields (v : ExecutionProfileV1) : list (list Z) :=
  [to_le_bytes 4 1; to_le_bytes 4 EXECUTION_PROFILE_BYTES;
   to_le_bytes 4 (ep_target_architecture v); to_le_bytes 4 (ep_target_environment v);
   to_le_bytes 4 (ep_runtime_family v); to_le_bytes 4 (fst (fst (ep_runtime_version v)));
   to_le_bytes 4 (snd (fst (ep_runtime_version v))); to_le_bytes 4 (snd (ep_runtime_version v));
   to_le_bytes 4 (ep_compiler_family v); to_le_bytes 4 (fst (fst (ep_compiler_version v)));
   to_le_bytes 4 (snd (fst (ep_compiler_version v))); to_le_bytes 4 (snd (ep_compiler_version v));
   to_le_bytes 4 (ep_component_profile v); to_le_bytes 4 (ep_code_publication_mode v);
   to_le_bytes 4 (ep_trap_mode v); to_le_bytes 4 (ep_memory_mode v);
   to_le_bytes 8 (ep_core_wasm_features v); to_le_bytes 8 (ep_component_model_features v);
   to_le_bytes 8 (ep_cpu_features v); to_le_bytes 4 (ep_target_triple_length v);
   to_le_bytes 4 (ep_runtime_configuration_length v);
   to_le_bytes 4 (ep_compiler_configuration_length v); to_le_bytes 4 0;
   ep_target_triple_sha256 v; ep_runtime_configuration_sha256 v;
   ep_compiler_configuration_sha256 v; replicate 24 0].

Definition execution_encode (v : ExecutionProfileV1) : list Z := mjoin (execution_fields v).

Definition execution_widths : list Z :=
  [4; 4; 4; 4; 4; 4; 4; 4; 4; 4; 4; 4; 4; 4; 4; 4; 8; 8; 8; 4; 4; 4; 4; 32; 32; 32; 24].

Definition execution_at (bytes : list Z) : ExecutionProfileV1 :=
  mkExecution (le_at bytes 8 4) (le_at bytes 12 4) (le_at bytes 16 4)
    (le_at bytes 20 4, le_at bytes 24 4, le_at bytes 28 4) (le_at bytes 32 4)
    (le_at bytes 36 4, le_at bytes 40 4, le_at bytes 44 4) (le_at bytes 48 4) (le_at bytes 52 4)
    (le_at bytes 56 4) (le_at bytes 60 4) (le_at bytes 64 8) (le_at bytes 72 8) (le_at bytes 80 8)
    (le_at bytes 88 4) (le_at bytes 92 4) (le_at bytes 96 4) (window bytes 104 32)
    (window bytes 136 32) (window bytes 168 32).

Ltac execution_proj :=
  cbn [ep_target_architecture ep_target_environment ep_runtime_family ep_runtime_version
    ep_compiler_family ep_compiler_version ep_component_profile ep_code_publication_mode
    ep_trap_mode ep_memory_mode ep_core_wasm_features ep_component_model_features ep_cpu_features
    ep_target_triple_length ep_runtime_configuration_length ep_compiler_configuration_length
    ep_target_triple_sha256 ep_runtime_configuration_sha256 ep_compiler_configuration_sha256
    fst snd] in *.

Lemma execution_parse_Ok bytes v :
  slice_ok bytes ->
  execution_parse bytes = Ok v <->
  len bytes = 224 /\ le_at bytes 0 4 = 1 /\ le_at bytes 4 4 = 224 /\ le_at bytes 100 4 = 0 /\
  window bytes 200 24 = replicate 24 0 /\ v = execution_at bytes /\ execution_validate v = Ok tt.
Proof.
  intros [Hb Hl63]. unfold execution_parse, require_size, EXECUTION_PROFILE_BYTES.
  destruct (Z.eqb_spec (len bytes) 224) as [Hlen|Hlen]; cbn [negb]; [|by split; [|intros (? & _)]].
  fold (len bytes) in Hl63. read_all Hlen Hl63. fold (execution_at bytes).
  assert (Hz : is_zero (window bytes 200 24) = true <-> window bytes 200 24 = replicate 24 0).
  { rewrite is_zero_replicate. unfold len in Hlen. by rewrite length_window by lia. }
  destruct (Z.eqb_spec (le_at bytes 0 4) 1); cbn [negb]; [|naive_solver].
  destruct (Z.eqb_spec (le_at bytes 4 4) 224); cbn [negb]; [|naive_solver].
  destruct (Z.eqb_spec (le_at bytes 100 4) 0); cbn [negb orb]; [|naive_solver].
  destruct (is_zero _) eqn:Ez; cbn [negb];
    [|split; [done|]; intros (_ & _ & _ & _ & H & _); by apply Hz in H].
  assert (window bytes 200 24 = replicate 24 0) by by apply Hz.
  destruct (execution_validate (execution_at bytes)) as [[]|] eqn:Ev.
  - split; [intros [= <-]; done|intros (_ & _ & _ & _ & _ & -> & _); done].
  - split; [done|]. intros (_ & _ & _ & _ & _ & -> & H'). congruence.
Qed.

Lemma execution_exact bytes v :
  slice_ok bytes ->
  execution_parse bytes = Ok v <->
  execution_typed v /\ execution_validate v = Ok tt /\ bytes = execution_encode v.
Proof.
  intros Hs. rewrite execution_parse_Ok by done. pose proof (proj1 Hs) as Hb. split.
  - intros (Hlen & H0 & H4 & H100 & Hz & -> & Hv). split_and!; [|done|].
    + constructor; execution_proj; unfold version_ok; execution_proj; unfold execution_at;
        execution_proj; split_and?; typed_field Hb Hlen.
    + rewrite <-(fields_join execution_widths bytes) at 1; [|repeat constructor; lia|by rewrite Hlen].
      unfold execution_encode. f_equal. unfold execution_widths, execution_fields, execution_at.
      unfold EXECUTION_PROFILE_BYTES. execution_proj. fields_are_windows Hb Hlen.
  - intros (Ht & Hv & Hbytes).
    destruct (encode_fields execution_widths (execution_fields v) bytes) as [Hlen Hf];
      [unfold execution_fields, execution_widths; destruct Ht; field_widths|done|].
    change (total execution_widths) with 224 in Hlen.
    destruct v as [? ? ? [[? ?] ?] ? [[? ?] ?] ? ? ? ? ? ? ? ? ? ? ? ? ?], Ht.
    unfold execution_widths, execution_fields, EXECUTION_PROFILE_BYTES in Hf.
    split_fields Hf. execution_proj. unfold version_ok, execution_at in *. execution_proj. split_hyps.
    split_and!; try field_value; try assumption. repeat f_equal; field_value.
Qed.

(** ** Build evidence *)

Record evidence_typed (v : BuildEvidenceV1) : Prop := {
  bt_build_type : u32_ok (be_build_type v);
  bt_kind : u32_ok (be_source_revision_kind v);
  bt_source_length : u32_ok (be_source_revision_length v);
  bt_builder_length : u32_ok (be_builder_identity_length v);
  bt_transcript_length : u32_ok (be_command_transcript_length v);
  bt_lock_length : u32_ok (be_dependency_lock_length v);
  bt_tool_length : u32_ok (be_tool_version_length v);
  bt_commands : u32_ok (be_command_count v);
  bt_tools : u32_ok (be_tool_count v);
  bt_source : bytes_ok 32 (be_source_revision_sha256 v);
  bt_builder : bytes_ok 32 (be_builder_identity_sha256 v);
  bt_transcript : bytes_ok 32 (be_command_transcript_sha256 v);
  bt_lock : bytes_ok 32 (be_dependency_lock_sha256 v);
  bt_tool : bytes_ok 32 (be_tool_version_sha256 v)
}.

Definition evidence_fields (v : BuildEvidenceV1) : list (list Z) :=
  [to_le_bytes 4 1; to_le_bytes 4 BUILD_EVIDENCE_BYTES; to_le_bytes 4 (be_build_type v);
   to_le_bytes 4 (be_source_revision_kind v); to_le_bytes 4 (be_source_revision_length v);
   to_le_bytes 4 (be_builder_identity_length v); to_le_bytes 4 (be_command_transcript_length v);
   to_le_bytes 4 (be_dependency_lock_length v); to_le_bytes 4 (be_tool_version_length v);
   to_le_bytes 4 (be_command_count v); to_le_bytes 4 (be_tool_count v); to_le_bytes 4 0;
   be_source_revision_sha256 v; be_builder_identity_sha256 v; be_command_transcript_sha256 v;
   be_dependency_lock_sha256 v; be_tool_version_sha256 v; replicate 48 0].

Definition evidence_encode (v : BuildEvidenceV1) : list Z := mjoin (evidence_fields v).

Definition evidence_widths : list Z :=
  [4; 4; 4; 4; 4; 4; 4; 4; 4; 4; 4; 4; 32; 32; 32; 32; 32; 48].

Definition evidence_at (bytes : list Z) : BuildEvidenceV1 :=
  mkEvidence (le_at bytes 8 4) (le_at bytes 12 4) (le_at bytes 16 4) (le_at bytes 20 4)
    (le_at bytes 24 4) (le_at bytes 28 4) (le_at bytes 32 4) (le_at bytes 36 4) (le_at bytes 40 4)
    (window bytes 48 32) (window bytes 80 32) (window bytes 112 32) (window bytes 144 32)
    (window bytes 176 32).

Ltac evidence_proj :=
  cbn [be_build_type be_source_revision_kind be_source_revision_length be_builder_identity_length
    be_command_transcript_length be_dependency_lock_length be_tool_version_length be_command_count
    be_tool_count be_source_revision_sha256 be_builder_identity_sha256
    be_command_transcript_sha256 be_dependency_lock_sha256 be_tool_version_sha256] in *.

Lemma evidence_parse_Ok bytes v :
  slice_ok bytes ->
  evidence_parse bytes = Ok v <->
  len bytes = 256 /\ le_at bytes 0 4 = 1 /\ le_at bytes 4 4 = 256 /\ le_at bytes 44 4 = 0 /\
  window bytes 208 48 = replicate 48 0 /\ v = evidence_at bytes /\ evidence_validate v = Ok tt.
Proof.
  intros [Hb Hl63]. unfold evidence_parse, require_size, BUILD_EVIDENCE_BYTES.
  destruct (Z.eqb_spec (len bytes) 256) as [Hlen|Hlen]; cbn [negb]; [|by split; [|intros (? & _)]].
  fold (len bytes) in Hl63. read_all Hlen Hl63. fold (evidence_at bytes).
  assert (Hz : is_zero (window bytes 208 48) = true <-> window bytes 208 48 = replicate 48 0).
  { rewrite is_zero_replicate. unfold len in Hlen. by rewrite length_window by lia. }
  destruct (Z.eqb_spec (le_at bytes 0 4) 1); cbn [negb]; [|naive_solver].
  destruct (Z.eqb_spec (le_at bytes 4 4) 256); cbn [negb]; [|naive_solver].
  destruct (Z.eqb_spec (le_at bytes 44 4) 0); cbn [negb orb]; [|naive_solver].
  destruct (is_zero _) eqn:Ez; cbn [negb];
    [|split; [done|]; intros (_ & _ & _ & _ & H & _); by apply Hz in H].
  assert (window bytes 208 48 = replicate 48 0) by by apply Hz.
  destruct (evidence_validate (evidence_at bytes)) as [[]|] eqn:Ev.
  - split; [intros [= <-]; done|intros (_ & _ & _ & _ & _ & -> & _); done].
  - split; [done|]. intros (_ & _ & _ & _ & _ & -> & H'). congruence.
Qed.

Lemma evidence_exact bytes v :
  slice_ok bytes ->
  evidence_parse bytes = Ok v <->
  evidence_typed v /\ evidence_validate v = Ok tt /\ bytes = evidence_encode v.
Proof.
  intros Hs. rewrite evidence_parse_Ok by done. pose proof (proj1 Hs) as Hb. split.
  - intros (Hlen & H0 & H4 & H44 & Hz & -> & Hv). split_and!; [|done|].
    + constructor; cbn; typed_field Hb Hlen.
    + rewrite <-(fields_join evidence_widths bytes) at 1; [|repeat constructor; lia|by rewrite Hlen].
      unfold evidence_encode. f_equal. unfold evidence_widths, evidence_fields, evidence_at.
      unfold BUILD_EVIDENCE_BYTES. evidence_proj. fields_are_windows Hb Hlen.
  - intros (Ht & Hv & Hbytes).
    destruct (encode_fields evidence_widths (evidence_fields v) bytes) as [Hlen Hf];
      [unfold evidence_fields, evidence_widths; destruct Ht; field_widths|done|].
    change (total evidence_widths) with 256 in Hlen.
    destruct v, Ht. unfold evidence_widths, evidence_fields, BUILD_EVIDENCE_BYTES in Hf.
    split_fields Hf. evidence_proj. unfold evidence_at.
    split_and!; try field_value; try assumption. f_equal; field_value.
Qed.

(** ** What valid fields are *)

(** A digest or key identifier that is set. *)
Definition nonzero (digest : list Z) : Prop := Exists (fun b => b <> 0) digest.

Lemma is_zero_false digest : is_zero digest = false <-> nonzero digest.
Proof.
  unfold is_zero, nonzero. induction digest as [|b digest IH]; cbn; [by rewrite Exists_nil|].
  rewrite Exists_cons, <-IH, andb_false_iff. destruct b; naive_solver lia.
Qed.

(** Contract 1.0.0 and profile 0; a component within the limit; a digest of the
    executable exactly when there is one; every limit set; one console call of
    64 bytes. *)
Record admission_valid (v : ComponentAdmissionV1) : Prop := mk_admission_valid {
  af_id : ca_component_id v <> 0;
  af_contract : ca_contract_major v = 1 /\ ca_contract_minor v = 0 /\ ca_contract_patch v = 0;
  af_profile : ca_component_profile v = 0;
  af_component : ca_portable_artifact_length v <> 0 /\ ca_portable_artifact_length v <= 1048576;
  af_executable : ca_target_executable_length v <> 0 <-> nonzero (ca_target_executable_sha256 v);
  af_digests : nonzero (ca_portable_artifact_sha256 v) /\ nonzero (ca_wit_package_sha256 v) /\
               nonzero (ca_execution_profile_sha256 v) /\ nonzero (ca_build_evidence_sha256 v);
  af_limits : ca_maximum_linear_memory_bytes v <> 0 /\ ca_maximum_execution_stack_bytes v <> 0 /\
              ca_maximum_deterministic_fuel v <> 0 /\ ca_maximum_component_instances v <> 0 /\
              ca_maximum_linear_memories v <> 0;
  af_console : ca_maximum_accepted_console_calls v = 1 /\ ca_maximum_console_bytes_per_call v = 64;
  af_key : nonzero (ca_signing_key_id v)
}.

(** x86-64, environment 2, runtime and compiler family 1 at version 48.0.1, the
    inspection-only modes, and documents within their limits. *)
Record execution_valid (v : ExecutionProfileV1) : Prop := mk_execution_valid {
  xf_target : ep_target_architecture v = 1 /\ ep_target_environment v = 2;
  xf_runtime : ep_runtime_family v = 1 /\ ep_runtime_version v = (48, 0, 1);
  xf_compiler : ep_compiler_family v = 1 /\ ep_compiler_version v = (48, 0, 1);
  xf_modes : ep_component_profile v = 0 /\ ep_code_publication_mode v = 0 /\ ep_trap_mode v = 0 /\ ep_memory_mode v = 0;
  xf_features : ep_core_wasm_features v = 1 /\ ep_component_model_features v = 1 /\ ep_cpu_features v = 0;
  xf_triple : 1 <= ep_target_triple_length v <= 96 /\ nonzero (ep_target_triple_sha256 v);
  xf_runtime_document : 1 <= ep_runtime_configuration_length v <= 4096 /\ nonzero (ep_runtime_configuration_sha256 v);
  xf_compiler_document : 1 <= ep_compiler_configuration_length v <= 4096 /\ nonzero (ep_compiler_configuration_sha256 v)
}.

Record evidence_valid (v : BuildEvidenceV1) : Prop := mk_evidence_valid {
  bf_kinds : be_build_type v = 1 /\ be_source_revision_kind v = 1;
  bf_source : 1 <= be_source_revision_length v <= 65536 /\ nonzero (be_source_revision_sha256 v);
  bf_builder : 1 <= be_builder_identity_length v <= 128 /\ nonzero (be_builder_identity_sha256 v);
  bf_transcript : 1 <= be_command_transcript_length v <= 4096 /\ nonzero (be_command_transcript_sha256 v);
  bf_lock : 1 <= be_dependency_lock_length v <= 524288 /\ nonzero (be_dependency_lock_sha256 v);
  bf_tools : 1 <= be_tool_version_length v <= 4096 /\ nonzero (be_tool_version_sha256 v);
  bf_counts : be_command_count v <> 0 /\ be_tool_count v <> 0
}.

Lemma refuse_Ok (bad : bool) (e : AdmissionError) : (if bad then Err e else Ok tt) = Ok tt <-> bad = false.
Proof. by destruct bad. Qed.

Lemma within_spec lo hi x : within lo hi x = true <-> lo <= x <= hi.
Proof. unfold within. b2p. lia. Qed.

Lemma version_is_spec v a b c : version_is v a b c = true <-> v = (a, b, c).
Proof. destruct v as [[x y] z]. unfold version_is. cbn. b2p. naive_solver. Qed.

#[local] Hint Rewrite refuse_Ok orb_false_iff negb_false_iff is_zero_false within_spec version_is_spec
  Z.eqb_eq Z.eqb_neq Z.ltb_ge : fields.

Lemma admission_validate_spec v : admission_validate v = Ok tt <-> admission_valid v.
Proof.
  unfold admission_validate. autorewrite with fields.
  assert (Hx : (if ca_target_executable_length v =? 0 then is_zero (ca_target_executable_sha256 v)
                else negb (is_zero (ca_target_executable_sha256 v))) = true <->
               (ca_target_executable_length v <> 0 <-> nonzero (ca_target_executable_sha256 v))).
  { rewrite <-is_zero_false. destruct (Z.eqb_spec (ca_target_executable_length v) 0), (is_zero _); naive_solver. }
  rewrite Hx. unfold MAX_COMPONENT_BYTES. split; [intros; split; tauto|intros []; tauto].
Qed.

Lemma execution_validate_spec v : execution_validate v = Ok tt <-> execution_valid v.
Proof. unfold execution_validate. autorewrite with fields. split; [intros; split; tauto|intros []; tauto]. Qed.

Lemma evidence_validate_spec v : evidence_validate v = Ok tt <-> evidence_valid v.
Proof.
  unfold evidence_validate. autorewrite with fields. unfold MAX_SOURCE_MANIFEST_BYTES.
  split; [intros; split; tauto|intros []; tauto].
Qed.

(** Each parser accepts exactly the encodings of the valid values. *)
Lemma admission_canonical bytes v :
  slice_ok bytes ->
  admission_parse bytes = Ok v <-> admission_typed v /\ admission_valid v /\ bytes = admission_encode v.
Proof. intros Hs. rewrite <-admission_validate_spec. by apply admission_exact. Qed.

Lemma execution_canonical bytes v :
  slice_ok bytes ->
  execution_parse bytes = Ok v <-> execution_typed v /\ execution_valid v /\ bytes = execution_encode v.
Proof. intros Hs. rewrite <-execution_validate_spec. by apply execution_exact. Qed.

Lemma evidence_canonical bytes v :
  slice_ok bytes ->
  evidence_parse bytes = Ok v <-> evidence_typed v /\ evidence_valid v /\ bytes = evidence_encode v.
Proof. intros Hs. rewrite <-evidence_validate_spec. by apply evidence_exact. Qed.
