(* ===== verification/AdmissionManifest.v ===== *)
(** * Component admission: the source manifest

    Models [SourceManifestV1::parse] and the text helpers of
    [tools/component-admission/admission/src/lib.rs]: paths, canonical decimals,
    lowercase hexadecimal, exact and valued lines. *)

From Stdlib Require Import String.
From S2P Require Import Prelude.
From S2P Require Import Bytes.
From S2P Require Import Text.
From S2P Require Import AdmissionRecords.

#[local] Open Scope string_scope.

(** ** Literals *)

Definition SCHEMA_LINE : list Z := bytes_of "schema=makopa-source-manifest-v1".
Definition REPOSITORY_LINE : list Z := bytes_of "repository=git+https://github.com/xsparc/MakopaOS".
Definition TREE_PATH_PREFIX : list Z := bytes_of "tree-path=".
Definition GIT_TREE_PREFIX : list Z := bytes_of "git-tree-sha1=".
Definition FILE_COUNT_PREFIX : list Z := bytes_of "file-count=".
Definition MODE_FILE : list Z := bytes_of "100644".
Definition MODE_EXECUTABLE : list Z := bytes_of "100755".
Definition DOT : list Z := bytes_of ".".
Definition DOT_DOT : list Z := bytes_of "..".
Definition SLASH_SLASH : list Z := bytes_of "//".

#[local] Close Scope string_scope.
#[local] Open Scope list_scope.

(** [0o100644] and [0o100755] *)
Definition FILE_MODE : Z := 33188.
Definition EXECUTABLE_MODE : Z := 33261.

(** ** Helpers *)

Definition is_path_byte (b : Z) : bool :=
  ((65 <=? b) && (b <=? 90)) || ((97 <=? b) && (b <=? 122)) || is_ascii_digit b
  || (b =? 46) || (b =? 95) || (b =? 45) || (b =? 47).

Definition validate_path (path : list Z) : AdmissionResult unit :=
  if bytes_eqb path []
     || (128 <? len path)
     || starts_with [SLASH] path
     || ends_with [SLASH] path
     || contains SLASH_SLASH path
     || contains_byte BACKSLASH path
     || existsb (fun part => bytes_eqb part [] || bytes_eqb part DOT || bytes_eqb part DOT_DOT)
          (split_on SLASH path)
     || existsb (fun b => negb (is_path_byte b)) path
  then Err EManifest else Ok tt.

Definition parse_canonical_decimal (text : list Z) : AdmissionResult Z :=
  if bytes_eqb text []
     || negb (forallb is_ascii_digit text)
     || ((1 <? len text) && starts_with [48] text)
  then Err EManifest else
  ok_or (parse_digits 0 text) EManifest.

Definition hex_nibble (byte : Z) : AdmissionResult Z :=
  if is_ascii_digit byte then Ok (byte - 48)
  else if (97 <=? byte) && (byte <=? 102) then Ok (byte - 97 + 10)
  else Err EManifest.

(** The loop over the bytes of the result: two digits each. *)
Fixpoint decode_hex_loop (n : nat) (text : list Z) : AdmissionResult (list Z) :=
  match n, text with
  | S n', h :: l :: rest =>
      let? high := hex_nibble h in
      let? low := hex_nibble l in
      let? tail := decode_hex_loop n' rest in
      Ok (Z.lor (Z.shiftl high 4) low :: tail)
  | _, _ => Ok []
  end.

Definition decode_hex_array (n : nat) (text : list Z) : AdmissionResult (list Z) :=
  if negb (len text =? Z.of_nat n * 2)
     || negb (forallb (fun b => is_ascii_digit b || ((97 <=? b) && (b <=? 102))) text)
  then Err EManifest else
  decode_hex_loop n text.

(** [HEX[nibble]] *)
Definition hex_digit (x : Z) : Z := if x <? 10 then 48 + x else 97 + (x - 10).

Fixpoint encode_hex (bytes : list Z) : list Z :=
  match bytes with
  | [] => []
  | b :: rest => hex_digit (Z.shiftr b 4) :: hex_digit (Z.land b 15) :: encode_hex rest
  end.

Definition exact_line (actual : option (list Z)) (expected : list Z) : AdmissionResult unit :=
  if negb (bool_decide (actual = Some expected)) then Err EManifest else Ok tt.

Definition value_line (actual : option (list Z)) (prefix : list Z) : AdmissionResult (list Z) :=
  match actual ≫= strip_prefix prefix with
  | None => Err EManifest
  | Some value => if bytes_eqb value [] then Err EManifest else Ok value
  end.

(** ** The manifest *)

Record SourceEntryV1 := mkEntry {
  se_mode : Z;
  se_length : Z;
  se_sha256 : list Z;
  se_path : list Z
}.

Record SourceManifestV1 := mkManifest {
  sm_tree_path : list Z;
  sm_git_tree_sha1 : list Z;
  sm_entries : list SourceEntryV1
}.

Definition parse_mode (text : list Z) : AdmissionResult Z :=
  if bytes_eqb text MODE_FILE then Ok FILE_MODE
  else if bytes_eqb text MODE_EXECUTABLE then Ok EXECUTABLE_MODE
  else Err EManifest.

(** The path must come after the prior one and not lie below it. *)
Definition path_conflict (prior : option (list Z)) (path : list Z) : bool :=
  match prior with
  | None => false
  | Some prior =>
      negb (bytes_ltb prior path)
      || match strip_prefix prior path with
         | Some suffix => starts_with [SLASH] suffix
         | None => false
         end
  end.

(** The [for] over the file lines. *)
Fixpoint parse_entries (lines : list (list Z)) (prior : option (list Z)) (aggregate : Z)
    (entries : list SourceEntryV1) : AdmissionResult (list SourceEntryV1) :=
  match lines with
  | [] => Ok entries
  | line :: rest =>
      match splitn 4 SPACE line with
      | [mode_text; length_text; digest_text; path] =>
          let? mode := parse_mode mode_text in
          let? length := parse_canonical_decimal length_text in
          if MAX_SOURCE_FILE_BYTES <? length then Err EManifest else
          let? aggregate := ok_or (checked_add aggregate length) EManifest in
          if MAX_SOURCE_BYTES <? aggregate then Err EManifest else
          let? _ := validate_path path in
          if path_conflict prior path then Err EManifest else
          let? sha256 := decode_hex_array 32 digest_text in
          parse_entries rest (Some path) aggregate (entries ++ [mkEntry mode length sha256 path])
      | _ => Err EManifest
      end
  end.

Definition manifest_parse (bytes : list Z) : AdmissionResult SourceManifestV1 :=
  if bytes_eqb bytes []
     || (MAX_SOURCE_MANIFEST_BYTES <? len bytes)
     || negb (is_ascii bytes)
     || negb (bool_decide (last bytes = Some NL))
     || contains_byte CR bytes
     || contains_byte 0 bytes
     || ends_with [NL; NL] bytes
  then Err EManifest else
  if negb (utf8_valid bytes) then Err EUtf8 else
  let lines := split_on NL (take (length bytes - 1) bytes) in
  let? _ := exact_line (lines !! 0%nat) SCHEMA_LINE in
  let? _ := exact_line (lines !! 1%nat) REPOSITORY_LINE in
  let? tree_path := value_line (lines !! 2%nat) TREE_PATH_PREFIX in
  let? _ := validate_path tree_path in
  let? tree_hex := value_line (lines !! 3%nat) GIT_TREE_PREFIX in
  let? git_tree_sha1 := decode_hex_array 20 tree_hex in
  let? count_text := value_line (lines !! 4%nat) FILE_COUNT_PREFIX in
  let? file_count := parse_canonical_decimal count_text in
  if (file_count =? 0) || (MAX_SOURCE_FILES <? file_count) then Err EManifest else
  let? entries := parse_entries (drop 5 lines) None 0 [] in
  if negb (Z.of_nat (length entries) =? file_count) then Err EManifest else
  Ok (mkManifest tree_path git_tree_sha1 entries).
