(* ===== verification/AdmissionManifestProofs.v ===== *)
(** * Component admission: the source manifest is canonical

    A printer for manifests, and the lemmas that the parser accepts exactly
    what it prints for the well-formed ones. *)

From Stdlib Require Import Sorted.
From S2P Require Import Prelude.
From S2P Require Import Panic.
From S2P Require Import Bytes.
From S2P Require Import Text.
From S2P Require Import AdmissionRecords.
From S2P Require Import AdmissionRecordsProofs.
From S2P Require Import AdmissionManifest.

Lemma bytes_eqb_spec l k : bytes_eqb l k = true <-> l = k.
Proof. unfold bytes_eqb. by rewrite bool_decide_eq_true. Qed.

Lemma contains_byte_false b l : contains_byte b l = false -> b ∉ l.
Proof. intros H Hin%contains_byte_spec. congruence. Qed.

(** ** Decimals *)

Lemma parse_canonical_decimal_Ok text x :
  parse_canonical_decimal text = Ok x <-> text = decimal x /\ 0 <= x < two64.
Proof.
  rewrite <-canonical_decimal. unfold parse_canonical_decimal, canonical.
  rewrite <-all_digits_spec.
  assert (Hh : starts_with [48] text = true <-> head text = Some 48).
  { rewrite starts_with_spec. split; [by intros [r ->]|]. destruct text as [|b t]; [done|].
    intros [= ->]. by exists t. }
  destruct (bytes_eqb text []) eqn:E0; cbn [orb].
  { apply bytes_eqb_spec in E0 as ->. naive_solver. }
  assert (Hne : text <> []) by (intros ->; done).
  destruct (forallb is_ascii_digit text) eqn:Ed; cbn [orb negb]; [|naive_solver].
  destruct (_ && _) eqn:Ez.
  { apply andb_true_iff in Ez as [Ez1 Ez2]. apply Hh in Ez2. unfold len in Ez1. b2p.
    split; [done|]. intros ((_ & _ & [Hl|Hl]) & _); [lia|done]. }
  assert (Hcan : length text = 1%nat \/ head text <> Some 48).
  { unfold len in Ez. apply andb_false_iff in Ez as [Ez|Ez].
    - left. b2p. destruct text; [done|]. cbn [length] in *. lia.
    - right. intros H. apply Hh in H. congruence. }
  pose proof (proj1 (all_digits_spec text) Ed) as Hd.
  rewrite parse_digits_spec by (done || (unfold two64; lia)).
  destruct (Z.ltb_spec (value_from 0 text) two64) as [Hlt|Hge]; cbn [ok_or].
  - split; [intros [= <-]; done|]. intros (_ & -> & _). done.
  - split; [done|]. intros (_ & <- & ?). lia.
Qed.

(** ** Hexadecimal *)

Lemma hex_nibble_Ok h x : hex_nibble h = Ok x <-> h = hex_digit x /\ 0 <= x < 16.
Proof.
  unfold hex_nibble, hex_digit, is_ascii_digit. split.
  - destruct (_ && _) eqn:E; [intros [= <-]; b2p; rewrite (proj2 (Z.ltb_lt _ _)) by lia; lia|].
    destruct ((97 <=? h) && _) eqn:E'; [|done]. intros [= <-]. b2p.
    rewrite (proj2 (Z.ltb_ge _ _)) by lia. lia.
  - intros [-> Hx]. destruct (Z.ltb_spec x 10).
    + rewrite (proj2 (Z.leb_le 48 _)), (proj2 (Z.leb_le _ 57)) by lia. cbn. f_equal. lia.
    + rewrite (proj2 (Z.leb_gt (97 + (x - 10)) 57)) by lia. rewrite andb_false_r.
      rewrite (proj2 (Z.leb_le 97 _)), (proj2 (Z.leb_le _ 102)) by lia. cbn. f_equal. lia.
Qed.

Lemma byte_nibbles b :
  byte_ok b -> 0 <= Z.shiftr b 4 < 16 /\ 0 <= Z.land b 15 < 16 /\
               Z.lor (Z.shiftl (Z.shiftr b 4) 4) (Z.land b 15) = b.
Proof.
  unfold byte_ok. intros Hb. change 15 with (Z.ones 4). rewrite Z.shiftr_div_pow2, Z.land_ones by lia.
  change (2 ^ 4) with 16. pose proof (Z.mod_pos_bound b 16 ltac:(lia)).
  pose proof (Z.div_mod b 16 ltac:(lia)).
  split_and!; [apply Z.div_pos; lia|apply Z.div_lt_upper_bound; lia|lia|lia|].
  rewrite <-(Z.add_lor_land (Z.shiftl (b / 16) 4) (b mod 16)) || idtac.
  pose proof (Z.add_lor_land (Z.shiftl (b / 16) 4) (b mod 16)) as Ha.
  assert (Z.land (Z.shiftl (b / 16) 4) (b mod 16) = 0) as Hz.
  { change 16 with (2 ^ 4) at 2. rewrite <-Z.land_ones by lia.
    rewrite (Z.land_comm b), Z.land_assoc. rewrite Z.shiftl_mul_pow2 by lia.
    rewrite Z.land_ones, Z.mod_mul by lia. done. }
  rewrite Z.shiftl_mul_pow2 in * by lia. change (2 ^ 4) with 16 in *. lia.
Qed.

Lemma join_nibbles h l :
  0 <= h < 16 -> 0 <= l < 16 ->
  byte_ok (Z.lor (Z.shiftl h 4) l) /\
  Z.shiftr (Z.lor (Z.shiftl h 4) l) 4 = h /\ Z.land (Z.lor (Z.shiftl h 4) l) 15 = l.
Proof.
  intros Hh Hl.
  assert (Hz : Z.land (Z.shiftl h 4) l = 0).
  { rewrite <-(Z.mod_small l 16) by lia. change 16 with (2 ^ 4). rewrite <-Z.land_ones by lia.
    rewrite (Z.land_comm l), Z.land_assoc, Z.shiftl_mul_pow2, Z.land_ones, Z.mod_mul by lia. done. }
  pose proof (Z.add_lor_land (Z.shiftl h 4) l) as Ha. rewrite Hz in Ha.
  assert (Hv : Z.lor (Z.shiftl h 4) l = 16 * h + l)
    by (rewrite Z.shiftl_mul_pow2 in * by lia; change (2 ^ 4) with 16 in *; lia).
  rewrite Hv. unfold byte_ok. split_and!; [lia|lia| |].
  - rewrite Z.shiftr_div_pow2 by lia. change (2 ^ 4) with 16.
    rewrite (Z.mul_comm 16), Z.div_add_l, Z.div_small; lia.
  - change 15 with (Z.ones 4). rewrite Z.land_ones by lia. change (2 ^ 4) with 16.
    rewrite (Z.mul_comm 16), Z.add_comm, Z.mod_add, Z.mod_small; lia.
Qed.

Lemma decode_hex_loop_Ok n : forall text a,
  length text = (2 * n)%nat ->
  decode_hex_loop n text = Ok a <-> text = encode_hex a /\ length a = n /\ Forall byte_ok a.
Proof.
  induction n as [|n IH]; intros text a Hl.
  { destruct text; [|done]. cbn. split; [by intros [= <-]|]. intros (_ & Ha & _). by destruct a. }
  destruct text as [|h [|l rest]]; cbn [length] in Hl; [lia|lia|]. cbn [decode_hex_loop].
  split.
  - destruct (hex_nibble h) as [x|] eqn:Eh; [|done]. apply hex_nibble_Ok in Eh as [-> Hx].
    destruct (hex_nibble l) as [y|] eqn:El; [|done]. apply hex_nibble_Ok in El as [-> Hy].
    destruct (decode_hex_loop n rest) as [t|] eqn:Et; [|done]. intros [= <-].
    destruct (proj1 (IH rest t ltac:(lia)) Et) as (-> & Hlen & Hok).
    destruct (join_nibbles x y Hx Hy) as (Hb & Hsh & Hand). cbn [encode_hex length].
    rewrite Hsh, Hand. split_and!; [done|lia|by constructor].
  - intros (He & Hlen & Hok). destruct a as [|b a]; [done|]. cbn [encode_hex] in He.
    injection He as -> -> ->. apply Forall_cons in Hok as [Hb Hok].
    destruct (byte_nibbles b Hb) as (Hh & Hlo & Hj).
    rewrite (proj2 (hex_nibble_Ok _ _)), (proj2 (hex_nibble_Ok (hex_digit (Z.land b 15)) _)) by done.
    rewrite (proj2 (IH (encode_hex a) a ltac:(lia))); [by rewrite Hj|]. cbn in Hlen. split_and!; (done || lia).
Qed.

Definition hex_byte (b : Z) : Prop := 48 <= b <= 57 \/ 97 <= b <= 102.

Lemma encode_hex_bytes a : Forall byte_ok a -> Forall hex_byte (encode_hex a).
Proof.
  induction 1 as [|b a Hb _ IH]; [constructor|]. destruct (byte_nibbles b Hb) as (Hh & Hl & _).
  cbn [encode_hex]. unfold hex_byte, hex_digit in *.
  constructor; [destruct (Z.ltb_spec (Z.shiftr b 4) 10); lia|].
  constructor; [destruct (Z.ltb_spec (Z.land b 15) 10); lia|done].
Qed.

Lemma length_encode_hex a : length (encode_hex a) = (2 * length a)%nat.
Proof. induction a as [|b a IH]; [done|]. cbn [encode_hex length]. lia. Qed.

Lemma decode_hex_array_Ok n text a :
  decode_hex_array n text = Ok a <-> text = encode_hex a /\ length a = n /\ Forall byte_ok a.
Proof.
  unfold decode_hex_array, len. split.
  - destruct (_ || _) eqn:E; [done|]. b2p. apply decode_hex_loop_Ok. lia.
  - intros (-> & <- & Hok).
    rewrite (proj2 (Z.eqb_eq _ _)) by (rewrite length_encode_hex; lia). cbn [negb orb].
    assert (forallb (fun b => is_ascii_digit b || ((97 <=? b) && (b <=? 102))) (encode_hex a) = true) as ->.
    { apply forallb_forall. intros b Hb%list_elem_of_In.
      pose proof (proj1 (Forall_forall _ _) (encode_hex_bytes a Hok) b Hb) as [H|H];
        apply orb_true_iff; [left|right]; unfold is_ascii_digit; apply andb_true_iff;
        rewrite !Z.leb_le; lia. }
    cbn [negb]. apply decode_hex_loop_Ok; [apply length_encode_hex|done].
Qed.

(** ** Paths *)

Definition path_byte (b : Z) : Prop :=
  65 <= b <= 90 \/ 97 <= b <= 122 \/ 48 <= b <= 57 \/ b = 46 \/ b = 95 \/ b = 45 \/ b = 47.

(** A relative path of named components: none empty, [.] or [..]. *)
Definition path_ok (path : list Z) : Prop :=
  len path <= 128 /\ Forall path_byte path /\
  Forall (fun part => part <> [] /\ part <> DOT /\ part <> DOT_DOT) (split_on SLASH path).

Lemma is_path_byte_spec b : is_path_byte b = true <-> path_byte b.
Proof. unfold is_path_byte, path_byte, is_ascii_digit. b2p. lia. Qed.

Lemma existsb_Forall {A} (f : A -> bool) (P : A -> Prop) l :
  (forall x, f x = false <-> P x) -> existsb f l = false <-> Forall P l.
Proof.
  intros Hf. induction l as [|x l IH]; [done|]. cbn [existsb].
  by rewrite orb_false_iff, Forall_cons, Hf, IH.
Qed.

Lemma bytes_eqb_false l k : bytes_eqb l k = false <-> l <> k.
Proof. unfold bytes_eqb. by rewrite bool_decide_eq_false. Qed.

(** An empty component of a path shows as a slash at either end or two in a row. *)
Lemma split_slash_edges path :
  Forall (fun part => part <> []) (split_on SLASH path) ->
  path <> [] /\ starts_with [SLASH] path = false /\ ends_with [SLASH] path = false /\
  contains SLASH_SLASH path = false.
Proof.
  intros Hp. split_and!.
  - intros ->. by apply Forall_cons in Hp as [Hp _].
  - apply not_true_iff_false. intros [r ->]%starts_with_spec.
    change ([SLASH] ++ r) with ([] ++ SLASH :: r) in Hp. rewrite split_on_app in Hp.
    by apply Forall_cons in Hp as [Hp _].
  - apply not_true_iff_false. intros [r ->]%ends_with_spec. rewrite split_on_app in Hp.
    apply Forall_app in Hp as [_ Hp]. by apply Forall_cons in Hp as [Hp _].
  - apply not_true_iff_false. intros (a & b & ->)%contains_spec.
    change (a ++ SLASH_SLASH ++ b) with (a ++ SLASH :: ([] ++ SLASH :: b)) in Hp.
    rewrite !split_on_app in Hp. apply Forall_app in Hp as [_ Hp].
    by apply Forall_cons in Hp as [Hp _].
Qed.

Lemma validate_path_Ok path : validate_path path = Ok tt <-> path_ok path.
Proof.
  unfold validate_path, path_ok, len.
  assert (Hparts : existsb (fun part => bytes_eqb part [] || bytes_eqb part DOT || bytes_eqb part DOT_DOT)
                     (split_on SLASH path) = false <->
                   Forall (fun part => part <> [] /\ part <> DOT /\ part <> DOT_DOT) (split_on SLASH path)).
  { apply existsb_Forall. intros part. rewrite !orb_false_iff, !bytes_eqb_false. tauto. }
  assert (Hbytes : existsb (fun b => negb (is_path_byte b)) path = false <-> Forall path_byte path).
  { apply existsb_Forall. intros b. by rewrite negb_false_iff, is_path_byte_spec. }
  rewrite <-Hparts, <-Hbytes. split.
  - destruct (_ || _) eqn:E; [done|]. intros _. rewrite !orb_false_iff in E. b2p. tauto.
  - intros (Hl & Hb & Hp).
    destruct (split_slash_edges path) as (H1 & H2 & H3 & H4).
    { eapply Forall_impl; [by apply Hparts|]. naive_solver. }
    apply bytes_eqb_false in H1.
    assert (H5 : contains_byte BACKSLASH path = false).
    { apply not_true_iff_false. intros Hin%contains_byte_spec. apply Hbytes in Hb.
      pose proof (proj1 (Forall_forall _ _) Hb _ Hin) as Hx. unfold path_byte, BACKSLASH in Hx. lia. }
    rewrite H1, H2, H3, H4, H5, Hb, Hp. by rewrite (proj2 (Z.ltb_ge _ _)) by lia.
Qed.

(** ** Entries *)

Definition mode_text (mode : Z) : list Z := if mode =? FILE_MODE then MODE_FILE else MODE_EXECUTABLE.

Lemma parse_mode_Ok text mode :
  parse_mode text = Ok mode <-> text = mode_text mode /\ (mode = FILE_MODE \/ mode = EXECUTABLE_MODE).
Proof.
  unfold parse_mode, mode_text. split.
  - destruct (bytes_eqb text MODE_FILE) eqn:E1; [intros [= <-]; apply bytes_eqb_spec in E1; auto|].
    destruct (bytes_eqb text MODE_EXECUTABLE) eqn:E2; [|done]. intros [= <-].
    apply bytes_eqb_spec in E2. auto.
  - intros [-> [-> | ->]]; reflexivity.
Qed.

(** What a listed file must be, on its own. *)
Record entry_ok (e : SourceEntryV1) : Prop := {
  eo_mode : se_mode e = FILE_MODE \/ se_mode e = EXECUTABLE_MODE;
  eo_length : 0 <= se_length e <= MAX_SOURCE_FILE_BYTES;
  eo_sha256 : bytes_ok 32 (se_sha256 e);
  eo_path : path_ok (se_path e)
}.

(** The order between neighbours. *)
Definition path_before (a b : list Z) : Prop :=
  bytes_ltb a b = true /\ forall suffix, b <> a ++ SLASH :: suffix.

Definition sum_lengths (es : list SourceEntryV1) : Z := foldr (fun e n => se_length e + n) 0 es.

Definition entry_line (e : SourceEntryV1) : list Z :=
  mode_text (se_mode e) ++ SPACE :: decimal (se_length e) ++ SPACE :: encode_hex (se_sha256 e)
    ++ SPACE :: se_path e.

Lemma path_conflict_spec prior path :
  path_conflict prior path = false <-> match prior with None => True | Some p => path_before p path end.
Proof.
  destruct prior as [p|]; [|done]. cbn [path_conflict]. unfold path_before.
  rewrite orb_false_iff, negb_false_iff.
  assert (match strip_prefix p path with Some suffix => starts_with [SLASH] suffix | None => false end = false
          <-> forall suffix, path <> p ++ SLASH :: suffix) as ->; [|done].
  destruct (strip_prefix p path) as [r|] eqn:E.
  - apply strip_prefix_Some in E as ->. rewrite <-not_true_iff_false, starts_with_spec.
    split; [intros H s Hs%app_inv_head; apply H; by exists s|intros H [s ->]; by apply (H s)].
  - split; [|done]. intros _ s Hs%strip_prefix_Some. congruence.
Qed.

Lemma sum_lengths_nonneg es : Forall entry_ok es -> 0 <= sum_lengths es.
Proof. induction 1 as [|e es He _ IH]; [done|]. cbn. pose proof (eo_length e He). unfold sum_lengths in IH. lia. Qed.

(** No field of a line but the path can hold a space, so the fields read back. *)
Lemma space_free_mode mode : SPACE ∉ mode_text mode.
Proof. unfold mode_text. destruct (_ =? _); apply contains_byte_false; reflexivity. Qed.

Lemma space_free_decimal x : 0 <= x < two64 -> SPACE ∉ decimal x.
Proof.
  intros Hx Hin. destruct (decimal_digits x Hx) as [Hd _].
  pose proof (proj1 (Forall_forall _ _) Hd _ Hin) as H. unfold digit, SPACE in H. lia.
Qed.

Lemma space_free_hex a : Forall byte_ok a -> SPACE ∉ encode_hex a.
Proof.
  intros Ha Hin. pose proof (proj1 (Forall_forall _ _) (encode_hex_bytes a Ha) _ Hin) as H.
  unfold hex_byte, SPACE in H. lia.
Qed.

Lemma entry_fields e line m n d p :
  entry_ok e -> m = mode_text (se_mode e) -> n = decimal (se_length e) -> d = encode_hex (se_sha256 e) ->
  p = se_path e -> splitn 4 SPACE line = [m; n; d; p] <-> line = entry_line e.
Proof.
  intros He -> -> -> ->. rewrite splitn_4. unfold entry_line.
  pose proof (eo_length e He) as Hl. unfold MAX_SOURCE_FILE_BYTES in Hl.
  pose proof (space_free_mode (se_mode e)). pose proof (space_free_decimal (se_length e) ltac:(unfold two64; lia)).
  pose proof (space_free_hex (se_sha256 e) (proj1 (eo_sha256 e He))). tauto.
Qed.

(** One line of the loop. *)
Lemma entry_step line prior aggregate es res e rest :
  0 <= aggregate <= MAX_SOURCE_BYTES ->
  entry_ok e -> line = entry_line e -> aggregate + se_length e <= MAX_SOURCE_BYTES ->
  path_conflict prior (se_path e) = false ->
  parse_entries (line :: rest) prior aggregate es = res <->
  parse_entries rest (Some (se_path e)) (aggregate + se_length e) (es ++ [e]) = res.
Proof.
  intros Ha He Hline Hagg Hc. cbn [parse_entries].
  apply (entry_fields e line _ _ _ _ He eq_refl eq_refl eq_refl eq_refl) in Hline. rewrite Hline.
  rewrite (proj2 (parse_mode_Ok _ (se_mode e))) by (split; [done|apply He]).
  pose proof (eo_length e He) as Hl. unfold MAX_SOURCE_FILE_BYTES, MAX_SOURCE_BYTES in *.
  rewrite (proj2 (parse_canonical_decimal_Ok _ (se_length e))) by (split; [done|unfold two64; lia]).
  rewrite (proj2 (Z.ltb_ge _ _)) by lia. rewrite checked_add_lt by (unfold two64; lia). cbn [ok_or].
  rewrite (proj2 (Z.ltb_ge _ _)) by lia. rewrite (proj2 (validate_path_Ok _)) by apply He.
  rewrite Hc. destruct (eo_sha256 e He) as [Hb Hlen]. unfold len in Hlen.
  rewrite (proj2 (decode_hex_array_Ok 32 _ (se_sha256 e))) by (split_and!; [done|lia|done]).
  by destruct e.
Qed.

Lemma entry_line_Ok line rest prior aggregate es res :
  0 <= aggregate <= MAX_SOURCE_BYTES ->
  parse_entries (line :: rest) prior aggregate es = Ok res ->
  exists e, entry_ok e /\ line = entry_line e /\ aggregate + se_length e <= MAX_SOURCE_BYTES /\
            path_conflict prior (se_path e) = false.
Proof.
  intros Ha H. cbn [parse_entries] in H.
  destruct (splitn 4 SPACE line) as [|m [|n [|d [|p [|]]]]] eqn:Es; try done.
  destruct (parse_mode m) as [mode|] eqn:Em; [|done].
  destruct (parse_canonical_decimal n) as [length|] eqn:En; [|done].
  destruct (MAX_SOURCE_FILE_BYTES <? length) eqn:El; [done|].
  destruct (checked_add aggregate length) as [agg|] eqn:Eagg; [|done]. cbn [ok_or] in H.
  destruct (MAX_SOURCE_BYTES <? agg) eqn:Eb; [done|].
  destruct (validate_path p) as [[]|] eqn:Ep; [|done].
  destruct (path_conflict prior p) eqn:Ec; [done|].
  destruct (decode_hex_array 32 d) as [sha|] eqn:Ed; [|done].
  apply parse_mode_Ok in Em as [Em Hm]. apply parse_canonical_decimal_Ok in En as [En Hn].
  apply decode_hex_array_Ok in Ed as (Ed & Hdl & Hdb). apply validate_path_Ok in Ep.
  unfold checked_add in Eagg. destruct (_ <? _) eqn:Elt in Eagg; [|done]. injection Eagg as <-. b2p.
  assert (He : entry_ok (mkEntry mode length sha p)).
  { split; cbn; [done|lia|split; [done|unfold len; lia]|done]. }
  exists (mkEntry mode length sha p). cbn [se_length se_path]. split_and!; [done| |lia|done].
  by apply (entry_fields _ line m n d p He).
Qed.

(** The loop over the file lines accepts the lines of exactly the inventories
    that are in order and within the aggregate bound. *)
Lemma parse_entries_Ok lines : forall prior aggregate es res,
  0 <= aggregate <= MAX_SOURCE_BYTES ->
  parse_entries lines prior aggregate es = Ok res <->
  exists new, res = es ++ new /\ lines = entry_line <$> new /\ Forall entry_ok new /\
    aggregate + sum_lengths new <= MAX_SOURCE_BYTES /\
    Sorted path_before (match prior with None => [] | Some p => [p] end ++ (se_path <$> new)).
Proof.
  induction lines as [|line rest IH]; intros prior aggregate es res Ha.
  { cbn. split.
    - intros [= <-]. exists []. rewrite app_nil_r. split_and!; try done; [cbn; lia|].
      destruct prior; repeat constructor.
    - intros (new & -> & Hn & _). symmetry in Hn. apply fmap_nil_inv in Hn as ->. by rewrite app_nil_r. }
  split.
  - intros H. destruct (entry_line_Ok _ _ _ _ _ _ Ha H) as (e & He & Hl & Hs & Hc).
    apply (entry_step line prior aggregate es _ e rest Ha He Hl Hs Hc) in H.
    pose proof (eo_length e He). apply IH in H as (new & -> & -> & Hok & Hsum & Hsort); [|lia].
    exists (e :: new). rewrite <-app_assoc. cbn [sum_lengths foldr fmap list_fmap]. rewrite Hl.
    fold (sum_lengths new). split_and!; [done|done|by constructor|lia|].
    apply path_conflict_spec in Hc. destruct prior as [p|]; cbn [app] in *; [|done].
    constructor; [done|by constructor].
  - intros (new & -> & Hl & Hok & Hsum & Hsort). destruct new as [|e new]; [done|].
    cbn in Hl. injection Hl as Hl Hr. apply Forall_cons in Hok as [He Hok].
    pose proof (sum_lengths_nonneg new Hok). pose proof (eo_length e He).
    cbn [sum_lengths foldr] in Hsum. fold (sum_lengths new) in Hsum.
    apply (entry_step line prior aggregate es _ e rest Ha He Hl); [lia| |].
    { apply path_conflict_spec. destruct prior; [|done]. cbn in Hsort.
      apply Sorted_inv in Hsort as [_ Hh]. by inversion Hh. }
    apply IH; [lia|]. exists new. rewrite <-app_assoc. split_and!; try done; [lia|].
    destruct prior; cbn in Hsort; [by apply Sorted_inv in Hsort as [Hsort _]|done].
Qed.

(** ** The whole manifest *)

(** The manifests that may be written. *)
Record manifest_ok (m : SourceManifestV1) : Prop := {
  mo_tree_path : path_ok (sm_tree_path m);
  mo_git_tree : bytes_ok 20 (sm_git_tree_sha1 m);
  mo_count : 1 <= Z.of_nat (length (sm_entries m)) <= MAX_SOURCE_FILES;
  mo_entries : Forall entry_ok (sm_entries m);
  mo_bytes : sum_lengths (sm_entries m) <= MAX_SOURCE_BYTES;
  mo_order : Sorted path_before (se_path <$> sm_entries m)
}.

Definition manifest_lines (m : SourceManifestV1) : list (list Z) :=
  [SCHEMA_LINE; REPOSITORY_LINE; TREE_PATH_PREFIX ++ sm_tree_path m;
   GIT_TREE_PREFIX ++ encode_hex (sm_git_tree_sha1 m);
   FILE_COUNT_PREFIX ++ decimal (Z.of_nat (length (sm_entries m)))]
  ++ (entry_line <$> sm_entries m).

(** The document that describes a manifest: its lines, each ended. *)
Definition render (m : SourceManifestV1) : list Z := join NL (manifest_lines m) ++ [NL].

(** *** The lines are printable *)

Definition printable (b : Z) : Prop := 32 <= b <= 126.

Lemma path_ok_nonempty path : path_ok path -> path <> [].
Proof. intros (_ & _ & Hp) ->. by apply Forall_cons in Hp as [[Hp _] _]. Qed.

Lemma printable_path path : path_ok path -> Forall printable path.
Proof.
  intros (_ & Hb & _). eapply Forall_impl; [exact Hb|]. intros b. unfold path_byte, printable. lia.
Qed.

Lemma printable_decimal x : 0 <= x < two64 -> Forall printable (decimal x).
Proof.
  intros Hx. destruct (decimal_digits x Hx) as [Hd _]. eapply Forall_impl; [exact Hd|].
  intros b. unfold digit, printable. lia.
Qed.

Lemma printable_hex a : Forall byte_ok a -> Forall printable (encode_hex a).
Proof.
  intros Ha. eapply Forall_impl; [by apply encode_hex_bytes|]. intros b. unfold hex_byte, printable. lia.
Qed.

Lemma printable_literal l : forallb (fun b => (32 <=? b) && (b <=? 126)) l = true -> Forall printable l.
Proof.
  intros H. apply Forall_forall. intros b Hb%list_elem_of_In.
  pose proof (proj1 (forallb_forall _ _) H b Hb) as Hx. unfold printable. b2p. lia.
Qed.

Lemma printable_mode mode : Forall printable (mode_text mode).
Proof. unfold mode_text. destruct (_ =? _); apply printable_literal; reflexivity. Qed.

Ltac printable :=
  repeat match goal with
    | |- Forall _ (_ ++ _) => apply Forall_app_2
    | |- Forall _ (_ :: _) => apply Forall_cons_2; [unfold printable, SPACE; lia|]
    | |- Forall _ (encode_hex _) => apply printable_hex
    | |- Forall _ (decimal _) => apply printable_decimal
    | |- Forall _ (mode_text _) => apply printable_mode
    | |- Forall _ _ => apply printable_literal; reflexivity
    | |- Forall _ _ => apply printable_path
    end.

Lemma printable_entry e : entry_ok e -> Forall printable (entry_line e).
Proof.
  intros He. pose proof (eo_length e He). unfold MAX_SOURCE_FILE_BYTES in *. unfold entry_line.
  printable; [unfold two64; lia|apply He|apply He].
Qed.

Definition line_ok (line : list Z) : Prop := line <> [] /\ Forall printable line.

Lemma manifest_lines_ok m : manifest_ok m -> Forall line_ok (manifest_lines m).
Proof.
  intros Hm. pose proof (mo_count m Hm). unfold MAX_SOURCE_FILES in *. unfold manifest_lines.
  apply Forall_app_2.
  - repeat apply Forall_cons_2; [..|constructor]; (split; [done|]); printable;
      [apply Hm|apply Hm|unfold two64; lia].
  - apply Forall_fmap. eapply Forall_impl; [apply Hm|]. intros e He. split; [|by apply printable_entry].
    cbn. unfold entry_line, mode_text. by destruct (_ =? _).
Qed.

(** *** Lines make a document *)

Lemma join_Forall (P : Z -> Prop) c pieces :
  P c -> Forall (Forall P) pieces -> Forall P (join c pieces).
Proof.
  intros Hc. induction pieces as [|p rest IH]; [constructor|]. intros [Hp Hr]%Forall_cons.
  destruct rest as [|q rest]; [done|]. rewrite join_cons by done.
  apply Forall_app_2; [done|]. constructor; auto.
Qed.

Lemma ascii_utf8 l : is_ascii l = true -> utf8_valid l = true.
Proof.
  induction l as [|b l IH]; [done|]. cbn [is_ascii forallb utf8_valid].
  intros [-> Hl]%andb_true_iff. by apply IH.
Qed.

Lemma no_newline line : line_ok line -> NL ∉ line.
Proof.
  intros [_ Hp] Hin. pose proof (proj1 (Forall_forall _ _) Hp _ Hin) as H. unfold printable, NL in H. lia.
Qed.

(** The checks on the raw document hold of lines that are printable and nonempty. *)
Lemma document_checks lines :
  lines <> [] -> Forall line_ok lines ->
  let bytes := join NL lines ++ [NL] in
  is_ascii bytes = true /\ contains_byte CR bytes = false /\ contains_byte 0 bytes = false /\
  ends_with [NL; NL] bytes = false /\ split_on NL (take (length bytes - 1) bytes) = lines.
Proof.
  intros Hne Hok bytes.
  assert (Hb : Forall (fun b => 32 <= b <= 126 \/ b = NL) bytes).
  { apply Forall_app_2; [|repeat constructor; by right].
    apply join_Forall; [by right|]. eapply Forall_impl; [exact Hok|]. intros l [_ Hl].
    eapply Forall_impl; [exact Hl|]. intros b Hb. by left. }
  pose proof (proj1 (Forall_forall _ _) Hb) as Hin. unfold NL in Hin.
  assert (Hsplit : split_on NL (join NL lines) = lines).
  { apply split_join; [done|]. eapply Forall_impl; [exact Hok|]. apply no_newline. }
  split_and!.
  - apply forallb_forall. intros b Hx%list_elem_of_In. specialize (Hin b Hx). b2p. lia.
  - apply not_true_iff_false. intros Hx%contains_byte_spec. specialize (Hin _ Hx). unfold CR in Hin. lia.
  - apply not_true_iff_false. intros Hx%contains_byte_spec. specialize (Hin _ Hx). lia.
  - apply not_true_iff_false. intros [r Hr]%ends_with_spec. unfold bytes in Hr.
    change [NL; NL] with ([NL] ++ [NL]) in Hr. rewrite app_assoc in Hr. apply app_inj_tail in Hr as [Hr _].
    rewrite Hr, split_on_app in Hsplit. cbn in Hsplit. rewrite <-Hsplit in Hok.
    apply Forall_app in Hok as [_ Hok]. by apply Forall_cons in Hok as [[Hok _] _].
  - unfold bytes. rewrite length_app, Nat.add_sub, take_app_length. done.
Qed.

Lemma value_line_Ok line prefix value :
  value_line line prefix = Ok value <-> line = Some (prefix ++ value) /\ value <> [].
Proof.
  unfold value_line. destruct line as [l|]; cbn; [|naive_solver].
  destruct (strip_prefix prefix l) as [r|] eqn:E.
  - apply strip_prefix_Some in E as ->. destruct (bytes_eqb r []) eqn:Er.
    + apply bytes_eqb_spec in Er as ->. split; [done|]. intros [[= H%app_inv_head] Hv]. by subst.
    + apply bytes_eqb_false in Er. split; [intros [= ->]; done|]. by intros [[= ->%app_inv_head] _].
  - split; [done|]. intros [[= Hl] _]. apply strip_prefix_Some in Hl. congruence.
Qed.

Lemma exact_line_Ok line expected : exact_line line expected = Ok tt <-> line = Some expected.
Proof. unfold exact_line. destruct (bool_decide _) eqn:E; b2p; naive_solver. Qed.

Lemma lines_shape (lines : list (list Z)) a b c d e :
  lines !! 0%nat = Some a -> lines !! 1%nat = Some b -> lines !! 2%nat = Some c ->
  lines !! 3%nat = Some d -> lines !! 4%nat = Some e -> lines = [a; b; c; d; e] ++ drop 5 lines.
Proof. intros. destruct lines as [|? [|? [|? [|? [|? ?]]]]]; simplify_eq/=; done. Qed.

Lemma split_last (bytes : list Z) c :
  last bytes = Some c -> exists front, bytes = front ++ [c] /\ take (length bytes - 1) bytes = front.
Proof.
  intros [front ->]%last_Some. exists front. split; [done|]. by rewrite length_app, Nat.add_sub, take_app_length.
Qed.

(** The parser accepts a document exactly when it is the rendering of a
    well-formed manifest, within the size limit. *)
Lemma manifest_parse_sound bytes m :
  manifest_parse bytes = Ok m -> manifest_ok m /\ bytes = render m.
Proof.
  unfold manifest_parse. intros H. destruct (_ || _) eqn:E in H; [done|].
  destruct (negb (utf8_valid bytes)); [done|]. rewrite !orb_false_iff in E.
  assert (Hlast : last bytes = Some NL) by (b2p; tauto).
  destruct (split_last _ _ Hlast) as (front & Hbytes & Hfront). rewrite Hfront in H.
  set (lines := split_on NL front) in H.
  destruct (exact_line (lines !! 0%nat) _) as [[]|] eqn:E0; [|done].
  destruct (exact_line (lines !! 1%nat) _) as [[]|] eqn:E1; [|done].
  destruct (value_line (lines !! 2%nat) _) as [tree_path|] eqn:E2; [|done].
  destruct (validate_path tree_path) as [[]|] eqn:Ep; [|done].
  destruct (value_line (lines !! 3%nat) _) as [tree_hex|] eqn:E3; [|done].
  destruct (decode_hex_array 20 tree_hex) as [sha1|] eqn:Eh; [|done].
  destruct (value_line (lines !! 4%nat) _) as [count_text|] eqn:E4; [|done].
  destruct (parse_canonical_decimal count_text) as [count|] eqn:Ec; [|done].
  destruct (_ || _) eqn:Ecount in H; [done|].
  destruct (parse_entries (drop 5 lines) None 0 []) as [entries|] eqn:Ee; [|done].
  destruct (negb _) eqn:Elen in H; [done|]. injection H as <-.
  apply exact_line_Ok in E0, E1. apply value_line_Ok in E2 as [E2 _], E3 as [E3 _], E4 as [E4 _].
  apply validate_path_Ok in Ep. apply decode_hex_array_Ok in Eh as (-> & Hl & Hb).
  apply parse_canonical_decimal_Ok in Ec as [-> Hc].
  apply parse_entries_Ok in Ee as (new & -> & Hnew & Hok & Hsum & Hsort); [|unfold MAX_SOURCE_BYTES; lia].
  cbn [app] in *. b2p. split.
  - split; cbn [sm_tree_path sm_git_tree_sha1 sm_entries]; try done; [by split; [|unfold len; lia]|lia].
  - unfold render, manifest_lines. cbn [sm_tree_path sm_git_tree_sha1 sm_entries].
    rewrite Elen, <-Hnew, <-(lines_shape lines _ _ _ _ _ E0 E1 E2 E3 E4). unfold lines.
    by rewrite join_split.
Qed.

Lemma manifest_parse_complete m :
  manifest_ok m -> len (render m) <= MAX_SOURCE_MANIFEST_BYTES -> manifest_parse (render m) = Ok m.
Proof.
  intros Hm Hsize. pose proof (mo_count m Hm) as Hcount. unfold MAX_SOURCE_FILES in Hcount.
  destruct (document_checks (manifest_lines m) ltac:(done) (manifest_lines_ok m Hm)) as (Ha & Hcr & Hz & Hnn & Hs).
  fold (render m) in Ha, Hcr, Hz, Hnn, Hs. unfold manifest_parse.
  assert (Hne : bytes_eqb (render m) [] = false).
  { apply bytes_eqb_false. unfold render. by intros [_ ?]%app_eq_nil. }
  rewrite Hne, Ha, Hcr, Hz, Hnn, Hs, (ascii_utf8 _ Ha). rewrite (proj2 (Z.ltb_ge _ _)) by lia.
  rewrite bool_decide_eq_true_2 by apply last_snoc. cbn [orb negb].
  unfold manifest_lines. cbn [app lookup list_lookup drop].
  rewrite !(proj2 (exact_line_Ok _ _) eq_refl).
  rewrite (proj2 (value_line_Ok _ TREE_PATH_PREFIX (sm_tree_path m)))
    by (split; [done|]; apply path_ok_nonempty, Hm).
  rewrite (proj2 (validate_path_Ok _) (mo_tree_path m Hm)).
  destruct (mo_git_tree m Hm) as [Hgb Hgl]. unfold len in Hgl.
  rewrite (proj2 (value_line_Ok _ GIT_TREE_PREFIX (encode_hex (sm_git_tree_sha1 m)))).
  2: { split; [done|]. intros Hnil. pose proof (length_encode_hex (sm_git_tree_sha1 m)) as Hl.
       rewrite Hnil in Hl. cbn in Hl. lia. }
  rewrite (proj2 (decode_hex_array_Ok 20 _ (sm_git_tree_sha1 m))) by (split_and!; [done|lia|done]).
  set (n := Z.of_nat (length (sm_entries m))) in *.
  rewrite (proj2 (value_line_Ok _ FILE_COUNT_PREFIX (decimal n)))
    by (split; [done|]; apply decimal_digits; unfold two64; lia).
  rewrite (proj2 (parse_canonical_decimal_Ok _ n)) by (split; [done|unfold two64; lia]).
  rewrite (proj2 (Z.eqb_neq _ _)), (proj2 (Z.ltb_ge _ _)) by (unfold MAX_SOURCE_FILES; lia). cbn [orb].
  rewrite (proj2 (parse_entries_Ok _ None 0 [] (sm_entries m) ltac:(unfold MAX_SOURCE_BYTES; lia))).
  2: { exists (sm_entries m). split_and!; (done || apply Hm). }
  fold n. rewrite Z.eqb_refl. by destruct m.
Qed.
