(* ===== verification/AdmissionDocuments.v ===== *)
(** * Component admission: digests and supporting documents

    Models the digest checks and the validators of the supporting documents of
    [tools/component-admission/admission/src/lib.rs].  The hash is a parameter:
    the code calls the [sha2] crate. *)

From Stdlib Require Import String.
From S2P Require Import Prelude.
From S2P Require Import Bytes.
From S2P Require Import Text.
From S2P Require Import AdmissionRecords.

#[local] Open Scope string_scope.

Definition SENSITIVE_NEEDLES : list (list Z) :=
  bytes_of "credential" :: bytes_of "password" :: bytes_of "passwd" :: bytes_of "private-key"
  :: bytes_of "private_key" :: bytes_of "secret=" :: bytes_of "signature=" :: bytes_of "token=" :: nil.

Definition FILE_URL : list Z := bytes_of "file://".
Definition COLON_BACKSLASH : list Z := bytes_of ":\".
Definition BACKSLASH_BACKSLASH : list Z := bytes_of "\\".
(** [' '' ( ) \[ \] { } ,] with the double quote, code 34 *)
Definition TRIM_SET : list Z := 34 :: bytes_of "'()[]{},".

#[local] Close Scope string_scope.
#[local] Open Scope list_scope.

Definition COLON : Z := 58.

(** ** Digests *)

Section digests.
Variable sha256 : list Z -> list Z.

Definition verify_digest (bytes expected : list Z) : AdmissionResult unit :=
  if negb (bytes_eqb (sha256 bytes) expected) then Err EDigest else Ok tt.

Definition verify_bound_bytes (bytes : list Z) (length : Z) (digest : list Z) : AdmissionResult unit :=
  if (U64_MAX <? length) || negb (len bytes =? length) then Err ELength else
  verify_digest bytes digest.

Definition verify_length_digest (bytes : list Z) (length : Z) (digest : list Z) : AdmissionResult unit :=
  if negb (len bytes =? length) then Err ELength else verify_digest bytes digest.
End digests.

(** ** What no document may hold *)

Definition contains_sensitive_evidence (bytes : list Z) : bool :=
  let lower := List.map to_ascii_lowercase bytes in
  existsb (fun needle => contains needle lower) SENSITIVE_NEEDLES.

(** The [for] over the indices: a letter, a colon and a slash. *)
Fixpoint drive_path (bytes : list Z) : bool :=
  match bytes with
  | a :: ((b :: c :: _) as rest) =>
      (is_ascii_alphabetic a && (b =? COLON) && ((c =? SLASH) || (c =? BACKSLASH))) || drive_path rest
  | _ => false
  end.

Definition absolute_token (token : list Z) : bool :=
  let candidate := trim_matches TRIM_SET token in
  starts_with [SLASH] candidate
  || match split_once EQUALS candidate with
     | Some (_, value) => starts_with [SLASH] value
     | None => false
     end.

Definition contains_machine_local_path (line : list Z) : bool :=
  if contains BACKSLASH_BACKSLASH line || contains FILE_URL line then true else
  if drive_path line then true else
  existsb absolute_token (split_ascii_whitespace line).

(** ** Single-line documents *)

Definition validate_target_triple (bytes : list Z) : AdmissionResult unit :=
  if bytes_eqb bytes []
     || (96 <? len bytes)
     || negb (is_ascii bytes)
     || existsb (fun b => is_ascii_whitespace b || negb (is_ascii_graphic b)) bytes
  then Err EDocument else Ok tt.

Definition validate_builder_identity (bytes : list Z) : AdmissionResult unit :=
  if bytes_eqb bytes []
     || (128 <? len bytes)
     || negb (is_ascii bytes)
     || existsb (fun b => negb (is_ascii_graphic b)) bytes
     || contains_sensitive_evidence bytes
  then Err EDocument else Ok tt.

(** ** Line documents *)

Definition line_text (bytes : list Z) : AdmissionResult (list Z) :=
  if bytes_eqb bytes []
     || negb (bool_decide (last bytes = Some NL))
     || ends_with [NL; NL] bytes
     || contains_byte 0 bytes
     || contains_byte CR bytes
  then Err EDocument else
  if utf8_valid bytes then Ok bytes else Err EUtf8.

Definition nonempty (line : list Z) : bool := negb (bytes_eqb line []).

Definition line_count (bytes : list Z) : AdmissionResult Z :=
  let? text := line_text bytes in
  Ok (Z.of_nat (length (List.filter nonempty (split_on NL text)))).

Definition two32 : Z := 4294967296.

(** [u32::checked_add] *)
Definition checked_add32 (a b : Z) : option Z := if a + b <? two32 then Some (a + b) else None.

(** The tests on one [name=value] line. *)
Definition bad_name_value (line name value : list Z) : bool :=
  bytes_eqb name []
  || bytes_eqb value []
  || contains_byte EQUALS name
  || contains_byte EQUALS value
  || existsb (fun b => is_ascii_whitespace b || negb (is_ascii_graphic b)) line
  || contains COLON_BACKSLASH value
  || starts_with [SLASH] value
  || starts_with BACKSLASH_BACKSLASH value
  || contains_sensitive_evidence line.

Fixpoint name_value_loop (lines : list (list Z)) (prior : option (list Z)) (count : Z) : AdmissionResult Z :=
  match lines with
  | [] => Ok count
  | line :: rest =>
      if bytes_eqb line [] then name_value_loop rest prior count else
      match split_once EQUALS line with
      | None => Err EDocument
      | Some (name, value) =>
          if bad_name_value line name value then Err EDocument else
          if match prior with Some previous => negb (bytes_ltb previous line) | None => false end
          then Err EDocument else
          let? count := ok_or (checked_add32 count 1) EDocument in
          name_value_loop rest (Some line) count
      end
  end.

Definition validate_name_value_document_counted (bytes : list Z) (expected_count : Z) : AdmissionResult unit :=
  let? text := line_text bytes in
  let? count := name_value_loop (split_on NL text) None 0 in
  if negb (count =? expected_count) then Err EDocument else Ok tt.

Definition validate_name_value_document (bytes : list Z) : AdmissionResult unit :=
  let? count := line_count bytes in
  validate_name_value_document_counted bytes (count mod two32).

Fixpoint line_document_loop (lines : list (list Z)) (count : Z) : AdmissionResult Z :=
  match lines with
  | [] => Ok count
  | line :: rest =>
      if contains_machine_local_path line || contains_sensitive_evidence line then Err EDocument else
      let? count := ok_or (checked_add count 1) EDocument in
      line_document_loop rest count
  end.

Definition validate_line_document (bytes : list Z) (expected_count : Z) : AdmissionResult unit :=
  let? text := line_text bytes in
  let? count := line_document_loop (List.filter nonempty (split_on NL text)) 0 in
  if negb (count =? expected_count) then Err EDocument else Ok tt.
