(* ===== verification/AdmissionSource.v ===== *)
(** * Component admission: the staged source tree

    Models [read_bounded], [file_mode], [collect_source_files] and
    [SourceManifestV1::verify_staged_root] of
    [tools/component-admission/admission/src/lib.rs] over a file tree.  A tree
    stands for what the file system answers: the kind and mode bits of every
    path without following links, the entries of a directory and the bytes of a
    file, each of which an I/O error may replace.  Entry names hold no slash
    and are neither [.] nor [..]. *)

From Stdlib Require Import Sorted Permutation.
From stdpp Require Import gmap.
From S2P Require Import Prelude.
From S2P Require Import Panic.
From S2P Require Import Bytes.
From S2P Require Import Text.
From S2P Require Import AdmissionRecords.
From S2P Require Import AdmissionRecordsProofs.
From S2P Require Import AdmissionManifest.
From S2P Require Import AdmissionManifestProofs.

Inductive Node :=
| Missing                                         (** [symlink_metadata] fails *)
| Symlink
| Special                                         (** a device, socket or pipe *)
| File (mode : Z) (contents : option (list Z)) (size : Z)
| Dir (children : option (list (list Z * Node))).

Definition read_bounded (node : Node) (maximum : Z) : AdmissionResult (list Z) :=
  match node with
  | Missing => Err EIo
  | Symlink | Special | Dir _ => Err EInputType
  | File _ None _ => Err EIo
  | File _ (Some contents) _ =>
      let bytes := take (Z.to_nat (saturating_add maximum 1)) contents in
      if maximum <? len bytes then Err ESize else Ok bytes
  end.

(** [mode & 0o111 == 0] on Unix *)
Definition file_mode (mode : Z) : Z := if Z.land mode 73 =? 0 then FILE_MODE else EXECUTABLE_MODE.

Notation Inventory := (gmap (list Z) SourceEntryV1).

(** [sort_by_key(|entry| entry.file_name())]: stable, by the bytes of the name. *)
Fixpoint insert_by_name {A} (x : list Z * A) (l : list (list Z * A)) : list (list Z * A) :=
  match l with
  | [] => [x]
  | y :: l' => if bytes_ltb (fst y) (fst x) then y :: insert_by_name x l' else x :: l
  end.

Fixpoint sort_by_name {A} (l : list (list Z * A)) : list (list Z * A) :=
  match l with
  | [] => []
  | x :: l' => insert_by_name x (sort_by_name l')
  end.

(** The [for] over the children, each step threading the map. *)
Fixpoint run_all (steps : list (list Z * (Inventory -> AdmissionResult Inventory)))
    (result : Inventory) : AdmissionResult Inventory :=
  match steps with
  | [] => Ok result
  | (_, step) :: rest =>
      let? result := step result in
      run_all rest result
  end.

(** The path relative to the root: its components, each valid UTF-8, joined. *)
Definition relative_path (parts : list (list Z)) : AdmissionResult (list Z) :=
  if forallb utf8_valid parts then Ok (join SLASH parts) else Err ESourceInventory.

Section source.
Variable sha256 : list Z -> list Z.

(** A regular file found at [parts] below the root. *)
Definition collect_file (node : Node) (mode size : Z) (parts : list (list Z)) (result : Inventory)
    : AdmissionResult Inventory :=
  if MAX_SOURCE_FILE_BYTES <? size then Err ESourceInventory else
  let? relative := relative_path parts in
  let? _ := validate_path relative in
  let? bytes := read_bounded node MAX_SOURCE_FILE_BYTES in
  let entry := mkEntry (file_mode mode) (len bytes) (sha256 bytes) relative in
  let inserted := <[relative := entry]> result in
  if bool_decide (is_Some (result !! relative)) || (MAX_SOURCE_FILES <? Z.of_nat (stdpp.base.size inserted))
  then Err ESourceInventory else Ok inserted.

(** One child of the loop; a directory recurses. *)
Fixpoint collect_node (node : Node) (parts : list (list Z)) (result : Inventory)
    : AdmissionResult Inventory :=
  match node with
  | Missing => Err EIo
  | Symlink => Err ESourceInventory
  | Special => Err ESourceInventory
  | Dir None => Err EIo
  | Dir (Some children) =>
      run_all (sort_by_name
        (List.map (fun '(name, child) => (name, collect_node child (parts ++ [name]))) children)) result
  | File mode _ size => collect_file node mode size parts result
  end.

Definition entry_matches (actual : Inventory) (entry : SourceEntryV1) : AdmissionResult unit :=
  let? value := ok_or (actual !! se_path entry) ESourceInventory in
  if negb (se_mode value =? se_mode entry)
     || negb (se_length value =? se_length entry)
     || negb (bytes_eqb (se_sha256 value) (se_sha256 entry))
  then Err ESourceInventory else Ok tt.

Fixpoint entries_match (actual : Inventory) (entries : list SourceEntryV1) : AdmissionResult unit :=
  match entries with
  | [] => Ok tt
  | entry :: rest =>
      let? _ := entry_matches actual entry in
      entries_match actual rest
  end.

Definition verify_staged_root (m : SourceManifestV1) (root : Node) : AdmissionResult unit :=
  match root with
  | Missing => Err EIo
  | Symlink | Special | File _ _ _ => Err ESourceInventory
  | Dir _ =>
      let? actual := collect_node root [] ∅ in
      if negb (Z.of_nat (stdpp.base.size actual) =? Z.of_nat (length (sm_entries m))) then Err ESourceInventory else
      entries_match actual (sm_entries m)
  end.
End source.

(** * Component admission: the staged tree is the manifest's inventory

    The files of a tree, and the lemma that [verify_staged_root] accepts a tree
    exactly when it is clean and its files are the manifest's entries. *)

(** ** Induction over trees *)

Lemma Node_rect_children (P : Node -> Prop) :
  P Missing -> P Symlink -> P Special -> (forall m c s, P (File m c s)) -> P (Dir None) ->
  (forall l, Forall (fun nc => P (snd nc)) l -> P (Dir (Some l))) -> forall node, P node.
Proof.
  intros H1 H2 H3 H4 H5 H6. fix IH 1. intros [| | |m c s|[l|]]; [done..| |done].
  apply H6. induction l as [|[n c] l IHl]; constructor; [apply IH|exact IHl].
Qed.

(** ** Sorting by name *)

Lemma insert_by_name_perm {A} (x : list Z * A) l : insert_by_name x l ≡ₚ x :: l.
Proof.
  induction l as [|y l IH]; [done|]. cbn. destruct (bytes_ltb _ _); [|done].
  rewrite IH. apply Permutation_swap.
Qed.

Lemma sort_by_name_perm {A} (l : list (list Z * A)) : sort_by_name l ≡ₚ l.
Proof. induction l as [|x l IH]; [done|]. cbn. by rewrite insert_by_name_perm, IH. Qed.

Lemma sort_by_name_map {A B} (f : list Z * A -> list Z * B) l :
  (forall x, fst (f x) = fst x) -> sort_by_name (List.map f l) = List.map f (sort_by_name l).
Proof.
  intros Hf. assert (Hi : forall x k, insert_by_name (f x) (List.map f k) = List.map f (insert_by_name x k)).
  { intros x k. induction k as [|y k IH]; [done|]. cbn. rewrite !Hf. destruct (bytes_ltb _ _); [|done].
    cbn. by rewrite IH. }
  induction l as [|x l IH]; [done|]. cbn. by rewrite IH, Hi.
Qed.

(** ** Adding entries to the inventory *)

Definition keyed (es : list SourceEntryV1) : list (list Z * SourceEntryV1) :=
  (fun e => (se_path e, e)) <$> es.

Lemma keyed_fst es : (keyed es).*1 = se_path <$> es.
Proof. unfold keyed. rewrite <-list_fmap_compose. done. Qed.

(** [r] is [result] with [es] added: new paths only, and within the limit. *)
Definition added (es : list SourceEntryV1) (result r : Inventory) : Prop :=
  NoDup (se_path <$> es) /\ Forall (fun e => result !! se_path e = None) es /\
  (es = [] \/ Z.of_nat (size r) <= MAX_SOURCE_FILES) /\
  r = list_to_map (keyed es) ∪ result.

Lemma added_nil result r : added [] result r <-> r = result.
Proof.
  unfold added. cbn. rewrite (left_id_L ∅ (∪)).
  split; [tauto|]. intros ->. split_and!; try done; [constructor|by left].
Qed.

Lemma added_perm es es' result r : es ≡ₚ es' -> added es result r -> added es' result r.
Proof.
  intros Hp (Hn & Hf & Hs & ->). unfold added.
  split_and!; [by rewrite <-Hp|by rewrite <-Hp| |].
  - destruct Hs as [->|Hs]; [left; by apply Permutation_nil_l in Hp|by right].
  - f_equal. apply list_to_map_proper; [by rewrite keyed_fst|]. by apply fmap_Permutation.
Qed.

#[global] Instance added_proper : Proper (Permutation ==> eq ==> eq ==> iff) added.
Proof. intros es es' Hp result ? <- r ? <-. split; apply added_perm; [done|by symmetry]. Qed.

Lemma keyed_lookup_None es p : list_to_map (M := Inventory) (keyed es) !! p = None <-> p ∉ se_path <$> es.
Proof. rewrite <-keyed_fst. symmetry. apply not_elem_of_list_to_map. Qed.

Lemma added_size (es : list SourceEntryV1) (result r : Inventory) :
  NoDup (se_path <$> es) -> Forall (fun e => result !! se_path e = None) es ->
  r = list_to_map (keyed es) ∪ result -> size r = (length es + size result)%nat.
Proof.
  intros Hn Hf ->. rewrite map_size_disj_union.
  - rewrite map_size_list_to_map by (by rewrite keyed_fst). unfold keyed. by rewrite length_fmap.
  - apply map_disjoint_spec. intros p e e' He He'. apply elem_of_list_to_map_2 in He.
    unfold keyed in He. apply list_elem_of_fmap in He as (x & [= -> ->] & Hx).
    pose proof (proj1 (Forall_forall _ _) Hf x Hx). simpl in *. congruence.
Qed.

Lemma added_app es1 es2 result r :
  added (es1 ++ es2) result r <-> exists r1, added es1 result r1 /\ added es2 r1 r.
Proof.
  unfold added at 1. rewrite fmap_app, NoDup_app, Forall_app. split.
  - intros ((Hn1 & Hd & Hn2) & (Hf1 & Hf2) & Hs & Hr).
    assert (Hr' : r = list_to_map (keyed es2) ∪ (list_to_map (keyed es1) ∪ result)).
    { rewrite Hr. unfold keyed. rewrite fmap_app, list_to_map_app, (assoc_L (∪)). f_equal.
      apply map_union_comm. apply map_disjoint_list_to_map_l, Forall_fmap, Forall_forall.
      intros e He. cbn. apply keyed_lookup_None. apply Hd. by apply list_elem_of_fmap_2. }
    exists (list_to_map (keyed es1) ∪ result).
    assert (Hf2' : Forall (fun e => (list_to_map (keyed es1) ∪ result : Inventory) !! se_path e = None) es2).
    { apply Forall_forall. intros e He. apply lookup_union_None. split.
      - apply keyed_lookup_None. intros H. apply (Hd _ H). by apply list_elem_of_fmap_2.
      - by apply (proj1 (Forall_forall _ _) Hf2 e He). }
    pose proof (added_size es1 result _ Hn1 Hf1 eq_refl) as Hz1.
    pose proof (added_size es2 _ _ Hn2 Hf2' Hr') as Hz2.
    destruct Hs as [Hs|Hs].
    + apply app_eq_nil in Hs as [-> ->]. split; split_and!; try done; by left.
    + split; split_and!; try done; right; lia.
  - intros (r1 & (Hn1 & Hf1 & Hs1 & ->) & (Hn2 & Hf2 & Hs2 & ->)).
    assert (Hd : forall x, x ∈ se_path <$> es1 -> x ∉ se_path <$> es2).
    { intros x Hx1 Hx2. apply list_elem_of_fmap in Hx2 as (e & -> & He).
      pose proof (proj1 (Forall_forall _ _) Hf2 e He) as Hl. cbn in Hl.
      apply lookup_union_None in Hl as [Hl _]. by apply keyed_lookup_None in Hl. }
    split_and!; try done.
    + apply Forall_forall. intros e He. pose proof (proj1 (Forall_forall _ _) Hf2 e He) as Hl. cbn in Hl.
      by apply lookup_union_None in Hl as [_ Hl].
    + destruct Hs2 as [->|Hs2]; [|by right]. rewrite app_nil_r. cbn [keyed fmap list_fmap list_to_map foldr].
      cbn. rewrite (left_id_L ∅ (∪)). done.
    + unfold keyed. rewrite fmap_app, list_to_map_app, (assoc_L (∪)). f_equal.
      apply map_union_comm. apply map_disjoint_list_to_map_l, Forall_fmap, Forall_forall.
      intros e He. cbn. apply keyed_lookup_None. intros H. apply (Hd _ H). by apply list_elem_of_fmap_2.
Qed.

(** ** The files of a tree *)

Section source_proofs.
Variable sha256 : list Z -> list Z.

Fixpoint tree_files (node : Node) (parts : list (list Z)) : list SourceEntryV1 :=
  match node with
  | File mode (Some contents) _ =>
      [mkEntry (file_mode mode) (len contents) (sha256 contents) (join SLASH parts)]
  | Dir (Some children) => List.flat_map (fun '(name, child) => tree_files child (parts ++ [name])) children
  | _ => []
  end.

(** Directories and files only, all of them readable and within the size limit. *)
Fixpoint tree_clean (node : Node) : bool :=
  match node with
  | File _ (Some contents) size =>
      (size <=? MAX_SOURCE_FILE_BYTES) && (len contents <=? MAX_SOURCE_FILE_BYTES)
  | Dir (Some children) => forallb (fun nc => tree_clean (snd nc)) children
  | _ => false
  end.

Lemma ascii_parts parts : path_ok (join SLASH parts) -> forallb utf8_valid parts = true.
Proof.
  intros (_ & Hb & _).
  assert (Hp : Forall (Forall path_byte) parts).
  { induction parts as [|p rest IH]; [constructor|]. destruct rest as [|q rest]; [by repeat constructor|].
    rewrite join_cons in Hb by done. apply Forall_app in Hb as [Hp Hb]. apply Forall_cons in Hb as [_ Hb].
    constructor; auto. }
  apply forallb_forall. intros p Hin%list_elem_of_In. apply ascii_utf8, forallb_forall.
  intros b Hx%list_elem_of_In.
  pose proof (proj1 (Forall_forall _ _) Hp p Hin) as Hpb. cbn in Hpb.
  pose proof (proj1 (Forall_forall _ _) Hpb b Hx) as H. unfold path_byte in H. b2p. lia.
Qed.

Lemma read_bounded_Ok mode contents size maximum bytes :
  0 <= maximum < U64_MAX ->
  read_bounded (File mode contents size) maximum = Ok bytes <->
  contents = Some bytes /\ len bytes <= maximum.
Proof.
  intros Hm. cbn [read_bounded]. destruct contents as [c|]; [|naive_solver].
  assert (Hsat : saturating_add maximum 1 = maximum + 1) by (unfold saturating_add; lia).
  rewrite Hsat. unfold len. rewrite length_take. destruct (Z.ltb_spec maximum (Z.of_nat (Z.to_nat (maximum + 1) `min` length c))).
  - split; [done|]. intros [[= ->] Hl]. lia.
  - rewrite take_ge by lia. split; [intros [= ->]; split; [done|lia]|by intros [[= ->] _]].
Qed.

Lemma added_single e result r :
  added [e] result r <->
  result !! se_path e = None /\ r = <[se_path e := e]> result /\ Z.of_nat (size r) <= MAX_SOURCE_FILES.
Proof.
  unfold added. cbn. rewrite Forall_singleton, insert_empty, <-insert_union_singleton_l.
  split; [intros (_ & ? & [|] & ->); done|]. intros (? & -> & ?). split_and!; try done; [|by right].
  apply NoDup_singleton.
Qed.

Lemma collect_file_Ok mode contents size parts result r :
  collect_file sha256 (File mode contents size) mode size parts result = Ok r <->
  tree_clean (File mode contents size) = true /\
  Forall (fun e => path_ok (se_path e)) (tree_files (File mode contents size) parts) /\
  added (tree_files (File mode contents size) parts) result r.
Proof.
  unfold collect_file, relative_path. cbn [tree_clean tree_files].
  assert (Hr := fun bytes => read_bounded_Ok mode contents size MAX_SOURCE_FILE_BYTES bytes ltac:(done)).
  split.
  - destruct (MAX_SOURCE_FILE_BYTES <? size) eqn:Es; [done|]. destruct (forallb utf8_valid parts); [|done].
    destruct (validate_path _) as [[]|] eqn:Ep; [|done].
    destruct (read_bounded _ _) as [bytes|]; [|done]. destruct (proj1 (Hr bytes) eq_refl) as [-> Hl].
    destruct (_ || _) eqn:Ei; [done|]. intros [= <-]. b2p. destruct Ei as [Hnew Hsize].
    apply validate_path_Ok in Ep. split_and!; [lia|lia|by apply Forall_singleton|].
    apply added_single. cbn [se_path]. split_and!; [|done|done]. by apply eq_None_not_Some.
  - destruct contents as [c|]; [|intros [? _]; done]. rewrite andb_true_iff, Forall_singleton, added_single.
    cbn [se_path]. intros ([Hs Hl] & Hp & Hnone & -> & Hsize). b2p.
    rewrite (proj2 (Z.ltb_ge _ _)) by lia. rewrite (ascii_parts _ Hp), (proj2 (validate_path_Ok _) Hp).
    rewrite (proj2 (Hr c)) by (split; [done|lia]). rewrite Hnone.
    rewrite bool_decide_eq_false_2 by (intros [? ?]; done). cbn [orb].
    by rewrite (proj2 (Z.ltb_ge _ _)) by lia.
Qed.

Definition child_files (parts : list (list Z)) (nc : list Z * Node) : list SourceEntryV1 :=
  tree_files (snd nc) (parts ++ [fst nc]).

Lemma run_all_Ok parts children : forall result r,
  Forall (fun nc : list Z * Node => forall parts result r,
    collect_node sha256 (snd nc) parts result = Ok r <->
    tree_clean (snd nc) = true /\ Forall (fun e => path_ok (se_path e)) (tree_files (snd nc) parts) /\
    added (tree_files (snd nc) parts) result r) children ->
  run_all (List.map (fun nc => (fst nc, collect_node sha256 (snd nc) (parts ++ [fst nc]))) children) result
    = Ok r <->
  forallb (fun nc => tree_clean (snd nc)) children = true /\
  Forall (fun e => path_ok (se_path e)) (flat_map (child_files parts) children) /\
  added (flat_map (child_files parts) children) result r.
Proof.
  induction children as [|[n c] rest IH]; intros result r Hc.
  { cbn. rewrite added_nil. split; [intros [= <-]; by repeat constructor|by intros (_ & _ & ->)]. }
  apply Forall_cons in Hc as [Hn Hc]. cbn [List.map run_all flat_map forallb fst snd] in *.
  rewrite Forall_app, added_app, andb_true_iff. split.
  - destruct (collect_node _ _ _ _) as [r1|] eqn:E1; [|done]. apply Hn in E1 as (H1 & H2 & H3).
    intros (H4 & H5 & H6)%IH; [|done]. split_and!; try done. by exists r1.
  - intros ((H1 & H4) & (H2 & H5) & r1 & H3 & H6).
    rewrite (proj2 (Hn (parts ++ [n]) result r1)) by done. by apply IH.
Qed.

(** Collecting succeeds exactly on clean trees whose files have valid, fresh
    paths, and adds those files; the order of the directory entries does not matter. *)
Lemma collect_node_Ok node : forall parts result r,
  collect_node sha256 node parts result = Ok r <->
  tree_clean node = true /\ Forall (fun e => path_ok (se_path e)) (tree_files node parts) /\
  added (tree_files node parts) result r.
Proof.
  induction node as [| | |m c s| |children IH] using Node_rect_children; intros parts result r;
    try (cbn; naive_solver).
  { apply collect_file_Ok. }
  cbn [collect_node].
  assert (Hm : forall l, List.map (fun '(name, child) => (name, collect_node sha256 child (parts ++ [name]))) l
               = List.map (fun nc => (fst nc, collect_node sha256 (snd nc) (parts ++ [fst nc]))) l).
  { intros l. apply map_ext. by intros []. }
  rewrite Hm, sort_by_name_map by done. pose proof (sort_by_name_perm children) as Hp.
  rewrite run_all_Ok by (by rewrite Hp).
  assert (Hf : flat_map (child_files parts) (sort_by_name children) ≡ₚ tree_files (Dir (Some children)) parts).
  { cbn [tree_files]. rewrite (Permutation_flat_map (child_files parts) Hp).
    erewrite (flat_map_ext (child_files parts)); [done|]. by intros []. }
  assert (Hcl : forallb (fun nc => tree_clean (snd nc)) (sort_by_name children)
                = tree_clean (Dir (Some children))).
  { cbn [tree_clean]. apply eq_true_iff_eq. rewrite !forallb_forall.
    split; intros H x Hx; apply H; [by rewrite Hp|by rewrite <-Hp]. }
  by rewrite Hcl, Hf.
Qed.

(** ** The order of the manifest makes its paths distinct *)

Lemma bytes_ltb_irrefl a : bytes_ltb a a = false.
Proof. induction a as [|x a IH]; [done|]. cbn. by rewrite Z.ltb_irrefl, Z.eqb_refl, IH. Qed.

Lemma bytes_ltb_trans a b c : bytes_ltb a b = true -> bytes_ltb b c = true -> bytes_ltb a c = true.
Proof.
  revert b c. induction a as [|x a IH]; intros [|y b] [|z c]; cbn; try done.
  rewrite !orb_true_iff, !andb_true_iff. intros [H1|[H1 H1']] [H2|[H2 H2']]; b2p; try (left; lia).
  right. split; [lia|]. by eapply IH.
Qed.

Lemma manifest_paths_NoDup m : manifest_ok m -> NoDup (se_path <$> sm_entries m).
Proof.
  intros Hm. pose proof (mo_order m Hm) as Hs.
  assert (Hl : Sorted (fun a b => bytes_ltb a b = true) (se_path <$> sm_entries m)).
  { induction Hs as [|p l _ IH Hh]; [constructor|]. constructor; [done|].
    destruct Hh as [|q l [Hq _]]; by constructor. }
  apply Sorted_StronglySorted in Hl; [|intros a b c; apply bytes_ltb_trans].
  clear Hs Hm. induction Hl as [|p l _ IH Hp]; [constructor|]. constructor; [|done].
  intros Hin. pose proof (proj1 (Forall_forall _ _) Hp p Hin) as H. cbn in H.
  by rewrite bytes_ltb_irrefl in H.
Qed.

(** ** The comparison with the manifest *)

Lemma entry_eq (v e : SourceEntryV1) :
  se_path v = se_path e ->
  (negb (se_mode v =? se_mode e) || negb (se_length v =? se_length e)
   || negb (bytes_eqb (se_sha256 v) (se_sha256 e))) = false <-> v = e.
Proof.
  destruct v, e. cbn. intros ->. rewrite !orb_false_iff, !negb_false_iff, bytes_eqb_spec. b2p.
  split; [intros [[-> ->] ->]; done|by intros [= -> -> ->]].
Qed.

Lemma keyed_lookup es e :
  NoDup (se_path <$> es) -> list_to_map (M := Inventory) (keyed es) !! se_path e = Some e <-> e ∈ es.
Proof.
  intros Hn. rewrite <-elem_of_list_to_map by (by rewrite keyed_fst). unfold keyed.
  rewrite list_elem_of_fmap. split; [intros (x & [= _ ->] & Hx); done|]. intros He. by exists e.
Qed.

Lemma keyed_lookup_path es p e :
  list_to_map (M := Inventory) (keyed es) !! p = Some e -> p = se_path e.
Proof.
  intros H%elem_of_list_to_map_2. unfold keyed in H.
  by apply list_elem_of_fmap in H as (x & [= -> ->] & _).
Qed.

Lemma entries_match_Ok es entries :
  NoDup (se_path <$> es) ->
  entries_match (list_to_map (keyed es)) entries = Ok tt <-> Forall (fun e => e ∈ es) entries.
Proof.
  intros Hn. induction entries as [|e rest IH]; [done|]. cbn [entries_match]. unfold entry_matches.
  rewrite Forall_cons, <-IH, <-keyed_lookup by done.
  destruct (list_to_map (keyed es) !! se_path e) as [v|] eqn:E; cbn [ok_or]; [|naive_solver].
  pose proof (keyed_lookup_path es _ _ E) as Hp. pose proof (entry_eq v e (eq_sym Hp)) as Hv.
  destruct (_ || _) eqn:Eb.
  - split; [done|]. intros [[= ->] _]. by pose proof (proj2 Hv eq_refl).
  - rewrite (proj1 Hv eq_refl). naive_solver.
Qed.

Lemma same_inventory es entries :
  NoDup (se_path <$> es) -> NoDup (se_path <$> entries) ->
  (length es = length entries /\ Forall (fun e => e ∈ es) entries) <-> es ≡ₚ entries.
Proof.
  intros Hn1 Hn2. split.
  - intros [Hl Hf]. symmetry. apply submseteq_length_Permutation; [|lia].
    apply NoDup_submseteq; [by eapply NoDup_fmap_1|]. intros e He. by apply (proj1 (Forall_forall _ _) Hf).
  - intros Hp. split; [by rewrite Hp|]. apply Forall_forall. intros e He. by rewrite Hp.
Qed.

(** The staged tree is accepted exactly when it is a clean directory whose files
    are the manifest's entries. *)
Lemma verify_staged_root_Ok m root :
  manifest_ok m ->
  verify_staged_root sha256 m root = Ok tt <->
  (exists children, root = Dir (Some children)) /\ tree_clean root = true /\
  tree_files root [] ≡ₚ sm_entries m.
Proof.
  intros Hm. pose proof (manifest_paths_NoDup m Hm) as Hn. pose proof (mo_count m Hm) as Hcount.
  destruct root as [| | |mode c s|[children|]]; try (cbn; naive_solver). unfold verify_staged_root.
  set (root := Dir (Some children)). split.
  - destruct (collect_node _ _ _ _) as [actual|] eqn:Ec; [|done].
    apply collect_node_Ok in Ec as (Hclean & _ & Hn' & Hnew & _ & Hact).
    rewrite (right_id_L ∅ (∪)) in Hact. subst actual.
    rewrite map_size_list_to_map by (by rewrite keyed_fst). unfold keyed at 1. rewrite length_fmap.
    destruct (negb _) eqn:El; [done|]. b2p. intros Hmatch%entries_match_Ok; [|done].
    split_and!; [by eexists|done|]. apply same_inventory; [done|done|]. split; [lia|done].
  - intros (_ & Hclean & Hp).
    assert (Hn' : NoDup (se_path <$> tree_files root [])) by (by rewrite Hp).
    destruct (proj2 (same_inventory _ _ Hn' Hn) Hp) as [Hl Hf].
    set (actual := list_to_map (keyed (tree_files root [])) : Inventory).
    assert (Hsize : size actual = length (tree_files root [])).
    { unfold actual. rewrite map_size_list_to_map by (by rewrite keyed_fst). unfold keyed. apply length_fmap. }
    rewrite (proj2 (collect_node_Ok root [] ∅ actual)).
    + rewrite Hsize, Hl, Z.eqb_refl. cbn [negb]. by apply entries_match_Ok.
    + split_and!; [done| |split_and!].
      * rewrite Hp. eapply Forall_impl; [apply Hm|]. intros e He. apply He.
      * done.
      * apply Forall_forall. intros e _. apply lookup_empty.
      * right. rewrite Hsize, Hl. lia.
      * unfold actual. by rewrite (right_id_L ∅ (∪)).
Qed.
End source_proofs.
