(* ===== verification/AdmissionComponent.v ===== *)
(** * Component admission: the component surface

    Models [inspect_component], [push_name], [checked_count] and
    [validate_wit_contract] of
    [tools/component-admission/admission/src/lib.rs].  The validator and the
    parser are the [wasmparser] crate's: the model takes the verdict of the one
    and the payloads of the other, the kinds of payload the code looks at and
    what it reads of each.  The WIT parser is a verdict too. *)

From Stdlib Require Import String.
From S2P Require Import Prelude.
From S2P Require Import Bytes.
From S2P Require Import Text.
From S2P Require Import AdmissionRecords.

#[local] Open Scope string_scope.

Definition EXPECTED_IMPORT : list Z := bytes_of "makopa:component/console@1.0.0".
Definition EXPECTED_EXPORT : list Z := bytes_of "makopa:component/task@1.0.0".

(** [include_bytes!("../wit/console-workload.wit")] *)
Definition EXPECTED_WIT : list Z := bytes_of
"package makopa:component@1.0.0;

interface console {
  enum write-error {
    limit-exceeded,
    unavailable,
  }

  write-line: func(value: string) -> result<_, write-error>;
}

interface task {
  enum run-error {
    denied,
    exhausted,
    host-failure,
  }

  run: func() -> result<_, run-error>;
}

world console-workload {
  import console;
  export task;
}
".

#[local] Close Scope string_scope.
#[local] Open Scope list_scope.

(** ** Payloads *)

Inductive Encoding := EncodingModule | EncodingComponent.

#[global] Instance Encoding_eq_dec : EqDecision Encoding.
Proof. solve_decision. Defined.

(** An import or export: whether it is an instance, and its name with the three
    optional annotations. *)
Record Item := mkItem {
  it_instance : bool;
  it_name : list Z;
  it_implements : option (list Z);
  it_version_suffix : option (list Z);
  it_external_id : option (list Z)
}.

(** [None] in a section is an item that does not decode. *)
Inductive Payload :=
| PVersion (encoding : Encoding)
| PEnd
| PImportSection (items : list (option Item))
| PExportSection (items : list (option Item))
| PTypeSection (count : Z)
| PComponentTypeSection (count : Z)
| PCustomSection (data_len : Z)
| PCodeSectionEntry
| POther.

Record ComponentSurface := mkSurface {
  cs_imports : list (list Z);
  cs_exports : list (list Z);
  cs_section_count : Z;
  cs_type_count : Z;
  cs_custom_section_count : Z;
  cs_custom_section_bytes : Z;
  cs_maximum_depth : Z
}.

(** The local variables of the loop. *)
Record Scan := mkScan {
  sc_surface : ComponentSurface;
  sc_depth : Z;
  sc_saw_top_version : bool;
  sc_saw_top_end : bool
}.

Definition initial_scan : Scan := mkScan (mkSurface [] [] 0 0 0 0 0) 0 false false.

(** ** Helpers *)

Definition push_name (target : list (list Z)) (name : list Z) (maximum : Z) : AdmissionResult (list (list Z)) :=
  if bytes_eqb name []
     || (MAX_COMPONENT_NAME_BYTES <? len name)
     || (maximum <=? Z.of_nat (length target))
  then Err EComponentSurface else Ok (target ++ [name]).

Definition checked_count (current additional maximum : Z) : AdmissionResult Z :=
  let? value := ok_or (checked_add current additional) EComponent in
  if maximum <? value then Err EComponent else Ok value.

(** The [for] over the items of a top-level import or export section. *)
Fixpoint push_items (items : list (option Item)) (target : list (list Z)) (maximum : Z)
    : AdmissionResult (list (list Z)) :=
  match items with
  | [] => Ok target
  | None :: _ => Err EComponent
  | Some item :: rest =>
      if negb (it_instance item) then Err EComponentSurface else
      if bool_decide (is_Some (it_implements item))
         || bool_decide (is_Some (it_version_suffix item))
         || bool_decide (is_Some (it_external_id item))
      then Err EComponentSurface else
      let? target := push_name target (it_name item) maximum in
      push_items rest target maximum
  end.

(** ** Assignments to the locals *)

Definition on_surface (f : ComponentSurface -> ComponentSurface) (s : Scan) : Scan :=
  mkScan (f (sc_surface s)) (sc_depth s) (sc_saw_top_version s) (sc_saw_top_end s).

Definition set_imports (l : list (list Z)) (c : ComponentSurface) : ComponentSurface :=
  mkSurface l (cs_exports c) (cs_section_count c) (cs_type_count c) (cs_custom_section_count c)
    (cs_custom_section_bytes c) (cs_maximum_depth c).
Definition set_exports (l : list (list Z)) (c : ComponentSurface) : ComponentSurface :=
  mkSurface (cs_imports c) l (cs_section_count c) (cs_type_count c) (cs_custom_section_count c)
    (cs_custom_section_bytes c) (cs_maximum_depth c).
Definition set_section_count (n : Z) (c : ComponentSurface) : ComponentSurface :=
  mkSurface (cs_imports c) (cs_exports c) n (cs_type_count c) (cs_custom_section_count c)
    (cs_custom_section_bytes c) (cs_maximum_depth c).
Definition set_type_count (n : Z) (c : ComponentSurface) : ComponentSurface :=
  mkSurface (cs_imports c) (cs_exports c) (cs_section_count c) n (cs_custom_section_count c)
    (cs_custom_section_bytes c) (cs_maximum_depth c).
Definition set_custom (count bytes : Z) (c : ComponentSurface) : ComponentSurface :=
  mkSurface (cs_imports c) (cs_exports c) (cs_section_count c) (cs_type_count c) count bytes
    (cs_maximum_depth c).
Definition set_maximum_depth (n : Z) (c : ComponentSurface) : ComponentSurface :=
  mkSurface (cs_imports c) (cs_exports c) (cs_section_count c) (cs_type_count c)
    (cs_custom_section_count c) (cs_custom_section_bytes c) n.

(** ** The loop *)

(** The [match] on one payload. *)
Definition scan_payload (payload : Payload) (s : Scan) : AdmissionResult Scan :=
  let c := sc_surface s in
  let depth := sc_depth s in
  match payload with
  | PVersion encoding =>
      if negb (sc_saw_top_version s) then
        if negb (bool_decide (encoding = EncodingComponent)) then Err EComponent else
        Ok (mkScan c depth true (sc_saw_top_end s))
      else
        let? depth := ok_or (checked_add depth 1) EComponent in
        let maximum_depth := Z.max (cs_maximum_depth c) depth in
        if MAX_COMPONENT_DEPTH <? maximum_depth then Err EComponent else
        Ok (mkScan (set_maximum_depth maximum_depth c) depth (sc_saw_top_version s) (sc_saw_top_end s))
  | PEnd =>
      if depth =? 0 then Ok (mkScan c depth (sc_saw_top_version s) true)
      else Ok (mkScan c (depth - 1) (sc_saw_top_version s) (sc_saw_top_end s))
  | PImportSection items =>
      let c := set_section_count (cs_section_count c + 1) c in
      if depth =? 0 then
        let? imports := push_items items (cs_imports c) MAX_COMPONENT_IMPORTS in
        Ok (on_surface (fun _ => set_imports imports c) s)
      else Ok (on_surface (fun _ => c) s)
  | PExportSection items =>
      let c := set_section_count (cs_section_count c + 1) c in
      if depth =? 0 then
        let? exports := push_items items (cs_exports c) MAX_COMPONENT_EXPORTS in
        Ok (on_surface (fun _ => set_exports exports c) s)
      else Ok (on_surface (fun _ => c) s)
  | PTypeSection count | PComponentTypeSection count =>
      let c := set_section_count (cs_section_count c + 1) c in
      let? type_count := checked_count (cs_type_count c) count MAX_COMPONENT_TYPES in
      Ok (on_surface (fun _ => set_type_count type_count c) s)
  | PCustomSection data_len =>
      let c := set_section_count (cs_section_count c + 1) c in
      let? count := checked_count (cs_custom_section_count c) 1 MAX_CUSTOM_SECTIONS in
      let? bytes := checked_count (cs_custom_section_bytes c) data_len MAX_CUSTOM_SECTION_BYTES in
      Ok (on_surface (fun _ => set_custom count bytes c) s)
  | PCodeSectionEntry => Ok s
  | POther =>
      let? section_count := checked_count (cs_section_count c) 1 MAX_COMPONENT_SECTIONS in
      Ok (on_surface (fun _ => set_section_count section_count c) s)
  end.

(** The [for] over the parser's results; [None] is a parse error. *)
Fixpoint scan_all (payloads : list (option Payload)) (s : Scan) : AdmissionResult Scan :=
  match payloads with
  | [] => Ok s
  | None :: _ => Err EComponent
  | Some payload :: rest =>
      let? s := scan_payload payload s in
      if MAX_COMPONENT_SECTIONS <? cs_section_count (sc_surface s) then Err EComponent else
      scan_all rest s
  end.

Section component.
(** [Validator::new_with_features(..).validate_all(bytes).is_ok()] and
    [Parser::new(0).parse_all(bytes)] *)
Variable wasm_validate : list Z -> bool.
Variable wasm_parse_all : list Z -> list (option Payload).

Definition inspect_component (bytes : list Z) : AdmissionResult ComponentSurface :=
  if bytes_eqb bytes [] || (MAX_COMPONENT_BYTES <? len bytes) then Err ESize else
  if negb (wasm_validate bytes) then Err EComponent else
  let? s := scan_all (wasm_parse_all bytes) initial_scan in
  let c := sc_surface s in
  if negb (sc_saw_top_version s)
     || negb (sc_saw_top_end s)
     || negb (bool_decide (cs_imports c = [EXPECTED_IMPORT]))
     || negb (bool_decide (cs_exports c = [EXPECTED_EXPORT]))
     || (MAX_COMPONENT_IMPORTS <? Z.of_nat (length (cs_imports c)))
     || (MAX_COMPONENT_EXPORTS <? Z.of_nat (length (cs_exports c)))
  then Err EComponentSurface else Ok c.
End component.

Section wit.
(** [SourceMap::parse] and [Resolve::push_group] succeed on the source. *)
Variable wit_parses : list Z -> bool.

Definition validate_wit_contract (bytes : list Z) : AdmissionResult unit :=
  if bytes_eqb bytes [] || (MAX_WIT_BYTES <? len bytes) || negb (bytes_eqb bytes EXPECTED_WIT)
  then Err EWit else
  if negb (utf8_valid bytes) then Err EUtf8 else
  if negb (wit_parses bytes) then Err EWit else Ok tt.
End wit.
