(* ===== verification/AdmissionComponentProofs.v ===== *)
(** * Component admission: what the inspection accepts

    The totals of a payload stream, computed without any check, and the lemma
    that the inspection accepts exactly the streams whose totals are within the
    limits and whose top level is the expected surface. *)

From S2P Require Import Prelude.
From S2P Require Import Panic.
From S2P Require Import Bytes.
From S2P Require Import Text.
From S2P Require Import AdmissionRecords.
From S2P Require Import AdmissionManifestProofs.
From S2P Require Import AdmissionComponent.

(** ** Totals of a stream *)

(** A payload with the nesting level it belongs to: the first version opens
    level zero, every later one a level below the current one, an end closes one. *)
Fixpoint levels (seen : bool) (depth : Z) (ps : list Payload) : list (Z * Payload) :=
  match ps with
  | [] => []
  | PVersion e :: rest =>
      if seen then (depth + 1, PVersion e) :: levels true (depth + 1) rest
      else (depth, PVersion e) :: levels true depth rest
  | PEnd :: rest => (depth, PEnd) :: levels seen (if depth =? 0 then 0 else depth - 1) rest
  | p :: rest => (depth, p) :: levels seen depth rest
  end.

Definition total_of (f : Payload -> Z) (ps : list Payload) : Z := foldr (fun p n => f p + n) 0 ps.

Definition sections (p : Payload) : Z :=
  match p with PVersion _ | PEnd | PCodeSectionEntry => 0 | _ => 1 end.
Definition types (p : Payload) : Z :=
  match p with PTypeSection n | PComponentTypeSection n => n | _ => 0 end.
Definition customs (p : Payload) : Z := match p with PCustomSection _ => 1 | _ => 0 end.
Definition custom_bytes (p : Payload) : Z := match p with PCustomSection n => n | _ => 0 end.
Definition import_items (p : Payload) : list (option Item) :=
  match p with PImportSection items => items | _ => [] end.
Definition export_items (p : Payload) : list (option Item) :=
  match p with PExportSection items => items | _ => [] end.

Definition deepest (lps : list (Z * Payload)) : Z := foldr (fun lp n => Z.max (fst lp) n) 0 lps.

Definition top_items (sel : Payload -> list (option Item)) (lps : list (Z * Payload)) : list (option Item) :=
  flat_map (fun lp => if fst lp =? 0 then sel (snd lp) else []) lps.

Definition top_end (lp : Z * Payload) : bool :=
  (fst lp =? 0) && match snd lp with PEnd => true | _ => false end.

(** The encoding that the first version payload declares. *)
Fixpoint first_version (ps : list Payload) : option Encoding :=
  match ps with
  | [] => None
  | PVersion e :: _ => Some e
  | _ :: rest => first_version rest
  end.

(** A plain instance: it decodes and carries no annotation. *)
Definition plain (i : option Item) : bool :=
  match i with
  | Some it => it_instance it && bool_decide (it_implements it = None)
               && bool_decide (it_version_suffix it = None) && bool_decide (it_external_id it = None)
  | None => false
  end.

Definition item_names (items : list (option Item)) : list (list Z) := omap (fmap it_name) items.

(** The parser's counts are unsigned. *)
Definition payload_typed (p : Payload) : Prop := 0 <= types p /\ 0 <= custom_bytes p.

(** ** The scan *)

Definition name_ok (name : list Z) : Prop := name <> [] /\ len name <= MAX_COMPONENT_NAME_BYTES.

Record limits (c : ComponentSurface) : Prop := {
  li_sections : 0 <= cs_section_count c <= MAX_COMPONENT_SECTIONS;
  li_types : 0 <= cs_type_count c <= MAX_COMPONENT_TYPES;
  li_customs : 0 <= cs_custom_section_count c <= MAX_CUSTOM_SECTIONS;
  li_custom_bytes : 0 <= cs_custom_section_bytes c <= MAX_CUSTOM_SECTION_BYTES;
  li_depth : 0 <= cs_maximum_depth c <= MAX_COMPONENT_DEPTH;
  li_imports : Forall name_ok (cs_imports c) /\ Z.of_nat (length (cs_imports c)) <= MAX_COMPONENT_IMPORTS;
  li_exports : Forall name_ok (cs_exports c) /\ Z.of_nat (length (cs_exports c)) <= MAX_COMPONENT_EXPORTS
}.

(** What the scan makes of a stream when nothing is checked. *)
Definition after (ps : list Payload) (s : Scan) : ComponentSurface :=
  let c := sc_surface s in
  let lps := levels (sc_saw_top_version s) (sc_depth s) ps in
  mkSurface (cs_imports c ++ item_names (top_items import_items lps))
    (cs_exports c ++ item_names (top_items export_items lps))
    (cs_section_count c + total_of sections ps) (cs_type_count c + total_of types ps)
    (cs_custom_section_count c + total_of customs ps)
    (cs_custom_section_bytes c + total_of custom_bytes ps)
    (Z.max (cs_maximum_depth c) (deepest lps)).

Lemma push_items_Ok items maximum : forall target res,
  push_items items target maximum = Ok res <->
  Forall (fun i => plain i = true) items /\ Forall name_ok (item_names items) /\
  (items = [] \/ Z.of_nat (length target + length (item_names items)) <= maximum) /\
  res = target ++ item_names items.
Proof.
  induction items as [|i rest IH]; intros target res; cbn [push_items].
  { cbn. rewrite app_nil_r. split; [intros [= <-]; split_and!; try done; by left|by intros (_ & _ & _ & ->)]. }
  destruct i as [it|]; [|split; [done|]; intros [H _]; by apply Forall_cons in H as [H _]].
  cbn [item_names omap list_omap fmap option_fmap option_map]. fold (item_names rest).
  rewrite !Forall_cons. cbn [plain]. unfold push_name.
  destruct (it_instance it); cbn [negb andb]; [|naive_solver].
  destruct (it_implements it) as [x|]; cbn; [naive_solver|].
  destruct (it_version_suffix it) as [x|]; cbn; [naive_solver|].
  destruct (it_external_id it) as [x|]; cbn; [naive_solver|].
  unfold name_ok at 1. destruct (bytes_eqb (it_name it) []) eqn:En; cbn.
  { apply bytes_eqb_spec in En. naive_solver. }
  apply bytes_eqb_false in En.
  destruct (Z.ltb_spec MAX_COMPONENT_NAME_BYTES (len (it_name it))); cbn; [naive_solver lia|].
  destruct (Z.leb_spec maximum (Z.of_nat (length target))); cbn.
  { split; [done|]. intros (_ & _ & [|] & _); [done|lia]. }
  rewrite IH, length_app, <-app_assoc. cbn [length app].
  split; [intros (? & ? & Hb & ->)|intros ((_ & ?) & (_ & ?) & Hb & ->)]; split_and!; try done.
  - right. destruct Hb as [->|Hb]; cbn; lia.
  - destruct Hb as [|Hb]; [done|]. right. lia.
Qed.

(** One payload, nothing checked. *)
Definition account (p : Payload) (s : Scan) : Scan :=
  let c := sc_surface s in
  let top := sc_depth s =? 0 in
  let depth := match p with
               | PVersion _ => if sc_saw_top_version s then sc_depth s + 1 else sc_depth s
               | PEnd => if top then 0 else sc_depth s - 1
               | _ => sc_depth s
               end in
  mkScan
    (mkSurface (if top then cs_imports c ++ item_names (import_items p) else cs_imports c)
       (if top then cs_exports c ++ item_names (export_items p) else cs_exports c)
       (cs_section_count c + sections p) (cs_type_count c + types p)
       (cs_custom_section_count c + customs p) (cs_custom_section_bytes c + custom_bytes p)
       (match p with PVersion _ => Z.max (cs_maximum_depth c) depth | _ => cs_maximum_depth c end))
    depth
    (match p with PVersion _ => true | _ => sc_saw_top_version s end)
    (match p with PEnd => top || sc_saw_top_end s | _ => sc_saw_top_end s end).

(** The conditions that are not limits. *)
Definition admissible (p : Payload) (s : Scan) : Prop :=
  match p with
  | PVersion e => sc_saw_top_version s = true \/ e = EncodingComponent
  | _ => sc_depth s = 0 -> Forall (fun i => plain i = true) (import_items p ++ export_items p)
  end.

Definition scan_wf (s : Scan) : Prop :=
  limits (sc_surface s) /\ 0 <= sc_depth s <= cs_maximum_depth (sc_surface s).

Lemma checked_count_cases current additional maximum :
  maximum < two64 ->
  (checked_count current additional maximum = Ok (current + additional) /\ current + additional <= maximum) \/
  (checked_count current additional maximum = Err EComponent /\ maximum < current + additional).
Proof.
  intros Hm. unfold checked_count, checked_add. destruct (Z.ltb_spec (current + additional) two64); cbn.
  - destruct (Z.ltb_spec maximum (current + additional)); auto.
  - right. split; [done|lia].
Qed.

Ltac component_limits :=
  unfold MAX_COMPONENT_SECTIONS, MAX_COMPONENT_TYPES, MAX_CUSTOM_SECTIONS, MAX_CUSTOM_SECTION_BYTES,
    MAX_COMPONENT_DEPTH, MAX_COMPONENT_IMPORTS, MAX_COMPONENT_EXPORTS in *.

Definition within_sections (s : Scan) : Prop := cs_section_count (sc_surface s) <= MAX_COMPONENT_SECTIONS.

Lemma accepted c d v f (s1 : Scan) (A : Prop) :
  A -> (cs_section_count c <= MAX_COMPONENT_SECTIONS -> limits c) ->
  (@Ok _ AdmissionError (mkScan c d v f) = Ok s1 /\ within_sections s1) <->
  (A /\ limits c /\ s1 = mkScan c d v f).
Proof.
  intros HA Hl. split; [intros [[= <-] Hw]; auto|]. intros (_ & Hlim & ->). split; [done|]. apply Hlim.
Qed.

Lemma rejected c d v f (s1 : Scan) e (A : Prop) :
  ~ (A /\ limits c) ->
  (@Err Scan AdmissionError e = Ok s1 /\ within_sections s1) <-> (A /\ limits c /\ s1 = mkScan c d v f).
Proof. intros Hn. split; [by intros [? _]|]. intros (? & ? & _). naive_solver. Qed.

(** Normal forms for the parts of the surface that a payload leaves alone. *)
Ltac unchanged :=
  rewrite ?app_nil_r, ?Z.add_0_r;
  repeat match goal with |- context [if ?b then ?x else ?x] =>
    replace (if b then x else x) with x by (by destruct b) end.

(** A rejection contradicts one limit. *)
Ltac breaks_limit := apply rejected; intros (_ & []); cbn in *; lia.

(** An acceptance keeps every limit. *)
Ltac keeps_limits := cbn; intros Hw; split; cbn; (done || lia).

Definition names_fit (maximum : Z) (names : list (list Z)) : Prop :=
  Forall name_ok names /\ Z.of_nat (length names) <= maximum.

Lemma push_items_cases items target maximum :
  names_fit maximum target ->
  (push_items items target maximum = Ok (target ++ item_names items) /\
   Forall (fun i => plain i = true) items /\ names_fit maximum (target ++ item_names items)) \/
  (exists e, push_items items target maximum = Err e /\
   ~ (Forall (fun i => plain i = true) items /\ names_fit maximum (target ++ item_names items))).
Proof.
  intros [Ht Hm]. destruct (push_items items target maximum) as [res|e] eqn:E.
  - left. apply push_items_Ok in E as (Hp & Hn & Hb & ->). split_and!; [done|done|].
    split; [by apply Forall_app_2|]. rewrite length_app. destruct Hb as [->|Hb]; cbn in *; lia.
  - right. exists e. split; [done|]. intros (Hp & Hn & Hb). rewrite length_app in Hb.
    apply Forall_app in Hn as [_ Hn].
    assert (push_items items target maximum = Ok (target ++ item_names items)); [|congruence].
    apply push_items_Ok. split_and!; try done. by right.
Qed.

(** One step of the loop. *)
Lemma scan_payload_Ok p s s1 :
  scan_wf s -> payload_typed p ->
  (scan_payload p s = Ok s1 /\ within_sections s1) <->
  (admissible p s /\ limits (sc_surface (account p s)) /\ s1 = account p s).
Proof.
  intros [[Hs Ht Hc Hb Hd Hi He] Hdep] [Hty Hcb].
  destruct s as [[im ex sec ty cu cb md] depth seen fin]. cbn in *.
  destruct p as [e| |items|items|n|n|n| |]; unfold scan_payload, account, admissible, on_surface;
    cbn [sc_surface sc_depth sc_saw_top_version sc_saw_top_end cs_imports cs_exports cs_section_count
         cs_type_count cs_custom_section_count cs_custom_section_bytes cs_maximum_depth sections types
         customs custom_bytes import_items export_items set_section_count item_names omap list_omap app
         set_maximum_depth set_imports set_exports set_type_count set_custom] in *; unchanged.
  - destruct seen; cbn [negb].
    + rewrite checked_add_lt by (component_limits; unfold two64; lia). cbn [ok_or].
      destruct (Z.ltb_spec MAX_COMPONENT_DEPTH (Z.max md (depth + 1))); [breaks_limit|].
      apply accepted; [by left|keeps_limits].
    + rewrite Z.max_l by lia. destruct (bool_decide_reflect (e = EncodingComponent)) as [->|Hne]; cbn [negb].
      * apply accepted; [by right|keeps_limits].
      * apply rejected. naive_solver.
  - destruct (Z.eqb_spec depth 0) as [->|]; (apply accepted; [done|keeps_limits]).
  - destruct (Z.eqb_spec depth 0) as [->|]; [|apply accepted; [done|keeps_limits]].
    destruct (push_items_cases items im MAX_COMPONENT_IMPORTS Hi) as [(-> & Hp & Hn)|(e & -> & Hn)].
    + apply accepted; [done|keeps_limits].
    + apply rejected. intros [Hp []]. apply Hn. split; [by apply Hp|done].
  - destruct (Z.eqb_spec depth 0) as [->|]; [|apply accepted; [done|keeps_limits]].
    destruct (push_items_cases items ex MAX_COMPONENT_EXPORTS He) as [(-> & Hp & Hn)|(e & -> & Hn)].
    + apply accepted; [done|keeps_limits].
    + apply rejected. intros [Hp []]. apply Hn. split; [by apply Hp|done].
  - destruct (checked_count_cases ty n MAX_COMPONENT_TYPES ltac:(done)) as [[-> ?]|[-> ?]];
      [apply accepted; [done|keeps_limits]|breaks_limit].
  - destruct (checked_count_cases ty n MAX_COMPONENT_TYPES ltac:(done)) as [[-> ?]|[-> ?]];
      [apply accepted; [done|keeps_limits]|breaks_limit].
  - destruct (checked_count_cases cu 1 MAX_CUSTOM_SECTIONS ltac:(done)) as [[-> ?]|[-> ?]]; [|breaks_limit].
    destruct (checked_count_cases cb n MAX_CUSTOM_SECTION_BYTES ltac:(done)) as [[-> ?]|[-> ?]];
      [apply accepted; [done|keeps_limits]|breaks_limit].
  - apply accepted; [done|keeps_limits].
  - destruct (checked_count_cases sec 1 MAX_COMPONENT_SECTIONS ltac:(done)) as [[-> ?]|[-> ?]];
      [apply accepted; [done|keeps_limits]|breaks_limit].
Qed.

(** ** The loop *)

Definition account_all (ps : list Payload) (s : Scan) : Scan := fold_left (fun s p => account p s) ps s.

Fixpoint admissible_all (ps : list Payload) (s : Scan) : Prop :=
  match ps with
  | [] => True
  | p :: rest => admissible p s /\ admissible_all rest (account p s)
  end.

Lemma account_wf p s : scan_wf s -> limits (sc_surface (account p s)) -> scan_wf (account p s).
Proof.
  intros [_ Hd] Hl. split; [done|]. destruct s as [c depth seen fin]. cbn in *.
  destruct p; cbn; try lia; [destruct seen; lia|]. destruct (Z.eqb_spec depth 0); lia.
Qed.

Lemma item_names_app l k : item_names (l ++ k) = item_names l ++ item_names k.
Proof. apply omap_app. Qed.

Lemma after_cons p ps s :
  0 <= sc_depth s <= cs_maximum_depth (sc_surface s) -> after (p :: ps) s = after ps (account p s).
Proof.
  intros Hd. destruct s as [[im ex sec ty cu cb md] depth seen fin]. cbn in Hd.
  unfold after, account, total_of, top_items, deepest.
  destruct p; [destruct seen|..]; cbn [sc_surface sc_depth sc_saw_top_version sc_saw_top_end cs_imports
    cs_exports cs_section_count cs_type_count cs_custom_section_count cs_custom_section_bytes
    cs_maximum_depth levels flat_map foldr fst snd import_items export_items sections types customs
    custom_bytes];
    destruct (Z.eqb_spec depth 0) as [->|]; cbn [app item_names omap list_omap];
    try (destruct (Z.eqb_spec (0 + 1) 0); [lia|]); try (destruct (Z.eqb_spec (depth + 1) 0); [lia|]);
    fold item_names; rewrite ?item_names_app, ?app_nil_r, ?app_assoc; change (item_names []) with (@nil (list Z)); rewrite ?app_nil_r; f_equal; lia.
Qed.

Lemma total_of_nonneg f ps : Forall (fun p => 0 <= f p) ps -> 0 <= total_of f ps.
Proof. induction 1 as [|p ps Hp _ IH]; [done|]. unfold total_of in *. cbn. lia. Qed.

(** The totals only grow, so the limits hold all along when they hold at the end. *)
Lemma limits_after ps s :
  Forall payload_typed ps ->
  0 <= cs_section_count (sc_surface s) -> 0 <= cs_type_count (sc_surface s) ->
  0 <= cs_custom_section_count (sc_surface s) -> 0 <= cs_custom_section_bytes (sc_surface s) ->
  0 <= cs_maximum_depth (sc_surface s) -> limits (after ps s) -> limits (sc_surface s).
Proof.
  intros Ht H1 H2 H3 H4 H5 [Ls Lt Lc Lb Ld Li Le]. cbn in *.
  pose proof (total_of_nonneg sections ps) as T1. pose proof (total_of_nonneg customs ps) as T2.
  pose proof (total_of_nonneg types ps) as T3. pose proof (total_of_nonneg custom_bytes ps) as T4.
  specialize (T1 ltac:(apply Forall_true; by intros [])). specialize (T2 ltac:(apply Forall_true; by intros [])).
  specialize (T3 ltac:(eapply Forall_impl; [exact Ht|]; by intros ? [])).
  specialize (T4 ltac:(eapply Forall_impl; [exact Ht|]; by intros ? [])).
  rewrite length_app in Li, Le. destruct Li as [Li Li'], Le as [Le Le'].
  apply Forall_app in Li as [Li _], Le as [Le _]. split; try lia; (split; [done|lia]).
Qed.

Lemma scan_all_Ok ps : forall s s',
  scan_wf s -> Forall payload_typed ps ->
  scan_all (Some <$> ps) s = Ok s' <->
  admissible_all ps s /\ limits (after ps s) /\ s' = account_all ps s.
Proof.
  induction ps as [|p ps IH]; intros s s' Hwf Ht.
  { cbn. replace (after [] s) with (sc_surface s).
    - split; [intros [= <-]; split_and!; [done|apply Hwf|done]|]. by intros (_ & _ & ->).
    - destruct Hwf as [[] _]. destruct s as [[] ? ? ?]. unfold after. cbn in *. rewrite !app_nil_r.
      f_equal; lia. }
  pose proof (proj2 Hwf) as Hdep. apply Forall_cons in Ht as [Hp Ht]. rewrite after_cons by done.
  cbn [fmap list_fmap scan_all admissible_all account_all fold_left]. fold (account_all ps (account p s)).
  pose proof (scan_payload_Ok p s) as Hstep. unfold within_sections in Hstep. split.
  - destruct (scan_payload p s) as [s1|] eqn:E; [|done].
    destruct (Z.ltb_spec MAX_COMPONENT_SECTIONS (cs_section_count (sc_surface s1))); [done|].
    destruct (proj1 (Hstep s1 Hwf Hp) (conj eq_refl H)) as (Ha & Hl & ->).
    intros (Hr & Hlim & ->)%IH; [done|by apply account_wf|done].
  - intros ((Ha & Hr) & Hlim & ->).
    assert (Hl : limits (sc_surface (account p s))).
    { destruct (proj1 Hwf). destruct Hp as [Hp1 Hp2].
      eapply limits_after; [exact Ht|..|exact Hlim]; cbn; [destruct p; cbn; lia|lia|destruct p; cbn; lia|lia|].
      destruct p; lia. }
    destruct (proj2 (Hstep (account p s) Hwf Hp) (conj Ha (conj Hl eq_refl))) as [-> Hsec].
    rewrite (proj2 (Z.ltb_ge _ _)) by done. apply IH; [by apply account_wf|done|done].
Qed.

Definition depth_wf (s : Scan) : Prop := 0 <= sc_depth s <= cs_maximum_depth (sc_surface s).

Lemma account_depth_wf p s : depth_wf s -> depth_wf (account p s).
Proof.
  unfold depth_wf. destruct s as [c depth seen fin]. cbn. intros Hd.
  destruct p; cbn; try lia; [destruct seen; lia|]. destruct (Z.eqb_spec depth 0); lia.
Qed.

Lemma after_nil s : depth_wf s -> after [] s = sc_surface s.
Proof.
  unfold depth_wf. destruct s as [[] ? ? ?]. unfold after. cbn. intros Hd. rewrite !app_nil_r. f_equal; lia.
Qed.

Lemma account_all_surface ps : forall s, depth_wf s -> sc_surface (account_all ps s) = after ps s.
Proof.
  induction ps as [|p ps IH]; intros s Hd; [symmetry; by apply after_nil|].
  rewrite after_cons by done. cbn [account_all fold_left]. apply IH. by apply account_depth_wf.
Qed.

(** The level of [p] and the position after it, as the scan sees them. *)
Lemma levels_cons p ps s :
  exists l, levels (sc_saw_top_version s) (sc_depth s) (p :: ps) =
    (l, p) :: levels (sc_saw_top_version (account p s)) (sc_depth (account p s)) ps /\
    (match p with PVersion _ => True | _ => l = sc_depth s end).
Proof.
  destruct s as [c depth seen fin]. destruct p; [destruct seen|..]; cbn;
    try destruct (Z.eqb_spec depth 0) as [->|]; by eexists.
Qed.

Lemma account_all_version ps : forall s,
  sc_saw_top_version (account_all ps s) =
  sc_saw_top_version s || match first_version ps with Some _ => true | None => false end.
Proof.
  induction ps as [|p ps IH]; intros s; cbn [account_all fold_left first_version]; [by rewrite orb_false_r|].
  fold (account_all ps (account p s)). rewrite IH. destruct p; cbn; try done. by rewrite orb_true_r.
Qed.

Lemma account_all_end ps : forall s,
  sc_saw_top_end (account_all ps s) =
  sc_saw_top_end s || existsb top_end (levels (sc_saw_top_version s) (sc_depth s) ps).
Proof.
  induction ps as [|p ps IH]; intros s; [cbn; by rewrite orb_false_r|].
  cbn [account_all fold_left]. fold (account_all ps (account p s)). rewrite IH.
  destruct (levels_cons p ps s) as (l & -> & Hl). cbn [existsb]. rewrite orb_assoc. f_equal.
  destruct p; cbn in *; unfold top_end; cbn; rewrite ?andb_false_r, ?orb_false_r; try done.
  subst l. rewrite andb_true_r. apply orb_comm.
Qed.

(** The conditions along the way, on the stream as a whole. *)
Lemma admissible_all_spec ps : forall s,
  admissible_all ps s <->
  (sc_saw_top_version s = true \/ first_version ps <> Some EncodingModule) /\
  Forall (fun i => plain i = true)
    (top_items import_items (levels (sc_saw_top_version s) (sc_depth s) ps)) /\
  Forall (fun i => plain i = true)
    (top_items export_items (levels (sc_saw_top_version s) (sc_depth s) ps)).
Proof.
  induction ps as [|p ps IH]; intros s.
  { cbn. split; [|done]. intros _. split_and!; [by right|constructor|constructor]. }
  cbn [admissible_all]. rewrite IH. destruct (levels_cons p ps s) as (l & -> & Hl).
  unfold top_items. cbn [flat_map fst snd]. rewrite !Forall_app.
  set (tail := levels _ _ ps). destruct p; cbn [admissible import_items export_items first_version] in *;
    try subst l; cbn; rewrite ?app_nil_r; destruct (Z.eqb_spec (sc_depth s) 0) as [E|E];
    try rewrite E; cbn; try (rewrite (proj2 (Z.eqb_neq _ _) E)).
  all: try (destruct (_ =? 0)); try (destruct encoding); intuition (auto; congruence).
Qed.

(** ** The inspection *)

(** A stream whose top level is the expected surface: one component, closed,
    with one plain import and one plain export, of the expected names. *)
Record expected_surface (ps : list Payload) : Prop := {
  es_component : first_version ps = Some EncodingComponent;
  es_closed : existsb top_end (levels false 0 ps) = true;
  es_import : exists i, top_items import_items (levels false 0 ps) = [Some i] /\
                        plain (Some i) = true /\ it_name i = EXPECTED_IMPORT;
  es_export : exists i, top_items export_items (levels false 0 ps) = [Some i] /\
                        plain (Some i) = true /\ it_name i = EXPECTED_EXPORT
}.

Definition stream_surface (ps : list Payload) : ComponentSurface :=
  mkSurface [EXPECTED_IMPORT] [EXPECTED_EXPORT] (total_of sections ps) (total_of types ps)
    (total_of customs ps) (total_of custom_bytes ps) (deepest (levels false 0 ps)).

Record within_limits (ps : list Payload) : Prop := {
  wl_sections : total_of sections ps <= MAX_COMPONENT_SECTIONS;
  wl_types : total_of types ps <= MAX_COMPONENT_TYPES;
  wl_customs : total_of customs ps <= MAX_CUSTOM_SECTIONS;
  wl_custom_bytes : total_of custom_bytes ps <= MAX_CUSTOM_SECTION_BYTES;
  wl_depth : deepest (levels false 0 ps) <= MAX_COMPONENT_DEPTH
}.

Lemma scan_all_decodes l : forall s s', scan_all l s = Ok s' -> exists ps, l = Some <$> ps.
Proof.
  induction l as [|[p|] l IH]; intros s s' H; [by exists []| |done].
  cbn [scan_all] in H. destruct (scan_payload p s) as [s1|]; [|done]. destruct (_ <? _); [done|].
  destruct (IH _ _ H) as [ps ->]. by exists (p :: ps).
Qed.

Lemma deepest_nonneg lps : 0 <= deepest lps.
Proof. induction lps as [|[l p] lps IH]; [done|]. unfold deepest in *. cbn. lia. Qed.

Lemma initial_wf : scan_wf initial_scan.
Proof. split; [split|]; cbn; try (split; [constructor|]); component_limits; cbn; lia. Qed.

(** All items plain and one name: one item. *)
Lemma one_item items name :
  (Forall (fun i => plain i = true) items /\ item_names items = [name]) <->
  exists i, items = [Some i] /\ plain (Some i) = true /\ it_name i = name.
Proof.
  split.
  - intros [Hp Hn]. destruct items as [|[i|] rest]; [done| |by apply Forall_cons in Hp as [Hp _]].
    apply Forall_cons in Hp as [Hi Hp]. cbn in Hn. injection Hn as Hn Hr. exists i.
    destruct rest as [|[j|] rest]; [done|done|by apply Forall_cons in Hp as [Hp _]].
  - intros (i & -> & Hp & <-). split; [by apply Forall_singleton|done].
Qed.

Lemma limits_initial ps :
  Forall payload_typed ps -> cs_imports (after ps initial_scan) = [EXPECTED_IMPORT] ->
  cs_exports (after ps initial_scan) = [EXPECTED_EXPORT] ->
  (limits (after ps initial_scan) <-> within_limits ps) /\ after ps initial_scan = stream_surface ps.
Proof.
  intros Ht Hi He.
  pose proof (total_of_nonneg sections ps) as T1. pose proof (total_of_nonneg customs ps) as T2.
  pose proof (total_of_nonneg types ps) as T3. pose proof (total_of_nonneg custom_bytes ps) as T4.
  specialize (T1 ltac:(apply Forall_true; by intros [])). specialize (T2 ltac:(apply Forall_true; by intros [])).
  specialize (T3 ltac:(eapply Forall_impl; [exact Ht|]; by intros ? [])).
  specialize (T4 ltac:(eapply Forall_impl; [exact Ht|]; by intros ? [])).
  pose proof (deepest_nonneg (levels false 0 ps)) as T5.
  assert (Hs : after ps initial_scan = stream_surface ps).
  { unfold after, stream_surface in *. cbn in *. f_equal; [done|done|lia]. }
  split; [|done]. rewrite Hs. split.
  - intros []. cbn in *. split; lia.
  - intros []. split; cbn; try lia; (split; [repeat constructor; vm_compute; congruence|done]).
Qed.

Section inspection.
Variable wasm_validate : list Z -> bool.
Variable wasm_parse_all : list Z -> list (option Payload).
Hypothesis parse_typed : forall bytes p, Some p ∈ wasm_parse_all bytes -> payload_typed p.

Lemma inspect_component_Ok bytes c :
  inspect_component wasm_validate wasm_parse_all bytes = Ok c <->
  1 <= len bytes <= MAX_COMPONENT_BYTES /\ wasm_validate bytes = true /\
  exists ps, wasm_parse_all bytes = Some <$> ps /\ expected_surface ps /\ within_limits ps /\
             c = stream_surface ps.
Proof.
  assert (Htyped : forall ps, wasm_parse_all bytes = Some <$> ps -> Forall payload_typed ps).
  { intros ps Hps. apply Forall_forall. intros p Hp. apply (parse_typed bytes).
    rewrite Hps. by apply list_elem_of_fmap_2. }
  unfold inspect_component. split.
  - destruct (_ || _) eqn:E0; [done|]. apply orb_false_iff in E0 as [E0 E1]. apply bytes_eqb_false in E0.
    destruct (wasm_validate bytes); [|done]. cbn [negb].
    destruct (scan_all _ _) as [s|] eqn:Es; [|done]. intros H.
    destruct (scan_all_decodes _ _ _ Es) as [ps Hps]. rewrite Hps in Es.
    apply scan_all_Ok in Es as (Ha & Hl & ->); [|apply initial_wf|auto].
    rewrite account_all_version, account_all_end, account_all_surface in H by (split; cbn; lia).
    apply admissible_all_spec in Ha as (Hv & Hpi & Hpe).
    destruct (_ || _) eqn:E in H; [done|]. injection H as <-. rewrite !orb_false_iff in E. b2p.
    destruct E as (((((E2 & E3) & E4) & E5) & _) & _). cbn [initial_scan sc_saw_top_version sc_saw_top_end orb] in E2, E3.
    destruct (limits_initial ps (Htyped ps Hps) E4 E5) as [Hlim Hs].
    split_and!; [unfold len in *; destruct bytes; [done|cbn [length]; lia]|lia|done|].
    exists ps. split_and!; [done| |by apply Hlim|done].
    destruct E2 as [|E2], E3 as [|E3]; try done. destruct Hv as [|Hv]; [done|].
    split; [|done|by apply one_item|by apply one_item]. destruct (first_version ps) as [[]|]; done.
  - intros ([Hlen Hmax] & Hval & ps & Hps & [Hc He Hi Hx] & Hlim & ->).
    assert (Hne : bytes_eqb bytes [] = false) by (apply bytes_eqb_false; intros ->; unfold len in Hlen; cbn [length] in Hlen; lia).
    rewrite Hne, Hval, (proj2 (Z.ltb_ge _ _)) by lia. cbn [orb negb].
    apply one_item in Hi as [Hpi Hi], Hx as [Hpe Hx].
    destruct (limits_initial ps (Htyped ps Hps)) as [Hl Hs]; [done|done|].
    rewrite Hps, (proj2 (scan_all_Ok ps initial_scan (account_all ps initial_scan) initial_wf (Htyped ps Hps))).
    + rewrite account_all_version, account_all_end, account_all_surface by (split; cbn; lia).
      rewrite Hc, Hs. cbn [initial_scan sc_saw_top_version sc_saw_top_end sc_depth]. rewrite He. done.
    + split_and!; [|by apply Hl|done]. apply admissible_all_spec. split_and!; [|done|done].
      right. by rewrite Hc.
Qed.
End inspection.
