(* ===== verification/AdmissionBundle.v ===== *)
(** * Component admission: the bundle

    Models the signature, [verify_bundle] and the report of
    [tools/component-admission/admission/src/lib.rs].  The crates the tool calls
    ([sha2], [ed25519-dalek], [wasmparser], [wit-parser]) are a class of
    operations. *)

From Stdlib Require Import String.
From S2P Require Import Prelude.
From S2P Require Import Bytes.
From S2P Require Import Text.
From S2P Require Import AdmissionRecords.
From S2P Require Import AdmissionManifest.
From S2P Require Import AdmissionDocuments.
From S2P Require Import AdmissionSource.
From S2P Require Import AdmissionComponent.


#[local] Open Scope list_scope.

(** Both separators end in a NUL. *)
Definition SIGNATURE_DOMAIN : list Z := bytes_of "MAKOPA-COMPONENT-ADMISSION-V1"%string ++ [0].
Definition KEY_ID_DOMAIN : list Z := bytes_of "MAKOPA-ED25519-KEY-ID-V1"%string ++ [0].

(** A JSON fragment, with the double quotes written as single ones. *)
Definition json (s : string) : list Z := List.map (fun b => if (b =? 39)%Z then 34 else b) (bytes_of s).

(** ** The crates *)

Class Crates := {
  (** [sha2]: [Sha256::digest] *)
  sha256 : list Z -> list Z;
  (** [ed25519_dalek]: keys, [VerifyingKey::from_bytes], [is_weak],
      [Signature::from_slice], [verify_strict] *)
  VerifyingKey : Type;
  Signature : Type;
  key_from_bytes : list Z -> option VerifyingKey;
  key_is_weak : VerifyingKey -> bool;
  signature_from_slice : list Z -> option Signature;
  verify_strict : VerifyingKey -> list Z -> Signature -> bool;
  (** [wasmparser]: the validator's verdict and the parser's payloads *)
  wasm_validate : list Z -> bool;
  wasm_parse_all : list Z -> list (option Payload);
  (** [wit_parser]: the source parses and resolves *)
  wit_parses : list Z -> bool;
  (** a digest is 32 bytes *)
  sha256_length : forall bytes, length (sha256 bytes) = 32%nat;
  (** the parser's counts are unsigned *)
  wasm_counts : forall bytes p, Some p ∈ wasm_parse_all bytes ->
    match p with
    | PTypeSection n | PComponentTypeSection n | PCustomSection n => 0 <= n
    | _ => True
    end
}.


(** ** Signatures *)

Definition signing_key_id `{Crates} (public_key : list Z) : list Z :=
  take 16 (sha256 (KEY_ID_DOMAIN ++ public_key)).

Definition signature_message (admission_record : list Z) : AdmissionResult (list Z) :=
  let? _ := require_size admission_record ADMISSION_BYTES in
  Ok (SIGNATURE_DOMAIN ++ admission_record).

Definition verify_signature `{Crates} (admission_record detached_signature public_key expected_key_id : list Z)
    : AdmissionResult unit :=
  let? _ := require_size detached_signature SIGNATURE_BYTES in
  let? _ := require_size public_key PUBLIC_KEY_BYTES in
  if negb (bytes_eqb (signing_key_id public_key) expected_key_id) then Err EKeyId else
  let? verifying_key := ok_or (key_from_bytes public_key) ESignature in
  if key_is_weak verifying_key then Err EWeakKey else
  let? signature := ok_or (signature_from_slice detached_signature) ESignature in
  let? message := signature_message admission_record in
  if verify_strict verifying_key message signature then Ok tt else Err ESignature.

(** ** The bundle *)

Record BundleInputs := mkInputs {
  bi_admission_record : list Z;
  bi_detached_signature : list Z;
  bi_public_key : list Z;
  bi_portable_component : list Z;
  bi_target_executable : option (list Z);
  bi_wit : list Z;
  bi_execution_profile_record : list Z;
  bi_target_triple : list Z;
  bi_runtime_configuration : list Z;
  bi_compiler_configuration : list Z;
  bi_build_evidence_record : list Z;
  bi_source_manifest : list Z;
  bi_builder_identity : list Z;
  bi_command_transcript : list Z;
  bi_dependency_lock : list Z;
  bi_tool_versions : list Z;
  bi_staged_source_root : Node
}.

Record AdmissionReportV1 := mkReport {
  ar_component_id : Z;
  ar_portable_sha256 : list Z;
  ar_source_file_count : Z;
  ar_source_byte_count : Z;
  ar_section_count : Z;
  ar_maximum_depth : Z
}.

Definition to_json (r : AdmissionReportV1) : list Z :=
  json "{'schema_version':1,'scope':'os041a-admission-core-v1','status':'pass','admission_authority':false,'component_id':"%string
  ++ decimal (ar_component_id r)
  ++ json ",'portable_sha256':'"%string ++ encode_hex (ar_portable_sha256 r)
  ++ json "','source_file_count':"%string ++ decimal (ar_source_file_count r)
  ++ json ",'source_byte_count':"%string ++ decimal (ar_source_byte_count r)
  ++ json ",'section_count':"%string ++ decimal (ar_section_count r)
  ++ json ",'maximum_depth':"%string ++ decimal (ar_maximum_depth r)
  ++ json "}"%string.

(** [try_fold(0, checked_add)] *)
Fixpoint source_bytes (sum : Z) (entries : list SourceEntryV1) : AdmissionResult Z :=
  match entries with
  | [] => Ok sum
  | entry :: rest =>
      let? sum := ok_or (checked_add sum (se_length entry)) ELength in
      source_bytes sum rest
  end.

(** The [match] on the executable's length and its presence. *)
Definition verify_executable `{Crates} (admission : ComponentAdmissionV1) (executable : option (list Z))
    : AdmissionResult unit :=
  match executable with
  | None => if ca_target_executable_length admission =? 0 then Ok tt else Err ELength
  | Some bytes =>
      if negb (ca_target_executable_length admission =? 0)
      then verify_bound_bytes sha256 bytes (ca_target_executable_length admission)
             (ca_target_executable_sha256 admission)
      else Err ELength
  end.

Definition verify_bundle `{Crates} (inputs : BundleInputs) : AdmissionResult AdmissionReportV1 :=
  let? admission := admission_parse (bi_admission_record inputs) in
  let? _ := verify_signature (bi_admission_record inputs) (bi_detached_signature inputs)
              (bi_public_key inputs) (ca_signing_key_id admission) in
  let? _ := verify_bound_bytes sha256 (bi_portable_component inputs)
              (ca_portable_artifact_length admission) (ca_portable_artifact_sha256 admission) in
  let? _ := verify_executable admission (bi_target_executable inputs) in
  let? _ := verify_digest sha256 (bi_wit inputs) (ca_wit_package_sha256 admission) in
  let? _ := verify_digest sha256 (bi_execution_profile_record inputs)
              (ca_execution_profile_sha256 admission) in
  let? _ := verify_digest sha256 (bi_build_evidence_record inputs)
              (ca_build_evidence_sha256 admission) in
  let? execution := execution_parse (bi_execution_profile_record inputs) in
  if negb (ep_component_profile execution =? ca_component_profile admission) then Err EField else
  let? _ := verify_length_digest sha256 (bi_target_triple inputs)
              (ep_target_triple_length execution) (ep_target_triple_sha256 execution) in
  let? _ := verify_length_digest sha256 (bi_runtime_configuration inputs)
              (ep_runtime_configuration_length execution) (ep_runtime_configuration_sha256 execution) in
  let? _ := verify_length_digest sha256 (bi_compiler_configuration inputs)
              (ep_compiler_configuration_length execution) (ep_compiler_configuration_sha256 execution) in
  let? _ := validate_target_triple (bi_target_triple inputs) in
  let? _ := validate_name_value_document (bi_runtime_configuration inputs) in
  let? _ := validate_name_value_document (bi_compiler_configuration inputs) in
  let? build := evidence_parse (bi_build_evidence_record inputs) in
  let? _ := verify_length_digest sha256 (bi_source_manifest inputs)
              (be_source_revision_length build) (be_source_revision_sha256 build) in
  let? _ := verify_length_digest sha256 (bi_builder_identity inputs)
              (be_builder_identity_length build) (be_builder_identity_sha256 build) in
  let? _ := verify_length_digest sha256 (bi_command_transcript inputs)
              (be_command_transcript_length build) (be_command_transcript_sha256 build) in
  let? _ := verify_length_digest sha256 (bi_dependency_lock inputs)
              (be_dependency_lock_length build) (be_dependency_lock_sha256 build) in
  let? _ := verify_length_digest sha256 (bi_tool_versions inputs)
              (be_tool_version_length build) (be_tool_version_sha256 build) in
  let? _ := validate_builder_identity (bi_builder_identity inputs) in
  let? _ := validate_line_document (bi_command_transcript inputs) (be_command_count build) in
  let? _ := validate_name_value_document_counted (bi_tool_versions inputs) (be_tool_count build) in
  let? manifest := manifest_parse (bi_source_manifest inputs) in
  let? _ := verify_staged_root sha256 manifest (bi_staged_source_root inputs) in
  let? _ := validate_wit_contract wit_parses (bi_wit inputs) in
  let? surface := inspect_component wasm_validate wasm_parse_all (bi_portable_component inputs) in
  let? source_byte_count := source_bytes 0 (sm_entries manifest) in
  Ok (mkReport (ca_component_id admission) (ca_portable_artifact_sha256 admission)
        (Z.of_nat (length (sm_entries manifest))) source_byte_count
        (cs_section_count surface) (cs_maximum_depth surface)).
