(* ===== verification/AdmissionBundleProofs.v ===== *)
(** * Component admission: what the document validators accept *)

From Stdlib Require Import Sorted.
From S2P Require Import Prelude.
From S2P Require Import Panic.
From S2P Require Import Bytes.
From S2P Require Import Text.
From S2P Require Import AdmissionRecords.
From S2P Require Import AdmissionManifestProofs.
From S2P Require Import AdmissionDocuments.

(** LF-terminated UTF-8 without NUL, carriage return or a blank last line. *)
Definition text_ok (bytes : list Z) : Prop :=
  last bytes = Some NL /\ ends_with [NL; NL] bytes = false /\ 0 ∉ bytes /\ CR ∉ bytes /\
  utf8_valid bytes = true.

Definition document_lines (bytes : list Z) : list (list Z) := List.filter nonempty (split_on NL bytes).

Definition bytes_lt (a b : list Z) : Prop := bytes_ltb a b = true.

(** No word of the list of sensitive ones, in any case, is part of the bytes. *)
Definition public (bytes : list Z) : Prop :=
  forall word, word ∈ SENSITIVE_NEEDLES ->
    ~ exists before after, to_ascii_lowercase <$> bytes = before ++ word ++ after.

Lemma public_spec bytes : contains_sensitive_evidence bytes = false <-> public bytes.
Proof.
  unfold contains_sensitive_evidence, public. rewrite existsb_false. split; intros H word Hw.
  - rewrite <-contains_spec. apply H in Hw. change (to_ascii_lowercase <$> bytes) with (List.map to_ascii_lowercase bytes). by rewrite Hw.
  - apply not_true_iff_false. rewrite contains_spec. by apply H.
Qed.

(** A [name=value] line that may be published. *)
Record name_value_ok (line : list Z) : Prop := {
  nv_parts : exists name value, line = name ++ EQUALS :: value /\ name <> [] /\ value <> [] /\
    EQUALS ∉ name /\ EQUALS ∉ value /\ contains COLON_BACKSLASH value = false /\
    head value <> Some SLASH /\ starts_with BACKSLASH_BACKSLASH value = false;
  nv_graphic : Forall (fun b => 33 <= b <= 126) line;
  nv_public : public line
}.

Definition transcript_line_ok (line : list Z) : Prop :=
  contains_machine_local_path line = false /\ public line.

Lemma contains_byte_not b l : contains_byte b l = false <-> b ∉ l.
Proof. rewrite <-contains_byte_spec. by destruct (contains_byte b l). Qed.

Lemma line_text_Ok bytes text : line_text bytes = Ok text <-> text_ok bytes /\ text = bytes.
Proof.
  unfold line_text, text_ok. rewrite <-!contains_byte_not. destruct bytes as [|b bytes].
  { cbn. naive_solver. }
  set (l := b :: bytes). change (bytes_eqb l []) with false.
  destruct (bool_decide_reflect (last l = Some NL)); cbn [negb orb]; [|naive_solver].
  destruct (ends_with [NL; NL] l); cbn [orb]; [naive_solver|].
  destruct (contains_byte 0 l); cbn [orb]; [naive_solver|].
  destruct (contains_byte CR l); cbn [orb]; [naive_solver|].
  destruct (utf8_valid l); naive_solver.
Qed.

Lemma whitespace_not_graphic b : is_ascii_whitespace b || negb (is_ascii_graphic b) = false <-> 33 <= b <= 126.
Proof. unfold is_ascii_whitespace, is_ascii_graphic. b2p. lia. Qed.

Lemma name_value_ok_spec line name value :
  split_once EQUALS line = Some (name, value) ->
  bad_name_value line name value = false <-> name_value_ok line.
Proof.
  intros Hs. apply split_once_Some in Hs as [Hl Hn]. unfold bad_name_value.
  rewrite !orb_false_iff, !bytes_eqb_false, !contains_byte_not, (existsb_Forall _ _ _ whitespace_not_graphic), public_spec.
  assert (Hslash : starts_with [SLASH] value = false <-> head value <> Some SLASH).
  { rewrite <-not_true_iff_false, starts_with_spec. split.
    - intros H Hv. apply H. destruct value as [|v value]; [done|]. injection Hv as ->. by exists value.
    - intros H [r ->]. by apply H. }
  rewrite Hslash. split.
  - intros H. split; [exists name, value|..]; tauto.
  - intros [(n & v & Hl' & Hne) Hg Hp].
    assert (Hnv : (name, value) = (n, v)).
    { apply Some_inj. rewrite <-(proj2 (split_once_Some EQUALS line name value)) by done.
      apply split_once_Some. tauto. }
    injection Hnv as -> ->. tauto.
Qed.

Lemma name_value_split line : name_value_ok line -> exists name value, split_once EQUALS line = Some (name, value).
Proof. intros [(n & v & Hl & _ & _ & Hn & _) _ _]. exists n, v. by apply split_once_Some. Qed.

Lemma name_value_loop_Ok lines : forall prior count res,
  0 <= count ->
  name_value_loop lines prior count = Ok res <->
  let ls := List.filter nonempty lines in
  Forall name_value_ok ls /\ Sorted bytes_lt (match prior with None => [] | Some p => [p] end ++ ls) /\
  res = count + Z.of_nat (length ls) /\ (ls = [] \/ res < two32).
Proof.
  induction lines as [|line rest IH]; intros prior count res Hc; cbn [name_value_loop List.filter].
  { cbn. rewrite Z.add_0_r. split.
    - intros [= <-]. split_and!; [constructor|destruct prior; repeat constructor|done|by left].
    - by intros (_ & _ & -> & _). }
  change (nonempty line) with (negb (bytes_eqb line [])).
  destruct (bytes_eqb line []); cbn [negb]; [by apply IH|]. cbn zeta.
  rewrite Forall_cons. cbn [length].
  destruct (split_once EQUALS line) as [[name value]|] eqn:Es.
  2: { split; [done|]. intros ([Hl _] & _). destruct (name_value_split _ Hl) as (? & ? & ?). congruence. }
  pose proof (name_value_ok_spec line name value Es) as Hnv.
  destruct (bad_name_value line name value); [naive_solver|].
  assert (Hok : name_value_ok line) by by apply Hnv.
  assert (Horder : Sorted bytes_lt (match prior with None => [] | Some p => [p] end
                     ++ line :: List.filter nonempty rest) <->
                   match prior with Some p => negb (bytes_ltb p line) | None => false end = false /\
                   Sorted bytes_lt ([line] ++ List.filter nonempty rest)).
  { destruct prior as [p|]; cbn [app]; [|tauto]. rewrite negb_false_iff. split.
    - intros H. apply Sorted_inv in H as [H Hh]. split; [by inversion Hh|done].
    - intros [? ?]. constructor; [done|by constructor]. }
  rewrite Horder. destruct (match prior with Some p => negb (bytes_ltb p line) | None => false end).
  { split; [done|]. by intros (_ & [? _] & _). }
  unfold checked_add32. destruct (Z.ltb_spec (count + 1) two32); cbn [ok_or].
  - rewrite IH by lia. cbn zeta. split.
    + intros (? & ? & -> & Hb). split_and!; try done; [lia|]. right. destruct Hb as [->|Hb]; cbn; lia.
    + intros ([_ ?] & [_ ?] & -> & Hb). split_and!; try done; [lia|]. destruct Hb as [|Hb]; [done|by right].
  - split; [done|]. intros (_ & _ & -> & [|]); [done|]. lia.
Qed.

(** The counted validator accepts exactly sorted, unique, publishable lines. *)
Lemma name_value_counted_Ok bytes n :
  0 <= n < two32 ->
  validate_name_value_document_counted bytes n = Ok tt <->
  text_ok bytes /\ Forall name_value_ok (document_lines bytes) /\
  Sorted bytes_lt (document_lines bytes) /\ Z.of_nat (length (document_lines bytes)) = n.
Proof.
  intros Hn. unfold validate_name_value_document_counted. fold (document_lines bytes).
  destruct (line_text bytes) as [text|] eqn:Et.
  2: { split; [done|]. intros [Ht _]. assert (line_text bytes = Ok bytes) by by apply line_text_Ok. congruence. }
  apply line_text_Ok in Et as [Ht ->].
  pose proof (fun res => name_value_loop_Ok (split_on NL bytes) None 0 res ltac:(done)) as Hloop.
  cbn zeta in Hloop. fold (document_lines bytes) in Hloop. cbn [app] in Hloop.
  destruct (name_value_loop _ _ _) as [count|e] eqn:El.
  - destruct (proj1 (Hloop count) eq_refl) as (H1 & H2 & -> & _). rewrite Z.add_0_l.
    destruct (Z.eqb_spec (Z.of_nat (length (document_lines bytes))) n); cbn [negb]; [done|]; split; [done|tauto].
  - split; [done|]. intros (_ & H1 & H2 & H3).
    assert (@Err Z AdmissionError e = Ok n) as H; [|done]. apply Hloop. split_and!; try done. right. lia.
Qed.

Lemma length_concat_split c l : (length (concat (split_on c l)) <= length l)%nat.
Proof.
  induction l as [|b l IH]; [done|]. cbn [split_on]. destruct (b =? c); [cbn; lia|].
  destruct (split_on c l); cbn in *; [lia|]. rewrite length_app in *. cbn. lia.
Qed.

Lemma length_nonempty_pieces pieces : (length (List.filter nonempty pieces) <= length (concat pieces))%nat.
Proof.
  induction pieces as [|p rest IH]; [done|]. cbn [List.filter concat]. rewrite length_app.
  destruct (nonempty p) eqn:E; [|lia]. cbn [length].
  destruct p as [|b p]; [done|]. cbn [length]. lia.
Qed.

Lemma length_document_lines bytes : (length (document_lines bytes) <= length bytes)%nat.
Proof. etransitivity; [apply length_nonempty_pieces|apply length_concat_split]. Qed.

Lemma name_value_Ok bytes :
  Z.of_nat (length bytes) < two32 ->
  validate_name_value_document bytes = Ok tt <->
  text_ok bytes /\ Forall name_value_ok (document_lines bytes) /\ Sorted bytes_lt (document_lines bytes).
Proof.
  intros Hlen. unfold validate_name_value_document, line_count.
  destruct (line_text bytes) as [text|] eqn:Et.
  2: { split; [done|]. intros [Ht _]. assert (line_text bytes = Ok bytes) by by apply line_text_Ok. congruence. }
  apply line_text_Ok in Et as [Ht ->]. fold (document_lines bytes).
  pose proof (length_document_lines bytes).
  rewrite Z.mod_small by lia. rewrite name_value_counted_Ok by lia. tauto.
Qed.

Lemma line_document_loop_Ok lines : forall count res,
  0 <= count -> count + Z.of_nat (length lines) < two64 ->
  line_document_loop lines count = Ok res <->
  Forall transcript_line_ok lines /\ res = count + Z.of_nat (length lines).
Proof.
  induction lines as [|line rest IH]; intros count res Hc Hb; cbn [line_document_loop length].
  { rewrite Z.add_0_r. split; [by intros [= <-]|by intros [_ ->]]. }
  cbn [length] in Hb. rewrite Forall_cons. unfold transcript_line_ok at 1. rewrite <-public_spec, <-orb_false_iff.
  destruct (_ || _); [naive_solver|]. rewrite checked_add_lt by lia. cbn [ok_or].
  rewrite IH by lia. rewrite Nat2Z.inj_succ. naive_solver lia.
Qed.

(** The transcript validator accepts exactly the declared number of publishable lines. *)
Lemma line_document_Ok bytes n :
  Z.of_nat (length bytes) < two64 ->
  validate_line_document bytes n = Ok tt <->
  text_ok bytes /\ Forall transcript_line_ok (document_lines bytes) /\
  Z.of_nat (length (document_lines bytes)) = n.
Proof.
  intros Hlen. unfold validate_line_document. fold (document_lines bytes).
  destruct (line_text bytes) as [text|] eqn:Et.
  2: { split; [done|]. intros [Ht _]. assert (line_text bytes = Ok bytes) by by apply line_text_Ok. congruence. }
  apply line_text_Ok in Et as [Ht ->]. fold (document_lines bytes). pose proof (length_document_lines bytes).
  pose proof (fun res => line_document_loop_Ok (document_lines bytes) 0 res ltac:(done) ltac:(lia)) as Hloop.
  destruct (line_document_loop _ _) as [count|e].
  - destruct (proj1 (Hloop count) eq_refl) as (H1 & ->). rewrite Z.add_0_l.
    destruct (Z.eqb_spec (Z.of_nat (length (document_lines bytes))) n); cbn [negb]; [done|]; split; [done|tauto].
  - split; [done|]. intros (_ & H1 & H2). assert (@Err Z AdmissionError e = Ok n) as H'; [|done]. apply Hloop.
    split; [done|lia].
Qed.

(** * Component admission: what an accepted bundle is

    The checks of [verify_bundle] as one record, their declarative reading, and
    the lemmas that the admission record determines everything else. *)

From Stdlib Require Import Sorted Permutation.
From S2P Require Import AdmissionRecordsProofs.
From S2P Require Import AdmissionManifest.
From S2P Require Import AdmissionSource.
From S2P Require Import AdmissionComponent.
From S2P Require Import AdmissionComponentProofs.
From S2P Require Import AdmissionBundle.

Section bundle.
Context `{Crates}.

(** ** The checks, one by one *)

Record checks (i : BundleInputs) (a : ComponentAdmissionV1) (x : ExecutionProfileV1)
    (b : BuildEvidenceV1) (m : SourceManifestV1) (c : ComponentSurface) : Prop := {
  ck_admission : admission_parse (bi_admission_record i) = Ok a;
  ck_signature : verify_signature (bi_admission_record i) (bi_detached_signature i) (bi_public_key i)
                   (ca_signing_key_id a) = Ok tt;
  ck_component : verify_bound_bytes sha256 (bi_portable_component i) (ca_portable_artifact_length a)
                   (ca_portable_artifact_sha256 a) = Ok tt;
  ck_executable : verify_executable a (bi_target_executable i) = Ok tt;
  ck_wit : verify_digest sha256 (bi_wit i) (ca_wit_package_sha256 a) = Ok tt;
  ck_profile_digest : verify_digest sha256 (bi_execution_profile_record i)
                        (ca_execution_profile_sha256 a) = Ok tt;
  ck_evidence_digest : verify_digest sha256 (bi_build_evidence_record i)
                         (ca_build_evidence_sha256 a) = Ok tt;
  ck_profile : execution_parse (bi_execution_profile_record i) = Ok x;
  ck_same_profile : ep_component_profile x = ca_component_profile a;
  ck_triple : verify_length_digest sha256 (bi_target_triple i) (ep_target_triple_length x)
                (ep_target_triple_sha256 x) = Ok tt;
  ck_runtime : verify_length_digest sha256 (bi_runtime_configuration i)
                 (ep_runtime_configuration_length x) (ep_runtime_configuration_sha256 x) = Ok tt;
  ck_compiler : verify_length_digest sha256 (bi_compiler_configuration i)
                  (ep_compiler_configuration_length x) (ep_compiler_configuration_sha256 x) = Ok tt;
  ck_triple_text : validate_target_triple (bi_target_triple i) = Ok tt;
  ck_runtime_text : validate_name_value_document (bi_runtime_configuration i) = Ok tt;
  ck_compiler_text : validate_name_value_document (bi_compiler_configuration i) = Ok tt;
  ck_evidence : evidence_parse (bi_build_evidence_record i) = Ok b;
  ck_source : verify_length_digest sha256 (bi_source_manifest i) (be_source_revision_length b)
                (be_source_revision_sha256 b) = Ok tt;
  ck_builder : verify_length_digest sha256 (bi_builder_identity i) (be_builder_identity_length b)
                 (be_builder_identity_sha256 b) = Ok tt;
  ck_transcript : verify_length_digest sha256 (bi_command_transcript i) (be_command_transcript_length b)
                    (be_command_transcript_sha256 b) = Ok tt;
  ck_lock : verify_length_digest sha256 (bi_dependency_lock i) (be_dependency_lock_length b)
              (be_dependency_lock_sha256 b) = Ok tt;
  ck_tools : verify_length_digest sha256 (bi_tool_versions i) (be_tool_version_length b)
               (be_tool_version_sha256 b) = Ok tt;
  ck_builder_text : validate_builder_identity (bi_builder_identity i) = Ok tt;
  ck_transcript_text : validate_line_document (bi_command_transcript i) (be_command_count b) = Ok tt;
  ck_tools_text : validate_name_value_document_counted (bi_tool_versions i) (be_tool_count b) = Ok tt;
  ck_manifest : manifest_parse (bi_source_manifest i) = Ok m;
  ck_root : verify_staged_root sha256 m (bi_staged_source_root i) = Ok tt;
  ck_contract : validate_wit_contract wit_parses (bi_wit i) = Ok tt;
  ck_surface : inspect_component wasm_validate wasm_parse_all (bi_portable_component i) = Ok c
}.

Definition report (a : ComponentAdmissionV1) (m : SourceManifestV1) (c : ComponentSurface) : AdmissionReportV1 :=
  mkReport (ca_component_id a) (ca_portable_artifact_sha256 a) (Z.of_nat (length (sm_entries m)))
    (sum_lengths (sm_entries m)) (cs_section_count c) (cs_maximum_depth c).

Lemma source_bytes_Ok es : forall sum,
  0 <= sum -> Forall entry_ok es -> sum + sum_lengths es < two64 ->
  source_bytes sum es = Ok (sum + sum_lengths es).
Proof.
  induction es as [|e es IH]; intros sum Hs Hok Hb; [cbn; f_equal; lia|].
  apply Forall_cons in Hok as [He Hok]. pose proof (eo_length e He). pose proof (sum_lengths_nonneg es Hok).
  cbn [source_bytes sum_lengths foldr] in *. fold (sum_lengths es) in *.
  rewrite checked_add_lt by lia. cbn [ok_or]. rewrite IH by (done || lia). f_equal. lia.
Qed.

Lemma manifest_source_bytes m : manifest_ok m -> source_bytes 0 (sm_entries m) = Ok (sum_lengths (sm_entries m)).
Proof.
  intros Hm. pose proof (mo_bytes m Hm). unfold MAX_SOURCE_BYTES in *.
  rewrite source_bytes_Ok by (try apply Hm; unfold two64; lia). f_equal.
Qed.

(** Take the next [?] apart. *)
Ltac next_check H :=
  match type of H with
  | match ?r with Ok _ => _ | Err _ => _ end = _ =>
      let E := fresh "E" in destruct r as [[]|] eqn:E || destruct r eqn:E; [|done]
  | (if negb (?p =? ?q) then _ else _) = _ =>
      let E := fresh "E" in destruct (Z.eqb_spec p q) as [E|]; [cbn [negb] in H|done]
  end.

Lemma verify_bundle_checks i r :
  verify_bundle i = Ok r -> exists a x b m c, checks i a x b m c /\ r = report a m c.
Proof.
  unfold verify_bundle. intros E0.
  destruct (admission_parse (bi_admission_record i)) as [a|] eqn:Ea; [|done].
  do 6 next_check E0. destruct (execution_parse _) as [x|] eqn:Ex; [|done].
  do 7 next_check E0. destruct (evidence_parse _) as [b|] eqn:Eb; [|done].
  do 8 next_check E0. destruct (manifest_parse _) as [m|] eqn:Em; [|done].
  do 2 next_check E0. destruct (inspect_component _ _ _) as [c|] eqn:Ec; [|done].
  destruct (manifest_parse_sound _ _ Em) as [Hm _].
  rewrite (manifest_source_bytes m Hm) in E0. injection E0 as <-.
  exists a, x, b, m, c. by split.
Qed.

Lemma checks_verify_bundle i a x b m c : checks i a x b m c -> verify_bundle i = Ok (report a m c).
Proof.
  intros []. destruct (manifest_parse_sound _ _ ck_manifest0) as [Hm _]. unfold verify_bundle.
  repeat match goal with
    | |- match ?r with Ok _ => _ | Err _ => _ end = _ =>
        match goal with E : r = Ok _ |- _ => rewrite E end
    | |- (if negb (?p =? ?q) then _ else _) = _ => rewrite (proj2 (Z.eqb_eq p q)) by done; cbn [negb]
    end.
  by rewrite (manifest_source_bytes m Hm).
Qed.

Lemma verify_bundle_Ok i r :
  verify_bundle i = Ok r <-> exists a x b m c, checks i a x b m c /\ r = report a m c.
Proof.
  split; [apply verify_bundle_checks|]. intros (a & x & b & m & c & Hc & ->).
  eapply checks_verify_bundle, Hc.
Qed.

(** ** Bindings *)

(** The digest of [bytes] is the one recorded. *)
Definition bound (bytes : list Z) (length : Z) (digest : list Z) : Prop :=
  len bytes = length /\ sha256 bytes = digest.

Lemma verify_digest_Ok bytes digest : verify_digest sha256 bytes digest = Ok tt <-> sha256 bytes = digest.
Proof. unfold verify_digest. destruct (bytes_eqb _ _) eqn:E; cbn [negb].
  - by apply bytes_eqb_spec in E.
  - apply bytes_eqb_false in E. by split.
Qed.

Lemma verify_length_digest_Ok bytes length digest :
  verify_length_digest sha256 bytes length digest = Ok tt <-> bound bytes length digest.
Proof.
  unfold verify_length_digest, bound. destruct (Z.eqb_spec (len bytes) length); cbn [negb].
  - rewrite verify_digest_Ok. tauto.
  - split; [done|tauto].
Qed.

Lemma verify_bound_bytes_Ok bytes length digest :
  length <= U64_MAX ->
  verify_bound_bytes sha256 bytes length digest = Ok tt <-> bound bytes length digest.
Proof.
  intros Hl. unfold verify_bound_bytes. rewrite (proj2 (Z.ltb_ge _ _)) by lia. cbn [orb].
  apply verify_length_digest_Ok.
Qed.

(** ** The signature *)

(** [key] is the key of the given identifier and signs the record under the domain. *)
Definition signed (record signature public_key key_id : list Z) : Prop :=
  len record = ADMISSION_BYTES /\ len signature = SIGNATURE_BYTES /\ len public_key = PUBLIC_KEY_BYTES /\
  take 16 (sha256 (KEY_ID_DOMAIN ++ public_key)) = key_id /\
  exists key sig, key_from_bytes public_key = Some key /\ key_is_weak key = false /\
    signature_from_slice signature = Some sig /\ verify_strict key (SIGNATURE_DOMAIN ++ record) sig = true.

(** A refusal contradicts one conjunct. *)
Ltac refuse := split; [done|]; intros (? & ? & ? & ? & ? & ? & ? & ? & ? & ?); congruence.

Lemma verify_signature_Ok record signature public_key key_id :
  verify_signature record signature public_key key_id = Ok tt <-> signed record signature public_key key_id.
Proof.
  unfold verify_signature, signed, signature_message, require_size, signing_key_id.
  destruct (Z.eqb_spec (len signature) SIGNATURE_BYTES); cbn [negb]; [|refuse].
  destruct (Z.eqb_spec (len public_key) PUBLIC_KEY_BYTES); cbn [negb]; [|refuse].
  destruct (bytes_eqb _ _) eqn:Ek; cbn [negb].
  2: { apply bytes_eqb_false in Ek. refuse. }
  apply bytes_eqb_spec in Ek. destruct (key_from_bytes public_key) as [key|]; cbn [ok_or]; [|refuse].
  destruct (key_is_weak key) eqn:Ew; [refuse|].
  destruct (signature_from_slice signature) as [sig|]; cbn [ok_or]; [|refuse].
  destruct (Z.eqb_spec (len record) ADMISSION_BYTES); cbn [negb]; [|refuse].
  destruct (verify_strict key _ sig) eqn:Ev; [|refuse].
  split; [|done]. intros _. split_and!; try done. by exists key, sig.
Qed.
End bundle.
