(* ===== verification/AdmissionSpec.v ===== *)
(** * Component admission: the specification of an accepted bundle

    [admitted] says, without reference to the order of the checks, what the tool
    accepts; the lemmas show that the checks decide it, and that the admission
    record determines every bound input. *)

From Stdlib Require Import Sorted Permutation.
From S2P Require Import Prelude.
From S2P Require Import Panic.
From S2P Require Import Bytes.
From S2P Require Import Text.
From S2P Require Import AdmissionRecords.
From S2P Require Import AdmissionRecordsProofs.
From S2P Require Import AdmissionManifest.
From S2P Require Import AdmissionManifestProofs.
From S2P Require Import AdmissionDocuments.
From S2P Require Import AdmissionSource.
From S2P Require Import AdmissionComponent.
From S2P Require Import AdmissionComponentProofs.
From S2P Require Import AdmissionBundle.
From S2P Require Import AdmissionBundleProofs.

(** ** The specification of an accepted bundle *)

Section spec.
Context `{Crates}.

(** The byte slices of the inputs. *)
Definition slices (i : BundleInputs) : list (list Z) :=
  [bi_admission_record i; bi_portable_component i; bi_wit i; bi_execution_profile_record i;
   bi_target_triple i; bi_runtime_configuration i; bi_compiler_configuration i;
   bi_build_evidence_record i; bi_source_manifest i; bi_builder_identity i;
   bi_command_transcript i; bi_dependency_lock i; bi_tool_versions i].

Definition triple_ok (bytes : list Z) : Prop :=
  1 <= len bytes <= 96 /\ Forall (fun b => 33 <= b <= 126) bytes.

Definition builder_ok (bytes : list Z) : Prop :=
  1 <= len bytes <= 128 /\ Forall (fun b => 33 <= b <= 126) bytes /\
  public bytes.

Definition configuration_ok (bytes : list Z) : Prop :=
  text_ok bytes /\ Forall name_value_ok (document_lines bytes) /\ Sorted bytes_lt (document_lines bytes).

(** What the tool admits: canonical records, a signature over the admission
    record, every other input bound by length and digest, public documents, the
    staged tree equal to the manifest and the expected component surface. *)
Record admitted (i : BundleInputs) (a : ComponentAdmissionV1) (x : ExecutionProfileV1)
    (b : BuildEvidenceV1) (m : SourceManifestV1) (ps : list Payload) : Prop := {
  ad_record : admission_typed a /\ admission_valid a /\ bi_admission_record i = admission_encode a;
  ad_signed : signed (bi_admission_record i) (bi_detached_signature i) (bi_public_key i) (ca_signing_key_id a);
  ad_component : bound (bi_portable_component i) (ca_portable_artifact_length a)
                   (ca_portable_artifact_sha256 a);
  ad_executable : match bi_target_executable i with
                  | None => ca_target_executable_length a = 0
                  | Some e => ca_target_executable_length a <> 0 /\
                      bound e (ca_target_executable_length a) (ca_target_executable_sha256 a)
                  end;
  ad_wit : bi_wit i = EXPECTED_WIT /\ sha256 (bi_wit i) = ca_wit_package_sha256 a /\
           wit_parses (bi_wit i) = true;
  ad_profile : execution_typed x /\ execution_valid x /\
               bi_execution_profile_record i = execution_encode x /\
               sha256 (bi_execution_profile_record i) = ca_execution_profile_sha256 a /\
               ep_component_profile x = ca_component_profile a;
  ad_evidence : evidence_typed b /\ evidence_valid b /\
                bi_build_evidence_record i = evidence_encode b /\
                sha256 (bi_build_evidence_record i) = ca_build_evidence_sha256 a;
  ad_triple : triple_ok (bi_target_triple i) /\
              bound (bi_target_triple i) (ep_target_triple_length x) (ep_target_triple_sha256 x);
  ad_runtime : configuration_ok (bi_runtime_configuration i) /\
               bound (bi_runtime_configuration i) (ep_runtime_configuration_length x)
                 (ep_runtime_configuration_sha256 x);
  ad_compiler : configuration_ok (bi_compiler_configuration i) /\
                bound (bi_compiler_configuration i) (ep_compiler_configuration_length x)
                  (ep_compiler_configuration_sha256 x);
  ad_builder : builder_ok (bi_builder_identity i) /\
               bound (bi_builder_identity i) (be_builder_identity_length b) (be_builder_identity_sha256 b);
  ad_transcript : text_ok (bi_command_transcript i) /\
                  Forall transcript_line_ok (document_lines (bi_command_transcript i)) /\
                  Z.of_nat (length (document_lines (bi_command_transcript i))) = be_command_count b /\
                  bound (bi_command_transcript i) (be_command_transcript_length b)
                    (be_command_transcript_sha256 b);
  ad_lock : bound (bi_dependency_lock i) (be_dependency_lock_length b) (be_dependency_lock_sha256 b);
  ad_tools : configuration_ok (bi_tool_versions i) /\
             Z.of_nat (length (document_lines (bi_tool_versions i))) = be_tool_count b /\
             bound (bi_tool_versions i) (be_tool_version_length b) (be_tool_version_sha256 b);
  ad_manifest : manifest_ok m /\ bi_source_manifest i = render m /\
                bound (bi_source_manifest i) (be_source_revision_length b) (be_source_revision_sha256 b);
  ad_sources : (exists children, bi_staged_source_root i = Dir (Some children)) /\
               tree_clean (bi_staged_source_root i) = true /\
               tree_files sha256 (bi_staged_source_root i) [] ≡ₚ sm_entries m;
  ad_surface : wasm_validate (bi_portable_component i) = true /\
               wasm_parse_all (bi_portable_component i) = Some <$> ps /\
               expected_surface ps /\ within_limits ps
}.

(** ** From the checks to the specification *)

Lemma graphic_not_blank b : negb (is_ascii_graphic b) = false <-> 33 <= b <= 126.
Proof. unfold is_ascii_graphic. b2p. lia. Qed.

Lemma graphic_ascii l : Forall (fun b => 33 <= b <= 126) l -> is_ascii l = true.
Proof.
  intros Hl. apply forallb_forall. intros b Hb%list_elem_of_In.
  pose proof (proj1 (Forall_forall _ _) Hl b Hb). cbn in *. b2p. lia.
Qed.

Lemma len_positive bytes : bytes <> [] <-> 1 <= len bytes.
Proof. unfold len. destruct bytes; cbn [length]; [split; [done|lia]|split; [lia|done]]. Qed.

Lemma validate_target_triple_Ok bytes : validate_target_triple bytes = Ok tt <-> triple_ok bytes.
Proof.
  unfold validate_target_triple, triple_ok.
  rewrite <-(existsb_Forall _ _ bytes whitespace_not_graphic), <-len_positive, <-bytes_eqb_false.
  destruct (bytes_eqb bytes []); cbn [orb]; [naive_solver|].
  destruct (Z.ltb_spec 96 (len bytes)); cbn [orb]; [naive_solver lia|].
  destruct (existsb _ bytes) eqn:E; [rewrite orb_true_r; naive_solver|].
  rewrite (graphic_ascii bytes); [cbn; naive_solver|]. by apply (existsb_Forall _ _ _ whitespace_not_graphic).
Qed.

Lemma validate_builder_identity_Ok bytes : validate_builder_identity bytes = Ok tt <-> builder_ok bytes.
Proof.
  unfold validate_builder_identity, builder_ok.
  rewrite <-public_spec, <-(existsb_Forall _ _ bytes graphic_not_blank), <-len_positive, <-bytes_eqb_false.
  destruct (bytes_eqb bytes []); cbn [orb]; [naive_solver|].
  destruct (Z.ltb_spec 128 (len bytes)); cbn [orb]; [naive_solver lia|].
  destruct (existsb _ bytes) eqn:E; [rewrite orb_true_r; naive_solver|].
  rewrite (graphic_ascii bytes); [|by apply (existsb_Forall _ _ _ graphic_not_blank)].
  destruct (contains_sensitive_evidence bytes); cbn; naive_solver.
Qed.

Lemma verify_executable_Ok a e :
  ca_target_executable_length a <= U64_MAX ->
  verify_executable a e = Ok tt <->
  match e with
  | None => ca_target_executable_length a = 0
  | Some e => ca_target_executable_length a <> 0 /\
      bound e (ca_target_executable_length a) (ca_target_executable_sha256 a)
  end.
Proof.
  intros Hl. unfold verify_executable. destruct e as [e|].
  - destruct (Z.eqb_spec (ca_target_executable_length a) 0); cbn [negb]; [naive_solver|].
    rewrite verify_bound_bytes_Ok by done. naive_solver.
  - destruct (Z.eqb_spec (ca_target_executable_length a) 0); naive_solver.
Qed.

Lemma validate_wit_contract_Ok bytes :
  validate_wit_contract wit_parses bytes = Ok tt <-> bytes = EXPECTED_WIT /\ wit_parses bytes = true.
Proof.
  unfold validate_wit_contract. destruct (bytes_eqb bytes EXPECTED_WIT) eqn:E.
  - apply bytes_eqb_spec in E as ->. change (utf8_valid EXPECTED_WIT) with true.
    change (bytes_eqb EXPECTED_WIT [] || (MAX_WIT_BYTES <? len EXPECTED_WIT) || negb true) with false.
    cbn [negb]. destruct (wit_parses EXPECTED_WIT); naive_solver.
  - rewrite orb_true_r. apply bytes_eqb_false in E. naive_solver.
Qed.

Lemma crates_typed bytes p : Some p ∈ wasm_parse_all bytes -> payload_typed p.
Proof. intros Hp%wasm_counts. unfold payload_typed. destruct p; cbn; lia. Qed.

(** Bounds the records guarantee. *)
Lemma admission_component_bounds a :
  admission_typed a -> admission_valid a -> 1 <= ca_portable_artifact_length a <= MAX_COMPONENT_BYTES.
Proof.
  intros Ht Hv. pose proof (at_portable_length a Ht) as [Hl _]. pose proof (af_component a Hv).
  unfold MAX_COMPONENT_BYTES. lia.
Qed.

Definition inputs_ok (i : BundleInputs) : Prop := Forall slice_ok (slices i).

Lemma bound_u32 bytes length digest :
  u32_ok length -> bound bytes length digest -> Z.of_nat (Datatypes.length bytes) < two32.
Proof. unfold u32_ok, bound, len, two32. lia. Qed.

Lemma slice_u64 bytes : slice_ok bytes -> Z.of_nat (length bytes) < two64.
Proof. intros [_ Hl]. unfold two64. change (2 ^ 63) with 9223372036854775808 in Hl. lia. Qed.

(** The inspection, given that the component's length is in range. *)
Lemma inspect_spec bytes c :
  1 <= len bytes <= MAX_COMPONENT_BYTES ->
  inspect_component wasm_validate wasm_parse_all bytes = Ok c <->
  exists ps, (wasm_validate bytes = true /\ wasm_parse_all bytes = Some <$> ps /\
              expected_surface ps /\ within_limits ps) /\ c = stream_surface ps.
Proof.
  intros Hl. rewrite inspect_component_Ok by apply crates_typed. split.
  - intros (_ & Hv & ps & Hp & He & Hw & ->). by exists ps.
  - intros (ps & (Hv & Hp & He & Hw) & ->). split_and!; try lia; try done. by exists ps.
Qed.

Lemma counted_spec bytes n :
  u32_ok n ->
  validate_name_value_document_counted bytes n = Ok tt <->
  configuration_ok bytes /\ Z.of_nat (length (document_lines bytes)) = n.
Proof. intros Hn. rewrite name_value_counted_Ok by (exact Hn). unfold configuration_ok. tauto. Qed.

Lemma checks_admitted i a x b m c :
  inputs_ok i -> checks i a x b m c -> exists ps, admitted i a x b m ps /\ c = stream_surface ps.
Proof.
  intros Hin []. unfold inputs_ok, slices in Hin. rewrite !Forall_cons in Hin.
  destruct Hin as (S1 & S2 & S3 & S4 & S5 & S6 & S7 & S8 & S9 & S10 & S11 & S12 & S13 & _).
  apply admission_canonical in ck_admission as (Ha1 & Ha2 & Ha3); [|done].
  apply execution_canonical in ck_profile as (Hx1 & Hx2 & Hx3); [|done].
  apply evidence_canonical in ck_evidence as (Hb1 & Hb2 & Hb3); [|done].
  apply manifest_parse_sound in ck_manifest as [Hm1 Hm2].
  pose proof (admission_component_bounds a Ha1 Ha2) as Hcomp.
  rewrite verify_signature_Ok in ck_signature. rewrite validate_wit_contract_Ok in ck_contract.
  rewrite verify_bound_bytes_Ok in ck_component by (unfold MAX_COMPONENT_BYTES, U64_MAX in *; lia).
  pose proof (at_target_length a Ha1) as [_ Htl].
  rewrite verify_executable_Ok in ck_executable by (unfold U64_MAX; lia).
  rewrite verify_digest_Ok in ck_wit, ck_profile_digest, ck_evidence_digest.
  rewrite verify_length_digest_Ok in ck_triple, ck_runtime, ck_compiler, ck_source, ck_builder,
    ck_transcript, ck_lock, ck_tools.
  rewrite validate_target_triple_Ok in ck_triple_text. rewrite validate_builder_identity_Ok in ck_builder_text.
  rewrite name_value_Ok in ck_runtime_text by (eapply bound_u32; [|exact ck_runtime]; apply Hx1).
  rewrite name_value_Ok in ck_compiler_text by (eapply bound_u32; [|exact ck_compiler]; apply Hx1).
  rewrite line_document_Ok in ck_transcript_text by (by apply slice_u64).
  rewrite counted_spec in ck_tools_text by apply Hb1. rewrite verify_staged_root_Ok in ck_root by done.
  rewrite inspect_spec in ck_surface by (destruct ck_component as [-> _]; done).
  destruct ck_surface as (ps & Hsurf & ->). exists ps. split; [|done]. split; try done; tauto.
Qed.

Lemma admitted_checks i a x b m ps :
  inputs_ok i -> admitted i a x b m ps -> checks i a x b m (stream_surface ps).
Proof.
  intros Hin []. unfold inputs_ok, slices in Hin. rewrite !Forall_cons in Hin.
  destruct Hin as (S1 & S2 & S3 & S4 & S5 & S6 & S7 & S8 & S9 & S10 & S11 & S12 & S13 & _).
  destruct ad_record0 as (Ha1 & Ha2 & Ha3), ad_profile0 as (Hx1 & Hx2 & Hx3 & Hx4 & Hx5),
    ad_evidence0 as (Hb1 & Hb2 & Hb3 & Hb4), ad_manifest0 as (Hm1 & Hm2 & Hm3).
  destruct ad_triple0 as [Ht1 Ht2], ad_runtime0 as [Hr1 Hr2], ad_compiler0 as [Hc1 Hc2],
    ad_builder0 as [Hu1 Hu2], ad_transcript0 as (Hp1 & Hp2 & Hp3 & Hp4), ad_tools0 as (Ho1 & Ho2 & Ho3),
    ad_wit0 as (Hw1 & Hw2 & Hw3).
  pose proof (admission_component_bounds a Ha1 Ha2) as Hcomp.
  pose proof (proj2 (proj1 (bf_source b Hb2))) as Hsrc. pose proof (at_target_length a Ha1) as [_ Htl].
  split; try done;
    try (first [apply verify_length_digest_Ok|apply verify_digest_Ok|apply verify_signature_Ok
               |apply validate_target_triple_Ok|apply validate_builder_identity_Ok]; done).
  - by apply admission_canonical.
  - apply verify_bound_bytes_Ok; [unfold MAX_COMPONENT_BYTES, U64_MAX in *; lia|done].
  - apply verify_executable_Ok; [unfold U64_MAX; lia|done].
  - by apply execution_canonical.
  - apply name_value_Ok; [by eapply bound_u32; [|exact Hr2]; apply Hx1|done].
  - apply name_value_Ok; [by eapply bound_u32; [|exact Hc2]; apply Hx1|done].
  - by apply evidence_canonical.
  - apply line_document_Ok; [by apply slice_u64|done].
  - apply counted_spec; [apply Hb1|done].
  - rewrite Hm2. apply manifest_parse_complete; [done|]. rewrite <-Hm2, (proj1 Hm3). done.
  - by apply verify_staged_root_Ok.
  - by apply validate_wit_contract_Ok.
  - apply inspect_spec; [by rewrite (proj1 ad_component0)|]. by exists ps.
Qed.

(** *** Equal digests, equal inputs *)

(** The inputs the records bind, in the order of the checks. *)
Definition bound_inputs (i : BundleInputs) : list (list Z) :=
  [bi_portable_component i; default [] (bi_target_executable i); bi_wit i;
   bi_execution_profile_record i; bi_build_evidence_record i; bi_target_triple i;
   bi_runtime_configuration i; bi_compiler_configuration i; bi_source_manifest i;
   bi_builder_identity i; bi_command_transcript i; bi_dependency_lock i; bi_tool_versions i].

(** A staged file: its path, its mode as the manifest records it, its bytes. *)
Record StagedFile := mkStaged { sf_path : list Z; sf_mode : Z; sf_contents : list Z }.

#[global] Instance StagedFile_eq_dec : EqDecision StagedFile.
Proof. solve_decision. Defined.

Fixpoint tree_contents (node : Node) (parts : list (list Z)) : list StagedFile :=
  match node with
  | File mode (Some contents) _ => [mkStaged (join SLASH parts) (file_mode mode) contents]
  | Dir (Some children) => List.flat_map (fun '(name, child) => tree_contents child (parts ++ [name])) children
  | _ => []
  end.

Definition staged_files (i : BundleInputs) : list StagedFile := tree_contents (bi_staged_source_root i) [].

(** The entry of the manifest that binds a file. *)
Definition hashed (f : StagedFile) : SourceEntryV1 :=
  mkEntry (sf_mode f) (len (sf_contents f)) (sha256 (sf_contents f)) (sf_path f).

Lemma tree_files_contents node : forall parts, tree_files sha256 node parts = hashed <$> tree_contents node parts.
Proof.
  induction node as [| | |m c s| |children IH] using Node_rect_children; intros parts; try done.
  { by destruct c. }
  cbn [tree_files tree_contents]. induction children as [|[name child] rest IHr]; [done|].
  apply Forall_cons in IH as [Hc IH]. cbn [List.flat_map]. rewrite fmap_app, <-Hc. f_equal. by apply IHr.
Qed.

(** Two different byte strings in the same role with one digest: two inputs, or two
    staged files of one path. *)
Definition collision (i j : BundleInputs) : Prop :=
  Exists (fun pq => pq.1 <> pq.2 /\ sha256 pq.1 = sha256 pq.2) (zip (bound_inputs i) (bound_inputs j)) \/
  Exists (fun f => Exists (fun g => sf_path f = sf_path g /\ sf_contents f <> sf_contents g /\
                                    sha256 (sf_contents f) = sha256 (sf_contents g)) (staged_files j)) (staged_files i).

#[global] Instance collision_dec i j : Decision (collision i j).
Proof. unfold collision. apply _. Defined.

Lemma no_collision i j :
  ~ collision i j ->
  Forall (fun pq => sha256 pq.1 = sha256 pq.2 -> pq.1 = pq.2) (zip (bound_inputs i) (bound_inputs j)) /\
  forall f g, f ∈ staged_files i -> g ∈ staged_files j -> sf_path f = sf_path g ->
    sha256 (sf_contents f) = sha256 (sf_contents g) -> sf_contents f = sf_contents g.
Proof.
  unfold collision. intros Hn. split.
  - apply Forall_forall. intros pq Hin Heq. destruct (decide (pq.1 = pq.2)) as [|Hne]; [done|].
    exfalso. apply Hn. left. apply Exists_exists. by exists pq.
  - intros f g Hf Hg Hpath Heq. destruct (decide (sf_contents f = sf_contents g)) as [|Hne]; [done|].
    exfalso. apply Hn. right. apply Exists_exists. exists f. split; [done|]. apply Exists_exists. by exists g.
Qed.

(** Files with distinct paths are determined by their entries, unless contents of
    one path collide. *)
Lemma hashed_determines l l' :
  NoDup (se_path <$> (hashed <$> l)) -> hashed <$> l ≡ₚ hashed <$> l' ->
  (forall f g, f ∈ l -> g ∈ l' -> sf_path f = sf_path g ->
     sha256 (sf_contents f) = sha256 (sf_contents g) -> sf_contents f = sf_contents g) ->
  l ≡ₚ l'.
Proof.
  intros Hnd Hp Hinj. pose proof Hnd as Hnd'. rewrite Hp in Hnd'.
  assert (Heq : forall f g, f ∈ l -> g ∈ l' -> hashed f = hashed g -> f = g).
  { intros [p m c] [p' m' c'] Hf Hg E. unfold hashed in E. cbn in E. injection E as -> _ Hd ->.
    pose proof (Hinj _ _ Hf Hg eq_refl Hd) as Hc. cbn in Hc. by rewrite Hc. }
  apply NoDup_Permutation; [by do 2 apply NoDup_fmap_1 in Hnd|by do 2 apply NoDup_fmap_1 in Hnd'|].
  intros f. split; intros Hf.
  - assert (Hh : hashed f ∈ hashed <$> l') by (rewrite <-Hp; by apply list_elem_of_fmap_2).
    apply list_elem_of_fmap in Hh as (g & E & Hg). by rewrite (Heq f g Hf Hg E).
  - assert (Hh : hashed f ∈ hashed <$> l) by (rewrite Hp; by apply list_elem_of_fmap_2).
    apply list_elem_of_fmap in Hh as (g & E & Hg). by rewrite <-(Heq g f Hg Hf (eq_sym E)).
Qed.

Lemma executable_bound a e f :
  admission_typed a ->
  verify_executable a e = Ok tt -> verify_executable a f = Ok tt ->
  (sha256 (default [] e) = sha256 (default [] f) -> default [] e = default [] f) -> e = f.
Proof.
  intros Ht He Hf Hinj. pose proof (at_target_length a Ht) as [_ Hl].
  rewrite verify_executable_Ok in He, Hf by (unfold U64_MAX; lia).
  destruct e as [e|], f as [f|]; [|naive_solver|naive_solver|done].
  cbn in Hinj. f_equal. apply Hinj. by rewrite (proj2 (proj2 He)), (proj2 (proj2 Hf)).
Qed.

(** The chain of digests: one admission record, and every bound input is the
    same, and so is every staged file, unless two different ones share a digest. *)
Lemma same_record_same_inputs i j r s :
  slice_ok (bi_admission_record i) ->
  verify_bundle i = Ok r -> verify_bundle j = Ok s -> bi_admission_record i = bi_admission_record j ->
  ~ collision i j ->
  bound_inputs i = bound_inputs j /\ bi_target_executable i = bi_target_executable j /\ r = s /\
  staged_files i ≡ₚ staged_files j.
Proof.
  intros Hslice (a & x & b & m & c & Ci & ->)%verify_bundle_Ok (a' & x' & b' & m' & c' & Cj & ->)%verify_bundle_Ok.
  intros Hrec [Hinj Hstaged]%no_collision. unfold bound_inputs in *. cbn [zip zip_with] in Hinj. rewrite !Forall_cons in Hinj.
  destruct Hinj as (Jcomp & Jexe & Jwit & Jprof & Jev & Jtri & Jrun & Jcc & Jman & Jbu & Jtr & Jlock & Jtool & _).
  cbn [fst snd] in *. destruct Ci as [Ia Is Ic Ie Iw Ipd Ied Ip Isp It Ir Icc Itt Irt Ict Iev Iso Ib Itr Il Ito Ibt Itrt Itot Im Iroot Iwit Isurf].
  destruct Cj as [Ka Ks Kc Ke Kw Kpd Ked Kp Ksp Kt Kr Kcc Ktt Krt Kct Kev Kso Kb Ktr Kl Kto Kbt Ktrt Ktot Km Kroot Kwit Ksurf].
  assert (a' = a) as -> by congruence.
  assert (Hty : admission_typed a) by (by apply admission_canonical in Ia as (? & _)).
  pose proof (at_portable_length a Hty) as [_ Hpl].
  rewrite verify_digest_Ok in Iw, Ipd, Ied, Kw, Kpd, Ked.
  rewrite verify_bound_bytes_Ok in Ic, Kc by (unfold U64_MAX; lia).
  rewrite verify_length_digest_Ok in It, Ir, Icc, Iso, Ib, Itr, Il, Ito, Kt, Kr, Kcc, Kso, Kb, Ktr, Kl, Kto.
  unfold bound in *. assert (Hexe := executable_bound a _ _ Hty Ie Ke Jexe).
  specialize (Jcomp ltac:(naive_solver congruence)). specialize (Jprof ltac:(congruence)).
  specialize (Jev ltac:(congruence)). specialize (Jwit ltac:(congruence)).
  assert (x' = x) as -> by congruence. assert (b' = b) as -> by congruence.
  specialize (Jtri ltac:(naive_solver congruence)). specialize (Jrun ltac:(naive_solver congruence)).
  specialize (Jcc ltac:(naive_solver congruence)). specialize (Jman ltac:(naive_solver congruence)).
  specialize (Jbu ltac:(naive_solver congruence)). specialize (Jtr ltac:(naive_solver congruence)).
  specialize (Jlock ltac:(naive_solver congruence)). specialize (Jtool ltac:(naive_solver congruence)).
  assert (m' = m) as -> by congruence. assert (c' = c) as -> by congruence.
  pose proof (proj1 (manifest_parse_sound _ _ Im)) as Hm.
  rewrite verify_staged_root_Ok in Iroot, Kroot by done. destruct Iroot as (_ & _ & Hi), Kroot as (_ & _ & Hj).
  rewrite tree_files_contents in Hi, Hj.
  split_and!; [|done|done|apply hashed_determines; [rewrite Hi; by apply manifest_paths_NoDup|by rewrite Hi, Hj|done]].
  by rewrite Jcomp, Hexe, Jwit, Jprof, Jev, Jtri, Jrun, Jcc, Jman, Jbu, Jtr, Jlock, Jtool.
Qed.
End spec.
