(* ===== verification/AdmissionTheorems.v ===== *)
(** * Component admission: the guarantees of the tool

    The records and the manifest are canonical, the inspection and the staged
    tree are checked exactly, and an accepted bundle is exactly what the
    admission record, its signature and its documents describe.  A small bundle,
    with toy crates, is the concrete input of the witnesses. *)

From Stdlib Require Import String Sorted Permutation.
From S2P Require Import Prelude.
From S2P Require Import Panic.
From S2P Require Import Bytes.
From S2P Require Import Text.
From S2P Require Import AdmissionRecords.
From S2P Require Import AdmissionRecordsProofs.
From S2P Require Import AdmissionManifest.
From S2P Require Import AdmissionManifestProofs.
From S2P Require Import AdmissionDocuments.
From S2P Require Import AdmissionSource.
From S2P Require Import AdmissionComponent.
From S2P Require Import AdmissionComponentProofs.
From S2P Require Import AdmissionBundle.
From S2P Require Import AdmissionBundleProofs.
From S2P Require Import AdmissionSpec.

#[local] Open Scope list_scope.

(** ** A bundle *)

Module Demo.

(** A hash of 32 bytes, never zero. *)
Definition toy_sha256 (bytes : list Z) : list Z :=
  1 :: len bytes mod 256 :: fold_left Z.add bytes 0 mod 256 :: replicate 29 0.

Definition item (name : list Z) : Item := mkItem true name None None None.

Definition stream : list Payload :=
  [PVersion EncodingComponent; PComponentTypeSection 1; PImportSection [Some (item EXPECTED_IMPORT)];
   PVersion EncodingModule; PTypeSection 2; PCustomSection 10; PEnd;
   PExportSection [Some (item EXPECTED_EXPORT)]; PEnd].

Lemma toy_length bytes : length (toy_sha256 bytes) = 32%nat.
Proof. reflexivity. Qed.

Lemma toy_counts (p : Payload) :
  Some p ∈ (Some <$> stream) ->
  match p with
  | PTypeSection n | PComponentTypeSection n | PCustomSection n => 0 <= n
  | _ => True
  end.
Proof.
  intros Hp. apply list_elem_of_fmap in Hp as (q & [= ->] & Hq). revert q Hq. apply Forall_forall.
  repeat constructor; lia.
Qed.

#[global] Instance toy_crates : Crates := {|
  sha256 := toy_sha256;
  VerifyingKey := list Z;
  Signature := list Z;
  key_from_bytes := Some;
  key_is_weak := fun key => is_zero key;
  signature_from_slice := Some;
  verify_strict := fun key message sig => bytes_eqb sig (toy_sha256 message ++ toy_sha256 key);
  wasm_validate := fun _ => true;
  wasm_parse_all := fun _ => Some <$> stream;
  wit_parses := fun _ => true;
  sha256_length := toy_length;
  wasm_counts := fun _ p => toy_counts p
|}.

Definition component : list Z := [0; 97; 115; 109].
Definition executable : list Z := [127; 69; 76; 70].
Definition triple : list Z := bytes_of "x86_64-unknown-linux-gnu"%string.
Definition configuration : list Z := bytes_of "a=1"%string ++ [NL] ++ bytes_of "b=2"%string ++ [NL].
Definition builder : list Z := bytes_of "github-actions"%string.
Definition transcript : list Z := bytes_of "cargo build"%string ++ [NL].
Definition lock : list Z := [1; 2; 3].
Definition key : list Z := replicate 32 7.

Definition file (contents : list Z) : Node := File 420 (Some contents) (len contents).
Definition root : Node :=
  Dir (Some [(bytes_of "src"%string, Dir (Some [(bytes_of "lib.rs"%string, file [10; 11])]));
             (bytes_of "a.txt"%string, file [12])]).

Definition entry (path : list Z) (contents : list Z) : SourceEntryV1 :=
  mkEntry FILE_MODE (len contents) (toy_sha256 contents) path.
Definition manifest : SourceManifestV1 :=
  mkManifest (bytes_of "fixtures/console"%string) (replicate 20 0)
    [entry (bytes_of "a.txt"%string) [12]; entry (bytes_of "src/lib.rs"%string) [10; 11]].

Definition execution : ExecutionProfileV1 :=
  mkExecution 1 2 1 (48, 0, 1) 1 (48, 0, 1) 0 0 0 0 1 1 0 (len triple) (len configuration)
    (len configuration) (toy_sha256 triple) (toy_sha256 configuration) (toy_sha256 configuration).

Definition evidence : BuildEvidenceV1 :=
  mkEvidence 1 1 (len (render manifest)) (len builder) (len transcript) (len lock) (len configuration) 1 2
    (toy_sha256 (render manifest)) (toy_sha256 builder) (toy_sha256 transcript) (toy_sha256 lock)
    (toy_sha256 configuration).

(** The admission record, with or without an executable. *)
Definition admission (executable : option (list Z)) : ComponentAdmissionV1 :=
  mkAdmission 7 1 0 0 0 (len component) (len (default [] executable)) (toy_sha256 component)
    (match executable with Some e => toy_sha256 e | None => replicate 32 0 end)
    (toy_sha256 EXPECTED_WIT) (toy_sha256 (execution_encode execution))
    (toy_sha256 (evidence_encode evidence)) 65536 16384 1000 1 1 0 0 1 64 (signing_key_id key).

Definition staged_inputs (root : Node) (executable : option (list Z)) : BundleInputs :=
  let record := admission_encode (admission executable) in
  mkInputs record (toy_sha256 (SIGNATURE_DOMAIN ++ record) ++ toy_sha256 key) key component executable
    EXPECTED_WIT (execution_encode execution) triple configuration configuration
    (evidence_encode evidence) (render manifest) builder transcript lock configuration root.

Definition inputs : option (list Z) -> BundleInputs := staged_inputs root.

(** The same files in another order, and a file of another content with the same
    toy digest. *)
Definition reordered : Node :=
  Dir (Some [(bytes_of "a.txt"%string, file [12]);
             (bytes_of "src"%string, Dir (Some [(bytes_of "lib.rs"%string, file [10; 11])]))]).
Definition forged : Node :=
  Dir (Some [(bytes_of "src"%string, Dir (Some [(bytes_of "lib.rs"%string, file [11; 10])]));
             (bytes_of "a.txt"%string, file [12])]).

Definition verdict : AdmissionReportV1 :=
  mkReport 7 (toy_sha256 component) 2 3 5 1.

End Demo.

(** Slices, decided. *)
Definition slice_okb (bytes : list Z) : bool :=
  forallb (fun b => (0 <=? b) && (b <? 256)) bytes && (Z.of_nat (length bytes) <? 2 ^ 63).

Lemma slice_okb_spec bytes : slice_okb bytes = true -> slice_ok bytes.
Proof.
  unfold slice_okb, slice_ok. rewrite andb_true_iff. intros [Hb Hl]. split; [|b2p; lia].
  apply Forall_forall. intros b Hin%list_elem_of_In. pose proof (proj1 (forallb_forall _ _) Hb b Hin).
  unfold byte_ok. b2p. lia.
Qed.

Lemma inputs_okb_spec i : forallb slice_okb (slices i) = true -> inputs_ok i.
Proof.
  intros Hi. apply Forall_forall. intros l Hl%list_elem_of_In. apply slice_okb_spec.
  by apply (proj1 (forallb_forall _ _) Hi).
Qed.

(** ** Canonical encodings *)

(** C33: Each of the three fixed-width records accepts exactly one byte string per
    valid value: parsing succeeds with [v] if and only if [v] has fields of the
    declared widths with the values the contract allows, and the bytes are its
    little-endian encoding with the schema, the size and the reserved zeros. *)
Theorem records_canonical bytes :
  slice_ok bytes ->
  (forall v, admission_parse bytes = Ok v <->
     admission_typed v /\ admission_valid v /\ bytes = admission_encode v) /\
  (forall v, execution_parse bytes = Ok v <->
     execution_typed v /\ execution_valid v /\ bytes = execution_encode v) /\
  (forall v, evidence_parse bytes = Ok v <->
     evidence_typed v /\ evidence_valid v /\ bytes = evidence_encode v).
Proof.
  intros Hs. split_and!; intros v; [by apply admission_canonical|by apply execution_canonical|by apply evidence_canonical].
Qed.

Lemma records_canonical_witness :
  admission_typed (Demo.admission None) /\ admission_valid (Demo.admission None).
Proof.
  assert (Hp : admission_parse (admission_encode (Demo.admission None)) = Ok (Demo.admission None)) by (vm_compute; reflexivity).
  destruct (proj1 (proj1 (records_canonical (admission_encode (Demo.admission None))
    (slice_okb_spec (admission_encode (Demo.admission None)) ltac:(vm_compute; reflexivity))) (Demo.admission None)) Hp)
    as (Ht & Hv & _).
  split; assumption.
Defined.

(** C32: The source-manifest parser accepts exactly the rendering of a well-formed
    manifest: parsing succeeds with [m] if and only if [m] has valid paths, file
    modes, sizes within the limits and strictly ascending paths none of which
    lies below its neighbour, and the document is the one [m] is printed as, of
    at most 65536 bytes. *)
Theorem manifest_canonical bytes m :
  manifest_parse bytes = Ok m <->
  manifest_ok m /\ bytes = render m /\ len bytes <= MAX_SOURCE_MANIFEST_BYTES.
Proof.
  split.
  - intros Hp. destruct (manifest_parse_sound bytes m Hp) as [Hm Hb]. split_and!; [done|done|].
    unfold manifest_parse in Hp. destruct (_ || _) eqn:E in Hp; [done|]. rewrite !orb_false_iff in E.
    destruct E as ((((((_ & E) & _) & _) & _) & _) & _). by apply Z.ltb_ge in E.
  - intros (Hm & -> & Hl). by apply manifest_parse_complete.
Qed.

(** ** Inspection and sources *)

(** C34: The component inspection accepts exactly the components of valid size
    that validate and whose payloads all decode, whose outermost version is a
    component and is closed, with exactly one top-level import and one top-level
    export, both plain instances of the expected names, and whose totals are
    within the limits: 256 sections, 4096 types, 32 custom sections of 65536
    bytes in all and eight nested levels.  The surface it returns is those totals. *)
Theorem inspection_exact `{Crates} bytes c :
  inspect_component wasm_validate wasm_parse_all bytes = Ok c <->
  1 <= len bytes <= MAX_COMPONENT_BYTES /\ wasm_validate bytes = true /\
  exists ps, wasm_parse_all bytes = Some <$> ps /\ expected_surface ps /\ within_limits ps /\
             c = stream_surface ps.
Proof. apply inspect_component_Ok. apply crates_typed. Qed.

Lemma inspection_exact_witness :
  exists ps, Some <$> Demo.stream = Some <$> ps /\ within_limits ps.
Proof.
  assert (Ha : inspect_component wasm_validate wasm_parse_all Demo.component = Ok (stream_surface Demo.stream))
    by (vm_compute; reflexivity).
  destruct (proj1 (inspection_exact Demo.component (stream_surface Demo.stream)) Ha)
    as (_ & _ & ps & Hps & _ & Hw & _).
  exists ps. split; [exact Hps|exact Hw].
Defined.

(** C35: A staged source tree is accepted exactly when it is a directory that
    holds only readable directories and files within the size limit, and its
    files, by path, mode, length and digest, are the manifest's entries: none
    missing and none extra, whatever the order of the directory entries. *)
Theorem staged_root_exact `{Crates} m root :
  manifest_ok m ->
  verify_staged_root sha256 m root = Ok tt <->
  (exists children, root = Dir (Some children)) /\ tree_clean root = true /\
  tree_files sha256 root [] ≡ₚ sm_entries m.
Proof. apply verify_staged_root_Ok. Qed.

Lemma staged_root_exact_witness :
  manifest_ok Demo.manifest /\ tree_files Demo.toy_sha256 Demo.root [] ≡ₚ sm_entries Demo.manifest.
Proof.
  assert (Hm : manifest_ok Demo.manifest).
  { apply (proj1 (manifest_parse_sound (render Demo.manifest) Demo.manifest ltac:(vm_compute; reflexivity))). }
  split; [exact Hm|].
  assert (Hr : verify_staged_root sha256 Demo.manifest Demo.root = Ok tt) by (vm_compute; reflexivity).
  apply (proj1 (staged_root_exact Demo.manifest Demo.root Hm) Hr).
Defined.

(** ** The bundle *)

(** C30: The tool admits exactly the bundles of the specification: [verify_bundle]
    returns a report if and only if the three records are canonical and valid,
    the admission record is signed under its domain by a strong key of the
    recorded identifier, every other input has the recorded length and digest,
    the documents are public and in order, the manifest is canonical and equals
    the staged tree, and the component has the expected surface; the report
    states the recorded component, the file and byte totals of the manifest and
    the section count and depth of the component. *)
Theorem bundle_exact `{Crates} i r :
  inputs_ok i ->
  verify_bundle i = Ok r <->
  exists a x b m ps, admitted i a x b m ps /\ r = report a m (stream_surface ps).
Proof.
  intros Hi. rewrite verify_bundle_Ok. split.
  - intros (a & x & b & m & c & Hc & ->). destruct (checks_admitted i a x b m c Hi Hc) as (ps & Ha & ->).
    by exists a, x, b, m, ps.
  - intros (a & x & b & m & ps & Ha & ->). exists a, x, b, m, (stream_surface ps).
    split; [by apply admitted_checks|done].
Qed.

Lemma bundle_exact_witness :
  inputs_ok (Demo.inputs None) /\
  exists a x b m ps, admitted (Demo.inputs None) a x b m ps /\ Demo.verdict = report a m (stream_surface ps).
Proof.
  assert (Hi : inputs_ok (Demo.inputs None)) by (apply inputs_okb_spec; vm_compute; reflexivity).
  split; [exact Hi|].
  apply (proj1 (bundle_exact (Demo.inputs None) Demo.verdict Hi)). vm_compute. reflexivity.
Defined.

(** C31: The admission record binds the whole bundle: two admitted bundles with
    the same admission record have the same component, executable, contract,
    records and documents, the same report, and the same staged files, path by
    path with their modes and contents in whatever order the directories list
    them; unless two different byte strings in the same role (two inputs, or two
    staged files of one path) have the same SHA-256 digest. *)
Theorem record_binds_bundle `{Crates} i j r s :
  slice_ok (bi_admission_record i) ->
  verify_bundle i = Ok r -> verify_bundle j = Ok s -> bi_admission_record i = bi_admission_record j ->
  (bound_inputs i = bound_inputs j /\ bi_target_executable i = bi_target_executable j /\ r = s /\
   staged_files i ≡ₚ staged_files j) \/
  collision i j.
Proof.
  intros Hs Hi Hj Hrec. destruct (decide (collision i j)) as [Hc|Hn]; [by right|]. left.
  by apply same_record_same_inputs.
Qed.

(** A bundle staged in another order has the same files; one with a forged file of
    the same digest is admitted under the same record, and is a collision. *)
Lemma record_binds_bundle_witness :
  let i := Demo.inputs None in
  let j := Demo.staged_inputs Demo.reordered None in
  let k := Demo.staged_inputs Demo.forged None in
  (bi_staged_source_root i <> bi_staged_source_root j /\ staged_files i ≡ₚ staged_files j) /\ collision i k.
Proof.
  intros i j k.
  assert (Hs : slice_ok (bi_admission_record i)) by (apply slice_okb_spec; vm_compute; reflexivity).
  assert (Hi : verify_bundle i = Ok Demo.verdict) by (vm_compute; reflexivity).
  assert (Hj : verify_bundle j = Ok Demo.verdict) by (vm_compute; reflexivity).
  assert (Hk : verify_bundle k = Ok Demo.verdict) by (vm_compute; reflexivity).
  split; [split; [intros E; vm_compute in E; discriminate E|]|].
  - destruct (record_binds_bundle i j Demo.verdict Demo.verdict Hs Hi Hj eq_refl) as [(_ & _ & _ & H)|H]; [exact H|].
    exfalso. revert H. apply (bool_decide_unpack _). vm_compute. exact I.
  - destruct (record_binds_bundle i k Demo.verdict Demo.verdict Hs Hi Hk eq_refl) as [(_ & _ & _ & H)|H]; [|exact H].
    exfalso. assert (Hin : mkStaged (bytes_of "src/lib.rs"%string) FILE_MODE [10; 11] ∈ staged_files k).
    { rewrite <-H. apply (bool_decide_unpack _). vm_compute. exact I. }
    revert Hin. apply (bool_decide_unpack _). vm_compute. exact I.
Defined.

(** ** Divergences from the contract *)

(** Only the immediately preceding path is compared, so a file may also be
    another entry's directory when a path sorts between them: [a], [a-b] and
    [a/c] are accepted together. *)
Example file_as_directory_accepted :
  let e path := Demo.entry (bytes_of path) [12] in
  let m := mkManifest (bytes_of "t"%string) (replicate 20 0) [e "a"%string; e "a-b"%string; e "a/c"%string] in
  manifest_parse (render m) = Ok m.
Proof. vm_compute. reflexivity. Qed.

(** Blank lines inside a transcript or a configuration are skipped, not refused. *)
Example blank_lines_accepted :
  validate_line_document (bytes_of "a"%string ++ [NL; NL] ++ bytes_of "b"%string ++ [NL]) 2 = Ok tt /\
  validate_name_value_document (bytes_of "a=1"%string ++ [NL; NL] ++ bytes_of "b=2"%string ++ [NL]) = Ok tt.
Proof. split; vm_compute; reflexivity. Qed.

(** An absolute drive path with forward slashes passes as a configuration value. *)
Example drive_path_value_accepted :
  validate_name_value_document (bytes_of "a=C:/work"%string ++ [NL]) = Ok tt.
Proof. vm_compute. reflexivity. Qed.

(** The inspection-only modes are accepted together with a target executable. *)
Example inspection_only_with_executable :
  ep_code_publication_mode Demo.execution = 0 /\ ep_trap_mode Demo.execution = 0 /\
  ep_memory_mode Demo.execution = 0 /\
  verify_bundle (Demo.inputs (Some Demo.executable)) = Ok Demo.verdict.
Proof. split_and!; [reflexivity..|]. vm_compute. reflexivity. Qed.
