(* ===== verification/AdmissionCli.v ===== *)
(** * Component admission: the command line

    Models [tools/component-admission/admission/src/main.rs].  The arguments are
    those after the program name, as raw bytes; a name is a [String] when it is
    UTF-8.  The file system answers a path with a node. *)

From Stdlib Require Import String.
From stdpp Require Import gmap.
From S2P Require Import Prelude.
From S2P Require Import Bytes.
From S2P Require Import Text.
From S2P Require Import AdmissionRecords.
From S2P Require Import AdmissionSource.
From S2P Require Import AdmissionBundle.

(** ** Codes *)

#[local] Open Scope string_scope.

(** [AdmissionError::code] *)
Definition code (e : AdmissionError) : list Z := bytes_of
  match e with
  | EIo => "io"
  | EInputType => "input-type"
  | ESize => "size"
  | ESchema => "schema"
  | EReserved => "reserved"
  | EField => "field"
  | ELength => "length"
  | EDigest => "digest"
  | EKeyId => "key-id"
  | EWeakKey => "weak-key"
  | ESignature => "signature"
  | EUtf8 => "utf8"
  | EDocument => "document"
  | EManifest => "source-manifest"
  | ESourceInventory => "source-inventory"
  | EComponent => "component"
  | EComponentSurface => "component-surface"
  | EWit => "wit"
  end.

Definition USAGE : list Z := bytes_of ("usage: makopa-component-admission check " ++
  "--admission FILE --signature FILE --public-key FILE --component FILE " ++
  "--wit FILE --execution-profile FILE --target-triple FILE " ++
  "--runtime-config FILE --compiler-config FILE --build-evidence FILE " ++
  "--source-manifest FILE --builder-identity FILE --command-transcript FILE " ++
  "--dependency-lock FILE --tool-versions FILE --source-root DIRECTORY " ++
  "[--executable FILE]").

Definition CHECK : list Z := bytes_of "check".
Definition DASHES : list Z := bytes_of "--".
Definition ARGUMENT_ENCODING : list Z := bytes_of "argument-encoding".
Definition ARGUMENT_NAME : list Z := bytes_of "argument-name".
Definition ARGUMENT_VALUE : list Z := bytes_of "argument-value".
Definition ARGUMENT_DUPLICATE : list Z := bytes_of "argument-duplicate".
Definition ARGUMENT_UNKNOWN : list Z := bytes_of "argument-unknown".
Definition ARGUMENT_MISSING : list Z := bytes_of "argument-missing".

Definition opt (name : string) : list Z := bytes_of ("--" ++ name).

Definition REQUIRED : list (list Z) := List.map opt
  ("admission" :: "signature" :: "public-key" :: "component" :: "wit" :: "execution-profile"
   :: "target-triple" :: "runtime-config" :: "compiler-config" :: "build-evidence"
   :: "source-manifest" :: "builder-identity" :: "command-transcript" :: "dependency-lock"
   :: "tool-versions" :: "source-root" :: nil).

Definition EXECUTABLE : list Z := opt "executable".

(** ** Arguments *)

Notation Values := (gmap (list Z) (list Z)).
Notation Code := (list Z).

(** [OsString::into_string] *)
Definition into_string (arg : list Z) : option (list Z) := if utf8_valid arg then Some arg else None.

(** The [while let] over the name and value pairs. *)
Fixpoint read_arguments (arguments : list (list Z)) (values : Values) : result Values Code :=
  match arguments with
  | nil => Ok values
  | (name :: rest)%list =>
      let? name := ok_or (into_string name) ARGUMENT_ENCODING in
      if negb (starts_with DASHES name) || bytes_eqb name DASHES then Err ARGUMENT_NAME else
      match rest with
      | nil => Err ARGUMENT_VALUE
      | (value :: rest)%list =>
          if bool_decide (is_Some (values !! name)) then Err ARGUMENT_DUPLICATE else
          read_arguments rest (<[name := value]> values)
      end
  end.

Definition is_required (name : list Z) : bool := existsb (bytes_eqb name) REQUIRED.

(** [values.keys().any(..)] *)
Definition has_unknown (values : Values) : bool :=
  existsb (fun kv => negb (is_required (fst kv)) && negb (bytes_eqb (fst kv) EXECUTABLE)) (map_to_list values).

Definition has_missing (values : Values) : bool :=
  existsb (fun name => bool_decide (values !! name = None)) REQUIRED.

(** ** The run *)

Section cli.
Context `{Crates}.
Variable file_system : list Z -> Node.

Definition path (values : Values) (name : list Z) : result (list Z) Code := ok_or (values !! name) ARGUMENT_MISSING.

Definition read (values : Values) (name : list Z) (maximum : Z) : result (list Z) Code :=
  let? p := path values name in
  map_err code (read_bounded (file_system p) maximum).

(** [.map(|path| read_bounded(..)).transpose()] *)
Definition read_optional (values : Values) (name : list Z) (maximum : Z) : result (option (list Z)) Code :=
  match values !! name with
  | None => Ok None
  | Some p =>
      let? bytes := map_err code (read_bounded (file_system p) maximum) in
      Ok (Some bytes)
  end.

(** The inputs, in the order they are read. *)
Definition read_inputs (values : Values) : result BundleInputs Code :=
  let? admission := read values (opt "admission") ADMISSION_BYTES in
  let? signature := read values (opt "signature") SIGNATURE_BYTES in
  let? public_key := read values (opt "public-key") PUBLIC_KEY_BYTES in
  let? component := read values (opt "component") MAX_COMPONENT_BYTES in
  let? executable := read_optional values EXECUTABLE MAX_COMPONENT_BYTES in
  let? wit := read values (opt "wit") MAX_WIT_BYTES in
  let? execution_profile := read values (opt "execution-profile") EXECUTION_PROFILE_BYTES in
  let? target_triple := read values (opt "target-triple") 96 in
  let? runtime_configuration := read values (opt "runtime-config") 4096 in
  let? compiler_configuration := read values (opt "compiler-config") 4096 in
  let? build_evidence := read values (opt "build-evidence") BUILD_EVIDENCE_BYTES in
  let? source_manifest := read values (opt "source-manifest") MAX_SOURCE_MANIFEST_BYTES in
  let? builder_identity := read values (opt "builder-identity") 128 in
  let? command_transcript := read values (opt "command-transcript") 4096 in
  let? dependency_lock := read values (opt "dependency-lock") 524288 in
  let? tool_versions := read values (opt "tool-versions") 4096 in
  let? source_root := path values (opt "source-root") in
  Ok (mkInputs admission signature public_key component executable wit execution_profile target_triple
        runtime_configuration compiler_configuration build_evidence source_manifest builder_identity
        command_transcript dependency_lock tool_versions (file_system source_root)).

Definition run (arguments : list (list Z)) : result (list Z) Code :=
  match arguments with
  | (first :: rest)%list =>
      if negb (bool_decide (into_string first = Some CHECK)) then Err USAGE else
      let? values := read_arguments rest ∅ in
      if has_unknown values then Err ARGUMENT_UNKNOWN else
      if has_missing values then Err ARGUMENT_MISSING else
      let? inputs := read_inputs values in
      match verify_bundle inputs with
      | Ok report => Ok (to_json report)
      | Err error => Err (code error)
      end
  | nil => Err USAGE
  end.

(** [json_escape] on one character of an ASCII code. *)
Definition escape (b : Z) : list Z :=
  (if b =? 92 then [92; 92]
   else if b =? 34 then [92; 34]
   else if b =? 10 then [92; 110]
   else if b =? 13 then [92; 114]
   else if b =? 9 then [92; 116]
   else if (b <? 32) || (b =? 127) then [63]
   else [b])%Z.

Definition json_escape (value : list Z) : list Z := List.flat_map escape value.

(** Which stream is written, and the exit code. *)
Inductive Exit :=
| Success (stdout : list Z)
| Failure (stderr : list Z) (status : Z).

Definition main (arguments : list (list Z)) : Exit :=
  match run arguments with
  | Ok text => Success (text ++ [NL])%list
  | Err code =>
      Failure (json "{'schema_version':1,'scope':'os041a-admission-core-v1','status':'fail','admission_authority':false,'error':'"
               ++ json_escape code ++ json "'}" ++ [NL])%list 2
  end.
End cli.
