(* ===== verification/AdmissionCliProofs.v ===== *)
(** * Component admission: the command line reports exactly the admitted bundles *)

From Stdlib Require Import String.
From stdpp Require Import gmap.
From S2P Require Import Prelude.
From S2P Require Import Panic.
From S2P Require Import Bytes.
From S2P Require Import Text.
From S2P Require Import AdmissionRecords.
From S2P Require Import AdmissionManifestProofs.
From S2P Require Import AdmissionSource.
From S2P Require Import AdmissionBundle.
From S2P Require Import AdmissionSpec.
From S2P Require Import AdmissionTheorems.
From S2P Require Import AdmissionCli.

(** ** Arguments *)

Definition flatten (pairs : list (list Z * list Z)) : list (list Z) :=
  flat_map (fun kv => [kv.1; kv.2]) pairs.

(** A name of an option: UTF-8, two dashes and something after them. *)
Definition option_name (name : list Z) : Prop :=
  utf8_valid name = true /\ starts_with DASHES name = true /\ name <> DASHES.

Lemma option_name_spec name :
  option_name name <->
  into_string name = Some name /\ (negb (starts_with DASHES name) || bytes_eqb name DASHES) = false.
Proof.
  unfold option_name, into_string. rewrite orb_false_iff, negb_false_iff, bytes_eqb_false.
  destruct (utf8_valid name); naive_solver.
Qed.

Lemma into_string_Some arg name : into_string arg = Some name -> arg = name.
Proof. unfold into_string. destruct (utf8_valid arg); naive_solver. Qed.

Definition fresh_pairs (pairs : list (list Z * list Z)) (values : Values) : Prop :=
  NoDup pairs.*1 /\ Forall option_name pairs.*1 /\ Forall (fun k => values !! k = None) pairs.*1.

Lemma fresh_cons k v pairs values :
  fresh_pairs ((k, v) :: pairs) values <->
  option_name k /\ values !! k = None /\ fresh_pairs pairs (<[k := v]> values).
Proof.
  unfold fresh_pairs. rewrite !fmap_cons, NoDup_cons, !Forall_cons. cbn [fst].
  assert (Hk : forall l, k ∉ l -> Forall (fun x => values !! x = None) l <->
                     Forall (fun x => <[k := v]> values !! x = None) l).
  { intros l Hl. rewrite !Forall_forall.
    split; intros Hf x Hx; specialize (Hf x Hx); rewrite lookup_insert_ne in * by (intros ->; done); done. }
  split.
  - intros ((Hn & Hd) & (Ho & Hos) & (Hv & Hvs)). split_and!; try done. by apply Hk.
  - intros (Ho & Hv & Hd & Hos & Hvs).
    assert (Hn : k ∉ pairs.*1).
    { intros Hin. pose proof (proj1 (Forall_forall _ _) Hvs k Hin) as Hx. cbn in Hx.
      by rewrite lookup_insert_eq in Hx. }
    split_and!; try done. by apply Hk.
Qed.

Lemma pairs_map k v pairs values :
  k ∉ pairs.*1 -> list_to_map ((k, v) :: pairs) ∪ values = list_to_map pairs ∪ <[k := v]> values :> Values.
Proof.
  intros Hk. cbn. apply map_eq. intros x. rewrite !lookup_union.
  destruct (decide (x = k)) as [->|Hne].
  - rewrite !lookup_insert_eq. rewrite (proj1 (not_elem_of_list_to_map _ _) Hk). by destruct (values !! k).
  - by rewrite !lookup_insert_ne by done.
Qed.

(** The loop accepts exactly flattened pairs of distinct option names. *)
Lemma read_arguments_Ok n : forall arguments values res,
  (length arguments <= n)%nat ->
  read_arguments arguments values = Ok res <->
  exists pairs, arguments = flatten pairs /\ fresh_pairs pairs values /\ res = list_to_map pairs ∪ values.
Proof.
  induction n as [|n IH]; intros arguments values res Hn.
  { destruct arguments; [|cbn in Hn; lia]. cbn. split.
    - intros [= <-]. exists []. split_and!; [done|repeat constructor|]. cbn. by rewrite (left_id_L ∅ (∪)).
    - intros (pairs & Hp & _ & ->). destruct pairs as [|[]]; [|done]. cbn. by rewrite (left_id_L ∅ (∪)). }
  destruct arguments as [|name rest]; [apply (IH [] values res); cbn; lia|]. cbn [read_arguments]. split.
  - destruct (into_string name) as [s|] eqn:Es; [|done]. pose proof (into_string_Some _ _ Es) as <-. cbn [ok_or].
    destruct (negb _ || _) eqn:Eo; [done|]. destruct rest as [|v rest]; [done|].
    destruct (bool_decide_reflect (is_Some (values !! name))) as [|Hnew]; [done|].
    intros (pairs & -> & Hf & ->)%IH; [|cbn in Hn; lia]. exists ((name, v) :: pairs).
    assert (Hc : fresh_pairs ((name, v) :: pairs) values).
    { apply fresh_cons. split_and!; [by apply option_name_spec|by apply eq_None_not_Some|done]. }
    split_and!; [done|done|]. symmetry. apply pairs_map. destruct Hc as [Hd _]. by apply NoDup_cons in Hd as [? _].
  - intros (pairs & Hp & Hf & ->). destruct pairs as [|[k v] pairs]; [done|]. cbn in Hp. injection Hp as -> ->.
    pose proof Hf as Hf'. apply fresh_cons in Hf as (Ho & Hv & Hf). apply option_name_spec in Ho as [-> Ho].
    cbn [ok_or]. rewrite Ho, Hv, bool_decide_eq_false_2 by (by intros [? ?]).
    apply IH; [cbn in Hn; lia|]. exists pairs. split_and!; [done|done|].
    apply pairs_map. destruct Hf' as [Hd _]. by apply NoDup_cons in Hd as [? _].
Qed.

(** ** The run *)

(** A command line: [check] and every required option once, with no other but the
    executable. *)
Definition command_line (arguments : list (list Z)) (pairs : list (list Z * list Z)) : Prop :=
  arguments = CHECK :: flatten pairs /\ NoDup pairs.*1 /\ Forall option_name pairs.*1 /\
  (forall name, name ∈ REQUIRED -> name ∈ pairs.*1) /\
  (forall name, name ∈ pairs.*1 -> name ∈ REQUIRED \/ name = EXECUTABLE).

Lemma is_required_spec name : is_required name = true <-> name ∈ REQUIRED.
Proof.
  unfold is_required. rewrite existsb_exists. split.
  - intros (x & Hx & ->%bytes_eqb_spec). by apply list_elem_of_In.
  - intros Hn%list_elem_of_In. exists name. split; [done|by apply bytes_eqb_spec].
Qed.

Lemma has_unknown_spec pairs :
  NoDup pairs.*1 ->
  has_unknown (list_to_map pairs) = false <->
  forall name, name ∈ pairs.*1 -> name ∈ REQUIRED \/ name = EXECUTABLE.
Proof.
  intros Hd. unfold has_unknown.
  rewrite (existsb_Forall _ (fun kv : list Z * list Z => kv.1 ∈ REQUIRED \/ kv.1 = EXECUTABLE)).
  - rewrite map_to_list_to_map by done. rewrite Forall_forall. split.
    + intros Hf name (kv & -> & Hkv)%list_elem_of_fmap. by apply Hf.
    + intros Hf kv Hkv. apply Hf. by apply list_elem_of_fmap_2.
  - intros [k v]. cbn [fst]. rewrite andb_false_iff, !negb_false_iff, is_required_spec, bytes_eqb_spec. done.
Qed.

Lemma has_missing_spec pairs :
  has_missing (list_to_map pairs) = false <-> forall name, name ∈ REQUIRED -> name ∈ pairs.*1.
Proof.
  unfold has_missing. rewrite (existsb_Forall _ (fun name => name ∈ pairs.*1)).
  - apply Forall_forall.
  - intros name. rewrite bool_decide_eq_false, <-not_elem_of_list_to_map. split; [|naive_solver].
    intros Hn. by apply dec_stable.
Qed.

Section cli_proofs.
Context `{Crates}.
Variable file_system : list Z -> Node.

Lemma run_Ok arguments text :
  run file_system arguments = Ok text <->
  exists pairs i r, command_line arguments pairs /\ read_inputs file_system (list_to_map pairs) = Ok i /\
    verify_bundle i = Ok r /\ text = to_json r.
Proof.
  unfold run, command_line. destruct arguments as [|head rest]; [naive_solver|].
  assert (Hcheck : into_string head = Some CHECK <-> head = CHECK).
  { split; [apply into_string_Some|by intros ->]. }
  destruct (bool_decide_reflect (into_string head = Some CHECK)) as [Hh|Hh]; cbn [negb].
  2: { split; [done|]. intros (pairs & i & r & ([= ?] & _) & _). tauto. }
  apply Hcheck in Hh as ->. pose proof (read_arguments_Ok (length rest) rest ∅) as Hargs. split.
  - destruct (read_arguments rest ∅) as [values|] eqn:Ea; [|done].
    destruct (proj1 (Hargs values ltac:(done)) eq_refl) as (pairs & -> & (Hd & Ho & _) & ->).
    rewrite (right_id_L ∅ (∪)). destruct (has_unknown _) eqn:Eu; [done|].
    destruct (has_missing _) eqn:Em; [done|]. destruct (read_inputs _ _) as [i|] eqn:Ei; [|done].
    destruct (verify_bundle i) as [r|] eqn:Ev; [|done]. intros [= <-]. exists pairs, i, r.
    split_and!; try done; [by apply has_missing_spec|by apply has_unknown_spec].
  - intros (pairs & i & r & ([= ->] & Hd & Ho & Hreq & Hknown) & Hi & Hv & ->).
    rewrite (proj2 (Hargs (list_to_map pairs) ltac:(done))).
    + rewrite (proj2 (has_unknown_spec pairs Hd) Hknown), (proj2 (has_missing_spec pairs) Hreq).
      by rewrite Hi, Hv.
    + exists pairs. split_and!; [done| |by rewrite (right_id_L ∅ (∪))]. split_and!; [done|done|].
      apply Forall_forall. intros k _. apply lookup_empty.
Qed.

(** ** The inputs are whole regular files *)

Definition file_at (values : Values) (name : list Z) (maximum : Z) (bytes : list Z) : Prop :=
  exists p mode size, values !! name = Some p /\ file_system p = File mode (Some bytes) size /\
    len bytes <= maximum.

Lemma read_bounded_file node maximum bytes :
  0 <= maximum < U64_MAX ->
  read_bounded node maximum = Ok bytes <->
  exists mode size, node = File mode (Some bytes) size /\ len bytes <= maximum.
Proof.
  intros Hm. destruct node as [| | |mode c size|]; try (cbn; naive_solver).
  rewrite read_bounded_Ok by done. split; [intros [-> ?]; by exists mode, size|].
  by intros (? & ? & [= -> -> ->] & ?).
Qed.

Lemma read_Ok values name maximum bytes :
  0 <= maximum < U64_MAX ->
  read file_system values name maximum = Ok bytes <-> file_at values name maximum bytes.
Proof.
  intros Hm. unfold read, path, file_at. destruct (values !! name) as [p|]; cbn [ok_or]; [|naive_solver].
  rewrite map_err_Ok, read_bounded_file by done. naive_solver.
Qed.

Lemma read_optional_Ok values name maximum bytes :
  0 <= maximum < U64_MAX ->
  read_optional file_system values name maximum = Ok bytes <->
  match bytes with None => values !! name = None | Some b => file_at values name maximum b end.
Proof.
  intros Hm. unfold read_optional, file_at. destruct (values !! name) as [p|]; [|destruct bytes; naive_solver].
  destruct (map_err code _) as [b|] eqn:E.
  - apply map_err_Ok, read_bounded_file in E as (mode & size & Ef & Hl); [|done].
    destruct bytes as [b'|]; [|naive_solver]. split; [intros [= <-]; by exists p, mode, size|].
    intros (p' & mode' & size' & [= <-] & Hf & _). congruence.
  - destruct bytes as [b|]; [|naive_solver]. split; [done|]. intros (p' & mode & size & [= <-] & Hf & Hl).
    assert (map_err code (read_bounded (file_system p) maximum) = Ok b) as E'; [|congruence].
    apply map_err_Ok, read_bounded_file; [done|]. by exists mode, size.
Qed.

(** Where each input comes from. *)
Record inputs_from (values : Values) (i : BundleInputs) : Prop := {
  if_admission : file_at values (opt "admission") ADMISSION_BYTES (bi_admission_record i);
  if_signature : file_at values (opt "signature") SIGNATURE_BYTES (bi_detached_signature i);
  if_public_key : file_at values (opt "public-key") PUBLIC_KEY_BYTES (bi_public_key i);
  if_component : file_at values (opt "component") MAX_COMPONENT_BYTES (bi_portable_component i);
  if_executable : match bi_target_executable i with
                  | None => values !! EXECUTABLE = None
                  | Some e => file_at values EXECUTABLE MAX_COMPONENT_BYTES e
                  end;
  if_wit : file_at values (opt "wit") MAX_WIT_BYTES (bi_wit i);
  if_profile : file_at values (opt "execution-profile") EXECUTION_PROFILE_BYTES (bi_execution_profile_record i);
  if_triple : file_at values (opt "target-triple") 96 (bi_target_triple i);
  if_runtime : file_at values (opt "runtime-config") 4096 (bi_runtime_configuration i);
  if_compiler : file_at values (opt "compiler-config") 4096 (bi_compiler_configuration i);
  if_evidence : file_at values (opt "build-evidence") BUILD_EVIDENCE_BYTES (bi_build_evidence_record i);
  if_manifest : file_at values (opt "source-manifest") MAX_SOURCE_MANIFEST_BYTES (bi_source_manifest i);
  if_builder : file_at values (opt "builder-identity") 128 (bi_builder_identity i);
  if_transcript : file_at values (opt "command-transcript") 4096 (bi_command_transcript i);
  if_lock : file_at values (opt "dependency-lock") 524288 (bi_dependency_lock i);
  if_tools : file_at values (opt "tool-versions") 4096 (bi_tool_versions i);
  if_root : exists p, values !! opt "source-root" = Some p /\ bi_staged_source_root i = file_system p
}.

Ltac next_read H :=
  match type of H with
  | match ?r with Ok _ => _ | Err _ => _ end = _ => destruct r eqn:?; [|done]
  end.

Lemma read_inputs_from values i : read_inputs file_system values = Ok i <-> inputs_from values i.
Proof.
  unfold read_inputs. split.
  - intros H0. do 17 next_read H0. injection H0 as <-.
    repeat match goal with
      | E : read _ _ _ _ = Ok _ |- _ => apply read_Ok in E; [|done]
      | E : read_optional _ _ _ _ = Ok _ |- _ => apply read_optional_Ok in E; [|done]
      end.
    split; try done. cbn. unfold path in *. destruct (values !! opt "source-root") as [p|]; [|done].
    exists p. naive_solver.
  - intros []. destruct if_root0 as (p & Hp & Hroot).
    repeat match goal with
      | E : file_at ?v ?n ?m _ |- _ => apply read_Ok in E; [|done]
      end.
    apply read_optional_Ok in if_executable0; [|done].
    repeat match goal with
      | |- match ?r with Ok _ => _ | Err _ => _ end = _ =>
          match goal with E : r = Ok _ |- _ => rewrite E end
      end.
    unfold path. rewrite Hp. cbn [ok_or]. rewrite <-Hroot. by destruct i.
Qed.
End cli_proofs.

(** ** The command line *)

(** C36: The tool prints a report and succeeds exactly when it is called with
    [check] and every required option once (and at most the executable besides),
    every file argument is a regular file of at most the documented size, read
    whole, and the bundle they make is admitted; the output is the report of that
    bundle.  In every other case it writes an error and exits with status 2. *)
Theorem cli_reports_admitted `{Crates} file_system arguments out :
  (main file_system arguments = Success out <->
   exists pairs i r, command_line arguments pairs /\ inputs_from file_system (list_to_map pairs) i /\
     verify_bundle i = Ok r /\ out = to_json r ++ [NL]) /\
  (forall err status, main file_system arguments = Failure err status -> status = 2).
Proof.
  unfold main. pose proof (run_Ok file_system arguments) as Hrun.
  destruct (run file_system arguments) as [text|e].
  - split; [|done]. destruct (proj1 (Hrun text) eq_refl) as (pairs & i & r & Hc & Hi & Hv & ->).
    apply read_inputs_from in Hi. split; [intros [= <-]; by exists pairs, i, r|].
    intros (pairs' & i' & r' & Hc' & Hi' & Hv' & ->). apply read_inputs_from in Hi'.
    assert (Ht : @Ok _ Code (to_json r) = Ok (to_json r')) by (apply Hrun; by exists pairs', i', r').
    revert Ht. generalize (to_json r) (to_json r'). by intros ? ? [= ->].
  - split; [|by intros err status [= _ <-]]. split; [done|]. intros (pairs & i & r & Hc & Hi & Hv & _).
    apply read_inputs_from in Hi. assert (Ht : @Err (list Z) Code e = Ok (to_json r)) by (apply Hrun; by exists pairs, i, r). done.
Qed.

(** A file system that holds the bundle of the examples, and a command line. *)
Definition demo_pairs : list (list Z * list Z) := List.map (fun name => (name, name)) REQUIRED.

Definition demo_file_system (p : list Z) : Node :=
  let i := Demo.inputs None in
  let contents :=
    [bi_admission_record i; bi_detached_signature i; bi_public_key i; bi_portable_component i; bi_wit i;
     bi_execution_profile_record i; bi_target_triple i; bi_runtime_configuration i;
     bi_compiler_configuration i; bi_build_evidence_record i; bi_source_manifest i;
     bi_builder_identity i; bi_command_transcript i; bi_dependency_lock i; bi_tool_versions i] in
  match position (bytes_eqb p) REQUIRED with
  | None => Missing
  | Some n => match contents !! n with Some bytes => Demo.file bytes | None => Demo.root end
  end.

Lemma cli_reports_admitted_witness :
  exists pairs i r, command_line (CHECK :: flatten demo_pairs) pairs /\
    inputs_from demo_file_system (list_to_map pairs) i /\ verify_bundle i = Ok r.
Proof.
  assert (Hm : main demo_file_system (CHECK :: flatten demo_pairs) = Success (to_json Demo.verdict ++ [NL]))
    by (vm_compute; reflexivity).
  destruct (proj1 (proj1 (cli_reports_admitted demo_file_system (CHECK :: flatten demo_pairs)
    (to_json Demo.verdict ++ [NL]))) Hm) as (pairs & i & r & Hc & Hi & Hv & _).
  exists pairs, i, r. split; [exact Hc|split; [exact Hi|exact Hv]].
Defined.
