(* ===== verification/PageTables.v ===== *)
(** * The bootstrap page tables

    Models the page-table builder and the recovery context of
    [kernel/src/arch_x86_64.rs] ([BootstrapBuilder], [prepare_recovery_context],
    [verify_recovery_layout], [validate_cpu_state], [enable_protection_bits]).
    The pool of tables is a map from word addresses to words, zero where nothing
    was written.  The addresses the linker chooses and what the processor
    answers are records.  [None] is a panic: a plain addition that overflows. *)

From stdpp Require Import gmap.
From S2P Require Import Prelude.
From S2P Require Import RuntimeTypes.
From S2P Require Import Panic.
From S2P Require Import AddressSpace.

Notation PAGE_SIZE := AddressSpace.PAGE_SIZE.

Definition ENTRY_ADDRESS_MASK : Z := 0x000ffffffffff000.
Definition TABLE_LINK_FLAGS : Z := flags_union PRESENT WRITABLE.
Definition EFER_NXE : Z := Z.shiftl 1 11.
Definition CR0_WRITE_PROTECT : Z := Z.shiftl 1 16.
Definition CR4_LA57 : Z := Z.shiftl 1 12.

Inductive IsolationError :=
| InvalidLayout | UnsupportedCpu | UnexpectedLa57 | UnexpectedFsgsbase | InvalidKernelLayout
| BootstrapPoolExhausted | DuplicateMapping | MissingMapping | InvalidMapping
| TemporaryWindowBusy | TemporaryWindowLeaked | FrameAllocation | FrameReturn
| DescriptorState | ReachableFrame.

(** What the linker script and the static placement decide. *)
Record Linkage := mkLinkage {
  lk_text_start : Z;
  lk_text_end : Z;
  lk_rodata_start : Z;
  lk_rodata_end : Z;
  lk_data_start : Z;
  lk_data_end : Z;
  lk_bss_start : Z;
  lk_bss_end : Z;
  lk_kernel_start : Z;
  lk_kernel_end : Z;
  lk_bootstrap_storage : Z;
  lk_recovery_stack : Z;
  lk_double_fault_stack : Z
}.

(** The processor: the two [cpuid] leaves and the registers the code touches. *)
Record Cpu := mkCpu {
  cpu_highest_extended : Z;
  cpu_extended_edx : Z;
  cpu_cr4 : Z;
  cpu_efer : Z;
  cpu_cr0 : Z
}.

Record RecoveryState := mkRecovery {
  rs_root : Z;
  rs_temporary_pte : Z;
  rs_pool_used : nat;
  rs_ready : bool
}.

(** ** Tables *)

Notation Words := (gmap Z Z).

Definition read_word (w : Words) (address : Z) : Z := default 0 (w !! address).
Definition write_word (w : Words) (address value : Z) : Words := <[address := value]> w.

(** [table.entries[index]] of the table at [physical] *)
Definition entry_address (physical index : Z) : Z := physical + 8 * index.

Record BootstrapBuilder := mkBuilder {
  bs_budget : BootstrapBudget;
  bs_words : Words
}.

(** A method of the builder: it may panic, and an error keeps the writes made. *)
Definition B (A : Type) : Type := BootstrapBuilder -> option (result A IsolationError * BootstrapBuilder).

Definition retB {A} (a : A) : B A := fun s => Some (Ok a, s).
Definition liftB {A} (r : result A IsolationError) : B A := fun s => Some (r, s).
Definition panicB {A} (o : option A) : B A := fun s => match o with Some a => Some (Ok a, s) | None => None end.
Definition readB (address : Z) : B Z := fun s => Some (Ok (read_word (bs_words s) address), s).
Definition writeB (address value : Z) : B unit := fun s =>
  Some (Ok tt, mkBuilder (bs_budget s) (write_word (bs_words s) address value)).
Definition bindB {A C} (m : B A) (k : A -> B C) : B C := fun s =>
  match m s with
  | None => None
  | Some (Ok a, s') => k a s'
  | Some (Err e, s') => Some (Err e, s')
  end.

Declare Scope builder_scope.
Delimit Scope builder_scope with builder.
Notation "'let#' x ':=' m 'in' k" := (bindB m (fun x => k))
  (at level 10, x pattern, m at level 100, k at level 200,
   format "'[v' 'let#'  x  ':='  m  'in' '/' k ']'") : builder_scope.
#[local] Open Scope builder_scope.

Definition present_address (entry : Z) : option Z :=
  if negb (Z.land entry PRESENT =? 0) then Some (Z.land entry ENTRY_ADDRESS_MASK) else None.

Definition checked_range (start end_ : Z) : result Z IsolationError :=
  if negb (is_multiple_of start PAGE_SIZE) || negb (is_multiple_of end_ PAGE_SIZE) || (end_ <=? start)
  then Err InvalidKernelLayout else
  ok_or (checked_sub end_ start) InvalidKernelLayout.

Section builder.
Variable linkage : Linkage.

Definition pool_base : Z := lk_bootstrap_storage linkage.

(** [table.entries.fill(0)] for every table of the pool: a word that was not
    written reads as zero. *)
Definition clear_pool (w : Words) : Words :=
  filter (fun e => fst e < pool_base \/ pool_base + Z.of_nat BOOTSTRAP_PAGE_TABLE_FRAMES * PAGE_SIZE <= fst e) w.

(** [BootstrapBuilder::new]: the pool is filled with zeros. *)
Definition builder_new (w : Words) : BootstrapBuilder := mkBuilder budget_new (clear_pool w).

Definition claim : B nat := fun s =>
  let '(r, budget) := budget_claim (bs_budget s) in
  Some (map_err (fun _ => BootstrapPoolExhausted) r, mkBuilder budget (bs_words s)).

Definition allocate_table : B Z :=
  let# index := claim in
  panicB (checked_add pool_base (Z.of_nat index * PAGE_SIZE)).

Definition validate_table_address (physical : Z) : B unit :=
  let# end_ := panicB (checked_add pool_base (Z.of_nat BOOTSTRAP_PAGE_TABLE_FRAMES * PAGE_SIZE)) in
  if (physical <? pool_base) || (end_ <=? physical) || negb (is_multiple_of physical PAGE_SIZE)
  then liftB (Err InvalidMapping) else retB tt.

(** [table_ref(physical)?.entries[index]] and the same of [table_mut] *)
Definition read_entry (physical index : Z) : B Z :=
  let# _ := validate_table_address physical in
  readB (entry_address physical index).

Definition write_entry (physical index value : Z) : B unit :=
  let# _ := validate_table_address physical in
  writeB (entry_address physical index) value.

Definition ensure_child (parent index : Z) : B Z :=
  let# existing := read_entry parent index in
  if negb (Z.land existing PRESENT =? 0) then retB (Z.land existing ENTRY_ADDRESS_MASK) else
  let# child := allocate_table in
  let# _ := write_entry parent index (Z.lor child TABLE_LINK_FLAGS) in
  retB child.

Definition leaf_slot (root virtual_address : Z) : B (Z * Z) :=
  let# pml3 := ensure_child root (pml4_index virtual_address) in
  let# pml2 := ensure_child pml3 (pml3_index virtual_address) in
  let# pml1 := ensure_child pml2 (pml2_index virtual_address) in
  retB (pml1, pml1_index virtual_address).

Definition map_page (root virtual_address physical_address : Z) (flags : MappingFlags) : B unit :=
  if negb (is_multiple_of virtual_address PAGE_SIZE) || negb (is_multiple_of physical_address PAGE_SIZE)
  then liftB (Err InvalidMapping) else
  let# slot := leaf_slot root virtual_address in
  let# entry := read_entry (fst slot) (snd slot) in
  if negb (Z.land entry PRESENT =? 0) then liftB (Err DuplicateMapping) else
  writeB (entry_address (fst slot) (snd slot)) (Z.lor physical_address flags).

(** The [for] over the pages from [page] on. *)
Fixpoint map_pages (count : nat) (page root virtual_start physical_start : Z) (flags : MappingFlags) : B unit :=
  match count with
  | O => retB tt
  | S count' =>
      let# offset := liftB (ok_or (checked_mul page PAGE_SIZE) InvalidKernelLayout) in
      let# virtual_address := panicB (checked_add virtual_start offset) in
      let# physical_address := panicB (checked_add physical_start offset) in
      let# _ := map_page root virtual_address physical_address flags in
      map_pages count' (page + 1) root virtual_start physical_start flags
  end.

Definition map_range (root virtual_start physical_start byte_length : Z) (flags : MappingFlags) : B unit :=
  if (byte_length =? 0)
     || negb (is_multiple_of virtual_start PAGE_SIZE)
     || negb (is_multiple_of physical_start PAGE_SIZE)
     || negb (is_multiple_of byte_length PAGE_SIZE)
  then liftB (Err InvalidKernelLayout) else
  map_pages (Z.to_nat (byte_length / PAGE_SIZE)) 0 root virtual_start physical_start flags.

(** [.ok()]: an error becomes [None]. *)
Definition okB {A} (m : B A) : B (option A) := fun s =>
  match m s with
  | None => None
  | Some (Ok a, s') => Some (Ok (Some a), s')
  | Some (Err _, s') => Some (Ok None, s')
  end.

(** [?] on an [Option] *)
Definition optB {A C} (m : B (option A)) (k : A -> B (option C)) : B (option C) :=
  let# o := m in match o with None => retB None | Some a => k a end.

Definition entry_for (root address : Z) : B (option Z) :=
  optB (okB (read_entry root (pml4_index address))) (fun pml4 =>
  optB (retB (present_address pml4)) (fun pml3_address =>
  optB (okB (read_entry pml3_address (pml3_index address))) (fun pml3 =>
  optB (retB (present_address pml3)) (fun pml2_address =>
  optB (okB (read_entry pml2_address (pml2_index address))) (fun pml2 =>
  optB (retB (present_address pml2)) (fun pml1_address =>
  okB (read_entry pml1_address (pml1_index address)))))))).

(** ** The recovery context *)

Definition OBSERVED_FLAGS : Z :=
  flags_union (flags_union (flags_union PRESENT WRITABLE) USER_ACCESSIBLE) NO_EXECUTE.

Fixpoint verify_mapped (root : Z) (checks : list (Z * MappingFlags)) : B unit :=
  match checks with
  | [] => retB tt
  | (address, flags) :: rest =>
      let# found := entry_for root address in
      let# entry := liftB (ok_or found MissingMapping) in
      if negb (Z.land entry OBSERVED_FLAGS =? flags) then liftB (Err InvalidMapping) else
      verify_mapped root rest
  end.

Fixpoint verify_unmapped (root : Z) (guards : list Z) : B unit :=
  match guards with
  | [] => retB tt
  | guard :: rest =>
      let# found := entry_for root guard in
      if negb (Z.land (default 0 found) PRESENT =? 0) then liftB (Err InvalidMapping) else
      verify_unmapped root rest
  end.

Definition mapped_checks : list (Z * MappingFlags) :=
  [(RECOVERY_STACK_BASE, SUPERVISOR_RW_FLAGS); (RECOVERY_STACK_TOP - PAGE_SIZE, SUPERVISOR_RW_FLAGS);
   (DOUBLE_FAULT_STACK_BASE, SUPERVISOR_RW_FLAGS); (DOUBLE_FAULT_STACK_TOP - PAGE_SIZE, SUPERVISOR_RW_FLAGS)].

Definition guard_checks : list Z :=
  [RECOVERY_STACK_GUARD_LOWER; RECOVERY_STACK_GUARD_UPPER; DOUBLE_FAULT_STACK_GUARD_LOWER;
   DOUBLE_FAULT_STACK_GUARD_UPPER].

Definition verify_recovery_layout (root temporary_pte : Z) : B unit :=
  let# _ := verify_mapped root mapped_checks in
  let# _ := verify_unmapped root guard_checks in
  let# window := readB temporary_pte in
  if negb (window =? 0) then liftB (Err TemporaryWindowBusy) else
  let# entry0 := read_entry root 0 in
  let# entry510 := read_entry root 510 in
  let# entry511 := read_entry root 511 in
  if negb (Z.land entry0 USER_ACCESSIBLE =? 0)
     || negb (Z.land entry510 USER_ACCESSIBLE =? 0)
     || negb (Z.land entry511 USER_ACCESSIBLE =? 0)
  then liftB (Err InvalidMapping) else retB tt.

Definition validate_cpu_state (cpu : Cpu) : result unit IsolationError :=
  if cpu_highest_extended cpu <? 0x80000001 then Err UnsupportedCpu else
  if Z.land (cpu_extended_edx cpu) (Z.shiftl 1 20) =? 0 then Err UnsupportedCpu else
  if negb (Z.land (cpu_cr4 cpu) CR4_LA57 =? 0) then Err UnexpectedLa57 else
  if negb (version_one_cr4_allowed (cpu_cr4 cpu)) then Err UnexpectedFsgsbase else
  Ok tt.

Definition enable_protection_bits (cpu : Cpu) : Cpu :=
  mkCpu (cpu_highest_extended cpu) (cpu_extended_edx cpu) (cpu_cr4 cpu)
    (Z.lor (cpu_efer cpu) EFER_NXE) (Z.lor (cpu_cr0 cpu) CR0_WRITE_PROTECT).

(** The boundaries of the sections meet. *)
Definition sections_adjoin : bool :=
  (lk_kernel_start linkage =? lk_text_start linkage)
  && (lk_text_end linkage =? lk_rodata_start linkage)
  && (lk_rodata_end linkage =? lk_data_start linkage)
  && (lk_data_end linkage =? lk_bss_start linkage)
  && (lk_bss_end linkage =? lk_kernel_end linkage).

(** One identity-mapped section. *)
Definition map_section (root start end_ : Z) (flags : MappingFlags) : B unit :=
  let# length := liftB (checked_range start end_) in
  map_range root start start length flags.

(** From [BootstrapBuilder::new] to the verified tables. *)
Definition build_tables : B (Z * Z) :=
  let# root := allocate_table in
  let# _ := map_section root (lk_text_start linkage) (lk_text_end linkage) SUPERVISOR_RX_FLAGS in
  let# _ := map_section root (lk_rodata_start linkage) (lk_rodata_end linkage) SUPERVISOR_R_FLAGS in
  let# _ := map_section root (lk_data_start linkage) (lk_data_end linkage) SUPERVISOR_RW_FLAGS in
  let# _ := map_section root (lk_bss_start linkage) (lk_bss_end linkage) SUPERVISOR_RW_FLAGS in
  if negb (is_multiple_of (lk_recovery_stack linkage) PAGE_SIZE)
     || negb (is_multiple_of (lk_double_fault_stack linkage) PAGE_SIZE)
  then liftB (Err InvalidKernelLayout) else
  let# _ := map_range root RECOVERY_STACK_BASE (lk_recovery_stack linkage) RECOVERY_STACK_SIZE
              SUPERVISOR_RW_FLAGS in
  let# _ := map_range root DOUBLE_FAULT_STACK_BASE (lk_double_fault_stack linkage)
              DOUBLE_FAULT_STACK_SIZE SUPERVISOR_RW_FLAGS in
  let# temporary := leaf_slot root TEMPORARY_WINDOW in
  let# temporary_pte := panicB (checked_add (fst temporary) (snd temporary * 8)) in
  let# _ := verify_recovery_layout root temporary_pte in
  retB (root, temporary_pte).

(** The statics and registers [prepare_recovery_context] writes. *)
Record Recovery := mkRecoveryContext {
  rc_cpu : Cpu;
  rc_state : RecoveryState;
  rc_words : Words
}.

Definition prepare_recovery_context (m : Recovery) : option (result unit IsolationError * Recovery) :=
  match validate_fixed_layout with
  | Err _ => Some (Err InvalidLayout, m)
  | Ok _ =>
      match validate_cpu_state (rc_cpu m) with
      | Err e => Some (Err e, m)
      | Ok _ =>
          if negb sections_adjoin then Some (Err InvalidKernelLayout, m) else
          match build_tables (builder_new (rc_words m)) with
          | None => None
          | Some (Err e, s) => Some (Err e, mkRecoveryContext (rc_cpu m) (rc_state m) (bs_words s))
          | Some (Ok (root, temporary_pte), s) =>
              Some (Ok tt, mkRecoveryContext (enable_protection_bits (rc_cpu m))
                (mkRecovery root temporary_pte (bb_used (bs_budget s)) true) (bs_words s))
          end
      end
  end.
End builder.

(** ** The processor's walk *)

Record Translation := mkTranslation {
  tr_frame : Z;
  tr_writable : bool;
  tr_user : bool;
  tr_no_execute : bool
}.

Definition flag (e g : Z) : bool := negb (Z.land e g =? 0).

(** Four levels; an access right needs the bit at every level, and any level may
    forbid execution. *)
Fixpoint walk (w : Words) (table : Z) (indices : list Z) (writable user no_execute : bool) : option Translation :=
  match indices with
  | [] => Some (mkTranslation table writable user no_execute)
  | i :: rest =>
      let e := read_word w (entry_address table i) in
      if flag e PRESENT
      then walk w (Z.land e ENTRY_ADDRESS_MASK) rest (writable && flag e WRITABLE)
             (user && flag e USER_ACCESSIBLE) (no_execute || flag e NO_EXECUTE)
      else None
  end.

Definition translate (w : Words) (root va : Z) : option Translation :=
  walk w root [pml4_index va; pml3_index va; pml2_index va; pml1_index va] true true false.
