(* ===== verification/PageTablesProofs.v ===== *)
(** * The bootstrap page tables: the tree they are

    The pool holds a tree of tables: table [t] has a path of at most three
    indices, its entries link to the tables of the longer paths, and the tables
    of full paths hold the leaves.  [rep] relates the pool to the abstract map
    of leaves; the builder's operations are specified on that map. *)

From stdpp Require Import gmap.
From S2P Require Import Prelude.
From S2P Require Import Panic.
From S2P Require Import AddressSpace.
From S2P Require Import PageTables.

#[local] Open Scope builder_scope.

(** ** Entries *)

(** A frame address: page aligned and within the physical address width. *)
Definition frame_ok (x : Z) : Prop := 0 <= x < 2 ^ 52 /\ x mod 4096 = 0.

(** Flags keep clear of the address bits. *)
Definition flags_ok (f : Z) : Prop := 0 <= f /\ Z.land f ENTRY_ADDRESS_MASK = 0.

Lemma mask_bits i : 0 <= i -> Z.testbit ENTRY_ADDRESS_MASK i = (12 <=? i) && (i <? 52).
Proof.
  intros Hi. change ENTRY_ADDRESS_MASK with (Z.shiftl (Z.ones 40) 12).
  rewrite Z.shiftl_spec by done. destruct (Z.leb_spec 12 i); cbn [andb].
  - destruct (Z.ltb_spec i 52); [apply Z.ones_spec_low; lia|apply Z.ones_spec_high; lia].
  - apply Z.testbit_neg_r. lia.
Qed.

Lemma frame_bits x i : frame_ok x -> 0 <= i -> i < 12 \/ 52 <= i -> Z.testbit x i = false.
Proof.
  intros [Hx Hm] Hi [Hlo|Hhi].
  - rewrite <-(Z.mod_pow2_bits_low x 12 i) by lia. change (2 ^ 12) with 4096. rewrite Hm. apply Z.testbit_0_l.
  - destruct (Z.eq_dec x 0) as [->|]; [apply Z.testbit_0_l|].
    apply Z.bits_above_log2; [lia|]. apply Z.log2_lt_pow2; [lia|].
    eapply Z.lt_le_trans; [apply Hx|]. apply Z.pow_le_mono_r; lia.
Qed.

Lemma frame_masked x : frame_ok x -> Z.land x ENTRY_ADDRESS_MASK = x.
Proof.
  intros Hx. apply Z.bits_inj'. intros i Hi. rewrite Z.land_spec, mask_bits by done.
  destruct (Z.leb_spec 12 i), (Z.ltb_spec i 52); cbn [andb]; rewrite ?andb_true_r, ?andb_false_r; try done;
    symmetry; apply frame_bits; (done || lia).
Qed.

(** The address and the flags of an entry read back. *)
Lemma entry_frame x f : frame_ok x -> flags_ok f -> Z.land (Z.lor x f) ENTRY_ADDRESS_MASK = x.
Proof. intros Hx [_ Hf]. by rewrite Z.land_lor_distr_l, frame_masked, Hf, Z.lor_0_r. Qed.

(** A flag bit outside the address field. *)
Definition flag_bit (g : Z) : Prop := exists i, g = 2 ^ i /\ (0 <= i < 12 \/ i = 63).

Lemma entry_flag x f g : frame_ok x -> flag_bit g -> Z.land (Z.lor x f) g = Z.land f g.
Proof.
  intros Hx (i & -> & Hi). rewrite Z.land_lor_distr_l.
  assert (Z.land x (2 ^ i) = 0) as ->; [|apply Z.lor_0_l].
  apply Z.bits_inj'. intros j Hj. rewrite Z.land_spec, Z.testbit_0_l, Z.pow2_bits_eqb by lia.
  destruct (Z.eqb_spec i j) as [->|]; [|apply andb_false_r]. rewrite frame_bits by (done || lia). done.
Qed.

Lemma PRESENT_bit : flag_bit PRESENT.
Proof. exists 0. split; [done|lia]. Qed.
Lemma WRITABLE_bit : flag_bit WRITABLE.
Proof. exists 1. split; [done|lia]. Qed.
Lemma USER_bit : flag_bit USER_ACCESSIBLE.
Proof. exists 2. split; [done|lia]. Qed.
Lemma NX_bit : flag_bit NO_EXECUTE.
Proof. exists 63. split; [done|lia]. Qed.

Lemma link_flags_ok : flags_ok TABLE_LINK_FLAGS.
Proof. by split. Qed.

(** ** Indices and slots *)

Definition index_ok (i : Z) : Prop := 0 <= i < 512.

Lemma index_bounds x n : index_ok (Z.land (Z.shiftr x n) 0x1ff).
Proof.
  change 0x1ff with (Z.ones 9). unfold index_ok. rewrite Z.land_ones by lia. apply Z.mod_pos_bound. lia.
Qed.

Definition path_of (va : Z) : list Z := [pml4_index va; pml3_index va; pml2_index va].

(** The page of a virtual address, as the hardware indexes it. *)
Definition slot_of (va : Z) : list Z * Z := (path_of va, pml1_index va).

(** ** Maps of leaves *)

Definition leaves : Type := list Z -> Z -> Z.

Definition set_leaf (leaf : leaves) (slot : list Z * Z) (v : Z) : leaves :=
  fun q j => if decide ((q, j) = slot) then v else leaf q j.

Definition present (e : Z) : Prop := Z.land e PRESENT <> 0.

(** [leaf'] is [leaf] with the entries of [l] added one after the other, each at
    a page that was not mapped. *)
Inductive mapped : leaves -> list (Z * Z) -> leaves -> Prop :=
| mapped_nil leaf : mapped leaf [] leaf
| mapped_cons leaf va e l leaf' :
    ~ present (leaf (path_of va) (pml1_index va)) -> mapped (set_leaf leaf (slot_of va) e) l leaf' ->
    mapped leaf ((va, e) :: l) leaf'.

Lemma mapped_app leaf l leaf1 k leaf2 : mapped leaf l leaf1 -> mapped leaf1 k leaf2 -> mapped leaf (l ++ k) leaf2.
Proof. induction 1 as [|leaf va e l leaf' Hp _ IH]; [done|]. intros Hk. cbn. constructor; auto. Qed.

Lemma set_leaf_eq leaf va e : set_leaf leaf (slot_of va) e (path_of va) (pml1_index va) = e.
Proof. unfold set_leaf. by rewrite decide_True. Qed.

Lemma mapped_keeps leaf l leaf' q j : mapped leaf l leaf' -> present (leaf q j) -> leaf' q j = leaf q j.
Proof.
  induction 1 as [|leaf va e l leaf' Hp _ IH]; [done|]. intros Hq. unfold set_leaf in IH.
  destruct (decide ((q, j) = slot_of va)) as [[= -> ->]|]; [done|]. by apply IH.
Qed.

(** The pages of [l] have their entries, and every other page is as before. *)
Lemma mapped_exact leaf l leaf' :
  mapped leaf l leaf' -> Forall (fun m => present (snd m)) l ->
  (forall va e, (va, e) ∈ l -> leaf' (path_of va) (pml1_index va) = e) /\
  (forall q j, (forall va e, (va, e) ∈ l -> slot_of va <> (q, j)) -> leaf' q j = leaf q j).
Proof.
  induction 1 as [leaf|leaf va e l leaf' Hp Hm IH]; intros Hl.
  { split; [|done]. intros va e Hin. by apply not_elem_of_nil in Hin. }
  apply Forall_cons in Hl as [He Hl]. specialize (IH Hl) as [IH1 IH2]. split.
  - intros va' e' [[= -> ->]|Hin]%elem_of_cons; [|by apply IH1].
    rewrite (mapped_keeps _ _ _ _ _ Hm); rewrite set_leaf_eq; done.
  - intros q j Hq. rewrite IH2.
    + unfold set_leaf. rewrite decide_False; [done|]. intros Heq. eapply (Hq va e); [left|done].
    + intros va' e' Hin. apply (Hq va' e'). by right.
Qed.

(** ** The tree *)

Section tree.
Variable linkage : Linkage.
Notation base := (lk_bootstrap_storage linkage).

(** The pool is an array of frames below the physical address limit. *)
Hypothesis pool_ok : frame_ok base /\ base + Z.of_nat BOOTSTRAP_PAGE_TABLE_FRAMES * PAGE_SIZE <= 2 ^ 52.

Definition table (t : nat) : Z := base + Z.of_nat t * PAGE_SIZE.
Definition entry (w : Words) (t : nat) (i : Z) : Z := read_word w (entry_address (table t) i).

Record rep (paths : list (list Z)) (leaf : leaves) (s : BootstrapBuilder) : Prop := {
  rp_used : bb_used (bs_budget s) = length paths;
  rp_bound : (length paths <= BOOTSTRAP_PAGE_TABLE_FRAMES)%nat;
  rp_nodup : NoDup paths;
  rp_paths : Forall (fun p => (length p <= 3)%nat /\ Forall index_ok p) paths;
  rp_closed : forall p i, p ++ [i] ∈ paths -> p ∈ paths;
  rp_link : forall t p i c, paths !! t = Some p -> paths !! c = Some (p ++ [i]) ->
    entry (bs_words s) t i = Z.lor (table c) TABLE_LINK_FLAGS;
  rp_unlinked : forall t p i, paths !! t = Some p -> (length p < 3)%nat -> index_ok i ->
    p ++ [i] ∉ paths -> entry (bs_words s) t i = 0;
  rp_leaf : forall t p i, paths !! t = Some p -> length p = 3%nat -> index_ok i ->
    entry (bs_words s) t i = leaf p i;
  rp_fresh : forall t i, (length paths <= t < BOOTSTRAP_PAGE_TABLE_FRAMES)%nat -> index_ok i ->
    entry (bs_words s) t i = 0;
  rp_absent : forall p i, p ∉ paths -> leaf p i = 0
}.

Lemma table_frame t : (t < BOOTSTRAP_PAGE_TABLE_FRAMES)%nat -> frame_ok (table t).
Proof.
  destruct pool_ok as [[Hb Hm] He]. unfold table, frame_ok, BOOTSTRAP_PAGE_TABLE_FRAMES, PAGE_SIZE in *.
  intros Ht. split; [lia|]. by rewrite Z.mod_add.
Qed.

Lemma entry_address_inj t i u j :
  index_ok i -> index_ok j -> entry_address (table t) i = entry_address (table u) j -> t = u /\ i = j.
Proof. unfold entry_address, table, index_ok, PAGE_SIZE. lia. Qed.

Lemma entry_write_eq w t i v : entry (write_word w (entry_address (table t) i) v) t i = v.
Proof. unfold entry, read_word, write_word. by rewrite lookup_insert_eq. Qed.

Lemma entry_write_ne w t i v u j :
  index_ok i -> index_ok j -> (u, j) <> (t, i) ->
  entry (write_word w (entry_address (table t) i) v) u j = entry w u j.
Proof.
  intros Hi Hj Hne. unfold entry, read_word, write_word. rewrite lookup_insert_ne; [done|].
  intros [-> ->]%entry_address_inj; done.
Qed.

Lemma link_reads c :
  (c < BOOTSTRAP_PAGE_TABLE_FRAMES)%nat ->
  Z.land (Z.lor (table c) TABLE_LINK_FLAGS) PRESENT =? 0 = false /\
  Z.land (Z.lor (table c) TABLE_LINK_FLAGS) ENTRY_ADDRESS_MASK = table c.
Proof.
  intros Hc. pose proof (table_frame c Hc) as Hf. split.
  - by rewrite entry_flag by (done || apply PRESENT_bit).
  - by apply entry_frame, link_flags_ok.
Qed.

Lemma paths_lt paths leaf s t p : rep paths leaf s -> paths !! t = Some p -> (t < BOOTSTRAP_PAGE_TABLE_FRAMES)%nat.
Proof. intros Hr Ht%lookup_lt_Some. pose proof (rp_bound _ _ _ Hr). lia. Qed.

(** ** Reading and writing a table *)

Lemma pool_end : checked_add base (Z.of_nat BOOTSTRAP_PAGE_TABLE_FRAMES * PAGE_SIZE)
  = Some (base + Z.of_nat BOOTSTRAP_PAGE_TABLE_FRAMES * PAGE_SIZE).
Proof. apply checked_add_lt. destruct pool_ok as [_ He]. unfold two64. change (2 ^ 52) with 4503599627370496 in He. lia. Qed.

Lemma validate_table t s :
  (t < BOOTSTRAP_PAGE_TABLE_FRAMES)%nat -> validate_table_address linkage (table t) s = Some (Ok tt, s).
Proof.
  intros Ht. unfold validate_table_address, bindB, panicB, pool_base. rewrite pool_end.
  pose proof (table_frame t Ht) as [_ Hm]. destruct pool_ok as [[Hb _] _].
  rewrite (proj2 (Z.ltb_ge _ _)) by (unfold table, PAGE_SIZE; lia).
  rewrite (proj2 (Z.leb_gt _ _)) by (unfold table, PAGE_SIZE; lia).
  unfold is_multiple_of, PAGE_SIZE. by rewrite Hm.
Qed.

Lemma read_table t i s :
  (t < BOOTSTRAP_PAGE_TABLE_FRAMES)%nat ->
  read_entry linkage (table t) i s = Some (Ok (entry (bs_words s) t i), s).
Proof. intros Ht. unfold read_entry, bindB. by rewrite validate_table. Qed.

Lemma write_table t i v s :
  (t < BOOTSTRAP_PAGE_TABLE_FRAMES)%nat ->
  write_entry linkage (table t) i v s =
  Some (Ok tt, mkBuilder (bs_budget s) (write_word (bs_words s) (entry_address (table t) i) v)).
Proof. intros Ht. unfold write_entry, bindB. by rewrite validate_table. Qed.

(** ** Allocating a table *)

Lemma allocate_Ok paths leaf s :
  rep paths leaf s ->
  allocate_table linkage s =
  if (length paths =? BOOTSTRAP_PAGE_TABLE_FRAMES)%nat then Some (Err BootstrapPoolExhausted, s)
  else Some (Ok (table (length paths)), mkBuilder (mkBudget (S (length paths))) (bs_words s)).
Proof.
  intros Hr. unfold allocate_table, bindB, claim, budget_claim. rewrite (rp_used _ _ _ Hr).
  destruct (Nat.eqb_spec (length paths) BOOTSTRAP_PAGE_TABLE_FRAMES); [by destruct s|]. cbn [map_err].
  pose proof (rp_bound _ _ _ Hr). destruct pool_ok as [_ He]. change (2 ^ 52) with 4503599627370496 in He.
  unfold panicB, pool_base. rewrite checked_add_lt; [done|]. unfold two64, PAGE_SIZE in *. lia.
Qed.

Lemma snoc_last_index paths p i u q j :
  Forall (fun p => (length p <= 3)%nat /\ Forall index_ok p) paths -> index_ok i ->
  (paths ++ [p ++ [i]]) !! u = Some (q ++ [j]) -> index_ok j.
Proof.
  intros Hp Hi [H|[_ H]]%lookup_snoc_cases; [|by apply app_inj_tail in H as [_ ->]].
  pose proof (proj1 (Forall_lookup _ _) Hp _ _ H) as [_ Hall].
  apply Forall_app in Hall as [_ Hj]. by rewrite Forall_singleton in Hj.
Qed.

(** The new table, linked from its parent. *)
Lemma rep_extend paths leaf s t p i :
  rep paths leaf s -> paths !! t = Some p -> (length p < 3)%nat -> index_ok i -> p ++ [i] ∉ paths ->
  (length paths < BOOTSTRAP_PAGE_TABLE_FRAMES)%nat ->
  rep (paths ++ [p ++ [i]]) leaf
    (mkBuilder (mkBudget (S (length paths)))
       (write_word (bs_words s) (entry_address (table t) i)
          (Z.lor (table (length paths)) TABLE_LINK_FLAGS))).
Proof.
  intros [Hu Hb Hn Hp Hc Hl Hul Hlf Hfr Hab] Ht Hlen Hi Hnew Hlt.
  pose proof (lookup_lt_Some _ _ _ Ht) as Htlt.
  assert (Hpi : Forall index_ok p) by (by apply (proj1 (Forall_lookup _ _) Hp t p Ht)).
  split; cbn [bs_budget bs_words bb_used].
  - rewrite length_app. cbn. lia.
  - rewrite length_app. cbn. lia.
  - apply NoDup_app. split_and!; [done| |apply NoDup_singleton]. intros q Hq ->%list_elem_of_singleton. done.
  - apply Forall_app_2; [done|]. apply Forall_singleton. rewrite length_app. split; [cbn; lia|].
    apply Forall_app_2; [done|by apply Forall_singleton].
  - intros q j [Hq|Hq%list_elem_of_singleton]%elem_of_app; apply elem_of_app; left; [by eapply Hc|].
    apply app_inj_tail in Hq as [-> _]. by eapply list_elem_of_lookup_2.
  - intros u q j c Hu' Hc'.
    assert (Hj : index_ok j) by (by eapply snoc_last_index).
    apply lookup_snoc_cases in Hc' as [Hc'|[-> Heq]].
    + assert (Hq : q ∈ paths) by (eapply Hc, list_elem_of_lookup_2, Hc').
      apply lookup_snoc_cases in Hu' as [Hu'|[-> ->]]; [|done]. rewrite entry_write_ne; [by eapply Hl|done|done|].
      intros [= -> ->]. rewrite Ht in Hu'. injection Hu' as ->. apply Hnew. by eapply list_elem_of_lookup_2.
    + apply app_inj_tail in Heq as [-> ->].
      apply lookup_snoc_cases in Hu' as [Hu'|[-> Hq]].
      * rewrite (NoDup_lookup _ _ _ _ Hn Hu' Ht). apply entry_write_eq.
      * apply (f_equal length) in Hq. rewrite length_app in Hq. cbn in Hq. lia.
  - intros u q j Hu' Hql Hj Hnot. apply not_elem_of_app in Hnot as [Hnot Hnot'].
    rewrite entry_write_ne; [|done|done|].
    + apply lookup_snoc_cases in Hu' as [Hu'|[-> ->]]; [by eapply Hul|]. apply Hfr; [lia|done].
    + intros [= -> ->]. apply lookup_snoc_cases in Hu' as [Hu'|[-> ->]]; [|lia].
      rewrite Ht in Hu'. injection Hu' as ->. apply Hnot'. by apply list_elem_of_singleton.
  - intros u q j Hu' Hql Hj. rewrite entry_write_ne; [|done|done|].
    + apply lookup_snoc_cases in Hu' as [Hu'|[-> ->]]; [by eapply Hlf|].
      rewrite Hab by done. apply Hfr; [lia|done].
    + intros [= -> ->]. apply lookup_snoc_cases in Hu' as [Hu'|[-> ->]]; [|lia].
      rewrite Ht in Hu'. injection Hu' as ->. lia.
  - intros u j Hu' Hj. rewrite length_app in Hu'. cbn in Hu'. rewrite entry_write_ne; [|done|done|].
    + apply Hfr; [lia|done].
    + intros [= -> ->]. lia.
  - intros q j Hq. apply Hab. intros Hin. apply Hq, elem_of_app. by left.
Qed.

(** ** A logic for the builder: no panic, and a postcondition on success *)

Definition runs {A} (m : B A) (s : BootstrapBuilder) (Q : A -> BootstrapBuilder -> Prop) : Prop :=
  exists r s', m s = Some (r, s') /\ match r with Ok a => Q a s' | Err _ => True end.

Lemma runs_bind {A C} (m : B A) (k : A -> B C) s Q :
  runs m s (fun a s' => runs (k a) s' Q) -> runs (let# x := m in k x) s Q.
Proof.
  intros (r & s' & Hm & Hr). unfold runs, bindB. rewrite Hm. destruct r as [a|e]; [exact Hr|].
  by exists (Err e), s'.
Qed.

Lemma runs_ret {A} (a : A) s Q : Q a s -> runs (retB a) s Q.
Proof. intros HQ. by exists (Ok a), s. Qed.

Lemma runs_err {A} e s (Q : A -> BootstrapBuilder -> Prop) : runs (liftB (Err e)) s Q.
Proof. by exists (Err e), s. Qed.

Lemma runs_eq {A} (m : B A) s a s' Q : m s = Some (Ok a, s') -> Q a s' -> runs m s Q.
Proof. intros Hm HQ. by exists (Ok a), s'. Qed.

Lemma runs_mono {A} (m : B A) s (Q Q' : A -> BootstrapBuilder -> Prop) :
  runs m s Q -> (forall a s', Q a s' -> Q' a s') -> runs m s Q'.
Proof. intros (r & s' & Hm & Hr) HQ. exists r, s'. split; [done|]. destruct r; auto. Qed.

(** ** The operations *)

(** The table of the child exists afterwards; the leaves are as before. *)
Lemma ensure_child_runs paths leaf s t p i :
  rep paths leaf s -> paths !! t = Some p -> (length p < 3)%nat -> index_ok i ->
  runs (ensure_child linkage (table t) i) s (fun child s' =>
    exists paths' c, rep paths' leaf s' /\ child = table c /\ paths' !! c = Some (p ++ [i]) /\
                     paths `prefix_of` paths').
Proof.
  intros Hr Ht Hlen Hi. pose proof (paths_lt _ _ _ _ _ Hr Ht) as Htl. unfold ensure_child.
  apply runs_bind. eapply runs_eq; [by apply read_table|].
  destruct (decide (p ++ [i] ∈ paths)) as [Hin|Hnot].
  - apply list_elem_of_lookup_1 in Hin as [c Hc]. pose proof (paths_lt _ _ _ _ _ Hr Hc) as Hcl.
    rewrite (rp_link _ _ _ Hr t p i c Ht Hc). destruct (link_reads c Hcl) as [-> ->]. cbn [negb].
    apply runs_ret. by exists paths, c.
  - rewrite (rp_unlinked _ _ _ Hr t p i Ht Hlen Hi Hnot). cbn. apply runs_bind.
    pose proof (allocate_Ok paths leaf s Hr) as Ha. pose proof (rp_bound _ _ _ Hr).
    destruct (Nat.eqb_spec (length paths) BOOTSTRAP_PAGE_TABLE_FRAMES); [by eexists _, _|].
    eapply runs_eq; [exact Ha|]. apply runs_bind. eapply runs_eq; [by apply write_table|].
    apply runs_ret. exists (paths ++ [p ++ [i]]), (length paths). split_and!.
    + apply (rep_extend paths leaf s); (done || lia).
    + done.
    + by rewrite lookup_app_r, Nat.sub_diag by lia.
    + by apply prefix_app_r.
Qed.

Lemma leaf_slot_runs paths leaf s va :
  rep paths leaf s -> paths !! 0%nat = Some [] ->
  runs (leaf_slot linkage (table 0) va) s (fun slot s' =>
    exists paths' c, rep paths' leaf s' /\ slot = (table c, pml1_index va) /\
      paths' !! c = Some (path_of va) /\ paths `prefix_of` paths').
Proof.
  intros Hr H0. unfold leaf_slot. apply runs_bind.
  eapply runs_mono; [eapply ensure_child_runs; [eassumption|eassumption|cbn; lia|apply index_bounds]|]. cbn.
  intros child s1 (paths1 & c1 & Hr1 & -> & Hc1 & Hp1). apply runs_bind.
  eapply runs_mono; [eapply ensure_child_runs; [eassumption|eassumption|cbn; lia|apply index_bounds]|]. cbn.
  intros child s2 (paths2 & c2 & Hr2 & -> & Hc2 & Hp2). apply runs_bind.
  eapply runs_mono; [eapply ensure_child_runs; [eassumption|eassumption|cbn; lia|apply index_bounds]|]. cbn.
  intros child s3 (paths3 & c3 & Hr3 & -> & Hc3 & Hp3). apply runs_ret.
  exists paths3, c3. split_and!; try done. by repeat (etransitivity; [eassumption|]).
Qed.

Lemma rep_set_leaf paths leaf s c p i v :
  rep paths leaf s -> paths !! c = Some p -> length p = 3%nat -> index_ok i ->
  rep paths (set_leaf leaf (p, i) v)
    (mkBuilder (bs_budget s) (write_word (bs_words s) (entry_address (table c) i) v)).
Proof.
  intros [Hu Hb Hn Hp Hc Hl Hul Hlf Hfr Hab] Hcp Hlen Hi. split; cbn [bs_budget bs_words]; try done.
  - intros t q j d Ht Hd.
    assert (Hj : index_ok j).
    { pose proof (proj1 (Forall_lookup _ _) Hp _ _ Hd) as [_ Hall].
      apply Forall_app in Hall as [_ Hj]. by rewrite Forall_singleton in Hj. }
    rewrite entry_write_ne; [by eapply Hl|done|done|]. intros [= -> ->]. rewrite Hcp in Ht. injection Ht as ->.
    pose proof (proj1 (Forall_lookup _ _) Hp _ _ Hd) as [Hd3 _]. rewrite length_app in Hd3. cbn in Hd3. lia.
  - intros t q j Ht Hq Hj Hnot. rewrite entry_write_ne; [by eapply Hul|done|done|]. intros [= -> ->].
    rewrite Hcp in Ht. injection Ht as ->. lia.
  - intros t q j Ht Hq Hj. unfold set_leaf. destruct (decide ((q, j) = (p, i))) as [[= -> ->]|Hne].
    + rewrite (NoDup_lookup _ _ _ _ Hn Ht Hcp). apply entry_write_eq.
    + rewrite entry_write_ne; [by eapply Hlf|done|done|]. intros [= -> ->]. rewrite Hcp in Ht.
      injection Ht as ->. done.
  - intros t j Ht Hj. rewrite entry_write_ne; [by apply Hfr|done|done|]. intros [= -> ->].
    apply lookup_lt_Some in Hcp. lia.
  - intros q j Hq. unfold set_leaf. rewrite decide_False; [by apply Hab|]. intros [= -> ->].
    apply Hq. by eapply list_elem_of_lookup_2.
Qed.

(** The builder has a root and holds [leaf]. *)
Definition holds (leaf : leaves) (s : BootstrapBuilder) : Prop :=
  exists paths, rep paths leaf s /\ paths !! 0%nat = Some [].

Lemma map_page_runs leaf s va pa flags :
  holds leaf s ->
  runs (map_page linkage (table 0) va pa flags) s (fun _ s' =>
    exists leaf', mapped leaf [(va, Z.lor pa flags)] leaf' /\ holds leaf' s').
Proof.
  intros (paths & Hr & H0). unfold map_page. destruct (_ || _); [apply runs_err|].
  apply runs_bind. eapply runs_mono; [by eapply leaf_slot_runs|]. cbn.
  intros slot s1 (paths1 & c & Hr1 & -> & Hc & Hp). cbn [fst snd]. apply runs_bind.
  pose proof (paths_lt _ _ _ _ _ Hr1 Hc) as Hcl. eapply runs_eq; [by apply read_table|].
  rewrite (rp_leaf _ _ _ Hr1 c _ (pml1_index va) Hc eq_refl (index_bounds va 12)).
  destruct (Z.eqb_spec (Z.land (leaf (path_of va) (pml1_index va)) PRESENT) 0) as [E|]; cbn [negb]; [|apply runs_err].
  eapply runs_eq; [done|]. exists (set_leaf leaf (slot_of va) (Z.lor pa flags)). split.
  - constructor; [intros Hpr; by apply Hpr|constructor].
  - exists paths1. split; [by apply rep_set_leaf; [..|apply index_bounds]|]. by eapply prefix_lookup_Some.
Qed.

(** The pages a range maps. *)
Fixpoint range_pages (count : nat) (page va pa flags : Z) : list (Z * Z) :=
  match count with
  | O => []
  | S count' => (va + page * PAGE_SIZE, Z.lor (pa + page * PAGE_SIZE) flags)
                :: range_pages count' (page + 1) va pa flags
  end.

Lemma map_pages_runs count : forall page leaf s va pa flags,
  0 <= page -> 0 <= va -> 0 <= pa -> va + (page + Z.of_nat count) * PAGE_SIZE <= two64 ->
  pa + (page + Z.of_nat count) * PAGE_SIZE <= two64 -> holds leaf s ->
  runs (map_pages linkage count page (table 0) va pa flags) s (fun _ s' =>
    exists leaf', mapped leaf (range_pages count page va pa flags) leaf' /\ holds leaf' s').
Proof.
  induction count as [|count IH]; intros page leaf s va pa flags Hpg Hv0 Hp0 Hv Hp Hh; cbn [map_pages range_pages].
  { apply runs_ret. exists leaf. split; [constructor|done]. }
  unfold PAGE_SIZE in *. apply runs_bind. rewrite checked_mul_lt by lia. eapply runs_eq; [done|]. cbn [ok_or].
  apply runs_bind. rewrite checked_add_lt by lia. eapply runs_eq; [done|].
  apply runs_bind. rewrite checked_add_lt by lia. eapply runs_eq; [done|]. apply runs_bind.
  eapply runs_mono; [by apply map_page_runs|]. intros _ s1 (leaf1 & Hm1 & Hh1).
  eapply runs_mono; [apply (IH (page + 1) leaf1 s1); (done || lia)|]. intros _ s2 (leaf2 & Hm2 & Hh2).
  exists leaf2. split; [|done].
  apply (mapped_app _ [_] _ _ _ Hm1 Hm2).
Qed.
End tree.
