(* ===== verification/PageTablesTheorems.v ===== *)
(** * The recovery address space

    What the processor sees through the tables that [prepare_recovery_context]
    builds: the kernel's sections and the two stacks at their addresses with
    their permissions, and nothing else. *)

From stdpp Require Import gmap.
From S2P Require Import Prelude.
From S2P Require Import Panic.
From S2P Require Import RuntimeTypes.
From S2P Require Import AddressSpace.
From S2P Require Import PageTables.
From S2P Require Import PageTablesProofs.

#[local] Open Scope builder_scope.

(** ** Ranges *)

Record Range := mkRange { rg_virtual : Z; rg_physical : Z; rg_bytes : Z; rg_flags : Z }.

Definition recovery_ranges (l : Linkage) : list Range :=
  [mkRange (lk_text_start l) (lk_text_start l) (lk_text_end l - lk_text_start l) SUPERVISOR_RX_FLAGS;
   mkRange (lk_rodata_start l) (lk_rodata_start l) (lk_rodata_end l - lk_rodata_start l) SUPERVISOR_R_FLAGS;
   mkRange (lk_data_start l) (lk_data_start l) (lk_data_end l - lk_data_start l) SUPERVISOR_RW_FLAGS;
   mkRange (lk_bss_start l) (lk_bss_start l) (lk_bss_end l - lk_bss_start l) SUPERVISOR_RW_FLAGS;
   mkRange RECOVERY_STACK_BASE (lk_recovery_stack l) RECOVERY_STACK_SIZE SUPERVISOR_RW_FLAGS;
   mkRange DOUBLE_FAULT_STACK_BASE (lk_double_fault_stack l) DOUBLE_FAULT_STACK_SIZE SUPERVISOR_RW_FLAGS].

(** [va] is on page [k] of the range. *)
Definition on_page (r : Range) (k va : Z) : Prop :=
  0 <= k /\ (k + 1) * PAGE_SIZE <= rg_bytes r /\ slot_of va = slot_of (rg_virtual r + k * PAGE_SIZE).

(** The translation of page [k]. *)
Definition page_translation (r : Range) (k : Z) : Translation :=
  mkTranslation (rg_physical r + k * PAGE_SIZE) (flag (rg_flags r) WRITABLE) false
    (flag (rg_flags r) NO_EXECUTE).

(** Addresses of the kernel image: physical, in order, frames for the pool and the stacks. *)
Record linkage_ok (l : Linkage) : Prop := {
  lo_pool : frame_ok (lk_bootstrap_storage l) /\
    lk_bootstrap_storage l + Z.of_nat BOOTSTRAP_PAGE_TABLE_FRAMES * PAGE_SIZE <= 2 ^ 52;
  lo_start : 0 <= lk_text_start l /\ 0 <= lk_rodata_start l /\ 0 <= lk_data_start l /\ 0 <= lk_bss_start l;
  lo_end : lk_text_end l <= 2 ^ 52 /\ lk_rodata_end l <= 2 ^ 52 /\ lk_data_end l <= 2 ^ 52 /\ lk_bss_end l <= 2 ^ 52;
  lo_recovery : 0 <= lk_recovery_stack l /\ lk_recovery_stack l + RECOVERY_STACK_SIZE <= 2 ^ 52;
  lo_double_fault : 0 <= lk_double_fault_stack l /\ lk_double_fault_stack l + DOUBLE_FAULT_STACK_SIZE <= 2 ^ 52
}.

Section recovery.
Variable linkage : Linkage.
Hypothesis linkage_fits : linkage_ok linkage.
Notation table := (table linkage).
Notation holds := (holds linkage).
Notation rep := (rep linkage).

Definition pool_fits := lo_pool linkage linkage_fits.

(** *** The walk reads the leaves *)

Lemma flag_link c g :
  (c < BOOTSTRAP_PAGE_TABLE_FRAMES)%nat -> flag_bit g ->
  flag (Z.lor (table c) TABLE_LINK_FLAGS) g = flag TABLE_LINK_FLAGS g.
Proof. intros Hc Hg. unfold flag. rewrite entry_flag; [done|by apply table_frame, Hc; apply pool_fits|done]. Qed.

Lemma walk_step paths leaf s t p i rest wr us nx :
  rep paths leaf s -> paths !! t = Some p -> (length p < 3)%nat -> index_ok i ->
  (exists c, paths !! c = Some (p ++ [i]) /\
     walk (bs_words s) (table t) (i :: rest) wr us nx = walk (bs_words s) (table c) rest wr false nx) \/
  (p ++ [i] ∉ paths /\ walk (bs_words s) (table t) (i :: rest) wr us nx = None).
Proof.
  intros Hr Ht Hl Hi. cbn [walk]. change (read_word (bs_words s) (entry_address (table t) i))
    with (entry linkage (bs_words s) t i). destruct (decide (p ++ [i] ∈ paths)) as [Hin|Hnot].
  - left. apply list_elem_of_lookup_1 in Hin as [c Hc]. exists c. split; [done|].
    pose proof (paths_lt _ _ _ _ _ _ Hr Hc) as Hcl. rewrite (rp_link _ _ _ _ Hr t p i c Ht Hc).
    rewrite !flag_link by (done || apply PRESENT_bit || apply WRITABLE_bit || apply USER_bit || apply NX_bit).
    rewrite entry_frame by (apply link_flags_ok || (apply table_frame; [apply pool_fits|done])).
    change (flag TABLE_LINK_FLAGS PRESENT) with true. change (flag TABLE_LINK_FLAGS WRITABLE) with true.
    change (flag TABLE_LINK_FLAGS USER_ACCESSIBLE) with false. change (flag TABLE_LINK_FLAGS NO_EXECUTE) with false.
    by rewrite andb_true_r, andb_false_r, orb_false_r.
  - right. split; [done|]. by rewrite (rp_unlinked _ _ _ _ Hr t p i Ht Hl Hi Hnot).
Qed.

(** What a leaf translates to. *)
Definition leaf_translation (e : Z) : option Translation :=
  if flag e PRESENT
  then Some (mkTranslation (Z.land e ENTRY_ADDRESS_MASK) (flag e WRITABLE) false (flag e NO_EXECUTE))
  else None.

Lemma leaf_absent paths leaf s p i j : rep paths leaf s -> p ∉ paths -> leaf (p ++ i) j = 0.
Proof.
  intros Hr Hp. apply (rp_absent _ _ _ _ Hr). intros Hin. apply Hp. clear Hp.
  induction i as [|x i IH] using rev_ind; [by rewrite app_nil_r in Hin|].
  apply IH. rewrite app_assoc in Hin. by apply (rp_closed _ _ _ _ Hr) in Hin.
Qed.

Lemma translate_leaf leaf s va :
  holds leaf s -> translate (bs_words s) (table 0) va = leaf_translation (leaf (path_of va) (pml1_index va)).
Proof.
  intros (paths & Hr & H0). unfold translate, path_of.
  destruct (walk_step paths leaf s 0 [] (pml4_index va) [pml3_index va; pml2_index va; pml1_index va]
    true true false Hr H0 ltac:(cbn; lia) (index_bounds va 39)) as [(c1 & H1 & ->)|[Hn ->]].
  2: { by rewrite (leaf_absent paths leaf s [pml4_index va] [pml3_index va; pml2_index va] _ Hr Hn). }
  destruct (walk_step paths leaf s c1 _ (pml3_index va) [pml2_index va; pml1_index va]
    true false false Hr H1 ltac:(cbn; lia) (index_bounds va 30)) as [(c2 & H2 & ->)|[Hn ->]].
  2: { by rewrite (leaf_absent paths leaf s [pml4_index va; pml3_index va] [pml2_index va] _ Hr Hn). }
  destruct (walk_step paths leaf s c2 _ (pml2_index va) [pml1_index va]
    true false false Hr H2 ltac:(cbn; lia) (index_bounds va 21)) as [(c3 & H3 & ->)|[Hn ->]].
  2: { by rewrite (rp_absent _ _ _ _ Hr _ _ Hn). }
  cbn [app walk] in *. change (read_word (bs_words s) (entry_address (table c3) (pml1_index va)))
    with (entry linkage (bs_words s) c3 (pml1_index va)).
  rewrite (rp_leaf _ _ _ _ Hr c3 _ (pml1_index va) H3 eq_refl (index_bounds va 12)). unfold leaf_translation.
  by destruct (flag _ PRESENT).
Qed.

(** *** The checks read the leaves *)

(** The child of a present entry, or nothing. *)
Lemma entry_read_step paths leaf s t p i :
  rep paths leaf s -> paths !! t = Some p -> (length p < 3)%nat -> index_ok i ->
  okB (read_entry linkage (table t) i) s = Some (Ok (Some (entry linkage (bs_words s) t i)), s) /\
  ((exists c, paths !! c = Some (p ++ [i]) /\ present_address (entry linkage (bs_words s) t i) = Some (table c)) \/
   (p ++ [i] ∉ paths /\ present_address (entry linkage (bs_words s) t i) = None)).
Proof.
  intros Hr Ht Hl Hi. pose proof (paths_lt _ _ _ _ _ _ Hr Ht) as Htl. split.
  { unfold okB. by rewrite read_table by (done || apply pool_fits). }
  unfold present_address. destruct (decide (p ++ [i] ∈ paths)) as [Hin|Hnot].
  - left. apply list_elem_of_lookup_1 in Hin as [c Hc]. exists c. split; [done|].
    pose proof (paths_lt _ _ _ _ _ _ Hr Hc) as Hcl. rewrite (rp_link _ _ _ _ Hr t p i c Ht Hc).
    destruct (link_reads linkage pool_fits c Hcl) as [-> ->]. done.
  - right. split; [done|]. by rewrite (rp_unlinked _ _ _ _ Hr t p i Ht Hl Hi Hnot).
Qed.

Lemma optB_Some {A C} (m : B (option A)) (k : A -> B (option C)) s a :
  m s = Some (Ok (Some a), s) -> optB m k s = k a s.
Proof. intros Hm. unfold optB, bindB. by rewrite Hm. Qed.

Lemma optB_None {A C} (m : B (option A)) (k : A -> B (option C)) s :
  m s = Some (Ok None, s) -> optB m k s = Some (Ok None, s).
Proof. intros Hm. unfold optB, bindB. by rewrite Hm. Qed.

Lemma entry_for_leaf leaf s va :
  holds leaf s ->
  exists o, entry_for linkage (table 0) va s = Some (Ok o, s) /\
            default 0 o = leaf (path_of va) (pml1_index va).
Proof.
  intros (paths & Hr & H0). unfold entry_for, path_of.
  destruct (entry_read_step paths leaf s 0 [] (pml4_index va) Hr H0 ltac:(cbn; lia) (index_bounds va 39))
    as [E [(c1 & H1 & P)|[Hn P]]]; rewrite (optB_Some _ _ _ _ E).
  2: { rewrite optB_None by (by rewrite P). exists None. split; [done|].
       by rewrite (leaf_absent paths leaf s [pml4_index va] [pml3_index va; pml2_index va] _ Hr Hn). }
  rewrite (optB_Some _ _ _ (table c1)) by (by rewrite P).
  destruct (entry_read_step paths leaf s c1 _ (pml3_index va) Hr H1 ltac:(cbn; lia) (index_bounds va 30))
    as [E2 [(c2 & H2 & P2)|[Hn P2]]]; rewrite (optB_Some _ _ _ _ E2).
  2: { rewrite optB_None by (by rewrite P2). exists None. split; [done|].
       by rewrite (leaf_absent paths leaf s [pml4_index va; pml3_index va] [pml2_index va] _ Hr Hn). }
  rewrite (optB_Some _ _ _ (table c2)) by (by rewrite P2).
  destruct (entry_read_step paths leaf s c2 _ (pml2_index va) Hr H2 ltac:(cbn; lia) (index_bounds va 21))
    as [E3 [(c3 & H3 & P3)|[Hn P3]]]; rewrite (optB_Some _ _ _ _ E3).
  2: { rewrite optB_None by (by rewrite P3). exists None. split; [done|].
       by rewrite (rp_absent _ _ _ _ Hr _ _ Hn). }
  rewrite (optB_Some _ _ _ (table c3)) by (by rewrite P3).
  pose proof (paths_lt _ _ _ _ _ _ Hr H3) as Hc3. unfold okB.
  rewrite read_table by (done || apply pool_fits). eexists. split; [done|]. cbn [default from_option].
  by rewrite (rp_leaf _ _ _ _ Hr c3 _ (pml1_index va) H3 eq_refl (index_bounds va 12)).
Qed.

Lemma verify_mapped_runs leaf checks : forall s,
  holds leaf s -> runs (verify_mapped linkage (table 0) checks) s (fun _ s' => s' = s).
Proof.
  induction checks as [|[va flags] rest IH]; intros s Hh; cbn [verify_mapped]; [by apply runs_ret|].
  apply runs_bind. destruct (entry_for_leaf leaf s va Hh) as (o & E & _). eapply runs_eq; [exact E|].
  apply runs_bind. destruct o as [e|]; [|by eexists _, _]. eapply runs_eq; [done|].
  destruct (negb _); [apply runs_err|]. by apply IH.
Qed.

Lemma verify_unmapped_runs leaf guards : forall s,
  holds leaf s ->
  runs (verify_unmapped linkage (table 0) guards) s (fun _ s' =>
    s' = s /\ Forall (fun va => ~ present (leaf (path_of va) (pml1_index va))) guards).
Proof.
  induction guards as [|va rest IH]; intros s Hh; cbn [verify_unmapped]; [apply runs_ret; by split|].
  apply runs_bind. destruct (entry_for_leaf leaf s va Hh) as (o & E & Hleaf). eapply runs_eq; [exact E|].
  rewrite Hleaf. destruct (Z.eqb_spec (Z.land (leaf (path_of va) (pml1_index va)) PRESENT) 0) as [Ez|];
    cbn [negb]; [|apply runs_err].
  eapply runs_mono; [by apply IH|]. intros _ s' [-> Hr]. split; [done|]. constructor; [|done].
  intros Hp. by apply Hp.
Qed.

(** *** Building *)

Definition range_list (r : Range) : list (Z * Z) :=
  range_pages (Z.to_nat (rg_bytes r / PAGE_SIZE)) 0 (rg_virtual r) (rg_physical r) (rg_flags r).

(** The bytes of the range are whole pages in the address space. *)
Definition range_fits (r : Range) : Prop :=
  0 <= rg_virtual r /\ 0 <= rg_physical r /\ 0 <= rg_bytes r /\
  rg_virtual r + rg_bytes r <= two64 /\ rg_physical r + rg_bytes r <= 2 ^ 52.

(** A range that was mapped is made of whole frames. *)
Definition range_pages_ok (r : Range) : Prop :=
  rg_physical r mod PAGE_SIZE = 0 /\ rg_virtual r mod PAGE_SIZE = 0 /\ rg_bytes r mod PAGE_SIZE = 0.

Lemma map_range_runs leaf s r :
  range_fits r -> holds leaf s ->
  runs (map_range linkage (table 0) (rg_virtual r) (rg_physical r) (rg_bytes r) (rg_flags r)) s (fun _ s' =>
    range_pages_ok r /\ exists leaf', mapped leaf (range_list r) leaf' /\ holds leaf' s').
Proof.
  intros (Hv & Hp & Hb & Hve & Hpe) Hh. unfold map_range. destruct (_ || _) eqn:E; [apply runs_err|].
  rewrite !orb_false_iff, !negb_false_iff in E. unfold is_multiple_of in E. b2p.
  destruct E as (((E0 & E1) & E2) & E3). change (2 ^ 52) with 4503599627370496 in Hpe.
  pose proof (Z.div_mod (rg_bytes r) PAGE_SIZE ltac:(done)) as Hdm. rewrite E3 in Hdm.
  eapply runs_mono; [apply (map_pages_runs linkage pool_fits _ 0 leaf s); try done|].
  - rewrite Z2Nat.id by (apply Z.div_pos; done). unfold two64, PAGE_SIZE in *. lia.
  - rewrite Z2Nat.id by (apply Z.div_pos; done). unfold two64, PAGE_SIZE in *. lia.
  - intros [] s' Hm. split; [|done]. by split_and!.
Qed.

Lemma map_section_runs leaf s start end_ flags :
  0 <= start -> end_ <= 2 ^ 52 -> holds leaf s ->
  let r := mkRange start start (end_ - start) flags in
  runs (map_section linkage (table 0) start end_ flags) s (fun _ s' =>
    range_pages_ok r /\ exists leaf', mapped leaf (range_list r) leaf' /\ holds leaf' s').
Proof.
  intros Hs He Hh r. unfold map_section. apply runs_bind. unfold checked_range.
  destruct (_ || _) eqn:E; [by eexists _, _|]. rewrite !orb_false_iff in E. destruct E as [_ E]. b2p.
  rewrite checked_sub_le by lia. cbn [ok_or]. eapply runs_eq; [done|].
  apply (map_range_runs leaf s r); [|done]. unfold range_fits, r. cbn [rg_virtual rg_physical rg_bytes].
  change (2 ^ 52) with 4503599627370496 in *. unfold two64. lia.
Qed.

Definition all_pages : list (Z * Z) := flat_map range_list (recovery_ranges linkage).

(** The tables of a successful build. *)
Record built (leaf : leaves) (result : Z * Z) (s : BootstrapBuilder) : Prop := {
  bu_root : fst result = table 0;
  bu_pages : mapped (fun _ _ => 0) all_pages leaf;
  bu_whole : Forall range_pages_ok (recovery_ranges linkage);
  bu_holds : holds leaf s;
  bu_guards : Forall (fun va => ~ present (leaf (path_of va) (pml1_index va))) guard_checks;
  bu_window : leaf (path_of TEMPORARY_WINDOW) (pml1_index TEMPORARY_WINDOW) = 0;
  bu_used : (bb_used (bs_budget s) <= BOOTSTRAP_PAGE_TABLE_FRAMES)%nat;
  bu_pte : exists paths c, rep paths leaf s /\ paths !! 0%nat = Some [] /\
    paths !! c = Some (path_of TEMPORARY_WINDOW) /\
    snd result = entry_address (table c) (pml1_index TEMPORARY_WINDOW)
}.

(** The addresses of the pool. *)
Definition in_pool (a : Z) : Prop :=
  pool_base linkage <= a < pool_base linkage + Z.of_nat BOOTSTRAP_PAGE_TABLE_FRAMES * PAGE_SIZE.

Lemma pool_entry t i : (t < BOOTSTRAP_PAGE_TABLE_FRAMES)%nat -> index_ok i -> in_pool (entry_address (table t) i).
Proof. unfold in_pool, entry_address, PageTablesProofs.table, pool_base, index_ok, BOOTSTRAP_PAGE_TABLE_FRAMES, PAGE_SIZE. lia. Qed.

Lemma read_cleared w a : in_pool a -> read_word (clear_pool linkage w) a = 0.
Proof.
  intros Ha. unfold read_word, clear_pool. rewrite map_lookup_filter_None_2; [done|]. right. intros v _. cbn [fst]. unfold in_pool in Ha. lia.
Qed.

Lemma read_kept w a : ~ in_pool a -> read_word (clear_pool linkage w) a = read_word w a.
Proof.
  intros Ha. unfold read_word, clear_pool. rewrite map_lookup_filter. destruct (w !! a) as [v|]; [|done]. cbn [mbind option_bind].
  rewrite option_guard_True; [done|]. cbn [fst]. unfold in_pool in Ha. lia.
Qed.

Lemma initial_root w :
  allocate_table linkage (builder_new linkage w) = Some (Ok (table 0), mkBuilder (mkBudget 1) (clear_pool linkage w)) /\
  holds (fun _ _ => 0) (mkBuilder (mkBudget 1) (clear_pool linkage w)).
Proof.
  assert (Hz : forall t i, (t < BOOTSTRAP_PAGE_TABLE_FRAMES)%nat -> index_ok i -> entry linkage (clear_pool linkage w) t i = 0)
    by (intros; by apply read_cleared, pool_entry).
  split.
  - unfold allocate_table, bindB, claim, budget_claim. cbn [bs_budget builder_new budget_new bb_used bs_words].
    change (0 =? BOOTSTRAP_PAGE_TABLE_FRAMES)%nat with false. cbn [map_err]. unfold panicB, pool_base.
    destruct pool_fits as [[Hb _] _]. change (2 ^ 52) with 4503599627370496 in Hb.
    rewrite checked_add_lt by (unfold two64; lia). done.
  - exists [[]]. split; [|done]. split; cbn [bs_budget bs_words bb_used length]; try done.
    + unfold BOOTSTRAP_PAGE_TABLE_FRAMES. lia.
    + apply NoDup_singleton.
    + apply Forall_singleton. split; [cbn; lia|constructor].
    + intros p i Hin%list_elem_of_singleton. by destruct p.
    + intros t p i c _ Hc. destruct c as [|c]; [|done]. cbn in Hc. by destruct p.
    + intros t p i Ht _ Hi _. apply Hz; [|done]. apply lookup_lt_Some in Ht. cbn [length] in Ht. unfold BOOTSTRAP_PAGE_TABLE_FRAMES. lia.
    + intros t p i Ht Hlen. destruct t as [|t]; [|done]. injection Ht as <-. done.
    + intros t i Ht Hi. apply Hz; [lia|done].
Qed.

Lemma verify_layout_runs leaf s c :
  holds leaf s ->
  (exists paths, rep paths leaf s /\ paths !! 0%nat = Some [] /\ paths !! c = Some (path_of TEMPORARY_WINDOW)) ->
  runs (verify_recovery_layout linkage (table 0) (table c + pml1_index TEMPORARY_WINDOW * 8)) s (fun _ s' =>
    s' = s /\ Forall (fun va => ~ present (leaf (path_of va) (pml1_index va))) guard_checks /\
    leaf (path_of TEMPORARY_WINDOW) (pml1_index TEMPORARY_WINDOW) = 0).
Proof.
  intros Hh (paths & Hr & H0 & Hc). unfold verify_recovery_layout. apply runs_bind.
  eapply runs_mono; [by eapply verify_mapped_runs|]. intros [] ? ->. apply runs_bind.
  eapply runs_mono; [by eapply verify_unmapped_runs|]. intros [] ? [-> Hg]. apply runs_bind.
  eapply runs_eq; [done|]. rewrite (Z.mul_comm _ 8).
  change (read_word (bs_words s) (table c + 8 * pml1_index TEMPORARY_WINDOW))
    with (entry linkage (bs_words s) c (pml1_index TEMPORARY_WINDOW)).
  rewrite (rp_leaf _ _ _ _ Hr c _ (pml1_index TEMPORARY_WINDOW) Hc eq_refl (index_bounds TEMPORARY_WINDOW 12)).
  destruct (Z.eqb_spec (leaf (path_of TEMPORARY_WINDOW) (pml1_index TEMPORARY_WINDOW)) 0) as [E|];
    cbn [negb]; [|apply runs_err].
  assert (Hlt : (0 < BOOTSTRAP_PAGE_TABLE_FRAMES)%nat) by (unfold BOOTSTRAP_PAGE_TABLE_FRAMES; lia).
  do 3 (apply runs_bind; eapply runs_eq; [apply read_table; [apply pool_fits|done]|]).
  destruct (_ || _); [apply runs_err|]. by apply runs_ret.
Qed.

Lemma build_tables_runs w : runs (build_tables linkage) (builder_new linkage w) (fun result s => exists leaf, built leaf result s).
Proof.
  destruct linkage_fits as [_ (S1 & S2 & S3 & S4) (E1 & E2 & E3 & E4) [R1 R2] [D1 D2]].
  destruct (initial_root w) as [Ha H0]. unfold build_tables. apply runs_bind. eapply runs_eq; [exact Ha|].
  apply runs_bind. eapply runs_mono; [by apply map_section_runs|]. intros [] s1 (W1 & l1 & M1 & H1).
  apply runs_bind. eapply runs_mono; [by apply map_section_runs|]. intros [] s2 (W2 & l2 & M2 & H2).
  apply runs_bind. eapply runs_mono; [by apply map_section_runs|]. intros [] s3 (W3 & l3 & M3 & H3).
  apply runs_bind. eapply runs_mono; [by apply map_section_runs|]. intros [] s4 (W4 & l4 & M4 & H4).
  destruct (_ || _); [apply runs_err|]. change (2 ^ 52) with 4503599627370496 in *.
  apply runs_bind. eapply runs_mono.
  { apply (map_range_runs l4 s4 (mkRange RECOVERY_STACK_BASE (lk_recovery_stack linkage) RECOVERY_STACK_SIZE
      SUPERVISOR_RW_FLAGS)); [|done]. unfold range_fits. cbn [rg_virtual rg_physical rg_bytes]. done. }
  intros [] s5 (W5 & l5 & M5 & H5). apply runs_bind. eapply runs_mono.
  { apply (map_range_runs l5 s5 (mkRange DOUBLE_FAULT_STACK_BASE (lk_double_fault_stack linkage)
      DOUBLE_FAULT_STACK_SIZE SUPERVISOR_RW_FLAGS)); [|done]. unfold range_fits. cbn [rg_virtual rg_physical rg_bytes]. done. }
  intros [] s6 (W6 & l6 & M6 & (paths & Hr & Hroot)). apply runs_bind.
  eapply runs_mono; [by eapply leaf_slot_runs; [apply pool_fits|..]|].
  intros slot s7 (paths7 & c & Hr7 & -> & Hc & Hpre). cbn [fst snd].
  assert (Hroot7 : paths7 !! 0%nat = Some []) by (by eapply prefix_lookup_Some).
  assert (H7 : holds l6 s7) by (by exists paths7).
  pose proof (table_frame linkage pool_fits c (paths_lt _ _ _ _ _ _ Hr7 Hc)) as [Hcf _].
  apply runs_bind. rewrite checked_add_lt.
  2: { pose proof (index_bounds TEMPORARY_WINDOW 12) as Hi. unfold index_ok in Hi.
       change (pml1_index TEMPORARY_WINDOW) with (Z.land (TEMPORARY_WINDOW ≫ 12) 511). unfold two64.
       change (2 ^ 52) with 4503599627370496 in Hcf. lia. }
  eapply runs_eq; [done|]. apply runs_bind.
  eapply runs_mono; [apply (verify_layout_runs l6 s7 c H7); by exists paths7|].
  intros [] ? (-> & Hg & Hw). apply runs_ret. exists l6. split; try done.
  - unfold all_pages. cbn [recovery_ranges flat_map]. rewrite app_nil_r.
    repeat (eapply mapped_app; [eassumption|]). done.
  - unfold recovery_ranges. by rewrite !Forall_cons, Forall_nil.
  - rewrite (rp_used _ _ _ _ Hr7). apply (rp_bound _ _ _ _ Hr7).
  - exists paths7, c. unfold entry_address. rewrite (Z.mul_comm 8). done.
Qed.

(** *** What the builder writes *)

(** Nothing outside the pool changes. *)
Definition pool_keeps {A} (m : B A) : Prop :=
  forall s r s', m s = Some (r, s') -> forall a, ~ in_pool a -> read_word (bs_words s') a = read_word (bs_words s) a.

Lemma pool_keeps_same {A} (m : B A) : (forall s r s', m s = Some (r, s') -> bs_words s' = bs_words s) -> pool_keeps m.
Proof. intros H s r s' Hm a _. by rewrite (H s r s' Hm). Qed.

(** In sequence, with what the first result says. *)
Lemma pool_keeps_after {A C} (P : A -> Prop) (m : B A) (k : A -> B C) :
  pool_keeps m -> (forall s x s', m s = Some (Ok x, s') -> P x) -> (forall x, P x -> pool_keeps (k x)) -> pool_keeps (bindB m k).
Proof.
  intros Hm HP Hk s r s' H a Ha. unfold bindB in H. destruct (m s) as [[[x|e] s1]|] eqn:E; [| |done].
  - rewrite (Hk x (HP _ _ _ E) s1 r s' H a Ha). by eapply Hm.
  - injection H as <- <-. by eapply Hm.
Qed.

Lemma pool_keeps_bind {A C} (m : B A) (k : A -> B C) : pool_keeps m -> (forall x, pool_keeps (k x)) -> pool_keeps (bindB m k).
Proof. intros Hm Hk. by apply (pool_keeps_after (fun _ => True)). Qed.

Lemma pool_keeps_ret {A} (x : A) : pool_keeps (retB x).
Proof. apply pool_keeps_same. by intros s r s' [= <- <-]. Qed.

Lemma pool_keeps_lift {A} (x : result A IsolationError) : pool_keeps (liftB x).
Proof. apply pool_keeps_same. by intros s r s' [= <- <-]. Qed.

Lemma pool_keeps_panic {A} (o : option A) : pool_keeps (panicB o).
Proof. apply pool_keeps_same. intros s r s'. unfold panicB. destruct o; [|done]. by intros [= <- <-]. Qed.

Lemma pool_keeps_read a : pool_keeps (readB a).
Proof. apply pool_keeps_same. by intros s r s' [= <- <-]. Qed.

Lemma pool_keeps_ok {A} (m : B A) : pool_keeps m -> pool_keeps (okB m).
Proof.
  intros Hm s r s' H a Ha. unfold okB in H. destruct (m s) as [[[x|e] s1]|] eqn:E; [| |done]; injection H as <- <-; by eapply Hm.
Qed.

Lemma pool_keeps_opt {A C} (m : B (option A)) (k : A -> B (option C)) : pool_keeps m -> (forall x, pool_keeps (k x)) -> pool_keeps (optB m k).
Proof. intros Hm Hk. apply pool_keeps_bind; [done|]. intros [x|]; [apply Hk|apply pool_keeps_ret]. Qed.

Lemma pool_keeps_allocate : pool_keeps (allocate_table linkage).
Proof.
  apply pool_keeps_bind; [|intros; apply pool_keeps_panic]. apply pool_keeps_same. intros s r s'. unfold claim.
  destruct (budget_claim _) as [x b]. by intros [= <- <-].
Qed.

Lemma pool_keeps_validate physical : pool_keeps (validate_table_address linkage physical).
Proof. apply pool_keeps_bind; [apply pool_keeps_panic|]. intros x. destruct (_ || _); [apply pool_keeps_lift|apply pool_keeps_ret]. Qed.

(** A validated table lies in the pool. *)
Lemma validate_pool physical i s u s' :
  validate_table_address linkage physical s = Some (Ok u, s') -> index_ok i -> in_pool (entry_address physical i).
Proof.
  intros H Hi. unfold validate_table_address, bindB, panicB, checked_add in H. destruct (_ <? two64); [|done].
  destruct (_ || _) eqn:E; [done|]. b2p. destruct E as [[E1 E2] E3]. pose proof pool_fits as [[Hb Hal] _].
  unfold in_pool, entry_address, index_ok, is_multiple_of, pool_base, BOOTSTRAP_PAGE_TABLE_FRAMES, PAGE_SIZE in *.
  pose proof (Z.div_mod physical 4096 ltac:(lia)). pose proof (Z.div_mod (lk_bootstrap_storage linkage) 4096 ltac:(lia)). lia.
Qed.

Lemma pool_keeps_write address v : in_pool address -> pool_keeps (writeB address v).
Proof.
  intros Hp s r s' [= <- <-] a Ha. cbn [bs_words]. unfold read_word, write_word. rewrite lookup_insert_ne; [done|]. by intros <-.
Qed.

Lemma pool_keeps_read_entry physical i : pool_keeps (read_entry linkage physical i).
Proof. apply pool_keeps_bind; [apply pool_keeps_validate|]. intros; apply pool_keeps_read. Qed.

Lemma pool_keeps_write_entry physical i v : index_ok i -> pool_keeps (write_entry linkage physical i v).
Proof.
  intros Hi. apply (pool_keeps_after (fun _ => in_pool (entry_address physical i))); [apply pool_keeps_validate| |].
  - intros s x s' H. by eapply validate_pool.
  - intros _ Hp. by apply pool_keeps_write.
Qed.

(** Reading an entry validates its table. *)
Lemma read_entry_pool physical i s x s' :
  index_ok i -> read_entry linkage physical i s = Some (Ok x, s') -> in_pool (entry_address physical i).
Proof.
  intros Hi H. unfold read_entry, bindB in H. destruct (validate_table_address linkage physical s) as [[[u|e] s1]|] eqn:E; [|done..].
  by eapply validate_pool.
Qed.

Create HintDb builder_keeps.
#[local] Hint Resolve pool_keeps_ret pool_keeps_lift pool_keeps_panic pool_keeps_read pool_keeps_ok pool_keeps_opt pool_keeps_allocate pool_keeps_validate pool_keeps_read_entry : builder_keeps.

(** One step of a builder method. *)
Ltac keeps_step :=
  match goal with
  | |- pool_keeps (bindB _ _) => apply pool_keeps_bind; [|intros ?]
  | |- pool_keeps (optB _ _) => apply pool_keeps_opt; [|intros ?]
  | |- pool_keeps (if ?b then _ else _) => destruct b
  | |- pool_keeps (match ?o with Some _ => _ | None => _ end) => destruct o
  end.
Ltac keeps_go := repeat first [solve [eauto with builder_keeps] | keeps_step].

Lemma pool_keeps_ensure_child parent i : index_ok i -> pool_keeps (ensure_child linkage parent i).
Proof. intros Hi. unfold ensure_child. keeps_go. by apply pool_keeps_write_entry. Qed.

Lemma pool_keeps_leaf_slot root va : pool_keeps (leaf_slot linkage root va).
Proof. unfold leaf_slot. keeps_go; apply pool_keeps_ensure_child, index_bounds. Qed.

(** The slot is that of the page, so the last write is in the table just read. *)
Lemma leaf_slot_index root va s slot s' : leaf_slot linkage root va s = Some (Ok slot, s') -> snd slot = pml1_index va.
Proof.
  unfold leaf_slot, bindB. repeat (destruct (ensure_child linkage _ _ _) as [[[?|?] ?]|]; [|done..]). by intros [= <- _].
Qed.

Lemma pool_keeps_map_page root va pa flags : pool_keeps (map_page linkage root va pa flags).
Proof.
  unfold map_page. keeps_step; [apply pool_keeps_lift|].
  apply (pool_keeps_after (fun slot => index_ok (snd slot))); [apply pool_keeps_leaf_slot| |].
  { intros s slot s' H. rewrite (leaf_slot_index _ _ _ _ _ H). apply index_bounds. }
  intros slot Hi. apply (pool_keeps_after (fun _ => in_pool (entry_address (fst slot) (snd slot)))); [apply pool_keeps_read_entry| |].
  - intros s x s' H. by eapply read_entry_pool.
  - intros x Hp. keeps_step; [apply pool_keeps_lift|by apply pool_keeps_write].
Qed.

Lemma pool_keeps_map_pages count : forall page root va pa flags, pool_keeps (map_pages linkage count page root va pa flags).
Proof.
  induction count as [|count IH]; intros page root va pa flags; cbn [map_pages]; [apply pool_keeps_ret|].
  keeps_go. apply pool_keeps_map_page.
Qed.

Lemma pool_keeps_map_range root va pa bytes flags : pool_keeps (map_range linkage root va pa bytes flags).
Proof. unfold map_range. keeps_go. apply pool_keeps_map_pages. Qed.

Lemma pool_keeps_map_section root start end_ flags : pool_keeps (map_section linkage root start end_ flags).
Proof. unfold map_section. keeps_go. apply pool_keeps_map_range. Qed.

Lemma pool_keeps_entry_for root va : pool_keeps (entry_for linkage root va).
Proof. unfold entry_for. keeps_go. Qed.

Lemma pool_keeps_verify root pte : pool_keeps (verify_recovery_layout linkage root pte).
Proof.
  unfold verify_recovery_layout. apply pool_keeps_bind; [|intros _; apply pool_keeps_bind; [|intros _; by keeps_go]].
  - generalize mapped_checks. intros l. induction l as [|[va flags] l IH]; cbn [verify_mapped]; keeps_go. apply pool_keeps_entry_for.
  - generalize guard_checks. intros l. induction l as [|va l IH]; cbn [verify_unmapped]; keeps_go. apply pool_keeps_entry_for.
Qed.

Lemma build_tables_keeps : pool_keeps (build_tables linkage).
Proof.
  unfold build_tables. keeps_go; first [apply pool_keeps_map_section | apply pool_keeps_map_range | apply pool_keeps_leaf_slot | apply pool_keeps_verify].
Qed.

Lemma prepare_keeps m r m' :
  prepare_recovery_context linkage m = Some (r, m') -> forall a, ~ in_pool a -> read_word (rc_words m') a = read_word (rc_words m) a.
Proof.
  intros H a Ha. revert H. unfold prepare_recovery_context. destruct validate_fixed_layout; [|by intros [= <- <-]].
  destruct (validate_cpu_state _); [|by intros [= <- <-]]. destruct (negb _); [by intros [= <- <-]|]. intros H. rewrite <-(read_kept (rc_words m) a Ha).
  destruct (build_tables linkage (builder_new linkage (rc_words m))) as [[[[root pte]|e] s]|] eqn:E; [| |done];
    injection H as <- <-; exact (build_tables_keeps _ _ _ E a Ha).
Qed.

(** *** The pages of a built space *)

Lemma range_pages_elem count : forall page va pa flags m,
  m ∈ range_pages count page va pa flags <->
  exists k, page <= k < page + Z.of_nat count /\
    m = (va + k * PAGE_SIZE, Z.lor (pa + k * PAGE_SIZE) flags).
Proof.
  induction count as [|count IH]; intros page va pa flags m; cbn [range_pages].
  { split; [intros Hm; by apply not_elem_of_nil in Hm|]. intros (k & Hk & _). lia. }
  rewrite elem_of_cons, IH. split.
  - intros [->|(k & Hk & ->)]; [exists page|exists k]; (split; [lia|done]).
  - intros (k & Hk & ->). destruct (Z.eq_dec k page) as [->|]; [by left|]. right. exists k. split; [lia|done].
Qed.

Lemma range_list_elem r m :
  rg_bytes r mod PAGE_SIZE = 0 ->
  m ∈ range_list r <->
  exists k, 0 <= k /\ (k + 1) * PAGE_SIZE <= rg_bytes r /\
    m = (rg_virtual r + k * PAGE_SIZE, Z.lor (rg_physical r + k * PAGE_SIZE) (rg_flags r)).
Proof.
  intros Hm. unfold range_list. rewrite range_pages_elem.
  pose proof (Z.div_mod (rg_bytes r) PAGE_SIZE ltac:(done)) as Hd. rewrite Hm in Hd.
  unfold PAGE_SIZE in *.
  split; intros (k & Hk); exists k; [destruct Hk as [Hk ->]|destruct Hk as (Hk & Hk' & ->)]; split_and!; try done; lia.
Qed.

(** The ranges of a linkage that fits. *)
Lemma recovery_range_frame r k :
  Forall range_pages_ok (recovery_ranges linkage) -> r ∈ recovery_ranges linkage ->
  0 <= k -> (k + 1) * PAGE_SIZE <= rg_bytes r -> frame_ok (rg_physical r + k * PAGE_SIZE).
Proof.
  intros Hw Hr Hk Hkb. pose proof (proj1 (Forall_forall _ _) Hw r Hr) as (Hp & _ & _).
  assert (0 <= rg_physical r /\ rg_physical r + rg_bytes r <= 2 ^ 52) as [H0 H52].
  { destruct linkage_fits as [_ (S1 & S2 & S3 & S4) (E1 & E2 & E3 & E4) [R1 R2] [D1 D2]].
    unfold recovery_ranges in Hr. rewrite !elem_of_cons in Hr.
    destruct Hr as [->|[->|[->|[->|[->|[->|Hr]]]]]]; [cbn [rg_physical rg_bytes]; lia..|].
    by apply not_elem_of_nil in Hr. }
  unfold frame_ok, PAGE_SIZE in *. split; [lia|]. by rewrite Z.mod_add.
Qed.

Lemma recovery_range_flags r :
  r ∈ recovery_ranges linkage -> flags_ok (rg_flags r) /\ flag (rg_flags r) PRESENT = true.
Proof.
  intros Hr. unfold recovery_ranges in Hr. rewrite !elem_of_cons in Hr.
  destruct Hr as [->|[->|[->|[->|[->|[->|Hr]]]]]]; [by repeat split..|]. by apply not_elem_of_nil in Hr.
Qed.

Lemma page_leaf_translation r k :
  Forall range_pages_ok (recovery_ranges linkage) -> r ∈ recovery_ranges linkage ->
  0 <= k -> (k + 1) * PAGE_SIZE <= rg_bytes r ->
  leaf_translation (Z.lor (rg_physical r + k * PAGE_SIZE) (rg_flags r)) = Some (page_translation r k).
Proof.
  intros Hw Hr Hk Hkb. pose proof (recovery_range_frame r k Hw Hr Hk Hkb) as Hf.
  destruct (recovery_range_flags r Hr) as [Hfl Hpr]. unfold leaf_translation, page_translation.
  unfold flag in *. rewrite (entry_flag _ _ PRESENT), (entry_flag _ _ WRITABLE), (entry_flag _ _ NO_EXECUTE)
    by (done || apply PRESENT_bit || apply WRITABLE_bit || apply NX_bit).
  rewrite Hpr, entry_frame by done. reflexivity.
Qed.

Lemma recovery_bytes r :
  Forall range_pages_ok (recovery_ranges linkage) -> r ∈ recovery_ranges linkage ->
  rg_bytes r mod PAGE_SIZE = 0.
Proof. intros Hw Hr. by destruct (proj1 (Forall_forall _ _) Hw r Hr) as (_ & _ & ?). Qed.

Lemma all_pages_present :
  Forall range_pages_ok (recovery_ranges linkage) -> Forall (fun m => present (snd m)) all_pages.
Proof.
  intros Hw. apply Forall_forall. intros m Hm. unfold all_pages in Hm.
  apply list_elem_of_In, in_flat_map in Hm as (r & Hr%list_elem_of_In & Hm%list_elem_of_In).
  apply range_list_elem in Hm as (k & Hk & Hkb & ->); [|by apply recovery_bytes].
  pose proof (page_leaf_translation r k Hw Hr Hk Hkb) as Ht. unfold leaf_translation in Ht. cbn [snd].
  unfold present. unfold flag at 1 in Ht. destruct (Z.eqb_spec (Z.land (Z.lor (rg_physical r + k * PAGE_SIZE) (rg_flags r)) PRESENT) 0);
    [done|]. done.
Qed.

(** The space of a successful build translates the pages of the ranges, and nothing else. *)
Lemma built_translates leaf result s va tr :
  built leaf result s ->
  translate (bs_words s) (fst result) va = Some tr <->
  exists r k, r ∈ recovery_ranges linkage /\ on_page r k va /\ tr = page_translation r k.
Proof.
  intros [Hroot Hpages Hwhole Hholds _ _ _ _]. rewrite Hroot, (translate_leaf leaf) by done.
  destruct (mapped_exact _ _ _ Hpages (all_pages_present Hwhole)) as [Hin Hout].
  assert (Hfound : forall r k, r ∈ recovery_ranges linkage -> on_page r k va ->
            leaf_translation (leaf (path_of va) (pml1_index va)) = Some (page_translation r k)).
  { intros r k Hr (Hk & Hkb & Hslot).
    pose proof (f_equal fst Hslot) as Hpath. pose proof (f_equal snd Hslot) as Hidx. cbn [fst snd slot_of] in Hpath, Hidx.
    rewrite Hpath, Hidx, (Hin _ (Z.lor (rg_physical r + k * PAGE_SIZE) (rg_flags r))).
    - by apply page_leaf_translation.
    - apply list_elem_of_In, in_flat_map. exists r. split; [by apply list_elem_of_In|].
      apply list_elem_of_In, range_list_elem; [by apply recovery_bytes|]. by exists k. }
  split; [|intros (r & k & Hr & Hon & ->); by apply Hfound].
  intros Ht. destruct (decide (Exists (fun m => slot_of (fst m) = slot_of va) all_pages)) as [He|Hne].
  - apply Exists_exists in He as (m & Hm & Hslot).
    apply list_elem_of_In, in_flat_map in Hm as (r & Hr%list_elem_of_In & Hm%list_elem_of_In).
    apply range_list_elem in Hm as (k & Hk & Hkb & ->); [|by apply recovery_bytes].
    exists r, k. assert (Hon : on_page r k va) by (by split_and!). split_and!; [done|done|].
    rewrite (Hfound r k Hr Hon) in Ht. by injection Ht as <-.
  - rewrite Hout in Ht; [done|]. intros va' e Hm Hslot. apply Hne, Exists_exists. by exists (va', e).
Qed.

Lemma unmapped_translates leaf result s va :
  built leaf result s -> ~ present (leaf (path_of va) (pml1_index va)) ->
  translate (bs_words s) (fst result) va = None.
Proof.
  intros [Hroot _ _ Hholds _ _ _ _] Hnp. rewrite Hroot, (translate_leaf leaf) by done. unfold leaf_translation, flag.
  destruct (Z.eqb_spec (Z.land (leaf (path_of va) (pml1_index va)) PRESENT) 0); done.
Qed.
End recovery.

(** A bit that was set is set. *)
Lemma flag_set x g : (exists i, g = Z.shiftl 1 i /\ 0 <= i) -> flag (Z.lor x g) g = true.
Proof.
  intros (i & -> & Hi). unfold flag. apply negb_true_iff, Z.eqb_neq. intros H0.
  apply (f_equal (fun z => Z.testbit z i)) in H0. rewrite Z.testbit_0_l, Z.shiftl_1_l, Z.land_spec, Z.lor_spec in H0.
  rewrite Z.pow2_bits_true, orb_true_r in H0 by done. done.
Qed.

(** No range is writable and executable. *)
Lemma recovery_permissions linkage r k :
  r ∈ recovery_ranges linkage ->
  tr_user (page_translation r k) = false /\
  (tr_writable (page_translation r k) && negb (tr_no_execute (page_translation r k))) = false.
Proof.
  intros Hr. unfold recovery_ranges in Hr. rewrite !elem_of_cons in Hr.
  destruct Hr as [->|[->|[->|[->|[->|[->|Hr]]]]]]; [done..|]. by apply not_elem_of_nil in Hr.
Qed.

(** ** The claim *)

(** C26: When the linker's addresses fit the physical address width,
    [prepare_recovery_context] never panics.  When it succeeds, the processor's
    walk through the published root translates exactly the pages of the kernel's
    four sections (to themselves) and of the two stacks (to their frames), with
    the permissions of each; so no page is writable and executable and none is
    accessible to user mode; the guard pages and the temporary window are not
    mapped; write protection and no-execute are enabled, and the recovery state
    is ready and names at most the whole pool.  In every case memory outside the
    pool of tables is as it was. *)
Theorem recovery_space_exact linkage m :
  linkage_ok linkage ->
  exists r m', prepare_recovery_context linkage m = Some (r, m') /\
  (forall a, ~ in_pool linkage a -> read_word (rc_words m') a = read_word (rc_words m) a) /\
  (r = Ok tt ->
   (forall va tr, translate (rc_words m') (rs_root (rc_state m')) va = Some tr <->
      exists range k, range ∈ recovery_ranges linkage /\ on_page range k va /\ tr = page_translation range k) /\
   (forall va tr, translate (rc_words m') (rs_root (rc_state m')) va = Some tr ->
      tr_user tr = false /\ (tr_writable tr && negb (tr_no_execute tr)) = false) /\
   Forall (fun va => translate (rc_words m') (rs_root (rc_state m')) va = None)
     (TEMPORARY_WINDOW :: guard_checks) /\
   flag (cpu_efer (rc_cpu m')) EFER_NXE = true /\ flag (cpu_cr0 (rc_cpu m')) CR0_WRITE_PROTECT = true /\
   rs_ready (rc_state m') = true /\ (rs_pool_used (rc_state m') <= BOOTSTRAP_PAGE_TABLE_FRAMES)%nat).
Proof.
  intros Hok. destruct (build_tables_runs linkage Hok (rc_words m)) as (r & s & E & Hr).
  pose proof (prepare_keeps linkage Hok m) as Hkeep. unfold prepare_recovery_context in *.
  destruct validate_fixed_layout; [|by eexists _, _].
  destruct (validate_cpu_state (rc_cpu m)); [|by eexists _, _].
  destruct (negb _); [by eexists _, _|]. rewrite E in *.
  destruct r as [[root pte]|e]; [|eexists _, _; split; [done|]; split; [by eapply Hkeep|done]]. destruct Hr as [leaf Hb].
  eexists _, _. split; [done|]. split; [by eapply Hkeep|]. intros _. cbn [rc_words rc_state rc_cpu rs_root rs_ready rs_pool_used].
  pose proof (fun va tr => built_translates linkage Hok leaf (root, pte) s va tr Hb) as Ht.
  split_and!; [exact Ht| | | | |done|apply Hb].
  - intros va tr (range & k & Hrange & _ & ->)%Ht. by apply (recovery_permissions linkage).
  - pose proof (bu_guards _ _ _ _ Hb) as Hg. constructor.
    + apply (unmapped_translates linkage Hok leaf (root, pte) s); [done|]. rewrite (bu_window _ _ _ _ Hb). by intros [].
    + eapply Forall_impl; [exact Hg|]. intros va Hva. by apply (unmapped_translates linkage Hok leaf (root, pte) s).
  - apply flag_set. by exists 11.
  - apply flag_set. by exists 16.
Qed.

(** A kernel of 448 KiB at 1 MiB on a processor with no-execute. *)
Definition linkage_example : Linkage :=
  mkLinkage 0x100000 0x120000 0x120000 0x128000 0x128000 0x12a000 0x12a000 0x170000 0x100000 0x170000
    0x12a000 0x150000 0x160000.

Definition recovery_example : Recovery :=
  mkRecoveryContext (mkCpu 0x80000008 (Z.shiftl 1 20) 0 0 0) (mkRecovery 0 0 0 false) ∅.

(** The outcome of [prepare_recovery_context] there, and what a few addresses translate to. *)
Definition recovery_outcome : option (result unit IsolationError * list (option Translation)) :=
  match prepare_recovery_context linkage_example recovery_example with
  | Some (r, m) =>
      Some (r, map (translate (rc_words m) (rs_root (rc_state m)))
                 [0x100123; 0x121000; 0x128000; RECOVERY_STACK_BASE; TEMPORARY_WINDOW])
  | None => None
  end.

Lemma recovery_space_exact_witness :
  linkage_ok linkage_example /\
  recovery_outcome = Some (Ok tt,
    [Some (mkTranslation 0x100000 false false false); Some (mkTranslation 0x121000 false false true);
     Some (mkTranslation 0x128000 true false true); Some (mkTranslation 0x150000 true false true); None]) /\
  exists r m', prepare_recovery_context linkage_example recovery_example = Some (r, m') /\
    (r = Ok tt -> translate (rc_words m') (rs_root (rc_state m')) RECOVERY_STACK_GUARD_LOWER = None).
Proof.
  assert (Hok : linkage_ok linkage_example) by (split; vm_compute; repeat split; discriminate).
  split; [exact Hok|]. split; [vm_compute; reflexivity|].
  destruct (recovery_space_exact linkage_example recovery_example Hok) as (r & m' & E & _ & Hr).
  exists r, m'. split; [exact E|]. intros Hk. destruct (Hr Hk) as (_ & _ & Hg & _).
  exact (Forall_inv (Forall_inv_tail Hg)).
Defined.
