(* ===== verification/FrameReturns.v ===== *)
(** * Returning frames

    Consequences of the allocator's specification for a client that allocates
    several frames and returns them latest first: frames taken in a row can
    always be returned and restore the lists; frames of any age can be returned
    when the extent array has room for them. *)

From S2P Require Import Prelude.
From S2P Require Import Panic.
From S2P Require Import BootContract.
From S2P Require Import FrameAllocator.
From S2P Require Import Extents.
From S2P Require Import FrameInit.
From S2P Require Import FrameOps.
From S2P Require Import FrameTheorems.

(** ** Frames *)

Definition in_frame (f x : Z) : Prop := f <= x < f + PAGE_SIZE.

#[global] Instance in_frame_dec f x : Decision (in_frame f x).
Proof. unfold in_frame. apply _. Defined.

(** The page that holds an address. *)
Definition page_of (x : Z) : Z := x - x mod PAGE_SIZE.

Lemma page_of_aligned x : page_of x mod PAGE_SIZE = 0.
Proof. unfold page_of, PAGE_SIZE. rewrite Zminus_mod, Zmod_mod, Z.sub_diag. done. Qed.

Lemma in_page_of x : in_frame (page_of x) x.
Proof. unfold in_frame, page_of, PAGE_SIZE. pose proof (Z.mod_pos_bound x 4096). lia. Qed.

Lemma in_frame_page f x : f mod PAGE_SIZE = 0 -> in_frame f x -> f = page_of x.
Proof.
  intros Hf Hx. destruct (in_page_of x) as [H1 H2]. pose proof (page_of_aligned x).
  destruct Hx as [H3 H4]. destruct (Z.lt_trichotomy f (page_of x)) as [Hlt|[|Hlt]]; [|done|];
    apply aligned_lt in Hlt; (done || lia).
Qed.

Lemma covers_page low L x : chain low L -> covers L x -> covers L (page_of x).
Proof.
  intros HL (e & He & Hx). exists e. split; [done|].
  destruct (chain_elem _ _ _ HL He) as [(H0 & Ha & _) _]. split; [|pose proof (in_page_of x) as [? _]; lia].
  destruct (Z_lt_le_dec (page_of x) (physical_start e)) as [Hlt|]; [|done].
  apply aligned_lt in Hlt; [|apply page_of_aligned|done]. destruct (in_page_of x). lia.
Qed.

(** A chain covers a frame when it covers any byte of it. *)
Lemma covers_in_frame low L f x :
  chain low L -> f mod PAGE_SIZE = 0 -> in_frame f x -> covers L x <-> covers L f.
Proof.
  intros HL Hf Hx. split; [|by intros; apply (covers_frame low L f)].
  intros Hc%(covers_page low); [|done]. by rewrite (in_frame_page f x).
Qed.

(** The allocator manages the frame and has handed it out. *)
Definition handed_out (fa : FrameAllocator) (f : Z) : Prop :=
  f mod PAGE_SIZE = 0 /\ covers (live_managed fa) f /\ ~ covers (live_free fa) f.

Lemma managed_u64 fa f : fa_inv fa -> covers (live_managed fa) f -> 0 <= f < two64.
Proof.
  intros (_ & Hm & _) (e & He & Hf). destruct (chain_elem _ _ _ Hm He) as [(H0 & _ & _ & Hend) _].
  unfold eend in Hf. lia.
Qed.

Lemma managed_frame_end fa f :
  fa_inv fa -> f mod PAGE_SIZE = 0 -> covers (live_managed fa) f -> f + PAGE_SIZE < two64.
Proof.
  intros (_ & Hm & _) Hal (e & He & Hf). destruct (chain_elem _ _ _ Hm He) as [Hok _].
  pose proof (proj2 (contains_frame_ok e f Hok Hal) Hf) as Hc. unfold contains_frame in Hc.
  rewrite (extent_end_ok e Hok) in Hc. destruct Hok as (_ & _ & _ & ?). unfold eend in Hc. b2p. lia.
Qed.

Lemma handed_out_u64 fa f : fa_inv fa -> handed_out fa f -> u64 f.
Proof. intros Hinv (_ & Hm & _). apply (managed_u64 fa f Hinv Hm). Qed.

(** ** Lists of extents *)

Definition same_lists (fa fa' : FrameAllocator) : Prop :=
  live_free fa' = live_free fa /\ live_managed fa' = live_managed fa.

#[global] Instance same_lists_equiv : Equivalence same_lists.
Proof.
  split; [by split|by intros x y [H1 H2]; split|].
  intros x y z [H1 H2] [H3 H4]. split; congruence.
Qed.

Lemma same_lists_len fa fa' : fa_inv fa -> fa_inv fa' -> same_lists fa fa' -> fa_free_len fa' = fa_free_len fa.
Proof. intros [Ha _] [Ha' _] [Hf _]. apply live_free_length in Ha, Ha'. congruence. Qed.

(** One more frame needs at most one more extent. *)
Lemma put_frame_length A a B : (length (put_frame A a B) <= S (length (A ++ B)))%nat.
Proof.
  assert (HA : (length (fst (put_left A a)) <= length A)%nat).
  { unfold put_left. destruct A as [|l A _] using rev_ind; [done|]. rewrite last_snoc.
    destruct (_ =? a); [|done]. cbn [fst]. rewrite removelast_last, length_app. lia. }
  assert (HB : (length (snd (put_right a B)) <= length B)%nat).
  { unfold put_right. destruct B as [|r B]; [done|]. destruct (_ =? _); cbn [snd length]; lia. }
  unfold put_frame. destruct (put_left A a) as [A' [start n]], (put_right a B) as [n' B'].
  cbn [fst snd] in *. rewrite !length_app. cbn [length]. lia.
Qed.

Lemma free_frame_length fa a fa' :
  fa_inv fa -> u64 a -> free_frame a fa = Some (Ok tt, fa') ->
  (fa_free_len fa' <= S (fa_free_len fa))%nat.
Proof.
  intros Hinv Hu Hfree. pose proof Hinv as (Ha & _ & Hf & _).
  destruct (free_frame_spec fa a Hinv Hu) as (v & fa1 & Hx & Hv & Hinv1 & _ & _ & Hcov).
  assert (v = Ok tt /\ fa1 = fa') as [-> ->] by (split; congruence). specialize (Hcov eq_refl).
  destruct Hv as (Hal & Hman & Hnf & _). unfold u64 in Hu.
  destruct (find_insertion_spec (S (fa_free_len fa)) fa [] (live_free fa) a)
    as [[Hc _]|(_ & A & B & _ & HL & Hfit)]; try done; try lia.
  { unfold tail_end. simpl. lia. }
  { rewrite live_free_length by done. lia. }
  simpl in HL. rewrite HL in Hf.
  pose proof (managed_frame_end fa a Hinv Hal Hman) as Hend.
  destruct (put_frame_spec A a B Hf Hfit Hal) as [Hch Hcov']; [lia|done|].
  destruct Hinv1 as (Ha1 & _ & Hf1 & _).
  assert (Heq : live_free fa' = put_frame A a B).
  { apply (chain_unique (-1) (-1)); [done|done|]. intros x. rewrite Hcov, Hcov', HL. done. }
  rewrite <-(live_free_length fa' Ha1), <-(live_free_length fa Ha), Heq, HL. apply put_frame_length.
Qed.

(** ** Returning in the reverse order *)

(** The frames, oldest first, are returned from the last one on. *)
Inductive returns : FrameAllocator -> list Z -> FrameAllocator -> Prop :=
| returns_nil fa : returns fa [] fa
| returns_snoc fa fs f fa1 fa' :
    free_frame f fa = Some (Ok tt, fa1) -> returns fa1 fs fa' -> returns fa (fs ++ [f]) fa'.

Lemma returns_nil_inv fa fa' : returns fa [] fa' -> fa' = fa.
Proof.
  intros Hr. remember [] as fs eqn:E. destruct Hr as [|? fs]; [done|]. by destruct fs.
Qed.

Lemma returns_snoc_inv fa fs f fa' :
  returns fa (fs ++ [f]) fa' -> exists fa1, free_frame f fa = Some (Ok tt, fa1) /\ returns fa1 fs fa'.
Proof.
  intros Hr. remember (fs ++ [f]) as l eqn:E. destruct Hr as [|fa fs' f' fa1 fa' Hfree Hr].
  - by destruct fs.
  - apply app_inj_tail in E as [-> ->]. eauto.
Qed.

(** What a returned frame changes. *)
Definition freed (fa : FrameAllocator) (f : Z) (fa' : FrameAllocator) : Prop :=
  fa_inv fa' /\ live_managed fa' = live_managed fa /\
  forall x, covers (live_free fa') x <-> covers (live_free fa) x \/ in_frame f x.

Lemma free_frame_freed fa f fa' :
  fa_inv fa -> u64 f -> free_frame f fa = Some (Ok tt, fa') -> freed fa f fa' /\ handed_out fa f.
Proof.
  intros Hinv Hu Hfree. destruct (free_frame_spec fa f Hinv Hu) as (v & fa1 & Hx & Hv & Hinv1 & HM & _ & Hcov).
  assert (v = Ok tt /\ fa1 = fa') as [-> ->] by (split; congruence). destruct Hv as (? & ? & ? & _).
  split; [split_and!; auto|done].
Qed.

(** A frame handed out can be returned when there is room for an extent. *)
Lemma handed_out_freed fa f :
  fa_inv fa -> handed_out fa f -> (fa_free_len fa < MAX_FRAME_EXTENTS)%nat ->
  exists fa', free_frame f fa = Some (Ok tt, fa') /\ freed fa f fa' /\
    (fa_free_len fa' <= S (fa_free_len fa))%nat.
Proof.
  intros Hinv Hh Hroom. pose proof (handed_out_u64 fa f Hinv Hh) as Hu. destruct Hh as (Hal & Hm & Hnf).
  destruct (free_frame_spec fa f Hinv Hu) as (v & fa' & Hx & Hv & Hinv' & HM & _ & Hcov).
  assert (v = Ok tt) as ->.
  { pose proof (managed_frame_end fa f Hinv Hal Hm). destruct v as [[]|[]]; simpl in Hv; try tauto; lia. }
  exists fa'. split; [done|]. split; [by split_and!; auto|]. by eapply free_frame_length.
Qed.

Lemma handed_out_other fa f fa' g :
  freed fa f fa' -> f mod PAGE_SIZE = 0 -> g <> f -> handed_out fa g -> handed_out fa' g.
Proof.
  intros (_ & HM & Hcov) Hf Hne (Hal & Hm & Hnf). split_and!; [done|by rewrite HM|].
  intros [?|Hx]%Hcov; [done|]. apply Hne. rewrite (in_frame_page f g Hf Hx).
  apply in_frame_page; [done|]. unfold in_frame, PAGE_SIZE. lia.
Qed.

(** What returning several frames changes. *)
Definition all_freed (fa : FrameAllocator) (fs : list Z) (fa' : FrameAllocator) : Prop :=
  fa_inv fa' /\ live_managed fa' = live_managed fa /\
  forall x, covers (live_free fa') x <-> covers (live_free fa) x \/ Exists (fun f => in_frame f x) fs.

Lemma returns_room fs : forall fa,
  fa_inv fa -> NoDup fs -> Forall (handed_out fa) fs -> (fa_free_len fa + length fs <= MAX_FRAME_EXTENTS)%nat ->
  exists fa', returns fa fs fa'.
Proof.
  induction fs as [|f fs IH] using rev_ind; intros fa Hinv Hnd Hh Hlen; [exists fa; constructor|].
  apply Forall_app in Hh as [Hh Hf]. rewrite Forall_singleton in Hf.
  apply NoDup_app in Hnd as (Hnd & Hdis & _). rewrite length_app in Hlen. cbn [length] in Hlen.
  destruct (handed_out_freed fa f Hinv Hf) as (fa1 & Hfree & Hfr & Hl1); [lia|].
  destruct (IH fa1) as [fa' Hr]; [by destruct Hfr|done| |lia|exists fa'; by econstructor].
  eapply Forall_impl; [by apply Forall_and; split; [apply Hh|apply Forall_forall, Hdis]|]. cbn.
  intros g [Hg Hne]. apply (handed_out_other fa f fa1 g Hfr); [by destruct Hf| |done].
  intros ->. apply Hne. by left.
Qed.

Lemma returns_effect fa fs fa' :
  fa_inv fa -> Forall u64 fs -> returns fa fs fa' -> all_freed fa fs fa'.
Proof.
  intros Hinv Hu Hr. revert Hinv Hu. induction Hr as [fa|fa fs f fa1 fa' Hfree _ IH]; intros Hinv Hu.
  { split_and!; [done|done|]. intros x. rewrite Exists_nil. tauto. }
  apply Forall_app in Hu as [Hu Hf]. rewrite Forall_singleton in Hf.
  destruct (free_frame_freed fa f fa1 Hinv Hf Hfree) as [(Hinv1 & HM1 & Hcov1) _].
  destruct (IH Hinv1 Hu) as (Hinv' & HM' & Hcov'). split_and!; [done|congruence|].
  intros x. rewrite Hcov', Hcov1, Exists_app, Exists_cons, Exists_nil. tauto.
Qed.

(** ** Frames taken in a row *)

(** The allocator holds the lists it has after allocating the frames in order. *)
Inductive allocated (fa0 : FrameAllocator) : list Z -> FrameAllocator -> Prop :=
| allocated_nil fa : fa_inv fa -> same_lists fa0 fa -> allocated fa0 [] fa
| allocated_snoc fs fa f fa1 fa' :
    allocated fa0 fs fa -> allocate_frame fa = Some (Ok f, fa1) -> fa_inv fa' -> same_lists fa1 fa' ->
    allocated fa0 (fs ++ [f]) fa'.

Lemma allocated_inv fa0 fs fa : allocated fa0 fs fa -> fa_inv fa.
Proof. by intros []. Qed.

(** The outcome of a release depends only on the lists. *)
Lemma free_same_lists fa fa2 f fa' :
  fa_inv fa -> fa_inv fa2 -> same_lists fa fa2 -> u64 f -> free_frame f fa = Some (Ok tt, fa') ->
  exists fa2', free_frame f fa2 = Some (Ok tt, fa2') /\ fa_inv fa2' /\ same_lists fa' fa2'.
Proof.
  intros Hinv Hinv2 Hs Hu Hfree. pose proof (same_lists_len fa fa2 Hinv Hinv2 Hs) as Hlen. destruct Hs as [Hf Hm].
  destruct (free_frame_spec fa f Hinv Hu) as (v & fa1 & Hx & Hv & Hinv1 & HM1 & _ & Hcov1).
  assert (v = Ok tt /\ fa1 = fa') as [-> ->] by (split; congruence). specialize (Hcov1 eq_refl).
  destruct (free_frame_spec fa2 f Hinv2 Hu) as (v2 & fa2' & Hx2 & Hv2 & Hinv2' & HM2 & _ & Hcov2).
  destruct Hv as (Hal & Hman & Hnf & Hroom).
  assert (v2 = Ok tt) as ->.
  { pose proof (managed_frame_end fa f Hinv Hal Hman).
    destruct v2 as [[]|[]]; simpl in Hv2; rewrite ?Hf, ?Hm, ?Hlen in Hv2; try tauto; lia. }
  specialize (Hcov2 eq_refl). exists fa2'. split_and!; [done|done|]. split; [|congruence].
  destruct Hinv1 as (_ & _ & Hc1 & _), Hinv2' as (_ & _ & Hc2 & _).
  apply (chain_unique (-1) (-1)); [done|done|]. intros x. rewrite Hcov1, Hcov2, Hf. done.
Qed.

Lemma allocated_pop fa0 fs f fa :
  fa_inv fa0 -> allocated fa0 (fs ++ [f]) fa ->
  exists fa', free_frame f fa = Some (Ok tt, fa') /\ allocated fa0 fs fa'.
Proof.
  intros H0 Ha. inversion Ha as [? ? ? Hnil|fs1 fa1 f1 fa2 fa3 Hprev Hall Hinv Hs Hsnoc]; subst.
  { destruct fs; done. }
  apply app_inj_tail in Hsnoc as [-> ->]. pose proof (allocated_inv _ _ _ Hprev) as Hinv1.
  destruct (frame_allocate_free_roundtrip fa1 f fa2 Hinv1 Hall) as (fa4 & Hfree & HL & HM & _).
  destruct (allocate_frame_spec fa1 Hinv1) as [[_ Hx]|(f' & fa2' & Hx & Hinv2 & HM2 & Hal & Hcf & _)]; [congruence|].
  assert (f' = f /\ fa2' = fa2) as [-> ->] by (split; congruence).
  assert (Hu : u64 f) by (apply (managed_u64 fa1 f Hinv1); by apply Hinv1).
  destruct (free_same_lists fa2 fa f fa4 Hinv2 Hinv Hs Hu Hfree) as (fa' & Hfree' & Hinv' & Hs').
  exists fa'. split; [done|].
  assert (Hs1 : same_lists fa1 fa') by (transitivity fa4; [by split|done]). clear -Hprev Hs1 Hinv'.
  destruct Hprev as [fa1 H1 H2|fs fb f fb1 fa1 Hprev Hall H1 H2]; econstructor; try done; by etransitivity.
Qed.

Lemma allocated_returns fa0 fs : forall fa,
  fa_inv fa0 -> allocated fa0 fs fa -> exists fa', returns fa fs fa' /\ fa_inv fa' /\ same_lists fa0 fa'.
Proof.
  induction fs as [|f fs IH] using rev_ind; intros fa H0 Ha.
  - exists fa. inversion Ha as [? ? ?|? ? ? ? ? ? ? ? ? Hsnoc]; subst; [split; [constructor|done]|].
    by apply app_eq_nil in Hsnoc as [_ ?].
  - destruct (allocated_pop fa0 fs f fa H0 Ha) as (fa1 & Hfree & Ha1).
    destruct (IH fa1 H0 Ha1) as (fa' & Hr & Hinv & Hs). exists fa'. split; [by econstructor|done].
Qed.

(** ** How many frames are left *)

Definition pages (L : list Extent) : Z := foldr (fun e n => page_count e + n) 0 L.

Lemma pages_pos low L : chain low L -> L <> [] -> 0 < pages L.
Proof.
  revert low. induction L as [|e L IH]; intros low Hc Hne; [done|]. destruct Hc as (_ & (_ & _ & Hp & _) & Hc).
  cbn [pages foldr]. fold (pages L). destruct L as [|e' L]; [cbn; lia|]. specialize (IH _ Hc ltac:(done)). lia.
Qed.

Lemma pop_frame_pages e B : pages (pop_frame e B) = pages (e :: B) - 1.
Proof.
  unfold pop_frame. destruct (Z.eqb_spec (page_count e) 1); cbn [pages foldr page_count];
    fold (pages B); lia.
Qed.

(** Allocation fails when there is no page left and takes one otherwise. *)
Lemma allocate_pages fa :
  fa_inv fa ->
  (pages (live_free fa) = 0 /\ allocate_frame fa = Some (Err Exhausted, fa)) \/
  (0 < pages (live_free fa) /\ exists f fa', allocate_frame fa = Some (Ok f, fa') /\ fa_inv fa' /\
     live_managed fa' = live_managed fa /\ handed_out fa' f /\ covers (live_free fa) f /\
     pages (live_free fa') = pages (live_free fa) - 1 /\
     forall x, covers (live_free fa) x <-> covers (live_free fa') x \/ in_frame f x).
Proof.
  intros Hinv. pose proof Hinv as (_ & _ & Hc & Hsub).
  destruct (allocate_frame_spec fa Hinv) as [[HL Hx]|(f & fa' & Hx & Hinv' & HM & Hal & Hcf & _ & Hcov)].
  { left. by rewrite HL. }
  right. destruct (live_free fa) as [|e B] eqn:HL; [by apply covers_nil in Hcf|].
  split; [by eapply pages_pos|]. exists f, fa'.
  destruct (allocate_pop fa e B Hinv HL) as (fa1 & Hx1 & _ & _ & _ & HL1).
  assert (fa1 = fa') as -> by congruence. rewrite HL1, pop_frame_pages. split_and!; try done.
  - split_and!; [done|rewrite HM; by apply Hsub|]. rewrite Hcov. intros [_ Hn]. apply Hn. unfold PAGE_SIZE. lia.
  - intros x. rewrite <-HL1, Hcov. fold (in_frame f x). destruct (decide (in_frame f x)) as [Hi|Hn]; [|tauto].
    pose proof (proj2 (covers_in_frame (-1) _ f x Hc Hal Hi) Hcf). tauto.
Qed.
