(* ===== verification/KernelBackend.v ===== *)
(** * The kernel's page-table backend

    Models [KernelBackend] of [kernel/src/arch_x86_64.rs], the implementation of
    the trait [AddressSpaceBackend] over the frame allocator, the recovery tables
    and physical memory, with [with_temporary_frame] and [probe_bytes].  The
    temporary window is a virtual address: what it reaches is what the
    processor's walk through the current root finds there.  The statics of the
    kernel are identity mapped and accessed at their addresses.  A method that
    panics, or whose access faults, returns [None]; an instance of the trait on
    an optional machine keeps that outcome. *)

From stdpp Require Import gmap.
From S2P Require Import Prelude.
From S2P Require Import RuntimeTypes.
From S2P Require Import Panic.
From S2P Require Import Bytes.
From S2P Require Import FrameAllocator.
From S2P Require Import AddressSpace.
From S2P Require Import PageTables.

Definition TASK_GENERATION : Z := 1.
Definition SENDER_GENERATION : Z := 2.
Definition RECEIVER_GENERATION : Z := 3.

Definition LEGACY_USER_PROBE : list Z :=
  [0x48; 0xb8; 0x00; 0x00; 0x60; 0x00; 0x80; 0x00; 0x00; 0x00; 0xc6; 0x00; 0x01; 0x0f; 0x0b].

(** The boundary symbols of the probes, start and end. *)
Record ProbeSymbols := mkProbes {
  pb_sender : Z * Z;
  pb_receiver : Z * Z;
  pb_supervisor : Z * Z;
  pb_workload : Z * Z;
  pb_journal_supervisor : Z * Z;
  pb_journal_workload : Z * Z
}.

(** The allocator and the flag of the backend, the recovery state, memory and
    the current root. *)
Record Machine := mkMachine {
  km_allocator : FrameAllocator;
  km_journaled_probes : bool;
  km_recovery : RecoveryState;
  km_words : Words;
  km_cr3 : Z
}.

Definition set_allocator (m : Machine) (a : FrameAllocator) : Machine :=
  mkMachine a (km_journaled_probes m) (km_recovery m) (km_words m) (km_cr3 m).
Definition set_words (m : Machine) (w : Words) : Machine :=
  mkMachine (km_allocator m) (km_journaled_probes m) (km_recovery m) w (km_cr3 m).

(** A method; [None] is a panic or a fault. *)
Definition K (A : Type) : Type := Machine -> option (result A IsolationError * Machine).

Definition read_cr3 (m : Machine) : Z := Z.land (km_cr3 m) ENTRY_ADDRESS_MASK.

(** ** Frames as words and bytes *)

Definition ENTRY_COUNT : nat := 512.
Definition entry_indices : list Z := seqZ 0 (Z.of_nat ENTRY_COUNT).

(** The words from [index] on. *)
Fixpoint write_entries (frame index : Z) (values : list Z) (w : Words) : Words :=
  match values with
  | [] => w
  | v :: rest => write_entries frame (index + 1) rest (write_word w (entry_address frame index) v)
  end.

Definition frame_entries (w : Words) (frame : Z) : list Z :=
  map (fun i => read_word w (entry_address frame i)) entry_indices.

Definition frame_bytes (w : Words) (frame : Z) : list Z := flat_map (to_le_bytes 8) (frame_entries w frame).

(** [count] words from their bytes *)
Fixpoint words_of (count : nat) (bytes : list Z) : list Z :=
  match count with
  | O => []
  | S count' => from_le_bytes (take 8 bytes) :: words_of count' (drop 8 bytes)
  end.

Definition byte_at (w : Words) (address : Z) : Z :=
  nth (Z.to_nat (address mod 8)) (to_le_bytes 8 (read_word w (address - address mod 8))) 0.

(** [slice::from_raw_parts] *)
Definition read_bytes (w : Words) (start length : Z) : list Z := map (byte_at w) (seqZ start length).

(** ** The temporary window *)

(** The slice the window gives: its address, its length and the frame behind it. *)
Record Window := mkWindow { wd_address : Z; wd_length : Z; wd_frame : Z }.

(** A closure over the slice. *)
Definition WindowOp (A : Type) : Type := Window -> Words -> option (result A IsolationError * Words).

Definition page_table_bytes (bytes : Window) : result unit IsolationError :=
  if negb (wd_length bytes =? PAGE_SIZE) || negb (is_multiple_of (wd_address bytes) 8)
  then Err InvalidMapping else Ok tt.

Definition with_temporary_frame {A} (frame : Z) (operation : WindowOp A) : K A := fun m =>
  if negb (is_multiple_of frame PAGE_SIZE) then Some (Err InvalidMapping, m) else
  let state := km_recovery m in
  let entry := rs_temporary_pte state in
  if negb (rs_ready state) || (entry =? 0) then Some (Err TemporaryWindowBusy, m) else
  if negb (read_word (km_words m) entry =? 0) then Some (Err TemporaryWindowBusy, m) else
  let mapped := write_word (km_words m) entry (Z.lor frame SUPERVISOR_RW_FLAGS) in
  match translate mapped (read_cr3 m) TEMPORARY_WINDOW with
  | None => None
  | Some tr =>
      if negb (tr_writable tr) then None else
      match operation (mkWindow TEMPORARY_WINDOW PAGE_SIZE (tr_frame tr)) mapped with
      | None => None
      | Some (r, w) => Some (r, set_words m (write_word w entry 0))
      end
  end.

(** An operation on the 512 entries of the frame. *)
Definition on_table {A} (operation : Z -> WindowOp A) : WindowOp A := fun bytes w =>
  match page_table_bytes bytes with
  | Err e => Some (Err e, w)
  | Ok _ => operation (wd_frame bytes) bytes w
  end.

(** [table[index]]; the array has 512 entries. *)
Definition entry_in_range (index : Z) : bool := (0 <=? index) && (index <? Z.of_nat ENTRY_COUNT).

Definition fill_zero (bytes : Window) (w : Words) : Words :=
  write_entries (wd_frame bytes) 0 (replicate ENTRY_COUNT 0) w.

(** ** Probes *)

Section backend.
Variables (linkage : Linkage) (probes : ProbeSymbols).

Definition probe_range (generation : Z) (journaled : bool) : option (Z * Z) :=
  if generation =? SENDER_GENERATION then Some (pb_sender probes) else
  if generation =? RECEIVER_GENERATION then Some (pb_receiver probes) else
  if (generation =? SUPERVISOR_GENERATION) && journaled then Some (pb_journal_supervisor probes) else
  if generation =? SUPERVISOR_GENERATION then Some (pb_supervisor probes) else
  if (generation =? WORKLOAD_GENERATION) && journaled then Some (pb_journal_workload probes) else
  if generation =? WORKLOAD_GENERATION then Some (pb_workload probes) else
  None.

Definition probe_bytes (w : Words) (generation : Z) (journaled : bool) : result (list Z) IsolationError :=
  if generation =? TASK_GENERATION then Ok LEGACY_USER_PROBE else
  match probe_range generation journaled with
  | None => Err InvalidMapping
  | Some (start, end_) =>
      match checked_sub end_ start with
      | Some length =>
          if negb (length =? 0) && (length <=? PAGE_SIZE) then Ok (read_bytes w start length)
          else Err InvalidMapping
      | None => Err InvalidMapping
      end
  end.

(** [bytes[..probe.len()].copy_from_slice(probe)] *)
Definition copy_to_start (bytes : Window) (probe : list Z) (w : Words) : option Words :=
  let old := frame_bytes w (wd_frame bytes) in
  if (length probe <=? length old)%nat
  then Some (write_entries (wd_frame bytes) 0 (words_of ENTRY_COUNT (probe ++ drop (length probe) old)) w)
  else None.

(** ** The methods *)

Definition kb_allocate_frame (_role : FrameRole) : K Z := fun m =>
  match allocate_frame (km_allocator m) with
  | None => None
  | Some (r, a) => Some (map_err (fun _ => FrameAllocation) r, set_allocator m a)
  end.

(** [for index in SHARED_PML4_INDICES { task[index] = recovery.entries[index]; }] *)
Definition copy_shared (recovery frame : Z) (w : Words) : Words :=
  fold_left (fun w index =>
    write_word w (entry_address frame index) (read_word w (entry_address recovery index)))
    SHARED_PML4_INDICES w.

Definition prepare_operation (generation : Z) (role : FrameRole) (recovery : Z) (journaled : bool)
    : WindowOp unit := fun bytes w =>
  let w := fill_zero bytes w in
  if bool_decide (role = Root) then
    on_table (fun frame _ w => Some (Ok tt, copy_shared recovery frame w)) bytes w
  else if bool_decide (role = Text) then
    match probe_bytes w generation journaled with
    | Err e => Some (Err e, w)
    | Ok probe => w' ← copy_to_start bytes probe w; Some (Ok tt, w')
    end
  else Some (Ok tt, w).

Definition kb_prepare_frame (generation : Z) (role : FrameRole) (frame : Z) : K unit := fun m =>
  with_temporary_frame frame
    (prepare_operation generation role (rs_root (km_recovery m)) (km_journaled_probes m)) m.

Definition install_operation (link : LinkSpec) (child : Z) : WindowOp unit :=
  on_table (fun frame _ w =>
    if negb (entry_in_range (ln_entry_index link)) then None else
    let entry := entry_address frame (ln_entry_index link) in
    if negb (read_word w entry =? 0) then Some (Err DuplicateMapping, w) else
    Some (Ok tt, write_word w entry (Z.lor child (ln_flags link)))).

Definition kb_install_link (link : LinkSpec) (parent child : Z) : K unit :=
  with_temporary_frame parent (install_operation link child).

Definition remove_operation (link : LinkSpec) (child : Z) : WindowOp unit :=
  on_table (fun frame _ w =>
    if negb (entry_in_range (ln_entry_index link)) then None else
    let entry := entry_address frame (ln_entry_index link) in
    if negb (Z.land (read_word w entry) ENTRY_ADDRESS_MASK =? child)
       || (Z.land (read_word w entry) PRESENT =? 0)
    then Some (Err MissingMapping, w) else
    Some (Ok tt, write_word w entry 0)).

Definition kb_remove_link (link : LinkSpec) (parent child : Z) : K unit :=
  with_temporary_frame parent (remove_operation link child).

Definition clear_operation : WindowOp unit :=
  on_table (fun frame _ w =>
    Some (Ok tt, fold_left (fun w index => write_word w (entry_address frame index) 0) SHARED_PML4_INDICES w)).

Definition kb_clear_shared_entries (root : Z) : K unit := with_temporary_frame root clear_operation.

Definition kb_clear_temporary_window : K unit := fun m =>
  let entry := rs_temporary_pte (km_recovery m) in
  if read_word (km_words m) entry =? 0 then Some (Ok tt, m) else
  Some (Err TemporaryWindowLeaked, set_words m (write_word (km_words m) entry 0)).

Definition is_table_role (role : FrameRole) : bool :=
  match role with
  | Root | UserPml3 | UserPml2 | TextPml1 | StackPml1 => true
  | Text | Stack => false
  end.

Definition empty_operation : WindowOp unit :=
  on_table (fun frame _ w =>
    if existsb (fun entry => negb (entry =? 0)) (frame_entries w frame)
    then Some (Err ReachableFrame, w) else Some (Ok tt, w)).

(** [for owned in frames { .. }] *)
Fixpoint check_empty (frames : list OwnedFrame) : K unit := fun m =>
  match frames with
  | [] => Some (Ok tt, m)
  | owned :: rest =>
      if is_table_role (of_role owned) then
        match with_temporary_frame (of_physical_start owned) empty_operation m with
        | Some (Ok _, m') => check_empty rest m'
        | stop => stop
        end
      else check_empty rest m
  end.

(** Some entry of the tables of the pool that are in use maps one of the frames. *)
Definition maps_owned (frames : list OwnedFrame) (entry : Z) : bool :=
  negb (Z.land entry PRESENT =? 0)
  && existsb (fun owned => of_physical_start owned =? Z.land entry ENTRY_ADDRESS_MASK) frames.

Definition pool_reaches (w : Words) (pool_used : nat) (frames : list OwnedFrame) : bool :=
  existsb (fun t =>
    existsb (maps_owned frames) (frame_entries w (lk_bootstrap_storage linkage + Z.of_nat t * PAGE_SIZE)))
    (seq 0 pool_used).

Definition kb_verify_unreachable (frames : list OwnedFrame) : K unit := fun m =>
  let state := km_recovery m in
  if negb (read_cr3 m =? rs_root state)
     || negb (read_word (km_words m) (rs_temporary_pte state) =? 0)
  then Some (Err ReachableFrame, m) else
  match check_empty frames m with
  | Some (Ok _, m') =>
      if negb (rs_pool_used state <=? BOOTSTRAP_PAGE_TABLE_FRAMES)%nat then None else
      if pool_reaches (km_words m') (rs_pool_used state) frames then Some (Err ReachableFrame, m')
      else Some (Ok tt, m')
  | stop => stop
  end.

Definition kb_return_frame (frame : OwnedFrame) : K unit := fun m =>
  match free_frame (of_physical_start frame) (km_allocator m) with
  | None => None
  | Some (r, a) => Some (map_err (fun _ => FrameReturn) r, set_allocator m a)
  end.

(** A stopped machine stays stopped. *)
Definition method {A} (k : K A) (s : option Machine) : result A IsolationError * option Machine :=
  match s with
  | None => (Err InvalidMapping, None)
  | Some m =>
      match k m with
      | None => (Err InvalidMapping, None)
      | Some (r, m') => (r, Some m')
      end
  end.

Definition KernelBackend : AddressSpaceBackend (option Machine) IsolationError := {|
  be_allocate_frame role := method (kb_allocate_frame role);
  be_prepare_frame generation role frame := method (kb_prepare_frame generation role frame);
  be_install_link link parent child := method (kb_install_link link parent child);
  be_remove_link link parent child := method (kb_remove_link link parent child);
  be_clear_shared_entries root := method (kb_clear_shared_entries root);
  be_clear_temporary_window := method kb_clear_temporary_window;
  be_verify_unreachable frames := method (kb_verify_unreachable frames);
  be_return_frame frame := method (kb_return_frame frame)
|}.
End backend.
