(* ===== verification/KernelBackendProofs.v ===== *)
(** * The kernel's page-table backend: memory and the window

    The invariant of the machine between two calls of the backend, what the
    temporary window reaches, and the effect of every method on memory and on
    the allocator. *)

From stdpp Require Import gmap.
From S2P Require Import Prelude.
From S2P Require Import Panic.
From S2P Require Import Bytes.
From S2P Require Import FrameAllocator.
From S2P Require Import Extents.
From S2P Require Import FrameInit.
From S2P Require Import FrameReturns.
From S2P Require Import AddressSpace.
From S2P Require Import AddressSpaceProofs.
From S2P Require Import PageTables.
From S2P Require Import PageTablesProofs.
From S2P Require Import PageTablesTheorems.
From S2P Require Import KernelBackend.

(** The two constants for the page size are the same number. *)
Ltac page_unfold := unfold in_frame, BootContract.PAGE_SIZE, AddressSpace.PAGE_SIZE in *.

(** ** Words *)

Lemma read_write w a v b : read_word (write_word w a v) b = if decide (a = b) then v else read_word w b.
Proof.
  unfold read_word, write_word. case_decide as H; [subst; by rewrite lookup_insert_eq|by rewrite lookup_insert_ne].
Qed.

(** Memory is unchanged outside a frame. *)
Definition same_but (f : Z) (w w' : Words) : Prop := forall a, ~ in_frame f a -> read_word w' a = read_word w a.

Lemma same_but_refl f w : same_but f w w.
Proof. by intros a _. Qed.

Lemma same_but_trans f w1 w2 w3 : same_but f w1 w2 -> same_but f w2 w3 -> same_but f w1 w3.
Proof. intros H1 H2 a Ha. by rewrite H2, H1. Qed.

Lemma entry_in_frame f i : index_ok i -> in_frame f (entry_address f i).
Proof. unfold index_ok, entry_address. page_unfold. lia. Qed.

Lemma write_same_but f i v w : index_ok i -> same_but f w (write_word w (entry_address f i) v).
Proof.
  intros Hi a Ha. rewrite read_write. rewrite decide_False; [done|]. intros <-. by apply Ha, entry_in_frame.
Qed.

Lemma entry_address_eq f i j : entry_address f i = entry_address f j <-> i = j.
Proof. unfold entry_address. lia. Qed.

Lemma entry_address_eq_decide {A} f i j (x y : A) :
  (if decide (entry_address f i = entry_address f j) then x else y) = if decide (i = j) then x else y.
Proof. by apply decide_ext, entry_address_eq. Qed.

(** Writing consecutive entries. *)
Lemma write_entries_read f values : forall index w j,
  read_word (write_entries f index values w) (entry_address f j) =
  match values !! Z.to_nat (j - index) with
  | Some v => if decide (index <= j) then v else read_word w (entry_address f j)
  | None => read_word w (entry_address f j)
  end.
Proof.
  induction values as [|v values IH]; intros index w j; [done|]. cbn [write_entries]. rewrite IH, read_write.
  rewrite entry_address_eq_decide. destruct (decide (index <= j)) as [Hle|Hgt]; [destruct (Z.eq_dec j index) as [->|Hne]|].
  - rewrite Z.sub_diag, (decide_True (P := index = index)) by done. cbn [Z.to_nat lookup list_lookup].
    destruct (values !! _); [|done]. by destruct (decide (index + 1 <= index)); [lia|].
  - replace (Z.to_nat (j - index)) with (S (Z.to_nat (j - (index + 1)))) by lia. cbn [lookup list_lookup].
    rewrite (decide_False (P := index = j)) by lia. destruct (values !! _); [|done].
    by destruct (decide (index + 1 <= j)); [|lia].
  - rewrite (decide_False (P := index = j)) by lia. destruct (values !! _), ((v :: values) !! _);
      destruct (decide (index + 1 <= j)); (done || lia).
Qed.

Lemma write_entries_same_but f values : forall index w,
  0 <= index -> index + Z.of_nat (length values) <= 512 -> same_but f w (write_entries f index values w).
Proof.
  induction values as [|v values IH]; intros index w H0 Hlen; [apply same_but_refl|]. cbn [write_entries length] in *.
  eapply same_but_trans; [|apply IH; lia]. apply write_same_but. unfold index_ok. lia.
Qed.

(** The whole frame. *)
Lemma write_frame_read f values w i :
  length values = ENTRY_COUNT -> index_ok i ->
  Some (read_word (write_entries f 0 values w) (entry_address f i)) = values !! Z.to_nat i.
Proof.
  intros Hl Hi. rewrite write_entries_read, Z.sub_0_r. unfold index_ok in Hi.
  destruct (lookup_lt_is_Some_2 values (Z.to_nat i)) as [v ->]; [rewrite Hl; unfold ENTRY_COUNT; lia|].
  by rewrite decide_True by lia.
Qed.

Lemma fill_zero_read b w i : index_ok i -> read_word (fill_zero b w) (entry_address (wd_frame b) i) = 0.
Proof.
  intros Hi. pose proof (write_frame_read (wd_frame b) (replicate ENTRY_COUNT 0) w i) as H.
  rewrite length_replicate in H. specialize (H eq_refl Hi). unfold fill_zero.
  symmetry in H. apply lookup_replicate in H as [-> _]. done.
Qed.

Lemma fill_zero_same_but b w : same_but (wd_frame b) w (fill_zero b w).
Proof. apply write_entries_same_but; [done|]. rewrite length_replicate. unfold ENTRY_COUNT. lia. Qed.

Lemma entry_indices_elem i : i ∈ entry_indices <-> index_ok i.
Proof. unfold entry_indices, index_ok, ENTRY_COUNT. rewrite elem_of_seqZ. lia. Qed.

Lemma frame_entries_ext f w w' :
  (forall a, in_frame f a -> read_word w' a = read_word w a) -> frame_entries w' f = frame_entries w f.
Proof.
  intros H. unfold frame_entries. apply map_ext_in. intros i Hi%list_elem_of_In%entry_indices_elem.
  by apply H, entry_in_frame.
Qed.

(** ** The layout of the image *)

(** Where the linker places what the kernel accesses: the pool and the stacks in
    the zero-initialised section, the probes in the text, all of it inside the
    image. *)
Record image_layout (l : Linkage) (p : ProbeSymbols) : Prop := {
  il_sections : lk_kernel_start l <= lk_text_start l /\ lk_text_start l <= lk_text_end l /\
    lk_text_end l <= lk_rodata_start l /\ lk_rodata_start l <= lk_rodata_end l /\
    lk_rodata_end l <= lk_data_start l /\ lk_data_start l <= lk_data_end l /\
    lk_data_end l <= lk_bss_start l /\ lk_bss_start l <= lk_bss_end l /\ lk_bss_end l <= lk_kernel_end l;
  il_pool : lk_bss_start l <= lk_bootstrap_storage l /\
    lk_bootstrap_storage l + Z.of_nat BOOTSTRAP_PAGE_TABLE_FRAMES * PAGE_SIZE <= lk_bss_end l;
  il_stacks : lk_bss_start l <= lk_recovery_stack l /\ lk_recovery_stack l + RECOVERY_STACK_SIZE <= lk_bss_end l /\
    lk_bss_start l <= lk_double_fault_stack l /\ lk_double_fault_stack l + DOUBLE_FAULT_STACK_SIZE <= lk_bss_end l;
  il_text : lk_text_start l mod 8 = 0;
  il_probes : Forall (fun range => lk_text_start l <= fst range /\ snd range <= lk_text_end l)
    [pb_sender p; pb_receiver p; pb_supervisor p; pb_workload p; pb_journal_supervisor p; pb_journal_workload p]
}.

Definition in_image (l : Linkage) (a : Z) : Prop := lk_kernel_start l <= a < lk_kernel_end l.

(** The recovery tables are a tree whose leaves map only the image, with the
    entry of the window at its place and clear. *)
Record recovery_tables (l : Linkage) (rs : RecoveryState) (w : Words) : Prop := {
  rt_ready : rs_ready rs = true;
  rt_root : rs_root rs = table l 0;
  rt_tree : exists paths leaf c,
    rep l paths leaf (mkBuilder (mkBudget (rs_pool_used rs)) w) /\ paths !! 0%nat = Some [] /\
    paths !! c = Some (path_of TEMPORARY_WINDOW) /\
    rs_temporary_pte rs = entry_address (table l c) (pml1_index TEMPORARY_WINDOW) /\
    leaf (path_of TEMPORARY_WINDOW) (pml1_index TEMPORARY_WINDOW) = 0 /\
    forall p i, present (leaf p i) -> in_image l (Z.land (leaf p i) ENTRY_ADDRESS_MASK)
}.

Section backend.
Variables (linkage : Linkage) (probes : ProbeSymbols).
Hypothesis linkage_fits : linkage_ok linkage.
Hypothesis layout : image_layout linkage probes.
Notation table := (table linkage).
Notation rep := (rep linkage).
Notation entry := (entry linkage).

Let pool_fits := lo_pool linkage linkage_fits.

(** The machine between two calls. *)
Record machine_ok (m : Machine) : Prop := {
  mk_alloc : fa_inv (km_allocator m);
  mk_memory : forall x, covers (live_managed (km_allocator m)) x -> x < 2 ^ 52 /\ ~ in_image linkage x;
  mk_recovery : recovery_tables linkage (km_recovery m) (km_words m);
  mk_cr3 : read_cr3 m = rs_root (km_recovery m)
}.

Lemma pool_in_image t i :
  (t < BOOTSTRAP_PAGE_TABLE_FRAMES)%nat -> index_ok i -> in_image linkage (entry_address (table t) i).
Proof.
  intros Ht Hi. destruct layout as [Hs Hp _ _ _]. unfold in_image, entry_address, PageTablesProofs.table, index_ok in *.
  page_unfold. lia.
Qed.

Lemma table_in_image t : (t < BOOTSTRAP_PAGE_TABLE_FRAMES)%nat -> in_image linkage (table t).
Proof.
  intros Ht. pose proof (pool_in_image t 0 Ht ltac:(unfold index_ok; lia)) as H. unfold entry_address in H.
  by rewrite Z.mul_0_r, Z.add_0_r in H.
Qed.

(** The tree depends only on the words of the pool. *)
Lemma rep_agree paths leaf b w w' :
  (forall t i, (t < BOOTSTRAP_PAGE_TABLE_FRAMES)%nat -> index_ok i -> entry w' t i = entry w t i) ->
  rep paths leaf (mkBuilder b w) -> rep paths leaf (mkBuilder b w').
Proof.
  intros Hw [Hu Hb Hn Hp Hc Hl Hul Hlf Hfr Hab]. cbn [bs_budget bs_words] in *.
  assert (Hlt : forall t p, paths !! t = Some p -> (t < BOOTSTRAP_PAGE_TABLE_FRAMES)%nat).
  { intros t p Ht%lookup_lt_Some. lia. }
  split; cbn [bs_budget bs_words]; try done.
  - intros t p i c Ht Hc'. rewrite Hw; [by eapply Hl|by eapply Hlt|].
    pose proof (proj1 (Forall_lookup _ _) Hp _ _ Hc') as [_ Hall].
    apply Forall_app in Hall as [_ Hj]. by rewrite Forall_singleton in Hj.
  - intros t p i Ht Hlen Hi Hnot. rewrite Hw; [by eapply Hul|by eapply Hlt|done].
  - intros t p i Ht Hlen Hi. rewrite Hw; [by eapply Hlf|by eapply Hlt|done].
  - intros t i Ht Hi. rewrite Hw; [by apply Hfr|lia|done].
Qed.

Lemma recovery_agree rs w w' :
  (forall a, in_image linkage a -> read_word w' a = read_word w a) ->
  recovery_tables linkage rs w -> recovery_tables linkage rs w'.
Proof.
  intros Hw [Hr Hroot (paths & leaf & c & Hrep & Hrest)]. split; [done..|]. exists paths, leaf, c. split; [|done].
  eapply rep_agree; [|done]. intros t i Ht Hi. by apply Hw, pool_in_image.
Qed.

(** A frame that the allocator manages. *)
Definition managed (m : Machine) (f : Z) : Prop :=
  f mod PAGE_SIZE = 0 /\ covers (live_managed (km_allocator m)) f.

Lemma managed_in_frame m f x : machine_ok m -> managed m f -> in_frame f x -> covers (live_managed (km_allocator m)) x.
Proof.
  intros Hok [Hal Hf] Hx. destruct (mk_alloc m Hok) as (_ & Hc & _). by apply (covers_in_frame (-1) _ f x Hc Hal Hx).
Qed.

Lemma managed_frame_ok m f : machine_ok m -> managed m f -> frame_ok f.
Proof.
  intros Hok [Hal Hf]. pose proof (managed_u64 _ f (mk_alloc m Hok) Hf). destruct (mk_memory m Hok f Hf).
  split; [lia|done].
Qed.

Lemma managed_not_image m f a : machine_ok m -> managed m f -> in_image linkage a -> ~ in_frame f a.
Proof. intros Hok Hf Ha Hx. by destruct (mk_memory m Hok a (managed_in_frame m f a Hok Hf Hx)). Qed.

(** Writes to managed frames keep the machine well formed. *)
Lemma machine_ok_words m w :
  (forall a, in_image linkage a -> read_word w a = read_word (km_words m) a) ->
  machine_ok m -> machine_ok (set_words m w).
Proof.
  intros Hw [Ha Hm Hr Hc]. split; cbn; [done|done| |done]. eapply recovery_agree; [|done]. done.
Qed.

Lemma machine_ok_same_but m f w :
  machine_ok m -> managed m f -> same_but f (km_words m) w -> machine_ok (set_words m w).
Proof.
  intros Hok Hf Hw. apply machine_ok_words; [|done]. intros a Ha. apply Hw. by eapply managed_not_image.
Qed.

(** *** The window *)

Notation pte m := (rs_temporary_pte (km_recovery m)).

Lemma pte_in_image m : machine_ok m -> in_image linkage (pte m).
Proof.
  intros Hok. destruct (mk_recovery m Hok) as [_ _ (paths & leaf & c & Hr & _ & Hc & -> & _)].
  apply pool_in_image; [|apply index_bounds]. apply lookup_lt_Some in Hc. pose proof (rp_bound _ _ _ _ Hr). lia.
Qed.

Lemma pte_clear m : machine_ok m -> read_word (km_words m) (pte m) = 0.
Proof.
  intros Hok. destruct (mk_recovery m Hok) as [_ _ (paths & leaf & c & Hr & _ & Hc & -> & Hz & _)].
  rewrite <-Hz. apply (rp_leaf _ _ _ _ Hr c _ _ Hc); [done|apply index_bounds].
Qed.

Lemma pte_nonzero m : machine_ok m -> 0 < pte m.
Proof.
  intros Hok. pose proof (pte_in_image m Hok) as [Hlo _]. destruct layout as [Hs Hp _ _ _].
  destruct (mk_recovery m Hok) as [_ _ (paths & leaf & c & Hr & H0 & Hc & -> & _)].
  assert (c <> 0%nat) by (intros ->; rewrite H0 in Hc; done). destruct pool_fits as [[Hb _] _].
  pose proof (index_bounds TEMPORARY_WINDOW 12) as Hi. unfold index_ok in Hi.
  change (pml1_index TEMPORARY_WINDOW) with (Z.land (TEMPORARY_WINDOW ≫ 12) 511).
  unfold entry_address, PageTablesProofs.table. page_unfold. lia.
Qed.

(** The window shows the frame whose entry is written. *)
Lemma window_translates m f :
  machine_ok m -> frame_ok f ->
  translate (write_word (km_words m) (pte m) (Z.lor f SUPERVISOR_RW_FLAGS)) (read_cr3 m) TEMPORARY_WINDOW
  = Some (mkTranslation f true false true).
Proof.
  intros Hok Hf. rewrite (mk_cr3 m Hok). destruct (mk_recovery m Hok) as [_ -> (paths & leaf & c & Hr & H0 & Hc & -> & _)].
  pose proof (rep_set_leaf _ _ _ _ _ _ (pml1_index TEMPORARY_WINDOW) (Z.lor f SUPERVISOR_RW_FLAGS) Hr Hc eq_refl
    (index_bounds TEMPORARY_WINDOW 12)) as Hr'. cbn [bs_budget bs_words] in Hr'.
  pose proof (translate_leaf linkage linkage_fits _ _ TEMPORARY_WINDOW (ex_intro _ paths (conj Hr' H0))) as Ht.
  cbn [bs_words] in Ht. rewrite Ht. fold (slot_of TEMPORARY_WINDOW). rewrite set_leaf_eq. unfold leaf_translation, flag.
  rewrite (entry_flag _ _ PRESENT), (entry_flag _ _ WRITABLE), (entry_flag _ _ NO_EXECUTE)
    by (done || apply PRESENT_bit || apply WRITABLE_bit || apply NX_bit).
  rewrite entry_frame by (done || by split). done.
Qed.

(** An operation through the window acts on the frame and leaves the entry clear. *)
Lemma window_exact {A} m f (op : WindowOp A) r w2 :
  machine_ok m -> managed m f ->
  let w1 := write_word (km_words m) (pte m) (Z.lor f SUPERVISOR_RW_FLAGS) in
  op (mkWindow TEMPORARY_WINDOW PAGE_SIZE f) w1 = Some (r, w2) -> same_but f w1 w2 ->
  exists w3, with_temporary_frame f op m = Some (r, set_words m w3) /\ same_but f (km_words m) w3 /\
    (forall a, in_frame f a -> read_word w3 a = read_word w2 a).
Proof.
  intros Hok Hf w1 Hop Hsame. pose proof (managed_frame_ok m f Hok Hf) as Hfr. pose proof (pte_in_image m Hok) as Hpte.
  pose proof (managed_not_image m f _ Hok Hf Hpte) as Hout.
  exists (write_word w2 (pte m) 0). unfold with_temporary_frame, is_multiple_of. destruct Hf as [-> _]. cbn [Z.eqb negb].
  rewrite (rt_ready _ _ _ (mk_recovery m Hok)), (proj2 (Z.eqb_neq _ _)) by (pose proof (pte_nonzero m Hok); lia).
  rewrite (pte_clear m Hok), (window_translates m f Hok Hfr). cbn [negb orb Z.eqb tr_writable tr_frame].
  fold w1. rewrite Hop. split_and!; [done| |].
  - intros a Ha. rewrite read_write. case_decide as Heq; [by rewrite <-Heq, pte_clear|].
    rewrite (Hsame a Ha). unfold w1. by rewrite read_write, decide_False.
  - intros a Ha. rewrite read_write, decide_False; [done|]. by intros <-.
Qed.

(** *** What a task's frames hold *)

(** The link that fills an entry. *)
Definition link_at (links : list LinkSpec) (role : FrameRole) (i : Z) : option LinkSpec :=
  List.find (fun l => bool_decide (ln_parent l = role) && (ln_entry_index l =? i)) links.

(** The entry of a table: a link, a copy of the recovery root's entry, or nothing. *)
Definition table_entry (fs : list OwnedFrame) (links : list LinkSpec) (shared : bool) (recovery : Z -> Z)
    (role : FrameRole) (i : Z) : Z :=
  match link_at links role i with
  | Some l => Z.lor (default 0 (find_role fs (ln_child l))) (ln_flags l)
  | None => if bool_decide (role = Root) && shared && bool_decide (i ∈ SHARED_PML4_INDICES) then recovery i else 0
  end.

(** The entries of the recovery root. *)
Definition recovery_entry (m : Machine) (i : Z) : Z := read_word (km_words m) (entry_address (rs_root (km_recovery m)) i).

Record owns (m : Machine) (fs : list OwnedFrame) (links : list LinkSpec) (shared : bool)
    (data : FrameRole -> option (Z -> Z)) : Prop := {
  on_machine : machine_ok m;
  on_handed : Forall (fun f => handed_out (km_allocator m) (of_physical_start f)) fs;
  on_good : frames_good fs;
  on_tables : forall f i, f ∈ fs -> is_table_role (of_role f) = true -> index_ok i ->
    read_word (km_words m) (entry_address (of_physical_start f) i)
    = table_entry fs links shared (recovery_entry m) (of_role f) i;
  on_data : forall f g i, f ∈ fs -> is_table_role (of_role f) = false -> data (of_role f) = Some g -> index_ok i ->
    read_word (km_words m) (entry_address (of_physical_start f) i) = g i
}.

Lemma handed_managed m f : handed_out (km_allocator m) f -> managed m f.
Proof. by intros (? & ? & _). Qed.

Lemma owns_managed m fs links shared data f :
  owns m fs links shared data -> f ∈ fs -> managed m (of_physical_start f).
Proof. intros Ho Hf. apply handed_managed. by apply (proj1 (Forall_forall _ _) (on_handed _ _ _ _ _ Ho)). Qed.

(** Different frames of a good list are disjoint. *)
Lemma frames_disjoint fs f g a :
  frames_good fs -> f ∈ fs -> g ∈ fs -> f <> g -> in_frame (of_physical_start g) a -> ~ in_frame (of_physical_start f) a.
Proof.
  intros (Hal & Hnd & _) Hf Hg Hne Ha Hb.
  pose proof (proj1 (Forall_forall _ _) Hal f Hf) as Hfa. pose proof (proj1 (Forall_forall _ _) Hal g Hg) as Hga.
  cbn in Hfa, Hga. assert (Heq : of_physical_start f = of_physical_start g).
  { rewrite (in_frame_page _ _ Hfa Hb). symmetry. by apply in_frame_page. }
  apply Hne. apply list_elem_of_lookup in Hf as [i Hi], Hg as [j Hj].
  assert (i = j); [|congruence]. apply (NoDup_lookup _ i j (of_physical_start f) Hnd).
  - by rewrite list_lookup_fmap, Hi.
  - by rewrite list_lookup_fmap, Hj, Heq.
Qed.

(** A role names one frame. *)
Lemma find_role_elem fs role p :
  find_role fs role = Some p -> mkFrame role p ∈ fs.
Proof.
  unfold find_role. destruct (List.find _ fs) as [f|] eqn:Hf; [|done]. intros [= <-].
  apply List.find_some in Hf as [Hin Hr]. apply bool_decide_eq_true in Hr as <-. destruct f. by apply list_elem_of_In.
Qed.

Lemma same_role fs f g : frames_good fs -> f ∈ fs -> g ∈ fs -> of_role f = of_role g -> f = g.
Proof.
  intros (_ & _ & Hnd) Hf Hg Heq. apply list_elem_of_lookup in Hf as [i Hi], Hg as [j Hj].
  assert (i = j); [|congruence]. apply (NoDup_lookup _ i j (of_role f) Hnd).
  - by rewrite list_lookup_fmap, Hi.
  - by rewrite list_lookup_fmap, Hj, Heq.
Qed.

Lemma recovery_entry_words m w i :
  machine_ok m -> (forall a, in_image linkage a -> read_word w a = read_word (km_words m) a) -> index_ok i ->
  recovery_entry (set_words m w) i = recovery_entry m i.
Proof.
  intros Hok Hw Hi. unfold recovery_entry. cbn [km_words set_words km_recovery]. apply Hw.
  rewrite (rt_root _ _ _ (mk_recovery m Hok)). apply pool_in_image; [|done]. unfold BOOTSTRAP_PAGE_TABLE_FRAMES. lia.
Qed.

(** A shared index is the index of an entry. *)
Lemma shared_index_ok i : i ∈ SHARED_PML4_INDICES -> index_ok i.
Proof. unfold SHARED_PML4_INDICES, index_ok. rewrite !elem_of_cons, elem_of_nil. lia. Qed.

Lemma table_entry_recovery fs links shared recovery recovery' role i :
  (forall j, index_ok j -> recovery' j = recovery j) ->
  table_entry fs links shared recovery' role i = table_entry fs links shared recovery role i.
Proof.
  intros Hr. unfold table_entry. destruct (link_at links role i); [done|].
  destruct (_ && _ && _) eqn:E; [|done]. rewrite !andb_true_iff in E. destruct E as [_ E%bool_decide_eq_true].
  by apply Hr, shared_index_ok.
Qed.

(** A write to one table. *)
Lemma owns_write m fs links shared data f w links' shared' :
  owns m fs links shared data -> f ∈ fs -> is_table_role (of_role f) = true ->
  same_but (of_physical_start f) (km_words m) w ->
  (forall role i, role <> of_role f -> table_entry fs links' shared' (recovery_entry m) role i
                                      = table_entry fs links shared (recovery_entry m) role i) ->
  (forall i, index_ok i -> read_word w (entry_address (of_physical_start f) i)
                           = table_entry fs links' shared' (recovery_entry m) (of_role f) i) ->
  owns (set_words m w) fs links' shared' data.
Proof.
  intros Ho Hf Ht Hsame Hother Hnew. pose proof (on_machine _ _ _ _ _ Ho) as Hok.
  pose proof (owns_managed _ _ _ _ _ _ Ho Hf) as Hmf. pose proof (on_good _ _ _ _ _ Ho) as Hgood.
  assert (Himg : forall a, in_image linkage a -> read_word w a = read_word (km_words m) a).
  { intros a Ha. apply Hsame. by eapply managed_not_image. }
  assert (Hkeep : forall g i, g ∈ fs -> g <> f -> index_ok i ->
    read_word w (entry_address (of_physical_start g) i) = read_word (km_words m) (entry_address (of_physical_start g) i)).
  { intros g i Hg Hne Hi. apply Hsame. eapply (frames_disjoint fs f g); try congruence. by apply entry_in_frame. }
  split; [by eapply machine_ok_same_but|apply Ho|done| |].
  - intros g i Hg Hgt Hi. cbn [km_words set_words].
    rewrite (table_entry_recovery _ _ _ (recovery_entry m)) by (intros; by apply recovery_entry_words).
    destruct (decide (g = f)) as [->|Hne]; [by apply Hnew|].
    rewrite Hkeep by done. rewrite (on_tables _ _ _ _ _ Ho g i) by done. symmetry. apply Hother.
    intros Heq. apply Hne. by apply (same_role fs).
  - intros g d i Hg Hgt Hd Hi. cbn [km_words set_words]. rewrite Hkeep; [by eapply (on_data _ _ _ _ _ Ho)|done| |done].
    intros ->. by rewrite Ht in Hgt.
Qed.

(** *** Links *)

(** The link may be installed next. *)
Record link_ok (links : list LinkSpec) (link : LinkSpec) : Prop := {
  lk_table : is_table_role (ln_parent link) = true;
  lk_index : index_ok (ln_entry_index link);
  lk_fresh : link_at links (ln_parent link) (ln_entry_index link) = None;
  lk_unshared : ~ (ln_parent link = Root /\ ln_entry_index link ∈ SHARED_PML4_INDICES);
  lk_flags : flags_ok (ln_flags link) /\ Z.land (ln_flags link) PRESENT <> 0
}.

Lemma link_at_snoc links link role i :
  link_at (links ++ [link]) role i =
  match link_at links role i with
  | Some l => Some l
  | None => if bool_decide (ln_parent link = role) && (ln_entry_index link =? i) then Some link else None
  end.
Proof.
  unfold link_at. induction links as [|l links IH]; [done|]. cbn [app List.find].
  by destruct (bool_decide (ln_parent l = role) && (ln_entry_index l =? i)).
Qed.

(** Before the link is installed its entry is zero; afterwards it is the only change. *)
Lemma table_entry_before fs links link shared recovery :
  link_ok links link -> table_entry fs links shared recovery (ln_parent link) (ln_entry_index link) = 0.
Proof.
  intros [_ _ Hf Hu _]. unfold table_entry. rewrite Hf. destruct (_ && _ && _) eqn:E; [|done].
  rewrite !andb_true_iff, !bool_decide_eq_true in E. tauto.
Qed.

Lemma table_entry_snoc fs links link shared recovery role i c :
  link_ok links link -> find_role fs (ln_child link) = Some c ->
  table_entry fs (links ++ [link]) shared recovery role i =
  if decide (role = ln_parent link /\ i = ln_entry_index link) then Z.lor c (ln_flags link)
  else table_entry fs links shared recovery role i.
Proof.
  intros [_ _ Hf _ _] Hc. unfold table_entry. rewrite link_at_snoc. case_decide as H.
  - destruct H as [-> ->]. rewrite Hf, bool_decide_eq_true_2, Z.eqb_refl by done. cbn [andb]. by rewrite Hc.
  - destruct (link_at links role i); [done|].
    destruct (bool_decide_reflect (ln_parent link = role)), (Z.eqb_spec (ln_entry_index link) i); cbn [andb]; try done.
    exfalso. by apply H.
Qed.

Lemma entry_in_range_ok i : index_ok i -> entry_in_range i = true.
Proof. intros Hi. unfold entry_in_range, ENTRY_COUNT. unfold index_ok in Hi. apply andb_true_iff. split; b2p; lia. Qed.

Lemma window_table f : page_table_bytes (mkWindow TEMPORARY_WINDOW PAGE_SIZE f) = Ok tt.
Proof. done. Qed.

(** The words of a managed frame are the same while the window is open. *)
Lemma window_read m f a v :
  machine_ok m -> managed m f -> in_frame f a ->
  read_word (write_word (km_words m) (pte m) v) a = read_word (km_words m) a.
Proof.
  intros Hok Hf Ha. rewrite read_write, decide_False; [done|]. intros <-.
  by eapply managed_not_image; [| |apply pte_in_image|].
Qed.

Section links.
Context (m : Machine) (fs : list OwnedFrame) (links : list LinkSpec) (link : LinkSpec) (shared : bool)
  (data : FrameRole -> option (Z -> Z)) (p c : Z).
Hypothesis Hlink : link_ok links link.
Hypothesis Hp : find_role fs (ln_parent link) = Some p.
Hypothesis Hc : find_role fs (ln_child link) = Some c.

Let parent_elem : mkFrame (ln_parent link) p ∈ fs := find_role_elem _ _ _ Hp.

Lemma parent_read links' i :
  owns m fs links' shared data -> index_ok i ->
  read_word (km_words m) (entry_address p i) = table_entry fs links' shared (recovery_entry m) (ln_parent link) i.
Proof. intros Ho Hi. exact (on_tables _ _ _ _ _ Ho _ i parent_elem (lk_table _ _ Hlink) Hi). Qed.

Lemma install_owns :
  owns m fs links shared data ->
  exists w, kb_install_link link p c m = Some (Ok tt, set_words m w) /\ same_but p (km_words m) w /\
    owns (set_words m w) fs (links ++ [link]) shared data.
Proof.
  intros Ho. pose proof (on_machine _ _ _ _ _ Ho) as Hok. pose proof (owns_managed _ _ _ _ _ _ Ho parent_elem) as Hmp.
  cbn in Hmp. pose proof Hlink as [Ht Hi _ _ _]. pose proof (entry_in_frame p _ Hi) as Hin.
  assert (H0 : read_word (km_words m) (entry_address p (ln_entry_index link)) = 0).
  { rewrite (parent_read links) by done. by apply table_entry_before. }
  destruct (window_exact m p (install_operation link c) (Ok tt)
    (write_word (write_word (km_words m) (pte m) (Z.lor p SUPERVISOR_RW_FLAGS))
       (entry_address p (ln_entry_index link)) (Z.lor c (ln_flags link))) Hok Hmp) as (w & Hw & Hsame & Hread).
  { unfold install_operation, on_table. rewrite window_table. cbn [wd_frame].
    rewrite entry_in_range_ok, (window_read m p), H0 by done. done. }
  { by apply write_same_but. }
  exists w. split_and!; [done|done|]. eapply (owns_write m fs links shared data _ w); [done|exact parent_elem|done|done| |].
  - intros role i Hne. cbn in Hne. by rewrite (table_entry_snoc _ _ _ _ _ _ _ _ Hlink Hc), decide_False by tauto.
  - intros i Hii. cbn [of_physical_start of_role]. rewrite Hread by (by apply entry_in_frame).
    rewrite read_write, (table_entry_snoc _ _ _ _ _ _ _ _ Hlink Hc).
    rewrite entry_address_eq_decide. case_decide as Heq.
    + by rewrite decide_True.
    + rewrite decide_False by (intros [_ ->]; done). rewrite (window_read m p) by (done || by apply entry_in_frame).
      by rewrite (parent_read links).
Qed.

Lemma remove_owns :
  owns m fs (links ++ [link]) shared data ->
  exists w, kb_remove_link link p c m = Some (Ok tt, set_words m w) /\ same_but p (km_words m) w /\
    owns (set_words m w) fs links shared data.
Proof.
  intros Ho. pose proof (on_machine _ _ _ _ _ Ho) as Hok. pose proof (owns_managed _ _ _ _ _ _ Ho parent_elem) as Hmp.
  cbn in Hmp. pose proof Hlink as [Ht Hi _ _ [Hfl Hpr]]. pose proof (entry_in_frame p _ Hi) as Hin.
  assert (Hcf : frame_ok c).
  { apply (managed_frame_ok m c Hok). apply (owns_managed _ _ _ _ _ _ Ho (find_role_elem _ _ _ Hc)). }
  assert (H0 : read_word (km_words m) (entry_address p (ln_entry_index link)) = Z.lor c (ln_flags link)).
  { rewrite (parent_read (links ++ [link])) by done.
    by rewrite (table_entry_snoc _ _ _ _ _ _ _ _ Hlink Hc), decide_True. }
  destruct (window_exact m p (remove_operation link c) (Ok tt)
    (write_word (write_word (km_words m) (pte m) (Z.lor p SUPERVISOR_RW_FLAGS))
       (entry_address p (ln_entry_index link)) 0) Hok Hmp) as (w & Hw & Hsame & Hread).
  { unfold remove_operation, on_table. rewrite window_table. cbn [wd_frame].
    rewrite entry_in_range_ok, (window_read m p), H0 by done.
    rewrite entry_frame, entry_flag, Z.eqb_refl by (done || apply PRESENT_bit).
    by rewrite (proj2 (Z.eqb_neq _ _) Hpr). }
  { by apply write_same_but. }
  exists w. split_and!; [done|done|]. eapply (owns_write m fs (links ++ [link]) shared data _ w); [done|exact parent_elem|done|done| |].
  - intros role i Hne. cbn in Hne. by rewrite (table_entry_snoc _ _ _ _ _ _ _ _ Hlink Hc), decide_False by tauto.
  - intros i Hii. cbn [of_physical_start of_role]. rewrite Hread by (by apply entry_in_frame).
    rewrite read_write, entry_address_eq_decide. case_decide as Heq.
    + rewrite <-Heq. by rewrite table_entry_before.
    + rewrite (window_read m p) by (done || by apply entry_in_frame).
      rewrite (parent_read (links ++ [link])) by done.
      rewrite (table_entry_snoc _ _ _ _ _ _ _ _ Hlink Hc), decide_False; [done|]. intros [_ ->]. done.
Qed.
End links.

(** *** The shared entries *)

Lemma fold_clear_read f l : forall w j,
  read_word (fold_left (fun w i => write_word w (entry_address f i) 0) l w) (entry_address f j) =
  if decide (j ∈ l) then 0 else read_word w (entry_address f j).
Proof.
  induction l as [|i l IH]; intros w j; cbn [fold_left]; [by rewrite decide_False by apply not_elem_of_nil|].
  rewrite IH, read_write, entry_address_eq_decide. destruct (decide (j ∈ l)).
  - by rewrite decide_True by (by right).
  - destruct (decide (i = j)) as [->|]; [by rewrite decide_True by left|].
    rewrite decide_False; [done|]. rewrite elem_of_cons. intros [->|]; done.
Qed.

Lemma fold_write_same_but f (v : Words -> Z -> Z) l : forall w,
  Forall index_ok l -> same_but f w (fold_left (fun w i => write_word w (entry_address f i) (v w i)) l w).
Proof.
  induction l as [|i l IH]; intros w Hl; cbn [fold_left]; [apply same_but_refl|]. apply Forall_cons in Hl as [Hi Hl].
  eapply same_but_trans; [by apply write_same_but|by apply IH].
Qed.

Lemma shared_indices_ok : Forall index_ok SHARED_PML4_INDICES.
Proof. apply Forall_forall. apply shared_index_ok. Qed.

Lemma copy_shared_read recovery f w j :
  (forall i, index_ok i -> ~ in_frame f (entry_address recovery i)) ->
  read_word (copy_shared recovery f w) (entry_address f j) =
  if decide (j ∈ SHARED_PML4_INDICES) then read_word w (entry_address recovery j) else read_word w (entry_address f j).
Proof.
  intros Hout. unfold copy_shared. pose proof shared_indices_ok as Hall. revert w Hall.
  generalize SHARED_PML4_INDICES as l.
  induction l as [|i l IH]; intros w Hall; cbn [fold_left]; [by rewrite decide_False by apply not_elem_of_nil|].
  apply Forall_cons in Hall as [Hi Hl]. rewrite IH by done.
  assert (Hrec : forall k, index_ok k -> read_word (write_word w (entry_address f i) (read_word w (entry_address recovery i)))
    (entry_address recovery k) = read_word w (entry_address recovery k)).
  { intros k Hk. by apply (write_same_but f i), Hout. }
  destruct (decide (j ∈ l)) as [Hj|Hj].
  - rewrite decide_True by (by right). apply Hrec. by apply (proj1 (Forall_forall _ _) Hl).
  - rewrite read_write, entry_address_eq_decide. destruct (decide (i = j)) as [->|]; [by rewrite decide_True by left|].
    rewrite decide_False; [done|]. rewrite elem_of_cons. intros [->|]; done.
Qed.

Lemma copy_shared_same_but recovery f w : same_but f w (copy_shared recovery f w).
Proof. apply (fold_write_same_but f (fun w i => read_word w (entry_address recovery i))), shared_indices_ok. Qed.

Lemma root_in_image m i : machine_ok m -> index_ok i -> in_image linkage (entry_address (rs_root (km_recovery m)) i).
Proof.
  intros Hok Hi. rewrite (rt_root _ _ _ (mk_recovery m Hok)). apply pool_in_image; [|done].
  unfold BOOTSTRAP_PAGE_TABLE_FRAMES. lia.
Qed.

Lemma clear_owns m fs data p :
  owns m fs [] true data -> find_role fs Root = Some p ->
  exists w, kb_clear_shared_entries p m = Some (Ok tt, set_words m w) /\ same_but p (km_words m) w /\
    owns (set_words m w) fs [] false data.
Proof.
  intros Ho Hp%find_role_elem. pose proof (on_machine _ _ _ _ _ Ho) as Hok.
  pose proof (owns_managed _ _ _ _ _ _ Ho Hp) as Hmp. cbn in Hmp.
  destruct (window_exact m p clear_operation (Ok tt)
    (fold_left (fun w index => write_word w (entry_address p index) 0) SHARED_PML4_INDICES
      (write_word (km_words m) (pte m) (Z.lor p SUPERVISOR_RW_FLAGS))) Hok Hmp) as (w & Hw & Hsame & Hread); [done| |].
  { apply (fold_write_same_but p (fun _ _ => 0)), shared_indices_ok. }
  exists w. split_and!; [done|done|]. eapply (owns_write m fs [] true data _ w); [done|exact Hp|done|done| |].
  - intros role i Hne. cbn [of_role] in Hne. unfold table_entry. cbn [link_at List.find].
    by rewrite bool_decide_eq_false_2.
  - intros i Hi. cbn [of_physical_start of_role]. rewrite Hread by (by apply entry_in_frame).
    rewrite fold_clear_read. case_decide as Hin; [done|].
    rewrite (window_read m p) by (done || by apply entry_in_frame).
    change (read_word (km_words m) (entry_address p i)) with (read_word (km_words m) (entry_address (of_physical_start (mkFrame Root p)) i)).
    rewrite (on_tables _ _ _ _ _ Ho _ i Hp eq_refl Hi). unfold table_entry. cbn [link_at List.find of_role].
    by rewrite (bool_decide_eq_false_2 (i ∈ _)).
Qed.

(** Without a root the flag says nothing. *)
Lemma owns_no_root m fs links data :
  owns m fs links true data -> find_role fs Root = None -> owns m fs links false data.
Proof.
  intros [H1 H2 H3 H4 H5] Hr. split; try done. intros f i Hf Ht Hi. rewrite H4 by done. unfold table_entry.
  destruct (link_at _ _ _); [done|]. rewrite (bool_decide_eq_false_2 (of_role f = Root)); [done|]. intros Heq.
  destruct (find_role_Some fs Root) as [q Hq]; [|congruence]. apply list_elem_of_fmap. by exists f.
Qed.

(** *** The check that nothing reaches the frames *)

(** The owner sees only the words. *)
Lemma owns_ext m fs links shared data w :
  (forall a, read_word w a = read_word (km_words m) a) ->
  owns m fs links shared data -> owns (set_words m w) fs links shared data.
Proof.
  intros Hw [H1 H2 H3 H4 H5]. split; [by apply machine_ok_words|done|done| |].
  - intros f i Hf Ht Hi. cbn [km_words set_words]. rewrite Hw, (H4 f i) by done. symmetry. apply table_entry_recovery.
    intros j Hj. by apply recovery_entry_words.
  - intros f g i Hf Ht Hg Hi. cbn [km_words set_words]. rewrite Hw. by eapply H5.
Qed.

Lemma table_entry_empty fs recovery role i : table_entry fs [] false recovery role i = 0.
Proof. unfold table_entry. cbn [link_at List.find]. by rewrite andb_false_r. Qed.

Lemma check_empty_owns fs data frames : forall m,
  owns m fs [] false data -> (forall f, f ∈ frames -> f ∈ fs) ->
  exists w, check_empty frames m = Some (Ok tt, set_words m w) /\
    (forall a, read_word w a = read_word (km_words m) a).
Proof.
  induction frames as [|f frames IH]; intros m Ho Hin; cbn [check_empty].
  { exists (km_words m). by destruct m. }
  assert (Hrest : forall g, g ∈ frames -> g ∈ fs) by (intros g Hg; apply Hin; by right).
  destruct (is_table_role (of_role f)) eqn:Ht; [|by apply IH].
  assert (Hf : f ∈ fs) by (apply Hin; left). pose proof (on_machine _ _ _ _ _ Ho) as Hok.
  pose proof (owns_managed _ _ _ _ _ _ Ho Hf) as Hmf.
  set (w1 := write_word (km_words m) (pte m) (Z.lor (of_physical_start f) SUPERVISOR_RW_FLAGS)).
  destruct (window_exact m (of_physical_start f) empty_operation (Ok tt) w1 Hok Hmf) as (w & -> & Hsame & Hread).
  { unfold empty_operation, on_table. rewrite window_table. cbn [wd_frame].
    destruct (existsb _ _) eqn:E; [|done]. exfalso. apply existsb_exists in E as (e & He & Hz).
    unfold frame_entries in He. apply in_map_iff in He as (i & <- & Hi%list_elem_of_In%entry_indices_elem).
    unfold w1 in Hz. rewrite (window_read m (of_physical_start f)) in Hz by (done || by apply entry_in_frame).
    rewrite (on_tables _ _ _ _ _ Ho f i Hf Ht Hi), table_entry_empty in Hz. done. }
  { apply same_but_refl. }
  assert (Hw : forall a, read_word w a = read_word (km_words m) a).
  { intros a. destruct (decide (in_frame (of_physical_start f) a)) as [Ha|Ha]; [|by apply Hsame].
    rewrite Hread by done. unfold w1. by apply (window_read m (of_physical_start f)). }
  destruct (IH (set_words m w)) as (w' & -> & Hw'); [by apply owns_ext|done|].
  exists w'. split; [done|]. intros a. rewrite Hw'. apply Hw.
Qed.

(** Every entry in use in the pool is clear or maps the image. *)
Lemma pool_entry_image m t i :
  machine_ok m -> (t < rs_pool_used (km_recovery m))%nat -> index_ok i ->
  let e := entry (km_words m) t i in
  Z.land e PRESENT <> 0 -> in_image linkage (Z.land e ENTRY_ADDRESS_MASK).
Proof.
  intros Hok Ht Hi e He. destruct (mk_recovery m Hok) as [_ _ (paths & leaf & c & Hr & H0 & Hc & _ & _ & Himg)].
  pose proof (rp_used _ _ _ _ Hr) as Hu. cbn in Hu. destruct (lookup_lt_is_Some_2 paths t) as [p Hp]; [lia|].
  pose proof (proj1 (Forall_lookup _ _) (rp_paths _ _ _ _ Hr) _ _ Hp) as [Hlen _].
  destruct (decide (length p = 3)%nat) as [H3|H3].
  - pose proof (rp_leaf _ _ _ _ Hr t p i Hp H3 Hi) as Hleaf. cbn [bs_words] in Hleaf. unfold e in *.
    rewrite Hleaf in *. by apply Himg.
  - destruct (decide (p ++ [i] ∈ paths)) as [Hin|Hnot].
    + apply list_elem_of_lookup in Hin as [d Hd]. unfold e.
      pose proof (rp_link _ _ _ _ Hr t p i d Hp Hd) as Hl. cbn [bs_words] in Hl. rewrite Hl. apply lookup_lt_Some in Hd. pose proof (rp_bound _ _ _ _ Hr).
      rewrite (proj2 (link_reads linkage pool_fits d ltac:(lia))). apply table_in_image. lia.
    + exfalso. apply He. unfold e.
      pose proof (rp_unlinked _ _ _ _ Hr t p i Hp ltac:(lia) Hi Hnot) as Hz. cbn [bs_words] in Hz. by rewrite Hz.
Qed.

Lemma pool_unreached m fs links shared data :
  owns m fs links shared data -> pool_reaches linkage (km_words m) (rs_pool_used (km_recovery m)) fs = false.
Proof.
  intros Ho. pose proof (on_machine _ _ _ _ _ Ho) as Hok. unfold pool_reaches.
  destruct (existsb _ (seq _ _)) eqn:E; [|done]. exfalso. apply existsb_exists in E as (t & Ht%in_seq & E).
  apply existsb_exists in E as (e & He & E). unfold frame_entries in He.
  apply in_map_iff in He as (i & <- & Hi%list_elem_of_In%entry_indices_elem). unfold maps_owned in E.
  apply andb_true_iff in E as [Hp E]. apply existsb_exists in E as (f & Hf%list_elem_of_In & Heq). b2p.
  pose proof (pool_entry_image m t i Hok ltac:(lia) Hi) as Himg. cbn zeta in Himg.
  unfold PageTablesProofs.entry, PageTablesProofs.table in Himg. rewrite <-Heq in Himg.
  specialize (Himg Hp). apply (managed_not_image m _ _ Hok (owns_managed _ _ _ _ _ _ Ho Hf) Himg).
  page_unfold. lia.
Qed.

Lemma verify_owns m fs data :
  owns m fs [] false data ->
  exists w, kb_verify_unreachable linkage fs m = Some (Ok tt, set_words m w) /\
    (forall a, read_word w a = read_word (km_words m) a).
Proof.
  intros Ho. pose proof (on_machine _ _ _ _ _ Ho) as Hok. unfold kb_verify_unreachable.
  rewrite (mk_cr3 m Hok), Z.eqb_refl, (pte_clear m Hok). cbn [negb Z.eqb orb].
  destruct (check_empty_owns fs data fs m Ho ltac:(done)) as (w & -> & Hw). exists w.
  pose proof (owns_ext _ _ _ _ _ w Hw Ho) as Ho'.
  assert (Hused : (rs_pool_used (km_recovery m) <= BOOTSTRAP_PAGE_TABLE_FRAMES)%nat).
  { destruct (mk_recovery m Hok) as [_ _ (paths & leaf & c & Hr & _)]. pose proof (rp_used _ _ _ _ Hr) as Hu.
    cbn in Hu. rewrite Hu. apply (rp_bound _ _ _ _ Hr). }
  rewrite (proj2 (Nat.leb_le _ _) Hused). cbn [negb].
  pose proof (pool_unreached _ _ _ _ _ Ho') as Hreach. cbn [km_recovery set_words] in Hreach. by rewrite Hreach.
Qed.

(** *** Preparing a frame *)

Definition FRAME_BYTES : nat := 8 * ENTRY_COUNT.

(** The words of a frame that starts with the probe. *)
Definition image_words (probe : list Z) : list Z :=
  words_of ENTRY_COUNT (probe ++ replicate (FRAME_BYTES - length probe) 0).

Lemma words_of_length n : forall bytes, length (words_of n bytes) = n.
Proof. induction n as [|n IH]; intros bytes; cbn [words_of length]; [done|]. by rewrite IH. Qed.

Lemma image_words_length probe : length (image_words probe) = ENTRY_COUNT.
Proof. apply words_of_length. Qed.

Lemma zero_frame_bytes w f :
  (forall i, index_ok i -> read_word w (entry_address f i) = 0) -> frame_bytes w f = replicate FRAME_BYTES 0.
Proof.
  intros Hz. unfold frame_bytes, frame_entries.
  rewrite (map_ext_in _ (fun _ => 0)) by (intros i Hi%list_elem_of_In%entry_indices_elem; by apply Hz).
  vm_compute. reflexivity.
Qed.

Lemma probe_bytes_agree w w' generation journaled :
  (forall a, lk_text_start linkage <= a < lk_text_end linkage -> read_word w' a = read_word w a) ->
  probe_bytes probes w' generation journaled = probe_bytes probes w generation journaled.
Proof.
  intros Hw. unfold probe_bytes. destruct (_ =? TASK_GENERATION); [done|].
  destruct (probe_range probes generation journaled) as [[start end_]|] eqn:E; [|done].
  assert (Hin : lk_text_start linkage <= start /\ end_ <= lk_text_end linkage).
  { pose proof (il_probes _ _ layout) as Hp. rewrite !Forall_cons in Hp. unfold probe_range in E.
    repeat case_match; simplify_eq; repeat match goal with H : _ = (start, end_) |- _ => rewrite H in Hp end;
      cbn in Hp; tauto. }
  unfold checked_sub. destruct (Z.leb_spec start end_); [|done]. destruct (_ && _); [|done].
  f_equal. unfold read_bytes. apply map_ext_in. intros a Ha%list_elem_of_In. rewrite elem_of_seqZ in Ha.
  unfold byte_at. rewrite Hw; [done|]. pose proof (il_text _ _ layout) as Hal.
  pose proof (Z.mod_pos_bound a 8). pose proof (Z.div_mod a 8). pose proof (Z.div_mod (lk_text_start linkage) 8). lia.
Qed.

Lemma probe_bytes_length w generation journaled probe :
  probe_bytes probes w generation journaled = Ok probe -> (length probe <= FRAME_BYTES)%nat.
Proof.
  unfold probe_bytes. destruct (_ =? TASK_GENERATION); [intros [= <-]; apply Nat.leb_le; vm_compute; done|].
  destruct (probe_range _ _ _) as [[start end_]|]; [|done]. destruct (checked_sub _ _) as [n|]; [|done].
  destruct (_ && _) eqn:E; [|done]. apply andb_true_iff in E as [_ E]. b2p. intros [= <-].
  unfold read_bytes. rewrite length_map, length_seqZ. unfold FRAME_BYTES, ENTRY_COUNT, PAGE_SIZE in *. lia.
Qed.

(** What the frames of a task start with: the probe, and zeros. *)
Definition user_data (m : Machine) (generation : Z) (role : FrameRole) : option (Z -> Z) :=
  match role with
  | Text =>
      match probe_bytes probes (km_words m) generation (km_journaled_probes m) with
      | Ok probe => Some (fun i => nth (Z.to_nat i) (image_words probe) 0)
      | Err _ => None
      end
  | Stack => Some (fun _ => 0)
  | _ => None
  end.

Definition prepare_result (m : Machine) (generation : Z) (role : FrameRole) : result unit IsolationError :=
  match role with
  | Text =>
      match probe_bytes probes (km_words m) generation (km_journaled_probes m) with
      | Ok _ => Ok tt
      | Err e => Err e
      end
  | _ => Ok tt
  end.

(** One more frame with its first contents. *)
Lemma owns_extend m fs data role f w :
  owns m fs [] true data -> handed_out (km_allocator m) f -> f ∉ map of_physical_start fs -> role ∉ map of_role fs ->
  same_but f (km_words m) w ->
  (is_table_role role = true -> forall i, index_ok i ->
     read_word w (entry_address f i) = table_entry fs [] true (recovery_entry m) role i) ->
  (is_table_role role = false -> forall g i, data role = Some g -> index_ok i -> read_word w (entry_address f i) = g i) ->
  owns (set_words m w) (fs ++ [mkFrame role f]) [] true data.
Proof.
  intros [H1 H2 H3 H4 H5] Hh Hf Hr Hsame Ht Hd.
  assert (Himg : forall a, in_image linkage a -> read_word w a = read_word (km_words m) a).
  { intros a Ha. apply Hsame. apply (managed_not_image m f a H1 (handed_managed m f Hh) Ha). }
  assert (Hkeep : forall g i, g ∈ fs -> index_ok i ->
    read_word w (entry_address (of_physical_start g) i) = read_word (km_words m) (entry_address (of_physical_start g) i)).
  { intros g i Hg Hi. apply Hsame. intros Hin. apply Hf, list_elem_of_fmap. exists g. split; [|done].
    rewrite (in_frame_page f _ (proj1 Hh) Hin). symmetry. apply in_frame_page; [|by apply entry_in_frame].
    by apply (proj1 (Forall_forall _ _) (proj1 H3)). }
  split.
  - by apply machine_ok_words.
  - cbn [km_allocator set_words]. apply Forall_app_2; [done|]. by apply Forall_singleton.
  - destruct H3 as (Hal & Hn1 & Hn2). split_and!.
    + apply Forall_app_2; [done|]. apply Forall_singleton. apply Hh.
    + rewrite map_app. apply NoDup_app. split_and!; [done| |apply NoDup_singleton].
      intros x Hx ->%list_elem_of_singleton. done.
    + rewrite map_app. apply NoDup_app. split_and!; [done| |apply NoDup_singleton].
      intros x Hx ->%list_elem_of_singleton. done.
  - intros g i [Hg|Hg%list_elem_of_singleton]%elem_of_app Hgt Hi; cbn [km_words set_words];
      rewrite (table_entry_recovery _ _ _ (recovery_entry m)) by (intros; by apply recovery_entry_words).
    + rewrite Hkeep by done. by rewrite (H4 g i).
    + subst g. cbn [of_physical_start of_role] in *. by rewrite Ht.
  - intros g d i [Hg|Hg%list_elem_of_singleton]%elem_of_app Hgt Hgd Hi; cbn [km_words set_words].
    + rewrite Hkeep by done. by apply (H5 g d i).
    + subst g. by apply Hd.
Qed.

#[local] Opaque fill_zero write_entries image_words copy_shared.

Section prepare.
Context (m : Machine) (f : Z) (generation : Z).
Hypothesis Hok : machine_ok m.
Hypothesis Hf : managed m f.

Let bytes : Window := mkWindow TEMPORARY_WINDOW PAGE_SIZE f.
Let w1 : Words := write_word (km_words m) (pte m) (Z.lor f SUPERVISOR_RW_FLAGS).

(** The memory the closure leaves. *)
Definition prepared (role : FrameRole) : Words :=
  match role with
  | Root => copy_shared (rs_root (km_recovery m)) f (fill_zero bytes w1)
  | Text =>
      match probe_bytes probes (km_words m) generation (km_journaled_probes m) with
      | Ok probe => write_entries f 0 (image_words probe) (fill_zero bytes w1)
      | Err _ => fill_zero bytes w1
      end
  | _ => fill_zero bytes w1
  end.

Lemma text_outside a : lk_text_start linkage <= a < lk_text_end linkage ->
  read_word (fill_zero bytes w1) a = read_word (km_words m) a.
Proof.
  intros Ha. destruct layout as [Hs Hp _ _ _]. assert (Himg : in_image linkage a) by (unfold in_image; lia).
  rewrite (fill_zero_same_but bytes w1 a) by (by apply (managed_not_image m f a Hok Hf Himg)).
  unfold w1. rewrite read_write, decide_False; [done|]. intros <-.
  destruct (mk_recovery m Hok) as [_ _ (paths & leaf & c & Hr & H0 & Hc & Hpte & _)]. rewrite Hpte in Ha.
  destruct pool_fits as [_ _]. pose proof (index_bounds TEMPORARY_WINDOW 12) as Hi. unfold index_ok in Hi.
  change (pml1_index TEMPORARY_WINDOW) with (Z.land (TEMPORARY_WINDOW ≫ 12) 511) in Ha.
  unfold entry_address, PageTablesProofs.table in Ha. page_unfold. lia.
Qed.

Lemma prepare_runs role :
  prepare_operation probes generation role (rs_root (km_recovery m)) (km_journaled_probes m) bytes w1
  = Some (prepare_result m generation role, prepared role).
Proof.
  unfold prepare_operation, prepare_result, prepared. destruct role; try reflexivity.
  cbn [bool_decide decide decide_rel]. rewrite (bool_decide_eq_false_2 (Text = Root)), (bool_decide_eq_true_2 (Text = Text)) by done.
  rewrite (probe_bytes_agree (km_words m)) by apply text_outside.
  destruct (probe_bytes _ _ _ _) as [probe|e] eqn:E; [|done].
  unfold copy_to_start. cbn [wd_frame bytes].
  rewrite zero_frame_bytes by (intros i Hi; by apply (fill_zero_read bytes w1)). rewrite length_replicate.
  pose proof (probe_bytes_length _ _ _ _ E) as Hlen. rewrite (proj2 (Nat.leb_le _ _) Hlen). cbn [mbind option_bind].
  by rewrite drop_replicate.
Qed.

Lemma prepared_same_but role : same_but f w1 (prepared role).
Proof.
  pose proof (fill_zero_same_but bytes w1) as H0. cbn [wd_frame bytes] in H0.
  unfold prepared. destruct role; try done.
  - eapply same_but_trans; [exact H0|]. apply copy_shared_same_but.
  - destruct (probe_bytes _ _ _ _) as [probe|e]; [|done]. eapply same_but_trans; [exact H0|].
    apply write_entries_same_but; [done|]. rewrite image_words_length. unfold ENTRY_COUNT. lia.
Qed.

Lemma prepared_table role fs i :
  is_table_role role = true -> index_ok i ->
  read_word (prepared role) (entry_address f i) = table_entry fs [] true (recovery_entry m) role i.
Proof.
  intros Ht Hi. pose proof (fill_zero_read bytes w1 i Hi) as H0. cbn [wd_frame bytes] in H0.
  unfold prepared, table_entry. cbn [link_at List.find]. destruct role; try done; try exact H0.
  rewrite copy_shared_read.
  - rewrite (bool_decide_eq_true_2 (Root = Root)) by done. cbn [andb]. case_decide as Hin; [|by rewrite bool_decide_eq_false_2].
    rewrite bool_decide_eq_true_2 by done. unfold recovery_entry.
    pose proof (root_in_image m i Hok Hi) as Himg.
    rewrite (fill_zero_same_but bytes w1) by (by apply (managed_not_image m f _ Hok Hf Himg)).
    unfold w1. rewrite read_write, decide_False; [done|]. intros Heq.
    destruct (mk_recovery m Hok) as [_ Hroot (paths & leaf & c & Hr & H00 & Hc & Hpte & _)].
    rewrite Hroot, Hpte in Heq. apply entry_address_inj in Heq as [-> _]; [|apply index_bounds|done].
    rewrite H00 in Hc. done.
  - intros j Hj. apply (managed_not_image m f _ Hok Hf), root_in_image; done.
Qed.

Lemma prepared_data role g i :
  user_data m generation role = Some g -> index_ok i -> read_word (prepared role) (entry_address f i) = g i.
Proof.
  intros Hg Hi. pose proof (fill_zero_read bytes w1 i Hi) as H0. cbn [wd_frame bytes] in H0.
  unfold user_data in Hg. unfold prepared. destruct role; try discriminate Hg.
  - destruct (probe_bytes _ _ _ _) as [probe|e]; [|done]. apply (inj Some) in Hg. rewrite <-Hg.
    pose proof (write_frame_read f (image_words probe) (fill_zero bytes w1) i) as Hw.
    rewrite image_words_length in Hw. specialize (Hw eq_refl Hi).
    symmetry in Hw. by rewrite (nth_lookup_Some _ _ _ _ Hw).
  - apply (inj Some) in Hg. by rewrite <-Hg.
Qed.

Lemma prepare_exact role :
  exists w, kb_prepare_frame probes generation role f m = Some (prepare_result m generation role, set_words m w) /\
    same_but f (km_words m) w /\ (forall a, in_frame f a -> read_word w a = read_word (prepared role) a).
Proof.
  exact (window_exact m f _ _ _ Hok Hf (prepare_runs role) (prepared_same_but role)).
Qed.
End prepare.

Lemma prepare_owns m fs generation role f :
  let data := user_data m generation in
  owns m fs [] true data -> handed_out (km_allocator m) f -> f ∉ map of_physical_start fs -> role ∉ map of_role fs ->
  exists w, kb_prepare_frame probes generation role f m = Some (prepare_result m generation role, set_words m w) /\
    same_but f (km_words m) w /\ owns (set_words m w) (fs ++ [mkFrame role f]) [] true data.
Proof.
  intros data Ho Hh Hf Hr. pose proof (on_machine _ _ _ _ _ Ho) as Hok. pose proof (handed_managed m f Hh) as Hm.
  destruct (prepare_exact m f generation Hok Hm role) as (w & Hw & Hsame & Hread). exists w. split_and!; [done|done|].
  apply (owns_extend m); try done.
  - intros Ht i Hi. rewrite Hread by (by apply entry_in_frame). by apply prepared_table.
  - intros _ g i Hg Hi. rewrite Hread by (by apply entry_in_frame). by apply prepared_data.
Qed.

(** The first contents depend only on the image. *)
Lemma user_data_agree m m' generation role :
  (forall a, in_image linkage a -> read_word (km_words m') a = read_word (km_words m) a) ->
  km_journaled_probes m' = km_journaled_probes m -> user_data m' generation role = user_data m generation role.
Proof.
  intros Hw Hj. unfold user_data. destruct role; try done. rewrite Hj, (probe_bytes_agree (km_words m)); [done|].
  intros a Ha. apply Hw. destruct layout as [Hs _ _ _ _]. unfold in_image. lia.
Qed.

(** *** Allocating and returning *)

Lemma owns_allocator m fs links shared data a :
  owns m fs links shared data -> fa_inv a -> live_managed a = live_managed (km_allocator m) ->
  Forall (fun f => handed_out a (of_physical_start f)) fs ->
  owns (set_allocator m a) fs links shared data.
Proof.
  intros [[H1 H2 H3 H4] Hh Hg Ht Hd] Ha HM Hh'. split; try done. split; try done. cbn. by rewrite HM.
Qed.
End backend.
