(* ===== verification/KernelSpaces.v ===== *)
(** * Task address spaces on the kernel's backend

    Construction, rollback and teardown of [AddressSpace] run on
    [KernelBackend]: on a well-formed machine no call of the backend fails
    except for want of frames or a probe, nothing stops, and memory ends as the
    links say. *)

From stdpp Require Import gmap.
From S2P Require Import Prelude.
From S2P Require Import Panic.
From S2P Require Import FrameAllocator.
From S2P Require Import Extents.
From S2P Require Import FrameInit.
From S2P Require Import FrameReturns.
From S2P Require Import AddressSpace.
From S2P Require Import AddressSpaceProofs.
From S2P Require Import PageTables.
From S2P Require Import PageTablesProofs.
From S2P Require Import PageTablesTheorems.
From S2P Require Import KernelBackend.
From S2P Require Import KernelBackendProofs.

#[local] Open Scope backend_scope.

(** ** A logic for runs on a machine *)

(** The run does not stop, and its value and final machine satisfy [Q]. *)
Definition kruns {A} (p : P (option Machine) A) (m : Machine) (Q : A -> Machine -> Prop) : Prop :=
  exists a m', p (Some m) = Some (a, Some m') /\ Q a m'.

Lemma kruns_ret {A} (a : A) m (Q : A -> Machine -> Prop) : Q a m -> kruns (retP a) m Q.
Proof. intros HQ. by exists a, m. Qed.

Lemma kruns_pure {A} (o : option A) a m (Q : A -> Machine -> Prop) : o = Some a -> Q a m -> kruns (pureP o) m Q.
Proof. intros -> HQ. by exists a, m. Qed.

Lemma kruns_bind {A C} (p : P (option Machine) A) (k : A -> P (option Machine) C) m Q :
  kruns p m (fun a m' => kruns (k a) m' Q) -> kruns (let* x := p in k x) m Q.
Proof. intros (a & m' & Hp & Hk). unfold kruns, bindP. by rewrite Hp. Qed.

Lemma kruns_call {A} (k : K A) m r m' (Q : result A IsolationError -> Machine -> Prop) :
  k m = Some (r, m') -> Q r m' -> kruns (callP (method k)) m Q.
Proof. intros Hk HQ. exists r, m'. unfold callP, method. by rewrite Hk. Qed.

Lemma kruns_mono {A} (p : P (option Machine) A) m (Q R : A -> Machine -> Prop) :
  kruns p m Q -> (forall a m', Q a m' -> R a m') -> kruns p m R.
Proof. intros (a & m' & Hp & HQ) HR. exists a, m'. auto. Qed.

(** ** What a run leaves alone *)

(** Only memory in [X] and the free list have changed. *)
Record evolves (X : Z -> Prop) (m m' : Machine) : Prop := {
  ev_recovery : km_recovery m' = km_recovery m;
  ev_cr3 : km_cr3 m' = km_cr3 m;
  ev_probes : km_journaled_probes m' = km_journaled_probes m;
  ev_managed : live_managed (km_allocator m') = live_managed (km_allocator m);
  ev_words : forall a, ~ X a -> read_word (km_words m') a = read_word (km_words m) a
}.

Lemma evolves_refl X m : evolves X m m.
Proof. by split. Qed.

Lemma evolves_trans X m1 m2 m3 : evolves X m1 m2 -> evolves X m2 m3 -> evolves X m1 m3.
Proof.
  intros [A1 A2 A3 A4 A5] [B1 B2 B3 B4 B5]. split; try congruence. intros a Ha. by rewrite B5, A5.
Qed.

Lemma evolves_mono X Y m m' : (forall a, X a -> Y a) -> evolves X m m' -> evolves Y m m'.
Proof. intros HXY [H1 H2 H3 H4 H5]. split; try done. intros a Ha. apply H5. auto. Qed.

Lemma evolves_words X m w : (forall a, ~ X a -> read_word w a = read_word (km_words m) a) -> evolves X m (set_words m w).
Proof. intros Hw. by split. Qed.

Lemma evolves_allocator X m a :
  live_managed a = live_managed (km_allocator m) -> evolves X m (set_allocator m a).
Proof. intros HM. by split. Qed.

(** Some frame of the list holds the address. *)
Definition in_frames (fs : list OwnedFrame) (a : Z) : Prop := Exists (fun f => in_frame (of_physical_start f) a) fs.

Lemma in_frames_elem fs f a : f ∈ fs -> in_frame (of_physical_start f) a -> in_frames fs a.
Proof. intros Hf Ha. apply Exists_exists. by exists f. Qed.

(** A write to the frame of a role. *)
Lemma evolves_role fs role p m w :
  find_role fs role = Some p -> same_but p (km_words m) w -> evolves (in_frames fs) m (set_words m w).
Proof.
  intros Hp%find_role_elem Hw. apply evolves_words. intros a Ha. apply Hw. intros Hin. apply Ha.
  by apply (in_frames_elem _ _ _ Hp).
Qed.

Lemma build_link_ok n link : BUILD_LINKS !! n = Some link -> link_ok (take n BUILD_LINKS) link.
Proof.
  intros Hl. do 6 (destruct n as [|n]; [injection Hl as <-; split;
    [reflexivity|by vm_compute|reflexivity|intros [Hr Hs]; (discriminate Hr || (vm_compute in Hs; set_solver))|
     split; [by split|by vm_compute]]|]).
  by destruct n.
Qed.

Lemma all_roles_find fs role : map of_role fs = FrameRole_ALL -> exists f, find_role fs role = Some f.
Proof. intros Hall. apply find_role_Some. rewrite Hall. destruct role; unfold FrameRole_ALL; set_solver. Qed.

Lemma take_S_link n link : BUILD_LINKS !! n = Some link -> take (S n) BUILD_LINKS = take n BUILD_LINKS ++ [link].
Proof. apply take_S_r. Qed.

Section spaces.
Variables (linkage : Linkage) (probes : ProbeSymbols).
Hypothesis linkage_fits : linkage_ok linkage.
Hypothesis layout : image_layout linkage probes.
Notation machine_ok := (machine_ok linkage).
Notation owns := (owns linkage).
Notation user_data := (user_data probes).

#[local] Instance backend : AddressSpaceBackend (option Machine) IsolationError := KernelBackend linkage probes.

Lemma machine_ok_evolves X m m' :
  machine_ok m -> evolves X m m' -> fa_inv (km_allocator m') -> (forall a, X a -> ~ in_image linkage a) -> machine_ok m'.
Proof.
  intros [H1 H2 H3 H4] [E1 E2 E3 E4 E5] Ha HX. split; [done|by rewrite E4| |].
  - rewrite E1. eapply recovery_agree; [done..| |exact H3]. intros a Hi. apply E5. intros Hx. by apply (HX a).
  - unfold read_cr3. by rewrite E2, E1.
Qed.

(** *** Links *)

Lemma expect_runs l fs role v m (Q : Z -> Machine -> Prop) :
  ledger_is l fs -> find_role fs role = Some v -> Q v m -> kruns (expect_frame l role) m Q.
Proof.
  intros HL Hv HQ. unfold expect_frame. apply kruns_bind. eapply kruns_pure; [by apply frame_for_is|].
  rewrite Hv. by eapply kruns_pure.
Qed.

(** Removing the first [n] links, latest first. *)
Lemma remove_links_runs l fs data n : forall m,
  (n <= length BUILD_LINKS)%nat -> ledger_is l fs -> map of_role fs = FrameRole_ALL ->
  owns m fs (take n BUILD_LINKS) true data ->
  kruns (remove_links l (rev (take n BUILD_LINKS))) m (fun r m' =>
    r = Ok tt /\ owns m' fs [] true data /\ km_allocator m' = km_allocator m /\ evolves (in_frames fs) m m').
Proof.
  induction n as [|n IH]; intros m Hn HL Hall Ho.
  { apply kruns_ret. split_and!; [done|done|done|apply evolves_refl]. }
  destruct (lookup_lt_is_Some_2 BUILD_LINKS n ltac:(lia)) as [link Hlink].
  rewrite (take_S_link _ _ Hlink) in *. rewrite rev_app_distr. cbn [rev app remove_links].
  destruct (all_roles_find fs (ln_parent link) Hall) as [p Hp], (all_roles_find fs (ln_child link) Hall) as [c Hc].
  apply kruns_bind. eapply expect_runs; [done|exact Hp|]. apply kruns_bind. eapply expect_runs; [done|exact Hc|].
  destruct (remove_owns linkage probes linkage_fits layout m fs _ link true data p c (build_link_ok n link Hlink) Hp Hc Ho)
    as (w & Hw & Hsame & Ho').
  apply kruns_bind. eapply kruns_call; [exact Hw|]. eapply kruns_mono; [apply IH; (done || lia)|].
  intros r m' (-> & Hm' & Ha & He). split_and!; [done|done|done|]. eapply evolves_trans; [|exact He].
  exact (evolves_role _ _ _ _ _ Hp Hsame).
Qed.

(** Installing the links from the [n]-th on never fails. *)
Lemma build_links_runs o fs data k : forall n m,
  (n + k = length BUILD_LINKS)%nat -> ledger_is (ow_ledger o) fs -> map of_role fs = FrameRole_ALL ->
  owns m fs (take n BUILD_LINKS) true data ->
  kruns (build_links (drop n BUILD_LINKS) n o) m (fun (r : result nat (BuildFailure IsolationError)) m' =>
    r = Ok (length BUILD_LINKS) /\ owns m' fs BUILD_LINKS true data /\ km_allocator m' = km_allocator m /\
    evolves (in_frames fs) m m').
Proof.
  induction k as [|k IH]; intros n m Hn HL Hall Ho.
  { rewrite Nat.add_0_r in Hn. rewrite Hn, drop_all. rewrite Hn, firstn_all in Ho. apply kruns_ret.
    split_and!; [done|done|done|apply evolves_refl]. }
  destruct (lookup_lt_is_Some_2 BUILD_LINKS n ltac:(lia)) as [link Hlink].
  rewrite (drop_S _ _ _ Hlink). cbn [build_links].
  destruct (all_roles_find fs (ln_parent link) Hall) as [p Hp], (all_roles_find fs (ln_child link) Hall) as [c Hc].
  apply kruns_bind. eapply expect_runs; [done|exact Hp|]. apply kruns_bind. eapply expect_runs; [done|exact Hc|].
  destruct (install_owns linkage probes linkage_fits layout m fs _ link true data p c (build_link_ok n link Hlink) Hp Hc Ho)
    as (w & Hw & Hsame & Ho').
  apply kruns_bind. eapply kruns_call; [exact Hw|]. rewrite <-(take_S_link _ _ Hlink) in Ho'.
  eapply kruns_mono; [apply (IH (S n)); (done || lia)|].
  intros r m' (-> & Hm' & Ha & He). split_and!; [done|done|done|]. eapply evolves_trans; [|exact He].
  exact (evolves_role _ _ _ _ _ Hp Hsame).
Qed.

(** *** Releasing the frames *)

Lemma return_frames_runs fs : forall fuel o m fa',
  machine_ok m -> ledger_is (ow_ledger o) fs -> (length fs < fuel)%nat ->
  Forall (fun f => u64 (of_physical_start f)) fs ->
  returns (km_allocator m) (map of_physical_start fs) fa' ->
  kruns (return_frames fuel o) m (fun (ro : result unit IsolationError * AddressSpaceOwner) m' =>
    fst ro = Ok tt /\ same_owner o (snd ro) /\ ledger_is (ow_ledger (snd ro)) [] /\ m' = set_allocator m fa' /\
    machine_ok m').
Proof.
  induction fs as [|f fs IH] using rev_ind; intros [|fuel] o m fa' Hok HL Hfuel Hu Hr;
    try (rewrite ?length_app in Hfuel; cbn [length] in Hfuel; lia); cbn [return_frames];
    (apply kruns_bind; eapply kruns_pure; [by apply as_slice_is|]).
  { cbn [last]. apply returns_nil_inv in Hr as ->.
    apply kruns_ret. cbn [fst snd]. split_and!; [done|apply same_owner_refl|done|by destruct m|by destruct m]. }
  rewrite last_snoc. rewrite map_app in Hr. apply returns_snoc_inv in Hr as (fa1 & Hfree & Hrest). apply Forall_app in Hu as [Hu Hf]. rewrite Forall_singleton in Hf.
  destruct (free_frame_freed _ _ _ (mk_alloc _ _ Hok) Hf Hfree) as [(Hinv1 & HM1 & _) _].
  apply kruns_bind. eapply (kruns_call (kb_return_frame f) m (Ok tt) (set_allocator m fa1)).
  { unfold kb_return_frame. by rewrite Hfree. }
  destruct (ledger_pop_is _ _ _ HL) as (l' & Hpop & HL').
  apply kruns_bind. eapply kruns_pure; [exact Hpop|]. cbn [snd]. rewrite length_app in Hfuel. cbn [length] in Hfuel.
  eapply kruns_mono; [apply (IH fuel (set_ledger o l') (set_allocator m fa1) fa'); try done; try lia|].
  - eapply (machine_ok_evolves (fun _ => False)); [exact Hok| |done|done]. by apply evolves_allocator.
  - intros [r o'] m' (Hr' & Hsame & HL'' & -> & Hok'). cbn [fst snd] in *. by split_and!.
Qed.

(** The window is clear, nothing reaches the frames, and all are returned. *)
Lemma release_runs m fs data o fa' :
  owns m fs [] false data -> ledger_is (ow_ledger o) fs -> returns (km_allocator m) (map of_physical_start fs) fa' ->
  kruns (release_frames o) m (fun (ro : result unit IsolationError * AddressSpaceOwner) m' =>
    fst ro = Ok tt /\ same_owner o (snd ro) /\ ledger_is (ow_ledger (snd ro)) [] /\
    machine_ok m' /\ km_allocator m' = fa' /\ evolves (in_frames fs) m m').
Proof.
  intros Ho HL Hr. pose proof (on_machine _ _ _ _ _ _ Ho) as Hok. unfold release_frames. apply kruns_bind.
  eapply (kruns_call kb_clear_temporary_window m (Ok tt) m).
  { unfold kb_clear_temporary_window. by rewrite (pte_clear linkage m Hok). }
  apply kruns_bind. eapply kruns_pure; [by apply as_slice_is|].
  destruct (verify_owns linkage probes linkage_fits layout m fs data Ho) as (w & Hv & Hw).
  apply kruns_bind. eapply kruns_call; [exact Hv|].
  pose proof (owns_ext linkage probes layout _ _ _ _ _ w Hw Ho) as Ho'. pose proof (on_machine _ _ _ _ _ _ Ho') as Hok'.
  assert (Hu : Forall (fun f => u64 (of_physical_start f)) fs).
  { eapply Forall_impl; [apply (on_handed _ _ _ _ _ _ Ho)|]. cbn. intros f Hf.
    by apply (handed_out_u64 (km_allocator m)); [apply Hok|]. }
  eapply kruns_mono; [apply (return_frames_runs fs _ o (set_words m w) fa'); try done|].
  - pose proof (ledger_is_bound _ _ HL). lia.
  - intros [r o'] m' (? & ? & ? & -> & Hok''). cbn [fst snd] in *. split_and!; try done.
    pose proof (returns_effect _ _ _ (mk_alloc _ _ Hok) ltac:(by apply Forall_map) Hr) as (_ & HM & _).
    split; try done. 
Qed.

(** *** Rollback *)

Notation free_of m := (covers (live_free (km_allocator m))).

(** The frames taken so far, from the machine [m0] on. *)
Record progress (m0 : Machine) (generation : Z) (fs : list OwnedFrame) (m : Machine) : Prop := {
  pg_owns : owns m fs [] true (user_data m0 generation);
  pg_alloc : allocated (km_allocator m0) (map of_physical_start fs) (km_allocator m);
  pg_evolves : evolves (free_of m0) m0 m;
  pg_free : forall x, free_of m0 x <-> free_of m x \/ in_frames fs x;
  pg_pages : pages (live_free (km_allocator m)) = pages (live_free (km_allocator m0)) - Z.of_nat (length fs)
}.

(** The allocator and the memory outside its free frames are as before. *)
Definition restored (m0 m : Machine) : Prop :=
  machine_ok m /\ same_lists (km_allocator m0) (km_allocator m) /\ evolves (free_of m0) m0 m.

Lemma free_not_image m a : machine_ok m -> free_of m a -> ~ in_image linkage a.
Proof. intros Hok Ha. by destruct (mk_memory _ m Hok a (proj2 (proj2 (proj2 (mk_alloc _ m Hok))) a Ha)). Qed.

Lemma rollback_runs m0 generation fs m o :
  machine_ok m0 -> progress m0 generation fs m -> ledger_is (ow_ledger o) fs ->
  kruns (rollback_owned_frames o 0) m (fun (ro : result unit IsolationError * AddressSpaceOwner) m' =>
    fst ro = Ok tt /\ ledger_is (ow_ledger (snd ro)) [] /\ restored m0 m').
Proof.
  intros Hok0 [Ho Ha He Hfree _] HL. unfold rollback_owned_frames.
  apply kruns_bind. eapply kruns_pure; [done|]. apply kruns_bind. apply kruns_ret.
  apply kruns_bind. eapply kruns_pure; [by apply frame_for_is|]. apply kruns_bind.
  apply (kruns_mono _ m (fun r m1 => r = Ok tt /\ owns m1 fs [] false (user_data m0 generation) /\
    km_allocator m1 = km_allocator m /\ evolves (in_frames fs) m m1)).
  { destruct (find_role fs Root) as [p|] eqn:Hp.
    - destruct (clear_owns linkage probes linkage_fits layout m fs _ p Ho Hp) as (w & Hw & Hsame & Ho').
      eapply kruns_call; [exact Hw|]. split_and!; [done|done|done|]. exact (evolves_role _ _ _ _ _ Hp Hsame).
    - apply kruns_ret. split_and!; [done|by apply owns_no_root|done|apply evolves_refl]. }
  intros r m1 (-> & Ho1 & Ha1 & He1). apply kruns_bind.
  destruct (allocated_returns _ _ _ (mk_alloc _ _ Hok0) Ha) as (fa' & Hr & Hinv & Hsame).
  rewrite <-Ha1 in Hr. eapply kruns_mono; [by apply (release_runs m1 fs _ o fa' Ho1 HL Hr)|].
  intros [r o'] m2 (Hok & _ & HL' & Hm2 & <- & He2). cbn [fst snd] in *. subst r. apply kruns_ret. cbn [fst snd].
  split_and!; [done|done|]. split_and!; [done|done|].
  eapply evolves_trans; [exact He|]. eapply evolves_mono; [|eapply evolves_trans; [exact He1|exact He2]].
  intros x Hx. apply Hfree. by right.
Qed.

Lemma rollback_build_runs {T} m0 generation fs m o cause (Q : result T (BuildFailure IsolationError) -> Machine -> Prop) :
  machine_ok m0 -> progress m0 generation fs m -> ledger_is (ow_ledger o) fs ->
  (forall f m', bf_cause f = cause -> bf_rollback_error f = None -> ledger_is (bf_retained f) [] -> restored m0 m' ->
     Q (Err f) m') ->
  kruns (let* f := rollback_build cause o 0 in retP (Err f)) m Q.
Proof.
  intros Hok Hp HL HQ. apply kruns_bind. unfold rollback_build. apply kruns_bind.
  eapply kruns_mono; [by eapply rollback_runs|]. intros [r o'] m' (Hr & HL' & Hres). cbn [fst snd] in *. subst r.
  apply kruns_ret, kruns_ret. apply HQ; done.
Qed.

(** *** Taking the frames *)

(** The probe of the generation is there. *)
Definition probe_ok (m : Machine) (generation : Z) : bool :=
  is_ok (probe_bytes probes (km_words m) generation (km_journaled_probes m)).

Lemma prepare_result_agree m0 m generation role :
  machine_ok m0 -> evolves (free_of m0) m0 m -> prepare_result probes m generation role = prepare_result probes m0 generation role.
Proof.
  intros Hok He. unfold prepare_result. destruct role; try done. rewrite (ev_probes _ _ _ He).
  rewrite (probe_bytes_agree linkage probes linkage_fits layout (km_words m0)); [done|]. intros a Ha. apply (ev_words _ _ _ He).
  intros Hx. apply (free_not_image m0 a Hok Hx). destruct layout as [Hs _ _ _ _]. unfold in_image. lia.
Qed.

Lemma user_data_evolves m0 m generation :
  machine_ok m0 -> evolves (free_of m0) m0 m -> forall role, user_data m generation role = user_data m0 generation role.
Proof.
  intros Hok He role. apply (user_data_agree linkage probes linkage_fits layout); [|apply (ev_probes _ _ _ He)].
  intros a Ha. apply (ev_words _ _ _ He). intros Hx. by apply (free_not_image m0 a Hok Hx).
Qed.

Lemma owns_data_ext m fs links shared data data' :
  (forall role, data' role = data role) -> owns m fs links shared data -> owns m fs links shared data'.
Proof. intros Hd [H1 H2 H3 H4 H5]. split; try done. intros f g i Hf Ht Hg. rewrite Hd in Hg. by apply H5. Qed.

(** One allocation from a machine in progress. *)
Lemma progress_allocate m0 generation fs m role :
  machine_ok m0 -> progress m0 generation fs m -> role ∉ map of_role fs ->
  (pages (live_free (km_allocator m)) = 0 /\ kb_allocate_frame role m = Some (Err FrameAllocation, m)) \/
  (0 < pages (live_free (km_allocator m)) /\ exists f m1 w,
     kb_allocate_frame role m = Some (Ok f, m1) /\ f mod PAGE_SIZE = 0 /\ f ∉ map of_physical_start fs /\
     kb_prepare_frame probes generation role f m1 = Some (prepare_result probes m0 generation role, set_words m1 w) /\
     progress m0 generation (fs ++ [mkFrame role f]) (set_words m1 w)).
Proof.
  intros Hok0 [Ho Ha He Hfree Hpg] Hrole. pose proof (on_machine _ _ _ _ _ _ Ho) as Hok. unfold kb_allocate_frame.
  destruct (allocate_pages (km_allocator m) (mk_alloc _ _ Hok))
    as [[H0 Hx]|(Hpos & f & fa1 & Hx & Hinv1 & HM1 & Hh1 & Hcf & Hpg1 & Hcov)]; [left|right].
  { split; [done|]. rewrite Hx. by destruct m. }
  split; [done|]. rewrite Hx. cbn [map_err]. exists f, (set_allocator m fa1).
  assert (Hf : f ∉ map of_physical_start fs).
  { intros (g & -> & Hg)%list_elem_of_fmap.
    destruct (proj1 (Forall_forall _ _) (on_handed _ _ _ _ _ _ Ho) g Hg) as (_ & _ & Hn). done. }
  assert (Ho1 : owns (set_allocator m fa1) fs [] true (user_data (set_allocator m fa1) generation)).
  { eapply owns_data_ext; [intros r; exact (user_data_evolves m0 m generation Hok0 He r)|].
    apply (owns_allocator linkage _ _ _ _ _ _ Ho Hinv1 HM1). eapply Forall_impl; [apply (on_handed _ _ _ _ _ _ Ho)|].
    cbn. intros g (Hal & Hm & Hn). split_and!; [done|by rewrite HM1|]. intros Hc. apply Hn, Hcov. by left. }
  destruct (prepare_owns linkage probes linkage_fits layout (set_allocator m fa1) fs generation role f Ho1 Hh1 Hf Hrole)
    as (w & Hw & Hsame & Ho2).
  exists w. split_and!; [done|apply Hh1|done| |].
  { rewrite Hw. f_equal. f_equal. change (prepare_result probes (set_allocator m fa1) generation role)
      with (prepare_result probes m generation role). by apply (prepare_result_agree m0 m). }
  assert (He1 : evolves (free_of m0) m0 (set_words (set_allocator m fa1) w)).
  { eapply evolves_trans; [exact He|]. eapply evolves_trans; [by apply (evolves_allocator _ m fa1)|].
    apply evolves_words. intros a Hna. apply Hsame. intros Hin. apply Hna, Hfree. left. apply Hcov. by right. }
  split.
  - eapply owns_data_ext; [|exact Ho2]. intros r. symmetry. by apply (user_data_evolves m0 m).
  - rewrite map_app. by eapply allocated_snoc.
  - done.
  - intros x. rewrite Hfree, Hcov. unfold in_frames. rewrite Exists_app, Exists_cons, Exists_nil. cbn. tauto.
  - cbn [km_allocator set_words set_allocator]. rewrite Hpg1, Hpg, length_app. cbn [length]. lia.
Qed.

(** A failed construction: its cause, and everything given back. *)
Definition failed (m0 : Machine) (generation : Z) (f : BuildFailure IsolationError) (m : Machine) : Prop :=
  (bf_cause f = CauseBackend FrameAllocation /\ pages (live_free (km_allocator m0)) < Z.of_nat TASK_FRAME_COUNT \/
   bf_cause f = CauseBackend InvalidMapping /\ probe_ok m0 generation = false) /\
  bf_rollback_error f = None /\ ledger_is (bf_retained f) [] /\ restored m0 m.

Lemma not_unusable fs f :
  f mod PAGE_SIZE = 0 -> f ∉ map of_physical_start fs -> unusable fs f = false.
Proof.
  intros Hal Hf. unfold unusable. rewrite Hal. cbn [Z.eqb negb orb]. destruct (existsb _ fs) eqn:E; [|done].
  apply existsb_exists in E as (g & Hg%list_elem_of_In & Heq). b2p. exfalso. apply Hf, list_elem_of_fmap. by exists g.
Qed.

Lemma probe_error m generation e : probe_bytes probes (km_words m) generation (km_journaled_probes m) = Err e -> e = InvalidMapping.
Proof. unfold probe_bytes. intros H. repeat case_match; by simplify_eq. Qed.

Lemma build_frames_runs m0 generation roles : forall o fs m,
  machine_ok m0 -> building generation o fs -> map of_role fs ++ roles = FrameRole_ALL -> progress m0 generation fs m ->
  kruns (build_frames generation roles o) m (fun (r : result AddressSpaceOwner (BuildFailure IsolationError)) m' =>
    match r with
    | Ok o' => (exists fs', building generation o' fs' /\ map of_role fs' = FrameRole_ALL /\ progress m0 generation fs' m') /\
        Z.of_nat TASK_FRAME_COUNT <= pages (live_free (km_allocator m0)) /\ (Text ∈ roles -> probe_ok m0 generation = true)
    | Err f => failed m0 generation f m'
    end).
Proof.
  induction roles as [|role roles IH]; intros o fs m Hok0 Hb Hroles Hp; cbn [build_frames].
  { apply kruns_ret. rewrite app_nil_r in Hroles. split_and!; [by exists fs| |intros Hin; by apply not_elem_of_nil in Hin].
    pose proof (pg_pages _ _ _ _ Hp) as Hpg. pose proof (on_machine _ _ _ _ _ _ (pg_owns _ _ _ _ Hp)) as Hok.
    apply (f_equal length) in Hroles. rewrite length_map in Hroles. cbn [FrameRole_ALL length] in Hroles. rewrite Hroles in Hpg.
    destruct (allocate_pages _ (mk_alloc _ _ Hok)) as [[? _]|[? _]]; unfold TASK_FRAME_COUNT; lia. }
  pose proof Hb as (_ & _ & _ & _ & HL & _).
  assert (Hlen : (length fs < 7)%nat).
  { apply (f_equal length) in Hroles. rewrite length_app, length_map in Hroles. cbn [FrameRole_ALL length] in Hroles. lia. }
  assert (Hrole : role ∉ map of_role fs).
  { intros Hin. assert (Hnd : NoDup FrameRole_ALL) by (apply (bool_decide_unpack _); by vm_compute).
    rewrite <-Hroles in Hnd. apply NoDup_app in Hnd as (_ & Hd & _). apply (Hd role Hin). left. }
  destruct (progress_allocate m0 generation fs m role Hok0 Hp Hrole)
    as [[H0 Hx]|(Hpos & f & m1 & w & Hx & Hal & Hf & Hw & Hp')]; apply kruns_bind; (eapply kruns_call; [exact Hx|]).
  { eapply rollback_build_runs; [done..|]. intros fl m' Hc He Hr Hres. split_and!; [left|done|done|done].
    split; [done|]. pose proof (pg_pages _ _ _ _ Hp). unfold TASK_FRAME_COUNT. lia. }
  destruct (record_frame_building generation o fs (mkFrame role f) Hb ltac:(unfold TASK_LEDGER_CAPACITY; lia) Hrole)
    as (r & o' & Hrec & HL' & Hr & Hb'). cbn [of_physical_start] in Hr. rewrite not_unusable in Hr by done.
  destruct r as [[]|]; [|done]. specialize (Hb' eq_refl).
  apply kruns_bind. eapply kruns_pure; [exact Hrec|]. apply kruns_bind. eapply kruns_call; [exact Hw|].
  destruct (prepare_result probes m0 generation role) as [[]|e] eqn:Eprep.
  - eapply kruns_mono; [apply (IH o' (fs ++ [mkFrame role f])); try done|].
    { by rewrite map_app, <-app_assoc. }
    intros [o2|fl] m' HQ; [|done]. destruct HQ as (HQ1 & HQ2 & HQ3). split_and!; [done|done|].
    intros [<-|Hin]%elem_of_cons; [|by apply HQ3]. unfold probe_ok. cbn [prepare_result] in Eprep.
    by destruct (probe_bytes _ _ _ _).
  - eapply (rollback_build_runs m0 generation (fs ++ [mkFrame role f])); [done..|].
    intros fl m' Hc He Hr' Hres. split_and!; [right|done|done|done].
    destruct role; try discriminate Eprep. cbn [prepare_result] in Eprep. unfold probe_ok.
    destruct (probe_bytes _ _ _ _) as [|e'] eqn:Epb; [done|]. injection Eprep as <-.
    by rewrite Hc, (probe_error _ _ _ Epb).
Qed.

(** ** Construction *)

Lemma progress_start m0 generation : machine_ok m0 -> progress m0 generation [] m0.
Proof.
  intros Hok. split.
  - split; [done|constructor| | |].
    + unfold frames_good. split_and!; constructor.
    + intros f i Hf. by apply not_elem_of_nil in Hf.
    + intros f g i Hf. by apply not_elem_of_nil in Hf.
  - constructor; [apply Hok|reflexivity].
  - apply evolves_refl.
  - intros x. unfold in_frames. rewrite Exists_nil. tauto.
  - cbn. lia.
Qed.

(** What a constructed space owns. *)
Record constructed (m0 : Machine) (generation : Z) (o : AddressSpaceOwner) (fs : list OwnedFrame) (m : Machine) : Prop := {
  cs_published : published generation o fs;
  cs_owns : owns m fs BUILD_LINKS true (user_data m0 generation);
  cs_alloc : allocated (km_allocator m0) (map of_physical_start fs) (km_allocator m);
  cs_evolves : evolves (free_of m0) m0 m;
  cs_free : forall x, free_of m0 x <-> free_of m x \/ in_frames fs x;
  cs_pages : pages (live_free (km_allocator m)) = pages (live_free (km_allocator m0)) - Z.of_nat TASK_FRAME_COUNT
}.

(** The construction can succeed. *)
Definition constructible (m : Machine) (generation : Z) : Prop :=
  generation <> 0 /\ probe_ok m generation = true /\ Z.of_nat TASK_FRAME_COUNT <= pages (live_free (km_allocator m)).

Lemma construct_runs m0 generation :
  machine_ok m0 ->
  kruns (construct_address_space generation) m0 (fun (r : result AddressSpaceOwner (BuildFailure IsolationError)) m' =>
    match r with
    | Ok o => (exists fs, constructed m0 generation o fs m') /\ constructible m0 generation
    | Err f => bf_rollback_error f = None /\ ledger_is (bf_retained f) [] /\ restored m0 m' /\ ~ constructible m0 generation /\
        (bf_cause f = CauseOwner InvalidGeneration /\ generation = 0 \/ generation <> 0 /\ failed m0 generation f m')
    end).
Proof.
  intros Hok. unfold construct_address_space, owner_begin. destruct (Z.eqb_spec generation 0) as [Hz|Hz].
  { apply kruns_ret. split_and!; [done|apply ledger_is_new|split_and!; [done|reflexivity|apply evolves_refl]|by intros [? _]|by left]. }
  apply kruns_bind. eapply kruns_mono; [apply (build_frames_runs m0 generation FrameRole_ALL _ [] m0 Hok)|].
  { unfold building. cbn. split_and!; try done. unfold frames_good. split_and!; constructor. }
  { done. }
  { by apply progress_start. }
  intros [o|f] m1 HQ.
  2: { apply kruns_ret. pose proof HQ as (Hc & He & HL & Hr). split_and!; [done|done|done| |by right].
       intros (_ & Hp & Hn). destruct Hc as [[_ ?]|[_ ?]]; [lia|congruence]. }
  destruct HQ as ((fs & Hb & Hall & Hp) & Hn & Hprobe). pose proof Hb as (_ & _ & _ & _ & HL & _).
  apply kruns_bind. change BUILD_LINKS with (drop 0 BUILD_LINKS) at 1.
  eapply kruns_mono; [apply (build_links_runs o fs (user_data m0 generation) 6 0 m1 eq_refl HL Hall), Hp|].
  intros r m2 (-> & Ho2 & Ha2 & He2). destruct (all_roles_find fs Root Hall) as [root Hroot].
  apply kruns_bind. eapply expect_runs; [done|exact Hroot|].
  destruct (publish_building generation o fs root Hb Hall Hroot) as (o' & Hpub & Hpublished).
  apply kruns_bind. eapply kruns_pure; [exact Hpub|]. apply kruns_ret. split.
  2: { split_and!; [done| |done]. apply Hprobe. unfold FrameRole_ALL. set_solver. }
  exists fs. destruct Hp as [_ Hpa Hpe Hpf Hpp]. split; [done|done|by rewrite Ha2| |by rewrite Ha2|].
  - eapply evolves_trans; [exact Hpe|]. eapply evolves_mono; [|exact He2]. intros x Hx. apply Hpf. by right.
  - rewrite Ha2, Hpp. apply (f_equal length) in Hall. rewrite length_map in Hall. by rewrite Hall.
Qed.

(** ** Teardown *)

Lemma owns_forget m fs links shared data : owns m fs links shared data -> owns m fs links shared (fun _ => None).
Proof. intros [H1 H2 H3 H4 H5]. by split. Qed.

Lemma teardown_runs m generation o fs data fa' :
  published generation o fs -> owns m fs BUILD_LINKS true data -> returns (km_allocator m) (map of_physical_start fs) fa' ->
  kruns (teardown_checked o) m (fun (r : result AddressSpaceOwner (CheckedTeardownFailure IsolationError)) m' =>
    exists o', r = Ok o' /\ ow_state o' = Dead /\ ow_generation_live o' = false /\ ow_root o' = None /\
      ledger_is (ow_ledger o') [] /\ machine_ok m' /\ km_allocator m' = fa' /\ evolves (in_frames fs) m m').
Proof.
  intros (Hg & Hl & Hs & Hroot & HL & Hgood & Hall) Ho Hr. unfold teardown_checked. rewrite Hs, Hl. cbn [negb orb].
  rewrite bool_decide_eq_true_2 by done. cbn [negb orb]. apply kruns_bind. unfold teardown_address_space. apply kruns_bind.
  unfold teardown_inactive. cbn [ow_ledger]. apply kruns_bind. change BUILD_LINKS with (take 6 BUILD_LINKS).
  eapply kruns_mono; [apply (remove_links_runs _ fs data 6 m); done|].
  intros r m1 (-> & Ho1 & Ha1 & He1). destruct (all_roles_find fs Root Hall) as [root Hp].
  apply kruns_bind. eapply expect_runs; [done|exact Hp|].
  destruct (clear_owns linkage probes linkage_fits layout m1 fs data root Ho1 Hp) as (w & Hw & Hsame & Ho2).
  apply kruns_bind. eapply kruns_call; [exact Hw|]. rewrite <-Ha1 in Hr.
  eapply kruns_mono; [apply (release_runs (set_words m1 w) fs data _ fa' Ho2); [exact HL|exact Hr]|].
  intros [r o'] m2 (Hok & Hso & HL' & Hm2 & Ha & He2). cbn [fst snd] in *. subst r. apply kruns_ret, kruns_ret.
  eexists. split; [done|]. cbn. rewrite Hso. cbn. split_and!; try done.
  eapply evolves_trans; [exact He1|]. eapply evolves_trans; [exact (evolves_role _ _ _ _ _ Hp Hsame)|exact He2].
Qed.

(** ** Two spaces *)

(** What another owner does leaves a space alone. *)
Lemma owns_evolves X m fs links shared data m' :
  owns m fs links shared data -> evolves X m m' -> machine_ok m' ->
  (forall a, X a -> ~ in_image linkage a) -> (forall a, in_frames fs a -> ~ X a) ->
  Forall (fun f => handed_out (km_allocator m') (of_physical_start f)) fs ->
  owns m' fs links shared data.
Proof.
  intros [H1 H2 H3 H4 H5] He Hok' HXi HXf Hh. pose proof He as [E1 E2 E3 E4 E5].
  assert (Hkeep : forall f i, f ∈ fs -> index_ok i -> read_word (km_words m') (entry_address (of_physical_start f) i)
    = read_word (km_words m) (entry_address (of_physical_start f) i)).
  { intros f i Hf Hi. apply E5, HXf. by eapply in_frames_elem; [|apply entry_in_frame]. }
  split; [done|done|done| |].
  - intros f i Hf Ht Hi. rewrite Hkeep, (H4 f i) by done. symmetry. apply table_entry_recovery. intros j Hj.
    unfold recovery_entry. rewrite E1. apply E5. intros Hx.
    apply (HXi _ Hx). by apply (root_in_image linkage probes layout m j).
  - intros f g i Hf Ht Hg Hi. rewrite Hkeep by done. by eapply H5.
Qed.

Lemma allocated_same fa0 fs fa fa' : allocated fa0 fs fa -> fa_inv fa' -> same_lists fa fa' -> allocated fa0 fs fa'.
Proof.
  intros Ha Hinv Hs. destruct Ha as [fa H1 H2|fs fb f fb1 fa Hprev Hall H1 H2]; econstructor; try done; by etransitivity.
Qed.

(** The frames of a space stay out while the free memory of the moment changes. *)
Lemma constructed_stays m0 g o fs m m' :
  machine_ok m0 -> constructed m0 g o fs m -> machine_ok m' -> evolves (free_of m) m m' ->
  (forall x, free_of m' x -> free_of m x) -> owns m' fs BUILD_LINKS true (user_data m0 g).
Proof.
  intros Hok0 Hc Hok' He Hfree. pose proof (cs_owns _ _ _ _ _ Hc) as Ho. pose proof (on_machine _ _ _ _ _ _ Ho) as Hok.
  pose proof (on_handed _ _ _ _ _ _ Ho) as Hh. eapply owns_evolves; [exact Ho|exact He|done| | |].
  - intros a. by apply free_not_image.
  - intros a Ha Hx. apply Exists_exists in Ha as (f & Hf & Ha).
    destruct (proj1 (Forall_forall _ _) Hh f Hf) as (Hal & _ & Hn). apply Hn.
    pose proof (mk_alloc _ _ Hok) as (_ & _ & Hch & _). by apply (covers_in_frame (-1) _ _ a Hch Hal Ha).
  - eapply Forall_impl; [exact Hh|]. cbn. intros f (Hal & Hm & Hn).
    split_and!; [done|by rewrite (ev_managed _ _ _ He)|]. intros Hc'. by apply Hn, Hfree.
Qed.

Lemma constructed_machine m0 g o fs m : constructed m0 g o fs m -> machine_ok m.
Proof. intros Hc. apply (on_machine _ _ _ _ _ _ (cs_owns _ _ _ _ _ Hc)). Qed.

(** Undoing the first space restores the machine it started from. *)
Lemma teardown_restores m0 g o fs m m' :
  machine_ok m0 -> constructed m0 g o fs m -> restored m m' ->
  kruns (teardown_checked o) m' (fun (r : result AddressSpaceOwner (CheckedTeardownFailure IsolationError)) m'' =>
    (exists o', r = Ok o') /\ restored m0 m'').
Proof.
  intros Hok0 Hc (Hok' & Hs & He). pose proof (constructed_machine _ _ _ _ _ Hc) as Hok.
  assert (Ho : owns m' fs BUILD_LINKS true (user_data m0 g)).
  { eapply constructed_stays; try done. intros x. by rewrite (proj1 Hs). }
  destruct (allocated_returns _ _ (km_allocator m') (mk_alloc _ _ Hok0)
    (allocated_same _ _ _ _ (cs_alloc _ _ _ _ _ Hc) (mk_alloc _ _ Hok') Hs)) as (fa' & Hr & Hinv & Hs').
  eapply kruns_mono; [by eapply teardown_runs; [apply (cs_published _ _ _ _ _ Hc)| |]|].
  intros r m'' (o' & -> & _ & _ & _ & _ & Hok'' & <- & He''). split; [eauto|]. split_and!; [done|done|].
  eapply evolves_trans; [apply (cs_evolves _ _ _ _ _ Hc)|]. eapply evolves_trans.
  - eapply evolves_mono; [|exact He]. intros x Hx. apply (cs_free _ _ _ _ _ Hc). by left.
  - eapply evolves_mono; [|exact He'']. intros x Hx. apply (cs_free _ _ _ _ _ Hc). by right.
Qed.

(** The pair: two spaces, or the machine as it was. *)
Lemma pair_runs m0 g1 g2 :
  machine_ok m0 ->
  kruns (construct_address_space_pair g1 g2) m0 (fun (r : result AddressSpacePair (PairBuildFailure IsolationError)) m' =>
    match r with
    | Ok owners => exists fs1 fs2 m1, constructed m0 g1 (ap_first owners) fs1 m1 /\ constructed m1 g2 (ap_second owners) fs2 m' /\
        owns m' fs1 BUILD_LINKS true (user_data m0 g1) /\ constructible m0 g1 /\ constructible m1 g2
    | Err (PairFirst f) => bf_rollback_error f = None /\ ledger_is (bf_retained f) [] /\ restored m0 m'
    | Err (PairSecond f t) => bf_rollback_error f = None /\ ledger_is (bf_retained f) [] /\ t = None /\ restored m0 m'
    end).
Proof.
  intros Hok. unfold construct_address_space_pair. apply kruns_bind.
  eapply kruns_mono; [by apply construct_runs|]. intros [o1|f1] m1 HQ1.
  2: { apply kruns_ret. destruct HQ1 as (? & ? & ? & _). done. }
  destruct HQ1 as [[fs1 Hc1] Hcan1]. pose proof (constructed_machine _ _ _ _ _ Hc1) as Hok1.
  apply kruns_bind. eapply kruns_mono; [by apply construct_runs|]. intros [o2|f2] m2 HQ2.
  - destruct HQ2 as [[fs2 Hc2] Hcan2]. apply kruns_ret. exists fs1, fs2, m1. split_and!; try done.
    eapply constructed_stays; try done; [by eapply constructed_machine|apply (cs_evolves _ _ _ _ _ Hc2)|].
    intros x Hx. apply (cs_free _ _ _ _ _ Hc2). by left.
  - destruct HQ2 as (He & HL & Hr & _). apply kruns_bind.
    eapply kruns_mono; [by apply (teardown_restores m0 g1 o1 fs1 m1 m2)|]. intros r m3 [[o' ->] Hr3]. by apply kruns_ret.
Qed.
End spaces.
