(* ===== verification/KernelSpacesTheorems.v ===== *)
(** * Task address spaces on the kernel's backend: theorems

    From the recovery context on: the spaces the kernel builds translate exactly
    the two user pages and the kernel's own mappings, two spaces share no frame,
    a failed construction gives everything back, and a teardown succeeds. *)

From stdpp Require Import gmap.
From S2P Require Import Prelude.
From S2P Require Import Panic.
From S2P Require Import Bytes.
From S2P Require Import BootContract.
From S2P Require Import FrameAllocator.
From S2P Require Import Extents.
From S2P Require Import FrameInit.
From S2P Require Import FrameReturns.
From S2P Require Import AddressSpace.
From S2P Require Import AddressSpaceProofs.
From S2P Require Import AddressSpaceTheorems.
From S2P Require Import PageTables.
From S2P Require Import PageTablesProofs.
From S2P Require Import PageTablesTheorems.
From S2P Require Import KernelBackend.
From S2P Require Import KernelBackendProofs.
From S2P Require Import KernelSpaces.

Notation PAGE_SIZE := AddressSpace.PAGE_SIZE.
#[local] Notation entry := AddressSpaceTheorems.entry.

(** ** The machine after the recovery context *)

(** The kernel's backend once the processor uses the recovery root. *)
Definition recovered (fa : FrameAllocator) (journaled : bool) (rc : Recovery) : Machine :=
  mkMachine fa journaled (rc_state rc) (rc_words rc) (rs_root (rc_state rc)).

Section boot.
Variables (linkage : Linkage) (probes : ProbeSymbols).
Hypothesis linkage_fits : linkage_ok linkage.
Hypothesis layout : image_layout linkage probes.

Lemma range_in_image r k :
  r ∈ recovery_ranges linkage -> 0 <= k -> (k + 1) * PAGE_SIZE <= rg_bytes r ->
  in_image linkage (rg_physical r + k * PAGE_SIZE).
Proof.
  intros Hr Hk Hkb. destruct layout as [Hs Hp Hst _ _]. unfold recovery_ranges in Hr. rewrite !elem_of_cons in Hr.
  unfold in_image, AddressSpace.PAGE_SIZE in *.
  destruct Hr as [->|[->|[->|[->|[->|[->|Hr]]]]]]; [cbn [rg_physical rg_bytes] in *; lia..|].
  by apply not_elem_of_nil in Hr.
Qed.

(** The leaves of the built tables map only the image. *)
Lemma built_leaf_image leaf result s p i :
  built linkage leaf result s -> present (leaf p i) -> in_image linkage (Z.land (leaf p i) ENTRY_ADDRESS_MASK).
Proof.
  intros Hb Hp. pose proof (bu_whole _ _ _ _ Hb) as Hw.
  destruct (mapped_exact _ _ _ (bu_pages _ _ _ _ Hb) (all_pages_present linkage linkage_fits Hw)) as [Hin Hout].
  destruct (decide (Exists (fun m => slot_of (fst m) = (p, i)) (all_pages linkage))) as [He|Hne].
  - apply Exists_exists in He as ([va e] & Hm & Hslot). cbn [fst] in Hslot. pose proof (Hin va e Hm) as Hleaf.
    unfold slot_of in Hslot. pose proof (f_equal fst Hslot) as Hs1. pose proof (f_equal snd Hslot) as Hs2.
    cbn [fst snd] in Hs1, Hs2. rewrite Hs1, Hs2 in Hleaf. rewrite Hleaf.
    apply list_elem_of_In, in_flat_map in Hm as (r & Hr%list_elem_of_In & Hm%list_elem_of_In).
    apply range_list_elem in Hm as (k & Hk & Hkb & Heq); [|by apply (recovery_bytes linkage)].
    injection Heq as _ ->. destruct (recovery_range_flags linkage r Hr) as [Hfl _].
    rewrite entry_frame; [by apply range_in_image|by apply (recovery_range_frame linkage)|done].
  - exfalso. rewrite Hout in Hp; [by apply Hp|]. intros va e Hm Hslot. apply Hne, Exists_exists. by exists (va, e).
Qed.

Lemma recovered_ok fa journaled m rc :
  prepare_recovery_context linkage m = Some (Ok tt, rc) -> fa_inv fa ->
  (forall x, covers (live_managed fa) x -> x < 2 ^ 52 /\ ~ in_image linkage x) ->
  machine_ok linkage (recovered fa journaled rc).
Proof.
  intros Hprep Hinv Hmem. unfold prepare_recovery_context in Hprep.
  destruct validate_fixed_layout; [|done]. destruct (validate_cpu_state _); [|done]. destruct (negb _); [done|].
  destruct (build_tables_runs linkage linkage_fits (rc_words m)) as (r & s & E & Hr). rewrite E in Hprep.
  destruct r as [[root pte]|e]; [|done]. destruct Hr as [leaf Hb]. injection Hprep as <-.
  pose proof (bu_root _ _ _ _ Hb) as Hroot. cbn [fst] in Hroot.
  destruct (bu_pte _ _ _ _ Hb) as (paths & c & Hrep & H0 & Hc & Hpte). cbn [snd] in Hpte.
  split; cbn [recovered km_allocator km_words km_recovery rc_state rc_words]; [done|done| |].
  - split; cbn [rs_ready rs_root rs_temporary_pte rs_pool_used]; [done|done|].
    exists paths, leaf, c. split_and!; try done; [by destruct s as [[u] w]|apply (bu_window _ _ _ _ Hb)|].
    intros q i. by apply (built_leaf_image leaf (root, pte) s).
  - unfold read_cr3. cbn. rewrite Hroot. apply frame_masked.
    apply (table_frame linkage (lo_pool _ linkage_fits)). unfold BOOTSTRAP_PAGE_TABLE_FRAMES. lia.
Qed.
End boot.

(** ** Translation *)

Section translation.
Variables (linkage : Linkage) (probes : ProbeSymbols).
Hypothesis linkage_fits : linkage_ok linkage.
Hypothesis layout : image_layout linkage probes.
Context (m : Machine) (fs : list OwnedFrame) (data : FrameRole -> option (Z -> Z)).
Hypothesis Ho : owns linkage m fs BUILD_LINKS true data.
Hypothesis Hall : map of_role fs = FrameRole_ALL.

Definition frame_of (role : FrameRole) : Z := default 0 (find_role fs role).

Lemma frame_of_Some role : find_role fs role = Some (frame_of role).
Proof. unfold frame_of. by destruct (all_roles_find fs role Hall) as [f ->]. Qed.

Lemma frame_of_ok role : frame_ok (frame_of role).
Proof.
  apply (managed_frame_ok linkage m); [apply Ho|].
  apply (owns_managed linkage _ _ _ _ _ _ Ho (find_role_elem _ _ _ (frame_of_Some role))).
Qed.

Lemma build_flags_ok parent i l : entry parent i = Some l -> flags_ok (ln_flags l) /\ flag (ln_flags l) PRESENT = true.
Proof.
  rewrite entry_cases. intros H. destruct parent; repeat case_match; simplify_eq; by repeat split.
Qed.

(** One level of the walk, in a table of the task. *)
Lemma walk_role role i rest wr us nx :
  is_table_role role = true -> index_ok i ->
  walk (km_words m) (frame_of role) (i :: rest) wr us nx =
  match entry role i with
  | Some l => walk (km_words m) (frame_of (ln_child l)) rest (wr && flag (ln_flags l) WRITABLE)
                (us && flag (ln_flags l) USER_ACCESSIBLE) (nx || flag (ln_flags l) NO_EXECUTE)
  | None =>
      if bool_decide (role = Root) && bool_decide (i ∈ SHARED_PML4_INDICES)
      then walk (km_words m) (rs_root (km_recovery m)) (i :: rest) wr us nx else None
  end.
Proof.
  intros Ht Hi. cbn [walk].
  pose proof (on_tables linkage _ _ _ _ _ Ho _ i (find_role_elem _ _ _ (frame_of_Some role)) Ht Hi) as He.
  cbn [of_physical_start of_role] in He. rewrite He. unfold table_entry. change (link_at BUILD_LINKS role i) with (entry role i).
  destruct (entry role i) as [l|] eqn:El.
  - destruct (build_flags_ok role i l El) as [Hfl Hp]. fold (frame_of (ln_child l)).
    pose proof (frame_of_ok (ln_child l)) as Hf. unfold flag in *.
    rewrite (entry_flag _ _ PRESENT), (entry_flag _ _ WRITABLE), (entry_flag _ _ USER_ACCESSIBLE), (entry_flag _ _ NO_EXECUTE)
      by (done || apply PRESENT_bit || apply WRITABLE_bit || apply NX_bit || apply USER_bit).
    by rewrite Hp, entry_frame.
  - rewrite andb_true_r. destruct (bool_decide (role = Root) && _); [|done]. done.
Qed.

(** The task's space: its two pages, the kernel's mappings, and nothing else. *)
Lemma space_translates va :
  u64 va -> is_canonical_48 va = true ->
  translate (km_words m) (frame_of Root) va =
  if in_page USER_TEXT va then Some (mkTranslation (frame_of Text) false true false)
  else if in_page USER_STACK va then Some (mkTranslation (frame_of Stack) true true true)
  else if bool_decide (pml4_index va ∈ SHARED_PML4_INDICES)
       then translate (km_words m) (rs_root (km_recovery m)) va else None.
Proof.
  intros Hu Hc. pose proof (walk_cases va Hu Hc) as Hw. unfold AddressSpaceTheorems.walk in Hw. unfold translate.
  rewrite walk_role by (done || apply index_bounds).
  assert (Hnot : forall l, entry Root (pml4_index va) = Some l -> bool_decide (pml4_index va ∈ SHARED_PML4_INDICES) = false).
  { intros l. rewrite entry_cases. destruct (Z.eqb_spec (pml4_index va) 1) as [->|]; [done|done]. }
  destruct (entry Root (pml4_index va)) as [l4|] eqn:E4; cbn [mbind option_bind] in Hw.
  2: { rewrite bool_decide_eq_true_2 by done. cbn [andb].
       destruct (in_page USER_TEXT va); [done|]. destruct (in_page USER_STACK va); done. }
  rewrite (Hnot _ eq_refl). rewrite entry_cases in E4. destruct (_ =? 1); [|done]. injection E4 as <-.
  cbn [ln_child ln_flags] in *. rewrite walk_role by (done || apply index_bounds).
  rewrite entry_cases in *. destruct (_ =? 0); cbn [mbind option_bind] in Hw.
  2: { destruct (in_page USER_TEXT va); [done|]. destruct (in_page USER_STACK va); done. }
  cbn [ln_child ln_flags] in *. rewrite walk_role by (done || apply index_bounds).
  rewrite entry_cases in *. destruct (pml2_index va =? 2); [|destruct (_ =? 4)]; cbn [mbind option_bind] in Hw.
  3: { destruct (in_page USER_TEXT va); [done|]. destruct (in_page USER_STACK va); done. }
  - cbn [ln_child ln_flags] in *. rewrite walk_role by (done || apply index_bounds).
    rewrite entry_cases in *. destruct (_ =? 0); cbn [mbind option_bind] in Hw;
      destruct (in_page USER_TEXT va), (in_page USER_STACK va); done.
  - cbn [ln_child ln_flags] in *. rewrite walk_role by (done || apply index_bounds).
    rewrite entry_cases in *. destruct (_ =? 0); cbn [mbind option_bind] in Hw;
      destruct (in_page USER_TEXT va), (in_page USER_STACK va); done.
Qed.
End translation.

(** ** What the frames hold *)

Lemma nth_seqZ (L : list Z) : map (fun i => nth (Z.to_nat i) L 0) (seqZ 0 (Z.of_nat (length L))) = L.
Proof.
  apply list_eq. intros i. rewrite list_lookup_fmap.
  destruct (decide (i < length L)%nat) as [Hi|Hi].
  - rewrite lookup_seqZ_lt by lia. cbn [fmap option_fmap option_map]. rewrite Z.add_0_l, Nat2Z.id.
    destruct (lookup_lt_is_Some_2 L i Hi) as [v Hv]. by rewrite (nth_lookup_Some _ _ _ _ Hv), Hv.
  - rewrite lookup_seqZ_ge, lookup_ge_None_2 by lia. done.
Qed.

Lemma words_of_bytes n : forall bytes,
  length bytes = (8 * n)%nat -> Forall byte_ok bytes -> flat_map (to_le_bytes 8) (words_of n bytes) = bytes.
Proof.
  induction n as [|n IH]; intros bytes Hl Hb; cbn [words_of flat_map]; [symmetry; by apply nil_length_inv|].
  rewrite IH; [|rewrite length_drop; lia|by apply Forall_drop].
  assert (H8 : length (take 8 bytes) = 8%nat) by (rewrite length_take; lia).
  pose proof (to_from_le_bytes (take 8 bytes) (Forall_take _ _ _ Hb)) as Ht. rewrite H8 in Ht.
  rewrite Ht. apply take_drop.
Qed.

Lemma probe_bytes_ok probes w generation journaled probe :
  probe_bytes probes w generation journaled = Ok probe -> Forall byte_ok probe.
Proof.
  assert (Hread : forall start n, Forall byte_ok (read_bytes w start n)).
  { intros start n. unfold read_bytes. apply Forall_map, Forall_true. intros a. unfold byte_at.
    destruct (nth_in_or_default (Z.to_nat (a mod 8)) (to_le_bytes 8 (read_word w (a - a mod 8))) 0) as [Hin|Heq].
    - apply list_elem_of_In in Hin. exact (proj1 (Forall_forall _ _) (to_le_bytes_ok 8 _) _ Hin).
    - rewrite Heq. unfold byte_ok. lia. }
  unfold probe_bytes. destruct (_ =? TASK_GENERATION).
  { intros [= <-]. apply (bool_decide_unpack _). by vm_compute. }
  repeat case_match; intros; simplify_eq. apply Hread.
Qed.

(** The bytes of a frame that starts with the probe. *)
Lemma image_bytes w f probe :
  Forall byte_ok probe -> (length probe <= FRAME_BYTES)%nat ->
  (forall i, index_ok i -> read_word w (entry_address f i) = nth (Z.to_nat i) (image_words probe) 0) ->
  frame_bytes w f = probe ++ replicate (FRAME_BYTES - length probe) 0.
Proof.
  intros Hb Hl Hw. unfold frame_bytes, frame_entries.
  rewrite (map_ext_in _ (fun i => nth (Z.to_nat i) (image_words probe) 0))
    by (intros i Hi%list_elem_of_In%entry_indices_elem; by apply Hw).
  unfold entry_indices. rewrite <-(image_words_length probe) at 1. rewrite nth_seqZ.
  apply words_of_bytes.
  - rewrite length_app, length_replicate. unfold FRAME_BYTES in *. lia.
  - apply Forall_app_2; [done|]. apply Forall_replicate. unfold byte_ok. lia.
Qed.

(** ** A task's space *)

(** What the processor finds at [va] under the task's root. *)
Definition task_translation (m : Machine) (fs : list OwnedFrame) (va : Z) : option Translation :=
  if in_page USER_TEXT va then Some (mkTranslation (frame_of fs Text) false true false)
  else if in_page USER_STACK va then Some (mkTranslation (frame_of fs Stack) true true true)
  else if bool_decide (pml4_index va ∈ SHARED_PML4_INDICES)
       then translate (km_words m) (rs_root (km_recovery m)) va else None.

(** The space of the frames in the memory of [m]: the text frame holds the
    generation's probe, the stack is zero. *)
Record task_space (probes : ProbeSymbols) (generation : Z) (fs : list OwnedFrame) (m : Machine) : Prop := {
  ts_translation : forall va, u64 va -> is_canonical_48 va = true ->
    translate (km_words m) (frame_of fs Root) va = task_translation m fs va;
  ts_user : forall va tr, u64 va -> is_canonical_48 va = true ->
    translate (km_words m) (frame_of fs Root) va = Some tr -> tr_user tr = true ->
    tr_frame tr = frame_of fs Text /\ tr_writable tr = false \/ tr_frame tr = frame_of fs Stack /\ tr_no_execute tr = true;
  ts_text : exists probe, probe_bytes probes (km_words m) generation (km_journaled_probes m) = Ok probe /\
    frame_bytes (km_words m) (frame_of fs Text) = probe ++ replicate (FRAME_BYTES - length probe) 0;
  ts_stack : frame_bytes (km_words m) (frame_of fs Stack) = replicate FRAME_BYTES 0
}.

Section tasks.
Variables (linkage : Linkage) (probes : ProbeSymbols).
Hypothesis linkage_fits : linkage_ok linkage.
Hypothesis layout : image_layout linkage probes.
Notation machine_ok := (machine_ok linkage).

(** Nothing under the recovery root is accessible to user mode. *)
Lemma recovery_not_user m va tr :
  machine_ok m -> translate (km_words m) (rs_root (km_recovery m)) va = Some tr -> tr_user tr = false.
Proof.
  intros Hok Ht. destruct (mk_recovery _ m Hok) as [_ Hroot (paths & leaf & c & Hr & H0 & _)]. rewrite Hroot in Ht.
  pose proof (translate_leaf linkage linkage_fits leaf _ va (ex_intro _ paths (conj Hr H0))) as Hl. cbn [bs_words] in Hl.
  rewrite Hl in Ht. unfold leaf_translation in Ht. destruct (flag _ PRESENT); [|done]. by injection Ht as <-.
Qed.

Lemma owns_task_space m0 m generation fs :
  owns linkage m fs BUILD_LINKS true (user_data probes m0 generation) -> map of_role fs = FrameRole_ALL ->
  (forall role, user_data probes m generation role = user_data probes m0 generation role) ->
  probe_ok probes m generation = true -> task_space probes generation fs m.
Proof.
  intros Ho Hall Hdata Hprobe.
  pose proof (space_translates linkage m fs _ Ho Hall) as Htr.
  split; [done| | |].
  - intros va tr Hu Hc Ht Husr. rewrite Htr in Ht by done. destruct (in_page USER_TEXT va); [left|right].
    { by injection Ht as <-. }
    destruct (in_page USER_STACK va); [by injection Ht as <-|]. destruct (bool_decide _); [|done].
    apply recovery_not_user in Ht; [congruence|apply Ho].
  - unfold probe_ok in Hprobe. destruct (probe_bytes _ _ _ _) as [probe|] eqn:E; [|done]. exists probe. split; [done|].
    apply image_bytes; [by eapply probe_bytes_ok|by eapply probe_bytes_length|]. intros i Hi.
    apply (on_data _ _ _ _ _ _ Ho (mkFrame Text (frame_of fs Text)) (fun i => nth (Z.to_nat i) (image_words probe) 0));
      [by apply find_role_elem, frame_of_Some|done| |done].
    cbn [of_role]. rewrite <-Hdata. unfold user_data. by rewrite E.
  - apply zero_frame_bytes. intros i Hi.
    apply (on_data _ _ _ _ _ _ Ho (mkFrame Stack (frame_of fs Stack)) (fun _ => 0));
      [by apply find_role_elem, frame_of_Some|done|done|done].
Qed.

Lemma probe_ok_evolves m0 m generation :
  machine_ok m0 -> evolves (covers (live_free (km_allocator m0))) m0 m ->
  probe_ok probes m generation = probe_ok probes m0 generation.
Proof.
  intros Hok He. unfold probe_ok. rewrite (ev_probes _ _ _ He).
  rewrite (probe_bytes_agree linkage probes linkage_fits layout (km_words m0)); [done|]. intros a Ha. apply (ev_words _ _ _ He).
  intros Hx. apply (free_not_image linkage m0 a Hok Hx). destruct layout as [Hs _ _ _ _]. unfold in_image. lia.
Qed.

Lemma constructed_task_space m0 generation o fs m :
  machine_ok m0 -> constructed linkage probes m0 generation o fs m -> constructible probes m0 generation ->
  task_space probes generation fs m.
Proof.
  intros Hok Hc (_ & Hp & _). pose proof (cs_evolves _ _ _ _ _ _ _ Hc) as He.
  apply (owns_task_space m0); [apply Hc|apply (cs_published _ _ _ _ _ _ _ Hc)| |].
  - by apply (user_data_evolves linkage probes linkage_fits layout m0 m).
  - by rewrite (probe_ok_evolves m0).
Qed.
End tasks.

(** ** Claims *)

Definition kernel_construct (linkage : Linkage) (probes : ProbeSymbols) (generation : Z) (m : Machine)
    : option (result AddressSpaceOwner (BuildFailure IsolationError) * option Machine) :=
  @construct_address_space _ _ (KernelBackend linkage probes) generation (Some m).

Definition kernel_construct_pair (linkage : Linkage) (probes : ProbeSymbols) (g1 g2 : Z) (m : Machine)
    : option (result AddressSpacePair (PairBuildFailure IsolationError) * option Machine) :=
  @construct_address_space_pair _ _ (KernelBackend linkage probes) g1 g2 (Some m).

Definition kernel_teardown (linkage : Linkage) (probes : ProbeSymbols) (o : AddressSpaceOwner) (m : Machine)
    : option (result AddressSpaceOwner (CheckedTeardownFailure IsolationError) * option Machine) :=
  @teardown_checked _ _ (KernelBackend linkage probes) o (Some m).

(** On a well-formed machine the kernel's construction of an address space
    neither panics nor faults.  It succeeds exactly when the generation is not
    zero and has a probe and seven frames are free; then the processor's walk
    from the published root reaches the text frame, read-only and executable,
    exactly on the text page, the stack frame, writable and not executable, on
    the stack page, the kernel's own mappings in the shared slots and nothing
    elsewhere; the text frame holds the probe followed by zeros and the stack is
    zero; the seven frames are the only ones that left the free memory.  On
    failure nothing is retained, the free list is what it was and memory outside
    the free frames is untouched. *)
Theorem task_space_exact linkage probes generation m0 :
  linkage_ok linkage -> image_layout linkage probes -> machine_ok linkage m0 ->
  exists r m, kernel_construct linkage probes generation m0 = Some (r, Some m) /\ machine_ok linkage m /\
    (is_ok r = true <-> constructible probes m0 generation) /\
    evolves (covers (live_free (km_allocator m0))) m0 m /\
    match r with
    | Ok o => exists fs, published generation o fs /\ task_space probes generation fs m /\
        forall x, covers (live_free (km_allocator m0)) x <-> covers (live_free (km_allocator m)) x \/ in_frames fs x
    | Err f => bf_rollback_error f = None /\ ledger_is (bf_retained f) [] /\
        same_lists (km_allocator m0) (km_allocator m)
    end.
Proof.
  intros Hl Hi Hok. destruct (construct_runs linkage probes Hl Hi m0 generation Hok) as (r & m & Hrun & HQ).
  exists r, m. split; [exact Hrun|]. destruct r as [o|f].
  - destruct HQ as [[fs Hc] Hcan]. split_and!; [by eapply constructed_machine|done|apply Hc|].
    exists fs. split_and!; [apply Hc|by eapply constructed_task_space|apply Hc].
  - destruct HQ as (He & HL & (Hok' & Hs & Hev) & Hnot & _). split_and!; try done.
Qed.

(** C28: tearing down a task's space always completes when the extent array has
    room for its frames, whatever the task wrote to its stack: the owner is dead
    and empty, the machine is well formed, exactly the seven frames became free
    and memory outside them is untouched. *)
Theorem task_space_reclaimed linkage probes generation o fs data m :
  linkage_ok linkage -> image_layout linkage probes ->
  published generation o fs -> owns linkage m fs BUILD_LINKS true data ->
  (fa_free_len (km_allocator m) + TASK_FRAME_COUNT <= MAX_FRAME_EXTENTS)%nat ->
  exists o' m', kernel_teardown linkage probes o m = Some (Ok o', Some m') /\
    ow_state o' = Dead /\ ow_generation_live o' = false /\ ow_root o' = None /\ ledger_is (ow_ledger o') [] /\
    machine_ok linkage m' /\ evolves (in_frames fs) m m' /\
    forall x, covers (live_free (km_allocator m')) x <-> covers (live_free (km_allocator m)) x \/ in_frames fs x.
Proof.
  intros Hl Hi Hpub Ho Hroom. pose proof (on_machine _ _ _ _ _ _ Ho) as Hok. pose proof Hpub as (_ & _ & _ & _ & _ & Hgood & Hall).
  pose proof (on_handed _ _ _ _ _ _ Ho) as Hh. apply (f_equal length) in Hall as Hlen. rewrite length_map in Hlen.
  assert (Hh' : Forall (handed_out (km_allocator m)) (map of_physical_start fs)) by (by apply Forall_map).
  destruct (returns_room (map of_physical_start fs) (km_allocator m) (mk_alloc _ _ Hok)) as [fa' Hr]; [apply Hgood|done| |].
  { rewrite length_map, Hlen. exact Hroom. }
  destruct (teardown_runs linkage probes Hl Hi m generation o fs data fa' Hpub Ho Hr)
    as (r & m' & Hrun & o' & -> & Hd & Hlive & Hroot & HL & Hok' & <- & He).
  exists o', m'. split_and!; try done.
  assert (Hu : Forall u64 (map of_physical_start fs)).
  { eapply Forall_impl; [exact Hh'|]. intros f Hf. by apply (handed_out_u64 (km_allocator m)); [apply Hok|]. }
  destruct (returns_effect _ _ _ (mk_alloc _ _ Hok) Hu Hr) as (_ & _ & Hcov). intros x. rewrite Hcov.
  unfold in_frames. by rewrite Exists_fmap.
Qed.

(** What two spaces built one after the other look like in the end. *)
Lemma pair_spaces linkage probes m0 g1 o1 fs1 m1 g2 o2 fs2 m2 :
  linkage_ok linkage -> image_layout linkage probes -> machine_ok linkage m0 ->
  constructed linkage probes m0 g1 o1 fs1 m1 -> constructed linkage probes m1 g2 o2 fs2 m2 ->
  owns linkage m2 fs1 BUILD_LINKS true (user_data probes m0 g1) ->
  constructible probes m0 g1 -> constructible probes m1 g2 ->
  task_space probes g1 fs1 m2 /\ task_space probes g2 fs2 m2 /\ (forall x, ~ (in_frames fs1 x /\ in_frames fs2 x)) /\
  evolves (covers (live_free (km_allocator m0))) m0 m2.
Proof.
  intros Hl Hi Hok0 Hc1 Hc2 Ho1 Hcan1 Hcan2. pose proof (constructed_machine _ _ _ _ _ _ _ Hc1) as Hok1.
  assert (He : evolves (covers (live_free (km_allocator m0))) m0 m2).
  { eapply evolves_trans; [apply Hc1|]. eapply evolves_mono; [|apply Hc2]. intros x Hx. apply (cs_free _ _ _ _ _ _ _ Hc1). by left. }
  split_and!; [|by eapply constructed_task_space| |done].
  - apply (owns_task_space linkage probes Hl m0); [done|apply (cs_published _ _ _ _ _ _ _ Hc1)| |].
    + by apply (user_data_evolves linkage probes Hl Hi m0 m2).
    + rewrite (probe_ok_evolves linkage probes Hl Hi m0); [apply Hcan1|done|done].
  - intros x [H1 H2]. assert (Hf : covers (live_free (km_allocator m1)) x) by (apply (cs_free _ _ _ _ _ _ _ Hc2); by right).
    apply Exists_exists in H1 as (f & Hf1 & Hin).
    destruct (proj1 (Forall_forall _ _) (on_handed _ _ _ _ _ _ (cs_owns _ _ _ _ _ _ _ Hc1)) f Hf1) as (Hal & _ & Hn).
    apply Hn. destruct (mk_alloc _ _ Hok1) as (_ & _ & Hch & _). by apply (covers_in_frame (-1) _ _ x Hch Hal Hin).
Qed.

(** C27: from the recovery context on, constructing the two task spaces neither
    panics nor faults.  On success each root translates exactly its own text and
    stack pages and the kernel's mappings, everything user mode can reach under
    one root is the text or the stack frame of that task, and the two tasks
    share no frame with each other nor with the kernel image.  On failure both
    ledgers are empty, no rollback or teardown failed, the free list is what it
    was and memory outside the free frames is untouched, so the kernel's
    construction-rollback failure is never reported. *)
Theorem kernel_tasks_isolated linkage probes cpu rc fa journaled g1 g2 :
  linkage_ok linkage -> image_layout linkage probes ->
  prepare_recovery_context linkage cpu = Some (Ok tt, rc) -> fa_inv fa ->
  (forall x, covers (live_managed fa) x -> x < 2 ^ 52 /\ ~ in_image linkage x) ->
  let m0 := recovered fa journaled rc in
  exists r m, kernel_construct_pair linkage probes g1 g2 m0 = Some (r, Some m) /\ machine_ok linkage m /\
    evolves (covers (live_free fa)) m0 m /\
    match r with
    | Ok owners => exists fs1 fs2, published g1 (ap_first owners) fs1 /\ published g2 (ap_second owners) fs2 /\
        task_space probes g1 fs1 m /\ task_space probes g2 fs2 m /\
        (forall x, ~ (in_frames fs1 x /\ in_frames fs2 x)) /\
        (forall x, in_frames fs1 x \/ in_frames fs2 x -> ~ in_image linkage x)
    | Err (PairFirst f) => bf_rollback_error f = None /\ ledger_is (bf_retained f) [] /\ same_lists fa (km_allocator m)
    | Err (PairSecond f t) =>
        bf_rollback_error f = None /\ ledger_is (bf_retained f) [] /\ t = None /\ same_lists fa (km_allocator m)
    end.
Proof.
  intros Hl Hi Hprep Hinv Hmem m0. pose proof (recovered_ok linkage probes Hl Hi fa journaled cpu rc Hprep Hinv Hmem) as Hok0.
  destruct (pair_runs linkage probes Hl Hi m0 g1 g2 Hok0) as (r & m & Hrun & HQ). exists r, m. split; [exact Hrun|].
  destruct r as [owners|[f|f t]].
  2: { destruct HQ as (? & ? & ? & ? & ?). by split_and!. }
  2: { destruct HQ as (? & ? & ? & ? & ? & ?). by split_and!. }
  destruct HQ as (fs1 & fs2 & m1 & Hc1 & Hc2 & Ho1 & Hcan1 & Hcan2).
  destruct (pair_spaces linkage probes m0 _ _ _ _ _ _ _ _ Hl Hi Hok0 Hc1 Hc2 Ho1 Hcan1 Hcan2) as (H1 & H2 & H3 & H4).
  split_and!; [by eapply constructed_machine|done|]. exists fs1, fs2. split_and!; [apply Hc1|apply Hc2|done|done|done|].
  intros x Hx. apply (free_not_image linkage m0 x Hok0). apply (cs_free _ _ _ _ _ _ _ Hc1).
  destruct Hx as [Hx|Hx]; [by right|left]. apply (cs_free _ _ _ _ _ _ _ Hc2). by right.
Qed.

(** ** Witnesses *)

Definition probes_example : ProbeSymbols :=
  mkProbes (0x100100, 0x100180) (0x100180, 0x100200) (0x100200, 0x100300) (0x100300, 0x100400)
    (0x100400, 0x100500) (0x100500, 0x100600).

(** One megabyte of usable memory above the image. *)
Definition allocator_example : FrameAllocator :=
  match initialize [mkRegion 0x200000 256 MEMORY_USABLE 0] allocator_new with
  | Some (_, fa) => fa
  | None => allocator_new
  end.

Definition recovery_of (r : option (result unit IsolationError * Recovery)) : Recovery :=
  match r with Some (_, rc) => rc | None => recovery_example end.

Definition recovered_example : Machine :=
  recovered allocator_example false (recovery_of (prepare_recovery_context linkage_example recovery_example)).

Lemma linkage_example_ok : linkage_ok linkage_example.
Proof. split; vm_compute; repeat split; discriminate. Qed.

Lemma layout_example : image_layout linkage_example probes_example.
Proof.
  split; [vm_compute; repeat split; discriminate..|by vm_compute|]. rewrite !Forall_cons, Forall_nil.
  vm_compute. repeat split; discriminate.
Qed.

Lemma recovery_example_ok :
  prepare_recovery_context linkage_example recovery_example
  = Some (Ok tt, recovery_of (prepare_recovery_context linkage_example recovery_example)).
Proof. vm_compute. reflexivity. Qed.

Lemma allocator_example_ok :
  fa_inv allocator_example /\
  forall x, covers (live_managed allocator_example) x -> x < 2 ^ 52 /\ ~ in_image linkage_example x.
Proof.
  assert (Ht : Forall region_typed [mkRegion 0x200000 256 MEMORY_USABLE 0]).
  { apply Forall_singleton. vm_compute. repeat split; discriminate. }
  destruct (initialize_spec _ allocator_new Ht FrameTheorems.arrays_ok_new)
    as [(_ & _ & fa & Hi & Hinv & _ & Hcov)|[_ (e & Hi)]]; [|vm_compute in Hi; discriminate Hi].
  unfold allocator_example. rewrite Hi. split; [done|]. intros x Hx%Hcov.
  destruct Hx as (r & Hr%list_elem_of_singleton & _ & Hin). subst r.
  unfold in_range, pages_end, in_image, BootContract.PAGE_SIZE in *. cbn in Hin.
  change (2 ^ 52) with 4503599627370496. change (lk_kernel_end linkage_example) with 0x170000. lia.
Qed.

Lemma recovered_example_ok : machine_ok linkage_example recovered_example.
Proof.
  apply (recovered_ok linkage_example probes_example linkage_example_ok layout_example _ _ recovery_example);
    [apply recovery_example_ok|apply allocator_example_ok..].
Qed.

(** The owner and the machine after a construction. *)
Definition outcome (r : option (result AddressSpaceOwner (BuildFailure IsolationError) * option Machine))
    : option (AddressSpaceOwner * Machine) :=
  match r with
  | Some (Ok o, Some m) => Some (o, m)
  | _ => None
  end.

Definition constructed_example : option (AddressSpaceOwner * Machine) :=
  outcome (kernel_construct linkage_example probes_example TASK_GENERATION recovered_example).

Lemma task_space_exact_witness :
  exists r m, kernel_construct linkage_example probes_example TASK_GENERATION recovered_example = Some (r, Some m) /\
    is_ok r = true /\ machine_ok linkage_example m.
Proof.
  destruct (task_space_exact linkage_example probes_example TASK_GENERATION recovered_example
    linkage_example_ok layout_example recovered_example_ok) as (r & m & Hrun & Hok & Hcan & _).
  exists r, m. split; [exact Hrun|]. split; [|exact Hok]. apply Hcan. split; [discriminate|].
  split; [vm_compute; reflexivity|]. vm_compute. discriminate.
Defined.

Lemma kernel_tasks_isolated_witness :
  exists r m, kernel_construct_pair linkage_example probes_example SENDER_GENERATION RECEIVER_GENERATION recovered_example
    = Some (r, Some m) /\ is_ok r = true /\ machine_ok linkage_example m.
Proof.
  destruct (kernel_tasks_isolated linkage_example probes_example recovery_example _ allocator_example false
    SENDER_GENERATION RECEIVER_GENERATION linkage_example_ok layout_example recovery_example_ok
    (proj1 allocator_example_ok) (proj2 allocator_example_ok)) as (r & m & Hrun & Hok & _).
  exists r, m. split; [exact Hrun|]. split; [|exact Hok].
  assert (E : option_map (fun p => is_ok (fst p))
    (kernel_construct_pair linkage_example probes_example SENDER_GENERATION RECEIVER_GENERATION recovered_example) = Some true)
    by (vm_compute; reflexivity).
  change (kernel_construct_pair linkage_example probes_example SENDER_GENERATION RECEIVER_GENERATION
    (recovered allocator_example false (recovery_of (prepare_recovery_context linkage_example recovery_example))))
    with (kernel_construct_pair linkage_example probes_example SENDER_GENERATION RECEIVER_GENERATION recovered_example) in Hrun.
  rewrite Hrun in E. injection E as E. exact E.
Defined.

Lemma constructed_example_owns :
  exists o m fs, constructed_example = Some (o, m) /\ published TASK_GENERATION o fs /\
    owns linkage_example m fs BUILD_LINKS true (user_data probes_example recovered_example TASK_GENERATION) /\
    (fa_free_len (km_allocator m) + TASK_FRAME_COUNT <= MAX_FRAME_EXTENTS)%nat.
Proof.
  destruct (construct_runs linkage_example probes_example linkage_example_ok layout_example recovered_example
    TASK_GENERATION recovered_example_ok) as (r & m & Hrun & HQ).
  assert (E : match constructed_example with Some (_, m) => (fa_free_len (km_allocator m) <=? 1)%nat | None => false end = true)
    by (vm_compute; reflexivity).
  change (kernel_construct linkage_example probes_example TASK_GENERATION recovered_example = Some (r, Some m)) in Hrun.
  unfold constructed_example in E |- *. rewrite Hrun in E |- *. cbn [outcome] in E |- *.
  destruct r as [o|f]; [|discriminate E]. apply Nat.leb_le in E.
  destruct HQ as [[fs Hc] _]. exists o, m, fs. split; [reflexivity|]. split; [apply Hc|]. split; [apply Hc|].
  etransitivity; [apply Nat.add_le_mono_r; exact E|]. apply Nat.leb_le. by vm_compute.
Qed.

Lemma task_space_reclaimed_witness :
  exists o m o' m', constructed_example = Some (o, m) /\
    kernel_teardown linkage_example probes_example o m = Some (Ok o', Some m') /\ ow_state o' = Dead.
Proof.
  destruct constructed_example_owns as (o & m & fs & E & Hpub & Ho & Hroom).
  destruct (task_space_reclaimed linkage_example probes_example TASK_GENERATION o fs _ m linkage_example_ok layout_example
    Hpub Ho Hroom) as (o' & m' & Hrun & Hd & _).
  exists o, m, o', m'. split; [exact E|]. split; [exact Hrun|exact Hd].
Defined.
