(* ===== verification/KernelDescriptors.v ===== *)
(** * Descriptor tables

    Models [install_descriptor_tables] of [kernel/src/arch_x86_64.rs] with the
    types and helpers it uses: the global descriptor table, the task-state
    segment and the interrupt table, built in memory and loaded into the
    processor.  The processor's side is modelled where the code relies on it:
    which registers the loads set, the check and the busy mark of [ltr], and how
    a vector is delivered from user mode through the loaded tables. *)

From S2P Require Import Prelude.
From S2P Require Import Panic.
From S2P Require Import Bytes.
From S2P Require Import AddressSpace.
From S2P Require Import PageTables.

Definition KERNEL_CODE_SELECTOR : Z := 0x08.
Definition KERNEL_DATA_SELECTOR : Z := 0x10.
Definition USER_DATA_SELECTOR : Z := 0x1b.
Definition USER_CODE_SELECTOR : Z := 0x23.
Definition TSS_SELECTOR : Z := 0x28.

Definition PAGE_FAULT_VECTOR : Z := 14.
Definition GENERAL_PROTECTION_VECTOR : Z := 13.
Definition DOUBLE_FAULT_VECTOR : Z := 8.
Definition TASK_TRAP_VECTOR : Z := 0x80.
Definition DOUBLE_FAULT_IST : Z := 1.
Definition DPL3_INTERRUPT_GATE_ATTRIBUTES : Z := 0xee.

(** ** The tables *)

Record IdtEntry := mkIdtEntry {
  ie_offset_low : Z;
  ie_selector : Z;
  ie_ist : Z;
  ie_type_attributes : Z;
  ie_offset_middle : Z;
  ie_offset_high : Z;
  ie_reserved : Z
}.

Definition IdtEntry_MISSING : IdtEntry := mkIdtEntry 0 0 0 0 0 0 0.

(** [value as u16], [value as u32] *)
Definition as_u16 (x : Z) : Z := Z.land x 0xffff.
Definition as_u32 (x : Z) : Z := Z.land x 0xffffffff.

Definition interrupt_gate (handler ist type_attributes : Z) : IdtEntry :=
  {| ie_offset_low := as_u16 handler;
     ie_selector := KERNEL_CODE_SELECTOR;
     ie_ist := Z.land ist 7;
     ie_type_attributes := type_attributes;
     ie_offset_middle := as_u16 (Z.shiftr handler 16);
     ie_offset_high := as_u32 (Z.shiftr handler 32);
     ie_reserved := 0 |}.

Definition GDT_LENGTH : nat := 7.
Definition TSS_LENGTH : nat := 104.
Definition IDT_LENGTH : nat := 256.

Record Descriptors := mkDescriptors {
  ds_gdt : list Z;
  ds_tss : list Z;
  ds_idt : list IdtEntry
}.

Definition descriptors_new : Descriptors :=
  mkDescriptors (replicate GDT_LENGTH 0) (replicate TSS_LENGTH 0) (replicate IDT_LENGTH IdtEntry_MISSING).

(** [tss[offset..offset + n].copy_from_slice(bytes)] *)
Definition copy_at (tss : list Z) (offset : nat) (bytes : list Z) : option (list Z) :=
  if (offset + length bytes <=? length tss)%nat
  then Some (take offset tss ++ bytes ++ drop (offset + length bytes) tss) else None.

Definition write_tss_u64 (tss : list Z) (offset : nat) (value : Z) : option (list Z) :=
  copy_at tss offset (to_le_bytes 8 value).

Definition write_tss_u16 (tss : list Z) (offset : nat) (value : Z) : option (list Z) :=
  copy_at tss offset (to_le_bytes 2 value).

Definition read_at (tss : list Z) (offset n : nat) : option Z :=
  if (offset + n <=? length tss)%nat then Some (from_le_bytes (take n (drop offset tss))) else None.

Definition read_tss_u64 (tss : list Z) (offset : nat) : option Z := read_at tss offset 8.
Definition read_tss_u16 (tss : list Z) (offset : nat) : option Z := read_at tss offset 2.

Definition tss_descriptor (base limit : Z) : Z * Z :=
  (Z.lor (Z.lor (Z.lor (Z.lor (Z.land limit 0xffff)
     (Z.shiftl (Z.land base 0x00ffffff) 16))
     (Z.shiftl 0x89 40))
     (Z.shiftl (Z.land (Z.shiftr limit 16) 0x0f) 48))
     (Z.shiftl (Z.land (Z.shiftr base 24) 0xff) 56),
   Z.shiftr base 32).

(** ** The processor *)

(** Where the linker placed the tables and the trampolines. *)
Record Trampolines := mkTrampolines {
  tr_gdt : Z;
  tr_tss : Z;
  tr_idt : Z;
  tr_page_fault : Z;
  tr_general_protection : Z;
  tr_double_fault : Z;
  tr_task_trap : Z
}.

Record TablePointer := mkPointer { tp_limit : Z; tp_base : Z }.

(** The registers the loads write. *)
Record Processor := mkProcessor {
  pr_gdtr : TablePointer;
  pr_idtr : TablePointer;
  pr_task_register : Z;
  pr_code : Z;
  pr_data : Z;          (* ds, es and ss *)
  pr_extra : Z;         (* fs and gs *)
  pr_fs_base : Z;
  pr_gs_base : Z;
  pr_kernel_gs_base : Z
}.

(** The table entry a selector names. *)
Definition selector_index (selector : Z) : nat := Z.to_nat (Z.shiftr selector 3).

(** [ltr]: the selector must name a present, available task-state segment; the
    processor marks it busy. *)
Definition load_task_register (gdt : list Z) (selector : Z) : option (list Z) :=
  descriptor ← array_get gdt (selector_index selector);
  if (Z.land (Z.shiftr descriptor 40) 0x8f =? 0x89)
  then array_set gdt (selector_index selector) (Z.lor descriptor (Z.shiftl 2 40))
  else None.

(** ** Building the tables *)

(** The task-state segment: the entry stack, the double-fault stack and an I/O
    bitmap offset past its end. *)
Definition build_tss (tss : list Z) : option (result unit IsolationError * list Z) :=
  tss ← write_tss_u64 tss 4 RECOVERY_STACK_TOP;
  tss ← write_tss_u64 tss 36 DOUBLE_FAULT_STACK_TOP;
  tss ← write_tss_u16 tss 102 (Z.of_nat TSS_LENGTH);
  rsp0 ← read_tss_u64 tss 4;
  ist1 ← read_tss_u64 tss 36;
  bitmap ← read_tss_u16 tss 102;
  if negb (rsp0 =? RECOVERY_STACK_TOP) || negb (ist1 =? DOUBLE_FAULT_STACK_TOP) || negb (bitmap =? 104)
  then Some (Err DescriptorState, tss) else Some (Ok tt, tss).

(** The kernel and user segments, and the two halves of the task-state
    segment's descriptor. *)
Definition write_segments (gdt : list Z) : option (list Z) :=
  gdt ← array_set gdt 1 0x00af9a000000ffff;
  gdt ← array_set gdt 2 0x00cf92000000ffff;
  gdt ← array_set gdt 3 0x00cff2000000ffff;
  array_set gdt 4 0x00affa000000ffff.

Definition write_task_segment (base : Z) (gdt : list Z) : option (list Z) :=
  let '(tss_low, tss_high) := tss_descriptor base 103 in
  gdt ← array_set gdt 5 tss_low;
  array_set gdt 6 tss_high.

Definition build_idt (trampolines : Trampolines) (idt : list IdtEntry) : option (list IdtEntry) :=
  idt ← array_set idt (Z.to_nat PAGE_FAULT_VECTOR) (interrupt_gate (tr_page_fault trampolines) 0 0x8e);
  idt ← array_set idt (Z.to_nat GENERAL_PROTECTION_VECTOR)
          (interrupt_gate (tr_general_protection trampolines) 0 0x8e);
  idt ← array_set idt (Z.to_nat DOUBLE_FAULT_VECTOR)
          (interrupt_gate (tr_double_fault trampolines) DOUBLE_FAULT_IST 0x8e);
  array_set idt (Z.to_nat TASK_TRAP_VECTOR)
    (interrupt_gate (tr_task_trap trampolines) 0 DPL3_INTERRUPT_GATE_ATTRIBUTES).

(** The loads: [lgdt], the segment registers, [lidt], [ltr] and the bases. *)
Definition load_tables (trampolines : Trampolines) (gdt : list Z) : option (list Z * Processor) :=
  gdt ← load_task_register gdt TSS_SELECTOR;
  Some (gdt,
    {| pr_gdtr := mkPointer (Z.of_nat (8 * GDT_LENGTH) - 1) (tr_gdt trampolines);
       pr_idtr := mkPointer (Z.of_nat (16 * IDT_LENGTH) - 1) (tr_idt trampolines);
       pr_task_register := TSS_SELECTOR;
       pr_code := KERNEL_CODE_SELECTOR;
       pr_data := KERNEL_DATA_SELECTOR;
       pr_extra := 0;
       pr_fs_base := 0;
       pr_gs_base := 0;
       pr_kernel_gs_base := 0 |}).

Definition install_descriptor_tables (trampolines : Trampolines) (descriptors : Descriptors)
    (cpu : Processor) : option (result unit IsolationError * Descriptors * Processor) :=
  let gdt := replicate (length (ds_gdt descriptors)) 0 in
  let tss := replicate (length (ds_tss descriptors)) 0 in
  let idt := replicate (length (ds_idt descriptors)) IdtEntry_MISSING in
  gdt ← write_segments gdt;
  '(checked, tss) ← build_tss tss;
  match checked with
  | Err e => Some (Err e, mkDescriptors gdt tss idt, cpu)
  | Ok _ =>
      gdt ← write_task_segment (tr_tss trampolines) gdt;
      idt ← build_idt trampolines idt;
      '(gdt, cpu) ← load_tables trampolines gdt;
      let descriptors := mkDescriptors gdt tss idt in
      if negb (pr_task_register cpu =? TSS_SELECTOR)
      then Some (Err DescriptorState, descriptors, cpu)
      else Some (Ok tt, descriptors, cpu)
  end.

(** ** Delivery through the tables *)

(** What the processor reads from a gate. *)
Definition gate_handler (e : IdtEntry) : Z :=
  ie_offset_low e + Z.shiftl (ie_offset_middle e) 16 + Z.shiftl (ie_offset_high e) 32.
Definition gate_present (e : IdtEntry) : bool := Z.testbit (ie_type_attributes e) 7.
Definition gate_dpl (e : IdtEntry) : Z := Z.land (Z.shiftr (ie_type_attributes e) 5) 3.
Definition gate_type (e : IdtEntry) : Z := Z.land (ie_type_attributes e) 0xf.

(** The entry stack: the first privileged stack, or the one the gate names. *)
Definition gate_stack (tss : list Z) (e : IdtEntry) : option Z :=
  read_tss_u64 tss (if ie_ist e =? 0 then 4 else 28 + 8 * Z.to_nat (ie_ist e)).

(** A vector raised in user mode, by an instruction or by a fault: the handler
    and the stack it starts on. *)
Definition deliver (d : Descriptors) (cpu : Processor) (software : bool) (vector : Z) : option (Z * Z) :=
  if negb ((0 <=? vector) && (16 * vector + 15 <=? tp_limit (pr_idtr cpu))) then None else
  entry ← array_get (ds_idt d) (Z.to_nat vector);
  if negb (gate_present entry) || (software && (gate_dpl entry <? 3)) then None else
  stack ← gate_stack (ds_tss d) entry;
  Some (gate_handler entry, stack).

(** The base and the limit of the task-state segment the selector names. *)
Definition segment_base (gdt : list Z) (selector : Z) : option Z :=
  low ← array_get gdt (selector_index selector);
  high ← array_get gdt (S (selector_index selector));
  Some (Z.land (Z.shiftr low 16) 0xffffff + Z.shiftl (Z.land (Z.shiftr low 56) 0xff) 24 + Z.shiftl high 32).

Definition segment_limit (gdt : list Z) (selector : Z) : option Z :=
  low ← array_get gdt (selector_index selector);
  Some (Z.land low 0xffff + Z.shiftl (Z.land (Z.shiftr low 48) 0xf) 16).

(** The privilege level of a segment. *)
Definition segment_dpl (gdt : list Z) (selector : Z) : option Z :=
  descriptor ← array_get gdt (selector_index selector);
  Some (Z.land (Z.shiftr descriptor 45) 3).

(** A present 64-bit code segment, a present writable data segment. *)
Definition is_long_code (descriptor : Z) : bool :=
  (Z.land (Z.shiftr descriptor 40) 0x9a =? 0x9a) && Z.testbit descriptor 53.
Definition is_writable_data (descriptor : Z) : bool :=
  (Z.land (Z.shiftr descriptor 40) 0x9a =? 0x92).
