(* ===== verification/KernelDescriptorsProofs.v ===== *)
(** * What the descriptor tables tell the processor

    Installation never fails and never panics; the processor reads back exactly
    the trampolines, stacks and segments the code wrote. *)

From S2P Require Import Prelude.
From S2P Require Import Panic.
From S2P Require Import Bytes.
From S2P Require Import AddressSpace.
From S2P Require Import PageTables.
From S2P Require Import KernelDescriptors.

(** ** Fields of words *)

Lemma bit_above c k i : 0 <= c < 2 ^ k -> k <= i -> Z.testbit c i = false.
Proof.
  intros Hc Hi. destruct (Z.eq_dec c 0) as [->|Hz]; [apply Z.testbit_0_l|].
  apply Z.bits_above_log2; [lia|]. apply Z.log2_lt_pow2; [lia|].
  eapply Z.lt_le_trans; [apply Hc|]. apply Z.pow_le_mono_r; lia.
Qed.

Lemma bits_field x i k : 0 <= i -> 0 <= k -> Z.testbit (Z.land x (Z.ones k)) i = Z.testbit x i && (i <? k).
Proof.
  intros Hi Hk. rewrite Z.land_spec. f_equal. destruct (Z.ltb_spec i k); [by apply Z.ones_spec_low|].
  by apply Z.ones_spec_high.
Qed.

(** A 64-bit number from three adjacent fields. *)
Lemma join_fields x a b :
  0 <= x -> 0 <= a <= b ->
  Z.land x (Z.ones a) + Z.shiftl (Z.land (Z.shiftr x a) (Z.ones (b - a))) a + Z.shiftl (Z.shiftr x b) b = x.
Proof.
  intros Hx Hab. rewrite !Z.land_ones, !Z.shiftl_mul_pow2, !Z.shiftr_div_pow2 by lia.
  assert (Hb : 2 ^ b = 2 ^ a * 2 ^ (b - a)) by (rewrite <-Z.pow_add_r by lia; f_equal; lia).
  rewrite Hb, <-Z.div_div by (try apply Z.pow_pos_nonneg; try apply Z.pow_nonzero; lia).
  pose proof (Z.div_mod x (2 ^ a) ltac:(apply Z.pow_nonzero; lia)).
  pose proof (Z.div_mod (x / 2 ^ a) (2 ^ (b - a)) ltac:(apply Z.pow_nonzero; lia)). nia.
Qed.

Lemma gate_handler_exact handler ist attributes :
  0 <= handler < two64 -> gate_handler (interrupt_gate handler ist attributes) = handler.
Proof.
  intros Hh. unfold gate_handler, interrupt_gate. cbn [ie_offset_low ie_offset_middle ie_offset_high].
  unfold as_u16, as_u32. change 0xffff with (Z.ones 16). change 0xffffffff with (Z.ones 32).
  rewrite (Z.land_ones (Z.shiftr handler 32) 32), Z.mod_small.
  - apply (join_fields handler 16 32); lia.
  - rewrite Z.shiftr_div_pow2 by lia. unfold two64 in Hh. split; [apply Z.div_pos; lia|].
    apply Z.div_lt_upper_bound; lia.
  - lia.
Qed.

(** ** The task-state segment *)

Section task_segment.
Variable base : Z.
Hypothesis base_fits : 0 <= base < two64.

(** The descriptor, once the processor has marked it busy. *)
Definition busy_low : Z := Z.lor (fst (tss_descriptor base 103)) (Z.shiftl 2 40).

(** Bit [i] of the descriptor comes from the limit, the two parts of the base
    or the attributes. *)
Lemma low_bits i :
  0 <= i ->
  Z.testbit (fst (tss_descriptor base 103)) i =
  Z.testbit 103 i || (Z.testbit base (i - 16) && (i - 16 <? 24)) || Z.testbit 0x89 (i - 40)
  || (Z.testbit base (i - 56 + 24) && (i - 56 <? 8) && (0 <=? i - 56)).
Proof.
  intros Hi. unfold tss_descriptor. cbn [fst]. rewrite !Z.lor_spec.
  change (Z.land 103 0xffff) with 103. change (Z.shiftl (Z.land (Z.shiftr 103 16) 0x0f) 48) with 0.
  change 0x00ffffff with (Z.ones 24). change 0xff with (Z.ones 8). rewrite Z.testbit_0_l, orb_false_r.
  rewrite !Z.shiftl_spec by lia.
  assert (H1 : Z.testbit (Z.land base (Z.ones 24)) (i - 16) = Z.testbit base (i - 16) && (i - 16 <? 24)).
  { destruct (decide (0 <= i - 16)); [by apply bits_field|]. by rewrite !Z.testbit_neg_r by lia. }
  assert (H2 : Z.testbit (Z.land (Z.shiftr base 24) (Z.ones 8)) (i - 56)
    = Z.testbit base (i - 56 + 24) && (i - 56 <? 8) && (0 <=? i - 56)).
  { destruct (Z.leb_spec 0 (i - 56)); [|by rewrite Z.testbit_neg_r, !andb_false_r by lia].
    rewrite bits_field, Z.shiftr_spec, andb_true_r by lia. done. }
  rewrite H1, H2. done.
Qed.

Lemma low_available : Z.land (Z.shiftr (fst (tss_descriptor base 103)) 40) 0x8f = 0x89.
Proof.
  apply Z.bits_inj'. intros n Hn. rewrite Z.land_spec, Z.shiftr_spec by lia.
  destruct (decide (8 <= n)) as [H8|H8].
  { by rewrite (bit_above 0x8f 8), (bit_above 0x89 8), andb_false_r by lia. }
  rewrite low_bits by lia. rewrite (bit_above 103 7) by lia.
  rewrite (proj2 (Z.ltb_ge (n + 40 - 16) 24)), (proj2 (Z.leb_gt 0 (n + 40 - 56))), !andb_false_r, !orb_false_r by lia.
  replace (n + 40 - 40) with n by lia. cbn [orb].
  assert (n = 0 \/ n = 1 \/ n = 2 \/ n = 3 \/ n = 4 \/ n = 5 \/ n = 6 \/ n = 7) as Hc by lia.
  by destruct Hc as [->|[->|[->|[->|[->|[->|[->| ->]]]]]]].
Qed.

Lemma busy_bits i : 0 <= i -> i <> 41 -> Z.testbit busy_low i = Z.testbit (fst (tss_descriptor base 103)) i.
Proof.
  intros Hi Hne. unfold busy_low. rewrite Z.lor_spec, Z.shiftl_spec by lia.
  assert (Z.testbit 2 (i - 40) = false) as ->; [|by rewrite orb_false_r].
  destruct (decide (i < 40)); [by rewrite Z.testbit_neg_r by lia|].
  destruct (decide (i = 40)) as [->|]; [done|]. apply (bit_above 2 2); lia.
Qed.

Lemma busy_base_low : Z.land (Z.shiftr busy_low 16) 0xffffff = Z.land base 0xffffff.
Proof.
  change 0xffffff with (Z.ones 24). apply Z.bits_inj'. intros n Hn. rewrite !bits_field, Z.shiftr_spec by lia.
  destruct (Z.ltb_spec n 24); [|by rewrite !andb_false_r]. rewrite busy_bits, low_bits by lia.
  rewrite (bit_above 103 7), (Z.testbit_neg_r 0x89), (proj2 (Z.leb_gt 0 (n + 16 - 56))) by lia.
  replace (n + 16 - 16) with n by lia. rewrite (proj2 (Z.ltb_lt n 24)), !andb_true_r, !andb_false_r, !orb_false_r by lia.
  done.
Qed.

Lemma busy_base_high : Z.land (Z.shiftr busy_low 56) 0xff = Z.land (Z.shiftr base 24) 0xff.
Proof.
  change 0xff with (Z.ones 8). apply Z.bits_inj'. intros n Hn. rewrite !bits_field, !Z.shiftr_spec by lia.
  destruct (Z.ltb_spec n 8); [|by rewrite !andb_false_r]. rewrite busy_bits, low_bits by lia.
  rewrite (bit_above 103 7), (bit_above 0x89 8), (proj2 (Z.ltb_ge (n + 56 - 16) 24)) by lia.
  replace (n + 56 - 56 + 24) with (n + 24) by lia. replace (n + 56 - 56) with n by lia.
  rewrite (proj2 (Z.ltb_lt n 8)), (proj2 (Z.leb_le 0 n)), !andb_true_r, !andb_false_r by lia. done.
Qed.

Lemma busy_limit : Z.land busy_low 0xffff = 103.
Proof.
  change 0xffff with (Z.ones 16). apply Z.bits_inj'. intros n Hn. rewrite bits_field by lia.
  destruct (Z.ltb_spec n 16); [|by rewrite andb_false_r, (bit_above 103 7) by lia].
  rewrite busy_bits, low_bits by lia. rewrite (Z.testbit_neg_r base (n - 16)), (Z.testbit_neg_r 0x89) by lia.
  rewrite (proj2 (Z.leb_gt 0 (n - 56))), !andb_false_r, !orb_false_r, andb_true_r by lia. done.
Qed.

Lemma busy_limit_high : Z.land (Z.shiftr busy_low 48) 0xf = 0.
Proof.
  change 0xf with (Z.ones 4). apply Z.bits_inj'. intros n Hn. rewrite bits_field, Z.shiftr_spec, Z.testbit_0_l by lia.
  destruct (Z.ltb_spec n 4); [|by rewrite andb_false_r]. rewrite busy_bits, low_bits by lia.
  rewrite (bit_above 103 7), (bit_above 0x89 8), (proj2 (Z.ltb_ge (n + 48 - 16) 24)), (proj2 (Z.leb_gt 0 (n + 48 - 56))) by lia.
  by rewrite !andb_false_r.
Qed.

(** The base the processor reads is the address of the segment. *)
Lemma busy_base :
  Z.land (Z.shiftr busy_low 16) 0xffffff + Z.shiftl (Z.land (Z.shiftr busy_low 56) 0xff) 24
  + Z.shiftl (snd (tss_descriptor base 103)) 32 = base.
Proof.
  rewrite busy_base_low, busy_base_high. cbn [tss_descriptor snd].
  change 0xffffff with (Z.ones 24). change 0xff with (Z.ones 8). apply (join_fields base 24 32); lia.
Qed.
End task_segment.

(** ** Installation *)

Record trampolines_ok (t : Trampolines) : Prop := {
  to_fits : Forall u64 [tr_tss t; tr_page_fault t; tr_general_protection t; tr_double_fault t; tr_task_trap t];
  to_apart : NoDup [tr_page_fault t; tr_general_protection t; tr_double_fault t; tr_task_trap t]
}.

Record descriptors_ok (d : Descriptors) : Prop := {
  dk_gdt : length (ds_gdt d) = GDT_LENGTH;
  dk_tss : length (ds_tss d) = TSS_LENGTH;
  dk_idt : length (ds_idt d) = IDT_LENGTH
}.

Definition installed_tss : list Z :=
  match build_tss (replicate TSS_LENGTH 0) with Some (_, tss) => tss | None => [] end.

Definition installed_gdt (t : Trampolines) : list Z :=
  [0; 0x00af9a000000ffff; 0x00cf92000000ffff; 0x00cff2000000ffff; 0x00affa000000ffff;
   busy_low (tr_tss t); snd (tss_descriptor (tr_tss t) 103)].

Definition installed_idt (t : Trampolines) : list IdtEntry :=
  <[128%nat := interrupt_gate (tr_task_trap t) 0 DPL3_INTERRUPT_GATE_ATTRIBUTES]>
  (<[8%nat := interrupt_gate (tr_double_fault t) DOUBLE_FAULT_IST 0x8e]>
  (<[13%nat := interrupt_gate (tr_general_protection t) 0 0x8e]>
  (<[14%nat := interrupt_gate (tr_page_fault t) 0 0x8e]> (replicate IDT_LENGTH IdtEntry_MISSING)))).

Definition installed_processor (t : Trampolines) : Processor :=
  mkProcessor (mkPointer 55 (tr_gdt t)) (mkPointer 4095 (tr_idt t)) TSS_SELECTOR KERNEL_CODE_SELECTOR
    KERNEL_DATA_SELECTOR 0 0 0 0.

Lemma build_idt_ok t : build_idt t (replicate IDT_LENGTH IdtEntry_MISSING) = Some (installed_idt t).
Proof.
  unfold build_idt, installed_idt. change (Z.to_nat PAGE_FAULT_VECTOR) with 14%nat.
  change (Z.to_nat GENERAL_PROTECTION_VECTOR) with 13%nat. change (Z.to_nat DOUBLE_FAULT_VECTOR) with 8%nat.
  change (Z.to_nat TASK_TRAP_VECTOR) with 128%nat.
  do 4 (rewrite array_set_lt by (rewrite ?length_insert, length_replicate; unfold IDT_LENGTH; lia); cbn [mbind option_bind]).
  done.
Qed.

Lemma load_segment_ok t :
  load_task_register [0; 0x00af9a000000ffff; 0x00cf92000000ffff; 0x00cff2000000ffff; 0x00affa000000ffff;
    fst (tss_descriptor (tr_tss t) 103); snd (tss_descriptor (tr_tss t) 103)] TSS_SELECTOR = Some (installed_gdt t).
Proof.
  unfold load_task_register. change (selector_index TSS_SELECTOR) with 5%nat. cbn [array_get lookup list_lookup mbind option_bind].
  by rewrite low_available.
Qed.

Lemma install_eq t d cpu :
  descriptors_ok d ->
  install_descriptor_tables t d cpu =
  Some (Ok tt, mkDescriptors (installed_gdt t) installed_tss (installed_idt t), installed_processor t).
Proof.
  intros [H1 H2 H3]. unfold install_descriptor_tables. rewrite H1, H2, H3.
  change (write_segments (replicate GDT_LENGTH 0))
    with (Some [0; 0x00af9a000000ffff; 0x00cf92000000ffff; 0x00cff2000000ffff; 0x00affa000000ffff; 0; 0]).
  cbn [mbind option_bind]. change (build_tss (replicate TSS_LENGTH 0)) with (Some (Ok (E:=IsolationError) tt, installed_tss)).
  cbn [mbind option_bind]. unfold write_task_segment. destruct (tss_descriptor (tr_tss t) 103) as [low high] eqn:E.
  cbn [array_set length Nat.ltb Nat.leb insert list_insert mbind option_bind]. rewrite build_idt_ok. cbn [mbind option_bind].
  pose proof (load_segment_ok t) as Hl. rewrite E in Hl. cbn [fst snd] in Hl. unfold load_tables. rewrite Hl. done.
Qed.

(** ** Delivery *)

Record routes (t : Trampolines) (d : Descriptors) (cpu : Processor) : Prop := {
  ro_software : forall vector, deliver d cpu true vector =
    if vector =? TASK_TRAP_VECTOR then Some (tr_task_trap t, RECOVERY_STACK_TOP) else None;
  ro_fault : forall vector, deliver d cpu false vector =
    if vector =? PAGE_FAULT_VECTOR then Some (tr_page_fault t, RECOVERY_STACK_TOP)
    else if vector =? GENERAL_PROTECTION_VECTOR then Some (tr_general_protection t, RECOVERY_STACK_TOP)
    else if vector =? DOUBLE_FAULT_VECTOR then Some (tr_double_fault t, DOUBLE_FAULT_STACK_TOP)
    else if vector =? TASK_TRAP_VECTOR then Some (tr_task_trap t, RECOVERY_STACK_TOP)
    else None
}.

(** The entry of a vector. *)
Lemma installed_entry t vector :
  0 <= vector < 256 ->
  installed_idt t !! Z.to_nat vector = Some
    (if vector =? TASK_TRAP_VECTOR then interrupt_gate (tr_task_trap t) 0 DPL3_INTERRUPT_GATE_ATTRIBUTES
     else if vector =? DOUBLE_FAULT_VECTOR then interrupt_gate (tr_double_fault t) DOUBLE_FAULT_IST 0x8e
     else if vector =? GENERAL_PROTECTION_VECTOR then interrupt_gate (tr_general_protection t) 0 0x8e
     else if vector =? PAGE_FAULT_VECTOR then interrupt_gate (tr_page_fault t) 0 0x8e
     else IdtEntry_MISSING).
Proof.
  intros Hv. unfold installed_idt, TASK_TRAP_VECTOR, DOUBLE_FAULT_VECTOR, GENERAL_PROTECTION_VECTOR, PAGE_FAULT_VECTOR.
  destruct (Z.eqb_spec vector 128) as [->|H1]; [done|]. rewrite list_lookup_insert_ne by lia.
  destruct (Z.eqb_spec vector 8) as [->|H2]; [done|]. rewrite list_lookup_insert_ne by lia.
  destruct (Z.eqb_spec vector 13) as [->|H3]; [done|]. rewrite list_lookup_insert_ne by lia.
  destruct (Z.eqb_spec vector 14) as [->|H4]; [done|]. rewrite list_lookup_insert_ne by lia.
  apply lookup_replicate_2. unfold IDT_LENGTH. lia.
Qed.

Lemma installed_routes t :
  trampolines_ok t -> routes t (mkDescriptors (installed_gdt t) installed_tss (installed_idt t)) (installed_processor t).
Proof.
  intros [Hf _]. repeat (apply Forall_cons in Hf as [? Hf]).
  assert (Hd : forall software vector,
    deliver (mkDescriptors (installed_gdt t) installed_tss (installed_idt t)) (installed_processor t) software vector =
    if vector =? TASK_TRAP_VECTOR then Some (tr_task_trap t, RECOVERY_STACK_TOP)
    else if software then None
    else if vector =? DOUBLE_FAULT_VECTOR then Some (tr_double_fault t, DOUBLE_FAULT_STACK_TOP)
    else if vector =? GENERAL_PROTECTION_VECTOR then Some (tr_general_protection t, RECOVERY_STACK_TOP)
    else if vector =? PAGE_FAULT_VECTOR then Some (tr_page_fault t, RECOVERY_STACK_TOP) else None).
  { intros software vector. unfold deliver. cbn [installed_processor pr_idtr tp_limit ds_idt ds_tss].
    destruct (decide (0 <= vector < 256)) as [Hv|Hv].
    2: { rewrite (proj2 (Z.eqb_neq vector TASK_TRAP_VECTOR)), (proj2 (Z.eqb_neq vector DOUBLE_FAULT_VECTOR)),
           (proj2 (Z.eqb_neq vector GENERAL_PROTECTION_VECTOR)), (proj2 (Z.eqb_neq vector PAGE_FAULT_VECTOR))
           by (unfold TASK_TRAP_VECTOR, DOUBLE_FAULT_VECTOR, GENERAL_PROTECTION_VECTOR, PAGE_FAULT_VECTOR; lia).
         destruct (Z.leb_spec 0 vector), (Z.leb_spec (16 * vector + 15) 4095); cbn [andb negb]; try lia; by destruct software. }
    rewrite (proj2 (Z.leb_le 0 vector)), (proj2 (Z.leb_le (16 * vector + 15) 4095)) by lia. cbn [andb negb].
    unfold array_get. rewrite installed_entry by done. cbn [mbind option_bind].
    destruct (vector =? TASK_TRAP_VECTOR); [rewrite gate_handler_exact by done; by destruct software|].
    destruct (vector =? DOUBLE_FAULT_VECTOR); [rewrite gate_handler_exact by done; by destruct software|].
    destruct (vector =? GENERAL_PROTECTION_VECTOR); [rewrite gate_handler_exact by done; by destruct software|].
    destruct (vector =? PAGE_FAULT_VECTOR); [rewrite gate_handler_exact by done; by destruct software|].
    by destruct software. }
  split; intros vector; rewrite Hd; [done|].
  destruct (Z.eqb_spec vector PAGE_FAULT_VECTOR) as [->|]; [done|].
  destruct (Z.eqb_spec vector GENERAL_PROTECTION_VECTOR) as [->|]; [done|].
  destruct (Z.eqb_spec vector DOUBLE_FAULT_VECTOR) as [->|]; [done|]. done.
Qed.

(** Every present gate is an interrupt gate into the kernel's code segment, so
    interrupts stay off in the kernel. *)
Definition gate_ok (e : IdtEntry) : Prop :=
  gate_present e = true -> gate_type e = 0xe /\ ie_selector e = KERNEL_CODE_SELECTOR.

Lemma installed_gates t : Forall gate_ok (installed_idt t).
Proof.
  unfold installed_idt.
  do 4 (apply Forall_insert; [|by intros _]). apply Forall_replicate. done.
Qed.

(** What the processor reads from the segment table. *)
Record segments_ok (t : Trampolines) (d : Descriptors) (cpu : Processor) : Prop := {
  sk_code : is_long_code <$> ds_gdt d !! selector_index (pr_code cpu) = Some true;
  sk_user_code : is_long_code <$> ds_gdt d !! selector_index USER_CODE_SELECTOR = Some true;
  sk_data : is_writable_data <$> ds_gdt d !! selector_index (pr_data cpu) = Some true;
  sk_user_data : is_writable_data <$> ds_gdt d !! selector_index USER_DATA_SELECTOR = Some true;
  sk_kernel_level : segment_dpl (ds_gdt d) (pr_code cpu) = Some 0 /\ segment_dpl (ds_gdt d) (pr_data cpu) = Some 0;
  sk_user_level : segment_dpl (ds_gdt d) USER_CODE_SELECTOR = Some 3 /\ segment_dpl (ds_gdt d) USER_DATA_SELECTOR = Some 3;
  sk_tss_base : segment_base (ds_gdt d) (pr_task_register cpu) = Some (tr_tss t);
  sk_tss_limit : exists limit bitmap, segment_limit (ds_gdt d) (pr_task_register cpu) = Some limit /\
    read_tss_u16 (ds_tss d) 102 = Some bitmap /\ limit < bitmap
}.

Lemma installed_segments t :
  trampolines_ok t -> segments_ok t (mkDescriptors (installed_gdt t) installed_tss (installed_idt t)) (installed_processor t).
Proof.
  intros [Hf _]. apply Forall_cons in Hf as [Hb _]. split; try done.
  - unfold segment_base. change (selector_index (pr_task_register (installed_processor t))) with 5%nat.
    cbn [ds_gdt installed_gdt array_get lookup list_lookup mbind option_bind]. by rewrite busy_base.
  - exists 103, 104. unfold segment_limit. change (selector_index (pr_task_register (installed_processor t))) with 5%nat.
    cbn [ds_gdt installed_gdt array_get lookup list_lookup mbind option_bind]. rewrite busy_limit, busy_limit_high. by split_and!.
Qed.

(** C29: installing the descriptor tables never panics and never fails, and the
    processor reads back what was meant: from user mode an instruction reaches
    only the trap trampoline, page faults, protection faults and double faults
    reach their own trampolines, each on its stack, and no other vector reaches
    anything; every gate keeps interrupts off; the user segments are ring 3 and
    the kernel's ring 0; the task register names the task-state segment, whose
    I/O bitmap lies past its limit. *)
Theorem descriptor_tables_exact t d cpu :
  trampolines_ok t -> descriptors_ok d ->
  exists d' cpu', install_descriptor_tables t d cpu = Some (Ok tt, d', cpu') /\ descriptors_ok d' /\
    routes t d' cpu' /\ Forall gate_ok (ds_idt d') /\ segments_ok t d' cpu'.
Proof.
  intros Ht Hd. eexists _, _. split; [by apply install_eq|]. split_and!.
  - split; [done|done|]. cbn [ds_idt]. unfold installed_idt. by rewrite !length_insert, length_replicate.
  - by apply installed_routes.
  - apply installed_gates.
  - by apply installed_segments.
Qed.

Definition trampolines_example : Trampolines :=
  mkTrampolines 0x110000 0x111000 0x112000 0x100100 0x100200 0x100300 0x100400.

Lemma trampolines_example_ok : trampolines_ok trampolines_example.
Proof.
  split; [|apply (bool_decide_unpack _); by vm_compute].
  repeat (apply Forall_cons; split; [by vm_compute|]). constructor.
Qed.

Definition processor_example : Processor := mkProcessor (mkPointer 0 0) (mkPointer 0 0) 0 0 0 0 0 0 0.

Lemma descriptor_tables_exact_witness :
  exists d' cpu', install_descriptor_tables trampolines_example descriptors_new processor_example = Some (Ok tt, d', cpu') /\
    deliver d' cpu' true 128 = Some (0x100400, RECOVERY_STACK_TOP) /\ deliver d' cpu' true 14 = None.
Proof.
  destruct (descriptor_tables_exact trampolines_example descriptors_new processor_example trampolines_example_ok)
    as (d' & cpu' & Hi & _ & Hr & _).
  - split; reflexivity.
  - exists d', cpu'. split; [exact Hi|]. split; [exact (ro_software _ _ _ Hr 128)|exact (ro_software _ _ _ Hr 14)].
Defined.
