(* ===== verification/KernelScheduler.v ===== *)
(** * The kernel's control flow

    Models the rest of [kernel/src/arch_x86_64.rs]: entering the recovery
    context, the isolation probe, the three schedulers, the resumption of a task,
    the dispatch of its traps, the teardown of an exited task, the final checks
    and the dispatch of exceptions, with the messages of [kernel/src/main.rs].

    The kernel's statics are the fields of [Kernel].  Its functions never return:
    each ends in a [Control], which is the end of the machine, a panic, or a
    return to user mode with the registers that are loaded.  The assembly stubs
    are modelled by what they load; the kernel's stacks are not part of memory. *)

From Stdlib Require Import String.
From stdpp Require Import gmap.
From S2P Require Import Prelude.
From S2P Require Import RuntimeTypes.
From S2P Require Import Capability.
From S2P Require Import Journal.
From S2P Require Import Runtime.
From S2P Require Import RuntimeOps.
From S2P Require Import Journaled.
From S2P Require Import Panic.
From S2P Require Import FrameAllocator.
From S2P Require Import AddressSpace.
From S2P Require Import PageTables.
From S2P Require Import KernelBackend.
From S2P Require Import KernelDescriptors.

#[local] Open Scope string_scope.
#[local] Open Scope Z_scope.

Definition TASK_ID : Z := 1.
Definition QEMU_SUCCESS : Z := 0x10.
Definition QEMU_FAILURE : Z := 0x11.

(** ** The runtime of the kernel *)

Inductive KernelRuntime :=
| KernelBase (runtime : Runtime)
| KernelJournaled (runtime : JournaledRuntime).

Inductive KernelRuntimeKind := KindCooperative | KindSupervised | KindJournaled.

Definition kr_kind (kr : KernelRuntime) : KernelRuntimeKind :=
  match kr with
  | KernelBase runtime => match rt_profile runtime with Cooperative => KindCooperative | Supervised => KindSupervised end
  | KernelJournaled _ => KindJournaled
  end.

(** The runtime the reading methods ask: a journaled runtime delegates them. *)
Definition kr_runtime (kr : KernelRuntime) : Runtime :=
  match kr with KernelBase runtime => runtime | KernelJournaled runtime => jr_runtime runtime end.

Definition kr_state (kr : KernelRuntime) (task : Z) : result TaskState RuntimeError := rt_state (kr_runtime kr) task.
Definition kr_generation (kr : KernelRuntime) (task : Z) : result Z RuntimeError := rt_generation (kr_runtime kr) task.
Definition kr_context (kr : KernelRuntime) (task : Z) : result TaskContextV1 RuntimeError := rt_context (kr_runtime kr) task.
Definition kr_queue (kr : KernelRuntime) : list Z * nat := (rq_entries (rt_queue (kr_runtime kr)), rq_len (rt_queue (kr_runtime kr))).
Definition kr_endpoint (kr : KernelRuntime) : EndpointSnapshot := rt_endpoint (kr_runtime kr).
Definition kr_manifest_publication (kr : KernelRuntime) : ManifestPublication := rt_manifest (kr_runtime kr).
Definition kr_approval_broker (kr : KernelRuntime) : ApprovalBroker := rt_broker (kr_runtime kr).
Definition kr_synthetic_effect (kr : KernelRuntime) : SyntheticEffect := rt_effect (kr_runtime kr).
Definition kr_capability_table (kr : KernelRuntime) (task : Z) : result CapabilityTableSnapshot RuntimeError :=
  rt_capability_table (kr_runtime kr) task.
Definition kr_running_task (kr : KernelRuntime) : result Z RuntimeError := running_task (kr_runtime kr).

(** A method of either runtime. *)
Definition kr_method {A} (base : M Runtime RuntimeError A) (journaled : M JournaledRuntime RuntimeError A)
    : M KernelRuntime RuntimeError A := fun kr =>
  match kr with
  | KernelBase runtime => let '(res, runtime') := base runtime in (res, KernelBase runtime')
  | KernelJournaled runtime => let '(res, runtime') := journaled runtime in (res, KernelJournaled runtime')
  end.

Definition kr_capture_trap (task : Z) (frame : TrapFrameV1) (root generation : Z) : M KernelRuntime RuntimeError unit :=
  kr_method (capture_trap task frame root generation) (jr_capture_trap task frame root generation).
Definition kr_handle_trap (task : Z) : M KernelRuntime RuntimeError TrapOutcome :=
  kr_method (handle_trap task) (jr_handle_trap task).
Definition kr_begin_teardown (task : Z) : M KernelRuntime RuntimeError unit :=
  kr_method (begin_teardown task) (jr_begin_teardown task).
Definition kr_complete_teardown (task : Z) : M KernelRuntime RuntimeError (option Z) :=
  kr_method (complete_teardown task) (jr_complete_teardown task).
Definition kr_dispatch_next : M KernelRuntime RuntimeError (option Z) :=
  kr_method dispatch_next jr_dispatch_next.
Definition kr_validate (kr : KernelRuntime) : result unit RuntimeError :=
  match kr with KernelBase runtime => validate runtime | KernelJournaled runtime => jr_validate runtime end.

(** ** The statics *)

Record ActiveContext := mkActiveContext {
  ac_present : bool;
  ac_task : Z;
  ac_task_root : Z;
  ac_recovery_root : Z;
  ac_recovery_stack : Z;
  ac_continuation : Z
}.

Definition ActiveContext_new : ActiveContext := mkActiveContext false 0 0 0 0 0.

Record TaskOwners := mkTaskOwners {
  to_sender : option AddressSpaceOwner;
  to_receiver : option AddressSpaceOwner
}.

Definition TaskOwners_new : TaskOwners := mkTaskOwners None None.

Definition owners_get (o : TaskOwners) (task : Z) : option AddressSpaceOwner :=
  if task =? SENDER_TASK_ID then to_sender o
  else if task =? RECEIVER_TASK_ID then to_receiver o
  else None.

(** What a write through [get_mut] leaves. *)
Definition owners_put (o : TaskOwners) (task : Z) (owner : AddressSpaceOwner) : TaskOwners :=
  if task =? SENDER_TASK_ID then mkTaskOwners (Some owner) (to_receiver o)
  else if task =? RECEIVER_TASK_ID then mkTaskOwners (to_sender o) (Some owner)
  else o.

Definition owners_take (o : TaskOwners) (task : Z) : option AddressSpaceOwner * TaskOwners :=
  if task =? SENDER_TASK_ID then (to_sender o, mkTaskOwners None (to_receiver o))
  else if task =? RECEIVER_TASK_ID then (to_receiver o, mkTaskOwners (to_sender o) None)
  else (None, o).

Definition is_none {A} (o : option A) : bool := match o with None => true | Some _ => false end.

Definition owners_is_empty (o : TaskOwners) : bool := is_none (to_sender o) && is_none (to_receiver o).

(** Memory and the recovery state are in the machine; [kn_serial] is what was
    written to the serial port. *)
Record Kernel := mkKernel {
  kn_machine : Machine;
  kn_descriptors : Descriptors;
  kn_processor : Processor;
  kn_task_owner : option AddressSpaceOwner;
  kn_task_owners : TaskOwners;
  kn_task_runtime : option KernelRuntime;
  kn_current_task : Z;
  kn_active_context : ActiveContext;
  kn_serial : list string
}.

Definition with_machine (m : Machine) (k : Kernel) : Kernel :=
  mkKernel m (kn_descriptors k) (kn_processor k) (kn_task_owner k) (kn_task_owners k)
    (kn_task_runtime k) (kn_current_task k) (kn_active_context k) (kn_serial k).
Definition with_tables (d : Descriptors) (cpu : Processor) (k : Kernel) : Kernel :=
  mkKernel (kn_machine k) d cpu (kn_task_owner k) (kn_task_owners k)
    (kn_task_runtime k) (kn_current_task k) (kn_active_context k) (kn_serial k).
Definition with_task_owner (o : option AddressSpaceOwner) (k : Kernel) : Kernel :=
  mkKernel (kn_machine k) (kn_descriptors k) (kn_processor k) o (kn_task_owners k)
    (kn_task_runtime k) (kn_current_task k) (kn_active_context k) (kn_serial k).
Definition with_owners (o : TaskOwners) (k : Kernel) : Kernel :=
  mkKernel (kn_machine k) (kn_descriptors k) (kn_processor k) (kn_task_owner k) o
    (kn_task_runtime k) (kn_current_task k) (kn_active_context k) (kn_serial k).
Definition with_runtime (r : option KernelRuntime) (k : Kernel) : Kernel :=
  mkKernel (kn_machine k) (kn_descriptors k) (kn_processor k) (kn_task_owner k) (kn_task_owners k)
    r (kn_current_task k) (kn_active_context k) (kn_serial k).
Definition with_active (task : Z) (c : ActiveContext) (k : Kernel) : Kernel :=
  mkKernel (kn_machine k) (kn_descriptors k) (kn_processor k) (kn_task_owner k) (kn_task_owners k)
    (kn_task_runtime k) task c (kn_serial k).
Definition write_str (s : string) (k : Kernel) : Kernel :=
  mkKernel (kn_machine k) (kn_descriptors k) (kn_processor k) (kn_task_owner k) (kn_task_owners k)
    (kn_task_runtime k) (kn_current_task k) (kn_active_context k) (kn_serial k ++ [s])%list.

(** The register [cr3]. *)
Definition set_cr3 (root : Z) (m : Machine) : Machine :=
  mkMachine (km_allocator m) (km_journaled_probes m) (km_recovery m) (km_words m) root.

(** [KernelBackend { allocator, journaled_probes }] *)
Definition set_probes (journaled : bool) (m : Machine) : Machine :=
  mkMachine (km_allocator m) journaled (km_recovery m) (km_words m) (km_cr3 m).

(** ** Ends *)

(** The state user mode starts with: the frame [iretq] pops, and the general
    registers when the stub loads them all. *)
Record UserEntry := mkUserEntry {
  ue_rip : Z;
  ue_cs : Z;
  ue_rflags : Z;
  ue_rsp : Z;
  ue_ss : Z;
  ue_registers : option (list Z)
}.

(** [Exit] is the debug port's code; [Stopped] is a panic or a fault of the
    kernel; [User] is user mode under the root in [cr3]. *)
Inductive Control :=
| Exit (code : Z) (k : Kernel)
| Stopped
| User (entry : UserEntry) (k : Kernel).

Definition CRLF : string := String (Ascii.ascii_of_nat 13) (String (Ascii.ascii_of_nat 10) "").

Definition kernel_failure (reason : string) (k : Kernel) : Control :=
  Exit QEMU_FAILURE (write_str CRLF (write_str reason (write_str "MakopaOS isolation error: " k))).

(** [value.unwrap_or_else(|| kernel_failure(reason))] *)
Definition expect {A} (value : option A) (reason : string) (k : Kernel) (continue : A -> Control) : Control :=
  match value with Some a => continue a | None => kernel_failure reason k end.

(** A call on the backend; a panic or a fault of the kernel stops it. *)
Definition on_backend {A} (p : P (option Machine) A) (k : Kernel) (continue : A -> Kernel -> Control) : Control :=
  match p (Some (kn_machine k)) with
  | Some (a, Some m) => continue a (with_machine m k)
  | _ => Stopped
  end.

Definition makopa_resume_task (context : TaskContextV1) (k : Kernel) : Control :=
  User {| ue_rip := tc_rip context; ue_cs := tc_cs context; ue_rflags := tc_rflags context;
          ue_rsp := tc_rsp context; ue_ss := tc_ss context; ue_registers := Some (context_gprs context) |}
    (with_machine (set_cr3 (tc_root context) (kn_machine k)) k).

Definition makopa_enter_user (task_root instruction_pointer stack_pointer : Z) (k : Kernel) : Control :=
  User {| ue_rip := instruction_pointer; ue_cs := USER_CODE_SELECTOR; ue_rflags := 2;
          ue_rsp := stack_pointer; ue_ss := USER_DATA_SELECTOR; ue_registers := None |}
    (with_machine (set_cr3 task_root (kn_machine k)) k).

Definition task_context_policy : ContextPolicy :=
  {| cp_text_start := USER_TEXT;
     cp_text_end := USER_TEXT + PAGE_SIZE;
     cp_stack_start := USER_STACK;
     cp_stack_end := USER_STACK_TOP;
     cp_user_code := USER_CODE_SELECTOR;
     cp_user_data := USER_DATA_SELECTOR |}.

(** ** Resuming a task *)

Definition ok {A E} (r : result A E) : option A := match r with Ok a => Some a | Err _ => None end.

Definition resume_scheduled_task (task : Z) (k : Kernel) : Control :=
  expect (kn_task_runtime k) "task runtime missing" k (fun runtime =>
  if negb (bool_decide (kr_running_task runtime = Ok task))
     || negb (bool_decide (kr_state runtime task = Ok Running))
  then kernel_failure "scheduler selected state" k else
  expect (ok (kr_generation runtime task)) "task generation missing" k (fun generation =>
  expect (owners_get (kn_task_owners k) task) "task owner missing" k (fun owner =>
  expect (ow_root owner) "task root missing" k (fun root =>
  if negb (bool_decide (ow_state owner = Inactive)) || negb (ow_generation owner =? generation)
  then kernel_failure "task owner state" k else
  expect (ok (kr_context runtime task)) "task context missing" k (fun context =>
  if is_err (context_validate context task generation root task_context_policy)
  then kernel_failure "task context validation" k else
  let '(activated, owner) := activate owner in
  let k := with_owners (owners_put (kn_task_owners k) task owner) k in
  if is_err activated then kernel_failure "task owner activation" k else
  let k := with_active task
    {| ac_present := true; ac_task := task; ac_task_root := root;
       ac_recovery_root := rs_root (km_recovery (kn_machine k));
       ac_recovery_stack := RECOVERY_STACK_TOP; ac_continuation := 0 |} k in
  makopa_resume_task context k))))).

(** ** Starting the schedulers *)

Section kernel.
Variables (linkage : Linkage) (probes : ProbeSymbols) (trampolines : Trampolines).
(** The address of [isolation_continuation]. *)
Variable continuation_address : Z.

#[local] Instance backend : AddressSpaceBackend (option Machine) IsolationError := KernelBackend linkage probes.

(** The names in the messages of a scheduler. *)
Record SchedulerNames := mkNames { sn_scheduler : string; sn_first : string; sn_second : string }.

Definition reason (n : SchedulerNames) (what : string) : string := (sn_scheduler n ++ " " ++ what)%string.

(** The arms of the failed construction. *)
Definition pair_failure (n : SchedulerNames) (f : PairBuildFailure IsolationError) (k : Kernel) : Control :=
  match f with
  | PairFirst failure =>
      if is_none (bf_rollback_error failure) && (fl_len (bf_retained failure) =? 0)%nat
      then kernel_failure (reason n "first address space") k
      else kernel_failure (reason n "construction rollback") k
  | PairSecond second first_teardown =>
      if is_none (bf_rollback_error second) && (fl_len (bf_retained second) =? 0)%nat && is_none first_teardown
      then kernel_failure (reason n "second address space") k
      else kernel_failure (reason n "construction rollback") k
  end.

Definition initial_context (task generation root : Z) : TaskContextV1 :=
  context_initial task generation root USER_TEXT USER_STACK_TOP USER_CODE_SELECTOR USER_DATA_SELECTOR.

Definition context_ok (context : TaskContextV1) (task generation root : Z) : bool :=
  is_ok (context_validate context task generation root task_context_policy).

(** The publication is undone when a context or the runtime is refused. *)
Definition publication_rollback (n : SchedulerNames) (first second : AddressSpaceOwner) (k : Kernel) : Control :=
  on_backend (teardown_checked second) k (fun second_result k =>
  on_backend (teardown_checked first) k (fun first_result k =>
  if negb (is_ok second_result) || negb (is_ok first_result)
  then kernel_failure (reason n "publication rollback") k
  else kernel_failure (reason n "initial context") k)).

(** The first task to run; the supervised schedulers accept only the
    supervisor. *)
Definition first_dispatch (supervised : bool) (runtime : KernelRuntime) : option Z * KernelRuntime :=
  let '(res, runtime) := kr_dispatch_next runtime in
  (match res with
   | Ok (Some task) => if supervised && negb (task =? SENDER_TASK_ID) then None else Some task
   | _ => None
   end, runtime).

(** The body the three schedulers share: the pair of spaces of the two
    generations, the contexts, the runtime [construct] builds of them, the first
    dispatch and the publication of owners and runtime. *)
Definition start_scheduler (n : SchedulerNames) (journaled supervised : bool) (first_generation second_generation : Z)
    (construct : TaskContextV1 -> TaskContextV1 -> option KernelRuntime) (k : Kernel) : Control :=
  let recovery := km_recovery (kn_machine k) in
  if negb (rs_ready recovery) || negb (read_cr3 (kn_machine k) =? rs_root recovery)
  then kernel_failure (reason n "recovery root") k else
  if negb (is_none (kn_task_owner k)) || negb (is_none (kn_task_runtime k))
     || negb (owners_is_empty (kn_task_owners k))
  then kernel_failure (reason n "publication state") k else
  let k := with_machine (set_probes journaled (kn_machine k)) k in
  on_backend (construct_address_space_pair first_generation second_generation) k (fun built k =>
  match built with
  | Err failure => pair_failure n failure k
  | Ok owners =>
      expect (ow_root (ap_first owners)) (sn_first n ++ " root missing") k (fun first_root =>
      expect (ow_root (ap_second owners)) (sn_second n ++ " root missing") k (fun second_root =>
      let first_context := initial_context SENDER_TASK_ID first_generation first_root in
      let second_context := initial_context RECEIVER_TASK_ID second_generation second_root in
      let contexts_valid :=
        context_ok first_context SENDER_TASK_ID first_generation first_root
        && context_ok second_context RECEIVER_TASK_ID second_generation second_root in
      match construct first_context second_context with
      | Some runtime =>
          if negb contexts_valid then publication_rollback n (ap_first owners) (ap_second owners) k else
          let '(next, runtime) := first_dispatch supervised runtime in
          expect next (reason n "initial dispatch") k (fun next =>
          let k := with_owners (mkTaskOwners (Some (ap_first owners)) (Some (ap_second owners))) k in
          let k := with_runtime (Some runtime) k in
          resume_scheduled_task next k)
      | None => publication_rollback n (ap_first owners) (ap_second owners) k
      end))
  end).

Definition run_scheduler (k : Kernel) : Control :=
  start_scheduler (mkNames "scheduler" "sender" "receiver") false false SENDER_GENERATION RECEIVER_GENERATION
    (fun sender receiver => KernelBase <$> ok (Runtime_new sender receiver)) k.

Definition run_supervised_scheduler (k : Kernel) : Control :=
  start_scheduler (mkNames "supervised" "supervisor" "workload") false true SUPERVISOR_GENERATION WORKLOAD_GENERATION
    (fun supervisor workload => KernelBase <$> ok (Runtime_new_supervised supervisor workload)) k.

Definition run_journaled_scheduler (k : Kernel) : Control :=
  start_scheduler (mkNames "journaled" "journaled supervisor" "journaled workload") true true
    SUPERVISOR_GENERATION WORKLOAD_GENERATION
    (fun supervisor workload => KernelJournaled <$> ok (JournaledRuntime_new_supervised supervisor workload)) k.

(** ** Messages between the phases, [main.rs] *)

Definition isolation_success (k : Kernel) : Control :=
  run_scheduler (write_str ("MakopaOS isolation v1 ok user-fault-contained" ++ CRLF) k).

Definition capability_success (k : Kernel) : Control :=
  run_supervised_scheduler
    (write_str ("MakopaOS capabilities v1 ok task-local-attenuation" ++ CRLF)
       (write_str ("MakopaOS ipc v1 ok cooperative-two-task" ++ CRLF) k)).

Definition approval_success (k : Kernel) : Control :=
  run_journaled_scheduler (write_str ("MakopaOS approval v1 ok staged-single-use" ++ CRLF) k).

Definition effect_journal_success (k : Kernel) : Control :=
  Exit QEMU_SUCCESS (write_str ("MakopaOS effects v1 ok ordered-redacted" ++ CRLF) k).

(** ** The final checks *)

(** One expected record: kind, status, epoch, actor, its generation, request,
    object type and rights. *)
Record ExpectedRecord := mkExpected {
  xr_kind : EffectEventKind;
  xr_status : TrapStatus;
  xr_epoch : Z;
  xr_actor : Z;
  xr_actor_generation : Z;
  xr_request_sequence : Z;
  xr_object_type : Z;
  xr_rights : Z
}.

Definition EXPECTED : list ExpectedRecord :=
  [mkExpected EvRequested StOk 2 2 5 1 OBJECT_TYPE_APPROVAL_BROKER CAPABILITY_RIGHT_SUBMIT_APPROVAL;
   mkExpected EvDenied ApprovalDenied 3 1 4 1 OBJECT_TYPE_APPROVAL_BROKER CAPABILITY_RIGHT_DECIDE_APPROVAL;
   mkExpected EvRequested StOk 4 2 5 2 OBJECT_TYPE_APPROVAL_BROKER CAPABILITY_RIGHT_SUBMIT_APPROVAL;
   mkExpected EvApproved StOk 5 1 4 2 OBJECT_TYPE_APPROVAL_BROKER CAPABILITY_RIGHT_DECIDE_APPROVAL;
   mkExpected EvExpired ApprovalExpired 6 1 4 2 OBJECT_TYPE_APPROVAL_BROKER CAPABILITY_RIGHT_DECIDE_APPROVAL;
   mkExpected EvRequested StOk 7 2 5 3 OBJECT_TYPE_APPROVAL_BROKER CAPABILITY_RIGHT_SUBMIT_APPROVAL;
   mkExpected EvApproved StOk 8 1 4 3 OBJECT_TYPE_APPROVAL_BROKER CAPABILITY_RIGHT_DECIDE_APPROVAL;
   mkExpected EvCompleted StOk 9 1 4 3 OBJECT_TYPE_TEST_EFFECT CAPABILITY_RIGHT_COMMIT_EFFECT;
   mkExpected EvRequested StOk 10 2 5 4 OBJECT_TYPE_APPROVAL_BROKER CAPABILITY_RIGHT_SUBMIT_APPROVAL;
   mkExpected EvApproved StOk 11 1 4 4 OBJECT_TYPE_APPROVAL_BROKER CAPABILITY_RIGHT_DECIDE_APPROVAL;
   mkExpected EvFailed EffectUnavailable 12 1 4 4 OBJECT_TYPE_TEST_EFFECT CAPABILITY_RIGHT_COMMIT_EFFECT].

Definition effect_record_mismatch (record : EffectRecordV1) (record_sequence : Z) (expected : ExpectedRecord) : bool :=
  negb (er_schema_version record =? EFFECT_RECORD_SCHEMA_VERSION)
  || negb (er_byte_size record =? EFFECT_RECORD_BYTE_SIZE)
  || negb (er_event_kind record =? event_code (xr_kind expected))
  || negb (er_status record =? status_code (xr_status expected))
  || negb (er_record_sequence record =? record_sequence)
  || negb (er_decision_epoch record =? xr_epoch expected)
  || negb (er_principal_id record =? PRINCIPAL_ID)
  || negb (er_actor_task_id record =? xr_actor expected)
  || negb (er_actor_task_generation record =? xr_actor_generation expected)
  || negb (er_subject_task_id record =? RECEIVER_TASK_ID)
  || negb (er_subject_task_generation record =? WORKLOAD_GENERATION)
  || negb (er_request_sequence record =? xr_request_sequence expected)
  || negb (er_action_id record =? APPROVAL_ACTION_ID_COMMIT_SYNTHETIC_VALUE)
  || negb (er_capability_object_type record =? xr_object_type expected)
  || negb (er_reserved_zero record =? 0)
  || negb (er_capability_object_id record =? 1)
  || negb (er_capability_object_generation record =? EFFECT_JOURNAL_OBJECT_GENERATION)
  || negb (er_capability_rights record =? xr_rights expected)
  || negb (er_trailing_reserved_zero record =? 0).

(** The loop over the expected records, from the sequence number [sequence]. *)
Fixpoint references_invalid (runtime : JournaledRuntime) (sequence : Z) (expected : list ExpectedRecord) : bool :=
  match expected with
  | [] => false
  | x :: rest =>
      match effect_record runtime sequence with
      | Err _ => true
      | Ok record => if effect_record_mismatch record sequence x then true else references_invalid runtime (sequence + 1) rest
      end
  end.

Definition journal_reference_invalid (runtime : JournaledRuntime) : bool := references_invalid runtime 1 EXPECTED.

(** [table.state != state || table.live_slots != 0], or no such task *)
Definition table_not (st : CapabilityTableState) (table : result CapabilityTableSnapshot RuntimeError) : bool :=
  match table with
  | Ok table => negb (bool_decide (cts_state table = st)) || negb (cts_live_slots table =? 0)
  | Err _ => true
  end.

Definition common_invalid (runtime : KernelRuntime) (k : Kernel) : bool :=
  is_err (kr_validate runtime)
  || negb (bool_decide (kr_state runtime SENDER_TASK_ID = Ok TaskDead))
  || negb (bool_decide (kr_state runtime RECEIVER_TASK_ID = Ok TaskDead))
  || negb (bool_decide (kr_generation runtime SENDER_TASK_ID = Ok 0))
  || negb (bool_decide (kr_generation runtime RECEIVER_TASK_ID = Ok 0))
  || table_not TableDead (kr_capability_table runtime SENDER_TASK_ID)
  || table_not TableDead (kr_capability_table runtime RECEIVER_TASK_ID)
  || negb (snd (kr_queue runtime) =? 0)%nat
  || negb (bool_decide (fst (kr_queue runtime) = [0; 0]))
  || negb (ep_object_generation (kr_endpoint runtime) =? 0)
  || negb (ep_sender_task (kr_endpoint runtime) =? 0)
  || negb (ep_sender_generation (kr_endpoint runtime) =? 0)
  || negb (ep_receiver_task (kr_endpoint runtime) =? 0)
  || negb (ep_receiver_generation (kr_endpoint runtime) =? 0)
  || ep_occupied (kr_endpoint runtime)
  || negb (ep_payload (kr_endpoint runtime) =? 0)
  || negb (owners_is_empty (kn_task_owners k))
  || negb (kn_current_task k =? 0)
  || ac_present (kn_active_context k).

(** The residue of manifest, broker and effect. *)
Definition supervision_invalid (runtime : KernelRuntime) : bool :=
  let manifest := kr_manifest_publication runtime in
  let broker := kr_approval_broker runtime in
  let effect := kr_synthetic_effect runtime in
  mp_published manifest
  || negb (mp_manifest_id manifest =? 0)
  || negb (bool_decide (ab_state broker = BrokerDead))
  || negb (ab_object_generation broker =? 0)
  || ab_request_present broker
  || negb (se_object_generation effect =? 0)
  || se_occupied effect
  || negb (se_value effect =? 0).

Definition profile_invalid (runtime : KernelRuntime) : bool :=
  match runtime with
  | KernelBase base =>
      if bool_decide (rt_profile base = Cooperative) then
        mp_published (kr_manifest_publication runtime)
        || negb (bool_decide (ab_state (kr_approval_broker runtime) = BrokerDead))
        || negb (se_object_generation (kr_synthetic_effect runtime) =? 0)
      else supervision_invalid runtime
  | KernelJournaled journaled =>
      let journal := jr_journal journaled in
      supervision_invalid runtime
      || negb (bool_decide (ej_state journal = JournalSealed))
      || negb (ej_object_generation journal =? EFFECT_JOURNAL_OBJECT_GENERATION)
      || negb (ej_committed_record_count journal =? 11)
      || negb (ej_reserved_record_count journal =? 0)
      || negb (ej_next_record_sequence journal =? 12)
      || journal_reference_invalid journaled
  end.

Definition scheduler_success (k : Kernel) : Control :=
  expect (kn_task_runtime k) "final runtime missing" k (fun runtime =>
  if common_invalid runtime k || profile_invalid runtime
  then kernel_failure "scheduler residual state" k else
  let finish k :=
    let k := with_runtime None k in
    match kr_kind runtime with
    | KindCooperative => capability_success k
    | KindSupervised => approval_success k
    | KindJournaled => effect_journal_success k
    end in
  match runtime with
  | KernelBase _ => finish k
  | KernelJournaled journaled =>
      let '(reclaimed, journaled) := finish_reclamation journaled in
      let k := with_runtime (Some (KernelJournaled journaled)) k in
      if is_err reclaimed || negb (bool_decide (ej_state (jr_journal journaled) = JournalDead))
         || is_err (jr_validate journaled)
      then kernel_failure "journal reclamation" k else finish k
  end).

(** ** Exits and traps *)

Definition teardown_exited_task (task : Z) (k : Kernel) : Control :=
  expect (kn_task_runtime k) "teardown runtime missing" k (fun runtime =>
  let '(begun, runtime) := kr_begin_teardown task runtime in
  let k := with_runtime (Some runtime) k in
  if is_err begun || table_not TableClosing (kr_capability_table runtime task)
  then kernel_failure "handle-first teardown" k else
  let k := with_active 0 ActiveContext_new k in
  let '(taken, owners) := owners_take (kn_task_owners k) task in
  let k := with_owners owners k in
  expect taken "exited owner missing" k (fun owner =>
  if negb (bool_decide (ow_state owner = Inactive)) then kernel_failure "exited owner active" k else
  let k := with_machine (set_probes false (kn_machine k)) k in
  on_backend (teardown_checked owner) k (fun torn k =>
  expect (ok torn) "exited owner teardown" k (fun dead =>
  if negb (bool_decide (ow_state dead = Dead)) || negb (fl_len (ow_ledger dead) =? 0)%nat
  then kernel_failure "exited ownership remains" k else
  let '(completed, runtime) := kr_complete_teardown task runtime in
  let k := with_runtime (Some runtime) k in
  expect (ok completed) "teardown state transition" k (fun next =>
  match next with
  | Some task => resume_scheduled_task task k
  | None => scheduler_success k
  end))))).

Definition TRAP_FRAME_SIZE : Z := 20 * 8.

(** [frame_address] is where the trampoline saved the frame. *)
Definition makopa_task_trap_dispatch (frame_address : Z) (captured : TrapFrameV1) (k : Kernel) : Control :=
  let recovery := km_recovery (kn_machine k) in
  let outside := match checked_add frame_address TRAP_FRAME_SIZE with
                 | Some frame_end => RECOVERY_STACK_TOP <? frame_end
                 | None => true
                 end in
  if negb (read_cr3 (kn_machine k) =? rs_root recovery) || (frame_address <? RECOVERY_STACK_BASE)
     || outside || negb (is_multiple_of frame_address 8)
  then kernel_failure "trap recovery boundary" k else
  let task := kn_current_task k in
  expect (kn_task_runtime k) "trap runtime missing" k (fun runtime =>
  if negb (bool_decide (kr_running_task runtime = Ok task)) then kernel_failure "trap running task" k else
  expect (owners_get (kn_task_owners k) task) "trap owner missing" k (fun owner =>
  if negb (bool_decide (ow_state owner = Active)) then kernel_failure "trap owner inactive" k else
  expect (ow_root owner) "trap root missing" k (fun root =>
  let active := kn_active_context k in
  if negb (ac_present active) || negb (ac_task active =? task) || negb (ac_task_root active =? root)
     || negb (ac_recovery_root active =? rs_root recovery)
     || negb (ac_recovery_stack active =? RECOVERY_STACK_TOP) || negb (ac_continuation active =? 0)
  then kernel_failure "trap active owner" k else
  let generation := ow_generation owner in
  let '(recovered, owner) := recover owner in
  let k := with_owners (owners_put (kn_task_owners k) task owner) k in
  if is_err recovered then kernel_failure "trap context capture" k else
  let '(saved, runtime) := kr_capture_trap task captured root generation runtime in
  let k := with_runtime (Some runtime) k in
  if is_err saved then kernel_failure "trap context capture" k else
  expect (context ← ok (kr_context runtime task);
          ok (context_validate context task generation root task_context_policy))
    "trap context capture" k (fun _ =>
  let '(handled, runtime) := kr_handle_trap task runtime in
  let k := with_runtime (Some runtime) k in
  expect (ok handled) "trap state transition" k (fun outcome =>
  match outcome with
  | OutResume next | OutSwitch next => resume_scheduled_task next (with_active 0 ActiveContext_new k)
  | OutExit exited => teardown_exited_task exited k
  end))))).

(** The trampoline starts on the entry stack, where the processor pushed five
    words, pushes the fifteen registers and switches to the recovery root.  It
    loads the first eight bytes of [RECOVERY_STATE] as that root: the structure is
    not [repr(C)], and the model takes [root] to be its first field in memory. *)
Definition makopa_task_trap_trampoline (stack : Z) (registers : TrapFrameV1) (k : Kernel) : Control :=
  makopa_task_trap_dispatch (stack - 5 * 8 - 15 * 8) registers
    (with_machine (set_cr3 (rs_root (km_recovery (kn_machine k))) (kn_machine k)) k).

(** ** The isolation probe *)

Definition isolation_entry (k : Kernel) : Control :=
  let state := km_recovery (kn_machine k) in
  if negb (read_cr3 (kn_machine k) =? rs_root state) then kernel_failure "recovery root switch" k else
  match install_descriptor_tables trampolines (kn_descriptors k) (kn_processor k) with
  | None => Stopped
  | Some (installed, descriptors, cpu) =>
      let k := with_tables descriptors cpu k in
      if is_err installed then kernel_failure "descriptor tables" k else
      let k := with_machine (set_probes false (kn_machine k)) k in
      on_backend (construct_address_space TASK_GENERATION) k (fun built k =>
      expect (ok built) "address-space construction" k (fun owner =>
      let '(activated, owner) := activate owner in
      if is_err activated then kernel_failure "address-space activation" k else
      expect (ow_root owner) "task root missing" k (fun task_root =>
      let k := with_active (kn_current_task k)
        {| ac_present := true; ac_task := TASK_ID; ac_task_root := task_root; ac_recovery_root := rs_root state;
           ac_recovery_stack := RECOVERY_STACK_TOP; ac_continuation := continuation_address |} k in
      let k := with_task_owner (Some owner) k in
      makopa_enter_user task_root USER_TEXT USER_STACK_TOP k)))
  end.

Definition activate_recovery_context (k : Kernel) : Control :=
  let state := km_recovery (kn_machine k) in
  if negb (rs_ready state) || (rs_root state =? 0) || (BOOTSTRAP_PAGE_TABLE_FRAMES <? rs_pool_used state)%nat
  then kernel_failure "recovery context not ready" k
  else isolation_entry (with_machine (set_cr3 (rs_root state) (kn_machine k)) k).

Definition isolation_continuation (k : Kernel) : Control :=
  let state := km_recovery (kn_machine k) in
  if negb (read_cr3 (kn_machine k) =? rs_root state) then kernel_failure "recovery root restore" k else
  let taken := kn_task_owner k in
  let k := with_task_owner None k in
  expect taken "task owner missing" k (fun owner =>
  let '(recovered, owner) := recover owner in
  if is_err recovered then kernel_failure "task recovery state" k else
  let k := with_machine (set_probes false (kn_machine k)) k in
  on_backend (teardown_checked owner) k (fun torn k =>
  expect (ok torn) "address-space teardown" k (fun dead =>
  if negb (bool_decide (ow_state dead = Dead)) || negb (fl_len (ow_ledger dead) =? 0)%nat
  then kernel_failure "address-space ownership remains" k else
  isolation_success (with_active (kn_current_task k) ActiveContext_new k)))).

(** ** Exceptions *)

(** The words the processor pushed; the last two exist only when it came from
    user mode. *)
Record HardwareFrame := mkHardwareFrame {
  hf_error_code : Z;
  hf_instruction_pointer : Z;
  hf_code_selector : Z;
  hf_flags : Z;
  hf_stack_pointer : Z;
  hf_stack_selector : Z
}.

Record ParsedExceptionFrame := mkParsed {
  pf_error_code : Z;
  pf_instruction_pointer : Z;
  pf_code_selector : Z;
  pf_flags : Z;
  pf_user_stack_pointer : option Z;
  pf_user_stack_selector : option Z
}.

Definition parse_exception_frame (hardware : HardwareFrame) : ParsedExceptionFrame :=
  let from_user := Z.land (hf_code_selector hardware) 3 =? 3 in
  {| pf_error_code := hf_error_code hardware;
     pf_instruction_pointer := hf_instruction_pointer hardware;
     pf_code_selector := hf_code_selector hardware;
     pf_flags := hf_flags hardware;
     pf_user_stack_pointer := if from_user then Some (hf_stack_pointer hardware) else None;
     pf_user_stack_selector := if from_user then Some (hf_stack_selector hardware) else None |}.

(** The stub jumps to the continuation; the one the kernel stores is
    [isolation_continuation]. *)
Definition makopa_recover_from_user_fault (recovery_root continuation : Z) (k : Kernel) : Control :=
  if continuation =? continuation_address
  then isolation_continuation (with_machine (set_cr3 recovery_root (kn_machine k)) k)
  else Stopped.

Definition unexpected_frame (vector : Z) (frame : ParsedExceptionFrame) : bool :=
  negb (vector =? PAGE_FAULT_VECTOR)
  || is_none (pf_user_stack_pointer frame)
  || negb (bool_decide (pf_user_stack_selector frame = Some USER_DATA_SELECTOR))
  || (pf_instruction_pointer frame <? USER_TEXT)
  || (USER_TEXT + PAGE_SIZE <=? pf_instruction_pointer frame)
  || negb (Z.land (pf_flags frame) FORBIDDEN_RFLAGS =? 0).

Definition makopa_exception_dispatch (vector : Z) (hardware : HardwareFrame) (fault_address : Z) (k : Kernel) : Control :=
  let frame := parse_exception_frame hardware in
  if unexpected_frame vector frame then kernel_failure "unexpected exception frame" k else
  let context := kn_active_context k in
  let observation :=
    {| fo_expected_task := TASK_ID;
       fo_observed_task := ac_task context;
       fo_owner_state := match kn_task_owner k with Some owner => ow_state owner | None => Dead end;
       fo_expected_root := ac_task_root context;
       fo_current_root := read_cr3 (kn_machine k);
       fo_code_selector := pf_code_selector frame;
       fo_fault_address := fault_address;
       fo_error_code := pf_error_code frame |} in
  if negb (ac_present context) || (ac_recovery_root context =? 0)
     || negb (ac_recovery_stack context =? RECOVERY_STACK_TOP) || (ac_continuation context =? 0)
     || is_err (classify_expected_user_fault observation)
  then kernel_failure "user fault classification" k
  else makopa_recover_from_user_fault (ac_recovery_root context) (ac_continuation context) k.

Definition makopa_double_fault_dispatch (k : Kernel) : Control := kernel_failure "double fault" k.

(** The trampolines of the exceptions pass their vector and, for a page fault,
    the faulting address. *)
Definition makopa_page_fault_trampoline (hardware : HardwareFrame) (address : Z) (k : Kernel) : Control :=
  makopa_exception_dispatch 14 hardware address k.
Definition makopa_general_protection_trampoline (hardware : HardwareFrame) (k : Kernel) : Control :=
  makopa_exception_dispatch 13 hardware 0 k.
Definition makopa_double_fault_trampoline (k : Kernel) : Control := makopa_double_fault_dispatch k.

(** ** Leaving user mode *)

(** Why user mode ends: an interrupt instruction or an exception, with the
    registers of that moment. *)
Record UserEvent := mkUserEvent {
  ev_software : bool;
  ev_vector : Z;
  ev_registers : TrapFrameV1;
  ev_error_code : Z;
  ev_address : Z
}.

Definition hardware_frame (registers : TrapFrameV1) (error_code : Z) : HardwareFrame :=
  mkHardwareFrame error_code (tf_rip registers) (tf_cs registers) (tf_rflags registers) (tf_rsp registers) (tf_ss registers).

(** The processor jumps to a handler on a stack. *)
Definition enter_handler (handler stack : Z) (registers : TrapFrameV1) (error_code address : Z) (k : Kernel) : Control :=
  if handler =? tr_task_trap trampolines then makopa_task_trap_trampoline stack registers k
  else if handler =? tr_page_fault trampolines
  then makopa_page_fault_trampoline (hardware_frame registers error_code) address k
  else if handler =? tr_general_protection trampolines
  then makopa_general_protection_trampoline (hardware_frame registers error_code) k
  else if handler =? tr_double_fault trampolines then makopa_double_fault_trampoline k
  else Stopped.

(** The exceptions during whose delivery a protection fault becomes a double
    fault: the contributory ones and the page fault. *)
Definition escalates (event : UserEvent) : bool :=
  negb (ev_software event) && existsb (Z.eqb (ev_vector event)) [0; 10; 11; 12; 13; 14; 21].

(** A vector that cannot be delivered is a protection fault, whose error code names
    the vector and says whether the event was external to the instruction, or a
    double fault when it escalates. *)
Definition undelivered (event : UserEvent) (k : Kernel) : Control :=
  let fault := if escalates event then DOUBLE_FAULT_VECTOR else GENERAL_PROTECTION_VECTOR in
  let code := if escalates event then 0 else 8 * ev_vector event + 2 + (if ev_software event then 0 else 1) in
  match deliver (kn_descriptors k) (kn_processor k) false fault with
  | Some (handler, stack) => enter_handler handler stack (ev_registers event) code 0 k
  | None => Stopped
  end.

(** Delivery through the tables. *)
Definition on_event (event : UserEvent) (k : Kernel) : Control :=
  match deliver (kn_descriptors k) (kn_processor k) (ev_software event) (ev_vector event) with
  | Some (handler, stack) =>
      enter_handler handler stack (ev_registers event) (ev_error_code event) (ev_address event) k
  | None => undelivered event k
  end.
End kernel.
