(* ===== verification/KernelRuntimeProofs.v ===== *)
(** * The runtime as the kernel uses it

    One set of facts for both runtimes of [KernelRuntime]: what each method the
    kernel calls returns and keeps.  A task's identity is its generation and its
    saved context without the four registers a trap may write; no trap and no
    teardown of the other task changes it. *)

From S2P Require Import Prelude.
From S2P Require Import RuntimeTypes.
From S2P Require Import Capability.
From S2P Require Import CapabilityProofs.
From S2P Require Import Journal.
From S2P Require Import JournalProofs.
From S2P Require Import Runtime.
From S2P Require Import RuntimeOps.
From S2P Require Import Journaled.
From S2P Require Import RuntimeFrame.
From S2P Require Import RuntimeInv.
From S2P Require Import RuntimeProgress.
From S2P Require Import SupervisedProgress.
From S2P Require Import RuntimeTeardown.
From S2P Require Import RuntimeConstruct.
From S2P Require Import RuntimeTheorems.
From S2P Require Import JournaledInv.
From S2P Require Import JournaledTraps.
From S2P Require Import JournaledTeardown.
From S2P Require Import JournaledTheorems.
From S2P Require Import KernelScheduler.

(** ** Identities *)

Definition identity (s : TaskSlot) : Z * TaskContextV1 :=
  (ts_generation s, context_set_regs (ts_context s) 0 0 0 0).

Definition identities (r : Runtime) : (Z * TaskContextV1) * (Z * TaskContextV1) :=
  (identity (rt_task0 r), identity (rt_task1 r)).

(** A projection of the runtime that only the identities decide. *)
Definition j_identities (s : JournaledRuntime) := identities (jr_runtime s).

Lemma identities_slot r r' task :
  identities r' = identities r -> identity (task_slot r' task) = identity (task_slot r task).
Proof.
  intros H. pose proof (f_equal fst H) as H0. pose proof (f_equal snd H) as H1. unfold task_slot.
  by destruct (task =? _).
Qed.

(** The policy looks at nothing but the identity. *)
Lemma identity_validate s s' task g root policy :
  identity s' = identity s ->
  context_validate (ts_context s') task g root policy = context_validate (ts_context s) task g root policy.
Proof.
  intros Hid. pose proof (f_equal snd Hid) as Hc. cbn [identity snd] in Hc. unfold context_validate.
  assert (H : forall (A : Type) (f : TaskContextV1 -> A),
    (forall c, f (context_set_regs c 0 0 0 0) = f c) -> f (ts_context s') = f (ts_context s)).
  { intros A f Hf. rewrite <-(Hf (ts_context s')), <-(Hf (ts_context s)). by f_equal. }
  by rewrite (H _ tc_task_id), (H _ tc_generation), (H _ tc_root), (H _ tc_rip), (H _ tc_rsp), (H _ tc_cs),
    (H _ tc_ss), (H _ tc_rflags).
Qed.

Section Keeps.
Variable x : (Z * TaskContextV1) * (Z * TaskContextV1).

Lemma keeps_identities_slot_mut task g :
  (forall s, identity (g s) = identity s) -> keeps identities x (slot_mut task g).
Proof.
  intros Hg r res r' Hr. unfold slot_mut.
  destruct (task =? SENDER_TASK_ID); [intros [= _ <-]|destruct (task =? RECEIVER_TASK_ID); intros [= _ <-]];
    try done; unfold identities in *; simpl; by rewrite Hg.
Qed.

Lemma keeps_identities_result task st v : keeps identities x (set_result task st v).
Proof. by apply keeps_identities_slot_mut. Qed.
Lemma keeps_identities_state task st : keeps identities x (set_state task st).
Proof. by apply keeps_identities_slot_mut. Qed.
Lemma keeps_identities_push task : keeps identities x (rt_queue_push task).
Proof. intros r res r' Hr. unfold rt_queue_push. destruct (queue_push _ _). by intros [= _ <-]. Qed.
Lemma keeps_identities_pop : keeps identities x rt_queue_pop.
Proof. intros r res r' Hr. unfold rt_queue_pop. destruct (queue_pop _). by intros [= _ <-]. Qed.
Lemma keeps_identities_capabilities {E A} task (m : M CapabilityTable E A) : keeps identities x (on_capabilities task m).
Proof.
  apply keeps_bind; [apply keeps_read|]. intros s. destruct (m _).
  apply keeps_bind; [by apply keeps_identities_slot_mut|]. intros. apply keeps_ret.
Qed.
End Keeps.

#[export] Hint Resolve keeps_identities_result keeps_identities_state keeps_identities_push
  keeps_identities_pop keeps_identities_capabilities : keeps.

(** Through the operations a trap is made of. *)
Section KeepsOps.
Variable x : (Z * TaskContextV1) * (Z * TaskContextV1).

Lemma keeps_identities_dispatch : keeps identities x dispatch_next.
Proof. unfold dispatch_next. keeps_solve. Qed.
Lemma keeps_identities_routes routes : keeps identities x (install_routes routes).
Proof. induction routes as [|route rest IH]; simpl; keeps_solve. Qed.
End KeepsOps.

#[export] Hint Resolve keeps_identities_dispatch keeps_identities_routes : keeps.

Lemma trap_identities task x : keeps identities x (handle_trap task).
Proof.
  unfold handle_trap. apply keeps_transactional.
  unfold handle_trap_inner, yield_op, send, receive, exit, duplicate, close, start_workload,
    start_workload_with_failure, submit_approval, inspect_approval, decide_approval, commit_effect,
    fail_broker_epoch_exhaustion, wake_workload, resume_validated, resume_with, dispatch_some,
    endpoint_mut, broker_mut. cbv zeta.
  keeps_solve; try (by apply keeps_identities_slot_mut).
Qed.

(** ** The journaled runtime *)

Section KeepsJournaled.
Variable x : (Z * TaskContextV1) * (Z * TaskContextV1).

Lemma keeps_on_runtime {A} (m : M Runtime RuntimeError A) :
  keeps identities x m -> keeps j_identities x (on_runtime m).
Proof.
  intros Hm s res s' Hs. unfold on_runtime. destruct (m (jr_runtime s)) as [res' r'] eqn:E.
  intros [= _ <-]. unfold j_identities. by eapply Hm.
Qed.

Lemma keeps_on_journal {A} (m : M EffectJournalV1 EffectJournalError A) : keeps j_identities x (on_journal m).
Proof. intros s res s' Hs. unfold on_journal. destruct (m (jr_journal s)). by intros [= _ <-]. Qed.

Lemma keeps_runtime_result task st v : keeps j_identities x (on_runtime (set_result task st v)).
Proof. apply keeps_on_runtime. auto with keeps. Qed.
Lemma keeps_runtime_wake st v : keeps j_identities x (on_runtime (wake_workload st v)).
Proof. apply keeps_on_runtime. unfold wake_workload. keeps_solve. Qed.
Lemma keeps_runtime_broker g : keeps j_identities x (on_runtime (broker_mut g)).
Proof. apply keeps_on_runtime. unfold broker_mut. keeps_solve. Qed.
Lemma keeps_journal_output task st a b c : keeps j_identities x (set_journal_output task st a b c).
Proof. apply keeps_on_runtime. by apply keeps_identities_slot_mut. Qed.
Lemma keeps_set_runtime r : identities r = x -> keeps (E:=RuntimeError) j_identities x (modifyM (jr_set_runtime r)).
Proof. intros Hr s res s' _ [= _ <-]. done. Qed.
End KeepsJournaled.

#[export] Hint Resolve keeps_on_journal keeps_runtime_result keeps_runtime_wake keeps_runtime_broker
  keeps_journal_output keeps_set_runtime : keeps.

Section KeepsFollow.
Variables (before : JournaledRuntime) (x : (Z * TaskContextV1) * (Z * TaskContextV1)).
Hypothesis Hbefore : j_identities before = x.

Lemma keeps_restore record release : keeps j_identities x (append_or_restore before record release).
Proof. unfold append_or_restore. keeps_solve. Qed.
Lemma keeps_validate_or_restore : keeps j_identities x (validate_or_restore before).
Proof. unfold validate_or_restore. keeps_solve. Qed.
Lemma keeps_rollback_submit task e : keeps j_identities x (rollback_submit before task e).
Proof. unfold rollback_submit. cbv zeta. keeps_solve. Qed.
#[local] Hint Resolve keeps_restore keeps_validate_or_restore keeps_rollback_submit : keeps.

Lemma keeps_follow task input : keeps j_identities x (follow_trap before task input).
Proof.
  unfold follow_trap, follow_submit, follow_decide, follow_commit, follow_commit_failed. cbv zeta. keeps_solve.
Qed.
End KeepsFollow.

#[export] Hint Resolve keeps_validate_or_restore keeps_follow : keeps.

Lemma jr_trap_identities task x : keeps j_identities x (jr_handle_trap task).
Proof.
  unfold jr_handle_trap.
  assert (Hread : forall operation input, keeps j_identities x (handle_journal_read task operation input))
    by (intros; unfold handle_journal_read; cbv zeta; keeps_solve).
  apply keeps_bind; [apply keeps_read|intros running]. destruct (negb _); [apply keeps_throw|].
  apply keeps_bind; [apply keeps_read|intros input].
  assert (Hmain : keeps j_identities x (let! before := getM in
    match handle_trap task (jr_runtime before) with
    | (Err error, _) => do! putM before in throwM error
    | (Ok outcome, r') =>
        do! modifyM (jr_set_runtime r') in
        let! early := follow_trap before task input in
        match early with Some o => retM o | None => do! validate_or_restore before in retM outcome end
    end)).
  { apply keeps_get. intros before Hb. destruct (handle_trap task (jr_runtime before)) as [[o|e] r'] eqn:E.
    - assert (identities r' = x) by (by eapply trap_identities). keeps_solve.
    - keeps_solve. }
  destruct (TrapOperation_parse _) as [[]|]; auto.
Qed.

(** ** Teardown *)

Lemma keeps_capabilities_step {A} x task (m : M CapabilityTable RuntimeError A) :
  keeps identities x (capabilities_step task m).
Proof. unfold capabilities_step. keeps_solve. Qed.
#[export] Hint Resolve keeps_capabilities_step : keeps.

Lemma begin_identities task x : keeps identities x (begin_teardown task).
Proof.
  unfold begin_teardown. apply keeps_transactional.
  unfold begin_teardown_inner, begin_teardown_supervised, begin_teardown_cooperative, wake_workload,
    endpoint_mut, broker_mut. cbv zeta. keeps_solve; try (by apply keeps_identities_slot_mut).
Qed.

Lemma jr_begin_identities task x : keeps j_identities x (jr_begin_teardown task).
Proof.
  unfold jr_begin_teardown. apply keeps_get. intros before Hb.
  apply keeps_bind; [apply keeps_read|intros t]. destruct (negb _); [apply keeps_throw|].
  apply keeps_bind.
  { destruct (bool_decide _); [|apply keeps_ret]. apply keeps_bind.
    - destruct (ab_request_present _); [|apply keeps_ret]. unfold close_lifecycle. cbv zeta.
      keeps_solve. by apply keeps_restore.
    - intros _. keeps_solve. }
  intros _. apply keeps_get. intros s Hs. destruct (begin_teardown task (jr_runtime s)) as [[u|e] r'] eqn:E.
  - assert (identities r' = x) by (by eapply begin_identities). keeps_solve.
  - keeps_solve.
Qed.

(** Completing a teardown leaves the identity of the other task. *)
Lemma complete_identity r task n r' :
  rt_inv r -> complete_teardown task r = (Ok n, r') ->
  identity (task_slot r' (3 - task)) = identity (task_slot r (3 - task)).
Proof.
  intros Hi Hc. destruct (complete_teardown_enabled r task n r' Hi Hc) as (Ht & Hex & HC & _).
  unfold complete_teardown in Hc. rewrite transactional_ok in Hc. rewrite complete_teardown_torn in Hc by done.
  destruct (torn_inv r task Hi Ht Hex HC) as [Hi' _].
  rewrite (readM_step _ _ _ tt) in Hc by (by apply rt_inv_validate).
  pose proof (keeps_identities_dispatch _ _ _ _ eq_refl Hc) as Hd.
  rewrite (identities_slot _ _ (3 - task) Hd). by destruct (torn_other_slot r task Ht) as [-> _].
Qed.

(** ** Both runtimes at once *)

Definition kr_inv (kr : KernelRuntime) : Prop :=
  match kr with KernelBase r => rt_inv r | KernelJournaled s => jr_inv s end.

Lemma kr_inv_rt kr : kr_inv kr -> rt_inv (kr_runtime kr).
Proof. destruct kr; [done|]. intros [Hj _]. apply (ji_runtime _ Hj). Qed.

Lemma kr_inv_validate kr : kr_inv kr -> kr_validate kr = Ok tt.
Proof. destruct kr; [apply rt_inv_validate|]. intros [Hj _]. by apply j_inv_validate. Qed.

(** A task is dead exactly when its generation is zero. *)
Lemma dead_generation r task :
  rt_inv r -> valid_task task -> ts_state (task_slot r task) = TaskDead <-> ts_generation (task_slot r task) = 0.
Proof.
  intros Hi Ht. pose proof (rt_inv_slot r task Ht Hi) as [_ _ _ Hl Hd]. split; [naive_solver|].
  intros Hg. destruct (decide (ts_state (task_slot r task) = TaskDead)) as [?|Hn]; [done|naive_solver].
Qed.

Lemma identity_dead r r' task :
  rt_inv r -> rt_inv r' -> valid_task task -> identity (task_slot r' task) = identity (task_slot r task) ->
  ts_state (task_slot r' task) = TaskDead <-> ts_state (task_slot r task) = TaskDead.
Proof.
  intros Hi Hi' Ht Hid. rewrite !dead_generation by done.
  pose proof (f_equal fst Hid) as Hg. unfold identity in Hg. cbn [fst] in Hg. by rewrite Hg.
Qed.

Lemma kr_trap kr task :
  kr_inv kr -> running_task (kr_runtime kr) = Ok task ->
  exists o kr', kr_handle_trap task kr = (Ok o, kr') /\ kr_inv kr' /\ outcome_ok task o (kr_runtime kr') /\
    identities (kr_runtime kr') = identities (kr_runtime kr) /\ kr_kind kr' = kr_kind kr.
Proof.
  intros Hi Hrun. unfold kr_handle_trap, kr_method. destruct kr as [r|s]; cbn [kr_runtime] in *.
  - destruct (handle_trap_ok r task Hi Hrun) as (o & r' & Heq & Hi' & Ho). rewrite Heq.
    exists o, (KernelBase r'). split_and!; try done; [by eapply trap_identities|].
    cbn. by rewrite (trap_profile r task o r' Heq).
  - destruct (jr_trap_progress s task Hi Hrun) as (o & s' & Heq & Hi' & Ho & _). rewrite Heq.
    exists o, (KernelJournaled s'). split_and!; try done. by eapply jr_trap_identities.
Qed.

Lemma kr_capture kr task frame root :
  kr_inv kr -> running_task (kr_runtime kr) = Ok task -> root <> 0 ->
  let g := ts_generation (task_slot (kr_runtime kr) task) in
  exists kr', kr_capture_trap task frame root g kr = (Ok tt, kr') /\ kr_inv kr' /\
    kr_runtime kr' = upd task (ts_set_context (context_from_trap frame task g root)) (kr_runtime kr) /\
    running_task (kr_runtime kr') = Ok task /\ kr_kind kr' = kr_kind kr.
Proof.
  intros Hi Hrun Hroot g. pose proof (kr_inv_rt _ Hi) as Hr.
  pose proof (proj1 (running_task_spec _ task Hr) Hrun) as [Ht Hst].
  set (r' := upd task (ts_set_context (context_from_trap frame task g root)) (kr_runtime kr)).
  assert (Hc : capture_trap task frame root g (kr_runtime kr) = (Ok tt, r')).
  { unfold capture_trap. rewrite (read_slot_step _ task _ Ht), (proj2 (is_state_true _ _) Hst), Z.eqb_refl.
    cbn [negb orb]. by rewrite slot_mut_valid. }
  destruct (capture_step_inv _ task frame root g r' Hr Hroot Hc) as [Hr' Hrun'].
  unfold kr_capture_trap, kr_method, jr_capture_trap, on_runtime. destruct kr as [r|s]; cbn [kr_runtime] in *; rewrite Hc.
  - exists (KernelBase r'). split_and!; try done; [by rewrite <-Hrun|]. cbn. unfold r', upd. by destruct (task =? _).
  - exists (KernelJournaled (jr_set_runtime r' s)). split_and!; try done; [|by rewrite <-Hrun].
    apply (capture_step s Hi _ task frame root g Hroot). unfold jr_capture_trap, on_runtime. by rewrite Hc.
Qed.

Lemma kr_begin kr task :
  kr_inv kr -> valid_task task -> ts_state (task_slot (kr_runtime kr) task) = Exited ->
  ct_state (ts_capabilities (task_slot (kr_runtime kr) task)) = TableLive ->
  exists kr', kr_begin_teardown task kr = (Ok tt, kr') /\ kr_inv kr' /\
    ts_state (task_slot (kr_runtime kr') task) = Exited /\
    ct_state (ts_capabilities (task_slot (kr_runtime kr') task)) = TableClosing /\
    identities (kr_runtime kr') = identities (kr_runtime kr) /\ kr_kind kr' = kr_kind kr.
Proof.
  intros Hi Ht Hex HL. unfold kr_begin_teardown, kr_method. destruct kr as [r|s]; cbn [kr_runtime] in *.
  - destruct (begin_teardown_ok r task Hi Ht Hex HL) as (r' & Heq & Hi' & Hex' & HC & _ & Hp). rewrite Heq.
    exists (KernelBase r'). split_and!; try done; [by eapply begin_identities|]. cbn. by rewrite Hp.
  - destruct (jr_begin_ok s task Hi Ht Hex HL) as (r' & Heq & Hi' & (_ & Hex' & HC & _) & _). rewrite Heq.
    eexists. split; [done|]. split_and!; try done. by eapply jr_begin_identities.
Qed.

(** A supervisor that exits before it launched its workload. *)
Definition strands (r : Runtime) (task : Z) : Prop := task = 1 /\ ts_state (rt_task1 r) = Staged.

Lemma kr_complete kr task :
  kr_inv kr -> valid_task task -> ts_state (task_slot (kr_runtime kr) task) = Exited ->
  ct_state (ts_capabilities (task_slot (kr_runtime kr) task)) = TableClosing ->
  (strands (kr_runtime kr) task /\ kr_complete_teardown task kr = (Err NoRunnableTask, kr)) \/
  exists next kr', kr_complete_teardown task kr = (Ok next, kr') /\ kr_inv kr' /\
    teardown_outcome next (kr_runtime kr') /\ ts_state (task_slot (kr_runtime kr') task) = TaskDead /\
    identity (task_slot (kr_runtime kr') (3 - task)) = identity (task_slot (kr_runtime kr) (3 - task)) /\
    kr_kind kr' = kr_kind kr.
Proof.
  intros Hi Ht Hex HC. destruct (decide (task = 1 /\ ts_state (rt_task1 (kr_runtime kr)) = Staged)) as [[-> Hst]|Hns].
  - left. split; [done|]. unfold kr_complete_teardown, kr_method. destruct kr as [r|s]; cbn [kr_runtime] in *.
    + by rewrite complete_teardown_staged.
    + by rewrite jr_complete_staged.
  - right. pose proof (kr_inv_rt _ Hi) as Hr. unfold kr_complete_teardown, kr_method.
    destruct kr as [r|s]; cbn [kr_runtime] in *.
    + destruct (complete_teardown_ok r task Hi Ht Hex HC Hns) as (n & r' & Heq & Hi' & Ho). rewrite Heq.
      exists n, (KernelBase r'). split_and!; try done.
      * by apply (complete_teardown_dead r task n r').
      * by eapply complete_identity.
      * cbn. assert (Hp : rt_profile r' = rt_profile r); [|by rewrite Hp].
        unfold complete_teardown in Heq. rewrite transactional_ok in Heq. rewrite complete_teardown_torn in Heq by done.
        destruct (torn_inv r task Hi Ht Hex HC) as [Hti _].
        rewrite (readM_step _ _ _ tt) in Heq by (by apply rt_inv_validate).
        rewrite (keeps_dispatch_next rt_profile _ _ _ _ eq_refl Heq). apply (torn_parts r task Ht).
    + destruct (jr_complete_ok s task Hi Ht Hex HC Hns) as (n & r' & Heq & Hi' & Ho & _). rewrite Heq.
      assert (Hc : complete_teardown task (jr_runtime s) = (Ok n, r')).
      { unfold jr_complete_teardown in Heq. rewrite getM_step in Heq.
        destruct (complete_teardown task (jr_runtime s)) as [[n'|] r1] eqn:Hc; [|done].
        rewrite (bindM_step _ _ _ tt (jr_set_runtime r1 s)) in Heq by done.
        unfold bindM, validate_or_restore in Heq. rewrite getM_step in Heq.
        destruct (is_err _); [done|]. unfold retM in Heq.
        pose proof (f_equal fst Heq) as H1. pose proof (f_equal (fun z => jr_runtime (snd z)) Heq) as H2.
        cbn in H1, H2. congruence. }
      exists n, (KernelJournaled (jr_set_runtime r' s)). split_and!; try done.
      * by apply (complete_teardown_dead (jr_runtime s) task n r').
      * by apply (complete_identity (jr_runtime s) task n r').
Qed.

(** ** Starting *)

(** [construct] builds, of two initial contexts, a runtime whose first dispatch
    selects a task. *)
Definition starts (construct : TaskContextV1 -> TaskContextV1 -> option KernelRuntime) (supervised : bool)
    (g1 g2 : Z) (kind : KernelRuntimeKind) : Prop :=
  forall root1 root2, root1 <> 0 -> root2 <> 0 ->
  let c1 := initial_context SENDER_TASK_ID g1 root1 in
  let c2 := initial_context RECEIVER_TASK_ID g2 root2 in
  exists kr next kr', construct c1 c2 = Some kr /\ first_dispatch supervised kr = (Some next, kr') /\ kr_inv kr' /\
    running_task (kr_runtime kr') = Ok next /\ kr_kind kr' = kind /\
    identities (kr_runtime kr') = ((g1, c1), (g2, c2)).

(** A dispatch from a fresh runtime. *)
Lemma first_dispatch_ok kr task l (supervised : bool) :
  kr_inv kr -> none_active (kr_runtime kr) -> rt_queue (kr_runtime kr) = queue_of (task :: l) ->
  (supervised = true -> task = 1) ->
  exists kr', first_dispatch supervised kr = (Some task, kr') /\ kr_inv kr' /\
    running_task (kr_runtime kr') = Ok task /\ kr_kind kr' = kr_kind kr /\
    identities (kr_runtime kr') = identities (kr_runtime kr).
Proof.
  intros Hi Hna Hq Hs. pose proof (kr_inv_rt _ Hi) as Hr.
  destruct (dispatch_next_ok _ task l Hr Hna Hq) as [Hd Hr'].
  pose proof (keeps_identities_dispatch _ _ _ _ eq_refl Hd) as Hid.
  destruct (ri_sched _ Hr) as (l' & Hq' & Hsc). rewrite Hq in Hq'.
  assert (Hrun : running_task (dispatched task l (kr_runtime kr)) = Ok task).
  { apply running_task_spec; [done|]. pose proof (rt_inv_sched _ _ Hr Hq) as Hsched.
    destruct (sched_rt_pop _ l task Hsched Hna) as (Ht & _). split; [done|]. by apply dispatched_running. }
  assert (Hnext : (if supervised && negb (task =? SENDER_TASK_ID) then None else Some task) = Some task).
  { destruct supervised; [|done]. by rewrite Hs. }
  unfold first_dispatch, kr_dispatch_next, kr_method, jr_dispatch_next, on_runtime.
  destruct kr as [r|s]; cbn [kr_runtime] in *; rewrite Hd, Hnext.
  - eexists. split; [done|]. split_and!; try done. cbn. unfold upd. by destruct (task =? _).
  - eexists. split; [done|]. split_and!; try done.
    apply (dispatch_step s Hi _ task Hna). unfold jr_dispatch_next, on_runtime. by rewrite Hd.
Qed.

Lemma initial_identity task g root :
  context_set_regs (initial_context task g root) 0 0 0 0 = initial_context task g root.
Proof. done. Qed.

Lemma starts_cooperative :
  starts (fun sender receiver => KernelBase <$> ok (Runtime_new sender receiver)) false 2 3 KindCooperative.
Proof.
  intros root1 root2 H1 H2. cbv zeta.
  rewrite runtime_new_eq by (by repeat split). cbn [ok fmap option_fmap option_map].
  destruct (first_dispatch_ok (KernelBase (coop_initial (initial_context SENDER_TASK_ID 2 root1)
    (initial_context RECEIVER_TASK_ID 3 root2))) 2 [1] false) as (kr' & Hd & Hi & Hrun & Hk & Hid); try done.
  - by apply coop_initial_inv.
  - apply none_active_ready; by left.
  - eexists _, _, kr'. split; [done|]. split; [exact Hd|]. split_and!; try done.
Qed.

Lemma supervised_contexts root1 root2 :
  root1 <> 0 -> root2 <> 0 ->
  sup_contexts (initial_context SENDER_TASK_ID SUPERVISOR_GENERATION root1)
    (initial_context RECEIVER_TASK_ID WORKLOAD_GENERATION root2).
Proof. by repeat split. Qed.

Lemma starts_supervised :
  starts (fun supervisor workload => KernelBase <$> ok (Runtime_new_supervised supervisor workload)) true
    SUPERVISOR_GENERATION WORKLOAD_GENERATION KindSupervised.
Proof.
  intros root1 root2 H1 H2. cbv zeta. pose proof (supervised_contexts root1 root2 H1 H2) as Hc.
  rewrite runtime_new_supervised_eq by done. cbn [ok fmap option_fmap option_map].
  destruct (first_dispatch_ok (KernelBase (sup_initial (initial_context SENDER_TASK_ID SUPERVISOR_GENERATION root1)
    (initial_context RECEIVER_TASK_ID WORKLOAD_GENERATION root2))) 1 [] true) as (kr' & Hd & Hi & Hrun & Hk & Hid); try done.
  - by apply sup_initial_inv.
  - apply none_active_ready; [by left|by right].
  - eexists _, _, kr'. split; [done|]. split; [exact Hd|]. by split_and!.
Qed.

Lemma starts_journaled :
  starts (fun supervisor workload => KernelJournaled <$> ok (JournaledRuntime_new_supervised supervisor workload)) true
    SUPERVISOR_GENERATION WORKLOAD_GENERATION KindJournaled.
Proof.
  intros root1 root2 H1 H2. cbv zeta. pose proof (supervised_contexts root1 root2 H1 H2) as Hc.
  rewrite jr_new_eq by done. cbn [ok fmap option_fmap option_map].
  destruct (first_dispatch_ok (KernelJournaled (jr_initial (initial_context SENDER_TASK_ID SUPERVISOR_GENERATION root1)
    (initial_context RECEIVER_TASK_ID WORKLOAD_GENERATION root2))) 1 [] true) as (kr' & Hd & Hi & Hrun & Hk & Hid); try done.
  - by apply jr_initial_inv.
  - apply none_active_ready; [by left|by right].
  - eexists _, _, kr'. split; [done|]. split; [exact Hd|]. by split_and!.
Qed.

(** ** The last checks *)

Lemma closing_snapshot kr task :
  kr_inv kr -> valid_task task -> ct_state (ts_capabilities (task_slot (kr_runtime kr) task)) = TableClosing ->
  table_not TableClosing (kr_capability_table kr task) = false.
Proof.
  intros Hi%kr_inv_rt Ht HC. unfold kr_capability_table, rt_capability_table. rewrite slot_valid by done. cbn [table_not].
  unfold table_snapshot. cbn [cts_state cts_live_slots]. rewrite HC, bool_decide_eq_true_2 by done.
  pose proof (si_table _ _ (rt_inv_slot _ task Ht Hi)) as Hwf.
  assert (Hz : countb entry_is_some (ct_slots (ts_capabilities (task_slot (kr_runtime kr) task))) = 0).
  { apply countb_zero. intros s Hs. unfold entry_is_some. by rewrite (tw_closing _ Hwf HC s Hs). }
  by rewrite Hz.
Qed.

Lemma dead_slot kr task :
  kr_inv kr -> valid_task task -> ts_state (task_slot (kr_runtime kr) task) = TaskDead ->
  kr_state kr task = Ok TaskDead /\ kr_generation kr task = Ok 0 /\
  table_not TableDead (kr_capability_table kr task) = false.
Proof.
  intros Hi%kr_inv_rt Ht Hd. unfold kr_state, rt_state, kr_generation, rt_generation, kr_capability_table, rt_capability_table.
  rewrite slot_valid by done. pose proof (rt_inv_slot _ task Ht Hi) as Hs.
  split_and!; [by rewrite Hd|by rewrite (proj1 (dead_generation _ _ Hi Ht) Hd)|].
  rewrite (tw_dead _ (si_table _ _ Hs)); [by vm_compute|]. apply (proj2 (slot_table_cases _ _ Hs)). done.
Qed.

Definition both_dead (r : Runtime) : Prop := ts_state (rt_task0 r) = TaskDead /\ ts_state (rt_task1 r) = TaskDead.

Lemma dead_queue r : rt_inv r -> both_dead r -> rt_queue r = queue_of [].
Proof.
  intros Hi [H0 H1]. destruct (ri_sched _ Hi) as (l & -> & Hs). f_equal.
  assert (N0 : 1 ∉ l) by (rewrite (sc_ready0 _ _ _ Hs); congruence).
  assert (N1 : 2 ∉ l) by (rewrite (sc_ready1 _ _ _ Hs); congruence).
  destruct (sched_shape _ _ _ Hs) as [->|[->|[->|[->| ->]]]]; set_solver.
Qed.

Lemma dead_common kr k :
  kr_inv kr -> both_dead (kr_runtime kr) -> kn_task_owners k = TaskOwners_new ->
  kn_current_task k = 0 -> kn_active_context k = ActiveContext_new -> common_invalid kr k = false.
Proof.
  intros Hi [H0 H1] Ho Hc Ha. unfold common_invalid.
  destruct (dead_slot kr 1 Hi (or_introl eq_refl) H0) as (S0 & G0 & T0).
  destruct (dead_slot kr 2 Hi (or_intror eq_refl) H1) as (S1 & G1 & T1).
  pose proof (kr_inv_rt _ Hi) as Hr. destruct (both_dead_outcome _ Hr H0 H1) as (_ & _ & He & _).
  change SENDER_TASK_ID with 1. change RECEIVER_TASK_ID with 2.
  rewrite (kr_inv_validate _ Hi), S0, S1, G0, G1, T0, T1, Ho, Hc, Ha.
  unfold kr_queue, kr_endpoint. rewrite (dead_queue _ Hr (conj H0 H1)), He. by vm_compute.
Qed.

Lemma dead_supervision kr : kr_inv kr -> both_dead (kr_runtime kr) -> supervision_invalid kr = false.
Proof.
  intros Hi [H0 H1]. destruct (both_dead_outcome _ (kr_inv_rt _ Hi) H0 H1) as (_ & _ & _ & Hm & Hb & He).
  unfold supervision_invalid, kr_manifest_publication, kr_approval_broker, kr_synthetic_effect.
  rewrite Hm, Hb, He. by vm_compute.
Qed.

Lemma dead_profile r : kr_inv (KernelBase r) -> both_dead r -> profile_invalid (KernelBase r) = false.
Proof.
  intros Hi Hd. unfold profile_invalid. destruct (bool_decide (rt_profile r = Cooperative)).
  - destruct Hd as [H0 H1]. destruct (both_dead_outcome _ Hi H0 H1) as (_ & _ & _ & Hm & Hb & He).
    unfold kr_manifest_publication, kr_approval_broker, kr_synthetic_effect. cbn [kr_runtime]. rewrite Hm, Hb, He.
    by vm_compute.
  - by apply dead_supervision.
Qed.

(** The journal holds the reference records and nothing else. *)
Definition reference_journal (s : JournaledRuntime) : Prop :=
  ej_committed_record_count (jr_journal s) = 11 /\ journal_reference_invalid s = false.

Lemma journaled_profile s :
  jr_inv s -> both_dead (jr_runtime s) -> profile_invalid (KernelJournaled s) = false ->
  ej_state (jr_journal s) = JournalSealed /\ reference_journal s.
Proof.
  intros Hi Hd. unfold profile_invalid. cbv zeta. intros H. b2p. unfold reference_journal. naive_solver.
Qed.

Lemma journaled_reclaimed s :
  jr_inv s -> both_dead (jr_runtime s) -> ej_state (jr_journal s) = JournalSealed ->
  finish_reclamation s = (Ok tt, jr_set_journal journal_DEAD s) /\
  jr_validate (jr_set_journal journal_DEAD s) = Ok tt.
Proof.
  intros Hi [H0 H1] Hs. rewrite reclaim_eq by done. rewrite decide_True by done. split; [done|].
  apply j_inv_validate. by apply reclaimed_inv.
Qed.
