(* ===== verification/KernelInvariant.v ===== *)
(** * Spaces held by the kernel

    Accounting for the machine while tasks come and go: which frames are out,
    what the others' memory looks like, and that construction, teardown and the
    writes of user mode keep the account. *)

From Stdlib Require Import String.
From stdpp Require Import gmap.
From S2P Require Import Prelude.
From S2P Require Import RuntimeTypes.
From S2P Require Import Capability.
From S2P Require Import Runtime.
From S2P Require Import RuntimeOps.
From S2P Require Import Journaled.
From S2P Require Import RuntimeInv.
From S2P Require Import RuntimeProgress.
From S2P Require Import Panic.
From S2P Require Import FrameAllocator.
From S2P Require Import Extents.
From S2P Require Import FrameInit.
From S2P Require Import FrameOps.
From S2P Require Import FrameReturns.
From S2P Require Import AddressSpace.
From S2P Require Import AddressSpaceProofs.
From S2P Require Import AddressSpaceTheorems.
From S2P Require Import PageTables.
From S2P Require Import PageTablesProofs.
From S2P Require Import PageTablesTheorems.
From S2P Require Import KernelBackend.
From S2P Require Import KernelBackendProofs.
From S2P Require Import KernelSpaces.
From S2P Require Import KernelSpacesTheorems.
From S2P Require Import KernelDescriptors.
From S2P Require Import KernelDescriptorsProofs.
From S2P Require Import KernelScheduler.
From S2P Require Import KernelRuntimeProofs.

#[local] Open Scope backend_scope.

(** ** How the number of free extents moves *)

Lemma allocated_length fa0 fs fa :
  fa_inv fa0 -> allocated fa0 fs fa -> (fa_free_len fa <= fa_free_len fa0)%nat.
Proof.
  intros H0. induction 1 as [fa Hinv Hs|fs fa f fa1 fa' Hprev IH Hall Hinv Hs].
  { by rewrite (same_lists_len fa0 fa). }
  pose proof (allocated_inv _ _ _ Hprev) as Ha. destruct Hs as [Hf _].
  destruct (allocate_frame_spec fa Ha) as [[_ Hx]|(f' & fa2 & Hx & Hinv2 & _ & _ & Hcf & _)]; [congruence|].
  assert (fa2 = fa1) as -> by congruence.
  destruct (live_free fa) as [|e B] eqn:HL; [by apply covers_nil in Hcf|].
  destruct (allocate_pop fa e B Ha HL) as (fa3 & Hx3 & _ & _ & _ & HL3).
  assert (fa3 = fa1) as -> by congruence.
  pose proof (live_free_length fa (proj1 Ha)). pose proof (live_free_length fa' (proj1 Hinv)) as Hl.
  rewrite Hf, HL3 in Hl. rewrite HL in *. unfold pop_frame in Hl. destruct (_ =? 1); cbn [length] in *; lia.
Qed.

Lemma returns_length fa fs fa' :
  fa_inv fa -> Forall u64 fs -> returns fa fs fa' -> (fa_free_len fa' <= fa_free_len fa + length fs)%nat.
Proof.
  intros Hinv Hu Hr. revert Hinv Hu. induction Hr as [fa|fa fs f fa1 fa' Hfree _ IH]; intros Hinv Hu; [lia|].
  apply Forall_app in Hu as [Hu Hf]. rewrite Forall_singleton in Hf.
  destruct (free_frame_freed fa f fa1 Hinv Hf Hfree) as [(Hinv1 & _) _].
  pose proof (free_frame_length fa f fa1 Hinv Hf Hfree). specialize (IH Hinv1 Hu). rewrite length_app. cbn [length]. lia.
Qed.

(** Equal free memory, equal lists. *)
Lemma free_equal fa fa' :
  fa_inv fa -> fa_inv fa' -> (forall x, covers (live_free fa) x <-> covers (live_free fa') x) ->
  live_free fa' = live_free fa /\ fa_free_len fa' = fa_free_len fa.
Proof.
  intros (Ha & _ & Hc & _) (Ha' & _ & Hc' & _) Hx.
  assert (HL : live_free fa' = live_free fa) by (symmetry; by apply (chain_unique (-1) (-1))).
  split; [done|]. by rewrite <-(live_free_length fa' Ha'), <-(live_free_length fa Ha), HL.
Qed.

Section tasks.
Variables (linkage : Linkage) (probes : ProbeSymbols).
Hypothesis linkage_fits : linkage_ok linkage.
Hypothesis layout : image_layout linkage probes.
Notation machine_ok := (machine_ok linkage).
Notation owns := (owns linkage).
Notation user_data := (user_data probes).
Notation probe_ok := (probe_ok probes).
Notation free_of m := (covers (live_free (km_allocator m))).

#[local] Instance backend : AddressSpaceBackend (option Machine) IsolationError := KernelBackend linkage probes.

(** ** The account *)

Record accounted (mb m : Machine) (fss : list (list OwnedFrame)) : Prop := {
  at_ok : machine_ok m;
  at_recovery : km_recovery m = km_recovery mb;
  at_managed : live_managed (km_allocator m) = live_managed (km_allocator mb);
  at_words : forall a, ~ free_of mb a -> read_word (km_words m) a = read_word (km_words mb) a;
  at_free : forall x, free_of mb x <-> free_of m x \/ Exists (fun fs => in_frames fs x) fss
}.

(** What a task may have changed since its space was built: its stack. *)
Definition text_only (data : FrameRole -> option (Z -> Z)) (role : FrameRole) : option (Z -> Z) :=
  if bool_decide (role = Text) then data role else None.

Record space (m : Machine) (journaled : bool) (generation : Z) (fs : list OwnedFrame) : Prop := {
  sp_roles : map of_role fs = FrameRole_ALL;
  sp_owns : owns m fs BUILD_LINKS true (text_only (user_data (set_probes journaled m) generation));
  sp_probe : probe_ok (set_probes journaled m) generation = true
}.

(** The owner of the frames, whatever state it is in. *)
Definition owner_of (generation : Z) (o : AddressSpaceOwner) (fs : list OwnedFrame) : Prop :=
  published generation (set_state o Inactive) fs.

Definition apart (fs fs' : list OwnedFrame) : Prop := forall x, ~ (in_frames fs x /\ in_frames fs' x).

(** Room to return what is out. *)
Definition room (mb m : Machine) (out : nat) : Prop :=
  (fa_free_len (km_allocator m) + TASK_FRAME_COUNT * out <= fa_free_len (km_allocator mb) + 2 * TASK_FRAME_COUNT)%nat.

Lemma machine_ok_probes j m : machine_ok (set_probes j m) <-> machine_ok m.
Proof. split; intros [H1 H2 H3 H4]; by split. Qed.

Lemma accounted_probes mb m fss j : accounted mb m fss <-> accounted mb (set_probes j m) fss.
Proof. split; intros [H1 H2 H3 H4 H5]; split; try done; by apply (machine_ok_probes j m). Qed.

Lemma owns_probes j m fs links shared data : owns m fs links shared data <-> owns (set_probes j m) fs links shared data.
Proof. split; intros [H1 H2 H3 H4 H5]; split; try done; by apply (machine_ok_probes j m). Qed.

Lemma space_probes m j g fs j' : space m j g fs <-> space (set_probes j' m) j g fs.
Proof. split; intros [H1 H2 H3]; split; try done; by apply (owns_probes j' m). Qed.

Lemma owns_weaken m fs links shared data data' :
  (forall role g, data' role = Some g -> data role = Some g) -> owns m fs links shared data -> owns m fs links shared data'.
Proof. intros Hd [H1 H2 H3 H4 H5]. split; try done. intros f g i Hf Ht Hg. apply H5; auto. Qed.

(** ** What leaves a space alone *)

Lemma owns_agree m m' fs links shared data :
  owns m fs links shared data -> machine_ok m' -> km_recovery m' = km_recovery m ->
  (forall a, in_image linkage a -> read_word (km_words m') a = read_word (km_words m) a) ->
  (forall f a, f ∈ fs -> is_table_role (of_role f) = true \/ data (of_role f) <> None ->
     in_frame (of_physical_start f) a -> read_word (km_words m') a = read_word (km_words m) a) ->
  Forall (fun f => handed_out (km_allocator m') (of_physical_start f)) fs ->
  owns m' fs links shared data.
Proof.
  intros [H1 H2 H3 H4 H5] Hok Hrec Himg Hkeep Hh. split; try done.
  - intros f i Hf Ht Hi. rewrite (Hkeep f _ Hf (or_introl Ht)) by (by apply entry_in_frame).
    rewrite (H4 f i) by done. symmetry. apply table_entry_recovery. intros j Hj.
    unfold recovery_entry. rewrite Hrec. apply Himg. by apply (root_in_image linkage probes layout m j).
  - intros f g i Hf Ht Hg Hi. rewrite (Hkeep f) by (done || (by right; rewrite Hg) || by apply entry_in_frame). by eapply H5.
Qed.

(** The image, the task's tables and its text are the same, and its frames are
    still out. *)
Lemma space_agree m m' j g fs :
  space m j g fs -> machine_ok m' -> km_recovery m' = km_recovery m ->
  (forall a, in_image linkage a -> read_word (km_words m') a = read_word (km_words m) a) ->
  (forall f a, f ∈ fs -> of_role f <> Stack -> in_frame (of_physical_start f) a ->
     read_word (km_words m') a = read_word (km_words m) a) ->
  Forall (fun f => handed_out (km_allocator m') (of_physical_start f)) fs ->
  space m' j g fs.
Proof.
  intros [Hr Ho Hp] Hok Hrec Himg Hkeep Hh.
  assert (Hud : forall role, user_data (set_probes j m') g role = user_data (set_probes j m) g role).
  { intros role. by apply (user_data_agree linkage probes linkage_fits layout). }
  assert (Hpo : probe_ok (set_probes j m') g = probe_ok (set_probes j m) g).
  { unfold KernelSpaces.probe_ok. cbn [km_words km_journaled_probes set_probes].
    rewrite (probe_bytes_agree linkage probes linkage_fits layout (km_words m)); [done|].
    intros a Ha. apply Himg. destruct layout as [Hs _ _ _ _]. unfold in_image. lia. }
  split; [done| |by rewrite Hpo].
  eapply owns_weaken; [|eapply (owns_agree m m' fs BUILD_LINKS true _ Ho Hok Hrec Himg)]; [| |done].
  - intros role d. unfold text_only. destruct (bool_decide (role = Text)); [|done]. by rewrite Hud.
  - intros f a Hf Hrole Ha. apply (Hkeep f); [done| |done]. intros Hst. rewrite Hst in Hrole.
    destruct Hrole as [Hrole|Hrole]; [done|]. by apply Hrole.
Qed.

Lemma handed_apart m f a :
  machine_ok m -> handed_out (km_allocator m) f -> in_frame f a -> ~ free_of m a.
Proof.
  intros Hok (Hal & _ & Hn) Ha Hf. apply Hn. destruct (mk_alloc _ _ Hok) as (_ & _ & Hch & _).
  by apply (covers_in_frame (-1) _ _ a Hch Hal Ha).
Qed.

Lemma space_out m j g fs a : space m j g fs -> in_frames fs a -> ~ free_of m a /\ ~ in_image linkage a.
Proof.
  intros [_ Ho _] (f & Hf & Ha)%Exists_exists. pose proof (on_machine _ _ _ _ _ _ Ho) as Hok.
  pose proof (proj1 (Forall_forall _ _) (on_handed _ _ _ _ _ _ Ho) f Hf) as Hh. split; [by apply (handed_apart m (of_physical_start f) a)|].
  intros Hi. by apply (managed_not_image linkage m _ _ Hok (handed_managed _ _ Hh) Hi).
Qed.

(** A space whose frames do not meet the changed memory, which stays managed. *)
Lemma space_stays X m m' j g fs :
  space m j g fs -> machine_ok m' -> km_recovery m' = km_recovery m ->
  live_managed (km_allocator m') = live_managed (km_allocator m) ->
  (forall a, ~ X a -> read_word (km_words m') a = read_word (km_words m) a) ->
  (forall a, X a -> ~ in_image linkage a) -> (forall a, in_frames fs a -> ~ X a) ->
  (forall x, free_of m' x -> free_of m x \/ X x) ->
  space m' j g fs.
Proof.
  intros Hs Hok Hrec HM Hw HXi HXf Hfree. pose proof Hs as [_ Ho _]. eapply space_agree; [done|done|done| | |].
  - intros a Ha. apply Hw. intros Hx. by apply (HXi a).
  - intros f a Hf _ Ha. apply Hw, HXf. by eapply in_frames_elem.
  - eapply Forall_impl; [apply Forall_and; split; [apply (on_handed _ _ _ _ _ _ Ho)|apply Forall_forall; intros f Hf; exact Hf]|].
    cbn. intros f [(Hal & Hm & Hn) Hf]. split_and!; [done|by rewrite HM|]. intros Hc. destruct (Hfree _ Hc) as [?|Hx]; [done|].
    apply (HXf (of_physical_start f)); [|done]. eapply in_frames_elem; [done|]. unfold in_frame. page_unfold. lia.
Qed.

(** ** Construction *)

Lemma construct_accounted mb m fss j g :
  accounted mb m fss -> constructible probes (set_probes j m) g ->
  kruns (construct_address_space g) (set_probes j m) (fun (r : result AddressSpaceOwner (BuildFailure IsolationError)) m' =>
    exists o fs, r = Ok o /\ published g o fs /\ accounted mb m' (fs :: fss) /\ space m' j g fs /\
      km_journaled_probes m' = j /\ (fa_free_len (km_allocator m') <= fa_free_len (km_allocator m))%nat /\
      pages (live_free (km_allocator m')) = pages (live_free (km_allocator m)) - Z.of_nat TASK_FRAME_COUNT /\
      (forall j' g' fs', space m j' g' fs' -> space m' j' g' fs' /\ apart fs' fs)).
Proof.
  intros [Hok Hrec HM Hw Hf] Hcan. set (m0 := set_probes j m) in *.
  assert (Hok0 : machine_ok m0) by (by apply (machine_ok_probes j m)).
  eapply kruns_mono; [apply (construct_runs linkage probes linkage_fits layout m0 g Hok0)|].
  intros [o|f] m' HQ; [|by destruct HQ as (_ & _ & _ & [] & _)]. destruct HQ as [[fs Hc] _].
  pose proof (cs_evolves _ _ _ _ _ _ _ Hc) as He. pose proof He as [E1 E2 E3 E4 E5].
  pose proof (constructed_machine _ _ _ _ _ _ _ Hc) as Hok'. pose proof (cs_published _ _ _ _ _ _ _ Hc) as Hp.
  assert (Hsp : space m' j g fs).
  { split; [apply Hp| |].
    - eapply owns_weaken; [|apply (cs_owns _ _ _ _ _ _ _ Hc)]. intros role d. unfold text_only.
      destruct (bool_decide (role = Text)); [|done]. intros <-. symmetry.
      rewrite <-(user_data_evolves linkage probes linkage_fits layout m0 m' g Hok0 He role).
      apply (user_data_agree linkage probes linkage_fits layout); [done|]. by rewrite E3.
    - destruct Hcan as (_ & Hpo & _). rewrite <-Hpo. unfold KernelSpaces.probe_ok. cbn [km_words km_journaled_probes set_probes].
      rewrite (probe_bytes_agree linkage probes linkage_fits layout (km_words m0)); [done|].
      intros a Ha. apply E5. intros Hx. apply (free_not_image linkage m0 a Hok0 Hx).
      destruct layout as [Hs _ _ _ _]. unfold in_image. lia. }
  exists o, fs. split_and!; try done.
  - split; [done|by rewrite E1|by rewrite E4| |].
    + intros a Ha. rewrite E5; [by apply Hw|]. intros Hx. apply Ha, Hf. by left.
    + intros x. rewrite Hf, Exists_cons. pose proof (cs_free _ _ _ _ _ _ _ Hc x) as Hx. tauto.
  - apply (allocated_length (km_allocator m0) (map of_physical_start fs)); [apply Hok|apply Hc].
  - apply Hc.
  - intros j' g' fs' Hs'. split.
    + apply (space_stays (free_of m0) m m'); try done.
      * intros a. by apply (free_not_image linkage m0).
      * intros a Ha. by apply (space_out m j' g' fs').
      * intros x Hx. left. apply (cs_free _ _ _ _ _ _ _ Hc). by left.
    + intros x [Hx Hx']. apply (proj1 (space_out m j' g' fs' x Hs' Hx)). apply (cs_free _ _ _ _ _ _ _ Hc). by right.
Qed.

(** The pair of spaces, one after the other. *)
Lemma pair_accounted mb m j g1 g2 :
  accounted mb m [] -> g1 <> 0 -> g2 <> 0 -> probe_ok (set_probes j m) g1 = true -> probe_ok (set_probes j m) g2 = true ->
  2 * Z.of_nat TASK_FRAME_COUNT <= pages (live_free (km_allocator m)) ->
  kruns (construct_address_space_pair g1 g2) (set_probes j m) (fun (r : result AddressSpacePair (PairBuildFailure IsolationError)) m' =>
    exists o1 o2 fs1 fs2, r = Ok (mkPair o1 o2) /\ published g1 o1 fs1 /\ published g2 o2 fs2 /\
      accounted mb m' [fs2; fs1] /\ space m' j g1 fs1 /\ space m' j g2 fs2 /\ apart fs1 fs2 /\
      (fa_free_len (km_allocator m') <= fa_free_len (km_allocator m))%nat).
Proof.
  intros Ha Hg1 Hg2 Hp1 Hp2 Hpages. unfold construct_address_space_pair. apply kruns_bind.
  eapply kruns_mono; [apply (construct_accounted mb m [] j g1 Ha)|].
  { split_and!; try done. cbn [km_allocator set_probes]. lia. }
  intros r m1 (o1 & fs1 & -> & Hpub1 & Ha1 & Hs1 & Hj1 & Hl1 & Hn1 & _). apply kruns_bind.
  assert (Hm1 : set_probes j m1 = m1) by (destruct m1; cbn in *; by subst). rewrite <-Hm1.
  eapply kruns_mono; [apply (construct_accounted mb m1 [fs1] j g2 Ha1)|].
  { split_and!; [done| |cbn [km_allocator set_probes]; lia]. rewrite <-Hp2. unfold KernelSpaces.probe_ok.
    cbn [km_words km_journaled_probes set_probes].
    rewrite (probe_bytes_agree linkage probes linkage_fits layout (km_words m)); [done|].
    intros a Hx. destruct Ha as [Hok _ _ Hw Hfree], Ha1 as [_ _ _ Hw1 _].
    assert (Hn : ~ free_of mb a).
    { rewrite Hfree, Exists_nil. intros [Hfr|[]]. apply (free_not_image linkage m a Hok Hfr).
      destruct layout as [Hsec _ _ _ _]. unfold in_image. lia. }
    by rewrite Hw1, Hw. }
  intros r m2 (o2 & fs2 & -> & Hpub2 & Ha2 & Hs2 & _ & Hl2 & _ & Hkeep). apply kruns_ret.
  destruct (Hkeep j g1 fs1 Hs1) as [Hs1' Hap]. exists o1, o2, fs1, fs2. split_and!; try done. lia.
Qed.

(** ** Teardown *)

Lemma accounted_swap mb m fs fs' : accounted mb m [fs; fs'] -> accounted mb m [fs'; fs].
Proof. intros [H1 H2 H3 H4 H5]. split; try done. intros x. rewrite H5, !Exists_cons. tauto. Qed.

(** Nothing out: the free memory is what it was. *)
Lemma accounted_none mb m :
  machine_ok mb -> accounted mb m [] ->
  live_free (km_allocator m) = live_free (km_allocator mb) /\ fa_free_len (km_allocator m) = fa_free_len (km_allocator mb).
Proof.
  intros Hb [Hok _ _ _ Hf]. apply free_equal; [apply Hb|apply Hok|]. intros x. rewrite Hf, Exists_nil. tauto.
Qed.

Lemma teardown_accounted mb m fs fss j g o :
  accounted mb m (fs :: fss) -> space m j g fs -> published g o fs ->
  (fa_free_len (km_allocator m) + TASK_FRAME_COUNT <= MAX_FRAME_EXTENTS)%nat ->
  kruns (teardown_checked o) (set_probes false m) (fun (r : result AddressSpaceOwner (CheckedTeardownFailure IsolationError)) m' =>
    exists o', r = Ok o' /\ ow_state o' = Dead /\ fl_len (ow_ledger o') = 0%nat /\ accounted mb m' fss /\
      (fa_free_len (km_allocator m') <= fa_free_len (km_allocator m) + TASK_FRAME_COUNT)%nat /\
      (forall j' g' fs', apart fs fs' -> space m j' g' fs' -> space m' j' g' fs') /\
      forall a, ~ in_frames fs a -> read_word (km_words m') a = read_word (km_words m) a).
Proof.
  intros [Hok Hrec HM Hw Hf] Hsp Hp Hroom. pose proof Hsp as [Hall Ho _].
  pose proof (on_handed _ _ _ _ _ _ Ho) as Hh. apply (f_equal length) in Hall as Hlen. rewrite length_map in Hlen.
  assert (Hh' : Forall (handed_out (km_allocator m)) (map of_physical_start fs)) by (by apply Forall_map).
  assert (Hu : Forall u64 (map of_physical_start fs)).
  { eapply Forall_impl; [exact Hh'|]. intros f Hx. by apply (handed_out_u64 (km_allocator m)); [apply Hok|]. }
  destruct (returns_room (map of_physical_start fs) (km_allocator m) (mk_alloc _ _ Hok)) as [fa' Hr]; [apply Hp|done| |].
  { rewrite length_map, Hlen. exact Hroom. }
  destruct (returns_effect _ _ _ (mk_alloc _ _ Hok) Hu Hr) as (_ & HM' & Hcov).
  pose proof (returns_length _ _ _ (mk_alloc _ _ Hok) Hu Hr) as Hl. rewrite length_map, Hlen in Hl.
  assert (Hfree : forall x, covers (live_free fa') x <-> free_of m x \/ in_frames fs x).
  { intros x. rewrite Hcov. unfold in_frames. by rewrite Exists_fmap. }
  eapply kruns_mono; [apply (teardown_runs linkage probes linkage_fits layout (set_probes false m) g o fs _ fa' Hp
    (proj1 (owns_probes false m fs BUILD_LINKS true _) Ho) Hr)|].
  intros r m' (o' & -> & Hd & _ & _ & (_ & HL & _) & Hok' & <- & He). pose proof He as [E1 _ _ E4 E5].
  exists o'. split_and!; try done.
  - split; [done|by rewrite E1|by rewrite E4| |].
    + intros a Ha. rewrite E5; [by apply Hw|]. intros Hx. apply Ha, Hf. right. by left.
    + intros x. rewrite Hf, Hfree, Exists_cons. tauto.
  - intros j' g' fs' Hap Hs'. apply (space_stays (in_frames fs) m m'); try done.
    + intros a Ha. by apply (space_out m j g fs).
    + intros a Ha Hx. by apply (Hap a).
    + intros x Hx. by apply Hfree.
Qed.

(** ** User mode *)

(** What user code under [root] may have done to memory: written where a user
    page is writable. *)
Definition user_writes (root : Z) (w w' : Words) : Prop :=
  forall a, read_word w' a <> read_word w a ->
    exists va tr, u64 va /\ is_canonical_48 va = true /\ translate w root va = Some tr /\
      tr_user tr = true /\ tr_writable tr = true /\ in_frame (tr_frame tr) a.

(** Only the stack of the task is open to it. *)
Lemma user_writes_stack m j g fs w' a :
  space m j g fs -> user_writes (frame_of fs Root) (km_words m) w' ->
  read_word w' a <> read_word (km_words m) a -> in_frame (frame_of fs Stack) a.
Proof.
  intros [Hall Ho _] Hu Hne. destruct (Hu a Hne) as (va & tr & Hva & Hc & Ht & Hus & Hwr & Ha).
  rewrite (space_translates linkage m fs _ Ho Hall va Hva Hc) in Ht.
  destruct (in_page USER_TEXT va); [injection Ht as <-; discriminate Hwr|].
  destruct (in_page USER_STACK va); [by injection Ht as <-|]. destruct (bool_decide _); [|done].
  apply (recovery_not_user linkage linkage_fits m va tr) in Ht; [congruence|apply Ho].
Qed.

Lemma user_writes_accounted mb m j g fs fss w' :
  accounted mb m fss -> fs ∈ fss -> space m j g fs -> user_writes (frame_of fs Root) (km_words m) w' ->
  accounted mb (set_words m w') fss /\ space (set_words m w') j g fs /\
  forall j' g' fs', apart fs fs' -> space m j' g' fs' -> space (set_words m w') j' g' fs'.
Proof.
  intros [Hok Hrec HM Hw Hf] Hin Hsp Hu. pose proof Hsp as [Hall Ho _].
  pose proof (fun a => user_writes_stack m j g fs w' a Hsp Hu) as Hst.
  assert (Hsame : forall a, ~ in_frame (frame_of fs Stack) a -> read_word w' a = read_word (km_words m) a).
  { intros a Ha. destruct (decide (read_word w' a = read_word (km_words m) a)) as [|Hn]; [done|]. by destruct Ha; apply Hst. }
  pose proof (find_role_elem _ _ _ (frame_of_Some fs Hall Stack)) as Hstack.
  assert (Hfr : forall a, in_frame (frame_of fs Stack) a -> in_frames fs a)
    by (intros a Ha; by apply (in_frames_elem _ _ _ Hstack)).
  assert (Hok' : machine_ok (set_words m w')).
  { apply (machine_ok_same_but linkage probes layout m (frame_of fs Stack)); [done| |done].
    apply (owns_managed linkage _ _ _ _ _ _ Ho Hstack). }
  split_and!.
  - split; try done. intros a Ha. cbn [km_words set_words]. rewrite Hsame; [by apply Hw|].
    intros Hx. apply Ha, Hf. right. apply Exists_exists. exists fs. split; [done|by apply Hfr].
  - apply (space_agree m); try done.
    + intros a Ha. apply Hsame. intros Hx. apply (proj2 (space_out m j g fs a Hsp (Hfr a Hx))), Ha.
    + intros f a Hf' Hrole Ha. apply Hsame. intros Hx.
      apply (frames_disjoint fs f (mkFrame Stack (frame_of fs Stack)) a); try done; [apply Ho|]. by intros ->.
    + apply (on_handed _ _ _ _ _ _ Ho).
  - intros j' g' fs' Hap Hs'. apply (space_stays (in_frame (frame_of fs Stack)) m); try done.
    + intros a Ha. apply (proj2 (space_out m j g fs a Hsp (Hfr a Ha))).
    + intros a Ha Hx. apply (Hap a). split; [by apply Hfr|done].
    + intros x Hx. by left.
Qed.
End tasks.

(** * The kernel's invariant

    What holds whenever a task is about to run: every living task has an owner
    whose frames are its own, whose space translates exactly its pages and whose
    saved context keeps to the policy; no frame is lost.  Resuming a task enters
    user mode in that state. *)

#[local] Open Scope string_scope.
#[local] Open Scope Z_scope.

(** ** Owners *)

Lemma owners_get_put o task owner task' :
  valid_task task -> owners_get (owners_put o task owner) task' =
  if task' =? task then Some owner else owners_get o task'.
Proof.
  intros [-> | ->]; unfold owners_get, owners_put, SENDER_TASK_ID, RECEIVER_TASK_ID.
  - destruct (Z.eqb_spec task' 1) as [->|Hn]; [done|]. cbn [Z.eqb Pos.eqb to_receiver to_sender]. done.
  - destruct (Z.eqb_spec task' 2) as [->|]; [done|]. by destruct (task' =? 1).
Qed.

Lemma owners_take_get o task :
  valid_task task -> fst (owners_take o task) = owners_get o task /\
  forall task', owners_get (snd (owners_take o task)) task' = if task' =? task then None else owners_get o task'.
Proof.
  intros [-> | ->]; split; try done; intros task'; unfold owners_get, owners_take, SENDER_TASK_ID, RECEIVER_TASK_ID.
  - destruct (Z.eqb_spec task' 1) as [->|Hn]; [done|]. done.
  - destruct (Z.eqb_spec task' 2) as [->|]; [done|]. by destruct (task' =? 1).
Qed.

Lemma owners_none o : owners_get o 1 = None -> owners_get o 2 = None -> o = TaskOwners_new.
Proof. destruct o as [a b]. change (a = None -> b = None -> mkTaskOwners a b = TaskOwners_new). by intros -> ->. Qed.

(** ** The machine between user mode and the kernel *)

(** The machine once the recovery root is loaded. *)
Definition settle (m : Machine) : Machine := set_cr3 (rs_root (km_recovery m)) m.

Section kernel.
Variables (linkage : Linkage) (probes : ProbeSymbols) (trampolines : Trampolines).
Hypothesis linkage_fits : linkage_ok linkage.
Hypothesis layout : image_layout linkage probes.
#[local] Instance kernel_backend : AddressSpaceBackend (option Machine) IsolationError := KernelBackend linkage probes.
Notation machine_ok := (machine_ok linkage).
Notation accounted := (accounted linkage).
Notation space := (space linkage probes).

Lemma root_masked m : machine_ok m -> Z.land (rs_root (km_recovery m)) ENTRY_ADDRESS_MASK = rs_root (km_recovery m).
Proof. intros Hok. rewrite <-(mk_cr3 _ _ Hok). unfold read_cr3. by rewrite <-Z.land_assoc, Z.land_diag. Qed.

Lemma machine_ok_settle m : machine_ok m -> machine_ok (settle m).
Proof. intros Hok. pose proof (root_masked m Hok) as Hr. destruct Hok as [H1 H2 H3 H4]. by split. Qed.

Lemma accounted_settle mb m fss : accounted mb m fss -> accounted mb (settle m) fss.
Proof. intros [H1 H2 H3 H4 H5]. split; try done. by apply machine_ok_settle. Qed.

Lemma space_settle m j g fs : space m j g fs -> space (settle m) j g fs.
Proof.
  intros [H1 H2 H3]. split; try done. destruct H2 as [O1 O2 O3 O4 O5]. split; try done. by apply machine_ok_settle.
Qed.

(** The root of a space, as the processor and as the owner know it. *)
Lemma space_root m j g fs :
  space m j g fs -> find_role fs Root = Some (frame_of fs Root) /\ Z.land (frame_of fs Root) ENTRY_ADDRESS_MASK = frame_of fs Root.
Proof.
  intros [Hr Ho _]. split; [by apply frame_of_Some|]. apply frame_masked.
  by apply (frame_of_ok linkage m fs _ Ho Hr).
Qed.

(** ** The kernel while tasks exist *)

(** The machine the schedulers start from, and what was written before. *)
Variables (mb : Machine) (s0 : list string).

(** Enough memory for two tasks, room in the extent array for their frames, a
    probe for every generation, and no image and no usable frame at address zero. *)
Record base_ok : Prop := {
  bo_machine : machine_ok mb;
  bo_image : 0 < lk_kernel_start linkage;
  bo_zero : ~ covers (live_managed (km_allocator mb)) 0;
  bo_pages : 2 * Z.of_nat TASK_FRAME_COUNT <= pages (live_free (km_allocator mb));
  bo_room : (fa_free_len (km_allocator mb) + 2 * TASK_FRAME_COUNT <= MAX_FRAME_EXTENTS)%nat;
  bo_probes : forall j g, g ∈ [1; 2; 3; 4; 5] -> probe_ok probes (set_probes j mb) g = true
}.
Hypothesis base : base_ok.

Definition journaled_kind (kind : KernelRuntimeKind) : bool :=
  match kind with KindJournaled => true | _ => false end.

(** What the serial port has when a scheduler of this kind runs. *)
Definition serial_of (kind : KernelRuntimeKind) : list string :=
  (s0 ++ [("MakopaOS isolation v1 ok user-fault-contained" ++ CRLF)%string]
  ++ match kind with
     | KindCooperative => []
     | _ => [("MakopaOS ipc v1 ok cooperative-two-task" ++ CRLF)%string; ("MakopaOS capabilities v1 ok task-local-attenuation" ++ CRLF)%string]
     end
  ++ match kind with
     | KindJournaled => [("MakopaOS approval v1 ok staged-single-use" ++ CRLF)%string]
     | _ => []
     end)%list.

(** The frames of each task. *)
Definition Frames : Type := Z -> option (list OwnedFrame).

Definition outs (f : Frames) : list (list OwnedFrame) := omap f [1; 2].

Definition drop_task (f : Frames) (task : Z) : Frames := fun t => if t =? task then None else f t.

(** A living task and its space; [active] is the task in user mode. *)
Definition alive (m : Machine) (j : bool) (owners : TaskOwners) (s : TaskSlot) (active : option Z) (task : Z)
    (fs : list OwnedFrame) : Prop :=
  exists o, owners_get owners task = Some o /\ ts_state s <> TaskDead /\
    ow_state o = (if bool_decide (active = Some task) then Active else Inactive) /\
    owner_of (ts_generation s) o fs /\ space m j (ts_generation s) fs /\
    context_validate (ts_context s) task (ts_generation s) (frame_of fs Root) task_context_policy = Ok tt.

Definition linked (m : Machine) (j : bool) (owners : TaskOwners) (r : Runtime) (f : Frames) (active : option Z)
    (task : Z) : Prop :=
  match f task with
  | None => ts_state (task_slot r task) = TaskDead /\ owners_get owners task = None
  | Some fs => alive m j owners (task_slot r task) active task fs
  end.

Record scheduling (m : Machine) (k : Kernel) (kr : KernelRuntime) (f : Frames) (active : option Z) : Prop := {
  sg_runtime : kn_task_runtime k = Some kr;
  sg_inv : kr_inv kr;
  sg_owner : kn_task_owner k = None;
  sg_account : accounted mb m (outs f);
  sg_room : room mb m (length (outs f));
  sg_linked : forall task, valid_task task ->
    linked m (journaled_kind (kr_kind kr)) (kn_task_owners k) (kr_runtime kr) f active task;
  sg_apart : forall fs1 fs2, f 1 = Some fs1 -> f 2 = Some fs2 -> apart fs1 fs2;
  sg_routes : routes trampolines (kn_descriptors k) (kn_processor k);
  sg_serial : kn_serial k = serial_of (kr_kind kr)
}.

(** The registers a context is resumed with. *)
Definition entry_of (c : TaskContextV1) : UserEntry :=
  mkUserEntry (tc_rip c) (tc_cs c) (tc_rflags c) (tc_rsp c) (tc_ss c) (Some (context_gprs c)).

(** A task runs in user mode under its own root. *)
Record running (e : UserEntry) (k : Kernel) (kr : KernelRuntime) (f : Frames) (task : Z) (fs : list OwnedFrame) : Prop := {
  ru_scheduling : scheduling (settle (kn_machine k)) k kr f (Some task);
  ru_task : running_task (kr_runtime kr) = Ok task;
  ru_frames : f task = Some fs;
  ru_current : kn_current_task k = task;
  ru_active : kn_active_context k =
    mkActiveContext true task (frame_of fs Root) (rs_root (km_recovery mb)) RECOVERY_STACK_TOP 0;
  ru_cr3 : km_cr3 (kn_machine k) = frame_of fs Root;
  ru_entry : e = entry_of (ts_context (task_slot (kr_runtime kr) task))
}.

(** ** Resuming *)

(** What the policy fixes. *)
Lemma policy_root c task g root : context_validate c task g root task_context_policy = Ok tt -> tc_root c = root.
Proof.
  unfold context_validate. destruct (negb (tc_task_id c =? task)); [done|]. destruct (_ || _); [done|].
  destruct (_ || _) eqn:E; [done|]. intros _. b2p. naive_solver.
Qed.

Lemma alive_frames m j owners r f active task :
  linked m j owners r f active task -> ts_state (task_slot r task) <> TaskDead ->
  exists fs, f task = Some fs /\ alive m j owners (task_slot r task) active task fs.
Proof. unfold linked. intros Hl Hn. destruct (f task) as [fs|]; [by exists fs|]. by destruct Hl. Qed.

(** Nothing a task depends on has changed. *)
Lemma linked_transfer m m' j owners owners' r r' f f' active active' task :
  linked m j owners r f active task ->
  f' task = f task -> owners_get owners' task = owners_get owners task ->
  bool_decide (active' = Some task) = bool_decide (active = Some task) ->
  (forall fs g, f task = Some fs -> space m j g fs -> space m' j g fs) ->
  identity (task_slot r' task) = identity (task_slot r task) ->
  (ts_state (task_slot r' task) = TaskDead <-> ts_state (task_slot r task) = TaskDead) ->
  linked m' j owners' r' f' active' task.
Proof.
  intros Hl Hf Ho Hact Hsp Hid Hd. unfold linked in *. rewrite Hf. destruct (f task) as [fs|] eqn:Ef.
  - destruct Hl as (o & Hget & Hn & Hst & Hown & Hs & Hc). exists o.
    pose proof (f_equal fst Hid) as Hg. unfold identity in Hg. cbn [fst] in Hg. rewrite Hg.
    split_and!; [by rewrite Ho|by rewrite Hd|by rewrite Hact|done|by apply Hsp|].
    by rewrite (identity_validate _ _ _ _ _ _ Hid).
  - destruct Hl as [H1 H2]. split; [by apply Hd|by rewrite Ho].
Qed.

Lemma resume_ok k kr f task :
  scheduling (kn_machine k) k kr f None -> running_task (kr_runtime kr) = Ok task ->
  exists e k' fs, resume_scheduled_task task k = User e k' /\ running e k' kr f task fs /\
    km_words (kn_machine k') = km_words (kn_machine k).
Proof.
  intros Hs Hrun. pose proof Hs as [Hk Hi Hto Ha Hroom Hl Hap Hro Hse]. pose proof (kr_inv_rt _ Hi) as Hr.
  pose proof (proj1 (running_task_spec _ task Hr) Hrun) as [Ht Hst].
  destruct (alive_frames _ _ _ _ _ _ _ (Hl task Ht)) as (fs & Hf & o & Ho & Hnd & Hos & Hown & Hsp & Hctx); [congruence|].
  destruct (space_root _ _ _ _ Hsp) as [Hroot Hmask]. pose proof Hown as (Hg & Hlive & _ & Hrt & _).
  cbn [ow_generation ow_generation_live ow_root set_state] in Hg, Hlive, Hrt. rewrite Hroot in Hrt.
  unfold resume_scheduled_task. rewrite Hk. cbn [expect].
  unfold kr_running_task, kr_state, rt_state, kr_generation, rt_generation, kr_context, rt_context.
  rewrite Hrun, slot_valid by done. rewrite bool_decide_eq_true_2 by done.
  rewrite Hst, bool_decide_eq_true_2 by done. cbn [negb orb ok expect]. rewrite Ho. cbn [expect]. rewrite Hrt. cbn [expect].
  cbn in Hos. rewrite Hos, bool_decide_eq_true_2, Hg, Z.eqb_refl, Hctx by done. cbn [negb orb is_err].
  unfold activate. rewrite Hos, Hlive, bool_decide_eq_true_2 by done. cbn [negb orb is_err].
  eexists _, _, fs. split; [reflexivity|]. split; [|done]. split; try done.
  - split; try done; [by apply (accounted_settle mb (kn_machine k))|]. cbn [kn_task_owners with_machine with_active with_owners]. intros task' Ht'.
    destruct (decide (task' = task)) as [->|Hne].
    + unfold linked. rewrite Hf. exists (set_state o Active). rewrite owners_get_put, Z.eqb_refl by done.
      rewrite bool_decide_eq_true_2 by done. split_and!; try done. by apply (space_settle (kn_machine k)).
    + eapply (linked_transfer (kn_machine k)); [by apply Hl|done| | | |done|done].
      * by rewrite owners_get_put, (proj2 (Z.eqb_neq _ _) Hne).
      * rewrite !bool_decide_eq_false_2 by congruence. done.
      * intros fs' g _. apply (space_settle (kn_machine k)).
  - cbn. by rewrite (at_recovery _ _ _ _ Ha).
  - cbn. by apply policy_root in Hctx.
Qed.

(** ** Starting a scheduler *)

(** No task exists. *)
Record idle (k : Kernel) : Prop := {
  id_owner : kn_task_owner k = None;
  id_owners : kn_task_owners k = TaskOwners_new;
  id_runtime : kn_task_runtime k = None;
  id_account : accounted mb (kn_machine k) [];
  id_routes : routes trampolines (kn_descriptors k) (kn_processor k)
}.

Lemma published_owner g o fs : published g o fs -> owner_of g o fs.
Proof. intros (H1 & H2 & H3 & H4 & H5 & H6 & H7). by split_and!. Qed.

Lemma probe_accounted m fss j g :
  accounted mb m fss -> probe_ok probes (set_probes j m) g = probe_ok probes (set_probes j mb) g.
Proof.
  intros [_ _ _ Hw _]. unfold probe_ok. cbn [km_words km_journaled_probes set_probes].
  rewrite (probe_bytes_agree linkage probes linkage_fits layout (km_words mb)); [done|].
  intros a Ha. apply Hw. intros Hf. apply (free_not_image linkage mb a (bo_machine base) Hf).
  destruct layout as [Hs _ _ _ _]. unfold in_image. lia.
Qed.

(** A root is an aligned frame other than zero. *)
Lemma root_good m fss j g fs :
  accounted mb m fss -> space m j g fs -> frame_of fs Root <> 0 /\ frame_of fs Root mod 4096 = 0.
Proof.
  intros [_ _ HM _ _] [Hr Ho _]. pose proof (find_role_elem _ _ _ (frame_of_Some fs Hr Root)) as Hin.
  destruct (owns_managed linkage _ _ _ _ _ _ Ho Hin) as [Hal Hcov]. split; [|by apply (frame_of_ok linkage m fs _ Ho Hr)].
  intros Hz. apply (bo_zero base). rewrite <-HM. cbn [of_physical_start] in Hcov. by rewrite Hz in Hcov.
Qed.

Lemma initial_context_valid task g root :
  g <> 0 -> root <> 0 -> root mod 4096 = 0 ->
  context_validate (initial_context task g root) task g root task_context_policy = Ok tt.
Proof.
  intros Hg Hz Hal. unfold context_validate, initial_context. cbn [tc_task_id tc_generation tc_root tc_rip tc_rsp tc_cs tc_ss tc_rflags context_initial].
  rewrite !Z.eqb_refl, (proj2 (Z.eqb_neq _ _) Hg), (proj2 (Z.eqb_neq _ _) Hz).
  unfold is_multiple_of. rewrite (proj2 (Z.eqb_eq _ _) Hal). by vm_compute.
Qed.

Lemma on_backend_runs {A} (p : P (option Machine) A) k Q (c : A -> Kernel -> Control) :
  kruns p (kn_machine k) Q -> exists a m, Q a m /\ on_backend p k c = c a (with_machine m k).
Proof. intros (a & m & Hp & HQ). exists a, m. split; [done|]. unfold on_backend. by rewrite Hp. Qed.

Lemma idle_recovery k :
  idle k -> rs_ready (km_recovery (kn_machine k)) = true /\ read_cr3 (kn_machine k) = rs_root (km_recovery (kn_machine k)).
Proof.
  intros [_ _ _ [Hok _ _ _ _] _]. split; [apply (rt_ready _ _ _ (mk_recovery _ _ Hok))|apply Hok].
Qed.

Lemma identity_initial (s : TaskSlot) task g root :
  identity s = (g, initial_context task g root) -> g <> 0 -> root <> 0 -> root mod 4096 = 0 ->
  ts_generation s = g /\ context_validate (ts_context s) task g root task_context_policy = Ok tt.
Proof.
  intros Hid Hg Hz Hal. pose proof (f_equal fst Hid) as Hgen. unfold identity in Hgen. cbn [fst] in Hgen. split; [done|].
  rewrite (identity_validate (mkTaskSlot task g TaskDead (initial_context task g root) table_dead)).
  - by apply initial_context_valid.
  - rewrite Hid. done.
Qed.

(** User mode under a fresh runtime of two fresh tasks. *)
Definition begins (construct : TaskContextV1 -> TaskContextV1 -> option KernelRuntime) (supervised : bool) (g1 g2 : Z)
    (kind : KernelRuntimeKind) (c : Control) : Prop :=
  exists e k kr0 kr f task fs fs1 fs2,
    c = User e k /\ running e k kr f task fs /\ f 1 = Some fs1 /\ f 2 = Some fs2 /\ kr_kind kr = kind /\
    construct (initial_context SENDER_TASK_ID g1 (frame_of fs1 Root)) (initial_context RECEIVER_TASK_ID g2 (frame_of fs2 Root)) = Some kr0 /\
    first_dispatch supervised kr0 = (Some task, kr) /\
    identities (kr_runtime kr) = ((g1, initial_context SENDER_TASK_ID g1 (frame_of fs1 Root)),
      (g2, initial_context RECEIVER_TASK_ID g2 (frame_of fs2 Root))).

Lemma start_ok n j supervised g1 g2 construct kind k :
  idle k -> starts construct supervised g1 g2 kind -> j = journaled_kind kind ->
  g1 ∈ [1; 2; 3; 4; 5] -> g2 ∈ [1; 2; 3; 4; 5] -> kn_serial k = serial_of kind ->
  begins construct supervised g1 g2 kind (start_scheduler linkage probes n j supervised g1 g2 construct k).
Proof.
  intros Hidle Hst -> Hg1 Hg2 Hser. destruct (idle_recovery k Hidle) as [Hready Hcr3].
  destruct Hidle as [Hto Hos Hrt Ha Hro]. set (j := journaled_kind kind).
  assert (Hnz : forall g, g ∈ [1; 2; 3; 4; 5] -> g <> 0) by (intros g Hg ->; set_solver).
  destruct (accounted_none linkage mb _ (bo_machine base) Ha) as [HL Hlen].
  unfold start_scheduler. rewrite Hready, Hcr3, Z.eqb_refl, Hto, Hrt, Hos. cbn [negb orb is_none owners_is_empty TaskOwners_new to_sender to_receiver andb].
  assert (Hpr : forall g, g ∈ [1; 2; 3; 4; 5] -> probe_ok probes (set_probes j (kn_machine k)) g = true)
    by (intros g Hg; rewrite (probe_accounted (kn_machine k) [] j g Ha); by apply (bo_probes base)).
  match goal with |- context [on_backend ?p ?at_ ?c] => destruct (on_backend_runs p at_ _ c
    (pair_accounted linkage probes linkage_fits layout mb (kn_machine k) j g1 g2 Ha (Hnz _ Hg1) (Hnz _ Hg2)
      (Hpr _ Hg1) (Hpr _ Hg2)
      ltac:(rewrite HL; apply (bo_pages base)))) as (r & m' & (o1 & o2 & fs1 & fs2 & -> & Hp1 & Hp2 & Ha2 & Hs1 & Hs2 & Hap & Hl2) & ->) end.
  cbn [ap_first ap_second]. pose proof Hp1 as (_ & _ & _ & Hr1 & _). pose proof Hp2 as (_ & _ & _ & Hr2 & _).
  rewrite Hr1, Hr2, (proj1 (space_root _ _ _ _ Hs1)), (proj1 (space_root _ _ _ _ Hs2)). cbn [expect].
  destruct (root_good _ _ _ _ _ Ha2 Hs1) as [Hz1 Hal1]. destruct (root_good _ _ _ _ _ Ha2 Hs2) as [Hz2 Hal2].
  destruct (Hst _ _ Hz1 Hz2) as (kr & next & kr' & Hcon & Hd & Hi & Hrun & Hkind & Hid). rewrite Hcon.
  unfold context_ok. rewrite !initial_context_valid by auto. cbn [is_ok andb negb]. rewrite Hd. cbn [expect].
  set (k2 := with_runtime (Some kr') _). set (f := fun t => if t =? 1 then Some fs1 else if t =? 2 then Some fs2 else None).
  destruct (resume_ok k2 kr' f next) as (e & k' & fs & He & Hu & _); [|done|by exists e, k', kr, kr', f, next, fs, fs1, fs2].
  pose proof (f_equal fst Hid) as Hid1. pose proof (f_equal snd Hid) as Hid2. cbn [fst snd identities] in Hid1, Hid2.
  destruct (identity_initial _ _ _ _ Hid1) as [Hgen1 Hc1]; [by auto..|].
  destruct (identity_initial _ _ _ _ Hid2) as [Hgen2 Hc2]; [by auto..|].
  pose proof (kr_inv_rt _ Hi) as Hrinv.
  split; try done; cbn.
  - by apply accounted_swap.
  - unfold room. cbn [length outs omap]. rewrite <-Hlen. cbn. lia.
  - rewrite Hkind. fold j. intros t [-> | ->]; unfold linked; cbn.
    + exists o1. rewrite Hgen1. split_and!; try done; [|by apply Hp1|by apply published_owner]. pose proof (dead_generation _ 1 Hrinv (or_introl eq_refl)) as ->.
      change (task_slot (kr_runtime kr') 1) with (rt_task0 (kr_runtime kr')). rewrite Hgen1. by apply Hnz.
    + exists o2. rewrite Hgen2. split_and!; try done; [|by apply Hp2|by apply published_owner]. pose proof (dead_generation _ 2 Hrinv (or_intror eq_refl)) as ->.
      change (task_slot (kr_runtime kr') 2) with (rt_task1 (kr_runtime kr')). rewrite Hgen2. by apply Hnz.
  - by intros ? ? [= <-] [= <-].
  - by rewrite Hkind, Hser.
Qed.
End kernel.
