(* ===== verification/KernelRun.v ===== *)
(** * Running tasks

    From a state in which a task runs, whatever user mode did: a trap is
    dispatched, an exited task is torn down, and the next phase starts, or the
    kernel stops with one of the reasons user code can cause. *)

From Stdlib Require Import String.
From stdpp Require Import gmap.
From S2P Require Import Prelude.
From S2P Require Import RuntimeTypes.
From S2P Require Import Capability.
From S2P Require Import Runtime.
From S2P Require Import RuntimeOps.
From S2P Require Import Journal.
From S2P Require Import Journaled.
From S2P Require Import RuntimeInv.
From S2P Require Import RuntimeProgress.
From S2P Require Import Panic.
From S2P Require Import FrameAllocator.
From S2P Require Import Extents.
From S2P Require Import FrameInit.
From S2P Require Import FrameReturns.
From S2P Require Import AddressSpace.
From S2P Require Import AddressSpaceProofs.
From S2P Require Import PageTables.
From S2P Require Import PageTablesProofs.
From S2P Require Import PageTablesTheorems.
From S2P Require Import KernelBackend.
From S2P Require Import KernelBackendProofs.
From S2P Require Import KernelSpaces.
From S2P Require Import KernelSpacesTheorems.
From S2P Require Import KernelDescriptors.
From S2P Require Import KernelDescriptorsProofs.
From S2P Require Import KernelScheduler.
From S2P Require Import KernelRuntimeProofs.
From S2P Require Import KernelInvariant.

#[local] Open Scope string_scope.
#[local] Open Scope Z_scope.

(** A reason of the list. *)
Ltac user_reason := apply (bool_decide_unpack _); by vm_compute.

Section kernel.
Variables (linkage : Linkage) (probes : ProbeSymbols) (trampolines : Trampolines).
Hypothesis linkage_fits : linkage_ok linkage.
Hypothesis layout : image_layout linkage probes.
Variables (mb : Machine) (s0 : list string).
Hypothesis base : base_ok linkage probes mb.
#[local] Instance backend : AddressSpaceBackend (option Machine) IsolationError := KernelBackend linkage probes.
Notation accounted := (accounted linkage).
Notation space := (space linkage probes).
Notation linked := (linked linkage probes).
Notation scheduling := (scheduling linkage probes trampolines mb s0).
Notation running := (running linkage probes trampolines mb s0).
Notation serial_of := (serial_of s0).

(** ** Frames *)

Lemma outs_elem (f : Frames) task fs : valid_task task -> f task = Some fs -> fs ∈ outs f.
Proof. intros Ht Hf. apply list_elem_of_omap. exists task. split; [|done]. by destruct Ht as [-> | ->]; repeat constructor. Qed.

Lemma apart_sym fs fs' : apart fs fs' -> apart fs' fs.
Proof. intros H x [H1 H2]. by apply (H x). Qed.

Lemma scheduling_apart m k kr f active t1 t2 fs1 fs2 :
  scheduling m k kr f active -> valid_task t1 -> valid_task t2 -> t1 <> t2 ->
  f t1 = Some fs1 -> f t2 = Some fs2 -> apart fs1 fs2.
Proof.
  intros Hs [-> | ->] [-> | ->] Hn H1 H2; try done; [|apply apart_sym]; by apply (sg_apart _ _ _ _ _ _ _ _ _ _ Hs).
Qed.

(** ** User mode *)

(** A running task, its owner and its space. *)
Lemma running_alive e k kr f task fs :
  running e k kr f task fs ->
  valid_task task /\ ts_state (task_slot (kr_runtime kr) task) = Running /\
  exists o, owners_get (kn_task_owners k) task = Some o /\ ow_state o = Active /\
    owner_of (ts_generation (task_slot (kr_runtime kr) task)) o fs /\
    space (settle (kn_machine k)) (journaled_kind (kr_kind kr)) (ts_generation (task_slot (kr_runtime kr) task)) fs /\
    context_validate (ts_context (task_slot (kr_runtime kr) task)) task (ts_generation (task_slot (kr_runtime kr) task))
      (frame_of fs Root) task_context_policy = Ok tt.
Proof.
  intros [Hs Hrun Hf _ _ _ _]. pose proof (kr_inv_rt _ (sg_inv _ _ _ _ _ _ _ _ _ _ Hs)) as Hr.
  pose proof (proj1 (running_task_spec _ task Hr) Hrun) as [Ht Hst].
  pose proof (sg_linked _ _ _ _ _ _ _ _ _ _ Hs task Ht) as Hl. unfold KernelInvariant.linked in Hl. rewrite Hf in Hl.
  destruct Hl as (o & Ho & _ & Hos & Hown & Hsp & Hc). rewrite bool_decide_eq_true_2 in Hos by done.
  split_and!; try done. by exists o.
Qed.

Lemma running_root e k kr f task fs : running e k kr f task fs -> read_cr3 (kn_machine k) = frame_of fs Root.
Proof.
  intros Hu. destruct (running_alive _ _ _ _ _ _ Hu) as (_ & _ & o & _ & _ & _ & Hsp & _).
  unfold read_cr3. rewrite (ru_cr3 _ _ _ _ _ _ _ _ _ _ _ Hu). by apply (space_root linkage probes _ _ _ _ Hsp).
Qed.

(** What the task writes leaves everything but its stack. *)
Lemma running_writes e k kr f task fs w' :
  running e k kr f task fs -> user_writes (read_cr3 (kn_machine k)) (km_words (kn_machine k)) w' ->
  running e (with_machine (set_words (kn_machine k) w') k) kr f task fs.
Proof.
  intros Hu Hw. rewrite (running_root _ _ _ _ _ _ Hu) in Hw.
  destruct (running_alive _ _ _ _ _ _ Hu) as (Ht & _ & o & _ & _ & _ & Hsp & _).
  destruct Hu as [Hs Hrun Hf Hcur Hact Hcr He]. pose proof Hs as [Hk Hi Hto Ha Hroom Hl Hap Hro Hse].
  destruct (user_writes_accounted linkage probes linkage_fits layout mb (settle (kn_machine k)) _ _ fs (outs f) w' Ha
    (outs_elem f task fs Ht Hf) Hsp Hw) as (Ha' & Hsp' & Hother).
  split; try done. split; try done. intros t Ht'.
  eapply (linked_transfer linkage probes (settle (kn_machine k))); [by apply Hl|done..| |done|done].
  intros fs' g Hf' Hsp0. destruct (decide (t = task)) as [->|Hn].
  - assert (fs' = fs) as -> by congruence.
    apply (proj1 (proj2 (user_writes_accounted linkage probes linkage_fits layout mb (settle (kn_machine k)) _ _ fs (outs f) w' Ha
      (outs_elem f task fs Ht Hf) Hsp0 Hw))).
  - apply (Hother _ _ fs'); [|done]. by apply (scheduling_apart _ _ _ _ _ task t _ _ Hs).
Qed.

(** ** Traps *)

Lemma task_slot_other t task g r : valid_task t -> valid_task task -> t <> task -> task_slot (upd task g r) t = task_slot r t.
Proof. by intros [-> | ->] [-> | ->] Hn. Qed.

(** The boundary the trampoline hands over at. *)
Lemma trap_boundary m fss :
  accounted mb (settle m) fss ->
  negb (read_cr3 (settle m) =? rs_root (km_recovery m)) || (RECOVERY_STACK_TOP - 5 * 8 - 15 * 8 <? RECOVERY_STACK_BASE)
  || match checked_add (RECOVERY_STACK_TOP - 5 * 8 - 15 * 8) TRAP_FRAME_SIZE with
     | Some frame_end => RECOVERY_STACK_TOP <? frame_end
     | None => true
     end || negb (is_multiple_of (RECOVERY_STACK_TOP - 5 * 8 - 15 * 8) 8) = false.
Proof.
  intros Ha. assert (Hc : read_cr3 (settle m) = rs_root (km_recovery m)) by (by apply (mk_cr3 linkage (settle m)), Ha).
  rewrite Hc, Z.eqb_refl. by vm_compute.
Qed.

(** A captured trap that keeps to the policy is handled; the tasks stay linked. *)
Lemma trap_linked m k k' kr kr1 kr' f task fs o regs :
  scheduling m k kr f (Some task) -> f task = Some fs -> valid_task task ->
  owners_get (kn_task_owners k) task = Some o ->
  let g := ts_generation (task_slot (kr_runtime kr) task) in
  let c := context_from_trap regs task g (frame_of fs Root) in
  context_validate c task g (frame_of fs Root) task_context_policy = Ok tt ->
  kr_inv kr1 -> kr_runtime kr1 = upd task (ts_set_context c) (kr_runtime kr) -> running_task (kr_runtime kr1) = Ok task ->
  kr_inv kr' -> identities (kr_runtime kr') = identities (kr_runtime kr1) -> kr_kind kr' = kr_kind kr ->
  kn_machine k' = m -> kn_task_runtime k' = Some kr' -> kn_task_owner k' = None ->
  kn_task_owners k' = owners_put (kn_task_owners k) task (set_state o Inactive) ->
  kn_descriptors k' = kn_descriptors k -> kn_processor k' = kn_processor k -> kn_serial k' = kn_serial k ->
  scheduling m k' kr' f None.
Proof.
  intros [Hk Hi Hto Ha Hroom Hl Hap Hro Hse] Hf Ht Ho g c Hc Hi1 Hr1 Hrun1 Hi' Hid Hkind Hm Hkr Hto' Hos Hd Hp Hs.
  pose proof (kr_inv_rt _ Hi1) as Hri1. pose proof (kr_inv_rt _ Hi') as Hri'.
  split; try done; [|by rewrite Hd, Hp|by rewrite Hs, Hkind]. rewrite Hkind, Hos. intros t Ht'.
  pose proof (identities_slot _ _ t Hid) as Hidt. pose proof (identity_dead _ _ t Hri1 Hri' Ht' Hidt) as Hdt.
  pose proof (Hl t Ht') as Hlt. destruct (decide (t = task)) as [->|Hn].
  - unfold KernelInvariant.linked in *. rewrite Hf in *. destruct Hlt as (o' & Ho' & _ & _ & Hown & Hsp & _).
    assert (o' = o) as -> by congruence. exists (set_state o Inactive).
    rewrite owners_get_put, Z.eqb_refl by done. rewrite Hr1, task_slot_upd in Hidt.
    assert (Hg : ts_generation (task_slot (kr_runtime kr') task) = g) by (pose proof (f_equal fst Hidt) as H; exact H).
    rewrite Hg. split_and!; try done.
    + rewrite Hdt. pose proof (proj1 (running_task_spec _ task Hri1) Hrun1) as [_ Hst]. congruence.
    + by rewrite (identity_validate _ _ _ _ _ _ Hidt).
  - rewrite Hr1, task_slot_other in Hidt by done. rewrite Hr1, task_slot_other in Hdt by done.
    eapply (linked_transfer linkage probes m); [exact Hlt|done| | |done|done|done].
    + by rewrite owners_get_put, (proj2 (Z.eqb_neq _ _) Hn).
    + rewrite !bool_decide_eq_false_2 by congruence. done.
Qed.

(** A trap of the running task: refused when its registers break the policy,
    handled by the runtime otherwise. *)
Lemma trap_dispatched e k kr f task fs regs :
  running e k kr f task fs ->
  let g := ts_generation (task_slot (kr_runtime kr) task) in
  let root := frame_of fs Root in
  let out := makopa_task_trap_trampoline linkage probes RECOVERY_STACK_TOP regs k in
  if context_ok (context_from_trap regs task g root) task g root
  then exists kr1 o kr' k',
    kr_capture_trap task regs root g kr = (Ok tt, kr1) /\ kr_handle_trap task kr1 = (Ok o, kr') /\
    scheduling (kn_machine k') k' kr' f None /\ outcome_ok task o (kr_runtime kr') /\
    km_words (kn_machine k') = km_words (kn_machine k) /\ identities (kr_runtime kr') = identities (kr_runtime kr1) /\
    kr_kind kr' = kr_kind kr /\
    out = match o with
          | OutResume next | OutSwitch next => resume_scheduled_task next k'
          | OutExit exited => teardown_exited_task linkage probes exited k'
          end
  else exists k', out = kernel_failure "trap context capture" k' /\ kn_serial k' = kn_serial k.
Proof.
  intros Hu. cbv zeta. destruct (running_alive _ _ _ _ _ _ Hu) as (Ht & Hst & o & Ho & Hos & Hown & Hsp & _).
  destruct Hu as [Hs Hrun Hf Hcur Hact Hcr He]. pose proof Hs as [Hk Hi Hto Ha Hroom Hl Hap Hro Hse].
  pose proof Hown as (Hg & Hlive & _ & Hrt & _). cbn [ow_generation ow_generation_live ow_root set_state] in Hg, Hlive, Hrt.
  rewrite (proj1 (space_root linkage probes _ _ _ _ Hsp)) in Hrt.
  destruct (root_good linkage probes mb base _ _ _ _ _ Ha Hsp) as [Hz _].
  unfold makopa_task_trap_trampoline, makopa_task_trap_dispatch.
  change (set_cr3 (rs_root (km_recovery (kn_machine k))) (kn_machine k)) with (settle (kn_machine k)).
  cbn [kn_machine with_machine]. change (km_recovery (settle (kn_machine k))) with (km_recovery (kn_machine k)).
  rewrite (trap_boundary (kn_machine k) _ Ha). cbn [kn_current_task kn_task_runtime kn_task_owners kn_active_context with_machine].
  rewrite Hcur, Hk. cbn [expect]. unfold kr_running_task. rewrite Hrun, bool_decide_eq_true_2 by done. cbn [negb].
  rewrite Ho. cbn [expect]. rewrite Hos, bool_decide_eq_true_2, Hrt by done. cbn [negb expect].
  rewrite Hact. cbn [ac_present ac_task ac_task_root ac_recovery_root ac_recovery_stack ac_continuation].
  rewrite (at_recovery _ _ _ _ Ha : km_recovery (kn_machine k) = km_recovery mb), !Z.eqb_refl. cbn [negb orb].
  unfold recover. rewrite Hos, Hlive, bool_decide_eq_true_2 by done. cbn [negb orb is_err]. rewrite Hg.
  destruct (kr_capture kr task regs (frame_of fs Root) Hi Hrun Hz) as (kr1 & Hcap & Hi1 & Hr1 & Hrun1 & Hkind1).
  rewrite Hcap. cbn [is_err]. unfold kr_context, rt_context. rewrite slot_valid by done. cbn [ok mbind option_bind].
  rewrite Hr1, task_slot_upd. cbn [ts_context ts_set_context]. unfold context_ok.
  destruct (context_validate _ _ _ _ _) as [[]|err] eqn:Hc; cbn [is_ok ok expect]; [|by eexists].
  destruct (kr_trap kr1 task Hi1 Hrun1) as (out & kr' & Htrap & Hi' & Hout & Hid & Hkind'). rewrite Htrap. cbn [ok expect].
  exists kr1, out, kr'. set (k' := with_runtime (Some kr') _).
  assert (Hk' : forall k2, kn_machine k2 = settle (kn_machine k) -> kn_task_runtime k2 = Some kr' -> kn_task_owner k2 = kn_task_owner k' ->
    kn_task_owners k2 = kn_task_owners k' -> kn_descriptors k2 = kn_descriptors k' -> kn_processor k2 = kn_processor k' ->
    kn_serial k2 = kn_serial k' -> scheduling (kn_machine k2) k2 kr' f None).
  { intros k2 E1 E2 E3 E4 E5 E6 E7. rewrite E1.
    apply (trap_linked _ k k2 kr kr1 kr' f task fs o regs Hs Hf Ht Ho); try done; [by rewrite Hkind'|by rewrite E3]. }
  destruct out; [exists (with_active 0 ActiveContext_new k')|exists (with_active 0 ActiveContext_new k')|exists k'];
    (split_and!; [done|done|by apply Hk'|done|done|done|by rewrite Hkind'|done]).
Qed.

(** ** How the kernel may end *)

(** The address the isolation probe returns to. *)
Variable continuation_address : Z.

(** The probe runs in user mode under its own root. *)
Record probing (e : UserEntry) (k : Kernel) (o : AddressSpaceOwner) (fs : list OwnedFrame) : Prop := {
  po_owner : kn_task_owner k = Some o;
  po_owners : kn_task_owners k = TaskOwners_new;
  po_runtime : kn_task_runtime k = None;
  po_state : ow_state o = Active;
  po_owns : owner_of TASK_GENERATION o fs;
  po_space : space (settle (kn_machine k)) false TASK_GENERATION fs;
  po_account : accounted mb (settle (kn_machine k)) [fs];
  po_room : (fa_free_len (km_allocator (kn_machine k)) <= fa_free_len (km_allocator mb))%nat;
  po_active : kn_active_context k =
    mkActiveContext true TASK_ID (frame_of fs Root) (rs_root (km_recovery mb)) RECOVERY_STACK_TOP continuation_address;
  po_cr3 : km_cr3 (kn_machine k) = frame_of fs Root;
  po_routes : routes trampolines (kn_descriptors k) (kn_processor k);
  po_serial : kn_serial k = s0;
  po_current : kn_current_task k = 0;
  po_entry : e = mkUserEntry USER_TEXT USER_CODE_SELECTOR 2 USER_STACK_TOP USER_DATA_SELECTOR None
}.

(** The reasons user code can give: a trap outside the policy, a fault, a trap of
    the probe, a supervisor that exits before it launched its workload, and a
    journal that is not the reference. *)
Definition USER_REASONS : list string :=
  ["trap context capture"; "unexpected exception frame"; "user fault classification"; "double fault";
   "trap runtime missing"; "teardown state transition"; "scheduler residual state"].

(** What the serial port has in the phase user code runs in. *)
Definition PHASES : list (list string) := [s0; serial_of KindCooperative; serial_of KindSupervised; serial_of KindJournaled].

Definition failed (k : Kernel) : Prop :=
  exists before reason, before ∈ PHASES /\ reason ∈ USER_REASONS /\
    kn_serial k = (before ++ ["MakopaOS isolation error: "; reason; CRLF])%list.

(** The end of a whole run: all five messages, no task left, every frame back. *)
Record completed (k : Kernel) : Prop := {
  cd_serial : kn_serial k = (serial_of KindJournaled ++ [("MakopaOS effects v1 ok ordered-redacted" ++ CRLF)%string])%list;
  cd_idle : idle linkage trampolines mb k;
  cd_free : live_free (km_allocator (kn_machine k)) = live_free (km_allocator mb)
}.

Definition in_user (e : UserEntry) (k : Kernel) : Prop :=
  (exists o fs, probing e k o fs) \/ exists kr f task fs, running e k kr f task fs.

Definition good (c : Control) : Prop :=
  match c with
  | Exit code k => (code = QEMU_FAILURE /\ failed k) \/ (code = QEMU_SUCCESS /\ completed k)
  | Stopped => False
  | User e k => in_user e k
  end.

Lemma serial_phase kind : serial_of kind ∈ PHASES.
Proof. destruct kind; unfold PHASES; repeat first [apply list_elem_of_here | apply list_elem_of_further]. Qed.

(** The three ways a handler ends. *)
Definition enters (c : Control) : Prop := exists e k, c = User e k /\ in_user e k.

Definition fails (c : Control) : Prop :=
  exists reason k, c = kernel_failure reason k /\ reason ∈ USER_REASONS /\ kn_serial k ∈ PHASES.

Definition succeeds (c : Control) : Prop :=
  exists k, c = effect_journal_success k /\ idle linkage trampolines mb k /\ kn_serial k = serial_of KindJournaled.

Lemma enters_good c : enters c -> good c.
Proof. by intros (e & k & -> & Hu). Qed.

Lemma fails_good c : fails c -> good c.
Proof.
  intros (reason & k & -> & Hr & Hs). left. split; [done|]. exists (kn_serial k), reason. split_and!; [done|done|].
  cbn [kn_serial write_str]. by rewrite <-!app_assoc.
Qed.

Lemma succeeds_good c : succeeds c -> good c.
Proof.
  intros (k & -> & Hi & Hs). right. split; [done|]. pose proof Hi as [H1 H2 H3 H4 H5].
  split; [cbn [kn_serial write_str]; by rewrite Hs|by split|].
  apply (accounted_none linkage mb _ (bo_machine linkage probes mb base) H4).
Qed.

Lemma failure reason k : reason ∈ USER_REASONS -> kn_serial k ∈ PHASES -> fails (kernel_failure reason k).
Proof. intros. by exists reason, k. Qed.

Lemma running_enters e k kr f task fs : running e k kr f task fs -> enters (User e k).
Proof. intros Hu. exists e, k. split; [done|]. right. by exists kr, f, task, fs. Qed.

(** ** From one phase to the next *)

Notation begins := (begins linkage probes trampolines mb s0).

Lemma begins_enters construct supervised g1 g2 kind c : begins construct supervised g1 g2 kind c -> enters c.
Proof. intros (e & k & kr0 & kr & f & task & fs & fs1 & fs2 & -> & Hu & _). by eapply running_enters. Qed.

Ltac generation := apply (bool_decide_unpack _); by vm_compute.

(** The three runtimes. *)
Definition cooperative_runtime (sender receiver : TaskContextV1) : option KernelRuntime :=
  KernelBase <$> ok (Runtime_new sender receiver).
Definition supervised_runtime (supervisor workload : TaskContextV1) : option KernelRuntime :=
  KernelBase <$> ok (Runtime_new_supervised supervisor workload).
Definition journaled_runtime (supervisor workload : TaskContextV1) : option KernelRuntime :=
  KernelJournaled <$> ok (JournaledRuntime_new_supervised supervisor workload).

Lemma isolation_begins k :
  idle linkage trampolines mb k -> kn_serial k = s0 ->
  begins cooperative_runtime false SENDER_GENERATION RECEIVER_GENERATION KindCooperative (isolation_success linkage probes k).
Proof.
  intros [H1 H2 H3 H4 H5] Hs. unfold isolation_success, run_scheduler.
  apply start_ok; [done..|by split|apply starts_cooperative|done|generation|generation|]. cbn [kn_serial write_str]. by rewrite Hs.
Qed.

Lemma capability_begins k :
  idle linkage trampolines mb k -> kn_serial k = serial_of KindCooperative ->
  begins supervised_runtime true SUPERVISOR_GENERATION WORKLOAD_GENERATION KindSupervised (capability_success linkage probes k).
Proof.
  intros [H1 H2 H3 H4 H5] Hs. unfold capability_success, run_supervised_scheduler.
  apply start_ok; [done..|by split|apply starts_supervised|done|generation|generation|]. cbn [kn_serial write_str]. rewrite Hs.
  unfold KernelInvariant.serial_of. by rewrite <-!app_assoc.
Qed.

Lemma approval_begins k :
  idle linkage trampolines mb k -> kn_serial k = serial_of KindSupervised ->
  begins journaled_runtime true SUPERVISOR_GENERATION WORKLOAD_GENERATION KindJournaled (approval_success linkage probes k).
Proof.
  intros [H1 H2 H3 H4 H5] Hs. unfold approval_success, run_journaled_scheduler.
  apply start_ok; [done..|by split|apply starts_journaled|done|generation|generation|]. cbn [kn_serial write_str]. rewrite Hs.
  unfold KernelInvariant.serial_of. by rewrite <-!app_assoc.
Qed.

(** Both tasks are dead and nothing is out. *)
Record drained (k : Kernel) (kr : KernelRuntime) : Prop := {
  dr_runtime : kn_task_runtime k = Some kr;
  dr_inv : kr_inv kr;
  dr_dead : both_dead (kr_runtime kr);
  dr_owner : kn_task_owner k = None;
  dr_owners : kn_task_owners k = TaskOwners_new;
  dr_current : kn_current_task k = 0;
  dr_active : kn_active_context k = ActiveContext_new;
  dr_account : accounted mb (kn_machine k) [];
  dr_routes : routes trampolines (kn_descriptors k) (kn_processor k);
  dr_serial : kn_serial k = serial_of (kr_kind kr)
}.

(** The final checks pass on a drained runtime, up to the journal. *)
Lemma success_base k r :
  drained k (KernelBase r) ->
  match rt_profile r with
  | Cooperative => begins supervised_runtime true SUPERVISOR_GENERATION WORKLOAD_GENERATION KindSupervised
                     (scheduler_success linkage probes k)
  | Supervised => begins journaled_runtime true SUPERVISOR_GENERATION WORKLOAD_GENERATION KindJournaled
                    (scheduler_success linkage probes k)
  end.
Proof.
  intros [Hk Hi Hd Ho Hos Hc Hac Ha Hr Hs]. unfold scheduler_success. rewrite Hk. cbn [expect].
  rewrite (dead_common (KernelBase r) k), dead_profile by done. cbn [orb kr_kind] in *. destruct (rt_profile r).
  - apply capability_begins; [by split|done].
  - apply approval_begins; [by split|done].
Qed.

Lemma success_journaled k s :
  drained k (KernelJournaled s) ->
  if profile_invalid (KernelJournaled s) then fails (scheduler_success linkage probes k)
  else succeeds (scheduler_success linkage probes k) /\ ej_state (jr_journal s) = JournalSealed /\ reference_journal s.
Proof.
  intros [Hk Hi Hd Ho Hos Hc Hac Ha Hr Hs]. unfold scheduler_success. rewrite Hk. cbn [expect].
  rewrite (dead_common (KernelJournaled s) k) by done. cbn [orb]. destruct (profile_invalid _) eqn:Hp.
  { apply failure; [user_reason|]. rewrite Hs. apply serial_phase. }
  destruct (journaled_profile s Hi Hd Hp) as [Hsealed Href]. split; [|done].
  destruct (journaled_reclaimed s Hi Hd Hsealed) as [-> Hv].
  cbn [is_err orb]. rewrite Hv. cbn [is_err orb]. change (ej_state (jr_journal (jr_set_journal journal_DEAD s))) with JournalDead.
  rewrite bool_decide_eq_true_2 by done. cbn [negb orb].
  eexists. split; [reflexivity|]. split; [by split|done].
Qed.

(** A drained runtime hands over to the next phase; the journaled one ends the
    run, and only with the reference journal. *)
Lemma success_cases k kr :
  drained k kr ->
  enters (scheduler_success linkage probes k) \/ fails (scheduler_success linkage probes k) \/
  (succeeds (scheduler_success linkage probes k) /\
   exists s, kr = KernelJournaled s /\ ej_state (jr_journal s) = JournalSealed /\ reference_journal s).
Proof.
  intros Hd. destruct kr as [r|s].
  - left. pose proof (success_base k r Hd) as H. destruct (rt_profile r); by eapply begins_enters.
  - right. pose proof (success_journaled k s Hd) as H. destruct (profile_invalid _); [by left|]. right. destruct H as [? []]. eauto 6.
Qed.

(** ** Teardown *)

Lemma drop_outs (f : Frames) task fs :
  valid_task task -> f task = Some fs -> outs f ≡ₚ fs :: outs (drop_task f task).
Proof.
  intros [-> | ->] Hf; unfold outs, drop_task; cbn [omap list_omap Z.eqb Pos.eqb]; rewrite Hf; [done|].
  destruct (f 1); [apply Permutation_swap|done].
Qed.

Lemma accounted_perm m fss fss' : fss ≡ₚ fss' -> accounted mb m fss -> accounted mb m fss'.
Proof. intros Hp [H1 H2 H3 H4 H5]. split; try done. intros x. by rewrite H5, Hp. Qed.

(** Once the task is gone the other is as it was. *)
Lemma torn_scheduling m m' k k' kr kr' f task fs :
  scheduling m k kr f None -> valid_task task -> f task = Some fs ->
  accounted mb m' (outs (drop_task f task)) -> room mb m' (length (outs (drop_task f task))) ->
  (forall j g fs', apart fs fs' -> space m j g fs' -> space m' j g fs') ->
  kr_inv kr' -> ts_state (task_slot (kr_runtime kr') task) = TaskDead ->
  identity (task_slot (kr_runtime kr') (3 - task)) = identity (task_slot (kr_runtime kr) (3 - task)) ->
  kr_kind kr' = kr_kind kr -> kn_task_runtime k' = Some kr' -> kn_task_owner k' = kn_task_owner k ->
  (forall t, owners_get (kn_task_owners k') t = if t =? task then None else owners_get (kn_task_owners k) t) ->
  kn_descriptors k' = kn_descriptors k -> kn_processor k' = kn_processor k -> kn_serial k' = kn_serial k ->
  scheduling m' k' kr' (drop_task f task) None.
Proof.
  intros Hs Ht Hf Ha' Hroom' Hsp Hi' Hdead Hid Hkind Hkr Hto' Hos Hd Hp Hser.
  pose proof Hs as [Hk Hi Hto Ha Hroom Hl Hap Hro Hse].
  split; try done; [by rewrite Hto'| | |by rewrite Hd, Hp|by rewrite Hser, Hkind].
  - rewrite Hkind. intros t Ht'. destruct (decide (t = task)) as [->|Hn].
    { unfold KernelInvariant.linked, drop_task. rewrite Z.eqb_refl. split; [done|]. by rewrite Hos, Z.eqb_refl. }
    assert (t = 3 - task) as E by (destruct Ht as [-> | ->], Ht' as [-> | ->]; done).
    eapply (linked_transfer linkage probes m); [by apply Hl| | |done| | |].
    + unfold drop_task. by rewrite (proj2 (Z.eqb_neq _ _) Hn).
    + by rewrite Hos, (proj2 (Z.eqb_neq _ _) Hn).
    + intros fs' g Hf'. apply Hsp. by apply (scheduling_apart _ _ _ _ _ task t _ _ Hs).
    + by rewrite E.
    + apply identity_dead; [by apply kr_inv_rt..|done|by rewrite E].
  - intros fs1 fs2. unfold drop_task. destruct (1 =? task), (2 =? task); try done. apply Hap.
Qed.

(** With both tasks dead nothing is out. *)
Lemma scheduling_drained k kr f :
  scheduling (kn_machine k) k kr f None -> both_dead (kr_runtime kr) -> kn_current_task k = 0 ->
  kn_active_context k = ActiveContext_new -> drained k kr.
Proof.
  intros [Hk Hi Hto Ha Hroom Hl Hap Hro Hse] Hd Hc Hac.
  assert (Hnone : forall t, valid_task t -> ts_state (task_slot (kr_runtime kr) t) = TaskDead -> f t = None /\ owners_get (kn_task_owners k) t = None).
  { intros t Ht Hdt. pose proof (Hl t Ht) as Hlt. unfold KernelInvariant.linked in Hlt. destruct (f t) as [fs|]; [|by destruct Hlt].
    by destruct Hlt as (o & _ & Hn & _). }
  destruct (Hnone 1 (or_introl eq_refl) (proj1 Hd)) as [F1 O1]. destruct (Hnone 2 (or_intror eq_refl) (proj2 Hd)) as [F2 O2].
  unfold outs in Ha. cbn [omap list_omap] in Ha. rewrite F1, F2 in Ha.
  split; try done. by apply owners_none.
Qed.

Lemma owner_inactive g o fs : owner_of g o fs -> ow_state o = Inactive -> published g o fs.
Proof. intros (H1 & H2 & _ & H4 & H5 & H6 & H7) Hs. by split_and!. Qed.

Lemma drop_length (f : Frames) task fs :
  valid_task task -> f task = Some fs -> length (outs f) = S (length (outs (drop_task f task))).
Proof. intros Ht Hf. by rewrite (drop_outs f task fs Ht Hf). Qed.

(** Tearing down an exited task: the runtime revokes its handles, its frames come
    back, and the runtime names the next task, or none, or refuses to strand a
    workload. *)
Lemma teardown_dispatched k kr f task :
  scheduling (kn_machine k) k kr f None -> valid_task task -> ts_state (task_slot (kr_runtime kr) task) = Exited ->
  ct_state (ts_capabilities (task_slot (kr_runtime kr) task)) = TableLive ->
  exists kr1, kr_begin_teardown task kr = (Ok tt, kr1) /\
    ((kr_complete_teardown task kr1 = (Err NoRunnableTask, kr1) /\ fails (teardown_exited_task linkage probes task k)) \/
     exists next kr2 k2, kr_complete_teardown task kr1 = (Ok next, kr2) /\
       scheduling (kn_machine k2) k2 kr2 (drop_task f task) None /\
       (forall a, (forall fs, f task = Some fs -> ~ in_frames fs a) ->
          read_word (km_words (kn_machine k2)) a = read_word (km_words (kn_machine k)) a) /\
       identity (task_slot (kr_runtime kr2) (3 - task)) = identity (task_slot (kr_runtime kr) (3 - task)) /\
       kr_kind kr2 = kr_kind kr /\
       match next with
       | Some t => running_task (kr_runtime kr2) = Ok t /\
           teardown_exited_task linkage probes task k = resume_scheduled_task t k2
       | None => drained k2 kr2 /\ teardown_exited_task linkage probes task k = scheduler_success linkage probes k2
       end).
Proof.
  intros Hs Ht Hex HL. pose proof Hs as [Hk Hi Hto Ha Hroom Hl Hap Hro Hse].
  destruct (alive_frames _ _ _ _ _ _ _ _ _ (Hl task Ht)) as (fs & Hf & o & Ho & Hnd & Hos & Hown & Hsp & Hctx); [congruence|].
  cbn in Hos. pose proof (owner_inactive _ _ _ Hown Hos) as Hpub.
  pose proof (drop_length f task fs Ht Hf) as Hlen. pose proof (bo_room _ _ _ base) as Hmax. unfold room in Hroom.
  pose proof (accounted_perm _ _ _ (drop_outs f task fs Ht Hf) Ha) as Ha1.
  assert (Hfit : (fa_free_len (km_allocator (kn_machine k)) + TASK_FRAME_COUNT <= MAX_FRAME_EXTENTS)%nat) by (rewrite Hlen in Hroom; lia).
  destruct (kr_begin kr task Hi Ht Hex HL) as (kr1 & Hbegin & Hi1 & Hex1 & HC1 & Hid1 & Hkind1). exists kr1. split; [done|].
  unfold teardown_exited_task. rewrite Hk. cbn [expect]. rewrite Hbegin.
  rewrite (closing_snapshot kr1 task Hi1 Ht HC1). cbn [is_err orb kn_task_owners with_active with_runtime].
  destruct (owners_take_get (kn_task_owners k) task Ht) as [Htk Htg].
  destruct (owners_take (kn_task_owners k) task) as [taken owners]. cbn [fst snd] in Htk, Htg. rewrite Htk, Ho. cbn [expect].
  rewrite Hos, bool_decide_eq_true_2 by done. cbn [negb].
  match goal with |- context [on_backend ?p ?at_ ?c] => destruct (on_backend_runs p at_ _ c
    (teardown_accounted linkage probes linkage_fits layout mb (kn_machine k) fs _ _ _ o Ha1 Hsp Hpub Hfit))
    as (r & m' & (o' & -> & Hd & Hz & Ha2 & Hl2 & Hkeep & Hwords) & ->) end.
  cbn [ok expect]. rewrite Hd, bool_decide_eq_true_2, Hz by done. cbn [negb orb Nat.eqb].
  destruct (kr_complete kr1 task Hi1 Ht Hex1 HC1) as [[_ Hc]|(next & kr2 & Hc & Hi2 & Hout & Hdead & Hid2 & Hkind2)]; rewrite Hc.
  { left. split; [done|]. cbn [ok expect]. apply failure; [user_reason|]. change (kn_serial k ∈ PHASES). rewrite Hse. apply serial_phase. }
  right. cbn [ok expect]. set (k2 := with_runtime (Some kr2) _). exists next, kr2, k2.
  assert (Hs2 : scheduling (kn_machine k2) k2 kr2 (drop_task f task) None).
  { apply (torn_scheduling (kn_machine k) m' k k2 kr kr2 f task fs Hs Ht Hf Ha2); try done.
    - unfold room. rewrite Hlen in Hroom. lia.
    - rewrite Hid2. by apply identities_slot.
    - by rewrite Hkind2. }
  split_and!; [done|done| |rewrite Hid2; by apply identities_slot|by rewrite Hkind2|].
  { intros a Hna. apply Hwords. by apply Hna. }
  destruct next as [next|]; (split; [|done]).
  - by apply running_task_spec; [apply kr_inv_rt|].
  - by apply (scheduling_drained k2 kr2 _ Hs2); [split; apply Hout| |].
Qed.

Lemma resume_enters k kr f task :
  scheduling (kn_machine k) k kr f None -> running_task (kr_runtime kr) = Ok task -> enters (resume_scheduled_task task k).
Proof.
  intros Hs Hr. destruct (resume_ok linkage probes trampolines mb s0 k kr f task Hs Hr) as (e & k' & fs & -> & Hu & _).
  by eapply running_enters.
Qed.
End kernel.

(** * The kernel is safe

    Every event of user mode is taken by the kernel without a panic and without
    a fault: it returns to user mode in a state of the invariant, stops with a
    reason user code can cause, or completes the run.  By induction this holds
    from the activation of the recovery context on. *)

#[local] Open Scope string_scope.
#[local] Open Scope Z_scope.

Section kernel.
Variables (linkage : Linkage) (probes : ProbeSymbols) (trampolines : Trampolines).
Hypothesis linkage_fits : linkage_ok linkage.
Hypothesis layout : image_layout linkage probes.
Variables (mb : Machine) (s0 : list string).
Hypothesis base : base_ok linkage probes mb.
#[local] Instance kernel_backend : AddressSpaceBackend (option Machine) IsolationError := KernelBackend linkage probes.
Notation accounted := (accounted linkage).
Notation space := (space linkage probes).
Notation linked := (linked linkage probes).
Notation scheduling := (scheduling linkage probes trampolines mb s0).
Notation running := (running linkage probes trampolines mb s0).
Notation serial_of := (serial_of s0).

Hypothesis stubs : trampolines_ok trampolines.
Variable continuation_address : Z.
Notation probing := (probing linkage probes trampolines mb s0 continuation_address).
Notation good := (good linkage probes trampolines mb s0 continuation_address).
Notation enters := (enters linkage probes trampolines mb s0 continuation_address).
Notation fails := (fails s0).
Notation succeeds := (succeeds linkage trampolines mb s0).
Notation in_user := (in_user linkage probes trampolines mb s0 continuation_address).
Notation PHASES := (PHASES s0).
Notation begins := (begins linkage probes trampolines mb s0).
Notation exception := (makopa_exception_dispatch linkage probes continuation_address).
Notation trap := (makopa_task_trap_trampoline linkage probes RECOVERY_STACK_TOP).
Notation on_event := (on_event linkage probes trampolines continuation_address).

(** ** Events *)

(** What the tables make of an event. *)
Lemma on_event_cases ev k :
  routes trampolines (kn_descriptors k) (kn_processor k) ->
  (on_event ev k = trap (ev_registers ev) k) \/
  (exists vector code address, on_event ev k = exception vector (hardware_frame (ev_registers ev) code) address k) \/
  on_event ev k = makopa_double_fault_dispatch k.
Proof.
  intros [Hsw Hfa]. destruct stubs as [_ Hnd]. apply NoDup_cons in Hnd as [N1 Hnd]. apply NoDup_cons in Hnd as [N2 Hnd].
  apply NoDup_cons in Hnd as [N3 _].
  assert (E1 : (tr_page_fault trampolines =? tr_task_trap trampolines) = false) by (apply Z.eqb_neq; set_solver).
  assert (E2 : (tr_general_protection trampolines =? tr_task_trap trampolines) = false) by (apply Z.eqb_neq; set_solver).
  assert (E3 : (tr_double_fault trampolines =? tr_task_trap trampolines) = false) by (apply Z.eqb_neq; set_solver).
  assert (E4 : (tr_general_protection trampolines =? tr_page_fault trampolines) = false) by (apply Z.eqb_neq; set_solver).
  assert (E5 : (tr_double_fault trampolines =? tr_page_fault trampolines) = false) by (apply Z.eqb_neq; set_solver).
  assert (E6 : (tr_double_fault trampolines =? tr_general_protection trampolines) = false) by (apply Z.eqb_neq; set_solver).
  assert (Hgp : forall code, enter_handler linkage probes trampolines continuation_address
    (tr_general_protection trampolines) RECOVERY_STACK_TOP (ev_registers ev) code 0 k
    = exception 13 (hardware_frame (ev_registers ev) code) 0 k).
  { intros code. unfold enter_handler. by rewrite E2, E4, Z.eqb_refl. }
  assert (Hundelivered : (exists vector code address,
      undelivered linkage probes trampolines continuation_address ev k
      = exception vector (hardware_frame (ev_registers ev) code) address k) \/
      undelivered linkage probes trampolines continuation_address ev k = makopa_double_fault_dispatch k).
  { unfold undelivered. cbv zeta. rewrite Hfa. destruct (escalates ev).
    - right. change (DOUBLE_FAULT_VECTOR =? PAGE_FAULT_VECTOR) with false. change (DOUBLE_FAULT_VECTOR =? GENERAL_PROTECTION_VECTOR) with false.
      rewrite Z.eqb_refl. cbv iota. unfold enter_handler. by rewrite E3, E5, E6, Z.eqb_refl.
    - left. change (GENERAL_PROTECTION_VECTOR =? PAGE_FAULT_VECTOR) with false. rewrite Z.eqb_refl. cbv iota. rewrite Hgp. eauto. }
  unfold KernelScheduler.on_event. destruct (ev_software ev).
  - rewrite Hsw. destruct (_ =? TASK_TRAP_VECTOR); [left; unfold enter_handler; by rewrite Z.eqb_refl|]. by right.
  - rewrite Hfa. destruct (_ =? PAGE_FAULT_VECTOR).
    { right; left. unfold enter_handler. rewrite E1, Z.eqb_refl. unfold makopa_page_fault_trampoline. eauto. }
    destruct (_ =? GENERAL_PROTECTION_VECTOR).
    { right; left. unfold enter_handler. rewrite E2, E4, Z.eqb_refl. unfold makopa_general_protection_trampoline. eauto. }
    destruct (_ =? DOUBLE_FAULT_VECTOR).
    { right; right. unfold enter_handler. by rewrite E3, E5, E6, Z.eqb_refl. }
    destruct (_ =? TASK_TRAP_VECTOR); [left; unfold enter_handler; by rewrite Z.eqb_refl|]. by right.
Qed.

(** An exception is fatal, unless it is the one fault the probe is expected to
    make. *)
Lemma exception_cases vector hardware address k :
  kn_serial k ∈ PHASES ->
  fails (exception vector hardware address k) \/
  (exists o, kn_task_owner k = Some o /\ ow_state o = Active /\
    exception vector hardware address k =
    makopa_recover_from_user_fault linkage probes continuation_address
      (ac_recovery_root (kn_active_context k)) (ac_continuation (kn_active_context k)) k).
Proof.
  intros Hs. unfold makopa_exception_dispatch. cbv zeta.
  destruct (unexpected_frame _ _); [left; apply failure; [user_reason|done]|].
  destruct (_ || _) eqn:E; [left; apply failure; [user_reason|done]|]. right.
  apply orb_false_iff in E as [_ E]. unfold classify_expected_user_fault in E. cbn [fo_owner_state] in E.
  destruct (kn_task_owner k) as [o|]; [|by cbn in E]. exists o. split; [done|]. split; [|done].
  destruct (decide (ow_state o = Active)) as [|Hn]; [done|]. by rewrite bool_decide_eq_false_2 in E.
Qed.

(** The run ends well when the exit of the last task leaves the reference
    journal. *)
Definition finishes (kr : KernelRuntime) (task : Z) (regs : TrapFrameV1) (root : Z) : Prop :=
  exists kr1 kr2 kr3 s,
    kr_capture_trap task regs root (ts_generation (task_slot (kr_runtime kr) task)) kr = (Ok tt, kr1) /\
    kr_handle_trap task kr1 = (Ok (OutExit task), kr2) /\ kr_begin_teardown task kr2 = (Ok tt, kr3) /\
    kr_complete_teardown task kr3 = (Ok None, KernelJournaled s) /\
    ej_state (jr_journal s) = JournalSealed /\ reference_journal s.

Lemma trap_cases e k kr f task fs regs :
  running e k kr f task fs ->
  enters (trap regs k) \/ fails (trap regs k) \/ (succeeds (trap regs k) /\ finishes kr task regs (frame_of fs Root)).
Proof.
  intros Hu. pose proof (trap_dispatched linkage probes trampolines mb s0 base e k kr f task fs regs Hu) as H.
  cbv zeta in H. pose proof (sg_serial _ _ _ _ _ _ _ _ _ _ (ru_scheduling _ _ _ _ _ _ _ _ _ _ _ Hu)) as Hse.
  destruct (context_ok _ _ _ _).
  2: { destruct H as (k' & -> & Hs). right; left. apply failure; [user_reason|]. rewrite Hs, Hse. apply serial_phase. }
  destruct H as (kr1 & o & kr' & k' & Hcap & Htrap & Hs & Hout & _ & _ & _ & ->).
  pose proof (kr_inv_rt _ (sg_inv _ _ _ _ _ _ _ _ _ _ Hs)) as Hr. destruct o as [t|t|t]; cbn [outcome_ok] in Hout.
  - destruct Hout as (_ & Ht). left. eapply resume_enters; [done|]. by apply running_task_spec.
  - left. eapply resume_enters; [done|]. by apply running_task_spec.
  - destruct Hout as (-> & Ht & Hex & HL).
    destruct (teardown_dispatched linkage probes trampolines linkage_fits layout mb s0 base k' kr' f task Hs Ht Hex HL)
      as (kr2 & Hb & [[_ Hf]|([t|] & kr3 & k2 & Hc & Hs2 & _ & _ & _ & Hnext & ->)]).
    + by right; left.
    + left. by eapply resume_enters.
    + destruct (success_cases linkage probes trampolines linkage_fits layout mb s0 base continuation_address k2 kr3 Hnext)
        as [?|[?|[? (s & -> & Hseal & Href)]]]; [by left|by right; left|]. right; right. split; [done|].
      exists kr1, kr', kr2, s. by split_and!.
Qed.

Lemma running_cases e k kr f task fs ev :
  running e k kr f task fs ->
  enters (on_event ev k) \/ fails (on_event ev k) \/
  (succeeds (on_event ev k) /\ finishes kr task (ev_registers ev) (frame_of fs Root)).
Proof.
  intros Hu. pose proof (ru_scheduling _ _ _ _ _ _ _ _ _ _ _ Hu) as Hs.
  assert (Hse : kn_serial k ∈ PHASES) by (rewrite (sg_serial _ _ _ _ _ _ _ _ _ _ Hs); apply serial_phase).
  destruct (on_event_cases ev k (sg_routes _ _ _ _ _ _ _ _ _ _ Hs)) as [->|[(vector & code & address & ->)| ->]].
  - by eapply trap_cases.
  - destruct (exception_cases vector (hardware_frame (ev_registers ev) code) address k Hse) as [?|(o & Ho & _)]; [by right; left|].
    by rewrite (sg_owner _ _ _ _ _ _ _ _ _ _ Hs) in Ho.
  - right; left. apply failure; [user_reason|done].
Qed.

(** What the base says of the recovery context. *)
Lemma base_root : rs_ready (km_recovery mb) = true /\ rs_root (km_recovery mb) <> 0 /\
  (rs_pool_used (km_recovery mb) <= BOOTSTRAP_PAGE_TABLE_FRAMES)%nat.
Proof.
  pose proof (bo_image _ _ _ base). destruct (mk_recovery _ _ (bo_machine _ _ _ base)) as [Hr Hroot (paths & leaf & c & Hrep & _)].
  split_and!; [done| |].
  - rewrite Hroot. unfold PageTablesProofs.table. destruct layout as [Hs Hp _ _ _]. lia.
  - destruct Hrep as [Hu Hb _ _ _ _ _ _]. cbn [bs_budget bb_used] in Hu. lia.
Qed.

(** ** The isolation probe *)

Lemma probing_root e k o fs : probing e k o fs -> read_cr3 (kn_machine k) = frame_of fs Root.
Proof.
  intros Hp. unfold read_cr3. rewrite (po_cr3 _ _ _ _ _ _ _ _ _ _ Hp).
  by apply (space_root linkage probes _ _ _ _ (po_space _ _ _ _ _ _ _ _ _ _ Hp)).
Qed.

Lemma probing_writes e k o fs w' :
  probing e k o fs -> user_writes (read_cr3 (kn_machine k)) (km_words (kn_machine k)) w' ->
  probing e (with_machine (set_words (kn_machine k) w') k) o fs.
Proof.
  intros Hp Hw. rewrite (probing_root _ _ _ _ Hp) in Hw. destruct Hp as [H1 H2 H3 H4 H5 Hsp Ha H8 H9 H10 H11 H12 H13 H14].
  destruct (user_writes_accounted linkage probes linkage_fits layout mb (settle (kn_machine k)) _ _ fs [fs] w' Ha
    (proj2 (list_elem_of_singleton fs fs) eq_refl) Hsp Hw) as (Ha' & Hsp' & _).
  by split.
Qed.

(** The fault the probe makes ends it: its frames come back and the schedulers
    start. *)
Lemma continuation_begins e k o fs :
  probing e k o fs ->
  begins cooperative_runtime false SENDER_GENERATION RECEIVER_GENERATION KindCooperative
    (isolation_continuation linkage probes (with_machine (set_cr3 (rs_root (km_recovery mb)) (kn_machine k)) k)).
Proof.
  intros [Ho Hos Hr Hst Hown Hsp Ha Hroom Hact Hcr Hro Hse Hcur He].
  pose proof (at_recovery _ _ _ _ Ha : km_recovery (kn_machine k) = km_recovery mb) as Hrec. rewrite <-Hrec.
  change (set_cr3 (rs_root (km_recovery (kn_machine k))) (kn_machine k)) with (settle (kn_machine k)).
  pose proof Hown as (Hg & Hlive & _). cbn [ow_generation ow_generation_live set_state] in Hg, Hlive.
  unfold isolation_continuation. cbn [kn_machine with_machine kn_task_owner].
  rewrite (mk_cr3 _ _ (at_ok _ _ _ _ Ha)), Z.eqb_refl, Ho. cbn [negb expect].
  unfold recover. rewrite Hst, Hlive, bool_decide_eq_true_2 by done. cbn [negb orb is_err].
  pose proof (bo_room _ _ _ base) as Hmax.
  match goal with |- context [on_backend ?p ?at_ ?c] => destruct (on_backend_runs p at_ _ c
    (teardown_accounted linkage probes linkage_fits layout mb (settle (kn_machine k)) fs [] _ _ (set_state o Inactive) Ha Hsp Hown
      ltac:(cbn [km_allocator settle set_cr3]; lia)))
    as (r & m' & (o' & -> & Hd & Hz & Ha2 & _) & ->) end.
  cbn [ok expect]. rewrite Hd, bool_decide_eq_true_2, Hz by done. cbn [negb orb Nat.eqb].
  apply (isolation_begins linkage probes trampolines linkage_fits layout mb s0 base); [by split|done].
Qed.

(** The fault the probe is meant to make: a write to the unmapped target. *)
Definition expected_fault (ev : UserEvent) : Prop :=
  ev_software ev = false /\ ev_vector ev = PAGE_FAULT_VECTOR /\ ev_error_code ev = 6 /\ ev_address ev = INVALID_WRITE_TARGET /\
  tf_cs (ev_registers ev) = USER_CODE_SELECTOR /\ tf_ss (ev_registers ev) = USER_DATA_SELECTOR /\
  USER_TEXT <= tf_rip (ev_registers ev) < USER_TEXT + PAGE_SIZE /\ Z.land (tf_rflags (ev_registers ev)) FORBIDDEN_RFLAGS = 0.

Lemma expected_fault_begins e k o fs ev :
  continuation_address <> 0 -> probing e k o fs -> expected_fault ev ->
  begins cooperative_runtime false SENDER_GENERATION RECEIVER_GENERATION KindCooperative (on_event ev k).
Proof.
  intros Hca Hp (Hsw & Hv & Hcode & Haddr & Hcs & Hss & Hrip & Hfl). pose proof (probing_root _ _ _ _ Hp) as Hroot.
  pose proof Hp as [Ho Hos Hr Hst Hown Hsp Ha Hroom Hact Hcr Hro Hse Hcur He].
  pose proof (proj2 (Z.eqb_neq _ _) Hca) as Hca'. destruct (base_root) as (_ & Hnz%Z.eqb_neq & _).
  destruct stubs as [_ Hnd]. apply NoDup_cons in Hnd as [N1 _].
  assert (E1 : (tr_page_fault trampolines =? tr_task_trap trampolines) = false) by (apply Z.eqb_neq; set_solver).
  unfold KernelScheduler.on_event. cbv zeta. rewrite Hsw, Hv, (ro_fault _ _ _ Hro), Z.eqb_refl. cbv iota. unfold enter_handler.
  rewrite E1, Z.eqb_refl. unfold makopa_page_fault_trampoline, makopa_exception_dispatch. cbv zeta.
  assert (Hu : unexpected_frame 14 (parse_exception_frame (hardware_frame (ev_registers ev) (ev_error_code ev))) = false).
  { unfold unexpected_frame, parse_exception_frame, hardware_frame. cbn [pf_user_stack_pointer pf_user_stack_selector pf_instruction_pointer
      pf_flags hf_code_selector hf_stack_pointer hf_stack_selector hf_instruction_pointer hf_flags].
    rewrite Hcs, Hss, Hfl. change (Z.land USER_CODE_SELECTOR 3 =? 3) with true. cbv iota. cbn [is_none].
    rewrite bool_decide_eq_true_2 by done. rewrite (proj2 (Z.ltb_ge _ _)), (proj2 (Z.leb_gt _ _)) by lia. done. }
  rewrite Hu, Hact, Ho, Hroot, Hcode, Haddr. cbn [ac_present ac_task ac_task_root ac_recovery_root ac_recovery_stack ac_continuation negb].
  rewrite Hnz, Hca'. unfold classify_expected_user_fault. cbn [fo_owner_state fo_observed_task fo_expected_task fo_current_root
    fo_expected_root fo_code_selector fo_fault_address fo_error_code parse_exception_frame pf_code_selector pf_error_code hardware_frame hf_code_selector hf_error_code].
  rewrite Hst, Hcs, !Z.eqb_refl, bool_decide_eq_true_2 by done. change (Z.land USER_CODE_SELECTOR 3 =? 3) with true.
  cbn. unfold makopa_recover_from_user_fault. rewrite Z.eqb_refl. by eapply continuation_begins.
Qed.

Lemma probing_cases e k o fs ev : probing e k o fs -> enters (on_event ev k) \/ fails (on_event ev k).
Proof.
  intros Hp. pose proof Hp as [Ho Hos Hr Hst Hown Hsp Ha Hroom Hact Hcr Hro Hse Hcur He].
  assert (Hph : kn_serial k ∈ PHASES) by (rewrite Hse; apply list_elem_of_here).
  destruct (on_event_cases ev k Hro) as [->|[(vector & code & address & ->)| ->]].
  - unfold makopa_task_trap_trampoline, makopa_task_trap_dispatch.
    change (set_cr3 (rs_root (km_recovery (kn_machine k))) (kn_machine k)) with (settle (kn_machine k)).
    cbn [kn_machine with_machine]. change (km_recovery (settle (kn_machine k))) with (km_recovery (kn_machine k)).
    rewrite (trap_boundary linkage mb (kn_machine k) _ Ha). cbn [kn_task_runtime with_machine]. rewrite Hr.
    cbn [expect]. right. apply failure; [user_reason|done].
  - destruct (exception_cases vector (hardware_frame (ev_registers ev) code) address k Hph) as [?|(o' & _ & _ & ->)]; [by right|].
    rewrite Hact. cbn [ac_recovery_root ac_continuation]. unfold makopa_recover_from_user_fault. rewrite Z.eqb_refl.
    left.
    eapply begins_enters. by eapply continuation_begins.
  - right. apply failure; [user_reason|done].
Qed.

(** ** From the activation on *)

(** The statics as the entry leaves them. *)
Record booted (k : Kernel) : Prop := {
  bt_machine : settle (kn_machine k) = mb;
  bt_descriptors : descriptors_ok (kn_descriptors k);
  bt_owner : kn_task_owner k = None;
  bt_owners : kn_task_owners k = TaskOwners_new;
  bt_runtime : kn_task_runtime k = None;
  bt_current : kn_current_task k = 0;
  bt_serial : kn_serial k = s0
}.

Lemma activation_probing k :
  booted k ->
  exists e k' o fs, activate_recovery_context linkage probes trampolines continuation_address k = User e k' /\ probing e k' o fs.
Proof.
  intros [Hm Hdk Ho Hos Hr Hcur Hse]. destruct base_root as (Hready & Hnz & Hpool).
  assert (Hrec : km_recovery (kn_machine k) = km_recovery mb) by (by rewrite <-Hm).
  unfold activate_recovery_context. rewrite Hrec, Hready, (proj2 (Z.eqb_neq _ _) Hnz), (proj2 (Nat.ltb_ge _ _) Hpool).
  cbn [negb orb]. rewrite <-Hrec. change (set_cr3 (rs_root (km_recovery (kn_machine k))) (kn_machine k)) with (settle (kn_machine k)).
  rewrite Hm. unfold isolation_entry. cbn [kn_machine with_machine kn_descriptors kn_processor].
  rewrite (mk_cr3 _ _ (bo_machine _ _ _ base)), Z.eqb_refl. cbn [negb]. rewrite install_eq by done. cbn [is_err].
  assert (Hc : constructible probes (set_probes false mb) TASK_GENERATION).
  { split_and!; [done|by apply (bo_probes _ _ _ base); apply list_elem_of_here|]. pose proof (bo_pages _ _ _ base). cbn [km_allocator set_probes]. lia. }
  assert (Hacc : accounted mb mb []).
  { split; try done; [apply base|]. intros x. rewrite Exists_nil. tauto. }
  match goal with |- context [on_backend ?p ?at_ ?c] => destruct (on_backend_runs p at_ _ c
    (construct_accounted linkage probes linkage_fits layout mb mb [] false TASK_GENERATION Hacc Hc))
    as (r & m' & (o & fs & -> & Hp & Ha2 & Hsp & _ & Hlen & _) & ->) end.
  cbn [ok expect]. pose proof Hp as (Hg & Hlive & Hst & Hroot & _). unfold activate.
  rewrite Hst, Hlive, bool_decide_eq_true_2 by done. cbn [negb orb is_err ow_root set_state].
  rewrite Hroot, (proj1 (space_root _ _ _ _ _ _ Hsp)). cbn [expect]. eexists _, _, (set_state o Active), fs. split; [reflexivity|].
  split; try done.
  - by apply published_owner in Hp.
  - by apply (space_settle linkage probes m').
  - by apply (accounted_settle linkage mb m').
  - by apply installed_routes.
Qed.
End kernel.
