(* ===== verification/KernelTheorems.v ===== *)
(** * The kernel's theorems

    Runs of the whole kernel, from the activation of the recovery context, with
    arbitrary user code: which states are reachable, what user mode can touch in
    them, what a trap does, and what the success code means. *)

From Stdlib Require Import String.
From stdpp Require Import gmap.
From S2P Require Import Prelude.
From S2P Require Import RuntimeTypes.
From S2P Require Import Capability.
From S2P Require Import Runtime.
From S2P Require Import RuntimeOps.
From S2P Require Import Journal.
From S2P Require Import Journaled.
From S2P Require Import RuntimeInv.
From S2P Require Import RuntimeProgress.
From S2P Require Import Panic.
From S2P Require Import FrameAllocator.
From S2P Require Import Extents.
From S2P Require Import FrameInit.
From S2P Require Import FrameReturns.
From S2P Require Import AddressSpace.
From S2P Require Import AddressSpaceProofs.
From S2P Require Import AddressSpaceTheorems.
From S2P Require Import PageTables.
From S2P Require Import PageTablesProofs.
From S2P Require Import PageTablesTheorems.
From S2P Require Import KernelBackend.
From S2P Require Import KernelBackendProofs.
From S2P Require Import KernelSpaces.
From S2P Require Import KernelSpacesTheorems.
From S2P Require Import KernelDescriptors.
From S2P Require Import KernelDescriptorsProofs.
From S2P Require Import KernelScheduler.
From S2P Require Import KernelRuntimeProofs.
From S2P Require Import KernelInvariant.
From S2P Require Import KernelRun.

#[local] Open Scope string_scope.
#[local] Open Scope Z_scope.

(** ** Runs *)

Section runs.
Variables (linkage : Linkage) (probes : ProbeSymbols) (trampolines : Trampolines) (continuation_address : Z).

(** User code writes where it may, then leaves user mode in some way. *)
Inductive kernel_run (k0 : Kernel) : Control -> Prop :=
| run_activated : kernel_run k0 (activate_recovery_context linkage probes trampolines continuation_address k0)
| run_event e k w ev :
    kernel_run k0 (User e k) -> user_writes (read_cr3 (kn_machine k)) (km_words (kn_machine k)) w ->
    kernel_run k0 (on_event linkage probes trampolines continuation_address ev (with_machine (set_words (kn_machine k) w) k)).

(** What the kernel is linked and started with. *)
Record setting (k0 : Kernel) : Prop := {
  st_linkage : linkage_ok linkage;
  st_layout : image_layout linkage probes;
  st_trampolines : trampolines_ok trampolines;
  st_base : base_ok linkage probes (settle (kn_machine k0));
  st_booted : booted (settle (kn_machine k0)) (kn_serial k0) k0
}.
End runs.
Section kernel.
Variables (linkage : Linkage) (probes : ProbeSymbols) (trampolines : Trampolines).
Hypothesis linkage_fits : linkage_ok linkage.
Hypothesis layout : image_layout linkage probes.
Variables (mb : Machine) (s0 : list string).
Hypothesis base : base_ok linkage probes mb.
#[local] Instance backend : AddressSpaceBackend (option Machine) IsolationError := KernelBackend linkage probes.
Notation accounted := (accounted linkage).
Notation space := (space linkage probes).
Notation linked := (linked linkage probes).
Notation scheduling := (scheduling linkage probes trampolines mb s0).
Notation running := (running linkage probes trampolines mb s0).
Notation serial_of := (serial_of s0).

Hypothesis stubs : trampolines_ok trampolines.
Variable continuation_address : Z.
Notation probing := (probing linkage probes trampolines mb s0 continuation_address).
Notation good := (good linkage probes trampolines mb s0 continuation_address).
Notation enters := (enters linkage probes trampolines mb s0 continuation_address).
Notation fails := (fails s0).
Notation succeeds := (succeeds linkage trampolines mb s0).
Notation in_user := (in_user linkage probes trampolines mb s0 continuation_address).
Notation PHASES := (PHASES s0).
Notation exception := (makopa_exception_dispatch linkage probes continuation_address).
Notation trap := (makopa_task_trap_trampoline linkage probes RECOVERY_STACK_TOP).
Notation on_event := (on_event linkage probes trampolines continuation_address).

Lemma in_user_writes e k w :
  in_user e k -> user_writes (read_cr3 (kn_machine k)) (km_words (kn_machine k)) w ->
  in_user e (with_machine (set_words (kn_machine k) w) k).
Proof.
  intros [(o & fs & Hp)|(kr & f & task & fs & Hu)] Hw.
  - left. exists o, fs. by apply probing_writes.
  - right. exists kr, f, task, fs. by apply running_writes.
Qed.

Lemma event_good e k ev : in_user e k -> good (on_event ev k).
Proof.
  intros [(o & fs & Hp)|(kr & f & task & fs & Hu)].
  - destruct (probing_cases linkage probes trampolines linkage_fits layout mb s0 base stubs continuation_address e k o fs ev Hp)
      as [?|?]; [by apply enters_good|by apply fails_good].
  - destruct (running_cases linkage probes trampolines linkage_fits layout mb s0 base stubs continuation_address e k kr f task fs ev Hu)
      as [?|[?|[? _]]]; [by apply enters_good|by apply fails_good|by eapply succeeds_good].
Qed.

(** ** What user mode can touch *)

Lemma space_confined m j g fs va tr :
  space m j g fs -> u64 va -> is_canonical_48 va = true -> translate (km_words m) (frame_of fs Root) va = Some tr ->
  tr_user tr = true ->
  (in_page USER_TEXT va = true /\ tr = mkTranslation (frame_of fs Text) false true false) \/
  (in_page USER_STACK va = true /\ tr = mkTranslation (frame_of fs Stack) true true true).
Proof.
  intros [Hall Ho _] Hva Hc Ht Hu. rewrite (space_translates linkage m fs _ Ho Hall va Hva Hc) in Ht.
  destruct (in_page USER_TEXT va); [left; by injection Ht as <-|].
  destruct (in_page USER_STACK va); [right; by injection Ht as <-|]. destruct (bool_decide _); [|done].
  apply (recovery_not_user linkage linkage_fits m va tr) in Ht; [congruence|apply Ho].
Qed.

(** The processor state user mode starts with. *)
Definition entry_confined (e : UserEntry) : Prop :=
  USER_TEXT <= ue_rip e < USER_TEXT + PAGE_SIZE /\ USER_STACK <= ue_rsp e <= USER_STACK_TOP /\
  ue_cs e = USER_CODE_SELECTOR /\ ue_ss e = USER_DATA_SELECTOR /\ Z.land (ue_rflags e) FORBIDDEN_RFLAGS = 0.

(** A frame user mode reaches: handed out, outside the image, and of no other
    task. *)
Definition own_frame (k : Kernel) (frame : Z) : Prop :=
  forall a, in_frame frame a ->
    covers (live_managed (km_allocator (kn_machine k))) a /\ ~ covers (live_free (km_allocator (kn_machine k))) a /\
    ~ in_image linkage a /\
    forall task o fs, task <> kn_current_task k -> owners_get (kn_task_owners k) task = Some o ->
      as_slice (ow_ledger o) = Some fs -> ~ in_frames fs a.

(** Text that cannot be written, a stack that cannot be executed. *)
Definition user_page (va : Z) (tr : Translation) : Prop :=
  (in_page USER_TEXT va = true /\ tr_writable tr = false /\ tr_no_execute tr = false) \/
  (in_page USER_STACK va = true /\ tr_writable tr = true /\ tr_no_execute tr = true).

Record confined (m0 : Machine) (e : UserEntry) (k : Kernel) : Prop := {
  cf_entry : entry_confined e;
  cf_pages : forall va tr, u64 va -> is_canonical_48 va = true ->
    translate (km_words (kn_machine k)) (read_cr3 (kn_machine k)) va = Some tr -> tr_user tr = true ->
    user_page va tr /\ own_frame k (tr_frame tr);
  cf_image : forall a, in_image linkage a -> read_word (km_words (kn_machine k)) a = read_word (km_words m0) a
}.

Lemma context_confined c task g root :
  context_validate c task g root task_context_policy = Ok tt -> entry_confined (entry_of c).
Proof.
  unfold context_validate. intros H. do 3 (head_if_in H E; [done|clear E]).
  head_if_in H E1; [done|]. head_if_in H E2; [done|]. head_if_in H E3; [done|]. head_if_in H E4; [done|].
  unfold entry_confined, entry_of. cbn [ue_rip ue_rsp ue_cs ue_ss ue_rflags].
  unfold task_context_policy in *. cbn [cp_text_start cp_text_end cp_stack_start cp_stack_end cp_user_code cp_user_data] in *.
  b2p. split_hyps. split_and!; try done; lia.
Qed.

(** The frames of a space, against those of the other tasks. *)
Lemma space_own_frame k j g fs role :
  space (settle (kn_machine k)) j g fs ->
  (forall task o fs', task <> kn_current_task k -> owners_get (kn_task_owners k) task = Some o ->
     as_slice (ow_ledger o) = Some fs' -> apart fs fs') ->
  own_frame k (frame_of fs role).
Proof.
  intros Hsp Hother a Ha. pose proof Hsp as [Hall Ho _].
  pose proof (find_role_elem _ _ _ (frame_of_Some fs Hall role)) as Hf.
  pose proof (in_frames_elem _ _ _ Hf Ha) as Hin. destruct (space_out linkage probes (settle (kn_machine k)) _ _ _ _ Hsp Hin) as [Hfree Himg].
  split_and!; [|done|done|].
  - apply (managed_in_frame linkage (settle (kn_machine k)) (frame_of fs role)); [apply Ho| |done].
    apply (owns_managed linkage _ _ _ _ _ _ Ho Hf).
  - intros task o fs' Hn Hg Hs Hx. by apply (Hother task o fs' Hn Hg Hs a).
Qed.

Lemma space_pages k j g fs va tr :
  space (settle (kn_machine k)) j g fs -> (forall role, own_frame k (frame_of fs role)) ->
  u64 va -> is_canonical_48 va = true -> translate (km_words (kn_machine k)) (frame_of fs Root) va = Some tr ->
  tr_user tr = true -> user_page va tr /\ own_frame k (tr_frame tr).
Proof.
  intros Hsp Hown Hva Hc Ht Hu.
  destruct (space_confined (settle (kn_machine k)) j g fs va tr Hsp Hva Hc Ht Hu) as [[Hp ->]|[Hp ->]]; (split; [|apply Hown]).
  - by left.
  - by right.
Qed.

Lemma accounted_image m fss a : accounted mb m fss -> in_image linkage a -> read_word (km_words m) a = read_word (km_words mb) a.
Proof.
  intros Ha Hi. apply (at_words _ _ _ _ Ha). intros Hf. by apply (free_not_image linkage mb a (bo_machine _ _ _ base) Hf).
Qed.

Lemma in_user_confined e k : in_user e k -> confined mb e k.
Proof.
  intros [(o & fs & Hp)|(kr & f & task & fs & Hu)].
  - pose proof (probing_root linkage probes trampolines mb s0 continuation_address e k o fs Hp) as Hroot.
    destruct Hp as [Ho Hos Hr Hst Hown Hsp Ha Hroom Hact Hcr Hro Hse Hcur ->]. split.
    + by vm_compute.
    + intros va tr Hva Hc Ht Hus. rewrite Hroot in Ht. eapply space_pages; try done. intros role.
      eapply space_own_frame; [done|]. intros t o' fs' _. rewrite Hos. unfold owners_get. by repeat destruct (_ =? _).
    + intros a. by apply (accounted_image (settle (kn_machine k)) [fs]).
  - pose proof (running_root _ _ _ _ _ _ _ _ _ _ _ Hu) as Hroot. pose proof (running_alive _ _ _ _ _ _ _ _ _ _ _ Hu) as Hal.
    destruct Hal as (Ht & _ & o & _ & _ & _ & Hsp & Hctx). destruct Hu as [Hs Hrun Hf Hcur _ _ ->].
    pose proof Hs as [_ _ _ Ha _ Hl _ _ _]. split.
    + by eapply context_confined.
    + intros va tr Hva Hc Htr Hus. rewrite Hroot in Htr. eapply space_pages; try done. intros role.
      eapply space_own_frame; [done|]. intros t o' fs' Hn Ho' Hsl. rewrite Hcur in Hn.
      assert (Ht' : valid_task t).
      { unfold owners_get, SENDER_TASK_ID, RECEIVER_TASK_ID in Ho'. destruct (Z.eqb_spec t 1); [by left|]. destruct (Z.eqb_spec t 2); [by right|done]. }
      pose proof (Hl t Ht') as Hlt. unfold KernelInvariant.linked in Hlt. destruct (f t) as [fs2|] eqn:Hf2; [|by destruct Hlt; congruence].
      destruct Hlt as (o2 & Ho2 & _ & _ & (_ & _ & _ & _ & Hled & _) & _). assert (o2 = o') as -> by congruence.
      apply as_slice_is in Hled. cbn [ow_ledger set_state] in Hled. assert (fs2 = fs') as -> by congruence.
      by apply (scheduling_apart linkage probes trampolines mb s0 _ _ _ _ _ task t _ _ Hs).
    + intros a. by apply (accounted_image (settle (kn_machine k)) (outs f)).
Qed.
End kernel.

(** ** The reference journal *)

(** The record an entry of [EXPECTED] stands for. *)
Definition record_of (sequence : Z) (x : ExpectedRecord) : EffectRecordV1 :=
  {| er_schema_version := EFFECT_RECORD_SCHEMA_VERSION; er_byte_size := EFFECT_RECORD_BYTE_SIZE;
     er_event_kind := event_code (xr_kind x); er_status := status_code (xr_status x);
     er_record_sequence := sequence; er_decision_epoch := xr_epoch x; er_principal_id := PRINCIPAL_ID;
     er_actor_task_id := xr_actor x; er_actor_task_generation := xr_actor_generation x;
     er_subject_task_id := RECEIVER_TASK_ID; er_subject_task_generation := WORKLOAD_GENERATION;
     er_request_sequence := xr_request_sequence x; er_action_id := APPROVAL_ACTION_ID_COMMIT_SYNTHETIC_VALUE;
     er_capability_object_type := xr_object_type x; er_reserved_zero := 0; er_capability_object_id := 1;
     er_capability_object_generation := EFFECT_JOURNAL_OBJECT_GENERATION; er_capability_rights := xr_rights x;
     er_trailing_reserved_zero := 0 |}.

Lemma record_matches record sequence x : effect_record_mismatch record sequence x = false -> record = record_of sequence x.
Proof.
  unfold effect_record_mismatch. intros H. repeat (apply orb_false_iff in H as [H ?%negb_false_iff%Z.eqb_eq]).
  apply negb_false_iff, Z.eqb_eq in H. destruct record. cbn in *. by subst.
Qed.

Lemma references_match s l sequence i x :
  references_invalid s sequence l = false -> l !! i = Some x ->
  effect_record s (sequence + Z.of_nat i) = Ok (record_of (sequence + Z.of_nat i) x).
Proof.
  revert sequence i. induction l as [|y l IH]; intros sequence i; [done|]. cbn [references_invalid].
  destruct (effect_record s sequence) as [record|] eqn:E; [|done]. destruct (effect_record_mismatch _ _ _) eqn:Hm; [done|].
  intros Hr Hi. destruct i as [|i].
  - injection Hi as ->. rewrite Z.add_0_r, E. f_equal. by apply record_matches.
  - replace (sequence + Z.of_nat (S i)) with (sequence + 1 + Z.of_nat i) by lia. by apply IH.
Qed.

(** The journal the run has to leave: eleven records, each as expected. *)
Definition journal_is_reference (s : JournaledRuntime) : Prop :=
  ej_state (jr_journal s) = JournalSealed /\ ej_committed_record_count (jr_journal s) = Z.of_nat (length EXPECTED) /\
  forall i x, EXPECTED !! i = Some x -> effect_record s (Z.of_nat i + 1) = Ok (record_of (Z.of_nat i + 1) x).

Lemma reference_exact s :
  ej_state (jr_journal s) = JournalSealed -> reference_journal s -> journal_is_reference s.
Proof.
  intros Hs [Hc Hr]. split_and!; [done|by rewrite Hc|]. intros i x Hi. rewrite (Z.add_comm (Z.of_nat i) 1).
  by apply (references_match s EXPECTED).
Qed.

(** ** The whole kernel *)

Section whole.
Variables (linkage : Linkage) (probes : ProbeSymbols) (trampolines : Trampolines) (continuation_address : Z).
Variable k0 : Kernel.
Hypothesis set_up : setting linkage probes trampolines k0.
Notation kernel_run := (kernel_run linkage probes trampolines continuation_address k0).
Notation m0 := (settle (kn_machine k0)).
Notation s0 := (kn_serial k0).
Notation on_event := (on_event linkage probes trampolines continuation_address).
Notation in_user := (in_user linkage probes trampolines m0 s0 continuation_address).

Lemma run_good c : kernel_run c -> good linkage probes trampolines m0 s0 continuation_address c.
Proof.
  destruct set_up as [Hl Hy Ht Hb Hk]. induction 1 as [|e k w ev Hrun IH Hw].
  - destruct (activation_probing linkage probes trampolines Hl Hy m0 s0 Hb Ht continuation_address k0 Hk) as (e & k & o & fs & -> & Hp).
    left. by exists o, fs.
  - eapply event_good; [done..|]. by apply in_user_writes.
Qed.

(** C1: whatever user code does, from the activation of the recovery context on
    the kernel never panics and never faults: it ends only by the failure code
    after a message whose reason user code can cause (a trap with registers
    outside the policy, a fault, a trap of the probe, a supervisor that exits
    before launching its workload, a journal that is not the reference), or by the
    success code after all the messages, with no task left and every frame free
    again. *)
Theorem kernel_never_faults c :
  kernel_run c ->
  match c with
  | Stopped => False
  | User _ _ => True
  | Exit code k =>
      (code = QEMU_FAILURE /\ failed s0 k) \/ (code = QEMU_SUCCESS /\ completed linkage trampolines m0 s0 k)
  end.
Proof. intros H%run_good. by destruct c. Qed.

(** C2: whenever the kernel is in user mode, the processor starts it at ring 3 in
    the task's text with its stack and without forbidden flags, everything user
    mode can reach is one read-only text page or one non-executable stack page in
    frames that are allocated, outside the kernel image and of no other task, and
    the image holds what it held at the activation. *)
Theorem user_mode_confined e k : kernel_run (User e k) -> confined linkage m0 e k.
Proof.
  intros H%run_good. destruct set_up as [Hl Hy Ht Hb Hk].
  by apply (in_user_confined linkage probes trampolines Hl m0 s0 Hb continuation_address).
Qed.

(** What the kernel makes of the runtime's answer to a trap of [task]. *)
Definition answers (out : Control) (task : Z) (kr : KernelRuntime) (regs : TrapFrameV1) (root : Z) : Prop :=
  exists kr1 o kr2,
    kr_capture_trap task regs root (ts_generation (task_slot (kr_runtime kr) task)) kr = (Ok tt, kr1) /\
    kr_handle_trap task kr1 = (Ok o, kr2) /\
    match o with
    | OutResume next | OutSwitch next =>
        exists k', out = User (entry_of (ts_context (task_slot (kr_runtime kr2) next))) k' /\
          kn_task_runtime k' = Some kr2 /\ kn_current_task k' = next
    | OutExit exited => exited = task /\ exists kr3, kr_begin_teardown task kr2 = (Ok tt, kr3) /\
        match kr_complete_teardown task kr3 with
        | (Ok (Some next), kr4) =>
            exists k', out = User (entry_of (ts_context (task_slot (kr_runtime kr4) next))) k' /\
              kn_task_runtime k' = Some kr4 /\ kn_current_task k' = next
        | (Ok None, kr4) => exists k2, drained linkage trampolines m0 s0 k2 kr4 /\ out = scheduler_success linkage probes k2
        | (Err _, _) => fails s0 out
        end
    end.

Lemma resume_answers k kr f task :
  scheduling linkage probes trampolines m0 s0 (kn_machine k) k kr f None -> running_task (kr_runtime kr) = Ok task ->
  exists k', resume_scheduled_task task k = User (entry_of (ts_context (task_slot (kr_runtime kr) task))) k' /\
    kn_task_runtime k' = Some kr /\ kn_current_task k' = task.
Proof.
  intros Hs Hr. destruct (resume_ok linkage probes trampolines m0 s0 k kr f task Hs Hr) as (e & k' & fs & -> & Hu & _).
  destruct Hu as [Hs' _ _ Hc _ _ ->]. exists k'. split_and!; [done|apply Hs'|done].
Qed.

Lemma on_event_trap ev k :
  routes trampolines (kn_descriptors k) (kn_processor k) -> ev_software ev = true -> ev_vector ev = TASK_TRAP_VECTOR ->
  on_event ev k = makopa_task_trap_trampoline linkage probes RECOVERY_STACK_TOP (ev_registers ev) k.
Proof.
  intros [Hsw _] Hs Hv. unfold KernelScheduler.on_event. rewrite Hs, Hv, Hsw, Z.eqb_refl. unfold enter_handler.
  by rewrite Z.eqb_refl.
Qed.

Lemma trap_answers e k kr f task fs regs :
  running linkage probes trampolines m0 s0 e k kr f task fs ->
  let g := ts_generation (task_slot (kr_runtime kr) task) in
  let root := frame_of fs Root in
  let out := makopa_task_trap_trampoline linkage probes RECOVERY_STACK_TOP regs k in
  if context_ok (context_from_trap regs task g root) task g root
  then answers out task kr regs root
  else exists k', out = kernel_failure "trap context capture" k'.
Proof.
  intros Hu. cbv zeta. destruct set_up as [Hl Hy Ht Hb Hk].
  pose proof (trap_dispatched linkage probes trampolines m0 s0 Hb e k kr f task fs regs Hu) as H. cbv zeta in H.
  destruct (context_ok _ _ _ _); [|by destruct H as (k' & -> & _); eexists].
  destruct H as (kr1 & o & kr2 & k' & Hcap & Htrap & Hs & Hout & _ & _ & _ & ->). exists kr1, o, kr2. split_and!; [done|done|].
  pose proof (kr_inv_rt _ (sg_inv _ _ _ _ _ _ _ _ _ _ Hs)) as Hr. destruct o as [t|t|t]; cbn [outcome_ok] in Hout.
  - destruct Hout as (_ & Hto). eapply resume_answers; [done|]. by apply running_task_spec.
  - eapply resume_answers; [done|]. by apply running_task_spec.
  - destruct Hout as (-> & Hto & Hex & HL). split; [done|].
    destruct (teardown_dispatched linkage probes trampolines Hl Hy m0 s0 Hb k' kr2 f task Hs Hto Hex HL)
      as (kr3 & Hbegin & [[Hc Hf]|([t|] & kr4 & k2 & Hc & Hs2 & _ & _ & _ & Hnext & ->)]); exists kr3; (split; [done|]); rewrite Hc.
    + done.
    + by eapply resume_answers.
    + by exists k2.
Qed.

(** The user state a task runs in. *)
Lemma run_running e k kr w :
  kernel_run (User e k) -> kn_task_runtime k = Some kr ->
  user_writes (read_cr3 (kn_machine k)) (km_words (kn_machine k)) w ->
  exists f fs, running linkage probes trampolines m0 s0 e (with_machine (set_words (kn_machine k) w) k) kr f (kn_current_task k) fs /\
    read_cr3 (kn_machine k) = frame_of fs Root.
Proof.
  intros H%run_good Hk Hw. destruct set_up as [Hl Hy _ _ _]. destruct H as [(o & fs & Hp)|(kr' & f & task & fs & Hu)].
  { destruct Hp as [_ _ Hn _ _ _ _ _ _ _ _ _ _ _]. congruence. }
  assert (kr' = kr) as -> by (pose proof (sg_runtime _ _ _ _ _ _ _ _ _ _ (ru_scheduling _ _ _ _ _ _ _ _ _ _ _ Hu)); congruence).
  exists f, fs. pose proof (ru_current _ _ _ _ _ _ _ _ _ _ _ Hu) as <-. split; [by apply running_writes|by eapply running_root].
Qed.

(** C3: the kernel's trap path implements the runtime.  In a reachable state with
    a runtime, the current task is the one the runtime says is running and it runs
    with its saved registers; its trap is refused exactly when the registers break
    the policy, and otherwise the runtime's [capture_trap] and [handle_trap]
    succeed and the kernel enters user mode with the saved registers of the task
    they name; an exit goes through [begin_teardown] and [complete_teardown] in
    the same way, and with no task left to the final checks. *)
Theorem kernel_refines_runtime e k kr w ev :
  kernel_run (User e k) -> kn_task_runtime k = Some kr ->
  user_writes (read_cr3 (kn_machine k)) (km_words (kn_machine k)) w ->
  ev_software ev = true -> ev_vector ev = TASK_TRAP_VECTOR ->
  let task := kn_current_task k in
  let slot := task_slot (kr_runtime kr) task in
  let root := read_cr3 (kn_machine k) in
  let out := on_event ev (with_machine (set_words (kn_machine k) w) k) in
  running_task (kr_runtime kr) = Ok task /\ e = entry_of (ts_context slot) /\
  if context_ok (context_from_trap (ev_registers ev) task (ts_generation slot) root) task (ts_generation slot) root
  then answers out task kr (ev_registers ev) root
  else exists k', out = kernel_failure "trap context capture" k'.
Proof.
  intros Hrun Hk Hw Hs Hv. cbv zeta. destruct (run_running e k kr w Hrun Hk Hw) as (f & fs & Hu & ->).
  pose proof Hu as [Hsc Hr _ _ _ _ He]. split_and!; [done|done|].
  rewrite on_event_trap by (done || apply Hsc). by apply (trap_answers e _ kr f).
Qed.

(** C4: the success code means what it says.  After any event the kernel is in
    user mode again or has ended, and the success code is reached only by the exit
    of the last task of the journaled phase, whose teardown leaves a sealed journal
    that holds exactly the eleven reference records, field by field. *)
Theorem success_means_reference e k w ev :
  kernel_run (User e k) -> user_writes (read_cr3 (kn_machine k)) (km_words (kn_machine k)) w ->
  let task := kn_current_task k in
  match on_event ev (with_machine (set_words (kn_machine k) w) k) with
  | User _ _ => True
  | Stopped => False
  | Exit code _ =>
      code = QEMU_FAILURE \/
      code = QEMU_SUCCESS /\
      exists kr kr1 kr2 kr3 s, kn_task_runtime k = Some kr /\
        kr_capture_trap task (ev_registers ev) (read_cr3 (kn_machine k)) (ts_generation (task_slot (kr_runtime kr) task)) kr = (Ok tt, kr1) /\
        kr_handle_trap task kr1 = (Ok (OutExit task), kr2) /\ kr_begin_teardown task kr2 = (Ok tt, kr3) /\
        kr_complete_teardown task kr3 = (Ok None, KernelJournaled s) /\ journal_is_reference s
  end.
Proof.
  intros Hrun Hw. cbv zeta. pose proof (run_good _ Hrun) as H. destruct set_up as [Hl Hy Ht Hb Hk].
  destruct H as [(o & fs & Hp)|(kr & f & task & fs & Hu)].
  - apply (probing_writes linkage probes trampolines Hl Hy m0 s0 continuation_address e k o fs w) in Hp; [|done].
    destruct (probing_cases linkage probes trampolines Hl Hy m0 s0 Hb Ht continuation_address e _ o fs ev Hp)
      as [(e' & k' & -> & _)|(reason & k' & -> & _)]; [done|by left].
  - destruct (run_running e k kr w Hrun) as (f' & fs' & Hu' & Hroot); [apply Hu|done|].
    destruct (running_cases linkage probes trampolines Hl Hy m0 s0 Hb Ht continuation_address e _ kr f' _ fs' ev Hu')
      as [(e' & k' & -> & _)|[(reason & k' & -> & _)|[(k' & -> & _) (kr1 & kr2 & kr3 & s & H1 & H2 & H3 & H4 & H5 & H6)]]];
      [done|by left|]. right. split; [done|]. exists kr, kr1, kr2, kr3, s. rewrite Hroot.
    split_and!; [apply Hu|done..|by apply reference_exact].
Qed.
End whole.

(** ** Witnesses *)

(** The statics at the entry, over a machine. *)
Definition kernel_over (m : Machine) : Kernel :=
  mkKernel m descriptors_new processor_example None TaskOwners_new None 0 ActiveContext_new
    [("MakopaOS frames v1 ok reuse" ++ CRLF)%string].

Lemma setting_over probes w :
  let m := set_words recovered_example w in
  image_layout linkage_example probes -> machine_ok linkage_example m ->
  (forall j g, g ∈ [1; 2; 3; 4; 5] -> probe_ok probes (set_probes j m) g = true) ->
  setting linkage_example probes trampolines_example (kernel_over m).
Proof.
  intros m Hlayout Hok Hprobes.
  split; [apply linkage_example_ok|exact Hlayout|apply trampolines_example_ok| |].
  - split.
    + by apply machine_ok_settle.
    + done.
    + intros (e & He & Hx). revert He. change (live_managed _) with (live_managed allocator_example).
      assert (H : live_managed allocator_example = [mkExtent 0x200000 256]) by (vm_compute; reflexivity). rewrite H.
      intros He%list_elem_of_singleton. subst e. cbn in Hx. lia.
    + change (live_free _) with (live_free allocator_example).
      assert (H : live_free allocator_example = [mkExtent 0x200000 256]) by (vm_compute; reflexivity). rewrite H.
      by vm_compute.
    + change (km_allocator _) with allocator_example.
      assert (H : fa_free_len allocator_example = 1%nat) by (vm_compute; reflexivity). rewrite H.
      apply Nat.leb_le. by vm_compute.
    + intros j g. exact (Hprobes j g).
  - split; try done.
Qed.

Definition kernel_example : Kernel := kernel_over recovered_example.

Definition continuation_example : Z := 0x100500.

Lemma probes_example_ok j g :
  g ∈ [1; 2; 3; 4; 5] -> probe_ok probes_example (set_probes j recovered_example) g = true.
Proof.
  intros Hg. rewrite !elem_of_cons in Hg. destruct Hg as [->|[->|[->|[->|[->|Hg]]]]]; [destruct j; by lazy..|].
  by apply not_elem_of_nil in Hg.
Qed.

Lemma setting_example : setting linkage_example probes_example trampolines_example kernel_example.
Proof. exact (setting_over probes_example (km_words recovered_example) layout_example recovered_example_ok probes_example_ok). Qed.

#[local] Notation example_run := (kernel_run linkage_example probes_example trampolines_example continuation_example kernel_example).

Lemma kernel_never_faults_witness :
  setting linkage_example probes_example trampolines_example kernel_example /\
  activate_recovery_context linkage_example probes_example trampolines_example continuation_example kernel_example <> Stopped.
Proof.
  split; [exact setting_example|].
  pose proof (kernel_never_faults linkage_example probes_example trampolines_example continuation_example kernel_example
    setting_example _ (run_activated _ _ _ _ _)) as H.
  intros E. rewrite E in H. exact H.
Defined.

(** The first user state, the probe. *)
Lemma example_probing :
  exists e k o fs, example_run (User e k) /\
    probing linkage_example probes_example trampolines_example recovered_example (kn_serial kernel_example) continuation_example e k o fs.
Proof.
  pose proof setting_example as [Hl Hy Ht Hb Hk].
  destruct (activation_probing linkage_example probes_example trampolines_example Hl Hy _ _ Hb Ht continuation_example kernel_example Hk)
    as (e & k & o & fs & Hx & Hp).
  exists e, k, o, fs. split; [|exact Hp]. rewrite <-Hx. apply run_activated.
Qed.

Definition registers_example : TrapFrameV1 :=
  mkTrapFrameV1 0 0 0 0 0 0 0 0 0 0 0 0 0 0 0 USER_TEXT USER_CODE_SELECTOR 2 USER_STACK_TOP USER_DATA_SELECTOR.

(** The fault of the probe, and a yield. *)
Definition fault_example : UserEvent := mkUserEvent false PAGE_FAULT_VECTOR registers_example 6 INVALID_WRITE_TARGET.
Definition yield_example : UserEvent := mkUserEvent true TASK_TRAP_VECTOR registers_example 0 0.

(** The words as they are. *)
Lemma no_writes root w : user_writes root w w.
Proof. by intros a Hn. Qed.

(** The first task of the cooperative phase. *)
Lemma example_running :
  exists e k kr, example_run (User e k) /\ kn_task_runtime k = Some kr.
Proof.
  destruct example_probing as (e & k & o & fs & Hrun & Hp). pose proof setting_example as [Hl Hy Ht Hb Hk].
  pose proof (run_event _ _ _ _ _ e k (km_words (kn_machine k)) fault_example Hrun (no_writes _ _)) as Hrun'.
  apply (probing_writes linkage_example probes_example trampolines_example Hl Hy _ _ _ _ _ _ _ (km_words (kn_machine k))) in Hp;
    [|apply no_writes].
  destruct (expected_fault_begins linkage_example probes_example trampolines_example Hl Hy _ (kn_serial kernel_example) Hb Ht
    continuation_example e (with_machine (set_words (kn_machine k) (km_words (kn_machine k))) k) o fs fault_example) as (e' & k' & kr0 & kr & f & task & fs' & fs1 & fs2 & Hx & Hu & _); [done|done|by vm_compute|].
  exists e', k', kr. rewrite Hx in Hrun'. split; [done|apply Hu].
Qed.

Lemma user_mode_confined_witness :
  exists e k kr, example_run (User e k) /\ kn_task_runtime k = Some kr /\ confined linkage_example recovered_example e k.
Proof.
  destruct example_running as (e & k & kr & Hrun & Hk). exists e, k, kr. split; [exact Hrun|]. split; [exact Hk|].
  exact (user_mode_confined linkage_example probes_example trampolines_example continuation_example kernel_example
    setting_example e k Hrun).
Defined.

Lemma kernel_refines_runtime_witness :
  exists e k kr, example_run (User e k) /\ running_task (kr_runtime kr) = Ok (kn_current_task k) /\
    e = entry_of (ts_context (task_slot (kr_runtime kr) (kn_current_task k))).
Proof.
  destruct example_running as (e & k & kr & Hrun & Hk). exists e, k, kr. split; [exact Hrun|].
  destruct (kernel_refines_runtime linkage_example probes_example trampolines_example continuation_example kernel_example
    setting_example e k kr (km_words (kn_machine k)) yield_example Hrun Hk (no_writes _ _) eq_refl eq_refl) as (H1 & H2 & _).
  split; [exact H1|exact H2].
Defined.

Lemma success_means_reference_witness :
  exists e k kr, example_run (User e k) /\ kn_task_runtime k = Some kr /\
    on_event linkage_example probes_example trampolines_example continuation_example yield_example
      (with_machine (set_words (kn_machine k) (km_words (kn_machine k))) k) <> Stopped.
Proof.
  destruct example_running as (e & k & kr & Hrun & Hk). exists e, k, kr. split; [exact Hrun|]. split; [exact Hk|].
  pose proof (success_means_reference linkage_example probes_example trampolines_example continuation_example kernel_example
    setting_example e k (km_words (kn_machine k)) yield_example Hrun (no_writes _ _)) as H.
  intros E. cbv zeta in H. rewrite E in H. exact H.
Defined.
