(* ===== verification/UserProbes.v ===== *)
(** * The user programs

    Models the user probes in the assembly of [kernel/src/arch_x86_64.rs] and the
    processor in user mode as far as they use it: registers, status flags, words
    of memory through the page tables, traps and faults.

    The interpreter is written over a [Domain] of values, so that the same text
    runs on machine words and on the symbolic values of the proofs.  Where the
    assembler places the instructions and the data is a parameter. *)

From Stdlib Require Import String.
From stdpp Require Import gmap.
From S2P Require Import Prelude.
From S2P Require Import RuntimeTypes.
From S2P Require Import Capability.
From S2P Require Import Runtime.
From S2P Require Import RuntimeOps.
From S2P Require Import Journal.
From S2P Require Import Journaled.
From S2P Require Import RuntimeInv.
From S2P Require Import Panic.
From S2P Require Import AddressSpace.
From S2P Require Import PageTables.
From S2P Require Import KernelBackend.
From S2P Require Import KernelDescriptors.
From S2P Require Import KernelScheduler.
From S2P Require Import KernelInvariant.

#[local] Open Scope string_scope.
#[local] Open Scope Z_scope.

(** ** Instructions *)

Inductive reg := RAX | RBX | RCX | RDX | RBP | RSI | RDI | R8 | R9 | R10 | R11 | R12 | R13 | R14 | R15 | RSP.

(** The order of [TrapFrameV1], then the stack pointer. *)
Definition reg_index (r : reg) : nat :=
  match r with
  | RAX => 0 | RBX => 1 | RCX => 2 | RDX => 3 | RBP => 4 | RSI => 5 | RDI => 6 | R8 => 7 | R9 => 8
  | R10 => 9 | R11 => 10 | R12 => 11 | R13 => 12 | R14 => 13 | R15 => 14 | RSP => 15
  end%nat.

(** A register, its low half, an immediate or [qword ptr [r + offset]]. *)
Inductive operand := R64 (r : reg) | R32 (r : reg) | Imm (z : Z) | Mem (r : reg) (offset : Z).

Inductive Instr :=
| Mov (target source : operand)
| MovByte (target : operand) (value : Z)
| Xor (target source : operand)
| Push (source : operand)
| Add (target source : operand)
| Inc (target : operand)
| Cmp (left_ right_ : operand)
| Lea (target : operand) (name : string)
| Je (name : string)
| Jne (name : string)
| Jmp (name : string)
| Int (vector : Z)
| Hlt
| Ud2.

Inductive ProbeItem := Ins (i : Instr) | Label (name : string).

Fixpoint instructions (items : list ProbeItem) : list Instr :=
  match items with
  | [] => []
  | Ins i :: rest => i :: instructions rest
  | Label _ :: rest => instructions rest
  end.

(** The instruction a label stands before. *)
Fixpoint label_index (items : list ProbeItem) (name : string) (at_ : nat) : option nat :=
  match items with
  | [] => None
  | Ins _ :: rest => label_index rest name (S at_)
  | Label l :: rest => if String.eqb l name then Some at_ else label_index rest name at_
  end.

(** The assembler's notation. *)
Module Asm.
#[export] Set Warnings "-uniform-inheritance".
Coercion Imm : Z >-> operand.
Notation eax := (R32 RAX). Notation ebx := (R32 RBX). Notation ecx := (R32 RCX). Notation edx := (R32 RDX).
Notation ebp := (R32 RBP). Notation esi := (R32 RSI). Notation edi := (R32 RDI). Notation r8d := (R32 R8).
Notation r9d := (R32 R9). Notation r10d := (R32 R10). Notation r11d := (R32 R11). Notation r12d := (R32 R12).
Notation r13d := (R32 R13). Notation r14d := (R32 R14). Notation r15d := (R32 R15).
Notation rax := (R64 RAX). Notation rbx := (R64 RBX). Notation rdx := (R64 RDX). Notation rbp := (R64 RBP).
Notation rsi := (R64 RSI). Notation rdi := (R64 RDI). Notation r12 := (R64 R12). Notation r13 := (R64 R13).
Notation r14 := (R64 R14). Notation r15 := (R64 R15). Notation rsp := (R64 RSP).
Definition ptr (base : operand) (offset : Z) : operand := match base with R64 r => Mem r offset | _ => base end.
Definition mov (target source : operand) : ProbeItem := Ins (Mov target source).
Definition mov_byte (target : operand) (value : Z) : ProbeItem := Ins (MovByte target value).
Definition xor (target source : operand) : ProbeItem := Ins (Xor target source).
Definition push (source : operand) : ProbeItem := Ins (Push source).
Definition add (target source : operand) : ProbeItem := Ins (Add target source).
Definition inc (target : operand) : ProbeItem := Ins (Inc target).
Definition cmp (left_ right_ : operand) : ProbeItem := Ins (Cmp left_ right_).
Definition lea (target : operand) (name : string) : ProbeItem := Ins (Lea target name).
Definition je (name : string) : ProbeItem := Ins (Je name).
Definition jne (name : string) : ProbeItem := Ins (Jne name).
Definition jmp (name : string) : ProbeItem := Ins (Jmp name).
Definition int (vector : Z) : ProbeItem := Ins (Int vector).
Definition hlt : ProbeItem := Ins Hlt.
Definition ud2 : ProbeItem := Ins Ud2.
Definition label (name : string) : ProbeItem := Label name.
End Asm.
Import Asm.

(** ** The probes *)

(** The bytes of [LEGACY_USER_PROBE], as their comments read them. *)
Definition legacy_probe : list ProbeItem :=
  [mov rax 0x0000008000600000; mov_byte (ptr rax 0) 1; ud2].

Definition makopa_sender_probe : list ProbeItem :=
  [mov ebx 0x1101; mov ecx 0x1102; mov ebp 0x1103; mov r8d 0x1108; mov r9d 0x1109; mov r10d 0x1110;
   mov r11d 0x1111; mov r12d 0x1112; mov r13d 0x1113; mov r14d 0x1114; mov r15d 0x1115; push 0x3131; mov eax 4;
   mov edi 0x10; mov esi 1; xor edx edx; int 0x80; cmp rax 0; jne "sender_failure"; cmp rdx 0x11;
   jne "sender_failure"; cmp rdi 0x10; jne "sender_failure"; cmp rsi 1; jne "sender_failure"; push rdx;
   mov eax 5; mov edi 0x10; xor esi esi; xor edx edx; int 0x80; cmp rax 0; jne "sender_failure"; cmp rdx 0;
   jne "sender_failure";
   mov eax 1; mov edi 0x10; mov rsi 0x00004d414b4f5041; xor edx edx; int 0x80; cmp rax 6; jne "sender_failure";
   cmp rdx 0; jne "sender_failure";
   mov eax 1; mov rdi (ptr rsp 0); mov rsi 0x00004d414b4f5041; xor edx edx; int 0x80; cmp rax 0;
   jne "sender_failure"; cmp rdx 0; jne "sender_failure"; mov rax 0x00004d414b4f5041; cmp rsi rax;
   jne "sender_failure"; cmp rdi 0x11; jne "sender_failure";
   mov eax 5; mov rdi (ptr rsp 0); xor esi esi; xor edx edx; int 0x80; cmp rax 0; jne "sender_failure"; cmp rdx 0;
   jne "sender_failure"; cmp (ptr rsp 0) 0x11; jne "sender_failure"; add rsp 8; cmp ebx 0x1101;
   jne "sender_failure"; cmp ecx 0x1102; jne "sender_failure"; cmp ebp 0x1103; jne "sender_failure";
   cmp r8d 0x1108; jne "sender_failure"; cmp r9d 0x1109; jne "sender_failure"; cmp r10d 0x1110;
   jne "sender_failure"; cmp r11d 0x1111; jne "sender_failure"; cmp r12d 0x1112; jne "sender_failure";
   cmp r13d 0x1113; jne "sender_failure"; cmp r14d 0x1114; jne "sender_failure"; cmp r15d 0x1115;
   jne "sender_failure"; cmp (ptr rsp 0) 0x3131; jne "sender_failure"; add rsp 8; mov eax 3; xor edi edi;
   xor esi esi; xor edx edx; int 0x80; label "sender_failure"; hlt].

Definition makopa_receiver_probe : list ProbeItem :=
  [mov ebx 0x2201; mov ecx 0x2202; mov ebp 0x2203; mov r8d 0x2208; mov r9d 0x2209; mov r10d 0x2210;
   mov r11d 0x2211; mov r12d 0x2212; mov r13d 0x2213; mov r14d 0x2214; mov r15d 0x2215; push 0x4242; mov eax 2;
   mov edi 0x10; xor esi esi; xor edx edx; int 0x80; cmp rax 0; jne "receiver_failure";
   mov rax 0x00004d414b4f5041; cmp rdx rax; jne "receiver_failure"; cmp rdi 0x10; jne "receiver_failure";
   cmp rsi 0; jne "receiver_failure"; cmp ebx 0x2201; jne "receiver_failure"; cmp ecx 0x2202;
   jne "receiver_failure"; cmp ebp 0x2203; jne "receiver_failure"; cmp r8d 0x2208; jne "receiver_failure";
   cmp r9d 0x2209; jne "receiver_failure"; cmp r10d 0x2210; jne "receiver_failure"; cmp r11d 0x2211;
   jne "receiver_failure"; cmp r12d 0x2212; jne "receiver_failure"; cmp r13d 0x2213; jne "receiver_failure";
   cmp r14d 0x2214; jne "receiver_failure"; cmp r15d 0x2215; jne "receiver_failure"; mov eax 5; mov edi 0x10;
   xor esi esi; xor edx edx; int 0x80; cmp rax 0; jne "receiver_failure"; cmp rdx 0; jne "receiver_failure";
   cmp rdi 0x10; jne "receiver_failure"; cmp rsi 0; jne "receiver_failure"; cmp (ptr rsp 0) 0x4242;
   jne "receiver_failure"; add rsp 8; mov eax 3; xor edi edi; xor esi esi; xor edx edx; int 0x80;
   label "receiver_failure"; hlt].

Definition makopa_supervisor_probe : list ProbeItem :=
  [mov eax 6; mov edi 0x10; mov esi 2; xor edx edx; int 0x80; cmp rax 12; jne "supervisor_failure"; cmp rdx 0;
   jne "supervisor_failure";
   mov eax 6; mov edi 0x10; mov esi 1; xor edx edx; int 0x80; cmp rax 0; jne "supervisor_failure"; cmp rdx 0;
   jne "supervisor_failure";
   mov eax 0; xor edi edi; xor esi esi; xor edx edx; int 0x80;
   mov eax 8; mov edi 0x11; xor esi esi; xor edx edx; int 0x80; cmp rax 0; jne "supervisor_failure"; cmp rdi 1;
   jne "supervisor_failure"; cmp rsi 1; jne "supervisor_failure"; cmp rdx 0x31; jne "supervisor_failure";
   push rdi; mov eax 9; mov edi 0x11; mov rsi (ptr rsp 0); xor edx edx; int 0x80; cmp rax 0;
   jne "supervisor_failure"; add rsp 8;
   mov eax 0; xor edi edi; xor esi esi; xor edx edx; int 0x80;
   mov eax 8; mov edi 0x11; xor esi esi; xor edx edx; int 0x80; cmp rax 0; jne "supervisor_failure"; cmp rdi 2;
   jne "supervisor_failure"; cmp rsi 1; jne "supervisor_failure"; cmp rdx 0x32; jne "supervisor_failure";
   push rdi; mov eax 9; mov edi 0x11; mov rsi (ptr rsp 0); mov edx 1; int 0x80; cmp rax 0;
   jne "supervisor_failure"; mov eax 9; mov edi 0x11; mov rsi (ptr rsp 0); mov edx 2; int 0x80; cmp rax 0;
   jne "supervisor_failure"; mov eax 10; mov edi 0x12; mov rsi (ptr rsp 0); mov edx 0x32; int 0x80; cmp rax 15;
   jne "supervisor_failure"; add rsp 8;
   mov eax 0; xor edi edi; xor esi esi; xor edx edx; int 0x80;
   mov eax 8; mov edi 0x11; xor esi esi; xor edx edx; int 0x80; cmp rax 0; jne "supervisor_failure"; cmp rdi 3;
   jne "supervisor_failure"; cmp rsi 1; jne "supervisor_failure"; cmp rdx 0x33; jne "supervisor_failure";
   push rdi; mov eax 9; mov edi 0x11; mov rsi (ptr rsp 0); mov edx 1; int 0x80; cmp rax 0;
   jne "supervisor_failure"; mov eax 10; mov edi 0x12; mov rsi (ptr rsp 0); mov edx 0x34; int 0x80; cmp rax 15;
   jne "supervisor_failure"; mov eax 10; mov edi 0x12; mov rsi (ptr rsp 0); mov edx 0x33; int 0x80; cmp rax 0;
   jne "supervisor_failure"; mov eax 10; mov edi 0x12; mov rsi (ptr rsp 0); mov edx 0x33; int 0x80; cmp rax 15;
   jne "supervisor_failure"; add rsp 8;
   mov eax 0; xor edi edi; xor esi esi; xor edx edx; int 0x80; mov eax 3; xor edi edi; xor esi esi; xor edx edx;
   int 0x80; label "supervisor_failure"; hlt].

Definition makopa_workload_probe : list ProbeItem :=
  [mov eax 7; mov edi 0x10; mov esi 1; mov edx 0x31; int 0x80; cmp rax 16; jne "workload_failure"; cmp rdx 0;
   jne "workload_failure";
   mov eax 7; mov edi 0x10; mov esi 1; mov edx 0x32; int 0x80; cmp rax 17; jne "workload_failure"; cmp rdx 0;
   jne "workload_failure";
   mov eax 7; mov edi 0x10; mov esi 1; mov edx 0x33; int 0x80; cmp rax 0; jne "workload_failure"; cmp rdx 0x33;
   jne "workload_failure"; mov eax 3; xor edi edi; xor esi esi; xor edx edx; int 0x80; label "workload_failure";
   hlt].

Definition makopa_journal_supervisor_probe : list ProbeItem :=
  [mov eax 6; mov edi 0x10; mov esi 1; xor edx edx; int 0x80; cmp rax 0; jne "journal_supervisor_failure";
   mov eax 0; xor edi edi; xor esi esi; xor edx edx; int 0x80;
   mov r15d 1; mov ebx 0x41; label "journal_lifecycle_loop"; mov eax 8; mov edi 0x11; xor esi esi; xor edx edx;
   int 0x80; cmp rax 0; jne "journal_supervisor_failure"; cmp rdi r15; jne "journal_supervisor_failure";
   cmp rsi 1; jne "journal_supervisor_failure"; cmp rdx rbx; jne "journal_supervisor_failure"; mov rbp rdi;
   mov eax 9; mov edi 0x11; mov rsi rbp; cmp r15 1; je "journal_decide_deny"; mov edx 1; int 0x80; cmp rax 0;
   jne "journal_supervisor_failure"; cmp r15 2; je "journal_decide_expire";
   mov eax 10; mov edi 0x12; mov rsi rbp; mov rdx rbx; int 0x80; cmp r15 3; je "journal_expect_complete";
   cmp rax 18; jne "journal_supervisor_failure"; jmp "journal_lifecycle_done"; label "journal_expect_complete";
   cmp rax 0; jne "journal_supervisor_failure"; jmp "journal_lifecycle_done"; label "journal_decide_expire";
   mov eax 9; mov edi 0x11; mov rsi rbp; mov edx 2; int 0x80; cmp rax 0; jne "journal_supervisor_failure";
   jmp "journal_lifecycle_done"; label "journal_decide_deny"; mov eax 9; xor edx edx; int 0x80; cmp rax 0;
   jne "journal_supervisor_failure"; label "journal_lifecycle_done"; mov eax 0; xor edi edi; xor esi esi;
   xor edx edx; int 0x80; inc r15; inc rbx; cmp r15 5; jne "journal_lifecycle_loop";
   mov eax 11; mov edi 0x13; xor esi esi; xor edx edx; int 0x80; cmp rax 0; jne "journal_supervisor_failure";
   cmp rdi 1; jne "journal_supervisor_failure"; cmp rsi 12; jne "journal_supervisor_failure"; cmp rdx 11;
   jne "journal_supervisor_failure";
   lea r12 "journal_expected_records"; mov r13d 1; label "journal_record_loop"; xor r14d r14d;
   label "journal_triplet_loop"; mov eax 12; mov edi 0x13; mov rsi r13; mov rdx r14; int 0x80; cmp rax 0;
   jne "journal_supervisor_failure"; cmp rdi (ptr r12 0); jne "journal_supervisor_failure"; cmp r14 5;
   je "journal_final_triplet"; cmp rsi (ptr r12 8); jne "journal_supervisor_failure"; cmp rdx (ptr r12 16);
   jne "journal_supervisor_failure"; add r12 24; inc r14; jmp "journal_triplet_loop";
   label "journal_final_triplet"; cmp rsi 0; jne "journal_supervisor_failure"; cmp rdx 0;
   jne "journal_supervisor_failure"; add r12 8; inc r13; cmp r13 12; jne "journal_record_loop";
   mov eax 3; xor edi edi; xor esi esi; xor edx edx; int 0x80; label "journal_supervisor_failure"; hlt].

Definition journal_expected_records : list Z :=
  [0x0000008000000001; 0x0000000000000001; 1; 2; 1; 2; 5; 2; 5; 1; 1; 3; 1; 1; 16; 0;
   0x0000008000000001; 0x0000001000000003; 2; 3; 1; 1; 4; 2; 5; 1; 1; 3; 1; 1; 32; 0;
   0x0000008000000001; 0x0000000000000001; 3; 4; 1; 2; 5; 2; 5; 2; 1; 3; 1; 1; 16; 0;
   0x0000008000000001; 0x0000000000000002; 4; 5; 1; 1; 4; 2; 5; 2; 1; 3; 1; 1; 32; 0;
   0x0000008000000001; 0x0000001100000004; 5; 6; 1; 1; 4; 2; 5; 2; 1; 3; 1; 1; 32; 0;
   0x0000008000000001; 0x0000000000000001; 6; 7; 1; 2; 5; 2; 5; 3; 1; 3; 1; 1; 16; 0;
   0x0000008000000001; 0x0000000000000002; 7; 8; 1; 1; 4; 2; 5; 3; 1; 3; 1; 1; 32; 0;
   0x0000008000000001; 0x0000000000000005; 8; 9; 1; 1; 4; 2; 5; 3; 1; 4; 1; 1; 64; 0;
   0x0000008000000001; 0x0000000000000001; 9; 10; 1; 2; 5; 2; 5; 4; 1; 3; 1; 1; 16; 0;
   0x0000008000000001; 0x0000000000000002; 10; 11; 1; 1; 4; 2; 5; 4; 1; 3; 1; 1; 32; 0;
   0x0000008000000001; 0x0000001200000006; 11; 12; 1; 1; 4; 2; 5; 4; 1; 4; 1; 1; 64; 0].

Definition makopa_journal_workload_probe : list ProbeItem :=
  [mov eax 7; mov edi 0x10; mov esi 1; mov edx 0x41; int 0x80; cmp rax 16; jne "journal_workload_failure";
   cmp rdx 0; jne "journal_workload_failure";
   mov eax 7; mov edi 0x10; mov esi 1; mov edx 0x42; int 0x80; cmp rax 17; jne "journal_workload_failure";
   cmp rdx 0; jne "journal_workload_failure";
   mov eax 7; mov edi 0x10; mov esi 1; mov edx 0x43; int 0x80; cmp rax 0; jne "journal_workload_failure";
   cmp rdx 0x43; jne "journal_workload_failure";
   mov eax 7; mov edi 0x10; mov esi 1; mov edx 0x44; int 0x80; cmp rax 18; jne "journal_workload_failure";
   cmp rdx 0; jne "journal_workload_failure";
   mov eax 3; xor edi edi; xor esi esi; xor edx edx; int 0x80; label "journal_workload_failure"; hlt].

(** The program [probe_bytes] selects. *)
Definition probe_program (generation : Z) (journaled : bool) : list ProbeItem :=
  if generation =? TASK_GENERATION then legacy_probe else
  if generation =? SENDER_GENERATION then makopa_sender_probe else
  if generation =? RECEIVER_GENERATION then makopa_receiver_probe else
  if (generation =? SUPERVISOR_GENERATION) && journaled then makopa_journal_supervisor_probe else
  if generation =? SUPERVISOR_GENERATION then makopa_supervisor_probe else
  if (generation =? WORKLOAD_GENERATION) && journaled then makopa_journal_workload_probe else
  if generation =? WORKLOAD_GENERATION then makopa_workload_probe else [].

(** ** Accesses *)

(** What an access gives: a value, a page fault with its code and address, or
    something outside the model (an address that is not canonical or not a
    multiple of eight). *)
Inductive Access (A : Type) :=
| Done (a : A)
| Fault (code address : Z)
| Unmodelled.
Arguments Done {A} _.
Arguments Fault {A} _ _.
Arguments Unmodelled {A}.

Definition access_bind {A B} (x : Access A) (f : A -> Access B) : Access B :=
  match x with Done a => f a | Fault code address => Fault code address | Unmodelled => Unmodelled end.

#[local] Notation "'let~' x := m 'in' k" := (access_bind m (fun x => k)) (at level 200, x binder, right associativity).

Definition of_option {A} (o : option A) : Access A := match o with Some a => Done a | None => Unmodelled end.

(** ** Status flags *)

Record Flags (B : Type) := mkFlags { fl_cf : B; fl_pf : B; fl_af : B; fl_zf : B; fl_sf : B; fl_of : B }.
Arguments mkFlags {B}.
Arguments fl_cf {B}.
Arguments fl_pf {B}.
Arguments fl_af {B}.
Arguments fl_zf {B}.
Arguments fl_sf {B}.
Arguments fl_of {B}.

(** Even parity of the low byte. *)
Definition parity (z : Z) : bool :=
  negb (foldr xorb false (map (Z.testbit z) [0; 1; 2; 3; 4; 5; 6; 7])).

(** The flags of a result [r] of width [n]; the carry and the overflow are
    given. *)
Definition result_flags (n r : Z) (cf af ov : bool) : Flags bool :=
  mkFlags cf (parity r) af (r =? 0) (Z.testbit r (n - 1)) ov.

Definition sub_flags (n a b : Z) : Flags bool :=
  let r := (a - b) mod 2 ^ n in
  result_flags n r (a <? b) (Z.land a 15 <? Z.land b 15)
    (Z.testbit (Z.land (Z.lxor a b) (Z.lxor a r)) (n - 1)).

Definition add_flags (n a b : Z) : Z * Flags bool :=
  let r := (a + b) mod 2 ^ n in
  (r, result_flags n r (2 ^ n <=? a + b) (15 <? Z.land a 15 + Z.land b 15)
    (Z.testbit (Z.land (Z.lxor a r) (Z.lxor b r)) (n - 1))).

Definition xor_flags (n a b : Z) : Z * Flags bool :=
  let r := Z.lxor a b in (r, result_flags n r false false false).

Definition bit (b : bool) (i : Z) : Z := if b then Z.shiftl 1 i else 0.

(** [rflags], whose bit 1 is always set. *)
Definition encode_flags (f : Flags bool) : Z :=
  2 + bit (fl_cf f) 0 + bit (fl_pf f) 2 + bit (fl_af f) 4 + bit (fl_zf f) 6 + bit (fl_sf f) 7 + bit (fl_of f) 11.

Definition decode_flags (z : Z) : Flags bool :=
  mkFlags (Z.testbit z 0) (Z.testbit z 2) (Z.testbit z 4) (Z.testbit z 6) (Z.testbit z 7) (Z.testbit z 11).

(** ** The interpreter *)

(** What the interpreter computes with: values, bits of the flags and memory. *)
Record Domain := mkDomain {
  V : Type;
  B : Type;
  M : Type;
  d_const : Z -> V;
  d_low : V -> Access V;                              (* the low half of a register *)
  d_offset : V -> Z -> Access V;                      (* the address [v + offset] *)
  d_sub : Z -> V -> V -> Access (Flags B);
  d_add : Z -> V -> V -> Access (V * Flags B);
  d_xor : Z -> V -> V -> Access (V * Flags B);
  d_load : M -> V -> Access V;
  d_store : M -> V -> V -> Access M;
  d_store_byte : M -> V -> Z -> Access M;
  d_label : string -> Access V;                       (* the address of a label of the data *)
  d_test : B -> Access bool
}.

Section interpreter.
Variable D : Domain.
Variable items : list ProbeItem.

(** Sixteen registers, in the order of [reg_index]. *)
Record State := mkState { us_pc : nat; us_regs : list (V D); us_flags : Flags (B D); us_memory : M D }.

Definition get (s : State) (r : reg) : Access (V D) := of_option (us_regs s !! reg_index r).
Definition set_reg (s : State) (r : reg) (v : V D) : State :=
  mkState (us_pc s) (<[reg_index r := v]> (us_regs s)) (us_flags s) (us_memory s).
Definition set_flags (s : State) (f : Flags (B D)) : State := mkState (us_pc s) (us_regs s) f (us_memory s).
Definition set_memory (s : State) (m : M D) : State := mkState (us_pc s) (us_regs s) (us_flags s) m.
Definition set_pc (s : State) (pc : nat) : State := mkState pc (us_regs s) (us_flags s) (us_memory s).

Definition address_of (s : State) (r : reg) (offset : Z) : Access (V D) := let~ v := get s r in d_offset D v offset.

Definition read_operand (s : State) (o : operand) : Access (V D) :=
  match o with
  | R64 r => get s r
  | R32 r => let~ v := get s r in d_low D v
  | Imm z => Done (d_const D z)
  | Mem r offset => let~ a := address_of s r offset in d_load D (us_memory s) a
  end.

(** A write to the low half of a register clears the high half. *)
Definition write_operand (s : State) (o : operand) (v : V D) : Access State :=
  match o with
  | R64 r => Done (set_reg s r v)
  | R32 r => let~ v := d_low D v in Done (set_reg s r v)
  | Imm _ => Unmodelled
  | Mem r offset => let~ a := address_of s r offset in let~ m := d_store D (us_memory s) a v in Done (set_memory s m)
  end.

Definition is_half (o : operand) : bool := match o with R32 _ => true | _ => false end.
Definition width (a b : operand) : Z := if is_half a || is_half b then 32 else 64.

(** How an instruction ends: with the next state, or with an interrupt or an
    exception in the state that is saved. *)
Inductive Step :=
| Continue (s : State)
| Raise (software : bool) (vector code : Z) (s : State).

Definition goto (s : State) (name : string) : Access Step :=
  let~ pc := of_option (label_index items name 0) in Done (Continue (set_pc s pc)).

Definition advance (s : State) : State := set_pc s (S (us_pc s)).

Definition execute (i : Instr) (s : State) : Access Step :=
  match i with
  | Mov target source =>
      let~ v := read_operand s source in let~ s := write_operand s target v in Done (Continue (advance s))
  | MovByte target value =>
      match target with
      | Mem r offset =>
          let~ a := address_of s r offset in let~ m := d_store_byte D (us_memory s) a value in
          Done (Continue (advance (set_memory s m)))
      | _ => Unmodelled
      end
  | Xor target source =>
      let~ a := read_operand s target in let~ b := read_operand s source in
      let~ r := d_xor D (width target source) a b in
      let~ s := write_operand s target (fst r) in Done (Continue (advance (set_flags s (snd r))))
  | Push source =>
      let~ v := read_operand s source in let~ a := address_of s RSP (-8) in
      let~ m := d_store D (us_memory s) a v in Done (Continue (advance (set_reg (set_memory s m) RSP a)))
  | Add target source =>
      let~ a := read_operand s target in let~ b := read_operand s source in
      let~ r := d_add D (width target source) a b in
      let~ s := write_operand s target (fst r) in Done (Continue (advance (set_flags s (snd r))))
  | Inc target =>
      let~ a := read_operand s target in
      let~ r := d_add D (width target target) a (d_const D 1) in
      let~ s := write_operand s target (fst r) in
      let f := snd r in
      Done (Continue (advance (set_flags s (mkFlags (fl_cf (us_flags s)) (fl_pf f) (fl_af f) (fl_zf f) (fl_sf f) (fl_of f)))))
  | Cmp a b =>
      let~ x := read_operand s a in let~ y := read_operand s b in
      let~ f := d_sub D (width a b) x y in Done (Continue (advance (set_flags s f)))
  | Lea target name =>
      let~ v := d_label D name in let~ s := write_operand s target v in Done (Continue (advance s))
  | Je name => let~ z := d_test D (fl_zf (us_flags s)) in if z then goto s name else Done (Continue (advance s))
  | Jne name => let~ z := d_test D (fl_zf (us_flags s)) in if z then Done (Continue (advance s)) else goto s name
  | Jmp name => goto s name
  | Int vector => Done (Raise true vector 0 (advance s))
  | Hlt => Done (Raise false GENERAL_PROTECTION_VECTOR 0 s)
  | Ud2 => Done (Raise false 6 0 s)
  end.

Definition step (s : State) : Access Step :=
  let~ i := of_option (instructions items !! us_pc s) in execute i s.

(** The interrupt or exception that ends the run, with the faulting address. *)
Record Event := mkEvent { ue_software : bool; ue_vector : Z; ue_code : Z; ue_address : Z }.

(** At most [fuel] instructions; a page fault is raised in the state before the
    instruction. *)
Fixpoint run (fuel : nat) (s : State) : option (Event * State) :=
  match fuel with
  | O => None
  | S fuel =>
      match step s with
      | Done (Continue s) => run fuel s
      | Done (Raise software vector code s) => Some (mkEvent software vector code 0, s)
      | Fault code address => Some (mkEvent false PAGE_FAULT_VECTOR code address, s)
      | Unmodelled => None
      end
  end.
End interpreter.
Arguments mkState {D}.
Arguments us_pc {D}.
Arguments us_regs {D}.
Arguments us_flags {D}.
Arguments us_memory {D}.
Arguments Continue {D}.
Arguments Raise {D}.

(** ** The processor in user mode *)

(** Where the assembler put the instructions and the data of a probe. *)
Record Placement := mkPlacement { pl_code : nat -> Z; pl_data : Z }.

Section processor.
Variables (place : Placement) (root : Z).

(** The physical address of an access. *)
Definition user_physical (w : Words) (write : bool) (va : Z) : Access Z :=
  if negb (is_canonical_48 va) then Unmodelled else
  match translate w root va with
  | None => Fault (4 + bit write 1) va
  | Some tr =>
      if tr_user tr && (negb write || tr_writable tr) then Done (tr_frame tr + va mod PAGE_SIZE)
      else Fault (5 + bit write 1) va
  end.

Definition user_load (w : Words) (va : Z) : Access Z :=
  if negb (is_multiple_of va 8) then Unmodelled else
  let~ a := user_physical w false va in Done (read_word w a).

Definition user_store (w : Words) (va value : Z) : Access Words :=
  if negb (is_multiple_of va 8) then Unmodelled else
  let~ a := user_physical w true va in Done (write_word w a value).

(** A byte of the word it lies in. *)
Definition user_store_byte (w : Words) (va value : Z) : Access Words :=
  let~ a := user_physical w true va in
  let word := a - a mod 8 in
  let shift := 8 * (a mod 8) in
  Done (write_word w word (Z.lor (Z.ldiff (read_word w word) (Z.shiftl 255 shift)) (Z.shiftl value shift))).

Definition Words64 : Domain :=
  {| V := Z; B := bool; M := Words;
     d_const := fun z => z;
     d_low := fun v => Done (v mod 2 ^ 32);
     d_offset := fun v offset => Done ((v + offset) mod 2 ^ 64);
     d_sub := fun n a b => Done (sub_flags n a b);
     d_add := fun n a b => Done (add_flags n a b);
     d_xor := fun n a b => Done (xor_flags n a b);
     d_load := user_load;
     d_store := user_store;
     d_store_byte := user_store_byte;
     d_label := fun _ => Done (pl_data place);
     d_test := fun b => Done b |}.

(** The saved state, as the trampoline finds it. *)
Definition saved_frame (s : State Words64) : TrapFrameV1 :=
  match us_regs s with
  | [a; b; c; d; bp; si; di; x8; x9; x10; x11; x12; x13; x14; x15; sp] =>
      mkTrapFrameV1 a b c d bp si di x8 x9 x10 x11 x12 x13 x14 x15 (pl_code place (us_pc s)) USER_CODE_SELECTOR
        (encode_flags (us_flags s)) sp USER_DATA_SELECTOR
  | _ => mkTrapFrameV1 0 0 0 0 0 0 0 0 0 0 0 0 0 0 0 0 0 0 0 0
  end.

(** The instruction an address belongs to. *)
Definition fetch (items : list ProbeItem) (rip : Z) : option nat :=
  fst <$> list_find (fun i => pl_code place i = rip) (seq 0 (length (instructions items))).

(** User mode from an entry to the event that ends it.  [leftover] is what the
    general registers hold where the stub loads none. *)
Definition user_run (fuel : nat) (items : list ProbeItem) (leftover : list Z) (e : UserEntry) (w : Words) : option (UserEvent * Words) :=
  pc ← fetch items (ue_rip e);
  '(ev, s) ← run Words64 items fuel
    (mkState (D:=Words64) pc (default leftover (ue_registers e) ++ [ue_rsp e])%list (decode_flags (ue_rflags e)) w);
  Some (mkUserEvent (ue_software ev) (ue_vector ev) (saved_frame s) (ue_code ev) (ue_address ev), us_memory s).
End processor.

(** * Symbolic runs of the user programs

    The probes and the runtime, run together on symbolic values: a register is a
    number or an offset into the probe's data.  What such a run computes holds
    wherever the assembler puts the code and the data and wherever the task's
    frames are. *)

(** ** Symbolic values *)

Inductive sval := SZ (z : Z) | SD (offset : Z).

(** The stack as the words written to it, the latest first. *)
Definition Stack_words : Type := list (Z * Z).

Fixpoint stack_get (st : Stack_words) (va : Z) : option Z :=
  match st with
  | [] => None
  | (a, v) :: st => if a =? va then Some v else stack_get st va
  end.

Definition in_stack (va : Z) : bool := (USER_STACK <=? va) && (va <? USER_STACK_TOP) && (va mod 8 =? 0).

Definition known (f : Flags bool) : Flags (option bool) :=
  mkFlags (Some (fl_cf f)) (Some (fl_pf f)) (Some (fl_af f)) (Some (fl_zf f)) (Some (fl_sf f)) (Some (fl_of f)).

Section symbolic.
(** The words of the probe's data. *)
Variable table : list Z.

Definition in_table (offset : Z) : bool :=
  (0 <=? offset) && (offset <=? 8 * Z.of_nat (length table)) && (0 <? Z.of_nat (length table)).

Definition sym_load (st : Stack_words) (v : sval) : Access sval :=
  match v with
  | SZ va => if in_stack va then of_option (SZ <$> stack_get st va) else Unmodelled
  | SD o => if in_table o && (o mod 8 =? 0) then of_option (SZ <$> (table !! Z.to_nat (o / 8))) else Unmodelled
  end.

Definition sym_store (st : Stack_words) (a v : sval) : Access Stack_words :=
  match a, v with
  | SZ va, SZ z => if in_stack va then Done ((va, z) :: st) else Unmodelled
  | _, _ => Unmodelled
  end.

Definition sym_two {A} (f : Z -> Z -> A) (a b : sval) : Access A :=
  match a, b with SZ x, SZ y => Done (f x y) | _, _ => Unmodelled end.

(** Of a sum with an offset only the carry is known. *)
Definition sym_add (n : Z) (a b : sval) : Access (sval * Flags (option bool)) :=
  match a, b with
  | SZ x, SZ y => let r := add_flags n x y in Done (SZ (fst r), known (snd r))
  | SD o, SZ y => if (n =? 64) && in_table (o + y)
                  then Done (SD (o + y), mkFlags (Some false) None None None None None) else Unmodelled
  | _, _ => Unmodelled
  end.

Definition Symbolic : Domain :=
  {| V := sval; B := option bool; M := Stack_words;
     d_const := SZ;
     d_low := fun v => match v with SZ z => Done (SZ (z mod 2 ^ 32)) | SD _ => Unmodelled end;
     d_offset := fun v offset =>
       match v with
       | SZ z => Done (SZ ((z + offset) mod 2 ^ 64))
       | SD o => if in_table (o + offset) then Done (SD (o + offset)) else Unmodelled
       end;
     d_sub := fun n => sym_two (fun a b => known (sub_flags n a b));
     d_add := sym_add;
     d_xor := fun n => sym_two (fun a b => let r := xor_flags n a b in (SZ (fst r), known (snd r)));
     d_load := sym_load;
     d_store := sym_store;
     d_store_byte := fun _ _ _ => Unmodelled;
     d_label := fun _ => Done (SD 0);
     d_test := of_option |}.
End symbolic.

(** ** A task between its traps *)

Record Task := mkTask {
  pt_pc : nat;
  pt_regs : list sval;
  pt_flags : Flags (option bool);
  pt_stack : Stack_words
}.

(** The start of a probe: no register but the stack pointer. *)
Definition fresh_task : Task :=
  mkTask 0 (replicate 15 (SZ 0) ++ [SZ USER_STACK_TOP]) (known (decode_flags 2)) [].

Definition all_known (f : Flags (option bool)) : option (Flags bool) :=
  cf ← fl_cf f; pf ← fl_pf f; af ← fl_af f; zf ← fl_zf f; sf ← fl_sf f; ov ← fl_of f; Some (mkFlags cf pf af zf sf ov).

(** The four registers the runtime may write, from the saved context. *)
Definition resumed (c : TaskContextV1) (regs : list sval) : list sval :=
  <[0%nat := SZ (tc_rax c)]> (<[3%nat := SZ (tc_rdx c)]> (<[5%nat := SZ (tc_rsi c)]> (<[6%nat := SZ (tc_rdi c)]> regs))).

Section system.
(** The data of the probes, and where the assembler put code and data. *)
Variable place : Z -> bool -> Placement.

Definition probe_table (generation : Z) (journaled : bool) : list Z :=
  if (generation =? SUPERVISOR_GENERATION) && journaled then journal_expected_records else [].

Definition concrete (data : Z) (v : sval) : Z := match v with SZ z => z | SD o => data + o end.

(** The frame of a trap; the stack pointer must be a number inside the stack. *)
Definition trap_frame (p : Placement) (pc : nat) (regs : list sval) (flags : Flags (option bool)) : option TrapFrameV1 :=
  f ← all_known flags;
  match map (concrete (pl_data p)) regs, regs !! 15%nat with
  | [a; b; c; d; bp; si; di; x8; x9; x10; x11; x12; x13; x14; x15; _], Some (SZ sp) =>
      if (USER_STACK <=? sp) && (sp <=? USER_STACK_TOP)
      then Some (mkTrapFrameV1 a b c d bp si di x8 x9 x10 x11 x12 x13 x14 x15 (pl_code p pc) USER_CODE_SELECTOR
                   (encode_flags f) sp USER_DATA_SELECTOR)
      else None
  | _, _ => None
  end.

(** ** Two tasks and the runtime *)

Record Pair := mkTasks { ps_runtime : KernelRuntime; ps_first : Task; ps_second : Task }.

Definition ps_task (p : Pair) (task : Z) : Task := if task =? SENDER_TASK_ID then ps_first p else ps_second p.

Definition ps_set (p : Pair) (kr : KernelRuntime) (task : Z) (t : Task) : Pair :=
  if task =? SENDER_TASK_ID then mkTasks kr t (ps_second p) else mkTasks kr (ps_first p) t.

Inductive Turn := Goes (p : Pair) | Ends (kr : KernelRuntime).

(** More instructions than any probe executes between two traps. *)
Definition TURN_FUEL : nat := 100.

(** The runtime's answer to a trap, as the kernel carries it out. *)
Definition answer (task : Z) (frame : TrapFrameV1) (root generation : Z) (kr : KernelRuntime) : option (KernelRuntime * bool) :=
  match kr_capture_trap task frame root generation kr with
  | (Ok _, kr) =>
      match kr_handle_trap task kr with
      | (Ok (OutExit _), kr) =>
          match kr_begin_teardown task kr with
          | (Ok _, kr) =>
              match kr_complete_teardown task kr with
              | (Ok next, kr) => Some (kr, is_none next)
              | _ => None
              end
          | _ => None
          end
      | (Ok _, kr) => Some (kr, false)
      | _ => None
      end
  | _ => None
  end.

(** The task's probe from where it stands to its next event. *)
Definition advance_task (g : Z) (j : bool) (c : TaskContextV1) (t : Task) : option (Event * Task) :=
  let D := Symbolic (probe_table g j) in
  match run D (probe_program g j) TURN_FUEL (mkState (D:=D) (pt_pc t) (resumed c (pt_regs t)) (pt_flags t) (pt_stack t)) with
  | Some (ev, s) => Some (ev, mkTask (us_pc s) (us_regs s) (us_flags s) (us_memory s))
  | None => None
  end.

(** The running task up to its next trap, and the answer. *)
Definition turn (p : Pair) : option Turn :=
  let kr := ps_runtime p in
  task ← ok (running_task (kr_runtime kr));
  let slot := task_slot (kr_runtime kr) task in
  let g := ts_generation slot in
  let j := journaled_kind (kr_kind kr) in
  '(ev, t) ← advance_task g j (ts_context slot) (ps_task p task);
  if negb (ue_software ev && (ue_vector ev =? TASK_TRAP_VECTOR)
           && (pt_pc t <? length (instructions (probe_program g j)))%nat) then None else
  frame ← trap_frame (place g j) (pt_pc t) (pt_regs t) (pt_flags t);
  '(kr, ended) ← answer task frame (tc_root (ts_context slot)) g kr;
  Some (if (ended : bool) then Ends kr else Goes (ps_set p kr task t)).

Fixpoint turns (fuel : nat) (p : Pair) : option KernelRuntime :=
  match fuel with
  | O => None
  | S fuel =>
      match turn p with
      | Some (Goes p) => turns fuel p
      | Some (Ends kr) => Some kr
      | None => None
      end
  end.
End system.
