(* ===== verification/UserRun.v ===== *)
(** * The user programs on the kernel

    The symbolic runs carry over to the machine: each turn of the two tasks is a
    run of the probe in user mode followed by the kernel's answer to its trap.
    Together they take the kernel from its activation to the success code. *)

From Stdlib Require Import String.
From stdpp Require Import gmap.
From S2P Require Import Prelude.
From S2P Require Import RuntimeTypes.
From S2P Require Import Capability.
From S2P Require Import Runtime.
From S2P Require Import RuntimeOps.
From S2P Require Import Journal.
From S2P Require Import Journaled.
From S2P Require Import RuntimeInv.
From S2P Require Import RuntimeProgress.
From S2P Require Import Panic.
From S2P Require Import FrameAllocator.
From S2P Require Import Extents.
From S2P Require Import FrameInit.
From S2P Require Import FrameReturns.
From S2P Require Import AddressSpace.
From S2P Require Import AddressSpaceProofs.
From S2P Require Import AddressSpaceTheorems.
From S2P Require Import PageTables.
From S2P Require Import PageTablesProofs.
From S2P Require Import PageTablesTheorems.
From S2P Require Import KernelBackend.
From S2P Require Import KernelBackendProofs.
From S2P Require Import KernelSpaces.
From S2P Require Import KernelSpacesTheorems.
From S2P Require Import KernelDescriptors.
From S2P Require Import KernelDescriptorsProofs.
From S2P Require Import KernelScheduler.
From S2P Require Import KernelRuntimeProofs.
From S2P Require Import KernelInvariant.
From S2P Require Import KernelRun.
From S2P Require Import KernelTheorems.
From S2P Require Import UserProbes.

#[local] Open Scope string_scope.
#[local] Open Scope Z_scope.

Lemma of_option_Done {A} (o : option A) v : of_option o = Done v -> o = Some v.
Proof. destruct o; [|done]. by intros [= ->]. Qed.

Lemma bind_Done {A B} (x : Access A) a (f : A -> Access B) : x = Done a -> access_bind x f = f a.
Proof. by intros ->. Qed.

Lemma lookup_map {A B} (f : A -> B) (l : list A) i x : l !! i = Some x -> map f l !! i = Some (f x).
Proof. revert i. induction l as [|y l IH]; intros [|i]; [done..| |]; [by intros [= ->]|apply IH]. Qed.

(** ** The machine carries out what the symbolic run computes *)

Section machine.
Variables (linkage : Linkage) (probes : ProbeSymbols).
Hypothesis linkage_fits : linkage_ok linkage.
Hypothesis layout : image_layout linkage probes.
Variables (mb m : Machine) (j : bool) (g : Z) (fs : list OwnedFrame) (fss : list (list OwnedFrame)).
Hypothesis account : accounted linkage mb m fss.
Hypothesis out : fs ∈ fss.
Hypothesis task_space : space linkage probes m j g fs.
Variables (place : Placement) (table : list Z).

(** The data lies in the text, and the text holds it. *)
Record data_placed : Prop := {
  dp_low : USER_TEXT <= pl_data place;
  dp_high : pl_data place + 8 * Z.of_nat (length table) <= USER_TEXT + PAGE_SIZE;
  dp_aligned : pl_data place mod 8 = 0;
  dp_words : forall i x, table !! i = Some x ->
    read_word (km_words m) (frame_of fs Text + (pl_data place + 8 * Z.of_nat i - USER_TEXT)) = x
}.
Hypothesis data : table <> [] -> data_placed.

Notation root := (frame_of fs Root).
Notation Machine64 := (Words64 place root).
Notation Symbols := (Symbolic table).
Notation value := (concrete (pl_data place)).

(** Memory differs from the start only in the stack. *)
Definition stack_only (w : Words) : Prop :=
  forall a, ~ in_frame (frame_of fs Stack) a -> read_word w a = read_word (km_words m) a.

Lemma stack_only_writes w : stack_only w -> user_writes root (km_words m) w.
Proof.
  intros Hw a Ha. pose proof task_space as [Hall Ho _].
  assert (Hin : in_frame (frame_of fs Stack) a) by (destruct (decide (in_frame (frame_of fs Stack) a)) as [|Hn]; [done|by destruct Ha; apply Hw]).
  assert (Hu : u64 USER_STACK) by (by vm_compute). assert (Hc : is_canonical_48 USER_STACK = true) by (by vm_compute).
  pose proof (space_translates linkage m fs _ Ho Hall USER_STACK Hu Hc) as Ht.
  change (in_page USER_TEXT USER_STACK) with false in Ht. change (in_page USER_STACK USER_STACK) with true in Ht.
  by exists USER_STACK, (mkTranslation (frame_of fs Stack) true true true).
Qed.

Lemma stack_only_space w : stack_only w -> space linkage probes (set_words m w) j g fs.
Proof.
  intros Hw. apply (proj1 (proj2 (user_writes_accounted linkage probes linkage_fits layout mb m j g fs fss w account out task_space
    (stack_only_writes w Hw)))).
Qed.

Lemma page_translate w va :
  stack_only w -> u64 va -> is_canonical_48 va = true ->
  translate w root va =
  if in_page USER_TEXT va then Some (mkTranslation (frame_of fs Text) false true false)
  else if in_page USER_STACK va then Some (mkTranslation (frame_of fs Stack) true true true)
  else if bool_decide (pml4_index va ∈ SHARED_PML4_INDICES) then translate w (rs_root (km_recovery m)) va else None.
Proof.
  intros Hw Hu Hc. pose proof (stack_only_space w Hw) as [Hall Ho _].
  exact (space_translates linkage (set_words m w) fs _ Ho Hall va Hu Hc).
Qed.

(** An address of one of the two user pages. *)
Lemma user_va va : USER_TEXT <= va < USER_STACK_TOP -> u64 va /\ is_canonical_48 va = true.
Proof.
  intros Hva. assert (H : 0 <= va < 2 ^ 47).
  { change (2 ^ 47) with 140737488355328. change USER_TEXT with 549760008192 in Hva. change USER_STACK_TOP with 549764206592 in Hva. lia. }
  split; [split; [lia|]; change (2 ^ 64) with 18446744073709551616; change (2 ^ 47) with 140737488355328 in H; lia|].
  unfold is_canonical_48. rewrite !Z.shiftr_div_pow2, (Z.div_small va (2 ^ 47)), (Z.div_small va (2 ^ 48)) by lia. done.
Qed.

Lemma in_stack_spec va : in_stack va = true -> USER_STACK <= va < USER_STACK_TOP /\ va mod 8 = 0.
Proof. unfold in_stack. intros H. b2p. lia. Qed.

(** Where the words of the two pages are. *)
Lemma stack_physical w write va :
  stack_only w -> USER_STACK <= va < USER_STACK_TOP ->
  user_physical root w write va = Done (frame_of fs Stack + (va - USER_STACK)).
Proof.
  intros Hw Hva. destruct (user_va va) as [Hu Hc]; [change USER_TEXT with 549760008192; change USER_STACK with 549764202496 in Hva; lia|].
  unfold user_physical. rewrite Hc, (page_translate w va Hw Hu Hc). cbn [negb].
  assert (Ht : in_page USER_TEXT va = false).
  { unfold in_page. change USER_TEXT with 549760008192. change PAGE_SIZE with 4096. change USER_STACK with 549764202496 in Hva.
    apply andb_false_iff. right. apply Z.ltb_ge. lia. }
  assert (Hs : in_page USER_STACK va = true).
  { unfold in_page. rewrite andb_true_iff, Z.leb_le, Z.ltb_lt. exact Hva. }
  rewrite Ht, Hs. cbn [tr_user tr_writable tr_frame andb]. rewrite orb_true_r. do 2 f_equal.
  change USER_STACK_TOP with 549764206592 in Hva. change USER_STACK with 549764202496 in *. change PAGE_SIZE with 4096.
  rewrite <-(Z.mod_small (va - 549764202496) 4096) by lia. change 549764202496 with (134219776 * 4096). by rewrite <-(Z_mod_plus_full (va - 134219776 * 4096) 134219776), Z.sub_add.
Qed.

Lemma text_physical w va :
  stack_only w -> USER_TEXT <= va < USER_TEXT + PAGE_SIZE ->
  user_physical root w false va = Done (frame_of fs Text + (va - USER_TEXT)).
Proof.
  intros Hw Hva. destruct (user_va va) as [Hu Hc].
  { change USER_STACK_TOP with 549764206592. change PAGE_SIZE with 4096 in Hva. change USER_TEXT with 549760008192 in *. lia. }
  unfold user_physical. rewrite Hc, (page_translate w va Hw Hu Hc). cbn [negb].
  assert (Ht : in_page USER_TEXT va = true) by (unfold in_page; rewrite andb_true_iff, Z.leb_le, Z.ltb_lt; exact Hva).
  rewrite Ht. cbn [tr_user tr_writable tr_frame andb orb negb]. do 2 f_equal.
  change PAGE_SIZE with 4096 in *. change USER_TEXT with 549760008192 in *.
  rewrite <-(Z.mod_small (va - 549760008192) 4096) by lia. change 549760008192 with (134218752 * 4096). by rewrite <-(Z_mod_plus_full (va - 134218752 * 4096) 134218752), Z.sub_add.
Qed.

(** *** Values, flags and memory *)

Definition stack_holds (st : Stack_words) (w : Words) : Prop :=
  forall va v, in_stack va = true -> stack_get st va = Some v -> read_word w (frame_of fs Stack + (va - USER_STACK)) = v.

Definition memory_rel (st : Stack_words) (w : Words) : Prop := stack_only w /\ stack_holds st w.

Definition bit_rel (s : option bool) (b : bool) : Prop := forall x, s = Some x -> b = x.

Definition flags_rel (s : Flags (option bool)) (f : Flags bool) : Prop :=
  bit_rel (fl_cf s) (fl_cf f) /\ bit_rel (fl_pf s) (fl_pf f) /\ bit_rel (fl_af s) (fl_af f) /\
  bit_rel (fl_zf s) (fl_zf f) /\ bit_rel (fl_sf s) (fl_sf f) /\ bit_rel (fl_of s) (fl_of f).

Lemma known_rel f : flags_rel (known f) f.
Proof. unfold flags_rel, bit_rel, known. cbn. split_and!; congruence. Qed.

Lemma load_sim st w a v :
  memory_rel st w -> sym_load table st a = Done v -> user_load root w (value a) = Done (value v).
Proof.
  intros [Hw Hst] Hl. unfold sym_load in Hl. unfold user_load. destruct a as [va|o]; cbn [concrete].
  - destruct (in_stack va) eqn:Hin; [|done]. destruct (stack_get st va) as [x|] eqn:Hx; [|done]. injection Hl as <-.
    destruct (in_stack_spec va Hin) as [Hva Hal]. unfold is_multiple_of. rewrite Hal, (stack_physical w false va Hw Hva).
    cbn. f_equal. by apply Hst.
  - destruct (in_table table o && _) eqn:Hin; [|done]. b2p. destruct Hin as [Hin Hal].
    destruct (table !! Z.to_nat (o / 8)) as [x|] eqn:Hx; [|done]. injection Hl as <-.
    pose proof (lookup_lt_Some _ _ _ Hx) as Hlt. unfold in_table in Hin. b2p. destruct Hin as [[Ho _] Hne].
    pose proof (Z.div_mod o 8 ltac:(lia)) as Hdiv. pose proof (Z.div_pos o 8 Ho ltac:(lia)) as Hd.
    destruct data as [Hlow Hhigh Hpal Hwords]; [by intros ->|].
    assert (Hoff : o = 8 * Z.of_nat (Z.to_nat (o / 8))) by lia.
    assert (Hva : USER_TEXT <= pl_data place + o < USER_TEXT + PAGE_SIZE) by lia.
    unfold is_multiple_of. rewrite <-Z.add_mod_idemp_l, Hpal, <-Z.add_mod_idemp_r, Hal by lia. cbn [Z.add Z.modulo Z.div_eucl Z.eqb negb].
    change (negb (0 mod 8 =? 0)) with false. cbv iota. rewrite (text_physical w _ Hw Hva). cbn [access_bind]. f_equal.
    rewrite Hw; [rewrite Hoff; by apply Hwords|]. pose proof task_space as [Hall Hown _].
    apply (frames_disjoint fs (mkFrame Stack (frame_of fs Stack)) (mkFrame Text (frame_of fs Text))); [apply Hown|..|done|].
    + by apply find_role_elem, frame_of_Some.
    + by apply find_role_elem, frame_of_Some.
    + unfold in_frame. cbn [of_physical_start]. page_unfold. change (AddressSpace.PAGE_SIZE) with 4096 in *. lia.
Qed.

Lemma store_sim st w a v st' :
  memory_rel st w -> sym_store st a v = Done st' ->
  exists w', user_store root w (value a) (value v) = Done w' /\ memory_rel st' w'.
Proof.
  intros [Hw Hst] Hs. unfold sym_store in Hs. destruct a as [va|], v as [z|]; try done. cbn [concrete].
  destruct (in_stack va) eqn:Hin; [|done]. injection Hs as <-. destruct (in_stack_spec va Hin) as [Hva Hal].
  unfold user_store, is_multiple_of. rewrite Hal, (stack_physical w true va Hw Hva). cbn [access_bind negb Z.eqb].
  eexists. split; [reflexivity|]. split.
  - intros a Ha. unfold write_word, read_word. rewrite lookup_insert_ne; [by apply Hw|]. intros <-. apply Ha.
    unfold in_frame. page_unfold. change USER_STACK_TOP with (USER_STACK + 4096) in Hva. lia.
  - intros va' v Hin' Hg. cbn [stack_get] in Hg. unfold write_word, read_word.
    destruct (Z.eqb_spec va va') as [->|Hn]; [injection Hg as ->; by rewrite lookup_insert_eq|].
    rewrite lookup_insert_ne by lia. by apply Hst.
Qed.

Lemma table_range o : in_table table o = true -> 0 <= pl_data place + o < 2 ^ 64.
Proof.
  unfold in_table. intros H. b2p. destruct data as [Hlow Hhigh _ _]; [by intros ->; cbn in H; lia|]. change (2 ^ 64) with 18446744073709551616.
  change USER_TEXT with 549760008192 in *. change PAGE_SIZE with 4096 in *. lia.
Qed.

Lemma offset_sim v z v' : d_offset Symbols v z = Done v' -> (value v + z) mod 2 ^ 64 = value v'.
Proof.
  destruct v as [x|o]; cbn; [by intros [= <-]|]. destruct (in_table table (o + z)) eqn:Hin; [|done]. intros [= <-].
  cbn [concrete]. rewrite <-Z.add_assoc. apply Z.mod_small. by apply table_range.
Qed.

Lemma low_sim v v' : d_low Symbols v = Done v' -> value v mod 2 ^ 32 = value v'.
Proof. destruct v; [|done]. by intros [= <-]. Qed.

Lemma sub_sim n a b f : d_sub Symbols n a b = Done f -> flags_rel f (sub_flags n (value a) (value b)).
Proof. destruct a, b; try done. intros [= <-]. apply known_rel. Qed.

Lemma add_sim n a b v f :
  d_add Symbols n a b = Done (v, f) ->
  fst (add_flags n (value a) (value b)) = value v /\ flags_rel f (snd (add_flags n (value a) (value b))).
Proof.
  destruct a as [x|o], b as [y|]; cbn [d_add Symbolic sym_add]; try done.
  - intros [= <- <-]. split; [done|apply known_rel].
  - destruct ((n =? 64) && in_table table (o + y)) eqn:Hin; [|done]. b2p. destruct Hin as [-> Hin]. intros [= <- <-].
    pose proof (table_range _ Hin) as Hr. unfold add_flags. cbn [fst snd concrete]. rewrite <-Z.add_assoc. split; [by apply Z.mod_small|].
    unfold flags_rel, bit_rel, result_flags. cbn [fl_cf fl_pf fl_af fl_zf fl_sf fl_of]. split_and!; try done.
    intros x [= <-]. apply Z.leb_gt. lia.
Qed.

Lemma xor_sim n a b v f :
  d_xor Symbols n a b = Done (v, f) ->
  fst (xor_flags n (value a) (value b)) = value v /\ flags_rel f (snd (xor_flags n (value a) (value b))).
Proof. destruct a, b; try done. intros [= <- <-]. split; [done|apply known_rel]. Qed.

(** *** States and instructions *)

Record state_rel (s : State Symbols) (c : State Machine64) : Prop := {
  sr_pc : us_pc c = us_pc s;
  sr_regs : us_regs c = map value (us_regs s);
  sr_flags : flags_rel (us_flags s) (us_flags c);
  sr_memory : memory_rel (us_memory s) (us_memory c)
}.

Lemma get_sim s c r v : state_rel s c -> get Symbols s r = Done v -> get Machine64 c r = Done (value v).
Proof.
  intros [_ Hr _ _] Hg%of_option_Done. unfold get. rewrite Hr. by rewrite (lookup_map _ _ _ _ Hg).
Qed.

Lemma set_reg_sim s c r v : state_rel s c -> state_rel (set_reg Symbols s r v) (set_reg Machine64 c r (value v)).
Proof. intros [H1 H2 H3 H4]. split; try done. cbn [us_regs set_reg]. rewrite H2. symmetry. apply list_fmap_insert. Qed.

Lemma address_sim s c r o v : state_rel s c -> address_of Symbols s r o = Done v -> address_of Machine64 c r o = Done (value v).
Proof.
  intros Hs Ha. unfold address_of in *. destruct (get Symbols s r) as [x| |] eqn:Hg; [|done..].
  rewrite (get_sim s c r x Hs Hg). cbn [access_bind] in *. cbn [d_offset Words64]. f_equal. by apply offset_sim.
Qed.

Lemma read_sim s c o v : state_rel s c -> read_operand Symbols s o = Done v -> read_operand Machine64 c o = Done (value v).
Proof.
  intros Hs Hr. destruct o as [r|r|z|r off]; cbn [read_operand] in *.
  - by apply get_sim with s.
  - destruct (get Symbols s r) as [x| |] eqn:Hg; [|done..]. rewrite (get_sim s c r x Hs Hg). cbn [access_bind] in *.
    cbn [d_low Words64]. f_equal. by apply low_sim.
  - by injection Hr as <-.
  - destruct (address_of Symbols s r off) as [a| |] eqn:Ha; [|done..]. rewrite (address_sim s c r off a Hs Ha). cbn [access_bind] in *.
    cbn [d_load Words64]. apply load_sim with (us_memory s); [apply Hs|done].
Qed.

Lemma write_sim s c o v s' :
  state_rel s c -> write_operand Symbols s o v = Done s' ->
  exists c', write_operand Machine64 c o (value v) = Done c' /\ state_rel s' c'.
Proof.
  intros Hs Hr. destruct o as [r|r|z|r off]; cbn [write_operand] in *.
  - injection Hr as <-. eexists. split; [reflexivity|]. by apply set_reg_sim.
  - destruct (d_low Symbols v) as [x| |] eqn:Hl; [|done..]. injection Hr as <-. cbn [d_low Words64 access_bind].
    eexists. split; [reflexivity|]. rewrite (low_sim v x Hl). by apply set_reg_sim.
  - done.
  - destruct (address_of Symbols s r off) as [a| |] eqn:Ha; [|done..]. rewrite (address_sim s c r off a Hs Ha). cbn [access_bind] in *.
    destruct (d_store Symbols (us_memory s) a v) as [m'| |] eqn:Hst; [|done..]. injection Hr as <-.
    destruct (store_sim _ (us_memory c) a v m' (sr_memory _ _ Hs) Hst) as (w' & Hw & Hm).
    cbn [d_store Words64]. rewrite Hw. cbn [access_bind]. eexists. split; [reflexivity|]. destruct Hs as [H1 H2 H3 H4]. by split.
Qed.

Definition step_rel (s : Step Symbols) (c : Step Machine64) : Prop :=
  match s, c with
  | Continue s, Continue c => state_rel s c
  | Raise software vector code s, Raise software' vector' code' c =>
      software' = software /\ vector' = vector /\ code' = code /\ state_rel s c
  | _, _ => False
  end.

Lemma advance_sim s c : state_rel s c -> state_rel (advance Symbols s) (advance Machine64 c).
Proof. intros [H1 H2 H3 H4]. split; try done. cbn. by rewrite H1. Qed.

Lemma set_flags_sim s c f f' : state_rel s c -> flags_rel f f' -> state_rel (set_flags Symbols s f) (set_flags Machine64 c f').
Proof. intros [H1 H2 H3 H4] Hf. by split. Qed.

Lemma goto_sim items s c name st :
  state_rel s c -> goto Symbols items s name = Done st -> exists ct, goto Machine64 items c name = Done ct /\ step_rel st ct.
Proof.
  intros [H1 H2 H3 H4] Hg. unfold goto in *. destruct (label_index items name 0); [|done]. injection Hg as <-.
  eexists. split; [reflexivity|]. by split.
Qed.

Lemma test_sim s c z : state_rel s c -> d_test Symbols (fl_zf (us_flags s)) = Done z -> fl_zf (us_flags c) = z.
Proof. intros [_ _ (_ & _ & _ & Hz & _) _] Ht%of_option_Done. by apply Hz. Qed.

(** A two-operand instruction that writes its result. *)
Lemma result_sim s c o v f s' c_v c_f :
  state_rel s c -> c_v = value v -> flags_rel f c_f -> write_operand Symbols s o v = Done s' ->
  exists c', write_operand Machine64 c o c_v = Done c' /\ state_rel s' c' /\
    state_rel (advance Symbols (set_flags Symbols s' f)) (advance Machine64 (set_flags Machine64 c' c_f)).
Proof.
  intros Hs -> Hf Hw. destruct (write_sim s c o v s' Hs Hw) as (c' & Hc & Hs'). exists c'. split_and!; [done|done|].
  by apply advance_sim, set_flags_sim.
Qed.

(** The next access of the symbolic side, and its counterpart. *)
Ltac bind_in H x E :=
  match type of H with
  | access_bind ?m _ = Done _ => destruct m as [x| |] eqn:E; [cbn [access_bind] in H|discriminate H..]
  end.

Lemma execute_sim items i s c st :
  state_rel s c -> execute Symbols items i s = Done st ->
  exists ct, execute Machine64 items i c = Done ct /\ step_rel st ct.
Proof.
  intros Hs He. destruct i as [t o|t z|t o|o|t o|t|a b|t name|name|name|name|v| |]; cbn [execute] in *.
  - bind_in He v Ev. rewrite (read_sim _ _ _ _ Hs Ev). cbn [access_bind]. bind_in He s1 Ew.
    destruct (write_sim _ _ _ _ _ Hs Ew) as (c1 & -> & Hs1). injection He as <-. eexists. split; [reflexivity|]. by apply advance_sim.
  - destruct t; try done. by bind_in He a Ea.
  - bind_in He x Ex. bind_in He y Ey. rewrite (read_sim _ _ _ _ Hs Ex), (read_sim _ _ _ _ Hs Ey). cbn [access_bind].
    bind_in He r Er. destruct r as [v f]. destruct (xor_sim _ _ _ _ _ Er) as [Hv Hf]. bind_in He s1 Ew. injection He as <-.
    destruct (result_sim s c t v f s1 _ _ Hs Hv Hf Ew) as (c1 & Hc & _ & Hr). eexists. split; [exact (bind_Done _ _ _ Hc)|done].
  - bind_in He v Ev. rewrite (read_sim _ _ _ _ Hs Ev). cbn [access_bind]. bind_in He a Ea.
    rewrite (address_sim _ _ _ _ _ Hs Ea). cbn [access_bind]. bind_in He m' Em. injection He as <-.
    destruct (store_sim _ _ _ _ _ (sr_memory _ _ Hs) Em) as (w' & Hw & Hm). cbn [d_store Words64]. rewrite Hw. cbn [access_bind].
    eexists. split; [reflexivity|]. apply advance_sim, set_reg_sim. destruct Hs as [H1 H2 H3 H4]. by split.
  - bind_in He x Ex. bind_in He y Ey. rewrite (read_sim _ _ _ _ Hs Ex), (read_sim _ _ _ _ Hs Ey). cbn [access_bind].
    bind_in He r Er. destruct r as [v f]. destruct (add_sim _ _ _ _ _ Er) as [Hv Hf]. bind_in He s1 Ew. injection He as <-.
    destruct (result_sim s c t v f s1 _ _ Hs Hv Hf Ew) as (c1 & Hc & _ & Hr). eexists. split; [exact (bind_Done _ _ _ Hc)|done].
  - bind_in He x Ex. rewrite (read_sim _ _ _ _ Hs Ex). cbn [access_bind].
    bind_in He r Er. destruct r as [v f]. destruct (add_sim _ _ _ _ _ Er) as [Hv Hf]. bind_in He s1 Ew. injection He as <-.
    destruct (result_sim s c t v f s1 _ _ Hs Hv Hf Ew) as (c1 & Hc & Hs1 & _). eexists. split; [exact (bind_Done _ _ _ Hc)|]. apply advance_sim, set_flags_sim; [done|].
    destruct (sr_flags _ _ Hs1) as (Hcf & _). destruct Hf as (_ & ? & ? & ? & ? & ?). by split_and!.
  - bind_in He x Ex. bind_in He y Ey. rewrite (read_sim _ _ _ _ Hs Ex), (read_sim _ _ _ _ Hs Ey). cbn [access_bind].
    bind_in He f Ef. injection He as <-. eexists. split; [reflexivity|]. apply advance_sim, set_flags_sim; [done|]. by apply sub_sim.
  - cbn [d_label Symbolic access_bind] in He. bind_in He s1 Ew. injection He as <-.
    destruct (write_sim _ _ _ _ _ Hs Ew) as (c1 & Hc & Hs1). cbn [concrete] in Hc. rewrite Z.add_0_r in Hc.
    eexists. split; [exact (bind_Done _ _ _ Hc)|]. by apply advance_sim.
  - bind_in He z Ez. cbn [d_test Words64 access_bind]. rewrite (test_sim _ _ _ Hs Ez). destruct z; [by eapply goto_sim|].
    injection He as <-. eexists. split; [reflexivity|]. by apply advance_sim.
  - bind_in He z Ez. cbn [d_test Words64 access_bind]. rewrite (test_sim _ _ _ Hs Ez). destruct z; [|by eapply goto_sim].
    injection He as <-. eexists. split; [reflexivity|]. by apply advance_sim.
  - by eapply goto_sim.
  - injection He as <-. eexists. split; [reflexivity|]. split_and!; try done. by apply advance_sim.
  - injection He as <-. eexists. split; [reflexivity|]. by split_and!.
  - injection He as <-. eexists. split; [reflexivity|]. by split_and!.
Qed.

(** A run to an interrupt instruction. *)
Lemma run_sim items fuel s c ev s' :
  state_rel s c -> run Symbols items fuel s = Some (ev, s') -> ue_software ev = true ->
  exists c', run Machine64 items fuel c = Some (ev, c') /\ state_rel s' c'.
Proof.
  revert s c. induction fuel as [|fuel IH]; intros s c Hs Hr Hsw; [done|]. cbn [run] in *.
  destruct (step Symbols items s) as [st| |] eqn:Est; [|by injection Hr as <- _|done].
  assert (exists ct, step Machine64 items c = Done ct /\ step_rel st ct) as (ct & -> & Hst).
  { unfold step in *. rewrite (sr_pc _ _ Hs). bind_in Est i Ei. cbn [access_bind]. by eapply execute_sim. }
  destruct st as [s1|sw v code s1], ct as [c1|sw' v' code' c1]; try done; cbn [step_rel] in Hst.
  - by eapply IH.
  - destruct Hst as (-> & -> & -> & Hst). injection Hr as <- <-. by exists c1.
Qed.
End machine.

(** ** A task between its traps *)

Lemma decode_encode f : decode_flags (encode_flags f) = f.
Proof. destruct f as [[] [] [] [] [] []]; by vm_compute. Qed.

Lemma encode_policy f : Z.land (encode_flags f) 2 =? 0 = false /\ Z.land (encode_flags f) FORBIDDEN_RFLAGS = 0.
Proof. destruct f as [[] [] [] [] [] []]; by vm_compute. Qed.

Lemma all_known_rel s f f' : all_known s = Some f -> flags_rel s f' -> f' = f.
Proof.
  destruct s as [[a|] [b|] [c|] [d|] [g|] [h|]]; try done. intros [= <-] (H1 & H2 & H3 & H4 & H5 & H6). destruct f' as [? ? ? ? ? ?].
  cbn in *. f_equal; auto.
Qed.

Lemma all_known_flags s f : all_known s = Some f -> flags_rel s f.
Proof.
  destruct s as [[a|] [b|] [c|] [d|] [g|] [h|]]; try done. intros [= <-]. unfold flags_rel, bit_rel. cbn. split_and!; congruence.
Qed.

(** Where the assembler put a probe. *)
Record code_placed (p : Placement) (items : list ProbeItem) : Prop := {
  cp_start : pl_code p 0 = USER_TEXT;
  cp_range : forall i, (i < length (instructions items))%nat -> USER_TEXT <= pl_code p i < USER_TEXT + PAGE_SIZE;
  cp_distinct : forall i i', (i < length (instructions items))%nat -> (i' < length (instructions items))%nat ->
    pl_code p i = pl_code p i' -> i = i'
}.

Lemma fetch_code p items pc :
  code_placed p items -> (pc < length (instructions items))%nat -> fetch p items (pl_code p pc) = Some pc.
Proof.
  intros [_ _ Hd] Hpc. unfold fetch. assert (H : list_find (fun i => pl_code p i = pl_code p pc) (seq 0 (length (instructions items))) = Some (pc, pc)).
  { apply list_find_Some. split_and!; [by apply lookup_seq|done|]. intros i y Hy Hlt Hc. apply lookup_seq in Hy as [-> Hy].
    apply Hd in Hc; lia. }
  by rewrite H.
Qed.

Section tasks.
Variable place : Z -> bool -> Placement.

(** The saved context of a task, and its stack, are what its symbolic run says. *)
Record task_rel (t : Task) (c : TaskContextV1) (g : Z) (j : bool) (fs : list OwnedFrame) (w : Words) : Prop := {
  tl_rip : tc_rip c = pl_code (place g j) (pt_pc t);
  tl_pc : (pt_pc t < length (instructions (probe_program g j)))%nat;
  tl_regs : map (concrete (pl_data (place g j))) (resumed c (pt_regs t)) = (context_gprs c ++ [tc_rsp c])%list;
  tl_flags : exists f, all_known (pt_flags t) = Some f /\ tc_rflags c = encode_flags f;
  tl_stack : stack_holds fs (pt_stack t) w
}.

(** Only what a trap cannot write matters. *)
Lemma task_rel_identity t c c' g j fs w :
  context_set_regs c' 0 0 0 0 = context_set_regs c 0 0 0 0 -> task_rel t c g j fs w -> task_rel t c' g j fs w.
Proof.
  intros Hid [H1 H2 H3 H4 H5]. destruct c, c'. unfold context_set_regs in Hid. cbn in Hid. injection Hid as -> -> -> -> -> -> -> -> -> -> -> -> -> -> -> -> -> -> ->.
  split; try done. destruct (pt_regs t) as [|x0 [|x1 [|x2 [|x3 [|x4 [|x5 [|x6 [|x7 [|x8 [|x9 [|x10 [|x11 [|x12 [|x13 [|x14 [|x15 [|]]]]]]]]]]]]]]]]];
    try discriminate H3. cbn in H3 |- *. injection H3 as E1 E2 E4 E7 E8 E9 E10 E11 E12 E13 E14 E15. by f_equal; congruence.
Qed.

Lemma task_rel_words t c g j fs w w' :
  (forall a, in_frame (frame_of fs Stack) a -> read_word w' a = read_word w a) -> task_rel t c g j fs w -> task_rel t c g j fs w'.
Proof.
  intros Hw [H1 H2 H3 H4 H5]. split; try done. intros va v Hin Hg. rewrite Hw; [by apply H5|].
  destruct (in_stack_spec va Hin) as [Hva _]. unfold in_frame. page_unfold. change USER_STACK_TOP with (USER_STACK + 4096) in Hva. lia.
Qed.

(** What a trap frame is made of. *)
Lemma trap_frame_inv p pc regs flags frame :
  trap_frame p pc regs flags = Some frame ->
  exists a b c d bp si di x8 x9 x10 x11 x12 x13 x14 x15 sp f,
    regs = [a; b; c; d; bp; si; di; x8; x9; x10; x11; x12; x13; x14; x15; SZ sp] /\ all_known flags = Some f /\
    USER_STACK <= sp <= USER_STACK_TOP /\
    let v := concrete (pl_data p) in
    frame = mkTrapFrameV1 (v a) (v b) (v c) (v d) (v bp) (v si) (v di) (v x8) (v x9) (v x10) (v x11) (v x12) (v x13) (v x14) (v x15)
      (pl_code p pc) USER_CODE_SELECTOR (encode_flags f) sp USER_DATA_SELECTOR.
Proof.
  unfold trap_frame. destruct (all_known flags) as [f|]; [|done]. cbn [mbind option_bind].
  destruct regs as [|x0 [|x1 [|x2 [|x3 [|x4 [|x5 [|x6 [|x7 [|x8 [|x9 [|x10 [|x11 [|x12 [|x13 [|x14 [|x15 [|]]]]]]]]]]]]]]]]]; try done.
  cbn [map lookup list_lookup]. destruct x15 as [sp|]; [|done]. destruct (_ && _) eqn:E; [|done]. b2p. intros [= <-].
  by exists x0, x1, x2, x3, x4, x5, x6, x7, x8, x9, x10, x11, x12, x13, x14, sp, f.
Qed.

Lemma trap_frame_saved p root pc regs flags frame (c : State (Words64 p root)) :
  trap_frame p pc regs flags = Some frame -> us_pc c = pc -> us_regs c = map (concrete (pl_data p)) regs ->
  flags_rel flags (us_flags c) -> saved_frame p root c = frame.
Proof.
  intros (a & b & c' & d & bp & si & di & x8 & x9 & x10 & x11 & x12 & x13 & x14 & x15 & sp & f & -> & Hf & _ & ->)%trap_frame_inv Hpc Hr Hfl.
  unfold saved_frame. rewrite Hr, Hpc, (all_known_rel _ _ _ Hf Hfl). done.
Qed.

Lemma trap_frame_policy p items pc regs flags frame task g root :
  trap_frame p pc regs flags = Some frame -> code_placed p items -> (pc < length (instructions items))%nat ->
  g <> 0 -> root <> 0 -> root mod 4096 = 0 ->
  context_ok (context_from_trap frame task g root) task g root = true.
Proof.
  intros (a & b & c' & d & bp & si & di & x8 & x9 & x10 & x11 & x12 & x13 & x14 & x15 & sp & f & _ & _ & Hsp & ->)%trap_frame_inv
    [_ Hr _] Hpc Hg Hz Hal. specialize (Hr pc Hpc). destruct (encode_policy f) as [He1 He2].
  unfold context_ok, context_validate, context_from_trap. cbn [tc_task_id tc_generation tc_root tc_rip tc_rsp tc_cs tc_ss tc_rflags
    tf_rip tf_rsp tf_cs tf_ss tf_rflags].
  assert (Hc1 : RuntimeTypes.is_canonical_48 (pl_code p pc) = true).
  { apply (user_va (pl_code p pc)). change USER_STACK_TOP with 549764206592. change PAGE_SIZE with 4096 in Hr. change USER_TEXT with 549760008192 in *. lia. }
  assert (Hc2 : RuntimeTypes.is_canonical_48 sp = true).
  { destruct (decide (sp = USER_STACK_TOP)) as [->|]; [by vm_compute|]. apply (user_va sp).
    change USER_TEXT with 549760008192. change USER_STACK with 549764202496 in *. lia. }
  rewrite !Z.eqb_refl, Hc1, Hc2, He1, He2, (proj2 (Z.eqb_neq _ _) Hg), (proj2 (Z.eqb_neq _ _) Hz).
  unfold is_multiple_of. rewrite Hal. cbn [negb orb Z.eqb task_context_policy cp_text_start cp_text_end cp_stack_start cp_stack_end cp_user_code cp_user_data].
  rewrite (proj2 (Z.ltb_ge (pl_code p pc) USER_TEXT)), (proj2 (Z.leb_gt (USER_TEXT + PAGE_SIZE) (pl_code p pc))) by lia.
  rewrite (proj2 (Z.ltb_ge sp USER_STACK)), (proj2 (Z.ltb_ge USER_STACK_TOP sp)) by lia. done.
Qed.

Lemma trap_frame_rel pc regs flags frame st task g j root fs w :
  trap_frame (place g j) pc regs flags = Some frame -> (pc < length (instructions (probe_program g j)))%nat ->
  stack_holds fs st w -> task_rel (mkTask pc regs flags st) (context_from_trap frame task g root) g j fs w.
Proof.
  intros (a & b & c' & d & bp & si & di & x8 & x9 & x10 & x11 & x12 & x13 & x14 & x15 & sp & f & -> & Hf & Hsp & ->)%trap_frame_inv Hpc Hst.
  split; try done. by exists f.
Qed.

(** A fresh task. *)
Lemma fresh_rel g j task root fs w :
  code_placed (place g j) (probe_program g j) -> (0 < length (instructions (probe_program g j)))%nat ->
  task_rel fresh_task (initial_context task g root) g j fs w.
Proof.
  intros [Hs _ _] Hl. split; try done. by exists (decode_flags 2).
Qed.
End tasks.

(** ** The whole system *)

Section system.
Variables (linkage : Linkage) (probes : ProbeSymbols) (trampolines : Trampolines) (continuation_address : Z).
Variable place : Z -> bool -> Placement.
(** What the general registers hold when the isolation probe starts. *)
Variable leftover : list Z.

(** The probe in user mode. *)
Definition current_generation (k : Kernel) : Z :=
  match kn_task_runtime k with
  | None => TASK_GENERATION
  | Some kr => ts_generation (task_slot (kr_runtime kr) (kn_current_task k))
  end.

Definition current_journaled (k : Kernel) : bool :=
  match kn_task_runtime k with None => false | Some kr => journaled_kind (kr_kind kr) end.

(** From one entry of user mode to the next: the probe runs, the kernel answers. *)
Definition system_step (c : Control) : Control :=
  match c with
  | User e k =>
      let g := current_generation k in
      let j := current_journaled k in
      match user_run (place g j) (read_cr3 (kn_machine k)) TURN_FUEL (probe_program g j) leftover e (km_words (kn_machine k)) with
      | Some (ev, w) => on_event linkage probes trampolines continuation_address ev (with_machine (set_words (kn_machine k) w) k)
      | None => c
      end
  | _ => c
  end.

Fixpoint system_run (n : nat) (c : Control) : Control :=
  match n with O => c | S n => system_run n (system_step c) end.

Lemma system_run_add n n' c : system_run (n + n') c = system_run n' (system_run n c).
Proof. revert c. induction n as [|n IH]; intros c; [done|]. apply IH. Qed.

(** What the assembler and the linker made of the probes. *)
Record assembled (w : Words) : Prop := {
  as_code : forall g j, g ∈ [1; 2; 3; 4; 5] -> code_placed (place g j) (probe_program g j);
  as_low : USER_TEXT <= pl_data (place SUPERVISOR_GENERATION true);
  as_high : pl_data (place SUPERVISOR_GENERATION true) + 8 * Z.of_nat (length journal_expected_records) <= USER_TEXT + PAGE_SIZE;
  as_aligned : pl_data (place SUPERVISOR_GENERATION true) mod 8 = 0;
  as_records : exists bytes, probe_bytes probes w SUPERVISOR_GENERATION true = Ok bytes /\
    forall i x, journal_expected_records !! i = Some x ->
      nth (Z.to_nat ((pl_data (place SUPERVISOR_GENERATION true) - USER_TEXT) / 8 + Z.of_nat i)) (image_words bytes) 0 = x
}.

Hypothesis linkage_fits : linkage_ok linkage.
Hypothesis layout : image_layout linkage probes.
Hypothesis stubs : trampolines_ok trampolines.
Variables (mb : Machine) (s0 : list string).
Hypothesis base : base_ok linkage probes mb.
Hypothesis probes_assembled : assembled (km_words mb).
Notation running := (running linkage probes trampolines mb s0).
Notation scheduling := (scheduling linkage probes trampolines mb s0).

(** The text of a task is the probe of its generation. *)
Lemma text_data m fss j g fs bytes i :
  accounted linkage mb m fss -> space linkage probes m j g fs -> probe_bytes probes (km_words mb) g j = Ok bytes -> index_ok i ->
  read_word (km_words m) (entry_address (frame_of fs Text) i) = nth (Z.to_nat i) (image_words bytes) 0.
Proof.
  intros Ha [Hall Ho _] Hb Hi.
  assert (Hd : text_only (user_data probes (set_probes j m) g) Text = Some (fun i => nth (Z.to_nat i) (image_words bytes) 0)).
  { unfold text_only. rewrite bool_decide_eq_true_2 by done. unfold user_data. cbn [km_words km_journaled_probes set_probes].
    rewrite (probe_bytes_agree linkage probes linkage_fits layout (km_words mb)); [by rewrite Hb|].
    intros a Hx. apply (accounted_image linkage probes mb base m fss a Ha). destruct layout as [Hs _ _ _ _]. unfold in_image. lia. }
  exact (on_data _ _ _ _ _ _ Ho (mkFrame Text (frame_of fs Text)) _ i (find_role_elem _ _ _ (frame_of_Some fs Hall Text)) eq_refl Hd Hi).
Qed.

Lemma data_ok m fss j g fs :
  accounted linkage mb m fss -> space linkage probes m j g fs -> probe_table g j <> [] ->
  data_placed m fs (place g j) (probe_table g j).
Proof.
  intros Ha Hsp. unfold probe_table. destruct ((g =? SUPERVISOR_GENERATION) && j) eqn:E; [|done]. b2p. destruct E as [-> ->]. intros _.
  destruct probes_assembled as [_ Hlow Hhigh Hal (bytes & Hb & Hrec)]. split; try done. intros i x Hx.
  pose proof (lookup_lt_Some _ _ _ Hx) as Hlt. rewrite <-(Hrec i x Hx). set (d := pl_data _) in *.
  assert (Hq : d - USER_TEXT = 8 * ((d - USER_TEXT) / 8)).
  { apply Z.div_exact; [done|]. rewrite Zminus_mod, Hal. by vm_compute. }
  rewrite <-(text_data m fss true SUPERVISOR_GENERATION fs bytes ((d - USER_TEXT) / 8 + Z.of_nat i) Ha Hsp Hb).
  - unfold entry_address. f_equal. lia.
  - change PAGE_SIZE with 4096 in Hhigh. split; [apply Z.add_nonneg_nonneg; [apply Z.div_pos|]; lia|]. lia.
Qed.
(** A probe is the program of one of the five generations. *)
Lemma program_generation g j i : (i < length (instructions (probe_program g j)))%nat -> g ∈ [1; 2; 3; 4; 5].
Proof.
  intros Hi. destruct (decide (g ∈ [1; 2; 3; 4; 5])) as [|Hn]; [done|]. exfalso. rewrite !not_elem_of_cons in Hn.
  unfold probe_program, TASK_GENERATION, SENDER_GENERATION, RECEIVER_GENERATION, SUPERVISOR_GENERATION, WORKLOAD_GENERATION in Hi.
  rewrite !(proj2 (Z.eqb_neq g _)) in Hi by tauto. cbn in Hi. lia.
Qed.

(** The probe from the entry to its trap. *)
Lemma user_turn e k kr f task fs t ev t' frame :
  running e k kr f task fs ->
  let slot := task_slot (kr_runtime kr) task in
  let g := ts_generation slot in
  let j := journaled_kind (kr_kind kr) in
  task_rel place t (ts_context slot) g j fs (km_words (kn_machine k)) ->
  advance_task g j (ts_context slot) t = Some (ev, t') -> ue_software ev = true ->
  trap_frame (place g j) (pt_pc t') (pt_regs t') (pt_flags t') = Some frame ->
  exists w,
    user_run (place g j) (read_cr3 (kn_machine k)) TURN_FUEL (probe_program g j) leftover e (km_words (kn_machine k))
    = Some (mkUserEvent true (ue_vector ev) frame (ue_code ev) (ue_address ev), w) /\
    user_writes (read_cr3 (kn_machine k)) (km_words (kn_machine k)) w /\
    (forall a, ~ in_frame (frame_of fs Stack) a -> read_word w a = read_word (km_words (kn_machine k)) a) /\
    stack_holds fs (pt_stack t') w.
Proof.
  intros Hu slot g j [Hrip Hpc Hregs (fl & Hfl & Hrf) Hst] Hadv Hsw Hframe.
  destruct (running_alive _ _ _ _ _ _ _ _ _ _ _ Hu) as (Ht & _ & o & _ & _ & _ & Hsp & _).
  pose proof (running_root _ _ _ _ _ _ _ _ _ _ _ Hu) as Hroot. destruct Hu as [Hs Hrun Hf Hcur Hact Hcr He]. rewrite Hroot.
  pose proof (sg_account _ _ _ _ _ _ _ _ _ _ Hs) as Ha. pose proof (outs_elem f task fs Ht Hf) as Hout.
  set (m := settle (kn_machine k)) in *. change (km_words (kn_machine k)) with (km_words m) in *.
  unfold user_run. rewrite He. cbn [entry_of ue_rip ue_rsp ue_registers ue_rflags].
  fold slot. change (default leftover (Some (context_gprs (ts_context slot)))) with (context_gprs (ts_context slot)).
  pose proof (as_code _ probes_assembled g j (program_generation _ _ _ Hpc)) as Hcode.
  rewrite Hrip, (fetch_code _ _ _ Hcode Hpc). cbn [mbind option_bind].
  unfold advance_task in Hadv. destruct (run _ _ _ _) as [[ev' s']|] eqn:Hr; [|done]. injection Hadv as -> <-.
  cbn [pt_pc pt_regs pt_flags pt_stack] in *.
  destruct (run_sim linkage probes linkage_fits layout mb m j g fs (outs f) Ha Hout Hsp (place g j) (probe_table g j)
    (data_ok m (outs f) j g fs Ha Hsp) (probe_program g j) TURN_FUEL
    (mkState (D:=Symbolic (probe_table g j)) (pt_pc t) (resumed (ts_context slot) (pt_regs t)) (pt_flags t) (pt_stack t))
    (mkState (D:=Words64 (place g j) (frame_of fs Root)) (pt_pc t) (context_gprs (ts_context slot) ++ [tc_rsp (ts_context slot)])%list
       (decode_flags (tc_rflags (ts_context slot))) (km_words m)) ev s') as (c & Hc & Hrel); [|exact Hr|done|].
  { split; cbn [us_pc us_regs us_flags us_memory]; [done|by rewrite <-Hregs| |split; [by intros ? ?|done]].
    rewrite Hrf, decode_encode. by apply all_known_flags. }
  rewrite Hc. cbn [mbind option_bind]. destruct Hrel as [R1 R2 R3 [R4 R5]].
  rewrite (trap_frame_saved _ _ _ _ _ _ c Hframe R1 R2 R3), Hsw. exists (us_memory c). split_and!; [done| |done|done].
  by apply (stack_only_writes linkage probes m j g fs Hsp).
Qed.
(** ** Turns *)

(** Every task that exists is as its symbolic run says. *)
Definition tasks_rel (p : Pair) (f : Frames) (w : Words) : Prop :=
  forall t fs', valid_task t -> f t = Some fs' ->
    let slot := task_slot (kr_runtime (ps_runtime p)) t in
    task_rel place (ps_task p t) (ts_context slot) (ts_generation slot) (journaled_kind (kr_kind (ps_runtime p))) fs' w.

Record matched (p : Pair) (e : UserEntry) (k : Kernel) (f : Frames) (task : Z) (fs : list OwnedFrame) : Prop := {
  mt_running : running e k (ps_runtime p) f task fs;
  mt_tasks : tasks_rel p f (km_words (kn_machine k))
}.

Lemma ps_task_set (p : Pair) kr task (t : Task) t' :
  valid_task task -> valid_task t' -> ps_task (ps_set p kr task t) t' = if t' =? task then t else ps_task p t'.
Proof. by intros [-> | ->] [-> | ->]. Qed.

Lemma ps_set_runtime (p : Pair) kr task (t : Task) : ps_runtime (ps_set p kr task t) = kr.
Proof. unfold ps_set. by destruct (task =? SENDER_TASK_ID). Qed.

Lemma identity_slot (s s' : TaskSlot) :
  identity s' = identity s ->
  ts_generation s' = ts_generation s /\ context_set_regs (ts_context s') 0 0 0 0 = context_set_regs (ts_context s) 0 0 0 0.
Proof. intros H. split; [exact (f_equal fst H)|exact (f_equal snd H)]. Qed.

(** A task whose identity and stack are as they were. *)
Lemma task_rel_slot t (s s' : TaskSlot) j fs w w' :
  identity s' = identity s -> (forall a, in_frame (frame_of fs Stack) a -> read_word w' a = read_word w a) ->
  task_rel place t (ts_context s) (ts_generation s) j fs w -> task_rel place t (ts_context s') (ts_generation s') j fs w'.
Proof.
  intros Hid Hw Ht. destruct (identity_slot _ _ Hid) as [-> Hc]. eapply task_rel_words; [done|]. by eapply task_rel_identity.
Qed.

Lemma stack_frame fs a : map of_role fs = FrameRole_ALL -> in_frame (frame_of fs Stack) a -> in_frames fs a.
Proof. intros Hall Ha. apply (in_frames_elem fs (mkFrame Stack (frame_of fs Stack))); [by apply find_role_elem, frame_of_Some|done]. Qed.

(** The frames of a task that exists. *)
Lemma scheduling_roles m k kr f active t fs : scheduling m k kr f active -> valid_task t -> f t = Some fs -> map of_role fs = FrameRole_ALL.
Proof.
  intros Hs Ht Hf. pose proof (sg_linked _ _ _ _ _ _ _ _ _ _ Hs t Ht) as Hl. unfold KernelInvariant.linked in Hl. rewrite Hf in Hl.
  by destruct Hl as (o & _ & _ & _ & _ & [Hall _ _] & _).
Qed.

Lemma matched_resume p k f task :
  scheduling (kn_machine k) k (ps_runtime p) f None -> running_task (kr_runtime (ps_runtime p)) = Ok task ->
  tasks_rel p f (km_words (kn_machine k)) ->
  exists e' k' fs, resume_scheduled_task task k = User e' k' /\ matched p e' k' f task fs.
Proof.
  intros Hs Hr Ht. destruct (resume_ok linkage probes trampolines mb s0 k _ f task Hs Hr) as (e' & k' & fs & He & Hu & Hw).
  exists e', k', fs. split; [done|]. split; [done|]. by rewrite Hw.
Qed.

(** The tasks once the trap is captured and handled. *)
Lemma captured_tasks p e k f task fs t' frame kr1 kr' w :
  matched p e k f task fs ->
  let kr := ps_runtime p in
  let g := ts_generation (task_slot (kr_runtime kr) task) in
  let j := journaled_kind (kr_kind kr) in
  trap_frame (place g j) (pt_pc t') (pt_regs t') (pt_flags t') = Some frame ->
  (pt_pc t' < length (instructions (probe_program g j)))%nat ->
  (forall a, ~ in_frame (frame_of fs Stack) a -> read_word w a = read_word (km_words (kn_machine k)) a) ->
  stack_holds fs (pt_stack t') w ->
  kr_capture_trap task frame (frame_of fs Root) g kr = (Ok tt, kr1) ->
  identities (kr_runtime kr') = identities (kr_runtime kr1) -> kr_kind kr' = kr_kind kr ->
  tasks_rel (ps_set p kr' task t') f w.
Proof.
  intros [Hu Htasks] kr g j Hframe Hpc Hw Hst Hcap Hid Hkind t fs' Ht Hf'. cbv zeta.
  destruct (running_alive _ _ _ _ _ _ _ _ _ _ _ Hu) as (Htask & _ & o & _ & _ & _ & Hsp & _).
  pose proof Hu as [Hs Hrun Hf _ _ _ _]. pose proof Hs as [_ Hi _ Ha _ _ _ _ _].
  destruct (root_good linkage probes mb base _ _ _ _ _ Ha Hsp) as [Hz _].
  destruct (kr_capture kr task frame (frame_of fs Root) Hi Hrun Hz) as (kr2 & Hcap2 & _ & Hr1 & _).
  assert (kr2 = kr1) as -> by (unfold g, kr in *; congruence).
  pose proof (identities_slot _ _ t Hid) as Hidt. rewrite Hr1 in Hidt. rewrite ps_set_runtime, ps_task_set, Hkind by done.
  destruct (Z.eqb_spec t task) as [->|Hn].
  - assert (fs' = fs) as -> by congruence. rewrite task_slot_upd in Hidt.
    apply (task_rel_slot _ _ _ _ _ w w Hidt); [done|]. destruct t' as [pc regs flags st].
    exact (trap_frame_rel place pc regs flags frame st task g j _ fs w Hframe Hpc Hst).
  - rewrite task_slot_other in Hidt by done.
    apply (task_rel_slot _ _ _ _ _ (km_words (kn_machine k)) w Hidt); [|by apply Htasks]. intros a Hin. apply Hw. intros Hin'.
    assert (Hn' : task <> t) by congruence.
    pose proof (scheduling_apart linkage probes trampolines mb s0 _ _ _ _ _ task t fs fs' Hs Htask Ht Hn' Hf Hf') as Hap.
    apply (Hap a). split; apply stack_frame; try done; [exact (scheduling_roles _ _ _ _ _ task fs Hs Htask Hf)|].
    exact (scheduling_roles _ _ _ _ _ t fs' Hs Ht Hf').
Qed.

(** The step of the system on a trap. *)
Definition taken (out : Control) (nxt : Turn) : Prop :=
  match nxt with
  | Goes p' => exists e' k' f' task' fs', out = User e' k' /\ matched p' e' k' f' task' fs'
  | Ends kr' => exists k2, out = scheduler_success linkage probes k2 /\ drained linkage trampolines mb s0 k2 kr'
  end.

(** The tasks once the trapped one is torn down. *)
Lemma torn_tasks p kr kr' k f task fs t w w' :
  scheduling (kn_machine k) k kr f None -> valid_task task -> f task = Some fs ->
  tasks_rel (ps_set p kr task t) f w ->
  (forall a, (forall fs, f task = Some fs -> ~ in_frames fs a) -> read_word w' a = read_word w a) ->
  identity (task_slot (kr_runtime kr') (3 - task)) = identity (task_slot (kr_runtime kr) (3 - task)) -> kr_kind kr' = kr_kind kr ->
  tasks_rel (ps_set p kr' task t) (drop_task f task) w'.
Proof.
  intros Hs Ht Hf Hrel Hw Hid Hkind t' fs' Ht' Hf'. unfold drop_task in Hf'. destruct (Z.eqb_spec t' task) as [|Hn]; [done|].
  pose proof (Hrel t' fs' Ht' Hf') as H. cbv zeta in *. rewrite !ps_set_runtime, !ps_task_set, Hkind in * by done.
  assert (t' = 3 - task) as E by (destruct Ht as [-> | ->], Ht' as [-> | ->]; done). rewrite <-E in Hid.
  apply (task_rel_slot _ _ _ _ _ w w' Hid); [|done]. intros a Ha. apply Hw. intros fs2 Hf2 Ha2.
  assert (Hn' : task <> t') by congruence.
  pose proof (scheduling_apart linkage probes trampolines mb s0 _ _ _ _ _ task t' fs2 fs' Hs Ht Ht' Hn' Hf2 Hf') as Hap.
  apply (Hap a). split; [done|]. apply stack_frame; [exact (scheduling_roles _ _ _ _ _ t' fs' Hs Ht' Hf')|done].
Qed.

(** The kernel's answer is the runtime's. *)
Lemma answer_sim p e k kr f task fs t frame kr' ended :
  running e k kr f task fs ->
  let g := ts_generation (task_slot (kr_runtime kr) task) in
  let root := frame_of fs Root in
  context_ok (context_from_trap frame task g root) task g root = true ->
  (forall kr1 kr', kr_capture_trap task frame root g kr = (Ok tt, kr1) -> identities (kr_runtime kr') = identities (kr_runtime kr1) ->
    kr_kind kr' = kr_kind kr -> tasks_rel (ps_set p kr' task t) f (km_words (kn_machine k))) ->
  answer task frame root g kr = Some (kr', ended) ->
  taken (makopa_task_trap_trampoline linkage probes RECOVERY_STACK_TOP frame k) (if ended : bool then Ends kr' else Goes (ps_set p kr' task t)).
Proof.
  intros Hu g root Hok Htasks Hans. pose proof (trap_dispatched linkage probes trampolines mb s0 base e k kr f task fs frame Hu) as H.
  cbv zeta in H. fold g root in H. rewrite Hok in H.
  destruct H as (kr1 & o & kr2 & k' & Hcap & Htrap & Hs & Hout & Hw & Hid & Hkind & ->).
  pose proof (Htasks kr1 kr2 Hcap Hid Hkind) as Hrel. rewrite <-Hw in Hrel.
  pose proof (kr_inv_rt _ (sg_inv _ _ _ _ _ _ _ _ _ _ Hs)) as Hr. unfold answer in Hans. rewrite Hcap, Htrap in Hans.
  assert (Hgo : forall t', running_task (kr_runtime kr2) = Ok t' -> taken (resume_scheduled_task t' k') (Goes (ps_set p kr2 task t))).
  { intros t' Ht'. destruct (matched_resume (ps_set p kr2 task t) k' f t') as (e' & k2 & fs2 & He & Hm);
      [by rewrite ps_set_runtime..|done|]. by exists e', k2, f, t', fs2. }
  destruct o as [t'|t'|t']; cbn [outcome_ok] in Hout.
  - injection Hans as <- <-. apply Hgo. apply running_task_spec; [done|tauto].
  - injection Hans as <- <-. apply Hgo. by apply running_task_spec.
  - destruct Hout as (-> & Ht & Hex & HL).
    destruct (teardown_dispatched linkage probes trampolines linkage_fits layout mb s0 base k' kr2 f task Hs Ht Hex HL)
      as (kr3 & Hb & [[Hc _]|(next & kr4 & k2 & Hc & Hs2 & Hw2 & Hid2 & Hkind2 & Hnext)]); rewrite Hb, Hc in Hans; [done|].
    injection Hans as <- <-. destruct next as [t'|]; cbn [is_none]; destruct Hnext as [Hnext ->]; [|by exists k2].
    pose proof (torn_tasks p kr2 kr4 k' f task fs t _ _ Hs Ht (ru_frames _ _ _ _ _ _ _ _ _ _ _ Hu) Hrel Hw2 Hid2 Hkind2) as Hrel2.
    destruct (matched_resume (ps_set p kr4 task t) k2 (drop_task f task) t') as (e' & k3 & fs3 & He & Hm);
      [by rewrite ps_set_runtime..|done|]. by exists e', k3, (drop_task f task), t', fs3.
Qed.

(** One turn: the probe to its trap, and the kernel's answer. *)
Lemma turn_sim p e k f task fs nxt :
  matched p e k f task fs -> turn place p = Some nxt -> taken (system_step (User e k)) nxt.
Proof.
  intros Hm Ht. pose proof Hm as [Hu Htasks]. unfold turn in Ht. cbv zeta in Ht. rewrite (ru_task _ _ _ _ _ _ _ _ _ _ _ Hu) in Ht.
  cbn [ok] in Ht. cbn [mbind option_bind] in Ht.
  destruct (advance_task _ _ _ _) as [[ev t]|] eqn:Hadv; [|done]. cbn [mbind option_bind] in Ht.
  destruct (negb _) eqn:Hev; [done|]. apply negb_false_iff in Hev. apply andb_true_iff in Hev as [Hev Hpc].
  apply andb_true_iff in Hev as [Hsw Hvec]. apply Nat.ltb_lt in Hpc. apply Z.eqb_eq in Hvec.
  destruct (trap_frame _ _ _ _) as [frame|] eqn:Hframe; [|done]. cbn [mbind option_bind] in Ht.
  destruct (answer _ _ _ _ _) as [[kr' ended]|] eqn:Hans; [|done]. cbn [mbind option_bind] in Ht.
  injection Ht as <-. destruct (running_alive _ _ _ _ _ _ _ _ _ _ _ Hu) as (Htask & _ & o & _ & _ & _ & Hsp & Hctx).
  pose proof (ru_scheduling _ _ _ _ _ _ _ _ _ _ _ Hu) as Hs. pose proof (ru_frames _ _ _ _ _ _ _ _ _ _ _ Hu) as Hf.
  destruct (root_good linkage probes mb base _ _ _ _ _ (sg_account _ _ _ _ _ _ _ _ _ _ Hs) Hsp) as [Hz Hal].
  destruct (user_turn e k _ f task fs _ ev t frame Hu (Htasks task fs Htask Hf) Hadv Hsw Hframe) as (w & Hrun & Hwr & Hkeep & Hst).
  unfold system_step, current_generation, current_journaled.
  rewrite (sg_runtime _ _ _ _ _ _ _ _ _ _ Hs), (ru_current _ _ _ _ _ _ _ _ _ _ _ Hu), Hrun.
  rewrite on_event_trap by (done || apply Hs). cbn [ev_registers].
  rewrite (policy_root _ _ _ _ Hctx) in Hans. eapply answer_sim; [by apply running_writes| | |exact Hans].
  - eapply trap_frame_policy; try done; [apply (as_code _ probes_assembled); by eapply program_generation|].
    rewrite <-(dead_generation _ task (kr_inv_rt _ (sg_inv _ _ _ _ _ _ _ _ _ _ Hs)) Htask).
    destruct (running_alive _ _ _ _ _ _ _ _ _ _ _ Hu) as (_ & Hst' & _). congruence.
  - intros kr1 kr2 Hcap Hid Hkind. by eapply captured_tasks.
Qed.

Lemma turns_sim fuel p e k f task fs kr' :
  matched p e k f task fs -> turns place fuel p = Some kr' ->
  exists n k2, system_run n (User e k) = scheduler_success linkage probes k2 /\ drained linkage trampolines mb s0 k2 kr'.
Proof.
  revert p e k f task fs. induction fuel as [|fuel IH]; intros p e k f task fs Hm Ht; [done|]. cbn [turns] in Ht.
  destruct (turn place p) as [[p'|kr2]|] eqn:E; [| |done]; pose proof (turn_sim p e k f task fs _ Hm E) as H; cbn [taken] in H.
  - destruct H as (e' & k' & f' & task' & fs' & He & Hm'). destruct (IH _ _ _ _ _ _ Hm' Ht) as (n & k2 & Hrun & Hd).
    exists (S n), k2. split; [|done]. cbn [system_run]. by rewrite He.
  - injection Ht as ->. destruct H as (k2 & He & Hd). by exists 1%nat, k2.
Qed.

(** ** The phases *)

(** Turns enough for any phase. *)
Definition PHASE_TURNS : nat := 100.

(** The runtime a phase ends with. *)
Definition phase_end (construct : TaskContextV1 -> TaskContextV1 -> option KernelRuntime) (supervised : bool) (g1 g2 : Z)
    (root1 root2 : Z) : option KernelRuntime :=
  kr ← construct (initial_context SENDER_TASK_ID g1 root1) (initial_context RECEIVER_TASK_ID g2 root2);
  turns place PHASE_TURNS (mkTasks (snd (first_dispatch supervised kr)) fresh_task fresh_task).

Lemma program_nonempty g j : g ∈ [1; 2; 3; 4; 5] -> (0 < length (instructions (probe_program g j)))%nat.
Proof.
  rewrite !elem_of_cons. intros [->|[->|[->|[->|[->|H]]]]]; [destruct j; cbv; lia..|]. by apply not_elem_of_nil in H.
Qed.

(** The root of a task is a positive address. *)
Lemma scheduling_root m k kr f active t fs :
  scheduling m k kr f active -> valid_task t -> f t = Some fs -> exists root, frame_of fs Root = Zpos root.
Proof.
  intros Hs Ht Hf. pose proof (sg_linked _ _ _ _ _ _ _ _ _ _ Hs t Ht) as Hl. unfold KernelInvariant.linked in Hl. rewrite Hf in Hl.
  destruct Hl as (o & _ & _ & _ & _ & Hsp & _).
  destruct (root_good linkage probes mb base _ _ _ _ _ (sg_account _ _ _ _ _ _ _ _ _ _ Hs) Hsp) as [Hz _].
  destruct Hsp as [Hall Ho _]. destruct (frame_of_ok linkage m fs _ Ho Hall Root) as [Hr _].
  destruct (frame_of fs Root) as [|root|root]; [done|by exists root|lia].
Qed.

(** A task that has not run. *)
Lemma initial_rel s task g root j fs w :
  g ∈ [1; 2; 3; 4; 5] -> identity s = (g, initial_context task g root) ->
  task_rel place fresh_task (ts_context s) (ts_generation s) j fs w.
Proof.
  intros Hg Hid. assert (Hs : identity s = identity (mkTaskSlot task g TaskDead (initial_context task g root) table_dead)) by (by rewrite Hid).
  apply (task_rel_slot _ _ _ _ _ w w Hs); [done|]. cbn [ts_context ts_generation].
  apply fresh_rel; [by apply (as_code _ probes_assembled)|by apply program_nonempty].
Qed.

Lemma begins_matched e k kr f task fs fs1 fs2 g1 g2 :
  running e k kr f task fs -> f 1 = Some fs1 -> f 2 = Some fs2 -> g1 ∈ [1; 2; 3; 4; 5] -> g2 ∈ [1; 2; 3; 4; 5] ->
  identities (kr_runtime kr) = ((g1, initial_context SENDER_TASK_ID g1 (frame_of fs1 Root)),
    (g2, initial_context RECEIVER_TASK_ID g2 (frame_of fs2 Root))) ->
  matched (mkTasks kr fresh_task fresh_task) e k f task fs.
Proof.
  intros Hu F1 F2 Hg1 Hg2 Hid. split; [done|]. pose proof (f_equal fst Hid) as Hid1. pose proof (f_equal snd Hid) as Hid2.
  cbn [fst snd identities] in Hid1, Hid2.
  intros t fs' [-> | ->] _; cbv zeta; cbn [ps_runtime]; (eapply initial_rel; [|by (exact Hid1 || exact Hid2)]; done).
Qed.

Lemma phase_runs construct supervised g1 g2 kind c (Q : KernelRuntime -> Prop) :
  begins linkage probes trampolines mb s0 construct supervised g1 g2 kind c -> g1 ∈ [1; 2; 3; 4; 5] -> g2 ∈ [1; 2; 3; 4; 5] ->
  (forall root1 root2, exists kr', phase_end construct supervised g1 g2 (Zpos root1) (Zpos root2) = Some kr' /\ Q kr') ->
  exists n k2 kr', system_run n c = scheduler_success linkage probes k2 /\ drained linkage trampolines mb s0 k2 kr' /\ Q kr'.
Proof.
  intros (e & k & kr0 & kr & f & task & fs & fs1 & fs2 & -> & Hu & F1 & F2 & Hkind & Hcon & Hd & Hid) Hg1 Hg2 Hend.
  pose proof (ru_scheduling _ _ _ _ _ _ _ _ _ _ _ Hu) as Hs.
  destruct (scheduling_root _ _ _ _ _ 1 fs1 Hs (or_introl eq_refl) F1) as (root1 & E1).
  destruct (scheduling_root _ _ _ _ _ 2 fs2 Hs (or_intror eq_refl) F2) as (root2 & E2).
  destruct (Hend root1 root2) as (kr' & Hrun & HQ). unfold phase_end in Hrun. rewrite <-E1, <-E2, Hcon in Hrun.
  cbn [mbind option_bind] in Hrun. rewrite Hd in Hrun. cbn [snd] in Hrun.
  destruct (turns_sim _ _ _ _ _ _ _ _ (begins_matched e k kr f task fs fs1 fs2 g1 g2 Hu F1 F2 Hg1 Hg2 Hid) Hrun) as (n & k2 & He & Hdr).
  by exists n, k2, kr'.
Qed.

(** ** The isolation probe *)

Lemma run_continue D items n (s s' : State D) : step D items s = Done (Continue s') -> run D items (S n) s = run D items n s'.
Proof. intros H. cbn [run]. by rewrite H. Qed.

Lemma run_fault D items n (s : State D) code address :
  step D items s = Fault code address -> run D items (S n) s = Some (mkEvent false PAGE_FAULT_VECTOR code address, s).
Proof. intros H. cbn [run]. by rewrite H. Qed.

(** Its second instruction writes to the unmapped target. *)
Lemma legacy_faults p root w regs :
  code_placed p legacy_probe -> length regs = 15%nat ->
  user_physical root w true INVALID_WRITE_TARGET = Fault 6 INVALID_WRITE_TARGET ->
  exists ev, user_run p root TURN_FUEL legacy_probe regs
    (mkUserEntry USER_TEXT USER_CODE_SELECTOR 2 USER_STACK_TOP USER_DATA_SELECTOR None) w = Some (ev, w) /\ expected_fault ev.
Proof.
  intros Hc Hlen Hf. do 15 (destruct regs as [|? regs]; [discriminate Hlen|]). destruct regs; [|discriminate Hlen].
  assert (Hfetch : fetch p legacy_probe USER_TEXT = Some 0%nat) by (rewrite <-(cp_start _ _ Hc); apply fetch_code; [done|cbv; lia]).
  unfold user_run. cbn [ue_rip ue_registers ue_rsp ue_rflags]. rewrite Hfetch.
  cbn [mbind option_bind default]. change TURN_FUEL with (S (S 98)).
  rewrite (run_continue _ _ _ _ (mkState (D:=Words64 p root) 1 [INVALID_WRITE_TARGET; z0; z1; z2; z3; z4; z5; z6; z7; z8; z9; z10; z11; z12; z13;
    USER_STACK_TOP] (decode_flags 2) w)) by done.
  rewrite (run_fault _ _ _ _ 6 INVALID_WRITE_TARGET).
  - cbn [mbind option_bind]. eexists. split; [reflexivity|]. unfold expected_fault.
    cbn [ev_software ev_vector ev_error_code ev_address ev_registers ue_software ue_vector ue_code ue_address].
    split_and!; try done; apply (cp_range _ _ Hc 1); cbv; lia.
  - transitivity (access_bind (user_store_byte root w INVALID_WRITE_TARGET 1) (fun m => Done (Continue (mkState (D:=Words64 p root) 2
      [INVALID_WRITE_TARGET; z0; z1; z2; z3; z4; z5; z6; z7; z8; z9; z10; z11; z12; z13; USER_STACK_TOP] (decode_flags 2) m)))); [done|].
    unfold user_store_byte. by rewrite Hf.
Qed.

Notation probing := (probing linkage probes trampolines mb s0 continuation_address).

Lemma invalid_target m j g fs fss :
  accounted linkage mb m fss -> fs ∈ fss -> space linkage probes m j g fs ->
  user_physical (frame_of fs Root) (km_words m) true INVALID_WRITE_TARGET = Fault 6 INVALID_WRITE_TARGET.
Proof.
  intros Ha Hin Hsp. unfold user_physical. change (is_canonical_48 INVALID_WRITE_TARGET) with true. cbn [negb].
  rewrite (page_translate linkage probes linkage_fits layout mb m j g fs fss Ha Hin Hsp); [|by intros ? ?|by vm_compute|done].
  change (in_page USER_TEXT INVALID_WRITE_TARGET) with false. change (in_page USER_STACK INVALID_WRITE_TARGET) with false.
  rewrite bool_decide_eq_false_2 by (apply (bool_decide_unpack _); by vm_compute). done.
Qed.

Hypothesis leftover_registers : length leftover = 15%nat.
Hypothesis continuation_set : continuation_address <> 0.

Lemma isolation_step e k o fs :
  probing e k o fs ->
  begins linkage probes trampolines mb s0 cooperative_runtime false SENDER_GENERATION RECEIVER_GENERATION KindCooperative
    (system_step (User e k)).
Proof.
  intros Hp. pose proof (probing_root linkage probes trampolines mb s0 continuation_address e k o fs Hp) as Hroot.
  pose proof Hp as [_ _ Hr _ _ Hsp Ha _ _ _ _ _ _ He].
  assert (Hcode : code_placed (place TASK_GENERATION false) legacy_probe) by (apply (as_code _ probes_assembled TASK_GENERATION false), list_elem_of_here).
  unfold system_step, current_generation, current_journaled. rewrite Hr. change (probe_program TASK_GENERATION false) with legacy_probe.
  rewrite Hroot, He. destruct (legacy_faults _ (frame_of fs Root) (km_words (kn_machine k)) leftover Hcode leftover_registers) as (ev & -> & Hev).
  { exact (invalid_target (settle (kn_machine k)) _ _ fs [fs] Ha (proj2 (list_elem_of_singleton fs fs) eq_refl) Hsp). }
  eapply (expected_fault_begins linkage probes trampolines linkage_fits layout mb s0 base stubs continuation_address e); try done.
  apply probing_writes; [done..|apply no_writes].
Qed.
End system.

(** ** The three phases end *)

Section phases.
Variable place : Z -> bool -> Placement.

(** Both probes reach their exits, wherever the assembler and the allocator put
    them. *)
Lemma cooperative_phase root1 root2 :
  exists kr, phase_end place cooperative_runtime false SENDER_GENERATION RECEIVER_GENERATION (Zpos root1) (Zpos root2) = Some kr /\
    exists r, kr = KernelBase r /\ rt_profile r = Cooperative.
Proof.
  assert (H : match phase_end place cooperative_runtime false SENDER_GENERATION RECEIVER_GENERATION (Zpos root1) (Zpos root2) with
              | Some (KernelBase r) => rt_profile r = Cooperative | _ => False end) by (vm_compute; reflexivity).
  destruct (phase_end _ _ _ _ _ _ _) as [[r|s]|]; [eauto|done..].
Qed.

Lemma supervised_phase root1 root2 :
  exists kr, phase_end place supervised_runtime true SUPERVISOR_GENERATION WORKLOAD_GENERATION (Zpos root1) (Zpos root2) = Some kr /\
    exists r, kr = KernelBase r /\ rt_profile r = Supervised.
Proof.
  assert (H : match phase_end place supervised_runtime true SUPERVISOR_GENERATION WORKLOAD_GENERATION (Zpos root1) (Zpos root2) with
              | Some (KernelBase r) => rt_profile r = Supervised | _ => False end) by (vm_compute; reflexivity).
  destruct (phase_end _ _ _ _ _ _ _) as [[r|s]|]; [eauto|done..].
Qed.

(** The journaled phase leaves the reference journal. *)
Lemma journaled_phase root1 root2 :
  exists kr, phase_end place journaled_runtime true SUPERVISOR_GENERATION WORKLOAD_GENERATION (Zpos root1) (Zpos root2) = Some kr /\
    exists s, kr = KernelJournaled s /\ profile_invalid kr = false.
Proof.
  assert (H : match phase_end place journaled_runtime true SUPERVISOR_GENERATION WORKLOAD_GENERATION (Zpos root1) (Zpos root2) with
              | Some (KernelJournaled s) => profile_invalid (KernelJournaled s) = false | _ => False end) by (vm_compute; reflexivity).
  destruct (phase_end _ _ _ _ _ _ _) as [[r|s]|]; [done|eauto|done].
Qed.
End phases.

(** ** The whole run *)

Lemma reference_run_finishes linkage probes trampolines continuation_address place leftover k0 :
  setting linkage probes trampolines k0 -> assembled probes place (km_words (kn_machine k0)) ->
  length leftover = 15%nat -> continuation_address <> 0 ->
  exists n k,
    system_run linkage probes trampolines continuation_address place leftover n
      (activate_recovery_context linkage probes trampolines continuation_address k0) = Exit QEMU_SUCCESS k /\
    completed linkage trampolines (settle (kn_machine k0)) (kn_serial k0) k.
Proof.
  intros [Hl Hy Ht Hb Hk] Has Hlen Hca. set (m0 := settle (kn_machine k0)) in *. set (s0 := kn_serial k0) in *.
  destruct (activation_probing linkage probes trampolines Hl Hy m0 s0 Hb Ht continuation_address k0 Hk) as (e & k & o & fs & -> & Hp).
  pose proof (isolation_step linkage probes trampolines continuation_address place leftover Hl Hy Ht m0 s0 Hb Has Hlen Hca e k o fs Hp) as Hb1.
  assert (Hgen : forall g, bool_decide (g ∈ [1; 2; 3; 4; 5]) = true -> g ∈ [1; 2; 3; 4; 5]) by (intros g Hg; exact (bool_decide_eq_true_1 _ Hg)).
  destruct (phase_runs linkage probes trampolines continuation_address place leftover Hl Hy m0 s0 Hb Has
    _ _ _ _ _ _ _ Hb1 (Hgen SENDER_GENERATION eq_refl) (Hgen RECEIVER_GENERATION eq_refl) (cooperative_phase place))
    as (n1 & k1 & kr1 & Hr1 & Hd1 & r1 & -> & Hp1).
  pose proof (success_base linkage probes trampolines Hl Hy m0 s0 Hb k1 r1 Hd1) as Hb2. rewrite Hp1 in Hb2.
  destruct (phase_runs linkage probes trampolines continuation_address place leftover Hl Hy m0 s0 Hb Has
    _ _ _ _ _ _ _ Hb2 (Hgen SUPERVISOR_GENERATION eq_refl) (Hgen WORKLOAD_GENERATION eq_refl) (supervised_phase place))
    as (n2 & k2 & kr2 & Hr2 & Hd2 & r2 & -> & Hp2).
  pose proof (success_base linkage probes trampolines Hl Hy m0 s0 Hb k2 r2 Hd2) as Hb3. rewrite Hp2 in Hb3.
  destruct (phase_runs linkage probes trampolines continuation_address place leftover Hl Hy m0 s0 Hb Has
    _ _ _ _ _ _ _ Hb3 (Hgen SUPERVISOR_GENERATION eq_refl) (Hgen WORKLOAD_GENERATION eq_refl) (journaled_phase place))
    as (n3 & k3 & kr3 & Hr3 & Hd3 & s & -> & Hp3).
  pose proof (success_journaled linkage probes trampolines m0 s0 k3 s Hd3) as H. rewrite Hp3 in H. destruct H as [(k4 & E & Hs) _].
  pose proof (succeeds_good linkage probes trampolines m0 s0 Hb continuation_address _ (ex_intro _ k4 (conj E Hs))) as Hgood.
  rewrite E in Hgood, Hr3. destruct Hgood as [[? _]|[_ Hc]]; [done|].
  exists (1 + n1 + n2 + n3)%nat, (write_str ("MakopaOS effects v1 ok ordered-redacted" ++ CRLF)%string k4).
  rewrite !system_run_add. cbn [system_run]. rewrite Hr1, Hr2, Hr3. by split.
Qed.

(** C5: the reference programs finish.  From the activation of the recovery context
    on, the isolation probe makes its fault, the cooperative pair, the supervised
    pair and the journaled pair run to their exits on the kernel, every check of
    the kernel passes, and the run ends with the success code, all the messages
    written, no task left and every frame free again. *)
Theorem reference_run_succeeds linkage probes trampolines continuation_address place leftover k0 :
  setting linkage probes trampolines k0 -> assembled probes place (km_words (kn_machine k0)) ->
  length leftover = 15%nat -> continuation_address <> 0 ->
  exists n k,
    system_run linkage probes trampolines continuation_address place leftover n
      (activate_recovery_context linkage probes trampolines continuation_address k0) = Exit QEMU_SUCCESS k /\
    completed linkage trampolines (settle (kn_machine k0)) (kn_serial k0) k.
Proof. apply reference_run_finishes. Qed.

(** *** Witness *)

(** Eight bytes for an instruction, the data half a page in. *)
Definition place_example (_ : Z) (_ : bool) : Placement := mkPlacement (fun i => USER_TEXT + 8 * Z.of_nat i) (USER_TEXT + 0x800).

Definition assembled_probes : ProbeSymbols :=
  mkProbes (0x100100, 0x100180) (0x100180, 0x100200) (0x100200, 0x100300) (0x100300, 0x100400)
    (0x101000, 0x101d80) (0x102000, 0x102100).

(** The machine of the recovery context, with the expected records in the text. *)
Definition assembled_words : Words := write_entries 0x101800 0 journal_expected_records (km_words recovered_example).
Definition assembled_machine : Machine := set_words recovered_example assembled_words.

Lemma assembled_layout : image_layout linkage_example assembled_probes.
Proof.
  split; [vm_compute; repeat split; discriminate..|by vm_compute|]. rewrite !Forall_cons, Forall_nil.
  vm_compute. repeat split; discriminate.
Qed.

Lemma write_entries_below frame index values w a :
  entry_address frame (index + Z.of_nat (length values)) <= a -> read_word (write_entries frame index values w) a = read_word w a.
Proof.
  revert index w. induction values as [|v values IH]; intros index w Ha; [done|]. cbn [write_entries length] in *.
  unfold entry_address in *. rewrite IH by (unfold entry_address; lia). unfold read_word, write_word, entry_address.
  rewrite lookup_insert_ne by lia. done.
Qed.

(** A machine is fine whatever the words outside its tables. *)
Lemma machine_ok_outside linkage m w :
  machine_ok linkage m ->
  (forall t i, (t < BOOTSTRAP_PAGE_TABLE_FRAMES)%nat -> index_ok i ->
     read_word w (entry_address (PageTablesProofs.table linkage t) i) = read_word (km_words m) (entry_address (PageTablesProofs.table linkage t) i)) ->
  machine_ok linkage (set_words m w).
Proof.
  intros [H1 H2 [Hr Hroot (paths & leaf & c & Hrep & Hrest)] H4] Hw. split; [exact H1|exact H2| |exact H4].
  split; [exact Hr|exact Hroot|]. exists paths, leaf, c. split; [|exact Hrest].
  apply (rep_agree linkage paths leaf _ (km_words m)); [exact Hw|exact Hrep].
Qed.

(** The tables of the pool are above the text. *)
Lemma assembled_ok : machine_ok linkage_example assembled_machine.
Proof.
  apply (machine_ok_outside linkage_example recovered_example); [exact recovered_example_ok|]. intros t i Ht Hi.
  apply write_entries_below. unfold entry_address, PageTablesProofs.table, index_ok in *.
  change (Z.of_nat (length journal_expected_records)) with 176. change (lk_bootstrap_storage linkage_example) with 0x12a000. page_unfold. lia.
Qed.

Lemma assembled_probe_ok j g :
  g ∈ [1; 2; 3; 4; 5] -> probe_ok assembled_probes (set_probes j assembled_machine) g = true.
Proof.
  intros Hg. rewrite !elem_of_cons in Hg. destruct Hg as [->|[->|[->|[->|[->|Hg]]]]]; [destruct j; by lazy..|].
  by apply not_elem_of_nil in Hg.
Qed.

Lemma program_length g j : (length (instructions (probe_program g j)) <= 512)%nat.
Proof.
  unfold probe_program. repeat match goal with |- context [if ?b then _ else _] => destruct b end; apply Nat.leb_le; vm_compute; reflexivity.
Qed.

(** The words of a list from [index] on. *)
Fixpoint words_are (words : list Z) (index : nat) (values : list Z) : bool :=
  match values with
  | [] => true
  | v :: rest => (nth index words 0 =? v) && words_are words (S index) rest
  end.

Lemma words_are_nth words index values i x :
  words_are words index values = true -> values !! i = Some x -> nth (index + i) words 0 = x.
Proof.
  revert index i. induction values as [|v values IH]; intros index i Hw Hi; [done|]. cbn [words_are] in Hw.
  apply andb_true_iff in Hw as [Hv%Z.eqb_eq Hw]. destruct i as [|i]; [injection Hi as <-; by rewrite Nat.add_0_r|].
  rewrite <-Nat.add_succ_comm. by apply IH.
Qed.

Lemma assembled_example : assembled assembled_probes place_example (km_words (kn_machine (kernel_over assembled_machine))).
Proof.
  assert (Hp : USER_TEXT + PAGE_SIZE = USER_TEXT + 8 * 512) by done. split.
  - intros g j _. pose proof (program_length g j). split; cbn [place_example pl_code]; lia.
  - by vm_compute.
  - by vm_compute.
  - done.
  - destruct (probe_bytes assembled_probes (km_words (kn_machine (kernel_over assembled_machine))) SUPERVISOR_GENERATION true)
      as [bytes|] eqn:E; [|vm_compute in E; discriminate E]. exists bytes. split; [done|]. intros i x Hi.
    assert (H : words_are (image_words bytes) 256 journal_expected_records = true).
    { assert (Hb : match probe_bytes assembled_probes (km_words (kn_machine (kernel_over assembled_machine))) SUPERVISOR_GENERATION true
        with Ok bytes => words_are (image_words bytes) 256 journal_expected_records | Err _ => false end = true) by (vm_compute; reflexivity).
      by rewrite E in Hb. }
    rewrite <-(words_are_nth _ _ _ i x H Hi). f_equal. change ((pl_data _ - USER_TEXT) / 8) with 256. lia.
Qed.

Lemma reference_run_succeeds_witness :
  exists n k,
    system_run linkage_example assembled_probes trampolines_example continuation_example place_example (replicate 15 0) n
      (activate_recovery_context linkage_example assembled_probes trampolines_example continuation_example (kernel_over assembled_machine))
    = Exit QEMU_SUCCESS k.
Proof.
  assert (Hs : setting linkage_example assembled_probes trampolines_example (kernel_over assembled_machine)).
  { exact (setting_over assembled_probes assembled_words assembled_layout assembled_ok assembled_probe_ok). }
  assert (Hca : continuation_example <> 0) by (unfold continuation_example; lia).
  destruct (reference_run_succeeds linkage_example assembled_probes trampolines_example continuation_example place_example (replicate 15 0)
    (kernel_over assembled_machine) Hs assembled_example eq_refl Hca) as (n & k & Hrun & _).
  exists n, k. exact Hrun.
Defined.
