(* ===== verification/Serial.v ===== *)
(** * The serial console and the exit port

    Models [SerialPort], [exit_qemu], [halt_forever] and the panic handler of
    [kernel/src/main.rs] over port input and output.  The device behind the ports
    is a parameter; what the driver did to it is the trace of its accesses, and
    the theorems say what that trace carries. *)

From Stdlib Require Import String.
From stdpp Require Import list.
From S2P Require Import Prelude.
From S2P Require Import Bytes.
From S2P Require Import Text.
From S2P Require Import KernelScheduler.

#[local] Open Scope string_scope.
#[local] Open Scope Z_scope.

(** ** Ports *)

(** The answers of the device: [in al, dx], [out dx, al] and [out dx, eax]. *)
Class Ports (D : Type) := {
  port_in8 : Z -> D -> Z * D;
  port_out8 : Z -> Z -> D -> D;
  port_out32 : Z -> Z -> D -> D
}.

Inductive PortEvent := In8 (port value : Z) | Out8 (port value : Z) | Out32 (port value : Z).

Definition KERNEL_SERIAL : Z := 0x3f8.
Definition QEMU_EXIT_PORT : Z := 0xf4.

(** ** The driver *)

Section driver.
Context {D : Type} `{Ports D}.

(** The device and the accesses so far. *)
Record Io := mkIo { io_device : D; io_trace : list PortEvent }.

(** The port numbers of the driver are far below 2^16. *)
Record SerialPort := SerialPort_new { sp_base : Z }.

Definition read_register (s : SerialPort) (offset : Z) (io : Io) : Z * Io :=
  let '(value, d) := port_in8 (sp_base s + offset) (io_device io) in
  (value, mkIo d (io_trace io ++ [In8 (sp_base s + offset) value])).

Definition write_register (s : SerialPort) (offset value : Z) (io : Io) : Io :=
  mkIo (port_out8 (sp_base s + offset) value (io_device io)) (io_trace io ++ [Out8 (sp_base s + offset) value]).

Definition serial_initialize (s : SerialPort) (io : Io) : Io :=
  let io := write_register s 1 0x00 io in
  let io := write_register s 3 0x80 io in
  let io := write_register s 0 0x03 io in
  let io := write_register s 1 0x00 io in
  let io := write_register s 3 0x03 io in
  let io := write_register s 2 0xc7 io in
  write_register s 4 0x0b io.

(** [while self.read_register(5) & 0x20 == 0]; [None] when [fuel] polls were not
    enough. *)
Fixpoint wait_transmit (fuel : nat) (s : SerialPort) (io : Io) : option Io :=
  match fuel with
  | O => None
  | S fuel =>
      let '(status, io) := read_register s 5 io in
      if Z.land status 0x20 =? 0 then wait_transmit fuel s io else Some io
  end.

Definition write_byte (fuel : nat) (s : SerialPort) (byte : Z) (io : Io) : option Io :=
  io ← wait_transmit fuel s io; Some (write_register s 0 byte io).

Fixpoint serial_write_bytes (fuel : nat) (s : SerialPort) (bytes : list Z) (io : Io) : option Io :=
  match bytes with
  | [] => Some io
  | byte :: rest => io ← write_byte fuel s byte io; serial_write_bytes fuel s rest io
  end.

(** [Write::write_str], which always returns [Ok]. *)
Definition serial_write_str (fuel : nat) (value : string) (s : SerialPort) (io : Io) : option Io :=
  serial_write_bytes fuel s (bytes_of value) io.

(** [exit_qemu]: the port write, then [halt_forever], which does nothing more. *)
Definition exit_qemu (code : Z) (io : Io) : Io :=
  mkIo (port_out32 QEMU_EXIT_PORT code (io_device io)) (io_trace io ++ [Out32 QEMU_EXIT_PORT code]).

(** One use of the console: a fresh port, its initialisation and some lines. *)
Fixpoint write_lines (fuel : nat) (s : SerialPort) (lines : list string) (io : Io) : option Io :=
  match lines with
  | [] => Some io
  | line :: rest => io ← serial_write_str fuel line s io; write_lines fuel s rest io
  end.

Definition console (fuel : nat) (lines : list string) (io : Io) : option Io :=
  let serial := SerialPort_new KERNEL_SERIAL in
  write_lines fuel serial lines (serial_initialize serial io).

(** The panic handler. *)
Definition kernel_panic (fuel : nat) (io : Io) : option Io :=
  io ← console fuel ["MakopaOS kernel panic" ++ CRLF] io; Some (exit_qemu QEMU_FAILURE io).

(** The uses of the console in a run, one after the other. *)
Fixpoint consoles (fuel : nat) (uses : list (list string)) (io : Io) : option Io :=
  match uses with
  | [] => Some io
  | lines :: rest => io ← console fuel lines io; consoles fuel rest io
  end.
End driver.
Arguments mkIo {D}.
Arguments io_device {D}.
Arguments io_trace {D}.

(** What the driver needs of the device: polled, the transmitter becomes free in
    bounded time. *)
Class UartLaws (D : Type) `{Ports D} := {
  busy : D -> nat;
  busy_bound : nat;
  busy_bounded : forall d, (busy d <= busy_bound)%nat;
  status_progress : forall d status d', port_in8 (KERNEL_SERIAL + 5) d = (status, d') ->
    Z.land status 0x20 <> 0 \/ (busy d' < busy d)%nat
}.

#[local] Open Scope list_scope.

(** ** What a trace carries *)

(** The line as the register writes set it, and the bytes handed to the
    transmitter. *)
Record Wire := mkWire { wi_control : Z; wi_divisor : Z * Z; wi_interrupts : Z; wi_bytes : list Z }.

(** Bit 7 of the line control selects the divisor. *)
Definition wire_step (w : Wire) (e : PortEvent) : Wire :=
  match e with
  | Out8 port value =>
      let latch := Z.testbit (wi_control w) 7 in
      if port =? KERNEL_SERIAL + 3 then mkWire value (wi_divisor w) (wi_interrupts w) (wi_bytes w)
      else if port =? KERNEL_SERIAL then
        if latch then mkWire (wi_control w) (value, snd (wi_divisor w)) (wi_interrupts w) (wi_bytes w)
        else mkWire (wi_control w) (wi_divisor w) (wi_interrupts w) (wi_bytes w ++ [value])
      else if port =? KERNEL_SERIAL + 1 then
        if latch then mkWire (wi_control w) (fst (wi_divisor w), value) (wi_interrupts w) (wi_bytes w)
        else mkWire (wi_control w) (wi_divisor w) value (wi_bytes w)
      else w
  | _ => w
  end.

Definition wire (w : Wire) (trace : list PortEvent) : Wire := fold_left wire_step trace w.

(** Eight data bits, no parity, one stop bit, divisor three, no interrupts. *)
Definition line_set (w : Wire) : Prop := wi_control w = 0x03 /\ wi_divisor w = (0x03, 0x00) /\ wi_interrupts w = 0x00.

(** Each byte follows polls that found the transmitter busy and one that found it
    free. *)
Inductive sends : list Z -> list PortEvent -> Prop :=
| sends_none : sends [] []
| sends_byte byte bytes waits status trace :
    Forall (fun v => Z.land v 0x20 = 0) waits -> Z.land status 0x20 <> 0 -> sends bytes trace ->
    sends (byte :: bytes)
      (map (In8 (KERNEL_SERIAL + 5)) waits ++ In8 (KERNEL_SERIAL + 5) status :: Out8 KERNEL_SERIAL byte :: trace).

(** The seven writes of the initialisation. *)
Definition INITIALIZATION : list PortEvent :=
  [Out8 (KERNEL_SERIAL + 1) 0x00; Out8 (KERNEL_SERIAL + 3) 0x80; Out8 (KERNEL_SERIAL + 0) 0x03; Out8 (KERNEL_SERIAL + 1) 0x00;
   Out8 (KERNEL_SERIAL + 3) 0x03; Out8 (KERNEL_SERIAL + 2) 0xc7; Out8 (KERNEL_SERIAL + 4) 0x0b].

(** The trace of several uses of the console. *)
Inductive talks : list (list string) -> list PortEvent -> Prop :=
| talks_none : talks [] []
| talks_use lines uses trace rest :
    sends (flat_map bytes_of lines) trace -> talks uses rest -> talks (lines :: uses) (INITIALIZATION ++ trace ++ rest).

(** ** The driver's trace *)

Lemma sends_app bytes1 bytes2 trace1 trace2 :
  sends bytes1 trace1 -> sends bytes2 trace2 -> sends (bytes1 ++ bytes2) (trace1 ++ trace2).
Proof.
  induction 1 as [|byte bytes waits status trace Hw Hs _ IH]; intros H2; [done|].
  rewrite <-!app_assoc. cbn [app]. by apply sends_byte; [| |apply IH].
Qed.

Section traces.
Context {D : Type} `{UartLaws D}.
Notation serial := (SerialPort_new KERNEL_SERIAL).
Notation Io := (Io (D := D)).

Lemma wait_transmit_ok fuel : forall io : Io, (busy (io_device io) < fuel)%nat ->
  exists d waits status, wait_transmit fuel serial io
    = Some (mkIo d (io_trace io ++ map (In8 (KERNEL_SERIAL + 5)) waits ++ [In8 (KERNEL_SERIAL + 5) status])) /\
    Forall (fun v => Z.land v 0x20 = 0) waits /\ Z.land status 0x20 <> 0.
Proof.
  induction fuel as [|fuel IH]; intros io Hb; [lia|]. cbn [wait_transmit]. unfold read_register. cbn [sp_base].
  destruct (port_in8 _ (io_device io)) as [status d] eqn:E. pose proof (status_progress _ _ _ E) as Hp.
  destruct (Z.eqb_spec (Z.land status 0x20) 0) as [Hz|Hz]; [|by exists d, [], status].
  destruct Hp as [Hp|Hp]; [done|]. destruct (IH (mkIo d (io_trace io ++ [In8 (KERNEL_SERIAL + 5) status]))) as (d' & waits & last & Hx & Hw & Hl).
  { cbn [io_device]. lia. }
  exists d', (status :: waits), last. split_and!; [|by constructor|done]. rewrite Hx. cbn [io_trace map app]. by rewrite <-app_assoc.
Qed.

Lemma write_byte_ok byte (io : Io) :
  exists io' trace, write_byte (S busy_bound) serial byte io = Some io' /\ io_trace io' = io_trace io ++ trace /\ sends [byte] trace.
Proof.
  pose proof (busy_bounded (io_device io)) as Hb. destruct (wait_transmit_ok (S busy_bound) io) as (d & waits & status & Hw & Hws & Hs); [lia|].
  unfold write_byte. rewrite Hw. cbn [mbind option_bind]. eexists _, (map _ waits ++ In8 _ status :: Out8 KERNEL_SERIAL byte :: []).
  split; [reflexivity|]. split; [|by apply sends_byte; [| |constructor]]. unfold write_register. cbn [io_trace sp_base].
  rewrite Z.add_0_r, <-!app_assoc. done.
Qed.

Lemma write_bytes_ok bytes : forall io : Io, exists io' trace,
  serial_write_bytes (S busy_bound) serial bytes io = Some io' /\ io_trace io' = io_trace io ++ trace /\ sends bytes trace.
Proof.
  induction bytes as [|byte bytes IH]; intros io; cbn [serial_write_bytes].
  { exists io, []. rewrite app_nil_r. split_and!; [done|done|constructor]. }
  destruct (write_byte_ok byte io) as (io1 & t1 & -> & E1 & S1). cbn [mbind option_bind].
  destruct (IH io1) as (io2 & t2 & -> & E2 & S2). exists io2, (t1 ++ t2). split_and!; [done| |by apply (sends_app [byte])].
  by rewrite E2, E1, <-app_assoc.
Qed.

Lemma write_lines_ok lines : forall io : Io, exists io' trace,
  write_lines (S busy_bound) serial lines io = Some io' /\ io_trace io' = io_trace io ++ trace /\ sends (flat_map bytes_of lines) trace.
Proof.
  induction lines as [|line lines IH]; intros io; cbn [write_lines flat_map].
  { exists io, []. rewrite app_nil_r. split_and!; [done|done|constructor]. }
  unfold serial_write_str. destruct (write_bytes_ok (bytes_of line) io) as (io1 & t1 & -> & E1 & S1). cbn [mbind option_bind].
  destruct (IH io1) as (io2 & t2 & -> & E2 & S2). exists io2, (t1 ++ t2). split_and!; [done| |by apply sends_app].
  by rewrite E2, E1, <-app_assoc.
Qed.

Lemma consoles_ok uses : forall io : Io, exists io' trace,
  consoles (S busy_bound) uses io = Some io' /\ io_trace io' = io_trace io ++ trace /\ talks uses trace.
Proof.
  induction uses as [|lines uses IH]; intros io; cbn [consoles].
  { exists io, []. rewrite app_nil_r. split_and!; [done|done|constructor]. }
  unfold console. destruct (write_lines_ok lines (serial_initialize serial io)) as (io1 & t1 & -> & E1 & S1). cbn [mbind option_bind].
  destruct (IH io1) as (io2 & t2 & -> & E2 & S2). exists io2, (INITIALIZATION ++ t1 ++ t2). split_and!; [done| |by apply talks_use].
  rewrite E2, E1. unfold serial_initialize, write_register. cbn [io_trace sp_base]. rewrite <-!app_assoc. done.
Qed.

Lemma panic_ok (io : Io) : exists last trace,
  kernel_panic (S busy_bound) io = Some last /\ talks [[("MakopaOS kernel panic" ++ CRLF)%string]] trace /\
  io_trace last = io_trace io ++ trace ++ [Out32 QEMU_EXIT_PORT QEMU_FAILURE].
Proof.
  destruct (consoles_ok [[("MakopaOS kernel panic" ++ CRLF)%string]] io) as (io' & trace & Hrun & Htr & Htalk).
  cbn [consoles] in Hrun. unfold kernel_panic. destruct (console _ _ io) as [io1|]; [|discriminate Hrun].
  cbn [mbind option_bind] in Hrun |- *. injection Hrun as ->. eexists _, trace. split_and!; [reflexivity|done|].
  unfold exit_qemu. cbn [io_trace]. by rewrite Htr, app_assoc.
Qed.
End traces.

(** ** The wire *)

Lemma wire_app w trace1 trace2 : wire w (trace1 ++ trace2) = wire (wire w trace1) trace2.
Proof. apply fold_left_app. Qed.

Lemma wire_waits w waits : wire w (map (In8 (KERNEL_SERIAL + 5)) waits) = w.
Proof. induction waits as [|v waits IH]; [done|apply IH]. Qed.

Lemma wire_sends w bytes trace :
  line_set w -> sends bytes trace ->
  wire w trace = mkWire (wi_control w) (wi_divisor w) (wi_interrupts w) (wi_bytes w ++ bytes).
Proof.
  intros Hset Hs. revert w Hset. induction Hs as [|byte bytes waits status trace _ _ _ IH]; intros w Hset.
  { rewrite app_nil_r. by destruct w. }
  rewrite wire_app, wire_waits. destruct Hset as (Hc & Hd & Hi). destruct w as [c d i b]. cbn in Hc, Hd, Hi. subst c d i.
  change (wire _ _) with (wire (mkWire 3 (3, 0) 0 (b ++ [byte])) trace). rewrite IH by done. cbn. by rewrite <-app_assoc.
Qed.

(** The initialisation sets the line from any state whose divisor latch is closed,
    and sends nothing. *)
Lemma wire_initialized w :
  Z.testbit (wi_control w) 7 = false -> wire w INITIALIZATION = mkWire 0x03 (0x03, 0x00) 0x00 (wi_bytes w).
Proof.
  intros Hc. destruct w as [c d i b]. cbn [wi_control] in Hc.
  assert (Hfirst : wire_step (mkWire c d i b) (Out8 (KERNEL_SERIAL + 1) 0x00) = mkWire c d 0 b).
  { unfold wire_step. cbn [wi_control]. rewrite Hc. reflexivity. }
  unfold wire, INITIALIZATION. cbn [fold_left]. rewrite Hfirst. reflexivity.
Qed.

Lemma wire_talks w uses trace :
  Z.testbit (wi_control w) 7 = false -> talks uses trace ->
  wi_bytes (wire w trace) = wi_bytes w ++ flat_map (flat_map bytes_of) uses /\ (uses <> [] -> line_set (wire w trace)).
Proof.
  intros Hc Ht. revert w Hc. induction Ht as [|lines uses trace rest Hs Ht IH]; intros w Hc; [by rewrite app_nil_r|].
  rewrite !wire_app, (wire_initialized w Hc), (wire_sends _ _ _ (ltac:(done) : line_set (mkWire 3 (3, 0) 0 (wi_bytes w))) Hs). cbn [wi_control wi_divisor wi_interrupts wi_bytes].
  destruct (IH (mkWire 3 (3, 0) 0 (wi_bytes w ++ flat_map bytes_of lines)) eq_refl) as [IH1 IH2]. split.
  - rewrite IH1. cbn [wi_bytes flat_map]. by rewrite app_assoc.
  - intros _. destruct uses as [|use uses]; [|by apply IH2]. inversion_clear Ht. done.
Qed.

(** ** The claim *)

(** C21: the console delivers what the kernel writes.  On a device whose transmitter
    becomes free in bounded time, every sequence of uses of the console returns;
    each use begins with the seven writes of the initialisation, and after them
    every byte of its lines goes out in order, each right after a poll that found
    the transmitter free.  From any state with the divisor latch closed no other
    byte reaches the transmitter, and the line is left at eight data bits, no
    parity, one stop bit, divisor three and interrupts off.  The panic handler
    writes its line the same way and then the failure code to the exit port. *)
Theorem console_exact {D : Type} `{UartLaws D} (uses : list (list string)) (io : Io (D := D)) w :
  Z.testbit (wi_control (wire w (io_trace io))) 7 = false ->
  (exists io' trace, consoles (S busy_bound) uses io = Some io' /\ io_trace io' = io_trace io ++ trace /\ talks uses trace /\
    wi_bytes (wire w (io_trace io')) = wi_bytes (wire w (io_trace io)) ++ flat_map (flat_map bytes_of) uses /\
    (uses <> [] -> line_set (wire w (io_trace io')))) /\
  exists last trace, kernel_panic (S busy_bound) io = Some last /\ talks [[("MakopaOS kernel panic" ++ CRLF)%string]] trace /\
    io_trace last = io_trace io ++ trace ++ [Out32 QEMU_EXIT_PORT QEMU_FAILURE].
Proof.
  intros Hc. split; [|apply panic_ok]. destruct (consoles_ok uses io) as (io' & trace & Hrun & Htr & Htalk). exists io', trace.
  destruct (wire_talks _ uses trace Hc Htalk) as [Hb Hl]. rewrite Htr, wire_app. by split_and!.
Qed.

(** *** Witness *)

(** A transmitter that is busy for two polls after each byte. *)
Inductive Transmitter := Free | Shifting | Loaded.

#[local] Instance transmitter_ports : Ports Transmitter := {|
  port_in8 _ d := match d with Free => (0x20, Free) | Shifting => (0, Free) | Loaded => (0, Shifting) end;
  port_out8 port _ d := if port =? KERNEL_SERIAL then Loaded else d;
  port_out32 _ _ d := d
|}.

Definition transmitter_busy (d : Transmitter) : nat := match d with Free => 0 | Shifting => 1 | Loaded => 2 end.

Lemma transmitter_progress d status d' :
  port_in8 (KERNEL_SERIAL + 5) d = (status, d') -> Z.land status 0x20 <> 0 \/ (transmitter_busy d' < transmitter_busy d)%nat.
Proof. destruct d; intros [= <- <-]; [left; done|right; cbn; lia..]. Qed.

#[local] Instance transmitter_laws : UartLaws Transmitter := {|
  busy := transmitter_busy;
  busy_bound := 2%nat;
  busy_bounded d := match d with Free => le_S _ _ (le_S _ _ (le_n 0)) | Shifting => le_S _ _ (le_n 1) | Loaded => le_n 2 end;
  status_progress := transmitter_progress
|}.

Lemma console_exact_witness :
  exists io', consoles 3 [["ok"; "go"]; ["end"]]%string (mkIo Free []) = Some io' /\
    wi_bytes (wire (mkWire 0 (0, 0) 0 []) (io_trace io')) = [111; 107; 103; 111; 101; 110; 100].
Proof.
  destruct (console_exact [["ok"; "go"]; ["end"]]%string (mkIo Free []) (mkWire 0 (0, 0) 0 []) eq_refl)
    as [(io' & trace & Hrun & _ & _ & Hb & _) _].
  exists io'. split; [exact Hrun|exact Hb].
Defined.
