(* ===== verification/BootRun.v ===== *)
(** * From power-on to the success code

    The composition of the whole system: the loader against its firmware, the
    kernel's entry, the recovery context, the kernel's phases and the user
    programs.  [boot_kernel] is [kernel_entry] of [kernel/src/main.rs] to its
    end. *)

From Stdlib Require Import String.
From stdpp Require Import gmap.
From S2P Require Import Prelude.
From S2P Require Import BootContract.
From S2P Require Import BootNormalize.
From S2P Require Import BootNormalizeProofs.
From S2P Require Import BootValidate.
From S2P Require Import BootTheorems.
From S2P Require Import Extents.
From S2P Require Import FrameInit.
From S2P Require Import FrameTheorems.
From S2P Require Import Bytes.
From S2P Require Import KernelImage.
From S2P Require Import KernelImageTheorems.
From S2P Require Import Loader.
From S2P Require Import LoaderProofs.
From S2P Require Import LoaderTheorems.
From S2P Require Import KernelBoot.
From S2P Require Import KernelBootProofs.
From S2P Require Import BootChain.
From S2P Require Import FrameReturns.
From S2P Require Import RuntimeTypes.
From S2P Require Import Runtime.
From S2P Require Import FrameAllocator.
From S2P Require Import AddressSpace.
From S2P Require Import PageTables.
From S2P Require Import PageTablesProofs.
From S2P Require Import PageTablesTheorems.
From S2P Require Import KernelBackend.
From S2P Require Import KernelBackendProofs.
From S2P Require Import KernelSpaces.
From S2P Require Import KernelSpacesTheorems.
From S2P Require Import KernelDescriptors.
From S2P Require Import KernelDescriptorsProofs.
From S2P Require Import KernelScheduler.
From S2P Require Import KernelInvariant.
From S2P Require Import KernelRun.
From S2P Require Import KernelTheorems.
From S2P Require Import UserProbes.
From S2P Require Import UserRun.

#[local] Open Scope string_scope.
#[local] Open Scope Z_scope.

(** ** The entry to its end *)

(** What each message of the entry writes. *)
Definition message_text (m : Message) : string :=
  (match m with
   | BootErrorNullHandoff => "MakopaOS boot error: null handoff"
   | BootErrorInvalidHandoff => "MakopaOS boot error: invalid handoff"
   | BootErrorFrameAllocatorInit => "MakopaOS boot error: frame allocator init"
   | BootErrorFrameAllocation => "MakopaOS boot error: frame allocation"
   | BootErrorFrameRecycle => "MakopaOS boot error: frame recycle"
   | BootErrorFrameReuseMismatch => "MakopaOS boot error: frame reuse mismatch"
   | BootErrorFrameProbeRestore => "MakopaOS boot error: frame probe restore"
   | BannerVersion => "MakopaOS 0.1.0"
   | HandoffOkFramebuffer => "MakopaOS handoff v1 ok framebuffer"
   | HandoffOkNoFramebuffer => "MakopaOS handoff v1 ok no-framebuffer"
   | FramesOkReuse => "MakopaOS frames v1 ok reuse"
   end ++ CRLF)%string.

Section entry.
Variables (linkage : Linkage) (probes : ProbeSymbols) (trampolines : Trampolines) (continuation_address : Z).

(** The statics over an allocator and the recovery state, and what was written. *)
Definition entry_kernel (p : Processor) (cr3 : Z) (fa : FrameAllocator) (rc : Recovery) (messages : list Message) : Kernel :=
  mkKernel (mkMachine fa false (rc_state rc) (rc_words rc) cr3) descriptors_new p None TaskOwners_new None 0 ActiveContext_new
    (map message_text messages).

(** [kernel_entry]: the handoff and the allocator, then the recovery context and
    its activation.  [words] are the words of memory, [cr3] the firmware's root. *)
Definition boot_kernel (mem : Memory) (handoff : Z) (cpu : Cpu) (p : Processor) (cr3 : Z) (words : Words) : Control :=
  let rc := mkRecoveryContext cpu (mkRecovery 0 0 0 false) words in
  match kernel_entry mem handoff allocator_new with
  | None => Stopped
  | Some (ExitFailure, messages, fa) => Exit QEMU_FAILURE (entry_kernel p cr3 fa rc messages)
  | Some (ToRecoveryContext, messages, fa) =>
      match prepare_recovery_context linkage rc with
      | None => Stopped
      | Some (Err _, rc) => kernel_failure "recovery context preparation" (entry_kernel p cr3 fa rc messages)
      | Some (Ok _, rc) =>
          activate_recovery_context linkage probes trampolines continuation_address (entry_kernel p cr3 fa rc messages)
      end
  end.
End entry.

(** ** What the linker made of the kernel *)

Section linked.
Variables (linkage : Linkage) (probes : ProbeSymbols) (trampolines : Trampolines) (place : Z -> bool -> Placement).

Definition probe_ranges : list (Z * Z) :=
  [pb_sender probes; pb_receiver probes; pb_supervisor probes; pb_workload probes; pb_journal_supervisor probes; pb_journal_workload probes].

(** Where the record table of the journal supervisor is in its probe. *)
Definition records_offset : Z := pl_data (place SUPERVISOR_GENERATION true) - USER_TEXT.

(** The symbols fit the code, and memory holds the probes' data. *)
Record kernel_linked (mem : Memory) : Prop := {
  kl_linkage : linkage_ok linkage;
  kl_layout : image_layout linkage probes;
  kl_trampolines : trampolines_ok trampolines;
  kl_start : 0 < lk_kernel_start linkage;
  kl_ranges : Forall (fun range => 0 < snd range - fst range <= PAGE_SIZE) probe_ranges;
  kl_code : forall g j, g ∈ [1; 2; 3; 4; 5] -> code_placed (place g j) (probe_program g j);
  kl_aligned : pl_data (place SUPERVISOR_GENERATION true) mod 8 = 0;
  kl_table : 0 <= records_offset /\
    records_offset + 8 * Z.of_nat (length journal_expected_records)
      <= snd (pb_journal_supervisor probes) - fst (pb_journal_supervisor probes);
  kl_records : forall i x, journal_expected_records !! i = Some x ->
    from_le_bytes (read_memory mem (fst (pb_journal_supervisor probes) + records_offset + 8 * Z.of_nat i) 8) = x
}.

(** The words of the text are the bytes of memory. *)
Definition text_words (mem : Memory) (w : Words) : Prop :=
  forall a, lk_text_start linkage <= a < lk_text_end linkage -> byte_at w a = mem a.

Variables (mem : Memory) (w : Words).
Hypothesis kernel : kernel_linked mem.
Hypothesis text : text_words mem w.

Lemma generation_range g j :
  g ∈ [2; 3; 4; 5] -> exists range, probe_range probes g j = Some range /\ range ∈ probe_ranges /\
    probe_bytes probes w g j = Ok (read_bytes w (fst range) (snd range - fst range)).
Proof.
  intros Hg. assert (exists range, probe_range probes g j = Some range /\ range ∈ probe_ranges /\ (g =? TASK_GENERATION) = false)
    as (range & Hr & Hin & Hne).
  { rewrite !elem_of_cons in Hg. unfold probe_ranges. destruct Hg as [->|[->|[->|[->|Hg]]]]; [destruct j..|by apply not_elem_of_nil in Hg];
      (eexists; split; [reflexivity|]; split; [repeat first [apply list_elem_of_here | apply list_elem_of_further]|done]). }
  exists range. split_and!; [done..|]. unfold probe_bytes. rewrite Hne, Hr. destruct range as [start end_]. cbn [fst snd].
  pose proof (proj1 (Forall_forall _ _) (kl_ranges _ kernel) _ Hin) as Hlen. cbn [fst snd] in Hlen.
  unfold checked_sub. rewrite (proj2 (Z.leb_le start end_)) by lia.
  rewrite (proj2 (Z.eqb_neq _ 0)), (proj2 (Z.leb_le _ PAGE_SIZE)) by lia. done.
Qed.

Lemma linked_probe_ok g j : g ∈ [1; 2; 3; 4; 5] -> is_ok (probe_bytes probes w g j) = true.
Proof.
  intros [->|Hg]%elem_of_cons; [done|]. by destruct (generation_range g j Hg) as (range & _ & _ & ->).
Qed.

Lemma words_of_nth n : forall k bytes, (k < n)%nat -> nth k (words_of n bytes) 0 = from_le_bytes (take 8 (drop (8 * k) bytes)).
Proof.
  induction n as [|n IH]; intros k bytes Hk; [lia|]. cbn [words_of]. destruct k as [|k]; [done|]. cbn [nth].
  rewrite IH by lia. rewrite drop_drop. do 3 f_equal. lia.
Qed.

(** Eight bytes of the text, as the window of the probe sees them. *)
Lemma text_bytes start len o :
  lk_text_start linkage <= start -> start + len <= lk_text_end linkage -> 0 <= o -> o + 8 <= len ->
  take 8 (drop (Z.to_nat o) (read_bytes w start len)) = read_memory mem (start + o) 8.
Proof.
  intros Hs He Ho Hl. apply list_eq. intros i. unfold read_bytes, read_memory. destruct (decide (i < 8)%nat) as [Hi|Hi].
  - rewrite lookup_take_lt, lookup_drop, list_lookup_fmap, lookup_seqZ_lt by lia. rewrite list_lookup_fmap, lookup_seq_lt by lia.
    cbn [fmap option_fmap option_map]. f_equal. rewrite text by lia. f_equal. lia.
  - rewrite lookup_take_ge by lia. symmetry. apply lookup_ge_None_2. rewrite length_fmap, length_seq. lia.
Qed.

Lemma linked_assembled : assembled probes place w.
Proof.
  destruct (kl_table _ kernel) as [Hlow Hhigh]. pose proof (kl_aligned _ kernel) as Hal.
  destruct (generation_range SUPERVISOR_GENERATION true) as (range & Hr & Hin & Hb); [apply (bool_decide_unpack _); by vm_compute|].
  change (probe_range probes SUPERVISOR_GENERATION true) with (Some (pb_journal_supervisor probes)) in Hr. injection Hr as <-.
  pose proof (proj1 (Forall_forall _ _) (kl_ranges _ kernel) _ Hin) as Hlen.
  pose proof (proj1 (Forall_forall _ _) (il_probes _ _ (kl_layout _ kernel)) _ Hin) as [Ht1 Ht2].
  set (start := fst (pb_journal_supervisor probes)) in *. set (end_ := snd (pb_journal_supervisor probes)) in *.
  unfold records_offset in *. set (d := pl_data (place SUPERVISOR_GENERATION true)) in *.
  split; [apply (kl_code _ kernel)|fold d; lia|fold d; lia|done|]. fold d.
  exists (read_bytes w start (end_ - start)). split; [done|]. intros i x Hi. rewrite <-(kl_records _ kernel i x Hi). fold start.
  pose proof (lookup_lt_Some _ _ _ Hi) as Hlt.
  assert (Hq : d - USER_TEXT = 8 * ((d - USER_TEXT) / 8)).
  { apply Z.div_exact; [done|]. rewrite Zminus_mod, Hal. by vm_compute. }
  set (q := (d - USER_TEXT) / 8) in *. change PAGE_SIZE with 4096 in Hlen.
  assert (Hbytes : length (read_bytes w start (end_ - start)) = Z.to_nat (end_ - start)) by (unfold read_bytes; by rewrite length_fmap, length_seqZ).
  unfold image_words. rewrite words_of_nth by (unfold ENTRY_COUNT; lia).
  rewrite drop_app_le, take_app_le by (rewrite ?length_drop, Hbytes; lia).
  replace (8 * Z.to_nat (q + Z.of_nat i))%nat with (Z.to_nat (8 * (q + Z.of_nat i))) by lia.
  unfold records_offset. fold d. rewrite text_bytes by lia. do 2 f_equal. lia.
Qed.
End linked.

(** ** The kernel that was booted *)

(** Memory enough for two tasks, none of it at address zero or out of reach of a
    page-table entry. *)
Record roomy (fa : FrameAllocator) : Prop := {
  rm_pages : 2 * Z.of_nat TASK_FRAME_COUNT <= pages (live_free fa);
  rm_room : (fa_free_len fa + 2 * TASK_FRAME_COUNT <= MAX_FRAME_EXTENTS)%nat;
  rm_zero : ~ covers (live_managed fa) 0;
  rm_reach : forall x, covers (live_managed fa) x -> x < 2 ^ 52
}.

(** What [boot_kernel] activates meets the hypotheses of the kernel's theorems. *)
Lemma boot_setting linkage probes trampolines place mem w p cr3 fa cpu rs rc messages :
  kernel_linked linkage probes trampolines place mem -> text_words linkage mem w ->
  prepare_recovery_context linkage (mkRecoveryContext cpu rs w) = Some (Ok tt, rc) ->
  fa_inv fa -> roomy fa -> (forall x, covers (live_managed fa) x -> ~ in_image linkage x) ->
  let k := entry_kernel p cr3 fa rc messages in
  setting linkage probes trampolines k /\ assembled probes place (km_words (kn_machine k)).
Proof.
  intros Hk Ht Hprep Hinv [R1 R2 R3 R4] Himg k. pose proof (kl_linkage _ _ _ _ _ Hk) as Hl. pose proof (kl_layout _ _ _ _ _ Hk) as Hy.
  assert (Hkeep : forall a, lk_text_start linkage <= a < lk_text_end linkage -> read_word (rc_words rc) a = read_word w a).
  { intros a Ha. apply (prepare_keeps linkage Hl _ _ _ Hprep). unfold in_pool, pool_base.
    destruct Hy as [Hs Hp _ _ _]. lia. }
  assert (Hok : machine_ok linkage (recovered fa false rc)).
  { apply (recovered_ok linkage probes Hl Hy fa false _ rc Hprep Hinv). intros x Hx. split; [by apply R4|by apply Himg]. }
  split; [|].
  - split; [done|done|apply (kl_trampolines _ _ _ _ _ Hk)| |by split].
    split; [exact Hok|apply (kl_start _ _ _ _ _ Hk)|exact R3|exact R1|exact R2|].
    intros j g Hg. unfold probe_ok. cbn [km_words km_journaled_probes set_probes settle set_cr3 kn_machine k entry_kernel].
    rewrite (probe_bytes_agree linkage probes Hl Hy w) by done. by apply (linked_probe_ok linkage probes trampolines place mem).
  - destruct (linked_assembled linkage probes trampolines place mem w Hk Ht) as [A1 A2 A3 A4 (bytes & A5 & A6)].
    split; try done. exists bytes. split; [|done]. cbn [km_words kn_machine k entry_kernel].
    by rewrite (probe_bytes_agree linkage probes Hl Hy w) by done.
Qed.

(** ** Power-on *)

(** The uses of the serial port in a successful run: the entry, then the
    success function of each phase, each with a port of its own. *)
Definition console_uses (framebuffer : bool) : list (list string) :=
  map (map (fun line => line ++ CRLF))
    [["MakopaOS 0.1.0";
      if framebuffer then "MakopaOS handoff v1 ok framebuffer" else "MakopaOS handoff v1 ok no-framebuffer";
      "MakopaOS frames v1 ok reuse"];
     ["MakopaOS isolation v1 ok user-fault-contained"];
     ["MakopaOS ipc v1 ok cooperative-two-task"; "MakopaOS capabilities v1 ok task-local-attenuation"];
     ["MakopaOS approval v1 ok staged-single-use"];
     ["MakopaOS effects v1 ok ordered-redacted"]]%string.

(** Everything a successful run writes to the serial port. *)
Definition transcript (framebuffer : bool) : list string := concat (console_uses framebuffer).

Section power_on.
Context {U St : Type} `{HU : Uefi U St, !UefiLaws U St}.

(** The kernel file of the firmware is this kernel: its segments cover the image. *)
Definition kernel_on_disk (linkage : Linkage) : Prop :=
  forall bytes image segs, kernel_file (U := U) (St := St) bytes -> image_parse bytes = Some (Ok image) ->
    collect (S (im_program_header_count image)) (segments image) = Some segs ->
    forall a, in_image linkage a -> exists s, s ∈ segs /\ sg_physical_start s <= a < page_end s.

(** The allocator the entry leaves, against the image. *)
Lemma entry_allocator linkage (m m' : Loader.Machine U) entry hp messages fa :
  kernel_on_disk linkage -> main m = Some (Entered (St := St) entry hp, m') ->
  kernel_entry (mc_memory m') hp allocator_new = Some (ToRecoveryContext, messages, fa) ->
  fa_inv fa /\ (forall x, covers (live_managed fa) x -> ~ in_image linkage x) /\
  exists framebuffer, messages = ready_messages framebuffer.
Proof.
  intros Hdisk Hm Hentry. destruct (main_spec m) as (out & m2 & Hm2 & Hend). rewrite Hm in Hm2.
  injection Hm2 as <- <-. destruct Hend as (bytes & image & segs & h & regions & Hf & Hp & Hc & He & Hen).
  pose proof (segments_nonempty bytes image segs (kernel_file_ok _ Hf) Hp Hc) as Hseg.
  destruct (entry_boots image segs hp (mc_memory m') h regions Hen Hseg) as (_ & fa0 & _ & [[_ (fa' & Hx & Hrun & _)]|[_ (fa' & Hx)]]);
    rewrite Hentry in Hx; [|done]. injection Hx as -> ->.
  destruct (en_typed _ _ _ _ _ _ Hen) as (_ & _ & Hrt).
  destruct (partition_run regions _ Hrt Hrun) as (Hinv & Hman & _). split_and!; [done| |by exists (framebuffer_present h)].
  intros x Hx Hi. destruct (Hdisk bytes image segs Hf Hp Hc x Hi) as (s & Hs & Hin).
  destruct (en_valid _ _ _ _ _ _ Hen) as (_ & _ & _ & _ & _ & _ & _ & _ & _ & _ & _ & _ & Hmap & _).
  apply Hman, (usable_kind_at _ _ Hmap) in Hx.
  by rewrite (proj1 (Forall_forall _ _) (en_reserved _ _ _ _ _ _ Hen) s Hs x Hin) in Hx.
Qed.

(** C6: from power-on to the success code.  When the loader, against any firmware
    that keeps its laws, enters the kernel, the kernel's entry reaches the recovery
    context with memory enough for two tasks, and the recovery context is accepted,
    then the whole system runs to the end: the entry, the isolation probe and the
    three phases with their user programs, to the success code, with exactly the
    eight lines of the transcript on the serial port, no task left and the frames
    that were free at the entry free again. *)
Theorem power_on_succeeds linkage probes trampolines continuation_address place leftover cpu p cr3 w
    (m m' : Loader.Machine U) entry hp messages fa rc :
  kernel_on_disk linkage -> main m = Some (Entered (St := St) entry hp, m') ->
  kernel_entry (mc_memory m') hp allocator_new = Some (ToRecoveryContext, messages, fa) -> roomy fa ->
  kernel_linked linkage probes trampolines place (mc_memory m') -> text_words linkage (mc_memory m') w ->
  prepare_recovery_context linkage (mkRecoveryContext cpu (mkRecovery 0 0 0 false) w) = Some (Ok tt, rc) ->
  length leftover = 15%nat -> continuation_address <> 0 ->
  exists n k framebuffer,
    system_run linkage probes trampolines continuation_address place leftover n
      (boot_kernel linkage probes trampolines continuation_address (mc_memory m') hp cpu p cr3 w) = Exit QEMU_SUCCESS k /\
    kn_serial k = transcript framebuffer /\ kn_task_runtime k = None /\ kn_task_owners k = TaskOwners_new /\
    live_free (km_allocator (kn_machine k)) = live_free fa.
Proof.
  intros Hdisk Hm Hentry Hroom Hk Ht Hprep Hlen Hca.
  destruct (entry_allocator linkage m m' entry hp messages fa Hdisk Hm Hentry) as (Hinv & Himg & fb & ->).
  destruct (boot_setting linkage probes trampolines place (mc_memory m') w p cr3 fa _ _ rc (ready_messages fb) Hk Ht Hprep Hinv Hroom Himg)
    as [Hset Has].
  destruct (reference_run_finishes linkage probes trampolines continuation_address place leftover _ Hset Has Hlen Hca) as (n & k & Hrun & Hc).
  exists n, k, fb. unfold boot_kernel. rewrite Hentry, Hprep. split; [exact Hrun|]. destruct Hc as [Hs [_ Ho Hr _ _] Hfree].
  split_and!; [|done|done|exact Hfree]. rewrite Hs. by destruct fb.
Qed.
End power_on.

(** ** Witness *)

(** A page of bytes, written as words. *)
Lemma byte_at_page base bytes w i :
  base mod 8 = 0 -> Forall byte_ok bytes -> length bytes = (8 * ENTRY_COUNT)%nat -> 0 <= i < 8 * Z.of_nat ENTRY_COUNT ->
  byte_at (write_entries base 0 (words_of ENTRY_COUNT bytes) w) (base + i) = nth (Z.to_nat i) bytes 0.
Proof.
  intros Hal Hok Hlen Hi. unfold byte_at. pose proof (Z.div_mod i 8 ltac:(lia)) as Hd. pose proof (Z.mod_pos_bound i 8 ltac:(lia)) as Hm.
  assert (Hmod : (base + i) mod 8 = i mod 8) by (by rewrite <-Zplus_mod_idemp_l, Hal).
  rewrite Hmod. replace (base + i - i mod 8) with (entry_address base (i / 8)) by (unfold entry_address; lia).
  pose proof (Z.div_pos i 8 ltac:(lia) ltac:(lia)) as Hk. unfold ENTRY_COUNT in *.
  assert (Hread : read_word (write_entries base 0 (words_of 512 bytes) w) (entry_address base (i / 8))
    = from_le_bytes (take 8 (drop (8 * Z.to_nat (i / 8)) bytes))).
  { apply (inj Some). rewrite write_frame_read by (by rewrite words_of_length || (unfold index_ok; lia)).
    rewrite <-words_of_nth with (n := 512%nat) by lia. 
    destruct (nth_lookup_or_length (words_of 512 bytes) (Z.to_nat (i / 8)) 0) as [E|E]; [exact E|]. rewrite words_of_length in E. lia. }
  rewrite Hread. set (l := take 8 (drop (8 * Z.to_nat (i / 8)) bytes)).
  assert (Hl : length l = 8%nat) by (unfold l; rewrite length_take, length_drop; lia).
  assert (Hlok : Forall byte_ok l) by (by apply Forall_take, Forall_drop).
  rewrite <-Hl, to_from_le_bytes by done. unfold l. rewrite !nth_lookup, lookup_take_lt, lookup_drop by lia. do 2 f_equal. lia.
Qed.

(** A kernel of three segments at one megabyte: a page of text, which begins with
    the headers of its file, a page of read-only data, and a page of data followed
    by the tables and the stacks. *)
Module Disk.

Definition linkage : Linkage :=
  mkLinkage 0x100000 0x101000 0x101000 0x102000 0x102000 0x103000 0x103000 0x137000 0x100000 0x137000
    0x103000 0x123000 0x133000.

Definition probes : ProbeSymbols :=
  mkProbes (0x100800, 0x100810) (0x100810, 0x100820) (0x100820, 0x100830) (0x100830, 0x100840)
    (0x100100, 0x100720) (0x100840, 0x100850).

(** One byte for an instruction, the records after the code. *)
Definition place (_ : Z) (_ : bool) : Placement := mkPlacement (fun i => USER_TEXT + Z.of_nat i) (USER_TEXT + 0xa0).

Definition program_header (flags start file_size memory_size : Z) : list Z :=
  (to_le_bytes 4 PROGRAM_HEADER_LOAD ++ to_le_bytes 4 flags ++ to_le_bytes 8 0 ++ to_le_bytes 8 start ++ to_le_bytes 8 start
  ++ to_le_bytes 8 file_size ++ to_le_bytes 8 memory_size ++ to_le_bytes 8 KernelImage.PAGE_SIZE)%list.

(** The file up to the journal supervisor's probe, its code left blank, and the
    records. *)
Definition kernel : list Z :=
  ([0x7f; 69; 76; 70; 2; 1; 1] ++ replicate 9 0
  ++ to_le_bytes 2 ELF_TYPE_EXECUTABLE ++ to_le_bytes 2 ELF_MACHINE_X86_64 ++ to_le_bytes 4 1
  ++ to_le_bytes 8 0x100000 ++ to_le_bytes 8 ELF_HEADER_SIZE ++ replicate 12 0
  ++ to_le_bytes 2 ELF_HEADER_SIZE ++ to_le_bytes 2 PROGRAM_HEADER_SIZE ++ to_le_bytes 2 3 ++ replicate 6 0
  ++ program_header 5 0x100000 0x720 0x1000 ++ program_header 4 0x101000 0 0x1000 ++ program_header 6 0x102000 0 0x35000
  ++ replicate 184 0 ++ flat_map (to_le_bytes 8) journal_expected_records)%list.

#[local] Instance uefi : Uefi (list (Z * Z)) Z := SampleFirmware.firmware kernel.

Lemma kernel_ok : slice_ok kernel.
Proof. split; [apply bytes_ok_compute; vm_compute; reflexivity|vm_compute; done]. Qed.

#[local] Instance laws : UefiLaws (list (Z * Z)) Z := SampleFirmware.firmware_laws kernel kernel_ok.

(** The machine when the loader enters the kernel. *)
Definition machine : Loader.Machine (list (Z * Z)) :=
  match main (H := uefi) SampleFirmware.power_on with Some (_, m) => m | None => SampleFirmware.power_on end.

Definition words : Words := write_entries 0x100000 0 (words_of 512 (kernel ++ replicate 2272 0)%list) ∅.

Lemma enters : main (H := uefi) SampleFirmware.power_on = Some (Entered (St := Z) 0x100000 0x180000, machine).
Proof.
  assert (E : fst <$> main (H := uefi) SampleFirmware.power_on = Some (Entered (St := Z) 0x100000 0x180000)) by (vm_compute; reflexivity).
  unfold machine. destruct (main (H := uefi) SampleFirmware.power_on) as [[out m]|]; [|discriminate E]. injection E as ->. reflexivity.
Qed.

(** The segments of the file. *)
Definition placed : list Segment :=
  [mkSegment 0 0x720 0x100000 0x1000 5; mkSegment 0 0 0x101000 0x1000 4; mkSegment 0 0 0x102000 0x35000 6].

Lemma segments_placed bytes image segs :
  kernel_file (HU := uefi) bytes -> image_parse bytes = Some (Ok image) ->
  collect (S (im_program_header_count image)) (segments image) = Some segs -> segs = placed /\ im_bytes image = kernel.
Proof.
  intros (u & u' & E) Hp Hc. simpl in E. injection E as <- _.
  assert (Hx : match image_parse kernel with
               | Some (Ok image) => collect (S (im_program_header_count image)) (segments image)
               | _ => None end = Some placed) by (vm_compute; reflexivity).
  rewrite Hp, Hc in Hx. injection Hx as ->. split; [reflexivity|].
  apply (image_parse_admissible _ _ kernel_ok Hp).
Qed.

Lemma on_disk : kernel_on_disk (HU := uefi) linkage.
Proof.
  intros bytes image segs Hf Hp Hc a Ha. destruct (segments_placed bytes image segs Hf Hp Hc) as [-> _].
  unfold in_image, linkage in Ha. cbn [lk_kernel_start lk_kernel_end] in Ha.
  destruct (decide (a < 0x101000)); [|destruct (decide (a < 0x102000))]; eexists.
  - split; [apply list_elem_of_here|]. vm_compute page_end. cbn [sg_physical_start]. lia.
  - split; [apply list_elem_of_further, list_elem_of_here|]. vm_compute page_end. cbn [sg_physical_start]. lia.
  - split; [do 2 apply list_elem_of_further; apply list_elem_of_here|]. vm_compute page_end. cbn [sg_physical_start]. lia.
Qed.

Lemma some_pair {A B} (a a' : A) (b b' : B) : Some (a, b) = Some (a', b') -> a = a' /\ b = b'.
Proof. by intros [= -> ->]. Qed.

(** The text in memory is the file, then zeros. *)
Lemma memory_text i : 0 <= i < 0x1000 -> mc_memory machine (0x100000 + i) = nth (Z.to_nat i) kernel 0.
Proof.
  intros Hi. destruct (main_spec (HU := uefi) (UefiLaws0 := laws) SampleFirmware.power_on) as (out & m & Hm & Hend).
  rewrite enters in Hm. destruct (some_pair _ _ _ _ Hm) as [<- <-]. destruct Hend as (bytes & image & segs & h & regions & Hf & Hp & Hc & _ & Hen).
  destruct (segments_placed bytes image segs Hf Hp Hc) as [-> Hb].
  pose proof (Forall_inv (en_segments _ _ _ _ _ _ Hen)) as Hs. rewrite Hb in Hs.
  exact (Hs i Hi).
Qed.

Lemma words_text : text_words linkage (mc_memory machine) words.
Proof.
  intros a Ha. unfold linkage in Ha. cbn [lk_text_start lk_text_end] in Ha.
  replace a with (0x100000 + (a - 0x100000)) by lia. rewrite memory_text by lia. unfold words.
  assert (Hok : Forall byte_ok (kernel ++ replicate 2272 0)%list) by (apply Forall_app; split; [apply kernel_ok|by apply Forall_replicate]).
  rewrite (byte_at_page 0x100000 (kernel ++ replicate 2272 0)%list); [|done|done|by vm_compute|unfold ENTRY_COUNT; lia].
  set (i := Z.to_nat (a - 0x100000)). destruct (decide (i < length kernel)%nat) as [Hi|Hi]; [by apply app_nth1|].
  rewrite app_nth2, (nth_overflow kernel) by lia. rewrite nth_lookup. by destruct (replicate _ _ !! _) as [x|] eqn:E; [apply lookup_replicate in E as [-> _]|].
Qed.

(** The word at an offset of the file. *)
Definition file_word (o : nat) : Z := from_le_bytes (map (fun b => nth (o + b) kernel 0) (seq 0 8)).

Fixpoint words_at (o : nat) (values : list Z) : bool :=
  match values with
  | [] => true
  | v :: rest => (file_word o =? v) && words_at (o + 8) rest
  end.

Lemma words_at_lookup values : forall o i x, words_at o values = true -> values !! i = Some x -> file_word (o + 8 * i) = x.
Proof.
  induction values as [|v values IH]; intros o i x Hw Hi; [done|]. cbn [words_at] in Hw. apply andb_true_iff in Hw as [Hv%Z.eqb_eq Hw].
  destruct i as [|i]; [injection Hi as <-; by rewrite Nat.mul_0_r, Nat.add_0_r|]. rewrite <-(IH _ i x Hw Hi). f_equal. lia.
Qed.

Lemma records_in_memory i x :
  journal_expected_records !! i = Some x -> from_le_bytes (read_memory (mc_memory machine) (0x1001a0 + 8 * Z.of_nat i) 8) = x.
Proof.
  intros Hi. pose proof (lookup_lt_Some _ _ _ Hi) as Hlt. change (length journal_expected_records) with 176%nat in Hlt.
  assert (Hw : words_at 416 journal_expected_records = true) by (vm_compute; reflexivity).
  rewrite <-(words_at_lookup _ _ _ _ Hw Hi). unfold file_word, read_memory. f_equal. apply list_fmap_ext.
  intros ? b Hb%list_elem_of_lookup_2%elem_of_seq. replace (0x1001a0 + 8 * Z.of_nat i + Z.of_nat b) with (0x100000 + (416 + 8 * Z.of_nat i + Z.of_nat b)) by lia.
  rewrite memory_text by lia. f_equal. lia.
Qed.

Lemma linked : kernel_linked linkage probes trampolines_example place (mc_memory machine).
Proof.
  split.
  - split; vm_compute; repeat split; discriminate.
  - split; [vm_compute; repeat split; discriminate..|by vm_compute|]. rewrite !Forall_cons, Forall_nil. vm_compute. repeat split; discriminate.
  - apply trampolines_example_ok.
  - done.
  - unfold probe_ranges. rewrite !Forall_cons, Forall_nil. vm_compute. repeat split; discriminate.
  - intros g j _. pose proof (program_length g j). assert (Hp : USER_TEXT + PAGE_SIZE = USER_TEXT + 4096) by done.
    split; cbn [place pl_code]; lia.
  - done.
  - vm_compute. split; discriminate.
  - exact records_in_memory.
Qed.

Definition roomyb (fa : FrameAllocator) : bool :=
  (2 * Z.of_nat TASK_FRAME_COUNT <=? pages (live_free fa)) && (fa_free_len fa + 2 * TASK_FRAME_COUNT <=? MAX_FRAME_EXTENTS)%nat
  && forallb (fun e => (0 <? physical_start e) && (physical_start e + page_count e * 4096 <=? 2 ^ 52)) (live_managed fa).

Lemma roomyb_spec fa : roomyb fa = true -> roomy fa.
Proof.
  unfold roomyb. rewrite !andb_true_iff, Z.leb_le, Nat.leb_le. intros [[H1 H2] H3].
  assert (Hx : forall x, covers (live_managed fa) x -> 0 < x < 2 ^ 52).
  { intros x (e & He%list_elem_of_In & Hx). pose proof (proj1 (forallb_forall _ _) H3 e He) as H. b2p. unfold eend, pages_end, BootContract.PAGE_SIZE in *. lia. }
  split; [done|done| |].
  - intros H%Hx. lia.
  - intros x H%Hx. lia.
Qed.

Definition cpu : Cpu := mkCpu 0x80000008 (Z.shiftl 1 20) 0 0 0.
End Disk.

Lemma power_on_succeeds_witness :
  exists n k framebuffer,
    system_run Disk.linkage Disk.probes trampolines_example continuation_example Disk.place (replicate 15 0) n
      (boot_kernel Disk.linkage Disk.probes trampolines_example continuation_example (mc_memory Disk.machine) 0x180000 Disk.cpu
         processor_example 0x1000 Disk.words) = Exit QEMU_SUCCESS k /\
    kn_serial k = transcript framebuffer.
Proof.
  assert (Hentry : match kernel_entry (mc_memory Disk.machine) 0x180000 allocator_new with
                   | Some (ToRecoveryContext, _, fa) => Disk.roomyb fa
                   | _ => false
                   end = true) by (vm_compute; reflexivity).
  destruct (kernel_entry (mc_memory Disk.machine) 0x180000 allocator_new) as [[[[|] messages] fa]|] eqn:E; [discriminate Hentry| |discriminate Hentry].
  assert (Hprep : match prepare_recovery_context Disk.linkage (mkRecoveryContext Disk.cpu (mkRecovery 0 0 0 false) Disk.words) with
                  | Some (Ok _, _) => true
                  | _ => false
                  end = true) by (vm_compute; reflexivity).
  destruct (prepare_recovery_context Disk.linkage (mkRecoveryContext Disk.cpu (mkRecovery 0 0 0 false) Disk.words)) as [[[[]|] rc]|] eqn:Er;
    [|discriminate Hprep..].
  assert (Hca : continuation_example <> 0) by (unfold continuation_example; lia).
  destruct (power_on_succeeds (HU := Disk.uefi) (UefiLaws0 := Disk.laws) Disk.linkage Disk.probes trampolines_example continuation_example
    Disk.place (replicate 15 0) Disk.cpu processor_example 0x1000 Disk.words SampleFirmware.power_on Disk.machine 0x100000 0x180000
    messages fa rc Disk.on_disk Disk.enters E (Disk.roomyb_spec fa Hentry) Disk.linked Disk.words_text Er eq_refl Hca)
    as (n & k & fb & Hrun & Hs & _).
  exists n, k, fb. split; [exact Hrun|exact Hs].
Defined.
